(* ===== verification/_CoqProject ===== *)
-Q . S2P
Prelude.v
Flash.v
Wire.v
Inode.v
Espfs.v
EspfsFile.v
EspfsTree.v
EspfsPlan.v
EspfsLog.v
EspfsCompact.v
EspfsSpec.v
EspfsOps.v
EspfsPaths.v
Sched.v
SchedOps.v
Slots.v
Process.v
Syscall.v
ProcessOps.v
Path.v
Vfs.v
VfsOps.v
EspfsVfs.v
VfsSpec.v
EspfsMount.v
Parser.v
Ota.v
OtaOps.v
Elf.v
ElfOps.v
Pipe.v
PipeOps.v
RamFs.v
RamFsOps.v
HostKeyStore.v
WifiStore.v
NvsOps.v
Session.v
SessionOps.v
Text.v
SshProto.v
SshProtoOps.v
SshCrypt.v
SshAuth.v
SshCryptOps.v
SshAuthOps.v
SshConn.v
SshConnOps.v
SshStream.v
SyscallFs.v
Sh.v
SyscallFsOps.v
ShOps.v
ShWp.v
ShRun.v
ShLine.v
ShEdit.v
ShKeys.v
ToolIo.v
ToolBase64.v
ToolSort.v
ToolTsort.v
ToolBc.v
ToolFactor.v
ToolCal.v
ToolCksum.v
ToolDos.v
VfsDesc.v
KShell.v
KShellOps.v
Format.v
Procfs.v
ProcfsOps.v
Devfs.v
Boot.v
BootOps.v
Socket.v
SyscallNet.v
SocketOps.v
Wlan.v
