(* ===== verification/Prelude.v ===== *)
(** * EspressoOS: a verification development (root file)

    EspressoOS (src/) is an operating system in Rust for the ESP32-S3: a kernel
    (kernel/src) with a preemptive scheduler, processes in PSRAM slots, system
    calls, a VFS, a flash file system, pipes, firmware update, an SSH server and a
    shell, and user programs (userland/).  This library translates the parts that
    carry its own logic into functions and proves what makes each part correct.

    ** Conventions

    An unsigned integer is a [Z]; where the code can wrap (the release profile does
    not check) the model wraps, with [u8] ... [u64] below; [usize] is [u32].  Bytes
    are [Z]s in a list, strings [String.string].  A [KResult] is a sum; a function
    that changes state and may fail is an [ST S A]: what was written before an error
    stays written.  A call that may put its task to sleep is an [IO W A], which
    answers [Ret] or [Park]; a parked call is repeated when the task is woken.  A
    [Mutex] masks interrupts on the one core of the default build, so a section under
    a guard is one step; where a function takes several guards the theorems that
    depend on it use a step relation between the sections.  Loops with a bound are
    structural; a loop without one takes fuel, and a theorem says how much is enough.
    A comment before a definition names the file, lines and item it translates.

    ** Parts

    Storage.
    - Prelude.v (this file): prelude.rs; integers, results, bytes, strings, maps.
    - Flash.v: drivers/flash.rs over an abstract NOR device (class [NorFlash], laws
      [NorFlashLaws]: a program clears bits, an erase sets a sector), with a device
      in memory as instance; [nor_works] says that the chip itself does not fail.
    - Wire.v: fs/espfs/wire.rs; records, superblocks, CRC-32.
    - Espfs.v: fs/espfs/mod.rs, every operation.  EspfsFile.v, EspfsTree.v,
      EspfsPlan.v, EspfsLog.v, EspfsCompact.v, EspfsSpec.v carry its lemmas; its
      theorems are in EspfsOps.v.  The abstract state is [view]: a map from node
      numbers to contents or to directories; EspfsPaths.v reads it by paths.
    - Inode.v: vfs/inode.rs; the traits [Inode] and [FileSystem] as a class and a
      record, and the laws ([FileLaws]) that the VFS needs of a file system.
    - Path.v, Vfs.v: vfs/mount.rs, vfs/file.rs, vfs/mod.rs.  VfsOps.v has the lemmas
      on descriptor tables, VfsSpec.v the theorems, over any file system with
      [FileLaws], VfsDesc.v what each call does to descriptors; EspfsVfs.v and
      RamFsOps.v prove the laws for EspFs and RamFs, EspfsMount.v follows the calls
      down to EspFs mounted at the root.
    - RamFs.v, RamFsOps.v: fs/ramfs.rs.   Pipe.v, PipeOps.v: vfs/pipe.rs, over a
      scheduler given by the classes [Tasks] and [TaskLaws].
    - Format.v ([format!], decimal numbers, lossy text), Procfs.v, ProcfsOps.v:
      fs/procfs.rs, fs/sysfs.rs.   Devfs.v: vfs/devfs.rs.
    - HostKeyStore.v, WifiStore.v, NvsOps.v: drivers/ssh/host_key_store.rs,
      drivers/wifi_store.rs.   Ota.v, OtaOps.v: ota/mod.rs, ota/partition.rs.

    Tasks and programs.
    - Sched.v, SchedOps.v: scheduler/mod.rs, policy.rs, task.rs, and the frame of
      arch/xtensa/context.rs (class [Frame]).
    - Slots.v: mm/psram_exec.rs.   Process.v: scheduler/process.rs.   Syscall.v:
      the process and signal calls of syscall/handler.rs, table.rs, trap.rs.
      ProcessOps.v has the theorems of these three.
    - Elf.v, ElfOps.v: fs/elf.rs.   SyscallFs.v, SyscallFsOps.v: the calls of files,
      names, programs and memory of syscall/handler.rs, over the kernel as a whole
      (tasks, processes, slots, descriptors, file systems, memory).
    - Boot.v, BootOps.v: the programs and files that main.rs puts into the file system.

    Terminals and the network.
    - Session.v, SessionOps.v: session.rs.   Text.v: the text functions of [str].
    - Socket.v, SyscallNet.v, SocketOps.v: vfs/socket.rs, the calls of sockets, devices
      and updates of syscall/handler.rs, and the sockets of drivers/wifi.rs, over the
      network stack as a class; a panic of the stack is a flag of the state.   Wlan.v:
      the rest of drivers/wifi.rs, over the radio as a class.
    - SshProto.v, SshCrypt.v, SshAuth.v, SshConn.v, SshStream.v and their Ops
      files: drivers/ssh, its cryptographic primitives a class.

    Shells and programs.
    - Parser.v: shell/parser.rs.   KShell.v, KShellOps.v: the shell of the kernel,
      shell/mod.rs and the commands of files of shell/commands/mod.rs.
    - Sh.v: userland/apps/src/bin/sh.rs, over the system calls as a class.  ShOps.v
      (tokens), ShWp.v (a program logic for it: weakest preconditions), ShRun.v,
      ShLine.v (lines, pipelines, scripts), ShEdit.v, ShKeys.v (the line editor).
    - ToolIo.v and a file for each program of userland/apps/src/bin: ToolBase64.v,
      ToolSort.v, ToolTsort.v, ToolBc.v, ToolFactor.v, ToolCal.v, ToolCksum.v, and
      ToolDos.v for unix2dos.rs and dos2unix.rs.

    ** What is shown

    - EspFs: each operation refines the POSIX operation on the abstract files and is
      durable, or fails with no file changed (and, unless the chip itself failed, is
      ready for the next); a mount rebuilds from the flash alone what the state in
      memory had; compaction preserves every file; records and superblocks round-trip
      and single-byte damage is detected.
    - Scheduler: in every reachable state a switch does not panic, picks by priority
      then order, restores frames exactly, and a task waits a bounded number of
      switches.  Processes: tables, forest, slots and descriptors stay consistent
      over every history; exit and wait do what they promise; a signal enters its
      handler, and the return from it is followed through the trap, which spoils the
      frame it brings back ([signal_roundtrip]).  System calls, but for [spawn] and the
      eight calls of devices, sockets, updates and [sigreturn] ([elsewhere]): a program
      changes nothing outside its memory, its descriptors and the files it names, and
      learns nothing of the memory of others.
    - Paths: the normalized path is exactly what the rules for [.] and [..] leave of the
      joined path, in whatever order they are applied.  VFS: resolution by longest mount, descriptors private and bounded, reads and
      writes against the contents, handles dropped with their last descriptor,
      listings complete.  RamFs: its operations on every branch and its bounds.
      /proc and /sys: the listing and the lookup of each directory agree, and a text
      read in pieces is the text.
    - Start-up: every program of the image that counts as installed is in the file
      system byte for byte, none is left half written, and nothing else changes.
    - Pipes: first in first out over every interleaving; no reader sleeps for ever.
      A writer can ([writer_never_woken]).
    - Loader: an image stays inside its slot (provided no segment has more bytes in
      the file than in memory: [oversized_segment_escapes] is the counterexample),
      relocation, arguments, and the accounting of slots on failure.
    - Firmware update: the running image and the selection in use are never written;
      rollback; an update selects exactly the image that was fed.
    - SSH: a connection serves nothing before it is encrypted and nobody before they
      have authenticated; what one side sends in packets that fit the 8192 bytes of the
      receive buffer the rounds of the other hand to its handlers, however it is cut;
      output stays within the window.
    - Sockets: each inode owns one socket and each socket is owned, so no call touches
      the socket of another; what can stop the kernel ([socket_call_correct],
      [connect_then_close_halts]).  Wireless: a request is copied exactly or refused,
      and credentials survive a restart.
    - Shells: the parser accepts exactly its grammar; a line restores the descriptors
      on every error path and wires its pipelines (of the user shell, when 0, 1 and 2 are
      all it has open; of the kernel shell, when the commands that are not modelled keep
      them too); the line editor edits, for every key but Tab.
    - Programs: base64 decodes what it encodes, sort sorts, tsort respects the pairs
      of the words that find room in its 32 names,
      bc has the value of the expression, factor the primes, cal the days of the
      month, cksum notices a change, dos2unix undoes unix2dos.

    ** Fuel and bounds

    [readdir] takes one unit per entry ([readdir_complete]); [build_plan] one per
    node ([build_plan_complete]); RamFs' [used_bytes] one per node address
    ([ram_used_enough]); replay of a log half one per byte of the half; comparing a
    file one per byte ([content_matches_spec]); the loop of a connection and the reader
    of lines one per packet or key that comes in; the shell's scripts SCRIPT_MAX and its
    pipelines MAX_STAGES, which the code has; a program one per piece of its input, and
    factor a sixth of the square root of its number; the shell of the kernel one per wait
    for another task, where what the others do meanwhile is a parameter (preemption between
    two calls is not modelled); the other recursions are on lists.  A 32-bit counter
    that an operation advances (generation, task id) has "so many steps left" as a
    hypothesis where it would wrap.

    ** Not modelled

    Hardware drivers (ble, gpio, pwm, adc, i2c, spi, watchdog; of the UART only
    its bytes), the MPU, the cache and the assembly of the trap: registers, not logic.
    The smp feature: off by default.  The network stack and the cryptographic
    primitives: libraries outside the repository, parameters here; a call of a socket
    is one step.  The commands of the kernel shell that print tables or drive devices:
    parameters of it.  The other command line programs and the wrappers of the system calls: formatting
    over calls that are modelled.  The order of initialisation of main.rs, build.rs,
    the bootloader and tools/: start-up of hardware and host side.
*)

From Stdlib Require Import ZArith Lia String Ascii.
From stdpp Require Export base gmap strings list list_numbers sorting fin_maps.

#[export] Set Default Goal Selector "!".
#[export] Set Warnings "-clear-no-such-hyp".

Open Scope Z_scope.

(** ** 1. Machine integers

    A [w]-bit unsigned integer is a [Z] in [0, 2^w).  The release profile of the
    repository (Cargo.toml, [overflow-checks = false]) makes [+], [-], [*]
    wrap, which is written out with [u8] ... [u64].  The target is the 32-bit
    ESP32-S3, so [usize] is [u32]. *)

Definition u8 (z : Z) : Z := z mod 2 ^ 8.
Definition u16 (z : Z) : Z := z mod 2 ^ 16.
Definition u32 (z : Z) : Z := z mod 2 ^ 32.
Definition u64 (z : Z) : Z := z mod 2 ^ 64.

Definition U32_MAX : Z := 2 ^ 32 - 1.
Definition U64_MAX : Z := 2 ^ 64 - 1.

(** [x as i32] for a 32-bit value. *)
Definition as_i32 (z : Z) : Z := let v := u32 z in if v <? 2 ^ 31 then v else v - 2 ^ 32.

(** [checked_add]/[checked_sub]/[saturating_*] of the unsigned types. *)
Definition checked_add32 (a b : Z) : option Z := if a + b <=? U32_MAX then Some (a + b) else None.
Definition checked_add64 (a b : Z) : option Z := if a + b <=? U64_MAX then Some (a + b) else None.
Definition checked_sub (a b : Z) : option Z := if b <=? a then Some (a - b) else None.
Definition checked_mul32 (a b : Z) : option Z := if a * b <=? U32_MAX then Some (a * b) else None.
Definition saturating_sub (a b : Z) : Z := if b <=? a then a - b else 0.
Definition saturating_add32 (a b : Z) : Z := Z.min (a + b) U32_MAX.

(** [u32::try_from(u64)] and [usize::try_from(u64)] on the 32-bit target. *)
Definition try_u32 (z : Z) : option Z := if z <=? U32_MAX then Some z else None.

Lemma u32_range z : 0 <= u32 z < 2 ^ 32.
Proof. apply Z.mod_pos_bound. lia. Qed.

Lemma u32_small z : 0 <= z < 2 ^ 32 -> u32 z = z.
Proof. apply Z.mod_small. Qed.

Lemma u8_range z : 0 <= u8 z < 2 ^ 8.
Proof. apply Z.mod_pos_bound. lia. Qed.

Lemma u8_small z : 0 <= z < 2 ^ 8 -> u8 z = z.
Proof. apply Z.mod_small. Qed.

(** [a | b << n] where the bits do not meet. *)
Lemma lor_shift_add a b n : 0 <= n -> 0 <= a < 2 ^ n -> Z.lor a (Z.shiftl b n) = a + b * 2 ^ n.
Proof.
  intros Hn Ha. rewrite <- Z.shiftl_mul_pow2 by lia. symmetry. apply Z.add_nocarry_lor.
  apply Z.bits_inj'. intros i Hi. rewrite Z.land_spec, Z.bits_0.
  destruct (Z.lt_ge_cases i n).
  - rewrite Z.shiftl_spec_low by lia. apply andb_false_r.
  - rewrite <- (Z.mod_small a (2 ^ n)) by lia. by rewrite Z.mod_pow2_bits_high by lia.
Qed.

(** [x & !(2^k - 1)]: rounding down to a multiple of [2^k]. *)
Lemma land_align x k :
  0 <= k -> 0 <= x < 2 ^ 32 -> Z.land x (Z.ldiff (Z.ones 32) (Z.ones k)) = x / 2 ^ k * 2 ^ k.
Proof.
  intros Hk Hx. replace (Z.land x _) with (Z.ldiff (Z.land x (Z.ones 32)) (Z.ones k)).
  - rewrite Z.land_ones, Z.mod_small by lia. rewrite Z.ldiff_ones_r by lia.
    by rewrite Z.shiftl_mul_pow2, Z.shiftr_div_pow2 by lia.
  - rewrite !Z.ldiff_land. by rewrite Z.land_assoc.
Qed.

(** Rewrites away every wrap-around [lia] can bound. *)
Ltac u32_norm :=
  repeat match goal with
  | |- context [u32 ?x] => rewrite (u32_small x) by lia
  | H : context [u32 ?x] |- _ => rewrite (u32_small x) in H by lia
  end.

(** ** 2. Errors and results (kernel/src/prelude.rs) *)

(* @src kernel/src/prelude.rs 8-45 KError *)
Inductive KError : Type :=
  | NoMem | NotFound | AlreadyExists | NotADirectory | IsADirectory
  | InvalidArgument | PermissionDenied | NotSupported | WouldBlock | Busy
  | IoError | BadFd | NameTooLong | NoSpace | Corrupt | Timeout | Fault | TableFull.

#[export] Instance KError_eq_dec : EqDecision KError.
Proof. solve_decision. Defined.

(* @src kernel/src/prelude.rs 47-70 KError::as_errno *)
Definition as_errno (e : KError) : Z :=
  match e with
  | NotFound => -2 | IoError => -5 | BadFd => -9 | NoMem => -12
  | PermissionDenied => -13 | Fault => -14 | Busy => -16 | AlreadyExists => -17
  | NotADirectory => -20 | IsADirectory => -21 | InvalidArgument => -22
  | TableFull => -23 | NoSpace => -28 | NameTooLong => -36 | WouldBlock => -11
  | Timeout => -110 | NotSupported => -95 | Corrupt => -84
  end.

(* @src kernel/src/prelude.rs 72-72 KResult *)
Inductive KResult (A : Type) : Type := Ok (a : A) | Err (e : KError).
Arguments Ok {A} _.
Arguments Err {A} _.

#[export] Instance KResult_eq_dec `{EqDecision A} : EqDecision (KResult A).
Proof. solve_decision. Defined.

#[export] Instance KResult_ret : MRet KResult := fun A a => Ok a.
#[export] Instance KResult_bind : MBind KResult :=
  fun A B f r => match r with Ok a => f a | Err e => Err e end.

(** [Option::ok_or]. *)
Definition ok_or {A} (o : option A) (e : KError) : KResult A :=
  match o with Some a => Ok a | None => Err e end.

(** [if !cond { return Err(e) }]. *)
Definition ensure (b : bool) (e : KError) : KResult unit := if b then Ok tt else Err e.

Definition is_ok {A} (r : KResult A) : bool := match r with Ok _ => true | Err _ => false end.

(** A computation over mutable state that may fail.  As in Rust, what was
    written before an [Err] stays written: the state comes out in both cases. *)
Definition ST (S A : Type) : Type := S -> S * KResult A.

#[export] Instance ST_ret {S} : MRet (ST S) := fun A a s => (s, Ok a).
#[export] Instance ST_bind {S} : MBind (ST S) :=
  fun A B f m s => match m s with (s', Ok a) => f a s' | (s', Err e) => (s', Err e) end.

Definition fail {S A} (e : KError) : ST S A := fun s => (s, Err e).
Definition lift {S A} (r : KResult A) : ST S A := fun s => (s, r).
Definition get {S} : ST S S := fun s => (s, Ok s).
Definition modify {S} (f : S -> S) : ST S unit := fun s => (f s, Ok tt).

(** [for x in l { acc = f(acc, x)?; }]. *)
Fixpoint foldM {S A B} (f : B -> A -> ST S B) (b : B) (l : list A) : ST S B :=
  match l with [] => mret b | a :: l' => b' ← f b a; foldM f b' l' end.

(** Runs a computation on the first or the second part of a paired state. *)
Definition on_fst {S T A} (m : ST S A) : ST (S * T) A :=
  fun st => let '(s', r) := m st.1 in ((s', st.2), r).
Definition on_snd {S T A} (m : ST T A) : ST (S * T) A :=
  fun st => let '(t', r) := m st.2 in ((st.1, t'), r).

(** A call that may also block the calling task: [Park] is the point where the
    task has been marked blocked and gives the processor away. *)
Inductive Outcome (A : Type) : Type := Ret (r : KResult A) | Park.
Arguments Ret {A} _.
Arguments Park {A}.

Definition IO (W A : Type) : Type := W -> W * Outcome A.

#[export] Instance IO_ret {W} : MRet (IO W) := fun A a w => (w, Ret (Ok a)).
#[export] Instance IO_bind {W} : MBind (IO W) :=
  fun A B f m w =>
    match m w with
    | (w', Ret (Ok a)) => f a w'
    | (w', Ret (Err e)) => (w', Ret (Err e))
    | (w', Park) => (w', Park)
    end.

(** A computation that never blocks. *)
Definition io {W A} (m : ST W A) : IO W A := fun w => let '(w', r) := m w in (w', Ret r).

(** ** 3. Flash and memory layout constants (prelude.rs, [mod layout]) *)

(* @src kernel/src/prelude.rs 76-76 layout::FLASH_SIZE *)
Definition FLASH_SIZE : Z := 0x1000000.
(* @src kernel/src/prelude.rs 80-81 layout::OTADATA_OFFSET *)
Definition OTADATA_OFFSET : Z := 0xF000.
(* @src kernel/src/prelude.rs 82-83 layout::FACTORY_OFFSET *)
Definition FACTORY_OFFSET : Z := 0x20000.
Definition FACTORY_SIZE : Z := 0x400000.
(* @src kernel/src/prelude.rs 84-85 layout::OTA0_OFFSET *)
Definition OTA0_OFFSET : Z := 0x420000.
Definition OTA0_SIZE : Z := 0x400000.
(* @src kernel/src/prelude.rs 86-87 layout::FS_OFFSET *)
Definition FS_OFFSET : Z := 0x820000.
Definition FS_SIZE : Z := 0x7D0000.
(* @src kernel/src/prelude.rs 91-91 layout::FLASH_SECTOR_SIZE *)
Definition FLASH_SECTOR_SIZE : Z := 4096.
(* @src kernel/src/prelude.rs 103-103 layout::DEFAULT_STACK_SIZE *)
Definition DEFAULT_STACK_SIZE : Z := 16 * 1024.

(** ** 4. Bytes *)

Abbreviation len l := (Z.of_nat (length l)).

Definition is_byte (b : Z) : Prop := 0 <= b < 256.
Definition bytes_ok (l : list Z) : Prop := Forall is_byte l.

#[export] Instance is_byte_dec b : Decision (is_byte b).
Proof. unfold is_byte. apply _. Defined.

(** [n]-byte little- and big-endian encodings ([to_le_bytes], [to_be_bytes]). *)
Fixpoint le_bytes (n : nat) (z : Z) : list Z :=
  match n with O => [] | S n' => z mod 256 :: le_bytes n' (z / 256) end.
Fixpoint of_le (l : list Z) : Z :=
  match l with [] => 0 | b :: l' => b + 256 * of_le l' end.
Definition be_bytes (n : nat) (z : Z) : list Z := reverse (le_bytes n z).
Definition of_be (l : list Z) : Z := of_le (reverse l).

(** [&l[off .. off + n]] for an in-range slice. *)
Definition slice {A} (off n : Z) (l : list A) : list A := take (Z.to_nat n) (drop (Z.to_nat off) l).

(** [v\[i\]] of a byte slice, with a total reading (every use is guarded). *)
Definition at_ (l : list Z) (i : Z) : Z := default 0 (l !! Z.to_nat i).

Lemma le_bytes_length n z : length (le_bytes n z) = n.
Proof. revert z; induction n; intros z; simpl; [done | by rewrite IHn]. Qed.

Lemma be_bytes_length n z : length (be_bytes n z) = n.
Proof. unfold be_bytes. by rewrite length_reverse, le_bytes_length. Qed.

Lemma le_bytes_ok n z : bytes_ok (le_bytes n z).
Proof.
  revert z; induction n; intros z; simpl; constructor; [|apply IHn].
  unfold is_byte. apply Z.mod_pos_bound. lia.
Qed.

Lemma bytes_ok_reverse l : bytes_ok l -> bytes_ok (reverse l).
Proof. unfold bytes_ok. rewrite !Forall_forall. intros H x Hx. apply H. by rewrite elem_of_reverse in Hx. Qed.

Lemma be_bytes_ok n z : bytes_ok (be_bytes n z).
Proof. apply bytes_ok_reverse, le_bytes_ok. Qed.

Lemma of_le_le_bytes n z : 0 <= z < 256 ^ Z.of_nat n -> of_le (le_bytes n z) = z.
Proof.
  revert z; induction n as [|n IH]; intros z Hz.
  - simpl in *. lia.
  - cbn [le_bytes of_le]. rewrite Nat2Z.inj_succ, Z.pow_succ_r in Hz by lia.
    rewrite IH.
    + pose proof (Z.div_mod z 256). lia.
    + split; [apply Z.div_pos; lia | apply Z.div_lt_upper_bound; lia].
Qed.

Lemma of_be_be_bytes n z : 0 <= z < 256 ^ Z.of_nat n -> of_be (be_bytes n z) = z.
Proof. intros. unfold of_be, be_bytes. rewrite reverse_involutive. by apply of_le_le_bytes. Qed.

Lemma of_le_range l : bytes_ok l -> 0 <= of_le l < 256 ^ len l.
Proof.
  induction 1 as [|b l Hb Hl IH]; [simpl; lia|].
  cbn [of_le length]. rewrite Nat2Z.inj_succ, Z.pow_succ_r by lia.
  unfold is_byte in Hb. lia.
Qed.

Lemma le_bytes_of_le l : bytes_ok l -> le_bytes (length l) (of_le l) = l.
Proof.
  induction 1 as [|b l Hb Hl IH]; [done|].
  cbn [of_le length le_bytes]. unfold is_byte in Hb.
  replace ((b + 256 * of_le l) mod 256) with b.
  - replace ((b + 256 * of_le l) / 256) with (of_le l); [by rewrite IH|].
    rewrite Z.mul_comm, Z.div_add by lia. rewrite Z.div_small; lia.
  - rewrite Z.mul_comm, Z.mod_add by lia. by rewrite Z.mod_small.
Qed.

Lemma bytes_ok_app l k : bytes_ok (l ++ k) <-> bytes_ok l /\ bytes_ok k.
Proof. apply Forall_app. Qed.

Lemma bytes_ok_replicate n b : is_byte b -> bytes_ok (replicate n b).
Proof. intros. by apply Forall_replicate. Qed.

Lemma bytes_ok_take n l : bytes_ok l -> bytes_ok (take n l).
Proof. apply Forall_take. Qed.

Lemma bytes_ok_drop n l : bytes_ok l -> bytes_ok (drop n l).
Proof. apply Forall_drop. Qed.

Lemma at_byte l i : bytes_ok l -> is_byte (at_ l i).
Proof.
  intros H. unfold at_. destruct (l !! Z.to_nat i) eqn:E; simpl; [|unfold is_byte; lia].
  by eapply Forall_lookup_1 in E.
Qed.

(** ** 5. Strings

    A Rust [&str]/[String] is its UTF-8 byte sequence; [string] holds those
    bytes.  [String.length] is [str::len] (bytes), and [=] is byte equality. *)

Definition byte_of_ascii (c : ascii) : Z := Z.of_N (N_of_ascii c).
Definition ascii_of_byte (b : Z) : ascii := ascii_of_N (Z.to_N b).

(** [str::as_bytes]. *)
Fixpoint as_bytes (s : string) : list Z :=
  match s with EmptyString => [] | String c s' => byte_of_ascii c :: as_bytes s' end.

(** The string with the given bytes. *)
Fixpoint of_bytes (l : list Z) : string :=
  match l with [] => EmptyString | b :: l' => String (ascii_of_byte b) (of_bytes l') end.

Definition str_len (s : string) : Z := len (as_bytes s).

Definition is_cont (b : Z) : bool := (0x80 <=? b) && (b <=? 0xBF).

(** Well-formed UTF-8, the test [core::str::from_utf8] makes. *)
Fixpoint utf8_valid (l : list Z) : bool :=
  match l with
  | [] => true
  | b0 :: l1 =>
    if b0 <? 0x80 then utf8_valid l1 else
    match l1 with
    | [] => false
    | b1 :: l2 =>
      if (0xC2 <=? b0) && (b0 <=? 0xDF) then is_cont b1 && utf8_valid l2 else
      match l2 with
      | [] => false
      | b2 :: l3 =>
        if (0xE0 <=? b0) && (b0 <=? 0xEF) then
          ((if b0 =? 0xE0 then 0xA0 else 0x80) <=? b1) &&
          (b1 <=? (if b0 =? 0xED then 0x9F else 0xBF)) && is_cont b2 && utf8_valid l3
        else
        match l3 with
        | [] => false
        | b3 :: l4 =>
          (0xF0 <=? b0) && (b0 <=? 0xF4) &&
          ((if b0 =? 0xF0 then 0x90 else 0x80) <=? b1) &&
          (b1 <=? (if b0 =? 0xF4 then 0x8F else 0xBF)) && is_cont b2 && is_cont b3 &&
          utf8_valid l4
        end
      end
    end
  end.

(** [core::str::from_utf8]. *)
Definition from_utf8 (l : list Z) : option string := if utf8_valid l then Some (of_bytes l) else None.

(** What every [&str] satisfies by its type. *)
Definition is_str (s : string) : Prop := utf8_valid (as_bytes s) = true.

Lemma byte_of_ascii_range c : is_byte (byte_of_ascii c).
Proof.
  unfold is_byte, byte_of_ascii. pose proof (N_ascii_bounded c). lia.
Qed.

Lemma ascii_of_byte_of_ascii c : ascii_of_byte (byte_of_ascii c) = c.
Proof. unfold ascii_of_byte, byte_of_ascii. by rewrite N2Z.id, ascii_N_embedding. Qed.

Lemma byte_of_ascii_of_byte b : is_byte b -> byte_of_ascii (ascii_of_byte b) = b.
Proof.
  unfold is_byte, ascii_of_byte, byte_of_ascii. intros H.
  rewrite N_ascii_embedding by lia. lia.
Qed.

Lemma as_bytes_ok s : bytes_ok (as_bytes s).
Proof. induction s; simpl; constructor; auto using byte_of_ascii_range. Qed.

Lemma of_bytes_as_bytes s : of_bytes (as_bytes s) = s.
Proof. induction s as [|c s IH]; simpl; [done|]. by rewrite ascii_of_byte_of_ascii, IH. Qed.

Lemma as_bytes_of_bytes l : bytes_ok l -> as_bytes (of_bytes l) = l.
Proof.
  induction 1 as [|b l Hb Hl IH]; simpl; [done|].
  by rewrite byte_of_ascii_of_byte, IH.
Qed.

Lemma as_bytes_inj s t : as_bytes s = as_bytes t -> s = t.
Proof. intros H. by rewrite <- (of_bytes_as_bytes s), H, of_bytes_as_bytes. Qed.

Lemma from_utf8_as_bytes s : is_str s -> from_utf8 (as_bytes s) = Some s.
Proof. unfold is_str, from_utf8. intros ->. by rewrite of_bytes_as_bytes. Qed.

Lemma as_bytes_app s t : as_bytes (s +:+ t) = as_bytes s ++ as_bytes t.
Proof. induction s as [|c s IH]; simpl; [done|]. by rewrite IH. Qed.

(** ** 6. Ordered maps and sorting

    [BTreeMap<K, V>] is a [gmap]; where the code iterates it, the order is the
    key order ([str] and integers both compare as the byte/number order). *)

Definition key_le {A} (x y : string * A) : Prop := String.le x.1 y.1.

#[export] Instance key_le_dec {A} : RelDecision (@key_le A).
Proof. unfold key_le. intros x y. apply _. Defined.

(** [BTreeMap::iter]: the entries in increasing key order. *)
Definition btree_iter {A} (m : gmap string A) : list (string * A) := merge_sort key_le (map_to_list m).

Lemma btree_iter_perm {A} (m : gmap string A) : btree_iter m ≡ₚ map_to_list m.
Proof. apply merge_sort_Permutation. Qed.

Lemma elem_of_btree_iter {A} (m : gmap string A) k v : (k, v) ∈ btree_iter m <-> m !! k = Some v.
Proof. rewrite btree_iter_perm. apply elem_of_map_to_list. Qed.

Lemma btree_iter_length {A} (m : gmap string A) : length (btree_iter m) = size m.
Proof. rewrite btree_iter_perm. apply length_map_to_list. Qed.

Lemma btree_iter_NoDup {A} (m : gmap string A) : NoDup (btree_iter m).*1.
Proof. rewrite btree_iter_perm. apply NoDup_fst_map_to_list. Qed.

(** [slice::sort_by_key], a stable sort. *)
Fixpoint insert_by_key {A} (key : A -> Z) (x : A) (l : list A) : list A :=
  match l with
  | [] => [x]
  | y :: l' => if key x <=? key y then x :: y :: l' else y :: insert_by_key key x l'
  end.

Definition sort_by_key {A} (key : A -> Z) (l : list A) : list A := foldr (insert_by_key key) [] l.

Lemma insert_by_key_perm {A} (key : A -> Z) x l : insert_by_key key x l ≡ₚ x :: l.
Proof.
  induction l as [|y l IH]; simpl; [done|]. destruct (key x <=? key y); [done|].
  by rewrite IH, Permutation_swap.
Qed.

Lemma sort_by_key_perm {A} (key : A -> Z) l : sort_by_key key l ≡ₚ l.
Proof. induction l as [|x l IH]; simpl; [done|]. by rewrite insert_by_key_perm, IH. Qed.

Lemma insert_by_key_sorted {A} (key : A -> Z) x l :
  StronglySorted (fun a b => key a <= key b) l ->
  StronglySorted (fun a b => key a <= key b) (insert_by_key key x l).
Proof.
  induction 1 as [|y l Hl IH Hy]; simpl; [by repeat constructor|].
  destruct (Z.leb_spec (key x) (key y)).
  - constructor; [by constructor|]. constructor; [done|].
    eapply Forall_impl; [apply Hy|]. simpl. lia.
  - constructor; [done|]. rewrite insert_by_key_perm. constructor; [lia|done].
Qed.

Lemma sort_by_key_sorted {A} (key : A -> Z) l :
  StronglySorted (fun a b => key a <= key b) (sort_by_key key l).
Proof. induction l; simpl; [constructor|]. by apply insert_by_key_sorted. Qed.

(** Sorting leaves a sorted list alone. *)
Lemma sort_by_key_id {A} (key : A -> Z) l :
  StronglySorted (fun a b => key a <= key b) l -> sort_by_key key l = l.
Proof.
  induction 1 as [|x l Hl IH Hx]; simpl; [done|]. rewrite IH. destruct l as [|y l]; simpl; [done|].
  apply Forall_cons in Hx as [Hx _]. by apply Z.leb_le in Hx as ->.
Qed.

(** ** 7. Slices and lists *)

Lemma filter_all {A} (P : A -> Prop) `{!forall x, Decision (P x)} (l : list A) :
  (forall x, x ∈ l -> P x) -> filter P l = l.
Proof.
  induction l as [|x l IH]; intros HP; [done|].
  rewrite filter_cons_True by (apply HP; left). f_equal. apply IH. intros y Hy. apply HP. by right.
Qed.

Lemma slice_length {A} (off n : Z) (l : list A) :
  0 <= off -> 0 <= n -> off + n <= len l -> length (slice off n l) = Z.to_nat n.
Proof. intros. unfold slice. rewrite length_take, length_drop. lia. Qed.

Lemma slice_0_all {A} (l : list A) n : n = len l -> slice 0 n l = l.
Proof. intros ->. unfold slice. simpl. rewrite drop_0. apply take_ge. lia. Qed.

Lemma slice_app_l {A} (off n : Z) (l k : list A) :
  0 <= off -> off + n <= len l -> slice off n (l ++ k) = slice off n l.
Proof.
  intros. unfold slice. destruct (decide (n <= 0)).
  - by replace (Z.to_nat n) with 0%nat by lia.
  - rewrite drop_app_le by lia. apply take_app_le. rewrite length_drop. lia.
Qed.

Lemma slice_app_r {A} (off n : Z) (l k : list A) :
  len l <= off -> slice off n (l ++ k) = slice (off - len l) n k.
Proof.
  intros. unfold slice. rewrite drop_app_ge by lia. do 2 f_equal. lia.
Qed.

Lemma at_app_l l k i : 0 <= i < len l -> at_ (l ++ k) i = at_ l i.
Proof. intros. unfold at_. rewrite lookup_app_l by lia. done. Qed.

Lemma at_app_r l k i : len l <= i -> at_ (l ++ k) i = at_ k (i - len l).
Proof. intros. unfold at_. rewrite lookup_app_r by lia. do 2 f_equal. lia. Qed.

(** ** 8. Automation

    [kres] inverts the outcome of monadic code: it splits the binds and
    guards of a [KResult]/[ST] computation equated to a value. *)

Lemma KResult_bind_Ok {A B} (m : KResult A) (f : A -> KResult B) b :
  (m ≫= f) = Ok b <-> exists a, m = Ok a /\ f a = Ok b.
Proof. destruct m; simpl; split; [intros; eauto|by intros (?&[= ->]&?)|done|by intros (?&?&?)]. Qed.

Lemma ST_bind_Ok {S A B} (m : ST S A) (f : A -> ST S B) s s' b :
  (m ≫= f) s = (s', Ok b) <-> exists a s1, m s = (s1, Ok a) /\ f a s1 = (s', Ok b).
Proof.
  unfold mbind, ST_bind. destruct (m s) as [s1 [a|e]]; split; [intros; eauto| |done|].
  - by intros (?&?&[= -> ->]&?).
  - by intros (?&?&?&?).
Qed.

Lemma ensure_Ok b e u : ensure b e = Ok u <-> b = true.
Proof. unfold ensure. destruct u, b; naive_solver. Qed.

Lemma ok_or_Ok {A} (o : option A) e a : ok_or o e = Ok a <-> o = Some a.
Proof. destruct o; simpl; naive_solver. Qed.

Ltac kres :=
  repeat match goal with
  | H : (_ ≫= _) = Ok _ |- _ =>
      apply KResult_bind_Ok in H; let a := fresh "a" in let H1 := fresh "Hm" in
      destruct H as (a & H1 & H)
  | H : (_ ≫= _) _ = (_, Ok _) |- _ =>
      apply ST_bind_Ok in H; let a := fresh "a" in let s := fresh "s" in
      let H1 := fresh "Hm" in destruct H as (a & s & H1 & H)
  | H : ensure _ _ = Ok _ |- _ => apply ensure_Ok in H
  | H : ok_or _ _ = Ok _ |- _ => apply ok_or_Ok in H
  | H : fail _ _ = (_, Ok _) |- _ => discriminate H
  | H : lift _ _ = (_, Ok _) |- _ => injection H as ??; subst
  | H : mret _ = Ok _ |- _ => injection H as ?; subst
  | H : mret _ _ = (_, Ok _) |- _ => injection H as ??; subst
  | H : Ok _ = Ok _ |- _ => injection H as ?; subst
  | H : Err _ = Ok _ |- _ => discriminate H
  | H : (_, Ok _) = (_, Ok _) |- _ => injection H as ??; subst
  | H : (_, Err _) = (_, Ok _) |- _ => discriminate H
  | x : unit |- _ => destruct x
  end.

(** Boolean guards to propositions. *)
Ltac zbool :=
  repeat match goal with
  | H : (_ && _)%bool = true |- _ => apply andb_prop in H; destruct H
  | H : (_ || _)%bool = false |- _ => apply orb_false_elim in H; destruct H
  | H : negb _ = true |- _ => apply negb_true_iff in H
  | H : negb _ = false |- _ => apply negb_false_iff in H
  | H : (_ <? _) = true |- _ => apply Z.ltb_lt in H
  | H : (_ <? _) = false |- _ => apply Z.ltb_ge in H
  | H : (_ <=? _) = true |- _ => apply Z.leb_le in H
  | H : (_ <=? _) = false |- _ => apply Z.leb_gt in H
  | H : (_ =? _) = true |- _ => apply Z.eqb_eq in H
  | H : (_ =? _) = false |- _ => apply Z.eqb_neq in H
  end.

(** A pair is known from its second part. *)
Lemma st_parts {A B} (p : A * B) b : p.2 = b -> p = (p.1, b).
Proof. intros <-. by destruct p. Qed.

Create HintDb espresso.
#[export] Hint Resolve le_bytes_ok be_bytes_ok as_bytes_ok byte_of_ascii_range
  bytes_ok_take bytes_ok_drop bytes_ok_replicate at_byte : espresso.
Create Rewrite HintDb lens.
#[export] Hint Rewrite @length_app @length_cons @length_nil @length_take @length_drop
  @length_replicate @length_insert le_bytes_length be_bytes_length @length_fmap
  @length_reverse @length_seqZ : lens.

(** Normalises the list lengths of the goal and closes it arithmetically. *)
Ltac len_lia := autorewrite with lens in *; simpl in *; lia.
