(* ===== verification/Flash.v ===== *)
(** * Flash: the NOR flash driver (kernel/src/drivers/flash.rs)

    The device itself ([esp_storage::FlashStorage]) is third-party code: it is
    the class [NorFlash], with the behaviour the [embedded-storage] traits document
    for it as the laws of [NorFlashLaws].  The driver on top of it, with its
    range and alignment checks, is modelled in full. *)

From S2P Require Import Prelude.

Open Scope Z_scope.

(** ** The device interface *)

(** [ReadNorFlash::read], [NorFlash::write] and [NorFlash::erase].  A failed write
    or erase may leave the device changed, so both return the device. *)
Class NorFlash (D : Type) := {
  nor_read : D -> Z -> Z -> option (list Z);
  nor_write : D -> Z -> list Z -> D * bool;
  nor_erase : D -> Z -> Z -> D * bool;
}.

(** What the trait documentation promises, in terms of the contents [nor_cell] of
    each byte: reads return the contents; an operation touches its own range
    only; erased bytes are all ones; a write to erased bytes stores the data. *)
Class NorFlashLaws (D : Type) `{NorFlash D} := {
  nor_cell : D -> Z -> Z;
  nor_cell_byte : forall d a, is_byte (nor_cell d a);
  nor_read_spec : forall d off n bs, nor_read d off n = Some bs -> bs = nor_cell d <$> seqZ off n;
  nor_write_frame : forall d off bs d' ok a,
    nor_write d off bs = (d', ok) -> ~ (off <= a < off + len bs) -> nor_cell d' a = nor_cell d a;
  nor_write_spec : forall d off bs d',
    nor_write d off bs = (d', true) -> bytes_ok bs ->
    (forall a, off <= a < off + len bs -> nor_cell d a = 255) ->
    nor_cell d' <$> seqZ off (len bs) = bs;
  nor_erase_frame : forall d from to d' ok a,
    nor_erase d from to = (d', ok) -> ~ (from <= a < to) -> nor_cell d' a = nor_cell d a;
  nor_erase_spec : forall d from to d' a,
    nor_erase d from to = (d', true) -> from <= a < to -> nor_cell d' a = 255;
}.

(** ** The driver *)

(* @src kernel/src/drivers/flash.rs 9-9 SECTOR_SIZE *)
Definition SECTOR_SIZE : Z := 4096.
(* @src kernel/src/drivers/flash.rs 11-11 WRITE_ALIGN *)
Definition WRITE_ALIGN : Z := 4.

(* @src kernel/src/drivers/flash.rs 28-36 check_range *)
Definition check_range (offset n : Z) : KResult unit :=
  match checked_add64 offset n with
  | None => Err InvalidArgument
  | Some e => if FLASH_SIZE <? e then Err InvalidArgument else Ok tt
  end.

(* @src kernel/src/drivers/flash.rs 38-40 sector_base *)
Definition sector_base (offset : Z) : Z := Z.land offset (Z.ldiff (Z.ones 32) (SECTOR_SIZE - 1)).

Section Driver.
Context {D : Type} `{NorFlash D}.

(** [read(offset, &mut buf)] with [n = buf.len()]; the bytes are the buffer. *)
(* @src kernel/src/drivers/flash.rs 42-46 read *)
Definition flash_read (d : D) (offset n : Z) : KResult (list Z) :=
  _ ← check_range offset n; ok_or (nor_read d offset n) IoError.

(* @src kernel/src/drivers/flash.rs 48-59 write *)
Definition flash_write (offset : Z) (buf : list Z) : ST D unit := fun d =>
  match check_range offset (len buf) with
  | Err e => (d, Err e)
  | Ok _ =>
    if negb (offset mod WRITE_ALIGN =? 0) || negb (u32 (len buf) mod WRITE_ALIGN =? 0)
    then (d, Err InvalidArgument)
    else match buf with
      | [] => (d, Ok tt)
      | _ => match nor_write d offset buf with
             | (d', true) => (d', Ok tt)
             | (d', false) => (d', Err IoError)
             end
      end
  end.

(* @src kernel/src/drivers/flash.rs 61-68 erase_sector *)
Definition flash_erase_sector (offset : Z) : ST D unit := fun d =>
  let base := sector_base offset in
  match check_range base SECTOR_SIZE with
  | Err e => (d, Err e)
  | Ok _ => match nor_erase d base (u32 (base + SECTOR_SIZE)) with
            | (d', true) => (d', Ok tt)
            | (d', false) => (d', Err IoError)
            end
  end.
End Driver.

(** ** Facts *)

Section Facts.
Context {D : Type} `{NorFlashLaws D}.

(** The [n] bytes stored from [off] on. *)
Definition cells (d : D) (off n : Z) : list Z := nor_cell d <$> seqZ off n.

Definition erased (d : D) (off n : Z) : Prop :=
  forall a, off <= a < off + n -> nor_cell d a = 255.

Lemma cells_length d off n : length (cells d off n) = Z.to_nat n.
Proof. unfold cells. by rewrite length_fmap, length_seqZ. Qed.

Lemma cells_ok d off n : bytes_ok (cells d off n).
Proof. unfold cells, bytes_ok. rewrite Forall_fmap, Forall_forall. intros. apply nor_cell_byte. Qed.

Lemma cells_ext d d' off n :
  (forall a, off <= a < off + n -> nor_cell d a = nor_cell d' a) -> cells d off n = cells d' off n.
Proof.
  intros Hext. unfold cells. apply list_fmap_ext. intros i a Ha.
  apply lookup_seqZ in Ha. apply Hext. lia.
Qed.

Lemma cells_app d off n m : 0 <= n -> 0 <= m -> cells d off (n + m) = cells d off n ++ cells d (off + n) m.
Proof. intros. unfold cells. by rewrite seqZ_app, fmap_app. Qed.

Lemma cells_at d off n i : 0 <= i < n -> at_ (cells d off n) i = nor_cell d (off + i).
Proof.
  intros. unfold cells, at_. rewrite list_lookup_fmap, lookup_seqZ_lt by lia. simpl. f_equal. lia.
Qed.

Lemma slice_cells d off n i m :
  0 <= i -> 0 <= m -> i + m <= n -> slice i m (cells d off n) = cells d (off + i) m.
Proof.
  intros. unfold slice. replace n with (i + (m + (n - i - m))) by lia.
  rewrite cells_app, drop_app_length' by (rewrite ?cells_length; lia).
  rewrite cells_app by lia. by rewrite take_app_length' by (rewrite cells_length; lia).
Qed.

Lemma cells_cell d d' off off' n :
  0 <= n -> cells d off n = cells d' off' n ->
  forall i, 0 <= i < n -> nor_cell d (off + i) = nor_cell d' (off' + i).
Proof.
  intros Hn Heq i Hi. rewrite <- (cells_at d off n i), <- (cells_at d' off' n i) by lia. by rewrite Heq.
Qed.

Lemma check_range_Ok off n u : check_range off n = Ok u -> off + n <= FLASH_SIZE.
Proof.
  unfold check_range, checked_add64. destruct (_ <=? _); [|done].
  destruct (_ <? _) eqn:E; [done|]. by apply Z.ltb_ge in E.
Qed.

Lemma flash_read_Ok d off n bs : flash_read d off n = Ok bs -> bs = cells d off n.
Proof. unfold flash_read. intros Hr. kres. by apply nor_read_spec. Qed.

(** Reads inside the chip succeed (a flash without hardware faults). *)
Definition reads_ok (d : D) : Prop :=
  forall off n, 0 <= off -> 0 <= n -> off + n <= FLASH_SIZE -> is_Some (nor_read d off n).

Lemma flash_read_total d off n :
  reads_ok d -> 0 <= off -> 0 <= n -> off + n <= FLASH_SIZE -> flash_read d off n = Ok (cells d off n).
Proof.
  intros Hr ? ? ?. destruct (Hr off n) as [bs Hbs]; [done..|].
  assert (Hf : flash_read d off n = Ok bs).
  { unfold flash_read, check_range, checked_add64, FLASH_SIZE, U64_MAX in *.
    replace (off + n <=? _) with true by (symmetry; apply Z.leb_le; lia).
    replace (_ <? off + n) with false by (symmetry; apply Z.ltb_ge; lia). simpl. by rewrite Hbs. }
  rewrite Hf. f_equal. by apply flash_read_Ok.
Qed.

Lemma flash_write_frame off bs d d' r a :
  flash_write off bs d = (d', r) -> ~ (off <= a < off + len bs) -> nor_cell d' a = nor_cell d a.
Proof.
  unfold flash_write. intros Hw Ha.
  destruct (check_range _ _); [|by injection Hw as <- <-].
  destruct (_ || _); [by injection Hw as <- <-|].
  destruct bs as [|b bs]; [by injection Hw as <- <-|].
  destruct (nor_write d off (b :: bs)) as [d1 ok] eqn:E.
  replace d' with d1 by (by destruct ok; injection Hw). by eapply nor_write_frame.
Qed.

Lemma flash_write_Ok off bs d d' :
  flash_write off bs d = (d', Ok tt) -> bytes_ok bs -> erased d off (len bs) ->
  cells d' off (len bs) = bs /\ off + len bs <= FLASH_SIZE.
Proof.
  unfold flash_write. intros Hw Hok He.
  destruct (check_range _ _) eqn:Er; [|done]. apply check_range_Ok in Er.
  destruct (_ || _); [done|]. destruct bs as [|b bs].
  { injection Hw as <-. split; [done|lia]. }
  destruct (nor_write d off (b :: bs)) as [d1 [|]] eqn:E; [|done]. injection Hw as ->.
  split; [|done]. by eapply nor_write_spec.
Qed.

Lemma sector_base_spec off : 0 <= off < 2 ^ 32 -> sector_base off = off / 4096 * 4096.
Proof. intros. unfold sector_base. change (SECTOR_SIZE - 1) with (Z.ones 12). by apply land_align. Qed.

Lemma sector_base_id off : 0 <= off < 2 ^ 32 -> off mod 4096 = 0 -> sector_base off = off.
Proof. intros Ho Hm. rewrite sector_base_spec by done. pose proof (Z.div_mod off 4096). lia. Qed.

(** Erasing a sector leaves every byte outside the 4096-byte sector of [off]. *)
Lemma flash_erase_frame off d d' r a :
  0 <= off < 2 ^ 32 -> flash_erase_sector off d = (d', r) ->
  ~ (off / 4096 * 4096 <= a < off / 4096 * 4096 + 4096) -> nor_cell d' a = nor_cell d a.
Proof.
  unfold flash_erase_sector. intros Ho He Ha. rewrite sector_base_spec in He by done.
  destruct (check_range _ _) eqn:Er; [|by injection He as <- <-].
  apply check_range_Ok in Er. unfold FLASH_SIZE, SECTOR_SIZE in *.
  rewrite u32_small in He by (pose proof (Z.div_pos off 4096); lia).
  destruct (nor_erase _ _ _) as [d1 ok] eqn:E.
  replace d' with d1 by (by destruct ok; injection He). by eapply nor_erase_frame.
Qed.

Lemma flash_erase_Ok off d d' :
  0 <= off < 2 ^ 32 -> off mod 4096 = 0 -> flash_erase_sector off d = (d', Ok tt) ->
  erased d' off 4096 /\ off + 4096 <= FLASH_SIZE.
Proof.
  unfold flash_erase_sector. intros Ho Hm He. rewrite sector_base_id in He by done.
  destruct (check_range _ _) eqn:Er; [|done].
  apply check_range_Ok in Er. unfold FLASH_SIZE, SECTOR_SIZE in *.
  rewrite u32_small in He by lia. split; [|lia]. intros x Hx.
  destruct (nor_erase _ _ _) as [d1 [|]] eqn:E; [|done]. injection He as ->.
  by eapply nor_erase_spec.
Qed.

Lemma erased_app d off n m : 0 <= n -> 0 <= m -> erased d off n -> erased d (off + n) m -> erased d off (n + m).
Proof. intros ?? H1 H2 a Ha. destruct (Z.lt_ge_cases a (off + n)); [apply H1|apply H2]; lia. Qed.

Lemma erased_mono d off n off' n' :
  erased d off n -> off <= off' -> off' + n' <= off + n -> erased d off' n'.
Proof. intros He ?? a Ha. apply He. lia. Qed.
(** A chip whose writes and erasures do not fail. *)
Definition nor_works : Prop :=
  (forall d off bs, 0 <= off -> off + len bs <= FLASH_SIZE -> (nor_write d off bs).2 = true) /\
  (forall d from to, 0 <= from <= to -> to <= FLASH_SIZE -> (nor_erase d from to).2 = true).

(** Then a call that is refused has not touched the chip, and one in range is not refused. *)
Lemma flash_write_refused off bs d d' e : nor_works -> 0 <= off -> flash_write off bs d = (d', Err e) -> d' = d.
Proof.
  intros [Hw _] Ho. unfold flash_write. destruct (check_range off (len bs)) eqn:Ec; [|by intros [= <- _]]. apply check_range_Ok in Ec.
  destruct (_ || _); [by intros [= <- _]|]. destruct bs as [|b bs]; [done|]. pose proof (Hw d off (b :: bs) Ho Ec) as Hb.
  destruct (nor_write d off (b :: bs)) as [d1 ok]. cbn in Hb. by subst ok.
Qed.
Lemma check_range_in off n : 0 <= off -> 0 <= n -> off + n <= FLASH_SIZE -> check_range off n = Ok tt.
Proof.
  intros Ho Hn He. unfold check_range, checked_add64. destruct (Z.leb_spec (off + n) U64_MAX); [|unfold FLASH_SIZE, U64_MAX in *; lia].
  destruct (Z.ltb_spec FLASH_SIZE (off + n)); [lia|done].
Qed.
Lemma flash_write_works off bs d : nor_works -> 0 <= off -> off + len bs <= FLASH_SIZE -> off mod 4 = 0 -> len bs mod 4 = 0 -> (flash_write off bs d).2 = Ok tt.
Proof.
  intros [Hw _] Ho He Hm Hl. unfold flash_write, WRITE_ALIGN. rewrite check_range_in by (done || lia). rewrite u32_small by (unfold FLASH_SIZE in *; lia).
  rewrite Hm, Hl. cbn. destruct bs as [|b bs]; [done|]. pose proof (Hw d off (b :: bs) Ho He) as Hb. destruct (nor_write d off (b :: bs)) as [d1 ok]. cbn in Hb. by subst ok.
Qed.
Lemma flash_erase_works off d : nor_works -> 0 <= off -> off mod 4096 = 0 -> off + 4096 <= FLASH_SIZE -> (flash_erase_sector off d).2 = Ok tt.
Proof.
  intros [_ Hw] Ho Hm He. unfold flash_erase_sector, SECTOR_SIZE. rewrite sector_base_id by (unfold FLASH_SIZE in *; lia || done). rewrite check_range_in by lia.
  rewrite u32_small by (unfold FLASH_SIZE in *; lia). pose proof (Hw d off (off + 4096) ltac:(lia) He) as Hb. destruct (nor_erase _ _ _) as [d1 ok]. cbn in Hb. by subst ok.
Qed.
End Facts.
Arguments nor_works D {_}.

(** ** A concrete device

    NOR cells as a function; a write can only clear bits, every operation inside
    the chip succeeds.  It shows that the laws can be satisfied, and the
    witnesses run on it. *)

Definition nor_mem : Type := Z -> Z.

#[export] Instance nor_mem_flash : NorFlash nor_mem := {
  nor_read d off n := Some ((fun a => d a mod 256) <$> seqZ off n);
  nor_write d off bs :=
    (fun a => if (off <=? a) && (a <? off + len bs) then Z.land (d a mod 256) (at_ bs (a - off)) else d a, true);
  nor_erase d from to := (fun a => if (from <=? a) && (a <? to) then 255 else d a, true);
}.

#[export, program] Instance nor_mem_laws : NorFlashLaws nor_mem := {
  nor_cell d a := d a mod 256;
}.
Next Obligation. intros. apply Z.mod_pos_bound. lia. Qed.
Next Obligation. simpl. intros. congruence. Qed.
Next Obligation.
  simpl. intros d off bs d' ok a [= <- <-] Ha. destruct (_ && _) eqn:E; [|done]. zbool. lia.
Qed.
Next Obligation.
  simpl. intros d off bs d' [= <-] Hok He. apply list_eq. intros i.
  rewrite list_lookup_fmap. destruct (bs !! i) as [b|] eqn:Hb.
  - pose proof (lookup_lt_Some _ _ _ Hb). rewrite lookup_seqZ_lt by lia. simpl. f_equal.
    replace (off <=? off + Z.of_nat i) with true by (symmetry; apply Z.leb_le; lia).
    replace (off + Z.of_nat i <? off + len bs) with true by (symmetry; apply Z.ltb_lt; lia). simpl.
    specialize (He (off + Z.of_nat i) ltac:(lia)). simpl in He. rewrite He.
    unfold at_. replace (Z.to_nat (off + Z.of_nat i - off)) with i by lia. rewrite Hb. simpl.
    change 255 with (Z.ones 8). rewrite Z.land_comm, Z.land_ones by lia.
    eapply Forall_lookup_1 in Hok; [|done]. unfold is_byte in Hok.
    change (2 ^ 8) with 256. by rewrite Z.mod_mod, Z.mod_small by lia.
  - apply lookup_ge_None in Hb. by rewrite lookup_seqZ_ge by lia.
Qed.
Next Obligation.
  simpl. intros d from to d' ok a [= <- <-] Ha. destruct (_ && _) eqn:E; [|done]. zbool. lia.
Qed.
Next Obligation.
  simpl. intros d from to d' a [= <-] Ha.
  replace (from <=? a) with true by (symmetry; apply Z.leb_le; lia).
  by replace (a <? to) with true by (symmetry; apply Z.ltb_lt; lia).
Qed.

(** A device whose reads do not fail. *)
Class ReadsOk (D : Type) `{NorFlash D} := { dev_reads : forall d : D, reads_ok d }.
#[export] Instance nor_mem_ReadsOk : ReadsOk nor_mem.
Proof. split. intros d off n _ _ _. by eexists. Defined.
Lemma nor_mem_works : nor_works nor_mem.
Proof. by split. Qed.
