(* ===== verification/Wire.v ===== *)
(** * Wire: the on-flash record format of EspFs (kernel/src/fs/espfs/wire.rs)

    The byte-level encoders and decoders of the log records and of the
    superblock, with the CRC-32 that protects both.  Offsets and lengths are [Z];
    byte arrays are lists of [Z] in [0, 256). *)

From S2P Require Import Prelude.

Open Scope Z_scope.

(** ** Definitions *)

(* @src kernel/src/fs/espfs/wire.rs 5-7 REC_MAGIC, SB_MAGIC, VERSION *)
Definition REC_MAGIC : Z := 0xE5F5.
Definition SB_MAGIC : Z := 0x45734653.
Definition VERSION : Z := 1.

(* @src kernel/src/fs/espfs/wire.rs 9-9 HEADER_LEN *)
Definition HEADER_LEN : Z := 16.
(* @src kernel/src/fs/espfs/wire.rs 10-10 SB_LEN *)
Definition SB_LEN : Z := 20.

(** One turn of the inner loop of [crc32_update]. *)
(* @src kernel/src/fs/espfs/wire.rs 15-18 crc32_update (inner loop body) *)
Definition crc_bit (crc : Z) : Z :=
  let mask := u32 (- Z.land crc 1) in
  Z.lxor (Z.shiftr crc 1) (Z.land 0xEDB88320 mask).

Definition crc_byte (crc b : Z) : Z := Nat.iter 8 crc_bit (Z.lxor crc b).

(* @src kernel/src/fs/espfs/wire.rs 12-21 crc32_update *)
Definition crc32_update (crc : Z) (data : list Z) : Z := foldl crc_byte crc data.

(* @src kernel/src/fs/espfs/wire.rs 23-25 crc32_init *)
Definition crc32_init : Z := 0xFFFFFFFF.

(* @src kernel/src/fs/espfs/wire.rs 27-29 crc32_final *)
Definition crc32_final (crc : Z) : Z := Z.lxor crc 0xFFFFFFFF.

(* @src kernel/src/fs/espfs/wire.rs 31-33 crc32 *)
Definition crc32 (data : list Z) : Z := crc32_final (crc32_update crc32_init data).

(* @src kernel/src/fs/espfs/wire.rs 35-38 pad4 *)
Definition pad4 (n : Z) : Z := Z.land (u32 (n + 3)) 0xFFFFFFFC.

(* @src kernel/src/fs/espfs/wire.rs 40-43 rd_u16 *)
Definition rd_u16 (b : list Z) (o : Z) : Z := Z.lor (at_ b o) (Z.shiftl (at_ b (o + 1)) 8).

(* @src kernel/src/fs/espfs/wire.rs 45-48 rd_u32 *)
Definition rd_u32 (b : list Z) (o : Z) : Z :=
  Z.lor (Z.lor (Z.lor (at_ b o) (Z.shiftl (at_ b (o + 1)) 8))
    (Z.shiftl (at_ b (o + 2)) 16)) (Z.shiftl (at_ b (o + 3)) 24).

(* @src kernel/src/fs/espfs/wire.rs 50-56 wr_u32 *)
Definition wr_u32 (b : list Z) (o : nat) (v : Z) : list Z :=
  <[(o + 3)%nat := u8 (Z.shiftr v 24)]>
    (<[(o + 2)%nat := u8 (Z.shiftr v 16)]>
      (<[(o + 1)%nat := u8 (Z.shiftr v 8)]> (<[o := u8 v]> b))).

(* @src kernel/src/fs/espfs/wire.rs 58-65 RecType *)
Inductive RecType : Type := MkFile | MkDir | Write | Truncate | Unlink.

#[export] Instance RecType_eq_dec : EqDecision RecType.
Proof. solve_decision. Defined.

(* @src kernel/src/fs/espfs/wire.rs 68-77 RecType::from_u8 *)
Definition rectype_from_u8 (v : Z) : option RecType :=
  if v =? 1 then Some MkFile else if v =? 2 then Some MkDir else if v =? 3 then Some Write
  else if v =? 4 then Some Truncate else if v =? 5 then Some Unlink else None.

(* @src kernel/src/fs/espfs/wire.rs 78-80 RecType::as_u8 *)
Definition rectype_as_u8 (t : RecType) : Z :=
  match t with MkFile => 1 | MkDir => 2 | Write => 3 | Truncate => 4 | Unlink => 5 end.

(* @src kernel/src/fs/espfs/wire.rs 83-89 Header *)
Record Header := mkHeader { h_rtype : RecType; h_seq : Z; h_plen : Z; h_crc : Z }.

(* @src kernel/src/fs/espfs/wire.rs 91-93 record_total_len *)
Definition record_total_len (plen : Z) : Z := u32 (HEADER_LEN + pad4 plen).

(* @src kernel/src/fs/espfs/wire.rs 95-107 build_header *)
Definition build_header (rtype : RecType) (seq : Z) (payload : list Z) : list Z :=
  let h := replicate (Z.to_nat HEADER_LEN) 0 in
  let h := <[0%nat := u8 REC_MAGIC]> h in
  let h := <[1%nat := u8 (Z.shiftr REC_MAGIC 8)]> h in
  let h := <[2%nat := rectype_as_u8 rtype]> h in
  let h := <[3%nat := 0]> h in
  let h := wr_u32 h 4 seq in
  let h := wr_u32 h 8 (u32 (len payload)) in
  let crc := crc32_update crc32_init (take 12 h) in
  let crc := crc32_final (crc32_update crc payload) in
  wr_u32 h 12 crc.

(* @src kernel/src/fs/espfs/wire.rs 109-117 encode_record *)
Definition encode_record (rtype : RecType) (seq : Z) (payload : list Z) : list Z :=
  let h := build_header rtype seq payload in
  let total := record_total_len (len payload) in
  resize (Z.to_nat total) 0 (h ++ payload).

(* @src kernel/src/fs/espfs/wire.rs 119-133 parse_header *)
Definition parse_header (buf : list Z) : option Header :=
  if len buf <? HEADER_LEN then None
  else if negb (rd_u16 buf 0 =? REC_MAGIC) then None
  else match rectype_from_u8 (at_ buf 2) with
    | None => None
    | Some rtype => Some (mkHeader rtype (rd_u32 buf 4) (rd_u32 buf 8) (rd_u32 buf 12))
    end.

(* @src kernel/src/fs/espfs/wire.rs 135-139 verify_crc *)
Definition verify_crc (header16 payload : list Z) (expected : Z) : bool :=
  let crc := crc32_update crc32_init (take 12 header16) in
  let crc := crc32_final (crc32_update crc payload) in
  crc =? expected.

(* @src kernel/src/fs/espfs/wire.rs 141-147 enc_mk *)
Definition enc_mk (ino parent : Z) (name : list Z) : list Z :=
  le_bytes 4 ino ++ le_bytes 4 parent ++ name.

(* @src kernel/src/fs/espfs/wire.rs 149-154 dec_mk *)
Definition dec_mk (p : list Z) : option (Z * Z * list Z) :=
  if len p <? 8 then None else Some (rd_u32 p 0, rd_u32 p 4, drop 8 p).

(* @src kernel/src/fs/espfs/wire.rs 156-162 enc_write *)
Definition enc_write (ino offset : Z) (data : list Z) : list Z :=
  le_bytes 4 ino ++ le_bytes 4 offset ++ data.

(* @src kernel/src/fs/espfs/wire.rs 164-169 dec_write_head *)
Definition dec_write_head (p8 : list Z) : option (Z * Z) :=
  if len p8 <? 8 then None else Some (rd_u32 p8 0, rd_u32 p8 4).

(* @src kernel/src/fs/espfs/wire.rs 171-171 WRITE_DATA_OFF *)
Definition WRITE_DATA_OFF : Z := 8.

(* @src kernel/src/fs/espfs/wire.rs 173-178 enc_trunc *)
Definition enc_trunc (ino length : Z) : list Z := le_bytes 4 ino ++ le_bytes 4 length.

(* @src kernel/src/fs/espfs/wire.rs 180-185 dec_trunc *)
Definition dec_trunc (p : list Z) : option (Z * Z) :=
  if len p <? 8 then None else Some (rd_u32 p 0, rd_u32 p 4).

(* @src kernel/src/fs/espfs/wire.rs 187-192 enc_unlink *)
Definition enc_unlink (parent : Z) (name : list Z) : list Z := le_bytes 4 parent ++ name.

(* @src kernel/src/fs/espfs/wire.rs 194-199 dec_unlink *)
Definition dec_unlink (p : list Z) : option (Z * list Z) :=
  if len p <? 4 then None else Some (rd_u32 p 0, drop 4 p).

(* @src kernel/src/fs/espfs/wire.rs 201-205 SuperBlock *)
Record SuperBlock := mkSuperBlock { sb_generation : Z; sb_active_half : Z }.

(* @src kernel/src/fs/espfs/wire.rs 207-216 encode_super *)
Definition encode_super (sb : SuperBlock) : list Z :=
  let b := replicate (Z.to_nat SB_LEN) 0 in
  let b := wr_u32 b 0 SB_MAGIC in
  let b := wr_u32 b 4 VERSION in
  let b := wr_u32 b 8 (sb_generation sb) in
  let b := wr_u32 b 12 (sb_active_half sb) in
  let crc := crc32 (take 16 b) in
  wr_u32 b 16 crc.

(* @src kernel/src/fs/espfs/wire.rs 218-232 decode_super *)
Definition decode_super (b : list Z) : option SuperBlock :=
  if len b <? SB_LEN then None
  else if negb (rd_u32 b 0 =? SB_MAGIC) || negb (rd_u32 b 4 =? VERSION) then None
  else if negb (crc32 (take 16 b) =? rd_u32 b 16) then None
  else Some (mkSuperBlock (rd_u32 b 8) (rd_u32 b 12)).

(** ** Reading and writing little-endian words *)

Lemma rd_u32_of_le b0 b1 b2 b3 l :
  is_byte b0 -> is_byte b1 -> is_byte b2 -> is_byte b3 ->
  rd_u32 (b0 :: b1 :: b2 :: b3 :: l) 0 = of_le [b0; b1; b2; b3].
Proof.
  unfold is_byte, rd_u32, at_. intros. simpl.
  rewrite (lor_shift_add b0 b1 8), (lor_shift_add _ b2 16), (lor_shift_add _ b3 24) by lia. lia.
Qed.

Lemma rd_u32_drop b o : 0 <= o -> rd_u32 b o = rd_u32 (drop (Z.to_nat o) b) 0.
Proof.
  intros Ho. unfold rd_u32, at_. rewrite !lookup_drop.
  repeat match goal with
  | |- context [b !! Z.to_nat (o + ?k)] =>
      replace (Z.to_nat (o + k)) with (Z.to_nat o + Z.to_nat (0 + k))%nat by lia
  end.
  by replace (Z.to_nat o + Z.to_nat 0)%nat with (Z.to_nat o) by lia.
Qed.

(** A word written by [to_le_bytes] anywhere in a buffer is read back. *)
Lemma rd_u32_le_bytes pre v post o :
  o = len pre -> rd_u32 (pre ++ le_bytes 4 v ++ post) o = u32 v.
Proof.
  intros ->. rewrite rd_u32_drop by lia. rewrite Nat2Z.id, drop_app_length.
  cbn [le_bytes app]. rewrite rd_u32_of_le by (unfold is_byte; apply Z.mod_pos_bound; lia).
  cbn [of_le]. unfold u32.
  rewrite (Z.mod_eq v 256), (Z.mod_eq (v / 256) 256), (Z.mod_eq (v / 256 / 256) 256),
    (Z.mod_eq (v / 256 / 256 / 256) 256) by lia.
  rewrite !Z.div_div by lia. rewrite (Z.mod_eq v (2 ^ 32)) by lia.
  change (2 ^ 32) with (256 * 256 * 256 * 256). ring.
Qed.

Lemma rd_u32_head v post : rd_u32 (le_bytes 4 v ++ post) 0 = u32 v.
Proof. by apply (rd_u32_le_bytes []). Qed.

(** The same for the words of a fixed-layout structure. *)
Lemma rd_u32_4 a v post : rd_u32 (le_bytes 4 a ++ le_bytes 4 v ++ post) 4 = u32 v.
Proof. rewrite rd_u32_drop by lia. apply rd_u32_head. Qed.
Lemma rd_u32_8 a b v post : rd_u32 (le_bytes 4 a ++ le_bytes 4 b ++ le_bytes 4 v ++ post) 8 = u32 v.
Proof. rewrite rd_u32_drop by lia. apply rd_u32_head. Qed.
Lemma rd_u32_12 a b c v post :
  rd_u32 (le_bytes 4 a ++ le_bytes 4 b ++ le_bytes 4 c ++ le_bytes 4 v ++ post) 12 = u32 v.
Proof. rewrite rd_u32_drop by lia. apply rd_u32_head. Qed.
Lemma rd_u32_16 a b c d v post :
  rd_u32 (le_bytes 4 a ++ le_bytes 4 b ++ le_bytes 4 c ++ le_bytes 4 d ++ le_bytes 4 v ++ post) 16 = u32 v.
Proof. rewrite rd_u32_drop by lia. apply rd_u32_head. Qed.

Lemma rd_u32_range b o : bytes_ok b -> 0 <= rd_u32 b o < 2 ^ 32.
Proof.
  intros Hb. unfold rd_u32.
  pose proof (at_byte b o Hb) as H0. pose proof (at_byte b (o + 1) Hb) as H1.
  pose proof (at_byte b (o + 2) Hb) as H2. pose proof (at_byte b (o + 3) Hb) as H3.
  unfold is_byte in *.
  rewrite (lor_shift_add _ (at_ b (o + 1)) 8), (lor_shift_add _ (at_ b (o + 2)) 16),
    (lor_shift_add _ (at_ b (o + 3)) 24) by lia.
  lia.
Qed.

Lemma u8_shiftr v k : 0 <= k -> u8 (Z.shiftr v k) = (v / 2 ^ k) mod 256.
Proof. intros. unfold u8. by rewrite Z.shiftr_div_pow2. Qed.

(** [wr_u32] stores the little-endian bytes of its argument. *)
Lemma wr_u32_app pre old post v o :
  o = length pre -> length old = 4%nat ->
  wr_u32 (pre ++ old ++ post) o v = pre ++ le_bytes 4 v ++ post.
Proof.
  intros -> Hold. destruct old as [|x0 [|x1 [|x2 [|x3 [|]]]]]; try discriminate Hold.
  unfold wr_u32. rewrite !u8_shiftr by lia. unfold u8. change (2 ^ 8) with 256.
  assert (H0 : forall x (l : list Z), <[length pre := x]> (pre ++ l) = pre ++ <[0%nat := x]> l).
  { intros x l. rewrite <- (Nat.add_0_r (length pre)) at 1. apply insert_app_r. }
  rewrite H0, !insert_app_r. cbn [app insert list_insert le_bytes].
  rewrite !Z.div_div by lia. done.
Qed.

Lemma wr_u32_head old post v :
  length old = 4%nat -> wr_u32 (old ++ post) 0 v = le_bytes 4 v ++ post.
Proof. intros. by apply (wr_u32_app [] old post). Qed.

(** ** CRC-32

    One bit step is injective on 32-bit states: the polynomial's top bit moves
    the bit shifted out to the top of the result, so nothing is lost.  Two
    states that differ therefore stay different over any common suffix. *)

Definition is_u32 (z : Z) : Prop := 0 <= z < 2 ^ 32.

Lemma is_u32_bits z : 0 <= z -> (is_u32 z <-> forall i, 32 <= i -> Z.testbit z i = false).
Proof.
  intros Hz. unfold is_u32. split.
  - intros Hr i Hi. rewrite <- (Z.mod_small z (2 ^ 32)) by lia. by apply Z.mod_pow2_bits_high.
  - intros H. replace z with (z mod 2 ^ 32); [apply Z.mod_pos_bound; lia|].
    apply Z.bits_inj'. intros i Hi. destruct (Z.lt_ge_cases i 32).
    + by apply Z.mod_pow2_bits_low.
    + rewrite Z.mod_pow2_bits_high by lia. by rewrite H.
Qed.

Lemma lxor_u32 a b : is_u32 a -> is_u32 b -> is_u32 (Z.lxor a b).
Proof.
  intros Ha Hb. pose proof (proj1 (is_u32_bits a ltac:(apply Ha)) Ha) as Ba.
  pose proof (proj1 (is_u32_bits b ltac:(apply Hb)) Hb) as Bb.
  apply is_u32_bits.
  - apply Z.lxor_nonneg. unfold is_u32 in *. lia.
  - intros i Hi. by rewrite Z.lxor_spec, Ba, Bb.
Qed.

Lemma crc_bit_eq c :
  crc_bit c = Z.lxor (Z.shiftr c 1) (if Z.odd c then 0xEDB88320 else 0).
Proof.
  unfold crc_bit. change 1 with (Z.ones 1) at 2. rewrite Z.land_ones by lia. change (2 ^ 1) with 2.
  rewrite Zmod_odd. by destruct (Z.odd c).
Qed.

Lemma crc_bit_u32 c : is_u32 c -> is_u32 (crc_bit c).
Proof.
  intros Hc. rewrite crc_bit_eq. apply lxor_u32.
  - unfold is_u32 in *. rewrite Z.shiftr_div_pow2 by lia. change (2 ^ 1) with 2.
    split; [apply Z.div_pos; lia | apply Z.div_lt_upper_bound; lia].
  - unfold is_u32. destruct (Z.odd c); lia.
Qed.

Lemma crc_bit_top c : is_u32 c -> Z.testbit (crc_bit c) 31 = Z.odd c.
Proof.
  intros Hc. rewrite crc_bit_eq, Z.lxor_spec, Z.shiftr_spec by lia.
  rewrite (proj1 (is_u32_bits c ltac:(apply Hc)) Hc) by lia. by destruct (Z.odd c).
Qed.

Lemma crc_bit_inj c c' : is_u32 c -> is_u32 c' -> crc_bit c = crc_bit c' -> c = c'.
Proof.
  intros Hc Hc' H.
  assert (Ho : Z.odd c = Z.odd c') by (rewrite <- !crc_bit_top by done; by rewrite H).
  rewrite !crc_bit_eq, Ho in H.
  assert (Hs : Z.shiftr c 1 = Z.shiftr c' 1).
  { apply (f_equal (fun x => Z.lxor x (if Z.odd c' then 0xEDB88320 else 0))) in H.
    rewrite !Z.lxor_assoc, !Z.lxor_nilpotent, !Z.lxor_0_r in H. done. }
  rewrite !Z.shiftr_div_pow2 in Hs by lia. change (2 ^ 1) with 2 in Hs.
  rewrite (Z.div_mod c 2), (Z.div_mod c' 2), Hs, !Zmod_odd, Ho by lia. done.
Qed.

Lemma crc_bits_u32 n c : is_u32 c -> is_u32 (Nat.iter n crc_bit c).
Proof. induction n; simpl; auto using crc_bit_u32. Qed.

Lemma crc_bits_inj n c c' :
  is_u32 c -> is_u32 c' -> Nat.iter n crc_bit c = Nat.iter n crc_bit c' -> c = c'.
Proof.
  revert c c'; induction n as [|n IH]; intros c c' Hc Hc' H; [done|].
  apply IH; [done..|]. by apply crc_bit_inj in H; [| apply crc_bits_u32 ..].
Qed.

Lemma is_byte_u32 b : is_byte b -> is_u32 b.
Proof. unfold is_byte, is_u32. lia. Qed.

Lemma crc_byte_u32 c b : is_u32 c -> is_byte b -> is_u32 (crc_byte c b).
Proof. intros. unfold crc_byte. apply crc_bits_u32, lxor_u32; auto using is_byte_u32. Qed.

Lemma crc_byte_iter c b : crc_byte c b = Nat.iter 8 crc_bit (Z.lxor c b).
Proof. reflexivity. Qed.

Lemma crc_byte_inj c c' b b' :
  is_u32 c -> is_u32 c' -> is_byte b -> is_byte b' ->
  crc_byte c b = crc_byte c' b' -> Z.lxor c b = Z.lxor c' b'.
Proof.
  intros Hc Hc' Hb Hb' H. rewrite !crc_byte_iter in H.
  exact (crc_bits_inj 8 _ _ (lxor_u32 _ _ Hc (is_byte_u32 _ Hb)) (lxor_u32 _ _ Hc' (is_byte_u32 _ Hb')) H).
Qed.

Lemma lxor_cancel_r a b c : Z.lxor a c = Z.lxor b c -> a = b.
Proof.
  intros H. apply (f_equal (fun x => Z.lxor x c)) in H.
  by rewrite !Z.lxor_assoc, !Z.lxor_nilpotent, !Z.lxor_0_r in H.
Qed.

Lemma lxor_cancel_l a b c : Z.lxor c a = Z.lxor c b -> a = b.
Proof. rewrite !(Z.lxor_comm c). apply lxor_cancel_r. Qed.

Lemma crc32_update_u32 data c : bytes_ok data -> is_u32 c -> is_u32 (crc32_update c data).
Proof.
  intros Hd. revert c. induction Hd as [|b l Hb Hl IH]; intros c Hc; simpl; [done|].
  by apply IH, crc_byte_u32.
Qed.

Lemma crc32_update_inj data c c' :
  bytes_ok data -> is_u32 c -> is_u32 c' ->
  crc32_update c data = crc32_update c' data -> c = c'.
Proof.
  intros Hd. revert c c'. induction Hd as [|b l Hb Hl IH]; intros c c' Hc Hc' H; simpl in *; [done|].
  apply IH in H; [|by apply crc_byte_u32..].
  apply crc_byte_inj in H; [|done..]. by apply lxor_cancel_r in H.
Qed.

Lemma crc32_update_app c l k : crc32_update c (l ++ k) = crc32_update (crc32_update c l) k.
Proof. apply foldl_app. Qed.

Lemma crc32_init_u32 : is_u32 crc32_init.
Proof. unfold is_u32, crc32_init. lia. Qed.

Lemma crc32_u32 data : bytes_ok data -> is_u32 (crc32 data).
Proof.
  intros. apply lxor_u32; [|apply crc32_init_u32].
  apply crc32_update_u32; auto using crc32_init_u32.
Qed.

(** The two-step computation of [build_header] and [verify_crc] is the CRC of
    the concatenation. *)
Lemma crc32_split h p :
  crc32_final (crc32_update (crc32_update crc32_init h) p) = crc32 (h ++ p).
Proof. unfold crc32. by rewrite crc32_update_app. Qed.

(** Changing one byte of the data changes the checksum. *)
Lemma crc32_single_byte pre b b' post :
  bytes_ok (pre ++ b :: post) -> is_byte b' -> b <> b' ->
  crc32 (pre ++ b :: post) <> crc32 (pre ++ b' :: post).
Proof.
  unfold bytes_ok. rewrite Forall_app, Forall_cons. intros (Hpre & Hb & Hpost) Hb' Hne H.
  unfold crc32, crc32_final in H. apply lxor_cancel_r in H.
  rewrite !crc32_update_app in H. cbn [crc32_update foldl] in H.
  assert (Hu : is_u32 (crc32_update crc32_init pre)) by auto using crc32_update_u32, crc32_init_u32.
  apply crc32_update_inj in H; [|done|by apply crc_byte_u32..].
  apply crc_byte_inj in H; [|done..]. by apply lxor_cancel_l in H.
Qed.

(** ** Records *)

Lemma pad4_spec n : 0 <= n -> n + 3 < 2 ^ 32 -> n <= pad4 n <= n + 3 /\ pad4 n mod 4 = 0.
Proof.
  intros H0 H1. unfold pad4. rewrite u32_small by lia.
  change 0xFFFFFFFC with (Z.ldiff (Z.ones 32) (Z.ones 2)).
  rewrite land_align by lia. change (2 ^ 2) with 4.
  rewrite Z.mod_mul by lia. pose proof (Z.div_mod (n + 3) 4). pose proof (Z.mod_pos_bound (n + 3) 4). lia.
Qed.

Lemma record_total_len_spec n :
  0 <= n -> n + 19 < 2 ^ 32 ->
  16 + n <= record_total_len n <= n + 19 /\ record_total_len n mod 4 = 0.
Proof.
  intros H0 H1. pose proof (pad4_spec n H0 ltac:(lia)) as [Hp Hm].
  unfold record_total_len, HEADER_LEN. rewrite u32_small by lia. split; [lia|].
  rewrite Z.add_mod, Hm by lia. done.
Qed.

(** The first twelve bytes of a header: magic, type, sequence and length. *)
Definition header12 (t : RecType) (seq plen : Z) : list Z :=
  [0xF5; 0xE5; rectype_as_u8 t; 0] ++ le_bytes 4 seq ++ le_bytes 4 plen.

Lemma header12_length t seq plen : length (header12 t seq plen) = 12%nat.
Proof. unfold header12. by rewrite !length_app, !le_bytes_length. Qed.

Lemma rectype_byte t : is_byte (rectype_as_u8 t).
Proof. destruct t; unfold is_byte; simpl; lia. Qed.

Lemma header12_ok t seq plen : bytes_ok (header12 t seq plen).
Proof.
  unfold header12. rewrite !bytes_ok_app. split_and!; try apply le_bytes_ok.
  repeat constructor; try (unfold is_byte; lia); apply rectype_byte.
Qed.

(** [build_header] is the twelve fixed bytes followed by their checksum. *)
Lemma build_header_eq t seq p :
  build_header t seq p =
  header12 t seq (u32 (len p)) ++ le_bytes 4 (crc32 (header12 t seq (u32 (len p)) ++ p)).
Proof.
  set (n := u32 (len p)). unfold build_header. fold n.
  change (replicate (Z.to_nat HEADER_LEN) 0) with (replicate 16 0).
  rewrite (wr_u32_app [0xF5; 0xE5; rectype_as_u8 t; 0] [0; 0; 0; 0] (replicate 8 0)) by done.
  rewrite (app_assoc _ (le_bytes 4 seq) (replicate 8 0)).
  rewrite (wr_u32_app _ [0; 0; 0; 0] (replicate 4 0)) by (rewrite ?length_app, ?le_bytes_length; done).
  rewrite app_assoc, <- (app_assoc _ (le_bytes 4 seq)). fold (header12 t seq n).
  rewrite (take_app_length' (header12 t seq n)) by (symmetry; apply header12_length || apply header12_length).
  rewrite <- (app_nil_r (replicate 4 0)).
  rewrite wr_u32_app by (rewrite ?header12_length; done).
  by rewrite app_nil_r, crc32_split.
Qed.

Lemma build_header_length t seq p : length (build_header t seq p) = 16%nat.
Proof. by rewrite build_header_eq, length_app, header12_length, le_bytes_length. Qed.

Lemma build_header_ok t seq p : bytes_ok (build_header t seq p).
Proof. rewrite build_header_eq, bytes_ok_app. auto using header12_ok, le_bytes_ok. Qed.

Lemma encode_record_eq t seq p :
  len p + 19 < 2 ^ 32 ->
  encode_record t seq p =
  build_header t seq p ++ p ++ replicate (Z.to_nat (record_total_len (len p) - 16 - len p)) 0.
Proof.
  intros Hp. pose proof (record_total_len_spec (len p) ltac:(lia) Hp) as [Ht _].
  unfold encode_record. rewrite resize_ge by (rewrite length_app, build_header_length; lia).
  rewrite <- app_assoc. do 3 f_equal. rewrite length_app, build_header_length. lia.
Qed.

Lemma encode_record_length t seq p :
  len p + 19 < 2 ^ 32 -> len (encode_record t seq p) = record_total_len (len p).
Proof.
  intros Hp. unfold encode_record. rewrite length_resize.
  pose proof (record_total_len_spec (len p) ltac:(lia) Hp). lia.
Qed.

Lemma encode_record_ok t seq p :
  len p + 19 < 2 ^ 32 -> bytes_ok p -> bytes_ok (encode_record t seq p).
Proof.
  intros Hl Hp. rewrite encode_record_eq, !bytes_ok_app by done.
  split_and!; auto using build_header_ok. apply bytes_ok_replicate. unfold is_byte. lia.
Qed.

(** Any buffer that starts with a built header parses back to its fields. *)
Lemma parse_header_build t seq p rest :
  0 <= seq < 2 ^ 32 -> len p < 2 ^ 32 -> bytes_ok p ->
  parse_header (build_header t seq p ++ rest) =
  Some (mkHeader t seq (len p) (crc32 (header12 t seq (len p) ++ p))).
Proof.
  intros Hs Hl Hp. rewrite build_header_eq. rewrite (u32_small (len p)) by lia.
  set (crc := crc32 _). assert (Hc : is_u32 crc) by (apply crc32_u32, bytes_ok_app; auto using header12_ok).
  set (h := [0xF5; 0xE5; rectype_as_u8 t; 0]).
  replace ((header12 t seq (len p) ++ le_bytes 4 crc) ++ rest)
    with (h ++ le_bytes 4 seq ++ le_bytes 4 (len p) ++ le_bytes 4 crc ++ rest)
    by (unfold header12; by rewrite <- !app_assoc).
  unfold parse_header. replace (_ <? HEADER_LEN) with false.
  2:{ symmetry. apply Z.ltb_ge. unfold HEADER_LEN. rewrite !length_app, !le_bytes_length. simpl. lia. }
  replace (rd_u16 _ 0) with REC_MAGIC by done. rewrite Z.eqb_refl. simpl negb. cbn iota.
  replace (at_ _ 2) with (rectype_as_u8 t) by done.
  replace (rectype_from_u8 _) with (Some t) by (by destruct t). f_equal.
  rewrite (rd_u32_le_bytes h seq) by done.
  rewrite (app_assoc h), (rd_u32_le_bytes (h ++ le_bytes 4 seq) (len p)) by done.
  rewrite (app_assoc (h ++ _)), (rd_u32_le_bytes ((h ++ le_bytes 4 seq) ++ le_bytes 4 (len p)) crc) by done.
  by rewrite (u32_small seq), (u32_small (len p)), (u32_small crc) by (unfold is_u32 in *; lia).
Qed.

(** [verify_crc] of a header slice and a payload, as one checksum. *)
Lemma verify_crc_eq h p e : verify_crc h p e = (crc32 (take 12 h ++ p) =? e).
Proof. unfold verify_crc. by rewrite crc32_split. Qed.

Lemma take12_build t seq p rest :
  len p < 2 ^ 32 -> take 12 (build_header t seq p ++ rest) = header12 t seq (len p).
Proof.
  intros Hl. rewrite build_header_eq, (u32_small (len p)), <- app_assoc by lia.
  apply take_app_length'. by rewrite header12_length.
Qed.

(** ** Payloads *)

Lemma at_cons0 b l : at_ (b :: l) 0 = b.
Proof. done. Qed.

Lemma dec_mk_enc ino parent name :
  is_u32 ino -> is_u32 parent -> dec_mk (enc_mk ino parent name) = Some (ino, parent, name).
Proof.
  intros Hi Hp. unfold dec_mk, enc_mk.
  replace (_ <? 8) with false by (symmetry; apply Z.ltb_ge; rewrite !length_app, !le_bytes_length; lia).
  rewrite rd_u32_head.
  rewrite rd_u32_4.
  rewrite app_assoc, drop_app_length' by (by rewrite length_app, !le_bytes_length).
  by rewrite !u32_small by done.
Qed.

Lemma dec_write_head_enc ino off data :
  is_u32 ino -> is_u32 off -> dec_write_head (take 8 (enc_write ino off data)) = Some (ino, off).
Proof.
  intros Hi Hp. unfold dec_write_head, enc_write.
  rewrite app_assoc, take_app_length' by (by rewrite length_app, !le_bytes_length).
  rewrite length_app, !le_bytes_length. simpl Z.ltb. cbn iota.
  rewrite rd_u32_head.
  rewrite <- (app_nil_r (le_bytes 4 off)), rd_u32_4.
  by rewrite !u32_small by done.
Qed.

Lemma dec_trunc_enc ino l : is_u32 ino -> is_u32 l -> dec_trunc (enc_trunc ino l) = Some (ino, l).
Proof.
  intros Hi Hp. unfold dec_trunc, enc_trunc.
  rewrite length_app, !le_bytes_length. simpl Z.ltb. cbn iota.
  rewrite rd_u32_head.
  rewrite <- (app_nil_r (le_bytes 4 l)), rd_u32_4.
  by rewrite !u32_small by done.
Qed.

Lemma dec_unlink_enc parent name :
  is_u32 parent -> dec_unlink (enc_unlink parent name) = Some (parent, name).
Proof.
  intros Hp. unfold dec_unlink, enc_unlink.
  replace (_ <? 4) with false by (symmetry; apply Z.ltb_ge; rewrite !length_app, !le_bytes_length; lia).
  rewrite rd_u32_head.
  rewrite drop_app_length' by (by rewrite le_bytes_length).
  by rewrite u32_small.
Qed.

(** ** Superblocks *)

Definition super16 (sb : SuperBlock) : list Z :=
  le_bytes 4 SB_MAGIC ++ le_bytes 4 VERSION ++ le_bytes 4 (sb_generation sb) ++
  le_bytes 4 (sb_active_half sb).

Lemma super16_length sb : length (super16 sb) = 16%nat.
Proof. unfold super16. by rewrite !length_app, !le_bytes_length. Qed.

Lemma super16_ok sb : bytes_ok (super16 sb).
Proof. unfold super16. rewrite !bytes_ok_app. auto using le_bytes_ok. Qed.

Lemma encode_super_eq sb : encode_super sb = super16 sb ++ le_bytes 4 (crc32 (super16 sb)).
Proof.
  unfold encode_super. change (replicate (Z.to_nat SB_LEN) 0) with (replicate 20 0).
  set (g := sb_generation sb). set (a := sb_active_half sb).
  change (replicate 20 0) with ([0; 0; 0; 0] ++ replicate 16 0).
  rewrite wr_u32_head by done.
  rewrite (wr_u32_app (le_bytes 4 SB_MAGIC) [0; 0; 0; 0] (replicate 12 0)) by done.
  rewrite (app_assoc (le_bytes 4 SB_MAGIC)).
  rewrite (wr_u32_app _ [0; 0; 0; 0] (replicate 8 0)) by done.
  rewrite (app_assoc (_ ++ _)).
  rewrite (wr_u32_app _ [0; 0; 0; 0] (replicate 4 0)) by done.
  rewrite <- (app_nil_r (replicate 4 0)), !(app_assoc _ _ (replicate 4 0 ++ [])).
  replace (((le_bytes 4 SB_MAGIC ++ le_bytes 4 VERSION) ++ le_bytes 4 g) ++ le_bytes 4 a)
    with (super16 sb) by (unfold super16; by rewrite <- !app_assoc).
  rewrite take_app_length' by (by rewrite super16_length).
  rewrite wr_u32_app by (by rewrite ?super16_length). by rewrite app_nil_r.
Qed.

Lemma encode_super_length sb : length (encode_super sb) = 20%nat.
Proof. by rewrite encode_super_eq, length_app, super16_length, le_bytes_length. Qed.

Lemma encode_super_ok sb : bytes_ok (encode_super sb).
Proof. rewrite encode_super_eq, bytes_ok_app. auto using super16_ok, le_bytes_ok. Qed.

Lemma decode_encode_super g a :
  is_u32 g -> is_u32 a -> decode_super (encode_super (mkSuperBlock g a)) = Some (mkSuperBlock g a).
Proof.
  intros Hg Ha. set (sb := mkSuperBlock g a).
  unfold decode_super. rewrite encode_super_length. simpl Z.ltb. cbn iota.
  rewrite encode_super_eq. rewrite take_app_length' by (by rewrite super16_length).
  set (crc := crc32 (super16 sb)). assert (Hc : is_u32 crc) by apply crc32_u32, super16_ok.
  unfold super16. rewrite <- !app_assoc.
  rewrite <- (app_nil_r (le_bytes 4 crc)).
  rewrite rd_u32_head, rd_u32_4, rd_u32_8, rd_u32_12, rd_u32_16.
  clearbody crc. rewrite (u32_small crc Hc), (Z.eqb_refl crc).
  change (u32 SB_MAGIC =? SB_MAGIC) with true. change (u32 VERSION =? VERSION) with true.
  cbn [negb orb sb sb_generation sb_active_half]. by rewrite (u32_small g Hg), (u32_small a Ha).
Qed.

(** ** Properties *)

(** Round trip of a log record: what [encode_record] writes is a whole number
    of flash words, and [parse_header] recovers its type, sequence number and
    payload length, the payload sits right behind the header, and the stored
    checksum verifies. *)
Theorem record_roundtrip t seq p (Hseq : 0 <= seq < 2 ^ 32) (Hp : bytes_ok p)
    (Hl : len p + 19 < 2 ^ 32) :
  let rec := encode_record t seq p in
  len rec = record_total_len (len p) /\ len rec mod 4 = 0 /\
  exists h, parse_header rec = Some h /\ h_rtype h = t /\ h_seq h = seq /\ h_plen h = len p /\
    slice HEADER_LEN (h_plen h) rec = p /\
    verify_crc (take 16 rec) (slice HEADER_LEN (h_plen h) rec) (h_crc h) = true.
Proof.
  cbv zeta. pose proof (record_total_len_spec (len p) ltac:(lia) Hl) as [Ht Hm].
  rewrite encode_record_length by done. split; [done|]. split; [done|].
  rewrite encode_record_eq by done. set (pad := replicate _ 0).
  eexists. split; [apply parse_header_build; [done|lia|done]|]. cbn [h_rtype h_seq h_plen h_crc].
  assert (Hs : slice HEADER_LEN (len p) (build_header t seq p ++ p ++ pad) = p).
  { unfold slice. rewrite drop_app_length' by (by rewrite build_header_length).
    rewrite Nat2Z.id. apply take_app_length. }
  rewrite Hs. split_and!; [done..|]. rewrite verify_crc_eq, take_take.
  change (12 `min` 16)%nat with 12%nat. rewrite take12_build by lia. apply Z.eqb_refl.
Qed.

Lemma record_roundtrip_witness :
  len (encode_record Write 42 (enc_write 7 100 (as_bytes "hello world"))) = 36 /\
  36 mod 4 = 0 /\
  exists h, parse_header (encode_record Write 42 (enc_write 7 100 (as_bytes "hello world"))) = Some h /\
    h_rtype h = Write /\ h_seq h = 42 /\ h_plen h = 19 /\
    slice HEADER_LEN (h_plen h) (encode_record Write 42 (enc_write 7 100 (as_bytes "hello world")))
      = enc_write 7 100 (as_bytes "hello world") /\
    verify_crc (take 16 (encode_record Write 42 (enc_write 7 100 (as_bytes "hello world"))))
      (slice HEADER_LEN (h_plen h) (encode_record Write 42 (enc_write 7 100 (as_bytes "hello world"))))
      (h_crc h) = true.
Proof.
  apply (record_roundtrip Write 42 (enc_write 7 100 (as_bytes "hello world"))); [lia| |vm_compute; done].
  unfold enc_write. rewrite !bytes_ok_app. auto using le_bytes_ok, as_bytes_ok.
Defined.

(** A record whose checksum verified no longer verifies after any one byte of
    its header (magic, type, sequence, length) or of its payload has changed. *)
Theorem verify_crc_single_byte h p h' p' e pre b b' post
    (Hok : bytes_ok (pre ++ b :: post)) (Hb' : is_byte b') (Hne : b <> b')
    (Hold : take 12 h ++ p = pre ++ b :: post) (Hnew : take 12 h' ++ p' = pre ++ b' :: post)
    (Hv : verify_crc h p e = true) :
  verify_crc h' p' e = false.
Proof.
  rewrite verify_crc_eq, Hold in Hv. rewrite verify_crc_eq, Hnew. apply Z.eqb_eq in Hv as <-.
  apply Z.eqb_neq. intros H. by eapply crc32_single_byte, eq_sym.
Qed.

Lemma verify_crc_single_byte_witness :
  verify_crc (take 16 (encode_record MkFile 1 (enc_mk 3 1 (as_bytes "foo"))))
    (le_bytes 4 3 ++ le_bytes 4 1 ++ as_bytes "fop")
    (h_crc (default (mkHeader Write 0 0 0)
      (parse_header (encode_record MkFile 1 (enc_mk 3 1 (as_bytes "foo")))))) = false.
Proof.
  apply (verify_crc_single_byte
    (take 16 (encode_record MkFile 1 (enc_mk 3 1 (as_bytes "foo")))) (enc_mk 3 1 (as_bytes "foo"))
    _ _ _ (header12 MkFile 1 11 ++ le_bytes 4 3 ++ le_bytes 4 1 ++ as_bytes "fo") 111 112 []).
  - apply (bool_decide_unpack _). by vm_compute.
  - apply (bool_decide_unpack _). by vm_compute.
  - done.
  - by vm_compute.
  - by vm_compute.
  - by vm_compute.
Defined.

Lemma at_insert_ne l (i : nat) b k : i <> Z.to_nat k -> at_ (<[i := b]> l) k = at_ l k.
Proof. intros. unfold at_. by rewrite list_lookup_insert_ne. Qed.

(** The word at offset 16 determines the four bytes there. *)
Lemma rd_u32_le_bytes_inj (l : list Z) v :
  bytes_ok l -> length l = 4%nat -> rd_u32 l 0 = v -> l = le_bytes 4 v.
Proof.
  intros Hok Hl <-. destruct l as [|b0 [|b1 [|b2 [|b3 [|]]]]]; try discriminate Hl.
  pose proof Hok as Hok'. unfold bytes_ok in Hok. rewrite !Forall_cons in Hok.
  destruct Hok as (?&?&?&?&_). rewrite rd_u32_of_le by done.
  symmetry. exact (le_bytes_of_le [b0; b1; b2; b3] Hok').
Qed.

(** The superblock that commits a compaction round-trips, and one changed byte
    anywhere in it makes [decode_super] refuse it, so a half-written commit is
    never mistaken for a valid one when it differs in one byte. *)
Theorem super_roundtrip_and_detection g a (i : nat) b
    (Hg : 0 <= g < 2 ^ 32) (Ha : 0 <= a < 2 ^ 32) (Hi : (i < 20)%nat) (Hb : is_byte b)
    (Hne : encode_super (mkSuperBlock g a) !! i <> Some b) :
  decode_super (encode_super (mkSuperBlock g a)) = Some (mkSuperBlock g a) /\
  decode_super (<[i := b]> (encode_super (mkSuperBlock g a))) = None.
Proof.
  split; [by apply decode_encode_super|].
  set (sb := mkSuperBlock g a) in *. unfold decode_super.
  destruct (_ <? SB_LEN); [done|]. destruct (_ || _); [done|].
  replace (crc32 _ =? _) with false; [done|]. symmetry. apply Z.eqb_neq.
  rewrite rd_u32_drop by lia. change (Z.to_nat 16) with 16%nat.
  rewrite encode_super_eq in *. set (crc := crc32 (super16 sb)) in *.
  assert (Hc : is_u32 crc) by apply crc32_u32, super16_ok.
  destruct (decide (i < 16)%nat) as [Hlt|Hge].
  - rewrite insert_app_l by (rewrite super16_length; lia).
    rewrite take_app_length' by (by rewrite length_insert, super16_length).
    rewrite drop_app_length' by (by rewrite length_insert, super16_length).
    rewrite <- (app_nil_r (le_bytes 4 crc)), rd_u32_head, (u32_small crc Hc).
    destruct (lookup_lt_is_Some_2 (super16 sb) i ltac:(rewrite super16_length; lia)) as [x Hx].
    rewrite insert_take_drop by (rewrite super16_length; lia).
    assert (Hcrc : crc = crc32 (take i (super16 sb) ++ x :: drop (S i) (super16 sb)))
      by (by rewrite take_drop_middle).
    rewrite Hcrc. apply not_eq_sym, crc32_single_byte; [|done|].
    + rewrite take_drop_middle by done. apply super16_ok.
    + intros ->. apply Hne. by rewrite lookup_app_l by (rewrite super16_length; lia).
  - replace i with (length (super16 sb) + (i - 16))%nat in * by (rewrite super16_length; lia).
    set (j := (i - 16)%nat) in *. rewrite insert_app_r.
    rewrite take_app_length' by (by rewrite super16_length).
    rewrite drop_app_length' by (by rewrite super16_length). fold crc.
    rewrite lookup_app_r in Hne by lia.
    replace (length (super16 sb) + j - length (super16 sb))%nat with j in Hne by lia.
    intros Heq. symmetry in Heq. apply rd_u32_le_bytes_inj in Heq.
    + apply Hne. rewrite <- Heq. apply list_lookup_insert_eq. simpl.
      rewrite super16_length in Hi. lia.
    + apply Forall_insert; [apply le_bytes_ok | done].
    + by rewrite length_insert, le_bytes_length.
Qed.

Lemma super_roundtrip_and_detection_witness :
  decode_super (encode_super (mkSuperBlock 5 1)) = Some (mkSuperBlock 5 1) /\
  decode_super (<[8%nat := 0xFA]> (encode_super (mkSuperBlock 5 1))) = None.
Proof.
  apply (super_roundtrip_and_detection 5 1 8 0xFA); [lia|lia|lia|unfold is_byte; lia|by vm_compute].
Defined.
