(* ===== verification/Inode.v ===== *)
(** * Inode: the file system interface (kernel/src/vfs/inode.rs)

    The [Inode] and [FileSystem] traits as classes.  A handle ([Arc<dyn Inode>])
    is a value of the handle type [I]; what the handles share and mutate is the
    world [W], threaded through every call.  The VFS is written against these
    classes, and the file systems are their instances. *)

From S2P Require Import Prelude.

Open Scope Z_scope.

(* @src kernel/src/vfs/inode.rs 7-18 InodeKind *)
Inductive InodeKind : Type := File | Dir | Device | Symlink | Fifo.

#[export] Instance InodeKind_eq_dec : EqDecision InodeKind.
Proof. solve_decision. Defined.

(* @src kernel/src/vfs/inode.rs 20-27 DirEntry *)
Record DirEntry := mkDirEntry { de_name : string; de_kind : InodeKind; de_ino : Z }.

(* @src kernel/src/vfs/inode.rs 95-102 FsStat *)
Record FsStat := mkFsStat { total_bytes : Z; used_bytes : Z; block_size : Z }.

(** [read_at off n] is [read_at(off, &mut buf)] with [n = buf.len()]; the value is
    the part of the buffer that was filled, so its length is the returned count. *)
(* @src kernel/src/vfs/inode.rs 29-93 Inode *)
Class Inode (W I : Type) := {
  i_kind : I -> W -> InodeKind;
  i_size : I -> W -> Z;
  i_read_at : I -> Z -> Z -> IO W (list Z);
  i_write_at : I -> Z -> list Z -> IO W Z;
  i_truncate : I -> Z -> ST W unit;
  i_readdir : I -> Z -> ST W (option DirEntry);
  i_lookup : I -> string -> ST W I;
  i_create : I -> string -> InodeKind -> ST W I;
  i_unlink : I -> string -> ST W unit;
}.

(** The default bodies of the trait's methods. *)
(* @src kernel/src/vfs/inode.rs 54-56 Inode::truncate (default) *)
Definition default_truncate {W} (l : Z) : ST W unit := fail NotSupported.
(* @src kernel/src/vfs/inode.rs 74-76 Inode::readdir (default) *)
Definition default_readdir {W} (i : Z) : ST W (option DirEntry) := fail NotADirectory.
(* @src kernel/src/vfs/inode.rs 78-80 Inode::lookup (default) *)
Definition default_lookup {W I} (name : string) : ST W I := fail NotADirectory.
(* @src kernel/src/vfs/inode.rs 82-84 Inode::create (default) *)
Definition default_create {W I} (name : string) (k : InodeKind) : ST W I := fail NotADirectory.
(* @src kernel/src/vfs/inode.rs 86-88 Inode::unlink (default) *)
Definition default_unlink {W} (name : string) : ST W unit := fail NotADirectory.

(** [dyn Inode]: a handle of either of two kinds in the same world. *)
#[export] Instance sum_inode {W A B} `{HA : !Inode W A, HB : !Inode W B} : Inode W (A + B) := {
  i_kind i := match i with inl a => i_kind a | inr b => i_kind b end;
  i_size i := match i with inl a => i_size a | inr b => i_size b end;
  i_read_at i := match i with inl a => i_read_at a | inr b => i_read_at b end;
  i_write_at i := match i with inl a => i_write_at a | inr b => i_write_at b end;
  i_truncate i := match i with inl a => i_truncate a | inr b => i_truncate b end;
  i_readdir i := match i with inl a => i_readdir a | inr b => i_readdir b end;
  i_lookup i name := match i with inl a => x ← i_lookup a name; mret (inl x) | inr b => x ← i_lookup b name; mret (inr x) end;
  i_create i name k := match i with inl a => x ← i_create a name k; mret (inl x) | inr b => x ← i_create b name k; mret (inr x) end;
  i_unlink i := match i with inl a => i_unlink a | inr b => i_unlink b end;
}.

(** A mounted file system, as a value: its name, the handle of its root, and
    [stat] ([sync] does nothing in every file system of the kernel). *)
(* @src kernel/src/vfs/inode.rs 104-112 FileSystem *)
Record FileSystem (W I : Type) := mkFileSystem {
  fs_name : string;
  fs_root : I;
  fs_stat : W -> FsStat;
}.
Arguments mkFileSystem {W I} _ _ _.
Arguments fs_name {W I} _.
Arguments fs_root {W I} _.
Arguments fs_stat {W I} _ _.

(** ** What a file system promises about its regular files

    [fl_content w i] is the contents of the file that [i] names, [fl_entries w i]
    the entries of the directory in the order [readdir] numbers them. *)

(** A write of [bs] at [off], as POSIX describes it: the gap reads as zeros. *)
Definition overwrite (c : list Z) (off : Z) (bs : list Z) : list Z :=
  let c' := resize (Nat.max (length c) (Z.to_nat off + length bs)) 0 c in
  take (Z.to_nat off) c' ++ bs ++ drop (Z.to_nat off + length bs) c'.

(** [fl_inv] is the invariant of the file system and [fl_ready] says that one more
    change can be made (a counter that has not run out, for instance). *)
Class FileLaws (W I : Type) `{!Inode W I} := {
  fl_inv : W -> Prop;
  fl_ready : W -> Prop;
  fl_content : W -> I -> option (list Z);
  fl_entries : W -> I -> option (list DirEntry);
  fl_size w i c : fl_inv w -> fl_content w i = Some c -> i_size i w = len c;
  fl_kind w i c : fl_inv w -> fl_content w i = Some c -> i_kind i w = File;
  fl_read w i c off n : fl_inv w -> fl_content w i = Some c -> 0 <= off -> 0 <= n ->
    i_read_at i off n w = (w, Ret (Ok (slice off n c)));
  fl_write w i c off buf : fl_inv w -> fl_ready w -> fl_content w i = Some c -> 0 <= off ->
    bytes_ok buf -> buf <> [] -> len buf < 2 ^ 31 - 8 ->
    exists w' res, i_write_at i off buf w = (w', Ret res) /\
      match res with
      | Ok n => n = len buf /\ fl_inv w' /\ fl_content w' i = Some (overwrite c off buf) /\
          forall j, j <> i -> fl_content w' j = fl_content w j
      | Err _ => forall j, fl_content w' j = fl_content w j
      end;
  fl_readdir w i es k : fl_inv w -> fl_entries w i = Some es -> 0 <= k ->
    i_readdir i k w = (w, Ok (es !! Z.to_nat k));
}.

Lemma lookup_resize_Z (c : list Z) (n i : nat) :
  resize n 0 c !! i = if (i <? n)%nat then Some (default 0 (c !! i)) else None.
Proof.
  destruct (i <? n)%nat eqn:E; [apply Nat.ltb_lt in E|apply Nat.ltb_ge in E; by apply lookup_resize_old].
  destruct (decide (i < length c)%nat).
  - rewrite lookup_resize by lia. destruct (lookup_lt_is_Some_2 c i) as [x ->]; done.
  - rewrite lookup_resize_new by lia. rewrite lookup_ge_None_2 by lia. done.
Qed.

Lemma overwrite_lookup c off bs (i : nat) :
  0 <= off ->
  overwrite c off bs !! i =
  if (off <=? Z.of_nat i) && (Z.of_nat i <? off + len bs) then bs !! (i - Z.to_nat off)%nat
  else if Z.of_nat i <? Z.max (len c) (off + len bs) then Some (default 0 (c !! i)) else None.
Proof.
  intros Ho. unfold overwrite. cbv zeta. set (m := Nat.max _ _).
  assert (Hl : length (take (Z.to_nat off) (resize m 0 c)) = Z.to_nat off)
    by (rewrite length_take, length_resize; lia).
  destruct (off <=? Z.of_nat i) eqn:E1; zbool; simpl.
  - rewrite lookup_app_r, Hl by lia. destruct (_ <? off + _) eqn:E2; zbool.
    + rewrite lookup_app_l by lia. done.
    + rewrite lookup_app_r, lookup_drop, lookup_resize_Z by lia.
      replace (Z.to_nat off + length bs + (i - Z.to_nat off - length bs))%nat with i by lia.
      destruct (i <? m)%nat eqn:E3; destruct (_ <? Z.max _ _) eqn:E4; zbool;
        rewrite ?Nat.ltb_lt, ?Nat.ltb_ge in E3; try done; lia.
  - rewrite lookup_app_l, lookup_take_lt, lookup_resize_Z by lia.
    destruct (i <? m)%nat eqn:E3; destruct (_ <? Z.max _ _) eqn:E4; zbool;
      rewrite ?Nat.ltb_lt, ?Nat.ltb_ge in E3; try done; lia.
Qed.

Lemma overwrite_length c off bs : 0 <= off -> len (overwrite c off bs) = Z.max (len c) (off + len bs).
Proof. intros Ho. unfold overwrite. rewrite !length_app, length_take, length_drop, length_resize. lia. Qed.

(** What was written is what is read there. *)
Lemma slice_overwrite c off bs : 0 <= off -> slice off (len bs) (overwrite c off bs) = bs.
Proof.
  intros Ho. unfold slice, overwrite. rewrite drop_app_length' by (rewrite length_take, length_resize; lia).
  rewrite Nat2Z.id. apply take_app_length.
Qed.
