(* ===== verification/Espfs.v ===== *)
(** * Espfs: the log-structured flash file system (kernel/src/fs/espfs/mod.rs)

    [FsState] is the in-memory tree and log position that [EspFsInner] keeps under
    its mutex; the flash it works on is a device of the class [NorFlash].  Every
    operation is a computation over [FsState * D]: on an error the changes made
    so far, to the tree and to the flash, stay.

    The geometry is a field of the state in the source and stays one here, so the
    theorems hold for every geometry and the witnesses can use a small one. *)

From S2P Require Import Prelude Flash Wire Inode.

Open Scope Z_scope.

(** ** Data *)

(* @src kernel/src/fs/espfs/mod.rs 13-13 SEC *)
Definition SEC : Z := FLASH_SECTOR_SIZE.
(* @src kernel/src/fs/espfs/mod.rs 15-15 ROOT_INO *)
Definition ROOT_INO : Z := 1.
(* @src kernel/src/fs/espfs/mod.rs 17-17 MAX_NAME *)
Definition MAX_NAME : Z := 255.
(* @src kernel/src/fs/espfs/mod.rs 19-19 COMPACT_CHUNK *)
Definition COMPACT_CHUNK : Z := 2048.

(* @src kernel/src/fs/espfs/mod.rs 21-26 Geom *)
Record Geom := mkGeom { super_off : Z * Z; half_off : Z * Z; half_size : Z }.

(** Indexing of the two-element arrays; the index is always 0 or 1. *)
Definition sel (p : Z * Z) (i : Z) : Z := if i =? 0 then p.1 else p.2.

(* @src kernel/src/fs/espfs/mod.rs 28-39 geometry *)
Definition geometry : Geom :=
  let base := FS_OFFSET in
  let total_sectors := FS_SIZE / SEC in
  let log_base := base + 2 * SEC in
  let half_sectors := (total_sectors - 2) / 2 in
  let half_size := half_sectors * SEC in
  mkGeom (base, base + SEC) (log_base, log_base + half_size) half_size.

(* @src kernel/src/fs/espfs/mod.rs 41-46 Extent *)
Record Extent := mkExtent { e_off : Z; e_len : Z; e_flash : Z }.

(* @src kernel/src/fs/espfs/mod.rs 48-51 FileData *)
Record FileData := mkFileData { f_size : Z; f_extents : list Extent }.

(* @src kernel/src/fs/espfs/mod.rs 53-56 Body *)
Inductive Body : Type := BDir (m : gmap string Z) | BFile (f : FileData).

(* @src kernel/src/fs/espfs/mod.rs 58-61 Node *)
Record Node := mkNode { n_kind : InodeKind; n_body : Body }.

(* @src kernel/src/fs/espfs/mod.rs 63-70 Node::size_of *)
Definition size_of (n : Node) : Z := match n_body n with BFile f => f_size f | BDir _ => 0 end.

(* @src kernel/src/fs/espfs/mod.rs 72-76 zeroed *)
Definition zeroed (n : Z) : list Z := replicate (Z.to_nat n) 0.

(* @src kernel/src/fs/espfs/mod.rs 78-87 FsState *)
Record FsState := mkFsState {
  geom : Geom;
  nodes : gmap Z Node;
  next_ino : Z;
  active_half : Z;
  cursor : Z;
  next_seq : Z;
  generation : Z;
  super_slot : Z;
}.

(** Field updates. *)
Definition set_nodes (ns : gmap Z Node) (s : FsState) : FsState :=
  mkFsState (geom s) ns (next_ino s) (active_half s) (cursor s) (next_seq s) (generation s) (super_slot s).
Definition set_next_ino (i : Z) (s : FsState) : FsState :=
  mkFsState (geom s) (nodes s) i (active_half s) (cursor s) (next_seq s) (generation s) (super_slot s).
Definition set_cursor (c : Z) (s : FsState) : FsState :=
  mkFsState (geom s) (nodes s) (next_ino s) (active_half s) c (next_seq s) (generation s) (super_slot s).
Definition set_next_seq (q : Z) (s : FsState) : FsState :=
  mkFsState (geom s) (nodes s) (next_ino s) (active_half s) (cursor s) q (generation s) (super_slot s).

(* @src kernel/src/fs/espfs/mod.rs 90-109 FsState::empty *)
Definition empty_state (g : Geom) (active gen slot : Z) : FsState :=
  mkFsState g {[ ROOT_INO := mkNode Dir (BDir ∅) ]} 2 active (sel (half_off g) active) 1 gen slot.

(** ** The in-memory tree *)

(* @src kernel/src/fs/espfs/mod.rs 111-129 FsState::apply_mk *)
Definition apply_mk (kind : InodeKind) (ino parent : Z) (name : string) (s : FsState) : FsState :=
  let body := match kind with Dir => BDir ∅ | _ => BFile (mkFileData 0 []) end in
  let ns := <[ino := mkNode kind body]> (nodes s) in
  let ns := match ns !! parent with
    | Some (mkNode k (BDir m)) => <[parent := mkNode k (BDir (<[name := ino]> m))]> ns
    | _ => ns
    end in
  let s := set_nodes ns s in
  if next_ino s <=? ino then set_next_ino (u32 (ino + 1)) s else s.

(** One element of the [drain] loop of [splice_extent]. *)
(* @src kernel/src/fs/espfs/mod.rs 674-695 splice_extent (loop body) *)
Definition splice_one (off new_end : Z) (e : Extent) : list Extent :=
  let es := e_off e in
  let ee := u32 (e_off e + e_len e) in
  if (ee <=? off) || (new_end <=? es) then [e]
  else
    (if es <? off then [mkExtent es (off - es) (e_flash e)] else []) ++
    (if new_end <? ee then [mkExtent new_end (ee - new_end) (u32 (e_flash e + (new_end - es)))] else []).

(* @src kernel/src/fs/espfs/mod.rs 668-706 splice_extent *)
Definition splice_extent (f : FileData) (off len flash_off : Z) : FileData :=
  if len =? 0 then f
  else
    let new_end := u32 (off + len) in
    let out := flat_map (splice_one off new_end) (f_extents f) in
    let out := out ++ [mkExtent off len flash_off] in
    let out := sort_by_key e_off out in
    mkFileData (if f_size f <? new_end then new_end else f_size f) out.

(** [if let Some(Node { body: Body::File(f), .. }) = self.nodes.get_mut(&ino)]. *)
Definition alter_file (g : FileData -> FileData) (ino : Z) (s : FsState) : FsState :=
  match nodes s !! ino with
  | Some (mkNode k (BFile f)) => set_nodes (<[ino := mkNode k (BFile (g f))]> (nodes s)) s
  | _ => s
  end.

(* @src kernel/src/fs/espfs/mod.rs 131-139 FsState::apply_write_extent *)
Definition apply_write_extent (ino off len flash_off : Z) (s : FsState) : FsState :=
  alter_file (fun f => splice_extent f off len flash_off) ino s.

(* @src kernel/src/fs/espfs/mod.rs 148-162 FsState::apply_trunc (loop body) *)
Definition trunc_one (len : Z) (e : Extent) : list Extent :=
  let es := e_off e in
  let ee := u32 (e_off e + e_len e) in
  if len <=? es then [] else if ee <=? len then [e] else [mkExtent es (len - es) (e_flash e)].

(* @src kernel/src/fs/espfs/mod.rs 141-167 FsState::apply_trunc *)
Definition apply_trunc (ino len : Z) (s : FsState) : FsState :=
  alter_file (fun f => mkFileData len (flat_map (trunc_one len) (f_extents f))) ino s.

(* @src kernel/src/fs/espfs/mod.rs 169-185 FsState::apply_unlink *)
Definition apply_unlink (parent : Z) (name : string) (s : FsState) : FsState :=
  match nodes s !! parent with
  | Some (mkNode k (BDir m)) =>
    match m !! name with
    | Some ci => set_nodes (delete ci (<[parent := mkNode k (BDir (delete name m))]> (nodes s))) s
    | None => s
    end
  | _ => s
  end.

(** ** Reading *)

(** [buf\[at..at + bs.len()\] = bs]. *)
Definition patch (buf : list Z) (at_off : Z) (bs : list Z) : list Z :=
  take (Z.to_nat at_off) buf ++ bs ++ drop (Z.to_nat at_off + length bs) buf.

Section Ops.
Context {D : Type} `{NorFlash D}.

(** One turn of the extent loop of [read_file]. *)
(* @src kernel/src/fs/espfs/mod.rs 205-216 FsState::read_file (loop body) *)
Definition read_extent (d : D) (off read_end : Z) (buf : list Z) (e : Extent) : KResult (list Z) :=
  let es := e_off e in
  let ee := u32 (e_off e + e_len e) in
  let s := Z.max es off in
  let en := Z.min ee read_end in
  if s <? en then
    let flash_off := u32 (e_flash e + (s - es)) in
    bs ← flash_read d flash_off (en - s);
    mret (patch buf (s - off) bs)
  else mret buf.

Fixpoint read_extents (d : D) (off read_end : Z) (buf : list Z) (es : list Extent) : KResult (list Z) :=
  match es with
  | [] => mret buf
  | e :: es' => buf' ← read_extent d off read_end buf e; read_extents d off read_end buf' es'
  end.

(** The value is the part of the buffer that was filled ([buf\[..n\]]). *)
(* @src kernel/src/fs/espfs/mod.rs 187-218 FsState::read_file *)
Definition read_file (s : FsState) (d : D) (ino off n : Z) : KResult (list Z) :=
  match nodes s !! ino with
  | None => Err NotFound
  | Some node =>
    match n_body node with
    | BDir _ => Err IsADirectory
    | BFile f =>
      match try_u32 off with
      | None => Ok []
      | Some off =>
        if f_size f <=? off then Ok []
        else
          let n := Z.min n (f_size f - off) in
          read_extents d off (u32 (off + n)) (zeroed n) (f_extents f)
      end
    end
  end.

(* @src kernel/src/fs/espfs/mod.rs 310-330 FsState::readdir *)
Definition readdir (s : FsState) (ino index : Z) : KResult (option DirEntry) :=
  match nodes s !! ino with
  | None => Err NotFound
  | Some node =>
    match n_body node with
    | BDir m =>
      match btree_iter m !! Z.to_nat index with
      | Some (name, cino) =>
        let kind := match nodes s !! cino with Some n => n_kind n | None => File end in
        Ok (Some (mkDirEntry name kind cino))
      | None => Ok None
      end
    | BFile _ => Err NotADirectory
    end
  end.

(* @src kernel/src/fs/espfs/mod.rs 332-338 FsState::lookup *)
Definition lookup_ino (s : FsState) (ino : Z) (name : string) : KResult Z :=
  match nodes s !! ino with
  | None => Err NotFound
  | Some node => match n_body node with BDir m => ok_or (m !! name) NotFound | BFile _ => Err NotADirectory end
  end.

(* @src kernel/src/fs/espfs/mod.rs 340-342 FsState::half_end *)
Definition half_end (s : FsState) (half : Z) : Z := u32 (sel (half_off (geom s)) half + half_size (geom s)).

(** ** Compaction *)

(** [while o < dend { erase_sector(o)?; o += SEC; }]; [fuel] bounds the turns. *)
(* @src kernel/src/fs/espfs/mod.rs 378-382 FsState::compact (erase loop) *)
Fixpoint erase_half (fuel : nat) (o dend : Z) : ST D unit :=
  match fuel with
  | O => mret tt
  | S fuel' => if o <? dend then flash_erase_sector o ;; erase_half fuel' (o + SEC) dend else mret tt
  end.

(** The depth-first walk; [stack] is the [Vec] with its top first. *)
(* @src kernel/src/fs/espfs/mod.rs 489-506 FsState::build_plan (loop) *)
Fixpoint plan_loop (fuel : nat) (ns : gmap Z Node) (stack : list Z)
    (plan : list (Z * Z * string * InodeKind)) : list (Z * Z * string * InodeKind) :=
  match fuel, stack with
  | S fuel', dir :: stack' =>
    match ns !! dir with
    | Some (mkNode _ (BDir m)) =>
      let entries := (fun '(name, cino) =>
        (cino, dir, name, match ns !! cino with Some n => n_kind n | None => File end)) <$> btree_iter m in
      let subdirs := fst ∘ fst ∘ fst <$> (filter (fun e => e.2 = Dir) entries) in
      plan_loop fuel' ns (reverse subdirs ++ stack') (plan ++ entries)
    | _ => plan_loop fuel' ns stack' plan
    end
  | _, _ => plan
  end.

(* @src kernel/src/fs/espfs/mod.rs 486-508 FsState::build_plan *)
Definition build_plan (s : FsState) : list (Z * Z * string * InodeKind) :=
  plan_loop (S (size (nodes s))) (nodes s) [ROOT_INO] [].

(** Position of the copy: the next offset and sequence number of the new half. *)
Record Pos := mkPos { p_cur : Z; p_seq : Z }.

(** [let rec = encode_record(..); if cur + rec.len() > dend {..} write(cur, &rec)?;
    cur += rec.len(); seq += 1], the step every record of the copy goes through. *)
(* @src kernel/src/fs/espfs/mod.rs 397-403 FsState::compact (one record) *)
Definition emit (dend : Z) (p : Pos) (t : RecType) (payload : list Z) : ST D Pos :=
  let rec := encode_record t (p_seq p) payload in
  if dend <? u32 (p_cur p + u32 (len rec)) then fail NoSpace
  else flash_write (p_cur p) rec ;; mret (mkPos (u32 (p_cur p + u32 (len rec))) (u32 (p_seq p + 1))).

(** The chunk loop of one file; [s] is only read. *)
(* @src kernel/src/fs/espfs/mod.rs 408-434 FsState::compact (chunk loop) *)
Fixpoint copy_chunks (fuel : nat) (s : FsState) (dend ino size coff : Z) (p : Pos) (exts : list Extent)
    : ST D (Pos * list Extent) :=
  match fuel with
  | O => mret (p, exts)
  | S fuel' =>
    if coff <? size then
      let clen := Z.min COMPACT_CHUNK (size - coff) in
      fun d => (tmp ← lift (read_file s d ino coff clen);
        if forallb (fun b => b =? 0) tmp then
          copy_chunks fuel' s dend ino size (u32 (coff + clen)) p exts
        else
          let data_flash := u32 (p_cur p + HEADER_LEN + WRITE_DATA_OFF) in
          p' ← emit dend p Write (enc_write ino coff tmp);
          copy_chunks fuel' s dend ino size (u32 (coff + clen)) p'
            (exts ++ [mkExtent coff clen data_flash])) d
    else mret (p, exts)
  end.

(** One turn of the loop over the plan. *)
(* @src kernel/src/fs/espfs/mod.rs 390-448 FsState::compact (plan loop) *)
Definition copy_node (s : FsState) (dend : Z) (acc : Pos * gmap Z (list Extent))
    (item : Z * Z * string * InodeKind) : ST D (Pos * gmap Z (list Extent)) :=
  let '(ino, parent, name, kind) := item in
  let '(p, new_ext) := acc in
  let rtype := if decide (kind = Dir) then MkDir else MkFile in
  p ← emit dend p rtype (enc_mk ino parent (as_bytes name));
  if decide (kind = File) then
    let size := match nodes s !! ino with Some n => size_of n | None => 0 end in
    r ← copy_chunks (S (Z.to_nat (size / COMPACT_CHUNK + 1))) s dend ino size 0 p [];
    let '(p, exts) := r : Pos * list Extent in
    let last_end := match last exts with Some e => u32 (e_off e + e_len e) | None => 0 end in
    p ← (if last_end <? size then emit dend p Truncate (enc_trunc ino size) else mret p);
    mret (p, <[ino := exts]> new_ext)
  else mret (p, new_ext).

(* @src kernel/src/fs/espfs/mod.rs 510-519 FsState::write_super *)
Definition write_super (g : Geom) (slot gen active : Z) : ST D unit :=
  let off := sel (super_off g) slot in
  flash_erase_sector off ;; flash_write off (encode_super (mkSuperBlock gen active)).

(** [for (ino, exts) in new_ext { .. f.extents = exts; }]. *)
(* @src kernel/src/fs/espfs/mod.rs 474-482 FsState::compact (new extents) *)
Definition install_extents (ns : gmap Z Node) (new_ext : gmap Z (list Extent)) : gmap Z Node :=
  map_imap (fun ino n =>
    match new_ext !! ino, n with
    | Some exts, mkNode k (BFile f) => Some (mkNode k (BFile (mkFileData (f_size f) exts)))
    | _, _ => Some n
    end) ns.

(* @src kernel/src/fs/espfs/mod.rs 360-484 FsState::compact *)
Definition compact : ST (FsState * D) unit := fun '(s, d) =>
  let dst := 1 - active_half s in
  let dbase := sel (half_off (geom s)) dst in
  let dend := dbase + half_size (geom s) in
  (on_snd (erase_half (S (Z.to_nat (half_size (geom s) / SEC))) dbase dend) ;;
   let plan := build_plan s in
   r ← on_snd (foldM (copy_node s dend) (mkPos dbase 0, ∅) plan);
   let '(p, new_ext) := r : Pos * gmap Z (list Extent) in
   let new_slot := 1 - super_slot s in
   let new_gen := u32 (generation s + 1) in
   on_snd (write_super (geom s) new_slot new_gen dst) ;;
   modify (fun '(s, d) =>
     (mkFsState (geom s) (install_extents (nodes s) new_ext) (next_ino s)
        dst (p_cur p) (p_seq p) new_gen new_slot, d))) (s, d).

(* @src kernel/src/fs/espfs/mod.rs 344-358 FsState::append *)
Definition append (rtype : RecType) (payload : list Z) : ST (FsState * D) Z :=
  let need := u32 (record_total_len (len payload)) in
  let full (s : FsState) := half_end s (active_half s) <? u32 (cursor s + need) in
  st ← get;
  (if full st.1 then compact else mret tt) ;;
  st ← get;
  (if full st.1 then fail NoSpace else mret tt) ;;
  let rec := encode_record rtype (next_seq st.1) payload in
  let off := cursor st.1 in
  on_snd (flash_write off rec) ;;
  modify (fun '(s, d) => (set_next_seq (u32 (next_seq s + 1)) (set_cursor (u32 (cursor s + u32 (len rec))) s), d)) ;;
  mret off.

(** ** The operations *)

Definition update (f : FsState -> FsState) : ST (FsState * D) unit := modify (fun '(s, d) => (f s, d)).

(* @src kernel/src/fs/espfs/mod.rs 220-245 FsState::create *)
Definition create (parent : Z) (name : string) (kind : InodeKind) : ST (FsState * D) Z :=
  st ← get;
  lift (match nodes st.1 !! parent with
        | Some (mkNode _ (BDir m)) => match m !! name with Some _ => Err AlreadyExists | None => Ok tt end
        | Some _ => Err NotADirectory
        | None => Err NotFound
        end) ;;
  (if (str_len name =? 0) || (MAX_NAME <? str_len name) then fail NameTooLong else mret tt) ;;
  rtype ← lift (match kind with File => Ok MkFile | Dir => Ok MkDir | _ => Err NotSupported end);
  let ino := next_ino st.1 in
  append rtype (enc_mk ino parent (as_bytes name)) ;;
  update (apply_mk kind ino parent name) ;;
  mret ino.

(** The check both [write_file] and [truncate_file] start with. *)
(* @src kernel/src/fs/espfs/mod.rs 248-255 FsState::write_file (node check) *)
Definition need_file (ino : Z) : ST (FsState * D) unit :=
  st ← get;
  lift (match nodes st.1 !! ino with
        | Some (mkNode _ (BFile _)) => Ok tt
        | Some _ => Err IsADirectory
        | None => Err NotFound
        end).

(* @src kernel/src/fs/espfs/mod.rs 247-267 FsState::write_file *)
Definition write_file (ino off : Z) (buf : list Z) : ST (FsState * D) Z :=
  need_file ino ;;
  if len buf =? 0 then mret 0
  else
    off ← lift (ok_or (try_u32 off) InvalidArgument);
    lift (ok_or (checked_add32 off (u32 (len buf))) NoSpace) ;;
    rec_off ← append Write (enc_write ino off buf);
    let data_flash := u32 (rec_off + HEADER_LEN + WRITE_DATA_OFF) in
    update (apply_write_extent ino off (u32 (len buf)) data_flash) ;;
    mret (len buf).

(* @src kernel/src/fs/espfs/mod.rs 269-283 FsState::truncate_file *)
Definition truncate_file (ino len : Z) : ST (FsState * D) unit :=
  need_file ino ;;
  len ← lift (ok_or (try_u32 len) InvalidArgument);
  append Truncate (enc_trunc ino len) ;;
  update (apply_trunc ino len).

(* @src kernel/src/fs/espfs/mod.rs 285-308 FsState::unlink *)
Definition unlink (parent : Z) (name : string) : ST (FsState * D) unit :=
  st ← get;
  child ← lift (match nodes st.1 !! parent with
                | Some (mkNode _ (BDir m)) => Ok (m !! name)
                | Some _ => Err NotADirectory
                | None => Err NotFound
                end);
  ci ← lift (ok_or child NotFound);
  (match nodes st.1 !! ci with
   | Some (mkNode _ (BDir sub)) => if decide (sub = ∅) then mret tt else fail Busy
   | _ => mret tt
   end) ;;
  append Unlink (enc_unlink parent (as_bytes name)) ;;
  update (apply_unlink parent name).

(** ** Replay and mount *)

(** The checksum of a payload, read in chunks of 256 bytes; [None] when a read fails. *)
(* @src kernel/src/fs/espfs/mod.rs 544-561 FsState::replay (checksum loop) *)
Fixpoint crc_loop (fuel : nat) (d : D) (crc o remaining : Z) : option Z :=
  match fuel with
  | O => None
  | S fuel' =>
    if 0 <? remaining then
      let c := Z.min remaining 256 in
      match flash_read d o c with
      | Err _ => None
      | Ok chunk => crc_loop fuel' d (crc32_update crc chunk) (u32 (o + c)) (remaining - c)
      end
    else Some crc
  end.

(** Applies one checked record; [None] when a read fails. *)
(* @src kernel/src/fs/espfs/mod.rs 563-611 FsState::replay (record dispatch) *)
Definition replay_record (d : D) (h : Header) (payload_off : Z) (s : FsState) : option FsState :=
  let plen := h_plen h in
  let read n := match flash_read d payload_off n with Ok p => Some p | Err _ => None end in
  match h_rtype h with
  | Write =>
    p8 ← read 8;
    Some (match dec_write_head p8 with
          | Some (ino, off) =>
            apply_write_extent ino off (saturating_sub plen WRITE_DATA_OFF) (u32 (payload_off + WRITE_DATA_OFF)) s
          | None => s
          end)
  | MkFile | MkDir =>
    p ← read plen;
    Some (match dec_mk p with
          | Some (ino, parent, name) =>
            match from_utf8 name with
            | Some name => apply_mk (if decide (h_rtype h = MkDir) then Dir else File) ino parent name s
            | None => s
            end
          | None => s
          end)
  | Truncate =>
    p ← read 8;
    Some (match dec_trunc p with Some (ino, l) => apply_trunc ino l s | None => s end)
  | Unlink =>
    p ← read plen;
    Some (match dec_unlink p with
          | Some (parent, name) =>
            match from_utf8 name with Some name => apply_unlink parent name s | None => s end
          | None => s
          end)
  end.

(** One turn of the replay loop: [None] is a [break]. *)
(* @src kernel/src/fs/espfs/mod.rs 526-616 FsState::replay (loop body) *)
Definition replay_step (d : D) (end_ : Z) (s : FsState) (cur : Z) : option (FsState * Z) :=
  if end_ <? u32 (cur + HEADER_LEN) then None
  else
    match flash_read d cur HEADER_LEN with
    | Err _ => None
    | Ok hbuf =>
      h ← parse_header hbuf;
      let plen := h_plen h in
      let total := record_total_len plen in
      match checked_add32 cur total with
      | None => None
      | Some e =>
        if end_ <? e then None
        else
          let payload_off := u32 (cur + HEADER_LEN) in
          crc ← crc_loop (S (Z.to_nat (plen / 256 + 1))) d (crc32_update crc32_init (take 12 hbuf)) payload_off plen;
          if negb (crc32_final crc =? h_crc h) then None
          else
            s ← replay_record d h payload_off s;
            let s := if next_seq s <=? h_seq h then set_next_seq (u32 (h_seq h + 1)) s else s in
            Some (s, u32 (cur + total))
      end
    end.

Fixpoint replay_loop (fuel : nat) (d : D) (end_ : Z) (s : FsState) (cur : Z) : FsState * Z :=
  match fuel with
  | O => (s, cur)
  | S fuel' =>
    match replay_step d end_ s cur with
    | None => (s, cur)
    | Some (s', cur') => replay_loop fuel' d end_ s' cur'
    end
  end.

(* @src kernel/src/fs/espfs/mod.rs 521-619 FsState::replay *)
Definition replay (d : D) (half : Z) (s : FsState) : FsState :=
  let base := sel (half_off (geom s)) half in
  let '(s', cur) := replay_loop (S (Z.to_nat (half_size (geom s) / HEADER_LEN))) d
                      (base + half_size (geom s)) s base in
  set_cursor cur s'.

(* @src kernel/src/fs/espfs/mod.rs 626-644 FsState::load (choice of the superblock) *)
Definition choose_super (sa sb : option SuperBlock) : option (SuperBlock * Z) :=
  match sa, sb with
  | Some x, Some y => if sb_generation x <? sb_generation y then Some (y, 1) else Some (x, 0)
  | Some x, None => Some (x, 0)
  | None, Some y => Some (y, 1)
  | None, None => None
  end.

(* @src kernel/src/fs/espfs/mod.rs 621-648 FsState::load *)
Definition load (g : Geom) (d : D) : KResult (option FsState) :=
  a ← flash_read d (super_off g).1 SB_LEN;
  b ← flash_read d (super_off g).2 SB_LEN;
  match choose_super (decode_super a) (decode_super b) with
  | None => Ok None
  | Some (chosen, slot) =>
    let active := if 2 <=? sb_active_half chosen then 0 else sb_active_half chosen in
    Ok (Some (replay d active (empty_state g active (sb_generation chosen) slot)))
  end.

(* @src kernel/src/fs/espfs/mod.rs 650-665 FsState::format *)
Definition format (g : Geom) : ST D FsState :=
  flash_erase_sector (super_off g).1 ;;
  flash_erase_sector (super_off g).2 ;;
  let o := (half_off g).1 in
  erase_half (S (Z.to_nat (half_size g / SEC))) o (o + half_size g) ;;
  flash_write (super_off g).1 (encode_super (mkSuperBlock 1 0)) ;;
  mret (empty_state g 0 1 0).

(** [EspFs::mount] with the geometry as an argument ([geometry] in the source). *)
(* @src kernel/src/fs/espfs/mod.rs 809-821 EspFs::mount *)
Definition mount (g : Geom) : ST D FsState := fun d =>
  match load g d with
  | Err e => (d, Err e)
  | Ok (Some s) => (d, Ok s)
  | Ok None => format g d
  end.
End Ops.

(** ** The file system as an [Inode]

    [EspNode] is an inode number together with the shared [EspFsInner]. *)

(* @src kernel/src/fs/espfs/mod.rs 759-762 EspNode *)
Record EspNode := mkEspNode { en_ino : Z }.

(* @src kernel/src/fs/espfs/mod.rs 713-728 EspFsInner::kind, EspFsInner::size *)
Definition esp_kind {D} (i : EspNode) (st : FsState * D) : InodeKind :=
  match nodes st.1 !! en_ino i with Some n => n_kind n | None => File end.
Definition esp_size {D} (i : EspNode) (st : FsState * D) : Z :=
  match nodes st.1 !! en_ino i with Some n => size_of n | None => 0 end.

(* @src kernel/src/fs/espfs/mod.rs 770-803 impl Inode for EspNode *)
#[export] Instance esp_inode {D} `{NorFlash D} : Inode (FsState * D) EspNode := {
  i_kind := esp_kind;
  i_size := esp_size;
  i_read_at i off n := io (fun st => (st, read_file st.1 st.2 (en_ino i) off n));
  i_write_at i off buf := io (write_file (en_ino i) off buf);
  i_truncate i l := truncate_file (en_ino i) l;
  i_readdir i index := fun st => (st, readdir st.1 (en_ino i) index);
  i_lookup i name := fun st => (st, ino ← lookup_ino st.1 (en_ino i) name; mret (mkEspNode ino));
  i_create i name kind := ino ← create (en_ino i) name kind; mret (mkEspNode ino);
  i_unlink i name := unlink (en_ino i) name;
}.

(* @src kernel/src/fs/espfs/mod.rs 834-851 impl FileSystem for EspFs *)
Definition esp_fs {D} : FileSystem (FsState * D) EspNode :=
  mkFileSystem "espfs" (mkEspNode ROOT_INO)
    (fun st => mkFsStat (half_size (geom st.1)) (u32 (cursor st.1 - sel (half_off (geom st.1)) (active_half st.1))) SEC).
