(* ===== verification/EspfsFile.v ===== *)
(** * EspfsFile: extents and file contents (the data part of fs/espfs/mod.rs)

    A file is a size and a list of extents; its contents are defined from them
    byte by byte ([file_byte]), holes reading as zero.  [splice_extent] and the
    truncation keep the extents sorted and disjoint and change the contents the
    way a write and a truncation should; [read_file] returns the contents. *)

From S2P Require Import Prelude Flash Wire Inode Espfs.

Open Scope Z_scope.

(** ** Extents *)

Definition e_end (e : Extent) : Z := e_off e + e_len e.

Definition covers (i : Z) (e : Extent) : bool := (e_off e <=? i) && (i <? e_end e).

(** Where byte [i] of the file is stored. *)
Fixpoint byte_addr (es : list Extent) (i : Z) : option Z :=
  match es with
  | [] => None
  | e :: es' => if covers i e then Some (e_flash e + (i - e_off e)) else byte_addr es' i
  end.

Definition before (a b : Extent) : Prop := e_end a <= e_off b.

Definition ext_ok (size : Z) (e : Extent) : Prop := 0 <= e_off e /\ 0 < e_len e /\ e_end e <= size.

(** The extents of a well-formed file are sorted, disjoint and inside the file. *)
Record wf_file (f : FileData) : Prop := {
  wf_size : 0 <= f_size f < 2 ^ 32;
  wf_exts : Forall (ext_ok (f_size f)) (f_extents f);
  wf_sorted : StronglySorted before (f_extents f);
}.

Lemma covers_true i e : covers i e = true <-> e_off e <= i < e_end e.
Proof. unfold covers. rewrite andb_true_iff, Z.leb_le, Z.ltb_lt. done. Qed.

Lemma byte_addr_Some es i a :
  StronglySorted before es -> Forall (fun e => 0 < e_len e) es ->
  byte_addr es i = Some a <-> exists e, e ∈ es /\ covers i e = true /\ a = e_flash e + (i - e_off e).
Proof.
  induction 1 as [|e es Hs IH Hb]; intros Hpos; simpl.
  { split; [done|]. intros (e & He & _). by apply elem_of_nil in He. }
  inversion Hpos as [|?? Hp Hpos']; subst. specialize (IH Hpos').
  destruct (covers i e) eqn:Hc.
  - split.
    + intros [= <-]. exists e. set_solver.
    + intros (e' & He' & Hc' & ->). apply elem_of_cons in He' as [->|He']; [done|].
      rewrite Forall_forall in Hb. apply Hb in He' as Hb'. unfold before in Hb'.
      apply covers_true in Hc, Hc'. lia.
  - rewrite IH. split; intros (e' & He' & Hc' & ->); exists e'; [set_solver|].
    apply elem_of_cons in He' as [->|He']; [congruence|done].
Qed.

Lemma byte_addr_None es i : byte_addr es i = None <-> forall e, e ∈ es -> covers i e = false.
Proof.
  induction es as [|e es IH]; simpl; [set_solver|].
  destruct (covers i e) eqn:Hc.
  - split; [done|]. intros H. rewrite H in Hc; set_solver.
  - rewrite IH. set_solver.
Qed.

Lemma byte_addr_app es es' i :
  byte_addr (es ++ es') i = match byte_addr es i with Some a => Some a | None => byte_addr es' i end.
Proof. induction es as [|e es IH]; simpl; [done|]. by destruct (covers i e). Qed.

Lemma byte_addr_range es i a size :
  Forall (ext_ok size) es -> byte_addr es i = Some a -> 0 <= i < size.
Proof.
  intros Hok. induction Hok as [|e es [? []] Hok IH]; simpl; [done|].
  destruct (covers i e) eqn:Hc; [|done]. intros _. apply covers_true in Hc. lia.
Qed.

(** Two lists with the same extents up to order address the same bytes. *)
Lemma byte_addr_equiv es es' i :
  StronglySorted before es -> StronglySorted before es' ->
  Forall (fun e => 0 < e_len e) es -> (forall e, e ∈ es <-> e ∈ es') ->
  byte_addr es i = byte_addr es' i.
Proof.
  intros Hs Hs' Hp Heq.
  assert (Hp' : Forall (fun e => 0 < e_len e) es').
  { rewrite Forall_forall in *. intros e He. apply Hp. by apply Heq. }
  destruct (byte_addr es i) as [a|] eqn:E.
  - symmetry. apply byte_addr_Some in E as (e & He & Hc & ->); [|done..].
    apply byte_addr_Some; [done..|]. exists e. split; [by apply Heq|done].
  - symmetry. rewrite byte_addr_None in E |- *. intros e He. apply E. by apply Heq.
Qed.

(** ** Splicing *)

Definition disjoint_ext (a b : Extent) : Prop := before a b \/ before b a.

Lemma FOP_app_single {A} (R : A -> A -> Prop) l x :
  List.ForallOrdPairs R l -> Forall (fun y => R y x) l -> List.ForallOrdPairs R (l ++ [x]).
Proof.
  induction 1 as [|y l Hy Hl IH]; intros Hx; simpl; [by repeat constructor|].
  inversion Hx; subst. constructor; [|by apply IH].
  apply Forall_app. split; [done|by constructor].
Qed.

Lemma FOP_perm {A} (R : A -> A -> Prop) l l' :
  (forall x y, R x y -> R y x) -> l ≡ₚ l' -> List.ForallOrdPairs R l -> List.ForallOrdPairs R l'.
Proof.
  intros Hsym. induction 1 as [|x l l' Hp IH|x y l|l l' l'' _ IH1 _ IH2]; intros HF; auto.
  - inversion HF; subst. constructor; [by rewrite <- Hp|by apply IH].
  - inversion HF as [|?? Hy HF']; subst. inversion HF' as [|?? Hx HF'']; subst.
    inversion Hy; subst. constructor; [constructor; [by apply Hsym|done]|by constructor].
Qed.

Lemma sorted_disjoint es :
  StronglySorted (fun a b => e_off a <= e_off b) es -> List.ForallOrdPairs disjoint_ext es ->
  Forall (fun e => 0 < e_len e) es -> StronglySorted before es.
Proof.
  induction 1 as [|e es Hs IH Hle]; intros HF Hp; [constructor|].
  inversion HF as [|?? Hd HF']; subst. inversion Hp as [|?? He Hp']; subst.
  constructor; [by apply IH|]. rewrite Forall_forall in *. intros e' He'.
  destruct (Hd e' He') as [|Hb]; [done|]. specialize (Hle e' He'). specialize (Hp' e' He').
  unfold before, e_end in *. simpl in *. lia.
Qed.

Lemma splice_one_spec off new_end e x :
  0 <= e_off e -> 0 < e_len e -> e_end e < 2 ^ 32 -> off < new_end -> 0 <= e_flash e ->
  e_flash e + e_len e < 2 ^ 32 ->
  x ∈ splice_one off new_end e ->
  0 < e_len x /\ e_off e <= e_off x /\ e_end x <= e_end e /\ (e_end x <= off \/ new_end <= e_off x) /\
  e_flash x - e_off x = e_flash e - e_off e.
Proof.
  intros H0 Hl He Hn Hf1 Hf2. unfold splice_one, e_end in *. rewrite u32_small by lia.
  destruct (_ || _) eqn:E.
  - intros ->%list_elem_of_singleton. apply orb_true_iff in E as [E|E]; zbool; lia.
  - zbool. rewrite elem_of_app.
    destruct (_ <? _) eqn:E1; destruct (new_end <? _) eqn:E2; zbool;
      intros [Hx|Hx]; rewrite ?list_elem_of_singleton, ?elem_of_nil in Hx;
      try done; subst x; simpl; u32_norm; lia.
Qed.

Lemma splice_one_covers off new_end e i :
  0 <= e_off e -> 0 < e_len e -> e_end e < 2 ^ 32 -> off < new_end ->
  ~ (off <= i < new_end) -> covers i e = true ->
  exists x, x ∈ splice_one off new_end e /\ covers i x = true.
Proof.
  intros H0 Hl He Hn Hi Hc. apply covers_true in Hc. unfold splice_one, e_end in *.
  rewrite u32_small by lia. destruct (_ || _) eqn:E.
  { exists e. split; [set_solver|]. by apply covers_true. }
  zbool. destruct (Z.lt_ge_cases i off).
  - exists (mkExtent (e_off e) (off - e_off e) (e_flash e)).
    replace (e_off e <? off) with true by (symmetry; apply Z.ltb_lt; lia).
    split; [set_solver|]. apply covers_true. unfold e_end. simpl. lia.
  - exists (mkExtent new_end (e_off e + e_len e - new_end) (u32 (e_flash e + (new_end - e_off e)))).
    replace (new_end <? e_off e + e_len e) with true by (symmetry; apply Z.ltb_lt; lia).
    split; [set_solver|]. apply covers_true. unfold e_end. simpl. lia.
Qed.

(** Every extent stores its bytes in [lo, hi) of the flash. *)
Definition ext_in (lo hi : Z) (e : Extent) : Prop := lo <= e_flash e /\ e_flash e + e_len e <= hi.

Section Splice.
Context (f : FileData) (off len flash_off lo hi : Z).
Context (Hwf : wf_file f) (Hin : Forall (ext_in lo hi) (f_extents f)).
Context (Hlo : 0 <= lo) (Hhi : hi < 2 ^ 32) (Hoff : 0 <= off) (Hlen : 0 < len) (Hend : off + len < 2 ^ 32).

Let cut := flat_map (splice_one off (u32 (off + len))) (f_extents f).

Local Lemma cut_elem x :
  x ∈ cut -> exists e, e ∈ f_extents f /\ x ∈ splice_one off (off + len) e /\
    0 < e_len x /\ e_off e <= e_off x /\ e_end x <= e_end e /\
    (e_end x <= off \/ off + len <= e_off x) /\ e_flash x - e_off x = e_flash e - e_off e /\
    0 <= e_off e /\ e_end e <= f_size f /\ ext_in lo hi e.
Proof.
  unfold cut. rewrite u32_small by lia. intros Hx.
  rewrite list_elem_of_In, List.in_flat_map in Hx. destruct Hx as (e & He & Hx).
  rewrite <- list_elem_of_In in He, Hx. exists e.
  destruct Hwf as [Hsz Hok _]. rewrite Forall_forall in Hok, Hin.
  specialize (Hok e He). specialize (Hin e He). destruct Hok as (? & ? & ?). destruct Hin as [? ?].
  edestruct (splice_one_spec off (off + len) e x) as (? & ? & ? & ? & ?); [try lia..|done|].
  unfold e_end in *. repeat split; try lia; done.
Qed.

Local Lemma cut_FOP : List.ForallOrdPairs disjoint_ext cut.
Proof.
  destruct Hwf as [Hsz Hok Hs]. unfold cut. clear cut. rewrite u32_small by lia.
  induction Hs as [|e es Hs' IH Hb]; simpl; [constructor|].
  apply Forall_cons in Hok as [(He0 & He1 & He2) Hok]. apply Forall_cons in Hin as [[] Hin'].
  assert (Hlo' : forall y, y ∈ flat_map (splice_one off (off + len)) es -> e_end e <= e_off y).
  { intros y. rewrite list_elem_of_In, List.in_flat_map. intros (e' & He' & Hy).
    rewrite <- list_elem_of_In in He', Hy. rewrite !Forall_forall in *.
    destruct (Hok e' He') as (? & ? & ?). destruct (Hin' e' He'). specialize (Hb e' He').
    edestruct (splice_one_spec off (off + len) e' y) as (? & ? & ?); [try lia..|done|].
    unfold before in Hb. lia. }
  specialize (IH Hin' Hok).
  assert (Hhead : forall x, x ∈ splice_one off (off + len) e -> e_end x <= e_end e).
  { intros x Hx. edestruct (splice_one_spec off (off + len) e x) as (? & ? & ? & _); [try lia..|done|]. done. }
  assert (Hself : List.ForallOrdPairs disjoint_ext (splice_one off (off + len) e)).
  { unfold splice_one. destruct (_ || _); [by repeat constructor|].
    destruct (_ <? off) eqn:E1; destruct (_ <? u32 _) eqn:E2; simpl; zbool;
      try (by repeat constructor).
    constructor; [constructor; [|constructor]|by repeat constructor].
    left. unfold before, e_end. simpl. lia. }
  revert Hhead Hself. generalize (splice_one off (off + len) e) as l. intros l Hhead Hself.
  induction Hself as [|x l Hx Hl IHl]; simpl; [done|]. constructor.
  - apply Forall_app. split; [done|]. apply Forall_forall. intros y Hy. left. unfold before.
    specialize (Hlo' y Hy). specialize (Hhead x ltac:(set_solver)). lia.
  - apply IHl. intros; apply Hhead. set_solver.
Qed.

Lemma splice_extents_elem x :
  x ∈ f_extents (splice_extent f off len flash_off) <-> x ∈ cut \/ x = mkExtent off len flash_off.
Proof.
  unfold splice_extent. replace (len =? 0) with false by (symmetry; apply Z.eqb_neq; lia). simpl.
  rewrite sort_by_key_perm, elem_of_app, list_elem_of_singleton. done.
Qed.

Lemma splice_size : f_size (splice_extent f off len flash_off) = Z.max (f_size f) (off + len).
Proof.
  unfold splice_extent. replace (len =? 0) with false by (symmetry; apply Z.eqb_neq; lia). simpl.
  rewrite u32_small by lia. destruct (_ <? _) eqn:E; zbool; lia.
Qed.

Lemma splice_wf : wf_file (splice_extent f off len flash_off).
Proof.
  destruct (wf_size f Hwf) as [Hs1 Hs2]. split.
  - rewrite splice_size. lia.
  - apply Forall_forall. intros x Hx. rewrite splice_size. apply splice_extents_elem in Hx as [Hx| ->].
    + apply cut_elem in Hx as (e & _ & _ & ? & ? & ? & _ & _ & ? & ? & _). unfold ext_ok. lia.
    + unfold ext_ok, e_end. simpl. lia.
  - apply sorted_disjoint.
    + unfold splice_extent. replace (len =? 0) with false by (symmetry; apply Z.eqb_neq; lia).
      apply sort_by_key_sorted.
    + unfold splice_extent. replace (len =? 0) with false by (symmetry; apply Z.eqb_neq; lia). simpl.
      eapply (FOP_perm _ (cut ++ [mkExtent off len flash_off])).
      * intros a b [|]; [by right|by left].
      * by rewrite sort_by_key_perm.
      * apply FOP_app_single; [apply cut_FOP|]. apply Forall_forall. intros x Hx.
        apply cut_elem in Hx as (e & _ & _ & _ & _ & _ & [H|H] & _); [left|right]; unfold before, e_end in *; simpl; lia.
    + apply Forall_forall. intros x Hx. apply splice_extents_elem in Hx as [Hx| ->]; [|simpl; lia].
      by apply cut_elem in Hx as (e & _ & _ & ? & _).
Qed.

Lemma splice_in lo' hi' :
  lo' <= lo -> hi <= hi' -> lo' <= flash_off -> flash_off + len <= hi' ->
  Forall (ext_in lo' hi') (f_extents (splice_extent f off len flash_off)).
Proof.
  intros. apply Forall_forall. intros x Hx. apply splice_extents_elem in Hx as [Hx| ->].
  - apply cut_elem in Hx as (e & _ & _ & ? & ? & ? & _ & ? & ? & ? & [? ?]). unfold ext_in, e_end in *. lia.
  - unfold ext_in. simpl. lia.
Qed.

(** The bytes in [off, off + len) come from the new extent, the others stay. *)
Lemma splice_addr i :
  byte_addr (f_extents (splice_extent f off len flash_off)) i =
  if (off <=? i) && (i <? off + len) then Some (flash_off + (i - off)) else byte_addr (f_extents f) i.
Proof.
  pose proof splice_wf as Hw. destruct (_ && _) eqn:E.
  - zbool. apply byte_addr_Some; [apply Hw|eapply Forall_impl; [apply Hw|by intros ? (?&?&?)]|].
    exists (mkExtent off len flash_off). split; [apply splice_extents_elem; by right|].
    split; [|done]. apply covers_true. unfold e_end. simpl. lia.
  - assert (Hi : ~ (off <= i < off + len)) by (apply andb_false_iff in E as [E|E]; zbool; lia).
    destruct (byte_addr (f_extents f) i) as [a|] eqn:Ha.
    + apply byte_addr_Some in Ha as (e & He & Hc & ->);
        [|apply Hwf|eapply Forall_impl; [apply Hwf|by intros ? (?&?&?)]].
      destruct Hwf as [Hsz Hok _]. rewrite Forall_forall in Hok. destruct (Hok e He) as (? & ? & ?).
      destruct (splice_one_covers off (off + len) e i) as (x & Hx & Hcx); [try lia..|done|].
      apply byte_addr_Some; [apply Hw|eapply Forall_impl; [apply Hw|by intros ? (?&?&?)]|].
      exists x. assert (x ∈ cut) as Hcut.
      { unfold cut. rewrite u32_small by lia. rewrite list_elem_of_In, List.in_flat_map. exists e.
        by rewrite <- !list_elem_of_In. }
      rewrite Forall_forall in Hin. destruct (Hin e He).
      edestruct (splice_one_spec off (off + len) e x) as (_ & _ & _ & _ & Heq); [try lia..|done|].
      split; [apply splice_extents_elem; by left|]. split; [done|]. lia.
    + rewrite byte_addr_None in Ha |- *. intros x Hx. apply not_true_iff_false. intros Hc.
      apply covers_true in Hc. apply splice_extents_elem in Hx as [Hx| ->]; [|unfold e_end in Hc; simpl in Hc; lia].
      apply cut_elem in Hx as (e & He & _ & ? & ? & ? & _). specialize (Ha e He).
      apply not_true_iff_false in Ha. apply Ha, covers_true. lia.
Qed.
End Splice.

(** ** Truncation *)

Definition trunc_file (f : FileData) (len : Z) : FileData :=
  mkFileData len (flat_map (trunc_one len) (f_extents f)).

Section Trunc.
Context (f : FileData) (len : Z) (Hwf : wf_file f) (Hlen : 0 <= len < 2 ^ 32).

Local Lemma trunc_one_elem e x :
  e ∈ f_extents f -> x ∈ trunc_one len e ->
  e_off x = e_off e /\ 0 < e_len x <= e_len e /\ e_end x <= len /\ e_flash x = e_flash e /\
  (e_end e <= len -> x = e).
Proof.
  intros He. destruct Hwf as [Hsz Hok _]. rewrite Forall_forall in Hok.
  destruct (Hok e He) as (? & ? & Hend). unfold trunc_one, e_end in *. rewrite u32_small by lia.
  destruct (_ <=? _) eqn:E1; [by intros ?%elem_of_nil|].
  destruct (_ <=? len) eqn:E2; intros ->%list_elem_of_singleton; zbool; simpl; repeat split; try lia; done.
Qed.

Lemma trunc_wf : wf_file (trunc_file f len).
Proof.
  split; simpl; [done| |].
  - apply Forall_forall. intros x. rewrite list_elem_of_In, List.in_flat_map. intros (e & He & Hx).
    rewrite <- list_elem_of_In in He, Hx. pose proof (trunc_one_elem e x He Hx) as (? & ? & ? & _).
    destruct Hwf as [_ Hok _]. rewrite Forall_forall in Hok. destruct (Hok e He). unfold ext_ok. lia.
  - destruct Hwf as [_ _ Hs]. pose proof trunc_one_elem as Hone. revert Hone.
    induction Hs as [|e es Hs' IH Hb]; intros Hone; simpl; [constructor|].
    specialize (IH ltac:(intros; apply Hone; set_solver)).
    assert (Hhd : forall x y, x ∈ trunc_one len e -> y ∈ flat_map (trunc_one len) es -> before x y).
    { intros x y Hx. rewrite list_elem_of_In, List.in_flat_map. intros (e' & He' & Hy).
      rewrite <- list_elem_of_In in He', Hy. rewrite Forall_forall in Hb. specialize (Hb e' He').
      destruct (Hone e x ltac:(set_solver) Hx) as (? & ? & ? & _).
      destruct (Hone e' y ltac:(set_solver) Hy) as (? & ? & ? & _). unfold before, e_end in *. lia. }
    assert (Hl : (length (trunc_one len e) <= 1)%nat).
    { unfold trunc_one. destruct (_ <=? _); [simpl; lia|]. destruct (_ <=? _); simpl; lia. }
    destruct (trunc_one len e) as [|x [|]]; simpl in *; [done| |lia].
    constructor; [done|]. apply Forall_forall. intros y Hy. apply Hhd; [set_solver|done].
Qed.

Lemma trunc_in lo hi : Forall (ext_in lo hi) (f_extents f) -> Forall (ext_in lo hi) (f_extents (trunc_file f len)).
Proof.
  rewrite !Forall_forall. simpl. intros Hin x. rewrite list_elem_of_In, List.in_flat_map. intros (e & He & Hx).
  rewrite <- list_elem_of_In in He, Hx. pose proof (trunc_one_elem e x He Hx) as (? & ? & ? & ? & _).
  destruct (Hin e He). unfold ext_in. lia.
Qed.

Lemma trunc_addr i :
  byte_addr (f_extents (trunc_file f len)) i = if i <? len then byte_addr (f_extents f) i else None.
Proof.
  simpl. pose proof trunc_one_elem as Hone. destruct Hwf as [Hsz Hok _]. revert Hone Hok.
  induction (f_extents f) as [|e es IH]; intros Hone Hok; simpl; [by destruct (_ <? _)|].
  inversion Hok as [|?? (He1 & He2 & He3) Hok']; subst.
  rewrite byte_addr_app, IH; [|intros; apply Hone; set_solver|done].
  assert (He : byte_addr (trunc_one len e) i =
               if (i <? len) && covers i e then Some (e_flash e + (i - e_off e)) else None).
  { unfold trunc_one, e_end in *. rewrite u32_small by lia. unfold covers, e_end.
    destruct (len <=? _) eqn:E1; zbool; simpl.
    - destruct (i <? len) eqn:E; [|done]. destruct (e_off e <=? i) eqn:E'; [|done]. zbool. lia.
    - destruct (_ <=? len) eqn:E2; zbool; simpl; unfold covers, e_end; simpl;
        destruct (e_off e <=? i) eqn:E3, (i <? len) eqn:E4; zbool; simpl; try done;
        (destruct (i <? _) eqn:E5; zbool; simpl; try done; try lia);
        destruct (i <? e_off e + e_len e) eqn:E6; zbool; try done; lia. }
  rewrite He. destruct (i <? len), (covers i e); done.
Qed.
End Trunc.

(** ** Contents *)

Section Contents.
Context {D : Type} `{NorFlashLaws D}.

Definition file_byte (d : D) (f : FileData) (i : Z) : Z :=
  match byte_addr (f_extents f) i with Some a => nor_cell d a | None => 0 end.

Definition contents (d : D) (f : FileData) : list Z := file_byte d f <$> seqZ 0 (f_size f).

Definition set_size (c : list Z) (l : Z) : list Z := resize (Z.to_nat l) 0 c.

Lemma contents_lookup d f (i : nat) :
  contents d f !! i = if Z.of_nat i <? f_size f then Some (file_byte d f (Z.of_nat i)) else None.
Proof.
  unfold contents. rewrite list_lookup_fmap. destruct (_ <? _) eqn:E; zbool.
  - rewrite lookup_seqZ_lt by lia. simpl. do 2 f_equal.
  - by rewrite lookup_seqZ_ge by lia.
Qed.

Lemma contents_length d f : 0 <= f_size f -> len (contents d f) = f_size f.
Proof. intros. unfold contents. rewrite length_fmap, length_seqZ. lia. Qed.

Lemma contents_ok d f : bytes_ok (contents d f).
Proof.
  unfold contents, bytes_ok. rewrite Forall_fmap, Forall_forall. intros i _. unfold file_byte; simpl.
  destruct (byte_addr _ _); [apply nor_cell_byte|]. unfold is_byte. lia.
Qed.

(** Contents depend on the size, the addresses and the cells they name. *)
Lemma contents_ext d d' f f' :
  f_size f = f_size f' ->
  (forall i, 0 <= i < f_size f -> file_byte d f i = file_byte d' f' i) -> contents d f = contents d' f'.
Proof.
  intros Hs Hb. unfold contents. rewrite <- Hs. apply list_fmap_ext. intros k i Hi.
  apply lookup_seqZ in Hi. apply Hb. lia.
Qed.

Lemma file_byte_frame d d' f lo hi i :
  Forall (ext_in lo hi) (f_extents f) -> (forall a, lo <= a < hi -> nor_cell d a = nor_cell d' a) ->
  file_byte d f i = file_byte d' f i.
Proof.
  intros Hin Hc. unfold file_byte. destruct (byte_addr _ _) as [a|] eqn:E; [|done]. apply Hc.
  induction Hin as [|e es He _ IH]; simpl in E; [done|].
  destruct (covers i e) eqn:Hcov; [|by apply IH]. injection E as <-.
  apply covers_true in Hcov. destruct He. unfold e_end in *. lia.
Qed.

Lemma contents_frame d d' f lo hi :
  Forall (ext_in lo hi) (f_extents f) -> (forall a, lo <= a < hi -> nor_cell d a = nor_cell d' a) ->
  contents d f = contents d' f.
Proof. intros Hin Hc. apply contents_ext; [done|]. intros. by eapply file_byte_frame. Qed.

Lemma file_byte_past d f i : wf_file f -> f_size f <= i -> file_byte d f i = 0.
Proof.
  intros [_ Hok _] Hi. unfold file_byte. destruct (byte_addr _ _) eqn:E; [|done].
  apply byte_addr_range with (size := f_size f) in E; [lia|done].
Qed.

(** Splicing an extent whose flash bytes are [bs] is the POSIX write of [bs]. *)
Lemma splice_contents d f off bs flash_off lo hi :
  wf_file f -> Forall (ext_in lo hi) (f_extents f) -> 0 <= lo -> hi < 2 ^ 32 ->
  0 <= off -> 0 < len bs -> off + len bs < 2 ^ 32 -> cells d flash_off (len bs) = bs ->
  contents d (splice_extent f off (len bs) flash_off) = overwrite (contents d f) off bs.
Proof.
  intros Hwf Hin Hlo Hhi Ho Hl He Hc. apply list_eq. intros i.
  pose proof (wf_size f Hwf).
  rewrite contents_lookup, overwrite_lookup, contents_length, splice_size by lia.
  unfold file_byte at 1. rewrite (splice_addr f off (len bs) flash_off lo hi) by done.
  destruct (_ && _) eqn:E; zbool.
  - replace (Z.of_nat i <? Z.max _ _) with true by (symmetry; apply Z.ltb_lt; lia).
    rewrite <- Hc at 1. unfold cells. rewrite list_lookup_fmap, lookup_seqZ_lt by (rewrite ?Hc; lia).
    simpl. do 2 f_equal. lia.
  - destruct (Z.of_nat i <? Z.max _ _) eqn:E'; [|done]. zbool. f_equal.
    rewrite contents_lookup. destruct (_ <? f_size f) eqn:E2; [done|]. zbool. simpl.
    by apply (file_byte_past d f).
Qed.

Lemma trunc_contents d f l :
  wf_file f -> 0 <= l < 2 ^ 32 -> contents d (trunc_file f l) = set_size (contents d f) l.
Proof.
  intros Hwf Hl. apply list_eq. intros i. unfold set_size. rewrite lookup_resize_Z, !contents_lookup.
  simpl. unfold file_byte at 1. rewrite trunc_addr by done.
  destruct (Z.of_nat i <? l) eqn:E; zbool.
  - replace (i <? Z.to_nat l)%nat with true by (symmetry; apply Nat.ltb_lt; lia). f_equal.
    destruct (_ <? f_size f) eqn:E2; zbool; simpl; [done|]. by apply (file_byte_past d f).
  - by replace (i <? Z.to_nat l)%nat with false by (symmetry; apply Nat.ltb_ge; lia).
Qed.

(** ** Reading *)

Lemma patch_length buf o bs :
  0 <= o -> o + len bs <= len buf -> length (patch buf o bs) = length buf.
Proof. intros. unfold patch. rewrite !length_app, length_take, length_drop. lia. Qed.

Lemma patch_lookup buf o bs (j : nat) :
  0 <= o -> o + len bs <= len buf ->
  patch buf o bs !! j = if (o <=? Z.of_nat j) && (Z.of_nat j <? o + len bs) then bs !! (j - Z.to_nat o)%nat else buf !! j.
Proof.
  intros. unfold patch. assert (Ht : length (take (Z.to_nat o) buf) = Z.to_nat o) by (rewrite length_take; lia).
  destruct (o <=? Z.of_nat j) eqn:E1; zbool; simpl.
  - rewrite lookup_app_r, Ht by lia. destruct (_ <? _) eqn:E2; zbool.
    + by rewrite lookup_app_l by lia.
    + rewrite lookup_app_r, lookup_drop by lia. f_equal. lia.
  - rewrite lookup_app_l by lia. by rewrite lookup_take_lt by lia.
Qed.

(** The extent loop fills exactly the bytes the extents cover. *)
Lemma read_extents_spec d off n es buf out size :
  Forall (ext_ok size) es -> StronglySorted before es -> size < 2 ^ 32 -> Forall (ext_in 0 (2 ^ 32 - 1)) es ->
  0 <= off -> 0 <= n -> length buf = Z.to_nat n -> off + n < 2 ^ 32 ->
  read_extents d off (off + n) buf es = Ok out ->
  length out = Z.to_nat n /\
  forall j : nat, Z.of_nat j < n ->
    out !! j = match byte_addr es (off + Z.of_nat j) with Some a => Some (nor_cell d a) | None => buf !! j end.
Proof.
  intros Hok Hs Hsz Hin Ho Hn0 Hn He. revert buf Hn. induction Hs as [|e es Hs IH Hb]; intros buf Hn Hr; simpl in Hr.
  { kres. done. }
  apply Forall_cons in Hok as [(He0 & He1 & He2) Hok]. apply Forall_cons in Hin as [[Hi1 Hi2] Hin].
  kres. rename a into buf', Hm into Hm. unfold read_extent, e_end in *. rewrite !u32_small in Hm by lia.
  destruct (_ <? _) eqn:E; zbool.
  - kres. apply flash_read_Ok in Hm0.
    rewrite (u32_small (e_flash e + (Z.max (e_off e) off - e_off e))) in Hm0 by lia.
    assert (Hla : len a = Z.min (e_off e + e_len e) (off + n) - Z.max (e_off e) off)
      by (subst a; rewrite cells_length; lia).
    assert (Hpl : length (patch buf (e_off e `max` off - off) a) = Z.to_nat n) by (rewrite patch_length; lia).
    destruct (IH Hok Hin _ Hpl Hr) as [Hlo Hj]. split; [done|].
    intros j Hjn. rewrite Hj, patch_lookup by lia.
    simpl. unfold covers, e_end. destruct (byte_addr es (off + Z.of_nat j)) as [b|] eqn:Eb.
    + assert (e_off e + e_len e <= off + Z.of_nat j).
      { apply byte_addr_Some in Eb as (e' & He' & Hc & _); [|done|eapply Forall_impl; [apply Hok|by intros ? (?&?&?)]].
        apply covers_true in Hc. rewrite Forall_forall in Hb. specialize (Hb e' He').
        unfold before, e_end in *. lia. }
      replace (off + Z.of_nat j <? e_off e + e_len e) with false by (symmetry; apply Z.ltb_ge; lia).
      by rewrite andb_false_r.
    + destruct (_ && _) eqn:Ec; zbool.
      * replace (e_off e <=? off + Z.of_nat j) with true by (symmetry; apply Z.leb_le; lia).
        replace (off + Z.of_nat j <? _) with true by (symmetry; apply Z.ltb_lt; lia). simpl.
        subst a. unfold cells. rewrite list_lookup_fmap, lookup_seqZ_lt by lia. simpl. do 2 f_equal. lia.
      * destruct ((_ <=? off + Z.of_nat j) && _) eqn:Ed; [|done]. zbool.
        apply andb_false_iff in Ec as [Ec|Ec]; zbool; lia.
  - kres. destruct (IH Hok Hin _ Hn Hr) as [Hlo Hj]. split; [done|].
    intros j Hjn. rewrite Hj by done. simpl. unfold covers, e_end.
    replace ((e_off e <=? off + Z.of_nat j) && _) with false; [done|]. symmetry.
    apply andb_false_iff. rewrite Z.leb_gt, Z.ltb_ge. lia.
Qed.

Lemma read_extents_total d off n es buf size :
  reads_ok d -> Forall (ext_ok size) es -> size < 2 ^ 32 -> Forall (ext_in 0 FLASH_SIZE) es ->
  0 <= off -> off + n < 2 ^ 32 -> exists out, read_extents d off (off + n) buf es = Ok out.
Proof.
  intros Hr Hok Hsz Hin Ho He. revert buf. induction Hok as [|e es (He0 & He1 & He2) Hok IH]; intros buf; simpl.
  { by eexists. }
  apply Forall_cons in Hin as [[Hi1 Hi2] Hin]. unfold read_extent, e_end, FLASH_SIZE in *.
  rewrite !u32_small by lia.
  destruct (_ <? _) eqn:E; zbool; [|by apply IH].
  rewrite u32_small by lia. rewrite flash_read_total by (done || (unfold FLASH_SIZE; lia)). simpl. by apply IH.
Qed.

(** The value [read_file] should give: at most [n] bytes of the contents from [off]. *)
Definition read_spec (c : list Z) (off n : Z) : list Z := slice off n c.

Lemma read_file_Ok s d ino k f off n out :
  nodes s !! ino = Some (mkNode k (BFile f)) -> wf_file f -> Forall (ext_in 0 FLASH_SIZE) (f_extents f) ->
  0 <= off -> 0 <= n -> read_file s d ino off n = Ok out -> out = read_spec (contents d f) off n.
Proof.
  intros Hn Hwf Hin Ho Hnn Hr. unfold read_file, read_spec in *. rewrite Hn in Hr. simpl in Hr.
  pose proof (wf_size f Hwf) as Hsz. pose proof (contents_length d f ltac:(lia)) as Hcl.
  unfold try_u32, U32_MAX in Hr. destruct (off <=? _) eqn:E; zbool.
  2: { kres. unfold slice. rewrite drop_ge by lia. by rewrite take_nil. }
  destruct (_ <=? off) eqn:E2; zbool.
  { kres. unfold slice. rewrite drop_ge by lia. by rewrite take_nil. }
  set (m := Z.min n (f_size f - off)) in *. assert (0 <= m /\ off + m <= f_size f) as [Hm0 Hm1] by lia.
  rewrite u32_small in Hr by lia.
  apply read_extents_spec with (size := f_size f) in Hr as [Hl Hj]; try lia; try apply Hwf.
  - apply list_eq. intros j. unfold slice. destruct (decide (Z.of_nat j < m)).
    + rewrite Hj by done. rewrite lookup_take_lt, lookup_drop, contents_lookup by lia.
      replace (Z.of_nat (Z.to_nat off + j) <? f_size f) with true by (symmetry; apply Z.ltb_lt; lia).
      unfold file_byte. replace (Z.of_nat (Z.to_nat off + j)) with (off + Z.of_nat j) by lia.
      destruct (byte_addr _ _); [done|]. unfold zeroed. apply lookup_replicate_2. lia.
    + rewrite lookup_ge_None_2 by lia. symmetry. apply lookup_ge_None. rewrite length_take, length_drop. lia.
  - eapply Forall_impl; [apply Hin|]. intros e []. unfold ext_in, FLASH_SIZE in *. lia.
  - unfold zeroed. by rewrite length_replicate.
Qed.

Lemma read_file_contents s d ino k f off n :
  nodes s !! ino = Some (mkNode k (BFile f)) -> wf_file f -> Forall (ext_in 0 FLASH_SIZE) (f_extents f) ->
  0 <= off -> 0 <= n -> reads_ok d ->
  read_file s d ino off n = Ok (read_spec (contents d f) off n).
Proof.
  intros Hn Hwf Hin Ho Hnn Hr. assert (exists out, read_file s d ino off n = Ok out) as [out Hout].
  { unfold read_file. rewrite Hn. simpl. pose proof (wf_size f Hwf) as Hsz.
    unfold try_u32, U32_MAX. destruct (off <=? _) eqn:E; [|by eexists].
    destruct (_ <=? off) eqn:E2; [by eexists|]. zbool.
    rewrite u32_small by lia. apply read_extents_total with (size := f_size f); try lia; try done. apply Hwf. }
  rewrite Hout. f_equal. by eapply read_file_Ok.
Qed.
End Contents.

(** ** Appending in order, the way compaction rebuilds a file *)

Lemma sorted_off es : StronglySorted before es -> Forall (fun e => 0 < e_len e) es ->
  StronglySorted (fun a b => e_off a <= e_off b) es.
Proof.
  induction 1 as [|e es Hs IH Hb]; intros Hp; [constructor|].
  apply Forall_cons in Hp as [He Hp]. constructor; [by apply IH|].
  rewrite Forall_forall in *. intros e' He'. specialize (Hb e' He'). unfold before, e_end in Hb. simpl. lia.
Qed.

Lemma sorted_snoc es off len flash :
  Forall (ext_ok off) es -> StronglySorted before es -> 0 < len ->
  StronglySorted before (es ++ [mkExtent off len flash]).
Proof.
  intros Hok Hs Hl. induction Hs as [|e es Hs IH Hb]; simpl; [by repeat constructor|].
  apply Forall_cons in Hok as [(_ & _ & He) Hok]. constructor; [by apply IH|].
  apply Forall_app. split; [done|]. constructor; [|constructor]. unfold before. simpl. lia.
Qed.

Lemma splice_append size es off len flash :
  Forall (ext_ok off) es -> StronglySorted before es -> 0 <= off -> 0 < len -> off + len < 2 ^ 32 -> size <= off ->
  splice_extent (mkFileData size es) off len flash = mkFileData (off + len) (es ++ [mkExtent off len flash]).
Proof.
  intros Hok Hs Ho Hl He Hsz. unfold splice_extent.
  replace (len =? 0) with false by (symmetry; apply Z.eqb_neq; lia). simpl.
  rewrite u32_small by lia. replace (size <? off + len) with true by (symmetry; apply Z.ltb_lt; lia). f_equal.
  replace (flat_map (splice_one off (off + len)) es) with es.
  - apply sort_by_key_id, sorted_off; [by apply sorted_snoc|].
    apply Forall_app. split; [|by repeat constructor]. eapply Forall_impl; [apply Hok|]. by intros ? (?&?&?).
  - clear Hs. induction Hok as [|e es (H0 & H1 & H2) Hok IH]; simpl; [done|]. rewrite <- IH.
    unfold splice_one, e_end in *. rewrite u32_small by lia.
    by replace (e_off e + e_len e <=? off) with true by (symmetry; apply Z.leb_le; lia).
Qed.

Lemma trunc_keep es len size :
  Forall (ext_ok len) es -> len < 2 ^ 32 -> trunc_file (mkFileData size es) len = mkFileData len es.
Proof.
  intros Hok Hl. unfold trunc_file. simpl. f_equal.
  induction Hok as [|e es (H0 & H1 & H2) Hok IH]; simpl; [done|]. rewrite IH.
  unfold trunc_one, e_end in *. rewrite u32_small by lia.
  replace (len <=? e_off e) with false by (symmetry; apply Z.leb_gt; lia).
  by replace (e_off e + e_len e <=? len) with true by (symmetry; apply Z.leb_le; lia).
Qed.
