(* ===== verification/EspfsTree.v ===== *)
(** * EspfsTree: the directory tree of EspFs (fs/espfs/mod.rs)

    [tree_ok] is the shape of the in-memory tree: one root, every other node the
    child of exactly one directory, children numbered above their parents, kinds
    agreeing with bodies, files well formed.  The three record types that change
    the tree keep it, and [build_plan] visits every node once, parents first. *)

From S2P Require Import Prelude Flash Wire Inode Espfs EspfsFile.

Open Scope Z_scope.

Abbreviation tree := (gmap Z Node).

(** ** Shape *)

Definition dir_of (ns : tree) (p : Z) : option (gmap string Z) :=
  match ns !! p with Some (mkNode _ (BDir m)) => Some m | _ => None end.

(** Directory [p] has the entry [name], leading to [c]. *)
Definition entry (ns : tree) (p : Z) (name : string) (c : Z) : Prop :=
  exists m, dir_of ns p = Some m /\ m !! name = Some c.

Definition node_ok (n : Node) : Prop :=
  match n_body n with BDir _ => n_kind n = Dir | BFile f => n_kind n = File /\ wf_file f end.

Record tree_ok (ns : tree) (next : Z) : Prop := {
  t_root : is_Some (dir_of ns ROOT_INO);
  t_nodes : map_Forall (fun _ => node_ok) ns;
  t_range : forall i, is_Some (ns !! i) -> 1 <= i < next;
  t_entry : forall p name c, entry ns p name c ->
    p < c /\ is_Some (ns !! c) /\ is_str name /\ str_len name <= MAX_NAME;
  t_uniq : forall p p' name name' c, entry ns p name c -> entry ns p' name' c -> p = p' /\ name = name';
  t_parent : forall c, is_Some (ns !! c) -> c <> ROOT_INO -> exists p name, entry ns p name c;
}.

Lemma dir_of_Some ns p m : dir_of ns p = Some m <-> exists k, ns !! p = Some (mkNode k (BDir m)).
Proof.
  unfold dir_of. destruct (ns !! p) as [[k [m'|f]]|]; split; try done.
  - intros [= ->]. by eexists.
  - by intros (k' & [= -> ->]).
  - by intros (? & ?).
  - by intros (? & ?).
Qed.

Lemma dir_of_insert ns p n i :
  dir_of (<[p := n]> ns) i = if decide (i = p) then match n_body n with BDir m => Some m | BFile _ => None end else dir_of ns i.
Proof.
  unfold dir_of. destruct (decide (i = p)) as [->|].
  - rewrite lookup_insert_eq. by destruct n as [? []].
  - by rewrite lookup_insert_ne.
Qed.

Lemma dir_of_delete ns p i : dir_of (delete p ns) i = if decide (i = p) then None else dir_of ns i.
Proof.
  unfold dir_of. destruct (decide (i = p)) as [->|].
  - by rewrite lookup_delete_eq.
  - by rewrite lookup_delete_ne.
Qed.

Lemma node_dir ns next p m : tree_ok ns next -> dir_of ns p = Some m -> ns !! p = Some (mkNode Dir (BDir m)).
Proof.
  intros Hok (k & Hp)%dir_of_Some. pose proof (t_nodes _ _ Hok p _ Hp) as Hn. unfold node_ok in Hn. simpl in Hn. by subst.
Qed.

Lemma node_file ns next i k f :
  tree_ok ns next -> ns !! i = Some (mkNode k (BFile f)) -> k = File /\ wf_file f.
Proof. intros Hok Hi. by pose proof (t_nodes _ _ Hok i _ Hi). Qed.

(** ** The tree operations on the map of nodes *)

Definition mk_nodes (kind : InodeKind) (ino parent : Z) (name : string) (ns : tree) : tree :=
  let body := match kind with Dir => BDir ∅ | _ => BFile (mkFileData 0 []) end in
  let ns := <[ino := mkNode kind body]> ns in
  match ns !! parent with
  | Some (mkNode k (BDir m)) => <[parent := mkNode k (BDir (<[name := ino]> m))]> ns
  | _ => ns
  end.

Definition file_nodes (g : FileData -> FileData) (ino : Z) (ns : tree) : tree :=
  match ns !! ino with Some (mkNode k (BFile f)) => <[ino := mkNode k (BFile (g f))]> ns | _ => ns end.

Definition unlink_nodes (parent : Z) (name : string) (ns : tree) : tree :=
  match ns !! parent with
  | Some (mkNode k (BDir m)) =>
    match m !! name with
    | Some ci => delete ci (<[parent := mkNode k (BDir (delete name m))]> ns)
    | None => ns
    end
  | _ => ns
  end.

Lemma nodes_apply_mk kind ino parent name s :
  nodes (apply_mk kind ino parent name s) = mk_nodes kind ino parent name (nodes s).
Proof. unfold apply_mk, mk_nodes. simpl. by destruct (_ <=? _). Qed.

Lemma nodes_alter_file g ino s : nodes (alter_file g ino s) = file_nodes g ino (nodes s).
Proof. unfold alter_file, file_nodes. destruct (nodes s !! ino) as [[? []]|]; done. Qed.

Lemma nodes_apply_unlink parent name s :
  nodes (apply_unlink parent name s) = unlink_nodes parent name (nodes s).
Proof.
  unfold apply_unlink, unlink_nodes. destruct (nodes s !! parent) as [[? [m|]]|]; try done.
  by destruct (m !! name).
Qed.

Lemma mk_nodes_eq kind ino parent name ns m :
  ns !! ino = None -> dir_of ns parent = Some m ->
  exists k, ns !! parent = Some (mkNode k (BDir m)) /\
  mk_nodes kind ino parent name ns =
    <[parent := mkNode k (BDir (<[name := ino]> m))]>
      (<[ino := mkNode kind (match kind with Dir => BDir ∅ | _ => BFile (mkFileData 0 []) end)]> ns).
Proof.
  intros Hi (k & Hp)%dir_of_Some. exists k. split; [done|]. unfold mk_nodes.
  rewrite lookup_insert_ne by congruence. by rewrite Hp.
Qed.

(** ** Creation *)

Lemma tree_fresh ns next : tree_ok ns next -> ns !! next = None.
Proof.
  intros Hok. destruct (ns !! next) eqn:E; [|done]. pose proof (t_range _ _ Hok next ltac:(by eexists)). lia.
Qed.

Section Create.
Context (ns : tree) (next parent : Z) (name : string) (kind : InodeKind) (m : gmap string Z).
Context (Hok : tree_ok ns next) (Hp : dir_of ns parent = Some m) (Hnew : m !! name = None).
Context (Hkind : kind = Dir \/ kind = File).

Lemma mk_entry p n c :
  entry (mk_nodes kind next parent name ns) p n c <->
  entry ns p n c \/ (p = parent /\ n = name /\ c = next).
Proof.
  destruct (mk_nodes_eq kind next parent name ns m (tree_fresh _ _ Hok) Hp) as (k & Hpk & ->).
  pose proof (tree_fresh _ _ Hok) as Hf. assert (parent <> next) by congruence.
  unfold entry. rewrite !dir_of_insert. cbn [n_body].
  destruct (decide (p = parent)) as [->|].
  - rewrite Hp. split.
    + intros (m' & [= <-] & [[<- <-]|[? ?]]%lookup_insert_Some); [by right|left; by eexists].
    + intros [(m' & [= <-] & Hm)|(_ & -> & ->)]; eexists; (split; [done|]).
      * rewrite lookup_insert_ne; [done|]. congruence.
      * by rewrite lookup_insert_eq.
  - destruct (decide (p = next)) as [->|].
    + split; [|intros [(m' & Hm' & _)|(? & _)]; [|done]].
      * intros (m' & Hm' & Hl). exfalso. destruct Hkind as [-> | ->]; simpl in Hm'; [|done].
        injection Hm' as <-. by rewrite lookup_empty in Hl.
      * apply dir_of_Some in Hm' as (? & Hm'). congruence.
    + split; [by left|]. intros [?|(? & _)]; done.
Qed.

Lemma mk_tree_ok :
  is_str name -> str_len name <= MAX_NAME -> tree_ok (mk_nodes kind next parent name ns) (next + 1).
Proof.
  intros Hs Hl. pose proof mk_entry as He. pose proof (tree_fresh _ _ Hok) as Hf.
  destruct (mk_nodes_eq kind next parent name ns m Hf Hp) as (k & Hpk & Hmk).
  assert (Hin : forall i, is_Some (mk_nodes kind next parent name ns !! i) <-> is_Some (ns !! i) \/ i = next).
  { intros i. rewrite Hmk, !lookup_insert_is_Some'. split; [|naive_solver].
    intros [<-|[<-|?]]; eauto. }
  split.
  - destruct (t_root _ _ Hok) as [mr Hr]. rewrite Hmk, !dir_of_insert. cbn [n_body].
    destruct (decide (ROOT_INO = parent)); [by eexists|].
    destruct (decide (ROOT_INO = next)) as [E|]; [|by eexists].
    apply dir_of_Some in Hr as (? & Hr). congruence.
  - rewrite Hmk. apply map_Forall_insert_2; [|apply map_Forall_insert_2; [|apply Hok]].
    + apply (t_nodes _ _ Hok parent) in Hpk. done.
    + destruct Hkind as [-> | ->]; unfold node_ok; simpl; [done|]. split; [done|].
      split; simpl; [lia|constructor|constructor].
  - intros i [Hi| ->]%Hin; [pose proof (t_range _ _ Hok i Hi); lia|].
    pose proof (t_range _ _ Hok parent ltac:(by eexists)). lia.
  - intros p n c [Hen|(-> & -> & ->)]%He.
    + destruct (t_entry _ _ Hok p n c Hen) as (? & ? & ? & ?). repeat split; try done. apply Hin. by left.
    + pose proof (t_range _ _ Hok parent ltac:(by eexists)). repeat split; try done; [lia|].
      apply Hin. by right.
  - assert (Hne : forall p n, ~ entry ns p n next).
    { intros p n Hen. destruct (t_entry _ _ Hok p n next Hen) as (_ & [x Hx] & _). congruence. }
    intros p p' n n' c [H1|(-> & -> & ->)]%He [H2|(-> & -> & E)]%He; try done.
    + by eapply (t_uniq _ _ Hok).
    + subst. by apply Hne in H1.
    + by apply Hne in H2.
  - intros c [Hc| ->]%Hin Hr.
    + destruct (t_parent _ _ Hok c Hc Hr) as (p & n & Hen). exists p, n. apply He. by left.
    + exists parent, name. apply He. by right.
Qed.
End Create.

(** ** Changes to a file's data *)

Lemma file_nodes_dir g ino ns p : dir_of (file_nodes g ino ns) p = dir_of ns p.
Proof.
  unfold file_nodes. destruct (ns !! ino) as [[k [m|f]]|] eqn:E; try done.
  rewrite dir_of_insert. destruct (decide (p = ino)) as [->|]; [|done]. unfold dir_of. by rewrite E.
Qed.

Lemma file_nodes_is_Some g ino ns i : is_Some (file_nodes g ino ns !! i) <-> is_Some (ns !! i).
Proof.
  unfold file_nodes. destruct (ns !! ino) as [[k [m|f]]|] eqn:E; try done.
  rewrite lookup_insert_is_Some'. split; [|by right]. intros [<-|?]; [by eexists|done].
Qed.

Lemma file_tree_ok g ino ns next :
  tree_ok ns next -> (forall k f, ns !! ino = Some (mkNode k (BFile f)) -> wf_file (g f)) ->
  tree_ok (file_nodes g ino ns) next.
Proof.
  intros Hok Hg.
  assert (He : forall p n c, entry (file_nodes g ino ns) p n c <-> entry ns p n c).
  { intros. unfold entry. by setoid_rewrite file_nodes_dir. }
  split.
  - rewrite file_nodes_dir. apply Hok.
  - pose proof (t_nodes _ _ Hok) as Hn. unfold file_nodes. destruct (ns !! ino) as [[k [m|f]]|] eqn:E; try done.
    apply map_Forall_insert_2; [|done]. pose proof (Hn _ _ E) as []. split; [done|]. by eapply Hg.
  - intros i. rewrite file_nodes_is_Some. apply Hok.
  - intros p n c. rewrite He, file_nodes_is_Some. apply Hok.
  - intros p p' n n' c. rewrite !He. apply Hok.
  - intros c. rewrite file_nodes_is_Some. setoid_rewrite He. apply Hok.
Qed.

(** ** Removal *)

Lemma unlink_nodes_eq parent name ns k m c :
  ns !! parent = Some (mkNode k (BDir m)) -> m !! name = Some c ->
  unlink_nodes parent name ns = delete c (<[parent := mkNode k (BDir (delete name m))]> ns).
Proof. unfold unlink_nodes. by intros -> ->. Qed.

Lemma unlink_tree_ok ns next parent name m c :
  tree_ok ns next -> dir_of ns parent = Some m -> m !! name = Some c ->
  (forall sub, dir_of ns c = Some sub -> sub = ∅) ->
  tree_ok (unlink_nodes parent name ns) next.
Proof.
  intros Hok Hp Hm Hempty. pose proof (node_dir _ _ _ _ Hok Hp) as Hpk.
  rewrite (unlink_nodes_eq parent name ns Dir m c) by done.
  assert (Hpc : entry ns parent name c) by (by exists m).
  destruct (t_entry _ _ Hok _ _ _ Hpc) as (Hlt & Hc & _).
  assert (He : forall p n c', entry (delete c (<[parent:=mkNode Dir (BDir (delete name m))]> ns)) p n c' <->
    entry ns p n c' /\ c' <> c).
  { intros p n c'. unfold entry. rewrite dir_of_delete, dir_of_insert. cbn [n_body].
    destruct (decide (p = c)) as [->|Hne].
    { split; [by intros (? & ? & _)|]. intros [(sub & Hs & Hl) _]. apply Hempty in Hs as ->.
      by rewrite lookup_empty in Hl. }
    destruct (decide (p = parent)) as [->|Hne'].
    - rewrite Hp. split.
      + intros (m' & [= <-] & [Hnn Hl]%lookup_delete_Some). split; [by eexists|]. intros ->.
        destruct (t_uniq _ _ Hok parent parent name n c) as [_ ?]; [done|by exists m|done].
      + intros [(m' & [= <-] & Hl) Hcc]. eexists. split; [done|]. apply lookup_delete_Some.
        split; [|done]. intros ->. congruence.
    - split.
      + intros (m' & Hd & Hl). split; [by exists m'|]. intros ->.
        destruct (t_uniq _ _ Hok parent p name n c) as [? _]; [done|by exists m'|done].
      + intros [(m' & Hd & Hl) _]. by exists m'. }
  assert (Hin : forall i, is_Some (delete c (<[parent:=mkNode Dir (BDir (delete name m))]> ns) !! i) <->
    is_Some (ns !! i) /\ i <> c).
  { intros i. rewrite lookup_delete_is_Some, lookup_insert_is_Some'. split; [|naive_solver].
    intros [? [<-|?]]; (split; [|done]); [by rewrite Hpk|done]. }
  assert (Hcr : c <> ROOT_INO).
  { pose proof (t_range _ _ Hok parent ltac:(by rewrite Hpk)). unfold ROOT_INO. lia. }
  split.
  - destruct (t_root _ _ Hok) as [mr Hr]. rewrite dir_of_delete, dir_of_insert. cbn [n_body].
    destruct (decide _); [done|]. destruct (decide _); by eexists.
  - apply map_Forall_delete, map_Forall_insert_2; [done|apply Hok].
  - intros i [Hi _]%Hin. by apply (t_range _ _ Hok).
  - intros p n c' [Hen Hcc]%He. destruct (t_entry _ _ Hok _ _ _ Hen) as (? & ? & ? & ?).
    repeat split; try done. by apply Hin.
  - intros p p' n n' c' [H1 _]%He [H2 _]%He. by eapply (t_uniq _ _ Hok).
  - intros c' [Hc' Hcc]%Hin Hr. destruct (t_parent _ _ Hok c' Hc' Hr) as (p & n & Hen).
    exists p, n. by apply He.
Qed.

Lemma empty_tree_ok : tree_ok {[ ROOT_INO := mkNode Dir (BDir ∅) ]} 2.
Proof.
  assert (Hd : forall p, dir_of {[ ROOT_INO := mkNode Dir (BDir ∅) ]} p = if decide (p = ROOT_INO) then Some ∅ else None).
  { intros p. rewrite <- insert_empty, dir_of_insert. destruct (decide _); done. }
  assert (He : forall p n c, ~ entry {[ ROOT_INO := mkNode Dir (BDir ∅) ]} p n c).
  { intros p n c (m & Hm & Hl). rewrite Hd in Hm. destruct (decide _); [|done].
    injection Hm as <-. by rewrite lookup_empty in Hl. }
  split.
  - rewrite Hd. by eexists.
  - by apply map_Forall_singleton.
  - intros i [x [<- _]%lookup_singleton_Some]. unfold ROOT_INO. lia.
  - by intros p n c ?%He.
  - by intros p p' n n' c ?%He.
  - intros c [x [<- _]%lookup_singleton_Some] Hr. done.
Qed.
