(* ===== verification/EspfsPlan.v ===== *)
(** * EspfsPlan: the walk that lists the live tree ([FsState::build_plan])

    [plan_loop] is the stack-driven walk of fs/espfs/mod.rs.  On a well-formed
    tree it needs at most one turn per directory, and its result lists every
    node but the root exactly once, each after its parent. *)

From S2P Require Import Prelude Flash Wire Inode Espfs EspfsFile EspfsTree.

Open Scope Z_scope.

Abbreviation item := (Z * Z * string * InodeKind)%type.

Definition item_ino (it : item) : Z := it.1.1.1.
Definition item_parent (it : item) : Z := it.1.1.2.

Definition kind_of (ns : tree) (c : Z) : InodeKind := match ns !! c with Some n => n_kind n | None => File end.

(** The entries the walk adds for directory [dir]. *)
Definition dir_items (ns : tree) (dir : Z) (m : gmap string Z) : list item :=
  (fun '(name, cino) => (cino, dir, name, kind_of ns cino)) <$> btree_iter m.

(** Parents first: every item's parent is in [X] or is an earlier item. *)
Fixpoint parents_first (X : gset Z) (plan : list item) : Prop :=
  match plan with [] => True | it :: plan' => item_parent it ∈ X /\ parents_first (X ∪ {[ item_ino it ]}) plan' end.

Lemma parents_first_app X plan plan' :
  parents_first X (plan ++ plan') <->
  parents_first X plan /\ parents_first (X ∪ list_to_set (item_ino <$> plan)) plan'.
Proof.
  revert X. induction plan as [|it plan IH]; intros X; simpl.
  - replace (X ∪ ∅) with X by set_solver. naive_solver.
  - rewrite IH. replace (X ∪ {[item_ino it]} ∪ list_to_set (item_ino <$> plan))
      with (X ∪ ({[item_ino it]} ∪ list_to_set (item_ino <$> plan))) by set_solver. naive_solver.
Qed.

Lemma parents_first_const X p plan :
  p ∈ X -> (forall it, it ∈ plan -> item_parent it = p) -> parents_first X plan.
Proof.
  revert X. induction plan as [|it plan IH]; intros X HX Hp; simpl; [done|].
  split; [rewrite Hp; set_solver|]. apply IH; [set_solver|]. intros; apply Hp. set_solver.
Qed.

Lemma elem_of_dir_items ns dir m c p n k :
  (c, p, n, k) ∈ dir_items ns dir m <-> p = dir /\ m !! n = Some c /\ k = kind_of ns c.
Proof.
  unfold dir_items. rewrite list_elem_of_fmap. split.
  - intros ([n' c'] & [= -> -> -> ->] & Hi%elem_of_btree_iter). done.
  - intros (-> & Hm & ->). exists (n, c). split; [done|]. by apply elem_of_btree_iter.
Qed.

Section Walk.
Context (ns : tree) (next : Z) (Hok : tree_ok ns next).

Lemma child_not_root p n c : entry ns p n c -> c <> ROOT_INO.
Proof.
  intros He. destruct (t_entry _ _ Hok _ _ _ He) as (? & ? & _). destruct He as (m & Hm & _).
  pose proof (t_range _ _ Hok p) as Hr. apply dir_of_Some in Hm as (k & Hp). rewrite Hp in Hr.
  unfold ROOT_INO. specialize (Hr ltac:(by eexists)). lia.
Qed.

Lemma kind_of_dir c : is_Some (ns !! c) -> kind_of ns c = Dir <-> is_Some (dir_of ns c).
Proof.
  intros [[k b] Hc]. unfold kind_of, dir_of. rewrite Hc. simpl.
  pose proof (t_nodes _ _ Hok c _ Hc) as Hn. unfold node_ok in Hn. simpl in Hn.
  destruct b as [m|f].
  - split; [by eexists|done].
  - destruct Hn as [-> _]. split; [done|by intros [? ?]].
Qed.

Lemma dir_items_inos dir m : dir_of ns dir = Some m -> NoDup (item_ino <$> dir_items ns dir m).
Proof.
  intros Hm. unfold dir_items. rewrite <- list_fmap_compose.
  pose proof (btree_iter_NoDup m) as Hnd.
  assert (Hent : forall n c, (n, c) ∈ btree_iter m -> entry ns dir n c).
  { intros n c Hi%elem_of_btree_iter. by exists m. }
  revert Hnd Hent. generalize (btree_iter m) as l. clear Hm.
  induction l as [|[n c] l IH]; simpl; intros Hnd Hent; [constructor|].
  apply NoDup_cons in Hnd as [Hn Hnd]. apply NoDup_cons. split.
  - rewrite list_elem_of_fmap. intros ([n' c'] & E & Hi). unfold item_ino in E. simpl in E. subst c'.
    destruct (t_uniq _ _ Hok dir dir n n' c) as [_ <-];
      [apply Hent; set_solver|apply Hent; set_solver|].
    apply Hn. rewrite list_elem_of_fmap. by exists (n, c).
  - apply IH; [done|]. intros. apply Hent. set_solver.
Qed.

(** What holds between the turns of the walk. *)
Record walk_inv (popped stack : list Z) (plan : list item) : Prop := {
  w_nodup : NoDup (popped ++ stack);
  w_dirs : forall d, d ∈ popped ++ stack <-> d = ROOT_INO \/ exists it, it ∈ plan /\ item_ino it = d /\ it.2 = Dir;
  w_isdir : forall d, d ∈ popped ++ stack -> is_Some (dir_of ns d);
  w_plan : forall c p n k, (c, p, n, k) ∈ plan <-> p ∈ popped /\ entry ns p n c /\ k = kind_of ns c;
  w_inos : NoDup (item_ino <$> plan);
  w_first : parents_first {[ ROOT_INO ]} plan;
}.

Lemma walk_init : walk_inv [] [ROOT_INO] [].
Proof.
  split; simpl.
  - apply NoDup_singleton.
  - intros d. rewrite list_elem_of_singleton. split; [by left|]. intros [|(it & Hit & _)]; [done|]. set_solver.
  - intros d ->%list_elem_of_singleton. apply Hok.
  - intros. set_solver.
  - constructor.
  - done.
Qed.

Definition subdirs (items : list item) : list Z :=
  fst ∘ fst ∘ fst <$> (filter (fun e : item => e.2 = Dir) items).

Lemma elem_of_subdirs items d : d ∈ subdirs items <-> exists it, it ∈ items /\ item_ino it = d /\ it.2 = Dir.
Proof.
  unfold subdirs. rewrite list_elem_of_fmap. split.
  - intros (it & -> & [? ?]%list_elem_of_filter). by exists it.
  - intros (it & ? & <- & ?). exists it. split; [done|]. by apply list_elem_of_filter.
Qed.

Lemma NoDup_subdirs items : NoDup (item_ino <$> items) -> NoDup (subdirs items).
Proof.
  unfold subdirs. induction items as [|it items IH]; simpl; intros Hnd; [constructor|].
  apply NoDup_cons in Hnd as [Hn Hnd]. rewrite filter_cons. destruct (decide _); [|by apply IH].
  simpl. apply NoDup_cons. split; [|by apply IH]. contradict Hn.
  rewrite list_elem_of_fmap in Hn |- *. destruct Hn as (it' & E & [_ Hi]%list_elem_of_filter). by exists it'.
Qed.

Lemma walk_step popped dir stack plan m :
  walk_inv popped (dir :: stack) plan -> dir_of ns dir = Some m ->
  walk_inv (dir :: popped) (reverse (subdirs (dir_items ns dir m)) ++ stack) (plan ++ dir_items ns dir m).
Proof.
  intros [Hnd Hdirs Hisd Hplan Hinos Hfirst] Hm.
  assert (Hnew : forall c n, m !! n = Some c -> (c ∉ popped ++ dir :: stack) /\ (c ∉ item_ino <$> plan)).
  { intros c n Hl. assert (He : entry ns dir n c) by (by exists m).
    assert (Hpl : c ∉ item_ino <$> plan).
    { rewrite list_elem_of_fmap. intros ([[[c' p] n'] k] & -> & Hi). apply Hplan in Hi as (Hpp & He' & _).
      unfold item_ino in He. simpl in He. destruct (t_uniq _ _ Hok _ _ _ _ _ He He') as [-> _].
      apply NoDup_app in Hnd as (_ & Hnd & _). apply (Hnd p Hpp). set_solver. }
    split; [|done]. rewrite Hdirs. intros [Hr|(it & Hi & <- & _)].
    - by eapply child_not_root.
    - apply Hpl. rewrite list_elem_of_fmap. by exists it. }
  assert (Hsub : forall d, d ∈ subdirs (dir_items ns dir m) ->
    (exists n, m !! n = Some d) /\ is_Some (dir_of ns d)).
  { intros d ([[[c p] n] k] & Hi & <- & Hk)%elem_of_subdirs. simpl in Hk. subst k.
    apply elem_of_dir_items in Hi as (-> & Hl & Hk). split; [by exists n|].
    apply kind_of_dir; [|done]. by apply (t_entry _ _ Hok dir n c (ex_intro _ m (conj Hm Hl))). }
  split.
  - simpl. rewrite reverse_Permutation.
    rewrite (Permutation_app_comm (subdirs _) stack), app_assoc, app_comm_cons, Permutation_app_comm.
    apply NoDup_app. repeat split.
    + by apply NoDup_subdirs, dir_items_inos.
    + intros d [[n Hl] _]%Hsub. apply Hnew in Hl as [Hl _]. set_solver.
    + by rewrite Permutation_middle.
  - intros d. rewrite !elem_of_app, elem_of_cons, elem_of_reverse, elem_of_subdirs.
    setoid_rewrite elem_of_app. specialize (Hdirs d). rewrite elem_of_app, elem_of_cons in Hdirs.
    assert (Hex : (exists it, (it ∈ plan \/ it ∈ dir_items ns dir m) /\ item_ino it = d /\ it.2 = Dir) <->
      (exists it, it ∈ plan /\ item_ino it = d /\ it.2 = Dir) \/
      (exists it, it ∈ dir_items ns dir m /\ item_ino it = d /\ it.2 = Dir)) by naive_solver.
    rewrite Hex. clear - Hdirs. tauto.
  - intros d. rewrite !elem_of_app, elem_of_cons, elem_of_reverse. intros [[->|Hd]|[Hd|Hd]].
    + by eexists.
    + apply Hisd. set_solver.
    + by apply Hsub.
    + apply Hisd. set_solver.
  - intros c p n k. rewrite elem_of_app, Hplan, elem_of_dir_items, elem_of_cons. split.
    + intros [(? & ? & ?)|(-> & Hl & ->)]; [by auto|]. split; [by left|]. split; [by exists m|done].
    + intros ([->|Hp] & He & ->); [right|by left]. destruct He as (m' & Hm' & Hl). split; [done|].
      split; [congruence|done].
  - rewrite fmap_app, NoDup_app. split; [done|]. split; [|by apply dir_items_inos].
    intros c Hc Hc'. rewrite list_elem_of_fmap in Hc'. destruct Hc' as ([[[c' p] n] k] & -> & Hi).
    apply elem_of_dir_items in Hi as (_ & Hl & _). apply Hnew in Hl as [_ Hl]. done.
  - apply parents_first_app. split; [done|]. apply (parents_first_const _ dir).
    + destruct (Hdirs dir) as [[->|(it & Hi & <- & _)] _]; [set_solver|set_solver|].
      apply elem_of_union_r, elem_of_list_to_set, list_elem_of_fmap. by exists it.
    + intros [[[c p] n] k] Hi%elem_of_dir_items. by destruct Hi as (-> & _).
Qed.

(** Enough fuel for the directories that are left empties the stack. *)
Lemma walk_loop fuel popped stack plan :
  walk_inv popped stack plan -> (size ns < fuel + length popped)%nat ->
  exists popped', walk_inv popped' [] (plan_loop fuel ns stack plan).
Proof.
  revert popped stack plan. induction fuel as [|fuel IH]; intros popped stack plan Hinv Hfuel.
  - exfalso. destruct Hinv as [Hnd _ Hisd _ _ _].
    apply NoDup_app in Hnd as (Hnd & _). assert (Hsub : list_to_set popped ⊆ dom ns).
    { intros d Hd%elem_of_list_to_set. destruct (Hisd d ltac:(set_solver)) as [m (k & Hk)%dir_of_Some].
      apply elem_of_dom. by eexists. }
    apply subseteq_size in Hsub. rewrite size_list_to_set, size_dom in Hsub by done. lia.
  - destruct stack as [|dir stack]; simpl; [by exists popped|].
    destruct (w_isdir _ _ _ Hinv dir) as [m Hm]; [set_solver|].
    pose proof (walk_step _ _ _ _ _ Hinv Hm) as Hinv'.
    pose proof Hm as (k & Hk)%dir_of_Some. rewrite Hk.
    apply (IH (dir :: popped)); [done|]. simpl. lia.
Qed.

Lemma plan_stable fuel fuel' popped stack plan :
  walk_inv popped stack plan -> (size ns < fuel + length popped)%nat -> (fuel <= fuel')%nat ->
  plan_loop fuel' ns stack plan = plan_loop fuel ns stack plan.
Proof.
  revert fuel' popped stack plan. induction fuel as [|fuel IH]; intros fuel' popped stack plan Hinv Hf Hle.
  - exfalso. destruct (walk_loop 0 _ _ _ Hinv Hf) as [popped' Hinv']. simpl in Hinv'.
    destruct Hinv as [Hnd _ Hisd _ _ _]. apply NoDup_app in Hnd as (Hnd & _).
    assert (Hsub : list_to_set popped ⊆ dom ns).
    { intros d Hd%elem_of_list_to_set. destruct (Hisd d ltac:(set_solver)) as [m (k & Hk)%dir_of_Some].
      apply elem_of_dom. by eexists. }
    apply subseteq_size in Hsub. rewrite size_list_to_set, size_dom in Hsub by done. lia.
  - destruct fuel' as [|fuel']; [lia|]. destruct stack as [|dir stack]; simpl; [done|].
    destruct (w_isdir _ _ _ Hinv dir) as [m Hm]; [set_solver|].
    pose proof (walk_step _ _ _ _ _ Hinv Hm) as Hinv'. pose proof Hm as (k & Hk)%dir_of_Some. rewrite Hk.
    apply (IH fuel' (dir :: popped)); [done|simpl; lia|lia].
Qed.
End Walk.

(** What the plan of a well-formed tree is. *)
Record plan_ok (ns : tree) (plan : list item) : Prop := {
  plan_nodup : NoDup (item_ino <$> plan);
  plan_items : forall c p n k, (c, p, n, k) ∈ plan <-> entry ns p n c /\ k = kind_of ns c;
  plan_first : parents_first {[ ROOT_INO ]} plan;
  plan_all : forall c, is_Some (ns !! c) -> c = ROOT_INO \/ c ∈ item_ino <$> plan;
}.

Lemma build_plan_ok s next : tree_ok (nodes s) next -> plan_ok (nodes s) (build_plan s).
Proof.
  intros Hok. unfold build_plan.
  destruct (walk_loop (nodes s) next Hok (S (size (nodes s))) [] [ROOT_INO] []) as (popped & Hinv);
    [by eapply walk_init|simpl; lia|].
  destruct Hinv as [_ Hdirs _ Hplan Hinos Hfirst]. rewrite app_nil_r in Hdirs.
  set (plan := plan_loop _ _ _ _) in *. clearbody plan.
  assert (Hall : forall b c, 0 <= b -> c < b -> is_Some (nodes s !! c) -> c = ROOT_INO \/ c ∈ item_ino <$> plan).
  { intros b c Hb. revert c. revert b Hb. refine (natlike_ind _ _ _).
    - intros c Hc Hs. pose proof (t_range _ _ Hok c Hs). lia.
    - intros b Hb IH c Hc Hs. destruct (decide (c = ROOT_INO)) as [->|Hr]; [by left|]. right.
      destruct (t_parent _ _ Hok c Hs Hr) as (p & n & He).
      destruct (t_entry _ _ Hok _ _ _ He) as (Hlt & _). destruct He as (m & Hm & Hl).
      assert (Hps : is_Some (nodes s !! p)) by (apply dir_of_Some in Hm as (k & ->); by eexists).
      assert (Hpp : p ∈ popped).
      { apply Hdirs. destruct (IH p ltac:(lia) Hps) as [->|Hi]; [by left|]. right.
        rewrite list_elem_of_fmap in Hi. destruct Hi as ([[[c' p'] n'] k'] & -> & Hi).
        exists (c', p', n', k'). split; [done|]. split; [done|]. apply Hplan in Hi as (_ & _ & ->).
        simpl in *. unfold item_ino in *. simpl in *. apply (kind_of_dir _ _ Hok); [done|by eexists]. }
      rewrite list_elem_of_fmap. exists (c, p, n, kind_of (nodes s) c). split; [done|].
      apply Hplan. split; [done|]. split; [by exists m|done]. }
  split; [done| |done|].
  - intros c p n k. rewrite Hplan. split; [by intros (_ & ? & ?)|]. intros (He & ->).
    split; [|done]. pose proof He as (m & Hm & Hl).
    apply Hdirs. assert (Hps : is_Some (nodes s !! p)) by (apply dir_of_Some in Hm as (k & ->); by eexists).
    pose proof (t_range _ _ Hok p Hps).
    destruct (Hall (p + 1) p) as [->|Hi]; [lia|lia|done|by left|]. right.
    rewrite list_elem_of_fmap in Hi. destruct Hi as ([[[c' p'] n'] k'] & -> & Hi).
    exists (c', p', n', k'). split; [done|]. split; [done|]. apply Hplan in Hi as (_ & _ & ->).
    simpl in *. unfold item_ino in *. simpl in *. apply (kind_of_dir _ _ Hok); [done|by eexists].
  - intros c Hs. pose proof (t_range _ _ Hok c Hs). apply (Hall (c + 1)); [lia..|done].
Qed.

(** The bound on the turns of the walk is never what ends it. *)
Lemma build_plan_fuel s next fuel :
  tree_ok (nodes s) next -> (S (size (nodes s)) <= fuel)%nat -> plan_loop fuel (nodes s) [ROOT_INO] [] = build_plan s.
Proof.
  intros Hok Hf. unfold build_plan. eapply plan_stable with (popped := []); [done|by eapply walk_init|simpl; lia|done].
Qed.
