(* ===== verification/EspfsLog.v ===== *)
(** * EspfsLog: the log of EspFs and its replay (fs/espfs/mod.rs)

    The flash between the start of a half and the cursor is a sequence of
    records ([log_at]); [fold_log] is what they mean.  [FsState::replay] computes
    exactly that fold and stops at the cursor, so the tree rebuilt at mount is
    the tree the records describe. *)

From S2P Require Import Prelude Flash Wire Inode Espfs EspfsFile EspfsTree EspfsPlan.

Open Scope Z_scope.

(** ** Records *)

Record lrec := mkRec { r_type : RecType; r_seq : Z; r_payload : list Z }.

Definition enc_rec (r : lrec) : list Z := encode_record (r_type r) (r_seq r) (r_payload r).
Definition rec_len (r : lrec) : Z := len (enc_rec r).
Definition log_bytes (recs : list lrec) : list Z := concat (enc_rec <$> recs).
Definition log_len (recs : list lrec) : Z := len (log_bytes recs).

(** What the encoder produces: fields that fit, and the payload its type needs. *)
Definition rec_ok (r : lrec) : Prop :=
  is_u32 (r_seq r) /\ bytes_ok (r_payload r) /\ len (r_payload r) + 19 < 2 ^ 32 /\
  (r_type r = Write \/ r_type r = Truncate -> 8 <= len (r_payload r)).

(** The effect of one record whose payload lies at [addr] of the flash. *)
Definition rec_effect (addr : Z) (r : lrec) (s : FsState) : FsState :=
  let p := r_payload r in
  match r_type r with
  | Write =>
    match dec_write_head (take 8 p) with
    | Some (ino, off) =>
      apply_write_extent ino off (saturating_sub (len p) WRITE_DATA_OFF) (u32 (addr + WRITE_DATA_OFF)) s
    | None => s
    end
  | MkFile | MkDir =>
    match dec_mk p with
    | Some (ino, parent, name) =>
      match from_utf8 name with
      | Some name => apply_mk (if decide (r_type r = MkDir) then Dir else File) ino parent name s
      | None => s
      end
    | None => s
    end
  | Truncate => match dec_trunc (take 8 p) with Some (ino, l) => apply_trunc ino l s | None => s end
  | Unlink =>
    match dec_unlink p with
    | Some (parent, name) => match from_utf8 name with Some name => apply_unlink parent name s | None => s end
    | None => s
    end
  end.

Definition bump_seq (q : Z) (s : FsState) : FsState := if next_seq s <=? q then set_next_seq (u32 (q + 1)) s else s.

Fixpoint fold_log (base : Z) (recs : list lrec) (s : FsState) : FsState :=
  match recs with
  | [] => s
  | r :: recs' => fold_log (base + rec_len r) recs' (bump_seq (r_seq r) (rec_effect (base + HEADER_LEN) r s))
  end.

Lemma rec_len_eq r : rec_ok r -> rec_len r = record_total_len (len (r_payload r)).
Proof. intros (_ & _ & Hl & _). by apply encode_record_length. Qed.

Lemma rec_len_bounds r : rec_ok r -> 16 + len (r_payload r) <= rec_len r < 2 ^ 32 /\ rec_len r mod 4 = 0.
Proof.
  intros Hr. rewrite rec_len_eq by done. destruct Hr as (_ & _ & Hl & _).
  pose proof (record_total_len_spec (len (r_payload r)) ltac:(lia) Hl). lia.
Qed.

Lemma log_len_nil : log_len [] = 0.
Proof. done. Qed.

Lemma log_len_cons r recs : log_len (r :: recs) = rec_len r + log_len recs.
Proof.
  unfold log_len, rec_len. change (log_bytes (r :: recs)) with (enc_rec r ++ log_bytes recs). rewrite length_app. lia.
Qed.

Lemma log_len_app recs recs' : log_len (recs ++ recs') = log_len recs + log_len recs'.
Proof. unfold log_len, log_bytes. rewrite fmap_app, concat_app, length_app. lia. Qed.

Lemma log_len_snoc recs r : log_len (recs ++ [r]) = log_len recs + rec_len r.
Proof. rewrite log_len_app, log_len_cons, log_len_nil. lia. Qed.

Lemma log_len_pos recs : 0 <= log_len recs.
Proof. unfold log_len. lia. Qed.

Lemma log_len_mod4 recs : Forall rec_ok recs -> log_len recs mod 4 = 0.
Proof.
  induction 1 as [|r recs Hr _ IH]; [done|]. rewrite log_len_cons.
  pose proof (rec_len_bounds r Hr) as [_ Hm]. rewrite Z.add_mod, Hm, IH by lia. done.
Qed.

Lemma length_recs recs : Forall rec_ok recs -> 16 * len recs <= log_len recs.
Proof.
  induction 1 as [|r recs Hr _ IH]; [done|]. rewrite log_len_cons. pose proof (rec_len_bounds r Hr). simpl length. lia.
Qed.

Lemma fold_log_app base recs recs' s :
  fold_log base (recs ++ recs') s = fold_log (base + log_len recs) recs' (fold_log base recs s).
Proof.
  revert base s. induction recs as [|r recs IH]; intros base s; simpl.
  - by rewrite log_len_nil, Z.add_0_r.
  - rewrite IH, log_len_cons. f_equal. lia.
Qed.

(** ** Replay *)

Section Replay.
Context {D : Type} `{NorFlashLaws D}.

Definition log_at (d : D) (base : Z) (recs : list lrec) : Prop := cells d base (log_len recs) = log_bytes recs.

(** No record starts at [cur]: the half ends there or the flash is erased. *)
Definition log_ends (d : D) (cur end_ : Z) : Prop := end_ < cur + HEADER_LEN \/ erased d cur HEADER_LEN.

Lemma log_at_cons d base r recs :
  log_at d base (r :: recs) <-> cells d base (rec_len r) = enc_rec r /\ log_at d (base + rec_len r) recs.
Proof.
  unfold log_at. rewrite log_len_cons. pose proof (log_len_pos recs).
  rewrite cells_app by (unfold rec_len; lia). unfold log_bytes. simpl. split.
  - intros Heq. apply app_inj_1 in Heq; [done|]. unfold rec_len. rewrite cells_length. lia.
  - intros [-> ->]. done.
Qed.

Lemma log_at_app d base recs recs' :
  log_at d base (recs ++ recs') <-> log_at d base recs /\ log_at d (base + log_len recs) recs'.
Proof.
  revert base. induction recs as [|r recs IH]; intros base; simpl.
  - rewrite log_len_nil, Z.add_0_r. split; [|by intros [_ ?]]. by split.
  - rewrite !log_at_cons, IH, log_len_cons, Z.add_assoc. tauto.
Qed.

Lemma log_at_frame d d' base recs :
  (forall a, base <= a < base + log_len recs -> nor_cell d a = nor_cell d' a) ->
  log_at d base recs -> log_at d' base recs.
Proof. intros Hc. unfold log_at. intros <-. symmetry. by apply cells_ext. Qed.

Lemma crc_loop_spec d fuel : forall crc o n,
  reads_ok d -> 0 <= o -> 0 <= n -> o + n <= FLASH_SIZE -> (Z.to_nat (n / 256) + 1 < fuel)%nat ->
  crc_loop fuel d crc o n = Some (crc32_update crc (cells d o n)).
Proof.
  induction fuel as [|fuel IH]; intros crc o n Hr Ho Hn He Hf; [lia|]. cbn [crc_loop].
  destruct (0 <? n) eqn:E; zbool.
  - assert (Hlim : 0 <= Z.min n 256 <= n) by lia.
    rewrite flash_read_total by (done || lia). unfold FLASH_SIZE in He.
    rewrite u32_small by lia. destruct (decide (n <= 256)).
    + rewrite Z.min_l by lia. replace (n - n) with 0 by lia.
      destruct fuel as [|fuel]; [lia|]. done.
    + rewrite Z.min_r by lia. rewrite IH; try (done || (unfold FLASH_SIZE; lia)).
      * rewrite <- crc32_update_app, <- cells_app by lia. do 3 f_equal. lia.
      * assert (n / 256 = (n - 256) / 256 + 1) as Hd.
        { replace n with ((n - 256) + 1 * 256) at 1 by lia. by rewrite Z.div_add by lia. }
        pose proof (Z.div_pos (n - 256) 256). lia.
  - replace n with 0 by lia. done.
Qed.

Lemma cells_slices d cur r :
  rec_ok r -> cells d cur (rec_len r) = enc_rec r ->
  cells d cur 16 = build_header (r_type r) (r_seq r) (r_payload r) /\
  cells d (cur + 16) (len (r_payload r)) = r_payload r.
Proof.
  intros Hr Hc. pose proof (rec_len_bounds r Hr) as [Hb _]. destruct Hr as (_ & _ & Hl & _).
  unfold enc_rec in Hc. rewrite encode_record_eq in Hc by done.
  pose proof (slice_cells d cur (rec_len r) 0 16) as H0'. rewrite Z.add_0_r in H0'.
  rewrite <- H0', <- (slice_cells d cur (rec_len r) 16) by lia. clear H0'. rewrite Hc. set (h := build_header _ _ _).
  assert (length h = 16%nat) as Hh by apply build_header_length. split.
  - rewrite slice_app_l by lia. apply slice_0_all. lia.
  - rewrite slice_app_r by lia. rewrite Hh. change (16 - Z.of_nat 16) with 0.
    rewrite slice_app_l by lia. by apply slice_0_all.
Qed.

Lemma replay_record_spec d s cur t seq p crc :
  reads_ok d -> 0 <= cur -> cur + len p <= FLASH_SIZE -> cells d cur (len p) = p ->
  (t = Write \/ t = Truncate -> 8 <= len p) ->
  replay_record d (mkHeader t seq (len p) crc) cur s = Some (rec_effect cur (mkRec t seq p) s).
Proof.
  intros Hr Hc He Hp Ht. unfold replay_record, rec_effect. cbn [h_plen h_rtype r_payload r_type].
  assert (H8 : t = Write \/ t = Truncate -> flash_read d cur 8 = Ok (take 8 p)).
  { intros Htt. specialize (Ht Htt). rewrite flash_read_total by (done || lia). f_equal.
    rewrite <- Hp. pose proof (slice_cells d cur (len p) 0 8) as Hs. rewrite Z.add_0_r in Hs.
    rewrite <- Hs by lia. unfold slice. rewrite drop_0. done. }
  destruct t; try (rewrite flash_read_total by (done || lia)); rewrite ?Hp; simpl; try done.
  - rewrite H8 by (by left). done.
  - rewrite H8 by (by right). done.
Qed.

Lemma replay_step_record d s cur end_ r :
  reads_ok d -> 0 <= cur -> cur + rec_len r <= end_ -> end_ <= FLASH_SIZE -> rec_ok r ->
  cells d cur (rec_len r) = enc_rec r ->
  replay_step d end_ s cur = Some (bump_seq (r_seq r) (rec_effect (cur + HEADER_LEN) r s), cur + rec_len r).
Proof.
  intros Hrd Hc He Hf Hr Hcells. destruct (cells_slices d cur r Hr Hcells) as [Hh Hp].
  pose proof (rec_len_bounds r Hr) as [Hb _]. pose proof (rec_len_eq r Hr) as Hle.
  destruct Hr as (Hq & Hok & Hl & Ht). unfold replay_step, HEADER_LEN, FLASH_SIZE in *.
  rewrite (u32_small (cur + 16)) by lia.
  replace (end_ <? cur + 16) with false by (symmetry; apply Z.ltb_ge; lia).
  rewrite flash_read_total by (done || (unfold FLASH_SIZE; lia)). rewrite Hh.
  rewrite <- (app_nil_r (build_header _ _ _)), parse_header_build by (done || (unfold is_u32 in *; lia)).
  cbn [mbind option_bind h_plen]. rewrite <- Hle.
  unfold checked_add32, U32_MAX. replace (cur + rec_len r <=? _) with true by (symmetry; apply Z.leb_le; lia).
  replace (end_ <? cur + rec_len r) with false by (symmetry; apply Z.ltb_ge; lia).
  rewrite crc_loop_spec; try (done || (unfold FLASH_SIZE; lia)).
  2:{ pose proof (Z.div_pos (len (r_payload r)) 256). lia. }
  cbn [mbind option_bind h_crc]. rewrite Hp, crc32_split, take12_build, Z.eqb_refl by lia. cbn [negb].
  rewrite replay_record_spec by (done || (unfold FLASH_SIZE; lia)). cbn [mbind option_bind h_seq].
  rewrite (u32_small (cur + rec_len r)) by lia. by destruct r.
Qed.

Lemma replay_step_stop d s cur end_ :
  reads_ok d -> 0 <= cur -> end_ <= FLASH_SIZE -> cur <= end_ -> log_ends d cur end_ -> replay_step d end_ s cur = None.
Proof.
  intros Hrd Hc Hf Hce Hend. unfold replay_step, HEADER_LEN, FLASH_SIZE in *. rewrite u32_small by lia.
  destruct (_ <? _) eqn:E; [done|]. zbool. destruct Hend as [He|He]; [unfold HEADER_LEN in He; lia|].
  rewrite flash_read_total by (done || (unfold FLASH_SIZE; lia)).
  unfold parse_header. rewrite cells_length. change (Z.of_nat (Z.to_nat 16) <? HEADER_LEN) with false.
  unfold rd_u16. rewrite !cells_at by lia.
  rewrite !He by (unfold HEADER_LEN; lia). done.
Qed.

Lemma replay_loop_spec d end_ : forall recs fuel s cur,
  reads_ok d -> 0 <= cur -> end_ <= FLASH_SIZE -> Forall rec_ok recs -> log_at d cur recs ->
  cur + log_len recs <= end_ -> log_ends d (cur + log_len recs) end_ -> (length recs < fuel)%nat ->
  replay_loop fuel d end_ s cur = (fold_log cur recs s, cur + log_len recs).
Proof.
  induction recs as [|r recs IH]; intros fuel s cur Hrd Hc Hf Hok Hlog Hle Hend Hfuel.
  - rewrite log_len_nil, Z.add_0_r in *. destruct fuel as [|fuel]; [done|]. simpl.
    by rewrite replay_step_stop.
  - apply Forall_cons in Hok as [Hr Hok]. apply log_at_cons in Hlog as [Hcells Hlog].
    rewrite log_len_cons in *. pose proof (rec_len_bounds r Hr). pose proof (log_len_pos recs).
    simpl in Hfuel. destruct fuel as [|fuel]; [lia|]. cbn [replay_loop].
    rewrite (replay_step_record _ _ _ _ r) by (done || lia). simpl fold_log.
    rewrite Z.add_assoc in *. rewrite (IH fuel) by (done || lia). done.
Qed.

(** The in-memory state that replaying [recs] produces. *)
Definition replayed (g : Geom) (active gen slot : Z) (recs : list lrec) : FsState :=
  let base := sel (half_off g) active in
  set_cursor (base + log_len recs) (fold_log base recs (empty_state g active gen slot)).

Lemma replay_spec d g active gen slot recs :
  let base := sel (half_off g) active in
  reads_ok d -> 0 <= base -> 0 <= half_size g -> base + half_size g <= FLASH_SIZE ->
  Forall rec_ok recs -> log_at d base recs -> log_len recs <= half_size g ->
  log_ends d (base + log_len recs) (base + half_size g) ->
  replay d active (empty_state g active gen slot) = replayed g active gen slot recs.
Proof.
  cbv zeta. intros Hrd Hb Hs Hf Hok Hlog Hle Hend. unfold replay, replayed. cbn [geom empty_state].
  rewrite replay_loop_spec with (recs := recs); try (done || lia).
  pose proof (length_recs recs Hok). unfold HEADER_LEN.
  assert (len recs <= half_size g / 16) by (apply Z.div_le_lower_bound; lia). lia.
Qed.
End Replay.
