(* ===== verification/EspfsCompact.v ===== *)
(** * EspfsCompact: compaction of the EspFs log ([FsState::compact])

    Compaction copies the live tree into the other half.  [cinv] is the state of
    that copy: the records written so far, the position, and everything outside
    the destination half as it was.  The records written for the whole plan
    rebuild the tree they were written from, with the same file contents. *)

From S2P Require Import Prelude Flash Wire Inode Espfs EspfsFile EspfsTree EspfsPlan EspfsLog.

Open Scope Z_scope.

Definition last_end (exts : list Extent) : Z := match last exts with Some e => e_end e | None => 0 end.

Lemma last_end_snoc exts e : last_end (exts ++ [e]) = e_end e.
Proof. unfold last_end. by rewrite last_snoc. Qed.

Lemma last_end_bound exts off : 0 <= off -> Forall (ext_ok off) exts -> 0 <= last_end exts <= off.
Proof.
  intros Ho Hok. unfold last_end. destruct (last exts) as [e|] eqn:E; [|lia].
  apply last_Some_elem_of in E. rewrite Forall_forall in Hok. destruct (Hok e E) as (? & ? & ?). unfold e_end in *. lia.
Qed.

Lemma bump_seq_nodes q s : nodes (bump_seq q s) = nodes s.
Proof. unfold bump_seq. by destruct (_ <=? _). Qed.

Lemma bump_seq_next_ino q s : next_ino (bump_seq q s) = next_ino s.
Proof. unfold bump_seq. by destruct (_ <=? _). Qed.

Lemma alter_file_next_ino g ino s : next_ino (alter_file g ino s) = next_ino s.
Proof. unfold alter_file. destruct (nodes s !! ino) as [[? []]|]; done. Qed.

Lemma fold_log_snoc base recs r s :
  fold_log base (recs ++ [r]) s =
  bump_seq (r_seq r) (rec_effect (base + log_len recs + HEADER_LEN) r (fold_log base recs s)).
Proof. by rewrite fold_log_app. Qed.

(** The effect of each kind of record, decoded. *)
Lemma rec_effect_mk addr t seq ino parent name s :
  t = MkFile \/ t = MkDir -> is_u32 ino -> is_u32 parent -> is_str name ->
  rec_effect addr (mkRec t seq (enc_mk ino parent (as_bytes name))) s =
  apply_mk (if decide (t = MkDir) then Dir else File) ino parent name s.
Proof.
  intros Ht Hi Hp Hn. unfold rec_effect. cbn [r_type r_payload].
  destruct Ht as [-> | ->]; by rewrite dec_mk_enc, from_utf8_as_bytes by done.
Qed.

Lemma rec_effect_write addr seq ino off data s :
  is_u32 ino -> is_u32 off ->
  rec_effect addr (mkRec Write seq (enc_write ino off data)) s =
  apply_write_extent ino off (len data) (u32 (addr + WRITE_DATA_OFF)) s.
Proof.
  intros Hi Ho. unfold rec_effect. cbn [r_type r_payload]. rewrite dec_write_head_enc by done.
  f_equal. unfold saturating_sub, enc_write, WRITE_DATA_OFF. rewrite !length_app, !le_bytes_length.
  replace (8 <=? _) with true by (symmetry; apply Z.leb_le; lia). lia.
Qed.

Lemma rec_effect_trunc addr seq ino l s :
  is_u32 ino -> is_u32 l ->
  rec_effect addr (mkRec Truncate seq (enc_trunc ino l)) s = apply_trunc ino l s.
Proof.
  intros Hi Ho. unfold rec_effect. cbn [r_type r_payload]. rewrite take_ge.
  - by rewrite dec_trunc_enc.
  - unfold enc_trunc. rewrite length_app, !le_bytes_length. done.
Qed.

Lemma rec_effect_unlink addr seq parent name s :
  is_u32 parent -> is_str name ->
  rec_effect addr (mkRec Unlink seq (enc_unlink parent (as_bytes name))) s = apply_unlink parent name s.
Proof.
  intros Hp Hn. unfold rec_effect. cbn [r_type r_payload]. by rewrite dec_unlink_enc, from_utf8_as_bytes by done.
Qed.

(** Payloads the operations write, with their sizes. *)
Lemma enc_mk_len ino parent name : len (enc_mk ino parent name) = 8 + len name.
Proof. unfold enc_mk. rewrite !length_app, !le_bytes_length. lia. Qed.
Lemma enc_write_len ino off data : len (enc_write ino off data) = 8 + len data.
Proof. unfold enc_write. rewrite !length_app, !le_bytes_length. lia. Qed.
Lemma enc_trunc_len ino l : len (enc_trunc ino l) = 8.
Proof. unfold enc_trunc. by rewrite length_app, !le_bytes_length. Qed.
Lemma enc_unlink_len parent name : len (enc_unlink parent name) = 4 + len name.
Proof. unfold enc_unlink. rewrite length_app, le_bytes_length. lia. Qed.
Lemma enc_mk_ok ino parent name : bytes_ok name -> bytes_ok (enc_mk ino parent name).
Proof. unfold enc_mk. rewrite !bytes_ok_app. auto using le_bytes_ok. Qed.
Lemma enc_write_ok ino off data : bytes_ok data -> bytes_ok (enc_write ino off data).
Proof. unfold enc_write. rewrite !bytes_ok_app. auto using le_bytes_ok. Qed.
Lemma enc_trunc_ok ino l : bytes_ok (enc_trunc ino l).
Proof. unfold enc_trunc. rewrite !bytes_ok_app. auto using le_bytes_ok. Qed.
Lemma enc_unlink_ok parent name : bytes_ok name -> bytes_ok (enc_unlink parent name).
Proof. unfold enc_unlink. rewrite !bytes_ok_app. auto using le_bytes_ok. Qed.

Section Copy.
Context {D : Type} `{NorFlashLaws D}.
Context (dbase dend : Z) (Hb0 : 0 <= dbase) (Hbe : dbase <= dend) (Hde : dend <= FLASH_SIZE).

(** The destination holds the records [recs], the rest of it is erased, and
    nothing else changed since [d0]. *)
Record cinv (d0 d : D) (p : Pos) (recs : list lrec) : Prop := {
  c_ok : Forall rec_ok recs;
  c_log : log_at d dbase recs;
  c_cur : p_cur p = dbase + log_len recs;
  c_end : p_cur p <= dend;
  c_erased : erased d (p_cur p) (dend - p_cur p);
  c_seq : is_u32 (p_seq p);
  c_frame : forall a, ~ (dbase <= a < dend) -> nor_cell d a = nor_cell d0 a;
}.

Lemma emit_Ok d p t payload d' p' :
  emit dend p t payload d = (d', Ok p') ->
  0 <= p_cur p <= dend -> bytes_ok payload -> len payload < 2 ^ 31 ->
  erased d (p_cur p) (dend - p_cur p) ->
  let r := mkRec t (p_seq p) payload in
  cells d' (p_cur p) (rec_len r) = enc_rec r /\
  p' = mkPos (p_cur p + rec_len r) (u32 (p_seq p + 1)) /\ p_cur p + rec_len r <= dend /\
  forall a, ~ (p_cur p <= a < p_cur p + rec_len r) -> nor_cell d' a = nor_cell d a.
Proof.
  cbv zeta. intros He Hc Hok Hl Her. unfold emit in He.
  set (r := mkRec t (p_seq p) payload). change (encode_record t (p_seq p) payload) with (enc_rec r) in He.
  change (len (enc_rec r)) with (rec_len r) in He.
  assert (Hrl : 0 <= rec_len r < 2 ^ 31 + 20).
  { unfold rec_len, enc_rec. rewrite encode_record_length by (simpl; lia).
    pose proof (record_total_len_spec (len payload)). simpl. lia. }
  unfold FLASH_SIZE in *. rewrite (u32_small (rec_len r)), (u32_small (p_cur p + rec_len r)) in He by lia.
  destruct (dend <? _) eqn:E; [kres|]. zbool. kres. apply flash_write_Ok in Hm as Hw.
  - destruct Hw as [Hw _]. split; [exact Hw|]. split; [done|]. split; [done|].
    intros a Ha. by eapply flash_write_frame.
  - apply encode_record_ok; [simpl; lia|done].
  - eapply erased_mono; [exact Her|lia|]. change (len (enc_rec r)) with (rec_len r). lia.
Qed.

Lemma emit_cinv d0 d p recs t payload d' p' :
  cinv d0 d p recs -> emit dend p t payload d = (d', Ok p') -> bytes_ok payload -> len payload < 2 ^ 31 ->
  (t = Write \/ t = Truncate -> 8 <= len payload) ->
  let r := mkRec t (p_seq p) payload in
  cinv d0 d' p' (recs ++ [r]) /\ cells d' (p_cur p) (rec_len r) = enc_rec r /\ p_cur p' = p_cur p + rec_len r /\
  forall a, ~ (p_cur p <= a < dend) -> nor_cell d' a = nor_cell d a.
Proof.
  cbv zeta. intros [Hok Hlog Hcur Hend Her Hq Hfr] He Hp Hl Ht.
  pose proof (log_len_pos recs) as Hlp.
  destruct (emit_Ok _ _ _ _ _ _ He) as (Hc & -> & Hle & Hf'); [lia|done..|].
  set (r := mkRec t (p_seq p) payload) in *. cbn [p_cur p_seq] in *.
  assert (Hr : rec_ok r) by (split_and!; [done|done|simpl; lia|done]).
  pose proof (rec_len_bounds r Hr) as [Hrl _]. cbn [r_payload r] in Hrl.
  assert (Hf2 : forall a, ~ (p_cur p <= a < dend) -> nor_cell d' a = nor_cell d a) by (intros; apply Hf'; lia).
  split; [|done]. split; cbn [p_cur p_seq].
  - apply Forall_app. split; [done|by apply Forall_singleton].
  - apply log_at_app. split.
    + eapply log_at_frame; [|exact Hlog]. intros a Ha. symmetry. apply Hf2. lia.
    + apply log_at_cons. rewrite <- Hcur. split; [done|]. unfold log_at. by rewrite log_len_nil.
  - rewrite log_len_snoc. lia.
  - done.
  - intros a Ha. rewrite Hf' by lia. apply Her. lia.
  - apply u32_range.
  - intros a Ha. rewrite Hf2 by lia. by apply Hfr.
Qed.

(** A failed record leaves everything outside the rest of the half alone. *)
Lemma emit_frame d p t payload d' r :
  emit dend p t payload d = (d', r) -> 0 <= p_cur p -> len payload < 2 ^ 31 -> p_cur p <= dend ->
  forall a, ~ (p_cur p <= a < dend) -> nor_cell d' a = nor_cell d a.
Proof.
  intros He Hc Hl Hd a Ha. unfold emit in He. unfold FLASH_SIZE in *.
  set (rec := encode_record t (p_seq p) payload) in *.
  assert (Hrl : 0 <= len rec < 2 ^ 31 + 20).
  { unfold rec. rewrite encode_record_length by lia. pose proof (record_total_len_spec (len payload)). lia. }
  rewrite (u32_small (len rec)), (u32_small (p_cur p + len rec)) in He by lia.
  destruct (dend <? _) eqn:E; [by injection He as <- _|]. zbool.
  unfold mbind, ST_bind in He. destruct (flash_write _ _ _) as [d1 r1] eqn:E1.
  assert (d' = d1) as -> by (by destruct r1; injection He).
  eapply flash_write_frame; [exact E1|]. lia.
Qed.

(** *** One file *)

Section File.
Context (s : FsState) (d0 : D) (st0 : FsState) (ino : Z) (f : FileData) (slo shi : Z).
Context (Hnode : nodes s !! ino = Some (mkNode File (BFile f))) (Hwf : wf_file f) (Hino : is_u32 ino).
Context (Hin : Forall (ext_in slo shi) (f_extents f)) (Hslo : 0 <= slo) (Hshi : shi <= FLASH_SIZE).
Context (Hdisj : shi <= dbase \/ dend <= slo).
Context (N : tree) (ni : Z).

(** The copy of [f] up to offset [coff]: [exts] hold its first [coff] bytes. *)
Record chinv (d : D) (p : Pos) (recs : list lrec) (coff : Z) (exts : list Extent) : Prop := {
  ch_cinv : cinv d0 d p recs;
  ch_coff : 0 <= coff <= f_size f;
  ch_exts : Forall (ext_ok coff) exts;
  ch_sorted : StronglySorted before exts;
  ch_in : Forall (ext_in dbase (p_cur p)) exts;
  ch_bytes : forall i, 0 <= i < coff ->
    match byte_addr exts i with Some a => nor_cell d a | None => 0 end = file_byte d0 f i;
  ch_nodes : nodes (fold_log dbase recs st0) =
    <[ino := mkNode File (BFile (mkFileData (last_end exts) exts))]> N;
  ch_next : next_ino (fold_log dbase recs st0) = ni;
}.

Lemma chinv_source d p recs coff exts :
  chinv d p recs coff exts -> contents d f = contents d0 f.
Proof.
  intros Hch. eapply contents_frame; [exact Hin|]. intros a Ha. apply (c_frame _ _ _ _ (ch_cinv _ _ _ _ _ Hch)). lia.
Qed.

Lemma ext_ok_mono off off' exts : off <= off' -> Forall (ext_ok off) exts -> Forall (ext_ok off') exts.
Proof. intros Hle Hall. eapply Forall_impl; [exact Hall|]. intros e (? & ? & ?). unfold ext_ok. lia. Qed.

Lemma byte_addr_beyond off exts i : Forall (ext_ok off) exts -> off <= i -> byte_addr exts i = None.
Proof.
  intros Hok Hi. destruct (byte_addr exts i) eqn:E; [|done].
  eapply byte_addr_range in E; [|exact Hok]. lia.
Qed.

Lemma chinv_skip d p recs coff exts clen tmp :
  chinv d p recs coff exts -> 0 < clen -> coff + clen <= f_size f ->
  tmp = read_spec (contents d0 f) coff clen -> forallb (fun b => b =? 0) tmp = true ->
  chinv d p recs (coff + clen) exts.
Proof.
  intros [] Hl Hle Htmp Hz. split; try done; [lia|eapply ext_ok_mono; [|done]; lia|].
  intros i Hi. destruct (decide (i < coff)); [apply ch_bytes0; lia|].
  rewrite (byte_addr_beyond coff) by (done || lia). symmetry.
  rewrite forallb_forall in Hz. apply Z.eqb_eq, Hz. subst tmp. rewrite <- list_elem_of_In.
  apply (list_elem_of_lookup_2 _ (Z.to_nat (i - coff))). unfold read_spec, slice.
  rewrite lookup_take_lt, lookup_drop, contents_lookup by lia.
  replace (_ <? f_size f) with true by (symmetry; apply Z.ltb_lt; lia). do 2 f_equal. lia.
Qed.

Lemma chinv_write d p recs coff exts clen tmp d' p' :
  chinv d p recs coff exts -> 0 < clen <= COMPACT_CHUNK -> coff + clen <= f_size f ->
  tmp = read_spec (contents d0 f) coff clen ->
  emit dend p Write (enc_write ino coff tmp) d = (d', Ok p') ->
  (exists recs', chinv d' p' recs' (coff + clen)
    (exts ++ [mkExtent coff clen (u32 (p_cur p + HEADER_LEN + WRITE_DATA_OFF))])) /\
  p_cur p <= p_cur p' /\ (forall a, ~ (p_cur p <= a < dend) -> nor_cell d' a = nor_cell d a).
Proof.
  intros [] Hl Hle Htmp He. unfold COMPACT_CHUNK in Hl. pose proof (wf_size f Hwf) as Hsz.
  assert (Htl : len tmp = clen).
  { subst tmp. unfold read_spec. rewrite slice_length; rewrite ?contents_length; lia. }
  assert (Hto : bytes_ok tmp) by (subst tmp; apply bytes_ok_take, bytes_ok_drop, contents_ok).
  eapply emit_cinv in He as (Hc' & Hcells & Hcur & Hfr);
    [|exact ch_cinv0|by apply enc_write_ok|rewrite enc_write_len; lia|rewrite enc_write_len; lia].
  set (r := mkRec Write (p_seq p) (enc_write ino coff tmp)) in *.
  assert (Hr : rec_ok r).
  { pose proof (c_ok _ _ _ _ Hc') as Hall. apply Forall_app in Hall as [_ Hall]. exact (Forall_inv Hall). }
  pose proof (rec_len_bounds r Hr) as [Hrl _]. cbn [r r_payload] in Hrl. rewrite enc_write_len in Hrl.
  pose proof (c_cur _ _ _ _ ch_cinv0) as Hpc. pose proof (log_len_pos recs) as Hlp.
  pose proof (c_end _ _ _ _ Hc') as Hpe. unfold HEADER_LEN, WRITE_DATA_OFF, FLASH_SIZE in *.
  split; [|split; [lia|done]]. exists (recs ++ [r]). rewrite u32_small by lia.
  assert (Hdata : cells d' (p_cur p + 16 + 8) clen = tmp).
  { destruct (cells_slices d' (p_cur p) r Hr Hcells) as [_ Hpay]. cbn [r r_payload] in Hpay.
    rewrite enc_write_len in Hpay.
    rewrite <- (slice_cells d' (p_cur p + 16) (8 + len tmp) 8 clen), Hpay by lia.
    unfold enc_write. rewrite app_assoc, slice_app_r; rewrite length_app, !le_bytes_length; [|lia].
    by apply slice_0_all. }
  split.
  - done.
  - lia.
  - apply Forall_app. split; [eapply ext_ok_mono; [|done]; lia|].
    apply Forall_singleton. unfold ext_ok, e_end. simpl. lia.
  - apply sorted_snoc; [done..|lia].
  - apply Forall_app. split.
    + eapply Forall_impl; [exact ch_in0|]. intros e []. unfold ext_in. lia.
    + apply Forall_singleton. unfold ext_in. simpl. lia.
  - intros i Hi. rewrite byte_addr_app. destruct (decide (i < coff)).
    + rewrite <- ch_bytes0 by lia. destruct (byte_addr exts i) as [a|] eqn:Ea.
      * apply Hfr. intros Ha. clear - Ea ch_in0 Ha. induction ch_in0 as [|e es He _ IH]; simpl in Ea; [done|].
        destruct (covers i e) eqn:Hcov; [|by apply IH]. injection Ea as <-.
        apply covers_true in Hcov. destruct He. unfold e_end in *. lia.
      * simpl. unfold covers. cbn [e_off]. by replace (coff <=? i) with false by (symmetry; apply Z.leb_gt; lia).
    + rewrite (byte_addr_beyond coff exts) by (done || lia). cbn [byte_addr].
      replace (covers i _) with true by (symmetry; apply covers_true; unfold e_end; simpl; lia).
      cbn [e_flash e_off]. rewrite <- (cells_at d' _ clen) by lia. rewrite Hdata. subst tmp.
      unfold at_, read_spec, slice. rewrite lookup_take_lt, lookup_drop, contents_lookup by lia.
      replace (_ <? f_size f) with true by (symmetry; apply Z.ltb_lt; lia). simpl. f_equal. lia.
  - rewrite fold_log_snoc, bump_seq_nodes. subst r.
    rewrite rec_effect_write by (unfold is_u32 in *; lia).
    unfold apply_write_extent. rewrite nodes_alter_file, ch_nodes0. unfold file_nodes.
    rewrite lookup_insert_eq, insert_insert_eq. do 3 f_equal.
    pose proof (last_end_bound exts coff ltac:(lia) ch_exts0).
    rewrite splice_append by (done || lia). rewrite last_end_snoc. unfold e_end. cbn [e_off e_len].
    unfold WRITE_DATA_OFF, HEADER_LEN. rewrite Htl, u32_small by lia. by rewrite <- Hpc.
  - rewrite fold_log_snoc, bump_seq_next_ino. subst r.
    rewrite rec_effect_write by (unfold is_u32 in *; lia).
    unfold apply_write_extent. by rewrite alter_file_next_ino.
Qed.

Lemma copy_chunks_Ok fuel : forall d p recs coff exts d' p' exts',
  chinv d p recs coff exts -> f_size f - coff <= COMPACT_CHUNK * Z.of_nat fuel ->
  copy_chunks fuel s dend ino (f_size f) coff p exts d = (d', Ok (p', exts')) ->
  (exists recs', chinv d' p' recs' (f_size f) exts') /\
  p_cur p <= p_cur p' /\ (forall a, ~ (p_cur p <= a < dend) -> nor_cell d' a = nor_cell d a).
Proof.
  pose proof (wf_size f Hwf) as Hsz.
  induction fuel as [|fuel IH]; intros d p recs coff exts d' p' exts' Hch Hfuel He; simpl in He.
  { kres. split; [|split; [lia|done]]. pose proof (ch_coff _ _ _ _ _ Hch).
    assert (f_size f = coff) as -> by lia. by eexists. }
  destruct (coff <? f_size f) eqn:E; zbool.
  2:{ kres. split; [|split; [lia|done]]. pose proof (ch_coff _ _ _ _ _ Hch).
      assert (f_size f = coff) as -> by lia. by eexists. }
  pose proof (ch_coff _ _ _ _ _ Hch) as Hco.
  unfold mbind at 1, ST_bind at 1, lift at 1 in He.
  destruct (read_file s d ino coff _) as [tmp|] eqn:Er; [|kres].
  eapply read_file_Ok in Er; try done.
  2:{ eapply Forall_impl; [exact Hin|]. intros e []. unfold ext_in. lia. }
  2,3: unfold COMPACT_CHUNK; lia.
  rewrite (chinv_source _ _ _ _ _ Hch) in Er. set (clen := Z.min COMPACT_CHUNK (f_size f - coff)) in *.
  assert (0 < clen <= COMPACT_CHUNK /\ coff + clen <= f_size f /\
    f_size f - (coff + clen) <= COMPACT_CHUNK * Z.of_nat fuel) as (Hc1 & Hc2 & Hc3)
    by (unfold clen, COMPACT_CHUNK in *; lia).
  rewrite (u32_small (coff + clen)) in He by lia.
  destruct (forallb _ tmp) eqn:Ez.
  - eapply IH; [|exact Hc3|exact He]. eapply chinv_skip; [exact Hch|lia|done|exact Er|done].
  - kres. rename a into p1, s0 into d1.
    eapply chinv_write in Hm as ((recs1 & Hch1) & Hle1 & Hfr1); [|done..].
    eapply IH in He as (Hex & Hle2 & Hfr2); [|exact Hch1|done].
    split; [done|]. split; [lia|]. intros a Ha. rewrite Hfr2 by lia. by apply Hfr1.
Qed.
End File.

(** *** The whole plan *)

Definition visible (X : gset Z) (m : gmap string Z) : gmap string Z := filter (fun kv => kv.2 ∈ X) m.

Lemma visible_Some X m n c : visible X m !! n = Some c <-> m !! n = Some c /\ c ∈ X.
Proof. unfold visible. by rewrite map_lookup_filter_Some. Qed.

Section Plan.
Context (s : FsState) (d0 : D) (next slo shi : Z).
Context (Hok : tree_ok (nodes s) next) (Hnext : is_u32 next).
Context (Hfiles : forall i k f, nodes s !! i = Some (mkNode k (BFile f)) -> Forall (ext_in slo shi) (f_extents f)).
Context (Hslo : 0 <= slo) (Hshi : shi <= FLASH_SIZE) (Hdisj : shi <= dbase \/ dend <= slo).
Context (st0 : FsState) (Hst0 : nodes st0 = {[ ROOT_INO := mkNode Dir (BDir ∅) ]}) (Hni0 : next_ino st0 = 2).

(** The copy of file [f]: extents in the new half with the same bytes. *)
Record copied (d : D) (cur : Z) (f : FileData) (exts : list Extent) : Prop := {
  cp_exts : Forall (ext_ok (f_size f)) exts;
  cp_sorted : StronglySorted before exts;
  cp_in : Forall (ext_in dbase cur) exts;
  cp_bytes : forall i, 0 <= i < f_size f ->
    match byte_addr exts i with Some a => nor_cell d a | None => 0 end = file_byte d0 f i;
}.

Lemma copied_frame d d' cur cur' f exts :
  copied d cur f exts -> cur <= cur' -> (forall a, dbase <= a < cur -> nor_cell d' a = nor_cell d a) ->
  copied d' cur' f exts.
Proof.
  intros [] Hle Hfr. split; [done|done| |].
  - eapply Forall_impl; [exact cp_in0|]. intros e []. unfold ext_in. lia.
  - intros i Hi. rewrite <- cp_bytes0 by done.
    pose proof (file_byte_frame d' d (mkFileData (f_size f) exts) dbase cur i cp_in0 Hfr) as Hb.
    exact Hb.
Qed.

(** The tree [N] rebuilt so far: the nodes of [X], each directory with the entries that lead into [X]. *)
Record pinv (X : gset Z) (d : D) (p : Pos) (recs : list lrec) (ne : gmap Z (list Extent)) : Prop := {
  pi_cinv : cinv d0 d p recs;
  pi_root : ROOT_INO ∈ X;
  pi_out : forall i, i ∉ X -> nodes (fold_log dbase recs st0) !! i = None;
  pi_dir : forall i m, i ∈ X -> dir_of (nodes s) i = Some m ->
    nodes (fold_log dbase recs st0) !! i = Some (mkNode Dir (BDir (visible X m)));
  pi_file : forall i k f, i ∈ X -> nodes s !! i = Some (mkNode k (BFile f)) -> exists exts,
    ne !! i = Some exts /\ copied d (p_cur p) f exts /\
    nodes (fold_log dbase recs st0) !! i = Some (mkNode File (BFile (mkFileData (f_size f) exts)));
  pi_closed : forall q n c, entry (nodes s) q n c -> c ∈ X -> q ∈ X;
  pi_next : next_ino (fold_log dbase recs st0) <= next;
  pi_below : forall i, i ∈ X -> i < next_ino (fold_log dbase recs st0);
}.

Lemma pinv_init d p :
  cinv d0 d p [] -> pinv {[ ROOT_INO ]} d p [] ∅.
Proof.
  intros Hc. pose proof (t_root _ _ Hok) as [mr Hr].
  assert (Hr2 : is_Some (nodes s !! ROOT_INO)) by (apply dir_of_Some in Hr as (? & ->); by eexists).
  split; simpl; rewrite ?Hst0, ?Hni0.
  - done.
  - set_solver.
  - intros i Hi. apply lookup_singleton_ne. set_solver.
  - intros i m ->%elem_of_singleton Hm. rewrite lookup_singleton_eq. do 3 f_equal. symmetry.
    apply map_empty. intros n. destruct (visible _ m !! n) as [c|] eqn:E; [|done]. exfalso.
    apply visible_Some in E as [Hl ->%elem_of_singleton].
    eapply (child_not_root _ _ Hok ROOT_INO n); [by exists m|done].
  - intros i k f ->%elem_of_singleton Hf. exfalso. apply dir_of_Some in Hr as (? & Hr). congruence.
  - intros q n c He ->%elem_of_singleton. exfalso. by eapply (child_not_root _ _ Hok q n).
  - pose proof (t_range _ _ Hok ROOT_INO Hr2). unfold ROOT_INO in *. lia.
  - intros i ->%elem_of_singleton. unfold ROOT_INO. lia.
Qed.

Section Step.
Context (X : gset Z) (d : D) (p : Pos) (recs : list lrec) (ne : gmap Z (list Extent)).
Context (Hpi : pinv X d p recs ne) (c par : Z) (n : string) (k : InodeKind).
Context (Hpar : par ∈ X) (Hc : c ∉ X) (He : entry (nodes s) par n c) (Hk : k = kind_of (nodes s) c).

Local Lemma kind_cases :
  (k = Dir /\ exists m, dir_of (nodes s) c = Some m) \/
  (k = File /\ exists f, nodes s !! c = Some (mkNode File (BFile f)) /\ wf_file f).
Proof.
  destruct (t_entry _ _ Hok _ _ _ He) as (_ & [[kc b] Hn] & _).
  pose proof (t_nodes _ _ Hok c _ Hn) as Hno. unfold node_ok in Hno. simpl in Hno.
  unfold kind_of in Hk. rewrite Hn in Hk. simpl in Hk. destruct b as [m|f].
  - left. subst. split; [done|]. exists m. apply dir_of_Some. by eexists.
  - right. destruct Hno as [-> Hwf]. split; [done|]. by exists f.
Qed.

Local Lemma nums : is_u32 c /\ is_u32 par /\ par < c < next.
Proof.
  destruct (t_entry _ _ Hok _ _ _ He) as (Hlt & Hs & _). pose proof (t_range _ _ Hok c Hs).
  destruct He as (m & (kp & Hp)%dir_of_Some & _).
  pose proof (t_range _ _ Hok par ltac:(by eexists)). unfold is_u32 in *. lia.
Qed.

(** The tree after the record that creates [c]. *)
Local Lemma mk_step seq :
  let st := bump_seq seq (rec_effect (p_cur p + HEADER_LEN)
    (mkRec (if decide (k = Dir) then MkDir else MkFile) seq (enc_mk c par (as_bytes n)))
    (fold_log dbase recs st0)) in
  (forall i, i ∉ X ∪ {[ c ]} -> nodes st !! i = None) /\
  (forall i m, i ∈ X ∪ {[ c ]} -> dir_of (nodes s) i = Some m ->
    nodes st !! i = Some (mkNode Dir (BDir (visible (X ∪ {[ c ]}) m)))) /\
  (forall i, i ∈ X -> dir_of (nodes s) i = None -> nodes st !! i = nodes (fold_log dbase recs st0) !! i) /\
  (k = File -> nodes st !! c = Some (mkNode File (BFile (mkFileData 0 [])))) /\
  next_ino st <= next /\ (forall i, i ∈ X ∪ {[ c ]} -> i < next_ino st).
Proof.
  cbv zeta. destruct nums as (Hcu & Hpu & Hlt). unfold is_u32 in *.
  destruct (t_entry _ _ Hok _ _ _ He) as (_ & _ & Hstr & _).
  pose proof He as (m & Hm & Hl).
  rewrite bump_seq_nodes, bump_seq_next_ino.
  rewrite rec_effect_mk by (done || (destruct (decide _); [by right|by left])).
  replace (if decide ((if decide (k = Dir) then MkDir else MkFile) = MkDir) then Dir else File) with k.
  2:{ destruct kind_cases as [[-> _]|[-> _]]; done. }
  set (st := fold_log dbase recs st0). pose proof (pi_out _ _ _ _ _ Hpi c Hc) as HcN. fold st in HcN.
  pose proof (pi_dir _ _ _ _ _ Hpi par m Hpar Hm) as HpN. fold st in HpN.
  destruct (mk_nodes_eq k c par n (nodes st) (visible X m)) as (k' & HpN' & Hmk);
    [done|apply dir_of_Some; by eexists|].
  assert (k' = Dir) as -> by congruence. assert (c <> par) as Hcp by lia.
  assert (Hvp : <[n:=c]> (visible X m) = visible (X ∪ {[c]}) m).
  { apply map_eq. intros n'. apply option_eq. intros c'. rewrite lookup_insert_Some, !visible_Some. split.
    - intros [[<- <-]|[? [? ?]]]; set_solver.
    - intros [Hl' Hc']. destruct (decide (n = n')) as [->|]; [left; split; congruence|]. right.
      split; [done|]. split; [done|]. apply elem_of_union in Hc' as [| ->%elem_of_singleton]; [done|].
      destruct (t_uniq _ _ Hok par par n n' c); [done|by exists m|done]. }
  assert (Hvis : forall i mi, dir_of (nodes s) i = Some mi -> i <> par -> visible (X ∪ {[c]}) mi = visible X mi).
  { intros i mi Hmi Hip. apply map_eq. intros n'. apply option_eq. intros c'. rewrite !visible_Some.
    split; [|set_solver]. intros [Hl' [| ->%elem_of_singleton]%elem_of_union]; [done|].
    destruct (t_uniq _ _ Hok i par n' n c); [by exists mi|done|done]. }
  rewrite nodes_apply_mk, Hmk. split_and!.
  - intros i Hi. rewrite !lookup_insert_ne by set_solver. apply (pi_out _ _ _ _ _ Hpi). set_solver.
  - intros i mi Hi Hmi. destruct (decide (i = par)) as [->|Hip].
    { rewrite lookup_insert_eq, Hvp. congruence. }
    rewrite lookup_insert_ne, (Hvis i) by done. destruct (decide (i = c)) as [->|Hic].
    + rewrite lookup_insert_eq. destruct kind_cases as [[-> _]|[_ (f & Hf & _)]].
      2:{ apply dir_of_Some in Hmi as (? & ?). congruence. }
      do 3 f_equal. symmetry. apply map_empty. intros n'.
      destruct (visible X mi !! n') as [c'|] eqn:E; [|done]. apply visible_Some in E as [Hl' Hc'].
      exfalso. apply Hc. eapply (pi_closed _ _ _ _ _ Hpi c n' c'); [by exists mi|done].
    + rewrite lookup_insert_ne by done. apply (pi_dir _ _ _ _ _ Hpi); set_solver.
  - intros i Hi Hd. rewrite !lookup_insert_ne; [done|set_solver|]. congruence.
  - intros ->. by rewrite lookup_insert_ne, lookup_insert_eq by done.
  - unfold apply_mk. simpl. pose proof (pi_next _ _ _ _ _ Hpi) as Hnx. fold st in Hnx.
    destruct (_ <=? c) eqn:E; simpl; [rewrite u32_small by lia|]; lia.
  - intros i Hi. unfold apply_mk. simpl. pose proof (pi_below _ _ _ _ _ Hpi) as Hb. fold st in Hb.
    apply elem_of_union in Hi as [Hi| ->%elem_of_singleton].
    + specialize (Hb i Hi). destruct (_ <=? c) eqn:E; zbool; simpl; [rewrite u32_small by lia|]; lia.
    + destruct (_ <=? c) eqn:E; zbool; simpl; [rewrite u32_small by lia|]; lia.
Qed.

Local Lemma name_len : len (as_bytes n) <= MAX_NAME.
Proof. destruct (t_entry _ _ Hok _ _ _ He) as (_ & _ & _ & Hl). exact Hl. Qed.

(** Older files keep their copies while [cur] grows. *)
Local Lemma old_file d' p' (ne' : gmap Z (list Extent)) (st : FsState) i kf f :
  p_cur p <= p_cur p' -> (forall a, dbase <= a < p_cur p -> nor_cell d' a = nor_cell d a) ->
  (forall j, j ∈ X -> ne' !! j = ne !! j) ->
  (forall j, j ∈ X -> dir_of (nodes s) j = None -> nodes st !! j = nodes (fold_log dbase recs st0) !! j) ->
  i ∈ X -> nodes s !! i = Some (mkNode kf (BFile f)) -> exists exts,
    ne' !! i = Some exts /\ copied d' (p_cur p') f exts /\
    nodes st !! i = Some (mkNode File (BFile (mkFileData (f_size f) exts))).
Proof.
  intros Hle Hfr Hne Hst Hi Hf. destruct (pi_file _ _ _ _ _ Hpi i kf f Hi Hf) as (exts & Hn & Hcp & HN).
  exists exts. rewrite Hne, Hst by (done || (unfold dir_of; by rewrite Hf)).
  split; [done|]. split; [|done]. by eapply copied_frame.
Qed.

Local Lemma closed_step q n' c' : entry (nodes s) q n' c' -> c' ∈ X ∪ {[ c ]} -> q ∈ X ∪ {[ c ]}.
Proof.
  intros He' [Hc'| ->%elem_of_singleton]%elem_of_union.
  - apply elem_of_union_l. by eapply (pi_closed _ _ _ _ _ Hpi).
  - destruct (t_uniq _ _ Hok _ _ _ _ _ He He') as [<- _]. by apply elem_of_union_l.
Qed.

Lemma copy_dir d' p' :
  k = Dir -> emit dend p MkDir (enc_mk c par (as_bytes n)) d = (d', Ok p') ->
  pinv (X ∪ {[ c ]}) d' p' (recs ++ [mkRec MkDir (p_seq p) (enc_mk c par (as_bytes n))]) ne.
Proof.
  intros Hd Hem. pose proof name_len as Hnl. unfold MAX_NAME in Hnl.
  eapply emit_cinv in Hem as (Hc' & Hcells & Hcur & Hfr);
    [|apply Hpi|apply enc_mk_ok, as_bytes_ok|rewrite enc_mk_len; lia|by intros [|]].
  pose proof (mk_step (p_seq p)) as (Hout & Hdir & Hold & _ & Hnx & Hbl).
  pose proof (c_cur _ _ _ _ (pi_cinv _ _ _ _ _ Hpi)) as Hpc.
  rewrite decide_True in Hout, Hdir, Hold, Hnx, Hbl by done. rewrite Hpc in Hout, Hdir, Hold, Hnx, Hbl.
  assert (Hrl : 0 <= rec_len (mkRec MkDir (p_seq p) (enc_mk c par (as_bytes n)))) by (unfold rec_len; lia).
  pose proof (log_len_pos recs).
  split; try rewrite fold_log_snoc; cbn [r_seq]; try done.
  - apply elem_of_union_l, Hpi.
  - intros i kf f Hi Hf. eapply old_file; [lia| |done|exact Hold| |exact Hf].
    + intros a Ha. apply Hfr. lia.
    + apply elem_of_union in Hi as [Hi| ->%elem_of_singleton]; [done|].
      destruct kind_cases as [[_ [m Hm]]|[? _]]; [|congruence].
      apply dir_of_Some in Hm as (? & ?). congruence.
  - apply closed_step.
Qed.

Lemma copy_file f d' p' d'' p'' exts d3 p3 :
  k = File -> nodes s !! c = Some (mkNode File (BFile f)) ->
  emit dend p MkFile (enc_mk c par (as_bytes n)) d = (d', Ok p') ->
  copy_chunks (S (Z.to_nat (f_size f / COMPACT_CHUNK + 1))) s dend c (f_size f) 0 p' [] d' = (d'', Ok (p'', exts)) ->
  (if match last exts with Some e => u32 (e_off e + e_len e) | None => 0 end <? f_size f then emit dend p'' Truncate (enc_trunc c (f_size f)) else mret p'') d'' = (d3, Ok p3) ->
  exists recs', pinv (X ∪ {[ c ]}) d3 p3 recs' (<[c := exts]> ne).
Proof.
  intros Hd Hnode Hem Hch Htr. pose proof name_len as Hnl. unfold MAX_NAME in Hnl.
  destruct nums as (Hcu & Hpu & Hlt).
  destruct (node_file _ _ _ _ _ Hok Hnode) as [_ Hwf]. pose proof (wf_size f Hwf) as Hsz.
  eapply emit_cinv in Hem as (Hc' & Hcells & Hcur & Hfr);
    [|apply Hpi|apply enc_mk_ok, as_bytes_ok|rewrite enc_mk_len; lia|by intros [|]].
  pose proof (mk_step (p_seq p)) as (Hout & Hdir & Hold & Hnew & Hnx & Hbl).
  pose proof (c_cur _ _ _ _ (pi_cinv _ _ _ _ _ Hpi)) as Hpc.
  rewrite decide_False in Hout, Hdir, Hold, Hnew, Hnx, Hbl by congruence.
  rewrite Hpc in Hout, Hdir, Hold, Hnew, Hnx, Hbl. specialize (Hnew Hd).
  set (r := mkRec MkFile (p_seq p) (enc_mk c par (as_bytes n))) in *.
  assert (Hrl : 0 <= rec_len r) by (unfold rec_len; lia). pose proof (log_len_pos recs).
  set (st := bump_seq (p_seq p) _) in *.
  assert (Hst : st = fold_log dbase (recs ++ [r]) st0) by (by rewrite fold_log_snoc).
  assert (Hchi : chinv d0 st0 c f (nodes st) (next_ino st) d' p' (recs ++ [r]) 0 []).
  { split; [exact Hc'|lia|constructor|constructor|constructor|intros; lia| |by rewrite Hst].
    rewrite <- Hst. symmetry. by apply insert_id. }
  eapply copy_chunks_Ok with (slo := slo) (shi := shi) in Hch as ((recs2 & Hch2) & Hle2 & Hfr2); try done; [|by eapply Hfiles|].
  2:{ unfold COMPACT_CHUNK in *. pose proof (Z.div_mod (f_size f) 2048). pose proof (Z.mod_pos_bound (f_size f) 2048).
      pose proof (Z.div_pos (f_size f) 2048). lia. }
  destruct Hch2 as [Hcv2 _ Hex2 Hso2 Hin2 Hby2 Hno2 Hni2].
  pose proof (last_end_bound exts (f_size f) ltac:(lia) Hex2) as Hleb.
  replace (match last exts with Some e => u32 (e_off e + e_len e) | None => 0 end) with (last_end exts) in Htr.
  2:{ unfold last_end in *. destruct (last exts); [|done]. unfold e_end in *. by rewrite u32_small by lia. }
  assert (Hfin : exists recs3, cinv d0 d3 p3 recs3 /\ p_cur p'' <= p_cur p3 /\
    (forall a, ~ (p_cur p'' <= a < dend) -> nor_cell d3 a = nor_cell d'' a) /\
    nodes (fold_log dbase recs3 st0) = <[c := mkNode File (BFile (mkFileData (f_size f) exts))]> (nodes st) /\
    next_ino (fold_log dbase recs3 st0) = next_ino st).
  { destruct (last_end exts <? f_size f) eqn:E; zbool.
    - eapply emit_cinv in Htr as (Hc3 & _ & Hcur3 & Hfr3);
        [|exact Hcv2|apply enc_trunc_ok|rewrite enc_trunc_len; lia|rewrite enc_trunc_len; lia].
      eexists. split; [exact Hc3|]. split; [unfold rec_len in Hcur3; lia|]. split; [done|].
      rewrite fold_log_snoc, bump_seq_nodes, bump_seq_next_ino.
      rewrite rec_effect_trunc by (unfold is_u32; lia || done).
      unfold apply_trunc. rewrite nodes_alter_file, alter_file_next_ino, Hno2. split; [|done].
      unfold file_nodes. rewrite lookup_insert_eq, insert_insert_eq. do 3 f_equal.
      pose proof (trunc_keep exts (f_size f) (last_end exts) Hex2 ltac:(lia)) as Htk. exact Htk.
    - kres. exists recs2. assert (last_end exts = f_size f) as Hl by lia. rewrite Hl in Hno2. split_and!; try done; lia. }
  destruct Hfin as (recs3 & Hc3 & Hle3 & Hfr3 & Hno3 & Hni3). exists recs3.
  assert (Hcnew : copied d3 (p_cur p3) f exts).
  { apply (copied_frame d'' d3 (p_cur p'') (p_cur p3)); [by split|done|]. intros a Ha. apply Hfr3. lia. }
  split; try done.
  - apply elem_of_union_l, Hpi.
  - intros i Hi. rewrite Hno3, lookup_insert_ne by set_solver. by apply Hout.
  - intros i m Hi Hm. rewrite Hno3, lookup_insert_ne; [by apply Hdir|].
    intros <-. apply dir_of_Some in Hm as (? & ?). congruence.
  - intros i kf f' Hi Hf. destruct (decide (i = c)) as [->|Hic].
    { assert (f' = f) as -> by congruence. exists exts. rewrite Hno3, !lookup_insert_eq. done. }
    apply elem_of_union in Hi as [Hi| ->%elem_of_singleton]; [|done].
    destruct (old_file d3 p3 (<[c:=exts]> ne) st i kf f') as (e & He1 & He2 & He3); [lia| | |exact Hold|exact Hi|exact Hf|].
    + intros a Ha. rewrite Hfr3, Hfr2 by lia. apply Hfr. lia.
    + intros j Hj. apply lookup_insert_ne. by intros <-.
    + exists e. split; [exact He1|]. split; [exact He2|]. by rewrite Hno3, lookup_insert_ne.
  - apply closed_step.
  - by rewrite Hni3.
  - intros i Hi. rewrite Hni3. by apply Hbl.
Qed.

Lemma copy_node_Ok d' p' ne' :
  copy_node s dend (p, ne) (c, par, n, k) d = (d', Ok (p', ne')) ->
  exists recs', pinv (X ∪ {[ c ]}) d' p' recs' ne'.
Proof.
  intros Hcn. pose proof copy_dir as Hcd. pose proof copy_file as Hcf. pose proof kind_cases as Hcases.
  unfold copy_node in Hcn. kres. destruct Hcases as [[Hkd _]|[Hkf (f & Hf & Hwf)]].
  - rewrite decide_True in Hm by done. rewrite decide_False in Hcn by congruence. kres.
    eexists. by apply Hcd.
  - rewrite decide_False in Hm by congruence. rewrite decide_True in Hcn by done.
    rewrite Hf in Hcn. cbn [size_of n_body] in Hcn. kres. destruct a0 as [p2 exts]. kres.
    eapply Hcf; [done|exact Hf|exact Hm|exact Hm0|].
    exact Hm1.
Qed.
End Step.

Lemma copy_plan_Ok plan : forall X d p recs ne d' p' ne',
  pinv X d p recs ne -> parents_first X plan -> NoDup (item_ino <$> plan) ->
  (forall it, it ∈ plan -> item_ino it ∉ X) ->
  (forall c par n k, (c, par, n, k) ∈ plan -> entry (nodes s) par n c /\ k = kind_of (nodes s) c) ->
  foldM (copy_node s dend) (p, ne) plan d = (d', Ok (p', ne')) ->
  exists recs', pinv (X ∪ list_to_set (item_ino <$> plan)) d' p' recs' ne'.
Proof.
  induction plan as [|[[[c par] n] k] plan IH]; intros X d p recs ne d' p' ne' Hpi Hpf Hnd Hnew Hit Hf; cbn [foldM] in Hf.
  { kres. exists recs. simpl. by rewrite union_empty_r_L. }
  kres. destruct a as [p1 ne1]. destruct Hpf as [Hpar Hpf]. simpl in Hpar.
  simpl in Hnd. apply NoDup_cons in Hnd as [Hcn Hnd].
  destruct (Hit c par n k ltac:(set_solver)) as [He Hk]. pose proof (Hnew (c, par, n, k) ltac:(set_solver)) as Hcx.
  eapply copy_node_Ok in Hm as (recs1 & Hpi1); [|exact Hpi|exact Hpar|exact Hcx|exact He|exact Hk].
  eapply IH in Hf as (recs2 & Hpi2); [|exact Hpi1|exact Hpf|exact Hnd| |].
  - exists recs2. replace (X ∪ list_to_set _) with (X ∪ {[c]} ∪ list_to_set (item_ino <$> plan)); [done|].
    simpl. set_solver.
  - intros it Hit'. specialize (Hnew it ltac:(set_solver)). rewrite not_elem_of_union, not_elem_of_singleton.
    split; [done|]. intros <-. apply Hcn. rewrite list_elem_of_fmap. by exists it.
  - intros. apply Hit. set_solver.
Qed.

(** *** What a copy that stops half way leaves alone *)

Lemma emit_keeps d p t payload d' r :
  emit dend p t payload d = (d', r) -> 0 <= p_cur p <= dend -> len payload < 2 ^ 31 ->
  (forall a, ~ (p_cur p <= a < dend) -> nor_cell d' a = nor_cell d a) /\
  (forall p', r = Ok p' -> p_cur p <= p_cur p' <= dend).
Proof.
  intros He Hp Hl. split.
  - intros a Ha. eapply emit_frame; [exact He|lia|done|lia|done].
  - intros p' ->. unfold emit in He. unfold FLASH_SIZE in *.
    set (rec := encode_record t (p_seq p) payload) in *.
    assert (Hrl : 0 <= len rec < 2 ^ 31 + 20).
    { unfold rec. rewrite encode_record_length by lia. pose proof (record_total_len_spec (len payload)). lia. }
    rewrite (u32_small (len rec)), (u32_small (p_cur p + len rec)) in He by lia.
    destruct (dend <? _) eqn:E; zbool; kres. simpl. lia.
Qed.

Lemma copy_chunks_keeps ino f fuel : forall d p coff exts d' r,
  nodes s !! ino = Some (mkNode File (BFile f)) -> 0 <= coff ->
  copy_chunks fuel s dend ino (f_size f) coff p exts d = (d', r) -> 0 <= p_cur p <= dend ->
  (forall a, ~ (p_cur p <= a < dend) -> nor_cell d' a = nor_cell d a) /\
  (forall p' exts', r = Ok (p', exts') -> p_cur p <= p_cur p' <= dend).
Proof.
  induction fuel as [|fuel IH]; intros d p coff exts d' r Hnode Hco He Hp; simpl in He.
  { injection He as <- <-. split; [done|]. intros p' e [= <- <-]. lia. }
  destruct (coff <? f_size f) eqn:E; zbool.
  2:{ injection He as <- <-. split; [done|]. intros p' e [= <- <-]. lia. }
  unfold mbind at 1, ST_bind at 1, lift at 1 in He.
  destruct (read_file s d ino coff _) as [tmp|] eqn:Er.
  2:{ injection He as <- <-. split; [done|]. by intros. }
  destruct (node_file _ _ _ _ _ Hok Hnode) as [_ Hwf]. pose proof (wf_size f Hwf) as Hsz.
  eapply read_file_Ok in Er; [|exact Hnode|done| |done|unfold COMPACT_CHUNK; lia].
  2:{ eapply Forall_impl; [by eapply Hfiles|]. intros e []. unfold ext_in. lia. }
  set (clen := Z.min COMPACT_CHUNK (f_size f - coff)) in *.
  assert (Htl : len tmp <= 2048).
  { subst tmp. unfold read_spec, slice. rewrite length_take. unfold clen, COMPACT_CHUNK. lia. }
  assert (0 <= coff + clen < 2 ^ 32) by (unfold clen, COMPACT_CHUNK; lia).
  rewrite (u32_small (coff + clen)) in He by lia.
  destruct (forallb _ tmp) eqn:Ez.
  - eapply IH; [done| |exact He|done]. lia.
  - unfold mbind, ST_bind in He. destruct (emit _ _ _ _ _) as [d1 [p1|e]] eqn:Em;
      (apply emit_keeps in Em as [Hf1 Hp1]; [|done|rewrite enc_write_len; lia]).
    + specialize (Hp1 p1 eq_refl). apply IH in He as [Hf2 Hp2]; [|done|lia|lia]. split.
      * intros a Ha. rewrite Hf2 by lia. by apply Hf1.
      * intros p' e' Heq. specialize (Hp2 p' e' Heq). lia.
    + injection He as <- <-. by split.
Qed.

Lemma copy_node_keeps d p ne c par n k d' r :
  entry (nodes s) par n c -> k = kind_of (nodes s) c ->
  copy_node s dend (p, ne) (c, par, n, k) d = (d', r) -> 0 <= p_cur p <= dend ->
  (forall a, ~ (p_cur p <= a < dend) -> nor_cell d' a = nor_cell d a) /\
  (forall p' ne', r = Ok (p', ne') -> p_cur p <= p_cur p' <= dend).
Proof.
  intros Hent Hk He Hp. destruct (t_entry _ _ Hok _ _ _ Hent) as (_ & [[kc b] Hn] & _ & Hl).
  unfold str_len, MAX_NAME in Hl. unfold copy_node in He. unfold mbind at 1, ST_bind at 1 in He.
  destruct (emit _ _ _ _ _) as [d1 [p1|e]] eqn:Em;
    (apply emit_keeps in Em as [Hf1 Hp1]; [|done|rewrite enc_mk_len; lia]).
  2:{ injection He as <- <-. by split. }
  specialize (Hp1 p1 eq_refl).
  destruct (decide (k = File)) as [Hkf|]; [|injection He as <- <-; split; [done|by intros p' ne' [= <- <-]]].
  pose proof (t_nodes _ _ Hok c _ Hn) as Hno. unfold node_ok in Hno. simpl in Hno.
  unfold kind_of in Hk. rewrite Hn in Hk, He. simpl in Hk. destruct b as [m|f]; [congruence|].
  destruct Hno as [-> Hwf]. unfold mbind at 1, ST_bind at 1 in He. cbn [size_of n_body] in He.
  destruct (copy_chunks _ _ _ _ _ _ _ _ _) as [d2 [[p2 exts]|e]] eqn:Ech;
    (apply copy_chunks_keeps in Ech as [Hf2 Hp2]; [|done|lia|lia]).
  2:{ injection He as <- <-. split; [|done]. intros a Ha. rewrite Hf2 by lia. by apply Hf1. }
  specialize (Hp2 p2 exts eq_refl). unfold mbind, ST_bind in He.
  assert (Hall : forall m d3 (r3 : KResult Pos),
    m = (if match last exts with Some e => u32 (e_off e + e_len e) | None => 0 end <? f_size f
         then emit dend p2 Truncate (enc_trunc c (f_size f)) else mret p2) ->
    m d2 = (d3, r3) ->
    (forall a, ~ (p_cur p2 <= a < dend) -> nor_cell d3 a = nor_cell d2 a) /\
    (forall p', r3 = Ok p' -> p_cur p2 <= p_cur p' <= dend)).
  { intros m d3 r3 -> H3. destruct (_ <? _).
    - apply emit_keeps in H3; [done|lia|rewrite enc_trunc_len; lia].
    - injection H3 as <- <-. split; [done|]. intros p' [= <-]. lia. }
  match type of He with context [(if ?b then ?x else ?y) d2] =>
    destruct ((if b then x else y) d2) as [d3 [p3|e]] eqn:E3 end; apply (Hall _ _ _ eq_refl) in E3 as [Hf3 Hp3].
  - injection He as <- <-. split.
    + intros a Ha. rewrite Hf3, Hf2 by lia. by apply Hf1.
    + intros p' ne' [= <- <-]. specialize (Hp3 p3 eq_refl). lia.
  - injection He as <- <-. split; [|done]. intros a Ha. rewrite Hf3, Hf2 by lia. by apply Hf1.
Qed.

Lemma copy_plan_keeps plan : forall d p ne d' r,
  (forall c par n k, (c, par, n, k) ∈ plan -> entry (nodes s) par n c /\ k = kind_of (nodes s) c) ->
  foldM (copy_node s dend) (p, ne) plan d = (d', r) -> 0 <= p_cur p <= dend ->
  forall a, ~ (p_cur p <= a < dend) -> nor_cell d' a = nor_cell d a.
Proof.
  induction plan as [|[[[c par] n] k] plan IH]; intros d p ne d' r Hit He Hp a Ha; cbn [foldM] in He.
  { by injection He as <- <-. }
  destruct (Hit c par n k ltac:(set_solver)) as [Hen Hk]. unfold mbind, ST_bind in He.
  destruct (copy_node _ _ _ _ _) as [d1 [[p1 ne1]|e]] eqn:Ec;
    eapply copy_node_keeps in Ec as [Hf1 Hp1]; try done.
  - specialize (Hp1 p1 ne1 eq_refl). rewrite (IH d1 p1 ne1 d' r); [by apply Hf1| |done|lia|lia].
    intros. apply Hit. set_solver.
  - injection He as <- <-. by apply Hf1.
Qed.
End Plan.
End Copy.
