(* ===== verification/EspfsSpec.v ===== *)
(** * EspfsSpec: what EspFs promises (fs/espfs/mod.rs)

    The abstract state of the file system is a map from inode numbers to
    directories and byte strings ([view]).  [fs_inv] ties it to the in-memory
    state and the flash: well-formed tree, extents inside the log, the log of the
    active half replaying to the tree, the rest of the half erased, and a
    superblock that names that half.  Every operation keeps [fs_inv] and acts on
    [view] as the file-system operation it implements; mounting an image gives
    the state back. *)

From S2P Require Import Prelude Flash Wire Inode Espfs EspfsFile EspfsTree EspfsPlan EspfsLog EspfsCompact.

Open Scope Z_scope.

(** ** Geometry *)

Definition is_bit (i : Z) : Prop := i = 0 \/ i = 1.

Definition apart (a n b m : Z) : Prop := a + n <= b \/ b + m <= a.

(** Two superblock sectors and two log halves, sector-aligned, on the chip, apart. *)
Record geom_ok (g : Geom) : Prop := {
  g_size : 0 < half_size g /\ half_size g mod 4096 = 0;
  g_half : forall i, is_bit i -> 0 <= sel (half_off g) i /\ sel (half_off g) i mod 4096 = 0 /\
    sel (half_off g) i + half_size g <= FLASH_SIZE;
  g_super : forall i, is_bit i -> 0 <= sel (super_off g) i /\ sel (super_off g) i mod 4096 = 0 /\
    sel (super_off g) i + 4096 <= FLASH_SIZE;
  g_halves : apart (sel (half_off g) 0) (half_size g) (sel (half_off g) 1) (half_size g);
  g_supers : apart (sel (super_off g) 0) 4096 (sel (super_off g) 1) 4096;
  g_cross : forall i j, is_bit i -> is_bit j -> apart (sel (super_off g) i) 4096 (sel (half_off g) j) (half_size g);
}.

Lemma is_bit_flip i : is_bit i -> is_bit (1 - i).
Proof. unfold is_bit. lia. Qed.

Lemma g_halves_flip g i : geom_ok g -> is_bit i ->
  apart (sel (half_off g) i) (half_size g) (sel (half_off g) (1 - i)) (half_size g).
Proof. intros Hg [-> | ->]; pose proof (g_halves g Hg) as Hh; unfold apart in *; rewrite ?Z.sub_0_r, ?Z.sub_diag; lia. Qed.

Lemma g_supers_flip g i : geom_ok g -> is_bit i ->
  apart (sel (super_off g) i) 4096 (sel (super_off g) (1 - i)) 4096.
Proof. intros Hg [-> | ->]; pose proof (g_supers g Hg) as Hh; unfold apart in *; rewrite ?Z.sub_0_r, ?Z.sub_diag; lia. Qed.

(** ** Abstract state *)

Inductive AbsNode : Type := ADir (m : gmap string Z) | AFile (c : list Z).

Definition half_base (s : FsState) : Z := sel (half_off (geom s)) (active_half s).

Section Spec.
Context {D : Type} `{NorFlashLaws D}.

Definition abs_node (d : D) (n : Node) : AbsNode :=
  match n_body n with BDir m => ADir m | BFile f => AFile (contents d f) end.

Definition view (st : FsState * D) : gmap Z AbsNode := abs_node st.2 <$> nodes st.1.

(** The records of the active half are the tree. *)
Definition log_ok (s : FsState) (d : D) : Prop :=
  exists recs, Forall rec_ok recs /\ log_at d (half_base s) recs /\ cursor s = half_base s + log_len recs /\
    let r := fold_log (half_base s) recs (empty_state (geom s) (active_half s) (generation s) (super_slot s)) in
    nodes r = nodes s /\ next_ino r <= next_ino s /\ forall i, is_Some (nodes s !! i) -> i < next_ino r.

(** The superblocks select the active half. *)
Definition super_ok (s : FsState) (d : D) : Prop :=
  choose_super (decode_super (cells d (super_off (geom s)).1 SB_LEN)) (decode_super (cells d (super_off (geom s)).2 SB_LEN))
  = Some (mkSuperBlock (generation s) (active_half s), super_slot s).

Record fs_inv (st : FsState * D) : Prop := {
  v_geom : geom_ok (geom st.1);
  v_half : is_bit (active_half st.1);
  v_slot : is_bit (super_slot st.1);
  v_tree : tree_ok (nodes st.1) (next_ino st.1);
  v_next : is_u32 (next_ino st.1);
  v_seq : is_u32 (next_seq st.1);
  v_gen : is_u32 (generation st.1);
  v_exts : forall i k f, nodes st.1 !! i = Some (mkNode k (BFile f)) ->
    Forall (ext_in (half_base st.1) (cursor st.1)) (f_extents f);
  v_log : log_ok st.1 st.2;
  v_cursor : cursor st.1 <= half_base st.1 + half_size (geom st.1);
  v_erased : erased st.2 (cursor st.1) (half_base st.1 + half_size (geom st.1) - cursor st.1);
  v_super : super_ok st.1 st.2;
}.

Lemma half_bounds st : fs_inv st ->
  0 <= half_base st.1 <= cursor st.1 /\ cursor st.1 <= half_base st.1 + half_size (geom st.1) <= FLASH_SIZE /\
  half_base st.1 mod 4096 = 0.
Proof.
  intros Hinv. destruct (v_log _ Hinv) as (recs & _ & _ & Hc & _). pose proof (log_len_pos recs).
  destruct (g_half _ (v_geom _ Hinv) (active_half st.1) (v_half _ Hinv)) as (? & ? & ?).
  pose proof (v_cursor _ Hinv). unfold half_base in *. lia.
Qed.

Lemma view_lookup st i : view st !! i = abs_node st.2 <$> nodes st.1 !! i.
Proof. unfold view. by rewrite lookup_fmap. Qed.

Lemma view_dir st i m : view st !! i = Some (ADir m) <-> dir_of (nodes st.1) i = Some m.
Proof.
  rewrite view_lookup. unfold dir_of, abs_node. destruct (nodes st.1 !! i) as [[k [m'|f]]|]; simpl; naive_solver.
Qed.

Lemma view_file st i c : fs_inv st ->
  view st !! i = Some (AFile c) <-> exists f, nodes st.1 !! i = Some (mkNode File (BFile f)) /\ c = contents st.2 f.
Proof.
  intros Hinv. rewrite view_lookup. unfold abs_node. destruct (nodes st.1 !! i) as [[k [m'|f]]|] eqn:E; simpl.
  - naive_solver.
  - destruct (node_file _ _ _ _ _ (v_tree _ Hinv) E) as [-> _]. naive_solver.
  - naive_solver.
Qed.

(** The view only depends on the cells of the log. *)
Lemma view_frame s d d' :
  fs_inv (s, d) -> (forall a, half_base s <= a < cursor s -> nor_cell d' a = nor_cell d a) ->
  view (s, d') = view (s, d).
Proof.
  intros Hinv Hfr. apply map_eq. intros i. rewrite !view_lookup. simpl.
  destruct (nodes s !! i) as [[k [m|f]]|] eqn:E; simpl; [done| |done]. unfold abs_node. simpl. do 2 f_equal.
  pose proof (v_exts _ Hinv i k f E) as Hin. eapply contents_frame; [exact Hin|exact Hfr].
Qed.

(** The invariant only depends on the cells of the active half and of the superblocks. *)
Lemma fs_inv_frame s d d' : fs_inv (s, d) ->
  (forall a, half_base s <= a < half_base s + half_size (geom s) -> nor_cell d' a = nor_cell d a) ->
  (forall i a, is_bit i -> sel (super_off (geom s)) i <= a < sel (super_off (geom s)) i + 4096 -> nor_cell d' a = nor_cell d a) ->
  fs_inv (s, d').
Proof.
  intros Hinv Hfr Hsup. pose proof (half_bounds _ Hinv) as (Hb & _). cbn [fst] in Hb. destruct Hinv as [I1 I2 I3 I4 I5 I6 I7 I8 I9 I10 I11 I12]. cbn [fst snd] in *.
  split; cbn [fst snd]; try done.
  - destruct I9 as (recs & R1 & R2 & R3 & R4). exists recs. split; [done|]. split; [|done]. eapply log_at_frame; [|exact R2]. intros a Ha. symmetry. apply Hfr. lia.
  - intros a Ha. rewrite Hfr by lia. apply I11. lia.
  - unfold super_ok in *. rewrite <- I12. unfold SB_LEN. f_equal; f_equal; apply cells_ext; intros a Ha; [apply (Hsup 0)|apply (Hsup 1)];
      solve [by left|by right|unfold sel in *; cbn in *; lia].
Qed.

Lemma erased_sub d off n x m : erased d off n -> off <= x -> x + m <= off + n -> erased d x m.
Proof. intros He ? ?. by eapply erased_mono. Qed.

(** ** Erasing a half, writing a superblock *)

Lemma erase_half_keeps fuel : forall o dend d d' r,
  0 <= o -> o mod 4096 = 0 -> dend mod 4096 = 0 -> dend <= FLASH_SIZE ->
  erase_half fuel o dend d = (d', r) ->
  forall a, ~ (o <= a < dend) -> nor_cell d' a = nor_cell d a.
Proof.
  induction fuel as [|fuel IH]; intros o dend d d' r Ho Hm Hdm Hd He a Ha; cbn [erase_half] in He.
  { by injection He as <- <-. }
  destruct (o <? dend) eqn:E; zbool; [|by injection He as <- <-].
  unfold mbind, ST_bind in He. unfold FLASH_SIZE, SEC, FLASH_SECTOR_SIZE in *.
  assert (Hle : o + 4096 <= dend).
  { pose proof (Z.div_mod o 4096). pose proof (Z.div_mod dend 4096). lia. }
  assert (Hdiv : o / 4096 * 4096 = o) by (pose proof (Z.div_mod o 4096); lia).
  destruct (flash_erase_sector o d) as [d1 [u|e]] eqn:E1;
    (eapply flash_erase_frame with (a := a) in E1; [|lia|rewrite Hdiv; lia]).
  - rewrite <- E1. eapply IH in He; [exact He|lia| |done|done|lia].
    rewrite Z.add_mod, Hm by lia. done.
  - injection He as <- <-. exact E1.
Qed.

Lemma erase_half_Ok fuel : forall o dend d d',
  0 <= o -> o mod 4096 = 0 -> dend mod 4096 = 0 -> dend <= FLASH_SIZE -> dend - o <= 4096 * Z.of_nat fuel ->
  erase_half fuel o dend d = (d', Ok tt) -> erased d' o (dend - o).
Proof.
  induction fuel as [|fuel IH]; intros o dend d d' Ho Hm Hdm Hd Hf He; cbn [erase_half] in He.
  { intros a Ha. lia. }
  destruct (o <? dend) eqn:E; zbool; [|intros a Ha; lia].
  kres. unfold SEC, FLASH_SECTOR_SIZE in *.
  assert (Hle : o + 4096 <= dend).
  { pose proof (Z.div_mod o 4096). pose proof (Z.div_mod dend 4096). lia. }
  assert (Hm' : (o + 4096) mod 4096 = 0) by (rewrite Z.add_mod, Hm by lia; done).
  apply flash_erase_Ok in Hm0 as [He1 _]; [|unfold FLASH_SIZE in *; lia|done].
  pose proof (IH (o + 4096) dend s d' ltac:(lia) Hm' Hdm Hd ltac:(lia) He) as He2.
  replace (dend - o) with (4096 + (dend - (o + 4096))) by lia. apply erased_app; [lia|lia| |exact He2].
  intros a Ha. rewrite (erase_half_keeps fuel (o + 4096) dend s d' _ ltac:(lia) Hm' Hdm Hd He) by lia. by apply He1.
Qed.

Lemma write_super_keeps g slot gen act d d' r :
  geom_ok g -> is_bit slot -> write_super g slot gen act d = (d', r) ->
  forall a, ~ (sel (super_off g) slot <= a < sel (super_off g) slot + 4096) -> nor_cell d' a = nor_cell d a.
Proof.
  intros Hg Hs Hw a Ha. destruct (g_super g Hg slot Hs) as (H1 & H2 & H3). unfold write_super, FLASH_SIZE in *.
  set (off := sel (super_off g) slot) in *.
  assert (Hdiv : off / 4096 * 4096 = off) by (pose proof (Z.div_mod off 4096); lia).
  unfold mbind, ST_bind in Hw. destruct (flash_erase_sector off d) as [d1 [u|e]] eqn:E1;
    (eapply flash_erase_frame with (a := a) in E1; [|lia|rewrite Hdiv; lia]).
  - rewrite <- E1. eapply flash_write_frame in Hw; [exact Hw|]. rewrite encode_super_length. lia.
  - injection Hw as <- <-. exact E1.
Qed.

Lemma write_super_Ok g slot gen act d d' :
  geom_ok g -> is_bit slot -> write_super g slot gen act d = (d', Ok tt) ->
  cells d' (sel (super_off g) slot) SB_LEN = encode_super (mkSuperBlock gen act).
Proof.
  intros Hg Hs Hw. destruct (g_super g Hg slot Hs) as (H1 & H2 & H3). unfold write_super in Hw. kres.
  apply flash_erase_Ok in Hm as [He _]; [|unfold FLASH_SIZE in *; lia|done].
  apply flash_write_Ok in Hw as [Hw _].
  - rewrite encode_super_length in Hw. exact Hw.
  - apply encode_super_ok.
  - rewrite encode_super_length. eapply erased_mono; [exact He|lia|lia].
Qed.

Lemma write_super_works g slot gen act d : nor_works D -> geom_ok g -> is_bit slot -> (write_super g slot gen act d).2 = Ok tt.
Proof.
  intros Hw Hg Hs. destruct (g_super g Hg slot Hs) as (H1 & H2 & H3). unfold write_super, mbind, ST_bind.
  pose proof (flash_erase_works (sel (super_off g) slot) d Hw H1 H2 H3) as He. destruct (flash_erase_sector _ d) as [d1 [u|e]]; [|done].
  apply flash_write_works; rewrite ?encode_super_length; try done; try lia.
  pose proof (Z.div_mod (sel (super_off g) slot) 4096 ltac:(lia)). rewrite H2 in *. apply Z.mod_divide; [lia|]. exists (1024 * (sel (super_off g) slot / 4096)). lia.
Qed.

(** The superblock in the slot of the active half, alone. *)
Lemma super_own s d : super_ok s d -> is_bit (super_slot s) ->
  decode_super (cells d (sel (super_off (geom s)) (super_slot s)) SB_LEN)
  = Some (mkSuperBlock (generation s) (active_half s)).
Proof.
  unfold super_ok, choose_super. intros Hs Hb.
  destruct (decode_super (cells d (super_off (geom s)).1 SB_LEN)) eqn:E1,
    (decode_super (cells d (super_off (geom s)).2 SB_LEN)) eqn:E2; try destruct (_ <? _);
    try done; injection Hs as -> <-; simpl; done.
Qed.

(** A valid superblock with a higher generation wins, whatever the other slot holds. *)
Lemma choose_super_newer slot gen act (sa sb : option SuperBlock) :
  is_bit slot -> sb = Some (mkSuperBlock gen act) ->
  (forall x, sa = Some x -> sb_generation x < gen) ->
  choose_super (if slot =? 0 then sb else sa) (if slot =? 0 then sa else sb) = Some (mkSuperBlock gen act, slot).
Proof.
  intros Hb -> Hlt. destruct Hb as [-> | ->]; simpl; destruct sa as [x|]; try done.
  - specialize (Hlt x eq_refl). simpl. by replace (gen <? sb_generation x) with false by (symmetry; apply Z.ltb_ge; lia).
  - specialize (Hlt x eq_refl). simpl. by replace (sb_generation x <? gen) with true by (symmetry; apply Z.ltb_lt; lia).
Qed.

(** ** Compaction *)

Lemma install_extents_lookup ns ne i :
  install_extents ns ne !! i =
  match ns !! i, ne !! i with
  | Some (mkNode k (BFile f)), Some exts => Some (mkNode k (BFile (mkFileData (f_size f) exts)))
  | o, _ => o
  end.
Proof.
  unfold install_extents. rewrite map_lookup_imap. destruct (ns !! i) as [[k [m|f]]|]; simpl; destruct (ne !! i); done.
Qed.

(** The copy of the whole tree, from the state compaction starts in. *)
Section Compact.
Context (s : FsState) (d : D) (Hinv : fs_inv (s, d)) (Hgen : generation s + 1 < 2 ^ 32).

Let dst := 1 - active_half s.
Let dbase := sel (half_off (geom s)) dst.
Let dend := dbase + half_size (geom s).
Let st0 := empty_state (geom s) dst (generation s + 1) (1 - super_slot s).

Local Lemma dst_bounds : is_bit dst /\ 0 <= dbase /\ dbase mod 4096 = 0 /\ dend mod 4096 = 0 /\ dend <= FLASH_SIZE /\ dbase < dend /\
  (half_base s + half_size (geom s) <= dbase \/ dend <= half_base s).
Proof.
  pose proof (is_bit_flip _ (v_half _ Hinv)) as Hb. simpl in Hb. fold dst in Hb.
  pose proof (v_geom _ Hinv) as Hg. simpl in Hg. destruct (g_half _ Hg dst Hb) as (Hh1 & Hm & Hh3). fold dbase in Hh1, Hm, Hh3.
  destruct (g_size _ Hg) as [? Hs].
  pose proof (g_halves_flip _ _ Hg (v_half _ Hinv)) as Ha. unfold apart in Ha. simpl in Ha. fold dst dbase in Ha.
  unfold half_base. split_and!; try done; try (unfold dend; lia).
  unfold dend. rewrite Z.add_mod, Hm, Hs by lia. done.
Qed.

Local Lemma files_in i k f : nodes s !! i = Some (mkNode k (BFile f)) ->
  Forall (ext_in (half_base s) (half_base s + half_size (geom s))) (f_extents f).
Proof.
  intros Hi. pose proof (v_exts _ Hinv i k f Hi) as Hall. pose proof (v_cursor _ Hinv). simpl in *.
  eapply Forall_impl; [exact Hall|]. intros e []. unfold ext_in. lia.
Qed.

Local Lemma plan_valid c par n k : (c, par, n, k) ∈ build_plan s -> entry (nodes s) par n c /\ k = kind_of (nodes s) c.
Proof. apply (plan_items _ _ (build_plan_ok s _ (v_tree _ Hinv))). Qed.

Lemma copy_Ok d1 d2 p ne :
  erase_half (S (Z.to_nat (half_size (geom s) / SEC))) dbase dend d = (d1, Ok tt) ->
  foldM (copy_node s dend) (mkPos dbase 0, ∅) (build_plan s) d1 = (d2, Ok (p, ne)) ->
  exists recs, pinv dbase dend s d (next_ino s) st0 ({[ ROOT_INO ]} ∪ list_to_set (item_ino <$> build_plan s)) d2 p recs ne.
Proof.
  intros He Hf. destruct dst_bounds as (_ & Hb0 & Hbm & Hem & Hee & Hlt & Hdj).
  pose proof (build_plan_ok s _ (v_tree _ Hinv)) as Hp.
  destruct (half_bounds _ Hinv) as (Hhb1 & Hhb2 & _). simpl in Hhb1, Hhb2.
  assert (Hfr : forall a, ~ (dbase <= a < dend) -> nor_cell d1 a = nor_cell d a) 
    by exact (erase_half_keeps _ _ _ _ _ _ Hb0 Hbm Hem Hee He).
  assert (Her : erased d1 dbase (dend - dbase)).
  { eapply erase_half_Ok; [done..| |exact He]. unfold SEC, FLASH_SECTOR_SIZE, dend.
    destruct (g_size _ (v_geom _ Hinv)) as [Hg1 Hg2]. simpl in Hg1, Hg2.
    pose proof (Z.div_mod (half_size (geom s)) 4096). pose proof (Z.div_pos (half_size (geom s)) 4096). lia. }
  eapply (copy_plan_Ok dbase dend Hb0 ltac:(lia) Hee s d (next_ino s) (half_base s) (half_base s + half_size (geom s))
    (v_tree _ Hinv) (v_next _ Hinv) files_in ltac:(lia) ltac:(lia) Hdj st0 eq_refl eq_refl (build_plan s) {[ROOT_INO]});
    [|apply Hp|apply Hp| |exact plan_valid|exact Hf].
  - apply (pinv_init dbase dend Hb0 ltac:(lia) Hee s d (next_ino s) (half_base s) (half_base s + half_size (geom s))
      (v_tree _ Hinv) (v_next _ Hinv) files_in ltac:(lia) ltac:(lia) Hdj st0 eq_refl eq_refl).
    split; simpl; try done; rewrite ?log_len_nil; unfold is_u32; lia.
  - intros [[[c par] n] k] [Hen _]%plan_valid. rewrite not_elem_of_singleton. by eapply (child_not_root _ _ (v_tree _ Hinv)).
Qed.

Lemma compact_Ok s' d' :
  compact (s, d) = ((s', d'), Ok tt) ->
  fs_inv (s', d') /\ view (s', d') = view (s, d) /\ next_ino s' = next_ino s /\ geom s' = geom s /\
  generation s' = generation s + 1 /\ active_half s' = 1 - active_half s.
Proof.
  intros Hc. unfold compact in Hc. fold dst dbase dend in Hc.
  destruct dst_bounds as (Hbd & Hb0 & Hbm & Hem & Hee & Hlt & Hdj).
  unfold mbind at 1, ST_bind at 1 in Hc. unfold on_snd at 1 in Hc. simpl snd in Hc. simpl fst in Hc.
  destruct (erase_half _ _ _ d) as [d1 [[]|]] eqn:E1; [|done].
  unfold mbind at 1, ST_bind at 1 in Hc. unfold on_snd at 1 in Hc. simpl snd in Hc. simpl fst in Hc.
  destruct (foldM _ _ _ d1) as [d2 [[p ne]|]] eqn:E2; [|done].
  rewrite u32_small in Hc by (pose proof (v_gen _ Hinv); unfold is_u32 in *; simpl in *; lia).
  unfold mbind at 1, ST_bind at 1 in Hc. unfold on_snd at 1 in Hc. simpl snd in Hc. simpl fst in Hc.
  destruct (write_super _ _ _ _ d2) as [d3 [[]|]] eqn:E3; [|done].
  unfold modify in Hc. injection Hc as <- <-.
  destruct (copy_Ok _ _ _ _ E1 E2) as (recs & Hpi).
  pose proof (v_geom _ Hinv) as Hg. pose proof (is_bit_flip _ (v_slot _ Hinv)) as Hbs. simpl in Hg, Hbs.
  pose proof (write_super_keeps _ _ _ _ _ _ _ Hg Hbs E3) as Hf3.
  assert (Hf3' : forall j a, is_bit j -> sel (half_off (geom s)) j <= a < sel (half_off (geom s)) j + half_size (geom s) ->
    nor_cell d3 a = nor_cell d2 a).
  { intros j a Hj Ha. apply Hf3. pose proof (g_cross _ Hg _ _ Hbs Hj) as Hx. unfold apart in Hx. lia. }
  pose proof (build_plan_ok s _ (v_tree _ Hinv)) as Hp.
  set (X := {[ ROOT_INO ]} ∪ list_to_set (item_ino <$> build_plan s)) in *.
  assert (HX : forall i, is_Some (nodes s !! i) -> i ∈ X).
  { intros i Hi. unfold X. destruct (plan_all _ _ Hp i Hi) as [->|Hin]; [set_solver|].
    by apply elem_of_union_r, elem_of_list_to_set. }
  destruct Hpi as [Hci Hroot Hout Hdir Hfile Hclosed Hnx Hbelow].
  destruct Hci as [Hok Hlog Hcur Hend Her Hsq Hfr].
  pose proof (log_len_pos recs) as Hll.
  (* the tree the new log rebuilds is the tree with its new extents *)
  assert (Hnodes : nodes (fold_log dbase recs st0) = install_extents (nodes s) ne).
  { apply map_eq. intros i. rewrite install_extents_lookup. destruct (nodes s !! i) as [[k [m|f]]|] eqn:Ei.
    - rewrite (Hdir i m); [|apply HX; by eexists|apply dir_of_Some; by eexists].
      assert (k = Dir) as -> by (by pose proof (t_nodes _ _ (v_tree _ Hinv) i _ Ei)).
      assert (Hv : visible X m = m).
      { apply map_eq. intros n. apply option_eq. intros c. rewrite visible_Some. split; [by intros []|].
        intros Hl. split; [done|]. apply HX. apply (t_entry _ _ (v_tree _ Hinv) i n c).
        exists m. split; [apply dir_of_Some; by eexists|done]. }
      rewrite Hv. by destruct (ne !! i).
    - destruct (Hfile i k f) as (exts & Hne & _ & HN); [apply HX; by eexists|done|].
      rewrite HN, Hne. destruct (node_file _ _ _ _ _ (v_tree _ Hinv) Ei) as [-> _]. done.
    - destruct (decide (i ∈ X)) as [Hi|Hi]; [|rewrite Hout by done; by destruct (ne !! i)].
      exfalso. unfold X in Hi. apply elem_of_union in Hi as [->%elem_of_singleton|Hi%elem_of_list_to_set].
      + destruct (t_root _ _ (v_tree _ Hinv)) as (m & (k & Hr)%dir_of_Some). simpl in Hr. congruence.
      + rewrite list_elem_of_fmap in Hi. destruct Hi as ([[[c par] n] k] & -> & [Hen _]%plan_valid).
        destruct (t_entry _ _ (v_tree _ Hinv) _ _ _ Hen) as (_ & [x Hx] & _). unfold item_ino in Ei. simpl in *. congruence. }
  assert (Hview : forall i, abs_node d3 <$> install_extents (nodes s) ne !! i = abs_node d <$> nodes s !! i).
  { intros i. rewrite install_extents_lookup. destruct (nodes s !! i) as [[k [m|f]]|] eqn:Ei; simpl.
    - by destruct (ne !! i).
    - destruct (Hfile i k f) as (exts & Hne & [Hce Hcs Hcin Hcb] & HN); [apply HX; by eexists|done|].
      rewrite Hne. unfold abs_node. simpl. do 2 f_equal. apply contents_ext; [done|]. simpl. intros j Hj.
      rewrite <- Hcb by done.
      apply (file_byte_frame d3 d2 (mkFileData (f_size f) exts) dbase (p_cur p)); [done|].
      intros a Ha. apply (Hf3' dst); [done|]. fold dbase dend. lia.
    - by destruct (ne !! i). }
  split; [|split; [|by split_and!]].
  2:{ apply map_eq. intros i. rewrite !view_lookup. simpl. apply Hview. }
  split; simpl; try done.
  - rewrite <- Hnodes. (* the tree shape does not depend on extents *)
    pose proof (v_tree _ Hinv) as Ht. simpl in Ht. rewrite Hnodes.
    assert (Hd : forall i, dir_of (install_extents (nodes s) ne) i = dir_of (nodes s) i).
    { intros i. unfold dir_of. rewrite install_extents_lookup.
      destruct (nodes s !! i) as [[k [m|f]]|]; destruct (ne !! i); done. }
    assert (Hs : forall i, is_Some (install_extents (nodes s) ne !! i) <-> is_Some (nodes s !! i)).
    { intros i. rewrite install_extents_lookup.
      destruct (nodes s !! i) as [[k [m|f]]|]; destruct (ne !! i); split; intros [? ?]; by eexists. }
    assert (Hen : forall q n c, entry (install_extents (nodes s) ne) q n c <-> entry (nodes s) q n c).
    { intros. unfold entry. by rewrite Hd. }
    split.
    + rewrite Hd. apply Ht.
    + intros i x Hx. rewrite install_extents_lookup in Hx. pose proof (t_nodes _ _ Ht i) as Hn.
      destruct (nodes s !! i) as [[k [m|f]]|] eqn:Ei; [specialize (Hn _ eq_refl)|specialize (Hn _ eq_refl)|done].
      * by destruct (ne !! i); injection Hx as <-.
      * destruct (Hfile i k f) as (exts & Hne & [Hce Hcs Hcin Hcb] & HN); [apply HX; by eexists|done|].
        rewrite Hne in Hx. injection Hx as <-. destruct Hn as [Hk Hw]. split; [done|]. simpl.
        split; simpl; [apply Hw|done|done].
    + intros i Hi. apply (t_range _ _ Ht). by apply Hs.
    + intros q n c. rewrite Hen, Hs. apply Ht.
    + intros q q' n n' c. rewrite !Hen. apply Ht.
    + intros c. rewrite Hs. setoid_rewrite Hen. apply Ht.
  - apply (v_next _ Hinv).
  - pose proof (v_gen _ Hinv). unfold is_u32 in *. simpl in *. lia.
  - intros i k f Hi. rewrite install_extents_lookup in Hi. unfold half_base. simpl. fold dbase.
    destruct (nodes s !! i) as [[k0 [m|f0]]|] eqn:Ei; [by destruct (ne !! i)| |by destruct (ne !! i)].
    destruct (Hfile i k0 f0) as (exts & Hne & [Hce Hcs Hcin Hcb] & HN); [apply HX; by eexists|done|].
    rewrite Hne in Hi. by injection Hi as <- <-.
  - exists recs. unfold half_base. simpl. fold dst dbase st0. split_and!; try done.
    + eapply log_at_frame; [|exact Hlog]. intros a Ha. symmetry. apply (Hf3' dst); [done|]. fold dbase dend. lia.
    + intros i [x Hx]. apply Hbelow, HX. rewrite install_extents_lookup in Hx.
      destruct (nodes s !! i); [by eexists|by destruct (ne !! i)].
  - unfold half_base. simpl. fold dbase dend. intros a Ha. rewrite (Hf3' dst) by (done || (fold dbase dend; lia)).
    apply Her. lia.
  - unfold super_ok. simpl. apply write_super_Ok in E3 as Hsb; [|done|done].
    assert (Hown : decode_super (cells d3 (sel (super_off (geom s)) (super_slot s)) SB_LEN) =
      Some (mkSuperBlock (generation s) (active_half s))).
    { rewrite <- (super_own s d (v_super _ Hinv) (v_slot _ Hinv)). f_equal. apply cells_ext. intros a Ha.
      pose proof (g_supers_flip _ _ Hg (v_slot _ Hinv)) as Hx. unfold apart in Hx. simpl in Hx.
      destruct (g_super _ Hg (super_slot s) (v_slot _ Hinv)) as (Hs1 & Hs2 & Hs3).
      rewrite Hf3 by (unfold SB_LEN in *; lia). apply Hfr.
      pose proof (g_cross _ Hg _ _ (v_slot _ Hinv) Hbd) as Hy. unfold apart in Hy. simpl in Hy. fold dbase in Hy.
      unfold dend, SB_LEN in *. lia. }
    assert (Hnew : decode_super (cells d3 (sel (super_off (geom s)) (1 - super_slot s)) SB_LEN) =
      Some (mkSuperBlock (generation s + 1) dst)).
    { rewrite Hsb. apply decode_encode_super.
      - pose proof (v_gen _ Hinv). unfold is_u32 in *. simpl in *. lia.
      - destruct Hbd as [-> | ->]; unfold is_u32; lia. }
    pose proof (choose_super_newer (1 - super_slot s) (generation s + 1) dst
      (decode_super (cells d3 (sel (super_off (geom s)) (super_slot s)) SB_LEN))
      (decode_super (cells d3 (sel (super_off (geom s)) (1 - super_slot s)) SB_LEN)) Hbs Hnew) as Hch.
    rewrite <- Hch.
    + destruct (v_slot _ Hinv) as [Hz|Hz]; simpl in Hz; rewrite Hz; done.
    + rewrite Hown. intros x [= <-]. simpl. lia.
Qed.

(** A compaction that fails leaves the state and the active half as they were. *)
Lemma compact_Err s' d' e :
  compact (s, d) = ((s', d'), Err e) ->
  s' = s /\ (forall a, half_base s <= a < half_base s + half_size (geom s) -> nor_cell d' a = nor_cell d a) /\ (nor_works D -> fs_inv (s, d')).
Proof.
  assert (Hinv' : forall d', (forall a, ~ (dbase <= a < dend) -> nor_cell d' a = nor_cell d a) ->
    (forall a, half_base s <= a < half_base s + half_size (geom s) -> nor_cell d' a = nor_cell d a) /\ (nor_works D -> fs_inv (s, d'))).
  { intros dx Hfr. destruct dst_bounds as (Hbd & _ & _ & _ & _ & _ & Hdj). split; [intros a Ha; apply Hfr; lia|]. intros _. apply (fs_inv_frame s d); [done|intros a Ha; apply Hfr; lia|].
    intros i a Hi Ha. apply Hfr. pose proof (g_cross _ (v_geom _ Hinv) i _ Hi Hbd) as Hx. unfold apart in Hx. cbn [fst] in Hx. unfold dend, dbase in *. lia. }
  intros Hc. unfold compact in Hc. fold dst dbase dend in Hc.
  destruct dst_bounds as (Hbd & Hb0 & Hbm & Hem & Hee & Hlt & Hdj).
  destruct (half_bounds _ Hinv) as (Hhb1 & Hhb2 & _). simpl in Hhb1, Hhb2.
  unfold mbind at 1, ST_bind at 1 in Hc. unfold on_snd at 1 in Hc. simpl snd in Hc. simpl fst in Hc.
  destruct (erase_half _ _ _ d) as [d1 [[]|]] eqn:E1;
    (pose proof (erase_half_keeps _ _ _ _ _ _ Hb0 Hbm Hem Hee E1) as Hf1).
  2:{ injection Hc as <- <- _. split; [done|]. apply Hinv'. exact Hf1. }
  unfold mbind at 1, ST_bind at 1 in Hc. unfold on_snd at 1 in Hc. simpl snd in Hc. simpl fst in Hc.
  destruct (foldM _ _ _ d1) as [d2 r2] eqn:E2.
  pose proof (copy_plan_keeps dbase dend Hb0 ltac:(lia) Hee s (next_ino s) (half_base s) (half_base s + half_size (geom s))
    (v_tree _ Hinv) (v_next _ Hinv) files_in ltac:(lia) ltac:(lia) Hdj st0 eq_refl eq_refl
    _ _ _ _ _ _ plan_valid E2 ltac:(simpl; lia)) as Hf2.
  destruct r2 as [[p ne]|].
  2:{ injection Hc as <- <- _. split; [done|]. apply Hinv'. intros a Ha. rewrite Hf2 by (simpl; lia). by apply Hf1. }
  unfold mbind at 1, ST_bind at 1 in Hc. unfold on_snd at 1 in Hc. simpl snd in Hc. simpl fst in Hc.
  destruct (write_super _ _ _ _ d2) as [d3 [[]|]] eqn:E3; [done|].
  injection Hc as <- <- _. pose proof (v_geom _ Hinv) as Hg. pose proof (is_bit_flip _ (v_slot _ Hinv)) as Hbs. simpl in Hg, Hbs.
  split; [done|]. split; [|intros Hw; pose proof (write_super_works (geom s) (1 - super_slot s) (u32 (generation s + 1)) dst d2 Hw Hg Hbs) as Hok; by rewrite E3 in Hok].
  intros a Ha.
  pose proof (g_cross _ Hg _ _ Hbs (v_half _ Hinv)) as Hx. unfold apart in Hx. simpl in Hx. unfold half_base in *.
  rewrite (write_super_keeps _ _ _ _ _ _ _ Hg Hbs E3) by lia.
  rewrite Hf2 by (simpl; lia). apply Hf1. lia.
Qed.
End Compact.
End Spec.
