(* ===== verification/EspfsOps.v ===== *)
(** * EspfsOps: the operations of EspFs against the abstract file system

    Each operation of [FsState] is one log record: [append] finds room for it,
    compacting if it must, and [commit] says that a tree change whose record has
    been written keeps the invariant.  The theorems relate every operation, on
    every branch, to the abstract state [view]; mounting closes the circle. *)

From S2P Require Import Prelude Flash Wire Inode Espfs EspfsFile EspfsTree EspfsPlan EspfsLog EspfsCompact EspfsSpec.

Open Scope Z_scope.

Section Ops.
Context {D : Type} `{NorFlashLaws D}.

(** ** Appending a record *)

(** [r] is now the last record of the log; the tree has not changed yet. *)
Record appended (s1 : FsState) (d1 : D) (s' : FsState) (d' : D) (r : lrec) : Prop := {
  a_state : s' = set_next_seq (u32 (next_seq s1 + 1)) (set_cursor (cursor s1 + rec_len r) s1);
  a_ok : rec_ok r;
  a_end : cursor s1 + rec_len r <= half_base s1 + half_size (geom s1);
  a_cells : cells d' (cursor s1) (rec_len r) = enc_rec r;
  a_frame : forall a, ~ (cursor s1 <= a < cursor s1 + rec_len r) -> nor_cell d' a = nor_cell d1 a;
}.

(** Two states show the same files, and number new ones alike. *)
Definition same_view (s : FsState) (d : D) (s1 : FsState) (d1 : D) : Prop :=
  view (s1, d1) = view (s, d) /\ next_ino s1 = next_ino s /\ geom s1 = geom s.

Lemma append_spec t payload s d st' res :
  fs_inv (s, d) -> generation s + 1 < 2 ^ 32 ->
  bytes_ok payload -> len payload < 2 ^ 31 -> (t = Write \/ t = Truncate -> 8 <= len payload) ->
  append t payload (s, d) = (st', res) ->
  (exists e, res = Err e /\ view st' = view (s, d) /\ (nor_works D -> fs_inv st')) \/
  (exists s1 d1 s' d', st' = (s', d') /\ res = Ok (cursor s1) /\ fs_inv (s1, d1) /\ same_view s d s1 d1 /\
    appended s1 d1 s' d' (mkRec t (next_seq s1) payload)).
Proof.
  intros Hinv Hgen Hok Hl Ht Ha. unfold append in Ha.
  set (need := u32 (record_total_len (len payload))) in *.
  pose (full := fun s0 => half_end s0 (active_half s0) <? u32 (cursor s0 + need)).
  unfold mbind at 1, ST_bind at 1, get at 1 in Ha. cbn [fst] in Ha.
  change (half_end s (active_half s) <? u32 (cursor s + need)) with (full s) in Ha.
  (* the state after the possible compaction *)
  assert (Hroom : (exists e d1, (if full s then compact else mret tt) (s, d) = ((s, d1), Err e) /\
      view (s, d1) = view (s, d) /\ (nor_works D -> fs_inv (s, d1))) \/
    exists s1 d1, (if full s then compact else mret tt) (s, d) = ((s1, d1), Ok tt) /\ fs_inv (s1, d1) /\ same_view s d s1 d1).
  { destruct (full s); [|right; by exists s, d].
    destruct (compact (s, d)) as [[s1 d1] [[]|e]] eqn:Ec.
    - right. exists s1, d1. pose proof (compact_Ok s d Hinv Hgen s1 d1 Ec) as (? & ? & ? & ? & _). by split_and!.
    - left. apply (compact_Err s d Hinv) in Ec as (-> & Hfr & Hi). exists e, d1. split; [done|]. split; [|done].
      apply view_frame; [done|]. intros a Hr. apply Hfr. pose proof (half_bounds _ Hinv). simpl in *. lia. }
  unfold mbind at 1, ST_bind at 1 in Ha.
  destruct Hroom as [(e & d1 & Hc & Hv)|(s1 & d1 & Hc & Hinv1 & Hsame)].
  { rewrite Hc in Ha. injection Ha as <- <-. left. by exists e. }
  rewrite Hc in Ha. clear Hc. unfold mbind at 1, ST_bind at 1, get at 1 in Ha. cbn [fst] in Ha.
  change (half_end s1 (active_half s1) <? u32 (cursor s1 + need)) with (full s1) in Ha.
  unfold mbind at 1, ST_bind at 1 in Ha.
  destruct (full s1) eqn:Hfull.
  { injection Ha as <- <-. left. exists NoSpace. split; [done|]. split; [apply Hsame|done]. }
  cbn [mret ST_ret] in Ha. unfold mbind at 1, ST_bind at 1, on_snd at 1 in Ha. cbn [fst snd] in Ha.
  set (r := mkRec t (next_seq s1) payload) in *.
  change (encode_record t (next_seq s1) payload) with (enc_rec r) in Ha.
  assert (Hr : rec_ok r) by (split_and!; [apply (v_seq _ Hinv1)|done|simpl; lia|done]).
  pose proof (rec_len_bounds r Hr) as [Hrb _]. pose proof (rec_len_eq r Hr) as Hre. cbn [r r_payload] in Hrb, Hre.
  assert (Hsmall : rec_len r < 2 ^ 31 + 20).
  { rewrite Hre. pose proof (record_total_len_spec (len payload)). lia. }
  destruct (half_bounds _ Hinv1) as (Hh1 & Hh2 & _). unfold FLASH_SIZE in Hh2. cbn [fst] in Hh1, Hh2.
  assert (Hend : cursor s1 + rec_len r <= half_base s1 + half_size (geom s1)).
  { unfold full, half_end, need in Hfull. zbool. fold (half_base s1) in Hfull. rewrite <- Hre in Hfull.
    rewrite !u32_small in Hfull by (try rewrite u32_small; lia). lia. }
  destruct (flash_write (cursor s1) (enc_rec r) d1) as [d' [[]|e]] eqn:Ew.
  - right. exists s1, d1. cbn [modify mbind ST_bind mret ST_ret] in Ha.
    unfold mbind, ST_bind, modify in Ha. injection Ha as <- <-.
    change (len (enc_rec r)) with (rec_len r). rewrite (u32_small (rec_len r)), (u32_small (cursor s1 + rec_len r)) by lia.
    eexists _, d'. split; [done|]. split; [done|]. split; [done|]. split; [done|].
    apply flash_write_Ok in Ew as Hw.
    + split; [done|done|done|apply Hw|]. intros a Hx. eapply flash_write_frame; [exact Ew|exact Hx].
    + apply encode_record_ok; [simpl; lia|done].
    + eapply erased_mono; [apply (v_erased _ Hinv1)|simpl; lia|]. change (len (enc_rec r)) with (rec_len r). simpl. lia.
  - left. exists e. injection Ha as <- <-. split; [done|]. rewrite <- (proj1 Hsame). split.
    + apply view_frame; [done|]. intros a Hx. eapply flash_write_frame; [exact Ew|]. lia.
    + intros Hw. by rewrite (flash_write_refused (cursor s1) (enc_rec r) d1 d' e Hw ltac:(lia) Ew).
Qed.

(** ** Committing a tree change *)

Lemma commit s1 d1 s' d' r ns ni :
  fs_inv (s1, d1) -> appended s1 d1 s' d' r ->
  tree_ok ns ni -> is_u32 ni ->
  (forall i k f, ns !! i = Some (mkNode k (BFile f)) ->
    Forall (ext_in (half_base s1) (cursor s1 + rec_len r)) (f_extents f)) ->
  (forall st, nodes st = nodes s1 -> next_ino st <= next_ino s1 ->
    (forall i, is_Some (nodes s1 !! i) -> i < next_ino st) ->
    let st' := rec_effect (cursor s1 + HEADER_LEN) r st in
    nodes st' = ns /\ next_ino st' <= ni /\ forall i, is_Some (ns !! i) -> i < next_ino st') ->
  fs_inv (set_next_ino ni (set_nodes ns s'), d').
Proof.
  intros Hinv [-> Hr Hend Hcells Hfr] Htree Hni Hexts Heff.
  destruct (half_bounds _ Hinv) as (Hh1 & Hh2 & _). cbn [fst] in Hh1, Hh2.
  pose proof (rec_len_bounds r Hr) as [Hrb _]. pose proof (v_geom _ Hinv) as Hg. cbn [fst] in Hg.
  split; simpl; try apply Hinv; try done.
  - apply u32_range.
  - destruct (v_log _ Hinv) as (recs & Hok & Hlog & Hcur & Hn & Hnx & Hb). simpl in *.
    exists (recs ++ [r]). unfold half_base. simpl. change (sel (half_off (geom s1)) (active_half s1)) with (half_base s1).
    split; [apply Forall_app; split; [done|by apply Forall_singleton]|].
    split; [apply log_at_app; split|].
    + eapply log_at_frame; [|exact Hlog]. intros a Ha. symmetry. apply Hfr. lia.
    + rewrite <- Hcur. apply log_at_cons. split; [done|]. unfold log_at. by rewrite log_len_nil.
    + split; [rewrite log_len_snoc; lia|]. rewrite fold_log_snoc, bump_seq_nodes, bump_seq_next_ino, <- Hcur.
      by apply Heff.
  - intros a Ha. unfold half_base in *. simpl in *. rewrite Hfr by lia. apply (v_erased _ Hinv).
    unfold half_base. simpl. lia.
  - unfold super_ok in *. simpl. pose proof (v_super _ Hinv) as Hs. unfold super_ok in Hs. simpl in Hs. rewrite <- Hs.
    assert (Hsup : forall i, is_bit i -> cells d' (sel (super_off (geom s1)) i) SB_LEN = cells d1 (sel (super_off (geom s1)) i) SB_LEN).
    { intros i Hi. apply cells_ext. intros a Ha. apply Hfr.
      pose proof (g_cross _ Hg i _ Hi (v_half _ Hinv)) as Hx. unfold apart in Hx. simpl in Hx.
      unfold half_base, SB_LEN in *. lia. }
    pose proof (Hsup 0 ltac:(by left)) as H0'. pose proof (Hsup 1 ltac:(by right)) as H1'. simpl in H0', H1'.
    unfold sel in H0', H1'. simpl in H0', H1'. by rewrite H0', H1'.
Qed.

Lemma view_set ns ni s d : view (set_next_ino ni (set_nodes ns s), d) = abs_node d <$> ns.
Proof. done. Qed.

(** Old files show the same contents after a record was appended. *)
Lemma appended_view s1 d1 s' d' r :
  fs_inv (s1, d1) -> appended s1 d1 s' d' r -> abs_node d' <$> nodes s1 = view (s1, d1).
Proof.
  intros Hinv Ha. change (view (s1, d') = view (s1, d1)). apply view_frame; [done|].
  intros a Hx. apply (a_frame _ _ _ _ _ Ha). lia.
Qed.

Lemma appended_exts s1 d1 s' d' r i k f :
  fs_inv (s1, d1) -> appended s1 d1 s' d' r -> nodes s1 !! i = Some (mkNode k (BFile f)) ->
  Forall (ext_in (half_base s1) (cursor s1 + rec_len r)) (f_extents f).
Proof.
  intros Hinv Ha Hi. pose proof (v_exts _ Hinv i k f Hi) as Hall. simpl in Hall.
  pose proof (rec_len_bounds r (a_ok _ _ _ _ _ Ha)) as [? _].
  eapply Forall_impl; [exact Hall|]. intros e []. unfold ext_in. lia.
Qed.

Lemma set_id s : set_next_ino (next_ino s) (set_nodes (nodes s) s) = s.
Proof. by destruct s. Qed.

Lemma alter_file_set g ino s :
  alter_file g ino s = set_next_ino (next_ino s) (set_nodes (file_nodes g ino (nodes s)) s).
Proof. unfold alter_file, file_nodes. destruct (nodes s !! ino) as [[k [m|f]]|]; try (by rewrite set_id). by destruct s. Qed.

Lemma apply_unlink_set parent name s :
  apply_unlink parent name s = set_next_ino (next_ino s) (set_nodes (unlink_nodes parent name (nodes s)) s).
Proof.
  unfold apply_unlink, unlink_nodes. destruct (nodes s !! parent) as [[k [m|f]]|]; try (by rewrite set_id).
  destruct (m !! name); [by destruct s|by rewrite set_id].
Qed.

Lemma apply_mk_set kind parent name s :
  is_u32 (next_ino s + 1) ->
  apply_mk kind (next_ino s) parent name s =
  set_next_ino (next_ino s + 1) (set_nodes (mk_nodes kind (next_ino s) parent name (nodes s)) s).
Proof.
  intros Hu. unfold apply_mk, mk_nodes. simpl. rewrite Z.leb_refl, u32_small by done. by destruct s.
Qed.

(** The shape of a view survives in a state with the same view. *)
Lemma same_view_dir s d s1 d1 p m : same_view s d s1 d1 -> dir_of (nodes s) p = Some m -> dir_of (nodes s1) p = Some m.
Proof.
  intros (Hv & _ & _) Hd. apply (view_dir (s, d)) in Hd. apply (view_dir (s1, d1)). by rewrite Hv.
Qed.

(** A change to the data of one file, seen through [view]. *)
Lemma view_file_nodes d ns ino k f g c :
  ns !! ino = Some (mkNode k (BFile f)) -> contents d (g f) = c ->
  abs_node d <$> file_nodes g ino ns = <[ino := AFile c]> (abs_node d <$> ns).
Proof. intros Hi <-. unfold file_nodes. rewrite Hi. by rewrite fmap_insert. Qed.

(** The outcomes of an operation: done, or failed with the files as they were, and
    ready for the next operation unless the chip itself failed. *)
Definition outcome {A} (st st' : FsState * D) (res : KResult A) (a : A) (v : gmap Z AbsNode) : Prop :=
  (res = Ok a /\ fs_inv st' /\ view st' = v) \/ (exists e, res = Err e /\ view st' = view st /\ (nor_works D -> fs_inv st')).

(** The file [ino] of [s], in a state with the same view. *)
Lemma same_view_file s d s1 d1 ino c :
  fs_inv (s1, d1) -> same_view s d s1 d1 -> view (s, d) !! ino = Some (AFile c) ->
  exists f, nodes s1 !! ino = Some (mkNode File (BFile f)) /\ c = contents d1 f.
Proof. intros Hinv (Hv & _ & _) Hc. rewrite <- Hv in Hc. by apply (view_file (s1, d1)). Qed.

Lemma ino_u32 st i : fs_inv st -> is_Some (nodes st.1 !! i) -> is_u32 i.
Proof.
  intros Hinv Hi. pose proof (t_range _ _ (v_tree _ Hinv) i Hi). pose proof (v_next _ Hinv). unfold is_u32 in *. lia.
Qed.

Lemma need_file_spec s d ino : fs_inv (s, d) ->
  need_file ino (s, d) = ((s, d), match view (s, d) !! ino with
    | None => Err NotFound | Some (ADir _) => Err IsADirectory | Some (AFile _) => Ok tt end).
Proof.
  intros Hinv. unfold need_file, mbind, ST_bind, get, lift. cbn [fst]. rewrite view_lookup. cbn [fst].
  unfold abs_node. by destruct (nodes s !! ino) as [[k [m|f]]|].
Qed.

(** The step every change to a file's data takes: its record is in the log of a
    state with the same view, and the record does [g] to the file. *)
Lemma commit_file s d s1 d1 s' d' r g ino f :
  fs_inv (s1, d1) -> same_view s d s1 d1 -> appended s1 d1 s' d' r ->
  nodes s1 !! ino = Some (mkNode File (BFile f)) ->
  (forall st, rec_effect (cursor s1 + HEADER_LEN) r st = alter_file g ino st) ->
  wf_file (g f) -> Forall (ext_in (half_base s1) (cursor s1 + rec_len r)) (f_extents (g f)) ->
  fs_inv (alter_file g ino s', d') /\
  view (alter_file g ino s', d') = <[ino := AFile (contents d' (g f))]> (view (s, d)).
Proof.
  intros Hinv1 Hsame Happ Hf Heff Hwf Hin.
  assert (Hns : nodes s' = nodes s1) by (rewrite (a_state _ _ _ _ _ Happ); done).
  assert (Hni : next_ino s' = next_ino s1) by (rewrite (a_state _ _ _ _ _ Happ); done).
  split.
  - rewrite alter_file_set, Hns, Hni. eapply commit; try done.
    + apply file_tree_ok; [apply Hinv1|]. intros k f' Hf'. congruence.
    + apply Hinv1.
    + intros i k f' Hi. unfold file_nodes in Hi. rewrite Hf in Hi.
      apply lookup_insert_Some in Hi as [[<- [= <- <-]]|[_ Hi]]; [done|]. by eapply appended_exts.
    + intros st Hst Hle Hb. cbv zeta. rewrite Heff, nodes_alter_file, alter_file_next_ino, Hst. split; [done|]. split; [done|].
      intros i Hi. apply Hb. by apply file_nodes_is_Some in Hi.
  - unfold view. cbn [fst snd]. rewrite nodes_alter_file, Hns.
    rewrite (view_file_nodes d' _ ino File f g _ Hf eq_refl). f_equal.
    rewrite (appended_view _ _ _ _ _ Hinv1 Happ). apply Hsame.
Qed.
(** ** Mounting *)

(** What replaying never touches. *)
Definition same_setup (a b : FsState) : Prop :=
  geom a = geom b /\ active_half a = active_half b /\ generation a = generation b /\ super_slot a = super_slot b.

Lemma alter_file_setup g ino st : same_setup (alter_file g ino st) st /\ next_seq (alter_file g ino st) = next_seq st.
Proof. unfold alter_file. by destruct (nodes st !! ino) as [[k [m|f]]|]. Qed.

Lemma apply_mk_setup kind ino parent name st :
  same_setup (apply_mk kind ino parent name st) st /\ next_seq (apply_mk kind ino parent name st) = next_seq st.
Proof. unfold apply_mk. simpl. by destruct (_ <=? _). Qed.

Lemma apply_unlink_setup parent name st :
  same_setup (apply_unlink parent name st) st /\ next_seq (apply_unlink parent name st) = next_seq st.
Proof. unfold apply_unlink. destruct (nodes st !! parent) as [[k [m|f]]|]; try done. by destruct (m !! name). Qed.

Lemma rec_effect_setup addr r st : same_setup (rec_effect addr r st) st /\ next_seq (rec_effect addr r st) = next_seq st.
Proof.
  unfold rec_effect, apply_write_extent, apply_trunc. repeat case_match;
    auto using alter_file_setup, apply_mk_setup, apply_unlink_setup; done.
Qed.

Lemma fold_log_setup recs : forall base st,
  is_u32 (next_seq st) -> same_setup (fold_log base recs st) st /\ is_u32 (next_seq (fold_log base recs st)).
Proof.
  induction recs as [|r recs IH]; intros base st Hq; simpl; [done|].
  pose proof (rec_effect_setup (base + HEADER_LEN) r st) as [Hs Hn].
  destruct (IH (base + rec_len r) (bump_seq (r_seq r) (rec_effect (base + HEADER_LEN) r st))) as [Hs' Hq'].
  - unfold bump_seq. destruct (_ <=? _); [apply u32_range|]. by rewrite Hn.
  - split; [|done]. unfold same_setup, bump_seq in *. destruct (_ <=? _); simpl in *; naive_solver congruence.
Qed.

Lemma tree_ok_next ns next next' :
  tree_ok ns next -> (forall i, is_Some (ns !! i) -> i < next') -> tree_ok ns next'.
Proof.
  intros [T1 T2 T3 T4 T5 T6] Hlt. split; try done. intros i Hi. specialize (Hlt i Hi). specialize (T3 i Hi). lia.
Qed.

Lemma load_spec s d :
  fs_inv (s, d) -> reads_ok d ->
  exists s', load (geom s) d = Ok (Some s') /\ fs_inv (s', d) /\ nodes s' = nodes s /\
    cursor s' = cursor s /\ same_setup s' s.
Proof.
  intros Hinv Hrd. pose proof (v_geom _ Hinv) as Hg. cbn [fst] in Hg.
  destruct (v_log _ Hinv) as (recs & Hok & Hlog & Hcur & Hn & Hnx & Hb). cbn [fst snd] in *.
  destruct (half_bounds _ Hinv) as (Hh1 & Hh2 & _). cbn [fst] in Hh1, Hh2.
  set (st0 := empty_state (geom s) (active_half s) (generation s) (super_slot s)) in *.
  destruct (fold_log_setup recs (half_base s) st0) as [Hset Hq]; [unfold is_u32; simpl; lia|].
  exists (replayed (geom s) (active_half s) (generation s) (super_slot s) recs).
  assert (Hload : load (geom s) d = Ok (Some (replayed (geom s) (active_half s) (generation s) (super_slot s) recs))).
  { unfold load.
    pose proof (g_super _ Hg 0 ltac:(by left)) as (Ha0 & _ & Ha1). pose proof (g_super _ Hg 1 ltac:(by right)) as (Hb0 & _ & Hb1).
    unfold sel in Ha0, Ha1, Hb0, Hb1. simpl in Ha0, Ha1, Hb0, Hb1. unfold FLASH_SIZE in *.
    rewrite !flash_read_total by (done || (unfold SB_LEN, FLASH_SIZE; lia)). cbn [mbind KResult_bind].
    pose proof (v_super _ Hinv) as Hs. unfold super_ok in Hs. cbn [fst snd] in Hs. rewrite Hs.
    cbn [sb_active_half sb_generation].
    replace (2 <=? active_half s) with false
      by (symmetry; apply Z.leb_gt; destruct (v_half _ Hinv) as [Hx|Hx]; simpl in Hx; lia).
    do 2 f_equal. apply replay_spec; try done; try (unfold half_base, FLASH_SIZE in *; lia).
    unfold log_ends, HEADER_LEN. fold (half_base s). rewrite <- Hcur.
    destruct (decide (half_base s + half_size (geom s) < cursor s + 16)); [by left|right].
    eapply erased_mono; [apply (v_erased _ Hinv)|simpl; lia|simpl; lia]. }
  split; [exact Hload|].
  assert (Hnodes : nodes (replayed (geom s) (active_half s) (generation s) (super_slot s) recs) = nodes s) by exact Hn.
  assert (Hcur' : cursor (replayed (geom s) (active_half s) (generation s) (super_slot s) recs) = cursor s) by (symmetry; exact Hcur).
  split; [|by split_and!; try apply Hset].
  set (s' := replayed _ _ _ _ _) in *.
  assert (Hs' : same_setup s' s) by (by split_and!; apply Hset).
  assert (Hni' : next_ino s' = next_ino (fold_log (half_base s) recs st0)) by done.
  assert (Hqs : next_seq s' = next_seq (fold_log (half_base s) recs st0)) by done.
  clearbody s'. destruct Hs' as (Hs1 & Hs2 & Hs3 & Hs4).
  assert (Hhb : half_base s' = half_base s) by (unfold half_base; by rewrite Hs1, Hs2).
  destruct Hinv as [I1 I2 I3 I4 I5 I6 I7 I8 I9 I10 I11 I12]. cbn [fst snd] in *.
  split; cbn [fst snd]; rewrite ?Hs1, ?Hs2, ?Hs3, ?Hs4, ?Hnodes, ?Hcur', ?Hhb; try done.
  - apply (tree_ok_next _ _ _ I4). by rewrite Hni'.
  - rewrite Hni'. destruct (t_root _ _ I4) as (m & (k & Hr)%dir_of_Some).
    specialize (Hb ROOT_INO ltac:(by eexists)). unfold is_u32, ROOT_INO in *. lia.
  - by rewrite Hqs.
  - exists recs. rewrite Hhb, Hcur', Hs1, Hs2, Hs3, Hs4, Hnodes, Hni'. done.
  - unfold super_ok. by rewrite Hs1, Hs2, Hs3, Hs4.
Qed.

(** ** Formatting *)

Lemma format_spec g d d' s :
  geom_ok g -> format g d = (d', Ok s) -> fs_inv (s, d') /\ s = empty_state g 0 1 0.
Proof.
  intros Hg Hf. unfold format in Hf. kres. split; [|done].
  pose proof (g_super _ Hg 0 ltac:(by left)) as (Ha0 & Ham & Ha1). pose proof (g_super _ Hg 1 ltac:(by right)) as (Hb0 & Hbm & Hb1).
  pose proof (g_half _ Hg 0 ltac:(by left)) as (Hh0 & Hhm & Hh1).
  pose proof (g_cross _ Hg 0 0 ltac:(by left) ltac:(by left)) as Hx0.
  pose proof (g_cross _ Hg 1 0 ltac:(by right) ltac:(by left)) as Hx1.
  pose proof (g_supers _ Hg) as Hxx. destruct (g_size _ Hg) as [Hsz Hszm].
  unfold sel, apart in *. cbn [Z.eqb] in *. unfold SB_LEN in *.
  rename s0 into d1, s1 into d2, s2 into d3.
  assert (Hend : ((half_off g).1 + half_size g) mod 4096 = 0) by (rewrite Z.add_mod, Hhm, Hszm by lia; done).
  assert (Hfuel : (half_off g).1 + half_size g - (half_off g).1 <= 4096 * Z.of_nat (S (Z.to_nat (half_size g / SEC)))).
  { unfold SEC, FLASH_SECTOR_SIZE. pose proof (Z.div_mod (half_size g) 4096). pose proof (Z.div_pos (half_size g) 4096). lia. }
  unfold FLASH_SIZE in *.
  assert (Hd4 : cells d' (super_off g).1 20 = encode_super (mkSuperBlock 1 0)).
  { apply flash_write_Ok in Hm2 as [Hw _].
    - rewrite encode_super_length in Hw. exact Hw.
    - apply encode_super_ok.
    - rewrite encode_super_length. intros a Ha.
      rewrite (erase_half_keeps _ _ _ _ _ _ Hh0 Hhm Hend ltac:(unfold FLASH_SIZE; lia) Hm1) by lia.
      apply flash_erase_Ok in Hm as [He1 _]; [|lia|done].
      rewrite (flash_erase_frame (super_off g).2 d1 d2 _ a ltac:(lia) Hm0)
        by (pose proof (Z.div_mod (super_off g).2 4096); lia).
      apply He1. lia. }
  set (s0 := empty_state g 0 1 0) in *. split; cbn [fst snd].
  - exact Hg.
  - by left.
  - by left.
  - apply empty_tree_ok.
  - unfold is_u32. simpl. lia.
  - unfold is_u32. simpl. lia.
  - unfold is_u32. simpl. lia.
  - intros i k f Hi. cbn [s0 empty_state nodes] in Hi. apply lookup_singleton_Some in Hi as [_ Hi]. done.
  - exists []. unfold s0, half_base, log_at. simpl. split; [constructor|]. split; [by rewrite log_len_nil|].
    rewrite log_len_nil. unfold sel. simpl. split; [lia|]. split; [done|]. split; [done|].
    intros i [x [<- _]%lookup_singleton_Some]. unfold ROOT_INO. lia.
  - unfold s0, half_base. simpl. unfold sel. simpl. lia.
  - unfold s0, half_base. simpl. unfold sel. simpl. intros a Ha.
    rewrite (flash_write_frame _ _ _ _ _ a Hm2) by (rewrite encode_super_length; lia).
    apply (erase_half_Ok _ _ _ _ _ Hh0 Hhm Hend ltac:(unfold FLASH_SIZE; lia) Hfuel Hm1). lia.
  - unfold super_ok. cbn [s0 geom empty_state]. unfold SB_LEN. rewrite Hd4, decode_encode_super by (unfold is_u32; lia).
    assert (Hb : decode_super (cells d' (super_off g).2 20) = None).
    { assert (He : erased d' (super_off g).2 20).
      { intros a Ha. rewrite (flash_write_frame _ _ _ _ _ a Hm2) by (rewrite encode_super_length; lia).
        rewrite (erase_half_keeps _ _ _ _ _ _ Hh0 Hhm Hend ltac:(unfold FLASH_SIZE; lia) Hm1) by lia.
        apply flash_erase_Ok in Hm0 as [He _]; [|lia|done]. apply He. lia. }
      unfold decode_super. rewrite cells_length. change (Z.of_nat (Z.to_nat 20) <? SB_LEN) with false.
      unfold rd_u32. rewrite !cells_at by lia. rewrite !He by lia. done. }
    rewrite Hb. done.
Qed.

(** ** The operations *)

Lemma read_file_spec s d ino off n
    (Hinv : fs_inv (s, d)) (Hrd : reads_ok d) (Hoff : 0 <= off) (Hn : 0 <= n) :
  read_file s d ino off n =
  match view (s, d) !! ino with
  | None => Err NotFound
  | Some (ADir _) => Err IsADirectory
  | Some (AFile c) => Ok (slice off n c)
  end.
Proof.
  rewrite view_lookup. cbn [fst snd]. destruct (nodes s !! ino) as [[k [m|f]]|] eqn:E; cbn [fmap option_fmap option_map abs_node n_body].
  - unfold read_file. by rewrite E.
  - destruct (node_file _ _ _ _ _ (v_tree _ Hinv) E) as [-> Hwf]. apply (read_file_contents s d ino File); try done.
    pose proof (v_exts _ Hinv ino File f E) as Hin. destruct (half_bounds _ Hinv) as (? & ? & _). cbn [fst snd] in *.
    eapply Forall_impl; [exact Hin|]. intros e []. unfold ext_in. lia.
  - unfold read_file. by rewrite E.
Qed.

Lemma write_file_spec s d ino off buf st' res
    (Hinv : fs_inv (s, d)) (Hgen : generation s + 1 < 2 ^ 32) (Hbuf : bytes_ok buf) (Hl : len buf < 2 ^ 31 - 8)
    (Hoff : 0 <= off) (Hw : write_file ino off buf (s, d) = (st', res)) :
  match view (s, d) !! ino with
  | None => res = Err NotFound /\ st' = (s, d)
  | Some (ADir _) => res = Err IsADirectory /\ st' = (s, d)
  | Some (AFile c) =>
    if decide (buf = []) then res = Ok 0 /\ st' = (s, d)
    else outcome (s, d) st' res (len buf) (<[ino := AFile (overwrite c off buf)]> (view (s, d)))
  end.
Proof.
  unfold write_file in Hw. unfold mbind at 1, ST_bind at 1 in Hw. rewrite need_file_spec in Hw by done.
  destruct (view (s, d) !! ino) as [[m|c]|] eqn:Hv; [by injection Hw as <- <-| |by injection Hw as <- <-].
  destruct (decide (buf = [])) as [->|Hne]; [by injection Hw as <- <-|].
  assert (Hpos : 0 < len buf) by (destruct buf; [done|simpl; lia]).
  replace (len buf =? 0) with false in Hw by (symmetry; apply Z.eqb_neq; lia).
  unfold try_u32, U32_MAX in Hw. destruct (off <=? 2 ^ 32 - 1) eqn:Eo.
  2:{ injection Hw as <- <-. right. by eexists. }
  unfold mbind at 1, ST_bind at 1, lift at 1 in Hw. cbn [ok_or] in Hw.
  unfold checked_add32, U32_MAX in Hw. rewrite (u32_small (len buf)) in Hw by lia.
  destruct (off + len buf <=? 2 ^ 32 - 1) eqn:Ee.
  2:{ injection Hw as <- <-. right. by eexists. }
  zbool. unfold mbind at 1, ST_bind at 1, lift at 1 in Hw. cbn [ok_or] in Hw.
  unfold mbind at 1, ST_bind at 1 in Hw.
  destruct (append Write (enc_write ino off buf) (s, d)) as [st1 r1] eqn:Ea.
  eapply append_spec in Ea as [(e & -> & Hve)|(s1 & d1 & s' & d' & -> & -> & Hinv1 & Hsame & Happ)];
    [| |done|done|by apply enc_write_ok|rewrite enc_write_len; lia|rewrite enc_write_len; lia].
  { injection Hw as <- <-. right. by eexists. }
  cbn [update modify mbind ST_bind mret ST_ret] in Hw. unfold update, modify, mbind, ST_bind in Hw.
  injection Hw as <- <-. left. split; [done|].
  destruct (same_view_file _ _ _ _ _ _ Hinv1 Hsame Hv) as (f & Hf & ->).
  destruct (half_bounds _ Hinv1) as (Hh1 & Hh2 & _). cbn [fst] in Hh1, Hh2. unfold FLASH_SIZE in Hh2.
  pose proof (a_ok _ _ _ _ _ Happ) as Hr. pose proof (rec_len_bounds _ Hr) as [Hrb _].
  cbn [r_payload] in Hrb. rewrite enc_write_len in Hrb. pose proof (a_end _ _ _ _ _ Happ) as Hend.
  destruct (node_file _ _ _ _ _ (v_tree _ Hinv1) Hf) as [_ Hwf].
  pose proof (v_exts _ Hinv1 ino File f Hf) as Hin. cbn [fst] in Hin.
  unfold HEADER_LEN, WRITE_DATA_OFF. rewrite (u32_small (cursor s1 + 16 + 8)) by lia.
  set (g := fun f0 => splice_extent f0 off (len buf) (cursor s1 + 16 + 8)).
  assert (Hdata : cells d' (cursor s1 + 16 + 8) (len buf) = buf).
  { destruct (cells_slices d' (cursor s1) _ Hr (a_cells _ _ _ _ _ Happ)) as [_ Hpay]. cbn [r_payload] in Hpay.
    rewrite enc_write_len in Hpay.
    rewrite <- (slice_cells d' (cursor s1 + 16) (8 + len buf) 8 (len buf)), Hpay by lia.
    unfold enc_write. rewrite app_assoc, slice_app_r; rewrite length_app, !le_bytes_length; [|lia].
    by apply slice_0_all. }
  destruct (commit_file s d s1 d1 s' d' _ g ino f Hinv1 Hsame Happ Hf) as [Hi' Hv'].
  - intros st. rewrite rec_effect_write; [|eapply ino_u32; [exact Hinv1|by eexists]|unfold is_u32; lia].
    unfold apply_write_extent, HEADER_LEN, WRITE_DATA_OFF. by rewrite u32_small by lia.
  - unfold g. apply (splice_wf f off (len buf) _ (half_base s1) (cursor s1)); (done || lia).
  - unfold g. apply (splice_in f off (len buf) _ (half_base s1) (cursor s1)); (done || lia).
  - split; [exact Hi'|]. unfold apply_write_extent. fold g. rewrite Hv'. unfold g.
    rewrite (splice_contents d' f off buf (cursor s1 + 16 + 8) (half_base s1) (cursor s1)) by (done || lia).
    do 3 f_equal. eapply contents_frame; [exact Hin|]. intros a Ha. apply (a_frame _ _ _ _ _ Happ). lia.
Qed.

Lemma truncate_file_spec s d ino l st' res :
  fs_inv (s, d) -> generation s + 1 < 2 ^ 32 -> 0 <= l -> truncate_file ino l (s, d) = (st', res) ->
  match view (s, d) !! ino with
  | None => res = Err NotFound /\ st' = (s, d)
  | Some (ADir _) => res = Err IsADirectory /\ st' = (s, d)
  | Some (AFile c) => outcome (s, d) st' res tt (<[ino := AFile (set_size c l)]> (view (s, d)))
  end.
Proof.
  intros Hinv Hgen Hl0 Hw. unfold truncate_file in Hw. unfold mbind at 1, ST_bind at 1 in Hw. rewrite need_file_spec in Hw by done.
  destruct (view (s, d) !! ino) as [[m|c]|] eqn:Hv; [by injection Hw as <- <-| |by injection Hw as <- <-].
  unfold try_u32, U32_MAX in Hw. destruct (l <=? 2 ^ 32 - 1) eqn:Eo.
  2:{ injection Hw as <- <-. right. by eexists. }
  zbool. unfold mbind at 1, ST_bind at 1, lift at 1 in Hw. cbn [ok_or] in Hw.
  unfold mbind at 1, ST_bind at 1 in Hw.
  destruct (append Truncate (enc_trunc ino l) (s, d)) as [st1 r1] eqn:Ea.
  eapply append_spec in Ea as [(e & -> & Hve)|(s1 & d1 & s' & d' & -> & -> & Hinv1 & Hsame & Happ)];
    [| |done|done|by apply enc_trunc_ok|rewrite enc_trunc_len; lia|rewrite enc_trunc_len; lia].
  { injection Hw as <- <-. right. by eexists. }
  unfold update, modify in Hw. injection Hw as <- <-. left. split; [done|].
  destruct (same_view_file _ _ _ _ _ _ Hinv1 Hsame Hv) as (f & Hf & ->).
  destruct (half_bounds _ Hinv1) as (Hh1 & Hh2 & _). cbn [fst] in Hh1, Hh2.
  destruct (node_file _ _ _ _ _ (v_tree _ Hinv1) Hf) as [_ Hwf].
  pose proof (v_exts _ Hinv1 ino File f Hf) as Hin. cbn [fst] in Hin.
  set (g := fun f0 => trunc_file f0 l).
  destruct (commit_file s d s1 d1 s' d' _ g ino f Hinv1 Hsame Happ Hf) as [Hi' Hv'].
  - intros st. apply rec_effect_trunc; [eapply ino_u32; [exact Hinv1|by eexists]|unfold is_u32; lia].
  - unfold g. apply trunc_wf; [done|lia].
  - unfold g. apply trunc_in; first [by eapply appended_exts|done|lia].
  - split; [exact Hi'|]. change (apply_trunc ino l s') with (alter_file g ino s'). rewrite Hv'. unfold g.
    rewrite trunc_contents by (done || lia).
    do 3 f_equal. eapply contents_frame; [exact Hin|]. intros a Ha. apply (a_frame _ _ _ _ _ Happ). lia.
Qed.

(** What a fresh inode of kind [kind] shows. *)
Definition new_node (kind : InodeKind) : AbsNode := match kind with Dir => ADir ∅ | _ => AFile [] end.

Lemma view_mk_nodes d kind ino parent name ns m :
  ns !! ino = None -> dir_of ns parent = Some m ->
  abs_node d <$> mk_nodes kind ino parent name ns =
  <[parent := ADir (<[name := ino]> m)]> (<[ino := new_node kind]> (abs_node d <$> ns)).
Proof.
  intros Hi Hp. destruct (mk_nodes_eq kind ino parent name ns m Hi Hp) as (k & _ & ->).
  rewrite !fmap_insert. f_equal. f_equal. by destruct kind.
Qed.

Lemma create_spec s d parent name kind st' res :
  fs_inv (s, d) -> generation s + 1 < 2 ^ 32 -> next_ino s + 1 < 2 ^ 32 -> is_str name ->
  create parent name kind (s, d) = (st', res) ->
  match view (s, d) !! parent with
  | None => res = Err NotFound /\ st' = (s, d)
  | Some (AFile _) => res = Err NotADirectory /\ st' = (s, d)
  | Some (ADir m) =>
    if decide (is_Some (m !! name)) then res = Err AlreadyExists /\ st' = (s, d)
    else if decide (str_len name = 0 \/ MAX_NAME < str_len name) then res = Err NameTooLong /\ st' = (s, d)
    else if decide (kind = Dir \/ kind = File) then
      view (s, d) !! next_ino s = None /\
      outcome (s, d) st' res (next_ino s)
        (<[parent := ADir (<[name := next_ino s]> m)]> (<[next_ino s := new_node kind]> (view (s, d))))
    else res = Err NotSupported /\ st' = (s, d)
  end.
Proof.
  intros Hinv Hgen Hni Hstr Hw. unfold create in Hw.
  unfold mbind at 1, ST_bind at 1, get at 1 in Hw. unfold mbind at 1, ST_bind at 1, lift at 1 in Hw. cbn [fst] in Hw.
  destruct (view (s, d) !! parent) as [[m|c]|] eqn:Hv.
  2:{ apply view_file in Hv as (f & Hf & _); [|done]. cbn [fst] in Hf. rewrite Hf in Hw. by injection Hw as <- <-. }
  2:{ rewrite view_lookup in Hv. cbn [fst] in Hv. destruct (nodes s !! parent); [done|]. by injection Hw as <- <-. }
  apply view_dir in Hv. cbn [fst] in Hv. pose proof Hv as (k & Hp)%dir_of_Some. rewrite Hp in Hw.
  destruct (decide (is_Some (m !! name))) as [[c Hc]|Hn].
  { rewrite Hc in Hw. by injection Hw as <- <-. }
  apply eq_None_not_Some in Hn. rewrite Hn in Hw. unfold mbind at 1, ST_bind at 1 in Hw.
  destruct (decide (str_len name = 0 \/ MAX_NAME < str_len name)) as [Hlen|Hlen].
  { replace ((str_len name =? 0) || (MAX_NAME <? str_len name)) with true in Hw; [by injection Hw as <- <-|].
    symmetry. apply orb_true_iff. by rewrite Z.eqb_eq, Z.ltb_lt. }
  replace ((str_len name =? 0) || (MAX_NAME <? str_len name)) with false in Hw
    by (symmetry; apply orb_false_iff; rewrite Z.eqb_neq, Z.ltb_ge; lia).
  cbn [mret ST_ret] in Hw. unfold mbind at 1, ST_bind at 1, lift at 1 in Hw.
  destruct (decide (kind = Dir \/ kind = File)) as [Hk|Hk]; [|destruct kind; try (by destruct Hk; auto); by injection Hw as <- <-].
  assert (Hmax : len (as_bytes name) <= 255) by (unfold str_len, MAX_NAME in Hlen; lia).
  assert (Hfresh : nodes s !! next_ino s = None) by (apply tree_fresh, (v_tree _ Hinv)).
  split; [rewrite view_lookup; cbn [fst]; by rewrite Hfresh|].
  set (t := match kind with Dir => MkDir | _ => MkFile end).
  assert (Hw' : (append t (enc_mk (next_ino s) parent (as_bytes name)) ;;
    update (apply_mk kind (next_ino s) parent name) ;; mret (next_ino s)) (s, d) = (st', res))
    by (by destruct Hk as [-> | ->]). clear Hw. rename Hw' into Hw.
  assert (Ht : t = MkFile \/ t = MkDir) by (unfold t; destruct kind; auto).
  unfold mbind at 1, ST_bind at 1 in Hw.
  destruct (append t (enc_mk (next_ino s) parent (as_bytes name)) (s, d)) as [st1 r1] eqn:Ea.
  eapply append_spec in Ea as [(e & -> & Hve)|(s1 & d1 & s' & d' & -> & -> & Hinv1 & Hsame & Happ)];
    [| |done|done|apply enc_mk_ok, as_bytes_ok|rewrite enc_mk_len; lia|by destruct Ht as [-> | ->]; intros []].
  { injection Hw as <- <-. right. by eexists. }
  unfold update, modify, mbind, ST_bind in Hw. injection Hw as <- <-. left. split; [done|].
  pose proof (same_view_dir _ _ _ _ _ _ Hsame Hv) as Hv1. destruct Hsame as (Hsv & Hsn & Hsg).
  assert (Hns : nodes s' = nodes s1) by (rewrite (a_state _ _ _ _ _ Happ); done).
  assert (Hnx : next_ino s' = next_ino s1) by (rewrite (a_state _ _ _ _ _ Happ); done).
  assert (Hf1 : nodes s1 !! next_ino s1 = None) by (apply tree_fresh, (v_tree _ Hinv1)).
  assert (Hpu : is_u32 parent) by (eapply ino_u32; [exact Hinv|by eexists]).
  pose proof (v_next _ Hinv) as Hnu. cbn [fst] in Hnu. unfold is_u32 in Hnu, Hpu.
  split.
  - rewrite <- Hsn, <- Hnx, apply_mk_set, Hns, Hnx by (unfold is_u32; lia). eapply commit; [exact Hinv1|exact Happ| | | |].
    + apply (mk_tree_ok _ _ _ _ _ m); first [done|apply (v_tree _ Hinv1)|lia].
    + unfold is_u32. lia.
    + intros i kf f Hi. destruct (mk_nodes_eq kind (next_ino s1) parent name (nodes s1) m Hf1 Hv1) as (k' & Hp1 & Hmk).
      rewrite Hmk in Hi. apply lookup_insert_Some in Hi as [[_ Hi]|[_ Hi]]; [done|].
      apply lookup_insert_Some in Hi as [[_ Hi]|[_ Hi]]; [|by eapply appended_exts].
      destruct Hk as [-> | ->]; simpl in Hi; [done|]. injection Hi as <- <-. constructor.
    + intros st Hst Hle Hb. cbv zeta. rewrite Hsn in *. rewrite rec_effect_mk by (done || unfold is_u32; lia).
      replace (if decide (t = MkDir) then Dir else File) with kind by (unfold t; destruct Hk as [-> | ->]; done).
      rewrite nodes_apply_mk, Hst. split; [done|].
      assert (Hnx' : next_ino (apply_mk kind (next_ino s) parent name st) = next_ino s + 1).
      { unfold apply_mk. simpl. replace (next_ino st <=? next_ino s) with true by (symmetry; apply Z.leb_le; lia).
        simpl. by rewrite u32_small by lia. }
      rewrite Hnx'. split; [lia|]. intros i Hi.
      destruct (mk_nodes_eq kind (next_ino s) parent name (nodes s1) m Hf1 Hv1) as (k' & Hp1 & Hmk).
      rewrite Hmk, !lookup_insert_is_Some' in Hi. pose proof (t_range _ _ (v_tree _ Hinv1)) as Hr. cbn [fst] in Hr.
      destruct Hi as [<-|[<-|Hi]]; [specialize (Hr parent ltac:(by eexists)); lia|lia|specialize (Hr i Hi); lia].
  - unfold view. cbn [fst snd]. rewrite nodes_apply_mk, Hns, <- Hsn.
    rewrite (view_mk_nodes _ _ _ _ _ _ m) by done. by rewrite (appended_view _ _ _ _ _ Hinv1 Happ), Hsv.
Qed.

Definition nonempty_dir (v : gmap Z AbsNode) (c : Z) : bool :=
  match v !! c with Some (ADir sub) => negb (bool_decide (sub = ∅)) | _ => false end.

Lemma unlink_spec s d parent name st' res :
  fs_inv (s, d) -> generation s + 1 < 2 ^ 32 -> is_str name -> unlink parent name (s, d) = (st', res) ->
  match view (s, d) !! parent with
  | None => res = Err NotFound /\ st' = (s, d)
  | Some (AFile _) => res = Err NotADirectory /\ st' = (s, d)
  | Some (ADir m) =>
    match m !! name with
    | None => res = Err NotFound /\ st' = (s, d)
    | Some c =>
      if nonempty_dir (view (s, d)) c then res = Err Busy /\ st' = (s, d)
      else outcome (s, d) st' res tt (delete c (<[parent := ADir (delete name m)]> (view (s, d))))
    end
  end.
Proof.
  intros Hinv Hgen Hstr Hw. unfold unlink in Hw.
  unfold mbind at 1, ST_bind at 1, get at 1 in Hw. unfold mbind at 1, ST_bind at 1, lift at 1 in Hw. cbn [fst] in Hw.
  destruct (view (s, d) !! parent) as [[m|c]|] eqn:Hv.
  2:{ apply view_file in Hv as (f & Hf & _); [|done]. cbn [fst] in Hf. rewrite Hf in Hw. by injection Hw as <- <-. }
  2:{ rewrite view_lookup in Hv. cbn [fst] in Hv. destruct (nodes s !! parent); [done|]. by injection Hw as <- <-. }
  apply view_dir in Hv. cbn [fst] in Hv. pose proof Hv as (k & Hp)%dir_of_Some. rewrite Hp in Hw.
  unfold mbind at 1, ST_bind at 1, lift at 1 in Hw.
  destruct (m !! name) as [c|] eqn:Hc; cbn [ok_or] in Hw; [|by injection Hw as <- <-].
  assert (Hent : entry (nodes s) parent name c) by (by exists m).
  destruct (t_entry _ _ (v_tree _ Hinv) _ _ _ Hent) as (_ & _ & _ & Hlen). unfold str_len, MAX_NAME in Hlen.
  unfold mbind at 1, ST_bind at 1 in Hw.
  destruct (nonempty_dir (view (s, d)) c) eqn:Hne.
  { unfold nonempty_dir in Hne. rewrite view_lookup in Hne. cbn [fst] in Hne. unfold abs_node in Hne.
    destruct (nodes s !! c) as [[kc [sub|]]|]; simpl in Hne; try done.
    apply negb_true_iff, bool_decide_eq_false in Hne. rewrite decide_False in Hw by done. by injection Hw as <- <-. }
  assert (Hemp : forall sub, dir_of (nodes s) c = Some sub -> sub = ∅).
  { intros sub Hs. apply (view_dir (s, d)) in Hs. unfold nonempty_dir in Hne. rewrite Hs in Hne.
    by apply negb_false_iff, bool_decide_eq_true in Hne. }
  assert (Hw' : (append Unlink (enc_unlink parent (as_bytes name)) ;; update (apply_unlink parent name)) (s, d) = (st', res)).
  { destruct (nodes s !! c) as [[kc [sub|]]|] eqn:Ec; try exact Hw.
    rewrite decide_True in Hw; [exact Hw|]. apply Hemp. unfold dir_of. by rewrite Ec. }
  clear Hw. rename Hw' into Hw. unfold mbind at 1, ST_bind at 1 in Hw.
  destruct (append Unlink (enc_unlink parent (as_bytes name)) (s, d)) as [st1 r1] eqn:Ea.
  eapply append_spec in Ea as [(e & -> & Hve)|(s1 & d1 & s' & d' & -> & -> & Hinv1 & Hsame & Happ)];
    [| |done|done|apply enc_unlink_ok, as_bytes_ok|rewrite enc_unlink_len; lia|by intros []].
  { injection Hw as <- <-. right. by eexists. }
  unfold update, modify in Hw. injection Hw as <- <-. left. split; [done|].
  pose proof (same_view_dir _ _ _ _ _ _ Hsame Hv) as Hv1. pose proof (node_dir _ _ _ _ (v_tree _ Hinv1) Hv1) as Hp1.
  cbn [fst] in Hp1. assert (Hemp1 : forall sub, dir_of (nodes s1) c = Some sub -> sub = ∅).
  { intros sub Hs. apply Hemp. apply (view_dir (s1, d1)) in Hs. apply (view_dir (s, d)). by rewrite <- (proj1 Hsame). }
  assert (Hns : nodes s' = nodes s1) by (rewrite (a_state _ _ _ _ _ Happ); done).
  assert (Hnx : next_ino s' = next_ino s1) by (rewrite (a_state _ _ _ _ _ Happ); done).
  assert (Hpu : is_u32 parent) by (eapply ino_u32; [exact Hinv|by eexists]).
  pose proof (unlink_nodes_eq parent name (nodes s1) Dir m c Hp1 Hc) as Heq.
  split.
  - rewrite apply_unlink_set, Hns, Hnx. eapply commit; [exact Hinv1|exact Happ| |apply (v_next _ Hinv1)| |].
    + eapply unlink_tree_ok; [apply (v_tree _ Hinv1)|exact Hv1|exact Hc|exact Hemp1].
    + intros i kf f Hi. rewrite Heq in Hi. apply lookup_delete_Some in Hi as [_ Hi].
      apply lookup_insert_Some in Hi as [[_ Hi]|[_ Hi]]; [done|]. by eapply appended_exts.
    + intros st Hst Hle Hb. cbv zeta. rewrite rec_effect_unlink by done. rewrite nodes_apply_unlink, Hst.
      rewrite apply_unlink_set. cbn [set_next_ino next_ino]. split; [done|]. split; [done|].
      intros i Hi. apply Hb. rewrite Heq, lookup_delete_is_Some, lookup_insert_is_Some' in Hi.
      destruct Hi as [_ [<-|Hi]]; [by eexists|done].
  - unfold view at 1. cbn [fst snd]. rewrite nodes_apply_unlink, Hns, Heq, fmap_delete, fmap_insert.
    by rewrite (appended_view _ _ _ _ _ Hinv1 Happ), (proj1 Hsame).
Qed.
End Ops.

(** ** Properties *)

Section Durable.
Context {D : Type} `{NorFlashLaws D}.

(** Mounting the flash of [st] shows the files [v]. *)
Definition mounts_as (st : FsState * D) (v : gmap Z AbsNode) : Prop :=
  reads_ok st.2 -> exists s', load (geom st.1) st.2 = Ok (Some s') /\ fs_inv (s', st.2) /\ view (s', st.2) = v.

(** Done, in memory and on the flash; or failed with the files as they were. *)
Definition durable_outcome {A} (st st' : FsState * D) (res : KResult A) (a : A) (v : gmap Z AbsNode) : Prop :=
  (res = Ok a /\ fs_inv st' /\ view st' = v /\ mounts_as st' v) \/ (exists e, res = Err e /\ view st' = view st /\ (nor_works D -> fs_inv st')).

Lemma fs_inv_mounts st : fs_inv st -> mounts_as st (view st).
Proof.
  destruct st as [s d]. intros Hinv Hrd. destruct (load_spec s d Hinv Hrd) as (s' & Hl & Hinv' & Hn & _).
  exists s'. split; [done|]. split; [done|]. unfold view. cbn [fst snd]. by rewrite Hn.
Qed.

Lemma outcome_durable {A} st st' (res : KResult A) a v : outcome st st' res a v -> durable_outcome st st' res a v.
Proof.
  intros [(-> & Hinv & Hv)|He]; [left|by right]. split; [done|]. split; [done|]. split; [done|].
  rewrite <- Hv. by apply fs_inv_mounts.
Qed.
End Durable.

(** A small geometry and a blank chip, for the witnesses. *)
Definition tiny : Geom := mkGeom (0, 4096) (8192, 12288) 4096.
Definition blank : nor_mem := fun _ => 255.
Definition tiny_disk : nor_mem := (format tiny blank).1.

Lemma tiny_ok : geom_ok tiny.
Proof.
  split.
  - by split.
  - intros i [-> | ->]; by split_and!.
  - intros i [-> | ->]; by split_and!.
  - by left.
  - by left.
  - intros i j [-> | ->] [-> | ->]; by left.
Qed.

Lemma tiny_inv : fs_inv (empty_state tiny 0 1 0, tiny_disk).
Proof.
  assert (Hf : format tiny blank = (tiny_disk, Ok (empty_state tiny 0 1 0))) by (vm_compute; reflexivity).
  by apply format_spec in Hf as [Hi _]; [|apply tiny_ok].
Qed.

(** The tiny file system with one empty file, [/f], as inode 2. *)
Definition tiny_file : FsState * nor_mem := (create ROOT_INO "f" File (empty_state tiny 0 1 0, tiny_disk)).1.

Lemma tiny_file_inv : fs_inv tiny_file.
Proof.
  destruct (create ROOT_INO "f" File (empty_state tiny 0 1 0, tiny_disk)) as [st res] eqn:E.
  assert (Hst : st = tiny_file) by (unfold tiny_file; by rewrite E). rewrite <- Hst.
  pose proof (create_spec (empty_state tiny 0 1 0) tiny_disk ROOT_INO "f" File st res tiny_inv ltac:(done) ltac:(done) ltac:(done) E) as Hc.
  assert (Hres : res = Ok 2) by (change res with (st, res).2; rewrite <- E; vm_compute; reflexivity).
  subst res. destruct (view _ !! ROOT_INO) as [[m|c]|] eqn:Hv; [|by destruct Hc..].
  apply view_dir in Hv. injection Hv as <-. rewrite decide_False in Hc by (by intros [? ?]).
  rewrite decide_False, decide_True in Hc by (auto; vm_compute; by intros [|]).
  destruct Hc as [_ [(_ & Hi & _)|(e & He & _)]]; [exact Hi|done].
Qed.

(** ** Properties *)

Section Properties.
Context {D : Type} `{NorFlashLaws D}.

(** C1. [write_file] is the POSIX write: on a file it either stores [buf] at [off]
    in the contents (zeros filling a gap), changes no other file, and leaves a
    flash that mounts to exactly that state, compacting the log when it must; or
    it reports an error, no file has changed and, unless the chip itself failed, the
    file system is ready for the next operation. *)
Theorem write_file_refines s d ino off buf st' res
    (Hinv : fs_inv (s, d)) (Hgen : generation s + 1 < 2 ^ 32) (Hbuf : bytes_ok buf) (Hl : len buf < 2 ^ 31 - 8)
    (Hoff : 0 <= off) (Hw : write_file ino off buf (s, d) = (st', res)) :
  match view (s, d) !! ino with
  | None => res = Err NotFound /\ st' = (s, d)
  | Some (ADir _) => res = Err IsADirectory /\ st' = (s, d)
  | Some (AFile c) =>
    if decide (buf = []) then res = Ok 0 /\ st' = (s, d)
    else durable_outcome (s, d) st' res (len buf) (<[ino := AFile (overwrite c off buf)]> (view (s, d)))
  end.
Proof.
  pose proof (write_file_spec s d ino off buf st' res Hinv Hgen Hbuf Hl Hoff Hw) as Hs.
  repeat case_match; try done. by apply outcome_durable.
Qed.

(** C4. [create] refuses a missing or non-directory parent, a taken name, an empty
    or overlong name and an unsupported kind, without effect; otherwise it adds
    an empty node under a fresh number, durably, or fails, changes no file and, unless
    the chip itself failed, is ready for the next operation. *)
Theorem create_refines s d parent name kind st' res
    (Hinv : fs_inv (s, d)) (Hgen : generation s + 1 < 2 ^ 32) (Hni : next_ino s + 1 < 2 ^ 32) (Hstr : is_str name)
    (Hw : create parent name kind (s, d) = (st', res)) :
  match view (s, d) !! parent with
  | None => res = Err NotFound /\ st' = (s, d)
  | Some (AFile _) => res = Err NotADirectory /\ st' = (s, d)
  | Some (ADir m) =>
    if decide (is_Some (m !! name)) then res = Err AlreadyExists /\ st' = (s, d)
    else if decide (str_len name = 0 \/ MAX_NAME < str_len name) then res = Err NameTooLong /\ st' = (s, d)
    else if decide (kind = Dir \/ kind = File) then
      view (s, d) !! next_ino s = None /\
      durable_outcome (s, d) st' res (next_ino s)
        (<[parent := ADir (<[name := next_ino s]> m)]> (<[next_ino s := new_node kind]> (view (s, d))))
    else res = Err NotSupported /\ st' = (s, d)
  end.
Proof.
  pose proof (create_spec s d parent name kind st' res Hinv Hgen Hni Hstr Hw) as Hs.
  repeat case_match; try done. destruct Hs as [? Hs]. split; [done|]. by apply outcome_durable.
Qed.

(** C5. [unlink] refuses a missing entry and a directory that is not empty, without
    effect; otherwise the entry and its node are gone, durably, and nothing else
    is, or it fails, changes no file and, unless the chip itself failed, is ready for
    the next operation. *)
Theorem unlink_refines s d parent name st' res
    (Hinv : fs_inv (s, d)) (Hgen : generation s + 1 < 2 ^ 32) (Hstr : is_str name)
    (Hw : unlink parent name (s, d) = (st', res)) :
  match view (s, d) !! parent with
  | None => res = Err NotFound /\ st' = (s, d)
  | Some (AFile _) => res = Err NotADirectory /\ st' = (s, d)
  | Some (ADir m) =>
    match m !! name with
    | None => res = Err NotFound /\ st' = (s, d)
    | Some c =>
      if nonempty_dir (view (s, d)) c then res = Err Busy /\ st' = (s, d)
      else durable_outcome (s, d) st' res tt (delete c (<[parent := ADir (delete name m)]> (view (s, d))))
    end
  end.
Proof.
  pose proof (unlink_spec s d parent name st' res Hinv Hgen Hstr Hw) as Hs.
  repeat case_match; try done. by apply outcome_durable.
Qed.

(** [truncate_file] sets the length of the contents, dropping the tail or adding
    zeros, durably, or fails and changes no file, as the others. *)
Theorem truncate_file_refines s d ino l st' res
    (Hinv : fs_inv (s, d)) (Hgen : generation s + 1 < 2 ^ 32) (Hl : 0 <= l)
    (Hw : truncate_file ino l (s, d) = (st', res)) :
  match view (s, d) !! ino with
  | None => res = Err NotFound /\ st' = (s, d)
  | Some (ADir _) => res = Err IsADirectory /\ st' = (s, d)
  | Some (AFile c) => durable_outcome (s, d) st' res tt (<[ino := AFile (set_size c l)]> (view (s, d)))
  end.
Proof.
  pose proof (truncate_file_spec s d ino l st' res Hinv Hgen Hl Hw) as Hs.
  repeat case_match; try done. by apply outcome_durable.
Qed.

(** C6. [read_file] returns the bytes of the contents from [off] on, as many as fit
    the buffer: short at the end of the file, zeros in holes. *)
Theorem read_file_refines s d ino off n
    (Hinv : fs_inv (s, d)) (Hrd : reads_ok d) (Hoff : 0 <= off) (Hn : 0 <= n) :
  read_file s d ino off n =
  match view (s, d) !! ino with
  | None => Err NotFound
  | Some (ADir _) => Err IsADirectory
  | Some (AFile c) => Ok (slice off n c)
  end.
Proof. by apply read_file_spec. Qed.

(** C2. Mounting recovers everything: from the flash alone, [mount] rebuilds the
    same tree, the same contents and the same log position, ready for more. *)
Theorem mount_restores s d (Hinv : fs_inv (s, d)) (Hrd : reads_ok d) :
  exists s', mount (geom s) d = (d, Ok s') /\ fs_inv (s', d) /\ nodes s' = nodes s /\
    view (s', d) = view (s, d) /\ cursor s' = cursor s.
Proof.
  destruct (load_spec s d Hinv Hrd) as (s' & Hl & Hinv' & Hn & Hc & _). exists s'.
  unfold mount. rewrite Hl. split; [done|]. split; [done|]. split; [done|]. split; [|done].
  unfold view. cbn [fst snd]. by rewrite Hn.
Qed.

(** Formatting any chip with a valid layout gives the empty file system, one
    root directory with nothing in it, and that is what the next mount finds. *)
Theorem format_gives_empty g d d' s (Hg : geom_ok g) (Hf : format g d = (d', Ok s)) :
  fs_inv (s, d') /\ view (s, d') = {[ ROOT_INO := ADir ∅ ]} /\ mounts_as (s, d') {[ ROOT_INO := ADir ∅ ]}.
Proof.
  destruct (format_spec g d d' s Hg Hf) as [Hinv ->]. split; [done|].
  assert (Hv : view (empty_state g 0 1 0, d') = {[ ROOT_INO := ADir ∅ ]}) by (unfold view; simpl; by rewrite map_fmap_singleton).
  split; [done|]. rewrite <- Hv. by apply fs_inv_mounts.
Qed.

(** C3. Compaction moves the log to the other half without changing any file, and
    the moved log is what a mount replays.  If it fails at any step, the state in
    memory and every byte of the active half are as they were and, unless the chip
    itself failed, the file system is ready for the next operation. *)
Theorem compact_preserves s d s' d' res
    (Hinv : fs_inv (s, d)) (Hgen : generation s + 1 < 2 ^ 32) (Hc : compact (s, d) = ((s', d'), res)) :
  match res with
  | Ok _ => fs_inv (s', d') /\ view (s', d') = view (s, d) /\ mounts_as (s', d') (view (s, d)) /\
      generation s' = generation s + 1 /\ active_half s' = 1 - active_half s
  | Err _ => s' = s /\ view (s', d') = view (s, d) /\
      (forall a, half_base s <= a < half_base s + half_size (geom s) -> nor_cell d' a = nor_cell d a) /\
      (nor_works D -> fs_inv (s', d'))
  end.
Proof.
  destruct res as [[]|e].
  - destruct (compact_Ok s d Hinv Hgen s' d' Hc) as (Hinv' & Hv & _ & _ & Hgen' & Hact).
    split; [done|]. split; [done|]. split; [rewrite <- Hv; by apply fs_inv_mounts|]. by split.
  - apply (compact_Err s d Hinv) in Hc as (-> & Hfr & Hi). split; [done|]. split; [|by split].
    apply view_frame; [done|]. intros a Ha. apply Hfr. destruct (half_bounds _ Hinv). cbn [fst] in *. lia.
Qed.

(** The walk that compaction copies the tree in ends by itself (its bound is
    never reached), and lists every node but the root exactly once, under its
    own directory and name, after that directory. *)
Theorem build_plan_complete s next fuel (Hok : tree_ok (nodes s) next) (Hf : (S (size (nodes s)) <= fuel)%nat) :
  plan_loop fuel (nodes s) [ROOT_INO] [] = build_plan s /\
  NoDup (item_ino <$> build_plan s) /\
  (forall c p n k, (c, p, n, k) ∈ build_plan s <-> entry (nodes s) p n c /\ k = kind_of (nodes s) c) /\
  (forall c, is_Some (nodes s !! c) <-> c = ROOT_INO \/ c ∈ item_ino <$> build_plan s) /\
  parents_first {[ ROOT_INO ]} (build_plan s).
Proof.
  split; [by eapply build_plan_fuel|]. destruct (build_plan_ok s next Hok) as [P1 P2 P3 P4].
  split; [done|]. split; [done|]. split; [|done]. intros c. split; [by apply P4|]. intros [->|Hc].
  - destruct (t_root _ _ Hok) as (m & (k & ->)%dir_of_Some). by eexists.
  - rewrite list_elem_of_fmap in Hc. destruct Hc as ([[[c' p] n] k] & -> & Hi). apply P2 in Hi as [He _].
    by destruct (t_entry _ _ Hok _ _ _ He) as (_ & ? & _).
Qed.
End Properties.

Lemma nor_mem_reads (d : nor_mem) : reads_ok d.
Proof. apply dev_reads. Qed.

Lemma write_file_refines_witness :
  durable_outcome tiny_file (write_file 2 3 [104; 105] tiny_file).1 (write_file 2 3 [104; 105] tiny_file).2 2
    (<[2 := AFile [0; 0; 0; 104; 105]]> (view tiny_file)).
Proof.
  assert (Hv : view (tiny_file.1, tiny_file.2) !! 2 = Some (AFile [])) by (vm_compute; reflexivity).
  pose proof (write_file_refines tiny_file.1 tiny_file.2 2 3 [104; 105] (write_file 2 3 [104; 105] tiny_file).1
    (write_file 2 3 [104; 105] tiny_file).2 tiny_file_inv ltac:(vm_compute; reflexivity)
    ltac:(repeat constructor; unfold is_byte; lia) ltac:(vm_compute; reflexivity) ltac:(lia) ltac:(apply surjective_pairing)) as Hw.
  rewrite Hv in Hw. exact Hw.
Defined.

Lemma create_refines_witness :
  durable_outcome (empty_state tiny 0 1 0, tiny_disk) tiny_file
    (create ROOT_INO "f" File (empty_state tiny 0 1 0, tiny_disk)).2 2
    {[ ROOT_INO := ADir {[ "f" := 2 ]}; 2 := AFile [] ]}.
Proof.
  pose proof (create_refines (empty_state tiny 0 1 0) tiny_disk ROOT_INO "f" File tiny_file
    (create ROOT_INO "f" File (empty_state tiny 0 1 0, tiny_disk)).2 tiny_inv ltac:(vm_compute; reflexivity)
    ltac:(vm_compute; reflexivity) ltac:(vm_compute; reflexivity) ltac:(apply surjective_pairing)) as Hc.
  assert (Hv : view (empty_state tiny 0 1 0, tiny_disk) = {[ ROOT_INO := ADir ∅ ]}) by (vm_compute; reflexivity).
  rewrite Hv, lookup_singleton_eq in Hc. exact (proj2 Hc).
Defined.

Lemma unlink_refines_witness :
  durable_outcome tiny_file (unlink ROOT_INO "f" tiny_file).1 (unlink ROOT_INO "f" tiny_file).2 tt {[ ROOT_INO := ADir ∅ ]}.
Proof.
  pose proof (unlink_refines tiny_file.1 tiny_file.2 ROOT_INO "f" (unlink ROOT_INO "f" tiny_file).1
    (unlink ROOT_INO "f" tiny_file).2 tiny_file_inv ltac:(vm_compute; reflexivity)
    ltac:(vm_compute; reflexivity) ltac:(apply surjective_pairing)) as Hu.
  assert (Hv : view (tiny_file.1, tiny_file.2) = {[ ROOT_INO := ADir {[ "f" := 2 ]}; 2 := AFile [] ]}) by (vm_compute; reflexivity).
  rewrite Hv in Hu. exact Hu.
Defined.

Lemma truncate_file_refines_witness :
  durable_outcome tiny_file (truncate_file 2 4 tiny_file).1 (truncate_file 2 4 tiny_file).2 tt
    {[ ROOT_INO := ADir {[ "f" := 2 ]}; 2 := AFile [0; 0; 0; 0] ]}.
Proof.
  pose proof (truncate_file_refines tiny_file.1 tiny_file.2 2 4 (truncate_file 2 4 tiny_file).1
    (truncate_file 2 4 tiny_file).2 tiny_file_inv ltac:(vm_compute; reflexivity)
    ltac:(lia) ltac:(apply surjective_pairing)) as Hu.
  assert (Hv : view (tiny_file.1, tiny_file.2) = {[ ROOT_INO := ADir {[ "f" := 2 ]}; 2 := AFile [] ]}) by (vm_compute; reflexivity).
  rewrite Hv in Hu. exact Hu.
Defined.

(** The same file with five bytes in it, three of them a hole. *)
Definition tiny_written : FsState * nor_mem := (write_file 2 3 [104; 105] tiny_file).1.

Lemma tiny_written_inv : fs_inv tiny_written.
Proof.
  pose proof (write_file_spec tiny_file.1 tiny_file.2 2 3 [104; 105] tiny_written
    (write_file 2 3 [104; 105] tiny_file).2 tiny_file_inv ltac:(vm_compute; reflexivity)
    ltac:(repeat constructor; unfold is_byte; lia) ltac:(vm_compute; reflexivity) ltac:(lia) ltac:(apply surjective_pairing)) as Hw.
  assert (Hv : view (tiny_file.1, tiny_file.2) !! 2 = Some (AFile [])) by (vm_compute; reflexivity).
  rewrite Hv in Hw. destruct Hw as [(_ & Hi & _)|(e & He & _)]; [exact Hi|].
  assert (Hr : (write_file 2 3 [104; 105] tiny_file).2 = Ok 2) by (vm_compute; reflexivity). congruence.
Qed.

Lemma read_file_refines_witness :
  read_file tiny_written.1 tiny_written.2 2 1 100 = Ok [0; 0; 104; 105].
Proof.
  rewrite (read_file_refines tiny_written.1 tiny_written.2 2 1 100 tiny_written_inv (nor_mem_reads _) ltac:(lia) ltac:(lia)).
  vm_compute. reflexivity.
Defined.

Lemma mount_restores_witness :
  exists s', mount tiny tiny_written.2 = (tiny_written.2, Ok s') /\ fs_inv (s', tiny_written.2) /\
    nodes s' = nodes tiny_written.1 /\ view (s', tiny_written.2) = view tiny_written /\ cursor s' = cursor tiny_written.1.
Proof. exact (mount_restores tiny_written.1 tiny_written.2 tiny_written_inv (nor_mem_reads _)). Defined.

Lemma format_gives_empty_witness :
  fs_inv (empty_state tiny 0 1 0, tiny_disk) /\ view (empty_state tiny 0 1 0, tiny_disk) = {[ ROOT_INO := ADir ∅ ]} /\
  mounts_as (empty_state tiny 0 1 0, tiny_disk) {[ ROOT_INO := ADir ∅ ]}.
Proof.
  apply (format_gives_empty tiny blank tiny_disk (empty_state tiny 0 1 0) tiny_ok). vm_compute. reflexivity.
Defined.

Lemma compact_preserves_witness :
  let '((s', d'), res) := compact tiny_written in
  res = Ok tt /\ view (s', d') = view tiny_written /\ mounts_as (s', d') (view tiny_written).
Proof.
  destruct (compact tiny_written) as [[s' d'] res] eqn:E.
  pose proof (compact_preserves tiny_written.1 tiny_written.2 s' d' res tiny_written_inv ltac:(vm_compute; reflexivity) E) as Hc.
  assert (Hr : (compact tiny_written).2 = Ok tt) by (vm_compute; reflexivity). rewrite E in Hr. simpl in Hr. subst res.
  destruct Hc as (_ & Hv & Hm & _). exact (conj eq_refl (conj Hv Hm)).
Defined.

Lemma build_plan_complete_witness :
  plan_loop 5 (nodes tiny_file.1) [ROOT_INO] [] = [(2, ROOT_INO, "f", File)] /\ build_plan tiny_file.1 = [(2, ROOT_INO, "f", File)].
Proof.
  destruct (build_plan_complete tiny_file.1 (next_ino tiny_file.1) 5 (v_tree _ tiny_file_inv) ltac:(vm_compute; lia)) as [Hp _].
  rewrite Hp. split; vm_compute; reflexivity.
Defined.
