(* ===== verification/EspfsPaths.v ===== *)
(** * EspfsPaths: the files of EspFs by their paths

    Where a path leads in the abstract state of EspFs ([view]), and what each change does
    to the files as paths name them: a path has one file, a change at one path leaves all
    the others alone.  [ready k] says that [k] more changes can be made; each operation
    uses up one, whether it succeeds or not. *)

From S2P Require Import Prelude Flash Wire Inode Espfs EspfsFile EspfsTree EspfsPlan EspfsLog EspfsCompact EspfsSpec EspfsOps.

Open Scope Z_scope.

Section Paths.
Implicit Types (V : gmap Z AbsNode) (l P : list string) (i p : Z) (n : string).

Definition child V i n : option Z := match V !! i with Some (ADir m) => m !! n | _ => None end.
Fixpoint walk_from V i l : option Z := match l with [] => Some i | n :: l => j ← child V i n; walk_from V j l end.
Definition ino_at V l : option Z := walk_from V ROOT_INO l.
Definition file_at V l : option (list Z) := i ← ino_at V l; match V !! i with Some (AFile c) => Some c | _ => None end.

(** Every node but the root has one name in one directory, and exists. *)
Record paths_ok V : Prop := mkPathsOk {
  po_root : is_Some (V !! ROOT_INO);
  po_child : forall p n i, child V p n = Some i -> i <> ROOT_INO /\ is_Some (V !! i);
  po_uniq : forall p p' n n' i, child V p n = Some i -> child V p' n' = Some i -> p = p' /\ n = n';
}.

Lemma walk_from_app V l1 : forall i l2, walk_from V i (l1 ++ l2) = j ← walk_from V i l1; walk_from V j l2.
Proof. induction l1 as [|n l1 IH]; intros i l2; [done|]. cbn. destruct (child V i n) as [j|]; [apply IH|done]. Qed.
Lemma ino_at_snoc V l n : ino_at V (l ++ [n]) = j ← ino_at V l; child V j n.
Proof. unfold ino_at. rewrite walk_from_app. destruct (walk_from V ROOT_INO l) as [j|]; [|done]. cbn. by destruct (child V j n). Qed.

Lemma ino_at_node V l i : paths_ok V -> ino_at V l = Some i -> is_Some (V !! i).
Proof.
  intros Hok. destruct l as [|n l _] using rev_ind; [intros [= <-]; apply Hok|]. rewrite ino_at_snoc.
  intros (j & _ & Hc)%bind_Some. by apply (po_child V Hok) in Hc as [_ ?].
Qed.

Lemma ino_at_inj V : paths_ok V -> forall l l' i, ino_at V l = Some i -> ino_at V l' = Some i -> l = l'.
Proof.
  intros Hok. induction l as [|n l IH] using rev_ind; intros l' i Hl Hl'; destruct l' as [|n' l' _] using rev_ind; try done;
    rewrite ?ino_at_snoc in *.
  - injection Hl as <-. apply bind_Some in Hl' as (j & _ & Hc). by apply (po_child V Hok) in Hc as [? _].
  - injection Hl' as <-. apply bind_Some in Hl as (j & _ & Hc). by apply (po_child V Hok) in Hc as [? _].
  - apply bind_Some in Hl as (j & Hj & Hc), Hl' as (j' & Hj' & Hc'). destruct (po_uniq V Hok _ _ _ _ _ Hc Hc') as [<- <-].
    by rewrite (IH l' j).
Qed.

Lemma snoc_eq l P n n' : l ++ [n] = P ++ [n'] <-> l = P /\ n = n'.
Proof. split; [intros [-> [= ->]]%app_inj_2; [by split|done]|by intros [-> ->]]. Qed.

Lemma snoc_ne (l : list string) x : l <> l ++ [x].
Proof. intros E%(f_equal length). rewrite length_app in E. cbn in E. lia. Qed.

(** ** New contents *)

Lemma ino_at_write V i c c' l : V !! i = Some (AFile c) -> ino_at (<[i := AFile c']> V) l = ino_at V l.
Proof.
  intros Hi. induction l as [|n l IH] using rev_ind; [done|]. rewrite !ino_at_snoc, IH. destruct (ino_at V l) as [j|]; [|done]. cbn. unfold child.
  destruct (decide (j = i)) as [->|Hn]; [by rewrite lookup_insert_eq, Hi|by rewrite lookup_insert_ne].
Qed.
Lemma file_at_write V P i c c' l : paths_ok V -> ino_at V P = Some i -> V !! i = Some (AFile c) ->
  file_at (<[i := AFile c']> V) l = if decide (l = P) then Some c' else file_at V l.
Proof.
  intros Hok HP Hi. unfold file_at. rewrite (ino_at_write V i c) by done. case_decide as Hl.
  - subst l. rewrite HP. cbn. by rewrite lookup_insert_eq.
  - destruct (ino_at V l) as [j|] eqn:Ej; [|done]. cbn. rewrite lookup_insert_ne; [done|]. intros ->. apply Hl. by eapply ino_at_inj.
Qed.

(** ** A new node *)

Section Create.
Context V P p m n k (Hok : paths_ok V) (HP : ino_at V P = Some p) (Hp : V !! p = Some (ADir m)) (Hn : m !! n = None) (Hk : V !! k = None)
  (kind : InodeKind).
Let V' := <[p := ADir (<[n := k]> m)]> (<[k := new_node kind]> V).

Lemma create_ne : k <> p.
Proof. intros ->. congruence. Qed.
Lemma create_leaf x : child V' k x = None.
Proof. pose proof create_ne. unfold child, V'. rewrite lookup_insert_ne, lookup_insert_eq by done. by destruct kind. Qed.
Lemma ino_at_create l : ino_at V' l = if decide (l = P ++ [n]) then Some k else ino_at V l.
Proof.
  pose proof create_ne as Hkp. induction l as [|x l IH] using rev_ind; [rewrite decide_False; [done|]; by destruct P|].
  rewrite !ino_at_snoc, IH. destruct (decide (l = P ++ [n])) as [->|Hl].
  - rewrite decide_False by (intros [E%(f_equal length) _]%snoc_eq; rewrite length_app in E; cbn in E; lia). cbn. rewrite create_leaf.
    assert (E : child V p n = None) by (unfold child; by rewrite Hp). rewrite ino_at_snoc, HP. cbn. by rewrite E.
  - destruct (ino_at V l) as [j|] eqn:Ej; cbn; [|rewrite decide_False; [done|]; by intros [-> ->]%snoc_eq; congruence].
    destruct (decide (j = p)) as [->|Hj].
    + assert (l = P) as -> by (by eapply ino_at_inj). unfold child at 1, V'. rewrite lookup_insert_eq. unfold child. rewrite Hp.
      destruct (decide (x = n)) as [->|Hx]; [rewrite decide_True by done; apply lookup_insert_eq|].
      rewrite decide_False by (by intros [_ ->]%snoc_eq). by rewrite lookup_insert_ne.
    + rewrite decide_False by (intros [-> _]%snoc_eq; congruence). unfold child, V'.
      destruct (ino_at_node V l j Hok Ej) as [nd Hj']. rewrite !lookup_insert_ne by congruence. done.
Qed.
End Create.

Lemma file_at_create V P p m n k l : paths_ok V -> ino_at V P = Some p -> V !! p = Some (ADir m) -> m !! n = None -> V !! k = None ->
  file_at (<[p := ADir (<[n := k]> m)]> (<[k := AFile []]> V)) l = if decide (l = P ++ [n]) then Some [] else file_at V l.
Proof.
  intros Hok HP Hp Hn Hk. unfold file_at. rewrite (ino_at_create V P p m n k Hok HP Hp Hn Hk File). pose proof (create_ne V p m n k Hp Hk File) as Hkp. case_decide as Hl.
  - cbn. by rewrite lookup_insert_ne, lookup_insert_eq.
  - destruct (ino_at V l) as [j|] eqn:Ej; [|done]. cbn. destruct (ino_at_node V l j Hok Ej) as [nd Hj].
    destruct (decide (j = p)) as [->|Hjp]; [by rewrite lookup_insert_eq, Hp|]. by rewrite !lookup_insert_ne by congruence.
Qed.

(** ** A name taken away *)

Section Unlink.
Context V P p m n k (Hok : paths_ok V) (HP : ino_at V P = Some p) (Hp : V !! p = Some (ADir m)) (Hn : m !! n = Some k)
  (He : nonempty_dir V k = false).
Let V' := delete k (<[p := ADir (delete n m)]> V).

Lemma unlink_child : child V p n = Some k.
Proof. unfold child. by rewrite Hp. Qed.
Lemma unlink_path : ino_at V (P ++ [n]) = Some k.
Proof. rewrite ino_at_snoc, HP. apply unlink_child. Qed.
Lemma unlink_ne : k <> p.
Proof.
  intros E. assert (HP' : ino_at V P = Some k) by congruence.
  pose proof (ino_at_inj V Hok _ _ _ unlink_path HP') as El%(f_equal length). rewrite length_app in El. cbn in El. lia.
Qed.
Lemma unlink_other l j : l <> P ++ [n] -> ino_at V l = Some j -> j <> k.
Proof. intros Hl Ej E. apply Hl. eapply ino_at_inj; [done|exact Ej|]. rewrite E. apply unlink_path. Qed.
Lemma ino_at_unlink l : ino_at V' l = if decide (l = P ++ [n]) then None else ino_at V l.
Proof.
  pose proof unlink_ne as Hkp. induction l as [|x l IH] using rev_ind; [rewrite decide_False; [done|]; by destruct P|].
  rewrite !ino_at_snoc, IH. destruct (decide (l = P ++ [n])) as [->|Hl].
  - rewrite decide_False by (intros [E%(f_equal length) _]%snoc_eq; rewrite length_app in E; cbn in E; lia). cbn.
    rewrite unlink_path. cbn. unfold child. unfold nonempty_dir in He.
    destruct (V !! k) as [[sub|c]|]; [|done..]. apply negb_false_iff, bool_decide_eq_true in He as ->. by rewrite lookup_empty.
  - destruct (ino_at V l) as [j|] eqn:Ej; cbn; [|rewrite decide_False; [done|]; by intros [-> ->]%snoc_eq; congruence].
    pose proof (unlink_other l j Hl Ej) as Hjk.
    destruct (decide (j = p)) as [->|Hj].
    + assert (l = P) as -> by (by eapply ino_at_inj). unfold child at 1, V'. rewrite lookup_delete_ne, lookup_insert_eq by done. unfold child. rewrite Hp.
      destruct (decide (x = n)) as [->|Hx]; [rewrite decide_True by done; apply lookup_delete_eq|].
      rewrite decide_False by (by intros [_ ->]%snoc_eq). by rewrite lookup_delete_ne.
    + rewrite decide_False by (intros [-> _]%snoc_eq; congruence). unfold child, V'.
      rewrite lookup_delete_ne, lookup_insert_ne by done. done.
Qed.
Lemma file_at_unlink l : file_at V' l = if decide (l = P ++ [n]) then None else file_at V l.
Proof.
  unfold file_at. rewrite ino_at_unlink. case_decide as Hl; [done|]. destruct (ino_at V l) as [j|] eqn:Ej; [|done]. cbn.
  pose proof (unlink_other l j Hl Ej) as Hjk.
  unfold V'. rewrite lookup_delete_ne by done. destruct (decide (j = p)) as [->|Hj]; [by rewrite lookup_insert_eq, Hp|by rewrite lookup_insert_ne].
Qed.
End Unlink.
End Paths.

(** ** The counters

    Compaction uses up a generation, a new node a number. *)

Section Steps.
Context {D : Type} `{NorFlashLaws D}.
Implicit Types (w : FsState * D).

Definition costs {A} (k j : Z) (m : ST (FsState * D) A) : Prop := forall w, 0 <= generation w.1 -> 0 <= next_ino w.1 ->
  0 <= generation (m w).1.1 <= generation w.1 + k /\ 0 <= next_ino (m w).1.1 <= next_ino w.1 + j.

Lemma costs_le {A} k j k' j' (m : ST (FsState * D) A) : costs k j m -> k <= k' -> j <= j' -> costs k' j' m.
Proof. intros Hm Hk Hj w H1 H2. specialize (Hm w H1 H2). lia. Qed.
Lemma costs_bind {A B} k j k' j' (m : ST (FsState * D) A) (f : A -> ST (FsState * D) B) :
  0 <= k' -> 0 <= j' -> costs k j m -> (forall a, costs k' j' (f a)) -> costs (k + k') (j + j') (mbind f m).
Proof.
  intros Hk Hj Hm Hf w H1 H2. specialize (Hm w H1 H2). unfold mbind, ST_bind. destruct (m w) as [w1 [a|e]]; cbn [fst] in *; [|lia].
  specialize (Hf a w1 ltac:(lia) ltac:(lia)). lia.
Qed.
Lemma costs_then {A B} (m : ST (FsState * D) A) k j (f : A -> ST (FsState * D) B) :
  0 <= k -> 0 <= j -> costs 0 0 m -> (forall a, costs k j (f a)) -> costs k j (mbind f m).
Proof. intros. apply (costs_bind 0 0); done. Qed.
Lemma costs_lift {A} (r : KResult A) : costs 0 0 (lift r).
Proof. intros w H1 H2. cbn. lia. Qed.
Lemma costs_get : costs 0 0 get.
Proof. intros w H1 H2. cbn. lia. Qed.
Lemma costs_ret {A} (a : A) : costs 0 0 (mret a).
Proof. intros w H1 H2. cbn. lia. Qed.
Lemma costs_on_snd {A} (m : ST D A) : costs 0 0 (on_snd m).
Proof. intros [s d] H1 H2. unfold on_snd. cbn. destruct (m d) as [d' r]. cbn. cbn in *. lia. Qed.
Lemma costs_update k j (f : FsState -> FsState) :
  (forall s, 0 <= next_ino s -> generation (f s) = generation s /\ 0 <= next_ino (f s) <= next_ino s + j) -> 0 <= k -> costs k j (update f).
Proof. intros Hf Hk [s d] H1 H2. destruct (Hf s H2) as [E Hn]. cbn in *. lia. Qed.

Lemma u32_shrinks z : 0 <= z -> 0 <= u32 z <= z.
Proof. intros Hz. unfold u32. pose proof (Z.mod_pos_bound z (2 ^ 32) ltac:(lia)). pose proof (Z.mod_le z (2 ^ 32) Hz ltac:(lia)). lia. Qed.

Lemma costs_compact : costs 1 0 compact.
Proof.
  intros [s d] H1 H2. cbn [fst] in *. unfold compact, mbind, ST_bind, on_snd, modify. cbn [fst snd].
  destruct (erase_half _ _ _ d) as [d1 [u|e]]; cbn; [|lia]. destruct (foldM _ _ _ d1) as [d2 [[p ne]|e]]; cbn; [|lia].
  destruct (write_super _ _ _ _ d2) as [d3 [u'|e]]; cbn; [|lia]. pose proof (u32_shrinks (generation s + 1)). lia.
Qed.

Ltac costs := repeat first [apply costs_get | apply costs_lift | apply costs_ret | apply costs_on_snd | apply costs_then; [lia|lia| |intros ?] | case_match].

Lemma costs_append t payload : costs 1 0 (append t payload).
Proof.
  unfold append. apply costs_then; [lia..|apply costs_get|intros w0]. apply (costs_bind 1 0 0 0); [lia..| |intros _].
  - destruct (_ <? _); [apply costs_compact|]. apply (costs_le 0 0); [apply costs_ret|lia..].
  - apply costs_then; [lia..|apply costs_get|intros w1]. apply costs_then; [lia..|destruct (_ <? _); costs|intros _].
    apply costs_then; [lia..|costs|intros _]. apply costs_then; [lia..| |intros _; costs].
    intros [s d] H1 H2. cbn in *. lia.
Qed.

Lemma costs_need_file i : costs 0 0 (need_file i).
Proof. unfold need_file. costs. Qed.
Lemma costs_alter g i : costs 0 0 (update (alter_file g i)).
Proof.
  apply costs_update; [|lia]. intros s Hs. split; [apply alter_file_setup|]. unfold alter_file. destruct (nodes s !! i) as [[k [m|f]]|]; cbn; lia.
Qed.
Lemma costs_write i off buf : costs 1 0 (write_file i off buf).
Proof.
  unfold write_file. apply costs_then; [lia..|apply costs_need_file|intros _]. destruct (_ =? 0); [eapply costs_le; [apply costs_ret|lia..]|].
  apply costs_then; [lia..|costs|intros off']. apply costs_then; [lia..|costs|intros _]. apply (costs_bind 1 0 0 0); [lia..|apply costs_append|intros a].
  apply costs_then; [lia..|apply costs_alter|intros _; costs].
Qed.
Lemma costs_truncate i l : costs 1 0 (truncate_file i l).
Proof.
  unfold truncate_file. apply costs_then; [lia..|apply costs_need_file|intros _]. apply costs_then; [lia..|costs|intros l'].
  apply (costs_bind 1 0 0 0); [lia..|apply costs_append|intros a]. apply costs_alter.
Qed.
Lemma costs_unlink p n : costs 1 0 (unlink p n).
Proof.
  unfold unlink. apply costs_then; [lia..|costs|intros w0]. apply costs_then; [lia..|costs|intros o]. apply costs_then; [lia..|costs|intros c].
  apply costs_then; [lia..|costs|intros _]. apply (costs_bind 1 0 0 0); [lia..|apply costs_append|intros a].
  apply costs_update; [|lia]. intros s Hs. split; [apply apply_unlink_setup|]. unfold apply_unlink.
  destruct (nodes s !! p) as [[k [m|f]]|]; [destruct (m !! n)|..]; cbn; lia.
Qed.
Lemma still_bind {A B} (Q : FsState * D -> Prop) (m : ST (FsState * D) A) (f : A -> ST (FsState * D) B) w :
  (m w).1 = w -> Q w -> (forall a, Q (f a w).1) -> Q (mbind f m w).1.
Proof. intros Hm Hw Hf. unfold mbind, ST_bind. destruct (m w) as [w' [a|e]]; cbn [fst] in Hm; subst w'; [apply Hf|done]. Qed.
Lemma costs_create p n k : costs 1 1 (create p n k).
Proof.
  intros w H1 H2. set (Q := fun w' : FsState * D => 0 <= generation w'.1 <= generation w.1 + 1 /\ 0 <= next_ino w'.1 <= next_ino w.1 + 1).
  assert (Hw : Q w) by (unfold Q; lia). change (Q (create p n k w).1). unfold create.
  unfold mbind at 1, ST_bind at 1, get at 1. do 3 (apply still_bind; [by repeat case_match|done|intros ?]).
  unfold mbind at 1, ST_bind at 1. pose proof (costs_append a1 (enc_mk (next_ino w.1) p (as_bytes n)) w H1 H2) as Ha.
  destruct (append _ _ w) as [[s d] [x|e]]; cbn [fst] in Ha; [|unfold Q; cbn [fst]; lia].
  unfold mbind, ST_bind, update, modify, mret, ST_ret, Q. cbn -[apply_mk]. pose proof (u32_shrinks (next_ino w.1 + 1)).
  destruct (apply_mk_setup k (next_ino w.1) p n s) as [(_ & _ & -> & _) _]. unfold apply_mk. destruct (_ <=? _); cbn; lia.
Qed.

(** ** Changes at one path *)

Lemma inv_paths w : fs_inv w -> paths_ok (view w).
Proof.
  intros Hinv. pose proof (v_tree _ Hinv) as Ht.
  assert (Hc : forall p n i, child (view w) p n = Some i -> entry (nodes w.1) p n i).
  { intros p n i. unfold child. destruct (view w !! p) as [[m|c]|] eqn:E; [|done..]. intros Hm. apply view_dir in E. by exists m. }
  assert (Hs : forall i, is_Some (nodes w.1 !! i) -> is_Some (view w !! i)) by (intros i [nd E]; rewrite view_lookup, E; by eexists).
  split.
  - apply Hs. destruct (t_root _ _ Ht) as (m & (k & ->)%dir_of_Some). by eexists.
  - intros p n i Hi%Hc. destruct (t_entry _ _ Ht _ _ _ Hi) as (Hlt & He & _). split; [|by apply Hs]. intros ->.
    destruct Hi as (m & (k & Hp)%dir_of_Some & _). pose proof (t_range _ _ Ht p ltac:(by eexists)). unfold ROOT_INO in Hlt. lia.
  - intros p p' n n' i H1%Hc H2%Hc. by apply (t_uniq _ _ Ht p p' n n' i).
Qed.

(** [k] more changes can be made. *)
Definition ready (k : Z) w : Prop := fs_inv w /\ generation w.1 + k < 2 ^ 32 /\ next_ino w.1 + k < 2 ^ 32.
(** The path [P] leads to the directory [p]. *)
Definition leads w P p : Prop := ino_at (view w) P = Some p /\ exists m, view w !! p = Some (ADir m).

Lemma ready_le k k' w : ready k w -> k' <= k -> ready k' w.
Proof. intros (H1 & H2 & H3) Hk. split; [done|]. lia. Qed.

(** From [w] to [w'] at most the file [n] of [P] changes, and [k] more changes are left. *)
Record step (P : list string) (p : Z) (n : string) (k : Z) w w' : Prop := mkStep {
  st_ready : ready k w';
  st_leads : leads w' P p;
  st_files : forall l, l <> P ++ [n] -> file_at (view w') l = file_at (view w) l;
}.
Lemma step_trans P p n k k' w w1 w' : step P p n k w w1 -> step P p n k' w1 w' -> step P p n k' w w'.
Proof. intros [_ _ H1] [H2 H3 H4]. split; [done..|]. intros l Hl. by rewrite H4, H1. Qed.
Lemma step_refl P p n k w : ready k w -> leads w P p -> step P p n k w w.
Proof. by split. Qed.
Lemma step_same P p n k w w' : ready k w' -> leads w P p -> view w' = view w -> step P p n k w w'.
Proof. intros Hr Hl E. split; [done|by unfold leads; rewrite E|by intros; rewrite E]. Qed.

(** What an operation that [costs] one change leaves. *)
Lemma ready_after {A} (m : ST (FsState * D) A) k j w w' r : costs 1 j m -> j <= 1 -> ready (k + 1) w -> m w = (w', r) -> fs_inv w' -> ready k w'.
Proof.
  intros Hc Hj (Hi & Hg & Hn) E Hi'. destruct (v_gen _ Hi) as [Hg0 _]. destruct (v_next _ Hi) as [Hn0 _].
  specialize (Hc w Hg0 Hn0). rewrite E in Hc. cbn [fst] in Hc. split; [done|]. lia.
Qed.

Section Step.
Context (Hw : nor_works D) (P : list string) (p : Z) (n : string) (Hn : is_str n).
Implicit Types (k : Z).

Lemma unlink_step k w w' r : 0 <= k -> ready (k + 1) w -> leads w P p -> unlink p n w = (w', r) ->
  step P p n k w w' /\ match r with Ok _ => ino_at (view w') (P ++ [n]) = None | Err _ => view w' = view w end.
Proof.
  intros Hk Hr (HP & m & Hm) E. destruct w as [s d]. pose proof Hr as (Hi & Hg & _). cbn [fst] in Hg.
  pose proof (unlink_spec s d p n w' r Hi ltac:(lia) Hn E) as Hs. rewrite Hm in Hs.
  assert (Hsame : fs_inv w' -> view w' = view (s, d) -> step P p n k (s, d) w').
  { intros Hi' Hv. apply step_same; [|by split; eauto|done]. eapply (ready_after _ k 0); [apply costs_unlink|lia|done..]. }
  destruct (m !! n) as [c|] eqn:Hmn; [|destruct Hs as [-> ->]; split; [by apply Hsame|done]].
  destruct (nonempty_dir (view (s, d)) c) eqn:Hne; [destruct Hs as [-> ->]; split; [by apply Hsame|done]|].
  pose proof (inv_paths _ Hi) as Hok. destruct Hs as [(-> & Hi' & Hv)|(e & -> & Hv & Hi')]; [|split; [by auto|done]]. split; [split|].
  - eapply (ready_after _ k 0); [apply costs_unlink|lia|done..].
  - unfold leads. rewrite Hv, (ino_at_unlink _ P p m n c) by done. rewrite decide_False by apply snoc_ne.
    split; [done|]. rewrite lookup_delete_ne by (by eapply (unlink_ne _ P p m n c)). rewrite lookup_insert_eq. by eexists.
  - intros l Hl. rewrite Hv, (file_at_unlink _ P p m n c) by done. by rewrite decide_False.
  - rewrite Hv, (ino_at_unlink _ P p m n c) by done. by rewrite decide_True.
Qed.

Lemma create_step k w w' r : 0 <= k -> ready (k + 1) w -> leads w P p -> ino_at (view w) (P ++ [n]) = None -> create p n File w = (w', r) ->
  step P p n k w w' /\
  match r with Ok i => ino_at (view w') (P ++ [n]) = Some i /\ view w' !! i = Some (AFile []) | Err _ => view w' = view w end.
Proof.
  intros Hk Hr (HP & m & Hm) HT E. destruct w as [s d]. pose proof Hr as (Hi & Hg & Hnx). cbn [fst] in Hg, Hnx.
  pose proof (create_spec s d p n File w' r Hi ltac:(lia) ltac:(lia) Hn E) as Hs. rewrite Hm in Hs.
  assert (Hsame : fs_inv w' -> view w' = view (s, d) -> step P p n k (s, d) w').
  { intros Hi' Hv. apply step_same; [|by split; eauto|done]. eapply (ready_after _ k 1); [apply costs_create|lia|done..]. }
  assert (Hmn : m !! n = None) by (rewrite ino_at_snoc, HP in HT; cbn in HT; unfold child in HT; by rewrite Hm in HT).
  rewrite decide_False in Hs by (rewrite Hmn; by intros [? ?]).
  destruct (decide _); [destruct Hs as [-> ->]; split; [by apply Hsame|done]|]. rewrite decide_True in Hs by auto.
  pose proof (inv_paths _ Hi) as Hok. destruct Hs as [Hf [(-> & Hi' & Hv)|(e & -> & Hv & Hi')]]; [|split; [by auto|done]].
  pose proof (create_ne _ _ _ n _ Hm Hf File) as Hne. split; [split|].
  - eapply (ready_after _ k 1); [apply costs_create|lia|done..].
  - unfold leads. rewrite Hv, (ino_at_create _ P p m n) by done. rewrite decide_False by apply snoc_ne.
    split; [done|]. rewrite lookup_insert_eq. by eexists.
  - intros l Hl. rewrite Hv. cbn [new_node]. rewrite (file_at_create _ P p m n) by done. by rewrite decide_False.
  - rewrite Hv, (ino_at_create _ P p m n) by done. rewrite decide_True by done. split; [done|]. by rewrite lookup_insert_ne, lookup_insert_eq.
Qed.

(** A change of the contents of the file. *)
Lemma alter_step k w w' i c c' : leads w P p -> ino_at (view w) (P ++ [n]) = Some i -> view w !! i = Some (AFile c) -> fs_inv w ->
  ready k w' -> view w' = <[i := AFile c']> (view w) ->
  step P p n k w w' /\ ino_at (view w') (P ++ [n]) = Some i /\ view w' !! i = Some (AFile c').
Proof.
  intros (HP & m & Hm) HT Hc Hi Hr Hv. pose proof (inv_paths _ Hi) as Hok. split; [split; [done| |]|].
  - unfold leads. rewrite Hv, (ino_at_write _ i c) by done. split; [done|]. rewrite lookup_insert_ne; [by eexists|]. intros ->. congruence.
  - intros l Hl. rewrite Hv, (file_at_write _ (P ++ [n]) i c) by done. by rewrite decide_False.
  - rewrite Hv, (ino_at_write _ i c) by done. by rewrite lookup_insert_eq.
Qed.

Lemma truncate_step k w w' i c r : 0 <= k -> ready (k + 1) w -> leads w P p -> ino_at (view w) (P ++ [n]) = Some i -> view w !! i = Some (AFile c) ->
  truncate_file i 0 w = (w', r) ->
  step P p n k w w' /\ ino_at (view w') (P ++ [n]) = Some i /\
  match r with Ok _ => view w' !! i = Some (AFile []) | Err _ => view w' = view w end.
Proof.
  intros Hk Hr Hl HT Hc E. destruct w as [s d]. pose proof Hr as (Hi & Hg & _). cbn [fst] in Hg.
  pose proof (truncate_file_spec s d i 0 w' r Hi ltac:(lia) ltac:(lia) E) as Hs. rewrite Hc in Hs.
  pose proof (ready_after _ k 0 _ _ _ (costs_truncate i 0) ltac:(lia) Hr E) as Hra.
  destruct Hs as [(-> & Hi' & Hv)|(e & -> & Hv & Hi')].
  - destruct (alter_step k (s, d) w' i c (set_size c 0) Hl HT Hc Hi (Hra Hi') Hv) as (H1 & H2 & H3). split; [done|]. split; [done|]. rewrite H3. by destruct c.
  - split; [by apply step_same; auto|]. by rewrite Hv.
Qed.

Lemma write_step k w w' i c buf r : 0 <= k -> ready (k + 1) w -> leads w P p -> ino_at (view w) (P ++ [n]) = Some i -> view w !! i = Some (AFile c) ->
  bytes_ok buf -> len buf < 2 ^ 31 - 8 -> buf <> [] -> write_file i 0 buf w = (w', r) ->
  step P p n k w w' /\ ino_at (view w') (P ++ [n]) = Some i /\
  match r with Ok x => x = len buf /\ view w' !! i = Some (AFile (overwrite c 0 buf)) | Err _ => view w' = view w end.
Proof.
  intros Hk Hr Hl HT Hc Hb Hlb Hne E. destruct w as [s d]. pose proof Hr as (Hi & Hg & _). cbn [fst] in Hg.
  pose proof (write_file_spec s d i 0 buf w' r Hi ltac:(lia) Hb Hlb ltac:(lia) E) as Hs. rewrite Hc, decide_False in Hs by done.
  pose proof (ready_after _ k 0 _ _ _ (costs_write i 0 buf) ltac:(lia) Hr E) as Hra.
  destruct Hs as [(-> & Hi' & Hv)|(e & -> & Hv & Hi')].
  - destruct (alter_step k (s, d) w' i c (overwrite c 0 buf) Hl HT Hc Hi (Hra Hi') Hv) as (H1 & H2 & H3). by split_and!.
  - split; [by apply step_same; auto|]. by rewrite Hv.
Qed.
End Step.
End Steps.
