(* ===== verification/Sched.v ===== *)
(** * Sched: tasks, policy and context switch (kernel/src/scheduler)

    The single-core scheduler the default configuration builds (the [smp] feature
    is off, so [core_id] is 0 and the second set of fields does not exist):
    [task.rs], [policy.rs], [mod.rs] and the initial frame of
    [arch/xtensa/context.rs].  The exception frame is a type of the [esp-hal]
    crate: it is a parameter [F] with the fields the kernel touches. *)

From S2P Require Import Prelude.

Open Scope Z_scope.

(** ** The exception frame *)

(** The fields of [xtensa_lx_rt::exception::Context] the kernel reads and writes. *)
Class Frame (F : Type) := {
  fr_default : F;
  fr_PC : F -> Z;
  fr_A1 : F -> Z;
  fr_set_PC : Z -> F -> F;
  fr_set_PS : Z -> F -> F;
  fr_set_A0 : Z -> F -> F;
  fr_set_A1 : Z -> F -> F;
  fr_set_A2 : Z -> F -> F;
  fr_set_A6 : Z -> F -> F;
}.

(** ** Tasks *)

(* @src kernel/src/scheduler/task.rs 10-16 TaskState *)
Inductive TaskState : Type := Ready | Running | Blocked | Zombie.

#[export] Instance TaskState_eq_dec : EqDecision TaskState.
Proof. solve_decision. Defined.

(* @src kernel/src/scheduler/task.rs 18-18 STACK_ALIGN *)
Definition STACK_ALIGN : Z := 16.
(* @src kernel/src/scheduler/task.rs 22-22 STACK_PAINT *)
Definition STACK_PAINT : Z := 0xDEADBEEF.

(* @src kernel/src/scheduler/task.rs 24-26 align_up *)
Definition align_up (n align : Z) : Z :=
  Z.land (saturating_add32 n (align - 1)) (Z.ldiff (Z.ones 32) (align - 1)).

(** [entry] is the address of the start function. *)
(* @src kernel/src/scheduler/task.rs 28-43 Task *)
Record Task (F : Type) := mkTask {
  t_tid : Z;
  t_name : string;
  t_state : TaskState;
  t_priority : Z;
  t_context : F;
  t_stack_base : Z;
  t_stack_size : Z;
  t_exit_code : Z;
  t_is_user : bool;
  t_affinity : option Z;
  t_start_entry : Z;
  t_start_arg : Z;
}.
Arguments mkTask {F}.
Arguments t_tid {F}.
Arguments t_name {F}.
Arguments t_state {F}.
Arguments t_priority {F}.
Arguments t_context {F}.
Arguments t_stack_base {F}.
Arguments t_stack_size {F}.
Arguments t_exit_code {F}.
Arguments t_is_user {F}.
Arguments t_affinity {F}.
Arguments t_start_entry {F}.
Arguments t_start_arg {F}.

Section Tasks.
Context {F : Type} `{Frame F}.

Definition set_state (st : TaskState) (t : Task F) : Task F :=
  mkTask (t_tid t) (t_name t) st (t_priority t) (t_context t) (t_stack_base t) (t_stack_size t)
    (t_exit_code t) (t_is_user t) (t_affinity t) (t_start_entry t) (t_start_arg t).
Definition set_context (f : F) (t : Task F) : Task F :=
  mkTask (t_tid t) (t_name t) (t_state t) (t_priority t) f (t_stack_base t) (t_stack_size t)
    (t_exit_code t) (t_is_user t) (t_affinity t) (t_start_entry t) (t_start_arg t).
Definition set_exit_code (c : Z) (t : Task F) : Task F :=
  mkTask (t_tid t) (t_name t) (t_state t) (t_priority t) (t_context t) (t_stack_base t) (t_stack_size t)
    c (t_is_user t) (t_affinity t) (t_start_entry t) (t_start_arg t).
Definition set_is_user (b : bool) (t : Task F) : Task F :=
  mkTask (t_tid t) (t_name t) (t_state t) (t_priority t) (t_context t) (t_stack_base t) (t_stack_size t)
    (t_exit_code t) b (t_affinity t) (t_start_entry t) (t_start_arg t).
Definition set_affinity (a : option Z) (t : Task F) : Task F :=
  mkTask (t_tid t) (t_name t) (t_state t) (t_priority t) (t_context t) (t_stack_base t) (t_stack_size t)
    (t_exit_code t) (t_is_user t) a (t_start_entry t) (t_start_arg t).

(** The address of [task_trampoline]. *)
Context (task_trampoline : Z).

(* @src kernel/src/arch/xtensa/context.rs 14-16 PS_UM, PS_WOE, PS_CALLINC1 *)
Definition ps_flags (is_user : bool) : Z :=
  if is_user then Z.lor (Z.lor (Z.shiftl 1 5) (Z.shiftl 1 18)) (Z.shiftl 1 16) else Z.lor (Z.shiftl 1 18) (Z.shiftl 1 16).

(* @src kernel/src/arch/xtensa/context.rs 18-34 init_task_stack *)
Definition init_task_stack (stack_top entry arg : Z) (is_user : bool) : F :=
  let top := Z.land stack_top (Z.ldiff (Z.ones 32) 0xF) in
  fr_set_A6 (u32 arg) (fr_set_A1 top (fr_set_A0 0 (fr_set_PS (ps_flags is_user) (fr_set_PC (u32 entry) fr_default)))).

(** [Layout::from_size_align(size, 16)]: the size rounded up fits an [isize]. *)
Definition layout_ok (size : Z) : bool := size <=? 2 ^ 31 - STACK_ALIGN.

(** [heap size] is what the global allocator answers: the address of the block, or
    [None] for a null pointer. *)
(* @src kernel/src/scheduler/task.rs 48-98 Task::new *)
Definition task_new (heap : Z -> option Z) (tid : Z) (name : string) (entry arg stack_size priority : Z)
    (is_user : bool) : KResult (Task F) :=
  let requested := if stack_size =? 0 then DEFAULT_STACK_SIZE else stack_size in
  let size := align_up requested STACK_ALIGN in
  if negb (layout_ok size) then Err InvalidArgument
  else
    match heap size with
    | None => Err NoMem
    | Some base =>
      let stack_top := u32 (base + size) in
      let context := init_task_stack stack_top task_trampoline tid is_user in
      Ok (mkTask tid name Ready priority context base size 0 is_user None entry arg)
    end.

(** The memory, by words, after [Task::new] painted the stack at [base]. *)
(* @src kernel/src/scheduler/task.rs 71-77 Task::new (paint) *)
Definition paint_stack (base size : Z) (mem : Z -> Z) : Z -> Z :=
  fun p => if bool_decide (base <= p < base + 4 * (size / 4)) then STACK_PAINT else mem p.

(** The loop of [stack_high_water]: how many of the words from [p] on are painted;
    [mem] is the memory, by words. *)
(* @src kernel/src/scheduler/task.rs 110-115 Task::stack_high_water (loop) *)
Fixpoint untouched_words (mem : Z -> Z) (p : Z) (words : nat) : Z :=
  match words with
  | O => 0
  | S words' => if mem p =? STACK_PAINT then 1 + untouched_words mem (p + 4) words' else 0
  end.

(* @src kernel/src/scheduler/task.rs 104-117 Task::stack_high_water *)
Definition stack_high_water (mem : Z -> Z) (t : Task F) : Z :=
  if (t_stack_base t =? 0) || (t_stack_size t =? 0) then 0
  else
    let words := t_stack_size t / 4 in
    t_stack_size t - untouched_words mem (t_stack_base t) (Z.to_nat words) * 4.

(** ** The scheduler *)

(* @src kernel/src/scheduler/mod.rs 17-17 QUANTUM_TICKS *)
Definition QUANTUM_TICKS : Z := 5.
(* @src kernel/src/scheduler/mod.rs 19-19 IDLE_TID *)
Definition IDLE_TID : Z := 0.

(* @src kernel/src/scheduler/mod.rs 21-39 Scheduler *)
Record Scheduler := mkScheduler {
  tasks : gmap Z (Task F);
  ready : list Z;
  current_ : Z;
  idle : Z;
  next_tid : Z;
  slice_remaining : Z;
}.

Definition set_tasks (ts : gmap Z (Task F)) (s : Scheduler) : Scheduler :=
  mkScheduler ts (ready s) (current_ s) (idle s) (next_tid s) (slice_remaining s).
Definition set_ready (r : list Z) (s : Scheduler) : Scheduler :=
  mkScheduler (tasks s) r (current_ s) (idle s) (next_tid s) (slice_remaining s).
Definition set_current (c : Z) (s : Scheduler) : Scheduler :=
  mkScheduler (tasks s) (ready s) c (idle s) (next_tid s) QUANTUM_TICKS.
Definition set_next_tid (n : Z) (s : Scheduler) : Scheduler :=
  mkScheduler (tasks s) (ready s) (current_ s) (idle s) n (slice_remaining s).
Definition set_slice (n : Z) (s : Scheduler) : Scheduler :=
  mkScheduler (tasks s) (ready s) (current_ s) (idle s) (next_tid s) n.

(** [if let Some(t) = s.tasks.get_mut(&tid) { f(t) }]. *)
Definition on_task (tid : Z) (f : Task F -> Task F) (s : Scheduler) : Scheduler := set_tasks (alter f tid (tasks s)) s.

(* @src kernel/src/scheduler/mod.rs 52-70 Scheduler::reap_zombies_except *)
Definition reap_zombies_except (keep : Z) (s : Scheduler) : Scheduler :=
  let dead := fst <$> (filter (fun kv => t_state kv.2 = Zombie /\ kv.1 <> keep) (map_to_list (tasks s))) in
  foldl (fun s tid => set_tasks (delete tid (tasks s)) (set_ready (filter (fun x => x <> tid) (ready s)) s)) s dead.

(** The scan of [next_ready]: position [i] onwards, with the best candidate so far. *)
(* @src kernel/src/scheduler/policy.rs 7-19 next_ready (loop) *)
Fixpoint scan_ready (ts : gmap Z (Task F)) (core : Z) (l : list Z) (i : nat) (best : option nat) (highest : Z) : option nat :=
  match l with
  | [] => best
  | tid :: l' =>
    match ts !! tid with
    | Some t =>
      if bool_decide (t_affinity t = None) || bool_decide (t_affinity t = Some core) then
        if bool_decide (best = None) || (highest <? t_priority t)
        then scan_ready ts core l' (S i) (Some i) (t_priority t)
        else scan_ready ts core l' (S i) best highest
      else scan_ready ts core l' (S i) best highest
    | None => scan_ready ts core l' (S i) best highest
    end
  end.

(* @src kernel/src/scheduler/policy.rs 6-22 next_ready *)
Definition next_ready (core : Z) (s : Scheduler) : Scheduler * option Z :=
  match scan_ready (tasks s) core (ready s) 0 None 0 with
  | Some i =>
    match ready s !! i with
    | Some tid => (set_ready (delete i (ready s)) s, Some tid)
    | None => (s, None)
    end
  | None => (s, None)
  end.

(** The global state of the module: [SCHED], [NEED_RESCHED\[0\]], [RESTART_SYSCALL\[0\]]. *)
(* @src kernel/src/scheduler/mod.rs 73-79 SCHED, NEED_RESCHED, RESTART_SYSCALL *)
Record SchedState := mkSchedState { sched : option Scheduler; need_resched : bool; restart_syscall : bool }.

(* @src kernel/src/scheduler/mod.rs 81-89 set_restart_syscall, take_restart_syscall *)
Definition set_restart_syscall (g : SchedState) : SchedState := mkSchedState (sched g) (need_resched g) true.
Definition take_restart_syscall (g : SchedState) : SchedState * bool :=
  (mkSchedState (sched g) (need_resched g) false, restart_syscall g).
(* @src kernel/src/scheduler/mod.rs 91-105 set_need_resched, clear_need_resched *)
Definition set_need_resched (g : SchedState) : SchedState := mkSchedState (sched g) true (restart_syscall g).
Definition clear_need_resched (g : SchedState) : SchedState := mkSchedState (sched g) false (restart_syscall g).

(** [with_sched(f)]: [None] before [init]. *)
(* @src kernel/src/scheduler/mod.rs 112-117 with_sched *)
Definition with_sched {R} (f : Scheduler -> Scheduler * R) (g : SchedState) : SchedState * option R :=
  match sched g with
  | None => (g, None)
  | Some s => let '(s', r) := f s in (mkSchedState (Some s') (need_resched g) (restart_syscall g), Some r)
  end.

(** [idle_entry] and [heap] as in [task_new]. *)
(* @src kernel/src/scheduler/mod.rs 163-219 init *)
Definition init (heap : Z -> option Z) (idle_entry : Z) (g : SchedState) : SchedState :=
  match sched g with
  | Some _ => g
  | None =>
    let ts : gmap Z (Task F) :=
      match task_new heap IDLE_TID "idle" idle_entry 0 DEFAULT_STACK_SIZE 0 false with
      | Ok t => {[ IDLE_TID := set_affinity (Some 0) t ]}
      | Err _ => ∅
      end in
    mkSchedState (Some (mkScheduler ts [] IDLE_TID IDLE_TID (IDLE_TID + 1) QUANTUM_TICKS)) (need_resched g) (restart_syscall g)
  end.

(** What [spawn_inner] does between its two critical sections: the task of a reserved id. *)
(* @src kernel/src/scheduler/mod.rs 273-279 spawn_inner (task) *)
Definition spawn_task (heap : Z -> option Z) (tid : Z) (name : string) (entry arg stack_size priority : Z)
    (is_user start_blocked : bool) : KResult (Task F) :=
  match task_new heap tid name entry arg stack_size priority is_user with
  | Ok task =>
    let task := if String.eqb name "net" then set_affinity (Some 0) task else task in
    Ok (if start_blocked then set_state Blocked task else task)
  | Err e => Err e
  end.

(** The two critical sections of [spawn_inner]; another task may run in between. *)
(* @src kernel/src/scheduler/mod.rs 259-271 spawn_inner (reservation) *)
Definition spawn_reserve (g : SchedState) : SchedState * KResult Z :=
  match with_sched (fun s =>
      match checked_add32 (next_tid s) 1 with
      | Some next => (set_next_tid next s, Ok (next_tid s))
      | None => (s, Err TableFull)
      end) g with
  | (g', Some r) => (g', r)
  | (g', None) => (g', Err NotSupported)
  end.

(* @src kernel/src/scheduler/mod.rs 281-291 spawn_inner (insertion) *)
Definition spawn_insert (tid : Z) (task : Task F) (start_blocked : bool) (g : SchedState) : SchedState * KResult Z :=
  match with_sched (fun s =>
      let s := set_tasks (<[tid := task]> (tasks s)) s in
      ((if start_blocked then s else set_ready (ready s ++ [tid]) s), tt)) g with
  | (g', Some _) => (g', Ok tid)
  | (g', None) => (g', Err NotSupported)
  end.

(* @src kernel/src/scheduler/mod.rs 250-292 spawn_inner *)
Definition spawn_inner (heap : Z -> option Z) (name : string) (entry arg stack_size priority : Z)
    (is_user start_blocked : bool) : ST SchedState Z :=
  tid ← spawn_reserve;
  task ← lift (spawn_task heap tid name entry arg stack_size priority is_user start_blocked);
  spawn_insert tid task start_blocked.

(* @src kernel/src/scheduler/mod.rs 221-230 spawn *)
Definition spawn heap name entry arg stack_size priority is_user : ST SchedState Z :=
  spawn_inner heap name entry arg stack_size priority is_user false.

(* @src kernel/src/scheduler/mod.rs 239-248 spawn_blocked *)
Definition spawn_blocked heap name entry arg stack_size priority is_user : ST SchedState Z :=
  spawn_inner heap name entry arg stack_size priority is_user true.

(* @src kernel/src/scheduler/mod.rs 316-334 mark_zombie *)
Definition mark_zombie (code : Z) (g : SchedState) : SchedState :=
  (with_sched (fun s =>
    let cur := current_ s in
    let s := on_task cur (fun t => set_exit_code code (set_state Zombie t)) s in
    (set_ready (filter (fun x => x <> cur) (ready s)) s, tt)) g).1.

(** [exit] up to the trap that switches away. *)
(* @src kernel/src/scheduler/mod.rs 301-314 exit *)
Definition exit (code : Z) (g : SchedState) : SchedState := set_need_resched (mark_zombie code g).

(* @src kernel/src/scheduler/mod.rs 336-348 tick *)
Definition tick (g : SchedState) : SchedState :=
  match with_sched (fun s =>
      let s := if 0 <? slice_remaining s then set_slice (slice_remaining s - 1) s else s in
      (s, slice_remaining s =? 0)) g with
  | (g', Some true) => set_need_resched g'
  | (g', _) => g'
  end.

(* @src kernel/src/scheduler/mod.rs 350-359 current *)
Definition current (g : SchedState) : Z := match sched g with Some s => current_ s | None => IDLE_TID end.

(** What the switch hands to the hardware: the frame to resume, the stack bounds for
    the guard and, on a change of task, the world (user or kernel) to prepare. *)
Record Switch := mkSwitch { sw_frame : F; sw_guard : Z * Z; sw_world : option (bool * Z) }.

Definition stack_bounds (t : Task F) : Z * Z := (t_stack_base t, u32 (t_stack_base t + t_stack_size t)).

(** The choice of the next task, common to [run] and [preempt_switch]: it becomes the
    running one with a fresh quantum. *)
(* @src kernel/src/scheduler/mod.rs 479-498 preempt_switch (choice) *)
Definition resume_next (s : Scheduler) : Scheduler * Z :=
  let '(s, next) := next_ready 0 s in
  let next := default (idle s) next in
  (set_current next (on_task next (set_state Running) s), next).

(** [run]: [None] is the panic of [unwrap]. *)
(* @src kernel/src/scheduler/mod.rs 361-393 run *)
Definition run (g : SchedState) : option (SchedState * option Switch) :=
  match sched g with
  | None => Some (g, None)
  | Some s =>
    let '(s, first) := resume_next s in
    task ← tasks s !! first;
    Some (mkSchedState (Some s) (need_resched g) (restart_syscall g),
      Some (mkSwitch (t_context task) (stack_bounds task) (Some (t_is_user task, fr_A1 (t_context task)))))
  end.

(** The current task is put back in the queue when it still runs, and its frame saved. *)
(* @src kernel/src/scheduler/mod.rs 444-470 preempt_switch (current task) *)
Definition park_current (cur : Z) (save_frame : F) (s : Scheduler) : Scheduler :=
  let still_running := match tasks s !! cur with Some t => bool_decide (t_state t = Running) | None => false end in
  let s :=
    if still_running then
      let s := on_task cur (set_state Ready) s in
      if cur =? idle s then s else set_ready (ready s ++ [cur]) s
    else s in
  on_task cur (set_context save_frame) s.

(** The whole switch is one critical section (interrupts are off). *)
(* @src kernel/src/scheduler/mod.rs 428-513 preempt_switch *)
Definition preempt_switch (save_frame : F) (g : SchedState) : option (SchedState * Switch) :=
  let g := clear_need_resched g in
  match sched g with
  | None => Some (g, mkSwitch save_frame (0, 0) None)
  | Some s =>
    let cur := current_ s in
    let s := park_current cur save_frame (reap_zombies_except cur s) in
    let '(s, next) := resume_next s in
    next_task ← tasks s !! next;
    let out :=
      if next =? cur then mkSwitch save_frame (stack_bounds next_task) None
      else mkSwitch (t_context next_task) (stack_bounds next_task) (Some (t_is_user next_task, fr_A1 (t_context next_task))) in
    Some (mkSchedState (Some s) (need_resched g) (restart_syscall g), out)
  end.

(* @src kernel/src/scheduler/mod.rs 591-604 current_stack_range *)
Definition current_stack_range (g : SchedState) : option (Z * Z) :=
  s ← sched g; t ← tasks s !! current_ s; Some (t_stack_base t, saturating_add32 (t_stack_base t) (t_stack_size t)).

(* @src kernel/src/scheduler/mod.rs 608-618 current_task_is_user *)
Definition current_task_is_user (g : SchedState) : bool :=
  match sched g with
  | Some s => match tasks s !! current_ s with Some t => t_is_user t | None => false end
  | None => false
  end.

(* @src kernel/src/scheduler/mod.rs 620-626 set_task_user *)
Definition set_task_user (tid : Z) (b : bool) (g : SchedState) : SchedState :=
  (with_sched (fun s => (on_task tid (set_is_user b) s, tt)) g).1.

(** [block_current] is this followed by [yield_now], the trap that switches away. *)
(* @src kernel/src/scheduler/mod.rs 648-665 block_current_noswitch *)
Definition block_current_noswitch (g : SchedState) : SchedState :=
  set_need_resched (with_sched (fun s =>
    let cur := current_ s in
    let s := on_task cur (set_state Blocked) s in
    (set_ready (filter (fun x => x <> cur) (ready s)) s, tt)) g).1.

(* @src kernel/src/scheduler/mod.rs 667-676 unblock_task *)
Definition unblock_task (tid : Z) (g : SchedState) : SchedState :=
  (with_sched (fun s =>
    match tasks s !! tid with
    | Some t =>
      if decide (t_state t = Blocked)
      then (set_ready (ready s ++ [tid]) (on_task tid (set_state Ready) s), tt)
      else (s, tt)
    | None => (s, tt)
    end) g).1.
End Tasks.
