(* ===== verification/SchedOps.v ===== *)
(** * SchedOps: the scheduler's invariant, and what a switch does

    The invariant of the task table and the ready queue, kept by every operation;
    with it [preempt_switch] never panics and picks the first task of the highest
    priority.  Over sequences of operations: a task resumes with exactly the frame
    it was preempted with, and a task of the highest priority waits for at most the
    tasks ahead of it. *)

From S2P Require Import Prelude Sched.

Open Scope Z_scope.

Section SchedOps.
Context {F : Type} `{Frame F}.
Implicit Types (s : Scheduler (F := F)) (t : Task F) (g : SchedState (F := F)).

(** ** The invariant *)

Record sched_inv s : Prop := mkSchedInv {
  inv_tids : forall k t, tasks s !! k = Some t -> t_tid t = k /\ 0 <= k < next_tid s;
  inv_cur : is_Some (tasks s !! current_ s);
  inv_idle : exists t, tasks s !! idle s = Some t /\ (t_state t = Ready \/ t_state t = Running);
  inv_nodup : NoDup (ready s);
  inv_ready : forall k, k ∈ ready s <-> exists t, tasks s !! k = Some t /\ t_state t = Ready /\ k <> idle s;
  inv_running : forall k t, tasks s !! k = Some t -> t_state t = Running -> k = current_ s;
}.

Definition none_running s : Prop := forall k t, tasks s !! k = Some t -> t_state t <> Running.

Lemma lookup_alter_iff f k j t (m : gmap Z (Task F)) :
  alter f k m !! j = Some t <->
  (j = k /\ exists t0, m !! k = Some t0 /\ t = f t0) \/ (j <> k /\ m !! j = Some t).
Proof. rewrite lookup_alter_Some. naive_solver. Qed.

(** Changing a task's other fields changes nothing of the invariant. *)
Lemma on_task_inv s k f :
  (forall t, t_tid (f t) = t_tid t /\ t_state (f t) = t_state t) -> sched_inv s -> sched_inv (on_task k f s).
Proof.
  intros Hf [Ht Hc [ti [Hi1 Hi2]] Hn Hr Hu].
  assert (Hf' : forall t, t_tid (f t) = t_tid t) by (intros t; apply Hf).
  assert (Hs' : forall t, t_state (f t) = t_state t) by (intros t; apply Hf).
  split; cbn [next_tid current_ idle ready tasks on_task set_tasks].
  - intros j t. rewrite lookup_alter_iff. intros [(-> & t0 & H0 & ->)|[_ H0]]; [rewrite Hf'|]; eauto.
  - destruct Hc as [tc Hc]. rewrite lookup_alter. case_decide; [subst|]; rewrite Hc; cbn; eauto.
  - destruct (decide (idle s = k)) as [He|He].
    + exists (f ti). rewrite lookup_alter_iff, Hs'. subst k. naive_solver.
    + exists ti. rewrite lookup_alter_iff. naive_solver.
  - done.
  - intros j. rewrite Hr. split; intros (t & H1 & H2 & H3).
    + destruct (decide (j = k)) as [->|He].
      * exists (f t). rewrite lookup_alter_iff, Hs'. naive_solver.
      * exists t. rewrite lookup_alter_iff. naive_solver.
    + apply lookup_alter_iff in H1 as [(-> & t0 & H0 & ->)|[_ H0]]; [rewrite Hs' in H2|]; eauto.
  - intros j t. rewrite lookup_alter_iff. intros [(-> & t0 & H0 & ->)|[_ H0]]; [rewrite Hs'|]; eauto.
Qed.

(** Taking a task that is neither the idle task nor becomes ready out of the queue. *)
Lemma retire_inv s k f st :
  k = current_ s -> k <> idle s -> (st = Blocked \/ st = Zombie) ->
  (forall t, t_tid (f t) = t_tid t /\ t_state (f t) = st) -> sched_inv s ->
  sched_inv (set_ready (filter (fun x => x <> k) (ready s)) (on_task k f s)).
Proof.
  intros Hk Hni Hst Hf [Ht Hc [ti [Hi1 Hi2]] Hn Hr Hu].
  assert (Hf' : forall t, t_tid (f t) = t_tid t) by (intros t; apply Hf).
  assert (Hs' : forall t, t_state (f t) = st) by (intros t; apply Hf). clear Hf.
  split; cbn [next_tid current_ idle ready tasks set_ready on_task set_tasks].
  - intros j t. rewrite lookup_alter_iff. intros [(-> & t0 & H0 & ->)|[_ H0]]; [rewrite Hf'|]; eauto.
  - destruct Hc as [tc Hc]. rewrite lookup_alter. case_decide; [subst|]; rewrite Hc; cbn; eauto.
  - exists ti. split; [|done]. rewrite lookup_alter_ne; done.
  - by apply NoDup_filter.
  - intros j. rewrite list_elem_of_filter, Hr. split.
    + intros (Hj & t & H1 & H2 & H3). exists t. rewrite lookup_alter_ne; done.
    + intros (t & H1 & H2 & H3). destruct (decide (j = k)) as [->|Hj].
      * rewrite lookup_alter, decide_True in H1 by done. apply fmap_Some in H1 as (t0 & H1 & ->).
        rewrite Hs' in H2. naive_solver.
      * rewrite lookup_alter_ne in H1 by done. naive_solver.
  - intros j t H1 H2. destruct (decide (j = k)) as [->|Hj]; [done|].
    rewrite lookup_alter_ne in H1 by done. eauto.
Qed.

(** A blocked task becoming ready at the end of the queue. *)
Lemma unblock_inv s k t :
  tasks s !! k = Some t -> t_state t = Blocked -> sched_inv s ->
  sched_inv (set_ready (ready s ++ [k]) (on_task k (set_state Ready) s)).
Proof.
  intros Hk Hb [Ht Hc [ti [Hi1 Hi2]] Hn Hr Hu].
  assert (Hni : k <> idle s) by (intros ->; destruct Hi2; congruence).
  assert (Hnr : k ∉ ready s) by (rewrite Hr; intros (u & H1 & H2 & _); congruence).
  split; cbn [next_tid current_ idle ready tasks set_ready on_task set_tasks].
  - intros j u. rewrite lookup_alter_iff. intros [(-> & t0 & H0 & ->)|[_ H0]]; cbn; eauto.
  - destruct Hc as [tc Hc]. rewrite lookup_alter. case_decide; [subst|]; rewrite Hc; cbn; eauto.
  - exists ti. split; [|done]. rewrite lookup_alter_ne; done.
  - apply NoDup_app. split; [done|]. split; [|apply NoDup_singleton]. intros x Hx ->%list_elem_of_singleton. done.
  - intros j. rewrite elem_of_app, list_elem_of_singleton, Hr. split.
    + intros [(u & H1 & H2 & H3)| ->].
      * exists u. rewrite lookup_alter_ne; [done|]. intros <-. congruence.
      * exists (set_state Ready t). rewrite lookup_alter, decide_True, Hk by done. done.
    + intros (u & H1 & H2 & H3). destruct (decide (j = k)) as [->|Hj]; [by right|left].
      rewrite lookup_alter_ne in H1 by done. eauto.
  - intros j u H1 H2. destruct (decide (j = k)) as [->|Hj].
    + rewrite lookup_alter, decide_True, Hk in H1 by done. simplify_eq/=.
    + rewrite lookup_alter_ne in H1 by done. eauto.
Qed.

(** Inserting a task of a reserved id, blocked or at the end of the queue. *)
Lemma insert_blocked_inv s k t :
  tasks s !! k = None -> 0 <= k < next_tid s -> t_tid t = k -> t_state t = Blocked -> sched_inv s ->
  sched_inv (set_tasks (<[k := t]> (tasks s)) s).
Proof.
  intros Hk Hlt Htid Hst [Ht [tc Hc] [ti [Hi1 Hi2]] Hn Hr Hu].
  split; cbn [next_tid current_ idle ready tasks set_tasks].
  - intros j u [[<- <-]|[_ H1]]%lookup_insert_Some; eauto.
  - rewrite lookup_insert_ne by congruence. eauto.
  - exists ti. rewrite lookup_insert_ne by congruence. done.
  - done.
  - intros j. rewrite Hr. split; intros (u & H1 & H2 & H3); exists u; split; try done.
    + rewrite lookup_insert_ne by congruence. done.
    + apply lookup_insert_Some in H1 as [[_ <-]|[_ H1]]; congruence.
  - intros j u [[<- <-]|[_ H1]]%lookup_insert_Some H2; [congruence|eauto].
Qed.

Lemma insert_ready_inv s k t :
  tasks s !! k = None -> 0 <= k < next_tid s -> t_tid t = k -> t_state t = Ready -> sched_inv s ->
  sched_inv (set_ready (ready s ++ [k]) (set_tasks (<[k := t]> (tasks s)) s)).
Proof.
  intros Hk Hlt Htid Hst Hinv.
  pose proof (insert_blocked_inv s k (set_state Blocked t) Hk Hlt Htid eq_refl Hinv) as Hb.
  eapply unblock_inv in Hb; [|apply lookup_insert_eq|done].
  unfold on_task, set_tasks, set_ready in *; cbn [tasks ready current_ idle next_tid slice_remaining] in *.
  rewrite alter_insert_eq in Hb. replace (set_state Ready (set_state Blocked t)) with t in Hb; [done|].
  destruct t; cbn in Hst; subst; done.
Qed.

(** ** Reaping *)

Lemma reap_foldl dead s :
  let s' := foldl (fun s tid => set_tasks (delete tid (tasks s)) (set_ready (filter (fun x => x <> tid) (ready s)) s)) s dead in
  (forall k, tasks s' !! k = if decide (k ∈ dead) then None else tasks s !! k) /\
  (forall k, k ∈ ready s' <-> k ∈ ready s /\ k ∉ dead) /\
  ((forall k, k ∈ dead -> k ∉ ready s) -> ready s' = ready s) /\
  current_ s' = current_ s /\ idle s' = idle s /\ next_tid s' = next_tid s.
Proof.
  revert s; induction dead as [|d dead IH]; intros s; cbn [foldl].
  - split; [|split; [|done]].
    + intros k. by rewrite decide_False by apply not_elem_of_nil.
    + intros k. rewrite elem_of_nil. tauto.
  - specialize (IH (set_tasks (delete d (tasks s)) (set_ready (filter (fun x => x <> d) (ready s)) s))).
    cbn zeta in IH |- *. destruct IH as (I1 & I2 & I3 & I4 & I5 & I6).
    cbn [tasks ready current_ idle next_tid set_tasks set_ready] in *.
    split; [|split; [|split; [|done]]].
    + intros k. rewrite I1. destruct (decide (k = d)) as [->|Hk].
      * rewrite lookup_delete_eq. rewrite (decide_True (P := d ∈ d :: dead)) by left. by case_decide.
      * rewrite lookup_delete_ne by done. do 2 case_decide; set_solver.
    + intros k. rewrite I2, list_elem_of_filter, elem_of_cons. tauto.
    + intros Hd. rewrite I3.
      * apply filter_all. intros x Hx ->. by apply (Hd d); [left|].
      * intros k Hk Hin%list_elem_of_filter. apply (Hd k); [by right|apply Hin].
Qed.

Lemma reap_spec s keep :
  let s' := reap_zombies_except keep s in
  (forall k, tasks s' !! k = match tasks s !! k with
     | Some t => if decide (t_state t = Zombie /\ k <> keep) then None else Some t | None => None end) /\
  (sched_inv s -> ready s' = ready s) /\
  current_ s' = current_ s /\ idle s' = idle s /\ next_tid s' = next_tid s.
Proof.
  unfold reap_zombies_except; cbn zeta.
  match goal with |- context [foldl _ s ?l] => set (dead := l) end.
  destruct (reap_foldl dead s) as (I1 & _ & I3 & I4).
  assert (Hd : forall k, k ∈ dead <-> exists t, tasks s !! k = Some t /\ t_state t = Zombie /\ k <> keep).
  { intros k. subst dead. rewrite list_elem_of_fmap. split.
    - intros ((k' & t) & -> & [Hz Hin]%list_elem_of_filter). apply elem_of_map_to_list in Hin. cbn in *. eauto.
    - intros (t & H1 & H2). exists (k, t). split; [done|]. apply list_elem_of_filter. split; [done|].
      by apply elem_of_map_to_list. }
  split; [|split]; [| |exact I4].
  - intros k. rewrite I1. destruct (tasks s !! k) as [t|] eqn:E.
    + do 2 case_decide; try done; exfalso; set_solver.
    + by case_decide.
  - intros Hinv. apply I3. intros k (t & H1 & H2 & _)%Hd (t' & H3 & H4 & _)%(inv_ready s Hinv). congruence.
Qed.

Lemma reap_inv s : sched_inv s -> sched_inv (reap_zombies_except (current_ s) s).
Proof.
  intros Hinv. destruct (reap_spec s (current_ s)) as (I1 & I2 & I3 & I4 & I5). specialize (I2 Hinv).
  destruct Hinv as [Ht [tc Hc] [ti [Hi1 Hi2]] Hn Hr Hu].
  split; rewrite ?I2, ?I3, ?I4, ?I5.
  - intros k t. rewrite I1. destruct (tasks s !! k) eqn:E; [|done]. case_decide; [done|]. intros [= <-]. eauto.
  - rewrite I1, Hc. rewrite decide_False by naive_solver. eauto.
  - exists ti. rewrite I1, Hi1. split; [|done]. rewrite decide_False; [done|]. intros [Hz _]. destruct Hi2; congruence.
  - done.
  - intros k. rewrite Hr, I1. split.
    + intros (t & H1 & H2 & H3). exists t. rewrite H1, decide_False; [done|]. intros [Hz _]; congruence.
    + destruct (tasks s !! k) eqn:E; intros (u & H1 & H2 & H3); [|done]. case_decide; naive_solver.
  - intros k t. rewrite I1. destruct (tasks s !! k) eqn:E; [|done]. case_decide; [done|]. intros [= <-]. eauto.
Qed.

(** ** The choice of the next task *)

(** Task [k] may run on core [core]. *)
Definition eligible (core : Z) s (k : Z) t : Prop :=
  tasks s !! k = Some t /\ (t_affinity t = None \/ t_affinity t = Some core).

(** Position [i] of the list holds the first eligible task of the highest priority. *)
Definition first_best (core : Z) s (l : list Z) (i : nat) (k : Z) (p : Z) : Prop :=
  l !! i = Some k /\ (exists t, eligible core s k t /\ t_priority t = p) /\
  (forall j k' t', l !! j = Some k' -> eligible core s k' t' ->
     t_priority t' <= p /\ ((j < i)%nat -> t_priority t' < p)).

Definition best_so_far (core : Z) s (l : list Z) (best : option nat) (highest : Z) : Prop :=
  match best with
  | Some i => exists k, first_best core s l i k highest
  | None => forall k t, k ∈ l -> ~ eligible core s k t
  end.

(** One more entry: it does not beat the best, or it does. *)
Lemma best_keep core s pre k best highest :
  best_so_far core s pre best highest ->
  (forall t, eligible core s k t -> best <> None /\ t_priority t <= highest) ->
  best_so_far core s (pre ++ [k]) best highest.
Proof.
  intros Hb Hk. destruct best as [i|]; cbn in *.
  - destruct Hb as (b & H1 & H2 & H3). exists b. split; [by apply lookup_app_l_Some|]. split; [done|].
    intros j k' t' Hj He. apply lookup_snoc_Some in Hj as [[_ Hj]|[-> ->]]; [by eauto|].
    apply lookup_lt_Some in H1. split; [by apply Hk|lia].
  - intros k' t [H1| ->%list_elem_of_singleton]%elem_of_app He; [by eapply Hb|]. by destruct (Hk t He).
Qed.

Lemma best_new core s pre k t best highest :
  best_so_far core s pre best highest -> eligible core s k t -> (best = None \/ highest < t_priority t) ->
  best_so_far core s (pre ++ [k]) (Some (length pre)) (t_priority t).
Proof.
  intros Hb He Hn. exists k. split; [by apply lookup_snoc_Some; right|]. split; [by eauto|].
  assert (Hpre : forall j k' t', pre !! j = Some k' -> eligible core s k' t' -> t_priority t' < t_priority t).
  { intros j k' t' Hj He'. destruct best as [i|]; cbn in Hb.
    - destruct Hn as [[=]|Hn]. destruct Hb as (b & _ & _ & H3). destruct (H3 _ _ _ Hj He'). lia.
    - exfalso. eapply Hb; [|exact He']. by eapply list_elem_of_lookup_2. }
  intros j k' t' Hj He'. apply lookup_snoc_Some in Hj as [[Hlt Hj]|[-> <-]].
  - pose proof (Hpre _ _ _ Hj He'). lia.
  - destruct He as [He _], He' as [He' _]. simplify_eq. lia.
Qed.

Lemma scan_ready_spec core s l : forall pre best highest,
  best_so_far core s pre best highest ->
  exists h, best_so_far core s (pre ++ l) (scan_ready (tasks s) core l (length pre) best highest) h.
Proof.
  induction l as [|k l IH]; intros pre best highest Hb; cbn [scan_ready]; [rewrite app_nil_r; eauto|].
  rewrite cons_middle, app_assoc. assert (Hl : S (length pre) = length (pre ++ [k])) by (rewrite length_app; cbn; lia).
  rewrite Hl.
  destruct (tasks s !! k) as [t|] eqn:Ek.
  2: { apply IH, best_keep; [done|]. intros t [Ht _]; congruence. }
  destruct (bool_decide (t_affinity t = None) || bool_decide (t_affinity t = Some core)) eqn:Ea.
  2: { apply IH, best_keep; [done|]. intros t' [Ht Ha]; simplify_eq.
       apply orb_false_iff in Ea as [E1%bool_decide_eq_false E2%bool_decide_eq_false]. tauto. }
  assert (He : eligible core s k t).
  { split; [done|]. apply orb_true_iff in Ea as [E1%bool_decide_eq_true|E1%bool_decide_eq_true]; auto. }
  destruct (bool_decide (best = None) || (highest <? t_priority t)) eqn:Eb.
  - apply IH. eapply best_new; try done.
    apply orb_true_iff in Eb as [E1%bool_decide_eq_true|E1%Z.ltb_lt]; auto.
  - apply IH, best_keep; [done|]. intros t' [Ht _]. simplify_eq.
    apply orb_false_iff in Eb as [E1%bool_decide_eq_false E2%Z.ltb_ge]. auto.
Qed.

Lemma next_ready_spec core s :
  (exists i k p, next_ready core s = (set_ready (delete i (ready s)) s, Some k) /\ first_best core s (ready s) i k p) \/
  (next_ready core s = (s, None) /\ forall k t, k ∈ ready s -> ~ eligible core s k t).
Proof.
  unfold next_ready. destruct (scan_ready_spec core s (ready s) [] None 0) as [h Hb]; [by intros ? ? ?%not_elem_of_nil|].
  cbn [app length] in Hb. destruct (scan_ready _ _ _ _ _ _) as [i|]; [left|right; done].
  destruct Hb as [k Hb]. exists i, k, h. pose proof Hb as [E _]. by rewrite E.
Qed.

(** ** Parking the current task *)

(** What the current task is after it was parked. *)
Definition parked (f : F) t : Task F :=
  set_context f (if decide (t_state t = Running) then set_state Ready t else t).

Lemma park_eq s f tc :
  tasks s !! current_ s = Some tc ->
  park_current (current_ s) f s =
    (if decide (t_state tc = Running /\ current_ s <> idle s) then set_ready (ready s ++ [current_ s]) else id)
      (on_task (current_ s) (parked f) s).
Proof.
  intros Hc. unfold park_current. rewrite Hc.
  assert (E1 : t_state tc = Running -> alter (set_context f) (current_ s) (alter (set_state Ready) (current_ s) (tasks s)) =
    alter (parked f) (current_ s) (tasks s)).
  { intros Hr. rewrite alter_alter_eq. apply alter_ext. intros t Ht. unfold parked. simplify_eq. by rewrite decide_True. }
  assert (E2 : t_state tc <> Running -> alter (set_context f) (current_ s) (tasks s) = alter (parked f) (current_ s) (tasks s)).
  { intros Hr. apply alter_ext. intros t Ht. unfold parked. simplify_eq. by rewrite decide_False. }
  unfold on_task, set_tasks, set_ready, id. cbn [tasks ready current_ idle next_tid slice_remaining].
  case_bool_decide as Hr; [|rewrite decide_False by naive_solver; cbn [tasks ready current_ idle next_tid slice_remaining]; by rewrite E2].
  destruct (Z.eqb_spec (current_ s) (idle s)) as [He|He];
    cbn [tasks ready current_ idle next_tid slice_remaining];
    [rewrite decide_False by naive_solver|rewrite decide_True by done]; cbn [tasks ready current_ idle next_tid slice_remaining]; by rewrite E1.
Qed.

Lemma park_spec s f :
  sched_inv s ->
  let s' := park_current (current_ s) f s in
  sched_inv s' /\ none_running s' /\ tasks s' = alter (parked f) (current_ s) (tasks s) /\
  (exists l, ready s' = ready s ++ l) /\ current_ s' = current_ s /\ idle s' = idle s.
Proof.
  intros Hinv. pose proof Hinv as [Ht [tc Hc] [ti [Hi1 Hi2]] Hn Hr Hu]. cbn zeta.
  rewrite (park_eq _ _ tc Hc).
  assert (Htid : forall t, t_tid (parked f t) = t_tid t) by (intros t; unfold parked; by case_decide).
  assert (Hst : forall t, t_state (parked f t) = if decide (t_state t = Running) then Ready else t_state t)
    by (intros t; unfold parked; by case_decide).
  assert (Hnr : none_running (on_task (current_ s) (parked f) s)).
  { intros k t H1 H2. apply lookup_alter_iff in H1 as [(-> & t0 & H0 & ->)|[Hne H1]].
    - rewrite Hst in H2. by case_decide.
    - by apply Hne, (Hu k t). }
  case_decide as Hd.
  - destruct Hd as [Hrun Hne]. split; [|split; [done|split; [done|split; [by eexists|done]]]].
    assert (Hb : sched_inv (set_ready (filter (fun x => x <> current_ s) (ready s)) (on_task (current_ s) (set_state Blocked) s))).
    { apply (retire_inv s (current_ s) (set_state Blocked) Blocked); auto. }
    rewrite filter_all in Hb by (intros x Hx ->; apply Hr in Hx as (t & ? & ? & ?); congruence).
    eapply unblock_inv in Hb; [|cbn; rewrite lookup_alter, decide_True, Hc by done; reflexivity|done].
    eapply (on_task_inv _ (current_ s) (set_context f)) in Hb; [|done].
    unfold on_task, set_tasks, set_ready in *; cbn [tasks ready current_ idle next_tid slice_remaining] in *.
    rewrite !alter_alter_eq in Hb. erewrite (alter_ext (parked f)); [exact Hb|]. intros t Ht'. simplify_eq.
    unfold parked. rewrite decide_True by done. done.
  - unfold id. split; [|split; [done|split; [done|split; [exists []; by rewrite app_nil_r|done]]]].
    destruct (decide (t_state tc = Running)) as [Hrun|Hrun].
    + assert (Hci : current_ s = idle s) by (destruct (decide (current_ s = idle s)); tauto).
      split; cbn [next_tid current_ idle ready tasks on_task set_tasks].
      * intros k t [(-> & t0 & H0 & ->)|[_ H0]]%lookup_alter_iff; [rewrite Htid|]; eauto.
      * rewrite lookup_alter, decide_True, Hc by done. eauto.
      * exists (parked f tc). rewrite Hci, lookup_alter, decide_True, <- Hci, Hc, Hst, decide_True by done. auto.
      * done.
      * intros k. rewrite Hr. split; intros (t & H1 & H2 & H3); exists t; (split; [|done]);
          rewrite lookup_alter_ne in * by congruence; done.
      * intros k t H1 H2. exfalso. by apply (Hnr k t).
    + 
      replace (on_task (current_ s) (parked f) s) with (on_task (current_ s) (set_context f) s); [by apply on_task_inv|].
      unfold on_task, set_tasks. rewrite (alter_ext (set_context f) (parked f)); [done|].
      intros t Ht'. simplify_eq. unfold parked. by rewrite decide_False.
Qed.

(** ** Resuming *)

(** [n] is the choice of the scheduler: the first eligible task of the highest
    priority in the queue, or the idle task when no task of the queue is eligible. *)
Definition picks s (n : Z) : Prop :=
  (exists i p, first_best 0 s (ready s) i n p) \/
  (n = idle s /\ forall k t, k ∈ ready s -> ~ eligible 0 s k t).

Lemma delete_NoDup (l : list Z) i k : NoDup l -> l !! i = Some k ->
  NoDup (delete i l) /\ (forall x, x ∈ delete i l <-> x ∈ l /\ x <> k) /\ delete i l = filter (fun x => x <> k) l.
Proof.
  intros Hn Hi.
  assert (Hf : delete i l = filter (fun x => x <> k) l).
  { revert i Hi Hn. induction l as [|x l IH]; intros i Hi Hn; [done|]. apply NoDup_cons in Hn as [Hx Hn].
    destruct i as [|i]; cbn in Hi.
    - change (delete 0%nat (x :: l)) with l. simplify_eq. rewrite filter_cons_False by naive_solver. symmetry. apply filter_all. by intros y Hy ->.
    - change (delete (S i) (x :: l)) with (x :: delete i l). rewrite filter_cons_True; [f_equal; by apply IH|]. intros ->. by apply list_elem_of_lookup_2 in Hi. }
  split; [rewrite Hf; by apply NoDup_filter|]. split; [|done]. intros x. rewrite Hf, list_elem_of_filter. tauto.
Qed.

Lemma promote_inv s n l t0 :
  tasks s !! n = Some t0 -> NoDup l -> (forall x, x ∈ l <-> x ∈ ready s /\ x <> n) -> sched_inv s -> none_running s ->
  sched_inv (set_current n (on_task n (set_state Running) (set_ready l s))).
Proof.
  intros Hk Hl Hin [Ht [tc Hc] [ti [Hi1 Hi2]] Hn Hr Hu] Hnr.
  split; cbn [next_tid current_ idle ready tasks on_task set_tasks set_current set_ready].
  - intros j t [(-> & u & H0 & ->)|[_ H0]]%lookup_alter_iff; cbn; eauto.
  - rewrite lookup_alter, decide_True, Hk by done. eauto.
  - destruct (decide (idle s = n)) as [He|He].
    + subst n. exists (set_state Running ti). rewrite lookup_alter, decide_True, Hi1 by done. auto.
    + exists ti. rewrite lookup_alter_ne; done.
  - done.
  - intros j. rewrite Hin, Hr. split.
    + intros [(u & H1 & H2 & H3) Hx]. exists u. by rewrite lookup_alter_ne.
    + intros (u & [(-> & t & H0 & ->)|[Hx H0]]%lookup_alter_iff & H2 & H3); [done|eauto].
  - intros j u [(-> & t & H0 & ->)|[Hx H0]]%lookup_alter_iff H2; [done|]. exfalso. by eapply Hnr.
Qed.

Lemma resume_spec s :
  sched_inv s -> none_running s ->
  exists s' n, resume_next s = (s', n) /\ picks s n /\ sched_inv s' /\
    tasks s' = alter (set_state Running) n (tasks s) /\ current_ s' = n /\ idle s' = idle s /\
    slice_remaining s' = QUANTUM_TICKS /\
    ready s' = filter (fun x => x <> n) (ready s).
Proof.
  intros Hinv Hnr. pose proof Hinv as [Ht [tc Hc] [ti [Hi1 Hi2]] Hn Hr Hu]. unfold resume_next.
  destruct (next_ready_spec 0 s) as [(i & k & p & -> & Hfb)|[-> Hne]]; cbn [default id].
  - pose proof Hfb as (Hi & (t & [Hk _] & _) & _). destruct (delete_NoDup _ _ _ Hn Hi) as (Hn' & Hdel & Hf).
    do 2 eexists. split; [reflexivity|]. split; [left; eauto|]. split; [by eapply promote_inv|]. done.
  - assert (Hni : idle s ∉ ready s) by (rewrite Hr; intros (u & _ & _ & ?); done).
    do 2 eexists. split; [reflexivity|]. split; [right; done|]. split.
    { replace (on_task (idle s) (set_state Running) s) with (on_task (idle s) (set_state Running) (set_ready (ready s) s)) by done.
      eapply promote_inv; try done. intros x. split; [|tauto]. intros Hx. split; [done|]. intros ->. done. }
    repeat (split; [done|]). cbn. symmetry. apply filter_all. intros x Hx ->. done.
Qed.

(** ** The switch *)

Lemma lookup_parked_reaped s f k :
  sched_inv s ->
  tasks (park_current (current_ s) f (reap_zombies_except (current_ s) s)) !! k =
    match tasks s !! k with
    | Some t =>
      if decide (k = current_ s) then Some (parked f t)
      else if decide (t_state t = Zombie) then None else Some t
    | None => None
    end.
Proof.
  intros Hinv. destruct (reap_spec s (current_ s)) as (R1 & _ & R3 & _).
  pose proof (park_spec _ f (reap_inv s Hinv)) as (_ & _ & P3 & _). rewrite R3 in P3. rewrite P3.
  destruct (decide (k = current_ s)) as [->|Hk].
  - rewrite lookup_alter_eq, R1. destruct (tasks s !! current_ s); [|done]. by rewrite decide_False by naive_solver.
  - rewrite lookup_alter_ne, R1 by done. destruct (tasks s !! k); [|done]. do 2 case_decide; naive_solver.
Qed.

Lemma switch_spec g s f :
  sched g = Some s -> sched_inv s ->
  let p := park_current (current_ s) f (reap_zombies_except (current_ s) s) in
  exists s' t,
    preempt_switch f g = Some (mkSchedState (Some s') false (restart_syscall g),
      if current_ s' =? current_ s then mkSwitch f (stack_bounds t) None
      else mkSwitch (t_context t) (stack_bounds t) (Some (t_is_user t, fr_A1 (t_context t)))) /\
    sched_inv s' /\ picks p (current_ s') /\ sched_inv p /\
    tasks s' = alter (set_state Running) (current_ s') (tasks p) /\
    tasks s' !! current_ s' = Some t /\ t_state t = Running /\
    ready s' = filter (fun x => x <> current_ s') (ready p) /\ (exists l, ready p = ready s ++ l) /\
    idle s' = idle s /\ slice_remaining s' = QUANTUM_TICKS /\ next_tid s' = next_tid s.
Proof.
  intros Hg Hinv p. pose proof (reap_inv s Hinv) as Hr.
  destruct (reap_spec s (current_ s)) as (_ & R2 & R3 & R4 & R5). specialize (R2 Hinv).
  pose proof (park_spec _ f Hr) as (P1 & P2 & P3 & P4 & P5 & P6). rewrite R3 in *. fold p in P1, P2, P3, P4, P5, P6.
  destruct (resume_spec p P1 P2) as (s' & n & E & Hp & Hi & Ht & Hc & Hid & Hsl & Hrd).
  destruct (inv_cur _ Hi) as [t Hct]. exists s', t. unfold preempt_switch. cbn [sched clear_need_resched]. rewrite Hg.
  fold p. rewrite E. subst n. unfold mbind, option_bind. rewrite Hct. cbn [need_resched restart_syscall clear_need_resched].
  split; [done|]. rewrite R2, R4 in *. repeat (split; [by eauto|]).
  assert (Hrun : t_state t = Running).
  { rewrite Ht, lookup_alter_eq in Hct. by apply fmap_Some in Hct as (u & _ & ->). }
  split; [exact Hrun|]. split; [done|]. split; [done|]. split; [congruence|]. split; [done|].
  rewrite <- R5. unfold resume_next in E. destruct (next_ready 0 p) as [q o] eqn:En.
  assert (next_tid q = next_tid p).
  { destruct (next_ready_spec 0 p) as [(? & ? & ? & E' & _)|[E' _]]; rewrite E' in En; by inversion En. }
  inversion E; subst s'. cbn. rewrite H0. unfold p, park_current. case_match; [|done]. cbn. by destruct (_ =? _).
Qed.

(** ** The system: what the tasks and the interrupts do to the scheduler *)

(** The scheduler and the task ids that [spawn_inner] reserved and did not insert yet. *)
Record World := mkWorld { w_g : SchedState (F := F); w_reserved : gset Z }.

Inductive Event :=
  | EReserve
  | EInsert (tid : Z) (t : Task F) (blocked : bool)
  | ETick
  | ESwitch (f : F)
  | EExit (code : Z)
  | EBlock
  | EUnblock (tid : Z)
  | ESetUser (tid : Z) (b : bool).

(** The idle task neither exits nor blocks: its body ([idle_entry]) only yields. *)
Inductive step : World -> Event -> World -> Prop :=
  | step_reserve g R g' tid :
      spawn_reserve g = (g', Ok tid) -> step (mkWorld g R) EReserve (mkWorld g' ({[tid]} ∪ R))
  | step_insert g R g' tramp heap tid name entry arg size prio user blocked t :
      tid ∈ R -> spawn_task tramp heap tid name entry arg size prio user blocked = Ok t ->
      spawn_insert tid t blocked g = (g', Ok tid) ->
      step (mkWorld g R) (EInsert tid t blocked) (mkWorld g' (R ∖ {[tid]}))
  | step_tick g R : step (mkWorld g R) ETick (mkWorld (tick g) R)
  | step_switch g R f g' sw :
      preempt_switch f g = Some (g', sw) -> step (mkWorld g R) (ESwitch f) (mkWorld g' R)
  | step_exit g R code : current g <> IDLE_TID -> step (mkWorld g R) (EExit code) (mkWorld (exit code g) R)
  | step_block g R : current g <> IDLE_TID -> step (mkWorld g R) EBlock (mkWorld (block_current_noswitch g) R)
  | step_unblock g R tid : step (mkWorld g R) (EUnblock tid) (mkWorld (unblock_task tid g) R)
  | step_set_user g R tid b : step (mkWorld g R) (ESetUser tid b) (mkWorld (set_task_user tid b g) R).

Inductive steps : World -> list Event -> World -> Prop :=
  | steps_nil w : steps w [] w
  | steps_cons w e w' evs w'' : step w e w' -> steps w' evs w'' -> steps w (e :: evs) w''.

(** Right after [init] made the idle task. *)
Definition booted (w : World) : Prop :=
  exists tramp heap idle_entry base need rs, heap DEFAULT_STACK_SIZE = Some base /\
    w = mkWorld (init tramp heap idle_entry (mkSchedState None need rs)) ∅.

Definition reachable (w : World) : Prop := exists w0 evs, booted w0 /\ steps w0 evs w.

Record world_inv (w : World) s : Prop := mkWorldInv {
  wi_sched : sched (w_g w) = Some s;
  wi_inv : sched_inv s;
  wi_idle : idle s = IDLE_TID;
  wi_reserved : forall k, k ∈ w_reserved w -> tasks s !! k = None /\ 0 <= k < next_tid s;
  wi_next : 0 <= next_tid s;
}.

(** What one step may change of the task table. *)
Record evolves (w : World) s (e : Event) (w' : World) s' : Prop := mkEvolves {
  ev_task : forall k t', tasks s' !! k = Some t' ->
    (exists t, tasks s !! k = Some t /\ t_priority t' = t_priority t /\ t_affinity t' = t_affinity t /\
       (k <> current_ s -> t_context t' = t_context t)) \/
    (k ∈ w_reserved w /\ exists b, e = EInsert k t' b);
  ev_reserved : forall k, k ∈ w_reserved w' -> k ∈ w_reserved w \/ next_tid s <= k;
  ev_next : next_tid s <= next_tid s';
}.

Lemma evolves_same w s e w' s' :
  w_reserved w' ⊆ w_reserved w -> next_tid s' = next_tid s ->
  (forall k t', tasks s' !! k = Some t' ->
    exists t, tasks s !! k = Some t /\ t_priority t' = t_priority t /\ t_affinity t' = t_affinity t /\
       (k <> current_ s -> t_context t' = t_context t)) ->
  evolves w s e w' s'.
Proof. intros H1 H2 H3. split; [intros k t' Ht; left; auto|set_solver|lia]. Qed.

Lemma evolves_on_task w s e w' s' k f :
  w_reserved w' ⊆ w_reserved w -> next_tid s' = next_tid s -> tasks s' = alter f k (tasks s) ->
  (forall t, t_priority (f t) = t_priority t /\ t_affinity (f t) = t_affinity t /\ t_context (f t) = t_context t) ->
  evolves w s e w' s'.
Proof.
  intros H1 H2 H3 Hf. apply evolves_same; try done. intros j t'. rewrite H3.
  intros [(-> & t0 & H0 & ->)|[_ H0]]%lookup_alter_iff; [|by eauto].
  exists t0. destruct (Hf t0) as (? & ? & ?). eauto.
Qed.

Lemma spawn_task_fields tramp heap tid name entry arg size prio user blocked (t : Task F) :
  spawn_task tramp heap tid name entry arg size prio user blocked = Ok t ->
  t_tid t = tid /\ t_state t = (if blocked then Blocked else Ready) /\ t_priority t = prio.
Proof.
  unfold spawn_task, task_new. intros E.
  destruct (negb _); [done|]. destruct (heap _); [|done]. inversion E as [E']; clear E.
  destruct blocked, (String.eqb name "net"); subst t; cbn; auto.
Qed.

Lemma booted_inv w : booted w -> exists s, world_inv w s.
Proof.
  intros (tramp & heap & ie & base & need & rs & Hh & ->). eexists. split; [reflexivity| |done| |done].
  - unfold task_new. change (layout_ok (align_up _ _)) with true. cbn [negb].
    change (align_up (if DEFAULT_STACK_SIZE =? 0 then DEFAULT_STACK_SIZE else DEFAULT_STACK_SIZE) STACK_ALIGN) with DEFAULT_STACK_SIZE.
    rewrite Hh. split; cbn [tasks current_ idle ready next_tid].
    + intros k t [<- <-]%lookup_singleton_Some. split; [done|]. unfold IDLE_TID; lia.
    + rewrite lookup_singleton_eq. eauto.
    + eexists. rewrite lookup_singleton_eq. cbn. eauto.
    + apply NoDup_nil_2.
    + intros k. rewrite elem_of_nil. split; [done|]. intros (t & [<- _]%lookup_singleton_Some & _ & ?). done.
    + intros k t [<- <-]%lookup_singleton_Some. done.
  - intros k Hk. by apply not_elem_of_empty in Hk.
Qed.

Lemma current_world w s : world_inv w s -> current (w_g w) = current_ s.
Proof. intros Hw. unfold current. by rewrite (wi_sched _ _ Hw). Qed.

(** A step on the scheduler that touches neither the reservations nor the set of tasks. *)
Lemma world_keep w s s' g' :
  world_inv w s -> sched g' = Some s' -> sched_inv s' -> idle s' = idle s -> next_tid s' = next_tid s ->
  (forall k, tasks s !! k = None -> tasks s' !! k = None) -> world_inv (mkWorld g' (w_reserved w)) s'.
Proof.
  intros [H1 H2 H3 H4 H5] Hg Hi Hd Hn Ht. split; cbn; rewrite ?Hn; try done; [congruence|].
  intros k Hk. destruct (H4 k Hk). auto.
Qed.

Lemma tick_sched g s : sched g = Some s ->
  exists n b, tick g = mkSchedState (Some (set_slice n s)) b (restart_syscall g).
Proof.
  intros Hg. unfold tick, with_sched. rewrite Hg.
  destruct s as [ts rd cu id nx sl]; cbn [slice_remaining]. destruct (0 <? sl); cbn [slice_remaining set_slice tasks ready current_ idle next_tid];
    match goal with |- context [?x =? 0] => destruct (x =? 0) end; cbn; eauto.
Qed.

(** What [mark_zombie] and [block_current_noswitch] do to the current task. *)
Definition retire (f : Task F -> Task F) s : Scheduler (F := F) :=
  set_ready (filter (fun x => x <> current_ s) (ready s)) (on_task (current_ s) f s).

Lemma exit_sched code g s : sched g = Some s ->
  sched (exit code g) = Some (retire (fun t => set_exit_code code (set_state Zombie t)) s).
Proof. intros Hg. unfold exit, mark_zombie, with_sched. rewrite Hg. done. Qed.

Lemma block_sched g s : sched g = Some s ->
  sched (block_current_noswitch g) = Some (retire (set_state Blocked) s).
Proof. intros Hg. unfold block_current_noswitch, with_sched. rewrite Hg. done. Qed.

Lemma retire_step w s g' f st :
  world_inv w s -> current (w_g w) <> IDLE_TID -> sched g' = Some (retire f s) -> (st = Blocked \/ st = Zombie) ->
  (forall t, t_tid (f t) = t_tid t /\ t_state (f t) = st /\
     t_priority (f t) = t_priority t /\ t_affinity (f t) = t_affinity t /\ t_context (f t) = t_context t) ->
  world_inv (mkWorld g' (w_reserved w)) (retire f s).
Proof.
  intros Hw Hc Hg Hst Hf. pose proof (current_world _ _ Hw) as Hcu. apply (world_keep w s); auto.
  - eapply retire_inv; try done; [rewrite (wi_idle _ _ Hw); congruence| |apply Hw]. intros t. destruct (Hf t). tauto.
  - intros k Hk. unfold retire; cbn. by rewrite lookup_alter_None.
Qed.

Lemma alter_None {A} (f : A -> A) j (m : gmap Z A) k : m !! k = None -> alter f j m !! k = None.
Proof. intros Hk. by rewrite lookup_alter_None. Qed.

Lemma switch_evolves w s f g' sw s' p :
  world_inv w s -> sched g' = Some s' -> next_tid s' = next_tid s ->
  p = park_current (current_ s) f (reap_zombies_except (current_ s) s) ->
  tasks s' = alter (set_state Running) (current_ s') (tasks p) ->
  preempt_switch f (w_g w) = Some (g', sw) -> evolves w s (ESwitch f) (mkWorld g' (w_reserved w)) s'.
Proof.
  intros Hw Hg Hn -> Ht _. apply evolves_same; [done|done|]. intros k t'. rewrite Ht.
  assert (Hq : forall t, tasks (park_current (current_ s) f (reap_zombies_except (current_ s) s)) !! k = Some t ->
    exists t0, tasks s !! k = Some t0 /\ t_priority t = t_priority t0 /\ t_affinity t = t_affinity t0 /\
       (k <> current_ s -> t_context t = t_context t0)).
  { intros t. rewrite lookup_parked_reaped by apply Hw. destruct (tasks s !! k) as [u|]; [|done].
    case_decide as Hk; [intros [= <-]; exists u; split; [done|]; unfold parked; by case_decide|].
    case_decide; [done|]. intros [= <-]. eauto 10. }
  intros Hl. apply lookup_alter_iff in Hl as [(-> & t0 & H0 & ->)|[_ H0]]; [|by apply Hq].
  apply Hq in H0 as (u & ? & ? & ? & ?). exists u. auto.
Qed.

Lemma reserve_step g s g' tid R :
  world_inv (mkWorld g R) s -> spawn_reserve g = (g', Ok tid) ->
  exists s', world_inv (mkWorld g' ({[tid]} ∪ R)) s' /\ evolves (mkWorld g R) s EReserve (mkWorld g' ({[tid]} ∪ R)) s'.
Proof.
  intros [Hg Hi Hd Hres Hnn] E. cbn in Hg, Hres. unfold spawn_reserve, with_sched, checked_add32 in E. rewrite Hg in E.
  destruct (_ <=? _); [|done]. simplify_eq. exists (set_next_tid (next_tid s + 1) s).
  assert (Hnew : tasks s !! next_tid s = None).
  { destruct (tasks s !! next_tid s) as [t|] eqn:Et; [|done]. apply Hi in Et. lia. }
  split.
  - split; cbn; try done; [|intros k Hk|lia].
    + destruct Hi as [Ht Hc Hid Hn Hr Hu]. split; cbn; try done. intros k t Ht'. apply Ht in Ht'. lia.
    + apply elem_of_union in Hk as [->%elem_of_singleton|Hk]; [split; [done|lia]|]. destruct (Hres k Hk). split; [done|lia].
  - split; cbn; [|intros k Hk|lia].
    + intros k t' Ht'. left. eauto.
    + apply elem_of_union in Hk as [->%elem_of_singleton|Hk]; [right; lia|by left].
Qed.

Lemma insert_step g s g' tid R t blocked :
  world_inv (mkWorld g R) s -> tid ∈ R -> t_tid t = tid -> t_state t = (if blocked : bool then Blocked else Ready) ->
  spawn_insert tid t blocked g = (g', Ok tid) ->
  exists s', world_inv (mkWorld g' (R ∖ {[tid]})) s' /\
    evolves (mkWorld g R) s (EInsert tid t blocked) (mkWorld g' (R ∖ {[tid]})) s'.
Proof.
  intros [Hg Hi Hd Hres Hnn] HR Htid Hst E. cbn in Hg, Hres. destruct (Hres tid HR) as [Hnone Hlt].
  unfold spawn_insert, with_sched in E. rewrite Hg in E. injection E as <-.
  set (s1 := set_tasks (<[tid := t]> (tasks s)) s).
  set (s2 := if blocked then s1 else set_ready (ready s1 ++ [tid]) s1). exists s2.
  assert (Ht : tasks s2 = <[tid := t]> (tasks s)) by (by destruct blocked).
  assert (Hn : next_tid s2 = next_tid s) by (by destruct blocked).
  assert (Hid : idle s2 = idle s) by (by destruct blocked).
  assert (Hi2 : sched_inv s2) by (destruct blocked; [by apply insert_blocked_inv|exact (insert_ready_inv s tid t Hnone Hlt Htid Hst Hi)]).
  split.
  - split; cbn [w_g w_reserved]; rewrite ?Hn, ?Hid; try done.
    intros k [Hk Hne%not_elem_of_singleton]%elem_of_difference. rewrite Ht, lookup_insert_ne by done. auto.
  - split; cbn; rewrite ?Hn; [|set_solver|lia]. intros k t'. rewrite Ht.
    intros [[<- <-]|[_ H1]]%lookup_insert_Some; [right; eauto|left; eauto].
Qed.

Lemma step_inv w e w' s : world_inv w s -> step w e w' -> exists s', world_inv w' s' /\ evolves w s e w' s'.
Proof.
  intros Hw Hs. pose proof Hw as [Hg Hi Hd Hres Hnn].
  destruct Hs as [|g R g' tramp heap tid name entry arg size prio user blocked t HR Hsp E|g R|g R f g' sw E|g R code Hc|g R Hc|g R tid|g R tid b]; cbn in Hg.
  - by eapply reserve_step.
  - apply spawn_task_fields in Hsp as (? & ? & ?). by eapply insert_step.
  - destruct (tick_sched g s Hg) as (n & b & Ht). exists (set_slice n s). rewrite Ht. split.
    + apply (world_keep (mkWorld g R) s); try done. by destruct Hi; split.
    + apply evolves_same; [done|done|]. cbn; eauto.
  - destruct (switch_spec g s f Hg Hi) as (s' & t & E' & H1 & H2 & H3 & H4 & H5 & H6 & H7 & H8 & H9 & H10 & H11).
    exists s'. rewrite E' in E. injection E as <- <-. split; [|by eapply switch_evolves].
    apply (world_keep (mkWorld g R) s); try done. intros k Hk. rewrite H4. apply alter_None.
    rewrite lookup_parked_reaped by done. by rewrite Hk.
  - pose proof (exit_sched code g s Hg) as E. exists (retire (fun t => set_exit_code code (set_state Zombie t)) s). split.
    + eapply (retire_step (mkWorld g R)); [done|done|done|right; reflexivity|]. intros t; cbn. auto.
    + eapply evolves_on_task; done.
  - pose proof (block_sched g s Hg) as E. exists (retire (set_state Blocked) s). split.
    + eapply (retire_step (mkWorld g R)); [done|done|done|left; reflexivity|]. intros t; cbn. auto.
    + eapply evolves_on_task; done.
  - unfold unblock_task, with_sched. rewrite Hg. destruct (tasks s !! tid) as [t|] eqn:Et; cbn [fst snd];
      [case_decide as Hb|].
    + exists (set_ready (ready s ++ [tid]) (on_task tid (set_state Ready) s)). split.
      * apply (world_keep (mkWorld g R) s); try done; [by eapply unblock_inv|]. intros k. apply alter_None.
      * by eapply evolves_on_task.
    + exists s. split; [by apply (world_keep (mkWorld g R) s)|]. apply evolves_same; cbn; eauto.
    + exists s. split; [by apply (world_keep (mkWorld g R) s)|]. apply evolves_same; cbn; eauto.
  - unfold set_task_user, with_sched. rewrite Hg. exists (on_task tid (set_is_user b) s). split.
    + apply (world_keep (mkWorld g R) s); try done; [by apply on_task_inv|]. intros k. apply alter_None.
    + by eapply evolves_on_task.
Qed.

Lemma steps_inv w evs w' s : world_inv w s -> steps w evs w' -> exists s', world_inv w' s'.
Proof.
  intros Hw Hs. revert s Hw. induction Hs as [|w e w' evs w'' H1 _ IH]; intros s Hw; [eauto|].
  destruct (step_inv _ _ _ _ Hw H1) as (s' & Hw' & _). eauto.
Qed.

Lemma reachable_inv w : reachable w -> exists s, world_inv w s.
Proof. intros (w0 & evs & Hb & Hs). destruct (booted_inv _ Hb) as [s Hw]. by eapply steps_inv. Qed.

(** ** Along a run *)

(** No switch of the trace chose task [k]. *)
Inductive steps_without (k : Z) : World -> list Event -> World -> Prop :=
  | sw_nil w : steps_without k w [] w
  | sw_cons w e w' evs w'' :
      step w e w' -> (forall f, e = ESwitch f -> current (w_g w') <> k) -> steps_without k w' evs w'' ->
      steps_without k w (e :: evs) w''.

Definition is_switch (e : Event) : bool := match e with ESwitch _ => true | _ => false end.
Definition switches (evs : list Event) : nat := length (filter (fun e => is_switch e = true) evs).

Lemma step_current w e w' s s' :
  world_inv w s -> world_inv w' s' -> step w e w' -> is_switch e = false -> current_ s' = current_ s.
Proof.
  intros Hw Hw' Hs He. pose proof (wi_sched _ _ Hw') as Hg'. pose proof (wi_sched _ _ Hw) as Hg.
  destruct Hs; cbn [w_g] in Hg, Hg'; try done.
  - unfold spawn_reserve, with_sched in H0. rewrite Hg in H0. destruct (checked_add32 _ _); [|done].
    injection H0 as <- _. by injection Hg' as <-.
  - unfold spawn_insert, with_sched in H2. rewrite Hg in H2. injection H2 as <-. injection Hg' as <-. by destruct blocked.
  - destruct (tick_sched g s Hg) as (n & b & E). rewrite E in Hg'. by injection Hg' as <-.
  - rewrite (exit_sched _ _ _ Hg) in Hg'. by injection Hg' as <-.
  - rewrite (block_sched _ _ Hg) in Hg'. by injection Hg' as <-.
  - unfold unblock_task, with_sched in Hg'. rewrite Hg in Hg'.
    destruct (tasks s !! tid); [case_decide|]; by injection Hg' as <-.
  - unfold set_task_user, with_sched in Hg'. rewrite Hg in Hg'. by injection Hg' as <-.
Qed.

Lemma step_without_current k w e w' s s' :
  world_inv w s -> world_inv w' s' -> step w e w' -> current_ s <> k ->
  (forall f, e = ESwitch f -> current (w_g w') <> k) -> current_ s' <> k.
Proof.
  intros Hw Hw' Hs Hc He. destruct (is_switch e) eqn:Ee.
  - destruct e; try done. rewrite <- (current_world _ _ Hw'). by eapply He.
  - by rewrite (step_current _ _ _ _ _ Hw Hw' Hs Ee).
Qed.

(** The frame [f] is what task [k] will resume with, if it ever does. *)
Definition holds_frame (k : Z) (f : F) (w : World) s : Prop :=
  current_ s <> k /\ ~ (k ∈ w_reserved w) /\ k < next_tid s /\ (forall t, tasks s !! k = Some t -> t_context t = f).

Lemma step_holds_frame k f w e w' s :
  world_inv w s -> holds_frame k f w s -> step w e w' ->
  (forall f', e = ESwitch f' -> current (w_g w') <> k) ->
  exists s', world_inv w' s' /\ holds_frame k f w' s'.
Proof.
  intros Hw (Hc & HR & Hlt & Ht) Hs He. destruct (step_inv _ _ _ _ Hw Hs) as (s' & Hw' & [E1 E2 E3]).
  exists s'. split; [done|]. split; [by apply (step_without_current k w e w' s s')|]. split; [|split; [lia|]].
  - intros Hk. apply E2 in Hk as [Hk|Hk]; [done|lia].
  - intros t' Ht'. destruct (E1 _ _ Ht') as [(t & H0 & _ & _ & Hcx)|[Hk _]]; [|done]. rewrite Hcx by done. auto.
Qed.

Lemma steps_holds_frame k f w evs w' :
  steps_without k w evs w' -> forall s, world_inv w s -> holds_frame k f w s ->
  exists s', world_inv w' s' /\ holds_frame k f w' s'.
Proof.
  induction 1 as [|w e w' evs w'' H1 H2 _ IH]; intros s Hw Hh; [eauto|].
  destruct (step_holds_frame _ _ _ _ _ _ Hw Hh H1 H2) as (s' & Hw' & Hh'). eauto.
Qed.

(** Every task of the table has a priority of at most [p]. *)
Definition at_most (p : Z) s : Prop := forall k t, tasks s !! k = Some t -> t_priority t <= p.
Definition inserts_at_most (p : Z) (e : Event) : Prop := match e with EInsert _ t _ => t_priority t <= p | _ => True end.

(** Task [k] of priority [p] may run on the core and is in the queue, at position [i] at most. *)
Definition waits (k p : Z) (i : nat) s : Prop :=
  current_ s <> k /\ (exists t, eligible 0 s k t /\ t_priority t = p) /\ exists j, (j <= i)%nat /\ ready s !! j = Some k.

Lemma filter_lookup_before (P : Z -> Prop) `{!forall x, Decision (P x)} (l : list Z) j k :
  l !! j = Some k -> P k -> exists j', (j' <= j)%nat /\ filter P l !! j' = Some k.
Proof.
  revert j. induction l as [|x l IH]; intros j Hj Hk; [done|]. destruct j as [|j]; cbn in Hj.
  - simplify_eq. exists 0%nat. rewrite filter_cons_True by done. auto.
  - destruct (IH _ Hj Hk) as (j' & Hle & Hj'). destruct (decide (P x)) as [Hx|Hx].
    + exists (S j'). rewrite filter_cons_True by done. split; [lia|done].
    + exists j'. rewrite filter_cons_False by done. split; [lia|done].
Qed.

Lemma filter_ne_lookup_before (l : list Z) i n j k :
  l !! i = Some n -> (i < j)%nat -> l !! j = Some k -> k <> n ->
  exists j', (j' < j)%nat /\ filter (fun x => x <> n) l !! j' = Some k.
Proof.
  intros Hi Hij Hj Hk. destruct (list_elem_of_split_length _ _ _ Hi) as (l1 & l2 & -> & Hl).
  rewrite filter_app, filter_cons_False by (intros Hx; by apply Hx).
  rewrite lookup_app_r in Hj by lia. destruct (j - length l1)%nat as [|m] eqn:Em; [lia|]. cbn in Hj.
  destruct (filter_lookup_before (fun x => x <> n) _ _ _ Hj Hk) as (m' & Hm & Hm').
  exists (length (filter (fun x => x <> n) l1) + m')%nat. pose proof (length_filter (fun x => x <> n) l1).
  split; [lia|]. rewrite lookup_app_r by lia. rewrite <- Hm'. f_equal. lia.
Qed.

Lemma step_ready w e w' s s' j k :
  world_inv w s -> world_inv w' s' -> step w e w' -> is_switch e = false ->
  current_ s <> k -> ready s !! j = Some k -> exists j', (j' <= j)%nat /\ ready s' !! j' = Some k.
Proof.
  intros Hw Hw' Hs He Hc Hj. pose proof (wi_sched _ _ Hw') as Hg'. pose proof (wi_sched _ _ Hw) as Hg.
  assert (Happ : forall l, exists j', (j' <= j)%nat /\ (ready s ++ l) !! j' = Some k)
    by (intros l; exists j; split; [lia|by apply lookup_app_l_Some]).
  destruct Hs; cbn [w_g] in Hg, Hg'; try done.
  - unfold spawn_reserve, with_sched in H0. rewrite Hg in H0. destruct (checked_add32 _ _); [|done].
    injection H0 as <- _. injection Hg' as <-. eauto.
  - unfold spawn_insert, with_sched in H2. rewrite Hg in H2. injection H2 as <-. injection Hg' as <-.
    destruct blocked; cbn [ready set_ready set_tasks]; eauto.
  - destruct (tick_sched g s Hg) as (n & b & E). rewrite E in Hg'. injection Hg' as <-. eauto.
  - rewrite (exit_sched _ _ _ Hg) in Hg'. injection Hg' as <-. apply filter_lookup_before; [done|]. by intros ->.
  - rewrite (block_sched _ _ Hg) in Hg'. injection Hg' as <-. apply filter_lookup_before; [done|]. by intros ->.
  - unfold unblock_task, with_sched in Hg'. rewrite Hg in Hg'.
    destruct (tasks s !! tid); [case_decide|]; injection Hg' as <-; cbn [ready set_ready on_task set_tasks]; eauto.
  - unfold set_task_user, with_sched in Hg'. rewrite Hg in Hg'. injection Hg' as <-. eauto.
Qed.

(** A switch that passes over a waiting task of the highest priority takes one that is ahead of it. *)
Lemma switch_ready w f w' s s' i k p :
  world_inv w s -> world_inv w' s' -> step w (ESwitch f) w' -> at_most p s -> waits k p i s -> current_ s' <> k ->
  exists j, (j < i)%nat /\ ready s' !! j = Some k.
Proof.
  intros Hw Hw' Hs Hp (Hc & (t & [Ht Ha] & Htp) & j & Hji & Hj) Hne.
  pose proof (wi_sched _ _ Hw') as Hg'. pose proof (wi_sched _ _ Hw) as Hg. inversion Hs as [| | |g R f' g' sw E| | | |]; subst.
  cbn [w_g] in Hg, Hg'. pose proof (wi_inv _ _ Hw) as Hi.
  destruct (switch_spec g s f Hg Hi) as (s1 & u & E' & H1 & H2 & H3 & H4 & H5 & H6 & H7 & [l H8] & H9 & _).
  rewrite E' in E. injection E as <- <-. cbn in Hg'. injection Hg' as ->.
  set (q := park_current (current_ s) f (reap_zombies_except (current_ s) s)) in *.
  assert (Hpr : forall k' t', tasks q !! k' = Some t' -> t_priority t' <= t_priority t).
  { intros k' t'. unfold q. rewrite lookup_parked_reaped by done. destruct (tasks s !! k') as [v|] eqn:Ev; [|done].
    case_decide; [|case_decide; [done|]]; intros [= <-]; rewrite ?Htp; [unfold parked; case_decide; cbn|]; by eapply Hp. }
  assert (Hst : t_state t = Ready).
  { apply list_elem_of_lookup_2, (inv_ready s Hi) in Hj as (t2 & E2 & E3 & _). congruence. }
  assert (Hkq : eligible 0 q k t).
  { split; [|done]. unfold q. rewrite lookup_parked_reaped, Ht, !decide_False by (done || congruence). done. }
  assert (Hjq : ready q !! j = Some k) by (rewrite H8; by apply lookup_app_l_Some).
  rewrite H7. destruct H2 as [(m & p' & Hm & (v & [Hv _] & Hvp) & Hb)|[_ Hno]].
  - destruct (Hb _ _ _ Hjq Hkq) as [Hb1 Hb2]. apply Hpr in Hv.
    assert (m < j)%nat. { destruct (decide (j = m)) as [->|]; [congruence|]. destruct (decide (j < m)%nat); [|lia]. specialize (Hb2 l0). lia. }
    destruct (filter_ne_lookup_before _ _ _ _ _ Hm H0 Hjq) as (j' & ? & ?); [done|]. exists j'. split; [lia|done].
  - exfalso. eapply Hno; [|exact Hkq]. by eapply list_elem_of_lookup_2.
Qed.

Lemma step_waits k p i w e w' s :
  world_inv w s -> at_most p s -> inserts_at_most p e -> waits k p i s -> step w e w' ->
  (forall f, e = ESwitch f -> current (w_g w') <> k) ->
  exists s' i', world_inv w' s' /\ at_most p s' /\ waits k p i' s' /\ (i' + (if is_switch e then 1 else 0) <= i)%nat.
Proof.
  intros Hw Hp Hie Hwt Hs Hch. destruct (step_inv _ _ _ _ Hw Hs) as (s' & Hw' & [E1 E2 E3]).
  pose proof Hwt as (Hc & (t & [Ht Ha] & Htp) & j & Hji & Hj).
  pose proof (step_without_current _ _ _ _ _ _ Hw Hw' Hs Hc Hch) as Hc'.
  assert (Hp' : at_most p s').
  { intros k' t' Ht'. destruct (E1 _ _ Ht') as [(t0 & H0 & -> & _)|[_ [b ->]]]; [by eapply Hp|done]. }
  assert (Hj' : exists j', (j' + (if is_switch e then 1 else 0) <= i)%nat /\ ready s' !! j' = Some k).
  { destruct (is_switch e) eqn:Ee.
    - destruct e; try done. destruct (switch_ready _ _ _ _ _ _ _ _ Hw Hw' Hs Hp Hwt Hc') as (j' & ? & ?).
      exists j'. split; [lia|done].
    - destruct (step_ready _ _ _ _ _ _ _ Hw Hw' Hs Ee Hc Hj) as (j' & ? & ?). exists j'. split; [lia|done]. }
  destruct Hj' as (j' & Hle & Hj'). exists s', j'. split; [done|]. split; [done|]. split; [|done].
  split; [done|]. split; [|by exists j'].
  pose proof (list_elem_of_lookup_2 _ _ _ Hj') as Hin. apply (inv_ready _ (wi_inv _ _ Hw')) in Hin as (t' & Ht' & _ & _).
  exists t'. destruct (E1 _ _ Ht') as [(t0 & H0 & Hq1 & Hq2 & _)|[Hk _]].
  - simplify_eq. rewrite Hq1. split; [|done]. split; [done|]. by rewrite Hq2.
  - apply (wi_reserved _ _ Hw) in Hk as [Hk _]. congruence.
Qed.

Lemma steps_waits k p w evs w' :
  steps_without k w evs w' -> Forall (inserts_at_most p) evs ->
  forall i s, world_inv w s -> at_most p s -> waits k p i s -> (switches evs <= i)%nat.
Proof.
  induction 1 as [|w e w' evs w'' H1 H2 _ IH]; intros Hie i s Hw Hp Hwt; [cbn; lia|].
  apply Forall_cons in Hie as [He Hie].
  destruct (step_waits _ _ _ _ _ _ _ Hw Hp He Hwt H1 H2) as (s' & i' & Hw' & Hp' & Hwt' & Hle).
  specialize (IH Hie _ _ Hw' Hp' Hwt'). unfold switches in *.
  destruct (is_switch e) eqn:Ee.
  - rewrite filter_cons_True by done. cbn. lia.
  - rewrite filter_cons_False by congruence. lia.
Qed.

(** ** The theorems *)

(** C7. In every state the system can reach from boot, by any sequence of spawns,
    timer ticks, switches, exits, blocks and wake-ups, [preempt_switch] does not
    panic: it picks the first task of the highest priority among the eligible ones
    of the queue (the preempted task included, at its end), or the idle task when
    there is none; the chosen task is the only one that runs, has a fresh quantum
    and left the queue; every other task is untouched (only zombies disappear), and
    the frame the hardware resumes is the saved one of the chosen task, or the
    incoming one when the running task goes on. *)
Theorem preempt_switch_correct w f s :
  reachable w -> sched (w_g w) = Some s ->
  exists s' sw t,
    preempt_switch f (w_g w) = Some (mkSchedState (Some s') false (restart_syscall (w_g w)), sw) /\
    picks (park_current (current_ s) f (reap_zombies_except (current_ s) s)) (current_ s') /\
    tasks s' !! current_ s' = Some t /\ t_state t = Running /\ ~ (current_ s' ∈ ready s') /\
    (forall k u, tasks s' !! k = Some u -> t_state u = Running -> k = current_ s') /\
    slice_remaining s' = QUANTUM_TICKS /\
    sw_frame sw = (if current_ s' =? current_ s then f else t_context t) /\ sw_guard sw = stack_bounds t /\
    (forall k, k <> current_ s -> k <> current_ s' -> tasks s' !! k =
       match tasks s !! k with
       | Some u => if decide (t_state u = Zombie) then None else Some u
       | None => None
       end).
Proof.
  intros Hr Hg. destruct (reachable_inv _ Hr) as (s0 & Hw). pose proof (wi_sched _ _ Hw) as E. rewrite Hg in E.
  injection E as <-. pose proof (wi_inv _ _ Hw) as Hi.
  destruct (switch_spec _ s f Hg Hi) as (s' & t & E & H1 & H2 & H3 & H4 & H5 & H6 & H7 & H8 & H9 & H10 & H11).
  exists s'. eexists. exists t. split; [exact E|]. split; [done|]. split; [done|]. split; [done|]. split.
  { rewrite H7, list_elem_of_filter. tauto. }
  split; [by apply (inv_running s' H1)|]. split; [done|]. split; [by destruct (_ =? _)|]. split; [by destruct (_ =? _)|].
  intros k Hk1 Hk2. rewrite H4, lookup_alter_ne, lookup_parked_reaped by done. destruct (tasks s !! k); [|done].
  by rewrite decide_False.
Qed.

(** A task that was preempted with the frame [f] resumes with exactly [f]: in
    whatever happens until a switch chooses it again, nothing (another task, a new
    task of another id, an interrupt) changes its saved frame. *)
Theorem frame_restored k f w g1 sw1 evs w2 f2 g3 sw3 :
  reachable w -> current (w_g w) = k ->
  preempt_switch f (w_g w) = Some (g1, sw1) -> current g1 <> k ->
  steps_without k (mkWorld g1 (w_reserved w)) evs w2 ->
  preempt_switch f2 (w_g w2) = Some (g3, sw3) -> current g3 = k ->
  sw_frame sw3 = f.
Proof.
  intros Hr Hk E1 Hne Hst E3 Hk3. destruct (reachable_inv _ Hr) as (s & Hw). rewrite (current_world _ _ Hw) in Hk. subst k.
  pose proof (wi_sched _ _ Hw) as Hg. pose proof (wi_inv _ _ Hw) as Hi. destruct w as [g R]; cbn [w_g w_reserved] in *.
  destruct (step_inv _ _ _ s Hw (step_switch g R f g1 sw1 E1)) as (s1 & Hw1 & [_ EV _]).
  pose proof (current_world _ _ Hw1) as Hc1. cbn [w_g w_reserved] in Hc1, EV.
  assert (Hh : holds_frame (current_ s) f (mkWorld g1 R) s1).
  { destruct (switch_spec g s f Hg Hi) as (s' & t & E & H1 & H2 & H3 & H4 & H5 & H6 & H7 & H8 & H9 & H10 & H11).
    rewrite E in E1. injection E1 as <- <-. pose proof (wi_sched _ _ Hw1) as Hg1. cbn in Hg1. injection Hg1 as <-.
    destruct (inv_cur _ Hi) as [tc Htc].
    split; [congruence|]. split; [|split].
    - intros HR. destruct (wi_reserved _ _ Hw _ HR) as [Hn _]. congruence.
    - rewrite H11. apply (inv_tids _ Hi) in Htc. lia.
    - intros u. rewrite H4, lookup_alter_ne by congruence.
      rewrite lookup_parked_reaped, Htc, decide_True by done. by intros [= <-]. }
  destruct (steps_holds_frame _ _ _ _ _ Hst _ Hw1 Hh) as (s2 & Hw2 & Hc2 & _ & _ & Hf2).
  pose proof (wi_sched _ _ Hw2) as Hg2. pose proof (wi_inv _ _ Hw2) as Hi2.
  destruct (switch_spec _ s2 f2 Hg2 Hi2) as (s' & t & E & H1 & H2 & H3 & H4 & H5 & _).
  rewrite E in E3. injection E3 as <- <-. unfold current in Hk3; cbn in Hk3.
  destruct (Z.eqb_spec (current_ s') (current_ s2)) as [He|He]; [congruence|]. cbn.
  rewrite H4, lookup_alter_eq in H5. apply fmap_Some in H5 as (u & Hu & ->). cbn.
  rewrite lookup_parked_reaped in Hu by done. destruct (tasks s2 !! current_ s') as [v|] eqn:Ev; [|done].
  rewrite decide_False in Hu by done. case_decide; [done|]. injection Hu as <-. rewrite Hk3 in Ev. by apply Hf2.
Qed.

(** C8. Bounded waiting: a task of the highest priority [p], at position [i] of the
    queue, is chosen by one of the next [i + 1] switches, whatever the tasks and the
    interrupts do in between, as long as no task of a higher priority is created. *)
Theorem bounded_waiting k p i t w s evs w' :
  reachable w -> sched (w_g w) = Some s -> current_ s <> k ->
  ready s !! i = Some k -> eligible 0 s k t -> t_priority t = p -> at_most p s ->
  Forall (inserts_at_most p) evs -> steps_without k w evs w' ->
  (switches evs <= i)%nat.
Proof.
  intros Hr Hg Hc Hi He Htp Hp Hev Hst. destruct (reachable_inv _ Hr) as (s0 & Hw).
  pose proof (wi_sched _ _ Hw) as E. rewrite Hg in E. injection E as <-.
  eapply steps_waits; try done. split; [done|]. split; [by exists t|by exists i].
Qed.

(** The watermark: of a stack that was painted and then written from [sp] on
    (the word at [sp] is not the paint), [stack_high_water] is the distance from
    [sp] to the top. *)
Theorem stack_high_water_spec mem0 mem t sp :
  0 < t_stack_base t -> 0 < t_stack_size t -> (4 | t_stack_size t) -> (4 | sp - t_stack_base t) ->
  t_stack_base t <= sp <= t_stack_base t + t_stack_size t ->
  (forall p, t_stack_base t <= p < sp -> mem p = paint_stack (t_stack_base t) (t_stack_size t) mem0 p) ->
  (sp < t_stack_base t + t_stack_size t -> mem sp <> STACK_PAINT) ->
  stack_high_water mem t = t_stack_base t + t_stack_size t - sp.
Proof.
  intros Hb Hs [n Hn] [m Hm] Hsp Hlow Hat. unfold stack_high_water.
  destruct (Z.eqb_spec (t_stack_base t) 0); [lia|]. destruct (Z.eqb_spec (t_stack_size t) 0); [lia|]. cbn [orb].
  rewrite Hn, Z.div_mul by lia.
  assert (Hu : forall c p, (0 <= c)%nat -> p + 4 * Z.of_nat c = t_stack_base t + 4 * n -> t_stack_base t <= p <= sp -> (4 | sp - p) ->
    untouched_words mem p c = (sp - p) / 4).
  { induction c as [|c IH]; intros p _ Hp Hr [d Hd]; cbn [untouched_words].
    - replace (sp - p) with 0 by lia. done.
    - destruct (Z.eqb_spec (mem p) STACK_PAINT) as [E|E].
      + assert (p <> sp) by (intros ->; apply Hat; [lia|done]).
        rewrite IH; [|lia|lia|lia|exists (d - 1); lia]. rewrite !Hd. replace (sp - (p + 4)) with ((d - 1) * 4) by lia.
        rewrite !Z.div_mul by lia. lia.
      + assert (p = sp) as ->; [|by rewrite Z.sub_diag].
        destruct (decide (p = sp)) as [|Hne]; [done|]. exfalso. apply E. rewrite Hlow by lia. unfold paint_stack.
        rewrite bool_decide_true; [done|]. rewrite Hn, Z.div_mul by lia. lia. }
  rewrite Hu; [|lia|lia|lia|by exists m]. rewrite Hm, Z.div_mul by lia. lia.
Qed.
End SchedOps.

(** ** Witnesses: two tasks of the same priority on a machine with a small frame *)

Record SmallFrame := mkSmallFrame { sf_PC : Z; sf_PS : Z; sf_A0 : Z; sf_A1 : Z; sf_A2 : Z; sf_A6 : Z }.

#[export] Instance small_frame : Frame SmallFrame := {
  fr_default := mkSmallFrame 0 0 0 0 0 0;
  fr_PC := sf_PC;
  fr_A1 := sf_A1;
  fr_set_PC := fun v f => mkSmallFrame v (sf_PS f) (sf_A0 f) (sf_A1 f) (sf_A2 f) (sf_A6 f);
  fr_set_PS := fun v f => mkSmallFrame (sf_PC f) v (sf_A0 f) (sf_A1 f) (sf_A2 f) (sf_A6 f);
  fr_set_A0 := fun v f => mkSmallFrame (sf_PC f) (sf_PS f) v (sf_A1 f) (sf_A2 f) (sf_A6 f);
  fr_set_A1 := fun v f => mkSmallFrame (sf_PC f) (sf_PS f) (sf_A0 f) v (sf_A2 f) (sf_A6 f);
  fr_set_A2 := fun v f => mkSmallFrame (sf_PC f) (sf_PS f) (sf_A0 f) (sf_A1 f) v (sf_A6 f);
  fr_set_A6 := fun v f => mkSmallFrame (sf_PC f) (sf_PS f) (sf_A0 f) (sf_A1 f) (sf_A2 f) v;
}.

Definition test_heap (size : Z) : option Z := Some 0x3FCA0000.
Definition test_task (tid : Z) : Task SmallFrame :=
  match spawn_task 0x42000000 test_heap tid "sh" 0x42001000 0 4096 1 true false with
  | Ok t => t
  | Err _ => mkTask 0 "" Zombie 0 fr_default 0 0 0 false None 0 0
  end.
Definition test_boot : World := mkWorld (init 0x42000000 test_heap 0x42002000 (mkSchedState None false false)) ∅.
Definition test_frame (pc : Z) : SmallFrame := mkSmallFrame pc 0 0 0 0 0.

(** What an event does, for the events the witnesses use. *)
Definition do_event (w : World) (e : Event) : World :=
  match e with
  | EReserve => match spawn_reserve (w_g w) with (g, Ok tid) => mkWorld g ({[tid]} ∪ w_reserved w) | (g, _) => mkWorld g (w_reserved w) end
  | EInsert tid t b => mkWorld (spawn_insert tid t b (w_g w)).1 (w_reserved w ∖ {[tid]})
  | ETick => mkWorld (tick (w_g w)) (w_reserved w)
  | ESwitch f => match preempt_switch f (w_g w) with Some (g, _) => mkWorld g (w_reserved w) | None => w end
  | EExit c => mkWorld (exit c (w_g w)) (w_reserved w)
  | EBlock => mkWorld (block_current_noswitch (w_g w)) (w_reserved w)
  | EUnblock tid => mkWorld (unblock_task tid (w_g w)) (w_reserved w)
  | ESetUser tid b => mkWorld (set_task_user tid b (w_g w)) (w_reserved w)
  end.
Definition do_events (w : World) (evs : list Event) : World := foldl do_event w evs.

Definition test_events : list Event :=
  [EReserve; EInsert 1 (test_task 1) false; EReserve; EInsert 2 (test_task 2) false; ESwitch (test_frame 7)].
Definition test_world : World := do_events test_boot test_events.

Lemma test_booted : booted test_boot.
Proof. exists 0x42000000, test_heap, 0x42002000, 0x3FCA0000, false, false. done. Qed.

Lemma test_insert w tid g' :
  tid ∈ w_reserved w -> spawn_insert tid (test_task tid) false (w_g w) = (g', Ok tid) ->
  step w (EInsert tid (test_task tid) false) (mkWorld g' (w_reserved w ∖ {[tid]})).
Proof.
  intros H1 H2. destruct w as [g R].
  by apply (step_insert g R g' 0x42000000 test_heap tid "sh" 0x42001000 0 4096 1 true false).
Qed.

Lemma test_reachable : reachable test_world.
Proof.
  exists test_boot, test_events. split; [apply test_booted|]. unfold test_events.
  eapply steps_cons; [apply step_reserve; vm_compute; reflexivity|].
  eapply steps_cons; [apply test_insert; [set_solver|vm_compute; reflexivity]|].
  eapply steps_cons; [apply step_reserve; vm_compute; reflexivity|].
  eapply steps_cons; [apply test_insert; [set_solver|vm_compute; reflexivity]|].
  eapply steps_cons; [eapply step_switch; vm_compute; reflexivity|].
  match goal with |- steps ?a [] ?b => assert (a = b) as -> end; [|apply steps_nil].
  unfold test_world. vm_compute. reflexivity.
Qed.

Definition test_sched (w : World) : Scheduler (F := SmallFrame) :=
  match sched (w_g w) with Some s => s | None => mkScheduler ∅ [] 0 0 0 0 end.

Lemma preempt_switch_correct_witness :
  exists s' sw t,
    preempt_switch (test_frame 9) (w_g test_world) = Some (mkSchedState (Some s') false false, sw) /\
    current_ s' = 2 /\ tasks s' !! 2 = Some t /\ sw_frame sw = t_context t.
Proof.
  destruct (preempt_switch_correct test_world (test_frame 9) (test_sched test_world) test_reachable) as
    (s' & sw & t & E & _ & Ht & _ & _ & _ & _ & Hf & _); [vm_compute; reflexivity|].
  exists s', sw, t. assert (Hc : current_ s' = 2).
  { assert (Hx : (fun r => match r with Some (g, _) => current g | None => 0 end)
      (preempt_switch (test_frame 9) (w_g test_world)) = 2) by (vm_compute; reflexivity).
    rewrite E in Hx. exact Hx. }
  rewrite Hc in *. split; [exact E|]. split; [reflexivity|]. split; [exact Ht|]. exact Hf.
Defined.

(** Task 1 is preempted for task 2, which blocks. *)
Definition test_away : list (Event (F := SmallFrame)) := [ETick; EBlock].

Lemma frame_restored_witness :
  exists g1 sw1 g3 sw3,
    preempt_switch (test_frame 100) (w_g test_world) = Some (g1, sw1) /\
    preempt_switch (test_frame 200) (w_g (do_events (mkWorld g1 ∅) test_away)) = Some (g3, sw3) /\
    sw_frame sw3 = test_frame 100.
Proof.
  eexists _, _, _, _. split; [vm_compute; reflexivity|]. split; [vm_compute; reflexivity|].
  eapply (frame_restored 1 (test_frame 100) test_world _ _ test_away _ (test_frame 200)).
  - exact test_reachable.
  - vm_compute; reflexivity.
  - vm_compute; reflexivity.
  - vm_compute; discriminate.
  - unfold test_away. eapply sw_cons; [apply step_tick|discriminate|].
    eapply sw_cons; [apply step_block; vm_compute; discriminate|discriminate|]. apply sw_nil.
  - vm_compute; reflexivity.
  - vm_compute; reflexivity.
Defined.

Definition test_world3 : World := do_events test_world [EReserve; EInsert 3 (test_task 3) false].

Lemma test_reachable3 : reachable test_world3.
Proof.
  exists test_boot, (test_events ++ [EReserve; EInsert 3 (test_task 3) false]). split; [apply test_booted|]. unfold test_events, app.
  do 2 (eapply steps_cons; [apply step_reserve; vm_compute; reflexivity|];
    eapply steps_cons; [apply test_insert; [set_solver|vm_compute; reflexivity]|]).
  eapply steps_cons; [eapply step_switch; vm_compute; reflexivity|].
  eapply steps_cons; [apply step_reserve; vm_compute; reflexivity|].
  eapply steps_cons; [apply test_insert; [set_solver|vm_compute; reflexivity]|].
  match goal with |- steps ?a [] ?b => assert (a = b) as -> end; [|apply steps_nil].
  vm_compute. reflexivity.
Qed.

Lemma step_tick_world {F} `{Frame F} (w : World (F := F)) : step w ETick (mkWorld (tick (w_g w)) (w_reserved w)).
Proof. destruct w. apply step_tick. Qed.

Lemma bounded_waiting_witness : (switches (F := SmallFrame) [ETick; ESwitch (test_frame 9)] <= 1)%nat.
Proof.
  eapply (bounded_waiting 3 1 1 (test_task 3) test_world3 (test_sched test_world3)).
  - exact test_reachable3.
  - vm_compute; reflexivity.
  - vm_compute; discriminate.
  - vm_compute; reflexivity.
  - split; [vm_compute; reflexivity|left; reflexivity].
  - reflexivity.
  - assert (Ha : map_Forall (fun _ t => t_priority t <= 1) (tasks (test_sched test_world3))).
    { refine (proj1 (bool_decide_eq_true (map_Forall _ _)) _). vm_compute. reflexivity. }
    exact Ha.
  - repeat constructor.
  - eapply sw_cons; [exact (step_tick_world test_world3)|discriminate|].
    eapply sw_cons; [eapply step_switch; vm_compute; reflexivity| |apply sw_nil].
    intros f _. vm_compute. discriminate.
Defined.

Lemma stack_high_water_spec_witness :
  stack_high_water (fun p => if p <? 1024 then STACK_PAINT else 5)
    (mkTask 1 "sh" Ready 1 (test_frame 0) 1000 64 0 true None 0 0) = 40.
Proof.
  apply (stack_high_water_spec (fun _ => 0) _ (mkTask 1 "sh" Ready 1 (test_frame 0) 1000 64 0 true None 0 0) 1024);
    cbn [t_stack_base t_stack_size]; try lia.
  - by exists 16.
  - by exists 6.
  - intros p Hp. unfold paint_stack. rewrite bool_decide_true by (change (64 / 4) with 16; lia).
    by destruct (Z.ltb_spec p 1024); [|lia].
  - intros _. vm_compute. discriminate.
Defined.
