(* ===== verification/Slots.v ===== *)
(** * Slots: the PSRAM slots user programs run in (kernel/src/mm/psram_exec.rs)

    The bitmap of the slots in use, and the addresses of a slot.  [SLOTS_USED] and
    [DATA_BASE] are atomics: each operation below is its atomic read-modify-write
    (the compare-exchange loop of [slot_alloc] retries until one succeeds against
    the value it loaded).  The MMU and cache calls of the ROM are not modelled. *)

From S2P Require Import Prelude.

Open Scope Z_scope.

(* @src kernel/src/mm/psram_exec.rs 7-9 USER_IBUS_BASE, USER_REGION_SIZE *)
Definition USER_IBUS_BASE : Z := 0x42800000.
Definition USER_REGION_SIZE : Z := 0x100000.
(* @src kernel/src/mm/psram_exec.rs 40-40 IBUS_MIN *)
Definition IBUS_MIN : Z := 0x42000000.
(* @src kernel/src/mm/psram_exec.rs 101-106 SLOT_SIZE, SLOT_COUNT, TEXT_REGION_SIZE *)
Definition SLOT_SIZE : Z := 16 * 1024.
Definition SLOT_COUNT : Z := 32.
Definition TEXT_REGION_SIZE : Z := SLOT_SIZE * SLOT_COUNT.
(* @src kernel/src/mm/psram_exec.rs 135-139 SLOT_MASK *)
Definition SLOT_MASK : Z := if SLOT_COUNT =? 32 then U32_MAX else Z.shiftl 1 SLOT_COUNT - 1.

(* @src kernel/src/mm/psram_exec.rs 23-25 ibus_to_data *)
Definition ibus_to_data (data_base instr_addr : Z) : Z := u32 (data_base + u32 (instr_addr - USER_IBUS_BASE)).
(* @src kernel/src/mm/psram_exec.rs 27-29 is_ibus *)
Definition is_ibus (addr size : Z) : bool :=
  (USER_IBUS_BASE <=? addr) && (saturating_add32 addr size <=? USER_IBUS_BASE + USER_REGION_SIZE).
(* @src kernel/src/mm/psram_exec.rs 34-36 is_ibus_range *)
Definition is_ibus_range (addr : Z) : bool := IBUS_MIN <=? addr.

(** [u32::trailing_zeros]. *)
Fixpoint trailing_zeros_from (i : Z) (n : nat) (z : Z) : Z :=
  match n with
  | O => i
  | S n' => if Z.testbit z i then i else trailing_zeros_from (i + 1) n' z
  end.
Definition trailing_zeros (z : Z) : Z := trailing_zeros_from 0 32 z.

(** [u32::count_ones]. *)
Fixpoint count_ones_below (n : nat) (z : Z) : Z :=
  match n with
  | O => 0
  | S n' => count_ones_below n' z + (if Z.testbit z (Z.of_nat n') then 1 else 0)
  end.
Definition count_ones (z : Z) : Z := count_ones_below 32 z.

(** [!z] on [u32]. *)
Definition not32 (z : Z) : Z := Z.lxor z U32_MAX.

(* @src kernel/src/mm/psram_exec.rs 148-164 slot_alloc *)
Definition slot_alloc (used : Z) : Z * option Z :=
  let free := Z.land (not32 used) SLOT_MASK in
  if free =? 0 then (used, None)
  else
    let i := trailing_zeros free in
    (Z.lor used (Z.shiftl 1 i), Some i).

(* @src kernel/src/mm/psram_exec.rs 168-170 slot_free *)
Definition slot_free (idx used : Z) : Z := Z.land used (not32 (Z.shiftl 1 idx)).

(* @src kernel/src/mm/psram_exec.rs 172-174 slots_in_use *)
Definition slots_in_use (used : Z) : Z := count_ones used.

(* @src kernel/src/mm/psram_exec.rs 181-183 slot_text_exec *)
Definition slot_text_exec (idx : Z) : Z := USER_IBUS_BASE + idx * SLOT_SIZE.
(* @src kernel/src/mm/psram_exec.rs 192-194 slot_text_write *)
Definition slot_text_write (data_base idx : Z) : Z := ibus_to_data data_base (slot_text_exec idx).
(* @src kernel/src/mm/psram_exec.rs 198-200 slot_data *)
Definition slot_data (data_base idx : Z) : Z := u32 (data_base + TEXT_REGION_SIZE + idx * SLOT_SIZE).

(** ** The bitmap as a set of slots *)

(** Slot [i] is in use. *)
Definition in_use (used i : Z) : Prop := 0 <= i < 32 /\ Z.testbit used i = true.

Lemma testbit_1 k : Z.testbit 1 k = (k =? 0).
Proof. destruct k as [|[]|]; done. Qed.

Lemma U32_MAX_testbit i : 0 <= i -> Z.testbit U32_MAX i = (i <? 32).
Proof. intros Hi. change U32_MAX with (Z.ones 32). by rewrite Z.testbit_ones_nonneg by lia. Qed.

Lemma trailing_zeros_from_spec n : forall i z,
  0 <= i -> (exists j, i <= j < i + Z.of_nat n /\ Z.testbit z j = true) ->
  let t := trailing_zeros_from i n z in
  i <= t < i + Z.of_nat n /\ Z.testbit z t = true /\ forall j, i <= j < t -> Z.testbit z j = false.
Proof.
  induction n as [|n IH]; intros i z Hi (j & Hj & Ht); cbn [trailing_zeros_from]; [lia|].
  destruct (Z.testbit z i) eqn:E.
  - split; [lia|]. split; [done|]. intros k Hk. lia.
  - destruct (IH (i + 1) z) as (I1 & I2 & I3); [lia| |].
    + exists j. split; [|done]. destruct (decide (j = i)); [congruence|lia].
    + split; [lia|]. split; [done|]. intros k Hk. destruct (decide (k = i)) as [->|]; [done|]. apply I3. lia.
Qed.

Lemma slot_alloc_spec used :
  0 <= used < 2 ^ 32 ->
  match slot_alloc used with
  | (used', Some i) =>
    0 <= i < SLOT_COUNT /\ ~ in_use used i /\ (forall j, 0 <= j < i -> in_use used j) /\
    0 <= used' < 2 ^ 32 /\ forall j, in_use used' j <-> in_use used j \/ j = i
  | (used', None) => used' = used /\ forall i, 0 <= i < SLOT_COUNT -> in_use used i
  end.
Proof.
  intros Hu. unfold slot_alloc. change SLOT_MASK with U32_MAX. change SLOT_COUNT with 32.
  assert (Hb : forall i, 0 <= i < 32 -> Z.testbit (Z.land (not32 used) U32_MAX) i = negb (Z.testbit used i)).
  { intros i Hi. unfold not32. rewrite Z.land_spec, Z.lxor_spec, U32_MAX_testbit by lia.
    destruct (Z.ltb_spec i 32); [|lia]. by rewrite andb_true_r, xorb_true_r. }
  destruct (Z.eqb_spec (Z.land (not32 used) U32_MAX) 0) as [E|E].
  - split; [done|]. intros i Hi. split; [done|]. specialize (Hb i Hi). rewrite E, Z.bits_0 in Hb.
    by destruct (Z.testbit used i).
  - set (free := Z.land (not32 used) U32_MAX) in *.
    assert (Hex : exists j, 0 <= j < 0 + Z.of_nat 32 /\ Z.testbit free j = true).
    { assert (Hr : 0 <= free < 2 ^ 32).
      { unfold free. change U32_MAX with (Z.ones 32). rewrite Z.land_ones by lia. apply Z.mod_pos_bound. lia. }
      exists (Z.log2 free). split; [|apply Z.bit_log2; lia]. split; [apply Z.log2_nonneg|].
      apply Z.log2_lt_pow2; lia. }
    destruct (trailing_zeros_from_spec 32 0 free ltac:(lia) Hex) as (T1 & T2 & T3). fold (trailing_zeros free) in *.
    set (i := trailing_zeros free) in *. assert (Hi : 0 <= i < 32) by lia.
    rewrite Hb in T2 by lia. apply negb_true_iff in T2.
    split; [lia|]. split; [intros [_ H1]; congruence|]. split.
    { intros j Hj. split; [lia|]. specialize (T3 j Hj). rewrite Hb in T3 by lia. by apply negb_false_iff in T3. }
    assert (Hl : 0 <= Z.lor used (Z.shiftl 1 i)).
    { apply Z.lor_nonneg. split; [lia|]. apply Z.shiftl_nonneg. lia. }
    split.
    { split; [done|]. destruct (decide (Z.lor used (Z.shiftl 1 i) = 0)) as [->|Hne]; [lia|].
      apply Z.log2_lt_pow2; [lia|]. rewrite Z.log2_lor by (try apply Z.shiftl_nonneg; lia).
      rewrite Z.log2_shiftl by lia. change (Z.log2 1) with 0.
      destruct (decide (used = 0)) as [->|]; [change (Z.log2 0) with 0; lia|].
      pose proof (proj1 (Z.log2_lt_pow2 used 32 ltac:(lia)) ltac:(lia)). lia. }
    intros j. unfold in_use. destruct (decide (0 <= j < 32)) as [Hj|Hj]; [|split; [tauto|intros [[]|]; [tauto|lia]]].
    rewrite Z.lor_spec, Z.shiftl_spec, testbit_1 by lia. destruct (Z.eqb_spec (j - i) 0).
    + rewrite orb_true_r. split; [|done]. right; lia.
    + rewrite orb_false_r. split; [tauto|]. intros [|]; [tauto|lia].
Qed.

Lemma slot_free_spec idx used :
  0 <= used < 2 ^ 32 -> 0 <= idx < SLOT_COUNT ->
  0 <= slot_free idx used < 2 ^ 32 /\ forall j, in_use (slot_free idx used) j <-> in_use used j /\ j <> idx.
Proof.
  intros Hu Hi. unfold slot_free. change SLOT_COUNT with 32 in Hi. split.
  - pose proof (proj2 (Z.land_nonneg used (not32 (Z.shiftl 1 idx))) (or_introl (proj1 Hu))) as Hl. split; [done|].
    destruct (decide (Z.land used (not32 (Z.shiftl 1 idx)) = 0)) as [->|]; [lia|].
    apply Z.log2_lt_pow2; [lia|]. destruct (decide (used = 0)) as [->|]; [by rewrite Z.land_0_l in *|].
    pose proof (proj1 (Z.log2_lt_pow2 used 32 ltac:(lia)) ltac:(lia)).
    assert (Hn : 0 <= not32 (Z.shiftl 1 idx)) by (unfold not32; apply Z.lxor_nonneg; split; [done|intros; apply Z.shiftl_nonneg; lia]).
    pose proof (Z.log2_land used (not32 (Z.shiftl 1 idx)) ltac:(lia) Hn). lia.
  - intros j. unfold in_use, not32. destruct (decide (0 <= j < 32)) as [Hj|Hj]; [|tauto].
    rewrite Z.land_spec, Z.lxor_spec, U32_MAX_testbit, Z.shiftl_spec, testbit_1 by lia.
    destruct (Z.ltb_spec j 32); [|lia]. destruct (Z.eqb_spec (j - idx) 0).
    + rewrite andb_false_r. split; [intros [_ [=]]|intros [_ ?]; lia].
    + rewrite andb_true_r. split; [intros; split; [tauto|lia]|tauto].
Qed.

(** ** The regions of the slots *)

(** The bytes of slot [i]'s text, where they are executed, and of its data. *)
Definition text_region (i a : Z) : Prop := slot_text_exec i <= a < slot_text_exec i + SLOT_SIZE.
Definition data_region (data_base i a : Z) : Prop := slot_data data_base i <= a < slot_data data_base i + SLOT_SIZE.

(** The slot allocator: it answers the lowest free slot and marks exactly it, and
    answers nothing only when all 32 are in use; releasing a slot clears exactly it;
    and two slots never share a byte, of text or of data (the data region of the
    megabyte mapped at [data_base] does not wrap). *)
Theorem slots_correct used data_base :
  0 <= used < 2 ^ 32 -> 0 <= data_base -> data_base + USER_REGION_SIZE <= 2 ^ 32 ->
  match slot_alloc used with
  | (used', Some i) =>
    0 <= i < SLOT_COUNT /\ ~ in_use used i /\ (forall j, 0 <= j < i -> in_use used j) /\
    0 <= used' < 2 ^ 32 /\ forall j, in_use used' j <-> in_use used j \/ j = i
  | (used', None) => used' = used /\ forall i, 0 <= i < SLOT_COUNT -> in_use used i
  end /\
  (forall i, 0 <= i < SLOT_COUNT -> 0 <= slot_free i used < 2 ^ 32 /\ forall j, in_use (slot_free i used) j <-> in_use used j /\ j <> i) /\
  (forall i j a, 0 <= i < SLOT_COUNT -> 0 <= j < SLOT_COUNT -> i <> j ->
     ~ (text_region i a /\ text_region j a) /\ ~ (data_region data_base i a /\ data_region data_base j a) /\
     ~ (data_base <= a < data_base + TEXT_REGION_SIZE /\ data_region data_base i a)) /\
  (forall i, 0 <= i < SLOT_COUNT -> slot_text_write data_base i = data_base + i * SLOT_SIZE /\ is_ibus (slot_text_exec i) SLOT_SIZE = true).
Proof.
  intros Hu Hd1 Hd2. split; [by apply slot_alloc_spec|]. split; [intros i Hi; by apply slot_free_spec|].
  unfold text_region, data_region, slot_text_write, is_ibus, ibus_to_data, slot_text_exec, slot_data, TEXT_REGION_SIZE,
    SLOT_SIZE, SLOT_COUNT, USER_REGION_SIZE, USER_IBUS_BASE, saturating_add32, U32_MAX in *.
  split.
  - intros i j a Hi Hj Hne. rewrite !u32_small by lia. lia.
  - intros i Hi. rewrite !u32_small by (rewrite ?u32_small; lia). split; [lia|]. apply andb_true_iff. split; apply Z.leb_le; lia.
Qed.

Lemma slots_correct_witness :
  slot_alloc 0x0F = (0x1F, Some 4) /\ in_use 0x1F 4 /\ slot_alloc U32_MAX = (U32_MAX, None) /\ ~ in_use 0x0F 4.
Proof.
  split; [reflexivity|].
  pose proof (slots_correct 0x0F 0x3C000000 ltac:(lia) ltac:(lia) ltac:(vm_compute; discriminate)) as [H _].
  change (slot_alloc 0x0F) with (0x1F, Some 4) in H. cbv beta iota in H. destruct H as (_ & H1 & _ & _ & H2).
  split; [apply H2; by right|]. split; [reflexivity|exact H1].
Defined.
