(* ===== verification/Process.v ===== *)
(** * Process: the process table (kernel/src/scheduler/process.rs)

    The table and its reverse map by task id, registration, reparenting, reaping,
    the working directory and signal delivery.  The kernel state [Kernel] puts
    together what these operations touch: the scheduler, the table, the slots, the
    memory and, behind the interface [FdTables], the file descriptor tables of the
    VFS.  Every operation runs with the table's lock held (interrupts off), so it is
    atomic; [register_process] and [reap], which take the lock of another component
    after it, are compositions. *)

From S2P Require Import Prelude Sched Slots.

Open Scope Z_scope.

(** What the processes ask of the VFS: a child's copy of the table of its parent, and
    the end of a process's table.  [fd_pids] are the processes that have a table. *)
Class FdTables (D : Type) := {
  fd_clone : Z -> Z -> D -> D;
  fd_cleanup : Z -> D -> D;
  fd_pids : D -> gset Z;
}.

Class FdTablesLaws (D : Type) `{FdTables D} := {
  fd_clone_pids : forall parent child d, fd_pids (fd_clone parent child d) ⊆ {[child]} ∪ fd_pids d;
  fd_cleanup_pids : forall pid d, fd_pids (fd_cleanup pid d) = fd_pids d ∖ {[pid]};
}.

(* @src kernel/src/scheduler/process.rs 10-14 ProcessState *)
Inductive ProcessState : Type := PRunning | PZombie.

#[export] Instance ProcessState_eq_dec : EqDecision ProcessState.
Proof. solve_decision. Defined.

(* @src kernel/src/scheduler/process.rs 16-51 Process *)
Record Process (F : Type) := mkProcess {
  p_pid : Z;
  parent_pid : option Z;
  main_task : Z;
  p_name : string;
  p_state : ProcessState;
  p_exit_code : Z;
  children : list Z;
  slot : option Z;
  cwd : string;
  pending_signals : Z;
  signal_handlers : list Z;
  signal_restorers : list Z;
  saved_signal_context : option F;
}.
Arguments mkProcess {F}.
Arguments p_pid {F}.
Arguments parent_pid {F}.
Arguments main_task {F}.
Arguments p_name {F}.
Arguments p_state {F}.
Arguments p_exit_code {F}.
Arguments children {F}.
Arguments slot {F}.
Arguments cwd {F}.
Arguments pending_signals {F}.
Arguments signal_handlers {F}.
Arguments signal_restorers {F}.
Arguments saved_signal_context {F}.

Section Process.
Context {F : Type} `{Frame F} {D : Type} `{FdTables D}.
Implicit Types p : Process F.

Definition set_parent (o : option Z) p : Process F :=
  mkProcess (p_pid p) o (main_task p) (p_name p) (p_state p) (p_exit_code p) (children p) (slot p) (cwd p)
    (pending_signals p) (signal_handlers p) (signal_restorers p) (saved_signal_context p).
Definition set_children (l : list Z) p : Process F :=
  mkProcess (p_pid p) (parent_pid p) (main_task p) (p_name p) (p_state p) (p_exit_code p) l (slot p) (cwd p)
    (pending_signals p) (signal_handlers p) (signal_restorers p) (saved_signal_context p).
Definition set_exited (code : Z) p : Process F :=
  mkProcess (p_pid p) (parent_pid p) (main_task p) (p_name p) PZombie code (children p) (slot p) (cwd p)
    (pending_signals p) (signal_handlers p) (signal_restorers p) (saved_signal_context p).
Definition set_cwd (dir : string) p : Process F :=
  mkProcess (p_pid p) (parent_pid p) (main_task p) (p_name p) (p_state p) (p_exit_code p) (children p) (slot p) dir
    (pending_signals p) (signal_handlers p) (signal_restorers p) (saved_signal_context p).
Definition set_pending (sigs : Z) p : Process F :=
  mkProcess (p_pid p) (parent_pid p) (main_task p) (p_name p) (p_state p) (p_exit_code p) (children p) (slot p) (cwd p)
    sigs (signal_handlers p) (signal_restorers p) (saved_signal_context p).
Definition set_handler (sig handler restorer : Z) p : Process F :=
  mkProcess (p_pid p) (parent_pid p) (main_task p) (p_name p) (p_state p) (p_exit_code p) (children p) (slot p) (cwd p)
    (pending_signals p) (<[Z.to_nat sig := handler]> (signal_handlers p)) (<[Z.to_nat sig := restorer]> (signal_restorers p))
    (saved_signal_context p).
Definition set_saved (o : option F) p : Process F :=
  mkProcess (p_pid p) (parent_pid p) (main_task p) (p_name p) (p_state p) (p_exit_code p) (children p) (slot p) (cwd p)
    (pending_signals p) (signal_handlers p) (signal_restorers p) o.

(* @src kernel/src/scheduler/process.rs 56-70 ProcessTable *)
Record ProcessTable := mkTable {
  table : gmap Z (Process F);
  by_tid : gmap Z Z;
  next_pid : Z;
}.
Implicit Types pt : ProcessTable.

(** [if let Some(p) = table.get_mut(&pid) { f(p) }]. *)
Definition on_process (pid : Z) (f : Process F -> Process F) pt : ProcessTable :=
  mkTable (alter f pid (table pt)) (by_tid pt) (next_pid pt).

(* @src kernel/src/scheduler/process.rs 78-80 ProcessTable::pid_of_tid *)
Definition pid_of_tid (tid : Z) pt : option Z := by_tid pt !! tid.

(* @src kernel/src/scheduler/process.rs 82-85 ProcessTable::insert_process *)
Definition insert_process p pt : ProcessTable :=
  mkTable (<[p_pid p := p]> (table pt)) (<[main_task p := p_pid p]> (by_tid pt)) (next_pid pt).

(** The loops of [remove_process] over the children of the process that left: their
    parent becomes init (pid 1) or nobody, and init adopts them. *)
(* @src kernel/src/scheduler/process.rs 98-102 ProcessTable::remove_process (parents) *)
Fixpoint reparent (to : option Z) (l : list Z) pt : ProcessTable :=
  match l with
  | [] => pt
  | c :: l' => reparent to l' (on_process c (set_parent to) pt)
  end.

(* @src kernel/src/scheduler/process.rs 105-109 ProcessTable::remove_process (adoption) *)
Fixpoint adopt (kids l : list Z) : list Z :=
  match l with
  | [] => kids
  | c :: l' => adopt (if bool_decide (c ∈ kids) then kids else kids ++ [c]) l'
  end.

(* @src kernel/src/scheduler/process.rs 89-113 ProcessTable::remove_process *)
Definition remove_process (pid : Z) pt : ProcessTable * option (Process F) :=
  match table pt !! pid with
  | None => (pt, None)
  | Some proc =>
    let pt := mkTable (delete pid (table pt)) (delete (main_task proc) (by_tid pt)) (next_pid pt) in
    let pt :=
      match parent_pid proc with
      | Some parent => on_process parent (fun p => set_children (filter (fun c => c <> pid) (children p)) p) pt
      | None => pt
      end in
    let reparent_to_init := negb (pid =? 1) && bool_decide (is_Some (table pt !! 1)) in
    let pt := reparent (if reparent_to_init then Some 1 else None) (children proc) pt in
    let pt :=
      if reparent_to_init then on_process 1 (fun p => set_children (adopt (children p) (children proc)) p) pt
      else pt in
    (pt, Some proc)
  end.

(** ** The kernel state the processes live in *)

Record Kernel := mkKernel {
  k_sched : SchedState (F := F);
  k_pt : ProcessTable;
  k_slots : Z;
  k_fds : D;
  k_mem : Z -> Z;
  k_data_base : Z;
}.
Implicit Types k : Kernel.

Definition k_set_sched (g : SchedState (F := F)) k : Kernel := mkKernel g (k_pt k) (k_slots k) (k_fds k) (k_mem k) (k_data_base k).
Definition k_set_pt pt k : Kernel := mkKernel (k_sched k) pt (k_slots k) (k_fds k) (k_mem k) (k_data_base k).
Definition k_set_slots (u : Z) k : Kernel := mkKernel (k_sched k) (k_pt k) u (k_fds k) (k_mem k) (k_data_base k).
Definition k_set_fds (d : D) k : Kernel := mkKernel (k_sched k) (k_pt k) (k_slots k) d (k_mem k) (k_data_base k).
Definition k_set_mem (m : Z -> Z) k : Kernel := mkKernel (k_sched k) (k_pt k) (k_slots k) (k_fds k) m (k_data_base k).

(* @src kernel/src/scheduler/process.rs 122-125 get_current_pid *)
Definition get_current_pid k : option Z := pid_of_tid (current (k_sched k)) (k_pt k).

(* @src kernel/src/scheduler/process.rs 132-148 take_zombie_child *)
Definition take_zombie_child (parent : Z) k : Kernel * option (Z * Z * option Z) :=
  match table (k_pt k) !! parent with
  | None => (k, None)
  | Some p =>
    match List.find (fun c => match table (k_pt k) !! c with Some q => bool_decide (p_state q = PZombie) | None => false end)
        (children p) with
    | None => (k, None)
    | Some child =>
      match remove_process child (k_pt k) with
      | (pt, Some proc) => (k_set_pt pt k, Some (p_pid proc, p_exit_code proc, slot proc))
      | (pt, None) => (k_set_pt pt k, None)
      end
    end
  end.

(* @src kernel/src/scheduler/process.rs 151-156 current_slot *)
Definition current_slot k : option Z :=
  pid ← get_current_pid k; p ← table (k_pt k) !! pid; slot p.

(* @src kernel/src/scheduler/process.rs 159-166 has_children *)
Definition has_children (parent : Z) k : bool :=
  match table (k_pt k) !! parent with Some p => negb (bool_decide (children p = [])) | None => false end.

(* @src kernel/src/scheduler/process.rs 168-229 register_process *)
Definition register_process (name : string) (tid : Z) (is_user : bool) (slot : option Z) k : Kernel * Z :=
  let current_tid := current (k_sched k) in
  let pt := k_pt k in
  let pid := next_pid pt in
  let pt := mkTable (table pt) (by_tid pt) (u32 (next_pid pt + 1)) in
  let parent_pid := pid_of_tid current_tid pt in
  let cwd :=
    match parent_pid with
    | Some p => match table pt !! p with Some p => cwd p | None => "/"%string end
    | None => "/"%string
    end in
  let proc := mkProcess pid parent_pid tid name PRunning 0 [] slot cwd 0 (replicate 32 0) (replicate 32 0) None in
  let pt := insert_process proc pt in
  let k :=
    match parent_pid with
    | Some p => k_set_fds (fd_clone p pid (k_fds k)) (k_set_pt (on_process p (fun q => set_children (children q ++ [pid]) q) pt) k)
    | None => k_set_pt pt k
    end in
  let k := if is_user then k_set_sched (set_task_user tid true (k_sched k)) k else k in
  (k, pid).

(* @src kernel/src/scheduler/process.rs 245-248 cwd_of_caller *)
Definition cwd_of_caller k : option string := pid ← get_current_pid k; cwd <$> table (k_pt k) !! pid.
(* @src kernel/src/scheduler/process.rs 255-257 cwd_get *)
Definition cwd_get k : string := default "/"%string (cwd_of_caller k).

(* @src kernel/src/scheduler/process.rs 300-307 has_exited *)
Definition has_exited (pid : Z) k : bool :=
  match table (k_pt k) !! pid with Some p => bool_decide (p_state p = PZombie) | None => true end.

(** What the reaper of a removed process gives back: its slot, then its descriptors. *)
(* @src kernel/src/scheduler/process.rs 325-330 reap (release) *)
Definition release (slot : option Z) (pid : Z) k : Kernel :=
  let k := match slot with Some s => k_set_slots (slot_free s (k_slots k)) k | None => k end in
  k_set_fds (fd_cleanup pid (k_fds k)) k.

(* @src kernel/src/scheduler/process.rs 320-331 reap *)
Definition reap (pid : Z) k : Kernel :=
  let '(pt, proc) := remove_process pid (k_pt k) in
  let slot := p ← proc; slot p in
  release slot pid (k_set_pt pt k).

(** The pids in the order of the [BTreeMap]. *)
Definition pids_of (m : gmap Z (Process F)) : list (Z * Process F) := sort_by_key fst (map_to_list m).

(* @src kernel/src/scheduler/process.rs 350-362 reap_orphans *)
Definition reap_orphans k : Kernel :=
  let dead := fst <$> filter (fun kv => p_state kv.2 = PZombie /\ parent_pid kv.2 = None) (pids_of (table (k_pt k))) in
  foldl (fun k pid => reap pid k) k dead.

(** ** Signals *)

(** The scan for the lowest pending signal: [0] when there is none. *)
(* @src kernel/src/scheduler/process.rs 387-393 check_signals (scan) *)
Fixpoint lowest_signal (pending s : Z) (n : nat) : Z :=
  match n with
  | O => 0
  | S n' => if Z.land pending (Z.shiftl 1 s) =? 0 then lowest_signal pending (s + 1) n' else s
  end.

(** [SigExit]: the signal ends the process ([scheduler::exit] does not return). *)
Inductive SigResult := SigNone | SigDelivered (f : F) | SigExit (code : Z).

(** [None] is the panic of [unwrap]. *)
(* @src kernel/src/scheduler/process.rs 364-423 check_signals *)
Definition check_signals (save_frame : F) k : option (Kernel * SigResult) :=
  if negb (current_task_is_user (k_sched k)) then Some (k, SigNone)
  else if negb (is_ibus (fr_PC save_frame) 1) then Some (k, SigNone)
  else
    match pid_of_tid (current (k_sched k)) (k_pt k) with
    | None => Some (k, SigNone)
    | Some pid =>
      proc ← table (k_pt k) !! pid;
      if pending_signals proc =? 0 then Some (k, SigNone)
      else
        let sig := lowest_signal (pending_signals proc) 1 31 in
        if sig =? 0 then Some (k, SigNone)
        else
          let clear := set_pending (Z.land (pending_signals proc) (not32 (Z.shiftl 1 sig))) in
          let k1 := k_set_pt (on_process pid clear (k_pt k)) k in
          let handler := at_ (signal_handlers proc) sig in
          let restorer := at_ (signal_restorers proc) sig in
          if handler =? 0 then
            if (sig =? 9) || (sig =? 2) || (sig =? 15) then
              Some (k_set_sched (exit (- sig) (k_sched k1)) k1, SigExit (- sig))
            else Some (k1, SigNone)
          else
            match saved_signal_context proc with
            | Some _ => Some (k1, SigNone)
            | None =>
              Some (k_set_pt (on_process pid (set_saved (Some save_frame)) (k_pt k1)) k1,
                SigDelivered (fr_set_A0 (u32 restorer) (fr_set_A2 (u32 sig) (fr_set_PC (u32 handler) save_frame))))
            end
    end.
End Process.
Arguments SigResult : clear implicits.
Arguments ProcessTable : clear implicits.
Arguments Kernel : clear implicits.
