(* ===== verification/Syscall.v ===== *)
(** * Syscall: the boundary with user programs, and the process calls
    (kernel/src/syscall/handler.rs, table.rs, trap.rs)

    The checks on the pointers a program hands to the kernel, the calls that create,
    end, await and signal processes, and what the trap does after a call.  A call
    takes its arguments as machine words and answers an [isize] (a negative errno on
    failure). *)

From S2P Require Import Prelude Sched Slots Process.

Open Scope Z_scope.

(* @src kernel/src/syscall/trap.rs 3-3 SYSCALL_INSN_LEN *)
Definition SYSCALL_INSN_LEN : Z := 3.
(* @src kernel/src/syscall/handler.rs 143-143 KERNEL_STR_MAX *)
Definition KERNEL_STR_MAX : Z := 4096.
(* @src kernel/src/syscall/handler.rs 294-294 MAX_ARGC *)
Definition MAX_ARGC : Z := 64.

(** [as i32] of a word. *)
Definition as_i32 (w : Z) : Z := if w <? 2 ^ 31 then w else w - 2 ^ 32.

(* @src kernel/src/syscall/table.rs 3-65 Syscall *)
Inductive Syscall : Type :=
  | SRead | SWrite | SOpen | SClose | SIoctl | SExit | SSpawn | SWait | SSeek | SMkdir | SUnlink | SReaddir
  | SUptimeMs | SSbrk | SYield | SSignal | SKill | SSigreturn | SSocket | SBind | SListen | SAccept | SConnect
  | SGetTimeOfDay | SSetTimeOfDay | SOtaState | SPipe | SDup2 | SChdir | SGetcwd.

Definition all_syscalls : list Syscall :=
  [SRead; SWrite; SOpen; SClose; SIoctl; SExit; SSpawn; SWait; SSeek; SMkdir; SUnlink; SReaddir;
   SUptimeMs; SSbrk; SYield; SSignal; SKill; SSigreturn; SSocket; SBind; SListen; SAccept; SConnect;
   SGetTimeOfDay; SSetTimeOfDay; SOtaState; SPipe; SDup2; SChdir; SGetcwd].

(* @src kernel/src/syscall/table.rs 68-103 Syscall::from_usize *)
Definition from_usize (n : Z) : option Syscall := if n <? 0 then None else all_syscalls !! Z.to_nat n.

(* @src kernel/src/syscall/handler.rs 75-81 arg *)
Definition arg (args : list Z) (i : Z) : Z := at_ args i.

(* @src kernel/src/syscall/handler.rs 181-187 ret_usize *)
Definition ret_usize (r : KResult Z) : Z := match r with Ok n => Z.min n (2 ^ 31 - 1) | Err e => as_errno e end.
(* @src kernel/src/syscall/handler.rs 189-195 ret_unit *)
Definition ret_unit (r : KResult unit) : Z := match r with Ok _ => 0 | Err e => as_errno e end.

Section Calls.
Context {F : Type} `{Frame F} {D : Type} `{FdTables D}.
Implicit Types k : Kernel F D.

(** ** Pointers of a program *)

(* @src kernel/src/syscall/handler.rs 107-127 user_region_end *)
Definition user_region_end (ptr : Z) k : KResult (option Z) :=
  if ptr =? 0 then Err Fault
  else if negb (current_task_is_user (k_sched k)) then Ok None
  else
    let in_slot :=
      match current_slot k with
      | Some slot =>
        let lo := slot_data (k_data_base k) slot in
        let hi := u32 (lo + SLOT_SIZE) in
        if (lo <=? ptr) && (ptr <? hi) then Ok (Some hi) else Err Fault
      | None => Err Fault
      end in
    match current_stack_range (k_sched k) with
    | Some (lo, hi) => if (lo <=? ptr) && (ptr <? hi) then Ok (Some hi) else in_slot
    | None => in_slot
    end.

(* @src kernel/src/syscall/handler.rs 129-139 validate_user *)
Definition validate_user (ptr len : Z) k : KResult unit :=
  if len =? 0 then Ok tt
  else
    end_ ← ok_or (checked_add32 ptr len) Fault;
    region ← user_region_end ptr k;
    match region with
    | None => Ok tt
    | Some hi => if end_ <=? hi then Ok tt else Err Fault
    end.

(** The scan for the NUL, over at most [fuel] bytes; [user_strnlen] gives it all the
    bytes up to the end of the region. *)
(* @src kernel/src/syscall/handler.rs 149-157 user_strnlen (loop) *)
Fixpoint strnlen_loop (mem : Z -> Z) (ptr n : Z) (fuel : nat) : KResult Z :=
  match fuel with
  | O => Err Fault
  | S fuel' => if mem (ptr + n) =? 0 then Ok n else strnlen_loop mem ptr (n + 1) fuel'
  end.

(* @src kernel/src/syscall/handler.rs 147-158 user_strnlen *)
Definition user_strnlen (ptr : Z) k : KResult Z :=
  region ← user_region_end ptr k;
  let hi := default (saturating_add32 ptr KERNEL_STR_MAX) region in
  strnlen_loop (k_mem k) ptr 0 (Z.to_nat (hi - ptr)).

(** The [n] bytes of the memory from [ptr] on. *)
Definition read_mem (mem : Z -> Z) (ptr : Z) (n : nat) : list Z := (fun i => mem (ptr + Z.of_nat i)) <$> seq 0 n.
Definition read_word (mem : Z -> Z) (ptr : Z) : Z := of_le (read_mem mem ptr 4).
Definition write_mem (ptr : Z) (l : list Z) (mem : Z -> Z) : Z -> Z :=
  fun a => if bool_decide (ptr <= a < ptr + len l) then at_ l (a - ptr) else mem a.

(* @src kernel/src/syscall/handler.rs 160-166 user_slice *)
Definition user_slice (ptr len : Z) k : KResult (list Z) :=
  if len =? 0 then Ok [] else _ ← validate_user ptr len k; Ok (read_mem (k_mem k) ptr (Z.to_nat len)).

(* @src kernel/src/syscall/handler.rs 176-179 user_str *)
Definition user_str (ptr len : Z) k : KResult string :=
  bytes ← user_slice ptr len k; ok_or (from_utf8 bytes) InvalidArgument.

(** The loop of [user_argv], of at most [MAX_ARGC] strings: the fuel only bounds the
    recursion, the loop itself stops first. *)
(* @src kernel/src/syscall/handler.rs 313-333 user_argv (loop) *)
Fixpoint user_argv_loop (p : Z) (out : list string) k (fuel : nat) : KResult (list string) :=
  match fuel with
  | O => Err NoSpace
  | S fuel' =>
    if len out =? MAX_ARGC then Err NoSpace
    else
      _ ← validate_user p 4 k;
      let s := read_word (k_mem k) p in
      if s =? 0 then Ok out
      else
        n ← user_strnlen s k;
        str ← ok_or (from_utf8 (read_mem (k_mem k) s (Z.to_nat n))) InvalidArgument;
        user_argv_loop (u32 (p + 4)) (out ++ [str]) k fuel'
  end.

(* @src kernel/src/syscall/handler.rs 302-334 user_argv *)
Definition user_argv (argv_ptr : Z) k : KResult (list string) :=
  if argv_ptr =? 0 then Ok []
  else if negb (Z.land argv_ptr 3 =? 0) then Err Fault
  else user_argv_loop argv_ptr [] k (Z.to_nat MAX_ARGC + 1).

(** ** Processes *)

(** The last part of [sys_spawn], once the image is in slot [slot] with its entry point
    and its argv: the task is created blocked, registered, and only then may run. *)
(* @src kernel/src/syscall/handler.rs 385-400 sys_spawn (from the image) *)
Definition spawn_image (tramp : Z) (heap : Z -> option Z) (path : string) (entry argv_ptr slot : Z) k : Kernel F D * Z :=
  match spawn_blocked tramp heap path entry argv_ptr DEFAULT_STACK_SIZE 10 true (k_sched k) with
  | (g, Ok tid) =>
    let '(k, pid) := register_process path tid true (Some slot) (k_set_sched g k) in
    (k_set_sched (unblock_task tid (k_sched k)) k, pid)
  | (g, Err e) => (k_set_slots (slot_free slot (k_slots k)) (k_set_sched g k), as_errno e)
  end.

(* @src kernel/src/syscall/handler.rs 256-285 sys_exit *)
Definition sys_exit (args : list Z) k : Kernel F D * Z :=
  let code := as_i32 (arg args 0) in
  let pt := k_pt k in
  let current_pid := pid_of_tid (current (k_sched k)) pt in
  let '(pt, parent_pid) :=
    match current_pid with
    | Some pid =>
      match table pt !! pid with
      | Some proc => (on_process pid (set_exited code) pt, parent_pid proc)
      | None => (pt, None)
      end
    | None => (pt, None)
    end in
  let parent_to_wake := p ← parent_pid; q ← table pt !! p; Some (main_task q) in
  let k := k_set_pt pt k in
  let g := match parent_to_wake with Some parent_tid => unblock_task parent_tid (k_sched k) | None => k_sched k end in
  (k_set_sched (set_need_resched (mark_zombie code g)) k, 0).

(* @src kernel/src/syscall/handler.rs 403-458 sys_wait *)
Definition sys_wait (args : list Z) k : Kernel F D * Z :=
  let status_ptr := arg args 0 in
  let options := arg args 1 in
  match (if status_ptr =? 0 then Ok tt else validate_user status_ptr 4 k) with
  | Err e => (k, as_errno e)
  | Ok _ =>
    match pid_of_tid (current (k_sched k)) (k_pt k) with
    | None => (k, as_errno NotFound)
    | Some current_pid =>
      if negb (has_children current_pid k) then (k, as_errno NotFound)
      else
        match take_zombie_child current_pid k with
        | (k, Some (child_pid, code, slot)) =>
          let k := if status_ptr =? 0 then k else k_set_mem (write_mem status_ptr (le_bytes 4 (u32 code)) (k_mem k)) k in
          (release slot child_pid k, child_pid)
        | (k, None) =>
          if negb (Z.land options 1 =? 0) then (k, 0)
          else (k_set_sched (set_restart_syscall (block_current_noswitch (k_sched k))) k, 0)
        end
    end
  end.

(* @src kernel/src/syscall/handler.rs 597-600 sys_yield *)
Definition sys_yield (args : list Z) k : Kernel F D * Z := (k_set_sched (set_need_resched (k_sched k)) k, 0).

(** The [Sigaction] structure: handler, flags and restorer, three words. *)
(* @src kernel/src/syscall/handler.rs 602-640 sys_sigaction *)
Definition sys_sigaction (args : list Z) k : Kernel F D * Z :=
  let sig := as_i32 (arg args 0) in
  let act_ptr := arg args 1 in
  if (sig <=? 0) || (32 <=? sig) || (sig =? 9) then (k, as_errno InvalidArgument)
  else
    match validate_user act_ptr 12 k with
    | Err e => (k, as_errno e)
    | Ok _ =>
      if act_ptr =? 0 then (k, as_errno Fault)
      else
        match pid_of_tid (current (k_sched k)) (k_pt k) with
        | None => (k, as_errno NotFound)
        | Some pid =>
          match table (k_pt k) !! pid with
          | Some _ =>
            (k_set_pt (on_process pid (set_handler sig (read_word (k_mem k) act_ptr) (read_word (k_mem k) (act_ptr + 8))) (k_pt k)) k, 0)
          | None => (k, as_errno NotFound)
          end
        end
    end.

(* @src kernel/src/syscall/handler.rs 642-661 sys_kill *)
Definition sys_kill (args : list Z) k : Kernel F D * Z :=
  let pid := arg args 0 in
  let sig := as_i32 (arg args 1) in
  if (sig <=? 0) || (32 <=? sig) then (k, as_errno InvalidArgument)
  else
    match table (k_pt k) !! pid with
    | Some proc =>
      let k := k_set_pt (on_process pid (set_pending (Z.lor (pending_signals proc) (Z.shiftl 1 sig))) (k_pt k)) k in
      (k_set_sched (set_need_resched (unblock_task (main_task proc) (k_sched k))) k, 0)
    | None => (k, as_errno NotFound)
    end.

(** [frame] is [None] for a null pointer; the answer includes the frame it points to. *)
(* @src kernel/src/syscall/handler.rs 663-680 sys_sigreturn *)
Definition sys_sigreturn (frame : option F) k : Kernel F D * option F * Z :=
  match (pid ← pid_of_tid (current (k_sched k)) (k_pt k); proc ← table (k_pt k) !! pid; Some (pid, proc)) with
  | Some (pid, proc) =>
    match saved_signal_context proc with
    | Some saved => (k_set_pt (on_process pid (set_saved None) (k_pt k)) k, (fun _ => saved) <$> frame, 0)
    | None => (k, frame, 0)
    end
  | None => (k, frame, as_errno NotFound)
  end.

(** What the trap does with the answer of a call: unless the call is to be restarted,
    the answer goes in [A2] and the program resumes after the instruction; a pending
    switch and the signals of the task that resumes come next. *)
(* @src kernel/src/syscall/trap.rs 23-35 __exception (return) *)
Definition syscall_return (ret : Z) (frame : F) k : option (Kernel F D * SigResult F * F) :=
  let '(g, restart) := take_restart_syscall (k_sched k) in
  let frame := if restart then frame else fr_set_PC (u32 (fr_PC frame + SYSCALL_INSN_LEN)) (fr_set_A2 (u32 ret) frame) in
  r ← (if need_resched g then preempt_switch frame g else Some (g, mkSwitch frame (0, 0) None));
  let '(g, sw) := r in
  s ← check_signals (sw_frame sw) (k_set_sched g k);
  let '(k, res) := s in
  Some (k, res, match res with SigDelivered f => f | _ => sw_frame sw end).

(** The trap at a [sigreturn]: the handler overwrites the frame the trap was entered
    with, and the trap goes on with that same frame. *)
(* @src kernel/src/syscall/trap.rs 12-36 __exception *)
Definition sigreturn_trap (frame : F) k : option (Kernel F D * SigResult F * F) :=
  let '(k, fr, ret) := sys_sigreturn (Some frame) k in syscall_return ret (default frame fr) k.
End Calls.
