(* ===== verification/ProcessOps.v ===== *)
(** * ProcessOps: the invariant of the process table, slots and descriptors

    The table and its reverse map agree, parents and children agree and form a
    tree, every slot in use belongs to exactly one process (or is on its way to
    one), and only live processes have descriptors.  Every operation keeps this, so
    no slot leaks and none is shared.  Then: waiting and waking, and signals. *)

From S2P Require Import Prelude Sched SchedOps Slots Process Syscall.

Open Scope Z_scope.

Section ProcessOps.
Context {F : Type} `{HF : Frame F} {D : Type} `{HD : FdTables D, HL : !FdTablesLaws D}.
Implicit Types (p : Process F) (pt : ProcessTable F) (k : Kernel F D).

(** ** The table *)

Record pt_inv pt : Prop := mkPtInv {
  pi_key : forall c p, table pt !! c = Some p -> p_pid p = c /\ 1 <= c < next_pid pt;
  pi_tid : forall t c, by_tid pt !! t = Some c <-> exists p, table pt !! c = Some p /\ main_task p = t;
  pi_parent : forall c p q, table pt !! c = Some p -> parent_pid p = Some q ->
    q < c /\ exists r, table pt !! q = Some r /\ c ∈ children r;
  pi_children : forall q r, table pt !! q = Some r -> NoDup (children r) /\
    forall c, c ∈ children r -> exists p, table pt !! c = Some p /\ parent_pid p = Some q;
  pi_next : 1 <= next_pid pt;
}.

(** ** Changing one process *)

(** A change that keeps the identity and the family of the process. *)
Definition keeps_family (f : Process F -> Process F) : Prop :=
  forall p, p_pid (f p) = p_pid p /\ main_task (f p) = main_task p /\ parent_pid (f p) = parent_pid p /\
    children (f p) = children p.

Lemma lookup_on_process c f pt d :
  table (on_process c f pt) !! d = (if decide (d = c) then f <$> table pt !! d else table pt !! d).
Proof.
  unfold on_process; cbn. case_decide as E; [subst; by rewrite lookup_alter_eq|by rewrite lookup_alter_ne].
Qed.

Lemma on_process_Some c f pt d p :
  table (on_process c f pt) !! d = Some p <-> exists p0, table pt !! d = Some p0 /\ p = (if decide (d = c) then f p0 else p0).
Proof.
  rewrite lookup_on_process. case_decide; [|naive_solver]. rewrite fmap_Some. naive_solver.
Qed.

Lemma on_process_inv c f pt : keeps_family f -> pt_inv pt -> pt_inv (on_process c f pt).
Proof.
  intros Hf [K1 K2 K3 K4 K5].
  assert (Hg : forall d p, let p' := if decide (d = c) then f p else p in
    p_pid p' = p_pid p /\ main_task p' = main_task p /\ parent_pid p' = parent_pid p /\ children p' = children p).
  { intros d p. cbn zeta. case_decide; [apply Hf|done]. }
  split; cbn [next_pid by_tid on_process]; [| | | |done].
  - intros d p (p0 & H1 & ->)%on_process_Some. destruct (Hg d p0) as (-> & _). eauto.
  - intros t d. rewrite K2. split.
    + intros (p & H1 & <-). eexists. rewrite on_process_Some. split; [eauto|]. apply (Hg d p).
    + intros (p & (p0 & H1 & ->)%on_process_Some & <-). exists p0. split; [done|]. symmetry. apply (Hg d p0).
  - intros d p q (p0 & H1 & ->)%on_process_Some. destruct (Hg d p0) as (_ & _ & -> & _). intros Hq.
    destruct (K3 _ _ _ H1 Hq) as (Hlt & r & Hr & Hc). split; [done|]. eexists. rewrite on_process_Some. split; [eauto|].
    destruct (Hg q r) as (_ & _ & _ & ->). done.
  - intros q r (r0 & H1 & ->)%on_process_Some. destruct (Hg q r0) as (_ & _ & _ & ->). destruct (K4 _ _ H1) as (Hn & Hc).
    split; [done|]. intros d (p & Hp & Hq)%Hc. eexists. rewrite on_process_Some. split; [eauto|].
    destruct (Hg d p) as (_ & _ & -> & _). done.
Qed.

(** ** Removal *)

Lemma lookup_reparent to l : forall pt d,
  table (reparent to l pt) !! d = (if decide (d ∈ l) then set_parent to <$> table pt !! d else table pt !! d) /\
  by_tid (reparent to l pt) = by_tid pt /\ next_pid (reparent to l pt) = next_pid pt.
Proof.
  induction l as [|c l IH]; intros pt d; cbn [reparent].
  - by rewrite decide_False by apply not_elem_of_nil.
  - destruct (IH (on_process c (set_parent to) pt) d) as (-> & -> & ->). split; [|done]. rewrite lookup_on_process.
    destruct (decide (d = c)) as [->|Hd].
    + rewrite (decide_True (P := c ∈ c :: l)) by left. case_decide; [|done]. by destruct (table pt !! c).
    + do 2 case_decide; set_solver.
Qed.

Lemma elem_of_adopt l : forall kids x, x ∈ adopt kids l <-> x ∈ kids \/ x ∈ l.
Proof.
  induction l as [|c l IH]; intros kids x; cbn [adopt]; [set_solver|]. rewrite IH. case_bool_decide; set_solver.
Qed.

Lemma adopt_NoDup l : forall kids, NoDup kids -> NoDup (adopt kids l).
Proof.
  induction l as [|c l IH]; intros kids Hk; cbn [adopt]; [done|]. apply IH. case_bool_decide as Hc; [done|].
  apply NoDup_app. split; [done|]. split; [|apply NoDup_singleton]. intros x Hx ->%list_elem_of_singleton. done.
Qed.

(** What becomes of process [c] when [proc], of pid [pid], is removed. *)
Definition survives (pid : Z) (proc : Process F) (init : bool) (c : Z) p : Process F :=
  let p := if decide (parent_pid proc = Some c) then set_children (filter (fun x => x <> pid) (children p)) p else p in
  let p := if decide (c ∈ children proc) then set_parent (if init then Some 1 else None) p else p in
  if init && (c =? 1) then set_children (adopt (children p) (children proc)) p else p.

Definition has_init (pid : Z) pt : bool := negb (pid =? 1) && bool_decide (is_Some (table pt !! 1)).

Lemma remove_process_spec pid pt proc :
  pt_inv pt -> table pt !! pid = Some proc ->
  exists pt', remove_process pid pt = (pt', Some proc) /\
    (forall c, table pt' !! c = if decide (c = pid) then None else survives pid proc (has_init pid pt) c <$> table pt !! c) /\
    by_tid pt' = delete (main_task proc) (by_tid pt) /\ next_pid pt' = next_pid pt.
Proof.
  intros Hinv Hp. unfold remove_process. rewrite Hp. cbn zeta.
  set (pt1 := mkTable (delete pid (table pt)) (delete (main_task proc) (by_tid pt)) (next_pid pt)).
  set (pt2 := match parent_pid proc with Some parent => on_process parent _ pt1 | None => pt1 end).
  assert (H2 : forall c, table pt2 !! c = if decide (c = pid) then None else
      (fun p => if decide (parent_pid proc = Some c) then set_children (filter (fun x => x <> pid) (children p)) p else p) <$> table pt !! c).
  { intros c. assert (H1 : table pt1 !! c = if decide (c = pid) then None else table pt !! c).
    { unfold pt1; cbn. case_decide; [subst; apply lookup_delete_eq|by rewrite lookup_delete_ne]. }
    unfold pt2. destruct (parent_pid proc) as [q|] eqn:Eq; [rewrite lookup_on_process|]; rewrite H1.
    - destruct (decide (c = pid)) as [->|Hc]; [by case_decide|]. destruct (table pt !! c); [cbn|by case_decide].
      destruct (decide (c = q)); [rewrite decide_True by congruence|rewrite decide_False by congruence]; done.
    - case_decide; [done|]. destruct (table pt !! c); [|done]. cbn. by rewrite decide_False. }
  assert (Hb2 : by_tid pt2 = by_tid pt1 /\ next_pid pt2 = next_pid pt1) by (unfold pt2; by destruct (parent_pid proc)).
  assert (Hinit : negb (pid =? 1) && bool_decide (is_Some (table pt2 !! 1)) = has_init pid pt).
  { unfold has_init. destruct (Z.eqb_spec pid 1) as [->|Hne]; [done|]. cbn [negb andb]. apply bool_decide_ext.
    rewrite H2, decide_False by done. by rewrite fmap_is_Some. }
  rewrite Hinit. set (pt3 := reparent _ _ pt2). eexists. split; [reflexivity|].
  assert (H3 : forall c, table pt3 !! c = if decide (c = pid) then None else
      (fun p => let p := if decide (parent_pid proc = Some c) then set_children (filter (fun x => x <> pid) (children p)) p else p in
        if decide (c ∈ children proc) then set_parent (if has_init pid pt then Some 1 else None) p else p) <$> table pt !! c).
  { intros c. unfold pt3. rewrite (proj1 (lookup_reparent _ _ _ _)), H2.
    destruct (decide (c = pid)); [by case_decide|]. destruct (table pt !! c); [|by case_decide]. cbn. by case_decide. }
  destruct (lookup_reparent (if has_init pid pt then Some 1 else None) (children proc) pt2 0) as (_ & Hb3 & Hn3). fold pt3 in Hb3, Hn3.
  destruct Hb2 as [Hb2 Hn2]. unfold survives. destruct (has_init pid pt) eqn:Ei; cbn [andb].
  - split; [|cbn; by rewrite Hb3, Hn3, Hb2, Hn2]. intros c. rewrite lookup_on_process, H3.
    destruct (decide (c = 1)) as [->|Hc]; cbn [Z.eqb Pos.eqb].
    + case_decide; [done|]. by destruct (table pt !! 1).
    + case_decide; [done|]. destruct (table pt !! c); [|done]. cbn. by destruct (Z.eqb_spec c 1).
  - split; [|by rewrite Hb3, Hn3, Hb2, Hn2]. intros c. rewrite H3. done.
Qed.

Lemma survives_fields pid proc init c p :
  p_pid (survives pid proc init c p) = p_pid p /\ main_task (survives pid proc init c p) = main_task p /\
  slot (survives pid proc init c p) = slot p /\ p_state (survives pid proc init c p) = p_state p /\
  p_exit_code (survives pid proc init c p) = p_exit_code p /\
  parent_pid (survives pid proc init c p) =
    (if decide (c ∈ children proc) then if init then Some 1 else None else parent_pid p) /\
  children (survives pid proc init c p) =
    (let kids := if decide (parent_pid proc = Some c) then filter (fun x => x <> pid) (children p) else children p in
     if init && (c =? 1) then adopt kids (children proc) else kids).
Proof. unfold survives. do 2 case_decide; destruct (init && _); repeat split. Qed.

(** A child of [c] other than the removed process stays a child of [c]. *)
Lemma survives_children pid pt proc init c p x :
  pt_inv pt -> table pt !! pid = Some proc -> table pt !! c = Some p ->
  x ∈ children (survives pid proc init c p) <->
    (x ∈ children p /\ x <> pid) \/ (init = true /\ c = 1 /\ x ∈ children proc).
Proof.
  intros Hinv Hp Hc. destruct (survives_fields pid proc init c p) as (_ & _ & _ & _ & _ & _ & ->). cbn zeta.
  set (kids := if decide (parent_pid proc = Some c) then _ else children p).
  assert (Hk : x ∈ kids <-> x ∈ children p /\ x <> pid).
  { unfold kids. case_decide as Hd; [rewrite list_elem_of_filter; tauto|]. split; [|tauto]. intros Hx. split; [done|]. intros ->.
    apply (pi_children _ Hinv _ _ Hc) in Hx as (p' & Hp' & Hpar). congruence. }
  destruct init; cbn [andb].
  - destruct (Z.eqb_spec c 1) as [->|Hne]; [rewrite elem_of_adopt|]; rewrite Hk; naive_solver.
  - rewrite Hk. naive_solver.
Qed.

Lemma has_init_spec pid pt : has_init pid pt = true -> pid <> 1 /\ exists p, table pt !! 1 = Some p.
Proof.
  unfold has_init. intros [H1%negb_true_iff H2%bool_decide_eq_true]%andb_true_iff. apply Z.eqb_neq in H1. by destruct H2; eauto.
Qed.

Lemma remove_lookup pid pt pt' proc c p' :
  (forall c, table pt' !! c = if decide (c = pid) then None else survives pid proc (has_init pid pt) c <$> table pt !! c) ->
  table pt' !! c = Some p' <-> c <> pid /\ exists p, table pt !! c = Some p /\ p' = survives pid proc (has_init pid pt) c p.
Proof. intros ->. case_decide; [naive_solver|]. rewrite fmap_Some. naive_solver. Qed.

Lemma remove_process_inv pid pt proc pt' :
  pt_inv pt -> table pt !! pid = Some proc -> remove_process pid pt = (pt', Some proc) -> pt_inv pt'.
Proof.
  intros Hinv Hp E. pose proof Hinv as [K1 K2 K3 K4 K5].
  destruct (remove_process_spec _ _ _ Hinv Hp) as (pt0 & E0 & Hl & Hb & Hn). rewrite E0 in E. injection E as ->.
  pose proof (fun c p' => remove_lookup pid pt pt' proc c p' Hl) as Hl'. clear Hl.
  assert (Hkid : forall c, c ∈ children proc -> exists p, table pt !! c = Some p /\ parent_pid p = Some pid /\ pid < c /\ c <> 1).
  { intros c Hc. destruct (proj2 (K4 _ _ Hp) _ Hc) as (p & Hcp & Hpar). destruct (K3 _ _ _ Hcp Hpar) as (Hlt & _).
    apply K1 in Hp. exists p. repeat split; [done|done|done|lia]. }
  split.
  - intros c p (Hc & p0 & H0 & ->)%Hl'. destruct (survives_fields pid proc (has_init pid pt) c p0) as (-> & _). rewrite Hn. eauto.
  - intros t c. rewrite Hb, lookup_delete_Some, K2. split.
    + intros (Hm & p & H0 & <-). eexists. rewrite Hl'. split; [|apply survives_fields]. split; [congruence|eauto].
    + intros (p & (Hc & p0 & H0 & ->)%Hl' & <-). destruct (survives_fields pid proc (has_init pid pt) c p0) as (_ & -> & _).
      split; [|eauto]. intros Heq. apply Hc. assert (by_tid pt !! main_task p0 = Some c) as E1 by (apply K2; eauto).
      assert (by_tid pt !! main_task proc = Some pid) as E2 by (apply K2; eauto). congruence.
  - intros c p q (Hc & p0 & H0 & ->)%Hl'. destruct (survives_fields pid proc (has_init pid pt) c p0) as (_ & _ & _ & _ & _ & -> & _).
    case_decide as Hk.
    + destruct (has_init pid pt) eqn:Ei; [intros [= <-]|done]. destruct (has_init_spec _ _ Ei) as (Hne & r & Hr).
      destruct (Hkid _ Hk) as (? & ? & _ & _ & ?). apply K1 in H0. split; [lia|].
      eexists. rewrite Hl'. split; [by eauto|]. rewrite (survives_children _ _ _ _ _ _ _ Hinv Hp Hr). auto.
    + intros Hq. destruct (K3 _ _ _ H0 Hq) as (Hlt & r & Hr & Hcr). split; [done|].
      assert (Hqp : q <> pid) by (intros ->; congruence).
      eexists. rewrite Hl'. split; [by eauto|]. rewrite (survives_children _ _ _ _ _ _ _ Hinv Hp Hr). auto.
  - intros q r (Hq & r0 & H0 & ->)%Hl'. split.
    + destruct (survives_fields pid proc (has_init pid pt) q r0) as (_ & _ & _ & _ & _ & _ & ->). cbn zeta.
      assert (Hnd : NoDup (if decide (parent_pid proc = Some q) then filter (fun x => x <> pid) (children r0) else children r0)).
      { case_decide; [apply NoDup_filter|]; by apply (K4 _ _ H0). }
      destruct (_ && _); [by apply adopt_NoDup|done].
    + intros c. rewrite (survives_children _ _ _ _ _ _ _ Hinv Hp H0). intros [[Hc Hne]|(Ei & -> & Hc)].
      * destruct (proj2 (K4 _ _ H0) _ Hc) as (p & Hcp & Hpar). eexists. rewrite Hl'. split; [eauto|].
        destruct (survives_fields pid proc (has_init pid pt) c p) as (_ & _ & _ & _ & _ & -> & _). rewrite decide_False; [done|].
        intros (p1 & H1 & H2 & _)%Hkid. congruence.
      * destruct (Hkid _ Hc) as (p & Hcp & Hpar & Hlt & _). eexists. rewrite Hl'. split; [split; [lia|eauto]|].
        destruct (survives_fields pid proc (has_init pid pt) c p) as (_ & _ & _ & _ & _ & -> & _).
        by rewrite decide_True, Ei by done.
  - by rewrite Hn.
Qed.

(** ** Registration *)

Lemma register_inv pt name tid parent (sl : option Z) dir pt' :
  pt_inv pt -> next_pid pt < 2 ^ 32 - 1 -> by_tid pt !! tid = None ->
  (forall q, parent = Some q -> exists r, table pt !! q = Some r) ->
  pt' = (let proc := mkProcess (next_pid pt) parent tid name PRunning 0 [] sl dir 0 (replicate 32 0) (replicate 32 0) None in
         let pt1 := insert_process proc (mkTable (table pt) (by_tid pt) (u32 (next_pid pt + 1))) in
         match parent with Some q => on_process q (fun r => set_children (children r ++ [next_pid pt]) r) pt1 | None => pt1 end) ->
  pt_inv pt' /\
  (forall c p', table pt' !! c = Some p' <->
     (c = next_pid pt /\ p' = mkProcess (next_pid pt) parent tid name PRunning 0 [] sl dir 0 (replicate 32 0) (replicate 32 0) None) \/
     (c <> next_pid pt /\ exists p, table pt !! c = Some p /\
        p' = if decide (parent = Some c) then set_children (children p ++ [next_pid pt]) p else p)) /\
  by_tid pt' = <[tid := next_pid pt]> (by_tid pt) /\ next_pid pt' = next_pid pt + 1.
Proof.
  intros Hinv Hlt Htid Hpar Hpt'. pose proof Hinv as [K1 K2 K3 K4 K5]. set (n := next_pid pt) in *. cbn zeta in Hpt'.
  set (proc := mkProcess n parent tid name PRunning 0 [] sl dir 0 (replicate 32 0) (replicate 32 0) None) in *.
  assert (Hnew : table pt !! n = None). { destruct (table pt !! n) as [p|] eqn:E; [|done]. apply K1 in E. unfold n in E; lia. }
  assert (Hb : by_tid pt' = <[tid := n]> (by_tid pt)) by (rewrite Hpt'; by destruct parent).
  assert (Hn : next_pid pt' = n + 1) by (rewrite Hpt'; destruct parent; cbn; apply u32_small; unfold n in *; lia).
  assert (Hl : forall c p', table pt' !! c = Some p' <-> (c = n /\ p' = proc) \/
     (c <> n /\ exists p, table pt !! c = Some p /\ p' = if decide (parent = Some c) then set_children (children p ++ [n]) p else p)).
  { intros c p'. assert (H1 : forall x, table (insert_process proc (mkTable (table pt) (by_tid pt) (u32 (n + 1)))) !! c = Some x <->
      (c = n /\ x = proc) \/ (c <> n /\ table pt !! c = Some x)).
    { intros x. unfold insert_process; cbn. rewrite lookup_insert_Some. unfold proc at 1; cbn. naive_solver. }
    rewrite Hpt'. destruct parent as [q|].
    - destruct (Hpar q eq_refl) as (r & Hr). assert (q <> n) by congruence. rewrite on_process_Some. setoid_rewrite H1. split.
      + intros (p0 & [[-> ->]|[Hc Hp0]] & ->); [left; by rewrite decide_False|right]. split; [done|]. exists p0. split; [done|].
        destruct (decide (c = q)); [rewrite decide_True by congruence|rewrite decide_False by congruence]; done.
      + intros [[-> ->]|[Hc (p & Hp & ->)]]; [exists proc; split; [by left|by rewrite decide_False]|].
        exists p. split; [by right|]. destruct (decide (c = q)); [rewrite decide_True by congruence|rewrite decide_False by congruence]; done.
    - rewrite H1. split; [intros [?|[? ?]]; [by left|right; eauto]|intros [?|[? (p & ? & ->)]]; [by left|by right]]. }
  split; [|done]. split; [| | | |rewrite Hn; unfold n; lia].
  - intros c p [[-> ->]|[Hc (p0 & H0 & ->)]]%Hl; rewrite Hn; [cbn; unfold n; lia|]. apply K1 in H0 as [H0' H1'].
    split; [by case_decide|fold n in H1'; lia].
  - intros t c. rewrite Hb, lookup_insert_Some, K2. setoid_rewrite Hl. split.
    + intros [[<- <-]|[Ht (p & Hp & <-)]]; [exists proc; auto|]. eexists. split; [right; split; [congruence|eauto]|]. by case_decide.
    + intros (p & [[-> ->]|[Hc (p0 & H0 & ->)]] & <-); [by left|right].
      assert (Hm : main_task (if decide (parent = Some c) then set_children (children p0 ++ [n]) p0 else p0) = main_task p0) by (by case_decide).
      rewrite Hm. split; [|eauto]. intros ->. assert (by_tid pt !! main_task p0 = Some c) by (apply K2; eauto). congruence.
  - intros c p q [[-> ->]|[Hc (p0 & H0 & ->)]]%Hl Hq.
    + cbn in Hq. destruct (Hpar q Hq) as (r & Hr). apply K1 in Hr as Hr'. split; [fold n in Hr'; lia|].
      eexists. rewrite Hl. split; [right; split; [congruence|eauto]|]. rewrite decide_True by done. cbn.
      apply elem_of_app. right. by apply list_elem_of_singleton.
    + assert (Hq' : parent_pid p0 = Some q) by (by case_decide). destruct (K3 _ _ _ H0 Hq') as (? & r & Hr & Hcr). split; [done|].
      eexists. rewrite Hl. split; [right; split; [congruence|eauto]|]. clear Hq. case_decide; cbn; [|done]. apply elem_of_app. by left.
  - intros q r [[-> ->]|[Hq (r0 & H0 & ->)]]%Hl.
    + cbn. split; [apply NoDup_nil_2|]. by intros c Hc%not_elem_of_nil.
    + destruct (K4 _ _ H0) as [Hnd Hch].
      assert (Hno : n ∉ children r0) by (intros Hx%Hch; destruct Hx as (? & ? & _); congruence).
      assert (Hold : forall c, c ∈ children r0 -> exists p, table pt' !! c = Some p /\ parent_pid p = Some q).
      { intros c Hc. destruct (Hch _ Hc) as (p & Hp & Hpp). eexists. rewrite Hl. split; [right; split; [congruence|eauto]|]. by case_decide. }
      case_decide as Hd; [cbn|by split]. split.
      * apply NoDup_app. split; [done|]. split; [|apply NoDup_singleton]. by intros x Hx ->%list_elem_of_singleton.
      * intros c [Hc| ->%list_elem_of_singleton]%elem_of_app; [by apply Hold|]. exists proc. rewrite Hl. auto.
Qed.

(** ** The kernel invariant *)

Definition next_tid_of (g : SchedState (F := F)) : Z := match sched g with Some s => next_tid s | None => 0 end.

(** [fl] are the slots claimed by a loader whose process is not registered yet. *)
Record kernel_inv k (fl : gset Z) : Prop := mkKernelInv {
  ki_pt : pt_inv (k_pt k);
  ki_used : 0 <= k_slots k < 2 ^ 32;
  ki_slots : forall s, in_use (k_slots k) s <-> s ∈ fl \/ exists c p, table (k_pt k) !! c = Some p /\ slot p = Some s;
  ki_own : forall c p c' p' s, table (k_pt k) !! c = Some p -> table (k_pt k) !! c' = Some p' ->
    slot p = Some s -> slot p' = Some s -> c = c';
  ki_flight : forall s c p, s ∈ fl -> table (k_pt k) !! c = Some p -> slot p <> Some s;
  ki_tids : forall t c, by_tid (k_pt k) !! t = Some c -> t < next_tid_of (k_sched k);
  ki_fds : forall c, c ∈ fd_pids (k_fds k) -> c = 0 \/ is_Some (table (k_pt k) !! c);
}.

(** The scheduler and the memory may change freely, as long as task ids only grow. *)
Lemma kernel_inv_ext k k' fl :
  kernel_inv k fl -> k_pt k' = k_pt k -> k_slots k' = k_slots k -> k_fds k' = k_fds k ->
  next_tid_of (k_sched k) <= next_tid_of (k_sched k') -> kernel_inv k' fl.
Proof.
  intros [I1 I2 I3 I4 I5 I6 I7] E1 E2 E3 Hle. split; rewrite ?E1, ?E2, ?E3; try done.
  intros t c Ht. apply I6 in Ht. lia.
Qed.

Lemma kernel_inv_on k fl c f :
  keeps_family f -> (forall p, slot (f p) = slot p) -> kernel_inv k fl -> kernel_inv (k_set_pt (on_process c f (k_pt k)) k) fl.
Proof.
  intros Hf Hs [I1 I2 I3 I4 I5 I6 I7].
  assert (Hs' : forall d p, slot (if decide (d = c) then f p else p) = slot p) by (intros; case_decide; auto).
  split; cbn [k_pt k_slots k_fds k_sched k_set_pt]; try done.
  - by apply on_process_inv.
  - intros s. rewrite I3. split; (intros [?|(d & p & H1 & H2)]; [by left|right]).
    + exists d. eexists. rewrite on_process_Some. split; [eauto|]. by rewrite Hs'.
    + apply on_process_Some in H1 as (p0 & H1 & ->). rewrite Hs' in H2. eauto.
  - intros d p d' p' s (p0 & H1 & ->)%on_process_Some (p0' & H1' & ->)%on_process_Some. rewrite !Hs'. eauto.
  - intros s d p Hs0 (p0 & H1 & ->)%on_process_Some. rewrite Hs'. eauto.
  - intros d Hd. destruct (I7 d Hd) as [?|[p Hp]]; [by left|right]. eexists. rewrite on_process_Some. eauto.
Qed.

(** A removed process gives back its slot and its descriptors, and nothing else changes hands. *)
Lemma kernel_inv_remove k fl pid proc pt' :
  kernel_inv k fl -> table (k_pt k) !! pid = Some proc -> remove_process pid (k_pt k) = (pt', Some proc) ->
  kernel_inv (release (slot proc) pid (k_set_pt pt' k)) fl.
Proof.
  intros [I1 I2 I3 I4 I5 I6 I7] Hp E. pose proof (remove_process_inv _ _ _ _ I1 Hp E) as I1'.
  destruct (remove_process_spec _ _ _ I1 Hp) as (pt0 & E0 & Hl & Hb & Hn). rewrite E0 in E. injection E as ->.
  pose proof (fun c p' => remove_lookup pid (k_pt k) pt' proc c p' Hl) as Hl'.
  assert (Hsl : forall c p, slot (survives pid proc (has_init pid (k_pt k)) c p) = slot p) by (intros; apply survives_fields).
  assert (Hslots : 0 <= k_slots (release (slot proc) pid (k_set_pt pt' k)) < 2 ^ 32 /\
    forall s, in_use (k_slots (release (slot proc) pid (k_set_pt pt' k))) s <-> in_use (k_slots k) s /\ slot proc <> Some s).
  { unfold release. destruct (slot proc) as [i|] eqn:Es; cbn [k_slots k_set_fds k_set_slots k_set_pt].
    - assert (Hi : in_use (k_slots k) i) by (apply I3; right; eauto). destruct Hi as [Hi _].
      destruct (slot_free_spec i (k_slots k) I2 Hi) as [H1 H2]. split; [done|]. intros s. rewrite H2. naive_solver.
    - split; [done|]. naive_solver. }
  destruct Hslots as [Hu Hin].
  assert (Ept : k_pt (release (slot proc) pid (k_set_pt pt' k)) = pt') by (unfold release; by destruct (slot proc)).
  assert (Efd : k_fds (release (slot proc) pid (k_set_pt pt' k)) = fd_cleanup pid (k_fds k)) by (unfold release; by destruct (slot proc)).
  assert (Esc : k_sched (release (slot proc) pid (k_set_pt pt' k)) = k_sched k) by (unfold release; by destruct (slot proc)).
  split; rewrite ?Ept, ?Efd, ?Esc; try done.
  - intros s. rewrite Hin, I3. split.
    + intros [[?|(c & p & H1 & H2)] Hne]; [by left|right]. exists c, (survives pid proc (has_init pid (k_pt k)) c p).
      rewrite Hl', Hsl. split; [split; [|eauto]|done]. intros ->. congruence.
    + intros [Hfl|(c & p & (Hc & p0 & H0 & ->)%Hl' & H2)].
      * split; [by left|]. by eapply I5.
      * rewrite Hsl in H2. split; [right; eauto|]. intros Hs. by apply Hc, (I4 c p0 pid proc s).
  - intros c p c' p' s (Hc & p0 & H0 & ->)%Hl' (Hc' & p0' & H0' & ->)%Hl'. rewrite !Hsl. eauto.
  - intros s c p Hs (Hc & p0 & H0 & ->)%Hl'. rewrite Hsl. eauto.
  - intros t c. rewrite Hb, lookup_delete_Some. intros [_ Ht]. eauto.
  - intros c. rewrite fd_cleanup_pids. intros [Hc Hne%not_elem_of_singleton]%elem_of_difference.
    destruct (I7 c Hc) as [?|[p Hpc]]; [by left|right]. eexists. rewrite Hl'. eauto.
Qed.

Lemma remove_None pid pt : table pt !! pid = None -> remove_process pid pt = (pt, None).
Proof. intros Hp. unfold remove_process. by rewrite Hp. Qed.

Lemma reap_inv_kernel pid k fl : kernel_inv k fl -> kernel_inv (reap pid k) fl.
Proof.
  intros Hk. unfold reap. destruct (table (k_pt k) !! pid) as [proc|] eqn:Hp.
  - destruct (remove_process_spec _ _ _ (ki_pt _ _ Hk) Hp) as (pt' & E & _). rewrite E. by eapply kernel_inv_remove.
  - rewrite (remove_None _ _ Hp). unfold release; cbn. destruct Hk as [I1 I2 I3 I4 I5 I6 I7]. split; cbn; try done.
    intros c. rewrite fd_cleanup_pids. intros [Hc _]%elem_of_difference. auto.
Qed.

Lemma foldl_reap_inv l : forall k fl, kernel_inv k fl -> kernel_inv (foldl (fun k pid => reap pid k) k l) fl.
Proof. induction l as [|pid l IH]; intros k fl Hk; [done|]. by apply IH, reap_inv_kernel. Qed.

Lemma take_zombie_spec parent k fl :
  kernel_inv k fl ->
  match take_zombie_child parent k with
  | (k', Some (cpid, code, sl)) => exists p proc pt', table (k_pt k) !! parent = Some p /\ cpid ∈ children p /\
      table (k_pt k) !! cpid = Some proc /\ p_state proc = PZombie /\ code = p_exit_code proc /\ sl = slot proc /\
      remove_process cpid (k_pt k) = (pt', Some proc) /\ k' = k_set_pt pt' k
  | (k', None) => k' = k /\ forall p c proc, table (k_pt k) !! parent = Some p -> c ∈ children p ->
      table (k_pt k) !! c = Some proc -> p_state proc = PRunning
  end.
Proof.
  intros Hk. unfold take_zombie_child. destruct (table (k_pt k) !! parent) as [p|] eqn:Hp; [|naive_solver].
  destruct (List.find _ (children p)) as [c|] eqn:Ef.
  - apply List.find_some in Ef as [Hc Hz]. apply list_elem_of_In in Hc.
    destruct (table (k_pt k) !! c) as [proc|] eqn:Ec; [|done]. apply bool_decide_eq_true in Hz.
    destruct (remove_process_spec _ _ _ (ki_pt _ _ Hk) Ec) as (pt' & E & _). rewrite E.
    destruct (pi_key _ (ki_pt _ _ Hk) _ _ Ec) as [-> _]. exists p, proc, pt'. done.
  - split; [done|]. intros p' c proc [= <-] Hc Hcp. pose proof (List.find_none _ _ Ef c (proj1 (list_elem_of_In _ _) Hc)) as Hn.
    cbn in Hn. rewrite Hcp in Hn. apply bool_decide_eq_false in Hn. by destruct (p_state proc).
Qed.

(** ** Every operation keeps the invariant *)

Lemma next_tid_with_sched {R} (f : Scheduler (F := F) -> Scheduler * R) g :
  (forall s, next_tid (f s).1 = next_tid s) -> next_tid_of (with_sched f g).1 = next_tid_of g.
Proof. intros Hf. unfold with_sched, next_tid_of. destruct (sched g) as [s|] eqn:E; [|cbn; by rewrite E]. specialize (Hf s). by destruct (f s). Qed.

Lemma next_tid_unblock t g : next_tid_of (unblock_task t g) = next_tid_of g.
Proof. apply next_tid_with_sched. intros s. destruct (tasks s !! t); [case_decide|]; done. Qed.
Lemma next_tid_zombie c g : next_tid_of (mark_zombie c g) = next_tid_of g.
Proof. by apply next_tid_with_sched. Qed.
Lemma next_tid_block g : next_tid_of (block_current_noswitch g) = next_tid_of g.
Proof. unfold block_current_noswitch. change (next_tid_of (set_need_resched ?x)) with (next_tid_of x). by apply next_tid_with_sched. Qed.
Lemma next_tid_user t b g : next_tid_of (set_task_user t b g) = next_tid_of g.
Proof. by apply next_tid_with_sched. Qed.
Lemma next_tid_exit c g : next_tid_of (exit c g) = next_tid_of g.
Proof. apply next_tid_zombie. Qed.

Lemma spawn_next_tid tramp heap name entry arg size prio user b g :
  match spawn_inner tramp heap name entry arg size prio user b g with
  | (g', Ok tid) => tid = next_tid_of g /\ next_tid_of g' = next_tid_of g + 1
  | (g', Err _) => next_tid_of g <= next_tid_of g'
  end.
Proof.
  unfold spawn_inner, mbind, ST_bind, spawn_reserve, with_sched, lift, next_tid_of, checked_add32.
  destruct (sched g) as [s|] eqn:Eg; [|by rewrite Eg].
  destruct (next_tid s + 1 <=? U32_MAX); [|cbn; lia].
  destruct (spawn_task _ _ _ _ _ _ _ _ _) as [t|e]; [|cbn; lia].
  unfold spawn_insert, with_sched; cbn [sched]. by destruct b.
Qed.

Lemma register_kernel_inv name tid u sl k fl :
  kernel_inv k fl -> next_pid (k_pt k) < 2 ^ 32 - 1 -> tid < next_tid_of (k_sched k) -> by_tid (k_pt k) !! tid = None ->
  (forall i, sl = Some i -> i ∈ fl) ->
  kernel_inv (register_process name tid u sl k).1 (match sl with Some i => fl ∖ {[i]} | None => fl end) /\
  next_tid_of (k_sched (register_process name tid u sl k).1) = next_tid_of (k_sched k).
Proof.
  intros [I1 I2 I3 I4 I5 I6 I7] Hn Hlt Htid Hsl.
  set (par := pid_of_tid (current (k_sched k)) (k_pt k)).
  assert (Hpar : forall q, par = Some q -> exists r, table (k_pt k) !! q = Some r).
  { intros q Hq. apply (pi_tid _ I1) in Hq as (p & Hp & _). eauto. }
  set (dir := match par with Some p => match table (k_pt k) !! p with Some p => cwd p | None => "/"%string end | None => "/"%string end).
  destruct (register_inv (k_pt k) name tid par sl dir _ I1 Hn Htid Hpar eq_refl) as (J1 & J2 & J3 & J4). cbn zeta in *.
  match type of J1 with pt_inv ?x => set (pt' := x) in * end.
  set (k' := (register_process name tid u sl k).1).
  assert (Ept : k_pt k' = pt') by (unfold k', register_process, pt', par; cbn; by destruct (pid_of_tid _ _), u).
  assert (Esl : k_slots k' = k_slots k) by (unfold k', register_process; cbn; by destruct (pid_of_tid _ _), u).
  assert (Efd : k_fds k' = match par with Some q => fd_clone q (next_pid (k_pt k)) (k_fds k) | None => k_fds k end)
    by (unfold k', register_process, par; cbn; by destruct (pid_of_tid _ _), u).
  assert (Esc : next_tid_of (k_sched k') = next_tid_of (k_sched k)).
  { unfold k', register_process; cbn. destruct (pid_of_tid _ _), u; cbn; rewrite ?next_tid_user; done. }
  split; [|done]. clearbody k' pt' par. split; rewrite ?Ept, ?Esl, ?Esc; try done.
  - intros s. rewrite I3. split.
    + intros [Hs|(c & p & H1 & H2)].
      * destruct sl as [i|]; [|by left]. destruct (decide (s = i)) as [->|Hne]; [right|left; set_solver].
        eexists _, _. rewrite J2. split; [left; split; reflexivity|done].
      * right. exists c. eexists. rewrite J2. split; [right; split; [|eauto]|by case_decide].
        intros ->. apply (pi_key _ I1) in H1. lia.
    + intros [Hs|(c & p & [[-> ->]|[Hc (p0 & H0 & ->)]]%J2 & H2)].
      * left. destruct sl; [set_solver|done].
      * left. cbn in H2. by apply Hsl.
      * right. exists c, p0. split; [done|]. by case_decide.
  - intros c p c' p' s [[-> ->]|[Hc (p0 & H0 & ->)]]%J2 [[-> ->]|[Hc' (p0' & H0' & ->)]]%J2 Hs Hs'; [done| | |].
    + exfalso. cbn in Hs. apply (I5 s c' p0'); [by apply Hsl|done|by case_decide].
    + exfalso. cbn in Hs'. apply (I5 s c p0); [by apply Hsl|done|by case_decide].
    + apply (I4 c p0 c' p0' s); try done; [clear Hs'|clear Hs]; by case_decide.
  - intros s c p Hs [[-> ->]|[Hc (p0 & H0 & ->)]]%J2; cbn.
    + destruct sl as [i|]; [|done]. intros [= ->]. set_solver.
    + assert (s ∈ fl) by (destruct sl; set_solver). intros Hx. apply (I5 s c p0); try done. by case_decide.
  - intros t c. rewrite J3, lookup_insert_Some. intros [[<- <-]|[_ Ht]]; [done|eauto].
  - intros c Hc. assert (Hc' : c = next_pid (k_pt k) \/ c ∈ fd_pids (k_fds k)).
    { rewrite Efd in Hc. destruct par; [|by right]. apply fd_clone_pids in Hc as [->%elem_of_singleton|Hc]%elem_of_union; auto. }
    destruct (decide (c = next_pid (k_pt k))) as [->|Hne]; [right; eexists; rewrite J2; left; split; reflexivity|].
    destruct Hc' as [?|Hc']; [done|]. destruct (I7 c Hc') as [?|[p Hp]]; [by left|right]. eexists. rewrite J2. right. eauto.
Qed.

Lemma spawn_image_inv tramp heap path entry argv i k fl :
  kernel_inv k fl -> next_pid (k_pt k) < 2 ^ 32 - 1 -> i ∈ fl ->
  kernel_inv (spawn_image tramp heap path entry argv i k).1 (fl ∖ {[i]}).
Proof.
  intros Hk Hn Hi. unfold spawn_image, spawn_blocked.
  pose proof (spawn_next_tid tramp heap path entry argv DEFAULT_STACK_SIZE 10 true true (k_sched k)) as Hs.
  destruct (spawn_inner _ _ _ _ _ _ _ _ _ _) as [g [tid|e]].
  - destruct Hs as [-> Hg].
    assert (Hk' : kernel_inv (k_set_sched g k) fl) by (eapply kernel_inv_ext; [exact Hk|done|done|done|cbn; lia]).
    assert (Htid : by_tid (k_pt k) !! next_tid_of (k_sched k) = None).
    { destruct (by_tid (k_pt k) !! _) eqn:E; [|done]. apply (ki_tids _ _ Hk) in E. lia. }
    destruct (register_kernel_inv path (next_tid_of (k_sched k)) true (Some i) (k_set_sched g k) fl Hk') as [Hr _];
      [done|cbn; lia|done|by intros ? [= <-]|]. destruct (register_process _ _ _ _ _) as [k1 pid]. cbn [fst] in *.
    eapply kernel_inv_ext; [exact Hr|done|done|done|]. cbn. rewrite next_tid_unblock. lia.
  - destruct Hk as [I1 I2 I3 I4 I5 I6 I7]. assert (Hiu : in_use (k_slots k) i) by (apply I3; by left).
    destruct (slot_free_spec i (k_slots k) I2 (proj1 Hiu)) as [Hf1 Hf2]. split; cbn; try done.
    + intros s. rewrite Hf2, I3. split.
      * intros [[Hs'|?] Hne]; [left; set_solver|by right].
      * intros [Hs'|(c & p & H1 & H2)]; [split; [left|]; set_solver|]. split; [right; eauto|]. intros ->. by eapply I5.
    + intros s c p Hs'. apply I5. set_solver.
    + intros t c Ht. apply I6 in Ht. lia.
Qed.

Lemma sys_exit_inv args k fl : kernel_inv k fl -> kernel_inv (sys_exit args k).1 fl.
Proof.
  intros Hk. unfold sys_exit.
  destruct (match pid_of_tid _ _ with Some pid => _ | None => _ end) as [pt' par] eqn:E.
  assert (Hk' : kernel_inv (k_set_pt pt' k) fl).
  { destruct (pid_of_tid _ _) as [pid|]; [destruct (table (k_pt k) !! pid)|]; injection E as <- <-.
    - by apply kernel_inv_on.
    - by eapply kernel_inv_ext.
    - by eapply kernel_inv_ext. }
  eapply kernel_inv_ext; [exact Hk'|done|done|done|]. cbn.
  change (next_tid_of (set_need_resched ?x)) with (next_tid_of x). rewrite next_tid_zombie.
  destruct (p ← par; q ← table pt' !! p; Some (main_task q)); rewrite ?next_tid_unblock; lia.
Qed.

Lemma sys_wait_inv args k fl : kernel_inv k fl -> kernel_inv (sys_wait args k).1 fl.
Proof.
  intros Hk. unfold sys_wait. destruct (if _ =? 0 then _ else _); [|done].
  destruct (pid_of_tid _ _) as [pid|]; [|done]. destruct (negb (has_children pid k)); [done|].
  pose proof (take_zombie_spec pid k fl Hk) as Ht. destruct (take_zombie_child pid k) as [k1 [[[cpid code] sl]|]].
  - destruct Ht as (p & proc & pt' & Hp & Hc & Hproc & _ & _ & -> & E & ->). cbn [fst].
    set (k2 := if arg args 0 =? 0 then _ else _).
    assert (Hm : release (slot proc) cpid k2 = k_set_mem (k_mem k2) (release (slot proc) cpid (k_set_pt pt' k))).
    { unfold k2, release. destruct (arg args 0 =? 0), (slot proc); done. }
    rewrite Hm. eapply kernel_inv_ext; [eapply (kernel_inv_remove k fl cpid proc); eassumption|done|done|done|done].
  - destruct Ht as [-> _]. destruct (negb _); [done|]. cbn. eapply kernel_inv_ext; [exact Hk|done|done|done|].
    cbn. change (next_tid_of (set_restart_syscall ?x)) with (next_tid_of x). rewrite next_tid_block. lia.
Qed.

Lemma sys_kill_inv args k fl : kernel_inv k fl -> kernel_inv (sys_kill args k).1 fl.
Proof.
  intros Hk. unfold sys_kill. destruct (_ || _); [done|]. destruct (table _ !! _) as [p|]; [|done]. cbn [fst].
  set (k1 := k_set_pt (on_process _ (set_pending _) _) k). apply (kernel_inv_ext k1); [by apply kernel_inv_on|done|done|done|].
  cbn. change (next_tid_of (set_need_resched ?x)) with (next_tid_of x). rewrite next_tid_unblock. lia.
Qed.

Lemma sys_sigaction_inv args k fl : kernel_inv k fl -> kernel_inv (sys_sigaction args k).1 fl.
Proof.
  intros Hk. unfold sys_sigaction. destruct (_ || _); [done|]. destruct (validate_user _ _ _); [|done].
  destruct (_ =? 0); [done|]. destruct (pid_of_tid _ _) as [pid|]; [|done]. destruct (table _ !! _); [|done].
  by apply kernel_inv_on.
Qed.

Lemma sys_sigreturn_inv fr k fl : kernel_inv k fl -> kernel_inv (sys_sigreturn fr k).1.1 fl.
Proof.
  intros Hk. unfold sys_sigreturn. destruct (_ ≫= _) as [[pid proc]|]; [|done].
  destruct (saved_signal_context proc); [|done]. by apply kernel_inv_on.
Qed.

(** The signals of the running task: the operation never panics, and keeps the invariant. *)
Lemma check_signals_inv f k fl : kernel_inv k fl -> exists k' r, check_signals f k = Some (k', r) /\ kernel_inv k' fl.
Proof.
  intros Hk. unfold check_signals. destruct (negb (current_task_is_user _)); [eauto|]. destruct (negb (is_ibus _ _)); [eauto|].
  destruct (pid_of_tid _ _) as [pid|] eqn:Epid; [|eauto].
  destruct (proj1 (pi_tid _ (ki_pt _ _ Hk) _ _) Epid) as (p & Hp & _). rewrite Hp. cbn [mbind option_bind].
  destruct (_ =? 0); [eauto|]. destruct (_ =? 0); [eauto|].
  set (k1 := k_set_pt (on_process pid (set_pending _) (k_pt k)) k).
  assert (Hk1 : kernel_inv k1 fl) by (by apply kernel_inv_on).
  destruct (at_ (signal_handlers p) _ =? 0).
  - destruct (_ || _); [|eauto]. eexists _, _. split; [done|]. eapply kernel_inv_ext; [exact Hk1|done|done|done|].
    cbn [k_sched k_set_sched]. rewrite next_tid_exit. lia.
  - destruct (saved_signal_context p); [eauto|]. eexists _, _. split; [done|]. by apply kernel_inv_on.
Qed.

(** What the kernel does to its processes, with the slots in flight. *)
Inductive kstep : Kernel F D * gset Z -> Kernel F D * gset Z -> Prop :=
  | ks_slot k fl u i : slot_alloc (k_slots k) = (u, Some i) -> kstep (k, fl) (k_set_slots u k, {[i]} ∪ fl)
  | ks_unslot k fl i : i ∈ fl -> kstep (k, fl) (k_set_slots (slot_free i (k_slots k)) k, fl ∖ {[i]})
  | ks_spawn k fl tramp heap path entry argv i :
      i ∈ fl -> next_pid (k_pt k) < 2 ^ 32 - 1 ->
      kstep (k, fl) ((spawn_image tramp heap path entry argv i k).1, fl ∖ {[i]})
  | ks_register k fl name tid :
      next_pid (k_pt k) < 2 ^ 32 - 1 -> tid < next_tid_of (k_sched k) -> by_tid (k_pt k) !! tid = None ->
      kstep (k, fl) ((register_process name tid false None k).1, fl)
  | ks_exit k fl args : kstep (k, fl) ((sys_exit args k).1, fl)
  | ks_wait k fl args : kstep (k, fl) ((sys_wait args k).1, fl)
  | ks_kill k fl args : kstep (k, fl) ((sys_kill args k).1, fl)
  | ks_sigaction k fl args : kstep (k, fl) ((sys_sigaction args k).1, fl)
  | ks_sigreturn k fl fr : kstep (k, fl) ((sys_sigreturn fr k).1.1, fl)
  | ks_signals k fl f k' r : check_signals f k = Some (k', r) -> kstep (k, fl) (k', fl)
  | ks_reap k fl pid : kstep (k, fl) (reap pid k, fl)
  | ks_orphans k fl : kstep (k, fl) (reap_orphans k, fl)
  | ks_sched k fl g : next_tid_of (k_sched k) <= next_tid_of g -> kstep (k, fl) (k_set_sched g k, fl)
  | ks_mem k fl m : kstep (k, fl) (k_set_mem m k, fl).

Inductive ksteps : Kernel F D * gset Z -> Kernel F D * gset Z -> Prop :=
  | kss_nil x : ksteps x x
  | kss_cons x y z : kstep x y -> ksteps y z -> ksteps x z.

Lemma slot_alloc_kernel_inv k fl u i :
  kernel_inv k fl -> slot_alloc (k_slots k) = (u, Some i) -> kernel_inv (k_set_slots u k) ({[i]} ∪ fl).
Proof.
  intros [I1 I2 I3 I4 I5 I6 I7] E. pose proof (slot_alloc_spec (k_slots k) I2) as Hs. rewrite E in Hs.
  destruct Hs as (_ & Hfree & _ & Hu & Hin). split; cbn; try done.
  - intros s. rewrite Hin, I3. set_solver.
  - intros s c p [->%elem_of_singleton|Hs]%elem_of_union Hp; [|by eapply I5]. intros Hsl. apply Hfree, I3. eauto.
Qed.

Lemma slot_free_kernel_inv k fl i : kernel_inv k fl -> i ∈ fl -> kernel_inv (k_set_slots (slot_free i (k_slots k)) k) (fl ∖ {[i]}).
Proof.
  intros [I1 I2 I3 I4 I5 I6 I7] Hi. assert (Hiu : in_use (k_slots k) i) by (apply I3; by left).
  destruct (slot_free_spec i (k_slots k) I2 (proj1 Hiu)) as [Hf1 Hf2]. split; cbn; try done.
  - intros s. rewrite Hf2, I3. split.
    + intros [[Hs'|?] Hne]; [left; set_solver|by right].
    + intros [Hs'|(c & p & H1 & H2)]; [split; [left|]; set_solver|]. split; [right; eauto|]. intros ->. by eapply I5.
  - intros s c p Hs'. apply I5. set_solver.
Qed.

Lemma kstep_inv x y : kstep x y -> kernel_inv x.1 x.2 -> kernel_inv y.1 y.2.
Proof.
  destruct 1; cbn [fst snd]; intros Hk.
  - by apply slot_alloc_kernel_inv.
  - by apply slot_free_kernel_inv.
  - by apply spawn_image_inv.
  - by apply (register_kernel_inv name tid false None k fl).
  - by apply sys_exit_inv.
  - by apply sys_wait_inv.
  - by apply sys_kill_inv.
  - by apply sys_sigaction_inv.
  - by apply sys_sigreturn_inv.
  - destruct (check_signals_inv f k fl Hk) as (k2 & r2 & E & Hk2). congruence.
  - by apply reap_inv_kernel.
  - by apply foldl_reap_inv.
  - by eapply kernel_inv_ext.
  - by eapply kernel_inv_ext.
Qed.

Lemma ksteps_inv x y : ksteps x y -> kernel_inv x.1 x.2 -> kernel_inv y.1 y.2.
Proof. induction 1 as [|x y z Hs _ IH]; intros Hk; [done|]. by apply IH, (kstep_inv x). Qed.

(** At boot: no process, no slot in use, and the descriptors of the kernel (pid 0) only. *)
Definition boot_kernel (k : Kernel F D) : Prop :=
  table (k_pt k) = ∅ /\ by_tid (k_pt k) = ∅ /\ next_pid (k_pt k) = 1 /\ k_slots k = 0 /\ fd_pids (k_fds k) ⊆ {[0]}.

Lemma boot_inv k : boot_kernel k -> kernel_inv k ∅.
Proof.
  intros (E1 & E2 & E3 & E4 & E5). split; rewrite ?E1, ?E2, ?E4; try done.
  - split; rewrite ?E1, ?E2, ?E3; try done. intros t c. rewrite lookup_empty. split; [done|]. intros (p & Hp & _). by rewrite lookup_empty in Hp.
  - intros s. unfold in_use. rewrite Z.bits_0. split; [by intros []|]. intros [?|(c & p & Hp & _)]; [set_solver|]. by rewrite lookup_empty in Hp.
  - intros c Hc. left. set_solver.
Qed.

Lemma ksteps_boot_inv k0 k fl : boot_kernel k0 -> ksteps (k0, ∅) (k, fl) -> kernel_inv k fl.
Proof. intros Hb Hs. exact (ksteps_inv _ _ Hs (boot_inv _ Hb)). Qed.

(** ** Signals *)

Lemma land_shiftl_1 z i : 0 <= i -> (Z.land z (Z.shiftl 1 i) =? 0) = negb (Z.testbit z i).
Proof.
  intros Hi. destruct (Z.testbit z i) eqn:E; cbn [negb].
  - apply Z.eqb_neq. intros Hz. assert (Hb : Z.testbit (Z.land z (Z.shiftl 1 i)) i = false) by (rewrite Hz; apply Z.bits_0).
    rewrite Z.land_spec, E, Z.shiftl_spec, Z.sub_diag in Hb by lia. done.
  - apply Z.eqb_eq, Z.bits_inj'. intros n Hn. rewrite Z.land_spec, Z.shiftl_spec, testbit_1, Z.bits_0 by lia.
    destruct (Z.eqb_spec (n - i) 0); [replace n with i by lia; by rewrite E|apply andb_false_r].
Qed.

Lemma lowest_signal_from n : forall pending s, 0 < s ->
  let sig := lowest_signal pending s n in
  (sig = 0 /\ forall j, s <= j < s + Z.of_nat n -> Z.testbit pending j = false) \/
  (s <= sig < s + Z.of_nat n /\ Z.testbit pending sig = true /\ forall j, s <= j < sig -> Z.testbit pending j = false).
Proof.
  induction n as [|n IH]; intros pending s Hs; cbn [lowest_signal]; [left; split; [done|lia]|].
  rewrite land_shiftl_1 by lia. destruct (Z.testbit pending s) eqn:E; cbn [negb]; [right; split; [lia|split; [done|lia]]|].
  destruct (IH pending (s + 1) ltac:(lia)) as [[-> H1]|(H1 & H2 & H3)]; [left|right].
  - split; [done|]. intros j Hj. destruct (decide (j = s)) as [->|]; [done|apply H1; lia].
  - split; [lia|]. split; [done|]. intros j Hj. destruct (decide (j = s)) as [->|]; [done|apply H3; lia].
Qed.

Definition least_pending (pending sig : Z) : Prop :=
  1 <= sig < 32 /\ Z.testbit pending sig = true /\ forall j, 1 <= j < sig -> Z.testbit pending j = false.

Lemma lowest_signal_spec pending sig : least_pending pending sig -> lowest_signal pending 1 31 = sig.
Proof.
  intros (H1 & H2 & H3). destruct (lowest_signal_from 31 pending 1 ltac:(lia)) as [[_ H4]|(H4 & H5 & H6)].
  - rewrite H4 in H2 by lia. done.
  - destruct (Z.lt_trichotomy (lowest_signal pending 1 31) sig) as [|[|]]; [|done|].
    + rewrite H3 in H5 by lia. done.
    + rewrite H6 in H2 by lia. done.
Qed.

(** The running task is a user program, of process [pid], at an address of its own text. *)
Record in_user (f : F) k pid p : Prop := mkInUser {
  iu_user : current_task_is_user (k_sched k) = true;
  iu_pc : is_ibus (fr_PC f) 1 = true;
  iu_pid : pid_of_tid (current (k_sched k)) (k_pt k) = Some pid;
  iu_proc : table (k_pt k) !! pid = Some p;
}.

Definition cleared (sig : Z) p : Process F := set_pending (Z.land (pending_signals p) (not32 (Z.shiftl 1 sig))) p.

Lemma check_signals_spec f k pid p sig :
  in_user f k pid p -> least_pending (pending_signals p) sig ->
  let k1 := k_set_pt (on_process pid (set_pending (Z.land (pending_signals p) (not32 (Z.shiftl 1 sig)))) (k_pt k)) k in
  check_signals f k =
    Some (if at_ (signal_handlers p) sig =? 0 then
            if (sig =? 9) || (sig =? 2) || (sig =? 15) then (k_set_sched (exit (- sig) (k_sched k)) k1, SigExit (- sig))
            else (k1, SigNone)
          else
            match saved_signal_context p with
            | Some _ => (k1, SigNone)
            | None => (k_set_pt (on_process pid (set_saved (Some f)) (k_pt k1)) k1,
                SigDelivered (fr_set_A0 (u32 (at_ (signal_restorers p) sig)) (fr_set_A2 (u32 sig) (fr_set_PC (u32 (at_ (signal_handlers p) sig)) f))))
            end).
Proof.
  intros [H1 H2 H3 H4] Hsig. unfold check_signals. rewrite H1, H2, H3, H4. cbn [negb mbind option_bind].
  rewrite (lowest_signal_spec _ _ Hsig). destruct Hsig as (Hr & Hb & _).
  destruct (Z.eqb_spec (pending_signals p) 0) as [E|_]; [rewrite E, Z.bits_0 in Hb; done|].
  destruct (Z.eqb_spec sig 0); [lia|]. destruct (_ =? 0); [by destruct (_ || _)|by destruct (saved_signal_context p)].
Qed.

Lemma table_on_process pid f pt p : table pt !! pid = Some p -> table (on_process pid f pt) !! pid = Some (f p).
Proof. intros Hp. by rewrite lookup_on_process, decide_True, Hp. Qed.

Lemma check_signals_sched f k k' r :
  check_signals f k = Some (k', r) -> k_sched k' = k_sched k \/ exists code, k_sched k' = exit code (k_sched k).
Proof.
  unfold check_signals. destruct (negb _); [intros [= <- _]; by left|]. destruct (negb _); [intros [= <- _]; by left|].
  destruct (pid_of_tid _ _) as [pid|]; [|intros [= <- _]; by left]. destruct (table (k_pt k) !! pid) as [p|]; [|done].
  cbn [mbind option_bind]. destruct (_ =? 0); [intros [= <- _]; by left|]. destruct (_ =? 0); [intros [= <- _]; by left|].
  destruct (_ =? 0).
  - destruct (_ || _); intros [= <- _]; [right; by eexists|by left].
  - destruct (saved_signal_context p); intros [= <- _]; by left.
Qed.

(** ** The regions of a program *)

(** The bytes a user program may hand to the kernel: its stack and its data slot. *)
Definition owns k (a : Z) : Prop :=
  (exists lo hi, current_stack_range (k_sched k) = Some (lo, hi) /\ lo <= a < hi) \/
  (exists i, current_slot k = Some i /\ slot_data (k_data_base k) i <= a < u32 (slot_data (k_data_base k) i + SLOT_SIZE)).

Lemma user_region_end_spec ptr k hi :
  user_region_end ptr k = Ok hi ->
  ptr <> 0 /\ match hi with
  | None => current_task_is_user (k_sched k) = false
  | Some hi => ptr < hi /\ forall a, ptr <= a < hi -> owns k a
  end.
Proof.
  unfold user_region_end. destruct (Z.eqb_spec ptr 0); [done|].
  destruct (current_task_is_user _); cbn [negb]; [|by intros [= <-]].
  set (in_slot := match current_slot k with Some _ => _ | None => _ end).
  assert (Hs : in_slot = Ok hi -> ptr <> 0 /\ match hi with
    | None => true = false | Some hi => ptr < hi /\ forall a, ptr <= a < hi -> owns k a end).
  { unfold in_slot. destruct (current_slot k) as [i|] eqn:Es; [|done]. destruct (_ && _) eqn:Eb; [|done]. intros [= <-].
    apply andb_true_iff in Eb as [Hlo%Z.leb_le Hhi%Z.ltb_lt]. split; [done|]. split; [done|]. intros a Ha. right. exists i. split; [done|lia]. }
  destruct (current_stack_range (k_sched k)) as [[lo hi']|] eqn:Er; [|done].
  destruct (_ && _) eqn:Eb; [|done]. intros [= <-].
  apply andb_true_iff in Eb as [Hlo%Z.leb_le Hhi%Z.ltb_lt]. split; [done|]. split; [done|]. intros a Ha. left. exists lo, hi'. split; [done|lia].
Qed.

Lemma validate_user_spec ptr len k :
  validate_user ptr len k = Ok tt -> current_task_is_user (k_sched k) = true -> forall a, ptr <= a < ptr + len -> owns k a.
Proof.
  unfold validate_user. destruct (Z.eqb_spec len 0); [intros; lia|]. intros E Hu a Ha.
  apply KResult_bind_Ok in E as (e & He & E). apply KResult_bind_Ok in E as (r & Hr & E).
  apply ok_or_Ok in He. unfold checked_add32 in He. destruct (_ <=? _); [|done]. injection He as <-.
  apply user_region_end_spec in Hr as [_ Hr]. destruct r as [hi|]; [|congruence].
  destruct (Z.leb_spec (ptr + len) hi); [|done]. apply Hr. lia.
Qed.

Lemma strnlen_loop_spec mem fuel : forall ptr n r,
  strnlen_loop mem ptr n fuel = Ok r ->
  n <= r < n + Z.of_nat fuel /\ mem (ptr + r) = 0 /\ forall j, n <= j < r -> mem (ptr + j) <> 0.
Proof.
  induction fuel as [|fuel IH]; intros ptr n r; cbn [strnlen_loop]; [done|].
  destruct (Z.eqb_spec (mem (ptr + n)) 0) as [E|E].
  - intros [= <-]. split; [lia|]. split; [done|lia].
  - intros Hr. apply IH in Hr as (H1 & H2 & H3). split; [lia|]. split; [done|]. intros j Hj.
    destruct (decide (j = n)) as [->|]; [done|apply H3; lia].
Qed.

Lemma user_strnlen_spec ptr k n :
  user_strnlen ptr k = Ok n -> current_task_is_user (k_sched k) = true ->
  0 <= n /\ (forall a, ptr <= a <= ptr + n -> owns k a) /\ k_mem k (ptr + n) = 0 /\ forall j, 0 <= j < n -> k_mem k (ptr + j) <> 0.
Proof.
  unfold user_strnlen. intros E Hu. apply KResult_bind_Ok in E as (r & Hr & E).
  apply user_region_end_spec in Hr as [_ Hr]. destruct r as [hi|]; [|congruence]. cbn [default id] in E.
  apply strnlen_loop_spec in E as (H1 & H2 & H3). split; [lia|]. split; [|done]. intros a Ha. apply Hr. lia.
Qed.

(** The string that the pointer at [a] of the array names: all in memory the program owns. *)
Definition arg_at k (a : Z) (str : string) : Prop :=
  exists n, (forall b, a <= b < a + 4 -> owns k b) /\
    (forall b, read_word (k_mem k) a <= b <= read_word (k_mem k) a + n -> owns k b) /\
    from_utf8 (read_mem (k_mem k) (read_word (k_mem k) a) (Z.to_nat n)) = Some str.

Lemma user_argv_loop_spec k fuel : current_task_is_user (k_sched k) = true -> forall a out l,
  0 <= a -> len out <= MAX_ARGC -> user_argv_loop a out k fuel = Ok l ->
  exists l', l = out ++ l' /\ len l <= MAX_ARGC /\ read_word (k_mem k) (a + 4 * len l') = 0 /\
    forall i str, l' !! i = Some str -> arg_at k (a + 4 * Z.of_nat i) str.
Proof.
  intros Hu. induction fuel as [|fuel IH]; intros a out l Ha Ho; cbn [user_argv_loop]; [done|].
  destruct (Z.eqb_spec (len out) MAX_ARGC); [done|]. intros E.
  apply KResult_bind_Ok in E as ([] & Hv & E). destruct (Z.eqb_spec (read_word (k_mem k) a) 0) as [Hz|Hz].
  - injection E as <-. exists []. rewrite app_nil_r. split; [done|]. split; [done|]. split; [by rewrite Z.add_0_r|by intros i str Hi%list_elem_of_lookup_2%not_elem_of_nil].
  - apply KResult_bind_Ok in E as (n' & Hn & E). apply KResult_bind_Ok in E as (str & Hstr & E).
    assert (Hw : u32 (a + 4) = a + 4).
    { unfold validate_user in Hv. cbn [Z.eqb] in Hv. apply KResult_bind_Ok in Hv as (e & He & _). apply ok_or_Ok in He.
      unfold checked_add32, U32_MAX in He. destruct (Z.leb_spec (a + 4) (2 ^ 32 - 1)); [|done]. apply u32_small. lia. }
    rewrite Hw in E. apply IH in E as (l' & -> & Hle & Hend & Hl'); [|lia|rewrite length_app; cbn; unfold MAX_ARGC in *; lia].
    exists (str :: l'). split; [by rewrite <- app_assoc|]. split; [done|]. split.
    + rewrite <- Hend. f_equal. cbn [length]. lia.
    + intros [|i] s Hs; cbn in Hs.
      * injection Hs as <-. exists n'. replace (a + 4 * Z.of_nat 0) with a by lia.
        split; [by apply validate_user_spec|]. apply ok_or_Ok in Hstr.
        destruct (user_strnlen_spec _ _ _ Hn Hu) as (_ & Ho' & _). done.
      * replace (a + 4 * Z.of_nat (S i)) with (a + 4 + 4 * Z.of_nat i) by lia. by apply Hl'.
Qed.

(** ** The theorems *)

(** C9. Whatever sequence of slot claims, process creations, exits, waits, kills,
    signal handlings, reaps and sweeps follows the boot: the map from task ids is
    exactly the reverse of the table; parents and children agree, and a parent has a
    smaller pid than its children (the processes form a forest); each slot in use
    belongs to exactly one process or loader, and every other slot is free; only
    live processes (and pid 0) have descriptors; and [check_signals] does not panic. *)
Theorem processes_consistent k0 k fl :
  boot_kernel k0 -> ksteps (k0, ∅) (k, fl) ->
  (forall t c, by_tid (k_pt k) !! t = Some c <-> exists p, table (k_pt k) !! c = Some p /\ main_task p = t) /\
  (forall c q, (exists p, table (k_pt k) !! c = Some p /\ parent_pid p = Some q) <->
     (exists r, table (k_pt k) !! q = Some r /\ c ∈ children r)) /\
  (forall c p q, table (k_pt k) !! c = Some p -> parent_pid p = Some q -> 1 <= q < c) /\
  (forall s, in_use (k_slots k) s <-> s ∈ fl \/ exists c p, table (k_pt k) !! c = Some p /\ slot p = Some s) /\
  (forall c p c' p' s, table (k_pt k) !! c = Some p -> table (k_pt k) !! c' = Some p' ->
     slot p = Some s -> slot p' = Some s -> c = c') /\
  (forall c, c ∈ fd_pids (k_fds k) -> c = 0 \/ is_Some (table (k_pt k) !! c)) /\
  (forall f, check_signals f k <> None).
Proof.
  intros Hb Hs. pose proof (ksteps_boot_inv _ _ _ Hb Hs) as Hk.
  pose proof Hk as [Hpt _ H3 H4 _ _ H7]. pose proof Hpt as [K1 K2 K3 K4 _].
  split; [done|]. split; [|split; [|split; [done|split; [done|split; [done|]]]]].
  - intros c q. split.
    + intros (p & Hp & Hq). destruct (K3 _ _ _ Hp Hq) as (_ & r & Hr). eauto.
    + intros (r & Hr & Hc). by apply (K4 _ _ Hr).
  - intros c p q Hp Hq. destruct (K3 _ _ _ Hp Hq) as (Hlt & r & Hr & _). apply K1 in Hr. lia.
  - intros f. destruct (check_signals_inv f k fl Hk) as (k' & r & E & _). by rewrite E.
Qed.

(** C10. Exit and wait: when the running process ends, its parent waiting in
    [sys_wait] is made ready, at the end of the queue, the exiting task is a zombie,
    and a switch is due; and the call the parent then repeats answers a child that
    ended and its exit code, takes it off the table, and hands back its slot and its
    descriptors. *)
Theorem exit_then_wait args k fl s c child q r t :
  kernel_inv k fl -> sched (k_sched k) = Some s -> pid_of_tid (current_ s) (k_pt k) = Some c ->
  table (k_pt k) !! c = Some child -> parent_pid child = Some q -> table (k_pt k) !! q = Some r ->
  tasks s !! main_task r = Some t -> t_state t = Blocked ->
  let k' := (sys_exit args k).1 in
  exists s' t', sched (k_sched k') = Some s' /\ tasks s' !! main_task r = Some t' /\ t_state t' = Ready /\
    main_task r ∈ ready s' /\ (forall u, tasks s' !! current_ s = Some u -> t_state u = Zombie) /\
    need_resched (k_sched k') = true /\
    forall k'' options, k_pt k'' = k_pt k' -> kernel_inv k'' fl -> current (k_sched k'') = main_task r ->
      exists cpid p k3, sys_wait [0; options] k'' = (k3, cpid) /\ cpid ∈ children r /\
        table (k_pt k'') !! cpid = Some p /\ p_state p = PZombie /\ (cpid = c -> p_exit_code p = as_i32 (arg args 0)) /\
        table (k_pt k3) !! cpid = None /\ ~ (cpid ∈ fd_pids (k_fds k3)) /\ (forall i, slot p = Some i -> ~ in_use (k_slots k3) i).
Proof.
  intros Hk Hg Hpid Hc Hpar Hr Ht Hst k'.
  pose proof (ki_pt _ _ Hk) as Hpt. destruct (pi_parent _ Hpt _ _ _ Hc Hpar) as (Hqc & r0 & Hr0 & Hcr). simplify_eq.
  assert (Hne : main_task r <> current_ s).
  { intros E. assert (E1 : by_tid (k_pt k) !! main_task r = Some q) by (apply (pi_tid _ Hpt); eauto).
    rewrite E in E1. unfold pid_of_tid in Hpid. rewrite E1 in Hpid. injection Hpid as ->. lia. }
  set (pt' := on_process c (set_exited (as_i32 (arg args 0))) (k_pt k)).
  assert (Ek' : k' = k_set_sched (set_need_resched (mark_zombie (as_i32 (arg args 0)) (unblock_task (main_task r) (k_sched k)))) (k_set_pt pt' k)).
  { unfold k', sys_exit. unfold current. rewrite Hg, Hpid, Hc. cbn [fst]. rewrite Hpar. cbn [mbind option_bind].
    change (table (on_process c (set_exited (as_i32 (arg args 0))) (k_pt k)) !! q) with (table pt' !! q).
    unfold pt' at 1. rewrite lookup_on_process, decide_False, Hr by lia. done. }
  clearbody k'. subst k'. cbn [k_sched k_set_sched k_pt k_set_pt].
  unfold unblock_task, mark_zombie, with_sched. rewrite Hg, Ht. rewrite decide_True by done. cbn [fst sched need_resched set_need_resched].
  eexists _, (set_state Ready t). split; [reflexivity|].
  cbn [tasks ready current_ set_ready on_task set_tasks]. split.
  { rewrite lookup_alter_ne by done. by rewrite lookup_alter_eq, Ht. }
  split; [done|]. split.
  { apply list_elem_of_filter. split; [done|]. apply elem_of_app. right. by apply list_elem_of_singleton. }
  split.
  { intros u Hu. rewrite lookup_alter_eq in Hu. by apply fmap_Some in Hu as (u0 & _ & ->). }
  split; [done|]. intros k'' options Ept Hk'' Hcur.
  assert (Hr'' : table (k_pt k'') !! q = Some r) by (rewrite Ept; unfold pt'; by rewrite lookup_on_process, decide_False by lia).
  assert (Hc'' : table (k_pt k'') !! c = Some (set_exited (as_i32 (arg args 0)) child)) by (rewrite Ept; by apply table_on_process).
  assert (Hpid'' : pid_of_tid (current (k_sched k'')) (k_pt k'') = Some q).
  { apply (pi_tid _ (ki_pt _ _ Hk'')). rewrite Hcur. eauto. }
  unfold sys_wait. cbn [arg at_]. change (arg [0; options] 0) with 0. cbn [Z.eqb]. rewrite Hpid''.
  assert (Hch : has_children q k'' = true).
  { unfold has_children. rewrite Hr''. rewrite bool_decide_false; [done|]. intros E. rewrite E in Hcr. by apply not_elem_of_nil in Hcr. }
  rewrite Hch. cbn [negb]. pose proof (take_zombie_spec q k'' fl Hk'') as Hz.
  destruct (take_zombie_child q k'') as [k1 [[[cpid code] sl]|]].
  - destruct Hz as (p & proc & pt1 & Hp & Hcp & Hproc & Hzs & -> & -> & E & ->). simplify_eq.
    exists cpid, proc, (release (slot proc) cpid (k_set_pt pt1 k'')). split; [done|]. split; [done|]. split; [done|]. split; [done|].
    split; [intros ->; simplify_eq; done|].
    pose proof (kernel_inv_remove _ _ _ _ _ Hk'' Hproc E) as Hk3.
    destruct (remove_process_spec _ _ _ (ki_pt _ _ Hk'') Hproc) as (pt2 & E2 & Hl2 & _). rewrite E2 in E. injection E as ->.
    assert (Hgone : table (k_pt (release (slot proc) cpid (k_set_pt pt1 k''))) !! cpid = None).
    { unfold release. destruct (slot proc); cbn; rewrite Hl2, decide_True by done; done. }
    split; [done|]. split.
    + unfold release. destruct (slot proc); cbn; rewrite fd_cleanup_pids; set_solver.
    + intros i Hi. unfold release. rewrite Hi. cbn.
      assert (Hu : in_use (k_slots k'') i) by (apply (ki_slots _ _ Hk''); right; eauto).
      rewrite (proj2 (slot_free_spec i (k_slots k'') (ki_used _ _ Hk'') (proj1 Hu))). tauto.
  - destruct Hz as [_ Hz]. exfalso. specialize (Hz r c _ Hr'' Hcr Hc''). done.
Qed.

(** A parent with live children and nothing to reap blocks in [sys_wait] and the
    call is restarted: what the trap saves as its frame is the frame of the call
    itself, untouched, so the task repeats the call when it is woken; and another
    task runs. *)
Theorem wait_blocks args frame k fl s q r :
  kernel_inv k fl -> sched (k_sched k) = Some s -> sched_inv s -> current_ s <> idle s ->
  restart_syscall (k_sched k) = false ->
  pid_of_tid (current_ s) (k_pt k) = Some q -> table (k_pt k) !! q = Some r -> children r <> [] ->
  (forall c p, c ∈ children r -> table (k_pt k) !! c = Some p -> p_state p = PRunning) ->
  (arg args 0 = 0 \/ validate_user (arg args 0) 4 k = Ok tt) -> Z.land (arg args 1) 1 = 0 ->
  exists k1, sys_wait args k = (k1, 0) /\
  exists k2 res f2, syscall_return 0 frame k1 = Some (k2, res, f2) /\
    exists s2 t2, sched (k_sched k2) = Some s2 /\ restart_syscall (k_sched k2) = false /\
      tasks s2 !! current_ s = Some t2 /\ t_state t2 = Blocked /\ t_context t2 = frame /\
      current_ s2 <> current_ s.
Proof.
  intros Hk Hg Hi Hni Hrs Hpid Hr Hch Hrun Hptr Hopt.
  set (g1 := set_restart_syscall (block_current_noswitch (k_sched k))). exists (k_set_sched g1 k). split.
  { unfold sys_wait, current. rewrite Hg, Hpid.
    assert (Hv : (if arg args 0 =? 0 then Ok tt else validate_user (arg args 0) 4 k) = Ok tt)
      by (destruct Hptr as [->|Hv]; [done|by destruct (_ =? 0)]).
    rewrite Hv. assert (Hhc : has_children q k = true) by (unfold has_children; rewrite Hr; by rewrite bool_decide_false).
    rewrite Hhc. cbn [negb]. pose proof (take_zombie_spec q k fl Hk) as Hz.
    destruct (take_zombie_child q k) as [k1 [[[cpid code] sl]|]].
    - destruct Hz as (p & proc & _ & Hp & Hc & Hproc & Hz & _). simplify_eq. rewrite (Hrun _ _ Hc Hproc) in Hz. done.
    - destruct Hz as [-> _]. by rewrite Hopt. }
  pose proof (retire_inv s (current_ s) (set_state Blocked) Blocked eq_refl Hni (or_introl eq_refl) (fun t => conj eq_refl eq_refl) Hi) as Hi1.
  set (s1 := set_ready (filter (fun x => x <> current_ s) (ready s)) (on_task (current_ s) (set_state Blocked) s)) in *.
  assert (Hg1 : g1 = mkSchedState (Some s1) true true) by (unfold g1, block_current_noswitch, with_sched; by rewrite Hg).
  unfold syscall_return. cbn [k_sched k_set_sched]. rewrite Hg1. cbn [take_restart_syscall restart_syscall need_resched sched].
  set (g2 := mkSchedState (Some s1) true false).
  destruct (switch_spec g2 s1 frame eq_refl Hi1) as (s2 & t & E & H1 & H2 & H3 & H4 & H5 & H6 & H7 & H8 & H9 & _).
  rewrite E. cbn [mbind option_bind].
  set (k2 := k_set_sched _ _).
  assert (Hk2 : kernel_inv k2 fl).
  { eapply kernel_inv_ext; [exact Hk|done|done|done|]. unfold k2, next_tid_of. cbn. rewrite Hg.
    destruct (switch_spec g2 s1 frame eq_refl Hi1) as (s2' & t' & E' & _ & _ & _ & _ & _ & _ & _ & _ & _ & _ & Hn).
    rewrite E in E'. injection E' as <- _. rewrite Hn. done. }
  assert (Htc : exists tc, tasks s1 !! current_ s = Some tc /\ t_state tc = Blocked).
  { destruct (inv_cur _ Hi) as [tc Htc]. exists (set_state Blocked tc). cbn. by rewrite lookup_alter_eq, Htc. }
  destruct Htc as (tc & Htc & Hbl).
  assert (Hp : tasks (park_current (current_ s1) frame (reap_zombies_except (current_ s1) s1)) !! current_ s = Some (parked frame tc)).
  { rewrite lookup_parked_reaped, Htc by done. by rewrite decide_True by done. }
  assert (Hps : t_state (parked frame tc) = Blocked) by (unfold parked; rewrite decide_False by congruence; done).
  set (pk := park_current _ _ _) in *.
  assert (Hne : current_ s2 <> current_ s).
  { intros Ec. destruct H2 as [(i & pr & Hb & _)|[Hid _]].
    - apply list_elem_of_lookup_2, (inv_ready _ H3) in Hb as (u & Hu & Hus & _). rewrite Ec in Hu. congruence.
    - destruct (park_spec _ frame (reap_inv s1 Hi1)) as (_ & _ & _ & _ & _ & Hidp).
      destruct (reap_spec s1 (current_ s1)) as (_ & _ & Rc & Ri & _). rewrite Rc in Hidp. fold pk in Hidp.
      rewrite Hid, Hidp, Ri in Ec. by apply Hni. }
  assert (Ht2 : tasks s2 !! current_ s = Some (parked frame tc)) by (rewrite H4, lookup_alter_ne by done; done).
  match goal with |- context [check_signals ?f k2] => destruct (check_signals_inv f k2 fl Hk2) as (k3 & r3 & Es & Hk3) end.
  rewrite Es. cbn [mbind option_bind]. do 3 eexists. split; [reflexivity|].
  destruct (check_signals_sched _ _ _ _ Es) as [Ek|[code Ek]]; rewrite Ek.
  - exists s2, (parked frame tc). split; [done|]. split; [done|]. by rewrite Ht2.
  - eexists _, (parked frame tc). split; [by apply exit_sched|]. split; [done|]. unfold retire. cbn.
    by rewrite lookup_alter_ne, Ht2 by done.
Qed.

(** What a program resumes with when the trap has put the answer 0 of [sigreturn] in
    the frame the handler had restored: [A2] is lost, and the program counter is past
    three more bytes. *)
Definition resumed (f : F) : F := fr_set_PC (u32 (fr_PC f + SYSCALL_INSN_LEN)) (fr_set_A2 0 f).

(** The frame a handler is entered with. *)
Definition entered (sig : Z) p (f : F) : F :=
  fr_set_A0 (u32 (at_ (signal_restorers p) sig)) (fr_set_A2 (u32 sig) (fr_set_PC (u32 (at_ (signal_handlers p) sig)) f)).

Lemma check_signals_deliver f k pid p sig :
  in_user f k pid p -> least_pending (pending_signals p) sig -> at_ (signal_handlers p) sig <> 0 ->
  saved_signal_context p = None ->
  exists k1, check_signals f k = Some (k1, SigDelivered (entered sig p f)) /\
    table (k_pt k1) !! pid = Some (set_saved (Some f) (cleared sig p)) /\
    (forall c, c <> pid -> table (k_pt k1) !! c = table (k_pt k) !! c) /\ k_sched k1 = k_sched k.
Proof.
  intros Hu Hsig Hh Hs. pose proof (check_signals_spec f k pid p sig Hu Hsig) as E. cbn zeta in E.
  destruct (Z.eqb_spec (at_ (signal_handlers p) sig) 0); [done|]. rewrite Hs in E. eexists. split; [exact E|].
  destruct Hu as [_ _ H3 H4]. cbn [k_pt k_set_pt k_sched]. split; [|split; [|done]].
  - by erewrite table_on_process by (by apply table_on_process).
  - intros c Hc. by rewrite !lookup_on_process, !decide_False by done.
Qed.

(** The trap of a [sigreturn] with a frame saved, up to the scheduler and the signals. *)
Lemma sigreturn_trap_eq k pid p f f2 :
  pid_of_tid (current (k_sched k)) (k_pt k) = Some pid -> table (k_pt k) !! pid = Some p ->
  saved_signal_context p = Some f -> restart_syscall (k_sched k) = false -> need_resched (k_sched k) = false ->
  let k2 := k_set_pt (on_process pid (set_saved None) (k_pt k)) k in
  sys_sigreturn (Some f2) k = (k2, Some f, 0) /\
  sigreturn_trap f2 k =
    (s ← check_signals (resumed f) k2;
     Some (s.1, s.2, match s.2 with SigDelivered f' => f' | _ => resumed f end)).
Proof.
  intros Hpid Hp Hs Hr Hn k2.
  assert (E : sys_sigreturn (Some f2) k = (k2, Some f, 0)).
  { unfold sys_sigreturn. rewrite Hpid. cbn [mbind option_bind]. rewrite Hp. cbn [mbind option_bind]. by rewrite Hs. }
  split; [done|]. unfold sigreturn_trap. rewrite E. unfold syscall_return.
  assert (Ek : k_set_sched (k_sched k2) k2 = k2) by done.
  assert (Et : take_restart_syscall (k_sched k2) = (k_sched k2, false)).
  { unfold k2. cbn [k_sched k_set_pt]. destruct (k_sched k) as [o n r]. cbn in Hr |- *. by subst r. }
  assert (Hn2 : need_resched (k_sched k2) = false) by done.
  rewrite Et, Hn2. cbn [mbind option_bind sw_frame default]. rewrite Ek.
  change (id f) with f. change (u32 0) with 0. fold (resumed f). by destruct (check_signals (resumed f) k2) as [[k3 r3]|].
Qed.

(** C11. Delivery of a signal and the way back, through the trap.  A program of user
    text with no handler active: its lowest pending signal that has a handler enters
    it at its address, with the signal in [A2] and the restorer in [A0]; its pending
    bit is cleared and the interrupted frame is kept, and no other process changes.
    When the program makes its [sigreturn], in whatever state the kernel is then (the
    frame still kept, no restart and no switch pending), the handler puts the kept
    frame back and forgets it; but the trap then writes its answer there, so what the
    program resumes with is that frame with [A2] zeroed and the program counter three
    bytes further.  And signals are let in again: the lowest one then pending enters
    its handler from that frame. *)
Theorem signal_roundtrip f k pid p sig :
  in_user f k pid p -> least_pending (pending_signals p) sig -> at_ (signal_handlers p) sig <> 0 ->
  saved_signal_context p = None ->
  (exists k1, check_signals f k = Some (k1, SigDelivered (entered sig p f)) /\
    table (k_pt k1) !! pid = Some (set_saved (Some f) (cleared sig p)) /\
    (forall c, c <> pid -> table (k_pt k1) !! c = table (k_pt k) !! c) /\ k_sched k1 = k_sched k) /\
  forall k' p' f2, pid_of_tid (current (k_sched k')) (k_pt k') = Some pid -> table (k_pt k') !! pid = Some p' ->
    saved_signal_context p' = Some f -> restart_syscall (k_sched k') = false -> need_resched (k_sched k') = false ->
    exists k2, sys_sigreturn (Some f2) k' = (k2, Some f, 0) /\ table (k_pt k2) !! pid = Some (set_saved None p') /\
      (forall c, c <> pid -> table (k_pt k2) !! c = table (k_pt k') !! c) /\ k_sched k2 = k_sched k' /\
      (pending_signals p' = 0 -> sigreturn_trap f2 k' = Some (k2, SigNone, resumed f)) /\
      (forall sig', current_task_is_user (k_sched k') = true -> is_ibus (fr_PC (resumed f)) 1 = true ->
         least_pending (pending_signals p') sig' -> at_ (signal_handlers p') sig' <> 0 ->
         exists k3, sigreturn_trap f2 k' =
             Some (k3, SigDelivered (entered sig' p' (resumed f)), entered sig' p' (resumed f)) /\
           table (k_pt k3) !! pid = Some (set_saved (Some (resumed f)) (cleared sig' (set_saved None p')))).
Proof.
  intros Hu Hsig Hh Hs. split; [by apply check_signals_deliver|]. intros k' p' f2 Hpid Hp Hs' Hr Hn.
  destruct (sigreturn_trap_eq k' pid p' f f2 Hpid Hp Hs' Hr Hn) as [E Et].
  set (k2 := k_set_pt (on_process pid (set_saved None) (k_pt k')) k') in *.
  assert (Hp2 : table (k_pt k2) !! pid = Some (set_saved None p')) by by apply table_on_process.
  exists k2. split; [done|]. split; [done|].
  split; [intros c Hc; cbn [k2 k_pt k_set_pt]; by rewrite lookup_on_process, decide_False by done|]. split; [done|].
  rewrite Et. split.
  - intros H0. assert (Ec : check_signals (resumed f) k2 = Some (k2, SigNone)); [|by rewrite Ec].
    unfold check_signals. destruct (negb _); [done|]. destruct (negb _); [done|].
    change (pid_of_tid (current (k_sched k2)) (k_pt k2)) with (pid_of_tid (current (k_sched k')) (k_pt k')).
    rewrite Hpid, Hp2. cbn [mbind option_bind pending_signals set_saved]. by rewrite H0.
  - intros sig' Hu' Hpc Hsig' Hh'.
    destruct (check_signals_deliver (resumed f) k2 pid (set_saved None p') sig') as (k3 & E3 & H3 & _); [by split|done|done|done|].
    exists k3. rewrite E3. by split.
Qed.

(** A signal that arrives while a handler runs is lost: its pending bit is cleared
    although its handler is not entered, so [sigreturn] does not find it any more. *)
Theorem nested_signal_lost f k pid p sig saved :
  in_user f k pid p -> least_pending (pending_signals p) sig -> at_ (signal_handlers p) sig <> 0 ->
  saved_signal_context p = Some saved ->
  exists k1, check_signals f k = Some (k1, SigNone) /\ table (k_pt k1) !! pid = Some (cleared sig p) /\
    Z.testbit (pending_signals (cleared sig p)) sig = false.
Proof.
  intros Hu Hsig Hh Hs. pose proof (check_signals_spec f k pid p sig Hu Hsig) as E. cbn zeta in E.
  destruct (Z.eqb_spec (at_ (signal_handlers p) sig) 0); [done|]. rewrite Hs in E. eexists. split; [exact E|].
  destruct Hu as [_ _ H3 H4]. split; [exact (table_on_process pid _ (k_pt k) p H4)|].
  cbn. unfold not32. destruct Hsig as (Hr & _). rewrite Z.land_spec, Z.lxor_spec, U32_MAX_testbit, Z.shiftl_spec, testbit_1 by lia.
  rewrite Z.sub_diag. destruct (Z.ltb_spec sig 32); [|lia]. apply andb_false_r.
Qed.

(** Nothing a user program hands to the kernel reaches outside its own stack and
    its own data slot: neither a buffer, nor a string (which ends in that region),
    nor the array of arguments and its strings, of which there are at most
    [MAX_ARGC]. *)
Theorem user_pointers_contained k ptr :
  current_task_is_user (k_sched k) = true -> 0 <= ptr ->
  (forall len, validate_user ptr len k = Ok tt -> forall a, ptr <= a < ptr + len -> owns k a) /\
  (forall n, user_strnlen ptr k = Ok n ->
     0 <= n /\ (forall a, ptr <= a <= ptr + n -> owns k a) /\ k_mem k (ptr + n) = 0 /\
     forall j, 0 <= j < n -> k_mem k (ptr + j) <> 0) /\
  (forall l, user_argv ptr k = Ok l ->
     len l <= MAX_ARGC /\ forall i str, l !! i = Some str -> arg_at k (ptr + 4 * Z.of_nat i) str).
Proof.
  intros Hu Hp. split; [intros len Hv; by apply validate_user_spec|]. split; [intros n Hn; by apply user_strnlen_spec|].
  intros l. unfold user_argv. destruct (_ =? 0); [by intros [= <-]|]. destruct (negb _); [done|]. intros E.
  apply user_argv_loop_spec in E as (l' & -> & Hle & _ & Hl'); [done|done|done|unfold MAX_ARGC; cbn; lia].
Qed.
End ProcessOps.

(** ** Witnesses: init and a shell on one machine *)

(** Descriptor tables with nothing in them. *)
#[export] Instance empty_tables : FdTables (gset Z) := {
  fd_clone := fun parent child d => if bool_decide (parent ∈ d) then {[child]} ∪ d else d;
  fd_cleanup := fun pid d => d ∖ {[pid]};
  fd_pids := id;
}.

#[export] Instance empty_tables_laws : FdTablesLaws (gset Z).
Proof. split; cbn; unfold id; [|done]. intros parent child d. case_bool_decide; set_solver. Qed.

Definition test_events1 : list (Event (F := SmallFrame)) := [EReserve; EInsert 1 (test_task 1) false; ESwitch (test_frame 7)].
Definition kw0 : Kernel SmallFrame (gset Z) :=
  mkKernel (w_g (do_events test_boot test_events1)) (mkTable ∅ ∅ 1) 0 {[0]} (fun _ => 0) 0x3C000000.
Definition kw1 := (register_process "init-sup" 1 false None kw0).1.
Definition kw2 := k_set_slots 1 kw1.
Definition kw3 := (spawn_image 0x42000000 test_heap "/bin/sh" 0x42800000 0x3C080000 0 kw2).1.
Definition kw4 := (sys_wait [0; 0] kw3).1.
Definition kw5 := k_set_sched (w_g (do_event (mkWorld (k_sched kw4) ∅) (ESwitch (test_frame 8)))) kw4.

Lemma kw0_boot : boot_kernel kw0.
Proof. split; [done|]. split; [done|]. split; [done|]. split; [done|]. cbn. unfold id. set_solver. Qed.

Lemma kw3_steps : ksteps (kw0, ∅) (kw3, ({[0]} ∪ ∅) ∖ {[0]}).
Proof.
  eapply kss_cons; [apply (ks_register kw0 ∅ "init-sup" 1); vm_compute; done|].
  eapply kss_cons; [apply (ks_slot kw1 ∅ 1 0); vm_compute; reflexivity|].
  eapply kss_cons; [apply (ks_spawn kw2 ({[0]} ∪ ∅) 0x42000000 test_heap "/bin/sh" 0x42800000 0x3C080000 0); [set_solver|vm_compute; done]|].
  apply kss_nil.
Qed.

Lemma kw3_inv : kernel_inv kw3 (({[0]} ∪ ∅) ∖ {[0]}).
Proof. exact (ksteps_boot_inv _ _ _ kw0_boot kw3_steps). Qed.

Lemma kw5_inv : kernel_inv kw5 (({[0]} ∪ ∅) ∖ {[0]}).
Proof.
  assert (H4 : kernel_inv kw4 (({[0]} ∪ ∅) ∖ {[0]})) by exact (sys_wait_inv [0; 0] kw3 _ kw3_inv).
  eapply kernel_inv_ext; [exact H4|done|done|done|]. vm_compute. done.
Qed.

Definition kproc (k : Kernel SmallFrame (gset Z)) (c : Z) : Process SmallFrame :=
  default (mkProcess 0 None 0 "" PRunning 0 [] None "" 0 [] [] None) (table (k_pt k) !! c).

Lemma processes_consistent_witness :
  by_tid (k_pt kw3) !! 2 = Some 2 /\ slots_in_use (k_slots kw3) = 1 /\
  exists p, table (k_pt kw3) !! 2 = Some p /\ parent_pid p = Some 1 /\ slot p = Some 0.
Proof.
  split; [vm_compute; reflexivity|]. split; [vm_compute; reflexivity|].
  destruct (processes_consistent _ _ _ kw0_boot kw3_steps) as (_ & H2 & _).
  destruct (proj2 (H2 2 1)) as (p & Hp & Hq).
  - exists (kproc kw3 1). split; [vm_compute; reflexivity|]. vm_compute. apply list_elem_of_here.
  - exists p. split; [exact Hp|]. split; [exact Hq|]. assert (E : slot <$> table (k_pt kw3) !! 2 = Some (Some 0)) by (vm_compute; reflexivity).
    rewrite Hp in E. injection E as E. exact E.
Defined.

Definition tasks_of (k : Kernel SmallFrame (gset Z)) : gmap Z (Task SmallFrame) :=
  match sched (k_sched k) with Some s => tasks s | None => ∅ end.
Definition ktask (k : Kernel SmallFrame (gset Z)) (t : Z) : Task SmallFrame := default (test_task 0) (tasks_of k !! t).
Definition ksched (k : Kernel SmallFrame (gset Z)) : Scheduler (F := SmallFrame) :=
  default (mkScheduler ∅ [] 0 0 0 0) (sched (k_sched k)).

(** The shell (task 2) exits with code 7 while init (task 1) waits. *)
Lemma exit_then_wait_witness :
  exists s' t', sched (k_sched (sys_exit [7] kw5).1) = Some s' /\ tasks s' !! 1 = Some t' /\ t_state t' = Ready /\ 1 ∈ ready s'.
Proof.
  destruct (exit_then_wait [7] kw5 _ (ksched kw5) 2 (kproc kw5 2) 1 (kproc kw5 1) (ktask kw5 1) kw5_inv) as
    (s' & t' & H1 & H2 & H3 & H4 & _); try (vm_compute; reflexivity).
  exists s', t'. split; [exact H1|]. split; [exact H2|]. split; [exact H3|exact H4].
Defined.

Lemma kw3_sched_inv : sched_inv (ksched kw3).
Proof.
  set (evs := test_events1 ++ [EReserve; EInsert 2 (set_state Blocked (ktask kw3 2)) true; EUnblock 2]).
  assert (Hr : exists w, reachable w /\ sched (w_g w) = sched (k_sched kw3)).
  { exists (do_events test_boot evs). split; [|vm_compute; reflexivity].
    exists test_boot, evs. split; [apply test_booted|]. unfold evs, test_events1, app.
    eapply steps_cons; [apply step_reserve; vm_compute; reflexivity|].
    eapply steps_cons; [apply test_insert; [set_solver|vm_compute; reflexivity]|].
    eapply steps_cons; [eapply step_switch; vm_compute; reflexivity|].
    eapply steps_cons; [apply step_reserve; vm_compute; reflexivity|].
    eapply steps_cons; [eapply (step_insert _ _ _ 0x42000000 test_heap 2 "/bin/sh" 0x42800000 0x3C080000 DEFAULT_STACK_SIZE 10 true true);
      [set_solver|vm_compute; reflexivity|vm_compute; reflexivity]|].
    eapply steps_cons; [apply step_unblock|].
    match goal with |- steps ?a [] ?b => assert (a = b) as -> end; [|apply steps_nil]. vm_compute. reflexivity. }
  destruct Hr as (w & Hr & Hg). destruct (reachable_inv _ Hr) as (s & Hw). rewrite (wi_sched _ _ Hw) in Hg.
  unfold ksched. rewrite <- Hg. exact (wi_inv _ _ Hw).
Qed.

Lemma wait_blocks_witness :
  exists k1, sys_wait [0; 0] kw3 = (k1, 0) /\ exists k2 res f2, syscall_return 0 (test_frame 8) k1 = Some (k2, res, f2) /\
    current (k_sched k2) = 2.
Proof.
  destruct (wait_blocks [0; 0] (test_frame 8) kw3 _ (ksched kw3) 1 (kproc kw3 1) kw3_inv) as (k1 & E1 & k2 & res & f2 & E2 & s2 & t2 & E3 & _).
  - vm_compute; reflexivity.
  - exact kw3_sched_inv.
  - vm_compute; discriminate.
  - vm_compute; reflexivity.
  - vm_compute; reflexivity.
  - vm_compute; reflexivity.
  - vm_compute; discriminate.
  - intros c p Hc Hp. assert (Hb : map_Forall (fun _ p => p_state p = PRunning) (table (k_pt kw3))).
    { refine (proj1 (bool_decide_eq_true (map_Forall _ _)) _). vm_compute. reflexivity. }
    exact (Hb c p Hp).
  - left. reflexivity.
  - vm_compute; reflexivity.
  - exists k1. split; [exact E1|]. exists k2, res, f2. split; [exact E2|].
    assert (Ek : k1 = kw4) by (unfold kw4; rewrite E1; reflexivity).
    assert (Ec : (fun o => match o with Some (k, _, _) => current (k_sched k) | None => 0 end) (syscall_return 0 (test_frame 8) kw4) = 2)
      by (vm_compute; reflexivity).
    rewrite <- Ek, E2 in Ec. exact Ec.
Defined.

(** Init, running at an address of its text, has a handler for signal 10, which is pending. *)
Definition kw_sig (saved : option SmallFrame) : Kernel SmallFrame (gset Z) :=
  (sys_kill [1; 10] (k_set_pt (on_process 1 (fun p => set_saved saved (set_handler 10 0x42800100 0x42800200 p)) (k_pt kw1)) kw1)).1.
Definition user_frame : SmallFrame := test_frame 0x42800010.

Lemma kw_sig_user saved : in_user user_frame (kw_sig saved) 1 (kproc (kw_sig saved) 1).
Proof. split; vm_compute; reflexivity. Qed.

Lemma least_10 saved : least_pending (pending_signals (kproc (kw_sig saved) 1)) 10.
Proof.
  replace (pending_signals (kproc (kw_sig saved) 1)) with 1024 by (vm_compute; reflexivity).
  split; [lia|]. split; [reflexivity|]. intros j Hj. apply (Z.pow2_bits_false 10); lia.
Qed.

(** The kernel once the switch that [sys_kill] asked for has come back to init. *)
Definition switched (k : Kernel SmallFrame (gset Z)) : Kernel SmallFrame (gset Z) := k_set_sched (k_sched kw1) k.

Lemma signal_roundtrip_witness :
  exists k1 f1, check_signals user_frame (kw_sig None) = Some (k1, SigDelivered f1) /\ sf_PC f1 = 0x42800100 /\
    exists k2 f2, sigreturn_trap f1 (switched k1) = Some (k2, SigNone, f2) /\
      sf_PC user_frame = 0x42800010 /\ sf_PC f2 = 0x42800013.
Proof.
  destruct (signal_roundtrip user_frame (kw_sig None) 1 (kproc (kw_sig None) 1) 10 (kw_sig_user None) (least_10 None))
    as [(k1 & E1 & Hp1 & _) Hback].
  - vm_compute; discriminate.
  - vm_compute; reflexivity.
  - set (f1 := entered 10 (kproc (kw_sig None) 1) user_frame) in *. exists k1, f1. split; [exact E1|].
    split; [vm_compute; reflexivity|].
    assert (Hb : by_tid (k_pt k1) = by_tid (k_pt (kw_sig None))).
    { pose proof E1 as E. vm_compute in E. injection E as <-. vm_compute. reflexivity. }
    destruct (Hback (switched k1) (set_saved (Some user_frame) (cleared 10 (kproc (kw_sig None) 1))) f1)
      as (k2 & _ & _ & _ & _ & E2 & _).
    + unfold pid_of_tid. change (k_pt (switched k1)) with (k_pt k1). rewrite Hb. vm_compute. reflexivity.
    + exact Hp1.
    + reflexivity.
    + vm_compute. reflexivity.
    + vm_compute. reflexivity.
    + exists k2, (resumed user_frame). split; [apply E2; vm_compute; reflexivity|]. split; vm_compute; reflexivity.
Defined.

Lemma nested_signal_lost_witness :
  exists k1, check_signals user_frame (kw_sig (Some (test_frame 5))) = Some (k1, SigNone) /\
    pending_signals (kproc k1 1) = 0.
Proof.
  destruct (nested_signal_lost user_frame (kw_sig (Some (test_frame 5))) 1 (kproc (kw_sig (Some (test_frame 5))) 1) 10 (test_frame 5)
    (kw_sig_user _) (least_10 _)) as (k1 & E1 & E2 & _).
  - vm_compute; discriminate.
  - vm_compute; reflexivity.
  - exists k1. split; [exact E1|]. unfold kproc at 1. rewrite E2. vm_compute. reflexivity.
Defined.

Lemma user_pointers_contained_witness :
  current_task_is_user (k_sched kw1) = true /\ validate_user 0x3FCA0010 16 kw1 = Ok tt /\ owns kw1 0x3FCA001F.
Proof.
  split; [reflexivity|]. split; [vm_compute; reflexivity|].
  apply (proj1 (user_pointers_contained kw1 0x3FCA0010 eq_refl ltac:(lia)) 16); [vm_compute; reflexivity|lia].
Defined.
