(* ===== verification/Path.v ===== *)
(** * Path: what a path means (kernel/src/vfs/mount.rs, the lexical half)

    [normalize_against], the rewriting of parts that says what it computes, and the two
    ways a normalized path is taken apart.  A string
    is the sequence of its bytes; ['/'] is the byte 47, and splitting on it is
    splitting the bytes, as in Rust. *)

From Stdlib Require Import Ascii.
From S2P Require Import Prelude.

Open Scope Z_scope.
Local Open Scope string_scope.

(* @src kernel/src/vfs/mount.rs 7-7 MAX_NAME_LEN *)
Definition MAX_NAME_LEN : Z := 255.

Definition slash : ascii := "/"%char.

(** [s.starts_with('/')]. *)
Definition starts_with_slash (s : string) : bool :=
  match s with String c _ => bool_decide (c = slash) | EmptyString => false end.

(** [s.split('/')]: always at least one part. *)
Fixpoint split_slash (s : string) : list string :=
  match s with
  | EmptyString => [""]
  | String c s' =>
    if bool_decide (c = slash) then "" :: split_slash s'
    else match split_slash s' with p :: ps => String c p :: ps | [] => [String c ""] end
  end.

(** [s.rfind('/')]. *)
Fixpoint rfind_slash (s : string) : option nat :=
  match s with
  | EmptyString => None
  | String c s' =>
    match rfind_slash s' with
    | Some i => Some (S i)
    | None => if bool_decide (c = slash) then Some 0%nat else None
    end
  end.

(** [&s\[..n\]] and [&s\[n..\]]. *)
Fixpoint str_take (n : nat) (s : string) : string :=
  match n, s with S n', String c s' => String c (str_take n' s') | _, _ => "" end.
Fixpoint str_drop (n : nat) (s : string) : string :=
  match n, s with S n', String _ s' => str_drop n' s' | _, _ => s end.

(** One part of the path: the body of the loop. *)
(* @src kernel/src/vfs/mount.rs 45-57 normalize_against (loop body) *)
Definition norm_part (comps : list string) (part : string) : KResult (list string) :=
  if bool_decide (part = "") || bool_decide (part = ".") then Ok comps
  else if bool_decide (part = "..") then Ok (List.removelast comps)
  else if Z.ltb MAX_NAME_LEN (str_len part) then Err NameTooLong
  else Ok ((comps ++ [part])%list).

(* @src kernel/src/vfs/mount.rs 41-58 normalize_against (loop) *)
Fixpoint norm_parts (comps : list string) (parts : list string) : KResult (list string) :=
  match parts with
  | [] => Ok comps
  | part :: parts' => comps' ← norm_part comps part; norm_parts comps' parts'
  end.

(* @src kernel/src/vfs/mount.rs 64-68 normalize_against (output) *)
Fixpoint join_comps (comps : list string) : string :=
  match comps with [] => "" | c :: comps' => "/" ++ c ++ join_comps comps' end.

(* @src kernel/src/vfs/mount.rs 28-70 normalize_against *)
Definition normalize_against (base path : string) : KResult string :=
  if bool_decide (path = "") then Err InvalidArgument
  else
    let base := if starts_with_slash path then "" else base in
    comps ← norm_parts [] (split_slash base ++ split_slash path)%list;
    if bool_decide (comps = []) then Ok "/" else Ok (join_comps comps).

(* @src kernel/src/vfs/mount.rs 106-123 split_parent *)
Definition split_parent (path : string) : KResult (string * string) :=
  if bool_decide (path = "") || bool_decide (path = "/") then Err InvalidArgument
  else
    match rfind_slash path with
    | Some O => Ok ("/", str_drop 1 path)
    | Some i =>
      let name := str_drop (i + 1) path in
      if bool_decide (name = "") then Err InvalidArgument else Ok (str_take i path, name)
    | None => Err InvalidArgument
    end.

(* @src kernel/src/vfs/mount.rs 125-127 split_components *)
Definition split_components (normalized : string) : list string :=
  List.filter (fun s => negb (bool_decide (s = ""))) (split_slash normalized).

(** ** Splitting and joining *)

Fixpoint no_slash (s : string) : Prop :=
  match s with EmptyString => True | String c s' => c <> slash /\ no_slash s' end.

(** A component of a normalized path. *)
Record good (c : string) : Prop := mkGood {
  good_nonempty : c <> "";
  good_dot : c <> ".";
  good_dotdot : c <> "..";
  good_slash : no_slash c;
  good_len : str_len c <= MAX_NAME_LEN;
}.

(** The path of a list of components. *)
Definition render (comps : list string) : string := if bool_decide (comps = []) then "/" else join_comps comps.

Lemma app_nil_l' (b : string) : "" ++ b = b.
Proof. done. Qed.
Lemma app_cons' c (a b : string) : String c a ++ b = String c (a ++ b).
Proof. done. Qed.
Hint Rewrite app_nil_l' app_cons' : lens.

Lemma split_slash_cons s : exists p ps, split_slash s = p :: ps.
Proof.
  destruct s as [|c s]; cbn; [eauto|]. case_bool_decide; [eauto|]. destruct (split_slash s); eauto.
Qed.

Lemma split_slash_app a b : split_slash (a ++ String slash b) = (split_slash a ++ split_slash b)%list.
Proof.
  induction a as [|c a IH]; rewrite ?app_cons', ?app_nil_l'; cbn [split_slash].
  - by rewrite bool_decide_true.
  - rewrite IH. destruct (split_slash_cons a) as (p & ps & ->). by case_bool_decide.
Qed.

Lemma split_slash_id s : no_slash s -> split_slash s = [s].
Proof.
  induction s as [|c s IH]; cbn; [done|]. intros [Hc Hs]. rewrite bool_decide_false by done. by rewrite IH.
Qed.

Lemma split_slash_no_slash s p : p ∈ split_slash s -> no_slash p.
Proof.
  revert p. induction s as [|c s IH]; intros p; cbn [split_slash].
  - by intros ->%list_elem_of_singleton.
  - case_bool_decide as Hc.
    + intros [->|Hp]%elem_of_cons; [done|by apply IH].
    + destruct (split_slash_cons s) as (q & qs & E). rewrite E in IH |- *.
      intros [->|Hp]%elem_of_cons; [|apply IH; by right]. split; [done|]. apply IH. by left.
Qed.

Lemma append_nil_r s : s ++ "" = s.
Proof. induction s as [|c s IH]; [done|]. by rewrite app_cons', IH. Qed.

Lemma append_assoc (a b c : string) : (a ++ b) ++ c = a ++ (b ++ c).
Proof. induction a as [|x a IH]; [done|]. by rewrite !app_cons', IH. Qed.

Lemma split_join comps : Forall good comps -> comps <> [] -> split_slash (join_comps comps) = "" :: comps.
Proof.
  induction comps as [|c comps IH]; intros Hg Hne; [done|]. apply Forall_cons in Hg as [Hc Hg].
  cbn [join_comps]. change ("/" ++ c ++ join_comps comps) with (String slash (c ++ join_comps comps)).
  cbn [split_slash]. rewrite bool_decide_true by done. f_equal. destruct comps as [|d comps].
  - cbn. rewrite append_nil_r. by apply split_slash_id, good_slash.
  - cbn [join_comps] in *. change ("/" ++ d ++ join_comps comps) with (String slash (d ++ join_comps comps)) in *.
    rewrite split_slash_app. rewrite (split_slash_id c) by by apply good_slash.
    specialize (IH Hg ltac:(done)). cbn [split_slash] in IH. rewrite bool_decide_true in IH by done.
    injection IH as IH. by rewrite IH.
Qed.

Lemma filter_good comps : Forall good comps -> List.filter (fun s => negb (bool_decide (s = ""))) comps = comps.
Proof.
  induction 1 as [|c comps Hc _ IH]; [done|]. cbn. rewrite bool_decide_false by apply Hc. cbn. by rewrite IH.
Qed.

Lemma split_components_render comps : Forall good comps -> split_components (render comps) = comps.
Proof.
  intros Hg. unfold split_components, render. case_bool_decide as Hc; [by subst|].
  rewrite split_join by done. cbn. by apply filter_good.
Qed.

(** ** The loop *)

Lemma removelast_Forall {A} (P : A -> Prop) l : Forall P l -> Forall P (List.removelast l).
Proof. induction 1 as [|x l Hx Hl IH]; cbn; [done|]. destruct l; [done|by constructor]. Qed.

Lemma norm_part_good comps part comps' :
  Forall good comps -> no_slash part -> norm_part comps part = Ok comps' -> Forall good comps'.
Proof.
  intros Hg Hp. unfold norm_part. destruct (bool_decide (part = "")) eqn:E1; cbn [orb]; [by intros [= <-]|].
  destruct (bool_decide (part = ".")) eqn:E2; cbn [orb]; [by intros [= <-]|].
  destruct (bool_decide (part = "..")) eqn:E3; [intros [= <-]; by apply removelast_Forall|].
  destruct (Z.ltb_spec MAX_NAME_LEN (str_len part)); [done|]. intros [= <-].
  apply Forall_app. split; [done|]. apply Forall_singleton. apply bool_decide_eq_false in E1, E2, E3. by split.
Qed.

Lemma norm_parts_good parts : forall comps comps',
  Forall good comps -> Forall no_slash parts -> norm_parts comps parts = Ok comps' -> Forall good comps'.
Proof.
  induction parts as [|p parts IH]; intros comps comps' Hg Hp; cbn [norm_parts]; [by intros [= <-]|].
  apply Forall_cons in Hp as [Hp Hps]. intros (c1 & H1 & H2)%KResult_bind_Ok.
  eapply IH; [|exact Hps|exact H2]. by eapply norm_part_good.
Qed.

Lemma norm_parts_app l1 l2 comps : norm_parts comps (l1 ++ l2)%list = (c ← norm_parts comps l1; norm_parts c l2).
Proof.
  revert comps. induction l1 as [|p l1 IH]; intros comps; [done|]. cbn [norm_parts app]. unfold mbind, KResult_bind.
  destruct (norm_part comps p); [apply IH|done].
Qed.

Lemma norm_parts_id l : forall comps, Forall good l -> norm_parts comps l = Ok (comps ++ l)%list.
Proof.
  induction l as [|p l IH]; intros comps Hg; cbn [norm_parts]; [by rewrite app_nil_r|].
  apply Forall_cons in Hg as [[H1 H2 H3 H4 H5] Hg]. unfold norm_part.
  rewrite !bool_decide_false by done. cbn [orb]. destruct (Z.ltb_spec MAX_NAME_LEN (str_len p)); [lia|].
  cbn [mbind KResult_bind]. rewrite IH by done. by rewrite <- app_assoc.
Qed.

Lemma norm_parts_err parts : forall comps, norm_parts comps parts = Err NameTooLong \/ exists c, norm_parts comps parts = Ok c.
Proof.
  induction parts as [|p parts IH]; intros comps; cbn [norm_parts]; [eauto|]. unfold norm_part.
  destruct (_ || _); [apply IH|]. case_bool_decide; [apply IH|]. destruct (Z.ltb _ _); [by left|apply IH].
Qed.

Lemma starts_with_slash_render comps : starts_with_slash (render comps) = true.
Proof. unfold render. case_bool_decide; [done|]. by destruct comps. Qed.

Lemma render_nonempty comps : render comps <> "".
Proof. unfold render. case_bool_decide; [done|]. by destruct comps. Qed.

Lemma split_render comps : Forall good comps -> norm_parts [] (split_slash (render comps)) = Ok comps.
Proof.
  intros Hg. unfold render. case_bool_decide as Hc; [by subst|]. rewrite split_join by done.
  cbn [norm_parts]. exact (norm_parts_id comps [] Hg).
Qed.

Lemma normalize_render base comps : Forall good comps -> normalize_against base (render comps) = Ok (render comps).
Proof.
  intros Hg. unfold normalize_against. rewrite bool_decide_false by apply render_nonempty.
  rewrite starts_with_slash_render. cbn [app split_slash]. change ([""] ++ split_slash (render comps))%list with ("" :: split_slash (render comps)).
  cbn [norm_parts]. unfold norm_part. cbn [orb]. rewrite bool_decide_true by done. cbn [orb mbind KResult_bind].
  rewrite split_render by done. cbn [mbind KResult_bind]. unfold render. by case_bool_decide.
Qed.

(** ** The last component *)

Lemma rfind_slash_app a b : rfind_slash (a ++ String slash b) =
  match rfind_slash b with Some i => Some (String.length a + 1 + i)%nat | None => Some (String.length a) end.
Proof.
  induction a as [|c a IH]; rewrite ?app_cons', ?app_nil_l'; cbn [rfind_slash String.length].
  - rewrite bool_decide_true by done. by destruct (rfind_slash b).
  - rewrite IH. by destruct (rfind_slash b).
Qed.

Lemma rfind_slash_none s : no_slash s -> rfind_slash s = None.
Proof. induction s as [|c s IH]; cbn; [done|]. intros [Hc Hs]. rewrite IH by done. by rewrite bool_decide_false. Qed.

Lemma str_take_app a b : str_take (String.length a) (a ++ b) = a.
Proof. induction a as [|c a IH]; [by destruct b|]. cbn [String.length]. rewrite app_cons'. cbn. by rewrite IH. Qed.
Lemma str_drop_app a b c : str_drop (String.length a + 1) (a ++ String c b) = b.
Proof. induction a as [|x a IH]; [by destruct b|]. rewrite app_cons'. apply IH. Qed.

Lemma join_comps_app l c : join_comps (l ++ [c])%list = join_comps l ++ String slash c.
Proof.
  induction l as [|d l IH]; cbn [join_comps app].
  - by rewrite append_nil_r.
  - by rewrite IH, !append_assoc.
Qed.

Lemma split_parent_render l c : Forall good (l ++ [c])%list -> split_parent (render (l ++ [c])%list) = Ok (render l, c).
Proof.
  intros Hg. apply Forall_app in Hg as [Hl Hc]. apply Forall_inv in Hc as [H1 H2 H3 H4 H5].
  unfold render at 1. rewrite bool_decide_false by (by destruct l). rewrite join_comps_app. unfold split_parent.
  assert (Hne : bool_decide (join_comps l ++ String slash c = "") || bool_decide (join_comps l ++ String slash c = "/") = false).
  { rewrite !bool_decide_false; [done| |by destruct l]. destruct l as [|d l]; cbn; [by intros [= ->]|].
    intros [= Hx]. apply Forall_cons in Hl as [[Hd _ _ _ _] _]. by destruct d. }
  rewrite Hne, rfind_slash_app, rfind_slash_none by done. destruct l as [|d l].
  - cbn. unfold render. done.
  - assert (Hlen : exists n, String.length (join_comps (d :: l)) = S n) by (cbn; eauto).
    destruct Hlen as [n Hn]. rewrite Hn, <- Hn, str_drop_app, str_take_app. rewrite bool_decide_false by done.
    unfold render. by rewrite bool_decide_false by done.
Qed.

Lemma exists_last_or_nil {A} (l : list A) : l = [] \/ exists l' x, l = (l' ++ [x])%list.
Proof. destruct l as [|x l] using rev_ind; eauto. Qed.

(** ** What the parts of a path mean

    The reference is a rewriting of the sequence of parts, in no fixed order: a part
    that says "here" goes away, a name goes away together with the [".."] behind it,
    and a [".."] at the root goes away.  A sequence of names is what is left. *)

Definition dotted (d : string) : Prop := d = "" \/ d = ".".
Definition is_name (x : string) : Prop := x <> "" /\ x <> "." /\ x <> "..".
Definition short (x : string) : Prop := str_len x <= MAX_NAME_LEN.

Inductive parts_step : list string -> list string -> Prop :=
| drop_dot l d r : dotted d -> parts_step (l ++ d :: r)%list (l ++ r)%list
| cancel_up l x r : is_name x -> parts_step (l ++ x :: ".." :: r)%list (l ++ r)%list
| root_up r : parts_step (".." :: r) r.

(** The parts a path stands for, seen from [base]. *)
Definition path_parts (base path : string) : list string :=
  split_slash (if starts_with_slash path then path else base ++ String slash path).

Lemma good_name c : good c <-> is_name c /\ no_slash c /\ short c.
Proof. split; [by intros []|]. by intros ([? []] & ? & ?). Qed.

Lemma norm_part_dotted comps d : dotted d -> norm_part comps d = Ok comps.
Proof. by intros [->| ->]. Qed.

Lemma norm_part_name comps x : is_name x -> short x -> norm_part comps x = Ok (comps ++ [x])%list.
Proof.
  intros (H1 & H2 & H3) Hl. unfold norm_part. rewrite !bool_decide_false by done. cbn [orb].
  unfold short in Hl. by destruct (Z.ltb_spec MAX_NAME_LEN (str_len x)); [lia|].
Qed.

Lemma parts_step_norm ps qs : parts_step ps qs -> Forall short ps ->
  Forall short qs /\ norm_parts [] ps = norm_parts [] qs.
Proof.
  intros [l d r Hd|l x r Hx|r] Hs.
  - apply Forall_app in Hs as [Hl [_ Hr]%Forall_cons]. split; [by apply Forall_app|].
    rewrite !norm_parts_app. destruct (norm_parts [] l) as [c|]; [|done]. cbn [mbind KResult_bind norm_parts].
    by rewrite norm_part_dotted.
  - apply Forall_app in Hs as [Hl [Hxs [_ Hr]%Forall_cons]%Forall_cons]. split; [by apply Forall_app|].
    rewrite !norm_parts_app. destruct (norm_parts [] l) as [c|]; [|done]. cbn [mbind KResult_bind norm_parts].
    rewrite norm_part_name by done. cbn [mbind KResult_bind]. change (norm_part (c ++ [x])%list "..") with (@Ok (list string) (List.removelast (c ++ [x])%list)).
    cbn [mbind KResult_bind]. by rewrite List.removelast_last.
  - by apply Forall_cons in Hs as [_ Hr].
Qed.

Lemma parts_steps_norm ps qs : rtc parts_step ps qs -> Forall short ps -> norm_parts [] ps = norm_parts [] qs.
Proof.
  induction 1 as [|ps ps' qs Hs _ IH]; [done|]. intros Hl. destruct (parts_step_norm _ _ Hs Hl) as [Hl' ->]. by apply IH.
Qed.

Lemma norm_parts_steps parts : forall comps comps', Forall is_name comps -> norm_parts comps parts = Ok comps' ->
  rtc parts_step (comps ++ parts)%list comps' /\ Forall short parts.
Proof.
  induction parts as [|p parts IH]; intros comps comps' Hc; cbn [norm_parts].
  - intros [= <-]. by rewrite app_nil_r.
  - intros (c1 & H1 & H2)%KResult_bind_Ok. unfold norm_part in H1.
    destruct (bool_decide (p = "") || bool_decide (p = ".")) eqn:Hd.
    { injection H1 as <-. destruct (IH _ _ Hc H2) as [Hs Hf]. apply orb_true_iff in Hd. rewrite !bool_decide_eq_true in Hd.
      split; [eapply rtc_l; [by apply drop_dot|done]|]. constructor; [by destruct Hd as [->| ->]|done]. }
    apply orb_false_iff in Hd as [Hd1 Hd2]. apply bool_decide_eq_false in Hd1, Hd2.
    case_bool_decide as Hu.
    + subst p. injection H1 as <-. destruct (exists_last_or_nil comps) as [->|(l & x & ->)].
      * destruct (IH [] _ Hc H2) as [Hs Hf]. split; [eapply rtc_l; [apply root_up|exact Hs]|by constructor].
      * rewrite List.removelast_last in H2. apply Forall_app in Hc as [Hl Hx%Forall_inv]. destruct (IH _ _ Hl H2) as [Hs Hf].
        split; [|by constructor]. rewrite <- app_assoc. eapply rtc_l; [by apply cancel_up|done].
    + destruct (Z.ltb_spec MAX_NAME_LEN (str_len p)); [done|]. injection H1 as <-.
      destruct (IH (comps ++ [p])%list comps') as [Hs Hf]; [by apply Forall_app; split; [|by apply Forall_singleton]|done|].
      rewrite <- app_assoc in Hs. split; [done|]. by constructor.
Qed.

Lemma norm_parts_short parts : forall comps, Forall short parts -> exists c, norm_parts comps parts = Ok c.
Proof.
  induction parts as [|p parts IH]; intros comps Hs; cbn [norm_parts]; [eauto|]. apply Forall_cons in Hs as [Hp Hs].
  unfold norm_part. destruct (_ || _); [by apply IH|]. case_bool_decide; [by apply IH|].
  unfold short in Hp. destruct (Z.ltb_spec MAX_NAME_LEN (str_len p)); [lia|]. by apply IH.
Qed.

(** The loop, from the root, computes the reduced sequence, and only stops at a long name. *)
Lemma norm_parts_spec parts : Forall no_slash parts ->
  (forall comps, norm_parts [] parts = Ok comps <->
     Forall short parts /\ rtc parts_step parts comps /\ Forall good comps) /\
  (norm_parts [] parts = Err NameTooLong <-> ~ Forall short parts).
Proof.
  intros Hn. assert (Hok : forall comps, norm_parts [] parts = Ok comps <->
     Forall short parts /\ rtc parts_step parts comps /\ Forall good comps).
  { intros comps. split.
    - intros E. destruct (norm_parts_steps parts [] comps) as [Hs Hf]; [done|done|]. split; [done|]. split; [done|].
      by eapply norm_parts_good; [| |exact E].
    - intros (Hs & Hr & Hg). rewrite (parts_steps_norm _ _ Hr Hs). by rewrite norm_parts_id. }
  split; [done|]. split.
  - intros E Hs. destruct (norm_parts_short parts [] Hs) as [c Hc]. congruence.
  - intros Hs. destruct (norm_parts_err parts []) as [E|[c E]]; [done|]. by apply Hok in E as [? _].
Qed.

Lemma normalize_parts base path : path <> "" ->
  normalize_against base path = (comps ← norm_parts [] (path_parts base path); Ok (render comps)).
Proof.
  intros Hp. unfold normalize_against, path_parts. rewrite bool_decide_false by done.
  assert (Hk : forall r : KResult (list string),
    (comps ← r; if bool_decide (comps = []) then Ok "/" else Ok (join_comps comps)) = (comps ← r; Ok (render comps))).
  { intros [c|]; [|done]. cbn. unfold render. by case_bool_decide. }
  rewrite Hk. f_equal. by destruct (starts_with_slash path); [|rewrite split_slash_app].
Qed.

Lemma normalize_ok base path out :
  normalize_against base path = Ok out <->
  path <> "" /\ Forall short (path_parts base path) /\
  exists comps, rtc parts_step (path_parts base path) comps /\ Forall good comps /\ out = render comps.
Proof.
  destruct (decide (path = "")) as [->|Hp]; [split; [done|by intros [? _]]|]. rewrite normalize_parts by done.
  destruct (norm_parts_spec (path_parts base path)) as [Hok _]; [apply Forall_forall, split_slash_no_slash|]. split.
  - intros (comps & E & [= <-])%KResult_bind_Ok. apply Hok in E as (Hs & Hr & Hg). eauto 6.
  - intros (_ & Hs & comps & Hr & Hg & ->). by rewrite (proj2 (Hok comps)).
Qed.

(** ** The theorems *)

(** C20. Which path a path is, exactly: the join of the base and a relative path (an
    absolute path alone), split at the slashes, rewritten by the three rules - a
    ["."] or empty part goes away, a name cancels against the [".."] behind it, a
    [".."] at the root goes away - until only names no longer than a name may be are
    left, whatever the order of the rewriting; the result is those names from the
    root.  It is refused as invalid exactly when the path is empty, and as too long
    exactly when some part is, even one a later [".."] would take back.  The result
    splits into those names again, and normalizing it from any directory changes
    nothing. *)
Theorem normalize_correct base path :
  (forall out, normalize_against base path = Ok out <->
     path <> "" /\ Forall short (path_parts base path) /\
     exists comps, rtc parts_step (path_parts base path) comps /\ Forall good comps /\ out = render comps) /\
  (normalize_against base path = Err InvalidArgument <-> path = "") /\
  (normalize_against base path = Err NameTooLong <-> path <> "" /\ ~ Forall short (path_parts base path)) /\
  (forall out, normalize_against base path = Ok out ->
     out = render (split_components out) /\ rtc parts_step (path_parts base path) (split_components out) /\
     forall base', normalize_against base' out = Ok out).
Proof.
  split; [apply normalize_ok|].
  assert (Hs : path <> "" -> normalize_against base path = Err NameTooLong <-> ~ Forall short (path_parts base path)).
  { intros Hp. destruct (norm_parts_spec (path_parts base path)) as [_ <-]; [apply Forall_forall, split_slash_no_slash|].
    rewrite normalize_parts by done. by destruct (norm_parts [] _); cbn; split; intros [= ?]; subst. }
  assert (Hd : normalize_against "" "" = Err InvalidArgument) by done.
  split; [|split].
  - split; [|by intros ->]. intros E. destruct (decide (path = "")) as [|Hp]; [done|]. rewrite normalize_parts in E by done.
    by destruct (norm_parts_err (path_parts base path) []) as [En|[c En]]; rewrite En in E.
  - destruct (decide (path = "")) as [->|Hp]; [by split; [|intros [? _]]|]. rewrite Hs by done. naive_solver.
  - intros out (_ & _ & comps & Hr & Hg & ->)%normalize_ok. rewrite split_components_render by done.
    split; [done|]. split; [done|]. intros base'. by apply normalize_render.
Qed.

Lemma normalize_correct_witness : normalize_against "/tmp/x" "../y//./z" = Ok "/tmp/y/z" /\
  rtc parts_step (path_parts "/tmp/x" "../y//./z") ["tmp"; "y"; "z"] /\
  normalize_against "/elsewhere" "/tmp/y/z" = Ok "/tmp/y/z".
Proof.
  split; [vm_compute; reflexivity|]. destruct (normalize_correct "/tmp/x" "../y//./z") as (_ & _ & _ & H).
  destruct (H "/tmp/y/z" ltac:(vm_compute; reflexivity)) as (_ & Hr & Hf). split; [|exact (Hf "/elsewhere")].
  change ["tmp"; "y"; "z"] with (split_components "/tmp/y/z"). exact Hr.
Defined.

(** A normalized path other than the root splits into its directory, normalized
    too, and its last component; the root has no parent. *)
Theorem split_parent_correct base path out :
  normalize_against base path = Ok out ->
  (out = "/" /\ split_parent out = Err InvalidArgument) \/
  exists dir name, split_parent out = Ok (dir, name) /\ good name /\ normalize_against "" dir = Ok dir /\
    split_components out = (split_components dir ++ [name])%list.
Proof.
  intros (_ & _ & comps & _ & Hg & ->)%normalize_ok. pose proof (split_components_render _ Hg) as Hc. destruct (exists_last_or_nil comps) as [->|(l & c & ->)]; [by left|right].
  exists (render l), c. split; [by apply split_parent_render|]. apply Forall_app in Hg as Hg'. destruct Hg' as [Hl Hgc].
  split; [by apply Forall_inv in Hgc|]. split; [by apply normalize_render|]. rewrite Hc. by rewrite split_components_render.
Qed.

Lemma split_parent_correct_witness :
  exists dir name, split_parent "/tmp/y/z" = Ok (dir, name) /\ dir = "/tmp/y" /\ name = "z".
Proof.
  destruct (split_parent_correct "/tmp/x" "../y//./z" "/tmp/y/z" ltac:(vm_compute; reflexivity)) as [[H _]|(dir & name & H & _)]; [discriminate|].
  exists dir, name. split; [exact H|]. vm_compute in H. injection H as <- <-. split; reflexivity.
Defined.
