(* ===== verification/Vfs.v ===== *)
(** * Vfs: paths, mounts and file descriptors (kernel/src/vfs/mod.rs, file.rs, mount.rs)

    Written against the classes of Inode.v: [W] is what the mounted file systems
    share, [I] their handles.  Two handles are the same [Arc] when they are equal.
    A handle whose last descriptor goes away is dropped: [i_drop] is what its
    destructor does ([Drop for PipeReadInode] and the like).

    The calling process enters by its pid and its working directory ([Caller]), as
    [scheduler::process] answers them. *)

From Stdlib Require Import Ascii.
From S2P Require Import Prelude Path Inode Process.

Open Scope Z_scope.

Class Droppable (W I : Type) := { i_drop : I -> W -> W }.
#[export] Instance sum_droppable {W A B} `{HA : !Droppable W A, HB : !Droppable W B} : Droppable W (A + B) :=
  { i_drop i := match i with inl a => i_drop a | inr b => i_drop b end }.

(** What [get_current_pid] and [cwd_of_caller] answer. *)
Record Caller := mkCaller { caller_pid : option Z; caller_cwd : option string }.
Definition pid_or_0 (c : Caller) : Z := default 0 (caller_pid c).

(** A computation given by what it does to the state. *)
Definition st {S A} (f : S -> S * KResult A) : ST S A := f.

(** ** Open files *)

(* @src kernel/src/vfs/file.rs 11-22 OpenFlags *)
Definition RDONLY : Z := 0x0001.
Definition WRONLY : Z := 0x0002.
Definition RDWR : Z := 0x0003.
Definition O_CREATE : Z := 0x0100.
Definition O_APPEND : Z := 0x0200.
Definition O_TRUNC : Z := 0x0400.
(* @src kernel/src/vfs/file.rs 24-26 OpenFlags::contains *)
Definition contains (flags f : Z) : bool := Z.land flags f =? f.

(* @src kernel/src/vfs/file.rs 29-35 SeekFrom *)
Inductive SeekFrom := Start (n : Z) | Current (d : Z) | End (d : Z).

(* @src kernel/src/vfs/file.rs 37-48 OpenFile *)
Record OpenFile (I : Type) := mkOpenFile {
  of_inode : I;
  of_offset : Z;
  of_readable : bool;
  of_writable : bool;
  of_append : bool;
}.
Arguments mkOpenFile {I}.
Arguments of_inode {I}.
Arguments of_offset {I}.
Arguments of_readable {I}.
Arguments of_writable {I}.
Arguments of_append {I}.

Definition set_offset {I} (n : Z) (f : OpenFile I) : OpenFile I :=
  mkOpenFile (of_inode f) n (of_readable f) (of_writable f) (of_append f).

(* @src kernel/src/vfs/file.rs 50-58 offset_add *)
Definition offset_add (base delta : Z) : KResult Z :=
  if 0 <=? delta then ok_or (checked_add64 base delta) InvalidArgument
  else ok_or (checked_sub base (- delta)) InvalidArgument.

(* @src kernel/src/vfs/mod.rs 16-16 MAX_OPEN_FILES *)
Definition MAX_OPEN_FILES : Z := 64.

(** ** One descriptor table *)

(** The descriptors of a process ([FdTable]): entry [fd] is the open file of [fd]. *)
Abbreviation FdTable I := (list (option (OpenFile I))).

(* @src kernel/src/vfs/mod.rs 31-36 FdTable::insert (loop) *)
Fixpoint first_free {I} (t : FdTable I) (i : nat) : option nat :=
  match t with
  | [] => None
  | None :: _ => Some i
  | Some _ :: t' => first_free t' (S i)
  end.

(* @src kernel/src/vfs/mod.rs 30-43 FdTable::insert *)
Definition fd_insert {I} (file : OpenFile I) (t : FdTable I) : FdTable I * KResult Z :=
  match first_free t 0 with
  | Some i => (<[i := Some file]> t, Ok (Z.of_nat i))
  | None =>
    let idx := len t in
    if MAX_OPEN_FILES <=? idx then (t, Err TableFull) else (t ++ [Some file], Ok idx)
  end.

(* @src kernel/src/vfs/mod.rs 45-53 FdTable::get_mut *)
Definition fd_get {I} (fd : Z) (t : FdTable I) : KResult (OpenFile I) :=
  if fd <? 0 then Err BadFd
  else match t !! Z.to_nat fd with Some (Some f) => Ok f | _ => Err BadFd end.

(* @src kernel/src/vfs/mod.rs 55-66 FdTable::remove *)
Definition fd_remove {I} (fd : Z) (t : FdTable I) : FdTable I * KResult unit :=
  if fd <? 0 then (t, Err BadFd)
  else match t !! Z.to_nat fd with
    | Some (Some _) => (<[Z.to_nat fd := None]> t, Ok tt)
    | _ => (t, Err BadFd)
    end.

(** [dup2] in one table: [newfd] names a copy of the open file of [oldfd]. *)
(* @src kernel/src/vfs/mod.rs 427-441 dup2 (table) *)
Definition fd_dup2 {I} (oldfd newfd : Z) (t : FdTable I) : FdTable I * KResult Z :=
  match t !! Z.to_nat oldfd with
  | Some (Some f) =>
    if oldfd =? newfd then (t, Ok newfd)
    else
      let t := t ++ replicate (Z.to_nat newfd + 1 - length t) None in
      (<[Z.to_nat newfd := Some f]> t, Ok newfd)
  | _ => (t, Err BadFd)
  end.

Section Vfs.
Context {W I : Type} `{!Inode W I, !EqDecision I, !Droppable W I}.

(* @src kernel/src/vfs/mount.rs 9-15 MountPoint, MOUNTS *)
Record Vfs := mkVfs {
  v_world : W;
  v_tables : gmap Z (FdTable I);
  v_mounts : list (string * FileSystem W I);
}.

(** The handles that descriptors hold. *)
Definition table_handles (t : FdTable I) : list I := of_inode <$> omap id t.
Definition handles (ts : gmap Z (FdTable I)) : list I := mjoin (table_handles ∘ snd <$> map_to_list ts).

(** The tables become [ts]: the handles no descriptor holds any more are dropped. *)
Definition set_tables (ts : gmap Z (FdTable I)) (v : Vfs) : Vfs :=
  let dead := filter (fun i => i ∉ handles ts) (remove_dups (handles (v_tables v))) in
  mkVfs (foldr i_drop (v_world v) dead) ts (v_mounts v).
Definition set_world (w : W) (v : Vfs) : Vfs := mkVfs w (v_tables v) (v_mounts v).

(** Runs a call of an inode. *)
Definition on_world {A} (m : ST W A) : ST Vfs A := fun v => let '(w, r) := m (v_world v) in (set_world w v, r).

(** Runs an operation of a table: [table_of] answers [BadFd] for a missing one. *)
(* @src kernel/src/vfs/mod.rs 114-116 table_of *)
Definition on_table {A} (pid : Z) (f : FdTable I -> FdTable I * KResult A) : ST Vfs A :=
  fun v =>
    match v_tables v !! pid with
    | None => (v, Err BadFd)
    | Some t => let '(t, r) := f t in (set_tables (<[pid := t]> (v_tables v)) v, r)
    end.

(** ** Paths *)

(* @src kernel/src/vfs/mount.rs 94-104 normalize *)
Definition normalize (c : Caller) (path : string) : KResult string :=
  if starts_with_slash path then normalize_against "" path
  else cwd ← ok_or (caller_cwd c) InvalidArgument; normalize_against cwd path.

(** Is [mc] a prefix of [target]?  ([mc] is not longer where it is asked.) *)
Fixpoint comps_prefix (mc target : list string) : bool :=
  match mc, target with a :: mc', b :: target' => bool_decide (a = b) && comps_prefix mc' target' | _, _ => true end.

(** The search for the mount point with the longest prefix. *)
(* @src kernel/src/vfs/mount.rs 157-175 resolve (mount point) *)
Fixpoint best_mount (target : list string) (ms : list (string * FileSystem W I)) (best : option (FileSystem W I * nat))
    : option (FileSystem W I * nat) :=
  match ms with
  | [] => best
  | (path, fs) :: ms' =>
    let mc := split_components path in
    let mlen := length mc in
    let best' :=
      if (length target <? mlen)%nat then best
      else if comps_prefix mc target then
        match best with
        | Some (_, best_len) => if (best_len <? mlen)%nat then Some (fs, mlen) else best
        | None => Some (fs, mlen)
        end
      else best in
    best_mount target ms' best'
  end.

(* @src kernel/src/vfs/mount.rs 182-186 resolve (walk) *)
Definition walk (root : I) (comps : list string) : ST Vfs I := foldM (fun node comp => on_world (i_lookup node comp)) root comps.

(* @src kernel/src/vfs/mount.rs 151-187 resolve *)
Definition resolve (c : Caller) (path : string) : ST Vfs I :=
  norm ← lift (normalize c path);
  let target := split_components norm in
  st (fun v =>
    match best_mount target (v_mounts v) None with
    | None => (v, Err NotFound)
    | Some (fs, mount_len) => walk (fs_root fs) (drop mount_len target) v
    end).

(* @src kernel/src/vfs/mount.rs 129-137 mount *)
Definition mount (c : Caller) (path : string) (fs : FileSystem W I) : ST Vfs unit :=
  norm ← lift (normalize c path);
  st (fun v =>
    if existsb (fun m => bool_decide (m.1 = norm)) (v_mounts v) then (v, Err AlreadyExists)
    else (mkVfs (v_world v) (v_tables v) (v_mounts v ++ [(norm, fs)]), Ok tt)).

(* @src kernel/src/vfs/mount.rs 139-149 unmount *)
Definition unmount (c : Caller) (path : string) : ST Vfs unit :=
  norm ← lift (normalize c path);
  st (fun v =>
    let ms := List.filter (fun m => negb (bool_decide (m.1 = norm))) (v_mounts v) in
    let v' := mkVfs (v_world v) (v_tables v) ms in
    if (length ms =? length (v_mounts v))%nat then (v', Err NotFound) else (v', Ok tt)).

(** [s.starts_with(prefix)]. *)
Fixpoint str_prefix (p s : string) : bool :=
  match p, s with
  | EmptyString, _ => true
  | String a p', String b s' => bool_decide (a = b) && str_prefix p' s'
  | _, _ => false
  end.

(* @src kernel/src/vfs/mount.rs 189-212 child_mounts *)
Definition child_mounts (c : Caller) (dir_path : string) : ST Vfs (list (string * InodeKind)) :=
  norm ← lift (normalize c dir_path);
  let prefix := if bool_decide (norm = "/"%string) then "/"%string else String.append norm "/" in
  st (fun v =>
    (v, Ok (omap (fun m =>
      if negb (bool_decide (m.1 = "/"%string)) && str_prefix prefix m.1 then
        let rel := str_drop (String.length prefix) m.1 in
        if negb (bool_decide (rel = EmptyString)) && bool_decide (rfind_slash rel = None)
        then Some (rel, i_kind (fs_root m.2) (v_world v)) else None
      else None) (v_mounts v)))).

(** ** Opening *)

(* @src kernel/src/vfs/file.rs 61-80 OpenFile::new *)
Definition open_new (inode : I) (flags : Z) : ST Vfs (OpenFile I) :=
  let readable := contains flags RDONLY in
  let writable := contains flags WRONLY in
  if negb readable && negb writable then fail InvalidArgument
  else
    let append := contains flags O_APPEND in
    _ ← (if contains flags O_TRUNC && writable then on_world (i_truncate inode 0) else mret tt);
    mret (mkOpenFile inode 0 readable writable append).

(* @src kernel/src/vfs/mod.rs 118-129 create_path *)
Definition create_path (c : Caller) (path : string) (kind : InodeKind) : ST Vfs I :=
  norm ← lift (normalize c path);
  parts ← lift (split_parent norm);
  let '(parent_path, name) := parts in
  if MAX_NAME_LEN <? str_len name then fail NameTooLong
  else
    parent ← resolve c parent_path;
    st (fun v =>
      if negb (bool_decide (i_kind parent (v_world v) = Dir)) then (v, Err NotADirectory)
      else on_world (i_create parent name kind) v).

(* @src kernel/src/vfs/mod.rs 131-149 open *)
Definition open (c : Caller) (path : string) (flags : Z) : ST Vfs Z :=
  fun v =>
    let '(v, found) := resolve c path v in
    let '(v, found) :=
      match found with
      | Err NotFound => if contains flags O_CREATE then create_path c path File v else (v, found)
      | _ => (v, found)
      end in
    match found with
    | Err e => (v, Err e)
    | Ok inode =>
      if bool_decide (i_kind inode (v_world v) = Dir) && contains flags WRONLY then (v, Err IsADirectory)
      else (file ← open_new inode flags; on_table (pid_or_0 c) (fd_insert file)) v
    end.

(* @src kernel/src/vfs/mod.rs 151-156 close *)
Definition close (c : Caller) (fd : Z) : ST Vfs unit := on_table (pid_or_0 c) (fd_remove fd).

(** ** Reading and writing

    The descriptor is read, the lock released, the call made and the offset put
    back: other tasks may run while the call is blocked ([Park]), and a blocked call
    is made again when the task wakes up. *)

(* @src kernel/src/vfs/mod.rs 172-185 commit_offset *)
Definition commit_offset (pid fd : Z) (inode : I) (new_offset : Z) (v : Vfs) : Vfs :=
  match v_tables v !! pid with
  | None => v
  | Some t =>
    match fd_get fd t with
    | Err _ => v
    | Ok file =>
      if decide (of_inode file = inode) then
        mkVfs (v_world v) (<[pid := <[Z.to_nat fd := Some (set_offset new_offset file)]> t]> (v_tables v)) (v_mounts v)
      else v
    end
  end.

(** The open file of a descriptor of the caller. *)
Definition file_of (c : Caller) (fd : Z) (v : Vfs) : KResult (OpenFile I) :=
  t ← ok_or (v_tables v !! pid_or_0 c) BadFd; fd_get fd t.

(** From the call of the inode on. *)
(* @src kernel/src/vfs/mod.rs 216-222 read (after the snapshot) *)
Definition read_inode (pid fd : Z) (inode : I) (offset n : Z) : IO Vfs (list Z) :=
  fun v =>
    let '(w, out) := i_read_at inode offset n (v_world v) in
    let v := set_world w v in
    match out with
    | Park => (v, Park)
    | Ret (Err e) => (v, Ret (Err e))
    | Ret (Ok data) =>
      match checked_add64 offset (len data) with
      | None => (v, Ret (Err InvalidArgument))
      | Some new_offset => (commit_offset pid fd inode new_offset v, Ret (Ok data))
      end
    end.

(* @src kernel/src/vfs/mod.rs 202-223 read *)
Definition read (c : Caller) (fd n : Z) : IO Vfs (list Z) :=
  fun v =>
    match file_of c fd v with
    | Err e => (v, Ret (Err e))
    | Ok file =>
      if negb (of_readable file) then (v, Ret (Err PermissionDenied))
      else read_inode (pid_or_0 c) fd (of_inode file) (of_offset file) n v
    end.

(* @src kernel/src/vfs/mod.rs 246-252 write (after the snapshot) *)
Definition write_inode (pid fd : Z) (inode : I) (offset : Z) (buf : list Z) : IO Vfs Z :=
  fun v =>
    let '(w, out) := i_write_at inode offset buf (v_world v) in
    let v := set_world w v in
    match out with
    | Park => (v, Park)
    | Ret (Err e) => (v, Ret (Err e))
    | Ret (Ok n) =>
      match checked_add64 offset n with
      | None => (v, Ret (Err InvalidArgument))
      | Some new_offset => (commit_offset pid fd inode new_offset v, Ret (Ok n))
      end
    end.

(* @src kernel/src/vfs/mod.rs 225-253 write *)
Definition write (c : Caller) (fd : Z) (buf : list Z) : IO Vfs Z :=
  fun v =>
    match file_of c fd v with
    | Err e => (v, Ret (Err e))
    | Ok file =>
      if negb (of_writable file) then (v, Ret (Err PermissionDenied))
      else
        let offset := if of_append file then i_size (of_inode file) (v_world v) else of_offset file in
        write_inode (pid_or_0 c) fd (of_inode file) offset buf v
    end.

(* @src kernel/src/vfs/file.rs 88-96 OpenFile::seek *)
Definition seek_file (pos : SeekFrom) (file : OpenFile I) (w : W) : KResult Z :=
  match pos with
  | Start n => Ok n
  | Current d => offset_add (of_offset file) d
  | End d => offset_add (i_size (of_inode file) w) d
  end.

(* @src kernel/src/vfs/mod.rs 255-261 seek *)
Definition seek (c : Caller) (fd : Z) (pos : SeekFrom) : ST Vfs Z :=
  fun v =>
    on_table (pid_or_0 c) (fun t =>
      match fd_get fd t with
      | Err e => (t, Err e)
      | Ok file =>
        match seek_file pos file (v_world v) with
        | Err e => (t, Err e)
        | Ok n => (<[Z.to_nat fd := Some (set_offset n file)]> t, Ok n)
        end
      end) v.

(** ** Names *)

(* @src kernel/src/vfs/mod.rs 263-269 mkdir *)
Definition mkdir (c : Caller) (path : string) : ST Vfs unit :=
  fun v =>
    let '(v, found) := resolve c path v in
    if is_ok found then (v, Err AlreadyExists) else (_ ← create_path c path Dir; mret tt) v.
(* @src kernel/src/vfs/mod.rs 271-277 mkfifo *)
Definition mkfifo (c : Caller) (path : string) : ST Vfs unit :=
  fun v =>
    let '(v, found) := resolve c path v in
    if is_ok found then (v, Err AlreadyExists) else (_ ← create_path c path Fifo; mret tt) v.

(** [s.trim_end_matches('/')]. *)
Fixpoint trim_end_slashes (s : string) : string :=
  match s with
  | EmptyString => EmptyString
  | String c s' =>
    let t := trim_end_slashes s' in
    if bool_decide (c = slash) && bool_decide (t = EmptyString) then EmptyString else String c t
  end.

(** The last name of a path as it is written, trailing slashes apart. *)
(* @src kernel/src/vfs/mod.rs 300-304 unlink (last name) *)
Definition last_name (path : string) : string := List.last (split_slash (trim_end_slashes path)) EmptyString.

(* @src kernel/src/vfs/mod.rs 279-313 unlink *)
Definition unlink (c : Caller) (path : string) : ST Vfs unit :=
  let last := last_name path in
  if bool_decide (last = "."%string) || bool_decide (last = ".."%string) then fail InvalidArgument
  else
    norm ← lift (normalize c path);
    parts ← lift (split_parent norm);
    let '(parent_path, name) := parts in
    parent ← resolve c parent_path;
    on_world (i_unlink parent name).

(** The loop of [readdir], of at most [fuel] entries. *)
(* @src kernel/src/vfs/mod.rs 320-330 readdir (loop) *)
Fixpoint readdir_loop (dir : I) (index : Z) (out : list DirEntry) (fuel : nat) : ST Vfs (list DirEntry) :=
  match fuel with
  | O => fail InvalidArgument
  | S fuel' =>
    entry ← on_world (i_readdir dir index);
    match entry with
    | Some e => index' ← lift (ok_or (checked_add32 index 1) InvalidArgument); readdir_loop dir index' (out ++ [e]) fuel'
    | None => mret out
    end
  end.

(** The mounts that are not in the listing yet. *)
(* @src kernel/src/vfs/mod.rs 333-341 readdir (mounts) *)
Fixpoint add_mounts (children : list (string * InodeKind)) (out : list DirEntry) : list DirEntry :=
  match children with
  | [] => out
  | (name, kind) :: cs =>
    add_mounts cs (if existsb (fun e => bool_decide (de_name e = name)) out then out else out ++ [mkDirEntry name kind 1])
  end.

(* @src kernel/src/vfs/mod.rs 315-345 readdir *)
Definition readdir (c : Caller) (path : string) (fuel : nat) : ST Vfs (list DirEntry) :=
  dir ← resolve c path;
  st (fun v =>
    if negb (bool_decide (i_kind dir (v_world v) = Dir)) then (v, Err NotADirectory)
    else
      match readdir_loop dir 0 [] fuel v with
      | (v, Err e) => (v, Err e)
      | (v, Ok out) =>
        match child_mounts c path v with
        | (v, Ok children) => (v, Ok (add_mounts children out))
        | (v, Err _) => (v, Ok out)
        end
      end).

(** ** Descriptors *)

(** [create_pipe], for the two ends the pipe made. *)
(* @src kernel/src/vfs/mod.rs 357-371 create_pipe *)
Definition insert_pipe (c : Caller) (read_inode write_inode : I) : ST Vfs (Z * Z) :=
  read_file ← open_new read_inode RDONLY;
  write_file ← open_new write_inode WRONLY;
  st (fun v =>
    let '(v, r) := on_table (pid_or_0 c) (fun t =>
      match fd_insert read_file t with
      | (t, Err e) => (t, Err e)
      | (t, Ok r_fd) =>
        match fd_insert write_file t with
        | (t, Ok w_fd) => (t, Ok (r_fd, w_fd))
        | (t, Err e) => ((fd_remove r_fd t).1, Err e)
        end
      end) v in
    match r with
    | Ok _ => (v, r)
    | Err _ => (set_world (i_drop read_inode (i_drop write_inode (v_world v))) v, r)
    end).

(* @src kernel/src/vfs/mod.rs 382-394 seed_fd_table *)
Definition seed_fd_table (pid : Z) (inode : I) : ST Vfs unit :=
  stdin ← open_new inode RDONLY;
  stdout ← open_new inode WRONLY;
  stderr ← open_new inode WRONLY;
  st (fun v => (set_tables (<[pid := [Some stdin; Some stdout; Some stderr]]> (v_tables v)) v, Ok tt)).

(* @src kernel/src/vfs/mod.rs 396-401 insert_open_file *)
Definition insert_open_file (c : Caller) (file : OpenFile I) : ST Vfs Z := on_table (pid_or_0 c) (fd_insert file).
(* @src kernel/src/vfs/mod.rs 403-409 get_inode *)
Definition get_inode (c : Caller) (fd : Z) (v : Vfs) : KResult I := f ← file_of c fd v; mret (of_inode f).

(* @src kernel/src/vfs/mod.rs 419-442 dup2 *)
Definition dup2 (c : Caller) (oldfd newfd : Z) : ST Vfs Z :=
  if (oldfd <? 0) || (newfd <? 0) || (MAX_OPEN_FILES <=? newfd) then fail BadFd
  else on_table (pid_or_0 c) (fd_dup2 oldfd newfd).

(* @src kernel/src/vfs/mod.rs 445-458 dup *)
Definition dup (c : Caller) (fd : Z) : ST Vfs Z :=
  if fd <? 0 then fail BadFd
  else on_table (pid_or_0 c) (fun t =>
    match t !! Z.to_nat fd with Some (Some f) => fd_insert f t | _ => (t, Err BadFd) end).

(* @src kernel/src/vfs/mod.rs 467-486 dup2_in *)
Definition dup2_in (pid oldfd newfd : Z) : ST Vfs Z :=
  if (oldfd <? 0) || (newfd <? 0) || (MAX_OPEN_FILES <=? newfd) then fail BadFd
  else on_table pid (fd_dup2 oldfd newfd).

(* @src kernel/src/vfs/mod.rs 490-498 close_in *)
Definition close_in (pid fd : Z) (v : Vfs) : Vfs := if fd <? 0 then v else (on_table pid (fd_remove fd) v).1.

(* @src kernel/src/vfs/mod.rs 500-506 clone_fd_table *)
Definition clone_fd_table (parent_pid child_pid : Z) (v : Vfs) : Vfs :=
  match v_tables v !! parent_pid with
  | Some t => set_tables (<[child_pid := t]> (v_tables v)) v
  | None => v
  end.

(* @src kernel/src/vfs/mod.rs 98-101 cleanup_process_fds *)
Definition cleanup_process_fds (pid : Z) (v : Vfs) : Vfs := set_tables (delete pid (v_tables v)) v.

(** The interface the processes use. *)
#[export] Instance vfs_fd_tables : FdTables Vfs := {
  fd_clone := clone_fd_table;
  fd_cleanup := cleanup_process_fds;
  fd_pids := fun v => dom (v_tables v);
}.

#[export] Instance vfs_fd_tables_laws : FdTablesLaws Vfs.
Proof.
  split; cbn; unfold clone_fd_table, cleanup_process_fds.
  - intros parent child d. destruct (v_tables d !! parent); cbn; set_solver.
  - intros pid d. cbn. by rewrite dom_delete_L.
Qed.
End Vfs.
Arguments Vfs : clear implicits.
