(* ===== verification/VfsOps.v ===== *)
(** * VfsOps: what the VFS promises

    Descriptors (lowest free number, at most 64, private to a process, dropped with
    their last holder), the mount a path falls under, and reading and writing
    through a descriptor, down to any file system that meets [FileLaws]. *)

From S2P Require Import Prelude Path Inode Process Vfs.

Open Scope Z_scope.

(** ** One table *)

Section Table.
Context {I : Type}.
Implicit Types (t : FdTable I) (f : OpenFile I).

Lemma first_free_spec t : forall i,
  match first_free t i with
  | Some j => (i <= j < i + length t)%nat /\ t !! (j - i)%nat = Some None /\
      forall k, (k < j - i)%nat -> exists g, t !! k = Some (Some g)
  | None => forall k, (k < length t)%nat -> exists g, t !! k = Some (Some g)
  end.
Proof.
  induction t as [|[g|] t IH]; intros i; cbn [first_free].
  - cbn. lia.
  - specialize (IH (S i)). destruct (first_free t (S i)) as [j|].
    + destruct IH as (H1 & H2 & H3). cbn [length]. split; [lia|]. replace (j - i)%nat with (S (j - S i)) by lia.
      split; [exact H2|]. intros [|k] Hk; [cbn; eauto|]. apply H3. lia.
    + intros [|k] Hk; [cbn; eauto|]. apply IH. cbn in Hk. lia.
  - cbn [length]. split; [lia|]. replace (i - i)%nat with 0%nat by lia. split; [done|lia].
Qed.

(** The open file of descriptor [fd]. *)
Definition fd_file t (fd : Z) : option (OpenFile I) := match fd_get fd t with Ok f => Some f | Err _ => None end.

Lemma fd_file_Some t fd f : fd_file t fd = Some f <-> 0 <= fd /\ t !! Z.to_nat fd = Some (Some f).
Proof.
  unfold fd_file, fd_get. destruct (Z.ltb_spec fd 0); [split; [done|lia]|].
  destruct (t !! Z.to_nat fd) as [[g|]|]; naive_solver.
Qed.

Lemma fd_file_nth t (n : nat) f : fd_file t (Z.of_nat n) = Some f <-> t !! n = Some (Some f).
Proof. rewrite fd_file_Some, Nat2Z.id. split; [tauto|intros; split; [lia|done]]. Qed.

Lemma fd_file_insert t (n : nat) o fd :
  (n < length t)%nat -> fd_file (<[n := o]> t) fd = if decide (fd = Z.of_nat n) then o else fd_file t fd.
Proof.
  intros Hn. unfold fd_file, fd_get. case_decide as Hd.
  - subst fd. destruct (Z.ltb_spec (Z.of_nat n) 0); [lia|]. rewrite Nat2Z.id, list_lookup_insert_eq by done. by destruct o.
  - destruct (Z.ltb_spec fd 0); [done|]. rewrite list_lookup_insert_ne by lia. done.
Qed.

Lemma fd_file_app t (k : list (option (OpenFile I))) fd : Forall (eq None) k -> fd_file (t ++ k) fd = fd_file t fd.
Proof.
  intros Hk. unfold fd_file, fd_get. destruct (Z.ltb_spec fd 0); [done|].
  destruct (decide (Z.to_nat fd < length t)%nat); [by rewrite lookup_app_l|]. rewrite lookup_app_r by lia.
  rewrite (lookup_ge_None_2 t) by lia. destruct (k !! (Z.to_nat fd - length t)%nat) as [o|] eqn:E; [|done].
  rewrite Forall_lookup in Hk. by rewrite <- (Hk _ _ E).
Qed.

(** [fd] is the lowest descriptor that is not open. *)
Definition lowest_free t (fd : Z) : Prop :=
  0 <= fd /\ fd_file t fd = None /\ forall k, 0 <= k < fd -> is_Some (fd_file t k).

Lemma fd_insert_spec f t :
  len t <= MAX_OPEN_FILES ->
  match fd_insert f t with
  | (t', Ok fd) => lowest_free t fd /\ fd < MAX_OPEN_FILES /\ len t' <= MAX_OPEN_FILES /\
      forall k, fd_file t' k = if decide (k = fd) then Some f else fd_file t k
  | (t', Err e) => t' = t /\ e = TableFull /\ forall k, 0 <= k < MAX_OPEN_FILES -> is_Some (fd_file t k)
  end.
Proof.
  intros Hl. unfold fd_insert. pose proof (first_free_spec t 0) as Hs. destruct (first_free t 0) as [i|].
  - destruct Hs as (H1 & H2 & H3). rewrite Nat.sub_0_r in H2, H3. split; [split; [lia|split]|split; [|split]].
    + unfold fd_file, fd_get. destruct (Z.ltb_spec (Z.of_nat i) 0); [lia|]. by rewrite Nat2Z.id, H2.
    + intros k Hk. destruct (H3 (Z.to_nat k) ltac:(lia)) as [g Hg]. exists g. apply fd_file_Some. split; [lia|done].
    + unfold MAX_OPEN_FILES in *. lia.
    + by rewrite length_insert.
    + intros k. apply fd_file_insert. lia.
  - assert (Hall : forall k, 0 <= k < len t -> is_Some (fd_file t k)).
    { intros k Hk. destruct (Hs (Z.to_nat k) ltac:(lia)) as [g Hg]. exists g. apply fd_file_Some. split; [lia|done]. }
    destruct (Z.leb_spec MAX_OPEN_FILES (len t)) as [Hge|Hlt].
    + split; [done|]. split; [done|]. intros k Hk. apply Hall. lia.
    + split; [split; [lia|split; [|done]]|split; [done|split]].
      * unfold fd_file, fd_get. destruct (Z.ltb_spec (len t) 0); [lia|]. by rewrite Nat2Z.id, lookup_ge_None_2.
      * rewrite length_app. cbn. unfold MAX_OPEN_FILES in *. lia.
      * intros k. assert (E : t ++ [Some f] = <[length t := Some f]> (t ++ [None])) by (by rewrite insert_app_r_alt, Nat.sub_diag).
        rewrite E, fd_file_insert by (rewrite length_app; cbn; lia). rewrite fd_file_app by (by repeat constructor). done.
Qed.

Lemma fd_remove_spec fd t :
  match fd_remove fd t with
  | (t', Ok _) => is_Some (fd_file t fd) /\ len t' = len t /\ forall k, fd_file t' k = if decide (k = fd) then None else fd_file t k
  | (t', Err e) => t' = t /\ e = BadFd /\ fd_file t fd = None
  end.
Proof.
  unfold fd_remove. destruct (Z.ltb_spec fd 0) as [Hn|Hp].
  - split; [done|]. split; [done|]. unfold fd_file, fd_get. by destruct (Z.ltb_spec fd 0); [|lia].
  - destruct (t !! Z.to_nat fd) as [[g|]|] eqn:E.
    + split; [exists g; by apply fd_file_Some|]. split; [by rewrite length_insert|]. intros k.
      rewrite fd_file_insert by (by eapply lookup_lt_Some). by rewrite Z2Nat.id by lia.
    + split; [done|]. split; [done|]. unfold fd_file, fd_get. destruct (Z.ltb_spec fd 0); [done|]. by rewrite E.
    + split; [done|]. split; [done|]. unfold fd_file, fd_get. destruct (Z.ltb_spec fd 0); [done|]. by rewrite E.
Qed.

Lemma fd_dup2_spec oldfd newfd t :
  0 <= oldfd -> 0 <= newfd < MAX_OPEN_FILES -> len t <= MAX_OPEN_FILES ->
  match fd_dup2 oldfd newfd t with
  | (t', Ok fd) => fd = newfd /\ len t' <= MAX_OPEN_FILES /\ exists f, fd_file t oldfd = Some f /\
      forall k, fd_file t' k = if decide (k = newfd) then Some f else fd_file t k
  | (t', Err e) => t' = t /\ e = BadFd /\ fd_file t oldfd = None
  end.
Proof.
  intros Ho Hn Hl. unfold fd_dup2. assert (Hold : forall o, t !! Z.to_nat oldfd = o ->
    fd_file t oldfd = match o with Some (Some f) => Some f | _ => None end).
  { intros o <-. unfold fd_file, fd_get. destruct (Z.ltb_spec oldfd 0); [lia|]. by destruct (t !! Z.to_nat oldfd) as [[]|]. }
  destruct (t !! Z.to_nat oldfd) as [[f|]|] eqn:E; pose proof (Hold _ eq_refl) as Hf; [|done|done].
  destruct (Z.eqb_spec oldfd newfd) as [->|Hne].
  - split; [done|]. split; [done|]. exists f. split; [done|]. intros k. by case_decide; [subst|].
  - split; [done|]. rewrite length_insert, length_app, length_replicate. split; [unfold MAX_OPEN_FILES in *; lia|].
    exists f. split; [done|]. intros k. rewrite fd_file_insert by (rewrite length_app, length_replicate; lia).
    rewrite Z2Nat.id by lia. rewrite fd_file_app; [done|]. apply Forall_forall. by intros o ->%elem_of_replicate_inv.
Qed.
End Table.

(** ** The VFS *)

Section VfsOps.
Context {W I : Type} `{!Inode W I, !EqDecision I, !Droppable W I}.
Implicit Types (v : Vfs W I) (c : Caller).

(** Computations that change nothing but the world of the file systems. *)
Definition world_only {A} (m : ST (Vfs W I) A) : Prop :=
  forall v, v_tables (m v).1 = v_tables v /\ v_mounts (m v).1 = v_mounts v.

Lemma wo_ret {A} (r : KResult A) : world_only (lift r).
Proof. done. Qed.
Lemma wo_bind {A B} (m : ST (Vfs W I) A) (f : A -> ST (Vfs W I) B) :
  world_only m -> (forall a, world_only (f a)) -> world_only (a ← m; f a).
Proof.
  intros Hm Hf v. unfold mbind, ST_bind. specialize (Hm v). destruct (m v) as [v1 [a|e]]; cbn in *; [|done].
  destruct (Hf a v1) as [-> ->]. done.
Qed.
Lemma wo_on_world {A} (m : ST W A) : world_only (on_world m).
Proof. intros v. unfold on_world. by destruct (m (v_world v)). Qed.
Lemma wo_foldM {A B} (f : B -> A -> ST (Vfs W I) B) l : (forall b a, world_only (f b a)) -> forall b, world_only (foldM f b l).
Proof. intros Hf. induction l as [|a l IH]; intros b; cbn [foldM]; [apply (wo_ret (Ok b))|]. by apply wo_bind. Qed.

Lemma wo_resolve c path : world_only (resolve c path).
Proof.
  apply wo_bind; [apply wo_ret|]. intros norm v. unfold st. destruct (best_mount _ _ _) as [[fs n]|]; [|done].
  apply wo_foldM. intros b a. apply wo_on_world.
Qed.

Lemma wo_create_path c path k : world_only (create_path c path k).
Proof.
  apply wo_bind; [apply wo_ret|]. intros norm. apply wo_bind; [apply wo_ret|]. intros [parent name].
  destruct (_ <? _); [apply (wo_ret (Err NameTooLong))|]. apply wo_bind; [apply wo_resolve|]. intros p v. unfold st.
  destruct (negb _); [done|]. apply wo_on_world.
Qed.

Lemma wo_open_new i flags : world_only (open_new i flags).
Proof.
  unfold open_new. destruct (_ && _); [apply (wo_ret (Err InvalidArgument))|]. apply wo_bind; [|intros []; apply (wo_ret (Ok _))].
  destruct (_ && _); [apply wo_on_world|apply (wo_ret (Ok tt))].
Qed.

Lemma set_tables_tables (ts : gmap Z (FdTable I)) v : v_tables (set_tables ts v) = ts /\ v_mounts (set_tables ts v) = v_mounts v.
Proof. done. Qed.

Definition tables_ok v : Prop := forall p t, v_tables v !! p = Some t -> len t <= MAX_OPEN_FILES.

(** [v'] differs from [v], in its tables, by the table of the caller only, which stays within the limit. *)
Definition own_table c v v' : Prop :=
  tables_ok v' /\ v_mounts v' = v_mounts v /\ forall p, p <> pid_or_0 c -> v_tables v' !! p = v_tables v !! p.

Lemma own_refl c v : tables_ok v -> own_table c v v.
Proof. done. Qed.

Lemma own_world_only {A} (m : ST (Vfs W I) A) c v : world_only m -> tables_ok v -> own_table c v (m v).1.
Proof. intros Hm Hv. destruct (Hm v) as [E1 E2]. split; [|split; [done|by rewrite E1]]. intros p t. rewrite E1. apply Hv. Qed.

Lemma own_trans c v v1 v' : own_table c v v1 -> own_table c v1 v' -> own_table c v v'.
Proof. intros (H1 & H2 & H3) (H4 & H5 & H6). split; [done|]. split; [congruence|]. intros p Hp. rewrite H6, H3; done. Qed.

Lemma own_on_table {A} (f : FdTable I -> FdTable I * KResult A) c v :
  tables_ok v -> (forall t, len t <= MAX_OPEN_FILES -> len (f t).1 <= MAX_OPEN_FILES) -> own_table c v (on_table (pid_or_0 c) f v).1.
Proof.
  intros Hv Hf. unfold on_table. destruct (v_tables v !! pid_or_0 c) as [t|] eqn:E; [|done].
  specialize (Hf t (Hv _ _ E)). destruct (f t) as [t' r]. cbn [fst] in *. split; [|split; [done|]].
  - intros p u. cbn. intros [[<- <-]|[_ Hu]]%lookup_insert_Some; [done|by eapply Hv].
  - intros p Hp. cbn. by rewrite lookup_insert_ne.
Qed.

Lemma own_commit c fd i n v : tables_ok v -> own_table c v (commit_offset (pid_or_0 c) fd i n v).
Proof.
  intros Hv. unfold commit_offset. destruct (v_tables v !! pid_or_0 c) as [t|] eqn:E; [|done].
  destruct (fd_get fd t); [|done]. case_decide; [|done]. split; [|split; [done|]].
  - intros p u. cbn. intros [[<- <-]|[_ Hu]]%lookup_insert_Some; [rewrite length_insert|]; by eapply Hv.
  - intros p Hp. cbn. by rewrite lookup_insert_ne.
Qed.

Lemma fd_insert_len (f : OpenFile I) t : len t <= MAX_OPEN_FILES -> len (fd_insert f t).1 <= MAX_OPEN_FILES.
Proof. intros Ht. pose proof (fd_insert_spec f t Ht) as Hs. destruct (fd_insert f t) as [t' [fd|e]]; [apply Hs|by destruct Hs as [-> _]]. Qed.
Lemma fd_remove_len fd (t : FdTable I) : len (fd_remove fd t).1 = len t.
Proof. pose proof (fd_remove_spec fd t) as Hs. destruct (fd_remove fd t) as [t' [u|e]]; [apply Hs|by destruct Hs as [-> _]]. Qed.

(** The calls of the process [c]. *)
Inductive vcall (c : Caller) : Vfs W I -> Vfs W I -> Prop :=
  | vc_open path flags v : vcall c v (open c path flags v).1
  | vc_close fd v : vcall c v (close c fd v).1
  | vc_read fd n v : vcall c v (read c fd n v).1
  | vc_write fd buf v : vcall c v (write c fd buf v).1
  | vc_seek fd pos v : vcall c v (seek c fd pos v).1
  | vc_mkdir path v : vcall c v (mkdir c path v).1
  | vc_mkfifo path v : vcall c v (mkfifo c path v).1
  | vc_unlink path v : vcall c v (unlink c path v).1
  | vc_readdir path fuel v : vcall c v (readdir c path fuel v).1
  | vc_dup fd v : vcall c v (dup c fd v).1
  | vc_dup2 oldfd newfd v : vcall c v (dup2 c oldfd newfd v).1
  | vc_pipe i j v : vcall c v (insert_pipe c i j v).1
  | vc_insert f v : vcall c v (insert_open_file c f v).1.

Lemma own_open c path flags v : tables_ok v -> own_table c v (open c path flags v).1.
Proof.
  intros Hv. unfold open. destruct (resolve c path v) as [v1 found] eqn:E1.
  assert (O1 : own_table c v v1) by (pose proof (own_world_only (resolve c path) c v (wo_resolve c path) Hv) as O; by rewrite E1 in O).
  destruct (match found with Err NotFound => _ | _ => _ end) as [v2 found2] eqn:E2.
  assert (O2 : own_table c v v2).
  { assert (Hp : own_table c v (create_path c path File v1).1)
      by (eapply own_trans; [exact O1|]; apply own_world_only; [apply wo_create_path|apply O1]).
    destruct found as [i|[]]; try (injection E2 as <- <-; done). destruct (contains flags O_CREATE); [by rewrite E2 in Hp|].
    by injection E2 as <- <-. }
  destruct found2 as [i|e]; [|done]. destruct (_ && _); [done|]. eapply own_trans; [exact O2|]. unfold mbind, ST_bind.
  pose proof (own_world_only (open_new i flags) c v2 (wo_open_new i flags) (proj1 O2)) as O3.
  destruct (open_new i flags v2) as [v3 [f|e]]; cbn [fst] in *; [|done].
  eapply own_trans; [exact O3|]. apply own_on_table; [apply O3|apply fd_insert_len].
Qed.

Lemma own_mk c path k v : tables_ok v ->
  own_table c v (let '(v, found) := resolve c path v in
    if is_ok found then (v, Err AlreadyExists) else (_ ← create_path c path k; mret tt) v).1.
Proof.
  intros Hv. pose proof (own_world_only (resolve c path) c v (wo_resolve c path) Hv) as O.
  destruct (resolve c path v) as [v1 found]. cbn [fst] in O. destruct (is_ok found); [done|]. eapply own_trans; [exact O|].
  apply own_world_only; [|apply O]. apply wo_bind; [apply wo_create_path|]. intros _. apply (wo_ret (Ok tt)).
Qed.

Lemma wo_readdir_loop dir fuel : forall index out, world_only (readdir_loop dir index out fuel).
Proof.
  induction fuel as [|fuel IH]; intros index out; cbn [readdir_loop]; [apply (wo_ret (Err InvalidArgument))|].
  apply wo_bind; [apply wo_on_world|]. intros [e|]; [|apply (wo_ret (Ok out))]. apply wo_bind; [apply wo_ret|]. done.
Qed.

Lemma wo_child_mounts c path : world_only (child_mounts c path).
Proof. apply wo_bind; [apply wo_ret|]. done. Qed.

Lemma wo_readdir c path fuel : world_only (readdir c path fuel).
Proof.
  apply wo_bind; [apply wo_resolve|]. intros dir v. unfold st. destruct (negb _); [done|].
  pose proof (wo_readdir_loop dir fuel 0 [] v) as [E1 E2]. destruct (readdir_loop dir 0 [] fuel v) as [v1 [out|e]]; [|done].
  cbn [fst] in *. pose proof (wo_child_mounts c path v1) as [E3 E4]. destruct (child_mounts c path v1) as [v2 [ch|e]]; cbn in *; split; congruence.
Qed.

Lemma wo_unlink c path : world_only (unlink c path).
Proof.
  unfold unlink. destruct (_ || _); [apply (wo_ret (Err InvalidArgument))|]. apply wo_bind; [apply wo_ret|]. intros norm.
  apply wo_bind; [apply wo_ret|]. intros [parent name]. apply wo_bind; [apply wo_resolve|]. intros p. apply wo_on_world.
Qed.

Lemma own_read_inode c fd i off n v : tables_ok v -> own_table c v (read_inode (pid_or_0 c) fd i off n v).1.
Proof.
  intros Hv. unfold read_inode. destruct (i_read_at i off n (v_world v)) as [w [[data|e]|]]; try done.
  destruct (checked_add64 _ _); [|done]. by apply (own_commit c fd i _ (set_world w v)).
Qed.
Lemma own_write_inode c fd i off buf v : tables_ok v -> own_table c v (write_inode (pid_or_0 c) fd i off buf v).1.
Proof.
  intros Hv. unfold write_inode. destruct (i_write_at i off buf (v_world v)) as [w [[n|e]|]]; try done.
  destruct (checked_add64 _ _); [|done]. by apply (own_commit c fd i _ (set_world w v)).
Qed.

Lemma own_insert_pipe c i j v : tables_ok v -> own_table c v (insert_pipe c i j v).1.
Proof.
  intros Hv. unfold insert_pipe, mbind, ST_bind.
  pose proof (own_world_only (open_new i RDONLY) c v (wo_open_new i RDONLY) Hv) as O1.
  destruct (open_new i RDONLY v) as [v1 [rf|e]]; cbn [fst] in *; [|done].
  pose proof (own_world_only (open_new j WRONLY) c v1 (wo_open_new j WRONLY) (proj1 O1)) as O2.
  destruct (open_new j WRONLY v1) as [v2 [wf|e]]; cbn [fst] in *; [|by eapply own_trans].
  eapply own_trans; [exact O1|]. eapply own_trans; [exact O2|]. unfold st.
  match goal with |- context [on_table (pid_or_0 c) ?g v2] => pose proof (own_on_table g c v2 (proj1 O2)) as O3;
    destruct (on_table (pid_or_0 c) g v2) as [v3 [r|e]] end; cbn [fst] in *.
  - apply O3. intros t Ht. pose proof (fd_insert_len rf t Ht) as L1. destruct (fd_insert rf t) as [t1 [rfd|e]]; [|done]. cbn [fst] in L1.
    pose proof (fd_insert_len wf t1 L1) as L2. destruct (fd_insert wf t1) as [t2 [wfd|e]]; [done|]. cbn [fst] in *. by rewrite fd_remove_len.
  - destruct O3 as (A1 & A2 & A3).
    + intros t Ht. pose proof (fd_insert_len rf t Ht) as L1. destruct (fd_insert rf t) as [t1 [rfd|e']]; [|done]. cbn [fst] in L1.
      pose proof (fd_insert_len wf t1 L1) as L2. destruct (fd_insert wf t1) as [t2 [wfd|e']]; [done|]. cbn [fst] in *. by rewrite fd_remove_len.
    + by split.
Qed.

Lemma vcall_own c v v' : vcall c v v' -> tables_ok v -> own_table c v v'.
Proof.
  destruct 1 as [path flags v|fd v|fd n v|fd buf v|fd pos v|path v|path v|path v|path fuel v|fd v|oldfd newfd v|i j v|f v]; intros Hv.
  - by apply own_open.
  - apply own_on_table; [done|]. intros t Ht. by rewrite fd_remove_len.
  - unfold read. destruct (file_of c fd v); [|done]. destruct (negb _); [done|]. by apply own_read_inode.
  - unfold write. destruct (file_of c fd v); [|done]. destruct (negb _); [done|]. by apply own_write_inode.
  - apply own_on_table; [done|]. intros t Ht. destruct (fd_get fd t) as [f|]; [|done]. destruct (seek_file _ _ _); [|done]. cbn [fst]; by rewrite length_insert.
  - by apply own_mk.
  - by apply own_mk.
  - apply own_world_only; [apply wo_unlink|done].
  - apply own_world_only; [apply wo_readdir|done].
  - unfold dup. destruct (_ <? _); [done|]. apply own_on_table; [done|]. intros t Ht.
    destruct (t !! Z.to_nat fd) as [[f|]|]; [by apply fd_insert_len|done|done].
  - unfold dup2. destruct (_ || _) eqn:E; [done|]. apply own_on_table; [done|]. intros t Ht.
    apply orb_false_iff in E as [[E1%Z.ltb_ge E2%Z.ltb_ge]%orb_false_iff E3%Z.leb_gt].
    pose proof (fd_dup2_spec oldfd newfd t E1 ltac:(lia) Ht) as Hs.
    destruct (fd_dup2 oldfd newfd t) as [t' [fd|e]]; [apply Hs|by destruct Hs as [-> _]].
  - by apply own_insert_pipe.
  - apply own_on_table; [done|apply fd_insert_len].
Qed.
(** ** Handles *)

Lemma table_handles_elem (t : FdTable I) i : i ∈ table_handles t <-> exists fd f, fd_file t fd = Some f /\ of_inode f = i.
Proof.
  unfold table_handles. rewrite list_elem_of_fmap. setoid_rewrite list_elem_of_omap. split.
  - intros (f & -> & o & Ho & Hf). cbn in Hf. subst o. apply list_elem_of_lookup in Ho as [n Hn].
    exists (Z.of_nat n), f. split; [by apply fd_file_nth|done].
  - intros (fd & f & Hf & <-). apply fd_file_Some in Hf as [_ Hf]. exists f. split; [done|]. exists (Some f). split; [|done].
    by eapply list_elem_of_lookup_2.
Qed.

Lemma handles_elem (ts : gmap Z (FdTable I)) i :
  i ∈ handles ts <-> exists p t fd f, ts !! p = Some t /\ fd_file t fd = Some f /\ of_inode f = i.
Proof.
  unfold handles. rewrite list_elem_of_join. setoid_rewrite list_elem_of_fmap. split.
  - intros (l & Hi & [p t] & -> & Hp). cbn in Hi. apply elem_of_map_to_list in Hp. apply table_handles_elem in Hi as (fd & f & ? & ?).
    by exists p, t, fd, f.
  - intros (p & t & fd & f & Hp & Hf & Hi). exists (table_handles t). split; [apply table_handles_elem; by exists fd, f|].
    exists (p, t). split; [done|]. by apply elem_of_map_to_list.
Qed.

(** What is dropped when the tables change: each handle no descriptor holds any more, once. *)
Lemma set_tables_keep ts v : (forall i, i ∈ handles (v_tables v) -> i ∈ handles ts) -> v_world (set_tables ts v) = v_world v.
Proof.
  intros Hk. unfold set_tables. cbn. destruct (filter _ _) as [|i l] eqn:E; [done|]. exfalso.
  assert (Hi : i ∈ i :: l) by (by left). rewrite <- E in Hi. apply list_elem_of_filter in Hi as [Hn Hi]. rewrite elem_of_remove_dups in Hi. exact (Hn (Hk _ Hi)).
Qed.

Lemma NoDup_only (l : list I) a : NoDup l -> (forall b, b ∈ l -> b = a) -> a ∈ l -> l = [a].
Proof.
  intros Hn Hl Ha. destruct l as [|b [|b' l]].
  - by apply not_elem_of_nil in Ha.
  - by rewrite (Hl b) by set_solver.
  - exfalso. apply NoDup_cons in Hn as [Hb _]. apply Hb. rewrite (Hl b) by set_solver. rewrite (Hl b') by set_solver. set_solver.
Qed.

Lemma set_tables_drop ts v a :
  (forall i, i ∈ handles (v_tables v) -> i = a \/ i ∈ handles ts) -> a ∈ handles (v_tables v) ->
  v_world (set_tables ts v) = if decide (a ∈ handles ts) then v_world v else i_drop a (v_world v).
Proof.
  intros Hk Ha. destruct (decide (a ∈ handles ts)) as [Hin|Hin].
  - apply set_tables_keep. intros i [->|?]%Hk; done.
  - unfold set_tables. cbn. rewrite (NoDup_only _ a); [done|..].
    + apply NoDup_filter, NoDup_remove_dups.
    + intros b [Hb1 Hb2]%list_elem_of_filter. rewrite elem_of_remove_dups in Hb2. by destruct (Hk b Hb2).
    + apply list_elem_of_filter. split; [done|]. by apply elem_of_remove_dups.
Qed.
End VfsOps.
