(* ===== verification/EspfsVfs.v ===== *)
(** * EspfsVfs: EspFs behind the VFS

    EspFs keeps the promises of [FileLaws]: the theorems of VfsOps.v hold for a VFS
    it is mounted in. *)

From S2P Require Import Prelude Flash Wire Inode Process Vfs Espfs EspfsFile EspfsTree EspfsSpec EspfsOps.

Open Scope Z_scope.

#[export] Instance EspNode_eq_dec : EqDecision EspNode.
Proof. solve_decision. Defined.

(** An [EspNode] has no destructor. *)
#[export] Instance esp_droppable {D} : Droppable (FsState * D) EspNode := {| i_drop := fun _ w => w |}.

Section EspfsVfs.
Context {D : Type} `{NorFlashLaws D} `{HR : !ReadsOk D}.
Implicit Types (w : FsState * D) (i : EspNode).

Definition esp_content w i : option (list Z) :=
  match view w !! en_ino i with Some (AFile c) => Some c | _ => None end.

Definition esp_entries w i : option (list DirEntry) :=
  match nodes w.1 !! en_ino i with
  | Some (mkNode _ (BDir m)) =>
    Some ((fun e : string * Z =>
      mkDirEntry e.1 (match nodes w.1 !! e.2 with Some n => n_kind n | None => File end) e.2) <$> btree_iter m)
  | _ => None
  end.

Lemma esp_content_Some w i c : esp_content w i = Some c <-> view w !! en_ino i = Some (AFile c).
Proof. unfold esp_content. destruct (view w !! en_ino i) as [[m|c']|]; naive_solver. Qed.

Lemma esp_content_view w w' i : view w' = view w -> esp_content w' i = esp_content w i.
Proof. intros E. unfold esp_content. by rewrite E. Qed.

Lemma esp_write_file w i c off buf :
  fs_inv w -> generation w.1 + 1 < 2 ^ 32 -> esp_content w i = Some c -> 0 <= off -> bytes_ok buf -> buf <> [] ->
  len buf < 2 ^ 31 - 8 ->
  exists w' res, i_write_at i off buf w = (w', Ret res) /\
    match res with
    | Ok n => n = len buf /\ fs_inv w' /\ esp_content w' i = Some (overwrite c off buf) /\
        forall j, j <> i -> esp_content w' j = esp_content w j
    | Err _ => forall j, esp_content w' j = esp_content w j
    end.
Proof.
  intros Hinv Hg Hc Ho Hb Hne Hl. cbn [i_write_at esp_inode]. unfold io. destruct w as [s d].
  destruct (write_file (en_ino i) off buf (s, d)) as [w' res] eqn:E. exists w', res. split; [done|].
  pose proof (write_file_spec s d (en_ino i) off buf w' res Hinv Hg Hb Hl Ho E) as Hs. apply esp_content_Some in Hc. rewrite Hc in Hs.
  destruct (decide (buf = [])); [done|]. destruct Hs as [(-> & Hi & Hv)|(e & -> & Hv & _)].
  - split; [done|]. split; [done|]. split; [apply esp_content_Some; by rewrite Hv, lookup_insert_eq|].
    intros [j] Hj. unfold esp_content. rewrite Hv, lookup_insert_ne; [done|]. destruct i as [i]. cbn. by intros ->.
  - intros j. by apply esp_content_view.
Qed.

#[export] Instance esp_file_laws : FileLaws (FsState * D) EspNode.
Proof.
  refine {| fl_inv := fs_inv; fl_ready := fun w => generation w.1 + 1 < 2 ^ 32;
            fl_content := esp_content; fl_entries := esp_entries |}.
  - intros w i c Hi Hc. apply esp_content_Some, view_file in Hc as (f & Hf & ->); [|done].
    cbn. unfold esp_size. rewrite Hf. cbn. symmetry. apply contents_length.
    destruct (node_file _ _ _ _ _ (v_tree _ Hi) Hf) as [_ [? _ _]]. lia.
  - intros w i c Hi Hc. apply esp_content_Some, view_file in Hc as (f & Hf & ->); [|done]. cbn. unfold esp_kind. by rewrite Hf.
  - intros [s d] i c off n Hi Hc Ho Hn. apply esp_content_Some in Hc. cbn. unfold io.
    by rewrite read_file_spec, Hc by (done || apply dev_reads).
  - apply esp_write_file.
  - intros [s d] i es k Hi He Hk. cbn. unfold readdir, esp_entries in *. cbn [fst] in *.
    destruct (nodes s !! en_ino i) as [[kd [m|f]]|]; [|done|done]. injection He as <-. rewrite list_lookup_fmap. cbn [n_body].
    by destruct (btree_iter m !! Z.to_nat k) as [[name cino]|].
Defined.
End EspfsVfs.
