(* ===== verification/VfsSpec.v ===== *)
(** * VfsSpec: the theorems of the VFS

    The mount a path falls under; opening and closing; reading, writing and seeking
    through a descriptor, over any file system with [FileLaws]; directory listings.
    The witnesses run on EspFs mounted at [/]. *)

From S2P Require Import Prelude Path Flash Wire Inode Espfs Process Vfs VfsOps EspfsSpec EspfsOps EspfsVfs.

Open Scope Z_scope.

Section VfsSpec.
Context {W I : Type} `{!Inode W I, !EqDecision I, !Droppable W I}.
Implicit Types (v : Vfs W I) (c : Caller) (f : OpenFile I).

(** ** Mount points *)

Lemma comps_prefix_spec mc target :
  (length mc <= length target)%nat -> comps_prefix mc target = true <-> mc `prefix_of` target.
Proof.
  revert target. induction mc as [|a mc IH]; intros [|b target] Hl; cbn [comps_prefix length] in *; try lia.
  - split; [|done]. intros _. apply prefix_nil.
  - split; [|done]. intros _. apply prefix_nil.
  - rewrite andb_true_iff, bool_decide_eq_true, IH by lia. split.
    + intros [-> Hp]. by apply prefix_cons.
    + intros Hp. split; [by eapply prefix_cons_inv_1|by eapply prefix_cons_inv_2].
Qed.

(** The choice of [best_mount]: a mount that covers the target, with the longest path. *)
Lemma best_mount_spec target (ms : list (string * FileSystem W I)) : forall best,
  match best_mount target ms best with
  | None => best = None /\ forall mp fs, (mp, fs) ∈ ms -> ~ (split_components mp `prefix_of` target)
  | Some (fs, n) =>
    (best = Some (fs, n) \/ exists mp, (mp, fs) ∈ ms /\ split_components mp `prefix_of` target /\ n = length (split_components mp)) /\
    (forall g k, best = Some (g, k) -> (k <= n)%nat) /\
    forall mp' fs', (mp', fs') ∈ ms -> split_components mp' `prefix_of` target -> (length (split_components mp') <= n)%nat
  end.
Proof.
  induction ms as [|[mp fs] ms IH]; intros best; cbn [best_mount].
  { destruct best as [[g k]|].
    - split; [by left|]. split; [by intros g' k' [= <- <-]|]. by intros ? ? ?%not_elem_of_nil.
    - split; [done|]. by intros ? ? ?%not_elem_of_nil. }
  set (mc := split_components mp).
  assert (Hstep : (if (length target <? length mc)%nat then best
      else if comps_prefix mc target then
        match best with Some (_, best_len) => if (best_len <? length mc)%nat then Some (fs, length mc) else best | None => Some (fs, length mc) end
      else best) =
    if decide (mc `prefix_of` target) then
      match best with Some (_, best_len) => if (best_len <? length mc)%nat then Some (fs, length mc) else best | None => Some (fs, length mc) end
    else best).
  { destruct (Nat.ltb_spec (length target) (length mc)) as [Hlt|Hge].
    - rewrite decide_False; [done|]. intros Hp%prefix_length. lia.
    - pose proof (comps_prefix_spec mc target Hge) as Hp. destruct (comps_prefix mc target).
      + by rewrite decide_True by tauto.
      + rewrite decide_False; [done|]. intros Hx. apply Hp in Hx. done. }
  rewrite Hstep. clear Hstep. destruct (decide (mc `prefix_of` target)) as [Hp|Hp].
  - specialize (IH (match best with Some (_, best_len) => if (best_len <? length mc)%nat then Some (fs, length mc) else best | None => Some (fs, length mc) end)).
    destruct (best_mount target ms _) as [[gs n]|].
    + destruct IH as (H1 & H2 & H3).
      assert (Hmc : (length mc <= n)%nat).
      { destruct best as [[g k]|]; [|by apply (H2 fs)]. destruct (Nat.ltb_spec k (length mc)); [by apply (H2 fs)|].
        pose proof (H2 g k eq_refl). lia. }
      split; [|split].
      * destruct H1 as [H1|(mp' & Hin & H1)]; [|right; exists mp'; split; [by right|done]].
        destruct best as [[g k]|].
        -- destruct (Nat.ltb_spec k (length mc)); [|by left]. injection H1 as <- <-. right. exists mp. split; [by left|done].
        -- injection H1 as <- <-. right. exists mp. split; [by left|done].
      * intros g k ->. destruct (Nat.ltb_spec k (length mc)); [lia|]. by apply (H2 g).
      * intros mp' fs' [[= -> ->]|Hin]%elem_of_cons Hpre; [done|]. by eapply H3.
    + destruct IH as [IH _]. destruct best as [[g k]|]; [|done]. by destruct (Nat.ltb_spec k (length mc)).
  - specialize (IH best). destruct (best_mount target ms best) as [[gs n]|].
    + destruct IH as (H1 & H2 & H3). split; [|split; [done|]].
      * destruct H1 as [H1|(mp' & Hin & H1)]; [by left|]. right. exists mp'. split; [by right|done].
      * intros mp' fs' [[= -> ->]|Hin]%elem_of_cons Hpre; [done|]. by eapply H3.
    + destruct IH as [-> IH]. split; [done|]. intros mp' fs' [[= -> ->]|Hin]%elem_of_cons; [done|]. by eapply IH.
Qed.

(** C17. [resolve] takes the mount point whose path is the longest prefix, component
    by component, of the normalized path, and looks the rest up from the root of
    its file system, a component at a time; with no such mount point it is
    [NotFound], and nothing else. *)
Theorem resolve_correct c path v :
  match normalize c path with
  | Err e => resolve c path v = (v, Err e)
  | Ok norm =>
    let target := split_components norm in
    (exists mp fs rest, (mp, fs) ∈ v_mounts v /\ target = split_components mp ++ rest /\
      (forall mp' fs', (mp', fs') ∈ v_mounts v -> split_components mp' `prefix_of` target ->
         (length (split_components mp') <= length (split_components mp))%nat) /\
      resolve c path v = foldM (fun node name => on_world (i_lookup node name)) (fs_root fs) rest v) \/
    ((forall mp fs, (mp, fs) ∈ v_mounts v -> ~ (split_components mp `prefix_of` target)) /\
     resolve c path v = (v, Err NotFound))
  end.
Proof.
  destruct (normalize c path) as [norm|e] eqn:En; unfold resolve, mbind, ST_bind, lift; rewrite En; [|done].
  cbn zeta. unfold st. pose proof (best_mount_spec (split_components norm) (v_mounts v) None) as Hs.
  destruct (best_mount _ _ _) as [[fs n]|].
  - left. destruct Hs as [[?|(mp & Hin & [rest Hr] & ->)] [_ Hmax]]; [done|]. exists mp, fs, rest.
    split; [done|]. split; [done|]. split; [done|]. by rewrite Hr, drop_app_length.
  - right. split; [apply Hs|done].
Qed.
(** ** Descriptors *)

(** [c] has the open file [f] as descriptor [fd]. *)
Definition has_fd v c (fd : Z) f : Prop := file_of c fd v = Ok f.

Lemma file_of_Ok v c fd f :
  file_of c fd v = Ok f <-> exists t, v_tables v !! pid_or_0 c = Some t /\ fd_file t fd = Some f.
Proof.
  unfold file_of, fd_file. destruct (v_tables v !! pid_or_0 c) as [t|]; cbn; [|naive_solver].
  split.
  - intros E. exists t. split; [done|]. by rewrite E.
  - intros (t' & [= <-] & E). destruct (fd_get fd t) as [g|e]; [by injection E as ->|done].
Qed.

Lemma file_of_table v c t fd : v_tables v !! pid_or_0 c = Some t -> file_of c fd v = fd_get fd t.
Proof. intros E. unfold file_of. by rewrite E. Qed.

Lemma fd_get_eq {J} (t t' : FdTable J) fd : fd_file t fd = fd_file t' fd -> fd_get fd t = fd_get fd t'.
Proof.
  unfold fd_file, fd_get. destruct (fd <? 0); [done|].
  destruct (t !! Z.to_nat fd) as [[g|]|], (t' !! Z.to_nat fd) as [[g'|]|]; congruence.
Qed.

Lemma fd_get_None {J} (t : FdTable J) fd : fd_file t fd = None -> fd_get fd t = Err BadFd.
Proof. unfold fd_file, fd_get. destruct (fd <? 0); [done|]. by destruct (t !! Z.to_nat fd) as [[g|]|]. Qed.

Lemma fd_get_Some {J} (t : FdTable J) fd (f : OpenFile J) : fd_file t fd = Some f -> fd_get fd t = Ok f.
Proof. unfold fd_file. destruct (fd_get fd t); congruence. Qed.

(** The descriptors of everybody after a change of one table. *)
Lemma file_of_insert v v' c t t' c' k :
  v_tables v !! pid_or_0 c = Some t -> v_tables v' = <[pid_or_0 c := t']> (v_tables v) ->
  file_of c' k v' = if decide (pid_or_0 c' = pid_or_0 c) then fd_get k t' else file_of c' k v.
Proof.
  intros Ht Hv. unfold file_of. rewrite Hv. destruct (decide (pid_or_0 c' = pid_or_0 c)) as [->|Hn].
  - by rewrite lookup_insert_eq.
  - by rewrite lookup_insert_ne.
Qed.

(** [v'] has the descriptors of [v] but for [fd] of [c], which is now [o]. *)
Definition one_fd v v' c (fd : Z) (o : KResult (OpenFile I)) : Prop :=
  forall c' k, file_of c' k v' = if decide (pid_or_0 c' = pid_or_0 c /\ k = fd) then o else file_of c' k v.

Lemma one_fd_intro v v' c t t' fd o :
  v_tables v !! pid_or_0 c = Some t -> v_tables v' = <[pid_or_0 c := t']> (v_tables v) ->
  fd_get fd t' = o -> (forall k, k <> fd -> fd_file t' k = fd_file t k) -> one_fd v v' c fd o.
Proof.
  intros Ht Hv Ho Hk c' k. rewrite (file_of_insert v v' c t t') by done.
  destruct (decide (pid_or_0 c' = pid_or_0 c)) as [E|E], (decide (k = fd)) as [->|En].
  - by rewrite decide_True.
  - rewrite decide_False by tauto. rewrite (file_of_table _ _ t) by (by rewrite E). by apply fd_get_eq, Hk.
  - by rewrite decide_False by tauto.
  - by rewrite decide_False by tauto.
Qed.

(** The inode that [open] finds, or makes. *)
Definition opened c path flags v v1 (i : I) : Prop :=
  resolve c path v = (v1, Ok i) \/
  contains flags O_CREATE = true /\ exists v0, resolve c path v = (v0, Err NotFound) /\ create_path c path File v0 = (v1, Ok i).

Lemma open_new_Ok i flags v v' f : open_new i flags v = (v', Ok f) ->
  f = mkOpenFile i 0 (contains flags RDONLY) (contains flags WRONLY) (contains flags O_APPEND) /\
  contains flags RDONLY || contains flags WRONLY = true /\
  v' = (if contains flags O_TRUNC && contains flags WRONLY then (on_world (i_truncate i 0) v).1 else v).
Proof.
  unfold open_new. destruct (contains flags RDONLY) eqn:Er, (contains flags WRONLY) eqn:Ew; cbn; try done;
    rewrite ?andb_false_r, ?andb_true_r; unfold mbind, ST_bind;
    try (destruct (contains flags O_TRUNC); cbn; [destruct (on_world (i_truncate i 0) v) as [v1 [[]|e]] eqn:E; cbn|]);
    cbn; intros [= <- <-]; done.
Qed.

(** [open] answers the lowest descriptor of the caller that is free, below
    [MAX_OPEN_FILES]; it names the inode found (or made, when it was missing and
    [O_CREATE] is set) at offset 0 with the access asked for, and no other
    descriptor of any process changes.  If it fails, no descriptor changes, and
    with the table full it does fail. *)
Theorem open_correct c path flags v v' r :
  tables_ok v -> open c path flags v = (v', r) ->
  match r with
  | Ok fd =>
    exists i v1 t, opened c path flags v v1 i /\ ~ (i_kind i (v_world v1) = Dir /\ contains flags WRONLY = true) /\
      contains flags RDONLY || contains flags WRONLY = true /\
      v_tables v !! pid_or_0 c = Some t /\ lowest_free t fd /\ 0 <= fd < MAX_OPEN_FILES /\
      one_fd v v' c fd (Ok (mkOpenFile i 0 (contains flags RDONLY) (contains flags WRONLY) (contains flags O_APPEND)))
  | Err e => forall c' k, file_of c' k v' = file_of c' k v
  end.
Proof.
  intros Hv. unfold open. destruct (resolve c path v) as [v1 found] eqn:E1.
  pose proof (wo_resolve c path v) as [T1 _]. rewrite E1 in T1. cbn [fst] in T1.
  destruct (match found with Err NotFound => _ | _ => _ end) as [v2 found2] eqn:E2.
  assert (H2 : v_tables v2 = v_tables v /\ (forall i, found2 = Ok i -> opened c path flags v v2 i)).
  { destruct found as [i|e0].
    - injection E2 as <- <-. split; [done|]. intros i' [= <-]. by left.
    - destruct e0; try (injection E2 as <- <-; by split). destruct (contains flags O_CREATE) eqn:Ec; [|injection E2 as <- <-; by split].
      pose proof (wo_create_path c path File v1) as [T2 _]. rewrite E2 in T2. cbn [fst] in T2. split; [congruence|].
      intros i ->. right. split; [done|]. by exists v1. }
  destruct H2 as [T2 Hop]. destruct found2 as [i|e]; [|intros [= <- <-] c' k; unfold file_of; by rewrite T2].
  destruct (bool_decide (i_kind i (v_world v2) = Dir) && contains flags WRONLY) eqn:Ed;
    [intros [= <- <-] c' k; unfold file_of; by rewrite T2|].
  unfold mbind, ST_bind. pose proof (wo_open_new i flags v2) as [T3 _].
  destruct (open_new i flags v2) as [v3 [f|e]] eqn:E3; cbn [fst] in T3; [|intros [= <- <-] c' k; unfold file_of; by rewrite T3, T2].
  apply open_new_Ok in E3 as (-> & Hacc & _). unfold on_table. rewrite T3, T2.
  destruct (v_tables v !! pid_or_0 c) as [t|] eqn:Et; [|intros [= <- <-] c' k; unfold file_of; by rewrite T3, T2].
  pose proof (fd_insert_spec (mkOpenFile i 0 (contains flags RDONLY) (contains flags WRONLY) (contains flags O_APPEND)) t (Hv _ _ Et)) as Hs.
  destruct (fd_insert _ t) as [t' [fd|e]]; intros [= <- <-].
  - destruct Hs as (Hlow & Hlt & _ & Hget). exists i, v2, t. split; [by apply Hop|]. split; [|split; [done|split; [done|split; [done|split]]]].
    + intros [Hd Hw]. by rewrite bool_decide_true, Hw in Ed.
    + destruct Hlow. lia.
    + apply (one_fd_intro v _ c t t'); [done|done|apply fd_get_Some; by rewrite Hget, decide_True|]. intros k Hk. by rewrite Hget, decide_False.
  - destruct Hs as [-> _]. intros c' k. unfold file_of. cbn. by rewrite insert_id.
Qed.

(** [close] frees exactly the descriptor; the file behind it is dropped when no
    descriptor of any process names it any more, and only then.  A descriptor that
    is not open is [BadFd], and nothing changes. *)
Theorem close_correct c fd v :
  match file_of c fd v with
  | Err e => e = BadFd /\ (close c fd v).2 = Err BadFd /\ v_world (close c fd v).1 = v_world v /\
      forall c' k, file_of c' k (close c fd v).1 = file_of c' k v
  | Ok f =>
    let v' := (close c fd v).1 in
    (close c fd v).2 = Ok tt /\ one_fd v v' c fd (Err BadFd) /\
    let held := exists p t k g, v_tables v' !! p = Some t /\ fd_file t k = Some g /\ of_inode g = of_inode f in
    (held -> v_world v' = v_world v) /\ (~ held -> v_world v' = i_drop (of_inode f) (v_world v))
  end.
Proof.
  unfold close, on_table. destruct (file_of c fd v) as [f|e] eqn:Ef.
  - apply file_of_Ok in Ef as (t & Et & Hf). rewrite Et. pose proof (fd_remove_spec fd t) as Hs.
    destruct (fd_remove fd t) as [t' [[]|e]] eqn:Er; [|destruct Hs as (_ & _ & Hn); congruence]. destruct Hs as (_ & _ & Hget).
    cbn [fst snd]. split; [done|]. split.
    { apply (one_fd_intro v _ c t t'); [done|done|apply fd_get_None; by rewrite Hget, decide_True|]. intros k Hk. by rewrite Hget, decide_False. }
    set (ts := <[pid_or_0 c := t']> (v_tables v)).
    assert (Hdrop : v_world (set_tables ts v) = if decide (of_inode f ∈ handles ts) then v_world v else i_drop (of_inode f) (v_world v)).
    { apply set_tables_drop; [|apply handles_elem; by exists (pid_or_0 c), t, fd, f]. intros i (p & u & k & g & Hp & Hg & <-)%handles_elem.
      destruct (decide (p = pid_or_0 c)) as [->|Hp']; [|right; apply handles_elem; exists p, u, k, g; split; [by unfold ts; rewrite lookup_insert_ne|done]].
      rewrite Et in Hp. injection Hp as <-. destruct (decide (k = fd)) as [->|Hk]; [left; congruence|].
      right. apply handles_elem. exists (pid_or_0 c), t', k, g. unfold ts. by rewrite lookup_insert_eq, Hget, decide_False. }
    cbn zeta. rewrite Hdrop. destruct (decide (of_inode f ∈ handles ts)) as [Hin|Hout].
    + split; [done|]. intros Hn. destruct Hn. by apply handles_elem.
    + split; [|done]. intros Hin. destruct Hout. by apply handles_elem.
  - destruct (v_tables v !! pid_or_0 c) as [t|] eqn:Et; [|unfold file_of in Ef; rewrite Et in Ef; by injection Ef as <-].
    rewrite (file_of_table _ _ t) in Ef by done. pose proof (fd_remove_spec fd t) as Hs.
    destruct (fd_remove fd t) as [t' [[]|e']].
    + destruct Hs as ([g Hg] & _). apply fd_get_Some in Hg. congruence.
    + destruct Hs as (-> & -> & Hn). apply fd_get_None in Hn. split; [congruence|]. split; [done|]. cbn [fst].
      rewrite insert_id by done. split; [by apply set_tables_keep|done].
Qed.
(** A call changes no other process's descriptors and no mount point, and no
    process ever has more than [MAX_OPEN_FILES]. *)
Theorem descriptors_private c v v' :
  vcall c v v' -> tables_ok v ->
  (forall p t, v_tables v' !! p = Some t -> len t <= MAX_OPEN_FILES) /\ v_mounts v' = v_mounts v /\
  forall c' fd, pid_or_0 c' <> pid_or_0 c -> file_of c' fd v' = file_of c' fd v.
Proof.
  intros Hc Hv. destruct (vcall_own c v v' Hc Hv) as (H1 & H2 & H3). split; [exact H1|]. split; [done|].
  intros c' fd Hp. unfold file_of. by rewrite H3.
Qed.

(** ** Reading and writing *)

Lemma commit_spec c fd f n v :
  file_of c fd v = Ok f -> let v' := commit_offset (pid_or_0 c) fd (of_inode f) n v in
  v_world v' = v_world v /\ v_mounts v' = v_mounts v /\ one_fd v v' c fd (Ok (set_offset n f)).
Proof.
  intros (t & Et & Hf)%file_of_Ok. cbn zeta. unfold commit_offset. rewrite Et, (fd_get_Some _ _ _ Hf), decide_True by done.
  split; [done|]. split; [done|]. apply fd_file_Some in Hf as [H0 Hf]. apply lookup_lt_Some in Hf as Hl.
  eapply (one_fd_intro v _ c t); [done|done|apply fd_get_Some|]; [rewrite fd_file_insert by done|intros k Hk; rewrite fd_file_insert by done];
    rewrite Z2Nat.id by done; [by rewrite decide_True|by rewrite decide_False].
Qed.

Lemma one_fd_same v v' c fd o : one_fd v v' c fd o -> file_of c fd v' = o.
Proof. intros H. by rewrite H, decide_True. Qed.

Lemma checked_add64_Some a b : a + b <= U64_MAX -> checked_add64 a b = Some (a + b).
Proof. intros. unfold checked_add64. destruct (Z.leb_spec (a + b) U64_MAX); [done|lia]. Qed.

Section Files.
Context `{HL : !FileLaws W I}.

Lemma read_spec c fd f content n v :
  fl_inv (v_world v) -> file_of c fd v = Ok f -> fl_content (v_world v) (of_inode f) = Some content ->
  of_readable f = true -> 0 <= of_offset f -> 0 <= n -> of_offset f + n <= U64_MAX ->
  let data := slice (of_offset f) n content in
  exists v', read c fd n v = (v', Ret (Ok data)) /\ v_world v' = v_world v /\ v_mounts v' = v_mounts v /\
    one_fd v v' c fd (Ok (set_offset (of_offset f + len data) f)).
Proof.
  intros Hi Hf Hc Hr Ho Hn Hu. cbn zeta. unfold read. rewrite Hf, Hr. cbn [negb]. unfold read_inode.
  rewrite (fl_read _ _ content) by done. cbn zeta.
  assert (Hl : len (slice (of_offset f) n content) <= n) by (unfold slice; rewrite length_take; lia).
  rewrite checked_add64_Some by lia. destruct v as [w ts ms]. cbn [set_world v_world] in *.
  eexists. split; [done|]. by apply commit_spec.
Qed.

(** Where a write goes. *)
Definition write_offset f (content : list Z) : Z := if of_append f then len content else of_offset f.

Lemma write_spec c fd f content buf v :
  fl_inv (v_world v) -> fl_ready (v_world v) -> file_of c fd v = Ok f -> fl_content (v_world v) (of_inode f) = Some content ->
  of_writable f = true -> 0 <= of_offset f -> bytes_ok buf -> buf <> [] -> len buf < 2 ^ 31 - 8 ->
  write_offset f content + len buf <= U64_MAX ->
  exists v' r, write c fd buf v = (v', Ret r) /\ v_mounts v' = v_mounts v /\
    match r with
    | Ok n => n = len buf /\ fl_inv (v_world v') /\
        fl_content (v_world v') (of_inode f) = Some (overwrite content (write_offset f content) buf) /\
        (forall j, j <> of_inode f -> fl_content (v_world v') j = fl_content (v_world v) j) /\
        one_fd v v' c fd (Ok (set_offset (write_offset f content + n) f))
    | Err _ => (forall j, fl_content (v_world v') j = fl_content (v_world v) j) /\ v_tables v' = v_tables v
    end.
Proof.
  intros Hi Hrd Hf Hc Hw Ho Hb Hne Hl Hu. unfold write. rewrite Hf, Hw. cbn [negb]. rewrite (fl_size _ _ content) by done.
  fold (write_offset f content). assert (Hoff : 0 <= write_offset f content) by (unfold write_offset; destruct (of_append f); lia).
  unfold write_inode. destruct (fl_write (v_world v) (of_inode f) content (write_offset f content) buf Hi Hrd Hc Hoff Hb Hne Hl) as (w' & res & E & Hres).
  rewrite E. destruct res as [n|e].
  - destruct Hres as (-> & Hi' & Hc' & Hj). rewrite checked_add64_Some by lia. eexists _, (Ok (len buf)). split; [done|].
    destruct (commit_spec c fd f (write_offset f content + len buf) (set_world w' v) Hf) as (Ew & Em & Ho').
    rewrite Ew, Em. split; [done|]. cbn [set_world v_world]. split; [done|]. split; [done|]. split; [done|]. split; [done|]. exact Ho'.
  - eexists _, (Err e). split; [done|]. split; [done|]. by split.
Qed.

(** C18. Reading through a descriptor on a regular file gives the bytes at its offset,
    as many as are there and fit, and moves the offset past them; writing puts all
    the bytes at the offset (at the end of the file under [O_APPEND]) and moves the
    offset past them, or fails with every file and every offset as it was. *)
Theorem read_write_correct c fd f content v :
  fl_inv (v_world v) -> file_of c fd v = Ok f -> fl_content (v_world v) (of_inode f) = Some content -> 0 <= of_offset f ->
  (forall n, of_readable f = true -> 0 <= n -> of_offset f + n <= U64_MAX ->
     let data := slice (of_offset f) n content in
     exists v', read c fd n v = (v', Ret (Ok data)) /\ v_world v' = v_world v /\
       one_fd v v' c fd (Ok (set_offset (of_offset f + len data) f))) /\
  (forall buf, of_writable f = true -> fl_ready (v_world v) -> bytes_ok buf -> buf <> [] -> len buf < 2 ^ 31 - 8 ->
     write_offset f content + len buf <= U64_MAX ->
     exists v' r, write c fd buf v = (v', Ret r) /\
       match r with
       | Ok n => n = len buf /\ fl_content (v_world v') (of_inode f) = Some (overwrite content (write_offset f content) buf) /\
           (forall j, j <> of_inode f -> fl_content (v_world v') j = fl_content (v_world v) j) /\
           one_fd v v' c fd (Ok (set_offset (write_offset f content + n) f))
       | Err _ => (forall j, fl_content (v_world v') j = fl_content (v_world v) j) /\ v_tables v' = v_tables v
       end) /\
  (forall n, of_readable f = false -> read c fd n v = (v, Ret (Err PermissionDenied))) /\
  (forall buf, of_writable f = false -> write c fd buf v = (v, Ret (Err PermissionDenied))).
Proof.
  intros Hi Hf Hc Ho. split; [|split; [|split]].
  - intros n Hr Hn Hu. destruct (read_spec c fd f content n v) as (v' & E1 & E2 & _ & E4); try done. by exists v'.
  - intros buf Hw Hrd Hb Hne Hl Hu. destruct (write_spec c fd f content buf v) as (v' & r & E1 & _ & E3); try done.
    exists v', r. split; [done|]. destruct r as [n|e]; [|done]. by destruct E3 as (? & _ & ? & ? & ?).
  - intros n Hr. unfold read. by rewrite Hf, Hr.
  - intros buf Hw. unfold write. by rewrite Hf, Hw.
Qed.

Lemma seek_start_spec c fd f n v : file_of c fd v = Ok f ->
  exists v', seek c fd (Start n) v = (v', Ok n) /\ v_world v' = v_world v /\ one_fd v v' c fd (Ok (set_offset n f)).
Proof.
  intros (t & Et & Hf)%file_of_Ok. unfold seek, on_table. rewrite Et, (fd_get_Some _ _ _ Hf). cbn [seek_file].
  eexists. split; [done|]. apply fd_file_Some in Hf as [H0 Hf]. apply lookup_lt_Some in Hf as Hlt.
  assert (Hget : forall k, fd_file (<[Z.to_nat fd := Some (set_offset n f)]> t) k = if decide (k = fd) then Some (set_offset n f) else fd_file t k)
    by (intros k; rewrite fd_file_insert, Z2Nat.id by done; done).
  split.
  - apply set_tables_keep. intros i (p & u & k & g & Hp & Hg & <-)%handles_elem. apply handles_elem.
    destruct (decide (p = pid_or_0 c)) as [->|Hn]; [|exists p, u, k, g; by rewrite lookup_insert_ne].
    rewrite Et in Hp. injection Hp as <-. eexists (pid_or_0 c), _, k. rewrite lookup_insert_eq.
    destruct (decide (k = fd)) as [->|Hk]; [|exists g; by rewrite Hget, decide_False].
    exists (set_offset n f). rewrite Hget, decide_True by done. split; [done|]. split; [done|].
    apply fd_file_Some in Hg as [_ Hg]. rewrite Hf in Hg. by injection Hg as <-.
  - eapply (one_fd_intro v _ c t); [done|done|apply fd_get_Some; by rewrite Hget, decide_True|]. intros k Hk. by rewrite Hget, decide_False.
Qed.

(** What is written is read back: after a write that succeeds, seeking to where
    it started and reading as many bytes gives exactly what was written. *)
Theorem write_seek_read c fd f content buf v v1 n :
  fl_inv (v_world v) -> fl_ready (v_world v) -> file_of c fd v = Ok f -> fl_content (v_world v) (of_inode f) = Some content ->
  of_writable f = true -> of_readable f = true -> 0 <= of_offset f -> bytes_ok buf -> buf <> [] -> len buf < 2 ^ 31 - 8 ->
  write_offset f content + len buf <= U64_MAX -> write c fd buf v = (v1, Ret (Ok n)) ->
  exists v2 v3, seek c fd (Start (write_offset f content)) v1 = (v2, Ok (write_offset f content)) /\
    read c fd (len buf) v2 = (v3, Ret (Ok buf)).
Proof.
  intros Hi Hrd Hf Hc Hw Hr Ho Hb Hne Hl Hu E.
  destruct (write_spec c fd f content buf v) as (v1' & r & E1 & _ & E3); try done. rewrite E in E1. injection E1 as <- <-.
  destruct E3 as (-> & Hi1 & Hc1 & _ & Hfd1). apply one_fd_same in Hfd1.
  assert (Hoff : 0 <= write_offset f content) by (unfold write_offset; destruct (of_append f); lia).
  destruct (seek_start_spec c fd _ (write_offset f content) v1 Hfd1) as (v2 & E2 & Hw2 & Hfd2). apply one_fd_same in Hfd2.
  exists v2. edestruct (read_spec c fd) as (v3 & E3 & _);
    [..|exists v3]; [rewrite Hw2; exact Hi1|exact Hfd2|rewrite Hw2; exact Hc1|done|done|exact (Nat2Z.is_nonneg (length buf))|done|]. split; [done|]. rewrite E3. cbn [set_offset of_offset].
  by rewrite slice_overwrite.
Qed.
(** ** Listings *)

Lemma readdir_loop_spec dir es v : fl_inv (v_world v) -> fl_entries (v_world v) dir = Some es -> len es <= U32_MAX ->
  forall k fuel, (k <= length es)%nat -> (length es - k < fuel)%nat ->
  readdir_loop dir (Z.of_nat k) (take k es) fuel v = (v, Ok es).
Proof.
  intros Hi He Hl k fuel. revert k. induction fuel as [|fuel IH]; intros k Hk Hf; [lia|]. cbn [readdir_loop].
  unfold mbind, ST_bind, on_world. rewrite (fl_readdir _ _ es) by (done || lia). rewrite Nat2Z.id.
  assert (Ev : set_world (v_world v) v = v) by (by destruct v). rewrite Ev. destruct (es !! k) as [e|] eqn:Ek.
  - apply lookup_lt_Some in Ek as Hlt. unfold checked_add32. destruct (Z.leb_spec (Z.of_nat k + 1) U32_MAX); [|lia].
    cbn. replace (Z.of_nat k + 1) with (Z.of_nat (S k)) by lia. rewrite <- (take_S_r es k e Ek). apply IH; lia.
  - apply lookup_ge_None in Ek. cbn. by rewrite take_ge by lia.
Qed.
End Files.

Lemma add_mounts_spec children : forall out,
  exists extra, add_mounts children out = out ++ extra /\
    Forall (fun e => (de_name e, de_kind e) ∈ children) extra /\
    (forall name kind, (name, kind) ∈ children -> name ∈ de_name <$> add_mounts children out) /\
    (NoDup (de_name <$> out) -> NoDup (de_name <$> add_mounts children out)).
Proof.
  induction children as [|[name kind] cs IH]; intros out; cbn [add_mounts].
  { exists []. rewrite app_nil_r. split; [done|]. split; [constructor|]. split; [by intros ? ? ?%not_elem_of_nil|done]. }
  destruct (existsb _ out) eqn:E.
  - destruct (IH out) as (extra & H1 & H2 & H3 & H4). exists extra. split; [done|]. split; [|split; [|done]].
    + eapply Forall_impl; [exact H2|]. intros e He. by right.
    + intros n k [[= -> ->]|Hin]%elem_of_cons; [|by eapply H3]. rewrite H1, fmap_app. apply elem_of_app. left.
      apply existsb_exists in E as (e & He & Hn%bool_decide_eq_true). apply list_elem_of_fmap. exists e. split; [done|]. by apply list_elem_of_In.
  - destruct (IH (out ++ [mkDirEntry name kind 1])) as (extra & H1 & H2 & H3 & H4). exists (mkDirEntry name kind 1 :: extra).
    rewrite <- app_assoc in H1. split; [done|]. split; [|split].
    + constructor; [by left|]. eapply Forall_impl; [exact H2|]. intros e He. by right.
    + intros n k [[= -> ->]|Hin]%elem_of_cons; [|by eapply H3]. rewrite H1, fmap_app. apply elem_of_app. right. by left.
    + intros Hn. apply H4. rewrite fmap_app. apply NoDup_app. split; [done|]. split; [|by apply NoDup_singleton].
      intros n Hin ->%list_elem_of_singleton. apply list_elem_of_fmap in Hin as (e & En & Hin).
      assert (Ht : existsb (fun e => bool_decide (de_name e = name)) out = true); [|congruence].
      apply existsb_exists. exists e. split; [by apply list_elem_of_In|]. by rewrite bool_decide_true.
Qed.

Lemma str_prefix_spec p : forall s, str_prefix p s = true <-> exists r, s = String.append p r.
Proof.
  induction p as [|a p IH]; intros [|b s]; cbn [str_prefix]; split; try done.
  - by exists EmptyString.
  - by exists (String b s).
  - by intros [r Hr].
  - intros [->%bool_decide_eq_true Hp]%andb_true_iff. apply IH in Hp as [r ->]. by exists r.
  - intros [r Hr]. injection Hr as -> ->. rewrite bool_decide_true by done. apply IH. by exists r.
Qed.

Lemma str_drop_append p r : str_drop (String.length p) (String.append p r) = r.
Proof. induction p as [|a p IH]; [done|exact IH]. Qed.
Lemma rfind_slash_no s : rfind_slash s = None <-> no_slash s.
Proof.
  split; [|apply rfind_slash_none]. induction s as [|a s IH]; [done|]. cbn [rfind_slash no_slash].
  destruct (rfind_slash s); [done|]. destruct (decide (a = slash)) as [->|Hn]; [by rewrite bool_decide_true|]. tauto.
Qed.

(** [name] is mounted directly below the directory [norm]. *)
Definition mounted_below (norm : string) v (name : string) (kind : InodeKind) : Prop :=
  exists fs, (String.append (if decide (norm = "/"%string) then "/"%string else String.append norm "/") name, fs) ∈ v_mounts v /\
    name <> EmptyString /\ no_slash name /\ kind = i_kind (fs_root fs) (v_world v).

Lemma child_mounts_spec c path norm v : normalize c path = Ok norm ->
  exists children, child_mounts c path v = (v, Ok children) /\
    forall name kind, (name, kind) ∈ children <-> mounted_below norm v name kind.
Proof.
  intros En. unfold child_mounts, mbind, ST_bind, lift, st. rewrite En. cbn [mret]. eexists. split; [done|].
  intros name kind. unfold mounted_below. rewrite list_elem_of_omap.
  set (prefix := if bool_decide (norm = "/"%string) then "/"%string else String.append norm "/").
  assert (Epre : (if decide (norm = "/"%string) then "/"%string else String.append norm "/") = prefix).
  { unfold prefix. destruct (decide (norm = "/"%string)); [by rewrite bool_decide_true|by rewrite bool_decide_false]. }
  rewrite Epre.
  assert (Hpre : prefix <> EmptyString).
  { unfold prefix. destruct (bool_decide _); [done|]. by destruct norm. }
  split.
  - intros ([mp fs] & Hin & Hm). cbn [fst snd] in Hm. destruct (negb _ && str_prefix prefix mp) eqn:E; [|done].
    apply andb_true_iff in E as [_ Hp]. apply str_prefix_spec in Hp as [r ->]. rewrite str_drop_append in Hm.
    destruct (negb (bool_decide (r = EmptyString)) && bool_decide (rfind_slash r = None)) eqn:E2; [|done].
    apply andb_true_iff in E2 as [Hr%negb_true_iff%bool_decide_eq_false Hs%bool_decide_eq_true]. injection Hm as <- <-.
    exists fs. split; [done|]. split; [done|]. split; [by apply rfind_slash_no|done].
  - intros (fs & Hin & Hne & Hs & ->). exists (String.append prefix name, fs). split; [done|]. cbn [fst snd].
    rewrite str_drop_append, (bool_decide_false (name = EmptyString)) by done.
    rewrite (bool_decide_true (rfind_slash name = None)) by (by apply rfind_slash_no).
    rewrite (proj2 (str_prefix_spec prefix (String.append prefix name))) by (by eexists). rewrite bool_decide_false; [done|].
    destruct prefix as [|a p]; [done|]. intros [= -> Hx]. destruct p; [|done]. by destruct name.
Qed.

(** C19. A listing is complete: with enough fuel for the entries of the directory
    [readdir] ends, with all of them in order, followed by every file system
    mounted directly below it that has no entry of its name; no name is repeated
    that was not already. *)
Theorem readdir_complete `{HL : !FileLaws W I} c path norm fuel v v1 dir es :
  normalize c path = Ok norm -> resolve c path v = (v1, Ok dir) -> fl_inv (v_world v1) -> i_kind dir (v_world v1) = Dir ->
  fl_entries (v_world v1) dir = Some es -> len es <= U32_MAX -> (length es < fuel)%nat ->
  exists extra, readdir c path fuel v = (v1, Ok (es ++ extra)) /\
    (forall e, e ∈ extra -> mounted_below norm v1 (de_name e) (de_kind e)) /\
    (forall name kind, mounted_below norm v1 name kind -> name ∈ de_name <$> es ++ extra) /\
    (NoDup (de_name <$> es) -> NoDup (de_name <$> es ++ extra)).
Proof.
  intros En Er Hi Hk He Hl Hf. destruct (child_mounts_spec c path norm v1 En) as (ch & Ec & Hch).
  destruct (add_mounts_spec ch es) as (extra & Ea & H1 & H2 & H3). rewrite Ea in H2, H3. exists extra. split.
  - unfold readdir, mbind at 1, ST_bind at 1. rewrite Er. unfold st. rewrite bool_decide_true by done. cbn [negb].
    pose proof (readdir_loop_spec dir es v1 Hi He Hl 0 fuel ltac:(lia) ltac:(lia)) as Hloop. change (Z.of_nat 0) with 0 in Hloop. rewrite take_0 in Hloop.
    by rewrite Hloop, Ec, Ea.
  - split; [|split; [|done]].
    + intros e Hin. apply Hch. rewrite Forall_forall in H1. by apply H1.
    + intros name kind Hb. apply (H2 name kind). by apply Hch.
Qed.
End VfsSpec.

(** ** EspFs mounted at the root *)

(** Process 1 in [/], with the tiny file system of EspfsOps.v, and a copy of it mounted at [/m]. *)
Definition shell : Caller := mkCaller (Some 1) (Some "/"%string).
Definition tiny_vfs (t : FdTable EspNode) : Vfs (FsState * nor_mem) EspNode :=
  mkVfs tiny_file {[1 := t]} [("/"%string, esp_fs); ("/m"%string, esp_fs)].
Definition f_rdwr : OpenFile EspNode := mkOpenFile (mkEspNode 2) 0 true true false.

Lemma tiny_vfs_ok o : tables_ok (tiny_vfs [o]).
Proof. intros p u Hp. cbn in Hp. by apply lookup_singleton_Some in Hp as [<- <-]. Qed.

Lemma tiny_vfs_inv t : fl_inv (v_world (tiny_vfs t)).
Proof. exact tiny_file_inv. Qed.

Definition vfs_opened : Vfs (FsState * nor_mem) EspNode := (open shell "f" (Z.lor RDWR O_CREATE) (tiny_vfs [None])).1.
Lemma vfs_opened_eq : open shell "f" (Z.lor RDWR O_CREATE) (tiny_vfs [None]) = (vfs_opened, Ok 0).
Proof. apply st_parts. vm_compute. reflexivity. Qed.

Lemma open_correct_witness :
  exists i v1 (t : FdTable EspNode), opened shell "f" (Z.lor RDWR O_CREATE) (tiny_vfs [None]) v1 i /\ lowest_free t 0.
Proof.
  pose proof (open_correct shell "f" (Z.lor RDWR O_CREATE) (tiny_vfs [None]) vfs_opened (Ok 0) (tiny_vfs_ok _) vfs_opened_eq)
    as (i & v1 & t & Ho & _ & _ & _ & Hl & _).
  by exists i, v1, t.
Defined.

Lemma descriptors_private_witness :
  file_of (mkCaller (Some 2) None) 0 (dup shell 0 (tiny_vfs [Some f_rdwr])).1 = Err BadFd.
Proof.
  destruct (descriptors_private shell (tiny_vfs [Some f_rdwr]) _ (vc_dup shell 0 _) (tiny_vfs_ok _)) as (_ & _ & H).
  by rewrite (H (mkCaller (Some 2) None) 0).
Defined.

Lemma read_write_correct_witness :
  exists v', read shell 0 10 (tiny_vfs [Some f_rdwr]) = (v', Ret (Ok [])) /\ v_world v' = tiny_file.
Proof.
  destruct (read_write_correct shell 0 f_rdwr [] (tiny_vfs [Some f_rdwr]) (tiny_vfs_inv _) eq_refl
    ltac:(vm_compute; reflexivity) ltac:(cbn; lia)) as (Hr & _).
  destruct (Hr 10 eq_refl ltac:(lia) ltac:(vm_compute; discriminate)) as (v' & E & Ew & _). by exists v'.
Defined.

Lemma write_seek_read_witness :
  exists v2 v3, seek shell 0 (Start 0) (write shell 0 [104; 105] (tiny_vfs [Some f_rdwr])).1 = (v2, Ok 0) /\
    read shell 0 2 v2 = (v3, Ret (Ok [104; 105])).
Proof.
  apply (write_seek_read shell 0 f_rdwr [] [104; 105] (tiny_vfs [Some f_rdwr]) _ 2 (tiny_vfs_inv _)).
  - vm_compute. reflexivity.
  - reflexivity.
  - vm_compute. reflexivity.
  - reflexivity.
  - reflexivity.
  - cbn. lia.
  - unfold bytes_ok, is_byte. repeat constructor; lia.
  - done.
  - cbn. lia.
  - vm_compute. discriminate.
  - apply st_parts. vm_compute. reflexivity.
Defined.

Lemma readdir_complete_witness :
  exists extra, readdir shell "." 5 (tiny_vfs []) = (tiny_vfs [], Ok (mkDirEntry "f" File 2 :: extra)) /\
    "m"%string ∈ de_name <$> mkDirEntry "f" File 2 :: extra.
Proof.
  destruct (readdir_complete shell "." "/" 5 (tiny_vfs []) (tiny_vfs []) (mkEspNode 1) [mkDirEntry "f" File 2]) as (extra & E & _ & H & _).
  - vm_compute. reflexivity.
  - reflexivity.
  - apply tiny_vfs_inv.
  - vm_compute. reflexivity.
  - vm_compute. reflexivity.
  - cbn. unfold U32_MAX. lia.
  - cbn. lia.
  - exists extra. split; [exact E|]. apply (H "m"%string Dir). exists esp_fs. split; [right; left|]. split; [done|]. split; [done|].
    vm_compute. reflexivity.
Defined.

