(* ===== verification/EspfsMount.v ===== *)
(** * EspfsMount: EspFs as the root of the VFS

    What the calls of the VFS do to the files of EspFs, as paths name them, when EspFs is
    the only mount: a path leads to the node that the names of the path lead to, and
    opening, writing and removing change at most the file at their path. *)

From S2P Require Import Prelude Path Flash Wire Inode Process Vfs VfsOps VfsSpec Espfs EspfsTree EspfsSpec EspfsOps EspfsVfs EspfsPaths.

Open Scope Z_scope.

(** ** The last name of a path *)

Lemma trim_end_no_slash s : no_slash s -> trim_end_slashes s = s.
Proof.
  induction s as [|a s IH]; cbn; [done|]. intros [Ha Hs]. rewrite IH by done. by rewrite (bool_decide_false (a = slash)).
Qed.
Lemma trim_end_app a b : trim_end_slashes b <> EmptyString -> trim_end_slashes (String.append a b) = String.append a (trim_end_slashes b).
Proof.
  intros Hb. induction a as [|x a IH]; [done|]. rewrite !app_cons'. cbn [trim_end_slashes]. rewrite IH, andb_comm, bool_decide_false; [done|].
  by destruct a.
Qed.
Lemma last_name_render l n : Forall good (l ++ [n]) -> last_name (render (l ++ [n])) = n.
Proof.
  intros [_ Hn%Forall_inv]%Forall_app. destruct Hn as [H1 _ _ H4 _]. unfold render. rewrite bool_decide_false by (by destruct l).
  rewrite join_comps_app. unfold last_name. assert (E : trim_end_slashes (String slash n) = String slash n).
  { cbn. rewrite trim_end_no_slash by done. by rewrite (bool_decide_false (n = EmptyString)), andb_false_r by done. }
  rewrite trim_end_app by (by rewrite E). rewrite E, split_slash_app, (split_slash_id n) by done. by rewrite List.last_last.
Qed.

(** The only descriptor that changes does not change at all. *)
Section Fd.
Context {W I : Type} `{!Inode W I, !EqDecision I, !Droppable W I}.
Implicit Types (v : Vfs W I) (c : Caller).

(** Nobody's descriptors change, the tables stay small and the mounts are the same. *)
Record calm v v' : Prop := mkCalm {
  ca_tables : tables_ok v';
  ca_mounts : v_mounts v' = v_mounts v;
  ca_files : forall c' k, file_of c' k v' = file_of c' k v;
}.
Lemma calm_refl v : tables_ok v -> calm v v.
Proof. by split. Qed.
Lemma calm_trans v v1 v' : calm v v1 -> calm v1 v' -> calm v v'.
Proof. intros [_ H1 H2] [H3 H4 H5]. split; [done|congruence|]. intros c' k. by rewrite H5. Qed.
Lemma calm_world {A} (m : ST (Vfs W I) A) v v' r : world_only m -> tables_ok v -> m v = (v', r) -> calm v v'.
Proof.
  intros Hm Hv E. destruct (Hm v) as [H1 H2]. rewrite E in H1, H2. cbn [fst] in *. split; [by intros p t; rewrite H1; apply Hv|done|].
  intros c' k. unfold file_of. by rewrite H1.
Qed.

(** [v'] has [fd] of [c] open on [f] besides what [v] has. *)
Record opens c (fd : Z) (f : OpenFile I) v v' : Prop := mkOpens {
  op_tables : tables_ok v';
  op_mounts : v_mounts v' = v_mounts v;
  op_free : file_of c fd v = Err BadFd;
  op_files : one_fd v v' c fd (Ok f);
}.
Lemma one_fd_trans v v1 v' c fd o o' : one_fd v v1 c fd o -> one_fd v1 v' c fd o' -> one_fd v v' c fd o'.
Proof. intros H1 H2 c' k. rewrite H2, H1. by destruct (decide _). Qed.
Lemma one_fd_pid v c c' fd : pid_or_0 c' = pid_or_0 c -> file_of c' fd v = file_of c fd v.
Proof. intros E. unfold file_of. by rewrite E. Qed.

Definition no_drop : Prop := forall (i : I) (w : W), i_drop i w = w.
Lemma set_tables_world ts v : no_drop -> v_world (set_tables ts v) = v_world v.
Proof.
  intros Hd. unfold set_tables. cbn [v_world]. generalize (filter (λ i : I, i ∉ handles ts) (remove_dups (handles (v_tables v)))). intros l.
  induction l as [|i l IH]; cbn; [done|]. by rewrite Hd.
Qed.

(** The caller has a descriptor to spare. *)
Definition room c v : Prop := exists t, v_tables v !! pid_or_0 c = Some t /\ exists k, 0 <= k < MAX_OPEN_FILES /\ fd_file t k = None.

Lemma insert_opens c f v v' r : tables_ok v -> no_drop -> on_table (pid_or_0 c) (fd_insert f) v = (v', r) ->
  v_world v' = v_world v /\ match r with Ok fd => opens c fd f v v' | Err _ => calm v v' /\ ~ room c v end.
Proof.
  intros Hv Hd. unfold on_table. destruct (v_tables v !! pid_or_0 c) as [t|] eqn:Et.
  2: { intros [= <- <-]. split; [done|]. split; [by apply calm_refl|]. intros (t & E & _). congruence. }
  pose proof (fd_insert_spec f t (Hv _ _ Et)) as Hs. destruct (fd_insert f t) as [t' r'] eqn:Ei. intros [= <- <-].
  split; [by apply set_tables_world|].
  assert (Ht : tables_ok (set_tables (<[pid_or_0 c := t']> (v_tables v)) v)).
  { intros q u. cbn. intros [[<- <-]|[_ Hu]]%lookup_insert_Some; [|by eapply Hv]. destruct r' as [fd|e]; [apply Hs|destruct Hs as [-> _]; by eapply Hv]. }
  destruct r' as [fd|e].
  - destruct Hs as ((_ & Hf & _) & _ & _ & Hget). split; [done|done| |].
    + rewrite (file_of_table _ _ _ _ Et). by apply fd_get_None.
    + apply (one_fd_intro v _ c t t'); [done|done|apply fd_get_Some; by rewrite Hget, decide_True|]. intros k Hk. by rewrite Hget, decide_False.
  - destruct Hs as (-> & _ & Hfull). split.
    + split; [done|done|]. intros c' k. unfold file_of. cbn. by rewrite insert_id.
    + intros (u & E & k & Hk & Hn). rewrite Et in E. injection E as <-. destruct (Hfull k Hk) as [x Hx]. congruence.
Qed.

Lemma close_calm c fd f v v1 : opens c fd f v v1 -> no_drop ->
  calm v (close c fd v1).1 /\ v_world (close c fd v1).1 = v_world v1 /\ room c (close c fd v1).1.
Proof.
  intros [H1 H2 H3 H4] Hd. pose proof (close_correct c fd v1) as Hc. pose proof (one_fd_same _ _ _ _ _ H4) as Hf. rewrite Hf in Hc.
  cbn zeta in Hc. destruct Hc as (_ & Ho & _). unfold close in *.
  destruct (own_on_table (fd_remove fd) c v1) as (T1 & T2 & _); [done|intros t Ht; by rewrite fd_remove_len|]. split; [split|split].
  - exact T1.
  - by rewrite T2.
  - intros c' k. pose proof (one_fd_trans _ _ _ _ _ _ _ H4 Ho c' k) as E. rewrite E. case_decide as Hk; [|done]. destruct Hk as [Hp ->].
    by rewrite (one_fd_pid _ c) by done.
  - unfold on_table. destruct (v_tables v1 !! pid_or_0 c) as [t|]; [|done]. destruct (fd_remove fd t) as [t' r]. by apply set_tables_world.
  - apply file_of_Ok in Hf as (t & Et & Hff). unfold on_table. rewrite Et. pose proof (fd_remove_spec fd t) as Hs.
    destruct (fd_remove fd t) as [t' [u|e]]; [|destruct Hs as (_ & _ & Hs); congruence]. destruct Hs as (_ & _ & Hs).
    exists t'. cbn. rewrite lookup_insert_eq. split; [done|]. exists fd. rewrite Hs, decide_True by done. split; [|done].
    pose proof Hff as [Hp Hl%lookup_lt_Some]%fd_file_Some. specialize (H1 _ _ Et). lia.
Qed.
End Fd.

(** ** EspFs at the root *)

Section Root.
Context {D : Type} `{NorFlashLaws D}.
Implicit Types (v : Vfs (FsState * D) EspNode) (c : Caller) (l P : list string) (w : FsState * D).

Definition rooted v : Prop := v_mounts v = [("/"%string, esp_fs)].
Definition vview v : gmap Z AbsNode := view (v_world v).

Lemma set_world_id v : set_world (v_world v) v = v.
Proof. by destruct v. Qed.

Lemma lookup_child i n v :
  on_world (i_lookup (mkEspNode i) n) v =
    (v, match child (vview v) i n with
        | Some j => Ok (mkEspNode j)
        | None => Err match vview v !! i with Some (AFile _) => NotADirectory | _ => NotFound end
        end).
Proof.
  unfold on_world. cbn [i_lookup esp_inode en_ino]. unfold lookup_ino, child, vview. rewrite set_world_id, view_lookup.
  destruct (nodes (v_world v).1 !! i) as [[k [m|f]]|]; cbn; [|done..]. by destruct (m !! n).
Qed.

Lemma walk_child l v : forall i, exists r, walk (mkEspNode i) l v = (v, r) /\
  match r with Ok j => walk_from (vview v) i l = Some (en_ino j) | Err _ => walk_from (vview v) i l = None end.
Proof.
  unfold walk. induction l as [|n l IH]; intros i; cbn [foldM walk_from]; [by eexists|].
  unfold mbind at 1, ST_bind at 1. rewrite lookup_child. destruct (child (vview v) i n) as [j|]; [apply IH|by eexists].
Qed.

Lemma resolve_root c l v : rooted v -> Forall good l -> resolve c (render l) v = walk (mkEspNode ROOT_INO) l v.
Proof.
  intros Hm Hl. unfold resolve, normalize. rewrite starts_with_slash_render, normalize_render by done.
  unfold mbind, ST_bind, lift, st. cbn zeta. rewrite Hm, split_components_render by done. done.
Qed.
Lemma resolve_ino c l v : rooted v -> Forall good l -> exists r, resolve c (render l) v = (v, r) /\
  match r with Ok j => ino_at (vview v) l = Some (en_ino j) | Err _ => ino_at (vview v) l = None end.
Proof. intros Hm Hl. rewrite (resolve_root c l v Hm Hl). apply walk_child. Qed.

Lemma resolve_dir c P p v : rooted v -> Forall good P -> leads (v_world v) P p -> resolve c (render P) v = (v, Ok (mkEspNode p)).
Proof.
  intros Hm HP [Hp _]. destruct (resolve_ino c P v Hm HP) as ([[j]|e] & -> & Hr); unfold vview in Hr; [|congruence].
  cbn in Hr. rewrite Hp in Hr. by injection Hr as ->.
Qed.
Lemma resolve_missing c P p n v : rooted v -> Forall good (P ++ [n]) -> leads (v_world v) P p -> ino_at (vview v) (P ++ [n]) = None ->
  resolve c (render (P ++ [n])) v = (v, Err NotFound).
Proof.
  intros Hm Hg [Hp [m Hd]] Hn. rewrite (resolve_root c _ v Hm Hg). unfold walk.
  assert (E : forall l i, walk_from (vview v) i l = Some p -> foldM (fun node comp => on_world (i_lookup node comp)) (mkEspNode i) (l ++ [n]) v = (v, Err NotFound)).
  { induction l as [|x l IH]; intros i Hi; cbn [foldM app walk_from] in *; unfold mbind at 1, ST_bind at 1; rewrite lookup_child.
    - injection Hi as ->. rewrite ino_at_snoc in Hn. unfold vview in *. rewrite Hp in Hn. cbn in Hn. rewrite Hn. by rewrite Hd.
    - apply bind_Some in Hi as (j & -> & Hj). by apply IH. }
  by apply E.
Qed.

Lemma good_snoc P n : Forall good (P ++ [n]) -> Forall good P.
Proof. by intros [? _]%Forall_app. Qed.

Lemma kind_dir i w : i_kind (mkEspNode i) w = Dir -> fs_inv w -> exists m, view w !! i = Some (ADir m).
Proof.
  intros Hk Hi. cbn in Hk. unfold esp_kind in Hk. cbn [en_ino] in Hk. rewrite view_lookup. destruct (nodes w.1 !! i) as [[k [m|f]]|] eqn:E; cbn in *; [by eexists| |done].
  destruct (node_file _ _ _ _ _ (v_tree _ Hi) E) as [-> _]. done.
Qed.
Lemma dir_kind i w m : fs_inv w -> view w !! i = Some (ADir m) -> i_kind (mkEspNode i) w = Dir.
Proof.
  intros Hi (k & E)%view_dir%dir_of_Some. cbn. unfold esp_kind. cbn. rewrite E. by apply (t_nodes _ _ (v_tree _ Hi) i _ E).
Qed.

(** Removing and creating go to EspFs. *)
Lemma unlink_root c P p n v : rooted v -> Forall good (P ++ [n]) -> leads (v_world v) P p ->
  Vfs.unlink c (render (P ++ [n])) v = on_world (unlink p n) v.
Proof.
  intros Hm Hg Hl. pose proof (good_snoc _ _ Hg) as HP. pose proof Hg as [_ Hn%Forall_inv]%Forall_app. unfold Vfs.unlink.
  rewrite last_name_render by done. rewrite !bool_decide_false by apply Hn. cbn [orb]. unfold normalize.
  rewrite starts_with_slash_render, normalize_render by done. unfold mbind, ST_bind, lift. rewrite split_parent_render by done.
  by rewrite (resolve_dir c P p v).
Qed.
Lemma create_root c P p n kind v : rooted v -> Forall good (P ++ [n]) -> leads (v_world v) P p -> fs_inv (v_world v) ->
  create_path c (render (P ++ [n])) kind v = on_world (i_create (mkEspNode p) n kind) v.
Proof.
  intros Hm Hg Hl Hi. pose proof (good_snoc _ _ Hg) as HP. pose proof Hg as [_ Hn%Forall_inv]%Forall_app. unfold create_path, normalize.
  rewrite starts_with_slash_render, normalize_render by done. unfold mbind, ST_bind, lift. rewrite split_parent_render by done.
  destruct (Z.ltb_spec MAX_NAME_LEN (str_len n)); [pose proof (good_len _ Hn); lia|]. rewrite (resolve_dir c P p v) by done. unfold st.
  destruct Hl as [_ [m Hm']]. by rewrite (dir_kind p _ m), bool_decide_true by done.
Qed.

Lemma mkdir_root c P p n v : rooted v -> Forall good (P ++ [n]) -> leads (v_world v) P p -> ino_at (vview v) (P ++ [n]) = None -> fs_inv (v_world v) ->
  (mkdir c (render (P ++ [n])) v).1 = set_world (create p n Dir (v_world v)).1 v.
Proof.
  intros Hm Hg Hl Hn Hi. unfold mkdir. rewrite (resolve_missing c P p n v Hm Hg Hl Hn). cbn [is_ok]. unfold mbind, ST_bind.
  rewrite (create_root c P p n Dir v Hm Hg Hl Hi). unfold on_world. cbn [i_create esp_inode en_ino]. unfold mbind, ST_bind.
  by destruct (create p n Dir (v_world v)) as [w [j|e]].
Qed.

Lemma esp_no_drop : no_drop (W := FsState * D) (I := EspNode).
Proof. done. Qed.

Lemma open_read c l v v' r : rooted v -> tables_ok v -> Forall good l -> open c (render l) RDONLY v = (v', r) ->
  v_world v' = v_world v /\
  match r with
  | Ok fd => exists j, ino_at (vview v) l = Some j /\ opens c fd (mkOpenFile (mkEspNode j) 0 true false false) v v'
  | Err _ => calm v v' /\ ~ (room c v /\ is_Some (ino_at (vview v) l))
  end.
Proof.
  intros Hm Hv Hl. unfold open. destruct (resolve_ino c l v Hm Hl) as ([[j]|e] & -> & Hr).
  - change (contains RDONLY WRONLY) with false. rewrite andb_false_r. unfold mbind, ST_bind. change (open_new (mkEspNode j) RDONLY v) with (v, Ok (mkOpenFile (mkEspNode j) 0 true false false)).
    cbv beta iota. intros E. apply insert_opens in E as [E Hr']; [|done|apply esp_no_drop]. split; [done|]. destruct r as [fd|e].
    + by exists j.
    + destruct Hr' as [? Hn]. split; [done|]. by intros [? _].
  - change (contains RDONLY O_CREATE) with false. destruct e; intros [= <- <-]; (split; [done|]; split; [by apply calm_refl|]; rewrite Hr; by intros [_ [? ?]]).
Qed.

(** ** Opening to write *)

Section Write.
Context (Hw : nor_works D) (c : Caller) (P : list string) (p : Z) (n : string) (Hg : Forall good (P ++ [n])) (Hn : is_str n).
Implicit Types (k : Z).

(** The node that [open] finds or makes. *)
Definition found (flags : Z) v : Vfs (FsState * D) EspNode * KResult EspNode :=
  let '(v, found) := resolve c (render (P ++ [n])) v in
  match found with
  | Err NotFound => if contains flags O_CREATE then create_path c (render (P ++ [n])) File v else (v, found)
  | _ => (v, found)
  end.

Lemma open_found flags v :
  open c (render (P ++ [n])) flags v =
  match found flags v with
  | (v, Err e) => (v, Err e)
  | (v, Ok inode) =>
    if bool_decide (i_kind inode (v_world v) = Dir) && contains flags WRONLY then (v, Err IsADirectory)
    else (file ← open_new inode flags; on_table (pid_or_0 c) (fd_insert file)) v
  end.
Proof. unfold open, found. by destruct (resolve c (render (P ++ [n])) v) as [v1 [i|[]]]. Qed.

Lemma found_step k flags v v' r : 0 <= k -> contains flags O_CREATE = true -> rooted v -> ready (k + 1) (v_world v) -> leads (v_world v) P p ->
  found flags v = (v', r) ->
  step P p n k (v_world v) (v_world v') /\ v_tables v' = v_tables v /\ v_mounts v' = v_mounts v /\
  (file_at (vview v') (P ++ [n]) = file_at (vview v) (P ++ [n]) \/ file_at (vview v') (P ++ [n]) = Some []) /\
  match r with Ok i => ino_at (vview v') (P ++ [n]) = Some (en_ino i) | Err _ => True end.
Proof.
  intros Hk Hf Hm Hr Hl E. unfold found in E. destruct (resolve_ino c (P ++ [n]) v Hm Hg) as (r0 & Hres & Hi). rewrite Hres in E.
  assert (Hsame : step P p n k (v_world v) (v_world v)) by (apply step_refl; [eapply ready_le; [done|lia]|done]).
  destruct r0 as [i|e]; [injection E as <- <-; split_and!; auto|]. rewrite (resolve_missing c P p n v Hm Hg Hl Hi) in Hres. injection Hres as <-.
  rewrite Hf, (create_root c P p n File v Hm Hg Hl (proj1 Hr)) in E. unfold on_world in E. cbn [i_create esp_inode en_ino] in E. unfold mbind, ST_bind in E.
  destruct (create p n File (v_world v)) as [w' rc] eqn:Ec. destruct (create_step Hw P p n Hn k _ _ _ Hk Hr Hl Hi Ec) as [Hs Ht].
  destruct rc as [j|e]; injection E as <- <-; cbn [v_world set_world]; (split; [done|]); (split; [done|]); (split; [done|]).
  - destruct Ht as [Ht1 Ht2]. split; [|done]. right. unfold file_at, vview. cbn [v_world set_world]. rewrite Ht1. cbn. by rewrite Ht2.
  - split; [|done]. left. unfold vview. cbn. by rewrite Ht.
Qed.

(** Nobody's descriptors changed when the tables are the same. *)
Lemma calm_tables v v' : tables_ok v -> v_tables v' = v_tables v -> v_mounts v' = v_mounts v -> calm v v'.
Proof. intros Hv Ht Hm. split; [by intros q t; rewrite Ht; apply Hv|done|]. intros c' k. unfold file_of. by rewrite Ht. Qed.

(** Truncating to nothing, creating and writing. *)
Record write_flags (flags : Z) : Prop := {
  wf_create : contains flags O_CREATE = true;
  wf_trunc : contains flags O_TRUNC = true;
  wf_write : contains flags WRONLY = true;
  wf_read : contains flags RDONLY = false;
  wf_append : contains flags O_APPEND = false;
}.
Definition written (i : Z) : OpenFile EspNode := mkOpenFile (mkEspNode i) 0 false true false.

Lemma open_write k flags v v' r : 0 <= k -> write_flags flags -> rooted v -> tables_ok v -> ready (k + 2) (v_world v) -> leads (v_world v) P p ->
  open c (render (P ++ [n])) flags v = (v', r) ->
  step P p n k (v_world v) (v_world v') /\
  match r with
  | Ok fd => exists i, ino_at (vview v') (P ++ [n]) = Some i /\ vview v' !! i = Some (AFile []) /\ opens c fd (written i) v v'
  | Err _ => calm v v' /\ (file_at (vview v') (P ++ [n]) = file_at (vview v) (P ++ [n]) \/ file_at (vview v') (P ++ [n]) = Some [])
  end.
Proof.
  intros Hk [F1 F2 F3 F4 F5] Hm Hv Hr Hl. rewrite open_found. destruct (found flags v) as [v1 r1] eqn:Ef.
  assert (Hr2 : ready (k + 1 + 1) (v_world v)) by (eapply ready_le; [exact Hr|lia]). assert (Hk1 : 0 <= k + 1) by lia.
  destruct (found_step (k + 1) flags v v1 r1 Hk1 F1 Hm Hr2 Hl Ef) as (Hs1 & T1 & M1 & Hf1 & Hi).
  pose proof (calm_tables v v1 Hv T1 M1) as C1. pose proof (st_ready _ _ _ _ _ _ Hs1) as Hr1.
  assert (Hs1' : step P p n k (v_world v) (v_world v1)) by (split; [eapply ready_le; [exact Hr1|lia]|apply Hs1|apply Hs1]).
  destruct r1 as [[i]|e]; [|intros [= <- <-]; split; [done|]; by split]. cbn in Hi.
  destruct (bool_decide (i_kind (mkEspNode i) (v_world v1) = Dir) && contains flags WRONLY) eqn:Ed; [intros [= <- <-]; split; [done|]; by split|].
  rewrite F3, andb_true_r in Ed. apply bool_decide_eq_false in Ed. pose proof (inv_paths _ (proj1 Hr1)) as Hok.
  destruct (ino_at_node _ _ _ Hok Hi) as [[m|c0] Hnode]; [exfalso; apply Ed; by eapply dir_kind; [apply Hr1|]|].
  unfold mbind, ST_bind, open_new. rewrite F2, F3, F4, F5. cbn [negb andb]. unfold mbind, ST_bind, on_world. cbn [i_truncate esp_inode en_ino].
  destruct (truncate_file i 0 (v_world v1)) as [w2 r2] eqn:Et.
  destruct (truncate_step Hw P p n k _ _ _ _ _ Hk Hr1 (st_leads _ _ _ _ _ _ Hs1) Hi Hnode Et) as (Hs2 & Hi2 & Hc2).
  assert (Hs : step P p n k (v_world v) w2) by (by eapply step_trans). pose proof (calm_tables v1 (set_world w2 v1) (ca_tables _ _ C1) eq_refl eq_refl) as C2.
  pose proof (calm_trans _ _ _ C1 C2) as C. destruct r2 as [[]|e].
  2: { intros [= <- <-]. split; [done|]. split; [done|]. unfold vview. cbn [v_world set_world]. by rewrite Hc2. }
  cbn [mret ST_ret]. intros E. change (mkOpenFile (mkEspNode i) 0 false true false) with (written i) in E.
  apply insert_opens in E as [Ew Hr']; [|apply C|apply esp_no_drop]. cbn [v_world set_world] in Ew. rewrite Ew. split; [done|]. unfold vview. rewrite Ew.
  destruct r as [fd|e].
  - exists i. split; [done|]. split; [done|]. destruct Hr' as [O1 O2 O3 O4]. split; [done|by rewrite O2; apply C| |].
    + rewrite <- O3. symmetry. apply C.
    + intros c' q. rewrite O4. destruct (decide _); [done|]. apply C.
  - split; [by eapply calm_trans; [|apply Hr']|]. right. unfold file_at. rewrite Hi2. cbn. by rewrite Hc2.
Qed.

Lemma write_root k fd i data v v0 v' r : 0 <= k -> opens c fd (written i) v0 v -> ready (k + 1) (v_world v) -> leads (v_world v) P p ->
  ino_at (vview v) (P ++ [n]) = Some i -> vview v !! i = Some (AFile []) -> bytes_ok data -> len data < 2 ^ 31 - 8 -> data <> [] ->
  Vfs.write c fd data v = (v', r) ->
  step P p n k (v_world v) (v_world v') /\ (exists f, opens c fd f v0 v') /\
  match r with
  | Ret (Ok x) => x = len data /\ file_at (vview v') (P ++ [n]) = Some data
  | Ret (Err _) => file_at (vview v') (P ++ [n]) = Some []
  | Park => False
  end.
Proof.
  intros Hk [O1 O2 O3 O4] Hr Hl Hi Hc Hb Hlb Hne. unfold Vfs.write. rewrite (one_fd_same _ _ _ _ _ O4). cbn [of_writable of_append of_offset of_inode written negb].
  unfold write_inode. cbn [i_write_at esp_inode en_ino]. unfold io. destruct (write_file i 0 data (v_world v)) as [w' rw] eqn:Ew.
  destruct (write_step Hw P p n k _ _ _ _ _ _ Hk Hr Hl Hi Hc Hb Hlb Hne Ew) as (Hs & Hi' & Hc').
  assert (Hopen : forall f v1, tables_ok v1 -> v_mounts v1 = v_mounts v -> one_fd v v1 c fd (Ok f) -> opens c fd f v0 v1).
  { intros f v1 H1 H2 H3. split; [done|by rewrite H2|done|]. by eapply one_fd_trans. }
  destruct rw as [x|e].
  - destruct Hc' as [-> Hc']. rewrite checked_add64_Some by (unfold U64_MAX; lia). intros [= <- <-].
    destruct (commit_spec c fd (written i) (0 + len data) (set_world w' v)) as (Ew' & Em & Ho).
    { change (file_of c fd (set_world w' v)) with (file_of c fd v). by apply one_fd_same in O4. }
    cbn [of_inode written] in *. unfold vview. rewrite Ew'. cbn [v_world set_world] in *. split; [done|]. split; [|].
    + eexists. apply Hopen; [|by rewrite Em|exact Ho].
      by destruct (own_commit c fd (mkEspNode i) (0 + len data) (set_world w' v)) as (Ht & _).
    + split; [done|]. unfold file_at. rewrite Hi'. cbn. rewrite Hc'. f_equal. unfold overwrite. cbn. rewrite drop_ge; [by rewrite app_nil_r|]. rewrite length_resize. lia.
  - intros [= <- <-]. split; [done|]. split; [by exists (written i)|]. unfold file_at, vview. cbn [v_world set_world]. rewrite Hi'. cbn. rewrite Hc'. unfold vview in Hc. by rewrite Hc.
Qed.
End Write.
End Root.
