(* ===== verification/Parser.v ===== *)
(** * Parser: the command line of the kernel's shell (kernel/src/shell/parser.rs)

    The tokenizer, pipelines and lines.  A line is read byte by byte here and
    character by character in the code: every character the tokenizer looks for is
    ASCII, and the bytes of any other character are copied either way.

    The theorems relate the two loops to a grammar, and the whole parser to a
    printer of lines. *)

From Stdlib Require Import Ascii.
From S2P Require Import Prelude Path.

Open Scope Z_scope.

(* @src kernel/src/shell/parser.rs 5-12 Redirect *)
Inductive Redirect : Type := NoRedirect | Truncate (path : string) | Append (path : string).

(* @src kernel/src/shell/parser.rs 14-19 Command *)
Record Command := mkCommand { name : string; args : list string; redirect : Redirect }.

(* @src kernel/src/shell/parser.rs 21-38 Token *)
Inductive Token : Type := Word (w : string) | RedirectOut | RedirectAppend | Pipe | Semi.

(* @src kernel/src/shell/parser.rs 40-45 Quote *)
Inductive Quote : Type := No | Single | Double.

#[export] Instance Token_eq_dec : EqDecision Token.
Proof. solve_decision. Defined.

Definition c_space : ascii := ascii_of_byte 32.
Definition c_tab : ascii := ascii_of_byte 9.
Definition c_cr : ascii := ascii_of_byte 13.
Definition c_lf : ascii := ascii_of_byte 10.
Definition c_single : ascii := ascii_of_byte 39.
Definition c_double : ascii := ascii_of_byte 34.
Definition c_back : ascii := ascii_of_byte 92.
Definition c_pipe : ascii := ascii_of_byte 124.
Definition c_semi : ascii := ascii_of_byte 59.
Definition c_gt : ascii := ascii_of_byte 62.

Definition at_char (c d : ascii) : bool := bool_decide (c = d).

(** [current.push(c)]. *)
Definition push (s : string) (c : ascii) : string := String.append s (String c EmptyString).

(** The word under way, if there is one, becomes a token. *)
Definition flush (tokens : list Token) (current : string) (has_word : bool) : list Token :=
  if has_word then tokens ++ [Word current] else tokens.

(** After a flush that finds a word, [current] is empty; without one it is left alone. *)
Definition taken (current : string) (has_word : bool) : string := if has_word then EmptyString else current.

(* @src kernel/src/shell/parser.rs 54-143 tokenize (loop) *)
Fixpoint tokenize_loop (chars : string) (tokens : list Token) (current : string) (has_word : bool) (quote : Quote)
    : KResult (list Token) :=
  match chars with
  | EmptyString =>
    match quote with
    | No => Ok (flush tokens current has_word)
    | _ => Err InvalidArgument
    end
  | String c rest =>
    match quote with
    | Single =>
      if at_char c c_single then tokenize_loop rest tokens current true No
      else tokenize_loop rest tokens (push current c) true Single
    | Double =>
      if at_char c c_double then tokenize_loop rest tokens current true No
      else if at_char c c_back then
        match rest with
        | String n rest' =>
          if at_char n c_double || at_char n c_back then tokenize_loop rest' tokens (push current n) true Double
          else tokenize_loop rest tokens (push current c_back) true Double
        | EmptyString => tokenize_loop rest tokens (push current c_back) true Double
        end
      else tokenize_loop rest tokens (push current c) true Double
    | No =>
      if at_char c c_space || at_char c c_tab || at_char c c_cr || at_char c c_lf then
        tokenize_loop rest (flush tokens current has_word) (taken current has_word) false No
      else if at_char c c_single then tokenize_loop rest tokens current true Single
      else if at_char c c_double then tokenize_loop rest tokens current true Double
      else if at_char c c_back then
        match rest with
        | String n rest' => tokenize_loop rest' tokens (push current n) true No
        | EmptyString => tokenize_loop rest tokens (push current c_back) true No
        end
      else if at_char c c_pipe then
        tokenize_loop rest (flush tokens current has_word ++ [Pipe]) (taken current has_word) false No
      else if at_char c c_semi then
        tokenize_loop rest (flush tokens current has_word ++ [Semi]) (taken current has_word) false No
      else if at_char c c_gt then
        let tokens := flush tokens current has_word in
        let current := taken current has_word in
        match rest with
        | String n rest' =>
          if at_char n c_gt then tokenize_loop rest' (tokens ++ [RedirectAppend]) current false No
          else tokenize_loop rest (tokens ++ [RedirectOut]) current false No
        | EmptyString => tokenize_loop rest (tokens ++ [RedirectOut]) current false No
        end
      else tokenize_loop rest tokens (push current c) true No
    end
  end.

(* @src kernel/src/shell/parser.rs 47-144 tokenize *)
Definition tokenize (line : string) : KResult (list Token) := tokenize_loop line [] EmptyString false No.

(* @src kernel/src/shell/parser.rs 146-159 build_command *)
Definition build_command (words : list string) (redirect : Redirect) : KResult Command :=
  match words with
  | [] => Err InvalidArgument
  | name :: args => Ok (mkCommand name args redirect)
  end.

(* @src kernel/src/shell/parser.rs 174-211 pipeline_from_tokens (loop) *)
Fixpoint pipeline_loop (tokens : list Token) (commands : list Command) (words : list string) (redirect : Redirect)
    (pending : option bool) : KResult (list Command) :=
  match tokens with
  | [] =>
    match pending with
    | Some _ => Err InvalidArgument
    | None => last ← build_command words redirect; Ok (commands ++ [last])
    end
  | tok :: tokens' =>
    match pending with
    | Some apdend =>
      match tok with
      | Word w => pipeline_loop tokens' commands words (if apdend then Append w else Truncate w) None
      | _ => Err InvalidArgument
      end
    | None =>
      match tok with
      | Word w => pipeline_loop tokens' commands (words ++ [w]) redirect None
      | RedirectOut => pipeline_loop tokens' commands words redirect (Some false)
      | RedirectAppend => pipeline_loop tokens' commands words redirect (Some true)
      | Pipe => cmd ← build_command words redirect; pipeline_loop tokens' (commands ++ [cmd]) [] NoRedirect None
      | Semi => Err InvalidArgument
      end
    end
  end.

(* @src kernel/src/shell/parser.rs 163-212 pipeline_from_tokens *)
Definition pipeline_from_tokens (tokens : list Token) : KResult (list Command) :=
  match tokens with [] => Ok [] | _ => pipeline_loop tokens [] [] NoRedirect None end.

(* @src kernel/src/shell/parser.rs 229-244 parse_line (loop) *)
Fixpoint line_loop (tokens : list Token) (out : list (list Command)) (segment : list Token) : KResult (list (list Command)) :=
  match tokens with
  | [] =>
    match segment with
    | [] => Ok out
    | _ => p ← pipeline_from_tokens segment; Ok (out ++ [p])
    end
  | tok :: tokens' =>
    if decide (tok = Semi) then
      match segment with
      | [] => line_loop tokens' out segment
      | _ => p ← pipeline_from_tokens segment; line_loop tokens' (out ++ [p]) []
      end
    else line_loop tokens' out (segment ++ [tok])
  end.

(* @src kernel/src/shell/parser.rs 225-245 parse_line *)
Definition parse_line (line : string) : KResult (list (list Command)) :=
  tokens ← tokenize line; line_loop tokens [] [].

(* @src kernel/src/shell/parser.rs 248-250 parse_pipeline *)
Definition parse_pipeline (line : string) : KResult (list Command) :=
  tokens ← tokenize line; pipeline_from_tokens tokens.

(* @src kernel/src/shell/parser.rs 252-259 parse *)
Definition parse (line : string) : KResult (option Command) :=
  pipeline ← parse_pipeline line;
  match pipeline with [] => Ok None | cmd :: _ => Ok (Some cmd) end.

(** ** The grammar *)

(** [stage ts ws r]: the tokens [ts] of one stage, its words [ws] and where its output
    goes.  A redirection may stand anywhere in the stage, and the last one counts. *)
Inductive stage : list Token -> list string -> Redirect -> Prop :=
  | stage_nil : stage [] [] NoRedirect
  | stage_word ts ws r w : stage ts ws r -> stage (ts ++ [Word w]) (ws ++ [w]) r
  | stage_out ts ws r f : stage ts ws r -> stage (ts ++ [RedirectOut; Word f]) ws (Truncate f)
  | stage_append ts ws r f : stage ts ws r -> stage (ts ++ [RedirectAppend; Word f]) ws (Append f).

(** The stages of a pipeline, none without words. *)
Inductive pipeline : list Token -> list Command -> Prop :=
  | pipeline_last ts name args r : stage ts (name :: args) r -> pipeline ts [mkCommand name args r]
  | pipeline_pipe ts name args r ts' cmds :
      stage ts (name :: args) r -> pipeline ts' cmds -> pipeline (ts ++ Pipe :: ts') (mkCommand name args r :: cmds).

(** What [pipeline_loop] still needs when it is in the middle of a stage. *)
Definition rest_of (tokens : list Token) words redirect (cmds : list Command) : Prop :=
  forall pre, stage pre words redirect -> pipeline (pre ++ tokens) cmds.

Lemma pipeline_loop_sound tokens : forall commands words redirect pending out pre,
  match pending with
  | None => stage pre words redirect
  | Some apd => exists pre', pre = pre' ++ [if apd : bool then RedirectAppend else RedirectOut] /\ stage pre' words redirect
  end ->
  pipeline_loop tokens commands words redirect pending = Ok out ->
  exists cmds, out = commands ++ cmds /\ pipeline (pre ++ tokens) cmds.
Proof.
  induction tokens as [|tok tokens IH]; intros commands words redirect pending out pre Hpre; cbn [pipeline_loop].
  - destruct pending; [done|]. destruct words as [|name args]; [done|]. cbn. intros [= <-].
    eexists. split; [done|]. rewrite app_nil_r. by constructor.
  - destruct pending as [apd|].
    + destruct tok as [w| | | |]; try done. destruct Hpre as (pre' & -> & Hs). rewrite <- app_assoc.
      intros Hl. change ([if apd then RedirectAppend else RedirectOut] ++ Word w :: tokens)
        with ((if apd then RedirectAppend else RedirectOut) :: Word w :: tokens). replace (pre' ++ (if apd then RedirectAppend else RedirectOut) :: Word w :: tokens)
        with ((pre' ++ [if apd then RedirectAppend else RedirectOut; Word w]) ++ tokens) by (by rewrite <- app_assoc).
      eapply IH; [|exact Hl]. destruct apd; by econstructor.
    + destruct tok as [w| | | |]; try done; intros Hl.
      * replace (pre ++ Word w :: tokens) with ((pre ++ [Word w]) ++ tokens) by (by rewrite <- app_assoc).
        eapply IH; [|exact Hl]. by constructor.
      * replace (pre ++ RedirectOut :: tokens) with ((pre ++ [RedirectOut]) ++ tokens) by (by rewrite <- app_assoc).
        eapply IH; [|exact Hl]. by exists pre.
      * replace (pre ++ RedirectAppend :: tokens) with ((pre ++ [RedirectAppend]) ++ tokens) by (by rewrite <- app_assoc).
        eapply IH; [|exact Hl]. by exists pre.
      * destruct words as [|name args]; [done|]. cbn in Hl. eapply (IH _ _ _ _ _ []) in Hl as (cmds & -> & Hp); [|constructor].
        rewrite <- app_assoc. eexists. split; [done|]. cbn in Hp. by constructor.
Qed.

Lemma stage_loop ts ws r : stage ts ws r -> forall rest commands,
  pipeline_loop (ts ++ rest) commands [] NoRedirect None = pipeline_loop rest commands ws r None.
Proof.
  induction 1 as [|ts ws r w Hs IH|ts ws r f Hs IH|ts ws r f Hs IH]; intros rest commands; [done|..];
    rewrite <- app_assoc, IH; done.
Qed.

Lemma pipeline_loop_complete ts cmds : pipeline ts cmds -> forall commands,
  pipeline_loop ts commands [] NoRedirect None = Ok (commands ++ cmds).
Proof.
  induction 1 as [ts name args r Hs|ts name args r ts' cmds Hs Hp IH]; intros commands.
  - rewrite <- (app_nil_r ts), (stage_loop _ _ _ Hs). done.
  - rewrite (stage_loop _ _ _ Hs). cbn. rewrite IH. by rewrite <- app_assoc.
Qed.

Lemma pipeline_nonempty ts cmds : pipeline ts cmds -> ts <> [] /\ cmds <> [].
Proof.
  intros Hp. assert (Hs : forall ts name args r, stage ts (name :: args) r -> ts <> []).
  { intros t n a r Hs. inversion Hs; subst; by destruct ts0. }
  destruct Hp as [t n a r H|t n a r ts' cs H Hp]; (split; [|done]); [by eapply Hs|by destruct t].
Qed.

Lemma pipeline_spec ts cmds : pipeline_from_tokens ts = Ok cmds <-> ts = [] /\ cmds = [] \/ pipeline ts cmds.
Proof.
  unfold pipeline_from_tokens. split.
  - destruct ts as [|t ts]; [intros [= <-]; by left|]. intros Hl. right.
    by eapply (pipeline_loop_sound _ [] [] NoRedirect None cmds []) in Hl as (? & -> & Hp); [|constructor].
  - intros [[-> ->]|Hp]; [done|]. apply pipeline_nonempty in Hp as Hn. destruct ts; [by destruct Hn|].
    by apply (pipeline_loop_complete _ _ Hp []).
Qed.

(** The parts of a line between its semicolons. *)
Fixpoint segments (seg : list Token) (tokens : list Token) : list (list Token) :=
  match tokens with
  | [] => [seg]
  | tok :: tokens' => if decide (tok = Semi) then seg :: segments [] tokens' else segments (seg ++ [tok]) tokens'
  end.

Definition nonempty (seg : list Token) : Prop := seg <> [].
#[export] Instance nonempty_dec seg : Decision (nonempty seg).
Proof. unfold nonempty. apply _. Defined.

Lemma line_loop_spec tokens : forall out seg ps,
  line_loop tokens out seg = Ok ps <-> exists ps', ps = out ++ ps' /\ Forall2 pipeline (filter nonempty (segments seg tokens)) ps'.
Proof.
  assert (Hne : forall seg, seg <> [] -> forall p, pipeline_from_tokens seg = Ok p <-> pipeline seg p).
  { intros seg Hs p. rewrite pipeline_spec. split; [intros [[? _]|?]; done|by right]. }
  assert (Hbind : forall seg (k : list Command -> KResult (list (list Command))) ps, seg <> [] ->
    (p ← pipeline_from_tokens seg; k p) = Ok ps <-> exists p, pipeline seg p /\ k p = Ok ps).
  { intros seg k ps Hs. specialize (Hne seg Hs). destruct (pipeline_from_tokens seg) as [p|e]; cbn.
    - split; [intros Hk; exists p; split; [by apply Hne|done]|]. intros (p' & Hp' & Hk). apply Hne in Hp'. by injection Hp' as ->.
    - split; [done|]. intros (p' & Hp' & Hk). by apply Hne in Hp'. }
  induction tokens as [|tok tokens IH]; intros out seg ps; cbn [line_loop segments].
  - destruct seg as [|t seg].
    + rewrite filter_cons_False, filter_nil by (by intros ?). split.
      * intros [= <-]. exists []. by rewrite app_nil_r.
      * intros (ps' & -> & Hf). apply Forall2_nil_inv_l in Hf as ->. by rewrite app_nil_r.
    + rewrite Hbind by done. rewrite filter_cons_True, filter_nil by done. split.
      * intros (p & Hp & [= <-]). exists [p]. split; [done|]. by repeat constructor.
      * intros (ps' & -> & Hf). apply Forall2_cons_inv_l in Hf as (p & l & Hp & Hl & ->). apply Forall2_nil_inv_l in Hl as ->. by exists p.
  - destruct (decide (tok = Semi)); [|apply IH]. destruct seg as [|t seg].
    + rewrite filter_cons_False by (by intros ?). apply IH.
    + rewrite Hbind by done. rewrite filter_cons_True by done. setoid_rewrite IH. split.
      * intros (p & Hp & ps' & -> & Hf). exists (p :: ps'). split; [by rewrite <- app_assoc|by constructor].
      * intros (ps' & -> & Hf). apply Forall2_cons_inv_l in Hf as (p & l & Hp & Hl & ->). exists p. split; [done|].
        exists l. by rewrite <- app_assoc.
Qed.

(** C22. A line parses exactly when it is tokenized and each of its parts between
    semicolons that is not empty is a pipeline of the grammar; the result is those
    pipelines, in order.  One part out of the grammar refuses the whole line. *)
Theorem parse_line_grammar line ps :
  parse_line line = Ok ps <-> exists tokens, tokenize line = Ok tokens /\ Forall2 pipeline (filter nonempty (segments [] tokens)) ps.
Proof.
  unfold parse_line. destruct (tokenize line) as [tokens|e]; cbn.
  - rewrite line_loop_spec. cbn. split.
    + intros (ps' & -> & Hf). by exists tokens.
    + intros (t & [= <-] & Hf). by exists ps.
  - split; [done|]. by intros (t & ? & _).
Qed.

(** ** Printing a line *)

(** [w] between double quotes. *)
Fixpoint escape (w : string) : string :=
  match w with
  | EmptyString => EmptyString
  | String c w' => if at_char c c_double || at_char c c_back then String c_back (String c (escape w')) else String c (escape w')
  end.
Definition quoted (w : string) : string := String c_double (String.append (escape w) (String c_double EmptyString)).

Definition token_str (t : Token) : string :=
  match t with
  | Word w => quoted w
  | RedirectOut => String c_gt EmptyString
  | RedirectAppend => String c_gt (String c_gt EmptyString)
  | Pipe => String c_pipe EmptyString
  | Semi => String c_semi EmptyString
  end.

(** Each token, and a space after it. *)
Fixpoint render_tokens (ts : list Token) : string :=
  match ts with [] => EmptyString | t :: ts' => String.append (token_str t) (String c_space (render_tokens ts')) end.

Lemma push_append cur c w : String.append (push cur c) w = String.append cur (String c w).
Proof. unfold push. induction cur as [|a cur IH]; [done|]. by rewrite !app_cons', IH. Qed.

Lemma append_nil cur : String.append cur EmptyString = cur.
Proof. induction cur as [|a cur IH]; [done|]. rewrite !app_cons'. by rewrite IH. Qed.

Lemma at_char_refl c : at_char c c = true.
Proof. unfold at_char. by rewrite bool_decide_true. Qed.

Lemma escape_read w : forall rest tokens cur hw,
  tokenize_loop (String.append (escape w) (String c_double rest)) tokens cur hw Double =
  tokenize_loop rest tokens (String.append cur w) true No.
Proof.
  induction w as [|c w IH]; intros rest tokens cur hw; cbn [escape].
  - rewrite app_nil_l'. cbn [tokenize_loop]. by rewrite at_char_refl, append_nil.
  - destruct (at_char c c_double || at_char c c_back) eqn:E; rewrite !app_cons'; cbn [tokenize_loop].
    + change (at_char c_back c_double) with false. rewrite at_char_refl, E, IH, push_append. done.
    + apply orb_false_iff in E as [-> ->]. by rewrite IH, push_append.
Qed.

Lemma token_read t rest tokens :
  tokenize_loop (String.append (token_str t) (String c_space rest)) tokens EmptyString false No =
  tokenize_loop rest (tokens ++ [t]) EmptyString false No.
Proof.
  destruct t as [w| | | |]; try done. cbn [token_str]. unfold quoted. rewrite app_cons'.
  change (tokenize_loop (String c_double ?s) tokens EmptyString false No) with (tokenize_loop s tokens EmptyString true Double).
  rewrite append_assoc. change (String.append (String c_double EmptyString) ?s) with (String c_double s).
  by rewrite escape_read.
Qed.

Lemma tokenize_render ts : tokenize (render_tokens ts) = Ok ts.
Proof.
  unfold tokenize. assert (H : forall tokens, tokenize_loop (render_tokens ts) tokens EmptyString false No = Ok (tokens ++ ts)); [|apply H].
  induction ts as [|t ts IH]; intros tokens; cbn [render_tokens]; [by rewrite app_nil_r|]. by rewrite token_read, IH, <- app_assoc.
Qed.

Definition redirect_tokens (r : Redirect) : list Token :=
  match r with NoRedirect => [] | Truncate f => [RedirectOut; Word f] | Append f => [RedirectAppend; Word f] end.
Definition command_tokens (c : Command) : list Token := (Word <$> name c :: args c) ++ redirect_tokens (redirect c).
Fixpoint pipeline_tokens (cmds : list Command) : list Token :=
  match cmds with [] => [] | [c] => command_tokens c | c :: cmds' => command_tokens c ++ Pipe :: pipeline_tokens cmds' end.
Definition line_tokens (ps : list (list Command)) : list Token := mjoin ((fun p => pipeline_tokens p ++ [Semi]) <$> ps).

(** A line that asks for the pipelines [ps]. *)
Definition render_line (ps : list (list Command)) : string := render_tokens (line_tokens ps).

Lemma stage_words ws : stage (Word <$> ws) ws NoRedirect.
Proof. induction ws as [|w ws IH] using rev_ind; [constructor|]. rewrite fmap_app. by constructor. Qed.

Lemma stage_command c : stage (command_tokens c) (name c :: args c) (redirect c).
Proof. unfold command_tokens. destruct (redirect c); cbn [redirect_tokens];
    [rewrite app_nil_r|eapply stage_out|eapply stage_append]; apply stage_words. Qed.

Lemma pipeline_render cmds : cmds <> [] -> pipeline (pipeline_tokens cmds) cmds.
Proof.
  intros Hn. induction cmds as [|c cmds IH]; [done|]. pose proof (stage_command c) as Hs. destruct c as [n a r].
  destruct cmds as [|c' cmds]; [by constructor|]. change (pipeline_tokens (?a :: c' :: cmds)) with (command_tokens a ++ Pipe :: pipeline_tokens (c' :: cmds)).
  constructor; [done|]. by apply IH.
Qed.

Lemma command_no_semi c : Semi ∈ command_tokens c -> False.
Proof.
  unfold command_tokens. intros [Hi|Hi]%elem_of_app.
  - by apply list_elem_of_fmap in Hi as (w & ? & _).
  - destruct (redirect c); cbn in Hi; repeat (apply elem_of_cons in Hi as [?|Hi]; [done|]); by apply not_elem_of_nil in Hi.
Qed.

Lemma pipeline_no_semi cmds : Semi ∈ pipeline_tokens cmds -> False.
Proof.
  induction cmds as [|c [|c' cmds] IH]; [by intros ?%not_elem_of_nil|apply command_no_semi|].
  change (pipeline_tokens (c :: c' :: cmds)) with (command_tokens c ++ Pipe :: pipeline_tokens (c' :: cmds)).
  intros [Hi%command_no_semi|[?|Hi]%elem_of_cons]%elem_of_app; [done|done|by apply IH].
Qed.

Lemma segments_app ts rest : (Semi ∈ ts -> False) -> forall seg, segments seg (ts ++ Semi :: rest) = (seg ++ ts) :: segments [] rest.
Proof.
  induction ts as [|t ts IH]; intros Hn seg; cbn [app segments].
  - by rewrite decide_True, app_nil_r.
  - rewrite decide_False by (intros ->; apply Hn; by left). rewrite IH by (intros Hi; apply Hn; by right). by rewrite <- app_assoc.
Qed.

Lemma segments_line ps : Forall (fun p => p <> []) ps -> Forall2 pipeline (filter nonempty (segments [] (line_tokens ps))) ps.
Proof.
  induction 1 as [|p ps Hp Hps IH]; [done|]. unfold line_tokens. cbn [fmap list_fmap mjoin list_join]. rewrite <- app_assoc. cbn [app].
  rewrite segments_app by apply pipeline_no_semi. pose proof (pipeline_render p Hp) as Hr. cbn [app].
  rewrite filter_cons_True by (by apply pipeline_nonempty in Hr as [? _]). by constructor.
Qed.

(** Every list of pipelines, none empty, with any words at all (spaces, quotes and
    operators included) is what some line asks for, namely the printed one; and
    what a line asks for is always such a list, which its printed form asks for
    again. *)
Theorem parse_line_roundtrip :
  (forall ps, Forall (fun p => p <> []) ps -> parse_line (render_line ps) = Ok ps) /\
  (forall line ps, parse_line line = Ok ps -> Forall (fun p => p <> []) ps /\ parse_line (render_line ps) = Ok ps).
Proof.
  assert (Hr : forall ps, Forall (fun p => p <> []) ps -> parse_line (render_line ps) = Ok ps).
  { intros ps Hps. unfold parse_line, render_line. rewrite tokenize_render. cbn. apply line_loop_spec. exists ps.
    split; [done|]. by apply segments_line. }
  split; [done|]. intros line ps. unfold parse_line at 1. destruct (tokenize line) as [tokens|]; cbn; [|done].
  intros (ps' & -> & Hf)%line_loop_spec. assert (Hn : Forall (fun p => p <> []) ps'); [|split; [done|by apply Hr]].
  clear Hr. induction Hf as [|t p ts ps' Hp Hf IH]; constructor; [by apply pipeline_nonempty in Hp as [_ ?]|done].
Qed.

(** Quotes protect the operators, and a bare one does not parse. *)
Example parse_semi : parse_line "echo 'x ; y' >> log; ls | cat" =
  Ok [[mkCommand "echo" ["x ; y"%string] (Append "log")]; [mkCommand "ls" [] NoRedirect; mkCommand "cat" [] NoRedirect]].
Proof. reflexivity. Qed.
Example parse_bare : parse_line "rm x ; echo >" = Err InvalidArgument.
Proof. reflexivity. Qed.

Lemma parse_line_roundtrip_witness :
  parse_line (render_line [[mkCommand "a;b" ["c |d"%string] NoRedirect]]) = Ok [[mkCommand "a;b" ["c |d"%string] NoRedirect]].
Proof. apply (proj1 parse_line_roundtrip). by repeat constructor. Defined.
