(* ===== verification/Ota.v ===== *)
(** * Ota: the two firmware slots (kernel/src/ota/partition.rs, ota/mod.rs)

    The boot selection ([otadata]): two copies of an entry, each in a sector of its
    own, of which the valid one with the larger sequence number counts; and the
    update, which fills the slot that is not running and then selects it.
    [try_reserve] is the allocator's answer, a parameter. *)

From S2P Require Import Prelude Flash.

Open Scope Z_scope.

(* @src kernel/src/ota/partition.rs 6-6 SLOT_COUNT *)
Definition SLOT_COUNT : Z := 2.
(* @src kernel/src/ota/partition.rs 8-8 OTA_SELECT_ENTRY_SIZE *)
Definition OTA_SELECT_ENTRY_SIZE : Z := 32.
(* @src kernel/src/ota/partition.rs 10-10 OTA_SEQ_EMPTY *)
Definition OTA_SEQ_EMPTY : Z := 0xFFFFFFFF.
(* @src kernel/src/ota/mod.rs 11-11 ESP_IMAGE_MAGIC *)
Definition ESP_IMAGE_MAGIC : Z := 0xE9.

(* @src kernel/src/ota/partition.rs 12-26 OtaImgState *)
Inductive OtaImgState : Type := New | PendingVerify | Valid | Invalid | Aborted | Undefined.

#[export] Instance OtaImgState_eq_dec : EqDecision OtaImgState.
Proof. solve_decision. Defined.

(* @src kernel/src/ota/partition.rs 29-38 OtaImgState::from_raw *)
Definition from_raw (v : Z) : OtaImgState :=
  if v =? 0 then New else if v =? 1 then PendingVerify else if v =? 2 then Valid
  else if v =? 3 then Invalid else if v =? 4 then Aborted else Undefined.
(* @src kernel/src/ota/partition.rs 40-42 OtaImgState::as_raw *)
Definition as_raw (s : OtaImgState) : Z :=
  match s with New => 0 | PendingVerify => 1 | Valid => 2 | Invalid => 3 | Aborted => 4 | Undefined => 0xFFFFFFFF end.

(* @src kernel/src/ota/partition.rs 45-50 Slot *)
Inductive Slot : Type := Factory | Ota0.
#[export] Instance Slot_eq_dec : EqDecision Slot.
Proof. solve_decision. Defined.

(* @src kernel/src/ota/partition.rs 53-58 Slot::region *)
Definition region (s : Slot) : Z * Z :=
  match s with Factory => (FACTORY_OFFSET, FACTORY_SIZE) | Ota0 => (OTA0_OFFSET, OTA0_SIZE) end.
(* @src kernel/src/ota/partition.rs 60-65 Slot::index *)
Definition index (s : Slot) : Z := match s with Factory => 0 | Ota0 => 1 end.
(* @src kernel/src/ota/partition.rs 67-72 Slot::from_index *)
Definition from_index (idx : Z) : Slot := if idx =? 0 then Factory else Ota0.
(* @src kernel/src/ota/partition.rs 74-79 Slot::other *)
Definition other (s : Slot) : Slot := match s with Factory => Ota0 | Ota0 => Factory end.

(** ** Entries *)

(* @src kernel/src/ota/partition.rs 82-91 OtaSelectEntry *)
Record OtaSelectEntry := mkEntry { ota_seq : Z; seq_label : list Z; ota_state : Z; crc : Z }.

(* @src kernel/src/ota/partition.rs 94-101 OtaSelectEntry::empty *)
Definition entry_empty : OtaSelectEntry := mkEntry OTA_SEQ_EMPTY (replicate 20 0xFF) OTA_SEQ_EMPTY OTA_SEQ_EMPTY.

(** The inner loop of [crc32_le], eight turns of it for a byte. *)
(* @src kernel/src/ota/partition.rs 202-203 crc32_le (inner loop body) *)
Definition crc_turn (crc : Z) : Z :=
  let mask := u32 (- Z.land crc 1) in Z.lxor (Z.shiftr crc 1) (Z.land 0xEDB88320 mask).
Definition crc_step (crc byte : Z) : Z := Nat.iter 8 crc_turn (Z.lxor crc byte).
(* @src kernel/src/ota/partition.rs 196-208 crc32_le *)
Definition crc32_le (seed : Z) (data : list Z) : Z := Z.lxor (foldl crc_step (Z.lxor seed 0xFFFFFFFF) data) 0xFFFFFFFF.

(* @src kernel/src/ota/partition.rs 114-116 OtaSelectEntry::compute_crc *)
Definition compute_crc (e : OtaSelectEntry) : Z := crc32_le 0xFFFFFFFF (le_bytes 4 (ota_seq e)).

(* @src kernel/src/ota/partition.rs 103-112 OtaSelectEntry::new *)
Definition entry_new (seq : Z) (state : OtaImgState) : OtaSelectEntry :=
  let e := mkEntry seq (replicate 20 0) (as_raw state) 0 in
  mkEntry seq (replicate 20 0) (as_raw state) (compute_crc e).

(* @src kernel/src/ota/partition.rs 118-124 OtaSelectEntry::is_valid *)
Definition is_valid (e : OtaSelectEntry) : bool :=
  negb (ota_seq e =? OTA_SEQ_EMPTY) && negb (ota_seq e =? 0) && (crc e =? compute_crc e)
  && negb (ota_state e =? as_raw Invalid) && negb (ota_state e =? as_raw Aborted).

(* @src kernel/src/ota/partition.rs 126-134 OtaSelectEntry::to_bytes *)
Definition to_bytes (e : OtaSelectEntry) : list Z :=
  le_bytes 4 (ota_seq e) ++ seq_label e ++ le_bytes 4 (ota_state e) ++ le_bytes 4 (crc e).

(* @src kernel/src/ota/partition.rs 210-217 u32_le *)
Definition u32_le (b : list Z) : KResult Z := if len b <? 4 then Err InvalidArgument else Ok (of_le (take 4 b)).

(* @src kernel/src/ota/partition.rs 136-152 OtaSelectEntry::from_bytes *)
Definition from_bytes (buf : list Z) : KResult OtaSelectEntry :=
  if len buf <? OTA_SELECT_ENTRY_SIZE then Err InvalidArgument
  else
    seq ← u32_le (slice 0 4 buf);
    state ← u32_le (slice 24 4 buf);
    c ← u32_le (slice 28 4 buf);
    Ok (mkEntry seq (slice 4 20 buf) state c).

(** The copy that counts, by its index. *)
(* @src kernel/src/ota/partition.rs 155-170 select_active_index *)
Definition select_active_index (e0 e1 : OtaSelectEntry) : option Z :=
  match is_valid e0, is_valid e1 with
  | true, true => if ota_seq e1 <? ota_seq e0 then Some 0 else Some 1
  | true, false => Some 0
  | false, true => Some 1
  | false, false => None
  end.

Definition entry_at (e0 e1 : OtaSelectEntry) (i : Z) : OtaSelectEntry := if i =? 0 then e0 else e1.

(* @src kernel/src/ota/partition.rs 172-174 slot_from_seq *)
Definition slot_from_seq (seq : Z) : Slot := from_index (u32 (seq - 1) mod SLOT_COUNT).

(* @src kernel/src/ota/partition.rs 186-191 next_seq_for_index (loop) *)
Fixpoint next_seq_loop (seq target : Z) (n : nat) : KResult Z :=
  match n with
  | O => Err InvalidArgument
  | S n' =>
    if u32 (seq - 1) mod SLOT_COUNT =? target then Ok seq
    else seq' ← ok_or (checked_add32 seq 1) NoSpace; next_seq_loop seq' target n'
  end.
(* @src kernel/src/ota/partition.rs 176-194 next_seq_for_index *)
Definition next_seq_for_index (current_max target : Z) : KResult Z :=
  if SLOT_COUNT <=? target then Err InvalidArgument
  else
    base ← ok_or (checked_add32 target 1) InvalidArgument;
    seq ← ok_or (checked_add32 current_max 1) NoSpace;
    next_seq_loop (if seq <? base then base else seq) target (Z.to_nat SLOT_COUNT).

(* @src kernel/src/ota/partition.rs 219-228 otadata_copy_offset *)
Definition otadata_copy_offset (copy : Z) : KResult Z :=
  if copy =? 0 then Ok OTADATA_OFFSET
  else if copy =? 1 then ok_or (checked_add32 OTADATA_OFFSET SECTOR_SIZE) InvalidArgument
  else Err InvalidArgument.

Section Ota.
Context {D : Type} `{NorFlash D}.

(** The loop of [read_otadata], turn by turn. *)
(* @src kernel/src/ota/partition.rs 230-239 read_otadata *)
Definition read_otadata (d : D) : KResult (OtaSelectEntry * OtaSelectEntry) :=
  let read_one i := off ← otadata_copy_offset i; raw ← flash_read d off OTA_SELECT_ENTRY_SIZE; from_bytes raw in
  e0 ← read_one 0; e1 ← read_one 1; Ok (e0, e1).

(* @src kernel/src/ota/partition.rs 241-246 write_otadata_copy *)
Definition write_otadata_copy (copy : Z) (entry : OtaSelectEntry) : ST D unit :=
  off ← lift (otadata_copy_offset copy);
  _ ← flash_erase_sector off;
  flash_write off (to_bytes entry).

(* @src kernel/src/ota/partition.rs 252-264 active_slot *)
Definition active_slot (d : D) : Slot :=
  match read_otadata d with
  | Err _ => Factory
  | Ok (e0, e1) =>
    match select_active_index e0 e1 with
    | Some i => slot_from_seq (ota_seq (entry_at e0 e1 i))
    | None => Factory
    end
  end.

(* @src kernel/src/ota/partition.rs 266-286 set_boot_slot *)
Definition set_boot_slot (slot : Slot) : ST D unit := fun d =>
  let '(e0, e1) := match read_otadata d with Ok es => es | Err _ => (entry_empty, entry_empty) end in
  let active := select_active_index e0 e1 in
  let current_max := match active with Some i => ota_seq (entry_at e0 e1 i) | None => 0 end in
  (new_seq ← lift (next_seq_for_index current_max (index slot));
   let write_copy := match active with Some 0 => 1 | Some _ => 0 | None => 0 end in
   write_otadata_copy write_copy (entry_new new_seq PendingVerify)) d.

(* @src kernel/src/ota/partition.rs 288-295 get_state *)
Definition get_state (d : D) : KResult OtaImgState :=
  es ← read_otadata d;
  match select_active_index es.1 es.2 with
  | Some i => Ok (from_raw (ota_state (entry_at es.1 es.2 i)))
  | None => Err NotFound
  end.

(* @src kernel/src/ota/partition.rs 297-307 set_state *)
Definition set_state (state : OtaImgState) : ST D unit := fun d =>
  match read_otadata d with
  | Err e => (d, Err e)
  | Ok (e0, e1) =>
    match select_active_index e0 e1 with
    | Some i =>
      let e := entry_at e0 e1 i in
      let e := mkEntry (ota_seq e) (seq_label e) (as_raw state) (crc e) in
      write_otadata_copy i (mkEntry (ota_seq e) (seq_label e) (ota_state e) (compute_crc e)) d
    | None => (d, Err NotFound)
    end
  end.

(** ** Updates *)

(* @src kernel/src/ota/mod.rs 43-55 OtaUpdate *)
Record OtaUpdate := mkUpdate { u_slot : Slot; u_base : Z; u_capacity : Z; written : Z; next_erase : Z; header_ok : bool }.

(* @src kernel/src/ota/mod.rs 58-69 OtaUpdate::begin *)
Definition begin (d : D) : OtaUpdate :=
  let slot := other (active_slot d) in
  let '(base, capacity) := region slot in
  mkUpdate slot base capacity 0 base false.

Definition set_next_erase (n : Z) (u : OtaUpdate) : OtaUpdate :=
  mkUpdate (u_slot u) (u_base u) (u_capacity u) (written u) n (header_ok u).
Definition set_header_ok (u : OtaUpdate) : OtaUpdate :=
  mkUpdate (u_slot u) (u_base u) (u_capacity u) (written u) (next_erase u) true.
Definition set_written (n : Z) (u : OtaUpdate) : OtaUpdate :=
  mkUpdate (u_slot u) (u_base u) (u_capacity u) n (next_erase u) (header_ok u).

(** The sectors before [write_end] that are not erased yet; [fuel] of them at most. *)
(* @src kernel/src/ota/mod.rs 107-113 OtaUpdate::write (loop) *)
Fixpoint erase_to (write_end : Z) (fuel : nat) : ST (OtaUpdate * D) unit :=
  match fuel with
  | O => fail InvalidArgument
  | S fuel' =>
    s ← get;
    let u : OtaUpdate := fst s in
    if next_erase u <? write_end then
      _ ← on_snd (flash_erase_sector (next_erase u));
      n ← lift (ok_or (checked_add32 (next_erase u) SECTOR_SIZE) InvalidArgument);
      _ ← on_fst (modify (set_next_erase n));
      erase_to write_end fuel'
    else mret tt
  end.

(** The sectors of a slot, and one turn to see that it is done. *)
Definition erase_fuel (u : OtaUpdate) : nat := Z.to_nat (u_capacity u / SECTOR_SIZE + 2).

(** The update and the flash change together, also when the write fails. *)
(* @src kernel/src/ota/mod.rs 79-118 OtaUpdate::write *)
Definition update_write (data : list Z) : ST (OtaUpdate * D) unit :=
  match data with
  | [] => mret tt
  | b :: _ =>
    s ← get;
    let u : OtaUpdate := fst s in
    n ← lift (ok_or (try_u32 (len data)) InvalidArgument);
    end_ ← lift (ok_or (checked_add32 (written u) n) NoSpace);
    if u_capacity u <? end_ then fail NoSpace
    else if negb (header_ok u) && negb (b =? ESP_IMAGE_MAGIC) then fail Corrupt
    else
      _ ← on_fst (modify set_header_ok);
      write_at ← lift (ok_or (checked_add32 (u_base u) (written u)) InvalidArgument);
      write_end ← lift (ok_or (checked_add32 (u_base u) end_) InvalidArgument);
      _ ← erase_to write_end (erase_fuel u);
      _ ← on_snd (flash_write write_at data);
      on_fst (modify (set_written end_))
  end.

(* @src kernel/src/ota/mod.rs 120-125 OtaUpdate::finish *)
Definition finish (u : OtaUpdate) : ST D unit :=
  if negb (header_ok u) || (written u =? 0) then fail Corrupt else set_boot_slot (u_slot u).

(* @src kernel/src/ota/mod.rs 132-138 apply_image *)
Definition apply_image (image : list Z) : ST D Slot := fun d =>
  let u := begin d in
  match update_write image (u, d) with
  | ((_, d), Err e) => (d, Err e)
  | ((u, d), Ok _) => (_ ← finish u; mret (u_slot u)) d
  end.

(* @src kernel/src/ota/mod.rs 21-33 validate_header *)
Definition validate_header (image : list Z) : KResult unit :=
  if len image <? 24 then Err Corrupt
  else if negb (at_ image 0 =? ESP_IMAGE_MAGIC) then Err Corrupt
  else if (at_ image 1 =? 0) || (16 <? at_ image 1) then Err Corrupt
  else Ok tt.

(** ** The image received over the network *)

(* @src kernel/src/ota/mod.rs 140-140 MAX_IMAGE *)
Definition MAX_IMAGE : Z := OTA0_SIZE.

(** [RX_IMAGE], beside the flash. *)
(* @src kernel/src/ota/mod.rs 142-142 RX_IMAGE *)
Definition Rx : Type := option (list Z) * D.

(* @src kernel/src/ota/mod.rs 144-146 rx_begin *)
Definition rx_begin (s : Rx) : Rx := (Some [], s.2).
(* @src kernel/src/ota/mod.rs 148-157 rx_push *)
Definition rx_push (try_reserve : Z -> Z -> bool) (data : list Z) : ST Rx Z := fun s =>
  let buf := default [] s.1 in
  if MAX_IMAGE <? Z.min (len buf + len data) U32_MAX then ((Some buf, s.2), Err NoSpace)
  else if negb (try_reserve (len buf) (len data)) then ((Some buf, s.2), Err NoMem)
  else ((Some (buf ++ data), s.2), Ok (len (buf ++ data))).
(* @src kernel/src/ota/mod.rs 159-161 rx_len *)
Definition rx_len (s : Rx) : Z := len (default [] s.1).
(* @src kernel/src/ota/mod.rs 163-165 rx_clear *)
Definition rx_clear (s : Rx) : Rx := (None, s.2).

(* @src kernel/src/ota/mod.rs 167-174 apply_buffered *)
Definition apply_buffered : ST Rx Slot := fun s =>
  match s.1 with
  | None => ((None, s.2), Err NotFound)
  | Some image =>
    on_snd (match image with
      | [] => fail Corrupt
      | _ => _ ← lift (validate_header image); apply_image image
      end) (None, s.2)
  end.
End Ota.
