(* ===== verification/OtaOps.v ===== *)
(** * OtaOps: the theorems of the firmware update

    Selecting a slot, rolling back, and applying an image, against the contents of
    the flash.  They hold for any NOR device whose reads do not fail. *)

From S2P Require Import Prelude Flash Wire Ota.

Open Scope Z_scope.

(** ** Entries and sequence numbers *)

Record entry_ok (e : OtaSelectEntry) : Prop := {
  eo_seq : is_u32 (ota_seq e);
  eo_label : length (seq_label e) = 20%nat /\ bytes_ok (seq_label e);
  eo_state : is_u32 (ota_state e);
  eo_crc : is_u32 (crc e);
}.

(** The checksum is the one of EspFs's records, from another start. *)
Lemma crc_turns_eq n c : Nat.iter n crc_turn c = Nat.iter n crc_bit c.
Proof. induction n as [|n IH]; [done|]. cbn [Nat.iter nat_rect]. unfold Nat.iter in IH. by rewrite IH. Qed.

Lemma crc_step_eq c b : crc_step c b = crc_byte c b.
Proof. apply crc_turns_eq. Qed.

Lemma crc_fold data : forall c, foldl crc_step c data = crc32_update c data.
Proof. induction data as [|b data IH]; intros c; [done|]. cbn [foldl]. rewrite crc_step_eq. apply IH. Qed.

Lemma crc32_le_u32 seed data : is_u32 seed -> bytes_ok data -> is_u32 (crc32_le seed data).
Proof.
  intros Hs Hd. unfold crc32_le. rewrite crc_fold. apply lxor_u32; [|unfold is_u32; lia].
  apply crc32_update_u32; [done|]. apply lxor_u32; [done|unfold is_u32; lia].
Qed.

Lemma compute_crc_u32 e : is_u32 (compute_crc e).
Proof. apply crc32_le_u32; [unfold is_u32; lia|apply le_bytes_ok]. Qed.

Lemma as_raw_u32 s : is_u32 (as_raw s).
Proof. destruct s; cbn; unfold is_u32; lia. Qed.

Lemma from_as_raw s : from_raw (as_raw s) = s.
Proof. by destruct s. Qed.

Lemma to_bytes_length e : entry_ok e -> length (to_bytes e) = 32%nat.
Proof. intros He. unfold to_bytes. rewrite !length_app, !le_bytes_length, (proj1 (eo_label e He)). lia. Qed.

Lemma to_bytes_ok e : entry_ok e -> bytes_ok (to_bytes e).
Proof.
  intros He. unfold to_bytes. repeat apply Forall_app_2; try apply le_bytes_ok. apply (eo_label e He).
Qed.

Lemma rd_le_bytes e : is_u32 e -> of_le (le_bytes 4 e) = e.
Proof. intros He. apply of_le_le_bytes. unfold is_u32 in He. lia. Qed.

Lemma four_bytes n : exists a b c d, le_bytes 4 n = [a; b; c; d] /\ (is_u32 n -> of_le [a; b; c; d] = n).
Proof. do 4 eexists. split; [reflexivity|]. apply rd_le_bytes. Qed.

(** An entry is read back from its bytes. *)
Lemma from_to_bytes e : entry_ok e -> from_bytes (to_bytes e) = Ok e.
Proof.
  intros He. destruct He as [H1 [H2 _] H3 H4]. destruct e as [seq label state c].
  cbn in H1, H2, H3, H4. unfold from_bytes, to_bytes. cbn [ota_seq seq_label ota_state crc].
  do 20 (destruct label as [|? label]; [done|]). destruct label; [|done].
  destruct (four_bytes seq) as (a0 & a1 & a2 & a3 & Ea & Ha). destruct (four_bytes state) as (b0 & b1 & b2 & b3 & Eb & Hb).
  destruct (four_bytes c) as (c0 & c1 & c2 & c3 & Ec & Hc). rewrite Ea, Eb, Ec.
  transitivity (Ok (A := OtaSelectEntry) (mkEntry (of_le [a0; a1; a2; a3]) [z; z0; z1; z2; z3; z4; z5; z6; z7; z8; z9; z10; z11; z12; z13; z14; z15; z16; z17; z18]
    (of_le [b0; b1; b2; b3]) (of_le [c0; c1; c2; c3]))); [reflexivity|]. by rewrite Ha, Hb, Hc by done.
Qed.

Lemma entry_new_ok seq s : is_u32 seq -> entry_ok (entry_new seq s).
Proof.
  intros Hs. split; cbn; [done| |apply as_raw_u32|apply compute_crc_u32].
  split; [done|]. unfold bytes_ok, is_byte. repeat constructor; lia.
Qed.

Lemma compute_crc_seq e e' : ota_seq e = ota_seq e' -> compute_crc e = compute_crc e'.
Proof. unfold compute_crc. by intros ->. Qed.

Lemma entry_new_valid seq s : 0 < seq < OTA_SEQ_EMPTY -> s <> Invalid -> s <> Aborted -> is_valid (entry_new seq s) = true.
Proof.
  unfold OTA_SEQ_EMPTY. intros Hs H1 H2. unfold is_valid.
  assert (Hc : crc (entry_new seq s) = compute_crc (entry_new seq s)) by (apply compute_crc_seq; done). rewrite Hc, Z.eqb_refl.
  change (ota_seq (entry_new seq s)) with seq. change (ota_state (entry_new seq s)) with (as_raw s).
  unfold OTA_SEQ_EMPTY. rewrite (proj2 (Z.eqb_neq seq 0xFFFFFFFF)), (proj2 (Z.eqb_neq seq 0)) by lia. by destruct s.
Qed.

Lemma valid_seq e : is_valid e = true -> ota_seq e <> 0.
Proof. unfold is_valid. rewrite !andb_true_iff, !negb_true_iff, !Z.eqb_neq. tauto. Qed.

(** [next_seq_for_index] answers the first number above the one in use that selects
    the slot. *)
Lemma next_seq_spec cur slot : 0 <= cur -> cur + 2 < 2 ^ 32 ->
  exists seq, next_seq_for_index cur (index slot) = Ok seq /\ slot_from_seq seq = slot /\ cur < seq <= cur + 2.
Proof.
  intros H0 H1. unfold next_seq_for_index. replace (SLOT_COUNT <=? index slot) with false by (by destruct slot).
  assert (Hb : checked_add32 (index slot) 1 = Some (index slot + 1)) by (by destruct slot). rewrite Hb. cbn [ok_or mbind KResult_bind].
  unfold checked_add32 at 1. destruct (Z.leb_spec (cur + 1) U32_MAX) as [_|Hx]; [|unfold U32_MAX in Hx; lia]. cbn [ok_or mbind KResult_bind].
  set (base := if cur + 1 <? index slot + 1 then index slot + 1 else cur + 1).
  assert (Hbase : (base = cur + 1 \/ base = 2 /\ cur = 0 /\ slot = Ota0) /\ 1 <= base).
  { unfold base. destruct (Z.ltb_spec (cur + 1) (index slot + 1)) as [Hlt|]; [|lia]. destruct slot; cbn in *; lia || (split; [right|]; lia || split_and!; lia || done). }
  change (Z.to_nat SLOT_COUNT) with 2%nat. cbn [next_seq_loop]. unfold SLOT_COUNT. rewrite u32_small by lia.
  assert (Hsl : forall seq, 1 <= seq < 2 ^ 32 -> (seq - 1) mod 2 = index slot -> slot_from_seq seq = slot).
  { intros seq Hs E. unfold slot_from_seq, SLOT_COUNT. rewrite u32_small by lia. rewrite E. by destruct slot. }
  destruct (Z.eqb_spec ((base - 1) mod 2) (index slot)) as [E|E].
  - exists base. split; [done|]. split; [apply Hsl; [lia|done]|lia].
  - destruct Hbase as [[Hb1|(Hb1 & -> & ->)] Hb2]; [|rewrite Hb1 in E; done].
    unfold checked_add32. destruct (Z.leb_spec (base + 1) U32_MAX) as [_|Hx]; [|unfold U32_MAX in Hx; lia]. cbn [ok_or mbind KResult_bind].
    rewrite u32_small by lia. assert (E2 : (base + 1 - 1) mod 2 = index slot).
    { assert (index slot = 0 \/ index slot = 1) by (destruct slot; cbn; lia).
      pose proof (Z.mod_pos_bound (base - 1) 2). pose proof (Z.mod_pos_bound (base + 1 - 1) 2).
      pose proof (Z.div_mod (base - 1) 2). pose proof (Z.div_mod (base + 1 - 1) 2). lia. }
    rewrite E2, Z.eqb_refl. exists (base + 1). split; [done|]. split; [apply Hsl; [lia|done]|lia].
Qed.

(** ** The boot selection *)

Definition is_copy (i : Z) : Prop := i = 0 \/ i = 1.
Definition copy_base (i : Z) : Z := if i =? 0 then OTADATA_OFFSET else OTADATA_OFFSET + SECTOR_SIZE.

Lemma copy_offset i : is_copy i -> otadata_copy_offset i = Ok (copy_base i).
Proof. by intros [->| ->]. Qed.

Lemma copies_apart i a : is_copy i -> copy_base (1 - i) <= a < copy_base (1 - i) + 32 -> ~ (copy_base i <= a < copy_base i + 4096).
Proof.
  intros [->| ->]; [change (copy_base (1 - 0)) with 65536; change (copy_base 0) with 61440
                   |change (copy_base (1 - 1)) with 61440; change (copy_base 1) with 65536]; lia.
Qed.

Lemma validate_header_err image e : validate_header image = Err e -> e = Corrupt.
Proof.
  unfold validate_header. destruct (_ <? 24); [by intros [= <-]|]. destruct (negb _); [by intros [= <-]|].
  destruct (_ || _); by intros [= <-].
Qed.

Lemma validate_header_ok image : validate_header image = Ok tt -> image !! 0%nat = Some ESP_IMAGE_MAGIC /\ image <> [].
Proof.
  unfold validate_header. destruct (Z.ltb_spec (len image) 24); [done|]. destruct (Z.eqb_spec (at_ image 0) ESP_IMAGE_MAGIC) as [E|]; [|done].
  intros _. destruct image as [|b image]; [cbn in *; lia|]. split; [|done]. change (at_ (b :: image) 0) with b in E. by rewrite E.
Qed.

Section Ota.
Context {D : Type} {HF : NorFlash D} {HD : NorFlashLaws D} {HR : ReadsOk D}.

(** Copy [i] of the selection, as the flash has it. *)
Definition entry_in (d : D) (i : Z) : OtaSelectEntry :=
  let c := cells d (copy_base i) 32 in mkEntry (of_le (slice 0 4 c)) (slice 4 20 c) (of_le (slice 24 4 c)) (of_le (slice 28 4 c)).

Definition active (d : D) : option Z := select_active_index (entry_in d 0) (entry_in d 1).
(** The sequence number in use, 0 when there is none. *)
Definition active_seq (d : D) : Z := match active d with Some i => ota_seq (entry_in d i) | None => 0 end.

Lemma from_bytes_cells d off : from_bytes (cells d off 32) =
  let c := cells d off 32 in Ok (mkEntry (of_le (slice 0 4 c)) (slice 4 20 c) (of_le (slice 24 4 c)) (of_le (slice 28 4 c))).
Proof.
  assert (Hw : forall i, 0 <= i -> i + 4 <= 32 -> u32_le (slice i 4 (cells d off 32)) = Ok (of_le (slice i 4 (cells d off 32)))).
  { intros i H1 H2. unfold u32_le. rewrite slice_cells by lia. rewrite cells_length. cbn [Z.ltb]. change (Z.of_nat (Z.to_nat 4) <? 4) with false.
    by rewrite take_ge by (rewrite cells_length; lia). }
  unfold from_bytes. rewrite cells_length. change (Z.of_nat (Z.to_nat 32) <? OTA_SELECT_ENTRY_SIZE) with false.
  by rewrite !Hw by lia.
Qed.

Lemma read_otadata_eq d : read_otadata d = Ok (entry_in d 0, entry_in d 1).
Proof.
  assert (Hone : forall i, is_copy i ->
    (off ← otadata_copy_offset i; raw ← flash_read d off OTA_SELECT_ENTRY_SIZE; from_bytes raw) = Ok (entry_in d i)).
  { intros i Hi. rewrite copy_offset by done. cbn [mbind KResult_bind].
    rewrite flash_read_total by (try apply dev_reads; unfold copy_base, OTADATA_OFFSET, SECTOR_SIZE, OTA_SELECT_ENTRY_SIZE, FLASH_SIZE; destruct (i =? 0); lia).
    cbn [mbind KResult_bind]. apply from_bytes_cells. }
  unfold read_otadata. rewrite !Hone by (by left + by right). done.
Qed.

Lemma entry_in_cells d d' i : (forall a, copy_base i <= a < copy_base i + 32 -> nor_cell d' a = nor_cell d a) -> entry_in d' i = entry_in d i.
Proof. intros Hc. unfold entry_in. by rewrite (cells_ext d' d). Qed.

Lemma entry_at_in d i : is_copy i -> entry_at (entry_in d 0) (entry_in d 1) i = entry_in d i.
Proof. by intros [->| ->]. Qed.

Lemma active_copy d i : active d = Some i -> is_copy i /\ is_valid (entry_in d i) = true /\
  (is_valid (entry_in d (1 - i)) = true -> ota_seq (entry_in d (1 - i)) <= ota_seq (entry_in d i)).
Proof.
  unfold active, select_active_index. destruct (is_valid (entry_in d 0)) eqn:E0, (is_valid (entry_in d 1)) eqn:E1.
  - destruct (Z.ltb_spec (ota_seq (entry_in d 1)) (ota_seq (entry_in d 0))); intros [= <-].
    + split; [by left|]. split; [done|]. change (1 - 0) with 1. lia.
    + split; [by right|]. split; [done|]. change (1 - 1) with 0. lia.
  - intros [= <-]. split; [by left|]. split; [done|]. change (1 - 0) with 1. congruence.
  - intros [= <-]. split; [by right|]. split; [done|]. change (1 - 1) with 0. congruence.
  - done.
Qed.

Lemma active_seq_u32 d : is_u32 (active_seq d).
Proof.
  unfold active_seq. destruct (active d) as [i|]; [|unfold is_u32; lia]. unfold entry_in. cbn [ota_seq].
  rewrite slice_cells by lia. pose proof (of_le_range (cells d (copy_base i + 0) 4) ltac:(apply cells_ok)) as Hr.
  rewrite cells_length in Hr. exact Hr.
Qed.

Lemma active_slot_eq d : active_slot d = match active d with Some i => slot_from_seq (ota_seq (entry_in d i)) | None => Factory end.
Proof.
  unfold active_slot. rewrite read_otadata_eq. fold (active d). destruct (active d) as [i|] eqn:E; [|done].
  by rewrite entry_at_in by (by apply active_copy in E as [? _]).
Qed.

Lemma get_state_eq d : get_state d = match active d with Some i => Ok (from_raw (ota_state (entry_in d i))) | None => Err NotFound end.
Proof.
  unfold get_state. rewrite read_otadata_eq. cbn [mbind KResult_bind fst snd]. fold (active d). destruct (active d) as [i|] eqn:E; [|done].
  by rewrite entry_at_in by (by apply active_copy in E as [? _]).
Qed.

(** Writing one copy leaves the other, and everything out of [otadata], alone. *)
Lemma write_copy_spec i e d d' r : is_copy i -> entry_ok e -> write_otadata_copy i e d = (d', r) ->
  (r = Ok tt -> entry_in d' i = e) /\ entry_in d' (1 - i) = entry_in d (1 - i) /\
  forall a, ~ (copy_base i <= a < copy_base i + 4096) -> nor_cell d' a = nor_cell d a.
Proof.
  intros Hi He. unfold write_otadata_copy. rewrite copy_offset by done. unfold mbind at 1, ST_bind at 1, lift at 1.
  unfold mbind, ST_bind. destruct (flash_erase_sector (copy_base i) d) as [d1 r1] eqn:E1.
  assert (Hb : 0 <= copy_base i < 2 ^ 32 /\ copy_base i mod 4096 = 0 /\ copy_base i / 4096 * 4096 = copy_base i).
  { destruct Hi as [->| ->]; vm_compute; split_and!; congruence. }
  destruct Hb as (Hb1 & Hb2 & Hb3).
  pose proof (fun a => flash_erase_frame _ _ _ _ a Hb1 E1) as F1. rewrite Hb3 in F1.
  assert (Hfin : forall d2 r2, (forall a, ~ (copy_base i <= a < copy_base i + 4096) -> nor_cell d2 a = nor_cell d a) ->
    (r2 = Ok tt -> entry_in d2 i = e) -> (r2 = Ok tt -> entry_in d2 i = e) /\ entry_in d2 (1 - i) = entry_in d (1 - i) /\
      forall a, ~ (copy_base i <= a < copy_base i + 4096) -> nor_cell d2 a = nor_cell d a).
  { intros d2 r2 F2 Hok. split; [done|]. split; [|done]. apply entry_in_cells. intros a Ha. apply F2.
    by apply copies_apart. }
  destruct r1 as [[]|e1]; [|intros [= <- <-]; by apply Hfin].
  intros E2. apply Hfin.
  - intros a Ha. rewrite (flash_write_frame _ _ _ _ _ a E2), F1; [done..|]. rewrite to_bytes_length by done. lia.
  - intros ->. apply flash_write_Ok in E2 as [E2 _]; [|by apply to_bytes_ok|].
    + rewrite to_bytes_length in E2 by done. change (Z.of_nat 32) with 32 in E2. unfold entry_in.
      pose proof (from_bytes_cells d' (copy_base i)) as Hf. rewrite E2 in *. rewrite from_to_bytes in Hf by done. by injection Hf.
    + rewrite to_bytes_length by done. apply flash_erase_Ok in E1 as [E1 _]; [|done|done]. eapply erased_mono; [exact E1|lia|lia].
Qed.
(** The copy that [set_boot_slot] writes: never the one in use. *)
Definition spare (d : D) : Z := match active d with Some i => 1 - i | None => 0 end.

Lemma spare_copy d : is_copy (spare d).
Proof. unfold spare. destruct (active d) as [i|] eqn:E; [|by left]. apply active_copy in E as [[->| ->] _]; [by right|by left]. Qed.

Lemma active_after d w e :
  is_copy w -> entry_in d w = e -> is_valid e = true ->
  (is_valid (entry_in d (1 - w)) = true -> ota_seq (entry_in d (1 - w)) < ota_seq e) -> active d = Some w.
Proof.
  intros [->| ->] He Hv Ho; unfold active, select_active_index; [change (1 - 0) with 1 in Ho|change (1 - 1) with 0 in Ho]; rewrite He, Hv.
  - destruct (is_valid (entry_in d 1)); [|done]. specialize (Ho eq_refl). by destruct (Z.ltb_spec (ota_seq (entry_in d 1)) (ota_seq e)); [|lia].
  - destruct (is_valid (entry_in d 0)); [|done]. specialize (Ho eq_refl). by destruct (Z.ltb_spec (ota_seq e) (ota_seq (entry_in d 0))); [lia|].
Qed.

Lemma active_only d w : is_copy w -> is_valid (entry_in d w) = false ->
  active d = if is_valid (entry_in d (1 - w)) then Some (1 - w) else None.
Proof.
  intros [->| ->] Hv; unfold active, select_active_index; rewrite Hv; [change (1 - 0) with 1|change (1 - 1) with 0]; [done|].
  by destruct (is_valid (entry_in d 0)).
Qed.

Lemma spare_older d : is_valid (entry_in d (1 - spare d)) = true -> ota_seq (entry_in d (1 - spare d)) <= active_seq d.
Proof.
  unfold spare, active_seq. destruct (active d) as [i|] eqn:E.
  - by replace (1 - (1 - i)) with i by lia.
  - change (1 - 0) with 1. unfold active, select_active_index in E. destruct (is_valid (entry_in d 0)), (is_valid (entry_in d 1)); try done.
    by destruct (_ <? _).
Qed.

Lemma set_boot_spec slot d d' r : active_seq d + 2 < OTA_SEQ_EMPTY -> set_boot_slot slot d = (d', r) ->
  (r = Ok tt -> exists seq, entry_in d' (spare d) = entry_new seq PendingVerify /\ slot_from_seq seq = slot /\
     active_seq d < seq <= active_seq d + 2 /\ active d' = Some (spare d)) /\
  entry_in d' (1 - spare d) = entry_in d (1 - spare d) /\
  forall a, ~ (copy_base (spare d) <= a < copy_base (spare d) + 4096) -> nor_cell d' a = nor_cell d a.
Proof.
  unfold OTA_SEQ_EMPTY. intros Hs. unfold set_boot_slot. rewrite read_otadata_eq. fold (active d).
  assert (Hcur : match active d with Some i => ota_seq (entry_at (entry_in d 0) (entry_in d 1) i) | None => 0 end = active_seq d).
  { unfold active_seq. destruct (active d) as [i|] eqn:E; [|done]. by rewrite entry_at_in by (by apply active_copy in E as [? _]). }
  rewrite Hcur. pose proof (active_seq_u32 d) as [Hs0 _].
  destruct (next_seq_spec (active_seq d) slot Hs0 ltac:(lia)) as (seq & -> & Hslot & Hseq).
  assert (Hw : match active d with Some 0 => 1 | Some _ => 0 | None => 0 end = spare d).
  { unfold spare. destruct (active d) as [i|] eqn:E; [|done]. by apply active_copy in E as [[->| ->] _]. }
  rewrite Hw. unfold mbind, ST_bind, lift. intros E.
  apply write_copy_spec in E as (E1 & E2 & E3); [|apply spare_copy|apply entry_new_ok; unfold is_u32; lia].
  split; [|done]. intros Hr. specialize (E1 Hr). exists seq. split; [done|]. split; [done|]. split; [done|].
  eapply active_after; [apply spare_copy|exact E1|apply entry_new_valid; [unfold OTA_SEQ_EMPTY; lia|done..]|].
  rewrite E2. change (ota_seq (entry_new seq PendingVerify)) with seq. intros Hv. pose proof (spare_older d Hv). lia.
Qed.

Lemma set_state_spec s d d' r i : active d = Some i -> set_state s d = (d', r) ->
  (r = Ok tt -> exists e, entry_in d' i = e /\ ota_seq e = ota_seq (entry_in d i) /\ ota_state e = as_raw s /\
     (is_valid e = true <-> s <> Invalid /\ s <> Aborted)) /\
  entry_in d' (1 - i) = entry_in d (1 - i) /\
  forall a, ~ (copy_base i <= a < copy_base i + 4096) -> nor_cell d' a = nor_cell d a.
Proof.
  intros Ha. unfold set_state. rewrite read_otadata_eq. fold (active d). rewrite Ha. apply active_copy in Ha as (Hi & Hv & _).
  rewrite entry_at_in by done. cbn [ota_seq seq_label ota_state crc]. set (e0 := entry_in d i) in *.
  match goal with |- write_otadata_copy i ?x d = _ -> _ => set (e := x) end. intros E.
  assert (Hok : entry_ok e).
  { unfold e. split; cbn [ota_seq seq_label ota_state crc].
    - unfold e0, entry_in. cbn [ota_seq]. rewrite slice_cells by lia.
      pose proof (of_le_range (cells d (copy_base i + 0) 4) ltac:(apply cells_ok)) as Hr. rewrite cells_length in Hr. exact Hr.
    - unfold e0, entry_in. cbn [seq_label]. rewrite slice_cells by lia. split; [by rewrite cells_length|apply cells_ok].
    - apply as_raw_u32.
    - apply compute_crc_u32. }
  apply write_copy_spec in E as (E1 & E2 & E3); [|done|done]. split; [|done]. intros Hr. exists e. split; [by apply E1|].
  split; [done|]. split; [done|]. unfold is_valid in *. rewrite !andb_true_iff in Hv. destruct Hv as [[[[Hv1 Hv2] _] _] _].
  change (ota_seq e) with (ota_seq e0). rewrite Hv1, Hv2. change (ota_state e) with (as_raw s).
  assert (Hc : crc e = compute_crc e) by (apply compute_crc_seq; done). rewrite Hc, Z.eqb_refl.
  clear; destruct s; split; try done; by intros [? ?].
Qed.

(** Selecting a slot: on success the slot is the one that boots next, to be
    verified, under a larger sequence number; on any outcome the copy in use
    before is untouched, and so is all of the flash but the sector of the other
    copy. *)
Theorem set_boot_slot_correct slot d d' r :
  active_seq d + 2 < OTA_SEQ_EMPTY -> set_boot_slot slot d = (d', r) ->
  (r = Ok tt -> active_slot d' = slot /\ get_state d' = Ok PendingVerify /\ active_seq d < active_seq d') /\
  (forall i, active d = Some i -> entry_in d' i = entry_in d i) /\
  (forall a, ~ (OTADATA_OFFSET <= a < OTADATA_OFFSET + 2 * SECTOR_SIZE) -> nor_cell d' a = nor_cell d a).
Proof.
  intros Hs E. apply set_boot_spec in E as (E1 & E2 & E3); [|done]. split; [|split].
  - intros Hr. destruct (E1 Hr) as (seq & He & Hsl & Hseq & Ha). rewrite active_slot_eq, get_state_eq. unfold active_seq at 2. rewrite Ha, He.
    split; [done|]. split; [done|]. cbn [entry_new ota_seq]. lia.
  - intros i Hi. unfold spare in E2. rewrite Hi in E2. by replace (1 - (1 - i)) with i in E2 by lia.
  - intros a Ha. apply E3. unfold copy_base, SECTOR_SIZE in *. destruct (spare d =? 0); lia.
Qed.

(** Rolling back: a slot that was selected and is then marked invalid or aborted
    gives way to the one that booted before; marked with any other state, it stays
    selected and has that state. *)
Theorem rollback_restores slot s d d1 d2 :
  active_seq d + 2 < OTA_SEQ_EMPTY -> set_boot_slot slot d = (d1, Ok tt) -> set_state s d1 = (d2, Ok tt) ->
  if decide (s = Invalid \/ s = Aborted) then active_slot d2 = active_slot d
  else active_slot d2 = slot /\ get_state d2 = Ok s.
Proof.
  intros Hs E1 E2. apply set_boot_spec in E1 as (Hb & Ho & _); [|done]. destruct (Hb eq_refl) as (seq & He & Hsl & Hseq & Ha).
  apply (set_state_spec _ _ _ _ _ Ha) in E2 as (Hst & Ho2 & _). destruct (Hst eq_refl) as (e & He2 & Hes & Hst2 & Hv). clear Hb Hst.
  rewrite He in Hes. cbn [entry_new ota_seq] in Hes. rewrite Ho in Ho2.
  destruct (decide (s = Invalid \/ s = Aborted)) as [Hi|Hi].
  - assert (Hv2 : is_valid (entry_in d2 (spare d)) = false) by (rewrite He2; destruct (is_valid e); [tauto|done]).
    rewrite !active_slot_eq, (active_only d2 (spare d)), Ho2 by (done || apply spare_copy). unfold spare in Ho2 |- *. destruct (active d) as [i|] eqn:E.
    + replace (1 - (1 - i)) with i in * by lia. apply active_copy in E as (_ & -> & _). by rewrite Ho2.
    + change (1 - 0) with 1. unfold active, select_active_index in E. destruct (is_valid (entry_in d 0)), (is_valid (entry_in d 1)); try done. by destruct (_ <? _).
  - assert (Hact : active d2 = Some (spare d)).
    { eapply active_after; [apply spare_copy|exact He2|tauto|]. rewrite Ho2. intros Hx. pose proof (spare_older d Hx). lia. }
    rewrite active_slot_eq, get_state_eq, Hact, He2, Hes, Hst2, from_as_raw. done.
Qed.
(** ** Applying an image *)

Lemma erase_to_frame write_end fuel : forall u d u' d' r base,
  erase_to write_end fuel (u, d) = ((u', d'), r) -> 0 <= base -> base <= next_erase u -> next_erase u mod 4096 = 0 ->
  base mod 4096 = 0 -> write_end <= base + u_capacity u -> base + u_capacity u < 2 ^ 32 -> u_capacity u mod 4096 = 0 ->
  (u_slot u', u_base u', u_capacity u', written u', header_ok u') = (u_slot u, u_base u, u_capacity u, written u, header_ok u) /\
  (next_erase u <= next_erase u' /\ next_erase u' mod 4096 = 0 /\
    (next_erase u <= base + u_capacity u -> next_erase u' <= base + u_capacity u)) /\
  (forall a, ~ (next_erase u <= a < base + u_capacity u) -> nor_cell d' a = nor_cell d a) /\
  (r = Ok tt -> erased d' (next_erase u) (next_erase u' - next_erase u) /\ write_end <= next_erase u').
Proof.
  induction fuel as [|fuel IH]; intros u d u' d' r base; cbn [erase_to].
  { intros [= <- <- <-]; intros. split_and!; try done; lia. }
  unfold mbind, ST_bind, get. cbn [fst]. intros E Hb0 Hb Hm Hbm Hw Hc Hcm. destruct (Z.ltb_spec (next_erase u) write_end) as [Hlt|Hge].
  2:{ unfold mret, ST_ret in E. injection E as <- <- <-. split_and!; try done; try lia. intros _. split; [|lia]. intros a Ha. lia. }
  unfold on_snd in E. cbn [fst snd] in E.
  destruct (flash_erase_sector (next_erase u) d) as [d1 r1] eqn:E1.
  assert (Hn : 0 <= next_erase u < 2 ^ 32) by lia.
  assert (Hsec : next_erase u / 4096 * 4096 = next_erase u) by (pose proof (Z.div_mod (next_erase u) 4096); lia).
  assert (Hin : next_erase u + 4096 <= base + u_capacity u).
  { pose proof (Z.div_mod (next_erase u) 4096). pose proof (Z.div_mod base 4096). pose proof (Z.div_mod (u_capacity u) 4096). lia. }
  pose proof (fun a => flash_erase_frame _ _ _ _ a Hn E1) as F1. rewrite Hsec in F1.
  destruct r1 as [[]|e]; cbn [on_snd] in E.
  2:{ injection E as <- <- <-. split_and!; try done; try lia. intros a Ha. apply F1. lia. }
  unfold checked_add32, SECTOR_SIZE in E. destruct (Z.leb_spec (next_erase u + 4096) U32_MAX) as [_|Hx]; [|unfold U32_MAX in Hx; lia].
  unfold lift, ok_or, on_fst, modify in E. cbn [fst snd] in E.
  apply (IH _ _ _ _ _ base) in E; try done; cbn [set_next_erase next_erase u_capacity u_slot u_base written header_ok] in *; try lia.
  2:{ rewrite Z.add_mod, Hm by lia. done. }
  destruct E as (E2 & (E3 & E4 & E5) & F2 & Hok). split; [exact E2|]. split; [lia|]. split.
  - intros a Ha. rewrite F2, F1 by lia. done.
  - intros Hr. destruct (Hok Hr) as (He & Hle). split; [|done]. apply flash_erase_Ok in E1 as [He1 _]; [|done|done].
    intros a Ha. destruct (Z.lt_ge_cases a (next_erase u + 4096)).
    + rewrite F2 by lia. apply He1. lia.
    + apply He. lia.
Qed.
(** The update [u] has put [img] at the start of its slot, and erased what follows up
    to [next_erase]. *)
Record upd_ok (img : list Z) (u : OtaUpdate) (d : D) : Prop := {
  up_region : region (u_slot u) = (u_base u, u_capacity u);
  up_written : written u = len img;
  up_next : u_base u + written u <= next_erase u <= u_base u + u_capacity u /\ next_erase u mod 4096 = 0;
  up_cells : cells d (u_base u) (len img) = img;
  up_erased : erased d (u_base u + len img) (next_erase u - (u_base u + len img));
  up_header : header_ok u = bool_decide (img <> []) /\ (img <> [] -> img !! 0%nat = Some ESP_IMAGE_MAGIC);
}.

Lemma region_facts s base cap : region s = (base, cap) ->
  (base = 0x20000 \/ base = 0x420000) /\ cap = 0x400000 /\ base mod 4096 = 0.
Proof. destruct s; cbn; unfold FACTORY_OFFSET, FACTORY_SIZE, OTA0_OFFSET, OTA0_SIZE; intros [= <- <-]; split_and!; auto. Qed.

Definition in_slot (s : Slot) (a : Z) : Prop := (region s).1 <= a < (region s).1 + (region s).2.

Lemma begin_ok d : upd_ok [] (begin d) d /\ u_slot (begin d) = other (active_slot d).
Proof.
  unfold begin. destruct (region (other (active_slot d))) as [base cap] eqn:E. split; [|done].
  pose proof (region_facts _ _ _ E) as (_ & Hc & Hm). split; cbn; try done; [lia|]. intros a Ha. lia.
Qed.

Lemma update_write_spec img u d data u' d' r :
  upd_ok img u d -> bytes_ok data -> update_write data (u, d) = ((u', d'), r) ->
  u_slot u' = u_slot u /\ (forall a, ~ in_slot (u_slot u) a -> nor_cell d' a = nor_cell d a) /\
  (r = Ok tt -> upd_ok (img ++ data) u' d').
Proof.
  intros [Hr Hw [Hn Hm] Hc He Hh] Hd. pose proof (region_facts _ _ _ Hr) as (Hbase & Hcap & Hbm).
  unfold in_slot. rewrite Hr. cbn [fst snd]. destruct data as [|b data]; cbn [update_write].
  { unfold mret, ST_ret. intros [= <- <- <-]. rewrite app_nil_r. split; [done|]. split; [done|]. intros _. by split. }
  set (l := b :: data) in *. unfold mbind, ST_bind, get, lift. cbn [fst].
  destruct (try_u32 (len l)) as [n|] eqn:En; cbn [ok_or]; [|intros [= <- <- <-]; done].
  assert (n = len l) as -> by (unfold try_u32 in En; destruct (_ <=? _); congruence).
  destruct (checked_add32 (written u) (len l)) as [e|] eqn:Ee; cbn [ok_or]; [|intros [= <- <- <-]; done].
  assert (e = written u + len l) as -> by (unfold checked_add32 in Ee; destruct (_ <=? _); congruence).
  destruct (Z.ltb_spec (u_capacity u) (written u + len l)) as [|Hfit]; [intros [= <- <- <-]; done|].
  destruct (negb (header_ok u) && negb (b =? ESP_IMAGE_MAGIC)) eqn:Eh; [intros [= <- <- <-]; done|].
  unfold on_fst at 1, modify at 1. cbn [fst snd].
  unfold checked_add32. destruct (Z.leb_spec (u_base u + written u) U32_MAX) as [_|Hx]; [|unfold U32_MAX in Hx; lia].
  destruct (Z.leb_spec (u_base u + (written u + len l)) U32_MAX) as [_|Hx]; [|unfold U32_MAX in Hx; lia]. cbn [ok_or].
  destruct (erase_to (u_base u + (written u + len l)) (erase_fuel u) (set_header_ok u, d)) as [[u1 d1] r1] eqn:E1.
  apply (erase_to_frame _ _ _ _ _ _ _ (u_base u)) in E1; cbn [set_header_ok next_erase u_capacity u_slot u_base written header_ok] in *; try lia.
  2:{ by rewrite Hcap. }
  destruct E1 as (Eu & (Hn1 & Hm1 & Hc1) & F1 & Hok1). injection Eu as Es Eb Ec Ew Eho.
  assert (Fin : forall a, ~ (u_base u <= a < u_base u + u_capacity u) -> nor_cell d1 a = nor_cell d a) by (intros a Ha; apply F1; lia).
  destruct r1 as [[]|e1]; [|intros [= <- <- <-]; done]. destruct (Hok1 eq_refl) as [He1 Hle1]. clear Hok1.
  unfold on_snd at 1. cbn [fst snd]. destruct (flash_write (u_base u + written u) l d1) as [d2 r2] eqn:E2.
  pose proof (fun a => flash_write_frame _ _ _ _ _ a E2) as F2.
  destruct r2 as [[]|e2]; cbn [fst snd]; [|intros [= <- <- <-]; split; [done|]; split; [intros a Ha; rewrite F2, Fin by lia; done|done]].
  unfold on_fst, modify. cbn [fst snd]. intros [= <- <- <-]. split; [done|]. split; [intros a Ha; rewrite F2, Fin by lia; done|].
  intros _. assert (Her : erased d1 (u_base u + written u) (next_erase u1 - (u_base u + written u))).
  { intros a Ha. destruct (Z.lt_ge_cases a (next_erase u)); [rewrite F1 by lia; apply He; lia|apply He1; lia]. }
  apply flash_write_Ok in E2 as [E2 _]; [|done|eapply erased_mono; [exact Her|lia|lia]].
  assert (Hc2 : cells d2 (u_base u) (len img) = img).
  { rewrite <- Hc at 2. apply cells_ext. intros a Ha. rewrite F2, F1 by lia. done. }
  split; cbn [set_written u_slot u_base u_capacity written next_erase header_ok]; rewrite ?Es, ?Eb, ?Ec;
    try change (Z.of_nat (S (length data))) with (len l).
  - done.
  - rewrite length_app. lia.
  - lia.
  - rewrite length_app, Nat2Z.inj_add, cells_app, Hc2 by lia. f_equal. by rewrite <- Hw.
  - rewrite length_app. intros a Ha. rewrite F2 by lia. apply Her. lia.
  - rewrite Eho, bool_decide_true by (by destruct img). split; [done|]. intros _. destruct Hh as [Hh1 Hh2].
    destruct img as [|b0 img]; [|by apply Hh2]. rewrite Hh1 in Eh. cbn. apply negb_false_iff, Z.eqb_eq in Eh. by rewrite Eh.
Qed.
(** An update fed in pieces. *)
Definition write_all (chunks : list (list Z)) : ST (OtaUpdate * D) unit := foldM (fun _ c => update_write c) tt chunks.

Lemma write_all_spec chunks : forall img u d u' d' r,
  upd_ok img u d -> Forall bytes_ok chunks -> write_all chunks (u, d) = ((u', d'), r) ->
  u_slot u' = u_slot u /\ (forall a, ~ in_slot (u_slot u) a -> nor_cell d' a = nor_cell d a) /\
  (r = Ok tt -> upd_ok (img ++ mjoin chunks) u' d').
Proof.
  unfold write_all. induction chunks as [|c chunks IH]; intros img u d u' d' r Hu Hb; cbn [foldM].
  { intros [= <- <- <-]. split; [done|]. split; [done|]. intros _. cbn. by rewrite app_nil_r. }
  apply Forall_cons in Hb as [Hc Hb]. unfold mbind at 1, ST_bind at 1.
  destruct (update_write c (u, d)) as [[u1 d1] r1] eqn:E1.
  destruct (update_write_spec img u d c u1 d1 r1 Hu Hc E1) as (Hs1 & F1 & Hok1).
  destruct r1 as [[]|e]; [|by intros [= <- <- <-]]. intros E2. apply IH with (img := img ++ c) in E2; [|by apply Hok1|done].
  destruct E2 as (Hs2 & F2 & Hok2). rewrite Hs1 in Hs2, F2. split; [done|]. split; [intros a Ha; rewrite F2, F1 by done; done|].
  intros Hr. cbn. rewrite app_assoc. by apply Hok2.
Qed.

(** No slot overlaps the boot selection, nor the other slot. *)
Lemma slot_apart s a : in_slot s a -> ~ (OTADATA_OFFSET <= a < OTADATA_OFFSET + 2 * SECTOR_SIZE) /\ ~ in_slot (other s) a.
Proof.
  destruct s; unfold in_slot; cbn; unfold FACTORY_OFFSET, FACTORY_SIZE, OTA0_OFFSET, OTA0_SIZE, OTADATA_OFFSET, SECTOR_SIZE; lia.
Qed.

Lemma entry_in_frame d d' s i : is_copy i -> (forall a, ~ in_slot s a -> nor_cell d' a = nor_cell d a) -> entry_in d' i = entry_in d i.
Proof.
  intros Hi Hf. apply entry_in_cells. intros a Ha. apply Hf. intros Hin. apply slot_apart in Hin as [Hin _]. apply Hin.
  unfold copy_base, SECTOR_SIZE in *. destruct (i =? 0); lia.
Qed.

Lemma active_frame d d' s : (forall a, ~ in_slot s a -> nor_cell d' a = nor_cell d a) ->
  active d' = active d /\ active_seq d' = active_seq d /\ active_slot d' = active_slot d.
Proof.
  intros Hf. assert (He : forall i, is_copy i -> entry_in d' i = entry_in d i) by (intros i Hi; by eapply entry_in_frame).
  assert (Ha : active d' = active d) by (unfold active; by rewrite !He by (by left + by right)). split; [done|].
  rewrite !active_slot_eq. unfold active_seq. rewrite Ha. destruct (active d) as [i|] eqn:E; [|done].
  apply active_copy in E as [Hi _]. by rewrite He.
Qed.

Lemma update_spec chunks d u d1 r1 :
  active_seq d + 2 < OTA_SEQ_EMPTY -> Forall bytes_ok chunks ->
  write_all chunks (begin d, d) = ((u, d1), r1) ->
  let slot := other (active_slot d) in
  let img := mjoin chunks in
  (forall a, ~ in_slot slot a -> nor_cell d1 a = nor_cell d a) /\ active_slot d1 = active_slot d /\
  (r1 = Ok tt ->
     cells d1 (region slot).1 (len img) = img /\
     forall d2 r2, finish u d1 = (d2, r2) ->
       (forall a, in_slot (active_slot d) a -> nor_cell d2 a = nor_cell d a) /\
       (r2 = Ok tt -> img !! 0%nat = Some ESP_IMAGE_MAGIC /\ active_slot d2 = slot /\ get_state d2 = Ok PendingVerify /\
          cells d2 (region slot).1 (len img) = img)).
Proof.
  intros Hs Hb E. destruct (begin_ok d) as [Hu Hsl]. apply (write_all_spec _ _ _ _ _ _ _ Hu Hb) in E as (Es & F & Hok). rewrite Hsl in Es, F.
  cbn zeta. destruct (active_frame d d1 _ F) as (_ & Hseq & Hslot). split; [done|]. split; [done|]. intros Hr. specialize (Hok Hr). cbn [app] in Hok.
  destruct Hok as [Hreg Hw [Hn _] Hc _ [Hh Hm]]. rewrite Es in Hreg. rewrite Hreg. split; [exact Hc|]. intros d2 r2. unfold finish.
  assert (Hrun : forall a, in_slot (active_slot d) a -> nor_cell d1 a = nor_cell d a).
  { intros a Ha. apply F. by apply slot_apart in Ha as [_ Ha]. }
  destruct (negb (header_ok u) || (written u =? 0)) eqn:Eg; [intros [= <- <-]; by split|].
  apply orb_false_iff in Eg as [Eg%negb_false_iff _]. rewrite Es, Hh in *. apply bool_decide_eq_true in Eg. intros E2.
  apply set_boot_spec in E2 as (E2 & _ & F2); [|lia].
  assert (F3 : forall a s, in_slot s a -> nor_cell d2 a = nor_cell d1 a).
  { intros a s Ha. apply F2. apply slot_apart in Ha as [Ha _]. intros Hx. apply Ha.
    unfold copy_base, SECTOR_SIZE in *. destruct (spare d1 =? 0); lia. }
  split; [intros a Ha; rewrite (F3 a (active_slot d)), Hrun; done|]. intros Hr2. destruct (E2 Hr2) as (seq & He & Hsq & _ & Ha).
  rewrite active_slot_eq, get_state_eq, Ha, He. split; [by apply Hm|]. split; [done|]. split; [done|].
  cbn [fst]. rewrite <- Hc at 2. apply cells_ext. intros a Hin. apply (F3 a (other (active_slot d))).
  unfold in_slot. rewrite Hreg. cbn [fst snd]. lia.
Qed.

(** C21. An update, in pieces of any sizes.  Whatever happens, it writes nothing out of
    the slot that is not running and the running slot stays selected.  If every
    piece was taken, the slot holds the image; finishing then either fails, with
    the running slot as it was, or selects the new slot, which holds the image,
    and whose first byte is the magic. *)
Theorem update_correct chunks d u d1 r1 :
  active_seq d + 2 < OTA_SEQ_EMPTY -> Forall bytes_ok chunks ->
  write_all chunks (begin d, d) = ((u, d1), r1) ->
  let slot := other (active_slot d) in
  let img := mjoin chunks in
  (forall a, ~ in_slot slot a -> nor_cell d1 a = nor_cell d a) /\ active_slot d1 = active_slot d /\
  (r1 = Ok tt ->
     cells d1 (region slot).1 (len img) = img /\
     forall d2 r2, finish u d1 = (d2, r2) ->
       (forall a, in_slot (active_slot d) a -> nor_cell d2 a = nor_cell d a) /\
       (r2 = Ok tt -> img !! 0%nat = Some ESP_IMAGE_MAGIC /\ active_slot d2 = slot /\ get_state d2 = Ok PendingVerify /\
          cells d2 (region slot).1 (len img) = img)).
Proof. apply update_spec. Qed.
(** A device on which every operation succeeds. *)
Definition reliable : Prop :=
  (forall (d : D) off bs, (nor_write d off bs).2 = true) /\ (forall (d : D) from to, (nor_erase d from to).2 = true).

Lemma reliable_erase off d : reliable -> 0 <= off -> off + 4096 <= FLASH_SIZE -> off mod 4096 = 0 ->
  exists d', flash_erase_sector off d = (d', Ok tt).
Proof.
  intros [_ He] Ho Hend Hm. unfold flash_erase_sector. unfold FLASH_SIZE in Hend. rewrite sector_base_id by lia.
  unfold check_range, checked_add64, SECTOR_SIZE, U64_MAX, FLASH_SIZE. destruct (Z.leb_spec (off + 4096) (2 ^ 64 - 1)); [|lia].
  destruct (Z.ltb_spec 0x1000000 (off + 4096)); [lia|]. specialize (He d off (u32 (off + 4096))).
  destruct (nor_erase d off (u32 (off + 4096))) as [d' ok]. cbn in He. subst ok. by eexists.
Qed.

Lemma reliable_write off bs d : reliable -> 0 <= off -> off + len bs <= FLASH_SIZE -> off mod 4 = 0 -> len bs mod 4 = 0 ->
  exists d', flash_write off bs d = (d', Ok tt).
Proof.
  intros [Hw _] Ho Hend Hm Hl. unfold flash_write. unfold FLASH_SIZE in Hend.
  unfold check_range, checked_add64, WRITE_ALIGN, U64_MAX, FLASH_SIZE. destruct (Z.leb_spec (off + len bs) (2 ^ 64 - 1)); [|lia].
  destruct (Z.ltb_spec 0x1000000 (off + len bs)); [lia|]. rewrite u32_small by lia. rewrite Hm, Hl. cbn [negb orb Z.eqb].
  destruct bs as [|b bs]; [by eexists|]. specialize (Hw d off (b :: bs)). destruct (nor_write d off (b :: bs)) as [d' ok]. cbn in Hw. subst ok. by eexists.
Qed.

(** [erase_fuel] turns are enough. *)
Lemma erase_to_total write_end fuel : reliable -> forall u d,
  0 <= next_erase u -> next_erase u mod 4096 = 0 -> write_end <= FLASH_SIZE -> FLASH_SIZE mod 4096 = 0 ->
  write_end - next_erase u <= 4096 * (Z.of_nat fuel - 1) -> (0 < fuel)%nat ->
  exists s, erase_to write_end fuel (u, d) = (s, Ok tt).
Proof.
  intros Hrel. induction fuel as [|fuel IH]; intros u d Ho Hm Hw Hf Hle Hpos; [lia|]. cbn [erase_to].
  unfold mbind, ST_bind, get. cbn [fst]. destruct (Z.ltb_spec (next_erase u) write_end) as [Hlt|]; [|by eexists].
  assert (Hin : next_erase u + 4096 <= FLASH_SIZE).
  { pose proof (Z.div_mod (next_erase u) 4096). pose proof (Z.div_mod FLASH_SIZE 4096). lia. }
  unfold on_snd. cbn [fst snd]. destruct (reliable_erase (next_erase u) d Hrel Ho Hin Hm) as [d' E]. rewrite E.
  unfold checked_add32, SECTOR_SIZE, lift. unfold FLASH_SIZE in Hin.
  destruct (Z.leb_spec (next_erase u + 4096) U32_MAX) as [_|Hx]; [|unfold U32_MAX in Hx; lia]. cbn [ok_or].
  unfold on_fst, modify. cbn [fst snd]. apply IH; cbn [set_next_erase next_erase]; try done; try lia.
  rewrite Z.add_mod, Hm by lia. done.
Qed.

Lemma write_copy_total i e d : reliable -> is_copy i -> entry_ok e -> exists d', write_otadata_copy i e d = (d', Ok tt).
Proof.
  intros Hrel Hi He. unfold write_otadata_copy, mbind, ST_bind, lift. rewrite copy_offset by done.
  assert (Hb : copy_base i = 0xF000 \/ copy_base i = 0x10000) by (destruct Hi as [->| ->]; [by left|by right]).
  destruct (reliable_erase (copy_base i) d Hrel) as [d1 E1]; [lia|unfold FLASH_SIZE; lia|by destruct Hb as [-> | ->]|]. rewrite E1.
  pose proof (to_bytes_length e He) as Hl.
  destruct (reliable_write (copy_base i) (to_bytes e) d1 Hrel) as [d2 E2]; [lia|unfold FLASH_SIZE; lia|by destruct Hb as [-> | ->]|by rewrite Hl|].
  rewrite E2. by eexists.
Qed.

Lemma set_boot_total slot d : reliable -> active_seq d + 2 < OTA_SEQ_EMPTY -> exists d', set_boot_slot slot d = (d', Ok tt).
Proof.
  unfold OTA_SEQ_EMPTY. intros Hrel Hs. unfold set_boot_slot. rewrite read_otadata_eq. fold (active d).
  assert (Hcur : match active d with Some i => ota_seq (entry_at (entry_in d 0) (entry_in d 1) i) | None => 0 end = active_seq d).
  { unfold active_seq. destruct (active d) as [i|] eqn:E; [|done]. by rewrite entry_at_in by (by apply active_copy in E as [? _]). }
  rewrite Hcur. pose proof (active_seq_u32 d) as [Hs0 _].
  destruct (next_seq_spec (active_seq d) slot Hs0 ltac:(lia)) as (seq & -> & _ & Hseq). unfold mbind, ST_bind, lift.
  apply write_copy_total; [done| |apply entry_new_ok; unfold is_u32; lia].
  destruct (active d) as [i|] eqn:E; [|by left]. apply active_copy in E as [[->| ->] _]; [by right|by left].
Qed.

Lemma erase_fuel_eq u : u_capacity u = 0x400000 -> Z.of_nat (erase_fuel u) = 1026.
Proof. unfold erase_fuel. intros ->. rewrite Z2Nat.id; [done|]. vm_compute. discriminate. Qed.

Lemma update_write_total d image : reliable -> image <> [] -> image !! 0%nat = Some ESP_IMAGE_MAGIC ->
  len image <= 0x400000 -> len image mod 4 = 0 -> exists s, update_write image (begin d, d) = (s, Ok tt).
Proof.
  intros Hrel Hne Hm Hl H4. destruct image as [|b image]; [done|]. injection Hm as ->. cbn [update_write]. set (l := ESP_IMAGE_MAGIC :: image) in *.
  unfold begin. destruct (region (other (active_slot d))) as [base cap] eqn:Er. pose proof (region_facts _ _ _ Er) as (Hb & -> & Hbm).
  unfold mbind, ST_bind, get, lift. cbn [fst written u_capacity header_ok negb].
  unfold try_u32. destruct (Z.leb_spec (len l) U32_MAX) as [_|Hx]; [|unfold U32_MAX in Hx; lia]. cbn [ok_or].
  unfold checked_add32. rewrite Z.add_0_l. destruct (Z.leb_spec (len l) U32_MAX) as [_|Hx]; [|unfold U32_MAX in Hx; lia]. cbn [ok_or].
  destruct (Z.ltb_spec 0x400000 (len l)); [lia|]. rewrite Z.eqb_refl. cbn [negb andb]. unfold on_fst at 1, modify at 1. cbn [fst snd u_base].
  rewrite Z.add_0_r. destruct (Z.leb_spec base U32_MAX) as [_|Hx]; [|unfold U32_MAX in Hx; lia].
  destruct (Z.leb_spec (base + len l) U32_MAX) as [_|Hx]; [|unfold U32_MAX in Hx; lia]. cbn [ok_or].
  match goal with |- context [erase_to ?w ?f (?u, ?x)] => destruct (erase_to_total w f Hrel u x) as [[u1 d1] E1] end;
    cbn [set_header_ok next_erase u_capacity]; try done; try (unfold FLASH_SIZE; lia).
  { rewrite erase_fuel_eq by done. lia. }
  { match goal with |- (0 < erase_fuel ?u)%nat => pose proof (erase_fuel_eq u eq_refl) end. lia. }
  rewrite E1. unfold on_snd. cbn [fst snd].
  destruct (reliable_write base l d1 Hrel) as [d2 E2]; [lia|unfold FLASH_SIZE; lia|by destruct Hb as [->| ->]|done|].
  rewrite E2. by eexists.
Qed.

(** A received image.  Nothing buffered is [NotFound] and a bad header [Corrupt],
    with the flash untouched.  On a device that does its work, an image with a
    good header that fits a slot and is a whole number of words is always applied:
    the slot that was not running holds it and boots next, and the buffer is
    released. *)
Theorem apply_buffered_total image d :
  reliable -> active_seq d + 2 < OTA_SEQ_EMPTY -> bytes_ok image ->
  apply_buffered (None, d) = ((None, d), Err NotFound) /\
  (validate_header image <> Ok tt -> apply_buffered (Some image, d) = ((None, d), Err Corrupt)) /\
  (validate_header image = Ok tt -> len image <= MAX_IMAGE -> len image mod 4 = 0 ->
     exists d', apply_buffered (Some image, d) = ((None, d'), Ok (other (active_slot d))) /\
       active_slot d' = other (active_slot d) /\ cells d' (region (active_slot d')).1 (len image) = image /\
       forall a, in_slot (active_slot d) a -> nor_cell d' a = nor_cell d a).
Proof.
  intros Hrel Hs Hb. split; [done|]. split.
  - intros Hv. unfold apply_buffered. cbn [fst snd]. destruct image as [|b image]; [done|]. unfold on_snd, mbind, ST_bind, lift. cbn [fst snd].
    pose proof (validate_header_err (b :: image)) as He. destruct (validate_header (b :: image)) as [[]|e]; [done|]. by rewrite (He e).
  - intros Hv Hl H4. destruct (validate_header_ok _ Hv) as [Hm Hne].
    destruct (update_write_total d image Hrel Hne Hm Hl H4) as [[u d1] E1].
    destruct (update_spec [image] d u d1 (Ok tt) Hs) as (F & Ha & Hok); [by repeat constructor| |].
    { unfold write_all. cbn [foldM]. unfold mbind, ST_bind. rewrite E1. done. }
    cbn zeta in *. cbn [mjoin list_join] in Hok. rewrite app_nil_r in Hok. destruct (Hok eq_refl) as [Hc Hfin]. clear Hok.
    destruct (begin_ok d) as [Hbeg Hbs]. destruct (update_write_spec [] (begin d) d image u d1 (Ok tt) Hbeg Hb E1) as (Eslot & _ & Hupd).
    destruct (Hupd eq_refl) as [_ Hw _ _ _ [Hh _]]. cbn [app] in Hw, Hh. rewrite Hbs in Eslot. rewrite bool_decide_true in Hh by done.
    destruct (set_boot_total (u_slot u) d1 Hrel) as [d2 E2]; [by destruct (active_frame d d1 _ F) as (_ & -> & _)|].
    assert (Ef : finish u d1 = (d2, Ok tt)).
    { unfold finish. rewrite Hh, Hw. destruct image; [done|]. exact E2. }
    destruct (Hfin d2 (Ok tt) Ef) as [Hrun Hres]. destruct (Hres eq_refl) as (_ & Hslot & _ & Hcells). exists d2. split.
    + unfold apply_buffered. cbn [fst snd]. destruct image as [|b image]; [done|]. unfold on_snd, mbind, ST_bind, lift. cbn [fst snd].
      rewrite Hv. unfold apply_image. rewrite E1. unfold mbind, ST_bind. rewrite Ef. unfold mret, ST_ret. by rewrite Eslot.
    + split; [done|]. rewrite Hslot. split; [exact Hcells|exact Hrun].
Qed.
End Ota.

(** ** On the memory device *)

Definition erased_flash : nor_mem := fun _ => 255.
Definition boot_ota : nor_mem := (set_boot_slot Ota0 erased_flash).1.
Definition boot_bad : nor_mem := (set_state Invalid boot_ota).1.

Lemma boot_ota_eq : set_boot_slot Ota0 erased_flash = (boot_ota, Ok tt).
Proof. unfold boot_ota. apply st_parts. vm_compute. reflexivity. Qed.
Lemma boot_bad_eq : set_state Invalid boot_ota = (boot_bad, Ok tt).
Proof. unfold boot_bad; apply st_parts. vm_compute. reflexivity. Qed.
Lemma erased_seq : active_seq erased_flash + 2 < OTA_SEQ_EMPTY.
Proof. vm_compute. reflexivity. Qed.
Lemma nor_mem_reliable : reliable (D := nor_mem).
Proof. by split. Qed.

Lemma set_boot_slot_correct_witness : active_slot boot_ota = Ota0 /\ get_state boot_ota = Ok PendingVerify.
Proof.
  destruct (set_boot_slot_correct Ota0 erased_flash boot_ota (Ok tt) erased_seq boot_ota_eq) as (H & _).
  destruct (H eq_refl) as (H1 & H2 & _). split; [exact H1|exact H2].
Defined.

Lemma rollback_restores_witness : active_slot boot_bad = active_slot erased_flash.
Proof.
  pose proof (rollback_restores Ota0 Invalid erased_flash boot_ota boot_bad erased_seq boot_ota_eq boot_bad_eq) as H.
  rewrite decide_True in H by (left; reflexivity). exact H.
Defined.

Definition ota_pieces : list (list Z) := [[0xE9; 1; 2; 3]; [4; 5; 6; 7]].
Definition ota_written : OtaUpdate * nor_mem := (write_all ota_pieces (begin erased_flash, erased_flash)).1.
Lemma ota_written_eq : write_all ota_pieces (begin erased_flash, erased_flash) = (ota_written, Ok tt).
Proof. unfold ota_written. apply st_parts. vm_compute. reflexivity. Qed.
Lemma ota_pieces_ok : Forall bytes_ok ota_pieces.
Proof. unfold bytes_ok, is_byte. repeat constructor; lia. Qed.
Lemma pair_parts {A B C} (p : A * B) (c : C) x : x = (p, c) -> x = ((p.1, p.2), c).
Proof. by destruct p. Qed.

Lemma update_correct_witness : cells ota_written.2 (region (other (active_slot erased_flash))).1 8 = [0xE9; 1; 2; 3; 4; 5; 6; 7].
Proof.
  destruct (update_correct ota_pieces erased_flash ota_written.1 ota_written.2 (Ok tt) erased_seq ota_pieces_ok
    (pair_parts _ _ _ ota_written_eq)) as (_ & _ & H).
  exact (proj1 (H eq_refl)).
Defined.

Definition ota_image : list Z := [0xE9; 1] ++ replicate 22 7.

Lemma apply_buffered_total_witness :
  exists d', apply_buffered (Some ota_image, erased_flash) = ((None, d'), Ok (other (active_slot erased_flash))) /\
    active_slot d' = other (active_slot erased_flash).
Proof.
  assert (Hb : bytes_ok ota_image) by (unfold bytes_ok, is_byte; repeat constructor; lia).
  destruct (apply_buffered_total ota_image erased_flash nor_mem_reliable erased_seq Hb) as (_ & _ & H).
  assert (Hl : len ota_image <= MAX_IMAGE) by (vm_compute; discriminate).
  destruct (H eq_refl Hl eq_refl) as (d' & E & Ha & _). exists d'. split; [exact E|exact Ha].
Defined.
