(* ===== verification/Elf.v ===== *)
(** * Elf: loading a program into a slot (kernel/src/fs/elf.rs)

    The image is read through the VFS, checked, copied into the slot the allocator
    gives, relocated there by its fixup table, and handed an argument block.  The
    loader writes memory through the data bus: the text of slot [i] at
    [slot_text_write], its data at [slot_data].  [link_data] is the address
    build.rs links the data of a program at. *)

From S2P Require Import Prelude Inode Process Vfs Slots Sched Syscall.

Open Scope Z_scope.

(* @src kernel/src/fs/elf.rs 9-25 ElfHeader *)
Record ElfHeader := mkElfHeader {
  e_ident : list Z; e_type : Z; e_machine : Z; e_version : Z; e_entry : Z; e_phoff : Z; e_shoff : Z; e_flags : Z;
  e_ehsize : Z; e_phentsize : Z; e_phnum : Z; e_shentsize : Z; e_shnum : Z; e_shstrndx : Z;
}.

(* @src kernel/src/fs/elf.rs 27-38 ProgramHeader *)
Record ProgramHeader := mkPh {
  p_type : Z; p_offset : Z; p_vaddr : Z; p_paddr : Z; p_filesz : Z; p_memsz : Z; p_flags : Z; p_align : Z;
}.

(* @src kernel/src/fs/elf.rs 45-45 PT_LOAD *)
Definition PT_LOAD : Z := 1.
(* @src kernel/src/fs/elf.rs 46-46 EM_XTENSA *)
Definition EM_XTENSA : Z := 94.
(* @src kernel/src/fs/elf.rs 50-50 FIXUP_MAGIC *)
Definition FIXUP_MAGIC : Z := 0x45535046.
(* @src kernel/src/fs/elf.rs 51-51 TRAILER_LEN *)
Definition TRAILER_LEN : Z := 8.

(** [size_of] of the two headers. *)
Definition EHDR_SIZE : Z := 52.
Definition PHDR_SIZE : Z := 32.

(* @src kernel/src/fs/elf.rs 55-65 LoadedElf *)
Record LoadedElf := mkLoaded { entry : Z; slot : Z; text_base : Z; data_base : Z; data_size : Z }.

(* @src kernel/src/fs/elf.rs 67-69 rd32 *)
Definition rd32 (b : list Z) (o : Z) : Z := of_le (slice o 4 b).
Definition rd16 (b : list Z) (o : Z) : Z := of_le (slice o 2 b).

(** The header as it lies in memory ([repr(C)], little-endian). *)
Definition header_of (b : list Z) : ElfHeader :=
  mkElfHeader (take 16 b) (rd16 b 16) (rd16 b 18) (rd32 b 20) (rd32 b 24) (rd32 b 28) (rd32 b 32) (rd32 b 36)
    (rd16 b 40) (rd16 b 42) (rd16 b 44) (rd16 b 46) (rd16 b 48) (rd16 b 50).
Definition phdr_of (b : list Z) : ProgramHeader :=
  mkPh (rd32 b 0) (rd32 b 4) (rd32 b 8) (rd32 b 12) (rd32 b 16) (rd32 b 20) (rd32 b 24) (rd32 b 28).

(* @src kernel/src/fs/elf.rs 117-121 Region *)
Record Region := mkRegion { base : Z; size : Z }.

(** A segment that takes memory. *)
Definition loads (p : ProgramHeader) : bool := (p_type p =? PT_LOAD) && (0 <? p_memsz p).

(** One turn of the loop of [measure], for the region of the segment's bus. *)
(* @src kernel/src/fs/elf.rs 143-161 measure (loop body) *)
Definition extend (r : option Region) (ph : ProgramHeader) (end_ : Z) : Region :=
  match r with
  | None => mkRegion (p_vaddr ph) (p_memsz ph)
  | Some r =>
    let b := Z.min (base r) (p_vaddr ph) in
    mkRegion b (u32 (Z.max (u32 (base r + size r)) end_ - b))
  end.

Fixpoint measure_loop (phs : list ProgramHeader) (t d : option Region) : KResult (option Region * option Region) :=
  match phs with
  | [] => Ok (t, d)
  | ph :: phs' =>
    end_ ← ok_or (checked_add32 (p_vaddr ph) (p_memsz ph)) Corrupt;
    if is_ibus_range (p_vaddr ph) then measure_loop phs' (Some (extend t ph end_)) d
    else measure_loop phs' t (Some (extend d ph end_))
  end.

(* @src kernel/src/fs/elf.rs 140-171 measure *)
Definition measure (link_data : Z) (phs : list ProgramHeader) : KResult (Region * Region) :=
  td ← measure_loop (List.filter loads phs) None None;
  text ← ok_or td.1 Corrupt;
  Ok (text, default (mkRegion link_data 0) td.2).

(** The words a fixup table lists get the bias of the slot added. *)
(* @src kernel/src/fs/elf.rs 272-303 apply_fixups *)
Fixpoint apply_fixups (fixups : list Z) (text data : Region) (text_write data_write text_bias data_bias : Z) : ST (Z -> Z) unit :=
  match fixups with
  | [] => mret tt
  | f :: fixups' =>
    let off := Z.land f (Z.ldiff (Z.ones 32) 3) in
    let word_in_data := negb (Z.land f 2 =? 0) in
    let bias := if negb (Z.land f 1 =? 0) then data_bias else text_bias in
    let '(region, base) := if word_in_data then (data, data_write) else (text, text_write) in
    e ← lift (ok_or (checked_add32 off 4) Fault);
    if Z.min (size region) SLOT_SIZE <? e then fail Fault
    else
      let p := u32 (base + off) in
      _ ← modify (fun mem => write_mem p (le_bytes 4 (u32 (read_word mem p + bias))) mem);
      apply_fixups fixups' text data text_write data_write text_bias data_bias
  end.

(** Writes the pointer and the string of each argument, then the final NULL. *)
(* @src kernel/src/fs/elf.rs 350-359 write_argv (loop) *)
Fixpoint argv_loop (argv : list string) (ptr_at str_at : Z) (mem : Z -> Z) : Z -> Z :=
  match argv with
  | [] => write_mem ptr_at (le_bytes 4 0) mem
  | s :: argv' =>
    let mem := write_mem ptr_at (le_bytes 4 str_at) mem in
    let mem := write_mem str_at (as_bytes s) mem in
    let mem := write_mem (str_at + str_len s) [0] mem in
    argv_loop argv' (ptr_at + 4) (str_at + str_len s + 1) mem
  end.

(** The bytes of the block: the count, the pointers and their NULL, then the strings. *)
Definition ptrs_len (argv : list string) : Z := 4 + (len argv + 1) * 4.
Definition strs_len (argv : list string) : Z := foldr (fun a n => str_len a + 1 + n) 0 argv.
Definition blob_len (argv : list string) : Z := Z.land (ptrs_len argv + strs_len argv + 3) (Z.ldiff (Z.ones 32) 3).

(* @src kernel/src/fs/elf.rs 328-366 write_argv *)
Definition write_argv (loaded : LoadedElf) (argv : list string) : ST (Z -> Z) Z := fun mem =>
  if SLOT_SIZE <? blob_len argv then (mem, Err NoSpace)
  else
    let off := SLOT_SIZE - blob_len argv in
    if off <? data_size loaded then (mem, Err NoSpace)
    else
      let b := data_base loaded + off in
      let mem := write_mem b (le_bytes 4 (len argv)) mem in
      (argv_loop argv (b + 4) (b + ptrs_len argv) mem, Ok b).

Section Load.
Context {W I : Type} `{!Inode W I, !EqDecision I, !Droppable W I}.

(** What loading works on: the VFS, the bitmap of slots, and the memory. *)
Record Loader := mkLoader { l_vfs : Vfs W I; l_slots : Z; l_mem : Z -> Z }.

Definition via_vfs {A} (m : IO (Vfs W I) A) : IO Loader A :=
  fun l => let '(v, r) := m (l_vfs l) in (mkLoader v (l_slots l) (l_mem l), r).
Definition via_mem {A} (m : ST (Z -> Z) A) : IO Loader A :=
  fun l => let '(mem, r) := m (l_mem l) in (mkLoader (l_vfs l) (l_slots l) mem, Ret r).
Definition prog {A} (f : Loader -> Loader * Outcome A) : IO Loader A := f.
Definition io_lift {A} (r : KResult A) : IO Loader A := fun l => (l, Ret r).

(** [vfs::read] of a buffer of [n] bytes that has to be filled. *)
Definition read_full (c : Caller) (fd n : Z) : IO Loader (list Z) :=
  bytes ← via_vfs (read c fd n); io_lift (if len bytes =? n then Ok bytes else Err Corrupt).

(* @src kernel/src/fs/elf.rs 123-135 read_phdrs *)
Definition read_phdrs (c : Caller) (fd : Z) (eh : ElfHeader) : IO Loader (list ProgramHeader) :=
  let n := e_phnum eh in
  if (n =? 0) || negb (e_phentsize eh =? PHDR_SIZE) then io_lift (Err Corrupt)
  else
    _ ← via_vfs (io (seek c fd (Start (e_phoff eh))));
    raw ← read_full c fd (n * PHDR_SIZE);
    mret ((fun i => phdr_of (slice (Z.of_nat i * PHDR_SIZE) PHDR_SIZE raw)) <$> seq 0 (Z.to_nat n)).

(* @src kernel/src/fs/elf.rs 173-201 read_fixups *)
Definition read_fixups (c : Caller) (fd : Z) : IO Loader (list Z) :=
  size ← via_vfs (io (seek c fd (End 0)));
  if size <? TRAILER_LEN then io_lift (Err Corrupt)
  else
    _ ← via_vfs (io (seek c fd (Start (size - TRAILER_LEN))));
    t ← read_full c fd TRAILER_LEN;
    if negb (rd32 t 4 =? FIXUP_MAGIC) then io_lift (Err Corrupt)
    else
      let count := rd32 t 0 in
      let bytes := count * 4 + TRAILER_LEN in
      if size <? bytes then io_lift (Err Corrupt)
      else
        _ ← via_vfs (io (seek c fd (Start (size - bytes))));
        raw ← read_full c fd (u32 (count * 4));
        mret ((fun i => rd32 raw (Z.of_nat i * 4)) <$> seq 0 (Z.to_nat count)).

(** One segment: its memory is zeroed and the bytes of the file read over it, straight
    into place, so a short read has still written what it got. *)
(* @src kernel/src/fs/elf.rs 222-239 place (loop body) *)
Definition place_segment (c : Caller) (fd : Z) (text data : Region) (text_write data_write : Z) (ph : ProgramHeader) : IO Loader unit :=
  let '(region, dest_base) := if is_ibus_range (p_vaddr ph) then (text, text_write) else (data, data_write) in
  let dest := u32 (dest_base + u32 (p_vaddr ph - base region)) in
  _ ← via_mem (modify (write_mem dest (replicate (Z.to_nat (p_memsz ph)) 0)));
  if 0 <? p_filesz ph then
    _ ← via_vfs (io (seek c fd (Start (p_offset ph))));
    bytes ← via_vfs (read c fd (p_filesz ph));
    _ ← via_mem (modify (write_mem dest bytes));
    io_lift (if len bytes =? p_filesz ph then Ok tt else Err Corrupt)
  else mret tt.

Fixpoint place_segments (c : Caller) (fd : Z) (text data : Region) (text_write data_write : Z) (phs : list ProgramHeader) : IO Loader unit :=
  match phs with
  | [] => mret tt
  | ph :: phs' =>
    _ ← place_segment c fd text data text_write data_write ph;
    place_segments c fd text data text_write data_write phs'
  end.

(* @src kernel/src/fs/elf.rs 203-263 place *)
Definition place (db : Z) (c : Caller) (fd : Z) (eh : ElfHeader) (phs : list ProgramHeader) (text data : Region) (slot : Z)
    (fixups : list Z) : IO Loader LoadedElf :=
  let text_exec := slot_text_exec slot in
  let text_write := slot_text_write db slot in
  let data_write := slot_data db slot in
  let text_bias := u32 (text_exec - base text) in
  let data_bias := u32 (data_write - base data) in
  _ ← place_segments c fd text data text_write data_write (List.filter loads phs);
  _ ← via_mem (apply_fixups fixups text data text_write data_write text_bias data_bias);
  mret (mkLoaded (u32 (e_entry eh + text_bias)) slot text_exec data_write (size data)).

(** The slot is given back when the image cannot be placed. *)
(* @src kernel/src/fs/elf.rs 86-115 load_inner *)
Definition load_inner (link_data db : Z) (c : Caller) (fd : Z) : IO Loader LoadedElf :=
  ehb ← read_full c fd EHDR_SIZE;
  let eh := header_of ehb in
  if negb (bool_decide (take 4 (e_ident eh) = [0x7f; 69; 76; 70])) || negb (e_machine eh =? EM_XTENSA) then io_lift (Err Corrupt)
  else
    phs ← read_phdrs c fd eh;
    td ← io_lift (measure link_data phs);
    let '(text, data) := td in
    if (SLOT_SIZE <? size text) || (SLOT_SIZE <? size data) then io_lift (Err NoSpace)
    else
      fixups ← read_fixups c fd;
      prog (fun l =>
        match slot_alloc (l_slots l) with
        | (_, None) => (l, Ret (Err Busy))
        | (used, Some slot) =>
          match place db c fd eh phs text data slot fixups (mkLoader (l_vfs l) used (l_mem l)) with
          | (l, Ret (Err e)) => (mkLoader (l_vfs l) (slot_free slot (l_slots l)) (l_mem l), Ret (Err e))
          | r => r
          end
        end).

(* @src kernel/src/fs/elf.rs 79-84 load_elf *)
Definition load_elf (link_data db : Z) (c : Caller) (path : string) : IO Loader LoadedElf :=
  fd ← via_vfs (io (open c path RDONLY));
  prog (fun l =>
    match load_inner link_data db c fd l with
    | (l, Park) => (l, Park)
    | (l, Ret r) => (mkLoader (close c fd (l_vfs l)).1 (l_slots l) (l_mem l), Ret r)
    end).
End Load.
Arguments Loader : clear implicits.
