(* ===== verification/ElfOps.v ===== *)
(** * ElfOps: the theorems of the loader

    Placing an image writes the memory of its slot only, provided that no segment has
    more bytes in the file than in memory (which the loader does not check); each
    word of the fixup table gets its bias once; and the argument block is what a
    program finds. *)

From S2P Require Import Prelude Inode Process Vfs VfsOps Slots Sched Syscall Elf.

Open Scope Z_scope.

(** ** Memory *)

Lemma write_mem_in ptr l mem a : ptr <= a < ptr + len l -> write_mem ptr l mem a = at_ l (a - ptr).
Proof. intros Ha. unfold write_mem. by rewrite bool_decide_true. Qed.
Lemma write_mem_out ptr l mem a : ~ (ptr <= a < ptr + len l) -> write_mem ptr l mem a = mem a.
Proof. intros Ha. unfold write_mem. by rewrite bool_decide_false. Qed.

Lemma read_mem_ext mem mem' ptr n : (forall a, ptr <= a < ptr + Z.of_nat n -> mem' a = mem a) -> read_mem mem' ptr n = read_mem mem ptr n.
Proof. intros He. unfold read_mem. apply list_fmap_ext. intros i j Hj. apply lookup_seq in Hj as [-> Hj]. apply He. lia. Qed.

Lemma read_write_mem ptr l mem : read_mem (write_mem ptr l mem) ptr (length l) = l.
Proof.
  apply list_eq. intros i. unfold read_mem. rewrite list_lookup_fmap. destruct (decide (i < length l)%nat) as [Hi|Hi].
  - rewrite lookup_seq_lt by done. cbn. rewrite write_mem_in by lia. unfold at_. replace (Z.to_nat (ptr + Z.of_nat i - ptr)) with i by lia.
    by destruct (lookup_lt_is_Some_2 l i Hi) as [x ->].
  - rewrite lookup_seq_ge by lia. cbn. by rewrite lookup_ge_None_2 by lia.
Qed.

Lemma read_word_ext mem mem' ptr : (forall a, ptr <= a < ptr + 4 -> mem' a = mem a) -> read_word mem' ptr = read_word mem ptr.
Proof. intros He. unfold read_word. by rewrite (read_mem_ext mem mem'). Qed.

Lemma read_write_word ptr z mem : 0 <= z < 2 ^ 32 -> read_word (write_mem ptr (le_bytes 4 z) mem) ptr = z.
Proof.
  intros Hz. unfold read_word. change 4%nat with (length (le_bytes 4 z)). rewrite read_write_mem. apply of_le_le_bytes. exact Hz.
Qed.

Lemma le4_len z : len (le_bytes 4 z) = 4.
Proof. by rewrite le_bytes_length. Qed.

(** ** Regions *)

Definition fits (r : Region) : Prop := 0 <= base r /\ 0 <= size r /\ base r + size r < 2 ^ 32.
Definition covers (r : Region) (ph : ProgramHeader) : Prop := base r <= p_vaddr ph /\ p_vaddr ph + p_memsz ph <= base r + size r.
Definition ph_ok (ph : ProgramHeader) : Prop := 0 <= p_vaddr ph < 2 ^ 32 /\ 0 <= p_memsz ph < 2 ^ 32.

Lemma extend_spec r ph e : checked_add32 (p_vaddr ph) (p_memsz ph) = Some e -> ph_ok ph -> (forall r0, r = Some r0 -> fits r0) ->
  fits (extend r ph e) /\ covers (extend r ph e) ph /\ forall r0 ph', r = Some r0 -> covers r0 ph' -> covers (extend r ph e) ph'.
Proof.
  unfold checked_add32. destruct (Z.leb_spec (p_vaddr ph + p_memsz ph) U32_MAX) as [Hu|]; [|done]. unfold U32_MAX in Hu. intros [= <-] [H1 H2] Hr.
  destruct r as [r|]; cbn [extend].
  - destruct (Hr r eq_refl) as (F1 & F2 & F3). unfold fits, covers. cbn [base size]. rewrite !u32_small by (rewrite ?u32_small; lia).
    split; [lia|]. split; [lia|]. intros r0 ph' [= <-] [C1 C2]. lia.
  - unfold fits, covers. cbn [base size]. split; [lia|]. split; [lia|]. done.
Qed.

Lemma measure_loop_spec phs : forall t d t' d', Forall ph_ok phs ->
  (forall r, t = Some r -> fits r) -> (forall r, d = Some r -> fits r) -> measure_loop phs t d = Ok (t', d') ->
  (forall r, t' = Some r -> fits r) /\ (forall r, d' = Some r -> fits r) /\
  (forall r ph, t = Some r -> covers r ph -> exists r', t' = Some r' /\ covers r' ph) /\
  (forall r ph, d = Some r -> covers r ph -> exists r', d' = Some r' /\ covers r' ph) /\
  forall ph, ph ∈ phs -> exists r, (if is_ibus_range (p_vaddr ph) then t' else d') = Some r /\ covers r ph.
Proof.
  induction phs as [|ph phs IH]; intros t d t' d' Hok Ht Hd; cbn [measure_loop].
  { intros [= <- <-]. split; [done|]. split; [done|]. split; [by eauto|]. split; [by eauto|]. by intros ph ?%not_elem_of_nil. }
  apply Forall_cons in Hok as [Hp Hok]. destruct (checked_add32 (p_vaddr ph) (p_memsz ph)) as [e|] eqn:Ee; [|done]. cbn [ok_or mbind KResult_bind].
  destruct (is_ibus_range (p_vaddr ph)) eqn:Eb; intros E.
  - destruct (extend_spec t ph e Ee Hp Ht) as (F & C & Hk). apply IH in E as (H1 & H2 & H3 & H4 & H5); [|done|by intros r [= <-]|done].
    split; [done|]. split; [done|]. split; [intros r ph' Hr Hc; eapply H3; [done|by eapply Hk]|]. split; [done|].
    intros ph' [->|Hin]%elem_of_cons; [|by apply H5]. rewrite Eb. by eapply H3.
  - destruct (extend_spec d ph e Ee Hp Hd) as (F & C & Hk). apply IH in E as (H1 & H2 & H3 & H4 & H5); [|done|done|by intros r [= <-]].
    split; [done|]. split; [done|]. split; [done|]. split; [intros r ph' Hr Hc; eapply H4; [done|by eapply Hk]|].
    intros ph' [->|Hin]%elem_of_cons; [|by apply H5]. rewrite Eb. by eapply H4.
Qed.

Lemma Forall_kept {A} (P : A -> Prop) f (l : list A) : Forall P l -> Forall P (List.filter f l).
Proof. induction 1 as [|x l Hx Hl IH]; cbn; [done|]. destruct (f x); [by constructor|done]. Qed.

(** The regions of [measure] hold every segment that is loaded. *)
Lemma measure_spec ld phs text data : Forall ph_ok phs -> 0 <= ld < 2 ^ 32 -> measure ld phs = Ok (text, data) ->
  fits text /\ fits data /\ forall ph, ph ∈ List.filter loads phs -> covers (if is_ibus_range (p_vaddr ph) then text else data) ph.
Proof.
  intros Hok Hld. unfold measure. destruct (measure_loop (List.filter loads phs) None None) as [[t d]|] eqn:E; [|done]. cbn [mbind KResult_bind fst snd].
  apply measure_loop_spec in E as (H1 & H2 & _ & _ & H5); [|by apply Forall_kept|done|done].
  destruct t as [t|]; [|done]. cbn. intros [= <- <-]. split; [by apply H1|]. split.
  - destruct d as [d|]; [by apply H2|]. unfold fits. cbn. lia.
  - intros ph Hin. destruct (H5 ph Hin) as (r & Hr & Hc). destruct (is_ibus_range (p_vaddr ph)).
    + by injection Hr as ->.
    + destruct d as [d|]; [|done]. by injection Hr as ->.
Qed.

Definition is_u32' (z : Z) : Prop := 0 <= z < 2 ^ 32.

(** ** Containment *)

(** The memory of slot [i]: its text and its data. *)
Definition slot_memory (db i a : Z) : Prop :=
  slot_text_write db i <= a < slot_text_write db i + SLOT_SIZE \/ slot_data db i <= a < slot_data db i + SLOT_SIZE.

(** The window of the slots lies in the address space. *)
Definition window_ok (db i : Z) : Prop := 0 <= db /\ db mod 4 = 0 /\ db + 0x100000 <= 2 ^ 32 /\ 0 <= i < SLOT_COUNT.

Lemma slot_addresses db i : window_ok db i ->
  slot_text_write db i = db + i * SLOT_SIZE /\ slot_data db i = db + TEXT_REGION_SIZE + i * SLOT_SIZE.
Proof.
  unfold window_ok, slot_text_write, ibus_to_data, slot_text_exec, slot_data, TEXT_REGION_SIZE, SLOT_SIZE, SLOT_COUNT. intros (H0 & _ & H1 & Hi).
  rewrite (u32_small (USER_IBUS_BASE + _ - _)) by lia. rewrite !u32_small by lia. split; lia.
Qed.

Section Contained.
Context {W I : Type} `{HN : !Inode W I, HE : !EqDecision I, HP : !Droppable W I}.
Context (db slot : Z) (Hw : window_ok db slot).

(** [m] writes no memory outside the slot. *)
Definition keeps {A} (m : IO (Loader W I) A) : Prop := forall l a, ~ slot_memory db slot a -> l_mem (m l).1 a = l_mem l a.

Lemma keeps_bind {A B} (m : IO (Loader W I) A) (k : A -> IO (Loader W I) B) : keeps m -> (forall x, keeps (k x)) -> keeps (x ← m; k x).
Proof.
  intros Hm Hk l a Ha. unfold mbind, IO_bind. specialize (Hm l a Ha). destruct (m l) as [l' [[x|e]|]]; cbn in *; [|done..].
  by rewrite Hk, Hm.
Qed.
Lemma keeps_vfs {A} (m : IO (Vfs W I) A) : keeps (via_vfs m).
Proof. intros l a Ha. unfold via_vfs. by destruct (m (l_vfs l)). Qed.
Lemma keeps_lift {A} (r : KResult A) : keeps (io_lift r).
Proof. done. Qed.
Lemma keeps_write ptr bytes : (forall a, ptr <= a < ptr + len bytes -> slot_memory db slot a) -> keeps (via_mem (modify (write_mem ptr bytes))).
Proof. intros Hin l a Ha. cbn. apply write_mem_out. intros Hx. by apply Ha, Hin. Qed.

Variables (text data : Region).
Hypothesis text_ok : fits text /\ size text <= SLOT_SIZE.
Hypothesis data_ok : fits data /\ size data <= SLOT_SIZE.

(** A read gives at most the bytes of the buffer it was given. *)
Definition reads_bounded : Prop := forall i off m w w' b, 0 <= m -> i_read_at (Inode := HN) i off m w = (w', Ret (Ok b)) -> len b <= m.
Hypothesis Hread : reads_bounded.

Lemma read_len c fd n v v' bytes : 0 <= n -> read (I := I) (W := W) c fd n v = (v', Ret (Ok bytes)) -> len bytes <= n.
Proof.
  intros Hn E. unfold read in E. destruct (file_of c fd v) as [f|]; [|done]. destruct (negb _); [done|]. unfold read_inode in E.
  destruct (i_read_at (of_inode f) (of_offset f) n (v_world v)) as [w [[d|]|]] eqn:Er; [|done..].
  destruct (checked_add64 _ _); [|done]. injection E as _ <-. by eapply Hread, Er.
Qed.

(** Where a segment goes, and that it stays in the slot. *)
Lemma segment_dest ph : ph_ok ph -> 0 < p_memsz ph -> covers (if is_ibus_range (p_vaddr ph) then text else data) ph ->
  let '(region, dest_base) := if is_ibus_range (p_vaddr ph) then (text, slot_text_write db slot) else (data, slot_data db slot) in
  let dest := u32 (dest_base + u32 (p_vaddr ph - base region)) in
  dest = dest_base + (p_vaddr ph - base region) /\ forall a, dest <= a < dest + p_memsz ph -> slot_memory db slot a.
Proof.
  intros [Hv Hm] Hpos Hc. destruct (slot_addresses db slot Hw) as [Et Ed]. destruct text_ok as [(T1 & T2 & T3) T4], data_ok as [(D1 & D2 & D3) D4].
  destruct Hw as (W1 & _ & W2 & W3). unfold slot_memory. destruct (is_ibus_range (p_vaddr ph)); destruct Hc as [C1 C2];
    rewrite Et, ?Ed in *; unfold TEXT_REGION_SIZE, SLOT_SIZE, SLOT_COUNT in *; cbn zeta;
    rewrite (u32_small (p_vaddr ph - _)) by lia; rewrite u32_small by lia; split; [done|lia|done|lia].
Qed.

Lemma place_segment_keeps c fd ph : ph_ok ph -> 0 < p_memsz ph -> covers (if is_ibus_range (p_vaddr ph) then text else data) ph -> p_filesz ph <= p_memsz ph ->
  keeps (place_segment c fd text data (slot_text_write db slot) (slot_data db slot) ph).
Proof.
  intros Hp Hpos Hc Hf. pose proof (segment_dest ph Hp Hpos Hc) as Hd. unfold place_segment.
  destruct (if is_ibus_range (p_vaddr ph) then (text, _) else (data, _)) as [region db']. cbn zeta in *. destruct Hd as [_ Hd].
  set (dest := u32 (db' + u32 (p_vaddr ph - base region))) in *. destruct Hp as [_ Hp]. apply keeps_bind.
  - apply keeps_write. intros a. rewrite length_replicate. intros Ha. apply Hd. lia.
  - intros _. destruct (Z.ltb_spec 0 (p_filesz ph)); [|apply (keeps_lift (Ok tt))]. apply keeps_bind; [apply keeps_vfs|]. intros _ l a Ha.
    unfold mbind at 1, IO_bind at 1, via_vfs at 1. destruct (read c fd (p_filesz ph) (l_vfs l)) as [v [[bytes|e]|]] eqn:Er; [|done..].
    apply read_len in Er; [|lia]. cbn. apply write_mem_out. intros Hx. apply Ha, Hd. lia.
Qed.

Lemma place_segments_keeps c fd phs : Forall ph_ok phs ->
  (forall ph, ph ∈ phs -> 0 < p_memsz ph /\ covers (if is_ibus_range (p_vaddr ph) then text else data) ph) ->
  Forall (fun ph => p_filesz ph <= p_memsz ph) phs ->
  keeps (place_segments c fd text data (slot_text_write db slot) (slot_data db slot) phs).
Proof.
  induction 1 as [|ph phs Hp Hps IH]; intros Hc Hf; [apply (keeps_lift (Ok tt))|]. apply Forall_cons in Hf as [Hf1 Hf2]. cbn [place_segments].
  apply keeps_bind; [apply place_segment_keeps; [done|apply Hc; by left|apply Hc; by left|done]|]. intros _. apply IH; [|done]. intros q Hq. apply Hc. by right.
Qed.

(** The word of a fixup. *)
Definition fix_off (f : Z) : Z := Z.land f (Z.ldiff (Z.ones 32) 3).
Definition fix_base (f : Z) : Z := if negb (Z.land f 2 =? 0) then slot_data db slot else slot_text_write db slot.
Definition fix_word (f : Z) : Z := fix_base f + fix_off f.
Definition fix_bias (text_bias data_bias f : Z) : Z := if negb (Z.land f 1 =? 0) then data_bias else text_bias.

Lemma fix_off_spec f : is_u32' f -> 0 <= fix_off f /\ fix_off f mod 4 = 0.
Proof.
  intros Hf. unfold fix_off. change 3 with (Z.ones 2). rewrite land_align by (unfold is_u32' in Hf; lia).
  change (2 ^ 2) with 4. rewrite Z.mod_mul by lia. pose proof (Z.div_pos f 4). unfold is_u32' in Hf. lia.
Qed.

(** One turn of [apply_fixups]: it fails, or changes the word of [f] in the slot. *)
Lemma fixup_step f fixups tb dbi mem : is_u32' f ->
  (exists e, apply_fixups (f :: fixups) text data (slot_text_write db slot) (slot_data db slot) tb dbi mem = (mem, Err e)) \/
  (apply_fixups (f :: fixups) text data (slot_text_write db slot) (slot_data db slot) tb dbi mem =
     apply_fixups fixups text data (slot_text_write db slot) (slot_data db slot) tb dbi
       (write_mem (fix_word f) (le_bytes 4 (u32 (read_word mem (fix_word f) + fix_bias tb dbi f))) mem) /\
   (forall a, fix_word f <= a < fix_word f + 4 -> slot_memory db slot a) /\ fix_word f mod 4 = 0).
Proof.
  intros Hf. destruct (fix_off_spec f Hf) as [O1 O2]. destruct (slot_addresses db slot Hw) as [Et Ed]. destruct Hw as (W1 & W0 & W2 & W3).
  cbn [apply_fixups]. fold (fix_off f). unfold fix_word, fix_base, fix_bias, slot_memory.
  set (inb := negb (Z.land f 2 =? 0)). assert (Hmin : forall r, Z.min (size r) SLOT_SIZE <= SLOT_SIZE) by (intros; lia).
  destruct (if inb then (data, slot_data db slot) else (text, slot_text_write db slot)) as [region b] eqn:Eb.
  assert (Hb : b = if inb then slot_data db slot else slot_text_write db slot) by (destruct inb; by injection Eb).
  rewrite <- Hb. unfold mbind at 1, ST_bind at 1, lift at 1. unfold checked_add32. destruct (Z.leb_spec (fix_off f + 4) U32_MAX); [|left; by eexists].
  cbn [ok_or]. unfold lift. cbv beta iota. specialize (Hmin region). destruct (Z.ltb_spec (Z.min (size region) SLOT_SIZE) (fix_off f + 4)); [left; by eexists|].
  right. unfold mbind at 1, ST_bind at 1, modify at 1. cbv beta iota. unfold TEXT_REGION_SIZE, SLOT_SIZE, SLOT_COUNT in *.
  assert (Hbr : 0 <= b /\ b + 16384 <= 2 ^ 32 /\ b mod 4 = 0).
  { assert (b = db + (131072 + slot * 4096) * 4 \/ b = db + (slot * 4096) * 4) as [-> | ->]
      by (clear - Hb Et Ed; destruct inb; cbv iota in Hb; [left|right]; lia); rewrite Z.mod_add by lia; lia. }
  rewrite u32_small by lia. split.
  { destruct (Z.ltb_spec (Z.min (size region) (16 * 1024)) (fix_off f + 4)); [lia|done]. }
  split.
  - intros a Ha. rewrite Hb in Ha. destruct inb; lia.
  - rewrite Z.add_mod by lia. destruct Hbr as (_ & _ & ->). by rewrite O2.
Qed.

Lemma apply_fixups_keeps fixups tb dbi : Forall is_u32' fixups -> forall mem a, ~ slot_memory db slot a ->
  (apply_fixups fixups text data (slot_text_write db slot) (slot_data db slot) tb dbi mem).1 a = mem a.
Proof.
  induction 1 as [|f fixups Hf Hfs IH]; intros mem a Ha; [done|].
  destruct (fixup_step f fixups tb dbi mem Hf) as [[e ->]|(-> & Hin & _)]; [done|]. rewrite IH by done.
  apply write_mem_out. rewrite le4_len. intros Hx. by apply Ha, Hin.
Qed.

(** Relocation: each word the table lists gets the bias of the slot added, once
    (the words being listed once), and no other byte changes. *)
Theorem fixups_applied fixups tb dbi : Forall is_u32' fixups -> NoDup (fix_word <$> fixups) -> forall mem mem',
  apply_fixups fixups text data (slot_text_write db slot) (slot_data db slot) tb dbi mem = (mem', Ok tt) ->
  (forall f, f ∈ fixups -> read_word mem' (fix_word f) = u32 (read_word mem (fix_word f) + fix_bias tb dbi f)) /\
  (forall a, (forall f, f ∈ fixups -> ~ (fix_word f <= a < fix_word f + 4)) -> mem' a = mem a).
Proof.
  intros Hu. assert (Hal : forall f, f ∈ fixups -> fix_word f mod 4 = 0 \/ True) by tauto. clear Hal.
  assert (Hmod : forall f, is_u32' f -> fix_word f mod 4 = 0).
  { intros f Hf. destruct (fix_off_spec f Hf) as [_ O2]. destruct (slot_addresses db slot Hw) as [Et Ed]. destruct Hw as (W1 & W0 & W2 & W3).
    unfold fix_word, fix_base. rewrite Z.add_mod, O2 by lia. rewrite Et, Ed. unfold SLOT_SIZE, TEXT_REGION_SIZE, SLOT_SIZE, SLOT_COUNT.
    destruct (negb _);
      [replace (db + 16 * 1024 * 32 + slot * (16 * 1024)) with (db + (131072 + slot * 4096) * 4) by lia
      |replace (db + slot * (16 * 1024)) with (db + (slot * 4096) * 4) by lia]; rewrite Z.mod_add, W0 by lia; done. }
  induction Hu as [|f fixups Hf Hfs IH]; intros Hnd mem mem'; cbn [fmap list_fmap] in *.
  { intros [= <-]. split; [by intros f ?%not_elem_of_nil|done]. }
  apply NoDup_cons in Hnd as [Hnin Hnd]. destruct (fixup_step f fixups tb dbi mem Hf) as [[e ->]|(-> & _ & _)]; [done|].
  intros E. apply IH in E as [E1 E2]; [|done].
  assert (Hap : forall g, g ∈ fixups -> fix_word g + 4 <= fix_word f \/ fix_word f + 4 <= fix_word g).
  { intros g Hg. assert (fix_word g <> fix_word f) by (intros Heq; apply Hnin; rewrite <- Heq; by apply list_elem_of_fmap_2).
    assert (Hgu : is_u32' g) by (rewrite Forall_forall in Hfs; by apply Hfs). pose proof (Hmod f Hf). pose proof (Hmod g Hgu).
    pose proof (Z.div_mod (fix_word f) 4). pose proof (Z.div_mod (fix_word g) 4). lia. }
  split.
  - intros g [->|Hg]%elem_of_cons.
    + rewrite (read_word_ext (write_mem (fix_word f) (le_bytes 4 (u32 (read_word mem (fix_word f) + fix_bias tb dbi f))) mem)).
      * apply read_write_word, u32_range.
      * intros a Ha. apply E2. intros h Hh. pose proof (Hap h Hh). lia.
    + rewrite E1 by done. do 2 f_equal. apply read_word_ext. intros a Ha. apply write_mem_out. rewrite le4_len. pose proof (Hap g Hg). lia.
  - intros a Ha. rewrite E2 by (intros g Hg; apply Ha; by right). apply write_mem_out. rewrite le4_len. apply Ha. by left.
Qed.
End Contained.

(** ** Arguments *)

(** The string [s] lies at [p], with its NUL. *)
Definition string_at (mem : Z -> Z) (p : Z) (s : string) : Prop :=
  read_mem mem p (length (as_bytes s)) = as_bytes s /\ mem (p + str_len s) = 0.

Lemma string_at_ext mem mem' p s : (forall a, p <= a < p + str_len s + 1 -> mem' a = mem a) -> string_at mem p s -> string_at mem' p s.
Proof.
  intros He [H1 H2]. unfold string_at, str_len in *. split; [rewrite (read_mem_ext mem mem'); [done|intros a Ha; apply He; lia]|rewrite He; [done|lia]].
Qed.

Lemma str_len_nonneg s : 0 <= str_len s.
Proof. unfold str_len. lia. Qed.

Lemma strs_len_nonneg argv : 0 <= strs_len argv.
Proof. induction argv as [|s argv IH]; [done|]. unfold strs_len in *. cbn [foldr]. pose proof (str_len_nonneg s). lia. Qed.

Lemma argv_loop_spec argv : forall ptr str mem,
  0 <= ptr -> ptr + 4 * (len argv + 1) <= str -> str + strs_len argv <= 2 ^ 32 ->
  let mem' := argv_loop argv ptr str mem in
  (forall a, ~ (ptr <= a < ptr + 4 * (len argv + 1)) -> ~ (str <= a < str + strs_len argv) -> mem' a = mem a) /\
  (forall k s, argv !! k = Some s -> exists p, str <= p /\ p + str_len s + 1 <= str + strs_len argv /\
     read_word mem' (ptr + 4 * Z.of_nat k) = p /\ string_at mem' p s) /\
  read_word mem' (ptr + 4 * len argv) = 0.
Proof.
  induction argv as [|s argv IH]; intros ptr str mem Hp Hle Hb; cbn [argv_loop length] in *.
  { split; [intros a Ha _; apply write_mem_out; rewrite le4_len; lia|]. split; [done|]. rewrite Z.mul_0_r, Z.add_0_r. by apply read_write_word. }
  set (m1 := write_mem ptr (le_bytes 4 str) mem). set (m2 := write_mem str (as_bytes s) m1). set (m3 := write_mem (str + str_len s) [0] m2).
  change (strs_len (s :: argv)) with (str_len s + 1 + strs_len argv) in *.
  pose proof (strs_len_nonneg argv) as Hsn. pose proof (str_len_nonneg s) as Hsl.
  destruct (IH (ptr + 4) (str + str_len s + 1) m3) as (F & Hs & Hz); [lia..|]. cbn zeta in *.
  set (mem' := argv_loop argv (ptr + 4) (str + str_len s + 1) m3) in *.
  assert (H3 : forall a, ~ (a = str + str_len s) -> m3 a = m2 a) by (intros a Ha; apply write_mem_out; cbn; lia).
  assert (H2 : forall a, ~ (str <= a < str + str_len s) -> m2 a = m1 a) by (intros a Ha; apply write_mem_out; exact Ha).
  assert (H1 : forall a, ~ (ptr <= a < ptr + 4) -> m1 a = mem a) by (intros a Ha; apply write_mem_out; by rewrite le4_len).
  split; [|split].
  - intros a Ha Hb'. rewrite F, H3, H2, H1 by lia. done.
  - intros [|k] t Hk.
    + injection Hk as <-. exists str. split; [lia|]. split; [lia|]. rewrite Z.mul_0_r, Z.add_0_r. split.
      * rewrite (read_word_ext m1); [apply read_write_word; lia|]. intros a Ha. by rewrite F, H3, H2 by lia.
      * apply (string_at_ext m3); [intros a Ha; apply F; lia|]. split.
        -- rewrite (read_mem_ext m2) by (intros a Ha; apply H3; unfold str_len; lia). apply read_write_mem.
        -- unfold m3. rewrite write_mem_in by (cbn; lia). by rewrite Z.sub_diag.
    + destruct (Hs k t Hk) as (p & P1 & P2 & P3 & P4). exists p. split; [lia|]. split; [lia|]. split; [|done].
      rewrite <- P3. f_equal. lia.
  - rewrite <- Hz. f_equal. lia.
Qed.

Lemma blob_len_spec argv : ptrs_len argv + strs_len argv + 3 < 2 ^ 32 ->
  ptrs_len argv + strs_len argv <= blob_len argv.
Proof.
  intros Hb. pose proof (strs_len_nonneg argv). assert (0 <= ptrs_len argv) by (unfold ptrs_len; lia).
  unfold blob_len. change 3 with (Z.ones 2) at 2. rewrite land_align by lia. change (2 ^ 2) with 4.
  pose proof (Z.div_mod (ptrs_len argv + strs_len argv + 3) 4).
  pose proof (Z.mod_pos_bound (ptrs_len argv + strs_len argv + 3) 4). lia.
Qed.

(** The argument block lies at the top of the data of the slot, above the image;
    a program finds in it the count, a pointer to each argument, each a
    NUL-terminated copy, and the final NULL.  No other memory changes.  It is
    refused, and nothing written, exactly when it does not fit. *)
Theorem write_argv_correct loaded argv mem mem' r :
  ptrs_len argv + strs_len argv + 3 < 2 ^ 32 -> 0 <= data_size loaded -> 0 <= data_base loaded -> data_base loaded + SLOT_SIZE <= 2 ^ 32 ->
  write_argv loaded argv mem = (mem', r) ->
  match r with
  | Err e => e = NoSpace /\ mem' = mem /\ SLOT_SIZE < blob_len argv + data_size loaded
  | Ok b =>
    b = data_base loaded + SLOT_SIZE - blob_len argv /\ data_base loaded + data_size loaded <= b /\
    (forall a, ~ (b <= a < data_base loaded + SLOT_SIZE) -> mem' a = mem a) /\
    read_word mem' b = len argv /\
    (forall k s, argv !! k = Some s -> exists p, b <= p /\ p + str_len s < data_base loaded + SLOT_SIZE /\
       read_word mem' (b + 4 + 4 * Z.of_nat k) = p /\ string_at mem' p s) /\
    read_word mem' (b + 4 + 4 * len argv) = 0
  end.
Proof.
  intros Hb Hds Hdb Hend. pose proof (blob_len_spec argv Hb) as Hbl. unfold write_argv.
  destruct (Z.ltb_spec SLOT_SIZE (blob_len argv)); [intros [= <- <-]; split_and!; [done|done|lia]|].
  destruct (Z.ltb_spec (SLOT_SIZE - blob_len argv) (data_size loaded)); [intros [= <- <-]; split_and!; [done|done|lia]|].
  set (b := data_base loaded + (SLOT_SIZE - blob_len argv)). intros [= <- <-].
  pose proof (strs_len_nonneg argv) as Hsn. unfold ptrs_len in *.
  destruct (argv_loop_spec argv (b + 4) (b + (4 + (len argv + 1) * 4)) (write_mem b (le_bytes 4 (len argv)) mem)) as (F & Hs & Hz); [lia..|].
  cbn zeta in *. split; [lia|]. split; [lia|]. split.
  { intros a Ha. rewrite F by lia. apply write_mem_out. rewrite le4_len. lia. }
  split.
  { rewrite (read_word_ext (write_mem b (le_bytes 4 (len argv)) mem)); [apply read_write_word; lia|]. intros a Ha. apply F; lia. }
  split; [|exact Hz]. intros k s Hk. destruct (Hs k s Hk) as (p & P1 & P2 & P3 & P4). exists p. split; [lia|]. split; [lia|]. split; [done|done].
Qed.

(** ** Placing an image *)

Section Place.
Context {W I : Type} `{HN : !Inode W I, HE : !EqDecision I, HP : !Droppable W I}.

(** C23. Placing an image in a slot changes no memory outside that slot, whatever the
    outcome, and starts it at its entry point moved to the slot.  The image has passed
    the measuring, its text and its data fit the slot, and in each of its segments the
    bytes in the file are no more than those in memory, which nothing checks (see
    [oversized_segment_escapes]); apart from that its segments may hold anything, and so
    may the fixup table, good or corrupt: a fixup out of its region is a fault. *)
Theorem place_contained ld db c fd eh phs text data i fixups (l : Loader W I) :
  reads_bounded (HN := HN) -> window_ok db i -> 0 <= ld < 2 ^ 32 -> measure ld phs = Ok (text, data) ->
  size text <= SLOT_SIZE -> size data <= SLOT_SIZE -> Forall ph_ok phs -> Forall is_u32' fixups ->
  Forall (fun ph => p_filesz ph <= p_memsz ph) phs ->
  (forall a, ~ slot_memory db i a -> l_mem (place db c fd eh phs text data i fixups l).1 a = l_mem l a) /\
  forall r, (place db c fd eh phs text data i fixups l).2 = Ret (Ok r) ->
    r = mkLoaded (u32 (e_entry eh + u32 (slot_text_exec i - base text))) i (slot_text_exec i) (slot_data db i) (size data).
Proof.
  intros Hr Hw Hld Hm Ht Hd Hp Hf Hs. destruct (measure_spec ld phs text data Hp Hld Hm) as (F1 & F2 & Hc). split.
  - assert (Hk : keeps db i (place db c fd eh phs text data i fixups)); [|intros a Ha; by apply Hk]. unfold place. cbn zeta.
    apply keeps_bind.
    + apply (place_segments_keeps db i Hw text data (conj F1 Ht) (conj F2 Hd) Hr); [by apply Forall_kept| |by apply Forall_kept].
      intros ph Hin. split; [|by apply Hc]. apply list_elem_of_In, filter_In in Hin as [_ Hl]. unfold loads in Hl. zbool. lia.
    + intros _. apply keeps_bind; [|intros _; done]. intros m a Ha. unfold via_mem.
      pose proof (apply_fixups_keeps db i Hw text data fixups (u32 (slot_text_exec i - base text))
        (u32 (slot_data db i - base data)) Hf (l_mem m) a Ha) as Hk.
      by destruct (apply_fixups _ _ _ _ _ _ _ _).
  - intros r. unfold place, mbind, IO_bind. cbn zeta.
    destruct (place_segments _ _ _ _ _ _ _ l) as [l1 [[u|e]|]]; [|done..].
    destruct (via_mem _ l1) as [l2 [[u2|e]|]]; [|done..]. cbn. by intros [= <-].
Qed.

(** ** Slots *)

(** [m] does not touch the bitmap. *)
Definition same_slots {A} (m : IO (Loader W I) A) : Prop := forall l, l_slots (m l).1 = l_slots l.

Lemma ss_bind {A B} (m : IO (Loader W I) A) (k : A -> IO (Loader W I) B) : same_slots m -> (forall x, same_slots (k x)) -> same_slots (x ← m; k x).
Proof.
  intros Hm Hk l. unfold mbind, IO_bind. specialize (Hm l). destruct (m l) as [l' [[x|e]|]]; cbn in *; [|done..]. by rewrite Hk.
Qed.
Lemma ss_vfs {A} (m : IO (Vfs W I) A) : same_slots (via_vfs m).
Proof. intros l. unfold via_vfs. by destruct (m (l_vfs l)). Qed.
Lemma ss_mem {A} (m : ST (Z -> Z) A) : same_slots (via_mem m).
Proof. intros l. unfold via_mem. by destruct (m (l_mem l)). Qed.
Lemma ss_lift {A} (r : KResult A) : same_slots (io_lift r).
Proof. done. Qed.
Lemma ss_ret {A} (x : A) : same_slots (mret x).
Proof. done. Qed.
#[local] Hint Resolve ss_vfs ss_mem ss_lift ss_ret : espresso.
Ltac same_slots := repeat first [progress (auto with espresso) | apply ss_bind; [|intros ?] | case_match].

Lemma ss_read_full c fd n : same_slots (read_full c fd n).
Proof. unfold read_full. same_slots. Qed.
#[local] Hint Resolve ss_read_full : espresso.
Lemma ss_read_phdrs c fd eh : same_slots (read_phdrs c fd eh).
Proof. unfold read_phdrs. same_slots. Qed.
Lemma ss_read_fixups c fd : same_slots (read_fixups c fd).
Proof. unfold read_fixups. same_slots. Qed.
Lemma ss_place_segments c fd text data tw dw phs : same_slots (place_segments c fd text data tw dw phs).
Proof. induction phs as [|ph phs IH]; cbn [place_segments]; unfold place_segment; same_slots. Qed.
#[local] Hint Resolve ss_read_phdrs ss_read_fixups ss_place_segments : espresso.
Lemma ss_place db c fd eh phs text data i fixups : same_slots (place db c fd eh phs text data i fixups).
Proof. unfold place. same_slots. Qed.

Lemma place_slot db c fd eh phs text data i fixups (l l' : Loader W I) ld :
  place db c fd eh phs text data i fixups l = (l', Ret (Ok ld)) -> slot ld = i.
Proof.
  unfold place, mbind, IO_bind. cbn zeta. destruct (place_segments _ _ _ _ _ _ _ l) as [l1 [[u|e]|]]; [|done..].
  destruct (via_mem _ l1) as [l2 [[u2|e]|]]; [|done..]. cbn. by intros [= _ <-].
Qed.

(** What a load leaves of the bitmap: nothing taken, or exactly the slot of the image. *)
Definition slots_after (used used' : Z) (r : KResult LoadedElf) : Prop :=
  0 <= used' < 2 ^ 32 /\
  match r with
  | Err _ => forall j, in_use used' j <-> in_use used j
  | Ok ld => ~ in_use used (slot ld) /\ 0 <= slot ld < SLOT_COUNT /\ forall j, in_use used' j <-> in_use used j \/ j = slot ld
  end.

(** [m] leaves the bitmap as [slots_after] says. *)
Definition accounts (m : IO (Loader W I) LoadedElf) : Prop :=
  forall l l' r, 0 <= l_slots l < 2 ^ 32 -> m l = (l', Ret r) -> slots_after (l_slots l) (l_slots l') r.

Lemma accounts_bind {A} (m : IO (Loader W I) A) k : same_slots m -> (forall x, accounts (k x)) -> accounts (x ← m; k x).
Proof.
  intros Hm Hk l l' r Hl. unfold mbind, IO_bind. specialize (Hm l). destruct (m l) as [l1 [[x|e]|]]; cbn in *; [|intros [= <- <-]; rewrite Hm; by split|done].
  intros E. rewrite <- Hm in Hl |- *. by eapply Hk.
Qed.
Lemma accounts_err e : accounts (io_lift (Err e)).
Proof. intros l l' r Hl [= <- <-]. by split. Qed.

Lemma load_inner_accounts ld db c fd : accounts (load_inner ld db c fd).
Proof.
  unfold load_inner. apply accounts_bind; [auto with espresso|]. intros ehb. cbn zeta. destruct (_ || _); [apply accounts_err|].
  apply accounts_bind; [auto with espresso|]. intros phs. apply accounts_bind; [auto with espresso|]. intros [text data]. destruct (_ || _); [apply accounts_err|].
  apply accounts_bind; [auto with espresso|]. intros fixups l l' r Hl. unfold prog. pose proof (slot_alloc_spec (l_slots l) Hl) as Ha.
  destruct (slot_alloc (l_slots l)) as [used [i|]]; [|intros [= <- <-]; by split]. destruct Ha as (A1 & A2 & _ & A3 & A4).
  pose proof (ss_place db c fd (header_of ehb) phs text data i fixups (mkLoader (l_vfs l) used (l_mem l))) as Hs.
  destruct (place _ _ _ _ _ _ _ _ _ _) as [l1 [[x|e]|]] eqn:E; cbn in Hs; intros [= <- <-].
  - apply place_slot in E. subst i. cbn. rewrite Hs. done.
  - cbn. rewrite Hs. destruct (slot_free_spec i used A3 A1) as [Hb Hf]. split; [done|]. intros j. rewrite Hf, A4. split; [tauto|].
    intros Hj. split; [by left|]. by intros ->.
Qed.

Lemma load_elf_accounts ld db c path : accounts (load_elf ld db c path).
Proof.
  unfold load_elf. apply accounts_bind; [auto with espresso|]. intros fd l l' r Hl. unfold prog.
  destruct (load_inner ld db c fd l) as [l1 [x|]] eqn:E; [|done]. intros [= <- <-]. cbn. by eapply load_inner_accounts.
Qed.

(** A load that fails, at whatever step, leaves the slots as it found them; one
    that succeeds takes exactly the slot it reports, which was free. *)
Theorem load_accounts_slots ld db c path (l l' : Loader W I) r :
  0 <= l_slots l < 2 ^ 32 -> load_elf ld db c path l = (l', Ret r) -> slots_after (l_slots l) (l_slots l') r.
Proof. intros Hl E. exact (load_elf_accounts ld db c path l l' r Hl E). Qed.

(** ** Descriptors *)

(** [m] changes the VFS only as calls of [c] do. *)
Definition owned {A} (c : Caller) (m : IO (Loader W I) A) : Prop :=
  forall l, tables_ok (l_vfs l) -> own_table c (l_vfs l) (l_vfs (m l).1).

Lemma owned_bind {A B} c (m : IO (Loader W I) A) (k : A -> IO (Loader W I) B) : owned c m -> (forall x, owned c (k x)) -> owned c (x ← m; k x).
Proof.
  intros Hm Hk l Hl. unfold mbind, IO_bind. specialize (Hm l Hl). destruct (m l) as [l' [[x|e]|]]; cbn in *; [|done..].
  eapply own_trans; [exact Hm|]. apply Hk, Hm.
Qed.
Lemma owned_vfs {A} c (m : IO (Vfs W I) A) : (forall v, vcall c v (m v).1) -> owned c (via_vfs m).
Proof. intros Hm l Hl. unfold via_vfs. pose proof (vcall_own _ _ _ (Hm (l_vfs l)) Hl) as Ho. by destruct (m (l_vfs l)). Qed.
Lemma owned_io {A} c (m : ST (Vfs W I) A) : (forall v, vcall c v (m v).1) -> owned c (via_vfs (io m)).
Proof. intros Hm. apply owned_vfs. intros v. specialize (Hm v). unfold io. by destruct (m v). Qed.
Lemma owned_mem {A} c (m : ST (Z -> Z) A) : owned c (via_mem m).
Proof. intros l Hl. unfold via_mem. destruct (m (l_mem l)). by apply own_refl. Qed.
Lemma owned_lift {A} c (r : KResult A) : owned c (io_lift r).
Proof. intros l Hl. by apply own_refl. Qed.
Lemma owned_ret {A} c (x : A) : owned c (mret x).
Proof. intros l Hl. by apply own_refl. Qed.
#[local] Hint Resolve owned_mem owned_lift owned_ret : espresso.
#[local] Hint Constructors vcall : espresso.
Ltac owned := repeat first [progress (auto with espresso) | apply owned_bind; [|intros ?] | apply owned_io; intros ?; auto with espresso
  | apply owned_vfs; intros ?; auto with espresso | case_match].

Lemma owned_read_full c fd n : owned c (read_full c fd n).
Proof. unfold read_full. owned. Qed.
#[local] Hint Resolve owned_read_full : espresso.
Lemma owned_read_phdrs c fd eh : owned c (read_phdrs c fd eh).
Proof. unfold read_phdrs. owned. Qed.
Lemma owned_read_fixups c fd : owned c (read_fixups c fd).
Proof. unfold read_fixups. owned. Qed.
Lemma owned_place_segments c fd text data tw dw phs : owned c (place_segments c fd text data tw dw phs).
Proof. induction phs as [|ph phs IH]; cbn [place_segments]; unfold place_segment; owned. Qed.
#[local] Hint Resolve owned_read_phdrs owned_read_fixups owned_place_segments : espresso.
Lemma owned_place db c fd eh phs text data i fixups : owned c (place db c fd eh phs text data i fixups).
Proof. unfold place. owned. Qed.

Lemma load_elf_owned ld db c path : owned c (load_elf ld db c path).
Proof.
  unfold load_elf. apply owned_bind; [owned|]. intros fd l Hl. unfold prog.
  assert (Hi : owned c (load_inner ld db c fd)).
  { unfold load_inner. owned. intros l0 Hl0. unfold prog. destruct (slot_alloc (l_slots l0)) as [used [i|]]; [|by apply own_refl].
    match goal with |- context [place ?a ?b ?d ?e ?f ?g ?h ?i ?j ?l1] => pose proof (owned_place a b d e f g h i j l1 Hl0) as Ho;
      destruct (place a b d e f g h i j l1) as [l2 [[ld2|e2]|]] end; exact Ho. }
  specialize (Hi l Hl). destruct (load_inner ld db c fd l) as [l1 [r|]]; [|done]. cbn in *.
  eapply own_trans; [exact Hi|]. apply vcall_own; [apply vc_close|apply Hi].
Qed.
End Place.



(** ** An image in memory

    One file, mounted as the root: its world is its bytes. *)

#[export] Instance image_inode : Inode (list Z) unit := {
  i_kind _ _ := File; i_size _ w := len w;
  i_read_at _ off n := fun w => (w, Ret (Ok (slice off n w)));
  i_write_at _ _ _ := fun w => (w, Ret (Err PermissionDenied));
  i_truncate _ := default_truncate; i_readdir _ := default_readdir; i_lookup _ := default_lookup;
  i_create _ := default_create; i_unlink _ := default_unlink;
}.
#[export] Instance image_droppable : Droppable (list Z) unit := { i_drop _ w := w }.

Lemma image_bounded : reads_bounded (HN := image_inode).
Proof. intros i off m w w' b Hm [= _ <-]. unfold slice. rewrite length_take. lia. Qed.

Definition half (z : Z) : list Z := le_bytes 2 z.
Definition word (z : Z) : list Z := le_bytes 4 z.

(** One text segment linked at [vaddr], with [bytes] in the file and [memsz] in memory,
    followed by the fixup table. *)
Definition image (vaddr memsz : Z) (bytes fixups : list Z) : list Z :=
  [0x7f; 69; 76; 70] ++ replicate 12 0 ++ half 2 ++ half EM_XTENSA ++ word 1 ++ word vaddr ++ word 52 ++ word 0 ++ word 0 ++
  half 52 ++ half 32 ++ half 1 ++ half 0 ++ half 0 ++ half 0 ++
  word PT_LOAD ++ word 84 ++ word vaddr ++ word vaddr ++ word (len bytes) ++ word memsz ++ word 5 ++ word 4 ++
  bytes ++ mjoin (word <$> fixups) ++ word (len fixups) ++ word FIXUP_MAGIC.

Definition root_user : Caller := mkCaller (Some 1) (Some "/"%string).
Definition loader_with (img : list Z) : Loader (list Z) unit :=
  mkLoader (mkVfs img {[1 := []]} [("/"%string, mkFileSystem "img" tt (fun _ => mkFsStat 0 0 0))]) 0 (fun _ => 0).
Definition link_base : Z := 0x42100000.
Definition window : Z := 0x3C100000.

(** The loader takes an image whose segment has more bytes in the file than in
    memory, and copies all of them: the bytes past the slot land in the text of the
    next slot. *)
Theorem oversized_segment_escapes :
  let r := load_elf link_base window root_user "/" (loader_with (image link_base 4 (replicate 16388 7) [])) in
  r.2 = Ret (Ok (mkLoaded (slot_text_exec 0) 0 (slot_text_exec 0) (slot_data window 0) 0)) /\
  ~ slot_memory window 0 (slot_text_write window 1) /\ l_mem r.1 (slot_text_write window 1) = 7.
Proof.
  cbv zeta. split; [vm_compute; reflexivity|]. split; [|vm_compute; reflexivity].
  unfold slot_memory. vm_compute. intros [[_ H]|[H _]]; [done|by apply H].
Qed.

(** A text segment of eight bytes whose first word is relocated. *)
Definition small_ph : ProgramHeader := mkPh PT_LOAD 84 link_base link_base 8 8 5 4.
Definition small_image : list Z := image link_base 8 (word link_base ++ [1; 2; 3; 4]) [0].
Definition opened_image : Loader (list Z) unit :=
  mkLoader (mkVfs small_image {[1 := [Some (mkOpenFile tt 0 true false false)]]} []) 0 (fun _ => 9).
Definition small_text : Region := mkRegion link_base 8.
Definition small_data : Region := mkRegion 0x3C180000 0.

Lemma place_contained_witness :
  l_mem (place window root_user 0 (header_of small_image) [small_ph] small_text small_data 0 [0] opened_image).1 (slot_text_write window 1) = 9.
Proof.
  destruct (place_contained 0x3C180000 window root_user 0 (header_of small_image) [small_ph] small_text small_data 0 [0] opened_image) as [H _].
  - exact image_bounded.
  - vm_compute. intuition congruence.
  - lia.
  - reflexivity.
  - vm_compute. discriminate.
  - vm_compute. discriminate.
  - repeat constructor; vm_compute; congruence.
  - repeat constructor; vm_compute; congruence.
  - repeat constructor. vm_compute. congruence.
  - apply (H (slot_text_write window 1)). unfold slot_memory. vm_compute. intros [[_ Hx]|[Hx _]]; [done|by apply Hx].
Defined.

Definition fixed_mem : Z -> Z :=
  (apply_fixups [0] small_text small_data (slot_text_write window 3) (slot_data window 3) 0x8000 0 (write_mem (slot_text_write window 3) (word link_base) (fun _ => 0))).1.

Lemma fixups_applied_witness : read_word fixed_mem (slot_text_write window 3) = link_base + 0x8000.
Proof.
  destruct (fixups_applied window 3) with (text := small_text) (data := small_data) (fixups := [0]) (tb := 0x8000) (dbi := 0)
    (mem := write_mem (slot_text_write window 3) (word link_base) (fun _ => 0)) (mem' := fixed_mem) as [H _].
  - vm_compute. intuition congruence.
  - vm_compute. intuition congruence.
  - vm_compute. intuition congruence.
  - repeat constructor; vm_compute; congruence.
  - apply NoDup_singleton.
  - reflexivity.
  - specialize (H 0 ltac:(left)). exact H.
Defined.

Definition small_loaded : LoadedElf := mkLoaded (slot_text_exec 0) 0 (slot_text_exec 0) 0x3C180000 100.

Lemma write_argv_correct_witness :
  exists p, read_word (write_argv small_loaded ["ls"%string; "-l"%string] (fun _ => 0)).1
    (0x3C180000 + SLOT_SIZE - blob_len ["ls"%string; "-l"%string] + 8) = p /\
    string_at (write_argv small_loaded ["ls"%string; "-l"%string] (fun _ => 0)).1 p "-l".
Proof.
  pose proof (write_argv_correct small_loaded ["ls"%string; "-l"%string] (fun _ => 0) _ (Ok (0x3C180000 + SLOT_SIZE - blob_len ["ls"%string; "-l"%string]))
    ltac:(vm_compute; reflexivity) ltac:(vm_compute; discriminate) ltac:(vm_compute; discriminate) ltac:(vm_compute; discriminate)
    ltac:(reflexivity)) as (_ & _ & _ & _ & H & _).
  destruct (H 1%nat "-l"%string eq_refl) as (p & _ & _ & H1 & H2). by exists p.
Defined.

(** A file cut short inside its segment is refused after the slot was taken. *)
Definition short_image : list Z := take 88 small_image.

Lemma load_accounts_slots_witness :
  (load_elf link_base window root_user "/" (loader_with small_image)).2 =
    Ret (Ok (mkLoaded (slot_text_exec 0) 0 (slot_text_exec 0) (slot_data window 0) 0)) /\
  in_use (l_slots (load_elf link_base window root_user "/" (loader_with small_image)).1) 0 /\
  ~ in_use (l_slots (load_elf link_base window root_user "/" (loader_with short_image)).1) 0.
Proof.
  split; [vm_compute; reflexivity|]. split.
  - pose proof (load_accounts_slots link_base window root_user "/" (loader_with small_image)
      (load_elf link_base window root_user "/" (loader_with small_image)).1
      (Ok (mkLoaded (slot_text_exec 0) 0 (slot_text_exec 0) (slot_data window 0) 0)) ltac:(cbn; lia)) as H.
    destruct H as (_ & _ & _ & H); [apply st_parts; vm_compute; reflexivity|]. apply H. by right.
  - pose proof (load_accounts_slots link_base window root_user "/" (loader_with short_image)
      (load_elf link_base window root_user "/" (loader_with short_image)).1 (Err Corrupt) ltac:(cbn; lia)) as H.
    intros Hx. apply H in Hx; [by destruct Hx|apply st_parts; vm_compute; reflexivity].
Defined.
