(* ===== verification/Pipe.v ===== *)
(** * Pipe: pipes (kernel/src/vfs/pipe.rs)

    A pipe is a bounded buffer with the tasks that sleep at each end.  It sleeps
    and wakes them through the scheduler, which it sees as the class [Tasks]: the
    running task, [block_current_noswitch] and [unblock_task].  The guard of the
    buffer masks interrupts, so a section under it is one step ([read_locked],
    [write_locked]); what a writer reads before it takes the guard, and the two
    halves of a drop, are steps of their own.

    The ends are inodes: their world is the heap of the pipes and the scheduler. *)

From S2P Require Import Prelude Inode Vfs Sched.

Open Scope Z_scope.

(** ** What a pipe asks of the scheduler *)

Class Tasks (S : Type) := {
  tk_current : S -> Z;
  tk_unblock : Z -> S -> S;
  tk_block : S -> S;
}.

#[export] Instance sched_tasks {F} : Tasks (SchedState (F := F)) := {
  tk_current := current; tk_unblock := unblock_task; tk_block := block_current_noswitch;
}.

(* @src kernel/src/vfs/pipe.rs 8-15 Pipe *)
Record Pipe := mkPipe {
  buffer : list Z;
  capacity : Z;
  readers_blocked : list Z;
  writers_blocked : list Z;
  reader_count : Z;
  writer_count : Z;
}.

Definition set_buffer (b : list Z) (p : Pipe) : Pipe :=
  mkPipe b (capacity p) (readers_blocked p) (writers_blocked p) (reader_count p) (writer_count p).
Definition set_readers (l : list Z) (p : Pipe) : Pipe :=
  mkPipe (buffer p) (capacity p) l (writers_blocked p) (reader_count p) (writer_count p).
Definition set_writers (l : list Z) (p : Pipe) : Pipe :=
  mkPipe (buffer p) (capacity p) (readers_blocked p) l (reader_count p) (writer_count p).
Definition set_counts (r w : Z) (p : Pipe) : Pipe :=
  mkPipe (buffer p) (capacity p) (readers_blocked p) (writers_blocked p) r w.

(* @src kernel/src/vfs/pipe.rs 18-27 Pipe::new *)
Definition pipe_new (cap : Z) : Pipe := mkPipe [] cap [] [] 1 1.

Section Pipe.
Context {S : Type} `{HT : !Tasks S}.

(** The loops that wake a list of tasks. *)
Definition wake_all (l : list Z) (s : S) : S := foldl (fun s tid => tk_unblock tid s) s l.

Definition wake_writers (ps : Pipe * S) : Pipe * S := (set_writers [] ps.1, wake_all (writers_blocked ps.1) ps.2).
Definition wake_readers (ps : Pipe * S) : Pipe * S := (set_readers [] ps.1, wake_all (readers_blocked ps.1) ps.2).

(** One turn of the loop of the reader, under the guard. *)
(* @src kernel/src/vfs/pipe.rs 55-84 PipeReadInode::read_at (loop body) *)
Definition read_locked (n : Z) : IO (Pipe * S) (list Z) := fun ps =>
  let p := ps.1 in
  if negb (bool_decide (buffer p = [])) then
    let k := Z.to_nat (Z.min n (len (buffer p))) in
    let ps := (set_buffer (drop k (buffer p)) p, ps.2) in
    (wake_writers ps, Ret (Ok (take k (buffer p))))
  else if writer_count p =? 0 then (ps, Ret (Ok []))
  else ((set_readers (readers_blocked p ++ [tk_current ps.2]) p, tk_block ps.2), Park).

(** After [Park] the task sleeps and runs the loop again when woken. *)
(* @src kernel/src/vfs/pipe.rs 49-89 PipeReadInode::read_at *)
Definition pipe_read (n : Z) : IO (Pipe * S) (list Z) := fun ps =>
  if n =? 0 then (ps, Ret (Ok [])) else read_locked n ps.

(** The writer looks at the count of readers before it takes the guard. *)
(* @src kernel/src/vfs/pipe.rs 153-155 PipeWriteInode::write_at (check) *)
Definition write_check (p : Pipe) : bool := negb (reader_count p =? 0).

(* @src kernel/src/vfs/pipe.rs 157-175 PipeWriteInode::write_at (under the guard) *)
Definition write_locked (buf : list Z) : IO (Pipe * S) Z := fun ps =>
  let p := ps.1 in
  if len (buffer p) <? capacity p then
    let space := capacity p - len (buffer p) in
    let n := Z.min (len buf) space in
    let ps := (set_buffer (buffer p ++ take (Z.to_nat n) buf) p, ps.2) in
    (wake_readers ps, Ret (Ok n))
  else ((set_writers (writers_blocked p ++ [tk_current ps.2]) p, tk_block ps.2), Park).

(* @src kernel/src/vfs/pipe.rs 147-180 PipeWriteInode::write_at *)
Definition pipe_write (buf : list Z) : IO (Pipe * S) Z := fun ps =>
  if bool_decide (buf = []) then (ps, Ret (Ok 0))
  else if negb (write_check ps.1) then (ps, Ret (Err IoError))
  else write_locked buf ps.

(** The atomic [fetch_sub]s, which wrap, and whether they took the last one. *)
Definition release_reader (p : Pipe) : Pipe * bool :=
  (set_counts (u32 (reader_count p - 1)) (writer_count p) p, reader_count p =? 1).
Definition release_writer (p : Pipe) : Pipe * bool :=
  (set_counts (reader_count p) (u32 (writer_count p - 1)) p, writer_count p =? 1).

(* @src kernel/src/vfs/pipe.rs 113-121 PipeReadInode::drop *)
Definition drop_reader (ps : Pipe * S) : Pipe * S :=
  let '(p, last) := release_reader ps.1 in if last then wake_writers (p, ps.2) else (p, ps.2).
(* @src kernel/src/vfs/pipe.rs 200-208 PipeWriteInode::drop *)
Definition drop_writer (ps : Pipe * S) : Pipe * S :=
  let '(p, last) := release_writer ps.1 in if last then wake_readers (p, ps.2) else (p, ps.2).

(** ** The ends as inodes *)

(* @src kernel/src/vfs/pipe.rs 30-38 PipeReadInode *)
Inductive ReadEnd : Type := PipeReadInode (p : Z).
(* @src kernel/src/vfs/pipe.rs 124-132 PipeWriteInode *)
Inductive WriteEnd : Type := PipeWriteInode (p : Z).

#[export] Instance ReadEnd_eq_dec : EqDecision ReadEnd.
Proof. solve_decision. Defined.
#[export] Instance WriteEnd_eq_dec : EqDecision WriteEnd.
Proof. solve_decision. Defined.

(** The heap of pipes ([Arc<Pipe>] is an address), and the scheduler. *)
Record PipeWorld := mkPipeWorld { pw_pipes : gmap Z Pipe; pw_next : Z; pw_tasks : S }.

(** Runs an operation on the pipe at [a]: an [Arc] keeps it alive. *)
Definition on_pipe {A} (a : Z) (m : IO (Pipe * S) A) : IO PipeWorld A := fun w =>
  match pw_pipes w !! a with
  | Some p => let '(ps, r) := m (p, pw_tasks w) in (mkPipeWorld (<[a := ps.1]> (pw_pipes w)) (pw_next w) ps.2, r)
  | None => (w, Ret (Err BadFd))
  end.

(** [pipe.buffer.lock().len()]. *)
Definition pipe_size (a : Z) (w : PipeWorld) : Z := match pw_pipes w !! a with Some p => len (buffer p) | None => 0 end.

(* @src kernel/src/vfs/pipe.rs 40-110 PipeReadInode (impl Inode) *)
#[export] Instance read_end_inode : Inode PipeWorld ReadEnd := {
  i_kind _ _ := File;
  i_size '(PipeReadInode a) := pipe_size a;
  i_read_at '(PipeReadInode a) _ n := on_pipe a (pipe_read n);
  i_write_at _ _ _ := fun w => (w, Ret (Err PermissionDenied));
  i_truncate _ l := default_truncate l;
  i_readdir _ _ := fail NotADirectory;
  i_lookup _ _ := fail NotADirectory;
  i_create _ _ _ := fail PermissionDenied;
  i_unlink _ _ := fail PermissionDenied;
}.

(* @src kernel/src/vfs/pipe.rs 134-197 PipeWriteInode (impl Inode) *)
#[export] Instance write_end_inode : Inode PipeWorld WriteEnd := {
  i_kind _ _ := File;
  i_size '(PipeWriteInode a) := pipe_size a;
  i_read_at _ _ _ := fun w => (w, Ret (Err PermissionDenied));
  i_write_at '(PipeWriteInode a) _ buf := on_pipe a (pipe_write buf);
  i_truncate _ l := default_truncate l;
  i_readdir _ _ := fail NotADirectory;
  i_lookup _ _ := fail NotADirectory;
  i_create _ _ _ := fail PermissionDenied;
  i_unlink _ _ := fail PermissionDenied;
}.

Definition drop_at (a : Z) (f : Pipe * S -> Pipe * S) (w : PipeWorld) : PipeWorld := (on_pipe a (fun ps => (f ps, Ret (Ok tt))) w).1.
#[export] Instance read_end_droppable : Droppable PipeWorld ReadEnd := { i_drop '(PipeReadInode a) := drop_at a drop_reader }.
#[export] Instance write_end_droppable : Droppable PipeWorld WriteEnd := { i_drop '(PipeWriteInode a) := drop_at a drop_writer }.

(* @src kernel/src/vfs/pipe.rs 211-216 create_pipe *)
Definition create_pipe (cap : Z) (w : PipeWorld) : PipeWorld * (ReadEnd * WriteEnd) :=
  let a := pw_next w in
  (mkPipeWorld (<[a := pipe_new cap]> (pw_pipes w)) (a + 1) (pw_tasks w), (PipeReadInode a, PipeWriteInode a)).

(** [vfs::create_pipe], on descriptors that hold either end. *)
(* @src kernel/src/vfs/mod.rs 355-372 create_pipe *)
Definition vfs_create_pipe (c : Caller) : ST (Vfs PipeWorld (ReadEnd + WriteEnd)) (Z * Z) :=
  fun v =>
    let '(w, (r, wr)) := create_pipe 4096 (v_world v) in
    insert_pipe c (inl r) (inr wr) (set_world w v).
End Pipe.
Arguments PipeWorld : clear implicits.
