(* ===== verification/PipeOps.v ===== *)
(** * PipeOps: the theorems of the pipes

    The tasks at the two ends of a pipe are a step relation over the critical
    sections of Pipe.v.  In every history the bytes come out in the order they went
    in and the buffer keeps its capacity; a reader that sleeps has nothing to read
    and is on the list of whoever comes next.  The writer has no such guarantee: it
    looks at the count of readers before it takes the guard. *)

From S2P Require Import Prelude Inode Vfs Sched SchedOps Pipe.

Open Scope Z_scope.

(** ** What the pipes need of the scheduler *)

(** [tk_switch s s'] is a change of the running task (and whatever else the tasks do
    outside the pipe) that neither blocks nor wakes anyone. *)
Class TaskLaws (S : Type) `{HT : !Tasks S} := {
  tk_ok : S -> Prop;
  tk_blocked : S -> Z -> Prop;
  tk_switch : S -> S -> Prop;
  tk_block_ok s : tk_ok s -> tk_ok (tk_block s);
  tk_unblock_ok t s : tk_ok s -> tk_ok (tk_unblock t s);
  tk_switch_ok s s' : tk_ok s -> tk_switch s s' -> tk_ok s';
  tk_block_blocked s u : tk_ok s -> tk_blocked (tk_block s) u <-> tk_blocked s u \/ u = tk_current s;
  tk_unblock_blocked t s u : tk_ok s -> tk_blocked (tk_unblock t s) u <-> tk_blocked s u /\ u <> t;
  tk_switch_blocked s s' u : tk_switch s s' -> tk_blocked s' u <-> tk_blocked s u;
}.

Section SchedLaws.
Context {F : Type} `{HF : !Frame F}.

Implicit Types (g : SchedState (F := F)) (s : Scheduler (F := F)).

Definition sched_ok g : Prop := exists s, sched g = Some s /\ is_Some (tasks s !! current_ s).
Definition sched_blocked g (u : Z) : Prop :=
  exists s t, sched g = Some s /\ tasks s !! u = Some t /\ t_state t = Blocked.

Lemma block_ok g : sched_ok g -> sched_ok (block_current_noswitch g).
Proof.
  intros (s & Hg & t & Ht). eexists. split; [by apply block_sched|]. cbn. rewrite lookup_alter, decide_True, Ht by done. eauto.
Qed.

Lemma unblock_sched t g s : sched g = Some s ->
  exists s', sched (unblock_task t g) = Some s' /\ current_ s' = current_ s /\
    tasks s' = match tasks s !! t with
               | Some k => if decide (t_state k = Blocked) then alter (set_state Ready) t (tasks s) else tasks s
               | None => tasks s
               end.
Proof. intros Hg. unfold unblock_task, with_sched. rewrite Hg. destruct (tasks s !! t); [case_decide|]; eexists; by split_and!. Qed.

Lemma unblock_ok t g : sched_ok g -> sched_ok (unblock_task t g).
Proof.
  intros (s & Hg & k & Hk). destruct (unblock_sched t g s Hg) as (s' & E & Ec & Et). exists s'. split; [done|]. rewrite Ec, Et.
  destruct (tasks s !! t); [|by eauto]. case_decide; [|by eauto]. destruct (decide (t = current_ s)) as [->|Hne].
  - rewrite lookup_alter, decide_True, Hk by done. eauto.
  - rewrite lookup_alter_ne by done. eauto.
Qed.

Lemma block_blocked g u : sched_ok g -> sched_blocked (block_current_noswitch g) u <-> sched_blocked g u \/ u = current g.
Proof.
  intros (s & Hg & t & Ht). unfold sched_blocked, current. rewrite (block_sched g s Hg), Hg. unfold retire. split.
  - intros (s' & k & [= <-] & Hk & Hb). cbn in Hk. apply lookup_alter_iff in Hk as [(-> & t0 & H0 & ->)|[Hne H0]]; [by right|left; eauto].
  - intros [(s' & k & [= <-] & Hk & Hb)| ->].
    + destruct (decide (u = current_ s)) as [->|Hne].
      * eexists. exists (set_state Blocked k). split; [done|]. cbn. by rewrite lookup_alter, decide_True, Hk.
      * eexists. exists k. split; [done|]. cbn. by rewrite lookup_alter_ne.
    + eexists. exists (set_state Blocked t). split; [done|]. cbn. by rewrite lookup_alter, decide_True, Ht.
Qed.

Lemma unblock_blocked t g u : sched_ok g -> sched_blocked (unblock_task t g) u <-> sched_blocked g u /\ u <> t.
Proof.
  intros (s & Hg & _). destruct (unblock_sched t g s Hg) as (s' & E & _ & Et). unfold sched_blocked. rewrite E, Hg. split.
  - intros (s1 & k & [= <-] & Hk & Hb). rewrite Et in Hk. destruct (tasks s !! t) as [v|] eqn:Ev.
    + case_decide as Hd.
      * apply lookup_alter_iff in Hk as [(-> & t0 & H0 & ->)|[Hne H0]]; [done|]. split; [eauto|done].
      * split; [eauto|]. intros ->. congruence.
    + split; [eauto|]. intros ->. congruence.
  - intros [(s1 & k & [= <-] & Hk & Hb) Hne]. exists s', k. split; [done|]. split; [|done]. rewrite Et.
    destruct (tasks s !! t); [|done]. case_decide; [|done]. by rewrite lookup_alter_ne.
Qed.

Definition sched_switch g g' : Prop := sched_ok g' /\ forall u, sched_blocked g' u <-> sched_blocked g u.

#[export] Instance sched_laws : TaskLaws (SchedState (F := F)) := {
  tk_ok := sched_ok; tk_blocked := sched_blocked; tk_switch := sched_switch;
  tk_block_ok := block_ok; tk_unblock_ok := unblock_ok; tk_block_blocked := block_blocked; tk_unblock_blocked := unblock_blocked;
  tk_switch_ok _ _ _ Hs := proj1 Hs; tk_switch_blocked _ _ u Hs := proj2 Hs u;
}.

(** The context switch is such a change. *)
Lemma preempt_is_switch w f g' sw : reachable w -> preempt_switch f (w_g w) = Some (g', sw) -> tk_switch (w_g w) g'.
Proof.
  intros Hr E. destruct (reachable_inv _ Hr) as (s & [Hg Hi Hd Hres Hnn]).
  destruct (switch_spec _ s f Hg Hi) as (s' & t & E' & H1 & H2 & H3 & H4 & H5 & H6 & _). rewrite E' in E. injection E as <- _.
  split; [eexists; split; [done|]; by rewrite H5|]. intros u. unfold sched_blocked. cbn [sched]. rewrite Hg.
  assert (Hst : forall v, t_state (parked f v) = if decide (t_state v = Running) then Ready else t_state v) by (intros v; unfold parked; by case_decide).
  split.
  - intros (s1 & k & [= <-] & Hk & Hb). rewrite H4 in Hk.
    apply lookup_alter_iff in Hk as [(-> & t0 & H0 & ->)|[Hne H0]]; [done|].
    rewrite lookup_parked_reaped in H0 by done. destruct (tasks s !! u) as [v|] eqn:Ev; [|done]. exists s, v. split; [done|]. split; [done|].
    case_decide; [injection H0 as <-; rewrite Hst in Hb; by case_decide|]. case_decide; [done|]. by injection H0 as <-.
  - intros (s1 & k & [= <-] & Hk & Hb). exists s'.
    assert (Hp : exists k', tasks (park_current (current_ s) f (reap_zombies_except (current_ s) s)) !! u = Some k' /\ t_state k' = Blocked).
    { rewrite lookup_parked_reaped, Hk by done. case_decide; [exists (parked f k); split; [done|]; by rewrite Hst, decide_False by congruence|].
      rewrite decide_False by congruence. eauto. }
    destruct Hp as (k' & Hk' & Hb'). exists k'. split; [done|]. split; [|done]. rewrite H4.
    destruct (decide (u = current_ s')) as [->|Hne]; [|by rewrite lookup_alter_ne]. exfalso.
    destruct H2 as [(i & q & Hb2 & _)|[Hid _]].
    + apply list_elem_of_lookup_2 in Hb2. apply (inv_ready _ H3) in Hb2 as (v & Hv & Hr' & _). congruence.
    + destruct (inv_idle _ H3) as (v & Hv & Hs). rewrite <- Hid in Hv. rewrite Hk' in Hv. injection Hv as <-. destruct Hs; congruence.
Qed.
End SchedLaws.

(** ** The tasks at the ends *)

(** Where a task is in the code of the pipe. *)
Inductive Pc : Type :=
  | AtRead (n : Z)           (* at the top of the loop of [read_at] *)
  | AtWrite (buf : list Z)   (* at the top of the loop of [write_at] *)
  | AtLock (buf : list Z)    (* past the check, before the guard *)
  | AtWakeWriters            (* in the drop of the last reader, past [fetch_sub] *)
  | AtWakeReaders.           (* in the drop of the last writer, past [fetch_sub] *)

Definition reading (c : Pc) : bool := match c with AtRead _ => true | _ => false end.
Definition writing (c : Pc) : bool := match c with AtWrite _ | AtLock _ => true | _ => false end.

Section Steps.
Context {S : Type} `{HT : !Tasks S, HL : !TaskLaws S}.

(** The pipe, the scheduler, the task counters, and the bytes that the writers were
    told were taken and the readers got, in order. *)
Record Cfg := mkCfg { c_ps : Pipe * S; c_pc : gmap Z Pc; c_in : list Z; c_out : list Z }.

Definition c_pipe (c : Cfg) : Pipe := (c_ps c).1.
Definition c_sched (c : Cfg) : S := (c_ps c).2.
Definition runs (c : Cfg) (t : Z) : Prop := tk_current (c_sched c) = t /\ ~ tk_blocked (c_sched c) t.

(** [Run]: the running task takes its next step, or the processor changes hands;
    [Wake u]: somebody else wakes task [u] (a signal, a timer). *)
Inductive Label : Type := Run | Wake (u : Z).

(** An end is released when no descriptor and no call holds it. *)
Inductive pstep : Label -> Cfg -> Cfg -> Prop :=
  | p_call_read c t n :
      runs c t -> c_pc c !! t = None -> 0 < n -> reader_count (c_pipe c) <> 0 ->
      pstep Run c (mkCfg (c_ps c) (<[t := AtRead n]> (c_pc c)) (c_in c) (c_out c))
  | p_read c t n ps data :
      runs c t -> c_pc c !! t = Some (AtRead n) -> 0 <= n -> read_locked n (c_ps c) = (ps, Ret (Ok data)) ->
      pstep Run c (mkCfg ps (delete t (c_pc c)) (c_in c) (c_out c ++ data))
  | p_read_park c t n ps :
      runs c t -> c_pc c !! t = Some (AtRead n) -> 0 <= n -> read_locked n (c_ps c) = (ps, Park) ->
      pstep Run c (mkCfg ps (c_pc c) (c_in c) (c_out c))
  | p_call_write c t buf :
      runs c t -> c_pc c !! t = None -> buf <> [] -> writer_count (c_pipe c) <> 0 ->
      pstep Run c (mkCfg (c_ps c) (<[t := AtWrite buf]> (c_pc c)) (c_in c) (c_out c))
  | p_check c t buf :
      runs c t -> c_pc c !! t = Some (AtWrite buf) ->
      pstep Run c (mkCfg (c_ps c) (if write_check (c_pipe c) then <[t := AtLock buf]> (c_pc c) else delete t (c_pc c)) (c_in c) (c_out c))
  | p_write c t buf ps n :
      runs c t -> c_pc c !! t = Some (AtLock buf) -> write_locked buf (c_ps c) = (ps, Ret (Ok n)) ->
      pstep Run c (mkCfg ps (delete t (c_pc c)) (c_in c ++ take (Z.to_nat n) buf) (c_out c))
  | p_write_park c t buf ps :
      runs c t -> c_pc c !! t = Some (AtLock buf) -> write_locked buf (c_ps c) = (ps, Park) ->
      pstep Run c (mkCfg ps (<[t := AtWrite buf]> (c_pc c)) (c_in c) (c_out c))
  | p_drop_reader c t p last :
      runs c t -> c_pc c !! t = None -> reader_count (c_pipe c) <> 0 -> (forall u k, c_pc c !! u = Some k -> reading k = false) ->
      release_reader (c_pipe c) = (p, last) ->
      pstep Run c (mkCfg (p, c_sched c) (if last then <[t := AtWakeWriters]> (c_pc c) else c_pc c) (c_in c) (c_out c))
  | p_drop_writer c t p last :
      runs c t -> c_pc c !! t = None -> writer_count (c_pipe c) <> 0 -> (forall u k, c_pc c !! u = Some k -> writing k = false) ->
      release_writer (c_pipe c) = (p, last) ->
      pstep Run c (mkCfg (p, c_sched c) (if last then <[t := AtWakeReaders]> (c_pc c) else c_pc c) (c_in c) (c_out c))
  | p_wake_writers c t :
      runs c t -> c_pc c !! t = Some AtWakeWriters ->
      pstep Run c (mkCfg (wake_writers (c_ps c)) (delete t (c_pc c)) (c_in c) (c_out c))
  | p_wake_readers c t :
      runs c t -> c_pc c !! t = Some AtWakeReaders ->
      pstep Run c (mkCfg (wake_readers (c_ps c)) (delete t (c_pc c)) (c_in c) (c_out c))
  | p_switch c s :
      tk_switch (c_sched c) s -> pstep Run c (mkCfg (c_pipe c, s) (c_pc c) (c_in c) (c_out c))
  | p_wake c u :
      pstep (Wake u) c (mkCfg (c_pipe c, tk_unblock u (c_sched c)) (c_pc c) (c_in c) (c_out c)).

(** A fresh pipe, nobody in its code. *)
Definition fresh_cfg (c : Cfg) : Prop :=
  exists cap s, 0 < cap /\ tk_ok s /\ c = mkCfg (pipe_new cap, s) ∅ [] [].

Inductive preach : Cfg -> Prop :=
  | pr_fresh c : fresh_cfg c -> preach c
  | pr_step l c c' : preach c -> pstep l c c' -> preach c'.

(** ** What every history keeps *)

Lemma wake_all_ok l s : tk_ok s -> tk_ok (wake_all l s).
Proof. revert s. induction l as [|t l IH]; intros s Hs; [done|]. apply IH. by apply tk_unblock_ok. Qed.

Lemma wake_all_blocked l s u : tk_ok s -> tk_blocked (wake_all l s) u <-> tk_blocked s u /\ ~ (u ∈ l).
Proof.
  revert s. induction l as [|t l IH]; intros s Hs; cbn [wake_all foldl]; [rewrite elem_of_nil; tauto|].
  fold (wake_all l (tk_unblock t s)). rewrite IH, tk_unblock_blocked, elem_of_cons by (done || by apply tk_unblock_ok). tauto.
Qed.

(** The three outcomes of a turn of the reader, and the two of the writer. *)
Lemma read_locked_cases n ps ps' r : read_locked n ps = (ps', r) ->
  (buffer ps.1 <> [] /\ ps' = wake_writers (set_buffer (drop (Z.to_nat (Z.min n (len (buffer ps.1)))) (buffer ps.1)) ps.1, ps.2) /\
     r = Ret (Ok (take (Z.to_nat (Z.min n (len (buffer ps.1)))) (buffer ps.1)))) \/
  (buffer ps.1 = [] /\ writer_count ps.1 = 0 /\ ps' = ps /\ r = Ret (Ok [])) \/
  (buffer ps.1 = [] /\ writer_count ps.1 <> 0 /\ r = Park /\
     ps' = (set_readers (readers_blocked ps.1 ++ [tk_current ps.2]) ps.1, tk_block ps.2)).
Proof.
  unfold read_locked. case_bool_decide as Hb; cbn [negb].
  - destruct (Z.eqb_spec (writer_count ps.1) 0); intros [= <- <-]; auto 10.
  - intros [= <- <-]. auto.
Qed.

Lemma write_locked_cases buf ps ps' r : write_locked buf ps = (ps', r) ->
  let n := Z.min (len buf) (capacity ps.1 - len (buffer ps.1)) in
  (len (buffer ps.1) < capacity ps.1 /\ ps' = wake_readers (set_buffer (buffer ps.1 ++ take (Z.to_nat n) buf) ps.1, ps.2) /\ r = Ret (Ok n)) \/
  (capacity ps.1 <= len (buffer ps.1) /\ r = Park /\
     ps' = (set_writers (writers_blocked ps.1 ++ [tk_current ps.2]) ps.1, tk_block ps.2)).
Proof. unfold write_locked. cbn zeta. destruct (Z.ltb_spec (len (buffer ps.1)) (capacity ps.1)); intros [= <- <-]; auto. Qed.

(** A reader that sleeps is on the list; while the list holds anyone the buffer is
    empty, and a writer is left, or about to wake them all. *)
Record readers_inv (p : Pipe) (s : S) (pc : gmap Z Pc) : Prop := mkReadersInv {
  ri_parked : forall t n, pc !! t = Some (AtRead n) -> tk_blocked s t -> t ∈ readers_blocked p;
  ri_empty : readers_blocked p <> [] -> buffer p = [];
  ri_waker : readers_blocked p <> [] -> writer_count p <> 0 \/ exists u, pc !! u = Some AtWakeReaders;
}.

Record pipe_inv (c : Cfg) : Prop := mkPipeInv {
  pi_sched : tk_ok (c_sched c);
  pi_fifo : c_out c ++ buffer (c_pipe c) = c_in c;
  pi_counts : 0 <= reader_count (c_pipe c) <= 1 /\ 0 <= writer_count (c_pipe c) <= 1;
  pi_cap : len (buffer (c_pipe c)) <= capacity (c_pipe c) /\ 0 < capacity (c_pipe c);
  pi_readers : readers_inv (c_pipe c) (c_sched c) (c_pc c);
}.

Lemma fresh_inv c : fresh_cfg c -> pipe_inv c.
Proof. intros (cap & s & Hc & Hs & ->). split; cbn; try done; try lia. Qed.

Lemma release_1 k : 0 <= k <= 1 -> k <> 0 -> k = 1.
Proof. lia. Qed.

(** A task moves, and does not go to sleep as a reader by that. *)
Lemma readers_move p s pc t k : readers_inv p s pc -> pc !! t <> Some AtWakeReaders -> (reading k = false \/ ~ tk_blocked s t) ->
  readers_inv p s (<[t := k]> pc).
Proof.
  intros [H1 H2 H3] Ht Hk. split; [|done|].
  - intros u n [[<- ->]|[Hne Hu]]%lookup_insert_Some; [|by eauto]. by destruct Hk.
  - intros Hne. destruct (H3 Hne) as [|[u Hu]]; [by left|right]. exists u. rewrite lookup_insert_ne; [done|]. by intros ->.
Qed.
Lemma readers_leave p s pc t : readers_inv p s pc -> pc !! t <> Some AtWakeReaders -> readers_inv p s (delete t pc).
Proof.
  intros [H1 H2 H3] Ht. split; [|done|].
  - intros u n [Hne Hu]%lookup_delete_Some. by eauto.
  - intros Hne. destruct (H3 Hne) as [|[u Hu]]; [by left|right]. exists u. rewrite lookup_delete_ne; [done|]. by intros ->.
Qed.

(** Nobody else goes to sleep. *)
Lemma readers_sched p s s' pc : readers_inv p s pc -> (forall u, tk_blocked s' u -> tk_blocked s u) -> readers_inv p s' pc.
Proof. intros [H1 H2 H3] Hb. split; [|done|done]. intros t n Ht Hu. by eapply H1, Hb. Qed.

(** All the readers that sleep are woken. *)
Lemma readers_woken p p' s pc pc' : tk_ok s -> readers_inv p s pc -> readers_blocked p' = [] ->
  (forall t n, pc' !! t = Some (AtRead n) -> pc !! t = Some (AtRead n)) -> readers_inv p' (wake_all (readers_blocked p) s) pc'.
Proof.
  intros Hok [H1 H2 H3] Hp Hpc. split; [|by rewrite Hp..].
  intros t n Ht Hb. apply wake_all_blocked in Hb as [Hb Hn]; [|done]. exfalso. by eapply Hn, H1, Hb; eauto.
Qed.

(** The fields that matter. *)
Lemma readers_ext p p' s pc : readers_inv p s pc -> readers_blocked p' = readers_blocked p ->
  (buffer p = [] -> buffer p' = []) -> writer_count p' = writer_count p -> readers_inv p' s pc.
Proof. intros [H1 H2 H3] E1 E2 E3. split; rewrite ?E1, ?E3; auto. Qed.

(** The turn of a reader. *)
Lemma read_inv c t n ps r : pipe_inv c -> tk_current (c_sched c) = t -> c_pc c !! t = Some (AtRead n) -> 0 <= n ->
  read_locked n (c_ps c) = (ps, r) ->
  pipe_inv (mkCfg ps (match r with Park => c_pc c | _ => delete t (c_pc c) end) (c_in c) (c_out c ++ match r with Ret (Ok d) => d | _ => [] end)).
Proof.
  intros [Hs Hf Hc Hcap HR] Hcur Hpc Hn E. unfold c_pipe, c_sched in *. destruct (c_ps c) as [p s]. cbn [fst snd] in *.
  apply read_locked_cases in E as [(Hb & -> & ->)|[(Hb & Hw & -> & ->)|(Hb & Hw & -> & ->)]]; cbn [fst snd] in *.
  - set (k := Z.to_nat (Z.min n (len (buffer p)))). split; unfold c_pipe, c_sched; cbn.
    + by apply wake_all_ok.
    + by rewrite <- app_assoc, take_drop.
    + done.
    + rewrite length_drop. lia.
    + apply readers_leave; [|cbn; congruence]. apply (readers_sched _ s); [|intros u Hu; apply wake_all_blocked in Hu as [Hu _]; done].
      apply (readers_ext p); [done..| |done]. by intros.
  - split; cbn; try done; [by rewrite app_nil_r|]. apply readers_leave; [done|congruence].
  - split; unfold c_pipe, c_sched; cbn; try done.
    + by apply tk_block_ok.
    + by rewrite app_nil_r.
    + destruct HR as [H1 H2 H3]. split; cbn; [|done|by left].
      intros u m Hu Hbl. apply elem_of_app. apply tk_block_blocked in Hbl as [Hbl| ->]; [left; by eapply H1|right|done]. by left.
Qed.

(** The turn of a writer. *)
Lemma write_inv c t buf ps r : pipe_inv c -> tk_current (c_sched c) = t -> c_pc c !! t = Some (AtLock buf) ->
  write_locked buf (c_ps c) = (ps, r) ->
  pipe_inv (mkCfg ps (match r with Park => <[t := AtWrite buf]> (c_pc c) | _ => delete t (c_pc c) end)
    (c_in c ++ match r with Ret (Ok n) => take (Z.to_nat n) buf | _ => [] end) (c_out c)).
Proof.
  intros [Hs Hf Hc Hcap HR] Hcur Hpc E. unfold c_pipe, c_sched in *. destruct (c_ps c) as [p s]. cbn [fst snd] in *.
  apply write_locked_cases in E as [(Hb & -> & ->)|(Hb & -> & ->)]; cbn [fst snd] in *.
  - split; unfold c_pipe, c_sched; cbn.
    + by apply wake_all_ok.
    + by rewrite <- Hf, app_assoc.
    + done.
    + rewrite length_app, length_take. lia.
    + apply (readers_woken p _ s (c_pc c)); [done..|]. by intros u n [_ Hu]%lookup_delete_Some.
  - split; unfold c_pipe, c_sched; cbn; try done; [by apply tk_block_ok|by rewrite app_nil_r|].
    destruct HR as [H1 H2 H3]. split; cbn; [|done|].
    + intros u m [[_ [=]]|[Hne Hu]]%lookup_insert_Some Hbl. apply tk_block_blocked in Hbl as [Hbl| ->]; [by eapply H1|congruence|done].
    + intros Hne. destruct (H3 Hne) as [|[u Hu]]; [by left|right]. exists u. rewrite lookup_insert_ne; [done|]. intros ->. congruence.
Qed.

Lemma pstep_inv l c c' : pipe_inv c -> pstep l c c' -> pipe_inv c'.
Proof.
  intros Hi Hst. pose proof Hi as [Hs Hf Hc Hcap HR]. destruct Hst as
    [c t n [Hcur Hrun] Hpc Hn Hr|c t n ps data [Hcur Hrun] Hpc Hn E|c t n ps [Hcur Hrun] Hpc Hn E|c t buf [Hcur Hrun] Hpc Hb Hwc
    |c t buf [Hcur Hrun] Hpc|c t buf ps n [Hcur Hrun] Hpc E|c t buf ps [Hcur Hrun] Hpc E|c t p last [Hcur Hrun] Hpc Hr Ha E
    |c t p last [Hcur Hrun] Hpc Hr Ha E|c t [Hcur Hrun] Hpc|c t [Hcur Hrun] Hpc|c s Hsw|c u].
  - split; try done. apply readers_move; [done|congruence|by right].
  - exact (read_inv c t n ps _ Hi Hcur Hpc Hn E).
  - pose proof (read_inv c t n ps _ Hi Hcur Hpc Hn E) as H. by rewrite app_nil_r in H.
  - split; try done. apply readers_move; [done|congruence|by left].
  - split; try done. destruct (write_check _); [apply readers_move; [done|congruence|by left]|apply readers_leave; [done|congruence]].
  - exact (write_inv c t buf ps _ Hi Hcur Hpc E).
  - pose proof (write_inv c t buf ps _ Hi Hcur Hpc E) as H. by rewrite app_nil_r in H.
  - unfold release_reader in E. injection E as <- <-. rewrite (release_1 _ (proj1 Hc) Hr).
    change (u32 (1 - 1)) with 0. change (1 =? 1) with true. split; cbn; try done; [lia|].
    apply readers_move; [by apply (readers_ext (c_pipe c))|congruence|by left].
  - unfold release_writer in E. injection E as <- <-. rewrite (release_1 _ (proj2 Hc) Hr).
    change (u32 (1 - 1)) with 0. change (1 =? 1) with true. split; cbn; try done; [lia|].
    destruct HR as [H1 H2 H3]. split; cbn; [|done|right; exists t; by rewrite lookup_insert_eq].
    intros u m [[_ [=]]|[_ Hu]]%lookup_insert_Some. by eapply H1.
  - split; cbn; try done; [by apply wake_all_ok|]. apply readers_leave; [|congruence].
    apply (readers_sched _ (c_sched c)); [by apply (readers_ext (c_pipe c))|]. intros u Hu. apply wake_all_blocked in Hu as [Hu _]; done.
  - split; cbn; try done; [by apply wake_all_ok|]. apply (readers_woken (c_pipe c) _ (c_sched c) (c_pc c)); [done..|].
    by intros u n [_ Hu]%lookup_delete_Some.
  - split; cbn; try done; [by eapply tk_switch_ok|]. apply (readers_sched _ (c_sched c)); [done|]. intros u. apply (tk_switch_blocked _ _ u Hsw).
  - split; cbn; try done; [by apply tk_unblock_ok|]. apply (readers_sched _ (c_sched c)); [done|]. intros v Hv. apply tk_unblock_blocked in Hv as [Hv _]; done.
Qed.

Lemma preach_inv c : preach c -> pipe_inv c.
Proof. induction 1 as [c Hf|l c c' _ IH Hs]; [by apply fresh_inv|by eapply pstep_inv]. Qed.

(** C24. First in, first out: in every interleaving of the tasks at the two ends, what the
    readers got followed by what is in the buffer is what the writers were told was
    taken, and the buffer holds at most the capacity of the pipe. *)
Theorem pipe_fifo c : preach c -> c_out c ++ buffer (c_pipe c) = c_in c /\ len (buffer (c_pipe c)) <= capacity (c_pipe c).
Proof. intros Hr. apply preach_inv in Hr as [_ Hf _ [Hc _] _]. done. Qed.

(** C25. No reader sleeps for ever: when a reader is asleep there is nothing to read, a
    writer is left or is about to wake it, the next write finds room, and that write
    or the drop of the last writer wakes it. *)
Theorem sleeping_reader_woken c t n : preach c -> c_pc c !! t = Some (AtRead n) -> tk_blocked (c_sched c) t ->
  buffer (c_pipe c) = [] /\
  (writer_count (c_pipe c) <> 0 \/ exists u, c_pc c !! u = Some AtWakeReaders) /\
  (forall buf ps r, write_locked buf (c_ps c) = (ps, r) -> (exists m, r = Ret (Ok m)) /\ ~ tk_blocked ps.2 t) /\
  ~ tk_blocked (wake_readers (c_ps c)).2 t.
Proof.
  intros Hr Hpc Hb. apply preach_inv in Hr as [Hs _ _ [Hc1 Hc2] [H1 H2 H3]]. specialize (H1 t n Hpc Hb).
  assert (Hne : readers_blocked (c_pipe c) <> []) by (intros E; rewrite E in H1; by apply not_elem_of_nil in H1).
  assert (Hwk : forall s', s' = wake_all (readers_blocked (c_pipe c)) (c_sched c) -> ~ tk_blocked s' t).
  { intros s' ->. rewrite wake_all_blocked by done. tauto. }
  split; [by apply H2|]. split; [by apply H3|]. split; [|by apply Hwk].
  intros buf ps r [(Hl & -> & ->)|(Hl & -> & ->)]%write_locked_cases.
  - split; [by eexists|]. by apply Hwk.
  - unfold c_pipe in *. rewrite (H2 Hne) in Hl. cbn in Hl. lia.
Qed.

(** ** The writer that nobody wakes *)

(** Task [t] sleeps at the writing end, and nobody is left who could wake it. *)
Record stuck (t : Z) (c : Cfg) : Prop := mkStuck {
  st_ok : tk_ok (c_sched c);
  st_blocked : tk_blocked (c_sched c) t;
  st_readers : reader_count (c_pipe c) = 0;
  st_pc : exists buf, c_pc c !! t = Some (AtWrite buf);
  st_others : forall u k, c_pc c !! u = Some k -> writing k = true \/ k = AtWakeReaders;
  st_not_reader : ~ (t ∈ readers_blocked (c_pipe c));
}.

Lemma stuck_step t l c c' : l <> Wake t -> stuck t c -> pstep l c c' -> stuck t c'.
Proof.
  intros Hl [Hs Hb Hr [wb Hw] Ho Hn] Hst. destruct Hst as
    [c t' n [Hcur Hrun] Hpc Hn' Hr'|c t' n ps data [Hcur Hrun] Hpc Hn' E|c t' n ps [Hcur Hrun] Hpc Hn' E|c t' buf [Hcur Hrun] Hpc Hb' Hwc
    |c t' buf [Hcur Hrun] Hpc|c t' buf ps n [Hcur Hrun] Hpc E|c t' buf ps [Hcur Hrun] Hpc E|c t' p last [Hcur Hrun] Hpc Hr' Ha E
    |c t' p last [Hcur Hrun] Hpc Hr' Ha E|c t' [Hcur Hrun] Hpc|c t' [Hcur Hrun] Hpc|c s Hsw|c u];
    try (assert (t' <> t) as Hne by (intros ->; done)).
  - done.
  - by destruct (Ho _ _ Hpc).
  - by destruct (Ho _ _ Hpc).
  - split; cbn; try done; [exists wb; by rewrite lookup_insert_ne|].
    intros u k [[_ <-]|[_ Hu]]%lookup_insert_Some; [by left|by eauto].
  - unfold write_check. rewrite Hr. cbn. split; cbn; try done; [exists wb; by rewrite lookup_delete_ne|].
    intros u k [_ Hu]%lookup_delete_Some. by eauto.
  - apply write_locked_cases in E as [(Hl' & -> & [= <-])|(_ & [=] & _)]. split; unfold c_sched, c_pipe; cbn.
    + by apply wake_all_ok.
    + by apply wake_all_blocked.
    + done.
    + exists wb. by rewrite lookup_delete_ne.
    + intros u k [_ Hu]%lookup_delete_Some. by eauto.
    + apply not_elem_of_nil.
  - apply write_locked_cases in E as [(_ & _ & [=])|(_ & _ & ->)]. split; unfold c_sched, c_pipe; cbn; try done.
    + by apply tk_block_ok.
    + apply tk_block_blocked; [done|by left].
    + exists wb. by rewrite lookup_insert_ne.
    + intros u k [[_ <-]|[_ Hu]]%lookup_insert_Some; [by left|by eauto].
  - done.
  - exfalso. by specialize (Ha t _ Hw).
  - by destruct (Ho _ _ Hpc).
  - split; unfold c_sched, c_pipe; cbn; try done.
    + by apply wake_all_ok.
    + by apply wake_all_blocked.
    + exists wb. by rewrite lookup_delete_ne.
    + intros u k [_ Hu]%lookup_delete_Some. by eauto.
    + apply not_elem_of_nil.
  - split; cbn; try done; [by eapply tk_switch_ok|by apply (tk_switch_blocked _ _ t Hsw)|by exists wb].
  - split; cbn; try done; [by apply tk_unblock_ok| |by exists wb]. apply tk_unblock_blocked; [done|]. split; [done|congruence].
Qed.

(** Later configurations, without anybody outside the pipe waking [t]. *)
Inductive later (t : Z) (c : Cfg) : Cfg -> Prop :=
  | later_refl : later t c c
  | later_step l c1 c2 : later t c c1 -> l <> Wake t -> pstep l c1 c2 -> later t c c2.

Lemma stuck_later t c c' : stuck t c -> later t c c' -> stuck t c'.
Proof. intros Hs. induction 1 as [|l c1 c2 _ IH Hl H2]; [done|by eapply stuck_step]. Qed.
End Steps.
Arguments Cfg : clear implicits.

(** ** Two tasks and a pipe *)

(** Tasks 1 and 2; [cur] runs, the other is ready. *)
Definition two_tasks (cur : Z) (asleep : Z) : SchedState (F := SmallFrame) :=
  let task t := if t =? asleep then set_state Blocked (test_task t) else test_task t in
  mkSchedState (Some (mkScheduler {[1 := task 1; 2 := task 2]} [] cur IDLE_TID 3 QUANTUM_TICKS)) false false.

Definition two_cfg (p : Pipe) (cur : Z) (pc : gmap Z Pc) (i o : list Z) : Cfg (SchedState (F := SmallFrame)) :=
  mkCfg (p, two_tasks cur 0) pc i o.

Lemma two_ok cur asleep : cur = 1 \/ cur = 2 -> tk_ok (two_tasks cur asleep).
Proof. intros [-> | ->]; eexists; (split; [reflexivity|]); cbn; eauto. Qed.

Lemma two_awake cur t : ~ tk_blocked (two_tasks cur 0) t.
Proof.
  intros (s & k & [= <-] & Hk & Hb). cbn in Hk. apply lookup_insert_Some in Hk as [[<- <-]|[_ Hk]]; [by vm_compute in Hb|].
  apply lookup_singleton_Some in Hk as [<- <-]. by vm_compute in Hb.
Qed.

Lemma two_switch a b : b = 1 \/ b = 2 -> tk_switch (two_tasks a 0) (two_tasks b 0).
Proof. intros Hb. split; [by apply two_ok|]. intros u. split; intros H; exfalso; by eapply two_awake. Qed.

Lemma two_runs p cur pc i o : runs (two_cfg p cur pc i o) cur.
Proof. split; [done|apply two_awake]. Qed.

Lemma two_start cur : cur = 1 \/ cur = 2 -> preach (two_cfg (pipe_new 1) cur ∅ [] []).
Proof. intros Hc. apply pr_fresh. exists 1, (two_tasks cur 0). split; [done|]. split; [by apply two_ok|done]. Qed.

Lemma step_to {S} `{HT : !Tasks S, HL : !TaskLaws S} l (c c1 c2 : Cfg S) : preach c -> pstep l c c1 -> c1 = c2 -> preach c2.
Proof. intros H1 H2 <-. by eapply pr_step. Qed.

(** One step of the run, by the rule [rule]. *)
Tactic Notation "from" constr(H) open_constr(rule) :=
  eapply (step_to Run _ _ _ H);
  [eapply rule; first [apply two_runs | apply two_switch; (by left) || by right | reflexivity | done | lia
                      | intros u k Hk; cbn in Hk; apply lookup_singleton_Some in Hk as [<- <-]; reflexivity]
  |reflexivity].

(** The writer fills the pipe of capacity 1, comes back, finds a reader, and is
    preempted before it takes the guard. *)
Definition full_pipe : Pipe := mkPipe [7] 1 [] [] 1 1.
Definition at_lock : Cfg (SchedState (F := SmallFrame)) := two_cfg full_pipe 2 {[2 := AtLock [8]]} [7] [].

Lemma at_lock_reached : preach at_lock.
Proof.
  assert (H1 : preach (two_cfg (pipe_new 1) 2 {[2 := AtWrite [7]]} [] [])) by (from (two_start 2 ltac:(by right)) (p_call_write _ 2 [7])).
  assert (H2 : preach (two_cfg (pipe_new 1) 2 {[2 := AtLock [7]]} [] [])) by (from H1 (p_check _ 2 [7])).
  assert (H3 : preach (two_cfg full_pipe 2 ∅ [7] [])) by (from H2 (p_write _ 2 [7] (full_pipe, two_tasks 2 0) 1)).
  assert (H4 : preach (two_cfg full_pipe 2 {[2 := AtWrite [8]]} [7] [])) by (from H3 (p_call_write _ 2 [8])).
  from H4 (p_check _ 2 [8]).
Qed.

(** Meanwhile the other task closes the reading end, and wakes nobody. *)
Definition dropped : Pipe := mkPipe [7] 1 [] [] 0 1.
Definition no_readers : Cfg (SchedState (F := SmallFrame)) := two_cfg dropped 2 {[2 := AtLock [8]]} [7] [].

Lemma no_readers_reached : preach no_readers.
Proof.
  assert (H1 : preach (two_cfg full_pipe 1 {[2 := AtLock [8]]} [7] [])) by (from at_lock_reached (p_switch at_lock (two_tasks 1 0))).
  assert (H2 : preach (two_cfg dropped 1 {[1 := AtWakeWriters; 2 := AtLock [8]]} [7] [])) by (from H1 (p_drop_reader _ 1 dropped true)).
  assert (H3 : preach (two_cfg dropped 1 {[2 := AtLock [8]]} [7] [])) by (from H2 (p_wake_writers _ 1)).
  from H3 (p_switch (two_cfg dropped 1 {[2 := AtLock [8]]} [7] []) (two_tasks 2 0)).
Qed.

Definition asleep_for_good : Cfg (SchedState (F := SmallFrame)) :=
  mkCfg (mkPipe [7] 1 [] [2] 0 1, block_current_noswitch (two_tasks 2 0)) {[2 := AtWrite [8]]} [7] [].

Lemma asleep_reached : preach asleep_for_good.
Proof. from no_readers_reached (p_write_park _ 2 [8] (mkPipe [7] 1 [] [2] 0 1, block_current_noswitch (two_tasks 2 0))). Qed.

(** A writer can sleep for ever: it looks at the count of readers before it takes the
    guard, so the last reader can leave, and wake nobody, between the check and the
    sleep; then nothing that the tasks at the pipe do wakes it, and instead of
    [IoError] it gets no answer. *)
Theorem writer_never_woken : exists (c : Cfg (SchedState (F := SmallFrame))) t buf,
  preach c /\ c_pc c = {[t := AtWrite buf]} /\ reader_count (c_pipe c) = 0 /\
  forall c', later t c c' -> tk_blocked (c_sched c') t.
Proof.
  exists asleep_for_good, 2, [8]. split; [exact asleep_reached|]. split; [done|]. split; [done|].
  intros c' Hl. apply (stuck_later 2 asleep_for_good) in Hl as []; [done|]. split.
  - apply block_ok, two_ok. by right.
  - exact (proj2 (block_blocked (two_tasks 2 0) 2 (two_ok 2 0 (or_intror eq_refl))) (or_intror eq_refl)).
  - done.
  - exists [8]. reflexivity.
  - intros u k Hk. cbn in Hk. apply lookup_singleton_Some in Hk as [<- <-]. by left.
  - apply not_elem_of_nil.
Qed.

Lemma pipe_fifo_witness : c_out at_lock ++ buffer (c_pipe at_lock) = [7].
Proof. exact (proj1 (pipe_fifo at_lock at_lock_reached)). Defined.

(** A reader that found nothing. *)
Definition reader_asleep : Cfg (SchedState (F := SmallFrame)) :=
  mkCfg (mkPipe [] 1 [1] [] 1 1, block_current_noswitch (two_tasks 1 0)) {[1 := AtRead 4]} [] [].

Lemma reader_asleep_reached : preach reader_asleep.
Proof.
  assert (H1 : preach (two_cfg (pipe_new 1) 1 {[1 := AtRead 4]} [] [])) by (from (two_start 1 ltac:(by left)) (p_call_read _ 1 4)).
  from H1 (p_read_park _ 1 4 (mkPipe [] 1 [1] [] 1 1, block_current_noswitch (two_tasks 1 0))).
Qed.

Lemma sleeping_reader_woken_witness : tk_blocked (c_sched reader_asleep) 1 /\ ~ tk_blocked (wake_readers (c_ps reader_asleep)).2 1.
Proof.
  assert (Hb : tk_blocked (c_sched reader_asleep) 1)
    by (exact (proj2 (block_blocked (two_tasks 1 0) 1 (two_ok 1 0 (or_introl eq_refl))) (or_intror eq_refl))).
  split; [exact Hb|].
  destruct (sleeping_reader_woken reader_asleep 1 4 reader_asleep_reached ltac:(reflexivity) Hb) as (_ & _ & _ & H). exact H.
Defined.
