(* ===== verification/RamFs.v ===== *)
(** * RamFs: the file system in memory (kernel/src/fs/ramfs.rs)

    The nodes live in a heap, an [Arc<RamNode>] being an address of it; a node is
    never freed in the model, where the code frees it with its last handle.  A FIFO
    holds a pipe, so the world has the heap of the pipes and the scheduler as well.
    [try_reserve] is the allocator's answer when a vector of some length has to
    grow, a parameter. *)

From S2P Require Import Prelude Inode Vfs Sched Pipe.

Open Scope Z_scope.

(** [Vec::try_reserve] never grants more than [isize::MAX] bytes. *)
Class Allocator := {
  try_reserve : Z -> Z -> bool;
  try_reserve_max l extra : try_reserve l extra = true -> l + extra <= 2 ^ 31 - 1;
}.

(* @src kernel/src/fs/ramfs.rs 15-21 RamBody *)
Inductive RamBody : Type :=
  | RFile (data : list Z)
  | RDir (children : gmap string Z)
  | RFifo (pipe : Z).

(* @src kernel/src/fs/ramfs.rs 23-29 RamNode *)
Record RamNode := mkRamNode { r_ino : Z; r_kind : InodeKind; r_body : RamBody }.

Section RamFs.
Context {T : Type} `{HT : !Tasks T, HA : !Allocator}.

(** The heap of the nodes, the [NEXT_INO] counter, and the world of the pipes. *)
Record RamWorld := mkRamWorld { rw_nodes : gmap Z RamNode; rw_next : Z; rw_next_ino : Z; rw_pipes : PipeWorld T }.

Definition set_rnodes (ns : gmap Z RamNode) (w : RamWorld) : RamWorld := mkRamWorld ns (rw_next w) (rw_next_ino w) (rw_pipes w).
Definition set_rbody (a : Z) (b : RamBody) (w : RamWorld) : RamWorld :=
  set_rnodes (alter (fun n => mkRamNode (r_ino n) (r_kind n) b) a (rw_nodes w)) w.

(* @src kernel/src/fs/ramfs.rs 9-13 alloc_ino *)
Definition alloc_ino (w : RamWorld) : RamWorld * Z :=
  (mkRamWorld (rw_nodes w) (rw_next w) (u32 (rw_next_ino w + 1)) (rw_pipes w), rw_next_ino w).

Definition new_node (k : InodeKind) (b : RamBody) (w : RamWorld) : RamWorld * Z :=
  let '(w, ino) := alloc_ino w in
  let a := rw_next w in
  (mkRamWorld (<[a := mkRamNode ino k b]> (rw_nodes w)) (a + 1) (rw_next_ino w) (rw_pipes w), a).

(* @src kernel/src/fs/ramfs.rs 32-38 RamNode::new_dir *)
Definition new_dir (w : RamWorld) : RamWorld * Z := new_node Dir (RDir ∅) w.
(* @src kernel/src/fs/ramfs.rs 40-46 RamNode::new_file *)
Definition new_file (w : RamWorld) : RamWorld * Z := new_node File (RFile []) w.
(** The pipe of a FIFO is made without its ends. *)
(* @src kernel/src/fs/ramfs.rs 48-54 RamNode::new_fifo *)
Definition new_fifo (w : RamWorld) : RamWorld * Z :=
  let '(p, (PipeReadInode a, _)) := create_pipe 4096 (rw_pipes w) in
  new_node Fifo (RFifo a) (mkRamWorld (rw_nodes w) (rw_next w) (rw_next_ino w) p).

(** A handle: it keeps its node alive. *)
Inductive RamHandle : Type := RamAt (a : Z).
#[export] Instance RamHandle_eq_dec : EqDecision RamHandle.
Proof. solve_decision. Defined.

Definition node_at (i : RamHandle) (w : RamWorld) : option RamNode := let 'RamAt a := i in rw_nodes w !! a.

Definition on_pipes {A} (m : IO (PipeWorld T) A) : IO RamWorld A := fun w =>
  let '(p, r) := m (rw_pipes w) in (mkRamWorld (rw_nodes w) (rw_next w) (rw_next_ino w) p, r).

(** A FIFO makes an end for the call, and drops it when the call returns. *)
Definition fifo_read (p n : Z) : IO (PipeWorld T) (list Z) := fun w =>
  match on_pipe p (pipe_read n) w with
  | (w, Ret r) => (i_drop (PipeReadInode p) w, Ret r)
  | (w, Park) => (w, Park)
  end.
Definition fifo_write (p : Z) (buf : list Z) : IO (PipeWorld T) Z := fun w =>
  match on_pipe p (pipe_write buf) w with
  | (w, Ret r) => (i_drop (PipeWriteInode p) w, Ret r)
  | (w, Park) => (w, Park)
  end.

(* @src kernel/src/fs/ramfs.rs 62-71 RamNode::size *)
Definition ram_size (i : RamHandle) (w : RamWorld) : Z :=
  match node_at i w with Some (mkRamNode _ _ (RFile data)) => len data | _ => 0 end.

(* @src kernel/src/fs/ramfs.rs 73-98 RamNode::read_at *)
Definition ram_read (i : RamHandle) (off n : Z) : IO RamWorld (list Z) := fun w =>
  match node_at i w with
  | None => (w, Ret (Err BadFd))
  | Some node =>
    match r_body node with
    | RFile data =>
      match try_u32 off with
      | None => (w, Ret (Ok []))
      | Some start =>
        if len data <=? start then (w, Ret (Ok []))
        else
          let available := len data - start in
          (w, Ret (Ok (slice start (Z.min available n) data)))
      end
    | RDir _ => (w, Ret (Err IsADirectory))
    | RFifo p => on_pipes (fifo_read p n) w
    end
  end.

(** [data.resize(end, 0)] and [copy_from_slice]. *)
Definition ram_splice (start end_ : Z) (buf data : list Z) : list Z :=
  let data := if len data <? end_ then resize (Z.to_nat end_) 0 data else data in
  take (Z.to_nat start) data ++ buf ++ drop (Z.to_nat end_) data.

(* @src kernel/src/fs/ramfs.rs 100-124 RamNode::write_at *)
Definition ram_write (i : RamHandle) (off : Z) (buf : list Z) : IO RamWorld Z := fun w =>
  match node_at i w with
  | None => (w, Ret (Err BadFd))
  | Some node =>
    match r_body node with
    | RFile data =>
      match try_u32 off with
      | None => (w, Ret (Err InvalidArgument))
      | Some start =>
        match checked_add32 start (len buf) with
        | None => (w, Ret (Err NoMem))
        | Some end_ =>
          if (len data <? end_) && negb (try_reserve (len data) (end_ - len data)) then (w, Ret (Err NoMem))
          else let 'RamAt a := i in (set_rbody a (RFile (ram_splice start end_ buf data)) w, Ret (Ok (len buf)))
        end
      end
    | RDir _ => (w, Ret (Err IsADirectory))
    | RFifo p => on_pipes (fifo_write p buf) w
    end
  end.

(* @src kernel/src/fs/ramfs.rs 126-141 RamNode::truncate *)
Definition ram_truncate (i : RamHandle) (l : Z) : ST RamWorld unit := fun w =>
  match node_at i w with
  | None => (w, Err BadFd)
  | Some node =>
    match r_body node with
    | RFile data =>
      match try_u32 l with
      | None => (w, Err InvalidArgument)
      | Some n =>
        if (len data <? n) && negb (try_reserve (len data) (n - len data)) then (w, Err NoMem)
        else let 'RamAt a := i in (set_rbody a (RFile (resize (Z.to_nat n) 0 data)) w, Ok tt)
      end
    | RDir _ => (w, Err IsADirectory)
    | RFifo _ => (w, Ok tt)
    end
  end.

(* @src kernel/src/fs/ramfs.rs 143-156 RamNode::readdir *)
Definition ram_readdir (i : RamHandle) (index : Z) : ST RamWorld (option DirEntry) := fun w =>
  match node_at i w with
  | None => (w, Err BadFd)
  | Some node =>
    match r_body node with
    | RDir children =>
      (w, Ok (match btree_iter children !! Z.to_nat index with
              | Some (name, a) =>
                match rw_nodes w !! a with
                | Some child => Some (mkDirEntry name (r_kind child) (r_ino child))
                | None => None
                end
              | None => None
              end))
    | _ => (w, Err NotADirectory)
    end
  end.

(* @src kernel/src/fs/ramfs.rs 158-170 RamNode::lookup *)
Definition ram_lookup (i : RamHandle) (name : string) : ST RamWorld RamHandle := fun w =>
  match node_at i w with
  | None => (w, Err BadFd)
  | Some node =>
    match r_body node with
    | RDir children => (w, a ← ok_or (children !! name) NotFound; Ok (RamAt a))
    | _ => (w, Err NotADirectory)
    end
  end.

Definition node_of_kind (k : InodeKind) (w : RamWorld) : option (RamWorld * Z) :=
  match k with
  | File => Some (new_file w)
  | Dir => Some (new_dir w)
  | Fifo => Some (new_fifo w)
  | Device | Symlink => None
  end.

(* @src kernel/src/fs/ramfs.rs 172-192 RamNode::create *)
Definition ram_create (i : RamHandle) (name : string) (k : InodeKind) : ST RamWorld RamHandle := fun w =>
  match node_at i w with
  | None => (w, Err BadFd)
  | Some node =>
    match r_body node with
    | RDir children =>
      if bool_decide (is_Some (children !! name)) then (w, Err AlreadyExists)
      else
        match node_of_kind k w with
        | None => (w, Err NotSupported)
        | Some (w, a) => let 'RamAt d := i in (set_rbody d (RDir (<[name := a]> children)) w, Ok (RamAt a))
        end
    | _ => (w, Err NotADirectory)
    end
  end.

(** [vacio]: what may be unlinked. *)
Definition ram_empty (node : RamNode) : bool :=
  match r_body node with RDir sub => bool_decide (sub = ∅) | RFile _ | RFifo _ => true end.

(* @src kernel/src/fs/ramfs.rs 194-217 RamNode::unlink *)
Definition ram_unlink (i : RamHandle) (name : string) : ST RamWorld unit := fun w =>
  match node_at i w with
  | None => (w, Err BadFd)
  | Some node =>
    match r_body node with
    | RDir children =>
      match children !! name with
      | None => (w, Err NotFound)
      | Some a =>
        if negb (match rw_nodes w !! a with Some child => ram_empty child | None => true end) then (w, Err Busy)
        else let 'RamAt d := i in (set_rbody d (RDir (delete name children)) w, Ok tt)
      end
    | _ => (w, Err NotADirectory)
    end
  end.

(* @src kernel/src/fs/ramfs.rs 57-60 RamNode (impl Inode) *)
#[export] Instance ram_inode : Inode RamWorld RamHandle := {
  i_kind i w := match node_at i w with Some n => r_kind n | None => File end;
  i_size := ram_size;
  i_read_at := ram_read;
  i_write_at := ram_write;
  i_truncate := ram_truncate;
  i_readdir := ram_readdir;
  i_lookup := ram_lookup;
  i_create := ram_create;
  i_unlink := ram_unlink;
}.

#[export] Instance ram_droppable : Droppable RamWorld RamHandle := { i_drop _ w := w }.

(** [RamFs::used_bytes]: the recursion, with the depth as fuel. *)
(* @src kernel/src/fs/ramfs.rs 231-244 RamFs::used_bytes *)
Fixpoint ram_used (fuel : nat) (ns : gmap Z RamNode) (a : Z) : Z :=
  match fuel with
  | O => 0
  | S fuel =>
    match ns !! a with
    | Some (mkRamNode _ _ (RFile data)) => len data
    | Some (mkRamNode _ _ (RDir children)) =>
      foldl (fun total e => Z.min (total + ram_used fuel ns e.2) U64_MAX) 0 (btree_iter children)
    | _ => 0
    end
  end.

(* @src kernel/src/fs/ramfs.rs 261-268 RamFs (FileSystem::stat) *)
Definition ram_stat (root : Z) (w : RamWorld) : FsStat :=
  let used := ram_used (Z.to_nat (rw_next w)) (rw_nodes w) root in mkFsStat used used 1.

(* @src kernel/src/fs/ramfs.rs 225-229 RamFs::new *)
Definition ram_new (w : RamWorld) : RamWorld * FileSystem RamWorld RamHandle :=
  let '(w, root) := new_dir w in (w, mkFileSystem "ramfs" (RamAt root) (ram_stat root)).
End RamFs.
Arguments RamWorld : clear implicits.
