(* ===== verification/RamFsOps.v ===== *)
(** * RamFsOps: the theorems of the file system in memory

    RamFs keeps the laws that the VFS asks of a file system, so the theorems of
    VfsSpec.v hold of it; its directory operations on every branch; and what
    happens to a FIFO after its first read. *)

From S2P Require Import Prelude Inode Vfs Sched SchedOps Pipe PipeOps RamFs.

Open Scope Z_scope.

Section RamFsOps.
Context {T : Type} `{HT : !Tasks T, HA : !Allocator}.
Implicit Types (w : RamWorld T) (i : RamHandle).

(** ** The invariant *)

(** What the body of the node at [a] has to be. *)
Definition body_ok w (a : Z) (k : InodeKind) (b : RamBody) : Prop :=
  match b with
  | RFile data => k = File /\ len data <= 2 ^ 31 - 1
  | RDir ch => k = Dir /\ forall name c, ch !! name = Some c -> a < c /\ is_Some (rw_nodes w !! c)
  | RFifo p => k = Fifo /\ is_Some (pw_pipes (rw_pipes w) !! p)
  end.

(** Every node is well formed, and a directory only names nodes made after it, so
    there is no cycle. *)
Record ram_inv w : Prop := mkRamInv {
  ri_next : 0 <= rw_next w;
  ri_addr : forall a n, rw_nodes w !! a = Some n -> 0 <= a < rw_next w;
  ri_body : forall a n, rw_nodes w !! a = Some n -> body_ok w a (r_kind n) (r_body n);
}.

Lemma lookup_set_rbody a b w c :
  rw_nodes (set_rbody a b w) !! c = (fun n => if decide (c = a) then mkRamNode (r_ino n) (r_kind n) b else n) <$> rw_nodes w !! c.
Proof.
  unfold set_rbody, set_rnodes. cbn. destruct (decide (c = a)) as [->|Hne].
  - rewrite lookup_alter_eq. done.
  - rewrite lookup_alter_ne by done. by destruct (rw_nodes w !! c).
Qed.

Lemma set_rbody_inv a b w : ram_inv w -> (forall n, rw_nodes w !! a = Some n -> body_ok w a (r_kind n) b) -> ram_inv (set_rbody a b w).
Proof.
  intros [H1 H2 H3] Hb. split; [done| |].
  - intros c n. rewrite lookup_set_rbody. intros (n0 & H0 & _)%fmap_Some. by apply (H2 c n0).
  - assert (Hk : forall c, is_Some (rw_nodes w !! c) -> is_Some (rw_nodes (set_rbody a b w) !! c))
      by (intros c; rewrite lookup_set_rbody, fmap_is_Some; done).
    assert (Hok : forall c k b', body_ok w c k b' -> body_ok (set_rbody a b w) c k b').
    { intros c k [d|ch|p]; cbn; try done. intros [Hkd Hch]. split; [done|]. intros name x Hx. destruct (Hch name x Hx). auto. }
    intros c n. rewrite lookup_set_rbody. intros (n0 & H0 & ->)%fmap_Some. apply Hok. case_decide as Hd; cbn; [subst c|]; auto.
Qed.

(** ** Its files *)

Definition ram_content w i : option (list Z) := match node_at i w with Some (mkRamNode _ _ (RFile data)) => Some data | _ => None end.
Definition ram_entries w i : option (list DirEntry) :=
  match node_at i w with
  | Some (mkRamNode _ _ (RDir ch)) =>
    Some ((fun e : string * Z => match rw_nodes w !! e.2 with Some c => mkDirEntry e.1 (r_kind c) (r_ino c) | None => mkDirEntry e.1 File 0 end)
      <$> btree_iter ch)
  | _ => None
  end.

Lemma ram_content_node w i c : ram_content w i = Some c <-> exists ino k, node_at i w = Some (mkRamNode ino k (RFile c)).
Proof. unfold ram_content. destruct (node_at i w) as [[ino k [d|ch|p]]|]; naive_solver. Qed.

Lemma ram_content_set a b w i : ram_content (set_rbody a (RFile b) w) i =
  if decide (i = RamAt a) then match node_at i w with Some _ => Some b | None => None end else ram_content w i.
Proof.
  destruct i as [c]. unfold ram_content, node_at. rewrite lookup_set_rbody. destruct (rw_nodes w !! c) as [[ino k body]|] eqn:E; cbn.
  - destruct (decide (c = a)) as [->|Hne]; [by rewrite decide_True|]. rewrite decide_False by congruence. done.
  - by destruct (decide _).
Qed.

Lemma ram_splice_overwrite data off buf : 0 <= off -> ram_splice off (off + len buf) buf data = overwrite data off buf.
Proof.
  intros Ho. unfold ram_splice, overwrite. cbv zeta. destruct (Z.ltb_spec (len data) (off + len buf)).
  - rewrite (Nat.max_r (length data)) by lia. do 2 f_equal; [f_equal; lia|]. f_equal; [lia|]. f_equal. lia.
  - rewrite Nat.max_l, resize_all by lia. do 2 f_equal. f_equal. lia.
Qed.

(** The write on every branch. *)
Lemma ram_write_spec w i data off buf : ram_inv w -> ram_content w i = Some data -> 0 <= off ->
  exists w' r, ram_write i off buf w = (w', Ret r) /\
  match r with
  | Ok n => n = len buf /\ off + len buf <= U32_MAX /\ ram_inv w' /\ ram_content w' i = Some (overwrite data off buf) /\
      len (overwrite data off buf) <= 2 ^ 31 - 1 /\ (forall j, j <> i -> ram_content w' j = ram_content w j)
  | Err e => w' = w /\
      ((e = InvalidArgument /\ U32_MAX < off) \/
       (e = NoMem /\ off <= U32_MAX /\ (U32_MAX < off + len buf \/ try_reserve (len data) (off + len buf - len data) = false)))
  end.
Proof.
  intros Hi Hc Ho. pose proof Hc as Hc0. apply ram_content_node in Hc as (ino & k & En). unfold ram_write. rewrite En. cbn [r_body]. unfold try_u32, checked_add32.
  destruct (Z.leb_spec off U32_MAX); [|do 2 eexists; split; [done|]; split; [done|by left]].
  destruct (Z.leb_spec (off + len buf) U32_MAX); [|do 2 eexists; split; [done|]; split; [done|right]; auto].
  destruct i as [a]. destruct ((len data <? off + len buf) && negb (try_reserve (len data) (off + len buf - len data))) eqn:E.
  - apply andb_true_iff in E as [_ E%negb_true_iff]. do 2 eexists. split; [done|]. split; [done|right]; auto.
  - do 2 eexists. split; [done|]. split; [done|]. split; [done|]. rewrite ram_splice_overwrite by done.
    assert (Hl : len (overwrite data off buf) <= 2 ^ 31 - 1).
    { rewrite overwrite_length by done. destruct (ri_body _ Hi _ _ En) as [_ Hd]. apply andb_false_iff in E as [E|E]; zbool; [lia|].
      destruct (try_reserve _ _) eqn:Et; [apply try_reserve_max in Et; lia|done]. }
    split; [|split; [|split; [done|]]].
    + apply set_rbody_inv; [done|]. intros n Hn. cbn in En. rewrite En in Hn. injection Hn as <-. cbn. split; [|done].
      apply (ri_body _ Hi _ _ En).
    + rewrite ram_content_set, decide_True by done. cbn in En |- *. by rewrite En.
    + intros j Hj. by rewrite ram_content_set, decide_False.
Qed.

Lemma ram_read_spec w i data off n : ram_inv w -> ram_content w i = Some data -> 0 <= off -> 0 <= n ->
  ram_read i off n w = (w, Ret (Ok (slice off n data))).
Proof.
  intros Hi (ino & k & En)%ram_content_node Ho Hn. unfold ram_read. rewrite En. cbn [r_body]. destruct i as [a]. destruct (ri_body _ Hi _ _ En) as [_ Hd].
  assert (Hs : len data <= off -> slice off n data = []) by (intros; unfold slice; rewrite drop_ge, take_nil by lia; done).
  unfold try_u32. destruct (Z.leb_spec off U32_MAX) as [Hu|Hu]; [|unfold U32_MAX in Hu; by rewrite Hs by lia].
  destruct (Z.leb_spec (len data) off); [by rewrite Hs by lia|]. do 3 f_equal. unfold slice.
  destruct (Z.le_gt_cases n (len data - off)); [f_equal; lia|]. rewrite !take_ge by (rewrite length_drop; lia). done.
Qed.

#[export] Instance ram_file_laws : FileLaws (RamWorld T) RamHandle.
Proof.
  refine {| fl_inv := ram_inv; fl_ready := fun _ => True; fl_content := ram_content; fl_entries := ram_entries |}.
  - intros w i c Hi (ino & k & En)%ram_content_node. cbn. unfold ram_size. by rewrite En.
  - intros w i c Hi (ino & k & En)%ram_content_node. cbn. rewrite En. destruct i. by apply (ri_body _ Hi _ _ En).
  - intros w i c off n Hi Hc Ho Hn. by apply ram_read_spec.
  - intros w i c off buf Hi _ Hc Ho _ _ _. destruct (ram_write_spec w i c off buf Hi Hc Ho) as (w' & r & E & Hr). exists w', r. split; [exact E|].
    destruct r as [n|e]; [|by destruct Hr as [-> _]]. destruct Hr as (H1 & H2 & H3 & H4 & H5 & H6). auto.
  - intros w i es k Hi He Hk. cbn. unfold ram_readdir, ram_entries in *.
    destruct (node_at i w) as [[ino kd [d|ch|p]]|] eqn:En; [done| |done..]. injection He as <-. cbn [r_body]. rewrite list_lookup_fmap.
    destruct (btree_iter ch !! Z.to_nat k) as [[name c]|] eqn:Eb; cbn; [|done].
    apply list_elem_of_lookup_2, elem_of_btree_iter in Eb. destruct i as [a]. destruct (ri_body _ Hi _ _ En) as [_ Hch].
    destruct (Hch name c Eb) as [_ [x ->]]. done.
Defined.

(** Writing at an offset, with the 32-bit bounds: an offset above [usize] or an end
    that overflows it is refused with nothing changed, and so is a growth that the
    allocator denies; otherwise the bytes are stored, the gap before them reads as
    zeros, no other file changes, and the file still fits [isize]. *)
Theorem ram_write_bounds w i data off buf : ram_inv w -> ram_content w i = Some data -> 0 <= off ->
  exists w' r, i_write_at i off buf w = (w', Ret r) /\
  match r with
  | Ok n => n = len buf /\ off + len buf <= U32_MAX /\ ram_inv w' /\ ram_content w' i = Some (overwrite data off buf) /\
      len (overwrite data off buf) <= 2 ^ 31 - 1 /\ (forall j, j <> i -> ram_content w' j = ram_content w j)
  | Err e => w' = w /\
      ((e = InvalidArgument /\ U32_MAX < off) \/
       (e = NoMem /\ off <= U32_MAX /\ (U32_MAX < off + len buf \/ try_reserve (len data) (off + len buf - len data) = false)))
  end.
Proof. apply ram_write_spec. Qed.

(** ** Its directories *)

Lemma set_rbody_nodes d b w n : rw_nodes w !! d = Some n -> rw_nodes (set_rbody d b w) = <[d := mkRamNode (r_ino n) (r_kind n) b]> (rw_nodes w).
Proof.
  intros Hd. apply map_eq. intros c. rewrite lookup_set_rbody. destruct (decide (c = d)) as [->|Hne].
  - by rewrite Hd, lookup_insert_eq.
  - rewrite lookup_insert_ne by done. by destruct (rw_nodes w !! c).
Qed.

(** A node that was just made: its number, its address, its empty body. *)
Definition fresh_body w w' (k : InodeKind) (b : RamBody) : Prop :=
  match k with
  | File => b = RFile [] /\ rw_pipes w' = rw_pipes w
  | Dir => b = RDir ∅ /\ rw_pipes w' = rw_pipes w
  | Fifo => b = RFifo (pw_next (rw_pipes w)) /\ rw_pipes w' = (create_pipe 4096 (rw_pipes w)).1
  | Device | Symlink => False
  end.

Lemma fresh_addr w : ram_inv w -> rw_nodes w !! rw_next w = None.
Proof. intros Hi. destruct (rw_nodes w !! rw_next w) as [n|] eqn:E; [|done]. apply (ri_addr _ Hi) in E. lia. Qed.

Lemma node_of_kind_spec w k : ram_inv w ->
  match node_of_kind k w with
  | Some (w', a) => a = rw_next w /\ ram_inv w' /\ exists b, fresh_body w w' k b /\ rw_nodes w' = <[a := mkRamNode (rw_next_ino w) k b]> (rw_nodes w)
  | None => k = Device \/ k = Symlink
  end.
Proof.
  intros Hi. pose proof (fresh_addr w Hi) as Hf. pose proof Hi as [H1 H2 H3].
  assert (Hinv : forall b p, body_ok (mkRamWorld (<[rw_next w := mkRamNode (rw_next_ino w) k b]> (rw_nodes w)) (rw_next w + 1) (u32 (rw_next_ino w + 1)) p) (rw_next w) k b ->
    (forall q, is_Some (pw_pipes (rw_pipes w) !! q) -> is_Some (pw_pipes p !! q)) ->
    ram_inv (mkRamWorld (<[rw_next w := mkRamNode (rw_next_ino w) k b]> (rw_nodes w)) (rw_next w + 1) (u32 (rw_next_ino w + 1)) p)).
  { intros b p Hb Hp. split; cbn; [lia| |].
    - intros a n [[<- _]|[_ Ha]]%lookup_insert_Some; [lia|]. apply H2 in Ha. lia.
    - intros a n [[<- <-]|[_ Ha]]%lookup_insert_Some; [done|]. specialize (H3 a n Ha). destruct (r_body n) as [d|ch|q]; cbn in *; [done| |].
      + destruct H3 as [Hk Hch]. split; [done|]. intros name c Hc. destruct (Hch name c Hc) as [Hlt Hs]. split; [done|].
        apply lookup_insert_is_Some. destruct (decide (rw_next w = c)); [by left|by right].
      + destruct H3. auto. }
  destruct k; cbn; try (by left); try (by right).
  - split; [done|]. split; [apply Hinv; [cbn; split; [done|lia]|done]|]. by exists (RFile []).
  - split; [done|]. split; [apply Hinv; [cbn; split; [done|by intros ? ? ?%lookup_empty_Some]|done]|]. by exists (RDir ∅).
  - split; [done|]. split; [|by exists (RFifo (pw_next (rw_pipes w)))].
    apply Hinv; cbn; [split; [done|by rewrite lookup_insert_eq]|]. intros q Hq. apply lookup_insert_is_Some.
    destruct (decide (pw_next (rw_pipes w) = q)); [by left|by right].
Qed.

(** The directory operations on every branch.  A lookup answers the entry.  A
    creation in a directory that has no such name makes an empty node of the kind,
    at a fresh address and with the next number, and changes only the entry; it is
    refused, with nothing changed, for a name that exists or a kind that is not
    stored.  An unlink removes exactly the entry, and is refused for a missing name
    or a directory that is not empty. *)
Theorem ram_directory_correct w d n ch name k : ram_inv w -> rw_nodes w !! d = Some n -> r_body n = RDir ch ->
  let with_children c := mkRamNode (r_ino n) (r_kind n) (RDir c) in
  i_lookup (RamAt d) name w = (w, match ch !! name with Some a => Ok (RamAt a) | None => Err NotFound end) /\
  (let '(w', r) := i_create (RamAt d) name k w in
   match r with
   | Ok (RamAt a) => ch !! name = None /\ rw_nodes w !! a = None /\ ram_inv w' /\
       exists b, fresh_body w w' k b /\
         rw_nodes w' = <[d := with_children (<[name := a]> ch)]> (<[a := mkRamNode (rw_next_ino w) k b]> (rw_nodes w))
   | Err e => w' = w /\ ((e = AlreadyExists /\ is_Some (ch !! name)) \/ (e = NotSupported /\ (k = Device \/ k = Symlink)))
   end) /\
  (let '(w', r) := i_unlink (RamAt d) name w in
   match r with
   | Ok _ => is_Some (ch !! name) /\ ram_inv w' /\ rw_nodes w' = <[d := with_children (delete name ch)]> (rw_nodes w)
   | Err e => w' = w /\
       ((e = NotFound /\ ch !! name = None) \/
        (e = Busy /\ exists a c sub, ch !! name = Some a /\ rw_nodes w !! a = Some c /\ r_body c = RDir sub /\ sub <> ∅))
   end).
Proof.
  intros Hi Hn Hb with_children. pose proof (ri_body _ Hi _ _ Hn) as Hok. rewrite Hb in Hok. destruct Hok as [Hk Hch]. split; [|split].
  - cbn. unfold ram_lookup, node_at. rewrite Hn, Hb. by destruct (ch !! name).
  - cbn. unfold ram_create, node_at. rewrite Hn, Hb. case_bool_decide as Hex; [auto|].
    pose proof (node_of_kind_spec w k Hi) as Hs. destruct (node_of_kind k w) as [[w1 a]|]; [|auto]. destruct Hs as (-> & Hi1 & b & Hfb & Hn1).
    split; [by apply eq_None_not_Some|]. split; [by apply fresh_addr|].
    assert (Hne : d <> rw_next w) by (apply (ri_addr _ Hi) in Hn; lia).
    assert (Hd1 : rw_nodes w1 !! d = Some n) by (by rewrite Hn1, lookup_insert_ne).
    split; [|exists b; split; [by destruct k|]; rewrite (set_rbody_nodes _ _ _ _ Hd1), Hn1; done].
    apply set_rbody_inv; [done|]. rewrite Hd1. intros n0 [= <-]. cbn. split; [done|]. intros nm c Hc. rewrite Hn1.
    apply (ri_addr _ Hi) in Hn as Ha. apply lookup_insert_Some in Hc as [[<- <-]|[_ Hc]].
    + split; [lia|]. by rewrite lookup_insert_eq.
    + destruct (Hch nm c Hc) as [Hlt Hsm]. split; [done|]. apply lookup_insert_is_Some. destruct (decide (rw_next w = c)); [by left|by right].
  - cbn. unfold ram_unlink, node_at. rewrite Hn, Hb. destruct (ch !! name) as [a|] eqn:Ea; [|auto].
    destruct (Hch name a Ea) as [_ [c Hc]]. rewrite Hc. unfold ram_empty. destruct (r_body c) as [dt|sub|p] eqn:Ec; cbn [negb].
    2: case_bool_decide as Hs; cbn [negb]; [|split; [done|right; split; [done|by exists a, c, sub]]].
    all: split; [done|]; split; [|by apply set_rbody_nodes]; apply set_rbody_inv; [done|]; rewrite Hn; intros n0 [= <-]; cbn;
      split; [done|]; intros nm x [_ Hx]%lookup_delete_Some; by apply (Hch nm x).
Qed.

(** ** The space it uses *)

(** Any fuel above the addresses gives the same answer: the recursion ends. *)
Lemma ram_used_enough w : ram_inv w -> forall f1 f2 a, rw_next w - a <= Z.of_nat f1 -> rw_next w - a <= Z.of_nat f2 ->
  ram_used f1 (rw_nodes w) a = ram_used f2 (rw_nodes w) a.
Proof.
  intros Hi. induction f1 as [|f1 IH]; intros [|f2] a H1 H2; cbn; try done.
  - destruct (rw_nodes w !! a) as [n|] eqn:E; [|done]. apply (ri_addr _ Hi) in E. lia.
  - destruct (rw_nodes w !! a) as [n|] eqn:E; [|done]. apply (ri_addr _ Hi) in E. lia.
  - destruct (rw_nodes w !! a) as [[ino k [d|ch|p]]|] eqn:E; try done. destruct (ri_body _ Hi _ _ E) as [_ Hch].
    assert (Hl : forall e, e ∈ btree_iter ch -> ram_used f1 (rw_nodes w) e.2 = ram_used f2 (rw_nodes w) e.2).
    { intros [name c] Hin%elem_of_btree_iter. apply Hch in Hin as [Hlt _]. apply IH; cbn; lia. }
    revert Hl. generalize 0. induction (btree_iter ch) as [|e l IHl]; intros t Hl; cbn; [done|].
    rewrite (Hl e) by left. apply IHl. intros e' He'. apply Hl. by right.
Qed.

(** ** A FIFO after its first read *)

Definition fifo_of w i (p : Z) : Prop := exists n, node_at i w = Some n /\ r_body n = RFifo p.

(** A FIFO stops after one use of each end: the call makes an end for itself, and
    the drop of that end takes the only reader away, so that after the first read
    that returns every write is refused with [IoError]. *)
Theorem fifo_dead_after_read w i p pipe off n w' data off' buf :
  fifo_of w i p -> pw_pipes (rw_pipes w) !! p = Some pipe -> reader_count pipe = 1 ->
  i_read_at i off n w = (w', Ret (Ok data)) -> buf <> [] ->
  (i_write_at i off' buf w').2 = Ret (Err IoError).
Proof.
  intros (nd & Hn & Hb) Hp Hr. cbn. unfold ram_read, ram_write. rewrite Hn, Hb. unfold on_pipes, fifo_read, on_pipe. rewrite Hp.
  assert (Hrc : forall r ps, pipe_read n (pipe, pw_tasks (rw_pipes w)) = (ps, Ret r) -> reader_count ps.1 = 1).
  { intros r ps. unfold pipe_read, read_locked. destruct (n =? 0); [by intros [= <- _]|]. cbn [fst snd].
    destruct (negb _); [by intros [= <- _]|]. destruct (writer_count pipe =? 0); [by intros [= <- _]|done]. }
  destruct (pipe_read n _) as [[p1 t1] [r|]] eqn:E; [|done]. specialize (Hrc _ _ eq_refl). cbn in Hrc. cbn.
  unfold drop_at, on_pipe. cbn. rewrite lookup_insert_eq. intros [= <- _] Hne. cbn.
  assert (En : forall q : PipeWorld T, node_at i (mkRamWorld (rw_nodes w) (rw_next w) (rw_next_ino w) q) = Some nd) by (intros q; by destruct i).
  rewrite En, Hb. unfold on_pipes, fifo_write, on_pipe. cbn. rewrite lookup_insert_eq. unfold pipe_write. rewrite bool_decide_false by done.
  cbn [fst]. rewrite Hrc. reflexivity.
Qed.
End RamFsOps.

(** ** A small tree

    An allocator that grants up to 64 bytes, and a root with a file and a FIFO. *)

#[export] Instance small_allocator : Allocator.
Proof. refine {| try_reserve l extra := l + extra <=? 64 |}. intros l extra H%Z.leb_le. lia. Defined.

Definition no_nodes : RamWorld (SchedState (F := SmallFrame)) := mkRamWorld ∅ 0 1 (mkPipeWorld ∅ 0 (two_tasks 1 0)).
Definition small_tree : RamWorld (SchedState (F := SmallFrame)) :=
  let w := (ram_new no_nodes).1 in
  let w := (ram_create (RamAt 0) "f" File w).1 in
  (ram_create (RamAt 0) "p" Fifo w).1.

Definition root_node : RamNode := mkRamNode 1 Dir (RDir {["f"%string := 1; "p"%string := 2]}).
Lemma small_tree_nodes : rw_nodes small_tree = {[0 := root_node; 1 := mkRamNode 2 File (RFile []); 2 := mkRamNode 3 Fifo (RFifo 0)]}.
Proof. vm_compute. reflexivity. Qed.

Lemma small_tree_inv : ram_inv small_tree.
Proof.
  assert (Hn : rw_next small_tree = 3) by reflexivity. split; [by rewrite Hn| |]; intros a n; rewrite ?Hn, small_tree_nodes.
  - intros [[<- <-]|[_ [[<- <-]|[_ [<- <-]%lookup_singleton_Some]]%lookup_insert_Some]]%lookup_insert_Some; lia.
  - intros [[<- <-]|[_ [[<- <-]|[_ [<- <-]%lookup_singleton_Some]]%lookup_insert_Some]]%lookup_insert_Some; cbn.
    + split; [done|]. intros name c. rewrite small_tree_nodes.
      intros [[<- <-]|[_ [<- <-]%lookup_singleton_Some]]%lookup_insert_Some; (split; [lia|]); vm_compute; by eexists.
    + split; [done|lia].
    + split; [done|]. vm_compute. by eexists.
Qed.

Lemma ram_write_bounds_witness :
  exists w', i_write_at (RamAt 1) 2 [7; 8] small_tree = (w', Ret (Ok 2)) /\ ram_content w' (RamAt 1) = Some [0; 0; 7; 8].
Proof.
  destruct (ram_write_bounds small_tree (RamAt 1) [] 2 [7; 8] small_tree_inv ltac:(vm_compute; reflexivity) ltac:(lia)) as (w' & r & E & Hr).
  destruct r as [n|e].
  - destruct Hr as (-> & _ & _ & Hc & _). exists w'. split; [exact E|exact Hc].
  - destruct Hr as [_ [[_ H]|(_ & _ & [H|H])]]; exfalso; vm_compute in H; discriminate.
Defined.

Lemma ram_directory_correct_witness :
  i_lookup (RamAt 0) "f" small_tree = (small_tree, Ok (RamAt 1)) /\
  rw_nodes (i_unlink (RamAt 0) "f" small_tree).1 = <[0 := mkRamNode 1 Dir (RDir (delete "f"%string {["f"%string := 1; "p"%string := 2]}))]> (rw_nodes small_tree).
Proof.
  pose proof (ram_directory_correct small_tree 0 root_node {["f"%string := 1; "p"%string := 2]} "f" File small_tree_inv
    ltac:(vm_compute; reflexivity) eq_refl) as (H1 & _ & H3). split; [exact H1|].
  change (i_unlink (RamAt 0) "f" small_tree) with (ram_unlink (RamAt 0) "f" small_tree) in *.
  assert (E : (ram_unlink (RamAt 0) "f" small_tree).2 = Ok tt) by (vm_compute; reflexivity).
  destruct (ram_unlink (RamAt 0) "f" small_tree) as [w' r]. cbn in E. subst r. exact (proj2 (proj2 H3)).
Defined.

(** A reader asks for nothing at all: its call returns, and the writer is refused. *)
Lemma fifo_dead_after_read_witness :
  (i_write_at (RamAt 2) 0 [7] (i_read_at (RamAt 2) 0 0 small_tree).1).2 = Ret (Err IoError).
Proof.
  apply (fifo_dead_after_read small_tree (RamAt 2) 0 (pipe_new 4096) 0 0 _ [] 0 [7]).
  - exists (mkRamNode 3 Fifo (RFifo 0)). split; [vm_compute; reflexivity|reflexivity].
  - vm_compute. reflexivity.
  - reflexivity.
  - apply st_parts. vm_compute. reflexivity.
  - done.
Defined.
