(* ===== verification/HostKeyStore.v ===== *)
(** * HostKeyStore: the seed of the host key of the SSH server, in the flash
    (kernel/src/drivers/ssh/host_key_store.rs)

    One record with a checksum in a sector of the NVS region of its own. *)

From S2P Require Import Prelude Flash.

Open Scope Z_scope.

(* @src kernel/src/prelude.rs 78-78 layout::NVS_OFFSET *)
Definition NVS_OFFSET : Z := 0x9000.

(** [u32::rotate_left]. *)
Definition rotate_left32 (z n : Z) : Z := Z.lor (u32 (Z.shiftl z n)) (Z.shiftr z (32 - n)).

(** [rec\[off..off + n\]]. *)
Abbreviation field rec off n := (slice off n rec).

(* @src kernel/src/drivers/ssh/host_key_store.rs 12-14 MAGIC, OFFSET, RECORD_LEN *)
Definition MAGIC : list Z := [69; 83; 72; 75].
Definition OFFSET : Z := NVS_OFFSET + 0x1000.
Definition RECORD_LEN : Z := 64.

(* @src kernel/src/drivers/ssh/host_key_store.rs 16-22 checksum *)
Definition checksum (seed : list Z) : Z := foldl (fun sum b => Z.lxor (rotate_left32 sum 3) b) 0x12345678 seed.

Section Store.
Context {D : Type} `{NorFlash D}.

(* @src kernel/src/drivers/ssh/host_key_store.rs 25-38 load_seed *)
Definition load_seed (d : D) : option (list Z) :=
  match flash_read d OFFSET RECORD_LEN with
  | Err _ => None
  | Ok rec =>
    if negb (bool_decide (field rec 0 4 = MAGIC)) || negb (at_ rec 4 =? 1) then None
    else
      let seed := field rec 8 32 in
      let stored_sum := of_le (field rec 40 4) in
      if negb (checksum seed =? stored_sum) then None else Some seed
  end.

(* @src kernel/src/drivers/ssh/host_key_store.rs 42-47 save_seed (record) *)
Definition record (seed : list Z) : list Z :=
  MAGIC ++ [1; 0; 0; 0] ++ seed ++ le_bytes 4 (checksum seed) ++ replicate 20 0.

(* @src kernel/src/drivers/ssh/host_key_store.rs 41-52 save_seed *)
Definition save_seed (seed : list Z) : ST D unit := _ ← flash_erase_sector OFFSET; flash_write OFFSET (record seed).

(* @src kernel/src/drivers/ssh/host_key_store.rs 55-57 clear_seed *)
Definition clear_seed : ST D unit := flash_erase_sector OFFSET.
End Store.
