(* ===== verification/WifiStore.v ===== *)
(** * WifiStore: the credentials of the wireless network, in the flash
    (kernel/src/drivers/wifi_store.rs)

    One record of fixed fields in the first sector of the NVS region. *)

From S2P Require Import Prelude Flash HostKeyStore.

Open Scope Z_scope.

(* @src kernel/src/drivers/wifi_store.rs 23-29 MAGIC, OFFSET, RECORD_LEN, SSID_OFF, SSID_MAX, PASS_OFF, PASS_MAX *)
Definition MAGIC : list Z := [69; 87; 67; 49].
Definition OFFSET : Z := NVS_OFFSET.
Definition RECORD_LEN : Z := 128.
Definition SSID_OFF : Z := 8.
Definition SSID_MAX : Z := 32.
Definition PASS_OFF : Z := 40.
Definition PASS_MAX : Z := 64.

Definition pad (n : Z) (l : list Z) : list Z := l ++ replicate (Z.to_nat (n - len l)) 0.
(* @src kernel/src/drivers/wifi_store.rs 38-43 save (record) *)
Definition record (sb pb : list Z) : list Z :=
  MAGIC ++ [len sb; len pb; 0; 0] ++ pad SSID_MAX sb ++ pad PASS_MAX pb ++ replicate 24 0.

Section Store.
Context {D : Type} `{NorFlash D}.

(* @src kernel/src/drivers/wifi_store.rs 32-47 save *)
Definition save (ssid password : string) : ST D unit :=
  let sb := as_bytes ssid in
  let pb := as_bytes password in
  if (SSID_MAX <? len sb) || (PASS_MAX <? len pb) then fail InvalidArgument
  else _ ← flash_erase_sector OFFSET; flash_write OFFSET (record sb pb).

(* @src kernel/src/drivers/wifi_store.rs 50-64 load *)
Definition load (d : D) : option (string * string) :=
  match flash_read d OFFSET RECORD_LEN with
  | Err _ => None
  | Ok rec =>
    if negb (bool_decide (field rec 0 4 = MAGIC)) then None
    else
      let sl := at_ rec 4 in
      let pl := at_ rec 5 in
      if (SSID_MAX <? sl) || (PASS_MAX <? pl) then None
      else
        ssid ← from_utf8 (field rec SSID_OFF sl);
        pass ← from_utf8 (field rec PASS_OFF pl);
        Some (ssid, pass)
  end.

(* @src kernel/src/drivers/wifi_store.rs 67-69 clear *)
Definition clear : ST D unit := flash_erase_sector OFFSET.
End Store.
