(* ===== verification/NvsOps.v ===== *)
(** * NvsOps: the records of the NVS region

    A saved record is what is loaded back, a save of one never touches the other, and a
    seed with a damaged byte is refused, so that a new key is made. *)

From S2P Require Import Prelude Flash Wire HostKeyStore WifiStore.

Open Scope Z_scope.

(** ** The checksum of the seed *)

Lemma rotate_left32_3 z : 0 <= z < 2 ^ 32 -> rotate_left32 z 3 = z / 2 ^ 29 + z mod 2 ^ 29 * 2 ^ 3.
Proof.
  intros Hz. unfold rotate_left32, u32. rewrite Z.shiftl_mul_pow2, Z.shiftr_div_pow2 by lia. change (32 - 3) with 29.
  replace (z * 2 ^ 3 mod 2 ^ 32) with (Z.shiftl (z mod 2 ^ 29) 3).
  - rewrite Z.lor_comm, lor_shift_add; [done|lia|]. Z.div_mod_to_equations; lia.
  - rewrite Z.shiftl_mul_pow2 by lia. Z.div_mod_to_equations; lia.
Qed.

(** One byte of the checksum: a bijection of the sum for each byte, and of the byte for each sum. *)
Definition sum_step (sum b : Z) : Z := Z.lxor (rotate_left32 sum 3) b.

Lemma sum_step_u32 s b : 0 <= s < 2 ^ 32 -> is_byte b -> 0 <= sum_step s b < 2 ^ 32.
Proof.
  unfold is_byte. intros Hs Hb. apply lxor_u32; unfold is_u32; [|lia]. rewrite rotate_left32_3 by done. Z.div_mod_to_equations; lia.
Qed.
Lemma sum_step_inj s s' b : 0 <= s < 2 ^ 32 -> 0 <= s' < 2 ^ 32 -> sum_step s b = sum_step s' b -> s = s'.
Proof. intros Hs Hs' E%lxor_cancel_r. rewrite !rotate_left32_3 in E by done. Z.div_mod_to_equations; lia. Qed.
Lemma sum_step_byte s b b' : sum_step s b = sum_step s b' -> b = b'.
Proof. apply lxor_cancel_l. Qed.

Lemma foldl_sum_u32 l : bytes_ok l -> forall s, 0 <= s < 2 ^ 32 -> 0 <= foldl sum_step s l < 2 ^ 32.
Proof. induction 1 as [|b l Hb Hl IH]; intros s Hs; cbn [foldl]; [done|]. by apply IH, sum_step_u32. Qed.
Lemma foldl_sum_inj l : bytes_ok l -> forall s s', 0 <= s < 2 ^ 32 -> 0 <= s' < 2 ^ 32 -> foldl sum_step s l = foldl sum_step s' l -> s = s'.
Proof.
  induction 1 as [|b l Hb Hl IH]; intros s s' Hs Hs' E; cbn [foldl] in *; [done|].
  apply IH in E; [by apply sum_step_inj in E|by apply sum_step_u32..].
Qed.

Lemma checksum_u32 seed : bytes_ok seed -> 0 <= HostKeyStore.checksum seed < 2 ^ 32.
Proof. intros Hs. apply (foldl_sum_u32 seed Hs). lia. Qed.

(** One byte changed changes the sum. *)
Lemma checksum_byte pre b b' post : bytes_ok pre -> is_byte b -> is_byte b' -> bytes_ok post ->
  HostKeyStore.checksum (pre ++ b :: post) = HostKeyStore.checksum (pre ++ b' :: post) -> b = b'.
Proof.
  intros Hpre Hb Hb' Hpost. unfold HostKeyStore.checksum. change (fun sum b => Z.lxor (rotate_left32 sum 3) b) with sum_step.
  rewrite !foldl_app. cbn [foldl]. assert (Hs : 0 <= foldl sum_step 0x12345678 pre < 2 ^ 32) by (apply foldl_sum_u32; [done|lia]).
  intros E. apply (foldl_sum_inj post Hpost) in E; [by apply sum_step_byte in E|by apply sum_step_u32..].
Qed.

(** ** What is stored *)

Section NvsOps.
Context {D : Type} `{HL : NorFlashLaws D}.
Implicit Types d : D.

(** A sector erased and a record written at its start: on success it holds the record,
    and whatever the outcome nothing changes outside it. *)
Lemma put_record off rec d d' r :
  0 <= off -> off mod 4096 = 0 -> off + 4096 <= FLASH_SIZE -> len rec <= 4096 ->
  (_ ← flash_erase_sector off; flash_write off rec) d = (d', r) ->
  (forall a, ~ (off <= a < off + 4096) -> nor_cell d' a = nor_cell d a) /\
  (r = Ok tt -> bytes_ok rec -> cells d' off (len rec) = rec).
Proof.
  intros Ho Hm He Hl. unfold mbind, ST_bind. unfold FLASH_SIZE in He.
  assert (Hb : off / 4096 * 4096 = off) by (pose proof (Z.div_mod off 4096); lia).
  destruct (flash_erase_sector off d) as [d1 [[]|e]] eqn:E1.
  - intros E2. split.
    + intros a Ha. rewrite (flash_write_frame _ _ _ _ _ _ E2) by lia. apply (flash_erase_frame off d d1 _ a ltac:(lia) E1). by rewrite Hb.
    + intros -> Hok. apply flash_erase_Ok in E1 as [E1 _]; [|lia|done]. apply flash_write_Ok in E2; [apply E2|done|].
      eapply erased_mono; [exact E1|lia|lia].
  - intros [= <- <-]. split; [|done]. intros a Ha. apply (flash_erase_frame off d d1 _ a ltac:(lia) E1). by rewrite Hb.
Qed.

(** The fields of a seed's record. *)
Lemma load_record seed sum d : reads_ok d -> len seed = 32 -> 0 <= sum < 2 ^ 32 ->
  cells d HostKeyStore.OFFSET 64 = HostKeyStore.MAGIC ++ [1; 0; 0; 0] ++ seed ++ le_bytes 4 sum ++ replicate 20 0 ->
  HostKeyStore.load_seed d = if HostKeyStore.checksum seed =? sum then Some seed else None.
Proof.
  intros Hr Hl Hs E. unfold HostKeyStore.load_seed. rewrite flash_read_total by done. change HostKeyStore.RECORD_LEN with 64. rewrite E.
  assert (E8 : field (HostKeyStore.MAGIC ++ [1; 0; 0; 0] ++ seed ++ le_bytes 4 sum ++ replicate 20 0) 8 32 = seed).
  { unfold slice. rewrite app_assoc, drop_app_length' by done. by rewrite take_app_length' by lia. }
  assert (E40 : field (HostKeyStore.MAGIC ++ [1; 0; 0; 0] ++ seed ++ le_bytes 4 sum ++ replicate 20 0) 40 4 = le_bytes 4 sum).
  { unfold slice. rewrite !app_assoc, <- (app_assoc _ (le_bytes 4 sum)), drop_app_length' by (rewrite length_app; cbn [length app HostKeyStore.MAGIC]; lia).
    by rewrite take_app_length' by (by rewrite le_bytes_length). }
  rewrite E8, E40, of_le_le_bytes by done. cbn [negb orb HostKeyStore.MAGIC app].
  change (negb (bool_decide (field (69 :: 83 :: 72 :: 75 :: 1 :: 0 :: 0 :: 0 :: seed ++ le_bytes 4 sum ++ replicate 20 0) 0 4 = HostKeyStore.MAGIC))
    || negb (at_ (69 :: 83 :: 72 :: 75 :: 1 :: 0 :: 0 :: 0 :: seed ++ le_bytes 4 sum ++ replicate 20 0) 4 =? 1)) with false.
  by destruct (_ =? _).
Qed.

Lemma record_cells seed d : bytes_ok seed -> len seed = 32 -> len (HostKeyStore.record seed) = 64 /\ bytes_ok (HostKeyStore.record seed).
Proof.
  intros Hs Hl. unfold HostKeyStore.record, HostKeyStore.MAGIC. split; [rewrite !length_app, length_replicate, le_bytes_length; cbn [length]; lia|].
  unfold bytes_ok in *. rewrite !Forall_app. split_and!; [repeat constructor; lia..|done|apply le_bytes_ok|].
  apply Forall_replicate. unfold is_byte. lia.
Qed.

(** The loads look at their own sector only. *)
Lemma load_seed_ext d d' : reads_ok d -> reads_ok d' -> (forall a, 0xA000 <= a < 0xB000 -> nor_cell d' a = nor_cell d a) ->
  HostKeyStore.load_seed d' = HostKeyStore.load_seed d.
Proof.
  intros Hr Hr' He. unfold HostKeyStore.load_seed. rewrite !flash_read_total by done. rewrite (cells_ext d' d); [done|].
  intros a Ha. apply He. unfold HostKeyStore.OFFSET, HostKeyStore.RECORD_LEN, NVS_OFFSET in Ha. lia.
Qed.
Lemma load_wifi_ext d d' : reads_ok d -> reads_ok d' -> (forall a, 0x9000 <= a < 0xA000 -> nor_cell d' a = nor_cell d a) ->
  WifiStore.load d' = WifiStore.load d.
Proof.
  intros Hr Hr' He. unfold WifiStore.load. rewrite !flash_read_total by done. rewrite (cells_ext d' d); [done|].
  intros a Ha. apply He. unfold WifiStore.OFFSET, WifiStore.RECORD_LEN, NVS_OFFSET in Ha. lia.
Qed.

Lemma cells_insert d d2 off n i : 0 <= i < n -> (forall a, a <> off + i -> nor_cell d2 a = nor_cell d a) ->
  cells d2 off n = <[Z.to_nat i := nor_cell d2 (off + i)]> (cells d off n).
Proof.
  intros Hi Hs. apply list_eq. intros k. unfold cells. destruct (decide (k = Z.to_nat i)) as [->|Hk].
  - rewrite list_lookup_insert_eq by (rewrite length_fmap, length_seqZ; lia). rewrite list_lookup_fmap, lookup_seqZ_lt by lia. cbn. do 2 f_equal. lia.
  - rewrite list_lookup_insert_ne by done. rewrite !list_lookup_fmap. destruct (decide (k < Z.to_nat n)%nat).
    + rewrite !lookup_seqZ_lt by lia. cbn. f_equal. apply Hs. lia.
    + by rewrite !lookup_seqZ_ge by lia.
Qed.

(** C39. The seed of the host key survives a restart: what [save_seed] stored is what
    [load_seed] gives; whether or not the save succeeds, the credentials of the network
    and everything else outside its sector stay as they were.  A record whose seed has
    one damaged byte is refused. *)
Theorem seed_roundtrip seed d d' r :
  reads_ok d -> reads_ok d' -> bytes_ok seed -> len seed = 32 -> HostKeyStore.save_seed seed d = (d', r) ->
  (r = Ok tt -> HostKeyStore.load_seed d' = Some seed /\
     forall d2 i, reads_ok d2 -> 0 <= i < 32 -> (forall a, a <> 0xA008 + i -> nor_cell d2 a = nor_cell d' a) ->
       nor_cell d2 (0xA008 + i) <> nor_cell d' (0xA008 + i) -> HostKeyStore.load_seed d2 = None) /\
  WifiStore.load d' = WifiStore.load d /\ (forall a, ~ (0xA000 <= a < 0xB000) -> nor_cell d' a = nor_cell d a).
Proof.
  intros Hr Hr' Hok Hl E. destruct (record_cells seed d Hok Hl) as [Rl Rok].
  destruct (put_record HostKeyStore.OFFSET (HostKeyStore.record seed) d d' r) as [Hf Hw]; [done|done|done|lia|exact E|].
  assert (Hframe : forall a, ~ (0xA000 <= a < 0xB000) -> nor_cell d' a = nor_cell d a)
    by (intros a Ha; apply Hf; unfold HostKeyStore.OFFSET, NVS_OFFSET; lia).
  split; [|split; [apply load_wifi_ext; [done|done|intros a Ha; apply Hframe; lia]|done]].
  intros ->. specialize (Hw eq_refl Rok). rewrite Rl in Hw. pose proof (checksum_u32 seed Hok) as Hsum. split.
  { rewrite (load_record seed (HostKeyStore.checksum seed)) by done. by rewrite Z.eqb_refl. }
  intros d2 i Hr2 Hi Hsame Hdiff. set (j := Z.to_nat i). set (b2 := nor_cell d2 (0xA008 + i)).
  assert (Hc : cells d2 HostKeyStore.OFFSET 64 = HostKeyStore.MAGIC ++ [1; 0; 0; 0] ++ <[j := b2]> seed ++ le_bytes 4 (HostKeyStore.checksum seed) ++ replicate 20 0).
  { rewrite (cells_insert d' d2 HostKeyStore.OFFSET 64 (8 + i)); [|lia|intros a Ha; apply Hsame; unfold HostKeyStore.OFFSET, NVS_OFFSET in Ha; lia].
    rewrite Hw. unfold HostKeyStore.record. replace (Z.to_nat (8 + i)) with (8 + j)%nat by lia.
    change (<[(8 + j)%nat := nor_cell d2 (HostKeyStore.OFFSET + (8 + i))]> (HostKeyStore.MAGIC ++ [1; 0; 0; 0] ++ ?x)) with (HostKeyStore.MAGIC ++ [1; 0; 0; 0] ++ <[j := nor_cell d2 (HostKeyStore.OFFSET + (8 + i))]> x).
    rewrite insert_app_l by lia. unfold b2. do 4 f_equal. unfold HostKeyStore.OFFSET, NVS_OFFSET. f_equal. lia. }
  rewrite (load_record (<[j := b2]> seed) (HostKeyStore.checksum seed) d2 Hr2 ltac:(by rewrite length_insert) Hsum Hc).
  destruct (Z.eqb_spec (HostKeyStore.checksum (<[j := b2]> seed)) (HostKeyStore.checksum seed)) as [Es|]; [exfalso|done].
  destruct (lookup_lt_is_Some_2 seed j ltac:(lia)) as [b Hb]. rewrite <- (take_drop_middle _ _ _ Hb) in Es at 2.
  rewrite insert_take_drop in Es by lia. pose proof (Forall_lookup_1 _ _ _ _ Hok Hb) as Hbb.
  apply checksum_byte in Es; [|by apply Forall_take|apply nor_cell_byte|done|by apply Forall_drop].
  apply Hdiff. fold b2. rewrite Es. symmetry.
  assert (E8 : at_ (HostKeyStore.record seed) (8 + i) = b).
  { unfold at_. replace (Z.to_nat (8 + i)) with (8 + j)%nat by lia. unfold HostKeyStore.record. change (lookup (8 + j)%nat (HostKeyStore.MAGIC ++ [1; 0; 0; 0] ++ ?x)) with (lookup j x).
    rewrite lookup_app_l by lia. by rewrite Hb. }
  rewrite <- E8, <- Hw, cells_at by lia. f_equal. unfold HostKeyStore.OFFSET, NVS_OFFSET. lia.
Qed.

Lemma pad_len n l : len l <= n -> len (WifiStore.pad n l) = n.
Proof. intros Hl. unfold WifiStore.pad. rewrite length_app, length_replicate. lia. Qed.
Lemma pad_take n l : take (length l) (WifiStore.pad n l) = l.
Proof. apply take_app_length. Qed.

Lemma wifi_fields sb pb : len sb <= 32 -> len pb <= 64 ->
  len (WifiStore.record sb pb) = 128 /\ field (WifiStore.record sb pb) 8 (len sb) = sb /\ field (WifiStore.record sb pb) 40 (len pb) = pb.
Proof.
  intros Hs Hp. pose proof (pad_len 32 sb Hs) as Ls. pose proof (pad_len 64 pb Hp) as Lp. unfold WifiStore.record, WifiStore.SSID_MAX, WifiStore.PASS_MAX.
  set (S := WifiStore.pad 32 sb) in *. set (P := WifiStore.pad 64 pb) in *.
  split; [rewrite !length_app, length_replicate; cbn [length WifiStore.MAGIC]; lia|]. unfold slice. split.
  - rewrite app_assoc, drop_app_length' by done. rewrite take_app_le by lia. rewrite Nat2Z.id. apply pad_take.
  - rewrite !app_assoc, <- (app_assoc _ P), drop_app_length' by (rewrite length_app; cbn [length app WifiStore.MAGIC]; lia).
    rewrite take_app_le by lia. rewrite Nat2Z.id. apply pad_take.
Qed.

Lemma wifi_record_ok sb pb : bytes_ok sb -> bytes_ok pb -> len sb <= 32 -> len pb <= 64 -> bytes_ok (WifiStore.record sb pb).
Proof.
  intros Hs Hp Ls Lp. unfold WifiStore.record, WifiStore.pad, WifiStore.MAGIC, bytes_ok in *. rewrite !Forall_app.
  split_and!; try done; try (apply Forall_replicate; unfold is_byte; lia); repeat constructor; lia.
Qed.

(** The credentials of the network survive a restart: what [save] stored is what
    [load] gives, text for text; what is too long for the record is refused without
    touching the flash; and the seed of the host key stays as it was in every case. *)
Theorem wifi_roundtrip ssid password d d' r :
  reads_ok d -> reads_ok d' -> is_str ssid -> is_str password -> WifiStore.save ssid password d = (d', r) ->
  (r = Ok tt -> WifiStore.load d' = Some (ssid, password)) /\
  (32 < str_len ssid \/ 64 < str_len password -> r = Err InvalidArgument /\ d' = d) /\
  HostKeyStore.load_seed d' = HostKeyStore.load_seed d.
Proof.
  intros Hr Hr' Hs Hp. unfold WifiStore.save. cbn zeta. fold (str_len ssid) (str_len password).
  change WifiStore.SSID_MAX with 32. change WifiStore.PASS_MAX with 64.
  destruct (_ || _) eqn:E; [intros [= <- <-]; split; [done|]; by split|]. apply orb_false_iff in E as [E1%Z.ltb_ge E2%Z.ltb_ge].
  destruct (wifi_fields (as_bytes ssid) (as_bytes password) E1 E2) as (F1 & F2 & F3). intros E.
  destruct (put_record WifiStore.OFFSET (WifiStore.record (as_bytes ssid) (as_bytes password)) d d' r) as [Hf Hw]; [done|done|done|lia|exact E|].
  split; [|split; [lia|apply load_seed_ext; [done|done|intros a Ha; apply Hf; unfold WifiStore.OFFSET, NVS_OFFSET; lia]]].
  intros ->. specialize (Hw eq_refl (wifi_record_ok _ _ (as_bytes_ok _) (as_bytes_ok _) E1 E2)). rewrite F1 in Hw.
  unfold WifiStore.load. rewrite flash_read_total by done. change WifiStore.RECORD_LEN with 128. rewrite Hw.
  change (at_ (WifiStore.record (as_bytes ssid) (as_bytes password)) 4) with (str_len ssid).
  change (at_ (WifiStore.record (as_bytes ssid) (as_bytes password)) 5) with (str_len password).
  change (negb (bool_decide (field (WifiStore.record (as_bytes ssid) (as_bytes password)) 0 4 = WifiStore.MAGIC))) with false. cbn zeta.
  change WifiStore.SSID_MAX with 32. change WifiStore.PASS_MAX with 64. change WifiStore.SSID_OFF with 8. change WifiStore.PASS_OFF with 40.
  rewrite (proj2 (Z.ltb_ge 32 _)), (proj2 (Z.ltb_ge 64 _)) by done. cbn [orb].
  unfold str_len at 1 2. rewrite F2, F3, !from_utf8_as_bytes by done. done.
Qed.
End NvsOps.

(** ** Witnesses *)

Definition blank_nvs : nor_mem := fun _ => 0.
Definition test_seed : list Z := Z.of_nat <$> seq 1 32.
Definition seeded : nor_mem := (HostKeyStore.save_seed test_seed blank_nvs).1.

Lemma seed_roundtrip_witness :
  HostKeyStore.load_seed seeded = Some test_seed /\
  HostKeyStore.load_seed (fun a => if a =? 0xA008 + 5 then 77 else seeded a) = None.
Proof.
  destruct (seed_roundtrip test_seed blank_nvs seeded (Ok tt) (dev_reads _) (dev_reads _)) as [H _].
  - unfold bytes_ok, is_byte, test_seed. repeat constructor; lia.
  - reflexivity.
  - reflexivity.
  - destruct (H eq_refl) as [H1 H2]. split; [exact H1|]. apply (H2 _ 5); [apply dev_reads|lia| |vm_compute; discriminate].
    intros a Ha. cbn. destruct (Z.eqb_spec a (0xA008 + 5)); [contradiction|reflexivity].
Defined.

Lemma wifi_roundtrip_witness :
  WifiStore.load (WifiStore.save "home" "secret" seeded).1 = Some ("home"%string, "secret"%string) /\
  HostKeyStore.load_seed (WifiStore.save "home" "secret" seeded).1 = HostKeyStore.load_seed seeded.
Proof.
  destruct (wifi_roundtrip "home" "secret" seeded (WifiStore.save "home" "secret" seeded).1 (Ok tt) (dev_reads _) (dev_reads _)) as (H1 & _ & H2);
    [vm_compute; reflexivity|vm_compute; reflexivity|reflexivity|]. split; [exact (H1 eq_refl)|exact H2].
Defined.
