(* ===== verification/Session.v ===== *)
(** * Session: terminal channels (kernel/src/session.rs, the console of drivers/uart.rs)

    A session is a channel: the serial console, or an SSH channel with a ring in each
    direction.  [SessionChannel::write] turns a newline into CR LF.  The channels live
    in a heap ([Arc<SessionChannel>] is an address); the table [SESSIONS] maps the ids
    to them, and a console inode holds its channel itself. *)

From S2P Require Import Prelude Inode.

Open Scope Z_scope.

(** ** The serial console

    The bytes given to [esp_println] so far and the bytes in the receive FIFO. *)
Record Uart := mkUart { u_out : list Z; u_in : list Z }.

(** [b as char], in UTF-8. *)
Definition latin1 (b : Z) : list Z := if b <? 0x80 then [b] else [0xC0 + b / 64; 0x80 + b mod 64].

(* @src kernel/src/drivers/uart.rs 161-171 write *)
Definition uart_write (buf : list Z) (u : Uart) : Uart * Z :=
  (mkUart (u_out u ++ (if utf8_valid buf then buf else mjoin (latin1 <$> buf))) (u_in u), len buf).

(** [read_at] of a FIFO that has given all it had. *)
(* @src kernel/src/drivers/uart.rs 183-197 read *)
Definition uart_read (n : Z) (u : Uart) : Uart * list Z :=
  (mkUart (u_out u) (drop (Z.to_nat n) (u_in u)), take (Z.to_nat n) (u_in u)).

(** ** Channels *)

(* @src kernel/src/session.rs 15-15 RING_CAP *)
Definition RING_CAP : Z := 16 * 1024.
(* @src kernel/src/session.rs 13-13 UART_SESSION *)
Definition UART_SESSION : Z := 0.

(* @src kernel/src/session.rs 17-27 ChannelKind *)
Inductive ChannelKind : Type := UartChannel | SshChannel (channel_id : Z).

(* @src kernel/src/session.rs 29-45 SessionChannel *)
Record SessionChannel := mkChannel {
  sc_id : Z; sc_kind : ChannelKind; sc_user : option string;
  to_session : list Z; from_session : list Z; sc_open : bool;
}.

Definition set_rings (t f : list Z) (c : SessionChannel) : SessionChannel := mkChannel (sc_id c) (sc_kind c) (sc_user c) t f (sc_open c).

(* @src kernel/src/session.rs 52-56 SessionChannel::close *)
Definition chan_close (c : SessionChannel) : SessionChannel := mkChannel (sc_id c) (sc_kind c) (sc_user c) [] [] false.

(** The pairs (body, ends with a newline) of [split_inclusive]. *)
(* @src kernel/src/session.rs 177-183 onlcr_chunks *)
Fixpoint onlcr_chunks (buf : list Z) : list (list Z * bool) :=
  match buf with
  | [] => []
  | b :: rest =>
    if b =? 10 then ([], true) :: onlcr_chunks rest
    else match onlcr_chunks rest with
         | [] => [([b], false)]
         | (body, nl) :: cs => (b :: body, nl) :: cs
         end
  end.

(** The loop over the chunks of the console: every chunk is written. *)
(* @src kernel/src/session.rs 87-94 SessionChannel::write (console loop) *)
Fixpoint uart_chunks (cs : list (list Z * bool)) (u : Uart) : Uart :=
  match cs with
  | [] => u
  | (body, nl) :: cs =>
    let u := if bool_decide (body = []) then u else (uart_write body u).1 in
    let u := if nl : bool then (uart_write [13; 10] u).1 else u in
    uart_chunks cs u
  end.

(** The loop over the chunks of a ring: it stops at the first byte that has no room,
    and a CR LF goes in whole or not at all. *)
(* @src kernel/src/session.rs 99-117 SessionChannel::write (ring loop) *)
Fixpoint ring_chunks (cs : list (list Z * bool)) (ring : list Z) (taken : Z) : list Z * Z :=
  match cs with
  | [] => (ring, taken)
  | (body, nl) :: cs =>
    let n := Z.min (saturating_sub RING_CAP (len ring)) (len body) in
    let ring := ring ++ take (Z.to_nat n) body in
    let taken := taken + n in
    if n <? len body then (ring, taken)
    else if nl : bool then
      if saturating_sub RING_CAP (len ring) <? 2 then (ring, taken)
      else ring_chunks cs (ring ++ [13; 10]) (taken + 1)
    else ring_chunks cs ring taken
  end.

(* @src kernel/src/session.rs 72-124 SessionChannel::write *)
Definition chan_write (buf : list Z) : ST (SessionChannel * Uart) Z := fun '(c, u) =>
  if negb (sc_open c) then ((c, u), Err IoError)
  else if bool_decide (buf = []) then ((c, u), Ok 0)
  else
    match sc_kind c with
    | UartChannel => ((c, uart_chunks (onlcr_chunks buf) u), Ok (len buf))
    | SshChannel _ =>
      let '(ring, taken) := ring_chunks (onlcr_chunks buf) (from_session c) 0 in
      ((set_rings (to_session c) ring c, u), if taken =? 0 then Err WouldBlock else Ok taken)
    end.

(** [pop] and [push]: from the front, at the back within the capacity. *)
(* @src kernel/src/session.rs 192-202 pop *)
Definition ring_pop (n : Z) (ring : list Z) : list Z * list Z :=
  let k := Z.to_nat (Z.min n (len ring)) in (drop k ring, take k ring).
(* @src kernel/src/session.rs 185-190 push *)
Definition ring_push (data ring : list Z) : list Z * Z :=
  let n := Z.min (saturating_sub RING_CAP (len ring)) (len data) in (ring ++ take (Z.to_nat n) data, n).

(* @src kernel/src/session.rs 129-144 SessionChannel::read *)
Definition chan_read (n : Z) : ST (SessionChannel * Uart) (list Z) := fun '(c, u) =>
  if negb (sc_open c) then ((c, u), Ok [])
  else if n =? 0 then ((c, u), Ok [])
  else
    let '(c, u, got) :=
      match sc_kind c with
      | UartChannel => let '(u, got) := uart_read n u in (c, u, got)
      | SshChannel _ => let '(ring, got) := ring_pop n (to_session c) in (set_rings ring (from_session c) c, u, got)
      end in
    ((c, u), if len got =? 0 then Err WouldBlock else Ok got).

(* @src kernel/src/session.rs 147-152 SessionChannel::push_input *)
Definition push_input (data : list Z) (c : SessionChannel) : SessionChannel * Z :=
  if negb (sc_open c) then (c, 0)
  else let '(ring, n) := ring_push data (to_session c) in (set_rings ring (from_session c) c, n).

(* @src kernel/src/session.rs 155-166 SessionChannel::take_output *)
Definition take_output (max : Z) (c : SessionChannel) : SessionChannel * list Z :=
  let '(ring, out) := ring_pop max (from_session c) in (set_rings (to_session c) ring c, out).

(* @src kernel/src/session.rs 168-170 SessionChannel::has_output *)
Definition has_output (c : SessionChannel) : bool := negb (bool_decide (from_session c = [])).

(** ** The table of sessions *)

(** The heap of the channels, [SESSIONS], the next address, [NEXT_ID], the console. *)
Record Sessions := mkSessions {
  ss_heap : gmap Z SessionChannel; ss_table : gmap Z Z; ss_addr : Z; ss_next_id : Z; ss_uart : Uart;
}.

(* @src kernel/src/session.rs 208-223 create *)
Definition session_create (kind : ChannelKind) (user : option string) (s : Sessions) : Sessions * Z :=
  let '(id, next) := match kind with
                     | UartChannel => (UART_SESSION, ss_next_id s)
                     | SshChannel _ => (ss_next_id s, u32 (ss_next_id s + 1))
                     end in
  let a := ss_addr s in
  (mkSessions (<[a := mkChannel id kind user [] [] true]> (ss_heap s)) (<[id := a]> (ss_table s)) (a + 1) next (ss_uart s), a).

(* @src kernel/src/session.rs 225-227 get *)
Definition session_get (id : Z) (s : Sessions) : option Z := ss_table s !! id.

(** Closes the channel at [a]: whoever holds it sees it closed. *)
(* @src kernel/src/session.rs 229-236 destroy *)
Definition session_destroy (id : Z) (s : Sessions) : Sessions :=
  match ss_table s !! id with
  | Some a => mkSessions (alter chan_close a (ss_heap s)) (delete id (ss_table s)) (ss_addr s) (ss_next_id s) (ss_uart s)
  | None => s
  end.

(** In the order of the ids. *)
(* @src kernel/src/session.rs 238-250 list_sessions *)
Definition list_sessions (s : Sessions) : list (Z * string * string * bool) :=
  omap (fun e : Z * Z =>
    c ← ss_heap s !! e.2;
    Some (e.1, default "console"%string (sc_user c),
      match sc_kind c with UartChannel => "tty0"%string | SshChannel _ => "pts/0"%string end, sc_open c))
    (sort_by_key fst (map_to_list (ss_table s))).

(** ** A console as an inode *)

(* @src kernel/src/session.rs 258-270 SessionConsole *)
Inductive SessionConsole : Type := Console (a : Z).
#[export] Instance SessionConsole_eq_dec : EqDecision SessionConsole.
Proof. solve_decision. Defined.

(** Runs an operation on the channel at [a], which the inode keeps alive. *)
Definition on_channel {A} (a : Z) (m : ST (SessionChannel * Uart) A) : ST Sessions A := fun s =>
  match ss_heap s !! a with
  | Some c =>
    let '((c, u), r) := m (c, ss_uart s) in (mkSessions (<[a := c]> (ss_heap s)) (ss_table s) (ss_addr s) (ss_next_id s) u, r)
  | None => (s, Err BadFd)
  end.

(* @src kernel/src/session.rs 272-291 SessionConsole (impl Inode) *)
#[export] Instance console_inode : Inode Sessions SessionConsole := {
  i_kind _ _ := Device;
  i_size _ _ := 0;
  i_read_at '(Console a) _ n := io (on_channel a (chan_read n));
  i_write_at '(Console a) _ buf := io (on_channel a (chan_write buf));
  i_truncate _ l := default_truncate l;
  i_readdir _ i := default_readdir i;
  i_lookup _ name := default_lookup name;
  i_create _ name k := default_create name k;
  i_unlink _ name := default_unlink name;
}.
