(* ===== verification/SessionOps.v ===== *)
(** * SessionOps: the theorems of the terminal channels

    What a ring takes of a write is a prefix, each newline turned into CR LF and none
    torn; a writer that repeats what was not taken gets all of it onto the wire, in
    order; a channel that was destroyed answers so to whoever still holds it. *)

From S2P Require Import Prelude Inode Session.

Open Scope Z_scope.

(** ** The terminal's newlines *)

(** What a terminal sends for [buf]. *)
Definition crlf (b : Z) : list Z := if b =? 10 then [13; 10] else [b].
Definition onlcr (buf : list Z) : list Z := mjoin (crlf <$> buf).
#[local] Arguments onlcr : simpl never.

Lemma onlcr_app a b : onlcr (a ++ b) = onlcr a ++ onlcr b.
Proof. unfold onlcr. by rewrite fmap_app, join_app. Qed.

Lemma onlcr_plain a : ~ (10 ∈ a) -> onlcr a = a.
Proof.
  induction a as [|b a IH]; [done|]. rewrite not_elem_of_cons. intros [Hb Ha]. change (onlcr (b :: a)) with (crlf b ++ onlcr a).
  rewrite IH by done. unfold crlf. by destruct (Z.eqb_spec b 10); [congruence|].
Qed.

(** The bytes of the chunks, and what [onlcr_chunks] makes. *)
Definition unchunk (cs : list (list Z * bool)) : list Z := mjoin ((fun c : list Z * bool => c.1 ++ if c.2 then [10] else []) <$> cs).

Lemma onlcr_chunks_spec buf : unchunk (onlcr_chunks buf) = buf /\ Forall (fun c => ~ (10 ∈ c.1)) (onlcr_chunks buf).
Proof.
  induction buf as [|b buf [IH1 IH2]]; [done|]. cbn [onlcr_chunks]. destruct (Z.eqb_spec b 10) as [->|Hb].
  - split; [change (10 :: unchunk (onlcr_chunks buf) = 10 :: buf); by rewrite IH1|]. constructor; [apply not_elem_of_nil|done].
  - destruct (onlcr_chunks buf) as [|[body nl] cs].
    + rewrite <- IH1. split; [done|]. constructor; [|done]. cbn. intros ?%list_elem_of_singleton. congruence.
    + split; [rewrite <- IH1; done|]. apply Forall_cons in IH2 as [H1 H2]. constructor; [|done].
      cbn in *. rewrite not_elem_of_cons. split; [congruence|done].
Qed.

(** ** Writing *)

Definition room (ring : list Z) : Z := RING_CAP - len ring.

Lemma ring_chunks_spec cs : Forall (fun c => ~ (10 ∈ c.1)) cs -> forall ring taken, len ring <= RING_CAP ->
  let '(ring', taken') := ring_chunks cs ring taken in
  let buf := unchunk cs in
  exists k : nat, (k <= length buf)%nat /\ taken' = taken + Z.of_nat k /\
    ring' = ring ++ onlcr (take k buf) /\ len ring' <= RING_CAP /\
    forall b, buf !! k = Some b -> room ring' < len (crlf b).
Proof.
  induction 1 as [|[body nl] cs Hb Hcs IH]; intros ring taken Hr; cbn [ring_chunks].
  { exists 0%nat. split; [done|]. rewrite Z.add_0_r, app_nil_r. done. }
  cbn [fst] in Hb. assert (Hsat : saturating_sub RING_CAP (len ring) = room ring)
    by (unfold saturating_sub, room; destruct (Z.leb_spec (len ring) RING_CAP); lia).
  rewrite Hsat. cbn zeta. set (n := Z.min (room ring) (len body)). change (unchunk ((body, nl) :: cs)) with ((body ++ (if nl then [10] else [])) ++ unchunk cs).
  set (ring1 := ring ++ take (Z.to_nat n) body). assert (Hn : 0 <= n <= len body /\ n <= room ring) by (unfold room in *; lia).
  assert (Hl1 : len ring1 = len ring + n) by (unfold ring1; rewrite length_app, length_take; lia).
  assert (Hplain : forall k, onlcr (take k body) = take k body).
  { intros k. apply onlcr_plain. intros (i & Hi & _)%elem_of_take. by eapply Hb, list_elem_of_lookup_2. }
  assert (Hcap : len ring1 <= RING_CAP) by (unfold room in *; lia).
  destruct (Z.ltb_spec n (len body)) as [Hlt|Hge].
  { exists (Z.to_nat n). rewrite !length_app. split; [lia|]. split; [lia|]. rewrite take_app_le, take_app_le, Hplain by (rewrite ?length_app; lia).
    split; [done|]. split; [done|]. intros b Hb'. rewrite lookup_app_l, lookup_app_l in Hb' by (rewrite ?length_app; lia).
    assert (b <> 10) by (intros ->; by eapply Hb, list_elem_of_lookup_2). unfold crlf. destruct (Z.eqb_spec b 10); [done|]. cbn. unfold room in *. lia. }
  assert (Hall : ring1 = ring ++ body) by (unfold ring1; by rewrite take_ge by lia).
  destruct nl.
  - assert (Hsat1 : saturating_sub RING_CAP (len ring1) = room ring1)
      by (unfold saturating_sub, room; destruct (Z.leb_spec (len ring1) RING_CAP); lia).
    rewrite Hsat1. destruct (Z.ltb_spec (room ring1) 2) as [Hno|Hyes].
    + exists (length body). rewrite !length_app. split; [lia|]. split; [lia|].
      rewrite take_app_le, take_app_length by (rewrite length_app; lia). rewrite (onlcr_plain body) by done.
      split; [done|]. split; [done|]. intros b. rewrite lookup_app_l by (rewrite length_app; cbn; lia). rewrite list_lookup_middle by done. intros [= <-]. cbn. lia.
    + specialize (IH (ring1 ++ [13; 10]) (taken + n + 1)). rewrite length_app in IH. cbn [length] in IH. specialize (IH ltac:(unfold room in *; lia)).
      destruct (ring_chunks cs _ _) as [r' t']. destruct IH as (k & I1 & I2 & I3 & I4 & I5). exists (length (body ++ [10]%Z) + k)%nat.
      rewrite !length_app in *. cbn [length] in *. split; [lia|]. split; [lia|]. split; [|split; [done|]].
      * rewrite I3, Hall, take_app_add', onlcr_app, onlcr_app by (rewrite length_app; done). rewrite (onlcr_plain body) by done. by rewrite <- !app_assoc.
      * intros b. rewrite lookup_app_r by (rewrite length_app; cbn; lia). rewrite length_app. cbn [length].
        replace (length body + 1 + k - (length body + 1))%nat with k by lia. apply I5.
  - rewrite app_nil_r. specialize (IH ring1 (taken + n) Hcap). destruct (ring_chunks cs _ _) as [r' t']. destruct IH as (k & I1 & I2 & I3 & I4 & I5).
    exists (length body + k)%nat. rewrite length_app. split; [lia|]. split; [lia|]. split; [|split; [done|]].
    + rewrite I3, Hall, take_app_add, onlcr_app, (onlcr_plain body) by done. by rewrite <- app_assoc.
    + intros b. rewrite lookup_app_r by lia. replace (length body + k - length body)%nat with k by lia. apply I5.
Qed.

Lemma chan_write_spec ch buf c u : sc_open c = true -> sc_kind c = SshChannel ch -> buf <> [] -> len (from_session c) <= RING_CAP ->
  exists ring r, chan_write buf (c, u) = ((set_rings (to_session c) ring c, u), r) /\ len ring <= RING_CAP /\
  exists k : nat, (k <= length buf)%nat /\ ring = from_session c ++ onlcr (take k buf) /\
    r = (if decide (k = 0%nat) then Err WouldBlock else Ok (Z.of_nat k)) /\
    forall b, buf !! k = Some b -> room ring < len (crlf b).
Proof.
  intros Ho Hk Hb Hr. unfold chan_write. rewrite Ho, Hk, bool_decide_false by done. cbn [negb]. destruct (onlcr_chunks_spec buf) as [H1 H2].
  pose proof (ring_chunks_spec (onlcr_chunks buf) H2 (from_session c) 0 Hr) as Hs. rewrite H1 in Hs.
  destruct (ring_chunks _ _ _) as [ring taken]. destruct Hs as (k & S1 & S2 & S3 & S4 & S5). exists ring. eexists. split; [done|]. split; [done|].
  exists k. split; [done|]. split; [done|]. split; [|done]. rewrite S2, Z.add_0_l.
  destruct (decide (k = 0%nat)) as [->|Hne]; [done|]. by destruct (Z.eqb_spec (Z.of_nat k) 0); [lia|].
Qed.

(** ** A writer and the network task

    The writer offers what is left of its bytes ([EWrite]) and goes on from what was
    taken; the network task takes what is in the ring ([ETake]). *)
Inductive TermEvent : Type := EWrite | ETake (max : Z).

Record Term := mkTerm { t_left : list Z; t_chan : SessionChannel; t_wire : list Z }.

Definition term_step (u : Uart) (t : Term) (e : TermEvent) : Term :=
  match e with
  | EWrite =>
    match chan_write (t_left t) (t_chan t, u) with
    | ((c, _), Ok n) => mkTerm (drop (Z.to_nat n) (t_left t)) c (t_wire t)
    | ((c, _), Err _) => mkTerm (t_left t) c (t_wire t)
    end
  | ETake max => let '(c, out) := take_output max (t_chan t) in mkTerm (t_left t) c (t_wire t ++ out)
  end.

Definition term_run (u : Uart) (evs : list TermEvent) (t : Term) : Term := foldl (term_step u) t evs.

Record term_inv (bytes : list Z) (t : Term) : Prop := mkTermInv {
  ti_open : sc_open (t_chan t) = true;
  ti_kind : exists ch, sc_kind (t_chan t) = SshChannel ch;
  ti_cap : len (from_session (t_chan t)) <= RING_CAP;
  ti_all : t_wire t ++ from_session (t_chan t) ++ onlcr (t_left t) = onlcr bytes;
}.

Lemma term_step_inv u bytes t e : term_inv bytes t -> term_inv bytes (term_step u t e).
Proof.
  intros [Ho [ch Hk] Hc Ha]. destruct e as [|max]; cbn [term_step].
  - destruct (decide (t_left t = [])) as [E|Hne].
    + unfold chan_write. rewrite Ho, E, bool_decide_true by done. cbn. split; cbn; eauto. by rewrite E in Ha.
    + destruct (chan_write_spec ch (t_left t) (t_chan t) u Ho Hk Hne Hc) as (ring & r & E & Hl & k & K1 & K2 & -> & _). rewrite E.
      assert (Hsplit : onlcr (t_left t) = onlcr (take k (t_left t)) ++ onlcr (drop k (t_left t))) by (by rewrite <- onlcr_app, take_drop).
      destruct (decide (k = 0%nat)) as [->|Hk0]; split; cbn; eauto.
      * rewrite K2. cbn. rewrite app_nil_r. exact Ha.
      * rewrite Nat2Z.id, K2, <- (app_assoc (from_session (t_chan t))), <- Hsplit. exact Ha.
  - unfold take_output, ring_pop. split; cbn; eauto.
    + rewrite length_drop. lia.
    + rewrite <- app_assoc, (app_assoc (take _ _)), take_drop. exact Ha.
Qed.

(** C32. Nothing is lost, repeated or torn on the way to an SSH terminal: for any schedule
    of a writer that offers again what was not taken and of the network task that
    drains the ring, what is on the wire, then the ring, then the rest of the bytes
    as a terminal sends them, is the whole output with each newline as CR LF; the
    ring keeps its capacity; and a write into an empty ring always takes a byte. *)
Theorem session_output_exact u evs bytes ch c :
  sc_open c = true -> sc_kind c = SshChannel ch -> from_session c = [] ->
  let t := term_run u evs (mkTerm bytes c []) in
  t_wire t ++ from_session (t_chan t) ++ onlcr (t_left t) = onlcr bytes /\
  len (from_session (t_chan t)) <= RING_CAP /\
  (t_left t <> [] -> from_session (t_chan t) = [] -> exists n, 0 < n /\ (chan_write (t_left t) (t_chan t, u)).2 = Ok n).
Proof.
  intros Ho Hk Hf t. assert (Hi : term_inv bytes t).
  { assert (H0 : term_inv bytes (mkTerm bytes c [])) by (split; cbn; rewrite ?Hf; eauto; vm_compute; discriminate).
    revert H0. subst t. generalize (mkTerm bytes c []). induction evs as [|e evs IH]; intros t0 H0; [exact H0|].
    apply IH. by apply term_step_inv. }
  destruct Hi as [Ho' [ch' Hk'] Hc Ha]. split; [done|]. split; [done|]. intros Hne He.
  destruct (chan_write_spec ch' (t_left t) (t_chan t) u Ho' Hk' Hne Hc) as (ring & r & E & Hl & k & K1 & K2 & -> & K4). rewrite E.
  rewrite He in K2. cbn in K2. destruct (decide (k = 0%nat)) as [->|Hk0]; [|exists (Z.of_nat k); split; [lia|done]]. exfalso.
  destruct (t_left t) as [|b l]; [done|]. specialize (K4 b eq_refl). rewrite K2 in K4. unfold crlf, room in K4. cbn in K4.
  destruct (b =? 10); vm_compute in K4; discriminate.
Qed.

(** ** The end of a session *)

(** After [destroy] the id is free, and whoever still holds the channel is told: a
    write fails with [IoError], a read reports the end, input is not taken and no
    output is left; no other channel changes. *)
Theorem session_destroyed id a s c n buf : session_get id s = Some a -> ss_heap s !! a = Some c -> 
  let s' := session_destroy id s in
  session_get id s' = None /\ (forall j, j <> id -> session_get j s' = session_get j s) /\
  (forall b, b <> a -> ss_heap s' !! b = ss_heap s !! b) /\
  (i_write_at (Console a) 0 buf s').2 = Ret (Err IoError) /\ (i_read_at (Console a) 0 n s').2 = Ret (Ok []) /\
  exists c', ss_heap s' !! a = Some c' /\ (push_input buf c').2 = 0 /\ (take_output n c').2 = [].
Proof.
  intros Hg Hc. unfold session_get, session_destroy in *. rewrite Hg. cbn zeta. cbn [ss_table ss_heap].
  assert (Ha : alter chan_close a (ss_heap s) !! a = Some (chan_close c)) by (by rewrite lookup_alter_eq, Hc).
  split; [apply lookup_delete_eq|]. split; [intros j Hj; by rewrite lookup_delete_ne|]. split; [intros b Hb; by rewrite lookup_alter_ne|].
  split; [cbn; unfold io, on_channel; cbn; by rewrite Ha|]. split; [cbn; unfold io, on_channel; cbn; by rewrite Ha|].
  exists (chan_close c). split; [done|]. split; [done|]. unfold take_output, ring_pop, chan_close. cbn. by rewrite take_nil.
Qed.

(** ** A terminal *)

Definition ssh_chan : SessionChannel := mkChannel 1 (SshChannel 7) (Some "root"%string) [] [] true.

Lemma session_output_exact_witness :
  t_wire (term_run (mkUart [] []) [EWrite; ETake 3; ETake 100] (mkTerm [104; 105; 10] ssh_chan [])) = [104; 105; 13; 10].
Proof.
  destruct (session_output_exact (mkUart [] []) [EWrite; ETake 3; ETake 100] [104; 105; 10] 7 ssh_chan eq_refl eq_refl eq_refl) as (H & _ & _).
  vm_compute in H. vm_compute. exact H.
Defined.

Lemma session_destroyed_witness :
  (i_write_at (Console 0) 0 [1] (session_destroy 1 (mkSessions {[0 := ssh_chan]} {[1 := 0]} 1 2 (mkUart [] [])))).2 = Ret (Err IoError).
Proof.
  exact (proj1 (proj2 (proj2 (proj2 (session_destroyed 1 0 (mkSessions {[0 := ssh_chan]} {[1 := 0]} 1 2 (mkUart [] [])) ssh_chan 1 [1] eq_refl eq_refl))))).
Defined.
