(* ===== verification/Text.v ===== *)
(** * Text: the string functions of the standard library that the kernel uses

    A [&str] is its UTF-8 bytes here: trimming, lines, splitting, numbers, with their
    lemmas. *)

From S2P Require Import Prelude.

Open Scope Z_scope.

(** ** [char::is_whitespace], on the bytes of a character *)

Definition ws1 (b : Z) : bool := (b =? 32) || ((9 <=? b) && (b <=? 13)).
Definition ws2 (b0 b1 : Z) : bool := (b0 =? 0xC2) && ((b1 =? 0x85) || (b1 =? 0xA0)).
Definition ws3 (b0 b1 b2 : Z) : bool :=
  ((b0 =? 0xE1) && (b1 =? 0x9A) && (b2 =? 0x80)) ||
  ((b0 =? 0xE2) && (b1 =? 0x80) && (((0x80 <=? b2) && (b2 <=? 0x8A)) || (b2 =? 0xA8) || (b2 =? 0xA9) || (b2 =? 0xAF))) ||
  ((b0 =? 0xE2) && (b1 =? 0x81) && (b2 =? 0x9F)) ||
  ((b0 =? 0xE3) && (b1 =? 0x80) && (b2 =? 0x80)).

(** [str::trim_start], and the same from the end of a reversed text. *)
Fixpoint trim_start (l : list Z) : list Z :=
  match l with
  | b0 :: l1 =>
    if ws1 b0 then trim_start l1
    else match l1 with
         | b1 :: l2 =>
           if ws2 b0 b1 then trim_start l2
           else match l2 with b2 :: l3 => if ws3 b0 b1 b2 then trim_start l3 else l | [] => l end
         | [] => l
         end
  | [] => []
  end.
Fixpoint trim_rev (l : list Z) : list Z :=
  match l with
  | b0 :: l1 =>
    if ws1 b0 then trim_rev l1
    else match l1 with
         | b1 :: l2 =>
           if ws2 b1 b0 then trim_rev l2
           else match l2 with b2 :: l3 => if ws3 b2 b1 b0 then trim_rev l3 else l | [] => l end
         | [] => l
         end
  | [] => []
  end.
Definition trim_end (l : list Z) : list Z := reverse (trim_rev (reverse l)).
(** [str::trim]. *)
Definition trim (l : list Z) : list Z := trim_end (trim_start l).

(** [str::split(c)] and [str::splitn(n, c)] for an ASCII character. *)
Fixpoint split_on (c : Z) (l : list Z) : list (list Z) :=
  match l with
  | [] => [[]]
  | b :: l' =>
    if b =? c then [] :: split_on c l'
    else match split_on c l' with p :: ps => (b :: p) :: ps | [] => [[b]] end
  end.

(** What is before the first [c], and what is after it. *)
Fixpoint cut (c : Z) (l : list Z) : list Z * option (list Z) :=
  match l with
  | [] => ([], None)
  | b :: l' => if b =? c then ([], Some l') else let '(p, r) := cut c l' in (b :: p, r)
  end.
Fixpoint splitn (n : nat) (c : Z) (l : list Z) : list (list Z) :=
  match n with
  | O => []
  | S O => [l]
  | S n' => match cut c l with (p, Some r) => p :: splitn n' c r | (p, None) => [p] end
  end.

(** [str::lines]: the pieces that end with a newline lose it, and a CR before it; a
    text that ends with a newline has no line after it. *)
Definition strip_cr (l : list Z) : list Z := match last l with Some 13 => removelast l | _ => l end.
Fixpoint lines_of (pieces : list (list Z)) : list (list Z) :=
  match pieces with
  | [] => []
  | [p] => if bool_decide (p = []) then [] else [p]
  | p :: pieces => strip_cr p :: lines_of pieces
  end.
Definition lines (l : list Z) : list (list Z) := lines_of (split_on 10 l).

(** [str::strip_prefix]. *)
Fixpoint strip_prefix (p l : list Z) : option (list Z) :=
  match p, l with
  | [], _ => Some l
  | a :: p', b :: l' => if a =? b then strip_prefix p' l' else None
  | _ :: _, [] => None
  end.

(** [str::split_whitespace]: the pieces between white space, none empty. *)
Fixpoint words_loop (l cur : list Z) : list (list Z) :=
  let flush ws := if bool_decide (cur = []) then ws else cur :: ws in
  match l with
  | [] => flush []
  | b0 :: l1 =>
    if ws1 b0 then flush (words_loop l1 [])
    else match l1 with
         | b1 :: l2 =>
           if ws2 b0 b1 then flush (words_loop l2 [])
           else match l2 with
                | b2 :: l3 => if ws3 b0 b1 b2 then flush (words_loop l3 []) else words_loop l1 (cur ++ [b0])
                | [] => words_loop l1 (cur ++ [b0])
                end
         | [] => words_loop l1 (cur ++ [b0])
         end
  end.
Definition split_whitespace (l : list Z) : list (list Z) := words_loop l [].

(** [u32::from_str]: an optional plus, then decimal digits, without overflow. *)
Fixpoint digits_loop (l : list Z) (n : Z) : option Z :=
  match l with
  | [] => Some n
  | b :: l' =>
    if (48 <=? b) && (b <=? 57) then
      let n := n * 10 + (b - 48) in if U32_MAX <? n then None else digits_loop l' n
    else None
  end.
Definition parse_u32 (l : list Z) : option Z :=
  match (match l with 43 :: l' => l' | _ => l end) with [] => None | ds => digits_loop ds 0 end.

(** ** Lemmas *)

Lemma cut_spec c l : match cut c l with (p, Some r) => l = p ++ c :: r /\ ~ (c ∈ p) | (p, None) => l = p /\ ~ (c ∈ p) end.
Proof.
  induction l as [|b l IH]; cbn; [split; [done|apply not_elem_of_nil]|]. destruct (Z.eqb_spec b c) as [->|Hb].
  - split; [done|apply not_elem_of_nil].
  - destruct (cut c l) as [p [r|]]; destruct IH as [-> Hn]; (split; [done|]); rewrite not_elem_of_cons; (split; [congruence|done]).
Qed.

Lemma cut_app c p r : ~ (c ∈ p) -> cut c (p ++ c :: r) = (p, Some r).
Proof.
  induction p as [|b p IH]; cbn; intros Hn; [by rewrite Z.eqb_refl|]. apply not_elem_of_cons in Hn as [Hb Hn].
  destruct (Z.eqb_spec b c); [congruence|]. by rewrite IH.
Qed.

Lemma cut_none c p : ~ (c ∈ p) -> cut c p = (p, None).
Proof.
  induction p as [|b p IH]; cbn; intros Hn; [done|]. apply not_elem_of_cons in Hn as [Hb Hn].
  destruct (Z.eqb_spec b c); [congruence|]. by rewrite IH.
Qed.

Lemma split_on_cons c l : exists p ps, split_on c l = p :: ps.
Proof. destruct l as [|b l]; cbn; [eauto|]. destruct (b =? c); [eauto|]. destruct (split_on c l); eauto. Qed.

Lemma split_on_app c p r : ~ (c ∈ p) -> split_on c (p ++ c :: r) = p :: split_on c r.
Proof.
  induction p as [|b p IH]; cbn; intros Hn; [by rewrite Z.eqb_refl|]. apply not_elem_of_cons in Hn as [Hb Hn].
  destruct (Z.eqb_spec b c); [congruence|]. by rewrite IH.
Qed.

Lemma split_on_none c p : ~ (c ∈ p) -> split_on c p = [p].
Proof.
  induction p as [|b p IH]; cbn; intros Hn; [done|]. apply not_elem_of_cons in Hn as [Hb Hn].
  destruct (Z.eqb_spec b c); [congruence|]. by rewrite IH.
Qed.

Lemma strip_prefix_app p l : strip_prefix p (p ++ l) = Some l.
Proof. induction p as [|b p IH]; cbn; [done|]. by rewrite Z.eqb_refl. Qed.

(** A text that starts and ends with a printable ASCII character is its own trim. *)
Lemma trim_head b l : 33 <= b < 128 -> trim_start (b :: l) = b :: l /\ trim_rev (b :: l) = b :: l.
Proof.
  intros Hb. assert (E1 : ws1 b = false) by (unfold ws1; lia).
  assert (E2 : forall c, ws2 b c = false /\ ws2 c b = false) by (intros c; unfold ws2; lia).
  assert (E3 : forall c d, ws3 b c d = false /\ ws3 d c b = false) by (intros c d; unfold ws3; lia).
  split; cbn; rewrite E1; (destruct l as [|c l]; [done|]); destruct (E2 c) as [Ea Eb]; rewrite ?Ea, ?Eb; (destruct l as [|d l]; [done|]); destruct (E3 c d) as [Ec Ed]; by rewrite ?Ec, ?Ed.
Qed.

Lemma trim_ends a l b : 33 <= a < 128 -> 33 <= b < 128 -> last (a :: l) = Some b -> trim (a :: l) = a :: l.
Proof.
  intros Ha Hb Hl. unfold trim, trim_end. rewrite (proj1 (trim_head a l Ha)). apply last_Some in Hl as [l' E]. rewrite E, reverse_snoc.
  rewrite (proj2 (trim_head b _ Hb)). by rewrite reverse_cons, reverse_involutive.
Qed.

Lemma trim_ascii l : Forall (fun b => 33 <= b < 128) l -> trim l = l.
Proof.
  intros Hl. destruct l as [|a l]; [done|]. destruct (last (a :: l)) as [b|] eqn:E; [|by apply last_None in E].
  apply (trim_ends a l b); [by apply Forall_cons in Hl as [? _]| |done]. apply last_Some_elem_of in E. by apply (proj1 (Forall_forall _ _) Hl).
Qed.

(** A word in printable ASCII, and what ends it. *)
Lemma words_plain w rest cur : Forall (fun b => 33 <= b < 128) w -> cur ++ w <> [] ->
  words_loop (w ++ 32 :: rest) cur = (cur ++ w) :: words_loop rest [].
Proof.
  intros Hw. revert cur. induction Hw as [|b w Hb Hw IH]; intros cur Hne.
  - rewrite app_nil_r in *. destruct rest; cbn; by rewrite bool_decide_false.
  - cbn [app words_loop]. assert (E1 : ws1 b = false) by (unfold ws1; lia). rewrite E1.
    assert (IH' : words_loop (w ++ 32 :: rest) (cur ++ [b]) = (cur ++ b :: w) :: words_loop rest []).
    { rewrite IH by (by destruct cur). by rewrite <- app_assoc. }
    destruct (w ++ 32 :: rest) as [|b1 l2] eqn:E; [by destruct w|]. assert (E2 : ws2 b b1 = false) by (unfold ws2; lia). rewrite E2.
    destruct l2 as [|b2 l3]; [exact IH'|]. assert (E3 : ws3 b b1 b2 = false) by (unfold ws3; lia). by rewrite E3.
Qed.
