(* ===== verification/SshProto.v ===== *)
(** * SshProto: the binary packets of SSH (kernel/src/drivers/ssh/proto.rs, base64.rs)

    The writer and the reader of the fields of RFC 4251, the framing of RFC 4253, and
    base64.  A writer is the bytes it holds; a reader is a buffer and a position. *)

From Stdlib Require Import Ascii.
From S2P Require Import Prelude Text.

Open Scope Z_scope.

(* @src kernel/src/drivers/ssh/proto.rs 5-5 IDENT *)
Definition IDENT : string := "SSH-2.0-EspressoOS_0.1".
(* @src kernel/src/drivers/ssh/proto.rs 7-7 MAX_PACKET *)
Definition MAX_PACKET : Z := 35000.
(* @src kernel/src/drivers/ssh/proto.rs 9-9 MIN_PADDING *)
Definition MIN_PADDING : Z := 4.
(* @src kernel/src/drivers/ssh/proto.rs 11-11 MIN_BLOCK *)
Definition MIN_BLOCK : Z := 8.

(** The numbers of the messages. *)
(* @src kernel/src/drivers/ssh/proto.rs 13-40 SSH_MSG_ constants *)
Definition SSH_MSG_DISCONNECT : Z := 1.
Definition SSH_MSG_IGNORE : Z := 2.
Definition SSH_MSG_DEBUG : Z := 4.
Definition SSH_MSG_SERVICE_REQUEST : Z := 5.
Definition SSH_MSG_SERVICE_ACCEPT : Z := 6.
Definition SSH_MSG_KEXINIT : Z := 20.
Definition SSH_MSG_NEWKEYS : Z := 21.
Definition SSH_MSG_KEX_ECDH_INIT : Z := 30.
Definition SSH_MSG_KEX_ECDH_REPLY : Z := 31.
Definition SSH_MSG_USERAUTH_REQUEST : Z := 50.
Definition SSH_MSG_USERAUTH_FAILURE : Z := 51.
Definition SSH_MSG_USERAUTH_SUCCESS : Z := 52.
Definition SSH_MSG_GLOBAL_REQUEST : Z := 80.
Definition SSH_MSG_REQUEST_FAILURE : Z := 82.
Definition SSH_MSG_CHANNEL_OPEN : Z := 90.
Definition SSH_MSG_CHANNEL_OPEN_CONFIRMATION : Z := 91.
Definition SSH_MSG_CHANNEL_OPEN_FAILURE : Z := 92.
Definition SSH_MSG_CHANNEL_WINDOW_ADJUST : Z := 93.
Definition SSH_MSG_CHANNEL_DATA : Z := 94.
Definition SSH_MSG_CHANNEL_EOF : Z := 96.
Definition SSH_MSG_CHANNEL_CLOSE : Z := 97.
Definition SSH_MSG_CHANNEL_REQUEST : Z := 98.
Definition SSH_MSG_CHANNEL_SUCCESS : Z := 99.
Definition SSH_MSG_CHANNEL_FAILURE : Z := 100.

(** ** The writer *)

Definition Writer : Type := list Z.

(* @src kernel/src/drivers/ssh/proto.rs 60-63 Writer::put_u8 *)
Definition put_u8 (v : Z) (w : Writer) : Writer := w ++ [v].
(* @src kernel/src/drivers/ssh/proto.rs 65-68 Writer::put_bool *)
Definition put_bool (v : bool) (w : Writer) : Writer := w ++ [if v then 1 else 0].
(* @src kernel/src/drivers/ssh/proto.rs 70-73 Writer::put_u32 *)
Definition put_u32 (v : Z) (w : Writer) : Writer := w ++ be_bytes 4 v.
(* @src kernel/src/drivers/ssh/proto.rs 75-78 Writer::put_u64 *)
Definition put_u64 (v : Z) (w : Writer) : Writer := w ++ be_bytes 8 v.
(* @src kernel/src/drivers/ssh/proto.rs 80-84 Writer::put_string *)
Definition put_string (s : list Z) (w : Writer) : Writer := put_u32 (u32 (len s)) w ++ s.

(** [names.join(",")]. *)
Fixpoint join_comma (names : list string) : string :=
  match names with
  | [] => EmptyString
  | [n] => n
  | n :: names => String.append n (String ","%char (join_comma names))
  end.
(* @src kernel/src/drivers/ssh/proto.rs 86-89 Writer::put_name_list *)
Definition put_name_list (names : list string) (w : Writer) : Writer := put_string (as_bytes (join_comma names)) w.

(** Without its leading zeros. *)
Fixpoint skip_zeros (l : list Z) : list Z :=
  match l with b :: l' => if b =? 0 then skip_zeros l' else l | [] => [] end.

(* @src kernel/src/drivers/ssh/proto.rs 91-108 Writer::put_mpint_uint *)
Definition put_mpint_uint (bytes : list Z) (w : Writer) : Writer :=
  match skip_zeros bytes with
  | [] => put_u32 0 w
  | b :: _ as trimmed =>
    if negb (Z.land b 0x80 =? 0) then put_u32 (u32 (len trimmed + 1)) w ++ [0] ++ trimmed
    else put_string trimmed w
  end.

(** ** The reader *)

(* @src kernel/src/drivers/ssh/proto.rs 111-114 Reader *)
Record Reader := mkReader { rd_buf : list Z; rd_pos : Z }.

(* @src kernel/src/drivers/ssh/proto.rs 117-119 Reader::new *)
Definition reader (buf : list Z) : Reader := mkReader buf 0.
(* @src kernel/src/drivers/ssh/proto.rs 121-123 Reader::remaining *)
Definition remaining (r : Reader) : Z := len (rd_buf r) - rd_pos r.

(* @src kernel/src/drivers/ssh/proto.rs 125-132 Reader::take *)
Definition rd_take (n : Z) : ST Reader (list Z) := fun r =>
  if remaining r <? n then (r, Err InvalidArgument)
  else (mkReader (rd_buf r) (rd_pos r + n), Ok (slice (rd_pos r) n (rd_buf r))).

(* @src kernel/src/drivers/ssh/proto.rs 134-136 Reader::get_u8 *)
Definition get_u8 : ST Reader Z := b ← rd_take 1; mret (at_ b 0).
(* @src kernel/src/drivers/ssh/proto.rs 138-140 Reader::get_bool *)
Definition get_bool : ST Reader bool := b ← get_u8; mret (negb (b =? 0)).
(* @src kernel/src/drivers/ssh/proto.rs 142-145 Reader::get_u32 *)
Definition get_u32 : ST Reader Z := b ← rd_take 4; mret (of_be b).
(* @src kernel/src/drivers/ssh/proto.rs 147-153 Reader::get_string *)
Definition get_string : ST Reader (list Z) :=
  n ← get_u32; if MAX_PACKET <? n then fail InvalidArgument else rd_take n.

(** [text.split(',')]. *)
Fixpoint split_comma (s : string) : list string :=
  match s with
  | EmptyString => [EmptyString]
  | String c s' =>
    if bool_decide (c = ","%char) then EmptyString :: split_comma s'
    else match split_comma s' with p :: ps => String c p :: ps | [] => [String c EmptyString] end
  end.
(* @src kernel/src/drivers/ssh/proto.rs 155-162 Reader::get_name_list *)
Definition get_name_list : ST Reader (list string) :=
  s ← get_string;
  text ← lift (ok_or (from_utf8 s) InvalidArgument);
  mret (if bool_decide (text = EmptyString) then [] else split_comma text).

(** ** Framing *)

(** The padding that fills up [unit_] bytes to a multiple of the block, at least four. *)
Definition padding (block unit_ : Z) : Z :=
  let pad := block - unit_ mod block in
  if pad <? MIN_PADDING then pad + block else pad.

Definition framed (payload : list Z) (pad pad_fill : Z) : list Z :=
  be_bytes 4 (u32 (1 + len payload + pad)) ++ [u8 pad] ++ payload ++ replicate (Z.to_nat pad) pad_fill.

(* @src kernel/src/drivers/ssh/proto.rs 165-180 frame_packet *)
Definition frame_packet (payload : list Z) (block pad_fill : Z) : list Z :=
  let block := Z.max block MIN_BLOCK in
  let base := 1 + len payload in
  framed payload (padding block (4 + base)) pad_fill.

(** The length is not part of what is padded. *)
(* @src kernel/src/drivers/ssh/proto.rs 182-197 frame_packet_aead *)
Definition frame_packet_aead (payload : list Z) (block pad_fill : Z) : list Z :=
  let block := Z.max block MIN_BLOCK in
  let base := 1 + len payload in
  framed payload (padding block base) pad_fill.

(* @src kernel/src/drivers/ssh/proto.rs 199-218 parse_packet *)
Definition parse_packet (buf : list Z) : KResult (list Z * Z) :=
  if len buf <? 5 then Err InvalidArgument
  else
    let packet_length := of_be (take 4 buf) in
    if (packet_length <? 1 + MIN_PADDING) || (MAX_PACKET <? packet_length) then Err InvalidArgument
    else
      let total := 4 + packet_length in
      if len buf <? total then Err InvalidArgument
      else
        let pad_len := at_ buf 4 in
        if (pad_len <? MIN_PADDING) || (packet_length <? pad_len + 1) then Err InvalidArgument
        else Ok (slice 5 (packet_length - 1 - pad_len) buf, total).

(** ** Base64 *)

(* @src kernel/src/drivers/ssh/base64.rs 5-5 ALPHABET *)
Definition ALPHABET : string := "ABCDEFGHIJKLMNOPQRSTUVWXYZabcdefghijklmnopqrstuvwxyz0123456789+/".
Definition b64_char (n : Z) : string := String (default zero (String.get (Z.to_nat (Z.land n 63)) ALPHABET)) EmptyString.

(** The loop over the groups of three bytes. *)
(* @src kernel/src/drivers/ssh/base64.rs 8-26 encode_nopad *)
Fixpoint encode_nopad (data : list Z) : string :=
  match data with
  | [] => EmptyString
  | [b0] =>
    let n := Z.shiftl b0 16 in String.append (b64_char (Z.shiftr n 18)) (b64_char (Z.shiftr n 12))
  | [b0; b1] =>
    let n := Z.lor (Z.shiftl b0 16) (Z.shiftl b1 8) in
    String.append (b64_char (Z.shiftr n 18)) (String.append (b64_char (Z.shiftr n 12)) (b64_char (Z.shiftr n 6)))
  | b0 :: b1 :: b2 :: data =>
    let n := Z.lor (Z.lor (Z.shiftl b0 16) (Z.shiftl b1 8)) b2 in
    String.append (b64_char (Z.shiftr n 18)) (String.append (b64_char (Z.shiftr n 12))
      (String.append (b64_char (Z.shiftr n 6)) (String.append (b64_char n) (encode_nopad data))))
  end.

(** [=] until the length is a multiple of four. *)
(* @src kernel/src/drivers/ssh/base64.rs 29-35 encode *)
Definition encode (data : list Z) : string :=
  let s := encode_nopad data in
  String.append s (match str_len s mod 4 with 2 => "==" | 3 => "=" | 1 => "===" | _ => "" end).

(* @src kernel/src/drivers/ssh/base64.rs 44-53 decode_char *)
Definition decode_char (c : Z) : option Z :=
  if (65 <=? c) && (c <=? 90) then Some (c - 65)
  else if (97 <=? c) && (c <=? 122) then Some (c - 97 + 26)
  else if (48 <=? c) && (c <=? 57) then Some (c - 48 + 52)
  else if c =? 43 then Some 62
  else if c =? 47 then Some 63
  else None.

(** [u8::is_ascii_whitespace]. *)
Definition ascii_space (b : Z) : bool := (b =? 32) || (b =? 9) || (b =? 10) || (b =? 12) || (b =? 13).

(** The loop over the characters: six bits at a time, a byte whenever there are eight. *)
(* @src kernel/src/drivers/ssh/base64.rs 60-74 decode (loop) *)
Fixpoint decode_loop (bytes : list Z) (buf bits : Z) (out : list Z) : option (list Z) :=
  match bytes with
  | [] => Some out
  | b :: bytes =>
    if b =? 61 then Some out
    else if ascii_space b then decode_loop bytes buf bits out
    else
      val ← decode_char b;
      let buf := Z.lor (u32 (Z.shiftl buf 6)) val in
      let bits := bits + 6 in
      if 8 <=? bits then
        let bits := bits - 8 in
        decode_loop bytes (Z.land buf (Z.ones bits)) bits (out ++ [u8 (Z.shiftr buf bits)])
      else decode_loop bytes buf bits out
  end.

(* @src kernel/src/drivers/ssh/base64.rs 38-78 decode *)
Definition decode (s : list Z) : option (list Z) :=
  let clean := trim s in
  if bool_decide (clean = []) then Some [] else decode_loop clean 0 0 [].
