(* ===== verification/SshProtoOps.v ===== *)
(** * SshProtoOps: round trips of the SSH encodings

    What the writer wrote is what the reader reads; a framed packet parses to its
    payload, with the padding the block asks for; and base64 decodes what it encoded. *)

From Stdlib Require Import Ascii.
From S2P Require Import Prelude Text SshProto.

Open Scope Z_scope.

(** ** Fields *)

(** A field of a message, and what the code calls to write it and to read one like it. *)
Inductive Field : Type := FU8 (z : Z) | FBool (b : bool) | FU32 (z : Z) | FString (s : list Z) | FNames (ns : list string).

Definition put_field (f : Field) : Writer -> Writer :=
  match f with FU8 z => put_u8 z | FBool b => put_bool b | FU32 z => put_u32 z | FString s => put_string s | FNames ns => put_name_list ns end.
Definition get_field (f : Field) : ST Reader Field :=
  match f with
  | FU8 _ => z ← get_u8; mret (FU8 z)
  | FBool _ => b ← get_bool; mret (FBool b)
  | FU32 _ => z ← get_u32; mret (FU32 z)
  | FString _ => s ← get_string; mret (FString s)
  | FNames _ => ns ← get_name_list; mret (FNames ns)
  end.

Fixpoint put_fields (fs : list Field) (w : Writer) : Writer := match fs with [] => w | f :: fs => put_fields fs (put_field f w) end.
Fixpoint get_fields (fs : list Field) : ST Reader (list Field) :=
  match fs with [] => mret [] | f :: fs => x ← get_field f; xs ← get_fields fs; mret (x :: xs) end.

Fixpoint no_comma (s : string) : Prop := match s with EmptyString => True | String c s' => c <> ","%char /\ no_comma s' end.

Definition field_ok (f : Field) : Prop :=
  match f with
  | FU8 z => is_byte z
  | FBool _ => True
  | FU32 z => 0 <= z < 2 ^ 32
  | FString s => len s <= MAX_PACKET
  | FNames ns => Forall (fun n => no_comma n /\ n <> EmptyString) ns /\ is_str (join_comma ns) /\ str_len (join_comma ns) <= MAX_PACKET
  end.

(** [r] stands at [bytes]. *)
Definition at_bytes (r : Reader) (bytes rest : list Z) : Prop :=
  exists pre, rd_buf r = pre ++ bytes ++ rest /\ rd_pos r = len pre.
Definition advance (n : Z) (r : Reader) : Reader := mkReader (rd_buf r) (rd_pos r + n).

Lemma take_at r bytes rest : at_bytes r bytes rest -> rd_take (len bytes) r = (advance (len bytes) r, Ok bytes).
Proof.
  intros (pre & Hb & Hp). unfold rd_take, remaining. rewrite Hb, Hp, !length_app. destruct (Z.ltb_spec (Z.of_nat (length pre + (length bytes + length rest)) - len pre) (len bytes)); [lia|].
  unfold advance. rewrite Hb, Hp. do 3 f_equal. unfold slice. rewrite !Nat2Z.id, drop_app_length. by rewrite take_app_length.
Qed.

Lemma at_split r a b rest : at_bytes r (a ++ b) rest -> at_bytes r a (b ++ rest) /\ at_bytes (advance (len a) r) b rest.
Proof.
  intros (pre & Hb & Hp). split; [exists pre; by rewrite Hb, <- !app_assoc|]. exists (pre ++ a). cbn. rewrite Hb, Hp, length_app, <- !app_assoc. split; [done|lia].
Qed.

Lemma advance_add a b r : advance b (advance a r) = advance (a + b) r.
Proof. unfold advance. cbn. f_equal. lia. Qed.

Lemma get_u32_at r z rest : 0 <= z < 2 ^ 32 -> at_bytes r (be_bytes 4 z) rest -> get_u32 r = (advance 4 r, Ok z).
Proof.
  intros Hz Ha. unfold get_u32, mbind, ST_bind. apply take_at in Ha. rewrite be_bytes_length in Ha. change (Z.of_nat 4) with 4 in Ha. rewrite Ha.
  by rewrite of_be_be_bytes.
Qed.

Lemma get_string_at r s rest : len s <= MAX_PACKET -> at_bytes r (be_bytes 4 (u32 (len s)) ++ s) rest -> get_string r = (advance (4 + len s) r, Ok s).
Proof.
  intros Hs Ha. unfold MAX_PACKET in Hs. rewrite u32_small in Ha by lia. apply at_split in Ha as [H1 H2]. rewrite be_bytes_length in H2. change (Z.of_nat 4) with 4 in H2.
  unfold get_string, mbind, ST_bind. rewrite (get_u32_at _ (len s) _ ltac:(lia) H1). unfold MAX_PACKET.
  destruct (Z.ltb_spec 35000 (len s)); [lia|]. rewrite (take_at _ _ _ H2). by rewrite advance_add.
Qed.

Lemma split_comma_app n s : no_comma n -> split_comma (String.append n (String ","%char s)) = n :: split_comma s.
Proof.
  induction n as [|c n IH]; intros Hn; [change (split_comma (String ","%char s) = EmptyString :: split_comma s); cbn; by rewrite bool_decide_true|]. destruct Hn as [Hc Hn].
  change (String.append (String c n) (String ","%char s)) with (String c (String.append n (String ","%char s))). cbn [split_comma].
  by rewrite bool_decide_false, IH.
Qed.
Lemma split_comma_id n : no_comma n -> split_comma n = [n].
Proof. induction n as [|c n IH]; [done|]. intros [Hc Hn]. cbn. by rewrite bool_decide_false, IH. Qed.

Lemma split_join_comma ns : Forall (fun n => no_comma n /\ n <> EmptyString) ns ->
  (if bool_decide (join_comma ns = EmptyString) then [] else split_comma (join_comma ns)) = ns.
Proof.
  induction 1 as [|n ns [Hn Hne] Hns IH]; [done|]. destruct ns as [|m ns].
  - cbn. rewrite bool_decide_false by done. by apply split_comma_id.
  - cbn [join_comma]. rewrite bool_decide_false by (by destruct n). rewrite split_comma_app by done. f_equal.
    apply Forall_cons in Hns as [[Hm Hme] _]. rewrite bool_decide_false in IH; [exact IH|]. destruct ns; [done|]. by destruct m.
Qed.

Lemma put_field_app f w : exists bytes, put_field f w = w ++ bytes.
Proof. destruct f; cbn; unfold put_u8, put_bool, put_u32, put_name_list, put_string, put_u32; rewrite <- ?app_assoc; eauto. Qed.

Lemma get_field_at f w r bytes rest : field_ok f -> put_field f w = w ++ bytes -> at_bytes r bytes rest -> get_field f r = (advance (len bytes) r, Ok f).
Proof.
  intros Hf Hp Ha. destruct f as [z|b|z|s|ns]; cbn [put_field] in Hp; unfold put_u8, put_bool, put_u32, put_name_list, put_string, put_u32 in Hp;
    rewrite <- ?app_assoc in Hp; apply app_inv_head in Hp; subst bytes; cbn [get_field]; unfold mbind at 1, ST_bind at 1.
  - unfold get_u8, mbind, ST_bind. by rewrite (take_at _ _ _ Ha : rd_take 1 r = _).
  - unfold get_bool, get_u8, mbind, ST_bind. rewrite (take_at _ _ _ Ha : rd_take 1 r = _). by destruct b.
  - rewrite (get_u32_at _ _ _ Hf Ha). by rewrite be_bytes_length.
  - rewrite (get_string_at _ _ _ Hf Ha). by rewrite length_app, be_bytes_length, Nat2Z.inj_add.
  - destruct Hf as (H1 & H2 & H3). unfold get_name_list, mbind, ST_bind. rewrite (get_string_at _ _ _ H3 Ha).
    unfold from_utf8. rewrite H2. unfold lift, ok_or. rewrite of_bytes_as_bytes, (split_join_comma ns H1). by rewrite length_app, be_bytes_length, Nat2Z.inj_add.
Qed.

Lemma put_fields_app fs w : exists bytes, put_fields fs w = w ++ bytes.
Proof.
  revert w. induction fs as [|f fs IH]; intros w; cbn; [exists []; by rewrite app_nil_r|]. destruct (put_field_app f w) as [b ->].
  destruct (IH (w ++ b)) as [b' ->]. exists (b ++ b'). by rewrite app_assoc.
Qed.

(** A message of SSH reads back: the fields that were put, asked for in the same
    order, are what the reader gets, and it stands right after them. *)
Theorem ssh_fields_roundtrip fs w : Forall field_ok fs ->
  exists bytes, put_fields fs w = w ++ bytes /\
  forall r rest, at_bytes r bytes rest -> get_fields fs r = (advance (len bytes) r, Ok fs).
Proof.
  intros Hf. revert w. induction Hf as [|f fs H1 Hfs IH]; intros w; cbn [put_fields get_fields].
  - exists []. rewrite app_nil_r. split; [done|]. intros r rest _. unfold advance. cbn. by rewrite Z.add_0_r; destruct r.
  - destruct (put_field_app f w) as [b Eb]. rewrite Eb. destruct (IH (w ++ b)) as (b' & Eb' & Hr). exists (b ++ b'). rewrite Eb', app_assoc. split; [done|].
    intros r rest Ha. apply at_split in Ha as [Ha1 Ha2]. unfold mbind at 1, ST_bind at 1. rewrite (get_field_at f w r b _ H1 Eb Ha1).
    unfold mbind at 1, ST_bind at 1. rewrite (Hr _ _ Ha2). cbn. rewrite advance_add, length_app, Nat2Z.inj_add. done.
Qed.

(** ** Packets *)

Lemma padding_spec block n : MIN_BLOCK <= block <= 252 -> 0 <= n ->
  MIN_PADDING <= padding block n <= 255 /\ (n + padding block n) mod block = 0.
Proof.
  unfold MIN_BLOCK, MIN_PADDING, padding. intros Hb Hn. pose proof (Z.mod_pos_bound n block ltac:(lia)). pose proof (Z.div_mod n block ltac:(lia)).
  unfold MIN_PADDING. destruct (Z.ltb_spec (block - n mod block) 4); (split; [lia|]).
  - replace (n + (block - n mod block + block)) with ((n / block + 2) * block) by lia. apply Z.mod_mul. lia.
  - replace (n + (block - n mod block)) with ((n / block + 1) * block) by lia. apply Z.mod_mul. lia.
Qed.

Lemma parse_framed payload pad fill rest : MIN_PADDING <= pad <= 255 -> 1 + len payload + pad <= MAX_PACKET ->
  parse_packet (framed payload pad fill ++ rest) = Ok (payload, 4 + (1 + len payload + pad)).
Proof.
  unfold MAX_PACKET, MIN_PADDING. intros Hp Hl. unfold parse_packet, framed, u8. rewrite u32_small, Z.mod_small by lia. set (n := 1 + len payload + pad).
  assert (Hlen : len ((be_bytes 4 n ++ [pad] ++ payload ++ replicate (Z.to_nat pad) fill) ++ rest) = 4 + n + len rest)
    by (rewrite !length_app, be_bytes_length, length_replicate; cbn; lia).
  rewrite Hlen. destruct (Z.ltb_spec (4 + n + len rest) 5); [lia|].
  rewrite <- app_assoc, take_app_length' by (by rewrite be_bytes_length). rewrite of_be_be_bytes by (change (256 ^ Z.of_nat 4) with (2 ^ 32); lia).
  unfold MIN_PADDING, MAX_PACKET. destruct (Z.ltb_spec n (1 + 4)), (Z.ltb_spec 35000 n); try lia. cbn [orb].
  destruct (Z.ltb_spec (4 + n + len rest) (4 + n)); [lia|].
  assert (Hat : at_ (be_bytes 4 n ++ ([pad] ++ payload ++ replicate (Z.to_nat pad) fill) ++ rest) 4 = pad).
  { unfold at_. rewrite lookup_app_r by (rewrite be_bytes_length; lia). by rewrite be_bytes_length. }
  rewrite Hat. destruct (Z.ltb_spec pad 4), (Z.ltb_spec n (pad + 1)); try lia. cbn [orb]. do 2 f_equal.
  replace (n - 1 - pad) with (len payload) by lia. unfold slice. rewrite Nat2Z.id.
  replace (be_bytes 4 n ++ ([pad] ++ payload ++ replicate (Z.to_nat pad) fill) ++ rest)
    with ((be_bytes 4 n ++ [pad]) ++ payload ++ replicate (Z.to_nat pad) fill ++ rest) by (by rewrite <- !app_assoc).
  rewrite drop_app_length' by (rewrite length_app, be_bytes_length; done). by rewrite take_app_length.
Qed.

(** A packet that was framed parses to its payload, whatever follows it, and is
    consumed whole; its length is a multiple of the block, without the length field
    for the encrypted form; the padding is at least four bytes and fits its byte. *)
Theorem ssh_packet_roundtrip payload block fill rest :
  0 <= block <= 252 -> len payload + 260 <= MAX_PACKET ->
  let b := Z.max block MIN_BLOCK in
  let plain := frame_packet payload block fill in
  let aead := frame_packet_aead payload block fill in
  parse_packet (plain ++ rest) = Ok (payload, len plain) /\ parse_packet (aead ++ rest) = Ok (payload, len aead) /\
  len plain mod b = 0 /\ (len aead - 4) mod b = 0.
Proof.
  intros Hb Hl b plain aead. assert (Hbb : MIN_BLOCK <= b <= 252) by (unfold b, MIN_BLOCK; lia).
  destruct (padding_spec b (4 + (1 + len payload)) Hbb ltac:(lia)) as [P1 P2]. destruct (padding_spec b (1 + len payload) Hbb ltac:(lia)) as [A1 A2].
  assert (Hlen : forall pad, MIN_PADDING <= pad -> len (framed payload pad fill) = 4 + (1 + len payload + pad)).
  { intros pad Hp. unfold framed, MIN_PADDING in *. rewrite !length_app, be_bytes_length, length_replicate. cbn. lia. }
  unfold plain, aead, frame_packet, frame_packet_aead. fold b. rewrite !Hlen by apply P1 || apply A1.
  rewrite !parse_framed by (unfold MAX_PACKET in *; lia). split; [done|]. split; [done|]. split; [rewrite <- P2; f_equal; lia|rewrite <- A2; f_equal; lia].
Qed.

(** ** Base64 *)

(** The byte of the [k]-th character of the alphabet, and what the decoder makes of it. *)
Definition b64_byte (k : Z) : Z := at_ (as_bytes ALPHABET) k.

Lemma alphabet_all : forallb (fun k => let k := Z.of_nat k in
  negb (b64_byte k =? 61) && negb (ascii_space (b64_byte k)) && bool_decide (decode_char (b64_byte k) = Some k) &&
  (33 <=? b64_byte k) && (b64_byte k <? 128) && bool_decide (as_bytes (b64_char k) = [b64_byte k])) (seq 0 64) = true.
Proof. vm_compute. reflexivity. Qed.

Record b64_facts (k : Z) : Prop := mkB64Facts {
  bf_not_pad : (b64_byte k =? 61) = false;
  bf_not_space : ascii_space (b64_byte k) = false;
  bf_decode : decode_char (b64_byte k) = Some k;
  bf_range : 33 <= b64_byte k < 128;
  bf_char : as_bytes (b64_char k) = [b64_byte k];
}.

Lemma alphabet_facts k : 0 <= k < 64 -> b64_facts k.
Proof.
  intros Hk. pose proof alphabet_all as Ha. rewrite forallb_forall in Ha. specialize (Ha (Z.to_nat k)). rewrite Z2Nat.id in Ha by lia.
  specialize (Ha ltac:(apply in_seq; lia)). cbn zeta in Ha. rewrite !andb_true_iff, !negb_true_iff in Ha.
  destruct Ha as (((((H1 & H2) & H3%bool_decide_eq_true) & H4) & H5) & H6%bool_decide_eq_true). apply Z.leb_le in H4. apply Z.ltb_lt in H5. by split.
Qed.

(** A character only depends on its six bits. *)
Lemma b64_char_land n : as_bytes (b64_char n) = [b64_byte (n mod 64)].
Proof.
  assert (E : b64_char n = b64_char (n mod 64)).
  { unfold b64_char. do 3 f_equal. change 63 with (Z.ones 6). rewrite !Z.land_ones by lia. change (2 ^ 6) with 64. by rewrite Z.mod_mod. }
  rewrite E. apply bf_char, alphabet_facts. apply Z.mod_pos_bound. lia.
Qed.

(** One character: six more bits, and a byte out when there are eight. *)
Lemma decode_step k rest buf bits out : 0 <= k < 64 -> 0 <= bits <= 6 -> 0 <= buf < 2 ^ bits ->
  decode_loop (b64_byte k :: rest) buf bits out =
    if 2 <=? bits then decode_loop rest ((buf * 64 + k) mod 2 ^ (bits - 2)) (bits - 2) (out ++ [(buf * 64 + k) / 2 ^ (bits - 2)])
    else decode_loop rest (buf * 64 + k) (bits + 6) out.
Proof.
  intros Hk Hb Hbuf. destruct (alphabet_facts k Hk) as [H1 H2 H3 _ _]. cbn [decode_loop]. rewrite H1, H2, H3. cbn [mbind option_bind].
  assert (Hp : 2 ^ bits <= 2 ^ 6) by (apply Z.pow_le_mono_r; lia). change (2 ^ 6) with 64 in Hp.
  assert (E : Z.lor (u32 (Z.shiftl buf 6)) k = buf * 64 + k).
  { rewrite Z.shiftl_mul_pow2 by lia. change (2 ^ 6) with 64. rewrite u32_small by lia. replace (buf * 64) with (Z.shiftl buf 6) by (by rewrite Z.shiftl_mul_pow2).
    rewrite Z.lor_comm, lor_shift_add by (change (2 ^ 6) with 64; lia). change (2 ^ 6) with 64. rewrite Z.shiftl_mul_pow2 by lia. change (2 ^ 6) with 64. lia. }
  rewrite E. destruct (Z.leb_spec 8 (bits + 6)), (Z.leb_spec 2 bits); try lia; [|done].
  replace (bits + 6 - 8) with (bits - 2) by lia. rewrite Z.land_ones by lia. rewrite Z.shiftr_div_pow2 by lia. do 3 f_equal.
  apply u8_small. split; [apply Z.div_pos; [lia|by apply Z.pow_pos_nonneg; lia]|]. apply Z.div_lt_upper_bound; [by apply Z.pow_pos_nonneg; lia|].
  rewrite <- Z.pow_add_r by lia. replace (bits - 2 + 8) with (bits + 6) by lia. rewrite Z.pow_add_r by lia. change (2 ^ 6) with 64. lia.
Qed.

Definition b64_digits (data : list Z) : list Z :=
  match data with
  | [b0] => [b0 / 4; b0 mod 4 * 16]
  | [b0; b1] => [b0 / 4; b0 mod 4 * 16 + b1 / 16; b1 mod 16 * 4]
  | b0 :: b1 :: b2 :: _ => [b0 / 4; b0 mod 4 * 16 + b1 / 16; b1 mod 16 * 4 + b2 / 64; b2 mod 64]
  | [] => []
  end.

(** The characters of a group of one, two or three bytes. *)
Lemma group_digits b0 b1 b2 : is_byte b0 -> is_byte b1 -> is_byte b2 ->
  let n := Z.lor (Z.lor (Z.shiftl b0 16) (Z.shiftl b1 8)) b2 in
  Z.shiftr n 18 mod 64 = b0 / 4 /\ Z.shiftr n 12 mod 64 = b0 mod 4 * 16 + b1 / 16 /\
  Z.shiftr n 6 mod 64 = b1 mod 16 * 4 + b2 / 64 /\ n mod 64 = b2 mod 64.
Proof.
  intros H0 H1 H2. unfold is_byte in *. cbv zeta.
  assert (E : Z.lor (Z.lor (Z.shiftl b0 16) (Z.shiftl b1 8)) b2 = b0 * 65536 + b1 * 256 + b2).
  { replace (Z.lor (Z.shiftl b0 16) (Z.shiftl b1 8)) with (Z.shiftl (b0 * 256 + b1) 8).
    - rewrite Z.lor_comm, lor_shift_add by (change (2 ^ 8) with 256; lia). change (2 ^ 8) with 256. lia.
    - change 16 with (8 + 8). rewrite <- Z.shiftl_shiftl by lia. rewrite <- Z.shiftl_lor. f_equal.
      rewrite Z.lor_comm, lor_shift_add by (change (2 ^ 8) with 256; lia). change (2 ^ 8) with 256. lia. }
  rewrite E, !Z.shiftr_div_pow2 by lia. change (2 ^ 18) with 262144. change (2 ^ 12) with 4096. change (2 ^ 6) with 64.
  clear E. split_and!. all: Z.div_mod_to_equations; lia.
Qed.

(** The first two characters of a group. *)
Lemma decode_two d0 d1 rest out : 0 <= d0 < 64 -> 0 <= d1 < 64 ->
  decode_loop (b64_byte d0 :: b64_byte d1 :: rest) 0 0 out = decode_loop rest (d1 mod 16) 4 (out ++ [d0 * 4 + d1 / 16]).
Proof.
  intros H0 H1. rewrite (decode_step d0 _ 0 0) by (change (2 ^ 0) with 1; lia). change (2 <=? 0) with false. cbv iota.
  rewrite decode_step by (change (2 ^ (0 + 6)) with 64; lia). change (2 <=? 0 + 6) with true. change (0 + 6 - 2) with 4. change (2 ^ 4) with 16. cbv iota.
  f_equal; [|do 2 f_equal]; Z.div_mod_to_equations; lia.
Qed.

Lemma decode_third d2 r rest out : 0 <= d2 < 64 -> 0 <= r < 16 ->
  decode_loop (b64_byte d2 :: rest) r 4 out = decode_loop rest (d2 mod 4) 2 (out ++ [r * 16 + d2 / 4]).
Proof.
  intros H0 H1. rewrite decode_step by (change (2 ^ 4) with 16; lia). change (2 <=? 4) with true. change (4 - 2) with 2. change (2 ^ 2) with 4. cbv iota.
  f_equal; [|do 2 f_equal]; Z.div_mod_to_equations; lia.
Qed.

Lemma decode_fourth d3 r rest out : 0 <= d3 < 64 -> 0 <= r < 4 ->
  decode_loop (b64_byte d3 :: rest) r 2 out = decode_loop rest 0 0 (out ++ [r * 64 + d3]).
Proof.
  intros H0 H1. rewrite decode_step by (change (2 ^ 2) with 4; lia). change (2 <=? 2) with true. change (2 - 2) with 0. change (2 ^ 0) with 1. cbv iota.
  f_equal; [|do 2 f_equal]; Z.div_mod_to_equations; lia.
Qed.

(** What ends the input: nothing, or the padding. *)
Definition ends (rest : list Z) : Prop := rest = [] \/ exists r, rest = 61 :: r.

Lemma decode_ends rest buf bits out : ends rest -> decode_loop rest buf bits out = Some out.
Proof. by intros [->|(r & ->)]. Qed.

Lemma byte_digits b0 b1 b2 : is_byte b0 -> is_byte b1 -> is_byte b2 ->
  0 <= b0 / 4 < 64 /\ 0 <= b0 mod 4 * 16 + b1 / 16 < 64 /\ 0 <= b1 mod 16 * 4 + b2 / 64 < 64 /\ 0 <= b2 mod 64 < 64.
Proof. unfold is_byte. intros. split_and!; Z.div_mod_to_equations; lia. Qed.

(** What [encode_nopad] writes is decoded, whatever padding follows, and every character is of the alphabet. *)
Lemma decode_encoded data : forall rest out, Forall is_byte data -> ends rest ->
  decode_loop (as_bytes (encode_nopad data) ++ rest) 0 0 out = Some (out ++ data).
Proof.
  assert (Hz : is_byte 0) by (unfold is_byte; lia).
  induction data as [[|b0 [|b1 [|b2 data]]] IH] using (induction_ltof1 _ (@length Z)); unfold ltof in IH; intros rest out Hb Hr.
  - cbn [encode_nopad as_bytes app]. by rewrite decode_ends, app_nil_r.
  - apply Forall_cons in Hb as [H0 _]. cbn [encode_nopad]. rewrite as_bytes_app, !b64_char_land.
    pose proof (group_digits b0 0 0 H0 Hz Hz) as (E1 & E2 & _). rewrite Z.shiftl_0_l, !Z.lor_0_r in E1, E2. rewrite E1, E2.
    pose proof (byte_digits b0 0 0 H0 Hz Hz) as (D1 & D2 & _). cbn [app]. rewrite decode_two, decode_ends by done.
    unfold is_byte in *. do 3 f_equal. Z.div_mod_to_equations; lia.
  - apply Forall_cons in Hb as [H0 [H1 _]%Forall_cons]. cbn [encode_nopad]. rewrite !as_bytes_app, !b64_char_land.
    pose proof (group_digits b0 b1 0 H0 H1 Hz) as (E1 & E2 & E3 & _). rewrite !Z.lor_0_r in E1, E2, E3. rewrite E1, E2, E3.
    pose proof (byte_digits b0 b1 0 H0 H1 Hz) as (D1 & D2 & D3 & _). cbn [app]. rewrite decode_two, decode_third, decode_ends by (try done; apply Z.mod_pos_bound; lia).
    unfold is_byte in *. rewrite <- app_assoc. cbn [app]. do 2 f_equal. f_equal; [Z.div_mod_to_equations; lia|]. f_equal. Z.div_mod_to_equations; lia.
  - apply Forall_cons in Hb as [H0 [H1 [H2 Hb]%Forall_cons]%Forall_cons]. cbn [encode_nopad]. rewrite !as_bytes_app, !b64_char_land.
    pose proof (group_digits b0 b1 b2 H0 H1 H2) as (E1 & E2 & E3 & E4). rewrite E1, E2, E3, E4.
    pose proof (byte_digits b0 b1 b2 H0 H1 H2) as (D1 & D2 & D3 & D4). rewrite <- !app_assoc. cbn [app].
    rewrite decode_two, decode_third, decode_fourth, IH by (try done; try (apply Z.mod_pos_bound; lia); cbn [length]; lia).
    unfold is_byte in *. rewrite <- !app_assoc. cbn [app]. do 2 f_equal. f_equal; [Z.div_mod_to_equations; lia|].
    f_equal; [Z.div_mod_to_equations; lia|]. f_equal. Z.div_mod_to_equations; lia.
Qed.

(** The text is made of characters of the alphabet. *)
Definition plain_byte (b : Z) : Prop := 33 <= b < 128.

Lemma encoded_plain data : Forall plain_byte (as_bytes (encode_nopad data)).
Proof.
  assert (H : forall n, Forall plain_byte (as_bytes (b64_char n))).
  { intros n. rewrite b64_char_land. apply Forall_cons. split; [|constructor]. apply bf_range, alphabet_facts, Z.mod_pos_bound. lia. }
  induction data as [[|b0 [|b1 [|b2 data]]] IH] using (induction_ltof1 _ (@length Z)); unfold ltof in IH; cbn [encode_nopad];
    rewrite ?as_bytes_app, ?Forall_app; [constructor|auto..].
  split_and!; auto. apply IH. cbn [length]. lia.
Qed.

Lemma decode_with rest data : ends rest -> Forall plain_byte rest -> Forall is_byte data -> decode (as_bytes (encode_nopad data) ++ rest) = Some data.
Proof.
  intros Hr Hp Hd. unfold decode. rewrite trim_ascii by (apply Forall_app; split; [apply encoded_plain|done]).
  pose proof (decode_encoded data rest [] Hd Hr) as E. cbn [app] in E. rewrite E. case_bool_decide as Hn; [|done].
  rewrite Hn in E. cbn in E. by injection E as <-.
Qed.

(** The padding. *)
Definition pad_of (data : list Z) : list Z := as_bytes (match str_len (encode_nopad data) mod 4 with 2 => "==" | 3 => "=" | 1 => "===" | _ => "" end).

Lemma encode_app data : as_bytes (encode data) = as_bytes (encode_nopad data) ++ pad_of data.
Proof. unfold encode. by rewrite as_bytes_app. Qed.

Lemma pad_ok data : ends (pad_of data) /\ Forall plain_byte (pad_of data).
Proof.
  unfold pad_of. destruct (str_len _ mod 4) as [|[[]|[]|]|]; (split; [first [by left | right; by eexists]|]);
    cbn; repeat first [apply Forall_nil_2 | apply Forall_cons_2 | by unfold plain_byte; vm_compute].
Qed.

Lemma encode_plain data : Forall plain_byte (as_bytes (encode data)).
Proof. rewrite encode_app. apply Forall_app. split; [apply encoded_plain|apply pad_ok]. Qed.

Lemma decode_encode data : Forall is_byte data -> decode (as_bytes (encode data)) = Some data.
Proof. intros Hd. rewrite encode_app. apply decode_with; [apply pad_ok..|done]. Qed.

(** Base64 decodes what it encoded, with the padding and without it. *)
Theorem base64_roundtrip data : Forall is_byte data ->
  decode (as_bytes (encode_nopad data)) = Some data /\ decode (as_bytes (encode data)) = Some data.
Proof.
  intros Hd. split; [|by apply decode_encode]. rewrite <- (app_nil_r (as_bytes _)). apply decode_with; [by left|constructor|done].
Qed.

(** ** Witnesses *)

Lemma ssh_fields_roundtrip_witness :
  exists bytes, put_fields [FU8 50; FString [114; 111]; FBool true; FU32 7; FNames ["none"; "zlib"]] [] = [] ++ bytes /\
    get_fields [FU8 50; FString [114; 111]; FBool true; FU32 7; FNames ["none"; "zlib"]] (reader bytes) =
      (mkReader bytes (len bytes), Ok [FU8 50; FString [114; 111]; FBool true; FU32 7; FNames ["none"; "zlib"]]).
Proof.
  destruct (ssh_fields_roundtrip [FU8 50; FString [114; 111]; FBool true; FU32 7; FNames ["none"; "zlib"]] []) as (bytes & Hp & Hg).
  - apply Forall_cons_2; [cbn; unfold is_byte; lia|]. apply Forall_cons_2; [cbn; vm_compute; congruence|].
    apply Forall_cons_2; [done|]. apply Forall_cons_2; [cbn; lia|]. apply Forall_cons_2; [|apply Forall_nil_2].
    cbn. split; [|by vm_compute]. repeat apply Forall_cons_2; try apply Forall_nil_2; (split; [|done]); repeat split; congruence.
  - exists bytes. split; [exact Hp|]. apply (Hg (reader bytes) []). exists []. cbn. by rewrite app_nil_r.
Defined.

Lemma ssh_packet_roundtrip_witness :
  parse_packet (frame_packet [21] 8 0 ++ [1; 2]) = Ok ([21], 16) /\ parse_packet (frame_packet_aead [21] 8 0 ++ []) = Ok ([21], 12).
Proof.
  pose proof (ssh_packet_roundtrip [21] 8 0 [1; 2] ltac:(lia) ltac:(unfold MAX_PACKET; cbn; lia)) as (H1 & _).
  pose proof (ssh_packet_roundtrip [21] 8 0 [] ltac:(lia) ltac:(unfold MAX_PACKET; cbn; lia)) as (_ & H2 & _).
  split; [exact H1|exact H2].
Defined.

Lemma base64_roundtrip_witness : decode (as_bytes (encode [1; 2])) = Some [1; 2].
Proof. apply (base64_roundtrip [1; 2]). repeat constructor; unfold is_byte; lia. Defined.
