(* ===== verification/SshCrypt.v ===== *)
(** * SshCrypt: keys and records of an SSH transport (kernel/src/drivers/ssh/crypt.rs, kex.rs; drivers/passwd.rs)

    The record protection of chacha20-poly1305@openssh.com, the server side of the key
    exchange, the derivation of keys, and PBKDF2.  The primitives come from crates that
    are not in the repository: they are the operations of the class [Crypto], and what
    the code relies on are the laws of [CryptoLaws].  A fixed array of the code is a
    list here. *)

From S2P Require Import Prelude Text SshProto.

Open Scope Z_scope.

(** ** The primitives

    [keystream key nonce pos n] is [n] bytes of ChaCha20 from the position [pos];
    [x_ephemeral] draws a secret for X25519; [ed_from_bytes] is the check of
    [VerifyingKey::from_bytes]. *)
Class Crypto (R : Type) := {
  next_u32 : R -> R * Z;
  fill_bytes : Z -> R -> R * list Z;
  sha256 : list Z -> list Z;
  keystream : list Z -> list Z -> Z -> nat -> list Z;
  poly1305 : list Z -> list Z -> list Z;
  x_ephemeral : R -> R * list Z;
  x_public : list Z -> list Z;
  x_shared : list Z -> list Z -> list Z;
  ed_public : list Z -> list Z;
  ed_sign : list Z -> list Z -> list Z;
  ed_from_bytes : list Z -> bool;
  ed_verify_strict : list Z -> list Z -> list Z -> bool;
}.

(** Arrays have their length and hold bytes. *)
Definition bytes_n (n : nat) (l : list Z) : Prop := length l = n /\ bytes_ok l.

Class CryptoLaws (R : Type) `{!Crypto R} := {
  fill_bytes_ok n r : bytes_n (Z.to_nat n) (fill_bytes n r).2;
  sha256_ok l : bytes_n 32 (sha256 l);
  keystream_ok k n p m : bytes_n m (keystream k n p m);
  poly1305_ok k m : bytes_n 16 (poly1305 k m);
  x_public_ok s : bytes_n 32 (x_public s);
  x_shared_ok s p : bytes_n 32 (x_shared s p);
  ed_public_ok s : bytes_n 32 (ed_public s);
  ed_sign_ok s m : bytes_n 64 (ed_sign s m);
}.

Section crypt.
Context {R : Type} `{HC : !Crypto R}.

(** ** Records *)

Definition CIPHER_NAME : string := "chacha20-poly1305@openssh.com".
(* @src kernel/src/drivers/ssh/crypt.rs 14-14 TAG_LEN *)
Definition TAG_LEN : Z := 16.

(** [apply_keystream]. *)
Definition apply_keystream (key nonce : list Z) (pos : Z) (buf : list Z) : list Z :=
  zip_with Z.lxor buf (keystream key nonce pos (length buf)).

(* @src kernel/src/drivers/ssh/crypt.rs 18-22 Aead *)
Record Aead := mkAead { k1 : list Z; k2 : list Z }.

(* @src kernel/src/drivers/ssh/crypt.rs 31-37 Aead::new *)
Definition aead_new (key_material : list Z) : Aead := mkAead (drop 32 key_material) (take 32 key_material).

(* @src kernel/src/drivers/ssh/crypt.rs 39-42 Aead::nonce *)
Definition nonce (seq : Z) : list Z := be_bytes 8 seq.

(** The key of the tag is the start of the key stream of [k2]; the packet takes the
    stream from its second block. *)
Definition poly_key (a : Aead) (seq : Z) : list Z := apply_keystream (k2 a) (nonce seq) 0 (replicate 32 0).

(* @src kernel/src/drivers/ssh/crypt.rs 44-77 Aead::seal *)
Definition seal (a : Aead) (framed : list Z) (seq : Z) : KResult (list Z) :=
  if len framed <? 4 then Err InvalidArgument
  else
    let enc_len := apply_keystream (k1 a) (nonce seq) 0 (take 4 framed) in
    let enc_rest := apply_keystream (k2 a) (nonce seq) 64 (drop 4 framed) in
    let tag := poly1305 (poly_key a seq) (enc_len ++ enc_rest) in
    Ok (enc_len ++ enc_rest ++ tag).

(* @src kernel/src/drivers/ssh/crypt.rs 79-86 Aead::open_length *)
Definition open_length (a : Aead) (enc_len : list Z) (seq : Z) : KResult Z :=
  Ok (of_be (apply_keystream (k1 a) (nonce seq) 0 enc_len)).

(* @src kernel/src/drivers/ssh/crypt.rs 88-122 Aead::open *)
Definition aead_open (a : Aead) (record : list Z) (seq : Z) : KResult (list Z) :=
  if len record <? 4 + TAG_LEN then Err InvalidArgument
  else
    let enc_len := take 4 record in
    let tail := drop 4 record in
    let enc_ct := take (Z.to_nat (len tail - TAG_LEN)) tail in
    let tag_rx := drop (Z.to_nat (len tail - TAG_LEN)) tail in
    let tag := poly1305 (poly_key a seq) (enc_len ++ enc_ct) in
    if negb (bool_decide (tag = tag_rx)) then Err InvalidArgument
    else
      let pt := apply_keystream (k2 a) (nonce seq) 64 enc_ct in
      match pt with
      | [] => Err InvalidArgument
      | pad_len :: _ =>
        if len pt <? 1 + pad_len then Err InvalidArgument
        else Ok (slice 1 (len pt - pad_len - 1) pt)
      end.

(** ** Key exchange *)

(* @src kernel/src/drivers/ssh/kex.rs 11-17 KEX_NAME, HOSTKEY_NAME, X25519_POINT_LEN *)
Definition KEX_NAME : string := "curve25519-sha256".
Definition KEX_NAME_ALIAS : string := "curve25519-sha256@libssh.org".
Definition HOSTKEY_NAME : string := "ssh-ed25519".
Definition X25519_POINT_LEN : Z := 32.

(* @src kernel/src/drivers/ssh/kex.rs 19-24 host_key_blob *)
Definition host_key_blob (vk : list Z) : list Z := put_string vk (put_string (as_bytes HOSTKEY_NAME) []).
(* @src kernel/src/drivers/ssh/kex.rs 26-31 signature_blob *)
Definition signature_blob (sig : list Z) : list Z := put_string sig (put_string (as_bytes HOSTKEY_NAME) []).

(* @src kernel/src/drivers/ssh/kex.rs 33-53 exchange_hash *)
Definition exchange_hash (v_c v_s i_c i_s k_s q_c q_s k : list Z) : list Z :=
  sha256 (put_mpint_uint k (put_string q_s (put_string q_c (put_string k_s
    (put_string i_s (put_string i_c (put_string v_s (put_string v_c [])))))))).

(* @src kernel/src/drivers/ssh/kex.rs 55-59 k_as_mpint *)
Definition k_as_mpint (k_raw : list Z) : list Z := put_mpint_uint k_raw [].

(** Hashes until there are [n] bytes. *)
(* @src kernel/src/drivers/ssh/kex.rs 69-83 derive_key (loop) *)
Fixpoint derive_loop (k_mpint h prev : list Z) (n : Z) (out : list Z) (fuel : nat) : option (list Z) :=
  let out := out ++ take (Z.to_nat (Z.min (len prev) (n - len out))) prev in
  if n <=? len out then Some out
  else match fuel with O => None | S fuel => derive_loop k_mpint h (sha256 (k_mpint ++ h ++ prev)) n out fuel end.
(* @src kernel/src/drivers/ssh/kex.rs 61-84 derive_key *)
Definition derive_key (k_mpint h : list Z) (x : Z) (session_id : list Z) (n : Z) : option (list Z) :=
  derive_loop k_mpint h (sha256 (k_mpint ++ h ++ [x] ++ session_id)) n [] (Z.to_nat n).

(* @src kernel/src/drivers/ssh/kex.rs 86-96 KexResult *)
Record KexResult := mkKex { kx_h : list Z; kx_k_mpint : list Z; kx_q_s : list Z; kx_k_s : list Z; kx_sig_blob : list Z }.

Definition all_zero (l : list Z) : bool := forallb (Z.eqb 0) l.

(* @src kernel/src/drivers/ssh/kex.rs 98-143 run_server *)
Definition run_server (host_sk v_c v_s i_c i_s q_c : list Z) : ST R KexResult := fun rng =>
  if negb (len q_c =? X25519_POINT_LEN) then (rng, Err InvalidArgument)
  else if all_zero q_c then (rng, Err InvalidArgument)
  else
    let '(rng, secret) := x_ephemeral rng in
    let q_s := x_public secret in
    let k_raw := x_shared secret q_c in
    if all_zero k_raw then (rng, Err InvalidArgument)
    else
      let k_s := host_key_blob (ed_public host_sk) in
      let h := exchange_hash v_c v_s i_c i_s k_s q_c q_s k_raw in
      (rng, Ok (mkKex h (k_as_mpint k_raw) q_s k_s (signature_blob (ed_sign host_sk h)))).

(** ** Passwords *)

Definition xor_all (l : list Z) (b : Z) : list Z := (fun x => Z.lxor x b) <$> l.

(* @src kernel/src/drivers/passwd.rs 43-69 hmac_sha256 *)
Definition hmac_sha256 (key msg : list Z) : list Z :=
  let k := let k := if 64 <? len key then sha256 key else key in k ++ replicate (64 - length k) 0 in
  sha256 (xor_all k 0x5c ++ sha256 (xor_all k 0x36 ++ msg)).

(* @src kernel/src/drivers/passwd.rs 79-84 pbkdf2_hmac_sha256 (loop) *)
Fixpoint pbkdf2_loop (password u out : list Z) (n : nat) : list Z :=
  match n with
  | O => out
  | S n => let u := hmac_sha256 password u in pbkdf2_loop password u (zip_with Z.lxor out u) n
  end.
(* @src kernel/src/drivers/passwd.rs 71-86 pbkdf2_hmac_sha256 *)
Definition pbkdf2_hmac_sha256 (password salt : list Z) (iterations : Z) : list Z :=
  let u := hmac_sha256 password (salt ++ be_bytes 4 1) in
  pbkdf2_loop password u u (Z.to_nat (iterations - 1)).

End crypt.
