(* ===== verification/SshAuth.v ===== *)
(** * SshAuth: who may log in (kernel/src/drivers/ssh/auth.rs, config.rs; drivers/passwd.rs)

    Passwords against the lines of /etc/passwd, public keys against
    /etc/authorized_keys, and the line that the password device writes.  Texts are
    their bytes; what [resolve] and [read_at] answer for a file is an argument. *)

From Stdlib Require Import Ascii.
From S2P Require Import Prelude Text SshProto SshCrypt.

Open Scope Z_scope.

(* @src kernel/src/drivers/ssh/config.rs 6-8 DEV_USER, DEV_PASSWORD *)
Definition DEV_USER : list Z := as_bytes "youareme".
Definition DEV_PASSWORD : list Z := as_bytes "851963Y@#".

(* @src kernel/src/drivers/ssh/auth.rs 11-11 PUBLICKEY_ALGO *)
Definition PUBLICKEY_ALGO : list Z := as_bytes "ssh-ed25519".

(* @src kernel/src/drivers/ssh/auth.rs 13-18 AuthResult *)
Inductive AuthResult : Type := Success | Failure | PartialSuccess.
#[export] Instance AuthResult_eq_dec : EqDecision AuthResult.
Proof. solve_decision. Defined.

(* @src kernel/src/drivers/ssh/auth.rs 31-36 ct_eq *)
Definition ct_eq (a b : list Z) : bool := if len a =? len b then bool_decide (a = b) else false.

(** ** Hexadecimal *)

(* @src kernel/src/drivers/ssh/auth.rs 38-45 hex_val *)
Definition hex_val (c : Z) : option Z :=
  if (48 <=? c) && (c <=? 57) then Some (c - 48)
  else if (97 <=? c) && (c <=? 102) then Some (c - 97 + 10)
  else if (65 <=? c) && (c <=? 70) then Some (c - 65 + 10)
  else None.

Fixpoint hex_loop (b out : list Z) : option (list Z) :=
  match b with
  | c0 :: c1 :: b => hi ← hex_val c0; lo ← hex_val c1; hex_loop b (out ++ [Z.lor (Z.shiftl hi 4) lo])
  | _ => Some out
  end.
(* @src kernel/src/drivers/ssh/auth.rs 47-61 hex_decode *)
Definition hex_decode (b : list Z) : option (list Z) :=
  if bool_decide (b = []) || negb (len b mod 2 =? 0) then None else hex_loop b [].

(* @src kernel/src/drivers/passwd.rs 36-36 HEX *)
Definition HEX : list Z := as_bytes "0123456789abcdef".
(* @src kernel/src/drivers/passwd.rs 38-41 hex_push *)
Definition hex_push (b : Z) (out : list Z) : list Z := out ++ [at_ HEX (Z.shiftr b 4)] ++ [at_ HEX (Z.land b 0xf)].

Section auth.
Context {R : Type} `{HC : !Crypto R}.

(** ** Passwords *)

(** [Some(h)] with the salt decoded and a hash of 32 bytes. *)
Definition salt_and_hash (salt_hex hash_hex : list Z) : option (list Z * list Z) :=
  match hex_decode salt_hex, hex_decode hash_hex with
  | Some s, Some h => if len h =? 32 then Some (s, h) else None
  | _, _ => None
  end.

Definition dollar : Z := 36.

(* @src kernel/src/drivers/ssh/auth.rs 67-106 verify_stored *)
Definition verify_stored (field password : list Z) : bool :=
  match strip_prefix (as_bytes "$pbkdf2-sha256$i=") field with
  | Some rest =>
    match splitn 3 dollar rest with
    | [iter_str; salt_hex; hash_hex] =>
      match parse_u32 iter_str with
      | Some n =>
        if (0 <? n) && (n <=? 100000) then
          match salt_and_hash salt_hex hash_hex with
          | Some (salt, expected) => ct_eq (pbkdf2_hmac_sha256 password salt n) expected
          | None => false
          end
        else false
      | None => false
      end
    | _ => false
    end
  | None =>
    match strip_prefix (as_bytes "$s5$") field with
    | Some rest =>
      match splitn 2 dollar rest with
      | [salt_hex; hash_hex] =>
        match salt_and_hash salt_hex hash_hex with
        | Some (salt, expected) => ct_eq (sha256 (salt ++ password)) expected
        | None => false
        end
      | _ => false
      end
    | None => ct_eq password field
    end
  end.

(** The lines of the file: whether one is an entry, and the answer of the first that
    names the user. *)
(* @src kernel/src/drivers/ssh/auth.rs 114-131 check_password (lines) *)
Fixpoint passwd_lines (ls : list (list Z)) (user password : list Z) (has_entries : bool) : bool * option AuthResult :=
  match ls with
  | [] => (has_entries, None)
  | line :: ls =>
    let line := trim line in
    if bool_decide (line = []) || (at_ line 0 =? 35) then passwd_lines ls user password has_entries
    else
      match split_on 58 line with
      | u :: field :: _ =>
        if ct_eq user (trim u) then (true, Some (if verify_stored (trim field) password then Success else Failure))
        else passwd_lines ls user password true
      | _ => passwd_lines ls user password has_entries
      end
  end.

(** [file] is what the first 512 bytes of /etc/passwd are, or why there are none. *)
(* @src kernel/src/drivers/ssh/auth.rs 108-149 check_password *)
Definition check_password (file : KResult (list Z)) (user password : list Z) : AuthResult :=
  let '(has_entries, answer) :=
    match file with
    | Ok content => if utf8_valid content then passwd_lines (lines content) user password false else (false, None)
    | Err _ => (false, None)
    end in
  match answer with
  | Some r => r
  | None =>
    if has_entries then Failure
    else if ct_eq user DEV_USER && ct_eq password DEV_PASSWORD then Success else Failure
  end.

(* @src kernel/src/drivers/passwd.rs 21-23 USER_MAX, PASS_MAX, SALT_LEN *)
Definition USER_MAX : Z := 64.
Definition PASS_MAX : Z := 128.
Definition SALT_LEN : Z := 16.
(* @src kernel/src/drivers/passwd.rs 88-88 PBKDF2_ROUNDS *)
Definition PBKDF2_ROUNDS : Z := 1000.

Definition has_byte (c : Z) (l : list Z) : bool := bool_decide (c ∈ l).

(* @src kernel/src/drivers/passwd.rs 92-118 hash_line *)
Definition hash_line (user password : list Z) : ST R (list Z) := fun rng =>
  if bool_decide (user = []) || has_byte 58 user || has_byte 10 user then (rng, Err InvalidArgument)
  else if bool_decide (password = []) || has_byte 58 password || has_byte 10 password then (rng, Err InvalidArgument)
  else
    let '(rng, salt) := fill_bytes SALT_LEN rng in
    let hash := pbkdf2_hmac_sha256 password salt PBKDF2_ROUNDS in
    let line := user ++ [58] ++ as_bytes "$pbkdf2-sha256$i=1000$" in
    let line := foldl (flip hex_push) line salt in
    let line := foldl (flip hex_push) (line ++ [dollar]) hash in
    (rng, Ok (line ++ [10])).

(** ** Public keys *)

(* @src kernel/src/drivers/ssh/auth.rs 151-162 signed_blob *)
Definition signed_blob (session_id user algo key_blob : list Z) : list Z :=
  put_string key_blob (put_string algo (put_bool true (put_string (as_bytes "publickey")
    (put_string (as_bytes "ssh-connection") (put_string user (put_u8 SSH_MSG_USERAUTH_REQUEST (put_string session_id []))))))).

Definition key_of_line (line : list Z) : option (list Z) :=
  let line := trim line in
  if bool_decide (line = []) || (at_ line 0 =? 35) then None
  else
    match split_whitespace line with
    | key_type :: b64_blob :: _ =>
      if negb (bool_decide (key_type = as_bytes "ssh-ed25519")) then None
      else
        blob ← decode b64_blob;
        if (len blob =? 51) && bool_decide (slice 4 11 blob = as_bytes "ssh-ed25519") then Some blob else None
    | _ => None
    end.

(** [file] is what the first 2048 bytes of /etc/authorized_keys are. *)
(* @src kernel/src/drivers/ssh/config.rs 17-52 authorized_key_blobs *)
Definition authorized_key_blobs (file : KResult (list Z)) : list (list Z) :=
  match file with
  | Ok content => if utf8_valid content then omap key_of_line (lines content) else []
  | Err _ => []
  end.

(* @src kernel/src/drivers/ssh/auth.rs 164-170 is_authorized_key *)
Definition is_authorized_key (file : KResult (list Z)) (key_blob : list Z) : bool :=
  foldl (fun authorized k => authorized || ct_eq k key_blob) false (authorized_key_blobs file).

(** A string of the algorithm, then one of [n] bytes. *)
Definition parse_blob (n : Z) (blob : list Z) : KResult (list Z) :=
  snd ((algo ← get_string;
   if negb (bool_decide (algo = PUBLICKEY_ALGO)) then fail InvalidArgument
   else pk ← get_string; if len pk =? n then mret pk else fail InvalidArgument) (reader blob)).

(* @src kernel/src/drivers/ssh/auth.rs 172-179 parse_ed25519_key *)
Definition parse_ed25519_key (key_blob : list Z) : KResult (list Z) := parse_blob 32 key_blob.
(* @src kernel/src/drivers/ssh/auth.rs 181-188 parse_ed25519_sig *)
Definition parse_ed25519_sig (sig_blob : list Z) : KResult (list Z) := parse_blob 64 sig_blob.

(* @src kernel/src/drivers/ssh/auth.rs 190-198 probe_publickey *)
Definition probe_publickey (file : KResult (list Z)) (algo key_blob : list Z) : bool :=
  if negb (bool_decide (algo = PUBLICKEY_ALGO)) then false
  else if negb (is_ok (parse_ed25519_key key_blob)) then false
  else is_authorized_key file key_blob.

(* @src kernel/src/drivers/ssh/auth.rs 200-234 verify_publickey *)
Definition verify_publickey (file : KResult (list Z)) (user algo key_blob signature session_id : list Z) : AuthResult :=
  if negb (bool_decide (algo = PUBLICKEY_ALGO)) then Failure
  else if negb (is_authorized_key file key_blob) then Failure
  else
    match parse_ed25519_key key_blob with
    | Err _ => Failure
    | Ok pk =>
      match parse_ed25519_sig signature with
      | Err _ => Failure
      | Ok sig =>
        if negb (ed_from_bytes pk) then Failure
        else if ed_verify_strict pk (signed_blob session_id user algo key_blob) sig then Success else Failure
      end
    end.

End auth.
