(* ===== verification/SshAuthOps.v ===== *)
(** * SshAuthOps: who may log in

    The line that the password device writes lets in its user with a password of the
    same hash and nobody else; an authorized key lets in who signs with it. *)

From Stdlib Require Import Ascii.
From S2P Require Import Prelude Text SshProto SshProtoOps SshCrypt SshCryptOps SshAuth.

Open Scope Z_scope.

(** ** Hexadecimal *)

Definition hexes (l : list Z) : list Z := l ≫= (fun b => [at_ HEX (Z.shiftr b 4); at_ HEX (Z.land b 0xf)]).

Lemma hex_push_all l line : foldl (flip hex_push) line l = line ++ hexes l.
Proof.
  revert line. induction l as [|b l IH]; intros line; cbn [foldl]; [by rewrite app_nil_r|]. rewrite IH. unfold flip, hex_push, hexes. cbn. by rewrite <- app_assoc.
Qed.

Definition hex_digit (c : Z) : Prop := 48 <= c <= 57 \/ 97 <= c <= 102.

Lemma hex_table : forallb (fun n => let b := Z.of_nat n in
  bool_decide (hex_loop [at_ HEX (Z.shiftr b 4); at_ HEX (Z.land b 0xf)] [] = Some [b]) &&
  bool_decide (Forall (fun c => 48 <= c <= 57 \/ 97 <= c <= 102) [at_ HEX (Z.shiftr b 4); at_ HEX (Z.land b 0xf)])) (seq 0 256) = true.
Proof. vm_compute. reflexivity. Qed.

Lemma hex_byte b : is_byte b ->
  hex_loop [at_ HEX (Z.shiftr b 4); at_ HEX (Z.land b 0xf)] [] = Some [b] /\
  Forall hex_digit [at_ HEX (Z.shiftr b 4); at_ HEX (Z.land b 0xf)].
Proof.
  intros Hb. pose proof hex_table as Ht. rewrite forallb_forall in Ht. specialize (Ht (Z.to_nat b)).
  unfold is_byte in Hb. rewrite Z2Nat.id in Ht by lia. specialize (Ht ltac:(apply in_seq; lia)). cbv zeta in Ht.
  apply andb_true_iff in Ht as [H1%bool_decide_eq_true H2%bool_decide_eq_true]. split; [exact H1|exact H2].
Qed.

Lemma hexes_digits l : bytes_ok l -> Forall hex_digit (hexes l).
Proof. induction 1 as [|b l Hb Hl IH]; [constructor|]. change (hexes (b :: l)) with ([at_ HEX (Z.shiftr b 4); at_ HEX (Z.land b 0xf)] ++ hexes l). apply Forall_app. split; [by apply hex_byte|done]. Qed.

Lemma hexes_len l : length (hexes l) = (2 * length l)%nat.
Proof. induction l as [|b l IH]; [done|]. change (hexes (b :: l)) with ([at_ HEX (Z.shiftr b 4); at_ HEX (Z.land b 0xf)] ++ hexes l). rewrite length_app, IH. cbn. lia. Qed.

Lemma hex_loop_out b out : hex_loop b out = (app out) <$> hex_loop b [].
Proof.
  revert out. induction b as [[|c0 [|c1 b]] IH] using (induction_ltof1 _ (@length Z)); unfold ltof in IH; intros out; cbn [hex_loop]; try (cbn; by rewrite app_nil_r).
  destruct (hex_val c0) as [hi|]; [|done]. cbn. destruct (hex_val c1) as [lo|]; [|done]. cbn.
  rewrite (IH b ltac:(cbn; lia) (out ++ _)), (IH b ltac:(cbn; lia) [_]). destruct (hex_loop b []); cbn; [|done]. by rewrite <- app_assoc.
Qed.

Lemma hex_decode_hexes l : l <> [] -> bytes_ok l -> hex_decode (hexes l) = Some l.
Proof.
  intros Hne Hl. unfold hex_decode. rewrite bool_decide_false by (by destruct l). rewrite hexes_len, Nat2Z.inj_mul, Z.mul_comm, Z.mod_mul by lia. cbn [orb negb Z.eqb].
  clear Hne. induction Hl as [|b l Hb Hl IH]; [done|]. destruct (hex_byte b Hb) as [H1 _].
  change (hexes (b :: l)) with (at_ HEX (Z.shiftr b 4) :: at_ HEX (Z.land b 0xf) :: hexes l).
  revert H1. generalize (at_ HEX (Z.shiftr b 4)) (at_ HEX (Z.land b 0xf)). intros c0 c1. cbn [hex_loop].
  destruct (hex_val c0) as [hi|]; [|done]. cbn. destruct (hex_val c1) as [lo|]; [|done]. cbn. intros [= ->]. by rewrite hex_loop_out, IH.
Qed.

(** No separator of the file is a digit. *)
Lemma hex_digit_plain l : Forall hex_digit l -> Forall plain_byte l /\ forall c, c ∈ [10; 13; 36; 58] -> ~ (c ∈ l).
Proof.
  intros H. split; [eapply Forall_impl; [exact H|]; unfold hex_digit, plain_byte; intros; lia|]. intros c Hc Hin. rewrite Forall_forall in H. specialize (H c Hin).
  unfold hex_digit in H. rewrite !elem_of_cons in Hc. destruct Hc as [->|[->|[->|[->|[]%elem_of_nil]]]]; lia.
Qed.

Lemma utf8_ascii l : Forall (fun b => b < 128) l -> utf8_valid (l ++ [10]) = true.
Proof. induction 1 as [|b l Hb Hl IH]; [done|]. cbn [app utf8_valid]. destruct (Z.ltb_spec b 128); [exact IH|lia]. Qed.

Lemma plain_ascii l : Forall plain_byte l -> Forall (fun b => b < 128) l.
Proof. intros H. eapply Forall_impl; [exact H|]. unfold plain_byte. intros. lia. Qed.

(** ** The line of a password *)

(** A user name in printable ASCII that is not taken for a comment or for two fields. *)
Definition good_name (user : list Z) : Prop :=
  user <> [] /\ Forall plain_byte user /\ ~ (58 ∈ user) /\ at_ user 0 <> 35.

Section auth.
Context {R : Type} `{HC : !Crypto R, HL : !CryptoLaws R}.

Definition field_of (salt hash : list Z) : list Z := as_bytes "$pbkdf2-sha256$i=1000$" ++ hexes salt ++ [dollar] ++ hexes hash.

Lemma hmac_ok k m : bytes_n 32 (hmac_sha256 k m).
Proof. apply sha256_ok. Qed.

Lemma lxor_byte a b : is_byte a -> is_byte b -> is_byte (Z.lxor a b).
Proof.
  unfold is_byte. intros Ha Hb. assert (Hn : 0 <= Z.lxor a b) by (apply Z.lxor_nonneg; lia). split; [exact Hn|].
  destruct (Z.eq_dec (Z.lxor a b) 0) as [->|Hz]; [lia|]. apply (Z.log2_lt_pow2 _ 8); [lia|].
  apply Z.le_lt_trans with (Z.max (Z.log2 a) (Z.log2 b)); [apply Z.log2_lxor; lia|].
  assert (forall x, 0 <= x < 256 -> Z.log2 x < 8) by (intros x Hx; destruct (Z.eq_dec x 0) as [->|]; [done|apply Z.log2_lt_pow2; lia]).
  apply Z.max_lub_lt; auto.
Qed.

Lemma pbkdf2_loop_ok p n : forall u out, bytes_n 32 out -> bytes_n 32 (pbkdf2_loop p u out n).
Proof.
  induction n as [|n IH]; intros u out Ho; cbn [pbkdf2_loop]; [exact Ho|]. apply IH.
  destruct (hmac_ok p u) as [H1 H2], Ho as [H3 H4]. split; [rewrite length_zip_with; lia|].
  unfold bytes_ok. apply Forall_lookup. intros i x Hx. apply lookup_zip_with_Some in Hx as (a & b & -> & Ha & Hb).
  apply lxor_byte; [exact (Forall_lookup_1 _ _ _ _ H4 Ha)|exact (Forall_lookup_1 _ _ _ _ H2 Hb)].
Qed.
Lemma pbkdf2_ok p s n : bytes_n 32 (pbkdf2_hmac_sha256 p s n).
Proof. apply pbkdf2_loop_ok, hmac_ok. Qed.

Lemma verify_field salt hash password : salt <> [] -> bytes_ok salt -> bytes_n 32 hash ->
  verify_stored (field_of salt hash) password = ct_eq (pbkdf2_hmac_sha256 password salt 1000) hash.
Proof.
  intros Hs Hso [Hh Hho]. unfold verify_stored, field_of.
  change (as_bytes "$pbkdf2-sha256$i=1000$") with (as_bytes "$pbkdf2-sha256$i=" ++ as_bytes "1000" ++ [dollar]). rewrite <- !app_assoc, strip_prefix_app.
  destruct (hex_digit_plain _ (hexes_digits salt Hso)) as [_ Hd]. unfold splitn.
  change (cut dollar (as_bytes "1000" ++ [dollar] ++ hexes salt ++ [dollar] ++ hexes hash)) with (as_bytes "1000", Some (hexes salt ++ dollar :: hexes hash)). cbv beta iota.
  rewrite cut_app by (apply Hd; rewrite !elem_of_cons; auto). change (parse_u32 (as_bytes "1000")) with (Some 1000). cbv iota.
  change ((0 <? 1000) && (1000 <=? 100000)) with true. cbv iota. unfold salt_and_hash. rewrite !hex_decode_hexes by (try done; by destruct hash). rewrite Hh.
  by change (Z.of_nat 32 =? 32) with true.
Qed.

Lemma lines_one body : ~ (10 ∈ body) -> last body <> Some 13 -> lines (body ++ [10]) = [body].
Proof.
  intros Hn Hl. unfold lines. rewrite split_on_app by done. cbn [split_on lines_of]. rewrite bool_decide_true by done.
  unfold strip_cr. destruct (last body) as [z|]; [|done]. assert (z <> 13) by congruence. do 5 (destruct z as [|[z|z|]|]; try done); congruence.
Qed.

(** The salt that the generator gives. *)
Definition salt_of (r : R) : list Z := (fill_bytes SALT_LEN r).2.

Lemma salt_ok r : salt_of r <> [] /\ bytes_ok (salt_of r) /\ length (salt_of r) = 16%nat.
Proof. unfold salt_of. destruct (fill_bytes_ok (R := R) SALT_LEN r) as [H1 H2]. unfold SALT_LEN in *. split_and!; [|done..]. intros E. by rewrite E in H1. Qed.

Definition entry (user password : list Z) (r : R) : list Z := user ++ [58] ++ field_of (salt_of r) (pbkdf2_hmac_sha256 password (salt_of r) 1000).

Lemma hash_line_entry user password r :
  (hash_line user password r).2 =
    if bool_decide (user = []) || has_byte 58 user || has_byte 10 user || bool_decide (password = []) || has_byte 58 password || has_byte 10 password
    then Err InvalidArgument else Ok (entry user password r ++ [10]).
Proof.
  unfold hash_line, entry, field_of, salt_of. destruct (_ || has_byte 10 user); [done|]. cbn [orb]. destruct (_ || has_byte 10 password); [done|]. cbn [orb].
  destruct (fill_bytes SALT_LEN r) as [r' salt]. cbn [snd]. rewrite !hex_push_all. change PBKDF2_ROUNDS with 1000. by rewrite <- !app_assoc.
Qed.

Lemma entry_plain user password r : good_name user -> Forall plain_byte (entry user password r).
Proof.
  intros (_ & Hu & _). destruct (salt_ok r) as (_ & Hs & _). destruct (pbkdf2_ok password (salt_of r) 1000) as [_ Hh].
  unfold entry, field_of. apply Forall_app. split; [done|]. apply Forall_cons. split; [unfold plain_byte; lia|].
  apply Forall_app. split; [repeat (apply Forall_cons; split; [by unfold plain_byte; vm_compute|]); apply Forall_nil_2|].
  apply Forall_app. split; [apply hex_digit_plain, hexes_digits, Hs|]. apply Forall_cons. split; [by unfold plain_byte; vm_compute|].
  apply hex_digit_plain, hexes_digits, Hh.
Qed.

Lemma plain_no c l : Forall plain_byte l -> ~ plain_byte c -> ~ (c ∈ l).
Proof. intros H Hc Hin. rewrite Forall_forall in H. by apply Hc, H. Qed.

(** Checking a login against a file of that one line. *)
Lemma check_entry user password r user' password' : good_name user ->
  check_password (Ok (entry user password r ++ [10])) user' password' =
    if ct_eq user' user && ct_eq (pbkdf2_hmac_sha256 password' (salt_of r) 1000) (pbkdf2_hmac_sha256 password (salt_of r) 1000)
    then Success else Failure.
Proof.
  intros Hg. pose proof (entry_plain user password r Hg) as Hp. unfold check_password. rewrite utf8_ascii by by apply plain_ascii.
  rewrite lines_one; [|apply (plain_no _ _ Hp); unfold plain_byte; lia|].
  2: { intros Hl. apply last_Some_elem_of in Hl. revert Hl. apply (plain_no _ _ Hp). unfold plain_byte. lia. }
  cbn [passwd_lines]. rewrite trim_ascii by done. destruct Hg as (Hne & Hu & Hc & H35).
  assert (Hat : at_ (entry user password r) 0 = at_ user 0) by (unfold entry; by destruct user). rewrite Hat.
  rewrite bool_decide_false by (unfold entry; by destruct user). destruct (Z.eqb_spec (at_ user 0) 35); [done|]. cbn [orb].
  unfold entry at 1. cbn [app]. rewrite split_on_app by done. destruct (salt_ok r) as (Hs & Hso & _).
  rewrite split_on_none.
  2: { unfold field_of. rewrite !elem_of_app. intros [H|[H|[H|H]]].
       - apply (bool_decide_eq_true_2 _) in H. by vm_compute in H.
       - revert H. apply (proj2 (hex_digit_plain _ (hexes_digits _ Hso))). rewrite !elem_of_cons. auto.
       - by apply list_elem_of_singleton in H.
       - revert H. apply (proj2 (hex_digit_plain _ (hexes_digits _ (proj2 (pbkdf2_ok _ _ _))))). rewrite !elem_of_cons. auto. }
  rewrite trim_ascii by done. destruct (ct_eq user' user); [|done]. cbn [andb].
  rewrite trim_ascii, verify_field; [by destruct (ct_eq _ _)|done|done|apply pbkdf2_ok|].
  pose proof Hp as Hp'. unfold entry in Hp'. by apply Forall_app in Hp' as [_ [_ ?]%Forall_cons].
Qed.

Lemma ct_eq_spec a b : ct_eq a b = true <-> a = b.
Proof.
  unfold ct_eq. split; [destruct (_ =? _); [by intros ?%bool_decide_eq_true|done]|]. intros ->. rewrite Z.eqb_refl. by apply bool_decide_eq_true.
Qed.

(** The password device and the server agree: the line written for a name in
    printable ASCII is refused for a separator in the name or the password; otherwise
    it fits the 512 bytes that the server reads, and with it a login succeeds exactly
    for that name with a password of the same hash, the development account included. *)
Theorem password_line_correct user password r : good_name user ->
  (hash_line user password r).2 =
    (if has_byte 58 user || has_byte 10 user || bool_decide (password = []) || has_byte 58 password || has_byte 10 password
     then Err InvalidArgument else Ok (entry user password r ++ [10])) /\
  (len user <= USER_MAX -> len (entry user password r ++ [10]) <= 512) /\
  forall user' password',
    check_password (Ok (entry user password r ++ [10])) user' password' = Success <->
    user' = user /\ pbkdf2_hmac_sha256 password' (salt_of r) 1000 = pbkdf2_hmac_sha256 password (salt_of r) 1000.
Proof.
  intros Hg. split_and!.
  - rewrite hash_line_entry. destruct Hg as [Hne _]. by rewrite bool_decide_false.
  - destruct (salt_ok r) as (_ & _ & Hs). destruct (pbkdf2_ok password (salt_of r) 1000) as [Hh _]. intros Hl.
    unfold entry, field_of. rewrite !length_app, !hexes_len, Hs, Hh. unfold USER_MAX in *. cbn [length]. change (length (as_bytes _)) with 22%nat. lia.
  - intros user' password'. rewrite check_entry by done. rewrite <- (ct_eq_spec user'), <- (ct_eq_spec (pbkdf2_hmac_sha256 password' _ _)).
    destruct (ct_eq user' user), (ct_eq _ _); cbn; intuition congruence.
Qed.

(** A name that starts with the sign of a comment makes a file without entries, and
    the server falls back to the development account. *)
Lemma comment_name_opens_dev password r : let line := entry [35; 97] password r ++ [10] in
  password <> [] -> has_byte 58 password = false -> has_byte 10 password = false ->
  (hash_line [35; 97] password r).2 = Ok line /\ check_password (Ok line) DEV_USER DEV_PASSWORD = Success.
Proof.
  intros line Hne H58 H10. split.
  - rewrite hash_line_entry, H58, H10, (bool_decide_false (password = [])) by done. reflexivity.
  - assert (Hp : Forall plain_byte (entry [35; 97] password r)).
    { unfold entry. assert (Hs : Forall plain_byte (entry [97] password r)) by (apply entry_plain; unfold good_name, plain_byte; split_and!; try done; [repeat constructor; lia|by intros ?%list_elem_of_singleton]).
      unfold entry in Hs. cbn [app] in *. apply Forall_cons. split; [unfold plain_byte; lia|exact Hs]. }
    unfold check_password, line. rewrite utf8_ascii by by apply plain_ascii.
    rewrite lines_one; [|apply (plain_no _ _ Hp); unfold plain_byte; lia|intros Hl; apply last_Some_elem_of in Hl; revert Hl; apply (plain_no _ _ Hp); unfold plain_byte; lia].
    cbn [passwd_lines]. rewrite trim_ascii by done. unfold entry. cbn [app at_]. by rewrite orb_true_r.
Qed.

(** ** Public keys *)

Lemma parse_blob_ok n algo pk : algo = PUBLICKEY_ALGO -> len pk = n -> len pk <= MAX_PACKET ->
  parse_blob n (put_string pk (put_string algo [])) = Ok pk.
Proof.
  intros -> Hn Hl. unfold parse_blob, put_string, put_u32. rewrite <- !app_assoc. cbn [app].
  set (buf := be_bytes 4 _ ++ _). assert (Ha : at_bytes (reader buf) (be_bytes 4 (u32 (len PUBLICKEY_ALGO)) ++ PUBLICKEY_ALGO) ((be_bytes 4 (u32 (len pk)) ++ pk) ++ [])).
  { exists []. unfold buf. cbn [rd_buf reader app rd_pos]. by rewrite app_nil_r, <- !app_assoc. }
  pose proof Ha as Ha'. rewrite app_nil_r in Ha'.
  assert (Hb : at_bytes (advance (len (be_bytes 4 (u32 (len PUBLICKEY_ALGO)) ++ PUBLICKEY_ALGO)) (reader buf)) (be_bytes 4 (u32 (len pk)) ++ pk) []).
  { apply (at_split _ (be_bytes 4 (u32 (len PUBLICKEY_ALGO)) ++ PUBLICKEY_ALGO)). destruct Ha as (pre & H1 & H2). exists pre. rewrite H1, <- !app_assoc. done. }
  unfold mbind, ST_bind at 1. rewrite (get_string_at _ PUBLICKEY_ALGO _ ltac:(unfold MAX_PACKET; vm_compute; congruence) Ha).
  rewrite bool_decide_true by done. cbn [negb]. unfold ST_bind at 1. rewrite length_app, be_bytes_length, Nat2Z.inj_add in Hb. change (Z.of_nat 4) with 4 in Hb.
  rewrite (get_string_at _ pk _ Hl Hb). destruct (Z.eqb_spec (len pk) n); done.
Qed.

(** The line of a key in /etc/authorized_keys, as ssh-keygen writes it. *)
Definition key_line (pk comment : list Z) : list Z := as_bytes "ssh-ed25519" ++ 32 :: as_bytes (encode (host_key_blob pk)) ++ 32 :: comment.

Lemma blob_shape pk : bytes_n 32 pk ->
  bytes_ok (host_key_blob pk) /\ len (host_key_blob pk) = 51 /\ slice 4 11 (host_key_blob pk) = as_bytes "ssh-ed25519".
Proof.
  intros [Hl Hb]. assert (E : host_key_blob pk = be_bytes 4 11 ++ as_bytes "ssh-ed25519" ++ be_bytes 4 32 ++ pk).
  { unfold host_key_blob, put_string, put_u32. rewrite Hl. change (u32 (Z.of_nat 32)) with 32. by rewrite <- !app_assoc. }
  rewrite E. split_and!.
  - unfold bytes_ok. rewrite !Forall_app. split_and!; [apply be_bytes_ok|apply as_bytes_ok|apply be_bytes_ok|exact Hb].
  - rewrite !length_app, !be_bytes_length, Hl. reflexivity.
  - unfold slice. rewrite drop_app_length' by (by rewrite be_bytes_length). by apply take_app_length'.
Qed.

Lemma key_of_key_line pk comment : bytes_n 32 pk -> comment <> [] -> Forall plain_byte comment ->
  key_of_line (key_line pk comment) = Some (host_key_blob pk).
Proof.
  intros Hpk Hne Hc. destruct (blob_shape pk Hpk) as (Hb & Hl & Hs). unfold key_of_line.
  assert (Ht : trim (key_line pk comment) = key_line pk comment).
  { destruct (last comment) as [b|] eqn:E; [|by apply last_None in E]. apply (trim_ends 115 _ b); [lia| |].
    - apply last_Some_elem_of in E. by apply (proj1 (Forall_forall _ _) Hc).
    - change (last (key_line pk comment) = Some b). unfold key_line. generalize (as_bytes "ssh-ed25519") (as_bytes (encode (host_key_blob pk))). intros u v.
      replace (u ++ 32 :: v ++ 32 :: comment) with ((u ++ 32 :: v ++ [32]) ++ comment) by (rewrite <- app_assoc; cbn [app]; by rewrite <- app_assoc).
      rewrite last_app. by rewrite E. }
  rewrite Ht. change (bool_decide (key_line pk comment = []) || (at_ (key_line pk comment) 0 =? 35)) with false. cbv iota.
  unfold key_line, split_whitespace. rewrite words_plain; [|repeat (apply Forall_cons; split; [by vm_compute|]); apply Forall_nil_2|done].
  rewrite words_plain; [|apply encode_plain|]. 2: { intros E. pose proof (decode_encode _ Hb) as Hd. rewrite app_nil_l in E. rewrite E in Hd. change (Some [] = Some (host_key_blob pk)) in Hd. injection Hd as Hd. by rewrite <- Hd in Hl. }
  cbn [app]. rewrite bool_decide_true by done. cbn [negb]. rewrite decode_encode by done. cbn [mbind option_bind]. rewrite Hl, bool_decide_true by done. done.
Qed.

Lemma existsb_fold ks b acc : foldl (fun authorized k => authorized || ct_eq k b) acc ks = acc || bool_decide (b ∈ ks).
Proof.
  revert acc. induction ks as [|k ks IH]; intros acc; cbn [foldl]; [rewrite bool_decide_false by apply not_elem_of_nil; by rewrite orb_false_r|].
  rewrite IH, <- orb_assoc. f_equal. apply Bool.eq_iff_eq_true. rewrite orb_true_iff, !bool_decide_eq_true, ct_eq_spec, elem_of_cons. intuition congruence.
Qed.

(** A key that is authorized lets in exactly who signs with it: from a line of
    /etc/authorized_keys as it is commonly written the server takes the one key, and a
    request succeeds if and only if it names that key and its algorithm and carries a
    signature that verifies, under that key, over the session, the user and the key. *)
Theorem authorized_key_logs_in pk comment user algo key_blob signature sid :
  bytes_n 32 pk -> comment <> [] -> Forall plain_byte comment ->
  let file := Ok (key_line pk comment ++ [10]) in
  authorized_key_blobs file = [host_key_blob pk] /\
  (verify_publickey file user algo key_blob signature sid = Success <->
     algo = PUBLICKEY_ALGO /\ key_blob = host_key_blob pk /\ ed_from_bytes pk = true /\
     exists sig, parse_ed25519_sig signature = Ok sig /\ ed_verify_strict pk (signed_blob sid user algo key_blob) sig = true).
Proof.
  intros Hpk Hne Hc file.
  assert (Hplain : ~ (10 ∈ key_line pk comment) /\ ~ (13 ∈ key_line pk comment)).
  { unfold key_line. rewrite !not_elem_of_app, !not_elem_of_cons, !not_elem_of_app, !not_elem_of_cons.
    split; (split_and!; [apply (bool_decide_eq_false_1 _); by vm_compute| |apply (plain_no _ _ (encode_plain _)); unfold plain_byte; lia| |apply (plain_no _ _ Hc); unfold plain_byte; lia]; lia). }
  assert (Hk : authorized_key_blobs file = [host_key_blob pk]).
  { unfold file, authorized_key_blobs. rewrite lines_one; [|apply Hplain|intros Hl; apply last_Some_elem_of in Hl; by apply Hplain].
    rewrite utf8_ascii; [cbn [omap list_omap]; by rewrite key_of_key_line|]. unfold key_line. rewrite Forall_app, Forall_cons, Forall_app, Forall_cons.
    split_and!; [by repeat (apply Forall_cons; split; [by vm_compute|])|lia|apply plain_ascii, encode_plain|lia|by apply plain_ascii]. }
  split; [exact Hk|]. unfold verify_publickey, is_authorized_key. rewrite Hk, existsb_fold. cbn [orb].
  case_bool_decide as Ha; cbn [negb]; [|intuition congruence]. destruct (bool_decide (key_blob ∈ [host_key_blob pk])) eqn:Ek; cbn [negb].
  2: { apply bool_decide_eq_false in Ek. rewrite list_elem_of_singleton in Ek. intuition congruence. }
  apply bool_decide_eq_true in Ek. rewrite list_elem_of_singleton in Ek. subst key_blob.
  assert (Hp : parse_ed25519_key (host_key_blob pk) = Ok pk).
  { destruct Hpk as [Hl _]. apply (parse_blob_ok 32 (as_bytes HOSTKEY_NAME) pk); [done|lia|unfold MAX_PACKET; lia]. }
  rewrite Hp. destruct (parse_ed25519_sig signature) as [sig|e].
  - destruct (ed_from_bytes pk); cbn [negb]; [|intuition congruence]. destruct (ed_verify_strict pk _ sig) eqn:Ev.
    + split; [intros _; split_and!; eauto|done].
    + split; [done|]. intros (_ & _ & _ & sig' & [= <-] & H). congruence.
  - split; [done|]. by intros (_ & _ & _ & sig' & ? & _).
Qed.
End auth.

(** ** Witnesses *)

#[local] Existing Instance toy_crypto.
#[local] Existing Instance toy_laws.

Lemma bob_good : good_name (as_bytes "bob").
Proof. unfold good_name. split_and!; [done| |apply (bool_decide_eq_false_1 _); by vm_compute|done]. repeat (apply Forall_cons; split; [by vm_compute|]); apply Forall_nil_2. Qed.

Lemma password_line_correct_witness :
  check_password (Ok (entry (as_bytes "bob") (as_bytes "pa ss") 3 ++ [10])) (as_bytes "bob") (as_bytes "pa ss") = Success /\
  check_password (Ok (entry (as_bytes "bob") (as_bytes "pa ss") 3 ++ [10])) DEV_USER DEV_PASSWORD <> Success.
Proof.
  destruct (password_line_correct (as_bytes "bob") (as_bytes "pa ss") 3 bob_good) as (_ & _ & H).
  split; [by apply H|]. intros E. apply H in E as [E _]. by vm_compute in E.
Defined.

Lemma authorized_key_logs_in_witness :
  authorized_key_blobs (Ok (key_line (toy_hash 32 [1]) (as_bytes "me@host") ++ [10])) = [host_key_blob (toy_hash 32 [1])].
Proof.
  apply (authorized_key_logs_in (toy_hash 32 [1]) (as_bytes "me@host") [] [] [] [] []); [apply toy_hash_ok|done|].
  repeat (apply Forall_cons; split; [by vm_compute|]); apply Forall_nil_2.
Defined.
