(* ===== verification/SshConn.v ===== *)
(** * SshConn: one SSH connection (kernel/src/drivers/ssh/channel.rs, mod.rs)

    The connection is a record with the fields of the code; a handler runs on the pair
    of the kernel and the connection.  What the code asks of the rest of the kernel is
    the class [SshHost]; the byte stream is the class [Transport].  A handler of the
    network task runs to its end before another task is seen: output that a shell
    writes meanwhile waits for the next [pump].  A loop that does not follow a list
    takes fuel and answers whether it ended by itself. *)

From Stdlib Require Import Ascii.
From S2P Require Import Prelude Inode Session Text SshProto SshCrypt SshAuth.

Open Scope Z_scope.

(** ** What a connection uses of the kernel

    The sessions, the scheduler and the process table, the descriptor tables
    ([seed_fd_table] gets the address of the channel whose console is installed), a
    file by its path, and the clock. *)
Class SshHost (K : Type) := {
  sessions : K -> Sessions;
  set_sessions : Sessions -> K -> K;
  ssh_shell_entry : Z;
  host_spawn_blocked : string -> Z -> Z -> Z -> Z -> bool -> ST K Z;
  host_register_process : string -> Z -> bool -> option Z -> K -> K * Z;
  host_seed_fd_table : Z -> Z -> ST K unit;
  host_reap : Z -> K -> K;
  host_unblock : Z -> K -> K;
  host_has_exited : Z -> K -> bool;
  host_read_file : string -> Z -> ST K (list Z);
  uptime_ms : K -> K * Z;
}.

(** [Transport]: [t_read n] answers at most [n] bytes, [t_write] how many were taken. *)
(* @src kernel/src/drivers/ssh/mod.rs 42-48 Transport *)
Class Transport (T : Type) := {
  t_read : Z -> ST T (list Z);
  t_write : list Z -> ST T Z;
}.
Class TransportLaws (T : Type) `{!Transport T} := {
  t_read_len n t : match (t_read n t).2 with Ok l => len l <= n | Err _ => True end;
  t_write_len l t : match (t_write l t).2 with Ok n => 0 <= n <= len l | Err _ => True end;
}.

(** [let _ = m;] *)
Definition ignore {S A} (m : ST S A) : ST S unit := fun s => ((m s).1, Ok tt).
(** A reader over a payload. *)
Definition parse {S A} (m : ST Reader A) (payload : list Z) : ST S A := lift (m (reader payload)).2.

Definition sat64 (z : Z) : Z := Z.min z (2 ^ 64 - 1).

(** ** The shell behind a channel *)

(* @src kernel/src/drivers/ssh/channel.rs 9-17 INITIAL_WINDOW, MAX_CHANNEL_PACKET, WINDOW_ADJUST_THRESHOLD, SSH_SHELL_STACK, SSH_SHELL_PRIO *)
Definition INITIAL_WINDOW : Z := 64 * 1024.
Definition MAX_CHANNEL_PACKET : Z := 32 * 1024.
Definition WINDOW_ADJUST_THRESHOLD : Z := INITIAL_WINDOW / 2.
Definition SSH_SHELL_STACK : Z := 8 * 1024.
Definition SSH_SHELL_PRIO : Z := 10.

(** [chan] is the address of the channel. *)
(* @src kernel/src/drivers/ssh/channel.rs 24-27 SessionShell *)
Record SessionShell := mkShell { sh_chan : Z; sh_pid : Z }.

(* @src kernel/src/drivers/ssh/channel.rs 97-114 Channel *)
Record Channel := mkChan {
  ch_local_id : Z; ch_remote_id : Z; ch_send_window : Z; ch_peer_max_packet : Z; ch_recv_window : Z;
  ch_shell_started : bool; ch_pty_cols : Z; ch_pty_rows : Z; ch_shell : option SessionShell;
}.

Definition set_pty (cols rows : Z) (ch : Channel) : Channel :=
  mkChan (ch_local_id ch) (ch_remote_id ch) (ch_send_window ch) (ch_peer_max_packet ch) (ch_recv_window ch) (ch_shell_started ch) cols rows (ch_shell ch).
Definition set_shell (s : SessionShell) (ch : Channel) : Channel :=
  mkChan (ch_local_id ch) (ch_remote_id ch) (ch_send_window ch) (ch_peer_max_packet ch) (ch_recv_window ch) true (ch_pty_cols ch) (ch_pty_rows ch) (Some s).
Definition set_send_window (w : Z) (ch : Channel) : Channel :=
  mkChan (ch_local_id ch) (ch_remote_id ch) w (ch_peer_max_packet ch) (ch_recv_window ch) (ch_shell_started ch) (ch_pty_cols ch) (ch_pty_rows ch) (ch_shell ch).
Definition set_recv_window (w : Z) (ch : Channel) : Channel :=
  mkChan (ch_local_id ch) (ch_remote_id ch) (ch_send_window ch) (ch_peer_max_packet ch) w (ch_shell_started ch) (ch_pty_cols ch) (ch_pty_rows ch) (ch_shell ch).

(* @src kernel/src/drivers/ssh/channel.rs 117-129 Channel::new *)
Definition channel_new (local_id remote_id peer_window peer_max_packet : Z) : Channel :=
  mkChan local_id remote_id peer_window peer_max_packet INITIAL_WINDOW false 80 24 None.

(* @src kernel/src/drivers/ssh/channel.rs 219-221 Channel::add_send_window *)
Definition add_send_window (bytes : Z) (ch : Channel) : Channel := set_send_window (Z.min (ch_send_window ch + bytes) U32_MAX) ch.

Section shell.
Context {K : Type} `{HK : !SshHost K}.

(** Runs on the channel at an address. *)
Definition with_chan {A} (a : Z) (f : SessionChannel -> SessionChannel * A) (dflt : A) (k : K) : K * A :=
  match ss_heap (sessions k) !! a with
  | Some c =>
    let '(c, x) := f c in
    (set_sessions (mkSessions (<[a := c]> (ss_heap (sessions k))) (ss_table (sessions k)) (ss_addr (sessions k)) (ss_next_id (sessions k)) (ss_uart (sessions k))) k, x)
  | None => (k, dflt)
  end.
Definition chan_id (a : Z) (k : K) : Z := match ss_heap (sessions k) !! a with Some c => sc_id c | None => 0 end.
Definition destroy (id : Z) (k : K) : K := set_sessions (session_destroy id (sessions k)) k.

(* @src kernel/src/drivers/ssh/channel.rs 37-72 SessionShell::start *)
Definition shell_start (channel_id : Z) (user : list Z) : ST K SessionShell := fun k =>
  let '(ss, a) := session_create (SshChannel channel_id) (Some (of_bytes user)) (sessions k) in
  let k := set_sessions ss k in
  let id := chan_id a k in
  match host_spawn_blocked "ssh-shell" ssh_shell_entry id SSH_SHELL_STACK SSH_SHELL_PRIO false k with
  | (k, Err e) => (destroy id k, Err e)
  | (k, Ok tid) =>
    let '(k, pid) := host_register_process "ssh-shell" tid false None k in
    match host_seed_fd_table pid a k with
    | (k, Err e) => (destroy id (host_reap pid k), Err e)
    | (k, Ok _) => (host_unblock tid k, Ok (mkShell a pid))
    end
  end.

(** Dropping a [SessionShell] closes it. *)
(* @src kernel/src/drivers/ssh/channel.rs 82-84 SessionShell::close *)
Definition shell_close (s : SessionShell) (k : K) : K := destroy (chan_id (sh_chan s) k) k.

(* @src kernel/src/drivers/ssh/channel.rs 198-202 Channel::close_shell *)
Definition close_shell_of (ch : Channel) (k : K) : K := match ch_shell ch with Some s => shell_close s k | None => k end.

(** [self.shell = Some(s)] drops the shell that was there. *)
Definition install_shell (s : SessionShell) (ch : Channel) (k : K) : K * Channel := (close_shell_of ch k, set_shell s ch).

Definition push_to (a : Z) (data : list Z) (k : K) : K := (with_chan a (push_input data) 0 k).1.

(* @src kernel/src/drivers/ssh/channel.rs 131-167 Channel::on_request *)
Definition on_request (req_type : list Z) (cols rows : Z) (user : list Z) (cmd : option (list Z)) (ch : Channel) (k : K) : K * Channel * bool :=
  if bool_decide (req_type = as_bytes "pty-req") then (k, set_pty cols rows ch, true)
  else if bool_decide (req_type = as_bytes "shell") then
    match shell_start (ch_local_id ch) user k with
    | (k, Ok s) => let '(k, ch) := install_shell s ch k in (k, ch, true)
    | (k, Err _) => (k, ch, false)
    end
  else if bool_decide (req_type = as_bytes "exec") then
    match shell_start (ch_local_id ch) user k with
    | (k, Ok s) =>
      let k := match cmd with
               | Some c => push_to (sh_chan s) ([10] ++ as_bytes "exit" ++ [10]) (push_to (sh_chan s) c k)
               | None => k
               end in
      let '(k, ch) := install_shell s ch k in (k, ch, true)
    | (k, Err _) => (k, ch, false)
    end
  else (k, ch, false).

(* @src kernel/src/drivers/ssh/channel.rs 177-182 Channel::shell_exited *)
Definition shell_exited_of (ch : Channel) (k : K) : bool := match ch_shell ch with Some s => host_has_exited (sh_pid s) k | None => false end.
(* @src kernel/src/drivers/ssh/channel.rs 184-189 Channel::has_output *)
Definition has_output_of (ch : Channel) (k : K) : bool :=
  match ch_shell ch with Some s => (with_chan (sh_chan s) (fun c => (c, has_output c)) false k).2 | None => false end.
(* @src kernel/src/drivers/ssh/channel.rs 191-196 Channel::take_output *)
Definition take_output_of (max : Z) (ch : Channel) (k : K) : K * list Z :=
  match ch_shell ch with Some s => with_chan (sh_chan s) (take_output max) [] k | None => (k, []) end.

(** What [push_input] did not take is not kept. *)
(* @src kernel/src/drivers/ssh/channel.rs 204-217 Channel::on_data *)
Definition on_data (data : list Z) (ch : Channel) (k : K) : K * Channel * option Z :=
  let k := match ch_shell ch with Some s => push_to (sh_chan s) data k | None => k end in
  let ch := set_recv_window (saturating_sub (ch_recv_window ch) (u32 (len data))) ch in
  if ch_recv_window ch <? WINDOW_ADJUST_THRESHOLD then
    let add := INITIAL_WINDOW - ch_recv_window ch in
    (k, set_recv_window (Z.min (ch_recv_window ch + add) U32_MAX) ch, Some add)
  else (k, ch, None).

End shell.

(** ** The connection *)

(* @src kernel/src/drivers/ssh/mod.rs 30-40 SSH_PORT, MAX_RX_BUFFER_SIZE, SSH_MSG_USERAUTH_PK_OK, MAX_AUTH_ATTEMPTS, DISCONNECT_KEY_EXCHANGE_FAILED, DISCONNECT_PROTOCOL_ERROR, DISCONNECT_BY_APPLICATION *)
Definition MAX_RX_BUFFER_SIZE : Z := 8192.
Definition SSH_MSG_USERAUTH_PK_OK : Z := 60.
Definition MAX_AUTH_ATTEMPTS : Z := 6.
Definition DISCONNECT_KEY_EXCHANGE_FAILED : Z := 3.
Definition DISCONNECT_PROTOCOL_ERROR : Z := 2.
Definition DISCONNECT_BY_APPLICATION : Z := 11.

(* @src kernel/src/drivers/ssh/mod.rs 50-59 State *)
Inductive State : Type := VersionExchange | KexInit | Kex | Encrypted | UserAuth | Session | Closed.
#[export] Instance State_eq_dec : EqDecision State.
Proof. solve_decision. Defined.

Section conn.
Context {R : Type} `{HC : !Crypto R} {K : Type} `{HK : !SshHost K} {T : Type} `{HT : !Transport T}.

(* @src kernel/src/drivers/ssh/mod.rs 115-150 Connection *)
Record Connection := mkConnection {
  c_state : State; c_started : bool; c_rx : list Z; c_tx : list Z; c_v_c : list Z; c_i_c : list Z;
  c_i_s : list Z; c_session_id : option (list Z); c_send_seq : Z; c_recv_seq : Z; c_out_encrypted : bool;
  c_in_encrypted : bool; c_enc_out : option Aead; c_enc_in : option Aead; c_awaiting_client_newkeys : bool;
  c_authed : bool; c_auth_user : list Z; c_auth_fails : Z; c_channel : option Channel; c_closing : bool;
  c_closing_deadline : Z; c_conn_start_ms : Z; c_last_activity_ms : Z; c_rng : R;
}.

(** The connection with one field replaced. *)
Definition set_state (x : State) (c : Connection) : Connection :=
  mkConnection x (c_started c) (c_rx c) (c_tx c) (c_v_c c) (c_i_c c) (c_i_s c) (c_session_id c) (c_send_seq c) (c_recv_seq c) (c_out_encrypted c) (c_in_encrypted c) (c_enc_out c) (c_enc_in c) (c_awaiting_client_newkeys c) (c_authed c) (c_auth_user c) (c_auth_fails c) (c_channel c) (c_closing c) (c_closing_deadline c) (c_conn_start_ms c) (c_last_activity_ms c) (c_rng c).
Definition set_started (x : bool) (c : Connection) : Connection :=
  mkConnection (c_state c) x (c_rx c) (c_tx c) (c_v_c c) (c_i_c c) (c_i_s c) (c_session_id c) (c_send_seq c) (c_recv_seq c) (c_out_encrypted c) (c_in_encrypted c) (c_enc_out c) (c_enc_in c) (c_awaiting_client_newkeys c) (c_authed c) (c_auth_user c) (c_auth_fails c) (c_channel c) (c_closing c) (c_closing_deadline c) (c_conn_start_ms c) (c_last_activity_ms c) (c_rng c).
Definition set_rx (x : list Z) (c : Connection) : Connection :=
  mkConnection (c_state c) (c_started c) x (c_tx c) (c_v_c c) (c_i_c c) (c_i_s c) (c_session_id c) (c_send_seq c) (c_recv_seq c) (c_out_encrypted c) (c_in_encrypted c) (c_enc_out c) (c_enc_in c) (c_awaiting_client_newkeys c) (c_authed c) (c_auth_user c) (c_auth_fails c) (c_channel c) (c_closing c) (c_closing_deadline c) (c_conn_start_ms c) (c_last_activity_ms c) (c_rng c).
Definition set_tx (x : list Z) (c : Connection) : Connection :=
  mkConnection (c_state c) (c_started c) (c_rx c) x (c_v_c c) (c_i_c c) (c_i_s c) (c_session_id c) (c_send_seq c) (c_recv_seq c) (c_out_encrypted c) (c_in_encrypted c) (c_enc_out c) (c_enc_in c) (c_awaiting_client_newkeys c) (c_authed c) (c_auth_user c) (c_auth_fails c) (c_channel c) (c_closing c) (c_closing_deadline c) (c_conn_start_ms c) (c_last_activity_ms c) (c_rng c).
Definition set_v_c (x : list Z) (c : Connection) : Connection :=
  mkConnection (c_state c) (c_started c) (c_rx c) (c_tx c) x (c_i_c c) (c_i_s c) (c_session_id c) (c_send_seq c) (c_recv_seq c) (c_out_encrypted c) (c_in_encrypted c) (c_enc_out c) (c_enc_in c) (c_awaiting_client_newkeys c) (c_authed c) (c_auth_user c) (c_auth_fails c) (c_channel c) (c_closing c) (c_closing_deadline c) (c_conn_start_ms c) (c_last_activity_ms c) (c_rng c).
Definition set_i_c (x : list Z) (c : Connection) : Connection :=
  mkConnection (c_state c) (c_started c) (c_rx c) (c_tx c) (c_v_c c) x (c_i_s c) (c_session_id c) (c_send_seq c) (c_recv_seq c) (c_out_encrypted c) (c_in_encrypted c) (c_enc_out c) (c_enc_in c) (c_awaiting_client_newkeys c) (c_authed c) (c_auth_user c) (c_auth_fails c) (c_channel c) (c_closing c) (c_closing_deadline c) (c_conn_start_ms c) (c_last_activity_ms c) (c_rng c).
Definition set_i_s (x : list Z) (c : Connection) : Connection :=
  mkConnection (c_state c) (c_started c) (c_rx c) (c_tx c) (c_v_c c) (c_i_c c) x (c_session_id c) (c_send_seq c) (c_recv_seq c) (c_out_encrypted c) (c_in_encrypted c) (c_enc_out c) (c_enc_in c) (c_awaiting_client_newkeys c) (c_authed c) (c_auth_user c) (c_auth_fails c) (c_channel c) (c_closing c) (c_closing_deadline c) (c_conn_start_ms c) (c_last_activity_ms c) (c_rng c).
Definition set_session_id (x : option (list Z)) (c : Connection) : Connection :=
  mkConnection (c_state c) (c_started c) (c_rx c) (c_tx c) (c_v_c c) (c_i_c c) (c_i_s c) x (c_send_seq c) (c_recv_seq c) (c_out_encrypted c) (c_in_encrypted c) (c_enc_out c) (c_enc_in c) (c_awaiting_client_newkeys c) (c_authed c) (c_auth_user c) (c_auth_fails c) (c_channel c) (c_closing c) (c_closing_deadline c) (c_conn_start_ms c) (c_last_activity_ms c) (c_rng c).
Definition set_send_seq (x : Z) (c : Connection) : Connection :=
  mkConnection (c_state c) (c_started c) (c_rx c) (c_tx c) (c_v_c c) (c_i_c c) (c_i_s c) (c_session_id c) x (c_recv_seq c) (c_out_encrypted c) (c_in_encrypted c) (c_enc_out c) (c_enc_in c) (c_awaiting_client_newkeys c) (c_authed c) (c_auth_user c) (c_auth_fails c) (c_channel c) (c_closing c) (c_closing_deadline c) (c_conn_start_ms c) (c_last_activity_ms c) (c_rng c).
Definition set_recv_seq (x : Z) (c : Connection) : Connection :=
  mkConnection (c_state c) (c_started c) (c_rx c) (c_tx c) (c_v_c c) (c_i_c c) (c_i_s c) (c_session_id c) (c_send_seq c) x (c_out_encrypted c) (c_in_encrypted c) (c_enc_out c) (c_enc_in c) (c_awaiting_client_newkeys c) (c_authed c) (c_auth_user c) (c_auth_fails c) (c_channel c) (c_closing c) (c_closing_deadline c) (c_conn_start_ms c) (c_last_activity_ms c) (c_rng c).
Definition set_out_encrypted (x : bool) (c : Connection) : Connection :=
  mkConnection (c_state c) (c_started c) (c_rx c) (c_tx c) (c_v_c c) (c_i_c c) (c_i_s c) (c_session_id c) (c_send_seq c) (c_recv_seq c) x (c_in_encrypted c) (c_enc_out c) (c_enc_in c) (c_awaiting_client_newkeys c) (c_authed c) (c_auth_user c) (c_auth_fails c) (c_channel c) (c_closing c) (c_closing_deadline c) (c_conn_start_ms c) (c_last_activity_ms c) (c_rng c).
Definition set_in_encrypted (x : bool) (c : Connection) : Connection :=
  mkConnection (c_state c) (c_started c) (c_rx c) (c_tx c) (c_v_c c) (c_i_c c) (c_i_s c) (c_session_id c) (c_send_seq c) (c_recv_seq c) (c_out_encrypted c) x (c_enc_out c) (c_enc_in c) (c_awaiting_client_newkeys c) (c_authed c) (c_auth_user c) (c_auth_fails c) (c_channel c) (c_closing c) (c_closing_deadline c) (c_conn_start_ms c) (c_last_activity_ms c) (c_rng c).
Definition set_enc_out (x : option Aead) (c : Connection) : Connection :=
  mkConnection (c_state c) (c_started c) (c_rx c) (c_tx c) (c_v_c c) (c_i_c c) (c_i_s c) (c_session_id c) (c_send_seq c) (c_recv_seq c) (c_out_encrypted c) (c_in_encrypted c) x (c_enc_in c) (c_awaiting_client_newkeys c) (c_authed c) (c_auth_user c) (c_auth_fails c) (c_channel c) (c_closing c) (c_closing_deadline c) (c_conn_start_ms c) (c_last_activity_ms c) (c_rng c).
Definition set_enc_in (x : option Aead) (c : Connection) : Connection :=
  mkConnection (c_state c) (c_started c) (c_rx c) (c_tx c) (c_v_c c) (c_i_c c) (c_i_s c) (c_session_id c) (c_send_seq c) (c_recv_seq c) (c_out_encrypted c) (c_in_encrypted c) (c_enc_out c) x (c_awaiting_client_newkeys c) (c_authed c) (c_auth_user c) (c_auth_fails c) (c_channel c) (c_closing c) (c_closing_deadline c) (c_conn_start_ms c) (c_last_activity_ms c) (c_rng c).
Definition set_awaiting_client_newkeys (x : bool) (c : Connection) : Connection :=
  mkConnection (c_state c) (c_started c) (c_rx c) (c_tx c) (c_v_c c) (c_i_c c) (c_i_s c) (c_session_id c) (c_send_seq c) (c_recv_seq c) (c_out_encrypted c) (c_in_encrypted c) (c_enc_out c) (c_enc_in c) x (c_authed c) (c_auth_user c) (c_auth_fails c) (c_channel c) (c_closing c) (c_closing_deadline c) (c_conn_start_ms c) (c_last_activity_ms c) (c_rng c).
Definition set_authed (x : bool) (c : Connection) : Connection :=
  mkConnection (c_state c) (c_started c) (c_rx c) (c_tx c) (c_v_c c) (c_i_c c) (c_i_s c) (c_session_id c) (c_send_seq c) (c_recv_seq c) (c_out_encrypted c) (c_in_encrypted c) (c_enc_out c) (c_enc_in c) (c_awaiting_client_newkeys c) x (c_auth_user c) (c_auth_fails c) (c_channel c) (c_closing c) (c_closing_deadline c) (c_conn_start_ms c) (c_last_activity_ms c) (c_rng c).
Definition set_auth_user (x : list Z) (c : Connection) : Connection :=
  mkConnection (c_state c) (c_started c) (c_rx c) (c_tx c) (c_v_c c) (c_i_c c) (c_i_s c) (c_session_id c) (c_send_seq c) (c_recv_seq c) (c_out_encrypted c) (c_in_encrypted c) (c_enc_out c) (c_enc_in c) (c_awaiting_client_newkeys c) (c_authed c) x (c_auth_fails c) (c_channel c) (c_closing c) (c_closing_deadline c) (c_conn_start_ms c) (c_last_activity_ms c) (c_rng c).
Definition set_auth_fails (x : Z) (c : Connection) : Connection :=
  mkConnection (c_state c) (c_started c) (c_rx c) (c_tx c) (c_v_c c) (c_i_c c) (c_i_s c) (c_session_id c) (c_send_seq c) (c_recv_seq c) (c_out_encrypted c) (c_in_encrypted c) (c_enc_out c) (c_enc_in c) (c_awaiting_client_newkeys c) (c_authed c) (c_auth_user c) x (c_channel c) (c_closing c) (c_closing_deadline c) (c_conn_start_ms c) (c_last_activity_ms c) (c_rng c).
Definition set_channel (x : option Channel) (c : Connection) : Connection :=
  mkConnection (c_state c) (c_started c) (c_rx c) (c_tx c) (c_v_c c) (c_i_c c) (c_i_s c) (c_session_id c) (c_send_seq c) (c_recv_seq c) (c_out_encrypted c) (c_in_encrypted c) (c_enc_out c) (c_enc_in c) (c_awaiting_client_newkeys c) (c_authed c) (c_auth_user c) (c_auth_fails c) x (c_closing c) (c_closing_deadline c) (c_conn_start_ms c) (c_last_activity_ms c) (c_rng c).
Definition set_closing (x : bool) (c : Connection) : Connection :=
  mkConnection (c_state c) (c_started c) (c_rx c) (c_tx c) (c_v_c c) (c_i_c c) (c_i_s c) (c_session_id c) (c_send_seq c) (c_recv_seq c) (c_out_encrypted c) (c_in_encrypted c) (c_enc_out c) (c_enc_in c) (c_awaiting_client_newkeys c) (c_authed c) (c_auth_user c) (c_auth_fails c) (c_channel c) x (c_closing_deadline c) (c_conn_start_ms c) (c_last_activity_ms c) (c_rng c).
Definition set_closing_deadline (x : Z) (c : Connection) : Connection :=
  mkConnection (c_state c) (c_started c) (c_rx c) (c_tx c) (c_v_c c) (c_i_c c) (c_i_s c) (c_session_id c) (c_send_seq c) (c_recv_seq c) (c_out_encrypted c) (c_in_encrypted c) (c_enc_out c) (c_enc_in c) (c_awaiting_client_newkeys c) (c_authed c) (c_auth_user c) (c_auth_fails c) (c_channel c) (c_closing c) x (c_conn_start_ms c) (c_last_activity_ms c) (c_rng c).
Definition set_last_activity_ms (x : Z) (c : Connection) : Connection :=
  mkConnection (c_state c) (c_started c) (c_rx c) (c_tx c) (c_v_c c) (c_i_c c) (c_i_s c) (c_session_id c) (c_send_seq c) (c_recv_seq c) (c_out_encrypted c) (c_in_encrypted c) (c_enc_out c) (c_enc_in c) (c_awaiting_client_newkeys c) (c_authed c) (c_auth_user c) (c_auth_fails c) (c_channel c) (c_closing c) (c_closing_deadline c) (c_conn_start_ms c) x (c_rng c).
Definition set_rng (x : R) (c : Connection) : Connection :=
  mkConnection (c_state c) (c_started c) (c_rx c) (c_tx c) (c_v_c c) (c_i_c c) (c_i_s c) (c_session_id c) (c_send_seq c) (c_recv_seq c) (c_out_encrypted c) (c_in_encrypted c) (c_enc_out c) (c_enc_in c) (c_awaiting_client_newkeys c) (c_authed c) (c_auth_user c) (c_auth_fails c) (c_channel c) (c_closing c) (c_closing_deadline c) (c_conn_start_ms c) (c_last_activity_ms c) x.

Definition CS : Type := K * Connection.
Definition upd (f : Connection -> Connection) : ST CS unit := modify (fun s => (s.1, f s.2)).
Definition conn : ST CS Connection := fun s => (s, Ok s.2).
Definition clock : ST CS Z := fun s => let '(k, n) := uptime_ms s.1 in ((k, s.2), Ok n).
Definition kernel (f : K -> K) : ST CS unit := modify (fun s => (f s.1, s.2)).

(* @src kernel/src/drivers/ssh/mod.rs 153-181 Connection::new *)
Definition connection_new (now : Z) (r : R) : Connection :=
  mkConnection VersionExchange false [] [] [] [] [] None 0 0 false false None None false false [] 0 None false 0 now now r.

(** *** Packets *)

(* @src kernel/src/drivers/ssh/mod.rs 319-337 Connection::send_packet *)
Definition send_packet (payload : list Z) : ST CS unit :=
  c ← conn;
  let '(r, n) := next_u32 (c_rng c) in
  _ ← upd (set_rng r);
  let pad_fill := Z.land n 0xff in
  let framed := if c_out_encrypted c then frame_packet_aead payload MIN_BLOCK pad_fill else frame_packet payload MIN_BLOCK pad_fill in
  record ← (if c_out_encrypted c then
              aead ← lift (ok_or (c_enc_out c) InvalidArgument);
              lift (seal aead framed (c_send_seq c))
            else mret framed);
  _ ← upd (fun c => set_tx (c_tx c ++ record) c);
  upd (fun c => set_send_seq (u32 (c_send_seq c + 1)) c).

(** The [n] first bytes are consumed and the packet is counted. *)
Definition took (n : Z) (c : Connection) : Connection := set_recv_seq (u32 (c_recv_seq c + 1)) (set_rx (drop (Z.to_nat n) (c_rx c)) c).

(* @src kernel/src/drivers/ssh/mod.rs 339-378 Connection::next_packet *)
Definition next_packet : ST CS (option (list Z)) :=
  c ← conn;
  if c_in_encrypted c then
    aead ← lift (ok_or (c_enc_in c) InvalidArgument);
    if len (c_rx c) <? 4 then mret None
    else
      n ← lift (open_length aead (take 4 (c_rx c)) (c_recv_seq c));
      if (n <? 1 + MIN_PADDING) || (MAX_PACKET <? n) then fail InvalidArgument
      else
        let total := 4 + n + TAG_LEN in
        if len (c_rx c) <? total then mret None
        else
          payload ← lift (aead_open aead (take (Z.to_nat total) (c_rx c)) (c_recv_seq c));
          _ ← upd (took total);
          mret (Some payload)
  else if len (c_rx c) <? 4 then mret None
  else
    let plen := of_be (take 4 (c_rx c)) in
    if (plen <? 1 + MIN_PADDING) || (MAX_PACKET <? plen) then fail InvalidArgument
    else if len (c_rx c) <? 4 + plen then mret None
    else
      '(payload, consumed) ← lift (parse_packet (c_rx c));
      _ ← upd (took consumed);
      mret (Some payload).

(** [iter().position], on the bytes before the first newline and those after it. *)
(* @src kernel/src/drivers/ssh/mod.rs 380-404 Connection::try_take_version_line *)
Fixpoint version_line (rx : list Z) (fuel : nat) : list Z * KResult (option (list Z)) :=
  match cut 10 rx with
  | (_, None) => (rx, if 255 <? len rx then Err InvalidArgument else Ok None)
  | (line, Some rest) =>
    let line := strip_cr line in
    if 255 <? len line then (rest, Err InvalidArgument)
    else if bool_decide (take 4 line = as_bytes "SSH-") then (rest, Ok (Some line))
    else match fuel with O => (rest, Ok None) | S fuel => version_line rest fuel end
  end.
Definition try_take_version_line : ST CS (option (list Z)) :=
  c ← conn;
  let '(rx, r) := version_line (c_rx c) (length (c_rx c)) in
  _ ← upd (set_rx rx);
  lift r.

(* @src kernel/src/drivers/ssh/mod.rs 406-428 Connection::build_server_kexinit *)
Definition build_server_kexinit : ST CS (list Z) :=
  c ← conn;
  let '(r, cookie) := fill_bytes 16 (c_rng c) in
  _ ← upd (set_rng r);
  mret (put_u32 0 (put_bool false (put_name_list [] (put_name_list [] (put_name_list ["none"%string] (put_name_list ["none"%string]
    (put_name_list [] (put_name_list [] (put_name_list [CIPHER_NAME] (put_name_list [CIPHER_NAME] (put_name_list [HOSTKEY_NAME]
    (put_name_list [KEX_NAME; KEX_NAME_ALIAS] (foldl (flip put_u8) (put_u8 SSH_MSG_KEXINIT []) cookie))))))))))))).

Fixpoint skip_u8 (n : nat) : ST Reader unit := match n with O => mret tt | S n => _ ← get_u8; skip_u8 n end.
Definition among (name : string) (names : list string) : bool := existsb (fun a => bool_decide (a = name)) names.

(* @src kernel/src/drivers/ssh/mod.rs 430-453 Connection::negotiate *)
Definition negotiate (client_kexinit : list Z) : KResult unit :=
  '(kex_algs, enc_c2s, enc_s2c) ← ((_ ← get_u8; _ ← skip_u8 16;
    kex_algs ← get_name_list; _ ← get_name_list; enc_c2s ← get_name_list; enc_s2c ← get_name_list;
    mret (kex_algs, enc_c2s, enc_s2c)) (reader client_kexinit)).2;
  if (among KEX_NAME kex_algs || among KEX_NAME_ALIAS kex_algs) && (among CIPHER_NAME enc_c2s && among CIPHER_NAME enc_s2c)
  then Ok tt else Err NotSupported.

(** *** The end of a connection *)

(* @src kernel/src/drivers/ssh/mod.rs 823-827 Connection::close_shell *)
Definition close_shell : ST CS unit := modify (fun '(k, c) => (match c_channel c with Some ch => close_shell_of ch k | None => k end, c)).

(* @src kernel/src/drivers/ssh/mod.rs 888-901 Connection::disconnect *)
Definition disconnect (reason : Z) (desc : string) : ST CS unit :=
  _ ← ignore (send_packet (put_string [] (put_string (as_bytes desc) (put_u32 reason (put_u8 SSH_MSG_DISCONNECT [])))));
  _ ← close_shell;
  upd (set_state Closed).

(** Dropping the channel closes its shell again, which is gone. *)
(* @src kernel/src/drivers/ssh/mod.rs 198-202 Connection::shutdown *)
Definition shutdown : ST CS unit :=
  _ ← close_shell;
  _ ← close_shell;
  _ ← upd (set_channel None);
  upd (set_state Closed).

(** *** Key exchange *)

(* @src kernel/src/drivers/ssh/mod.rs 494-505 Connection::on_kexinit *)
Definition on_kexinit (payload : list Z) (msg : Z) : ST CS unit :=
  if negb (msg =? SSH_MSG_KEXINIT) then disconnect DISCONNECT_PROTOCOL_ERROR "expected KEXINIT"
  else
    _ ← upd (set_i_c payload);
    match negotiate payload with
    | Err _ => disconnect DISCONNECT_KEY_EXCHANGE_FAILED "no common algorithms"
    | Ok _ => upd (set_state Kex)
    end.

(** [derive_key] over an array of 64 bytes; its loop ends on the second hash. *)
Definition key_of (kx : KexResult) (x : Z) (session_id : list Z) : list Z := default [] (derive_key (kx_k_mpint kx) (kx_h kx) x session_id 64).

(** [run_server] on the generator of the connection. *)
Definition run_kex (host q_c : list Z) : ST CS KexResult := fun s =>
  let c := s.2 in
  let '(r, res) := run_server host (c_v_c c) (as_bytes IDENT) (c_i_c c) (c_i_s c) q_c (c_rng c) in
  ((s.1, set_rng r c), res).

(* @src kernel/src/drivers/ssh/mod.rs 507-571 Connection::on_kex *)
Definition on_kex (payload : list Z) (msg : Z) (host : list Z) : ST CS unit :=
  c ← conn;
  if msg =? SSH_MSG_NEWKEYS then
    if c_awaiting_client_newkeys c then
      upd (fun c => set_state Encrypted (set_awaiting_client_newkeys false (set_in_encrypted true c)))
    else disconnect DISCONNECT_PROTOCOL_ERROR "unexpected NEWKEYS"
  else if negb (msg =? SSH_MSG_KEX_ECDH_INIT) then disconnect DISCONNECT_PROTOCOL_ERROR "expected KEX_ECDH_INIT"
  else
    q_c ← parse (_ ← get_u8; get_string) payload;
    s ← get;
    let '(s, result) := run_kex host q_c s in
    _ ← modify (fun _ => s);
    match result with
    | Err _ => disconnect DISCONNECT_KEY_EXCHANGE_FAILED "kex failed"
    | Ok kx =>
      _ ← upd (fun c => match c_session_id c with None => set_session_id (Some (kx_h kx)) c | Some _ => c end);
      c ← conn;
      let session_id := default [] (c_session_id c) in
      _ ← send_packet (put_string (kx_sig_blob kx) (put_string (kx_q_s kx) (put_string (kx_k_s kx) (put_u8 SSH_MSG_KEX_ECDH_REPLY []))));
      _ ← send_packet (put_u8 SSH_MSG_NEWKEYS []);
      _ ← upd (set_enc_in (Some (aead_new (key_of kx 67 session_id))));
      _ ← upd (set_enc_out (Some (aead_new (key_of kx 68 session_id))));
      upd (fun c => set_awaiting_client_newkeys true (set_out_encrypted true c))
    end.

(** *** Authentication *)

(* @src kernel/src/drivers/ssh/mod.rs 573-590 Connection::on_service_request *)
Definition on_service_request (payload : list Z) (msg : Z) : ST CS unit :=
  if negb (msg =? SSH_MSG_SERVICE_REQUEST) then disconnect DISCONNECT_PROTOCOL_ERROR "expected SERVICE_REQUEST"
  else
    service ← parse (_ ← get_u8; get_string) payload;
    if negb (bool_decide (service = as_bytes "ssh-userauth")) then disconnect DISCONNECT_BY_APPLICATION "service not supported"
    else
      _ ← send_packet (put_string (as_bytes "ssh-userauth") (put_u8 SSH_MSG_SERVICE_ACCEPT []));
      upd (set_state UserAuth).

(* @src kernel/src/drivers/ssh/mod.rs 654-661 Connection::send_userauth_success *)
Definition send_userauth_success : ST CS unit :=
  _ ← send_packet (put_u8 SSH_MSG_USERAUTH_SUCCESS []);
  upd (set_state Session).

(* @src kernel/src/drivers/ssh/mod.rs 663-676 Connection::fail_auth *)
Definition fail_auth : ST CS unit :=
  _ ← upd (fun c => set_auth_fails (u32 (c_auth_fails c + 1)) c);
  _ ← send_packet (put_bool false (put_name_list ["publickey"; "password"]%string (put_u8 SSH_MSG_USERAUTH_FAILURE [])));
  c ← conn;
  if MAX_AUTH_ATTEMPTS <=? c_auth_fails c then disconnect DISCONNECT_BY_APPLICATION "too many attempts" else mret tt.

(** [resolve(path)] and the first [n] bytes, or the error of either.  The keys are only
    looked up for a request that passed the checks before them. *)
Definition file_answer (path : string) (n : Z) : ST CS (KResult (list Z)) := fun s =>
  let '(k, r) := host_read_file path n s.1 in ((k, s.2), Ok r).
Definition passwd_file : ST CS (KResult (list Z)) := file_answer "/etc/passwd" 512.
Definition keys_file : ST CS (KResult (list Z)) := file_answer "/etc/authorized_keys" 2048.

(** The user and the method of a request, and the reader behind them. *)
Definition request_head : ST Reader (list Z * list Z * Reader) :=
  _ ← get_u8; user ← get_string;
  user ← lift (if utf8_valid user then Ok user else Err InvalidArgument);
  _ ← get_string; method ← get_string; r ← get; mret (user, method, r).

Definition authenticated (user : list Z) : ST CS unit :=
  _ ← upd (fun c => set_authed true (set_auth_user user c));
  send_userauth_success.

(* @src kernel/src/drivers/ssh/mod.rs 592-652 Connection::on_userauth *)
Definition on_userauth (payload : list Z) (msg : Z) : ST CS unit :=
  if negb (msg =? SSH_MSG_USERAUTH_REQUEST) then mret tt
  else
    '(user, method, r) ← parse request_head payload;
    c ← conn;
    match c_session_id c with
    | None => disconnect DISCONNECT_PROTOCOL_ERROR "no session_id"
    | Some session_id =>
      if bool_decide (method = as_bytes "password") then
        password ← lift ((_ ← get_bool; get_string) r).2;
        file ← passwd_file;
        match check_password file user password with
        | Success => authenticated user
        | _ => fail_auth
        end
      else if bool_decide (method = as_bytes "publickey") then
        '(has_sig, algo, key_blob, r) ← lift ((h ← get_bool; a ← get_string; b ← get_string; r ← get; mret (h, a, b, r)) r).2;
        if negb has_sig then
          file ← (if bool_decide (algo = PUBLICKEY_ALGO) && is_ok (parse_ed25519_key key_blob) then keys_file else mret (Err NotFound));
          if probe_publickey file algo key_blob then
            send_packet (put_string key_blob (put_string algo (put_u8 SSH_MSG_USERAUTH_PK_OK [])))
          else fail_auth
        else
          signature ← lift (get_string r).2;
          file ← (if bool_decide (algo = PUBLICKEY_ALGO) then keys_file else mret (Err NotFound));
          match verify_publickey file user algo key_blob signature session_id with
          | Success => authenticated user
          | _ => fail_auth
          end
      else fail_auth
    end.

(** *** Channels *)

(** The channel of the connection, with the kernel. *)
Definition on_chan {A} (f : Channel -> K -> K * Channel * A) (dflt : A) : ST CS A := fun '(k, c) =>
  match c_channel c with
  | Some ch => let '(k, ch, x) := f ch k in ((k, set_channel (Some ch) c), Ok x)
  | None => ((k, c), Ok dflt)
  end.

(* @src kernel/src/drivers/ssh/mod.rs 712-743 Connection::on_channel_open *)
Definition on_channel_open (payload : list Z) : ST CS unit :=
  '(ch_type, remote_id, peer_window, peer_max_packet) ←
    parse (_ ← get_u8; t ← get_string; r ← get_u32; w ← get_u32; m ← get_u32; mret (t, r, w, m)) payload;
  c ← conn;
  if negb (bool_decide (ch_type = as_bytes "session")) || bool_decide (is_Some (c_channel c)) then
    send_packet (put_string [] (put_string (as_bytes "only one session channel is supported") (put_u32 3 (put_u32 remote_id
      (put_u8 SSH_MSG_CHANNEL_OPEN_FAILURE [])))))
  else
    let local_id := 0 in
    _ ← upd (set_channel (Some (channel_new local_id remote_id peer_window peer_max_packet)));
    send_packet (put_u32 MAX_CHANNEL_PACKET (put_u32 INITIAL_WINDOW (put_u32 local_id (put_u32 remote_id
      (put_u8 SSH_MSG_CHANNEL_OPEN_CONFIRMATION []))))).

(** The size of a terminal, or the command to run. *)
Definition request_args (req_type : list Z) : ST Reader (Z * Z * option (list Z)) :=
  if bool_decide (req_type = as_bytes "pty-req") then
    _ ← get_string; cols ← get_u32; rows ← get_u32; mret (cols, rows, None)
  else if bool_decide (req_type = as_bytes "exec") then
    r ← get; mret (0, 0, match (get_string r).2 with Ok cmd => Some cmd | Err _ => None end)
  else mret (0, 0, None).

(* @src kernel/src/drivers/ssh/mod.rs 745-791 Connection::on_channel_request *)
Definition on_channel_request (payload : list Z) : ST CS unit :=
  '(req_type, want_reply, (cols, rows, exec_cmd)) ←
    parse (_ ← get_u8; _ ← get_u32; t ← get_string; w ← get_bool; a ← request_args t; mret (t, w, a)) payload;
  c ← conn;
  match c_channel c with
  | None => mret tt
  | Some ch =>
    success ← on_chan (on_request req_type cols rows (c_auth_user c) exec_cmd) false;
    if want_reply : bool then
      send_packet (put_u32 (ch_remote_id ch) (put_u8 (if success : bool then SSH_MSG_CHANNEL_SUCCESS else SSH_MSG_CHANNEL_FAILURE) []))
    else mret tt
  end.

(* @src kernel/src/drivers/ssh/mod.rs 793-813 Connection::on_channel_data *)
Definition on_channel_data (payload : list Z) : ST CS unit :=
  data ← parse (_ ← get_u8; _ ← get_u32; get_string) payload;
  c ← conn;
  match c_channel c with
  | None => mret tt
  | Some ch =>
    adjust ← on_chan (on_data data) None;
    match adjust with
    | Some add => send_packet (put_u32 add (put_u32 (ch_remote_id ch) (put_u8 SSH_MSG_CHANNEL_WINDOW_ADJUST [])))
    | None => mret tt
    end
  end.

(* @src kernel/src/drivers/ssh/mod.rs 678-710 Connection::on_session *)
Definition on_session (payload : list Z) (msg : Z) : ST CS unit :=
  if msg =? SSH_MSG_CHANNEL_OPEN then on_channel_open payload
  else if msg =? SSH_MSG_CHANNEL_REQUEST then on_channel_request payload
  else if msg =? SSH_MSG_CHANNEL_DATA then on_channel_data payload
  else if msg =? SSH_MSG_CHANNEL_WINDOW_ADJUST then
    add ← parse (_ ← get_u8; _ ← get_u32; get_u32) payload;
    on_chan (fun ch k => (k, add_send_window add ch, tt)) tt
  else if msg =? SSH_MSG_CHANNEL_CLOSE then
    c ← conn;
    _ ← match (if c_closing c then None else c_channel c) with
        | Some ch => send_packet (put_u32 (ch_remote_id ch) (put_u8 SSH_MSG_CHANNEL_CLOSE []))
        | None => mret tt
        end;
    _ ← close_shell;
    upd (set_state Closed)
  else mret tt.

(* @src kernel/src/drivers/ssh/mod.rs 455-492 Connection::handle_packet *)
Definition handle_packet (payload host : list Z) : ST CS unit :=
  match payload with
  | [] => mret tt
  | msg :: _ =>
    if msg =? SSH_MSG_DISCONNECT then upd (set_state Closed)
    else if (msg =? SSH_MSG_IGNORE) || (msg =? SSH_MSG_DEBUG) then mret tt
    else if msg =? SSH_MSG_GLOBAL_REQUEST then
      match ((_ ← ignore get_u8; _ ← ignore get_string; get_bool) (reader payload)).2 with
      | Ok true => send_packet (put_u8 SSH_MSG_REQUEST_FAILURE [])
      | _ => mret tt
      end
    else
      c ← conn;
      match c_state c with
      | KexInit => on_kexinit payload msg
      | Kex => on_kex payload msg host
      | Encrypted => on_service_request payload msg
      | UserAuth => on_userauth payload msg
      | Session => on_session payload msg
      | VersionExchange | Closed => mret tt
      end
  end.

(** *** The output of the shell *)

(** Answers the window that is left and whether the loop ended by itself. *)
(* @src kernel/src/drivers/ssh/mod.rs 842-866 Connection::pump_shell_output (loop) *)
Fixpoint output_loop (remote_id maxp window : Z) (fuel : nat) : ST CS (Z * bool) :=
  if window =? 0 then mret (window, true)
  else
    let cap := Z.min (Z.min window (saturating_sub maxp 64)) 4096 in
    if cap =? 0 then mret (window, true)
    else
      data ← on_chan (fun ch k => let '(k, d) := take_output_of cap ch k in (k, ch, d)) [];
      if bool_decide (data = []) then mret (window, true)
      else
        _ ← send_packet (put_string data (put_u32 remote_id (put_u8 SSH_MSG_CHANNEL_DATA [])));
        let window := saturating_sub window (u32 (len data)) in
        match fuel with O => mret (window, false) | S fuel => output_loop remote_id maxp window fuel end.

(** The bytes that wait in the ring of the shell. *)
Definition pending_output (ch : Channel) (k : K) : Z :=
  match ch_shell ch with
  | Some s => match ss_heap (sessions k) !! sh_chan s with Some c => len (from_session c) | None => 0 end
  | None => 0
  end.

(* @src kernel/src/drivers/ssh/mod.rs 829-871 Connection::pump_shell_output *)
Definition pump_shell_output : ST CS bool :=
  s ← get;
  match c_channel s.2 with
  | None => mret true
  | Some ch =>
    if negb (ch_shell_started ch) then mret true
    else
      '(window, done) ← output_loop (ch_remote_id ch) (ch_peer_max_packet ch) (ch_send_window ch) (Z.to_nat (pending_output ch s.1));
      _ ← on_chan (fun ch k => (k, set_send_window window ch, tt)) tt;
      mret done
  end.

(* @src kernel/src/drivers/ssh/mod.rs 873-886 Connection::close_channel_from_shell *)
Definition close_channel_from_shell : ST CS unit :=
  c ← conn;
  match c_channel c with
  | None => mret tt
  | Some ch =>
    _ ← send_packet (put_u32 (ch_remote_id ch) (put_u8 SSH_MSG_CHANNEL_EOF []));
    send_packet (put_u32 (ch_remote_id ch) (put_u8 SSH_MSG_CHANNEL_CLOSE []))
  end.

(* @src kernel/src/drivers/ssh/mod.rs 815-821 Connection::shell_exited, Connection::shell_has_output *)
Definition shell_exited (s : CS) : bool := match c_channel s.2 with Some ch => shell_exited_of ch s.1 | None => false end.
Definition shell_has_output (s : CS) : bool := match c_channel s.2 with Some ch => has_output_of ch s.1 | None => false end.

(** *** One round *)

Definition TS : Type := T * CS.

(* @src kernel/src/drivers/ssh/mod.rs 277-298 Connection::read_all *)
Fixpoint read_all (fuel : nat) : ST TS bool :=
  s ← get;
  let c := s.2.2 in
  if MAX_RX_BUFFER_SIZE <=? len (c_rx c) then mret true
  else
    let max_to_read := Z.min 1024 (MAX_RX_BUFFER_SIZE - len (c_rx c)) in
    let '(t, r) := t_read max_to_read s.1 in
    _ ← modify (fun s => (t, s.2));
    match r with
    | Ok [] => mret true
    | Ok l =>
      now ← on_snd clock;
      _ ← on_snd (upd (fun c => set_last_activity_ms now (set_rx (c_rx c ++ l) c)));
      if len l <? max_to_read then mret true
      else match fuel with O => mret false | S fuel => read_all fuel end
    | Err WouldBlock => mret true
    | Err e => fail e
    end.

(** How many bytes the transport took, or its error. *)
Fixpoint write_out (tx : list Z) (sent : Z) (fuel : nat) (t : T) : T * KResult (Z * bool) :=
  if len tx <=? sent then (t, Ok (sent, true))
  else
    match t_write (drop (Z.to_nat sent) tx) t with
    | (t, Ok n) =>
      if n =? 0 then (t, Ok (sent, true))
      else match fuel with O => (t, Ok (sent + n, false)) | S fuel => write_out tx (sent + n) fuel t end
    | (t, Err WouldBlock) => (t, Ok (sent, true))
    | (t, Err e) => (t, Err e)
    end.
(* @src kernel/src/drivers/ssh/mod.rs 300-317 Connection::flush *)
Definition flush : ST TS bool := fun '(t, (k, c)) =>
  if bool_decide (c_tx c = []) then ((t, (k, c)), Ok true)
  else
    match write_out (c_tx c) 0 (length (c_tx c)) t with
    | (t, Ok (sent, done)) => ((t, (k, if 0 <? sent then set_tx (drop (Z.to_nat sent) (c_tx c)) c else c)), Ok done)
    | (t, Err e) => ((t, (k, c)), Err e)
    end.

(* @src kernel/src/drivers/ssh/mod.rs 248-254 Connection::pump (packet loop) *)
Fixpoint packets (host : list Z) (fuel : nat) : ST CS bool :=
  c ← conn;
  if bool_decide (c_state c = Closed) then mret true
  else
    p ← next_packet;
    match p with
    | None => mret true
    | Some payload =>
      _ ← handle_packet payload host;
      match fuel with O => mret false | S fuel => packets host fuel end
    end.

Definition start_up : ST CS unit :=
  _ ← upd (set_started true);
  _ ← upd (fun c => set_tx (c_tx c ++ as_bytes IDENT ++ [13; 10]) c);
  kexinit ← build_server_kexinit;
  _ ← upd (set_i_s kexinit);
  send_packet kexinit.

(** The part of a round in the state [Session]. *)
Definition session_round : ST CS bool :=
  done ← pump_shell_output;
  s ← get;
  _ ← (if negb (c_closing s.2) && shell_exited s && negb (shell_has_output s) then
         _ ← close_channel_from_shell;
         now ← clock;
         upd (fun c => set_closing_deadline (sat64 (now + 1500)) (set_closing true c))
       else mret tt);
  c ← conn;
  _ ← (if c_closing c then
         now ← clock;
         if c_closing_deadline c <=? now then upd (set_state Closed) else mret tt
       else mret tt);
  mret done.

(** Answers whether every loop ended by itself. *)
(* @src kernel/src/drivers/ssh/mod.rs 204-275 Connection::pump *)
Definition pump (host : list Z) : ST TS bool :=
  s ← get;
  if bool_decide (c_state s.2.2 = Closed) then mret true
  else
    now ← on_snd clock;
    s ← get;
    let c := s.2.2 in
    if negb (c_authed c) && (sat64 (c_conn_start_ms c + 60000) <=? now) then
      _ ← on_snd (disconnect DISCONNECT_PROTOCOL_ERROR "Authentication timeout (60s)"); mret true
    else if bool_decide (c_state c = Session) && (sat64 (c_last_activity_ms c + 300000) <=? now) then
      _ ← on_snd (disconnect DISCONNECT_BY_APPLICATION "Session idle timeout (300s)"); mret true
    else
      _ ← on_snd (if c_started c then mret tt else start_up);
      d1 ← read_all (Z.to_nat MAX_RX_BUFFER_SIZE);
      s ← get;
      go ← (if bool_decide (c_state s.2.2 = VersionExchange) then
              line ← on_snd try_take_version_line;
              match line with
              | Some vc => _ ← on_snd (upd (fun c => set_state KexInit (set_v_c vc c))); mret true
              | None => mret false
              end
            else mret true);
      if (go : bool) then
        s ← get;
        d2 ← on_snd (packets host (length (c_rx s.2.2)));
        s ← get;
        d3 ← on_snd (if bool_decide (c_state s.2.2 = Session) then session_round else mret true);
        d4 ← flush;
        mret (d1 && d2 && d3 && d4)
      else d4 ← flush; mret (d1 && d4).

End conn.
