(* ===== verification/SshConnOps.v ===== *)
(** * SshConnOps: what an SSH connection guarantees

    A rule for the programs of a connection over the part of its state that matters for
    access; the invariant of every reachable connection; the order and the amount of the
    output; and that every loop of a round ends. *)

From S2P Require Import Prelude Inode Session Text SshProto SshProtoOps SshCrypt SshCryptOps SshAuth SshAuthOps SshConn.

Open Scope Z_scope.

#[local] Arguments frame_packet : simpl never.
#[local] Arguments frame_packet_aead : simpl never.
#[local] Arguments be_bytes : simpl never.
#[local] Arguments put_string : simpl never.
#[local] Arguments seal : simpl never.
#[local] Arguments aead_open : simpl never.
#[local] Arguments open_length : simpl never.
#[local] Arguments parse_packet : simpl never.

Section ops.
Context {R : Type} `{HC : !Crypto R} {K : Type} `{HK : !SshHost K} {T : Type} `{HT : !Transport T}.

(** ** The rule

    The fields that decide who has access. *)
Record Key := mkKey {
  k_state : State; k_sid : option (list Z); k_out : bool; k_in : bool; k_enc_out : bool; k_enc_in : bool;
  k_await : bool; k_authed : bool; k_user : list Z; k_fails : Z; k_channel : bool;
}.
Definition key (c : Connection (R := R)) : Key :=
  mkKey (c_state c) (c_session_id c) (c_out_encrypted c) (c_in_encrypted c) (bool_decide (is_Some (c_enc_out c))) (bool_decide (is_Some (c_enc_in c)))
    (c_awaiting_client_newkeys c) (c_authed c) (c_auth_user c) (c_auth_fails c) (bool_decide (is_Some (c_channel c))).

(** The request in [payload] for [user] was right, for the files of the kernel [k]:
    a password that the server accepts, or the signature of an authorized key. *)
Definition accepted (k : K) (sid payload user : list Z) : Prop :=
  exists method r, (request_head (reader payload)).2 = Ok (user, method, r) /\
    ((method = as_bytes "password" /\ exists password, ((_ ← get_bool; get_string) r).2 = Ok password /\
        check_password (host_read_file "/etc/passwd" 512 k).2 user password = Success) \/
     (method = as_bytes "publickey" /\ exists algo key_blob signature,
        verify_publickey (host_read_file "/etc/authorized_keys" 2048 k).2 user algo key_blob signature sid = Success)).

(** Encrypted in both directions, under a session. *)
Definition secured (x : Key) : Prop := k_in x = true /\ k_out x = true /\ is_Some (k_sid x).

Record inv (x : Key) : Prop := mkInv {
  inv_out : k_out x = true -> k_enc_out x = true;
  inv_in : k_in x = true -> k_enc_in x = true;
  inv_await : k_await x = true -> k_out x = true /\ k_enc_in x = true /\ is_Some (k_sid x);
  inv_encrypted : k_state x ∈ [Encrypted; UserAuth; Session] -> secured x;
  inv_authed : k_authed x = true -> secured x /\ k_state x ∈ [Session; Closed] /\
    exists k payload sid, k_sid x = Some sid /\ accepted k sid payload (k_user x);
  inv_session : k_state x = Session -> k_authed x = true;
  inv_channel : k_channel x = true -> k_authed x = true;
  inv_fails : 0 <= k_fails x <= MAX_AUTH_ATTEMPTS /\ (k_state x <> Closed -> k_fails x < MAX_AUTH_ATTEMPTS);
}.

(** From [P], a result satisfies [Q]; after an error the invariant holds.  The rule is
    for any state with a connection in it. *)
Definition gspec {S A} (view : S -> Connection (R := R)) (P : Key -> Prop) (m : ST S A) (Q : A -> Key -> Prop) : Prop :=
  forall s, P (key (view s)) -> match (m s).2 with Ok a => Q a (key (view (m s).1)) | Err _ => inv (key (view (m s).1)) end.
Abbreviation spec := (gspec (snd : K * Connection (R := R) -> Connection)).
Abbreviation tspec := (gspec (fun s : T * (K * Connection (R := R)) => s.2.2)).

Section rule.
Context {S : Type} (view : S -> Connection (R := R)).

Lemma spec_bind {A B} P (M : A -> Key -> Prop) Q (m : ST S A) (f : A -> ST S B) :
  gspec view P m M -> (forall a, gspec view (M a) (f a) Q) -> gspec view P (m ≫= f) Q.
Proof.
  intros Hm Hf s Hs. specialize (Hm s Hs). unfold mbind, ST_bind. destruct (m s) as [s1 [a|e]]; cbn in *; [|exact Hm].
  specialize (Hf a s1 Hm). by destruct (f a s1) as [s2 r].
Qed.

Lemma spec_ret {A} P (a : A) (Q : A -> Key -> Prop) : (forall x, P x -> Q a x) -> gspec view P (mret a) Q.
Proof. intros H s Hs. by apply H. Qed.

Lemma spec_weaken {A} (P P' : Key -> Prop) (Q : A -> Key -> Prop) (m : ST S A) : gspec view P m Q -> (forall x, P' x -> P x) -> gspec view P' m Q.
Proof. intros H HP s Hs. by apply H, HP. Qed.

Lemma spec_post {A} P (Q Q' : A -> Key -> Prop) (m : ST S A) : gspec view P m Q -> (forall a x, Q a x -> Q' a x) -> gspec view P m Q'.
Proof. intros H HQ s Hs. specialize (H s Hs). destruct (m s).2; auto. Qed.

Lemma spec_fail {A} (P : Key -> Prop) e (Q : A -> Key -> Prop) : (forall x, P x -> inv x) -> gspec view P (fail e) Q.
Proof. intros H s Hs. by apply H. Qed.

Lemma spec_lift_eq {A} (P : Key -> Prop) (r : KResult A) : (forall x, P x -> inv x) -> gspec view P (lift r) (fun a x => P x /\ r = Ok a).
Proof. intros H s Hs. cbn. destruct r; auto. Qed.

(** The state is read: what is known of it stays known. *)
Lemma spec_get {B} P Q (f : S -> ST S B) : (forall s, P (key (view s)) -> gspec view (fun x => P x /\ x = key (view s)) (f s) Q) -> gspec view P (get ≫= f) Q.
Proof. intros H s Hs. by apply (H s Hs s). Qed.

Lemma spec_modify P (f : S -> S) (Q : unit -> Key -> Prop) : (forall s, P (key (view s)) -> Q tt (key (view (f s)))) -> gspec view P (modify f) Q.
Proof. intros H s Hs. by apply H. Qed.
End rule.

Lemma spec_upd (P : Key -> Prop) (f : Connection -> Connection) (Q : unit -> Key -> Prop) : (forall c, P (key c) -> Q tt (key (f c))) -> spec P (upd f) Q.
Proof. intros H s Hs. by apply H. Qed.

(** A program that keeps the key, whatever it answers. *)
Definition same_key {A} (m : ST (K * Connection (R := R)) A) : Prop := forall s, key (m s).1.2 = key s.2.

Lemma spec_same {A} (P : Key -> Prop) (m : ST (K * Connection) A) : same_key m -> (forall x, P x -> inv x) -> spec P m (fun _ => P).
Proof. intros H HP s Hs. rewrite (H s). destruct (m s).2; auto. Qed.

Lemma spec_conn {B} (P : Key -> Prop) (Q : B -> Key -> Prop) (f : Connection -> ST (K * Connection) B) :
  (forall c, P (key c) -> spec (fun x => P x /\ x = key c) (f c) Q) -> spec P (conn ≫= f) Q.
Proof. intros H s Hs. by apply (H s.2 Hs s). Qed.

Lemma same_conn : same_key conn. Proof. done. Qed.
Lemma same_clock : same_key clock. Proof. intros [k c]. unfold clock. cbn. by destruct (uptime_ms k). Qed.
Lemma same_file path n : same_key (file_answer path n). Proof. intros [k c]. unfold file_answer. cbn. by destruct (host_read_file path n k). Qed.
Lemma same_close_shell : same_key close_shell. Proof. intros [k c]. done. Qed.

(** Sending only adds to the output; it cannot fail when there is a key. *)
Lemma framed_len payload pad fill : 0 <= pad -> 4 <= len (framed payload pad fill).
Proof. intros H. unfold framed. rewrite !length_app, be_bytes_length, length_replicate. lia. Qed.

Lemma frame_long payload block fill : 4 <= len (frame_packet payload block fill) /\ 4 <= len (frame_packet_aead payload block fill).
Proof.
  unfold frame_packet, frame_packet_aead, framed. rewrite !length_app, !be_bytes_length. split; lia.
Qed.

Lemma send_spec p (k : K) c : exists c', send_packet (K := K) p (k, c) = ((k, c'), if c_out_encrypted c && bool_decide (c_enc_out c = None) then Err InvalidArgument else Ok tt) /\
  key c' = key c.
Proof.
  unfold send_packet, conn, upd, modify, mbind, ST_bind. cbn. destruct (next_u32 (c_rng c)) as [r n]. cbn.
  destruct (c_out_encrypted c) eqn:Eo; cbn; [|by eexists].
  destruct (c_enc_out c) as [a|] eqn:Ea; cbn; [|by eexists]. unfold seal.
  destruct (Z.ltb_spec (len (frame_packet_aead p MIN_BLOCK (Z.land n 255))) 4) as [Hl|_].
  { pose proof (proj2 (frame_long p MIN_BLOCK (Z.land n 255))). lia. }
  cbn. by eexists.
Qed.

Lemma spec_send (P : Key -> Prop) p : (forall x, P x -> k_out x = true -> k_enc_out x = true) -> spec P (send_packet p) (fun _ => P).
Proof.
  intros HP [k c] Hs. cbn [snd] in Hs. destruct (send_spec p k c) as (c' & E & Hk). rewrite E. cbn. rewrite Hk.
  pose proof (HP _ Hs) as Hc. cbn in Hc. destruct (c_out_encrypted c); cbn; [|exact Hs]. destruct (c_enc_out c); cbn; [exact Hs|]. by specialize (Hc eq_refl).
Qed.

Lemma same_ignore_send p : same_key (ignore (send_packet p)).
Proof. intros [k c]. destruct (send_spec p k c) as (c' & E & Hk). unfold ignore. by rewrite E. Qed.

Lemma spec_file (P : Key -> Prop) path n : spec P (file_answer path n) (fun a x => P x /\ exists k, a = (host_read_file path n k).2).
Proof. intros [k c] Hs. unfold file_answer. cbn in *. destruct (host_read_file path n k) as [k' r] eqn:E. cbn. split; [done|]. exists k. by rewrite E. Qed.

(** ** The end of a connection *)

(** The invariant without the count of the failures. *)
Record inv0 (x : Key) : Prop := mkInv0 {
  i0_out : k_out x = true -> k_enc_out x = true;
  i0_in : k_in x = true -> k_enc_in x = true;
  i0_await : k_await x = true -> k_out x = true /\ k_enc_in x = true /\ is_Some (k_sid x);
  i0_authed : k_authed x = true -> secured x /\ exists k payload sid, k_sid x = Some sid /\ accepted k sid payload (k_user x);
  i0_channel : k_channel x = true -> k_authed x = true;
  i0_fails : 0 <= k_fails x <= MAX_AUTH_ATTEMPTS;
}.

Lemma inv_inv0 x : inv x -> inv0 x.
Proof. intros []. constructor; auto; [|tauto]. intros Ha. destruct (inv_authed0 Ha) as (? & _ & ?). auto. Qed.

Lemma closed_inv (c : Connection) : inv0 (key c) -> inv (key (set_state Closed c)).
Proof.
  intros []. unfold key in *. cbn in *. constructor; cbn; auto; unfold secured in *; cbn in *.
  - rewrite !elem_of_cons. intros [|[|[|[]%elem_of_nil]]]; done.
  - intros Ha. destruct (i0_authed0 Ha) as (H1 & H2). split_and!; [apply H1..|rewrite !elem_of_cons; auto|exact H2].
  - done.
  - split; [lia|done].
Qed.

Lemma disconnect_spec reason desc : spec inv0 (disconnect reason desc) (fun _ => inv).
Proof.
  unfold disconnect. generalize (put_string [] (put_string (as_bytes desc) (put_u32 reason (put_u8 SSH_MSG_DISCONNECT [])))). intros p [k c] Hs.
  destruct (send_spec p k c) as (c' & E & Hk). unfold mbind, ST_bind, ignore. rewrite E. cbn. apply closed_inv. by rewrite Hk.
Qed.

Lemma disconnect_inv reason desc P : (forall x, P x -> inv x) -> spec P (disconnect reason desc) (fun _ => inv).
Proof. intros H. eapply spec_weaken; [apply disconnect_spec|]. intros x Hx. by apply inv_inv0, H. Qed.

(** ** The handlers *)

(** In the state [st]. *)
Definition at_state (st : State) (x : Key) : Prop := inv x /\ k_state x = st.

Lemma not_authed st x : at_state st x -> st <> Session -> st <> Closed -> k_authed x = false.
Proof.
  intros [Hi <-] H1 H2. destruct (k_authed x) eqn:E; [|done]. destruct (inv_authed x Hi E) as (_ & Hs & _).
  rewrite !elem_of_cons in Hs. destruct Hs as [|[|[]%elem_of_nil]]; congruence.
Qed.

Lemma spec_parse {A} (P : Key -> Prop) (m : ST Reader A) payload : (forall x, P x -> inv x) ->
  spec P (parse m payload) (fun a x => P x /\ (m (reader payload)).2 = Ok a).
Proof. apply spec_lift_eq. Qed.

(** Moving on from a state before the login. *)
Lemma move_inv st c : at_state (c_state c) (key c) -> c_state c <> Session -> c_state c <> Closed -> st <> Session ->
  (st ∈ [Encrypted; UserAuth] -> secured (key c)) -> inv (key (set_state st c)).
Proof.
  intros Hat H1 H2 H3 Hs. pose proof (not_authed _ _ Hat H1 H2) as Ha. destruct Hat as [[] _]. unfold key in *. cbn in *.
  constructor; cbn; auto.
  - unfold secured in *. cbn in *. intros Hin. apply Hs. rewrite !elem_of_cons in *. destruct Hin as [|[|[|[]%elem_of_nil]]]; first [by auto | congruence].
  - congruence.
  - split; [lia|]. intros _. by apply inv_fails0.
Qed.

Lemma on_kexinit_spec payload msg : spec (at_state KexInit) (on_kexinit payload msg) (fun _ => inv).
Proof.
  unfold on_kexinit. destruct (negb _); [apply disconnect_inv; by intros x []|].
  apply spec_bind with (fun _ => at_state KexInit); [by apply spec_upd|]. intros _. destruct (negotiate payload).
  - apply spec_upd. intros c Hc. assert (E : c_state c = KexInit) by apply Hc. apply move_inv; rewrite ?E; try done. by rewrite !elem_of_cons; intros [|[|[]%elem_of_nil]].
  - apply disconnect_inv. by intros x [].
Qed.

Lemma on_service_request_spec payload msg : spec (at_state Encrypted) (on_service_request payload msg) (fun _ => inv).
Proof.
  unfold on_service_request. destruct (negb _); [apply disconnect_inv; by intros x []|].
  eapply spec_bind; [apply spec_parse; by intros x []|]. intros service. cbn beta. destruct (negb _); [apply disconnect_inv; by intros x [[] _]|].
  apply spec_bind with (fun _ => at_state Encrypted).
  - eapply spec_weaken; [apply spec_send|by intros x [? _]]. intros x [Hi _]. apply Hi.
  - intros _. apply spec_upd. intros c Hc. assert (E : c_state c = Encrypted) by apply Hc. apply move_inv; rewrite ?E; try done.
    intros _. apply Hc. change (k_state (key c)) with (c_state c). rewrite E, !elem_of_cons. auto.
Qed.

Lemma at_inv st x : at_state st x -> inv x. Proof. by intros []. Qed.
Lemma at_enc st x : at_state st x -> k_out x = true -> k_enc_out x = true. Proof. intros [[] _]. auto. Qed.

(** In the exchange of keys, with a session. *)
Definition in_kex (x : Key) : Prop := at_state Kex x /\ is_Some (k_sid x).

Lemma kex_keep (f : Connection -> Connection) (Q : unit -> Key -> Prop) :
  (forall c, in_kex (key c) -> k_authed (key c) = false -> Q tt (key (f c))) -> spec in_kex (upd f) Q.
Proof. intros H. apply spec_upd. intros c Hc. apply H; [done|]. by apply (not_authed Kex); [apply Hc|..]. Qed.

Lemma on_kex_spec payload msg host : spec (at_state Kex) (on_kex payload msg host) (fun _ => inv).
Proof.
  unfold on_kex. apply spec_conn. intros c Hc. destruct (msg =? SSH_MSG_NEWKEYS).
  - destruct (c_awaiting_client_newkeys c) eqn:Ew; [|apply disconnect_inv; by intros x [[] _]].
    apply spec_upd. intros c' [Hc' E]. assert (Hw : k_await (key c') = true) by (rewrite E; exact Ew).
    pose proof (not_authed _ _ Hc' ltac:(done) ltac:(done)) as Ha. destruct Hc' as [[] Hst]. unfold key in *. cbn in *.
    destruct (inv_await0 Hw) as (H1 & H2 & H3). constructor; cbn; auto; try congruence; [by intros _; unfold secured; cbn|].
    split; [lia|]. intros _. apply inv_fails0. congruence.
  - destruct (negb _); [apply disconnect_inv; by intros x [[] _]|].
    eapply spec_bind; [apply spec_parse; by intros x [[] _]|]. intros q_c. cbn beta. apply spec_get. intros s Hs.
    destruct (run_kex host q_c s) as [s' result] eqn:Er.
    assert (Hk : key s'.2 = key s.2).
    { unfold run_kex in Er. destruct (run_server _ _ _ _ _ _ _) as [r res]. by injection Er as <- <-. }
    apply spec_bind with (fun _ => at_state Kex); [apply spec_modify; intros s0 _; rewrite Hk; apply Hs|]. intros _.
    destruct result as [kx|e]; [|apply disconnect_inv, at_inv].
    apply spec_bind with (fun _ => in_kex).
    { apply spec_upd. intros c0 Hc0. destruct (c_session_id c0) eqn:Es; [by split; [|unfold key; cbn; rewrite Es]|].
      pose proof (not_authed _ _ Hc0 ltac:(done) ltac:(done)) as Ha. split; [|done]. destruct Hc0 as [[] Hst]. unfold key in *. cbn in *. split; [|done].
      constructor; cbn; auto; try congruence; unfold secured in *; cbn in *; [intros Hw; by destruct (inv_await0 Hw) as (? & ? & ?)|].
      rewrite Hst, !elem_of_cons. intros [|[|[|[]%elem_of_nil]]]; done. }
    intros _. apply spec_conn. intros c1 _.
    assert (Hsend : forall p, spec in_kex (send_packet p) (fun _ => in_kex)) by (intros p; apply spec_send; intros x [Hx _]; by apply (at_enc Kex)).
    apply spec_bind with (fun _ => in_kex); [eapply spec_weaken; [apply Hsend|by intros x [? _]]|]. intros _.
    apply spec_bind with (fun _ => in_kex); [apply Hsend|]. intros _.
    apply spec_bind with (fun _ x => in_kex x /\ k_enc_in x = true).
    { apply kex_keep. intros c2 [[[] Hst] Hsid] Ha. unfold in_kex, at_state, key in *. cbn in *. split; [|done]. split; [split|]; [constructor|..]; cbn; auto. naive_solver. }
    intros _. apply spec_bind with (fun _ x => in_kex x /\ k_enc_in x = true /\ k_enc_out x = true).
    { apply spec_upd. intros c2 [[[[] Hst] Hsid] Hi]. unfold in_kex, at_state, key in *. cbn in *. split; [|done]. split; [split|]; [constructor|..]; cbn; auto. }
    intros _. apply spec_upd. intros c2 [[Hat Hsid] [Hi Ho]]. pose proof (not_authed _ _ Hat ltac:(done) ltac:(done)) as Ha. destruct Hat as [[] Hst].
    unfold key in *. cbn in *. constructor; cbn; auto; try congruence. rewrite Hst, !elem_of_cons. intros [|[|[|[]%elem_of_nil]]]; done.
Qed.

(** *** Authentication *)

(** Not yet in: secured, before the login, with [n] refusals at most. *)
Definition login (n : Z) (x : Key) : Prop := inv0 x /\ k_state x = UserAuth /\ secured x /\ k_authed x = false /\ k_fails x <= n.

Lemma login_inv x : login (MAX_AUTH_ATTEMPTS - 1) x <-> at_state UserAuth x.
Proof.
  split.
  - intros ([] & Hst & Hs & Ha & Hf). split; [|done]. constructor; auto; try congruence. lia.
  - intros Hx. pose proof (not_authed _ _ Hx ltac:(done) ltac:(done)) as Ha. destruct Hx as [Hi Hst]. split; [by apply inv_inv0|]. split; [done|]. destruct Hi.
    split_and!; [apply inv_encrypted0; rewrite Hst, !elem_of_cons; auto|done|]. destruct inv_fails0 as [_ H]. specialize (H ltac:(congruence)). lia.
Qed.

Lemma fail_auth_spec : spec (at_state UserAuth) fail_auth (fun _ => inv).
Proof.
  unfold fail_auth. apply spec_bind with (fun _ => login MAX_AUTH_ATTEMPTS).
  { apply spec_upd. intros c ([] & Hst & Hs & Ha & Hf)%login_inv. unfold key, login in *. cbn in *. unfold MAX_AUTH_ATTEMPTS in *.
    split; [constructor; cbn; auto; rewrite ?u32_small; unfold MAX_AUTH_ATTEMPTS; try congruence; lia|]. split_and!; [done..|]. rewrite u32_small; lia. }
  intros _. apply spec_bind with (fun _ => login MAX_AUTH_ATTEMPTS); [apply spec_send; by intros x [[] _]|]. intros _.
  apply spec_conn. intros c Hc. destruct (Z.leb_spec MAX_AUTH_ATTEMPTS (c_auth_fails c)) as [Hl|Hl].
  - eapply spec_weaken; [apply disconnect_spec|]. by intros x [[] _].
  - apply spec_ret. intros x [_ ->]. apply (at_inv UserAuth), login_inv. destruct Hc as (H1 & H2 & H3 & H4 & H5). split_and!; try done. cbn. lia.
Qed.

Lemma authenticated_spec user : spec (fun x => at_state UserAuth x /\ exists k payload sid, k_sid x = Some sid /\ accepted k sid payload user) (authenticated user) (fun _ => inv).
Proof.
  unfold authenticated, send_userauth_success.
  set (P' := fun x => inv0 x /\ secured x /\ k_authed x = true /\ k_fails x < MAX_AUTH_ATTEMPTS).
  assert (Ho : forall x, P' x -> k_out x = true -> k_enc_out x = true) by (intros x [[] _]; auto).
  apply spec_bind with (fun _ => P').
  { apply spec_upd. intros c [([] & Hst & Hs & Ha & Hf)%login_inv Hacc]. unfold P', key, secured in *. cbn in *. split; [|split; [exact Hs|split; [done|lia]]].
    constructor; cbn; auto. }
  intros _. apply spec_bind with (fun _ => P'); [by apply spec_send|]. intros _.
  apply spec_upd. intros c ([] & Hs & Ha & Hf). unfold key, secured in *. cbn in *. constructor; cbn; auto; unfold secured; cbn; try done.
  intros _. split; [done|]. split; [rewrite !elem_of_cons; auto|]. by apply i0_authed0.
Qed.

Lemma on_userauth_spec payload msg : spec (at_state UserAuth) (on_userauth payload msg) (fun _ => inv).
Proof.
  unfold on_userauth. destruct (negb _); [apply spec_ret; by intros x []|].
  eapply spec_bind; [apply spec_parse, at_inv|]. intros [[user method] r]. cbn beta.
  apply spec_conn. intros c [Hc Hr]. destruct (c_session_id c) as [sid|] eqn:Es; [|apply disconnect_inv; by intros x [[[] _] _]].
  assert (Hsid : k_sid (key c) = Some sid) by exact Es.
  set (P := fun x => (at_state UserAuth x /\ (request_head (reader payload)).2 = Ok (user, method, r)) /\ x = key c).
  assert (HP : forall x, P x -> inv x) by (by intros x [[[] _] _]). assert (Hat : forall x, P x -> at_state UserAuth x) by (by intros x [[] _]).
  assert (Hf : forall Q : Key -> Prop, (forall x, Q x -> P x) -> spec Q fail_auth (fun _ => inv)) by (intros Q HQ; eapply spec_weaken; [apply fail_auth_spec|auto]).
  assert (Ha : forall Q : Key -> Prop, (forall x, Q x -> P x) -> (forall x, Q x -> exists k, accepted k sid payload user) -> spec Q (authenticated user) (fun _ => inv)).
  { intros Q HQ Hacc. eapply spec_weaken; [apply authenticated_spec|]. intros x Hx. split; [auto|]. destruct (Hacc x Hx) as [k Hk].
    exists k, payload, sid. destruct (HQ x Hx) as [_ ->]. auto. }
  case_bool_decide as Hm; [|case_bool_decide as Hm'; [|by apply Hf]].
  - eapply spec_bind; [by apply spec_lift_eq|]. intros password. cbn beta. eapply spec_bind; [apply spec_file|]. intros file. cbn beta.
    destruct (check_password file user password) eqn:Ec; [apply Ha|apply Hf|apply Hf]; try (by intros x [[? _] _]).
    intros x [[Hx Hpw] [k ->]]. exists k, method, r. split; [exact Hr|]. left. eauto.
  - eapply spec_bind; [by apply spec_lift_eq|]. intros [[[has_sig algo] key_blob] r']. cbn beta.
    destruct has_sig; cbn [negb].
    + eapply spec_bind; [apply spec_lift_eq; by intros x [? _]; apply HP|]. intros signature. cbn beta.
      case_bool_decide as Halg.
      * eapply spec_bind; [apply spec_file|]. intros file. cbn beta.
        destruct (verify_publickey file user algo key_blob signature sid) eqn:Ev; [apply Ha|apply Hf|apply Hf]; try (by intros x [[[? _] _] _]).
        intros x [_ [k ->]]. exists k, method, r. split; [exact Hr|]. right. eauto.
      * apply spec_bind with (fun _ => P); [apply spec_ret; by intros x [[? _] _]|]. intros file.
        assert (Ev : verify_publickey file user algo key_blob signature sid = Failure) by (unfold verify_publickey; by rewrite bool_decide_false).
        rewrite Ev. by apply Hf.
    + apply spec_bind with (fun _ => P).
      { destruct (_ && _); [|apply spec_ret; by intros x [? _]]. eapply spec_post; [eapply spec_weaken; [apply (spec_file P)|by intros x [? _]]|by intros a x [? _]]. }
      intros file. destruct (probe_publickey file algo key_blob); [|by apply Hf].
      eapply spec_weaken; [|exact Hat]. eapply spec_post; [apply (spec_send (at_state UserAuth)), at_enc|by intros _ x []].
Qed.

(** *** Channels *)

Lemma same_on_chan {A} (f : Channel -> K -> K * Channel * A) d : same_key (on_chan f d).
Proof. intros [k c]. unfold on_chan. destruct (c_channel c) as [ch|] eqn:E; [|done]. destruct (f ch k) as [[k' ch'] x]. unfold key. cbn. by rewrite E. Qed.

(** Sending in a state where everything is right. *)
Lemma send_inv (P : Key -> Prop) p : (forall x, P x -> inv x) -> spec P (send_packet p) (fun _ => inv).
Proof. intros H. eapply spec_weaken; [apply spec_send; by intros x []|exact H]. Qed.

Lemma on_channel_open_spec payload : spec (at_state Session) (on_channel_open payload) (fun _ => inv).
Proof.
  unfold on_channel_open. eapply spec_bind; [apply spec_parse, at_inv|]. intros [[[t r] w] m]. cbn beta. apply spec_conn. intros c [Hc _].
  destruct (negb _ || _); [apply send_inv; by intros x [[[] _] _]|].
  apply spec_bind with (fun _ => inv); [|intros _; by apply send_inv]. apply spec_upd. intros c' [[[[] Hst] _] _]. unfold key in *. cbn in *.
  constructor; cbn; auto.
Qed.

Lemma on_channel_request_spec payload : spec inv (on_channel_request payload) (fun _ => inv).
Proof.
  unfold on_channel_request. eapply spec_bind; [by apply spec_parse|]. intros [[t w] [[cols rows] cmd]]. cbn beta. apply spec_conn. intros c [Hc _].
  destruct (c_channel c) as [ch|]; [|apply spec_ret; by intros x [[? _] _]].
  apply spec_bind with (fun _ => inv); [eapply spec_weaken; [by apply spec_same; [apply same_on_chan|]|by intros x [[? _] _]]|].
  intros success. destruct w; [by apply send_inv|by apply spec_ret].
Qed.

Lemma on_channel_data_spec payload : spec inv (on_channel_data payload) (fun _ => inv).
Proof.
  unfold on_channel_data. eapply spec_bind; [by apply spec_parse|]. intros data. cbn beta. apply spec_conn. intros c [Hc _].
  destruct (c_channel c) as [ch|]; [|apply spec_ret; by intros x [[? _] _]].
  apply spec_bind with (fun _ => inv); [eapply spec_weaken; [by apply spec_same; [apply same_on_chan|]|by intros x [[? _] _]]|].
  intros [add|]; [by apply send_inv|by apply spec_ret].
Qed.

Lemma closed_spec (P : Key -> Prop) : (forall x, P x -> inv x) -> spec P (upd (set_state Closed)) (fun _ => inv).
Proof. intros H. apply spec_upd. intros c Hc. by apply closed_inv, inv_inv0, H. Qed.

Lemma on_session_spec payload msg : spec (at_state Session) (on_session payload msg) (fun _ => inv).
Proof.
  unfold on_session. destruct (msg =? _); [apply on_channel_open_spec|]. destruct (msg =? _); [eapply spec_weaken; [apply on_channel_request_spec|apply at_inv]|].
  destruct (msg =? _); [eapply spec_weaken; [apply on_channel_data_spec|apply at_inv]|]. destruct (msg =? _).
  { eapply spec_bind; [apply spec_parse, at_inv|]. intros add. cbn beta. eapply spec_weaken; [by apply (spec_same inv); [apply same_on_chan|]|by intros x [[? _] _]]. }
  destruct (msg =? _); [|apply spec_ret; apply at_inv].
  apply spec_conn. intros c Hc. apply spec_bind with (fun _ => inv).
  { destruct (if c_closing c then None else c_channel c); [apply send_inv; by intros x [[] _]|apply spec_ret; by intros x [[] _]]. }
  intros _. apply spec_bind with (fun _ => inv); [by apply spec_same; [apply same_close_shell|]|]. intros _. by apply closed_spec.
Qed.

Lemma handle_packet_spec payload host : spec inv (handle_packet payload host) (fun _ => inv).
Proof.
  unfold handle_packet. destruct payload as [|msg payload']; [by apply spec_ret|]. set (payload := msg :: payload').
  destruct (msg =? _); [by apply closed_spec|]. destruct (_ || _); [by apply spec_ret|]. destruct (msg =? _).
  { destruct (_).2 as [[]|]; [by apply send_inv|by apply spec_ret..]. }
  apply spec_conn. intros c Hc. destruct (c_state c) eqn:E; try (apply spec_ret; by intros x [? _]);
    (eapply spec_weaken; [first [apply on_kexinit_spec|apply on_kex_spec|apply on_service_request_spec|apply on_userauth_spec|apply on_session_spec]|]);
    intros x [Hx ->]; by split.
Qed.

(** *** A round *)

Lemma same_next_packet : same_key next_packet.
Proof.
  intros [k c]. unfold next_packet, conn, upd, modify, took, lift, fail, mbind, ST_bind. cbn. destruct (c_in_encrypted c) eqn:Ei.
  - destruct (c_enc_in c) as [a|] eqn:Ea; cbn; [|done]. destruct (_ <? 4); [done|]. destruct (open_length _ _ _); [|done]. destruct (_ || _); [done|].
    destruct (_ <? _); [done|]. destruct (aead_open _ _ _); done.
  - destruct (_ <? 4); [done|]. destruct (_ || _); [done|]. destruct (_ <? _); [done|]. destruct (parse_packet _) as [[]|]; done.
Qed.

Lemma packets_spec host fuel : spec inv (packets host fuel) (fun _ => inv).
Proof.
  induction fuel as [|fuel IH]; cbn [packets]; apply spec_conn; intros c Hc; (case_bool_decide; [apply spec_ret; by intros x [? _]|]);
    (apply spec_bind with (fun _ => inv); [eapply spec_weaken; [by apply spec_same; [apply same_next_packet|]|by intros x [? _]]|]);
    (intros [payload|]; [|by apply spec_ret]); (apply spec_bind with (fun _ => inv); [apply handle_packet_spec|]); intros _; [by apply spec_ret|exact IH].
Qed.

Lemma output_loop_spec rid maxp fuel : forall window, spec inv (output_loop rid maxp window fuel) (fun _ => inv).
Proof.
  induction fuel as [|fuel IH]; intros window; cbn [output_loop]; (destruct (window =? 0); [by apply spec_ret|]); (destruct (_ =? 0); [by apply spec_ret|]);
    (apply spec_bind with (fun _ => inv); [by apply spec_same; [apply same_on_chan|]|]); intros data; (case_bool_decide; [by apply spec_ret|]);
    (apply spec_bind with (fun _ => inv); [by apply send_inv|]); intros _; [by apply spec_ret|apply IH].
Qed.

Lemma session_round_spec : spec inv session_round (fun _ => inv).
Proof.
  unfold session_round. apply spec_bind with (fun _ => inv).
  { unfold pump_shell_output. apply spec_get. intros s Hs. destruct (c_channel s.2) as [ch|]; [|apply spec_ret; by intros x [? _]].
    destruct (negb _); [apply spec_ret; by intros x [? _]|]. apply spec_bind with (fun _ => inv); [eapply spec_weaken; [apply output_loop_spec|by intros x [? _]]|].
    intros [window done]. apply spec_bind with (fun _ => inv); [by apply spec_same; [apply same_on_chan|]|]. intros _. by apply spec_ret. }
  intros done. apply spec_get. intros s Hs. apply spec_bind with (fun _ => inv).
  { destruct (_ && _); [|apply spec_ret; by intros x [? _]]. apply spec_bind with (fun _ => inv).
    - unfold close_channel_from_shell. apply spec_conn. intros c Hc. destruct (c_channel c); [|apply spec_ret; by intros x [[? _] _]].
      apply spec_bind with (fun _ => inv); [apply send_inv; by intros x [[? _] _]|]. intros _. by apply send_inv.
    - intros _. apply spec_bind with (fun _ => inv); [by apply spec_same; [apply same_clock|]|]. intros now. by apply spec_upd. }
  intros _. apply spec_conn. intros c Hc. apply spec_bind with (fun _ => inv); [|intros _; by apply spec_ret].
  destruct (c_closing c); [|apply spec_ret; by intros x [? _]]. apply spec_bind with (fun _ => inv); [eapply spec_weaken; [by apply spec_same; [apply same_clock|]|by intros x [? _]]|].
  intros now. destruct (_ <=? _); [by apply closed_spec|by apply spec_ret].
Qed.

Lemma tspec_snd {A} P (m : ST (K * Connection) A) Q : spec P m Q -> tspec P (on_snd m) Q.
Proof. intros H [t s] Hs. specialize (H s Hs). unfold on_snd. cbn in *. by destruct (m s). Qed.

Lemma tspec_same {A} (m : ST (T * (K * Connection)) A) : (forall s, key (m s).1.2.2 = key s.2.2) -> tspec inv m (fun _ => inv).
Proof. intros H s Hs. cbn in *. rewrite (H s). by destruct (m s).2. Qed.

Lemma read_all_key fuel : forall s, key (read_all fuel s).1.2.2 = key s.2.2.
Proof.
  induction fuel as [|fuel IH]; intros [t [k c]]; cbn [read_all]; unfold get, modify, mbind, ST_bind, on_snd, clock, upd, modify, fail, mret, ST_ret; cbn [fst snd];
    (destruct (_ <=? _); [done|]); (destruct (t_read _ t) as [t' [[|b l]|e]]; cbn [fst snd]; [done| |by destruct e]);
    destruct (uptime_ms k) as [k' now]; cbn [fst snd]; (destruct (_ <? _); [done|]); [done|].
  by rewrite IH.
Qed.

Lemma flush_key (s : T * (K * Connection)) : key (flush s).1.2.2 = key s.2.2.
Proof.
  destruct s as [t [k c]]. unfold flush. case_bool_decide; [done|]. destruct (write_out _ _ _ _) as [t' [[sent done_]|e]]; cbn; [|done]. by destruct (0 <? sent).
Qed.

Lemma version_key : same_key try_take_version_line.
Proof. intros [k c]. unfold try_take_version_line, conn, upd, modify, lift, mbind, ST_bind. cbn. by destruct (version_line _ _) as [rx r]. Qed.

Lemma start_up_spec : spec inv start_up (fun _ => inv).
Proof.
  unfold start_up. apply spec_bind with (fun _ => inv); [by apply spec_upd|]. intros _. apply spec_bind with (fun _ => inv); [by apply spec_upd|]. intros _.
  apply spec_bind with (fun _ => inv).
  { unfold build_server_kexinit. apply spec_conn. intros c Hc. destruct (fill_bytes _ _) as [r cookie].
    apply spec_bind with (fun _ => inv); [apply spec_upd; by intros c' [? _]|]. intros _. by apply spec_ret. }
  intros kexinit. apply spec_bind with (fun _ => inv); [by apply spec_upd|]. intros _. by apply send_inv.
Qed.

Lemma pump_spec host : tspec inv (pump host) (fun _ => inv).
Proof.
  unfold pump. apply spec_get. intros s Hs. case_bool_decide; [apply spec_ret; by intros x [? _]|].
  apply spec_bind with (fun _ => inv); [eapply spec_weaken; [apply tspec_snd; by apply spec_same; [apply same_clock|]|by intros x [? _]]|].
  intros now. apply spec_get. intros s' Hs'.
  assert (Hd : forall reason desc, tspec (fun x => inv x /\ x = key s'.2.2) (on_snd (disconnect reason desc)) (fun _ => inv)).
  { intros reason desc. apply tspec_snd, disconnect_inv. by intros x [? _]. }
  destruct (_ && _); [apply spec_bind with (fun _ => inv); [apply Hd|intros _; by apply spec_ret]|].
  destruct (_ && _); [apply spec_bind with (fun _ => inv); [apply Hd|intros _; by apply spec_ret]|].
  apply spec_bind with (fun _ => inv).
  { apply tspec_snd. destruct (c_started _); [apply spec_ret; by intros x [? _]|]. eapply spec_weaken; [apply start_up_spec|by intros x [? _]]. }
  intros _. apply spec_bind with (fun _ => inv); [apply tspec_same, read_all_key|]. intros d1.
  apply spec_get. intros s1 Hs1. apply spec_bind with (fun _ => inv).
  { case_bool_decide as Hst; [|apply spec_ret; by intros x [? _]].
    apply spec_bind with (fun _ => at_state VersionExchange).
    { apply tspec_snd. apply (spec_weaken _ (at_state VersionExchange)); [apply spec_same; [apply version_key|apply at_inv]|]. by intros x [? ->]. }
    intros [vc|]; [|apply spec_ret, at_inv]. apply spec_bind with (fun _ => inv); [|intros _; by apply spec_ret].
    apply tspec_snd, spec_upd. intros c Hc. assert (E : c_state c = VersionExchange) by apply Hc.
    change (key (set_state KexInit (set_v_c vc c))) with (key (set_state KexInit c)). apply move_inv; rewrite ?E; try done.
    by rewrite !elem_of_cons; intros [|[|[]%elem_of_nil]]. }
  intros [|].
  - apply spec_get. intros s2 Hs2. apply spec_bind with (fun _ => inv); [eapply spec_weaken; [apply tspec_snd, packets_spec|by intros x [? _]]|]. intros d2.
    apply spec_get. intros s3 Hs3. apply spec_bind with (fun _ => inv).
    { case_bool_decide; [|apply tspec_snd, spec_ret; by intros x [? _]]. eapply spec_weaken; [apply tspec_snd, session_round_spec|by intros x [? _]]. }
    intros d3. apply spec_bind with (fun _ => inv); [apply tspec_same, flush_key|]. intros d4. by apply spec_ret.
  - apply spec_bind with (fun _ => inv); [apply tspec_same, flush_key|]. intros d4. by apply spec_ret.
Qed.

(** ** Every connection *)

(** What the network task does with a connection, whatever the kernel and the other end
    do between its rounds. *)
Inductive reachable : Connection -> Prop :=
  | reach_new now r : reachable (connection_new now r)
  | reach_pump c host t k : reachable c -> reachable (pump host (t, (k, c))).1.2.2
  | reach_shutdown c k : reachable c -> reachable (shutdown (k, c)).1.2.

Lemma conn_reachable_inv c : reachable c -> inv (key c).
Proof.
  induction 1 as [now r|c host t k Hc IH|c k Hc IH].
  - constructor; cbn; try done. by rewrite !elem_of_cons; intros [|[|[|[]%elem_of_nil]]].
  - pose proof (pump_spec host (t, (k, c)) IH) as H. cbn beta in H. destruct (pump host (t, (k, c))) as [s [d|e]]; exact H.
  - apply inv_inv0 in IH. change (inv (key (set_state Closed (set_channel None c)))). apply closed_inv. destruct IH. unfold key in *. cbn in *. constructor; auto. done.
Qed.

(** C27. Nobody gets in without a credential: in every state a connection can reach, after
    any rounds with any bytes from the other end and any state of the kernel, requests of
    authentication and channels are only served with both directions encrypted under a
    session; a session, and any channel with its shell, exists only after a request was
    accepted, by the password file or by the signature of an authorized key over this
    very session, for the user the shell runs as; and six refusals end the connection. *)
Theorem ssh_access_guarded c : reachable c ->
  (c_state c ∈ [UserAuth; Session] ->
     c_in_encrypted c = true /\ c_out_encrypted c = true /\ is_Some (c_enc_in c) /\ is_Some (c_enc_out c) /\ is_Some (c_session_id c)) /\
  (c_state c = Session \/ is_Some (c_channel c) ->
     exists k payload sid, c_session_id c = Some sid /\ accepted k sid payload (c_auth_user c)) /\
  0 <= c_auth_fails c <= MAX_AUTH_ATTEMPTS /\ (c_state c <> Closed -> c_auth_fails c < MAX_AUTH_ATTEMPTS).
Proof.
  intros Hc. destruct (conn_reachable_inv c Hc). unfold key in *. cbn in *. split_and!; [| |tauto..].
  - intros Hst. assert (Hs : c_state c ∈ [Encrypted; UserAuth; Session]) by (rewrite !elem_of_cons in *; tauto).
    destruct (inv_encrypted0 Hs) as (H1 & H2 & H3). cbn in *. pose proof (inv_in0 H1) as H4%bool_decide_eq_true. pose proof (inv_out0 H2) as H5%bool_decide_eq_true. auto.
  - intros Hx. apply inv_authed0. destruct Hx as [Hst|Hch]; [auto|]. apply inv_channel0. by apply bool_decide_eq_true.
Qed.
End ops.

(** ** A connection that logs in

    A kernel of nothing but sessions, where there is no password file, and a transport
    that gives the bytes it has. *)
Definition toy_host : SshHost Sessions := {|
  sessions s := s;
  set_sessions s _ := s;
  ssh_shell_entry := 0;
  host_spawn_blocked _ _ _ _ _ _ := mret 7;
  host_register_process _ _ _ _ s := (s, 3);
  host_seed_fd_table _ _ := mret tt;
  host_reap _ s := s;
  host_unblock _ s := s;
  host_has_exited _ _ := false;
  host_read_file _ _ := fail NotFound;
  uptime_ms s := (s, 5);
|}.
Definition toy_transport : Transport (list Z) := {|
  t_read n t := (drop (Z.to_nat n) t, Ok (take (Z.to_nat n) t));
  t_write l t := (t, Ok (len l));
|}.

Section toy.
#[local] Existing Instance toy_crypto.
#[local] Existing Instance toy_host.
#[local] Existing Instance toy_transport.

Definition no_sessions : Sessions := mkSessions ∅ ∅ 0 1 (mkUart [] []).
Definition host_seed : list Z := toy_hash 32 [9].

(** A round in which the other end has sent [bytes]. *)
Definition round (bytes : list Z) (c : Connection (R := Z)) : Connection := (pump host_seed (bytes, (no_sessions, c))).1.2.2.

(** What the other end sends: its version, its lists, its point and NEWKEYS; then,
    under the key of the connection, the service and the login. *)
Definition client_hello : list Z :=
  as_bytes "SSH-2.0-x" ++ [13; 10] ++
  frame_packet (put_u32 0 (put_bool false (put_name_list [] (put_name_list [] (put_name_list ["none"%string] (put_name_list ["none"%string]
    (put_name_list [] (put_name_list [] (put_name_list [CIPHER_NAME] (put_name_list [CIPHER_NAME] (put_name_list [HOSTKEY_NAME]
    (put_name_list [KEX_NAME] (put_u8 SSH_MSG_KEXINIT [] ++ replicate 16 1))))))))))))) 8 0 ++
  frame_packet (put_string (toy_hash 32 [4]) (put_u8 SSH_MSG_KEX_ECDH_INIT [])) 8 0 ++
  frame_packet (put_u8 SSH_MSG_NEWKEYS []) 8 0.
Definition client_sealed (c : Connection (R := Z)) (i : Z) (p : list Z) : list Z :=
  match c_enc_in c with
  | Some a => match seal a (frame_packet_aead p 8 0) (c_recv_seq c + i) with Ok r => r | Err _ => [] end
  | None => []
  end.
Definition service_request : list Z := put_string (as_bytes "ssh-userauth") (put_u8 SSH_MSG_SERVICE_REQUEST []).
Definition password_request (user password : list Z) : list Z :=
  put_string password (put_bool false (put_string (as_bytes "password") (put_string (as_bytes "ssh-connection") (put_string user
    (put_u8 SSH_MSG_USERAUTH_REQUEST []))))).

Definition greeted : Connection (R := Z) := round client_hello (connection_new 0 1).
Definition logged_in : Connection (R := Z) :=
  round (client_sealed greeted 0 service_request ++ client_sealed greeted 1 (password_request DEV_USER DEV_PASSWORD)) greeted.

Lemma logged_in_reachable : reachable (K := Sessions) (T := list Z) logged_in.
Proof. apply reach_pump, reach_pump, reach_new. Qed.
Example logged_in_session : c_state logged_in = Session.
Proof. vm_compute. reflexivity. Qed.

Lemma ssh_access_guarded_witness :
  c_in_encrypted logged_in = true /\ exists k payload sid, c_session_id logged_in = Some sid /\ accepted k sid payload (c_auth_user logged_in).
Proof.
  pose proof (ssh_access_guarded (K := Sessions) (T := list Z) logged_in logged_in_reachable) as (H1 & H2 & _).
  rewrite logged_in_session in H1, H2. destruct H1 as (H1 & _); [apply list_elem_of_further, list_elem_of_here|].
  split; [exact H1|]. exact (H2 (or_introl eq_refl)).
Defined.
End toy.
