(* ===== verification/SshStream.v ===== *)
(** * SshStream: what one side sends is what the other receives

    The packets that [send_packet] puts in the output of one connection reach the handlers
    of another, through the reads and the packet loop of its rounds, in order, in whatever
    pieces the bytes arrive; and what a shell writes leaves in order, within the window of
    the other end. *)

From S2P Require Import Prelude Session Text SshProto SshProtoOps SshCrypt SshCryptOps SshAuth SshConn SshConnOps.

Open Scope Z_scope.

#[local] Arguments frame_packet : simpl never.
#[local] Arguments frame_packet_aead : simpl never.
#[local] Arguments be_bytes : simpl never.
#[local] Arguments seal : simpl never.
#[local] Arguments aead_open : simpl never.
#[local] Arguments open_length : simpl never.
#[local] Arguments parse_packet : simpl never.

(** What a transport still has for the reader: a read takes it from the front, and an
    error leaves it as it is. *)
Class StreamLaws (T : Type) `{!Transport T} := {
  incoming : T -> list Z;
  t_read_stream n t : 0 < n -> match t_read n t with
                               | (t', Ok l) => incoming t = l ++ incoming t' /\ len l <= n
                               | (t', Err _) => incoming t' = incoming t
                               end;
}.

Section stream.
Context {R : Type} `{HC : !Crypto R, HL : !CryptoLaws R} {K : Type} `{HK : !SshHost K} {T : Type} `{HT : !Transport T, HS : !StreamLaws T}.

(** The key of a direction; none while it is not encrypted. *)
Definition key_out (c : Connection (R := R)) : option Aead := if c_out_encrypted c then c_enc_out c else None.
Definition key_in (c : Connection (R := R)) : option Aead := if c_in_encrypted c then c_enc_in c else None.
Definition has_keys (c : Connection (R := R)) : Prop :=
  (c_out_encrypted c = true -> is_Some (c_enc_out c)) /\ (c_in_encrypted c = true -> is_Some (c_enc_in c)).
Definition has_in (c : Connection (R := R)) : Prop := c_in_encrypted c = true -> is_Some (c_enc_in c).

(** A payload whose record fits the buffer of the receiver, framed and sealed. *)
Definition fits (p : list Z) : Prop := len p + 32 <= MAX_RX_BUFFER_SIZE.

Lemma fits_sendable p : fits p -> len p + 260 <= MAX_PACKET.
Proof. unfold fits, MAX_RX_BUFFER_SIZE, MAX_PACKET. lia. Qed.

(** The record of a packet under a key, with some filling. *)
Definition record_of (a : option Aead) (seq : Z) (p record : list Z) : Prop :=
  exists fill, match a with
               | Some a => seal a (frame_packet_aead p MIN_BLOCK fill) seq = Ok record
               | None => record = frame_packet p MIN_BLOCK fill
               end.

Lemma send_record p (k : K) c : has_keys c ->
  exists c' record, send_packet (K := K) p (k, c) = ((k, c'), Ok tt) /\ record_of (key_out c) (c_send_seq c) p record /\
    c_tx c' = c_tx c ++ record /\ c_send_seq c' = u32 (c_send_seq c + 1) /\ key_out c' = key_out c /\ has_keys c'.
Proof.
  intros [Ho Hi]. unfold send_packet, conn, upd, modify, mbind, ST_bind, key_out, record_of. cbn. destruct (next_u32 (c_rng c)) as [r n]. cbn.
  destruct (c_out_encrypted c) eqn:Eo; cbn.
  - destruct (Ho eq_refl) as [a Ea]. rewrite Ea. cbn. pose proof (proj2 (frame_long p MIN_BLOCK (Z.land n 255))) as Hl.
    rewrite seal_sealed by exact Hl. cbn. do 2 eexists. split; [done|]. split; [exists (Z.land n 255); by rewrite seal_sealed|]. cbn. rewrite Eo, Ea. by split_and!.
  - do 2 eexists. split; [done|]. split; [by exists (Z.land n 255)|]. cbn. rewrite Eo. split_and!; try done. split; cbn; [by rewrite Eo|exact Hi].
Qed.

(** A whole record at the front is taken. *)
Lemma recv_record p record more (k : K) c : has_in c -> fits p -> record_of (key_in c) (c_recv_seq c) p record -> c_rx c = record ++ more ->
  next_packet (K := K) (k, c) = ((k, took (len record) c), Ok (Some p)).
Proof.
  intros Hi Hp%fits_sendable [fill Hr] Hrx. unfold has_in, next_packet, conn, upd, modify, mbind, ST_bind, key_in in *. cbn. destruct (c_in_encrypted c) eqn:Ei.
  - destruct (Hi eq_refl) as [a Ea]. rewrite Ea in *. cbn. destruct (aead_roundtrip a p fill (c_recv_seq c) Hp) as (rec & Hs & Hopen & n & Hn & Hb & Hlen).
    rewrite Hr in Hs. injection Hs as <-. unfold MIN_PADDING, MAX_PACKET, TAG_LEN in *. rewrite Hrx, length_app.
    destruct (Z.ltb_spec (Z.of_nat (length record + length more)) 4); [lia|]. rewrite take_app_le by lia. rewrite Hn. cbn.
    destruct (Z.ltb_spec n (1 + 4)), (Z.ltb_spec 35000 n); try lia. cbn [orb]. destruct (Z.ltb_spec (Z.of_nat (length record + length more)) (4 + n + 16)); [lia|].
    rewrite take_app_length' by lia. rewrite Hopen. cbn. by rewrite <- Hlen.
  - subst record. unfold MIN_BLOCK, MIN_PADDING in *.
    destruct (padding_spec 8 (4 + (1 + len p)) ltac:(unfold MIN_BLOCK; lia) ltac:(lia)) as [Hpad _].
    assert (Hf : frame_packet p 8 fill = framed p (padding 8 (4 + (1 + len p))) fill) by done. rewrite Hf in *. set (pad := padding 8 _) in *.
    unfold MAX_PACKET in *. unfold MIN_PADDING in Hpad.
    destruct (framed_head p pad fill ltac:(unfold MIN_PADDING; lia) ltac:(unfold MAX_PACKET; lia)) as (Hof & _ & Hlen).
    rewrite Hrx, length_app. destruct (Z.ltb_spec (Z.of_nat (length (framed p pad fill) + length more)) 4); [lia|]. rewrite take_app_le by lia. rewrite Hof.
    destruct (Z.ltb_spec (1 + len p + pad) (1 + 4)), (Z.ltb_spec 35000 (1 + len p + pad)); try lia. cbn [orb].
    destruct (Z.ltb_spec (Z.of_nat (length (framed p pad fill) + length more)) (4 + (1 + len p + pad))); [lia|].
    rewrite parse_framed by (unfold MIN_PADDING, MAX_PACKET; lia). cbn. by rewrite Hlen.
Qed.

(** A part of a record waits for the rest. *)
Lemma recv_partial p record pre post (k : K) c : has_in c -> fits p -> record_of (key_in c) (c_recv_seq c) p record ->
  record = pre ++ post -> post <> [] -> c_rx c = pre -> next_packet (K := K) (k, c) = ((k, c), Ok None).
Proof.
  intros Hi Hp%fits_sendable [fill Hr] Hsplit Hpost Hrx. unfold has_in in Hi. assert (Hpl : len record = len pre + len post) by (rewrite Hsplit, length_app; lia).
  assert (0 < len post) by (destruct post; [done|cbn; lia]).
  unfold next_packet, conn, upd, modify, mbind, ST_bind, key_in in *. cbn. rewrite Hrx. destruct (c_in_encrypted c) eqn:Ei.
  - destruct (Hi eq_refl) as [a Ea]. rewrite Ea in *. cbn. destruct (Z.ltb_spec (len pre) 4); [done|].
    destruct (aead_roundtrip a p fill (c_recv_seq c) Hp) as (rec & Hs & Hopen & n & Hn & Hb & Hlen). rewrite Hr in Hs. injection Hs as <-.
    rewrite Hsplit, take_app_le in Hn by lia. rewrite Hn. cbn. unfold MIN_PADDING, MAX_PACKET, TAG_LEN in *.
    destruct (Z.ltb_spec n (1 + 4)), (Z.ltb_spec 35000 n); try lia. cbn [orb]. by destruct (Z.ltb_spec (len pre) (4 + n + 16)); [|lia].
  - destruct (Z.ltb_spec (len pre) 4); [done|]. unfold MIN_BLOCK, MIN_PADDING in *.
    destruct (padding_spec 8 (4 + (1 + len p)) ltac:(unfold MIN_BLOCK; lia) ltac:(lia)) as [Hpad _].
    assert (Hf : record = framed p (padding 8 (4 + (1 + len p))) fill) by done. set (pad := padding 8 _) in *.
    unfold MAX_PACKET in *. unfold MIN_PADDING in Hpad.
    destruct (framed_head p pad fill ltac:(unfold MIN_PADDING; lia) ltac:(unfold MAX_PACKET; lia)) as (Hof & _ & Hlen).
    rewrite <- Hf, Hsplit, take_app_le in Hof by lia. rewrite Hof, <- Hf in *.
    destruct (Z.ltb_spec (1 + len p + pad) (1 + 4)), (Z.ltb_spec 35000 (1 + len p + pad)); try lia. cbn [orb].
    by destruct (Z.ltb_spec (len pre) (4 + (1 + len p + pad))); [|lia].
Qed.

(** ** Streams *)

Definition CSt : Type := K * Connection (R := R).

Fixpoint send_all (ps : list (list Z)) : ST CSt unit :=
  match ps with [] => mret tt | p :: ps => _ ← send_packet p; send_all ps end.

(** [w] is the records of the packets, from a sequence number on. *)
Fixpoint records (a : option Aead) (seq : Z) (ps : list (list Z)) (w : list Z) : Prop :=
  match ps with
  | [] => w = []
  | p :: ps => exists r w', record_of a seq p r /\ w = r ++ w' /\ records a (u32 (seq + 1)) ps w'
  end.

Fixpoint seq_after (seq : Z) (ps : list (list Z)) : Z := match ps with [] => seq | _ :: ps => seq_after (u32 (seq + 1)) ps end.

Lemma send_all_records ps : forall (k : K) c, has_keys c ->
  exists c' w, send_all ps (k, c) = ((k, c'), Ok tt) /\ c_tx c' = c_tx c ++ w /\ records (key_out c) (c_send_seq c) ps w /\ c_send_seq c' = seq_after (c_send_seq c) ps.
Proof.
  induction ps as [|p ps IH]; intros k c Hk; cbn [send_all records seq_after].
  - exists c, []. by rewrite app_nil_r.
  - destruct (send_record p k c Hk) as (c1 & r & E1 & Hr & Ht & Hs & Hko & Hk1). unfold mbind at 1, ST_bind at 1. rewrite E1.
    destruct (IH k c1 Hk1) as (c' & w & E & Ht' & Hw & Hs'). exists c', (r ++ w). rewrite Hko, Hs in Hw. rewrite Hs in Hs'.
    split; [exact E|]. split; [by rewrite Ht', Ht, app_assoc|]. split; [by exists r, w|exact Hs'].
Qed.

Lemma took_rx n (c : Connection (R := R)) : key_in (took n c) = key_in c /\ c_rx (took n c) = drop (Z.to_nat n) (c_rx c) /\
  c_recv_seq (took n c) = u32 (c_recv_seq c + 1).
Proof. done. Qed.

(** Nothing whole waits in the buffer. *)
Definition settled (k : K) (c : Connection (R := R)) : Prop := next_packet (k, c) = ((k, c), Ok None).

Lemma record_len a seq p r : record_of a seq p r -> fits p -> 4 <= len r <= MAX_RX_BUFFER_SIZE.
Proof.
  intros [fill Hr] Hp. unfold fits, MAX_RX_BUFFER_SIZE in *.
  assert (Hpad : forall n, 0 <= n -> 4 <= padding MIN_BLOCK n <= 11).
  { intros n Hn. unfold padding, MIN_BLOCK, MIN_PADDING. pose proof (Z.mod_pos_bound n 8 ltac:(lia)). destruct (Z.ltb_spec (8 - n mod 8) 4); lia. }
  destruct a as [a|].
  - pose proof (frame_long p MIN_BLOCK fill) as [_ H2]. rewrite seal_sealed in Hr by exact H2. injection Hr as <-. rewrite sealed_len by exact H2.
    split; [unfold TAG_LEN; lia|]. unfold frame_packet_aead. rewrite Z.max_id. specialize (Hpad (1 + len p) ltac:(lia)).
    destruct (framed_head p (padding MIN_BLOCK (1 + len p)) fill) as (_ & _ & ->); unfold MIN_PADDING, MAX_PACKET, TAG_LEN; lia.
  - subst r. change (frame_packet p MIN_BLOCK fill) with (framed p (padding MIN_BLOCK (4 + (1 + len p))) fill). specialize (Hpad (4 + (1 + len p)) ltac:(lia)).
    destruct (framed_head p (padding MIN_BLOCK (4 + (1 + len p))) fill) as (_ & _ & ->); unfold MIN_PADDING, MAX_PACKET; lia.
Qed.

Lemma empty_settled k c : has_in c -> c_rx c = [] -> settled k c.
Proof.
  intros Hi Hrx. unfold settled, next_packet, conn, mbind, ST_bind. cbn. rewrite Hrx. destruct (c_in_encrypted c) eqn:E; cbn; [|done].
  by destruct (Hi E) as [a ->].
Qed.

(** What the front of a buffer with a part of the stream is: the whole first record, or
    less of it, and then it waits. *)
Lemma front_of k c p ps w2 : has_in c -> fits p -> records (key_in c) (c_recv_seq c) (p :: ps) (c_rx c ++ w2) ->
  (exists n more, next_packet (k, c) = ((k, took n c), Ok (Some p)) /\ c_rx (took n c) = more /\ (length more + 4 <= length (c_rx c))%nat /\
     records (key_in c) (u32 (c_recv_seq c + 1)) ps (more ++ w2)) \/
  (settled k c /\ len (c_rx c) < MAX_RX_BUFFER_SIZE /\ w2 <> []).
Proof.
  intros Hi Hp (r & w' & Hr & Hw & Hrest). pose proof (record_len _ _ _ _ Hr Hp) as Hr4.
  destruct (decide (length r <= length (c_rx c))%nat) as [Hle|Hgt]; [left|right].
  - assert (E : exists more, c_rx c = r ++ more /\ w' = more ++ w2).
    { exists (drop (length r) (c_rx c)). apply (f_equal (take (length r))) in Hw as Ht. rewrite take_app_le, take_app_length in Ht by lia.
      split; [rewrite <- Ht at 1; by rewrite take_drop|]. apply (f_equal (drop (length r))) in Hw. by rewrite drop_app_le, drop_app_length in Hw. }
    destruct E as (more & Hrx & ->). exists (len r), more. split; [by apply (recv_record p r more)|].
    split; [cbn; by rewrite Hrx, Nat2Z.id, drop_app_length|]. split; [rewrite Hrx, length_app; lia|done].
  - assert (E : exists post, r = c_rx c ++ post /\ post <> []).
    { exists (drop (length (c_rx c)) r). apply (f_equal (take (length (c_rx c)))) in Hw as Ht. rewrite take_app_length, take_app_le in Ht by lia.
      split; [rewrite Ht at 1; by rewrite take_drop|]. intros E. apply (f_equal length) in E. rewrite length_drop in E. cbn in E. lia. }
    destruct E as (post & Hsplit & Hpost). split; [by apply (recv_partial p r (c_rx c) post)|]. split; [lia|].
    intros ->. apply (f_equal length) in Hw. rewrite !length_app in Hw. cbn in Hw. lia.
Qed.

(** ** The handlers leave the incoming side alone *)

(** What they must not touch, and the state. *)
Record Inside := mkInside { i_rx : list Z; i_seq : Z; i_enc : bool; i_key : option Aead; i_state : State }.
Definition inside (c : Connection (R := R)) : Inside := mkInside (c_rx c) (c_recv_seq c) (c_in_encrypted c) (c_enc_in c) (c_state c).

Definition keeps {A} (Q : Inside -> Prop) (m : ST CSt A) : Prop := forall s, Q (inside s.2) -> Q (inside (m s).1.2).

Lemma keeps_inside_bind {A B} Q (m : ST CSt A) (f : A -> ST CSt B) : keeps Q m -> (forall a, keeps Q (f a)) -> keeps Q (m ≫= f).
Proof.
  intros Hm Hf s Hs. specialize (Hm s Hs). unfold mbind, ST_bind. destruct (m s) as [s1 [a|e]]; cbn in *; [|exact Hm].
  specialize (Hf a s1 Hm). by destruct (f a s1).
Qed.

Lemma keeps_inside {A} Q (m : ST CSt A) : (forall s, inside (m s).1.2 = inside s.2) -> keeps Q m.
Proof. intros H s Hs. by rewrite H. Qed.

Lemma keeps_upd Q (f : Connection -> Connection) : (forall c, Q (inside c) -> Q (inside (f c))) -> keeps Q (upd f).
Proof. intros H s Hs. by apply H. Qed.

Lemma inside_send p s : inside (send_packet (K := K) p s).1.2 = inside s.2.
Proof.
  destruct s as [k c]. unfold send_packet, conn, upd, modify, mbind, ST_bind. cbn. destruct (next_u32 (c_rng c)) as [r n]. cbn.
  destruct (c_out_encrypted c); cbn; [|done]. destruct (c_enc_out c); cbn; [|done]. by destruct (seal _ _ _).
Qed.

Lemma keeps_send Q p : keeps Q (send_packet p).
Proof. apply keeps_inside, inside_send. Qed.

Lemma inside_chan {A} (f : Channel -> K -> K * Channel * A) d s : inside (on_chan f d s).1.2 = inside s.2.
Proof. destruct s as [k c]. unfold on_chan. destruct (c_channel c) as [ch|]; [|done]. by destruct (f ch k) as [[k' ch'] x]. Qed.

Lemma keeps_disconnect Q reason desc : (forall i, Q i -> Q (mkInside (i_rx i) (i_seq i) (i_enc i) (i_key i) Closed)) -> keeps Q (disconnect reason desc).
Proof.
  intros H. unfold disconnect. generalize (put_string [] (put_string (as_bytes desc) (put_u32 reason (put_u8 SSH_MSG_DISCONNECT [])))). intros p.
  apply keeps_inside_bind; [apply keeps_inside; intros s; exact (inside_send p s)|]. intros _. apply keeps_inside_bind; [by apply keeps_inside; intros []|]. intros _.
  apply keeps_upd. intros c Hc. exact (H _ Hc).
Qed.

Lemma keeps_conn {A} Q (f : Connection -> ST CSt A) : (forall c, Q (inside c) -> keeps Q (f c)) -> keeps Q (conn ≫= f).
Proof. intros H s Hs. exact (H s.2 Hs s Hs). Qed.

Lemma keeps_get {A} Q (f : CSt -> ST CSt A) : (forall s, Q (inside s.2) -> keeps Q (f s)) -> keeps Q (get ≫= f).
Proof. intros H s Hs. exact (H s Hs s Hs). Qed.

Lemma keeps_file Q path n : keeps Q (file_answer path n).
Proof. apply keeps_inside. intros [k c]. unfold file_answer. cbn. by destruct (host_read_file path n k). Qed.

(** Behind the exchange of keys, and before it. *)
Definition late : list State := [Encrypted; UserAuth; Session; Closed].
Definition sealed_stage rx seq a (i : Inside) : Prop := i_rx i = rx /\ i_seq i = seq /\ i_enc i = true /\ i_key i = a /\ i_state i ∈ late.
Definition plain_stage rx seq (i : Inside) : Prop := i_rx i = rx /\ i_seq i = seq /\ i_enc i = false /\ i_state i <> VersionExchange.

(** A stage that a late state belongs to, whatever the state was. *)
Definition late_closed (Q : Inside -> Prop) : Prop :=
  forall i st, Q i -> st ∈ late -> Q (mkInside (i_rx i) (i_seq i) (i_enc i) (i_key i) st).

Lemma sealed_late rx seq a : late_closed (sealed_stage rx seq a).
Proof. intros i st (H1 & H2 & H3 & H4 & H5) Hst. by repeat split. Qed.
Lemma plain_late rx seq : late_closed (plain_stage rx seq).
Proof. intros i st (H1 & H2 & H3 & H4) Hst. repeat split; try done. cbn. intros ->. by repeat (apply elem_of_cons in Hst as [[=]|Hst]); apply elem_of_nil in Hst. Qed.

Section late.
Context (Q : Inside -> Prop) (HQ : late_closed Q).

Lemma keeps_late st : st ∈ late -> keeps Q (upd (set_state st)).
Proof. intros Hst. apply keeps_upd. intros c Hc. exact (HQ _ st Hc Hst). Qed.

Lemma keeps_end reason desc : keeps Q (disconnect reason desc).
Proof. apply keeps_disconnect. intros i Hi. apply HQ; [done|]. unfold late. set_solver. Qed.

Lemma keeps_service payload msg : keeps Q (on_service_request payload msg).
Proof.
  unfold on_service_request. destruct (negb _); [apply keeps_end|]. apply keeps_inside_bind; [by apply keeps_inside|]. intros service.
  destruct (negb _); [apply keeps_end|]. apply keeps_inside_bind; [apply keeps_send|]. intros _. apply keeps_late. unfold late. set_solver.
Qed.

Lemma keeps_fail_auth : keeps Q fail_auth.
Proof.
  unfold fail_auth. apply keeps_inside_bind; [by apply keeps_upd|]. intros _. apply keeps_inside_bind; [apply keeps_send|]. intros _. apply keeps_conn. intros c Hc.
  destruct (_ <=? _); [apply keeps_end|by apply keeps_inside].
Qed.

Lemma keeps_authenticated user : keeps Q (authenticated user).
Proof.
  unfold authenticated, send_userauth_success. apply keeps_inside_bind; [by apply keeps_upd|]. intros _. apply keeps_inside_bind; [apply keeps_send|]. intros _.
  apply keeps_late. unfold late. set_solver.
Qed.

Lemma keeps_userauth payload msg : keeps Q (on_userauth payload msg).
Proof.
  unfold on_userauth. destruct (negb _); [by apply keeps_inside|]. apply keeps_inside_bind; [by apply keeps_inside|]. intros [[user method] r].
  apply keeps_conn. intros c Hc. destruct (c_session_id c) as [sid|]; [|apply keeps_end]. case_bool_decide.
  { apply keeps_inside_bind; [by apply keeps_inside|]. intros password. apply keeps_inside_bind; [apply keeps_file|]. intros file.
    destruct (check_password _ _ _); [apply keeps_authenticated|apply keeps_fail_auth..]. }
  case_bool_decide; [|apply keeps_fail_auth]. apply keeps_inside_bind; [by apply keeps_inside|]. intros [[[has_sig algo] blob] r']. destruct (negb _).
  - apply keeps_inside_bind; [destruct (_ && _); [apply keeps_file|by apply keeps_inside]|]. intros file. destruct (probe_publickey _ _ _); [apply keeps_send|apply keeps_fail_auth].
  - apply keeps_inside_bind; [by apply keeps_inside|]. intros signature. apply keeps_inside_bind; [destruct (bool_decide _); [apply keeps_file|by apply keeps_inside]|]. intros file.
    destruct (verify_publickey _ _ _ _ _ _); [apply keeps_authenticated|apply keeps_fail_auth..].
Qed.

Lemma keeps_session payload msg : keeps Q (on_session payload msg).
Proof.
  unfold on_session. destruct (_ =? _).
  { unfold on_channel_open. apply keeps_inside_bind; [by apply keeps_inside|]. intros [[[ty rid] w] mp]. apply keeps_conn. intros c Hc.
    destruct (_ || _); [apply keeps_send|]. apply keeps_inside_bind; [by apply keeps_upd|]. intros _. apply keeps_send. }
  destruct (_ =? _).
  { unfold on_channel_request. apply keeps_inside_bind; [by apply keeps_inside|]. intros [[ty want] [[cols rows] cmd]]. apply keeps_conn. intros c Hc.
    destruct (c_channel c); [|by apply keeps_inside]. apply keeps_inside_bind; [apply keeps_inside, inside_chan|]. intros success. destruct want; [apply keeps_send|by apply keeps_inside]. }
  destruct (_ =? _).
  { unfold on_channel_data. apply keeps_inside_bind; [by apply keeps_inside|]. intros data. apply keeps_conn. intros c Hc. destruct (c_channel c); [|by apply keeps_inside].
    apply keeps_inside_bind; [apply keeps_inside, inside_chan|]. intros [add|]; [apply keeps_send|by apply keeps_inside]. }
  destruct (_ =? _); [apply keeps_inside_bind; [by apply keeps_inside|]; intros add; apply keeps_inside, inside_chan|].
  destruct (_ =? _); [|by apply keeps_inside]. apply keeps_conn. intros c Hc.
  apply keeps_inside_bind; [destruct (if c_closing c then None else c_channel c); [apply keeps_send|by apply keeps_inside]|]. intros _.
  apply keeps_inside_bind; [by apply keeps_inside; intros []|]. intros _. apply keeps_late. unfold late. set_solver.
Qed.
End late.

Lemma keeps_kexinit rx seq payload msg : keeps (plain_stage rx seq) (on_kexinit payload msg).
Proof.
  unfold on_kexinit. destruct (negb _); [apply keeps_end, plain_late|]. apply keeps_inside_bind; [by apply keeps_upd|]. intros _.
  destruct (negotiate payload); [|apply keeps_end, plain_late]. apply keeps_upd. by intros c (H1 & H2 & H3 & H4).
Qed.

Lemma keeps_kex rx seq payload msg host : msg <> SSH_MSG_NEWKEYS -> keeps (plain_stage rx seq) (on_kex payload msg host).
Proof.
  intros Hm. unfold on_kex. apply keeps_conn. intros c0 _. destruct (Z.eqb_spec msg SSH_MSG_NEWKEYS); [done|].
  destruct (negb _); [apply keeps_end, plain_late|]. apply keeps_inside_bind; [by apply keeps_inside|]. intros q. apply keeps_get. intros s Hs.
  destruct (run_kex host q s) as [s' result] eqn:Er.
  assert (Hk : inside s'.2 = inside s.2) by (unfold run_kex in Er; destruct (run_server _ _ _ _ _ _ _); by injection Er as <- <-).
  apply keeps_inside_bind; [intros s1 _; cbn; by rewrite Hk|]. intros _. destruct result as [kx|e]; [|apply keeps_end, plain_late].
  apply keeps_inside_bind; [apply keeps_upd; intros c Hc; by destruct (c_session_id c)|]. intros _. apply keeps_conn. intros c1 _.
  apply keeps_inside_bind; [apply keeps_send|]. intros _. apply keeps_inside_bind; [apply keeps_send|]. intros _.
  repeat (first [apply keeps_inside_bind; [by apply keeps_upd|]; intros _ | by apply keeps_upd]).
Qed.

(** A connection that takes packets: the version is read; sealed packets come behind the
    exchange of keys. *)
Definition receiving (c : Connection (R := R)) : Prop :=
  has_in c /\ c_state c <> VersionExchange /\ (c_in_encrypted c = true -> c_state c ∈ late).

(** A packet that does not change the key of the packets behind it. *)
Definition calm (enc : bool) (p : list Z) : Prop := enc = true \/ head p <> Some SSH_MSG_NEWKEYS.

Lemma handle_keeps p host (k : K) c : receiving c -> calm (c_in_encrypted c) p ->
  let c' := (handle_packet p host (k, c)).1.2 in
  receiving c' /\ c_rx c' = c_rx c /\ c_recv_seq c' = c_recv_seq c /\ c_in_encrypted c' = c_in_encrypted c /\ key_in c' = key_in c.
Proof.
  intros (Hi & Hv & Hl) Hp. set (Q := if c_in_encrypted c then sealed_stage (c_rx c) (c_recv_seq c) (c_enc_in c) else plain_stage (c_rx c) (c_recv_seq c)).
  assert (HQ : late_closed Q) by (unfold Q; destruct (c_in_encrypted c); [apply sealed_late|apply plain_late]).
  assert (Hk : keeps Q (handle_packet p host)).
  { unfold handle_packet. destruct p as [|msg p']; [by apply keeps_inside|]. destruct (_ =? _); [apply keeps_late; [done|unfold late; set_solver]|].
    destruct (_ || _); [by apply keeps_inside|]. destruct (_ =? _).
    { destruct (_).2 as [[]|]; [apply keeps_send|by apply keeps_inside..]. }
    apply keeps_conn. intros c1 Hc1. destruct (c_state c1) eqn:Es; try (by apply keeps_inside).
    - unfold Q in Hc1 |- *. destruct (c_in_encrypted c); [|apply keeps_kexinit]. destruct Hc1 as (_ & _ & _ & _ & H). cbn in H. rewrite Es in H. unfold late in H. set_solver.
    - unfold Q in Hc1 |- *. destruct (c_in_encrypted c) eqn:Ee; [|apply keeps_kex; destruct Hp as [|Hp]; [done|]; cbn in Hp; congruence].
      destruct Hc1 as (_ & _ & _ & _ & H). cbn in H. rewrite Es in H. unfold late in H. set_solver.
    - by apply keeps_service.
    - by apply keeps_userauth.
    - by apply keeps_session. }
  intros c'. assert (Hc : Q (inside c')). { apply (Hk (k, c)). unfold Q, sealed_stage, plain_stage. destruct (c_in_encrypted c) eqn:Ee; cbn; auto 6. }
  unfold Q in Hc. unfold receiving, has_in, key_in. destruct (c_in_encrypted c) eqn:Ee.
  - destruct Hc as (H1 & H2 & H3 & H4 & H5). cbn in *. rewrite H3, H4. split_and!; auto. intros E. rewrite E in H5. unfold late in H5. set_solver.
  - destruct Hc as (H1 & H2 & H3 & H4). cbn in *. rewrite H3. by split_and!.
Qed.

(** ** The rounds of the receiver *)

(** The packets that a run of the packet loop handed to [handle_packet], one after the
    other, and how it ended: the connection is closed, nothing whole is left, or a
    handler failed. *)
Inductive handled (host : list Z) : CSt -> list (list Z) -> CSt -> KResult bool -> Prop :=
  | handled_closed s : c_state s.2 = Closed -> handled host s [] s (Ok true)
  | handled_none s s' : c_state s.2 <> Closed -> next_packet s = (s', Ok None) -> handled host s [] s' (Ok true)
  | handled_fail s s1 p s2 e : c_state s.2 <> Closed -> next_packet s = (s1, Ok (Some p)) ->
      handle_packet p host s1 = (s2, Err e) -> handled host s [p] s2 (Err e)
  | handled_more s s1 p s2 ps s' r : c_state s.2 <> Closed -> next_packet s = (s1, Ok (Some p)) ->
      handle_packet p host s1 = (s2, Ok tt) -> handled host s2 ps s' r -> handled host s (p :: ps) s' r.

(** The connection is to get the payloads [ps]: their records are what its buffer holds
    and what has not been read yet. *)
Record expects (c : Connection (R := R)) (ps : list (list Z)) (unread : list Z) : Prop := mkExpects {
  ex_receiving : receiving c;
  ex_fits : Forall fits ps;
  ex_calm : Forall (calm (c_in_encrypted c)) ps;
  ex_records : records (key_in c) (c_recv_seq c) ps (c_rx c ++ unread);
}.

(** With no more than that, and everything read, nothing is left to come. *)
Definition drained (c : Connection (R := R)) (ps : list (list Z)) (unread : list Z) : Prop :=
  len (c_rx c) < MAX_RX_BUFFER_SIZE /\ (unread = [] -> ps = [] /\ c_rx c = []).

Lemma records_nil a seq ps : Forall fits ps -> records a seq ps [] -> ps = [].
Proof.
  destruct 1 as [|p ps Hp _]; [done|]. intros (r & w' & Hr & Hw & _). apply (record_len _ _ _ _ Hr) in Hp.
  apply (f_equal length) in Hw. rewrite length_app in Hw. cbn in Hw. lia.
Qed.

Lemma packets_handled host fuel : forall (k : K) c ps unread, expects c ps unread -> (length (c_rx c) <= fuel)%nat ->
  exists s' r got left, packets host fuel (k, c) = (s', r) /\ handled host (k, c) got s' r /\ ps = got ++ left /\
    match r with
    | Err _ => True
    | Ok b => b = true /\ expects s'.2 left unread /\ c_recv_seq s'.2 = seq_after (c_recv_seq c) got /\
        (c_state s'.2 <> Closed -> drained s'.2 left unread)
    end.
Proof.
  induction fuel as [|fuel IH]; intros k c ps unread He Hl; cbn [packets]; unfold conn; unfold mbind at 1, ST_bind at 1; cbn [snd].
  all: case_bool_decide as Hc; [exists (k, c), (Ok true), [], ps; split; [done|]; split; [by apply handled_closed|]; by split_and!|].
  all: destruct He as [Hr Hf Hm Hrec]; destruct ps as [|p ps].
  1, 3: cbn in Hrec; apply app_eq_nil in Hrec as [Hrx ->]; pose proof (empty_settled k c (proj1 Hr) Hrx) as Hs;
    exists (k, c), (Ok true), [], []; unfold mbind, ST_bind; rewrite Hs; split; [done|]; split; [by apply handled_none|]; split; [done|];
    split; [done|]; split; [constructor; [done..|cbn; by rewrite Hrx]|]; split; [done|]; intros _; split; [cbn; by rewrite Hrx|done].
  - destruct (front_of k c p ps unread) as [(n & more & _ & _ & Hlen & _)|(Hs & Hlen & Hu)]; [apply Hr|by inversion Hf|done|lia|].
    exists (k, c), (Ok true), [], (p :: ps). unfold mbind, ST_bind. rewrite Hs. split; [done|]. split; [by apply handled_none|]. split; [done|].
    split; [done|]. split; [done|]. split; [done|]. intros _. by split.
  - apply Forall_cons in Hf as [Hp Hf]. apply Forall_cons in Hm as [Hcalm Hm].
    destruct (front_of k c p ps unread (proj1 Hr) Hp Hrec) as [(n & more & E & Hrx & Hlen & Hrec')|(Hs & Hlen & Hu)].
    + destruct (took_rx n c) as (Hki & _ & Hsq). assert (Hrt : receiving (took n c)) by exact Hr.
      unfold mbind at 1, ST_bind at 1. rewrite E. pose proof (handle_keeps p host k (took n c) Hrt Hcalm) as Hh. cbn zeta in Hh.
      unfold mbind, ST_bind. destruct (handle_packet p host (k, took n c)) as [[k2 c2] [[]|e]] eqn:Eh.
      * cbn [fst snd] in Hh. destruct Hh as (H1 & H2 & H3 & H4 & H5). assert (Henc : c_in_encrypted (took n c) = c_in_encrypted c) by done.
        destruct (IH k2 c2 ps unread) as (s' & r & got & left & E' & Hgot & -> & Hres).
        { constructor; [done|done|by rewrite H4|]. by rewrite H5, H3, H2, Hsq, Hrx. } { rewrite H2, Hrx. lia. }
        exists s', r, (p :: got), left. rewrite E'. split; [done|]. split; [by eapply handled_more|]. split; [done|].
        destruct r as [b|]; [|done]. cbn [seq_after]. rewrite <- Hsq, <- H3. exact Hres.
      * exists (k2, c2), (Err e), [p], ps. split; [done|]. split; [by eapply handled_fail|done].
    + exists (k, c), (Ok true), [], (p :: ps). unfold mbind, ST_bind. rewrite Hs. split; [done|]. split; [by apply handled_none|]. split; [done|].
      split; [done|]. split; [by constructor; [done|constructor|constructor|]|]. split; [done|]. intros _. by split.
Qed.

(** The reads of a round: what the transport gives goes to the end of the buffer, up to
    its size. *)
Lemma read_all_reads fuel : forall t (k : K) c, len (c_rx c) <= MAX_RX_BUFFER_SIZE -> MAX_RX_BUFFER_SIZE - len (c_rx c) <= Z.of_nat fuel ->
  exists t' k' c' r, read_all (T := T) fuel (t, (k, c)) = ((t', (k', c')), r) /\
    match r with
    | Err _ => True
    | Ok b => b = true /\ exists a, incoming t = a ++ incoming t' /\ inside c' = inside (set_rx (c_rx c ++ a) c) /\ len (c_rx c') <= MAX_RX_BUFFER_SIZE
    end.
Proof.
  assert (Hdone : forall t t' (k : K) (c : Connection (R := R)), len (c_rx c) <= MAX_RX_BUFFER_SIZE -> incoming t' = incoming t ->
    exists t1 k' c' r, ((t', (k, c)), Ok true) = ((t1, (k', c')), r) /\
    match r with
    | Err _ => True
    | Ok b => b = true /\ exists a, incoming t = a ++ incoming t1 /\ inside c' = inside (set_rx (c_rx c ++ a) c) /\ len (c_rx c') <= MAX_RX_BUFFER_SIZE
    end).
  { intros t t' k c Hc Ht. exists t', k, c, (Ok true). split; [done|]. split; [done|]. exists []. rewrite app_nil_r. by destruct c. }
  unfold MAX_RX_BUFFER_SIZE in *.
  induction fuel as [|fuel IH]; intros t k c Hc Hfuel; cbn [read_all]; unfold get; unfold mbind at 1, ST_bind at 1; cbn [fst snd]; unfold MAX_RX_BUFFER_SIZE.
  all: destruct (Z.leb_spec 8192 (len (c_rx c))); [by apply Hdone|]; [..]; try lia.
  set (max := Z.min 1024 (8192 - len (c_rx c))). pose proof (t_read_stream max t ltac:(lia)) as Hread.
  destruct (t_read max t) as [t1 [l|e]]; cycle 1.
  { unfold modify, mbind, ST_bind. cbn [fst snd]. destruct e; first [by apply Hdone | eexists _, _, _, (Err _); split; [reflexivity|done]]. }
  destruct Hread as [Hin Hle]. unfold modify; unfold mbind at 1, ST_bind at 1; cbn [fst snd]. destruct l as [|b l]; [by apply Hdone|].
  set (l' := b :: l) in *. unfold on_snd, clock, upd, modify, mbind, ST_bind. cbn [fst snd]. destruct (uptime_ms k) as [k1 now]. cbn [fst snd].
  set (c1 := set_last_activity_ms now (set_rx (c_rx c ++ l') c)).
  assert (Hc1 : len (c_rx c1) = len (c_rx c) + len l') by (change (c_rx c1) with (c_rx c ++ l'); rewrite length_app; lia). assert (Hl' : 1 <= len l') by (unfold l'; cbn; lia).
  destruct (_ <? max).
  - exists t1, k1, c1, (Ok true). split; [done|]. split; [done|]. exists l'. split; [done|]. split; [done|]. lia.
  - destruct (IH t1 k1 c1) as (t' & k' & c' & r & E & Hr); [lia|lia|]. exists t', k', c', r. split; [exact E|]. destruct r as [b'|]; [|done].
    destruct Hr as (-> & a & Ha & Hi & Hlen). split; [done|]. exists (l' ++ a). rewrite Hin, Ha, app_assoc. split; [done|]. split; [|done].
    rewrite Hi. change (c_rx c1) with (c_rx c ++ l'). by rewrite <- app_assoc.
Qed.

Lemma expects_inside c c' ps unread : inside c' = inside c -> expects c ps unread -> expects c' ps unread.
Proof.
  intros E [(H1 & H2 & H3) Hf Hm Hr]. unfold inside in E. injection E as E1 E2 E3 E4 E5.
  constructor; unfold receiving, has_in, key_in in *; rewrite ?E1, ?E2, ?E3, ?E4, ?E5; auto.
Qed.

Lemma expects_read c ps a unread : expects c ps (a ++ unread) -> expects (set_rx (c_rx c ++ a) c) ps unread.
Proof. intros [H1 H2 H3 H4]. constructor; try done. cbn. by rewrite <- app_assoc. Qed.

(** What the rest of a round - the output of the shell, the bytes that go out - and the
    rest of the kernel do to the incoming side: nothing, or the connection closes. *)
Definition left_alone (c c' : Connection (R := R)) : Prop := inside c' = inside c \/ inside c' = inside (set_state Closed c).

(** Rounds of [pump] on its incoming side, and the packets they handed to the handlers. *)
Inductive rounds (host : list Z) : T * CSt -> list (list Z) -> T * CSt -> Prop :=
  | rounds_end s : rounds host s [] s
  | rounds_round t k c t1 k1 c1 d1 got k2 c2 d2 t3 k3 c3 more s' : c_state c <> Closed ->
      read_all (Z.to_nat MAX_RX_BUFFER_SIZE) (t, (k, c)) = ((t1, (k1, c1)), Ok d1) ->
      packets host (length (c_rx c1)) (k1, c1) = ((k2, c2), Ok d2) -> handled host (k1, c1) got (k2, c2) (Ok d2) ->
      left_alone c2 c3 -> incoming t3 = incoming t1 ->
      rounds host (t3, (k3, c3)) more s' -> rounds host (t, (k, c)) (got ++ more) s'.

Lemma output_keeps Q rid maxp fuel : forall window, keeps Q (output_loop rid maxp window fuel).
Proof.
  induction fuel as [|fuel IH]; intros window; cbn [output_loop]; (destruct (window =? 0); [by apply keeps_inside|]); (destruct (_ =? 0); [by apply keeps_inside|]);
    (apply keeps_inside_bind; [apply keeps_inside, inside_chan|]); intros data; (destruct (bool_decide _); [by apply keeps_inside|]);
    (apply keeps_inside_bind; [apply keeps_send|]); intros _; [by apply keeps_inside|apply IH].
Qed.

Lemma clock_keeps Q : keeps Q clock.
Proof. apply keeps_inside. intros [k c]. unfold clock. cbn. by destruct (uptime_ms k). Qed.

(** The rest of a round is such a rest. *)
Lemma session_round_left_alone (s : CSt) : left_alone s.2 (session_round s).1.2.
Proof.
  set (Q := fun i => i = inside s.2 \/ i = inside (set_state Closed s.2)).
  assert (H : keeps Q session_round).
  { unfold session_round. apply keeps_inside_bind.
    { unfold pump_shell_output. apply keeps_get. intros s1 _. destruct (c_channel s1.2) as [ch|]; [|by apply keeps_inside]. destruct (negb _); [by apply keeps_inside|].
      apply keeps_inside_bind; [apply output_keeps|]. intros [window done]. apply keeps_inside_bind; [apply keeps_inside, inside_chan|]. intros _. by apply keeps_inside. }
    intros done. apply keeps_get. intros s1 _. apply keeps_inside_bind.
    { destruct (_ && _); [|by apply keeps_inside]. apply keeps_inside_bind.
      - unfold close_channel_from_shell. apply keeps_conn. intros c _. destruct (c_channel c); [|by apply keeps_inside]. apply keeps_inside_bind; [apply keeps_send|].
        intros _. apply keeps_send.
      - intros _. apply keeps_inside_bind; [apply clock_keeps|]. intros now. by apply keeps_upd. }
    intros _. apply keeps_conn. intros c _. apply keeps_inside_bind; [|intros _; by apply keeps_inside]. destruct (c_closing c); [|by apply keeps_inside].
    apply keeps_inside_bind; [apply clock_keeps|]. intros now. destruct (_ <=? _); [|by apply keeps_inside]. apply keeps_upd.
    intros c1 H1. right. unfold Q, inside in *. cbn in *. by destruct H1 as [[= -> -> -> ->]|[= -> -> -> ->]]. }
  apply (H s). by left.
Qed.

Lemma flush_left_alone t (k : K) c : left_alone c (flush (T := T) (t, (k, c))).1.2.2.
Proof. left. unfold flush. case_bool_decide; [done|]. destruct (write_out _ _ _ _) as [t' [[sent d]|e]]; cbn; [|done]. by destruct (0 <? sent). Qed.

Lemma handled_det host s got s' r : handled host s got s' r -> forall got2 s2 r2, handled host s got2 s2 r2 -> got2 = got /\ s2 = s' /\ r2 = r.
Proof.
  induction 1 as [s Hc|s s' Hc Hn|s s1 p s' e Hc Hn Hh|s s1 p s1' ps s' r Hc Hn Hh _ IH]; intros got2 s2 r2 H; inversion H; subst; try congruence; try done.
  - split_and!; congruence.
  - split_and!; congruence.
  - destruct (IH ps0 s2 r2) as (-> & -> & ->); [congruence|]. split_and!; congruence.
Qed.

Lemma rounds_spec host s got s' : rounds host s got s' -> forall ps, expects s.2.2 ps (incoming s.1) -> drained s.2.2 ps (incoming s.1) ->
  exists left, ps = got ++ left /\
    (c_state s'.2.2 <> Closed -> expects s'.2.2 left (incoming s'.1) /\ drained s'.2.2 left (incoming s'.1) /\
       c_recv_seq s'.2.2 = seq_after (c_recv_seq s.2.2) got).
Proof.
  induction 1 as [s|t k c t1 k1 c1 d1 got k2 c2 d2 t3 k3 c3 more s' Hop Hread Hpk Hgot Hrest Hin Hmore IH]; intros ps He Hd; [by exists ps|]. cbn [fst snd] in *.
  destruct (read_all_reads (Z.to_nat MAX_RX_BUFFER_SIZE) t k c) as (t' & k' & c' & r & E & Hr); [destruct Hd; lia|unfold MAX_RX_BUFFER_SIZE in *; lia|].
  rewrite E in Hread. injection Hread as -> -> -> ->. destruct Hr as (_ & a & Ha & Hi & Hlen). rewrite Ha in He.
  pose proof (expects_inside _ _ _ _ Hi (expects_read _ _ _ _ He)) as He1.
  destruct (packets_handled host (length (c_rx c1)) k1 c1 ps (incoming t1) He1 ltac:(lia)) as (s2 & r & got' & left & Ep & Hgot' & -> & Hr).
  rewrite Hpk in Ep. injection Ep as <- <-. destruct Hr as (-> & He2 & Hsq & Hd2). cbn [snd] in *.
  destruct (handled_det _ _ _ _ _ Hgot' _ _ _ Hgot) as (<- & _ & _).
  assert (Hsq1 : c_recv_seq c1 = c_recv_seq c) by (by injection Hi). rewrite Hsq1 in Hsq.
  assert (Hstop : c_state c3 = Closed -> more = [] /\ s' = (t3, (k3, c3))) by (intros E3; by inversion Hmore; subst).
  assert (Happ : forall q l, seq_after (seq_after q got) l = seq_after q (got ++ l)).
  { clear. intros q l. revert q. induction got as [|g got IH]; intros q; cbn; [done|apply IH]. }
  destruct (decide (c_state c3 = Closed)) as [E3|E3].
  - destruct (Hstop E3) as [-> ->]. exists left. rewrite app_nil_r. split; [done|]. by intros [].
  - destruct Hrest as [Hs3|Hs3]; [|by injection Hs3]. assert (Hst : c_state c2 = c_state c3) by (by injection Hs3).
    assert (Hrx : c_rx c3 = c_rx c2 /\ c_recv_seq c3 = c_recv_seq c2) by (by injection Hs3).
    rewrite Hin in IH. destruct (IH left (expects_inside _ _ _ _ Hs3 He2)) as (left' & -> & Hend).
    { unfold drained. rewrite (proj1 Hrx). apply Hd2. congruence. }
    exists left'. split; [by rewrite app_assoc|]. intros Ho. destruct (Hend Ho) as (H1 & H2 & H3). split; [done|]. split; [done|].
    by rewrite H3, (proj2 Hrx), Hsq, Happ.
Qed.

(** C28. The packets of SSH arrive, over the receive buffer of 8192 bytes that a connection
    has.  One connection sends payloads whose records fit that buffer (at most 8160
    bytes each), plain or sealed under its key; another, past the exchange of versions,
    with the same key and sequence number and an empty buffer, has exactly these bytes
    coming.  (None of them is the NEWKEYS that would change the key, and a sealed stream
    comes behind the key exchange.)  Then, whatever the reads of its rounds give at a
    time: the rounds hand to the handlers a prefix of the payloads, each whole and in
    order; the buffer always has room for the next record; when everything has been
    read, all payloads have been handed over and the sequence numbers agree again, over
    their wrap-around; and the next round, too, is stopped by nothing but the transport
    or a handler - unless the connection is closed. *)
Theorem ssh_stream_roundtrip (k1 : K) c1 ps :
  has_keys c1 -> Forall fits ps ->
  exists c1' wire, send_all ps (k1, c1) = ((k1, c1'), Ok tt) /\ c_tx c1' = c_tx c1 ++ wire /\
    forall host t (k2 : K) c2 got t' k' c', receiving c2 -> key_out c1 = key_in c2 -> c_send_seq c1 = c_recv_seq c2 -> c_rx c2 = [] ->
      incoming t = wire -> Forall (calm (c_in_encrypted c2)) ps ->
      rounds host (t, (k2, c2)) got (t', (k', c')) ->
      exists left, ps = got ++ left /\
        (c_state c' <> Closed ->
           len (c_rx c') < MAX_RX_BUFFER_SIZE /\
           (incoming t' = [] -> left = [] /\ c_rx c' = [] /\ c_recv_seq c' = c_send_seq c1') /\
           forall t3 k3 c3 d, read_all (Z.to_nat MAX_RX_BUFFER_SIZE) (t', (k', c')) = ((t3, (k3, c3)), Ok d) ->
             d = true /\ exists s4 r more rest, packets host (length (c_rx c3)) (k3, c3) = (s4, r) /\
               handled host (k3, c3) more s4 r /\ left = more ++ rest).
Proof.
  intros Hk1 Hps. destruct (send_all_records ps k1 c1 Hk1) as (c1' & w & E & Ht & Hw & Hs). exists c1', w. split; [done|]. split; [done|].
  intros host t k2 c2 got t' k' c' Hrec Hkey Hseq Hrx Hin Hcalm Hr.
  assert (He : expects c2 ps (incoming t)) by (constructor; [done..|]; by rewrite Hrx, Hin, <- Hkey, <- Hseq).
  destruct (rounds_spec _ _ _ _ Hr ps He) as (left & -> & Hend).
  { cbn [fst snd]. split; [by rewrite Hrx|]. intros Hnil. destruct He as [_ Hf _ Hre]. rewrite Hrx, Hnil in Hre. split; [by eapply records_nil|done]. }
  exists left. split; [done|]. intros Ho. destruct (Hend Ho) as (H1 & [H2 H3] & H4). cbn [fst snd] in *. split; [done|]. split.
  - intros Hnil. destruct (H3 Hnil) as [-> ?]. by rewrite H4, Hs, app_nil_r, Hseq.
  - intros t3 k3 c3 d Hread.
    destruct (read_all_reads (Z.to_nat MAX_RX_BUFFER_SIZE) t' k' c') as (t4 & k4 & c4 & r & E4 & Hr4); [lia|unfold MAX_RX_BUFFER_SIZE in *; lia|].
    rewrite E4 in Hread. injection Hread as -> -> -> ->. destruct Hr4 as (-> & a & Ha & Hi & _). split; [done|]. rewrite Ha in H1.
    destruct (packets_handled host (length (c_rx c3)) k3 c3 left (incoming t3) (expects_inside _ _ _ _ Hi (expects_read _ _ _ _ H1)) ltac:(lia))
      as (s4 & r4 & more & rest & E5 & Hh & -> & _). by exists s4, r4, more, rest.
Qed.
End stream.

(** ** Witness *)

Section toy.
#[local] Existing Instance toy_crypto.
#[local] Existing Instance toy_laws.
#[local] Existing Instance toy_host.

(** A transport that gives the pieces it has one at a time. *)
Definition pieces : Transport (list (list Z)) := {|
  t_read n t := match t with
                | [] => (t, Err WouldBlock)
                | p :: ps => if len p <=? n then (ps, Ok p) else (drop (Z.to_nat n) p :: ps, Ok (take (Z.to_nat n) p))
                end;
  t_write l t := (t, Ok (len l));
|}.
#[local] Existing Instance pieces.
Lemma pieces_laws : StreamLaws (list (list Z)).
Proof.
  refine {| incoming := @concat Z |}. intros n [|p ps] Hn; cbn; [done|]. destruct (Z.leb_spec (len p) n) as [Hp|Hp].
  - by split.
  - split; [|rewrite length_take; lia]. by rewrite <- (take_drop (Z.to_nat n) p) at 1; rewrite <- app_assoc.
Defined.
#[local] Existing Instance pieces_laws.

Definition toy_key : Aead := aead_new (toy_hash 64 [2]).
(** Two ends under one key, at the last sequence number before the wrap-around, and two
    packets to ignore, cut in the middle of the first. *)
Definition toy_sender : Connection (R := Z) := set_send_seq U32_MAX (set_out_encrypted true (set_enc_out (Some toy_key) (connection_new 0 1))).
Definition toy_receiver : Connection (R := Z) :=
  set_state Session (set_recv_seq U32_MAX (set_in_encrypted true (set_enc_in (Some toy_key) (connection_new 0 1)))).
Definition toy_packets : list (list Z) := [[2; 7]; [2]].
Definition toy_wire : list Z := c_tx (send_all toy_packets (no_sessions, toy_sender)).1.2.
Definition toy_pieces : list (list Z) := [take 7 toy_wire; drop 7 toy_wire].

(** The state behind the reads, and behind the packets, of one round. *)
Definition toy_read (s : list (list Z) * (Sessions * Connection (R := Z))) := (read_all (Z.to_nat MAX_RX_BUFFER_SIZE) s).1.
Definition toy_round (s : list (list Z) * (Sessions * Connection (R := Z))) :=
  ((toy_read s).1, (packets host_seed (length (c_rx (toy_read s).2.2)) (toy_read s).2).1).
Definition toy_round1 := toy_round (toy_pieces, (no_sessions, toy_receiver)).
Definition toy_round2 := toy_round toy_round1.

Lemma toy_step s got :
  c_state s.2.2 <> Closed -> (read_all (Z.to_nat MAX_RX_BUFFER_SIZE) s).2 = Ok true ->
  (packets host_seed (length (c_rx (toy_read s).2.2)) (toy_read s).2).2 = Ok true ->
  handled host_seed (toy_read s).2 got (toy_round s).2 (Ok true) ->
  forall more s', rounds host_seed (toy_round s) more s' -> rounds host_seed s (got ++ more) s'.
Proof.
  destruct s as [t [k c]]. unfold toy_round, toy_read. intros Hc. destruct (read_all _ _) as [[t1 [k1 c1]] r] eqn:E1. cbn [fst snd]. intros -> .
  destruct (packets _ _ _) as [[k2 c2] r2] eqn:E2. cbn [fst snd]. intros -> Hh more s' Hm.
  by eapply rounds_round; [exact Hc|exact E1|exact E2|exact Hh|left|..|exact Hm].
Qed.

Lemma toy_rounds : rounds host_seed (toy_pieces, (no_sessions, toy_receiver)) toy_packets toy_round2.
Proof.
  change toy_packets with ([] ++ toy_packets ++ []).
  apply toy_step; [done|vm_compute; reflexivity|vm_compute; reflexivity| |].
  { apply handled_none; [vm_compute; discriminate|vm_compute; reflexivity]. }
  apply toy_step; [vm_compute; discriminate|vm_compute; reflexivity|vm_compute; reflexivity| |apply rounds_end].
  eapply handled_more; [vm_compute; discriminate|vm_compute; reflexivity|vm_compute; reflexivity|].
  eapply handled_more; [vm_compute; discriminate|vm_compute; reflexivity|vm_compute; reflexivity|].
  apply handled_none; [vm_compute; discriminate|vm_compute; reflexivity].
Qed.

Lemma ssh_stream_roundtrip_witness :
  rounds host_seed (toy_pieces, (no_sessions, toy_receiver)) toy_packets toy_round2 /\ c_rx toy_round2.2.2 = [] /\ c_recv_seq toy_round2.2.2 = 1.
Proof.
  split; [exact toy_rounds|]. split; [|vm_compute; reflexivity].
  destruct (ssh_stream_roundtrip (K := Sessions) (T := list (list Z)) no_sessions toy_sender toy_packets) as (c1' & wire & E & Ht & H).
  - split; done.
  - repeat (apply Forall_cons; split; [unfold fits, MAX_RX_BUFFER_SIZE; cbn; lia|]). apply Forall_nil_2.
  - assert (Hw : wire = toy_wire) by (unfold toy_wire; rewrite E; symmetry; exact Ht).
    destruct (H host_seed toy_pieces no_sessions toy_receiver toy_packets toy_round2.1 toy_round2.2.1 toy_round2.2.2)
      as (left & _ & Hend).
    + split; [intros _; by eexists|]. split; [discriminate|]. intros _. vm_compute. apply list_elem_of_further, list_elem_of_further, list_elem_of_here.
    + reflexivity.
    + reflexivity.
    + reflexivity.
    + rewrite Hw. unfold toy_pieces. cbn [incoming pieces_laws concat]. rewrite app_nil_r. apply take_drop.
    + repeat (apply Forall_cons; split; [left; reflexivity|]). apply Forall_nil_2.
    + assert (Heta : forall x : list (list Z) * (Sessions * Connection (R := Z)), (x.1, (x.2.1, x.2.2)) = x) by (by intros [? [? ?]]).
      rewrite Heta. exact toy_rounds.
    + destruct Hend as (_ & Hfin & _); [vm_compute; discriminate|]. apply Hfin. vm_compute. reflexivity.
Defined.
End toy.

(** ** The output of a shell, and the end of every loop

    The round of a session takes the ring of the shell out in pieces that fit the
    window and the packets of the other end, and sends them in order; and every loop of
    a round ends by itself. *)

#[local] Arguments put_string : simpl never.

(** The sessions of a kernel are what was stored last. *)
Class SshHostLaws (K : Type) `{!SshHost K} := { sessions_set s k : sessions (set_sessions s k) = s }.

Section output.
Context {R : Type} `{HC : !Crypto R, HL : !CryptoLaws R} {K : Type} `{HK : !SshHost K, HKL : !SshHostLaws K}.

(** The message of a piece of output. *)
Definition data_msg (remote_id : Z) (d : list Z) : list Z := put_string d (put_u32 remote_id (put_u8 SSH_MSG_CHANNEL_DATA [])).

(** The ring of the shell of a connection holds [out]. *)
Definition ring_of (k : K) (c : Connection (R := R)) (ch : Channel) (s : SessionShell) (out : list Z) : Prop :=
  c_channel c = Some ch /\ ch_shell ch = Some s /\ exists sc, ss_heap (sessions k) !! sh_chan s = Some sc /\ from_session sc = out.

Lemma take_ring k c ch s out cap : ring_of k c ch s out -> 0 <= cap ->
  exists k', on_chan (fun ch k => let '(k, d) := take_output_of cap ch k in (k, ch, d)) [] (k, c) = ((k', c), Ok (take (Z.to_nat cap) out)) /\
    ring_of k' c ch s (drop (Z.to_nat cap) out).
Proof.
  intros (Hch & Hs & sc & Hsc & Hout) Hcap. unfold on_chan. rewrite Hch. unfold take_output_of. rewrite Hs. unfold with_chan. rewrite Hsc. unfold take_output, ring_pop.
  rewrite Hout. eexists. split.
  - f_equal; [|f_equal].
    + f_equal. destruct c; cbn in *. by rewrite <- Hch.
    + destruct (Z.min_spec cap (len out)) as [[? ->]|[? ->]]; [done|]. rewrite Nat2Z.id. rewrite !take_ge by lia. done.
  - split; [done|]. split; [done|]. rewrite sessions_set. cbn. rewrite lookup_insert_eq. eexists. split; [done|]. cbn.
    destruct (Z.min_spec cap (len out)) as [[? ->]|[? ->]]; [done|]. rewrite Nat2Z.id. rewrite !drop_ge by lia. done.
Qed.

(** A packet is sent whatever the kernel is. *)
Lemma send_any p (c : Connection (R := R)) : has_keys c ->
  exists c', (forall k : K, send_packet (K := K) p (k, c) = ((k, c'), Ok tt)) /\ c_channel c' = c_channel c /\ has_keys c'.
Proof.
  intros [Ho Hi]. unfold send_packet, conn, upd, modify, mbind, ST_bind. cbn. destruct (next_u32 (c_rng c)) as [r n]. cbn.
  destruct (c_out_encrypted c) eqn:Eo; cbn.
  - destruct (Ho eq_refl) as [a Ea]. rewrite Ea. cbn. rewrite seal_sealed by exact (proj2 (frame_long p MIN_BLOCK (Z.land n 255))). cbn.
    eexists. split; [done|]. split; [done|]. split; cbn; [by rewrite Ea|exact Hi].
  - eexists. split; [done|]. split; [done|]. split; cbn; [by rewrite Eo|exact Hi].
Qed.

(** A piece fits what the other end accepts. *)
Definition piece_ok (maxp : Z) (d : list Z) : Prop := d <> [] /\ len d <= 4096 /\ len d <= maxp - 64.

(** What the loop did: it took the front of the ring in [chunks] and sent them. *)
Record taken (rid maxp window : Z) (ch : Channel) (s : SessionShell) (c : Connection) (out : list Z) (k' : K) (c' : Connection) (chunks : list (list Z)) (rest : list Z) : Prop := mkTaken {
  tk_out : out = concat chunks ++ rest;
  tk_window : len (concat chunks) <= window;
  tk_pieces : Forall (piece_ok maxp) chunks;
  tk_stop : rest = [] \/ window - len (concat chunks) = 0 \/ maxp <= 64;
  tk_ring : ring_of k' c' ch s rest;
  tk_sent : forall k0 : K, send_all (data_msg rid <$> chunks) (k0, c) = ((k0, c'), Ok tt);
}.

Lemma taken_none rid maxp window ch s c out k' : 0 <= window -> out = [] \/ window = 0 \/ maxp <= 64 -> ring_of k' c ch s out ->
  taken rid maxp window ch s c out k' c [] out.
Proof. intros H0 H Hr. constructor; try done. cbn. rewrite Z.sub_0_r. exact H. Qed.

Lemma output_loop_takes rid maxp ch s : forall fuel k c out window,
  ring_of k c ch s out -> has_keys c -> 0 <= window <= U32_MAX -> (length out <= fuel)%nat ->
  exists k' c' chunks rest, output_loop rid maxp window fuel (k, c) = ((k', c'), Ok (window - len (concat chunks), true)) /\
    taken rid maxp window ch s c out k' c' chunks rest.
Proof.
  assert (Hsat : saturating_sub maxp 64 = Z.max 0 (maxp - 64)) by (unfold saturating_sub; destruct (Z.leb_spec 64 maxp); lia).
  intros fuel. induction fuel as [|fuel IH]; intros k c out window Hr Hk Hw Hl; cbn [output_loop]; rewrite Hsat.
  all: destruct (Z.eqb_spec window 0) as [Hw0|Hw0]; [exists k, c, [], out; rewrite Z.sub_0_r; split; [done|]; apply taken_none; auto; lia|].
  all: set (cap := Z.min (Z.min window (Z.max 0 (maxp - 64))) 4096); destruct (Z.eqb_spec cap 0) as [Hc|Hc];
    [exists k, c, [], out; rewrite Z.sub_0_r; split; [done|]; apply taken_none; auto; [lia|right; right; lia]|].
  all: destruct (take_ring k c ch s out cap Hr ltac:(lia)) as (k1 & E & Hr1); unfold mbind at 1, ST_bind at 1; rewrite E; case_bool_decide as Hd.
  1, 3: assert (out = []) as -> by (destruct out as [|b out]; [done|]; destruct (Z.to_nat cap) eqn:Ec; [lia|done]);
    exists k1, c, [], []; rewrite Z.sub_0_r; split; [done|]; apply taken_none; auto; [lia|by rewrite drop_nil in Hr1].
  { destruct out; [by rewrite take_nil in Hd|cbn in Hl; lia]. }
  set (d := take (Z.to_nat cap) out) in *. destruct (send_any (data_msg rid d) c Hk) as (c1 & Es & Hch & Hk1).
  unfold mbind at 1, ST_bind at 1. fold (data_msg rid d). rewrite Es.
  assert (Hdl : 0 < len d <= cap) by (split; [destruct d; [done|cbn; lia]|unfold d; rewrite length_take; lia]).
  assert (Ew : saturating_sub window (u32 (len d)) = window - len d) by (unfold U32_MAX in Hw; rewrite u32_small by lia; unfold saturating_sub; destruct (Z.leb_spec (len d) window); lia). rewrite Ew.
  assert (Hr2 : ring_of k1 c1 ch s (drop (Z.to_nat cap) out)) by (destruct Hr1 as (H1 & H2); split; [by rewrite Hch|done]).
  destruct (IH k1 c1 (drop (Z.to_nat cap) out) (window - len d) Hr2 Hk1 ltac:(lia)) as (k' & c' & chunks & rest & E' & []).
  { rewrite length_drop. unfold d in Hdl. rewrite length_take in Hdl. lia. }
  exists k', c', (d :: chunks), rest. cbn [concat]. rewrite length_app. split; [rewrite E'; do 3 f_equal; lia|].
  constructor; cbn [concat fmap list_fmap send_all]; rewrite ?length_app; auto; [rewrite <- app_assoc, <- tk_out0; symmetry; apply take_drop|lia| | |].
  - apply Forall_cons. split; [split; [done|lia]|done].
  - destruct tk_stop0 as [|[|]]; [by left|right; left; lia|by right; right].
  - intros k0. unfold mbind, ST_bind. by rewrite Es, tk_sent0.
Qed.

(** C29. The output of a shell is sent in order and within the limits of the other end:
    a round takes the front of the ring in pieces that are not empty and fit a packet of
    the other end, sends exactly these in this order, counts them down from the window
    that was granted, which never goes below zero, and leaves the rest in the ring; it
    stops only when the ring is empty, the window is used up or a packet cannot hold
    data. *)
Theorem output_in_window k (c : Connection (R := R)) ch s out :
  ring_of k c ch s out -> has_keys c -> ch_shell_started ch = true -> 0 <= ch_send_window ch <= U32_MAX ->
  exists k' c1 chunks rest, let left := ch_send_window ch - len (concat chunks) in
    pump_shell_output (k, c) = ((k', set_channel (Some (set_send_window left ch)) c1), Ok true) /\
    out = concat chunks ++ rest /\ 0 <= left /\
    Forall (piece_ok (ch_peer_max_packet ch)) chunks /\
    send_all (K := K) (data_msg (ch_remote_id ch) <$> chunks) (k, c) = ((k, c1), Ok tt) /\
    ring_of k' c1 ch s rest /\
    (rest = [] \/ left = 0 \/ ch_peer_max_packet ch <= 64).
Proof.
  intros Hr Hk Hst Hw. pose proof Hr as (Hch & Hs & sc & Hsc & Hout).
  destruct (output_loop_takes (ch_remote_id ch) (ch_peer_max_packet ch) ch s (Z.to_nat (pending_output ch k)) k c out (ch_send_window ch) Hr Hk Hw)
    as (k' & c1 & chunks & rest & E & []).
  { unfold pending_output. rewrite Hs, Hsc, Hout. lia. }
  exists k', c1, chunks, rest. split_and!; try done; [|lia].
  unfold pump_shell_output, get, mbind, ST_bind. cbn [snd fst]. rewrite Hch, Hst. cbn [negb]. rewrite E. unfold on_chan. destruct tk_ring0 as (Hch' & _). by rewrite Hch'.
Qed.
End output.

(** ** Witness *)

Section toy.
#[local] Existing Instance toy_crypto.
#[local] Existing Instance toy_laws.
#[local] Existing Instance toy_host.

Lemma toy_host_laws : SshHostLaws Sessions.
Proof. by split. Qed.
#[local] Existing Instance toy_host_laws.

(** A shell with five bytes to say to a client that grants four. *)
Definition toy_chan : Channel := set_send_window 4 (set_shell (mkShell 0 3) (channel_new 0 9 0 1000)).
Definition toy_sessions : Sessions :=
  mkSessions {[0 := mkChannel 1 (SshChannel 0) None [] [104; 101; 108; 108; 111] true]} {[1 := 0]} 1 2 (mkUart [] []).
Definition toy_conn : Connection (R := Z) := set_channel (Some toy_chan) (connection_new 0 1).

Lemma output_in_window_witness :
  exists k' c', pump_shell_output (toy_sessions, toy_conn) = ((k', c'), Ok true) /\ is_Some (c_channel c').
Proof.
  destruct (output_in_window toy_sessions toy_conn toy_chan (mkShell 0 3) [104; 101; 108; 108; 111]) as (k' & c1 & chunks & rest & E & _).
  - split; [done|]. split; [done|]. eexists. split; [apply lookup_singleton_eq|]. done.
  - by split.
  - done.
  - unfold U32_MAX. cbn. lia.
  - eexists _, _. split; [exact E|]. by eexists.
Defined.
End toy.
