(* ===== verification/SyscallFs.v ===== *)
(** * SyscallFs: the file, directory, time and program calls of user programs
    (kernel/src/syscall/handler.rs)

    Each call checks the pointers it is given, asks the VFS for the calling process,
    and writes its answer to the memory of the caller.  A call of a file that blocks
    answers [Waits]: the task sleeps, and the call is made again when it wakes up. *)

From S2P Require Import Prelude Sched Slots Process Syscall Path Inode Vfs Elf.

Open Scope Z_scope.

Inductive Reply : Type := Replied (z : Z) | Waits.

(** [pipe::create_pipe] with its capacity: the two ends. *)
Class Pipes (W I : Type) := { i_create_pipe : Z -> W -> W * (I * I) }.

(** [SYSTEM_TIME_OFFSET_US], and what the clock and the allocator answer. *)
Record Clock := { uptime_us : Z; offset_us : Z; heap_free : Z }.

(** [as u64] of an [i32], and the saturating operations on [u64]. *)
Definition i32_as_u64 (z : Z) : Z := if z <? 0 then 2 ^ 64 + z else z.
Definition saturating_add64 (a b : Z) : Z := Z.min (a + b) U64_MAX.
Definition saturating_mul64 (a b : Z) : Z := Z.min (a * b) U64_MAX.

(* @src kernel/src/syscall/handler.rs 197-206 kind_to_u8 *)
Definition kind_to_u8 (kind : InodeKind) : Z := match kind with File => 1 | Dir => 2 | Device => 3 | Symlink => 4 | Fifo => 5 end.

(** One record of [sys_readdir], and the records that fit in [cap] bytes. *)
(* @src kernel/src/syscall/handler.rs 569-580 sys_readdir (record) *)
Definition dirent_bytes (e : DirEntry) : list Z :=
  le_bytes 8 (de_ino e) ++ [kind_to_u8 (de_kind e)] ++ le_bytes 2 (Z.min (str_len (de_name e)) (2 ^ 16 - 1)) ++ as_bytes (de_name e).
(* @src kernel/src/syscall/handler.rs 554-581 sys_readdir (loop) *)
Fixpoint pack_entries (cap pos : Z) (es : list DirEntry) : list Z :=
  match es with
  | [] => []
  | e :: es =>
    match (rec ← checked_add32 (str_len (de_name e)) 11; checked_add32 pos rec) with
    | Some end_ => if end_ <=? cap then dirent_bytes e ++ pack_entries cap end_ es else []
    | None => []
    end
  end.

Section SyscallFs.
Context {F : Type} `{HF : Frame F} {W I : Type} `{HN : !Inode W I, HE : !EqDecision I, HP : !Droppable W I, HPp : !Pipes W I}.
Abbreviation K := (Kernel F (Vfs W I)).
Implicit Types k : K.

(** The caller, and a call of the VFS. *)
Definition caller_of k : Caller := mkCaller (get_current_pid k) (cwd_of_caller k).
Definition via_vfs {A} (m : Caller -> ST (Vfs W I) A) k : K * KResult A :=
  let '(v, r) := m (caller_of k) (k_fds k) in (k_set_fds v k, r).

(** The bytes of the caller's buffer [\[ptr, ptr + n)] that a call filled. *)
Definition put_user (ptr n : Z) (data : list Z) k : K := k_set_mem (write_mem ptr (take (Z.to_nat n) data) (k_mem k)) k.

(** [user_slice_mut] only checks: what is written comes later. *)
(* @src kernel/src/syscall/handler.rs 168-174 user_slice_mut *)
Definition user_slice_mut (ptr n : Z) k : KResult unit := if n =? 0 then Ok tt else validate_user ptr n k.

Definition fail_with (e : KError) k : K * Reply := (k, Replied (as_errno e)).

(** ** Descriptors *)

(* @src kernel/src/syscall/handler.rs 208-215 sys_read *)
Definition sys_read (args : list Z) k : K * Reply :=
  let fd := as_i32 (arg args 0) in
  let ptr := arg args 1 in
  let n := arg args 2 in
  match user_slice_mut ptr n k with
  | Err e => fail_with e k
  | Ok _ =>
    match read (caller_of k) fd n (k_fds k) with
    | (v, Park) => (k_set_fds v k, Waits)
    | (v, Ret (Ok data)) => (put_user ptr n data (k_set_fds v k), Replied (ret_usize (Ok (len data))))
    | (v, Ret (Err e)) => fail_with e (k_set_fds v k)
    end
  end.

(* @src kernel/src/syscall/handler.rs 217-224 sys_write *)
Definition sys_write (args : list Z) k : K * Reply :=
  let fd := as_i32 (arg args 0) in
  match user_slice (arg args 1) (arg args 2) k with
  | Err e => fail_with e k
  | Ok buf =>
    match write (caller_of k) fd buf (k_fds k) with
    | (v, Park) => (k_set_fds v k, Waits)
    | (v, Ret r) => (k_set_fds v k, Replied (ret_usize r))
    end
  end.

(* @src kernel/src/syscall/handler.rs 226-236 sys_open *)
Definition sys_open (args : list Z) k : K * Reply :=
  match user_str (arg args 0) (arg args 1) k with
  | Err e => fail_with e k
  | Ok path =>
    let '(k, r) := via_vfs (fun c => open c path (arg args 2)) k in
    (k, Replied (match r with Ok fd => fd | Err e => as_errno e end))
  end.

(* @src kernel/src/syscall/handler.rs 238-241 sys_close *)
Definition sys_close (args : list Z) k : K * Reply :=
  let '(k, r) := via_vfs (fun c => close c (as_i32 (arg args 0))) k in (k, Replied (ret_unit r)).

(* @src kernel/src/syscall/handler.rs 460-475 sys_seek *)
Definition sys_seek (args : list Z) k : K * Reply :=
  let fd := as_i32 (arg args 0) in
  let off := arg args 1 in
  let whence := arg args 2 in
  match (if whence =? 0 then Some (Start off)
         else if whence =? 1 then Some (Current (as_i32 off))
         else if whence =? 2 then Some (End (as_i32 off)) else None) with
  | None => fail_with InvalidArgument k
  | Some pos =>
    let '(k, r) := via_vfs (fun c => seek c fd pos) k in
    (k, Replied (match r with Ok n => Z.min n (2 ^ 31 - 1) | Err e => as_errno e end))
  end.

(* @src kernel/src/syscall/handler.rs 51-58 sys_dup2 *)
Definition sys_dup2 (args : list Z) k : K * Reply :=
  let '(k, r) := via_vfs (fun c => dup2 c (as_i32 (arg args 0)) (as_i32 (arg args 1))) k in
  (k, Replied (match r with Ok fd => fd | Err e => as_errno e end)).

(** [vfs::create_pipe]. *)
(* @src kernel/src/vfs/mod.rs 355-372 create_pipe *)
Definition create_pipe (c : Caller) : ST (Vfs W I) (Z * Z) := fun v =>
  let '(w, (r, w_)) := i_create_pipe 4096 (v_world v) in insert_pipe c r w_ (set_world w v).

(* @src kernel/src/syscall/handler.rs 60-73 sys_pipe *)
Definition sys_pipe (args : list Z) k : K * Reply :=
  let ptr := arg args 0 in
  match user_slice_mut ptr 8 k with
  | Err e => fail_with e k
  | Ok _ =>
    match via_vfs create_pipe k with
    | (k, Ok (r, w)) => (put_user ptr 8 (le_bytes 4 (u32 r) ++ le_bytes 4 (u32 w)) k, Replied 0)
    | (k, Err e) => fail_with e k
    end
  end.

(** ** Names *)

(* @src kernel/src/syscall/handler.rs 477-488 sys_mkdir *)
Definition sys_mkdir (args : list Z) k : K * Reply :=
  match user_str (arg args 0) (arg args 1) k with
  | Err e => fail_with e k
  | Ok path =>
    let '(k, r) := via_vfs (fun c => if arg args 2 =? 0x1000 then mkfifo c path else mkdir c path) k in (k, Replied (ret_unit r))
  end.

(* @src kernel/src/syscall/handler.rs 490-496 sys_unlink *)
Definition sys_unlink (args : list Z) k : K * Reply :=
  match user_str (arg args 0) (arg args 1) k with
  | Err e => fail_with e k
  | Ok path => let '(k, r) := via_vfs (fun c => unlink c path) k in (k, Replied (ret_unit r))
  end.

(** [fuel] bounds the entries of one directory. *)
(* @src kernel/src/syscall/handler.rs 539-584 sys_readdir *)
Definition sys_readdir (fuel : nat) (args : list Z) k : K * Reply :=
  match user_str (arg args 0) (arg args 1) k with
  | Err e => fail_with e k
  | Ok path =>
    let ptr := arg args 2 in
    let n := arg args 3 in
    match user_slice_mut ptr n k with
    | Err e => fail_with e k
    | Ok _ =>
      match via_vfs (fun c => readdir c path fuel) k with
      | (k, Err e) => fail_with e k
      | (k, Ok es) => let out := pack_entries n 0 es in (put_user ptr n out k, Replied (len out))
      end
    end
  end.

(* @src kernel/src/scheduler/process.rs 277-291 cwd_set *)
Definition cwd_set (path : string) k : K * KResult unit :=
  match normalize (caller_of k) path with
  | Err e => (k, Err e)
  | Ok norm =>
    match get_current_pid k with
    | None => (k, Err NotFound)
    | Some pid =>
      match table (k_pt k) !! pid with
      | None => (k, Err NotFound)
      | Some _ => (k_set_pt (on_process pid (set_cwd norm) (k_pt k)) k, Ok tt)
      end
    end
  end.

(* @src kernel/src/syscall/handler.rs 498-518 sys_chdir *)
Definition sys_chdir (args : list Z) k : K * Reply :=
  match user_str (arg args 0) (arg args 1) k with
  | Err e => fail_with e k
  | Ok path =>
    match via_vfs (fun c => resolve c path) k with
    | (k, Err e) => fail_with e k
    | (k, Ok inode) =>
      if negb (bool_decide (i_kind inode (v_world (k_fds k)) = Dir)) then fail_with NotADirectory k
      else let '(k, r) := cwd_set path k in (k, Replied (ret_unit r))
    end
  end.

(* @src kernel/src/syscall/handler.rs 520-537 sys_getcwd *)
Definition sys_getcwd (args : list Z) k : K * Reply :=
  let ptr := arg args 0 in
  let n := arg args 1 in
  match user_slice_mut ptr n k with
  | Err e => fail_with e k
  | Ok _ =>
    let bytes := as_bytes (cwd_get k) in
    if n <? len bytes then fail_with InvalidArgument k
    else (put_user ptr n bytes k, Replied (len bytes))
  end.

(** ** Time and memory *)

(* @src kernel/src/syscall/handler.rs 586-590 sys_uptime_ms *)
Definition sys_uptime_ms (c : Clock) : Z := Z.min (uptime_us c / 1000) (2 ^ 31 - 1).
(* @src kernel/src/syscall/handler.rs 592-595 sys_sbrk *)
Definition sys_sbrk (c : Clock) : Z := Z.min (heap_free c) (2 ^ 31 - 1).

(* @src kernel/src/syscall/handler.rs 896-914 sys_gettimeofday *)
Definition sys_gettimeofday (c : Clock) (args : list Z) k : K * Reply :=
  let tv_ptr := arg args 0 in
  match validate_user tv_ptr 8 k with
  | Err e => fail_with e k
  | Ok _ =>
    let total_us := saturating_add64 (uptime_us c) (offset_us c) in
    let sec := u32 (total_us / 1000000) in
    let usec := u32 (total_us mod 1000000) in
    (put_user tv_ptr 8 (le_bytes 4 sec ++ le_bytes 4 usec) k, Replied 0)
  end.

(* @src kernel/src/syscall/handler.rs 916-932 sys_settimeofday *)
Definition sys_settimeofday (c : Clock) (args : list Z) k : Clock * Reply :=
  let tv_ptr := arg args 0 in
  match validate_user tv_ptr 8 k with
  | Err e => (c, Replied (as_errno e))
  | Ok _ =>
    let tv_sec := as_i32 (read_word (k_mem k) tv_ptr) in
    let tv_usec := as_i32 (read_word (k_mem k) (tv_ptr + 4)) in
    let new_total_us := saturating_add64 (saturating_mul64 (i32_as_u64 tv_sec) 1000000) (i32_as_u64 tv_usec) in
    ({| uptime_us := uptime_us c; offset_us := saturating_sub new_total_us (uptime_us c); heap_free := heap_free c |}, Replied 0)
  end.

(** ** Programs *)

(** The image is loaded into a slot of its own, its arguments written there, and the
    process started; every failure gives the slot back. *)
(* @src kernel/src/syscall/handler.rs 352-401 sys_spawn *)
Definition sys_spawn (link_data tramp : Z) (heap : Z -> option Z) (args : list Z) k : K * Reply :=
  match user_str (arg args 0) (arg args 1) k with
  | Err e => fail_with e k
  | Ok path =>
    match user_argv (arg args 2) k with
    | Err e => fail_with e k
    | Ok argv =>
      let argv := if bool_decide (argv = []) then [path] else argv in
      let '(l, r) := load_elf link_data (k_data_base k) (caller_of k) path (mkLoader (k_fds k) (k_slots k) (k_mem k)) in
      let k := k_set_fds (l_vfs l) (k_set_slots (l_slots l) (k_set_mem (l_mem l) k)) in
      match r with
      | Park => (k, Waits)
      | Ret (Err e) => fail_with e k
      | Ret (Ok loaded) =>
        match write_argv loaded argv (k_mem k) with
        | (mem, Err e) => fail_with e (k_set_slots (slot_free (Elf.slot loaded) (k_slots k)) (k_set_mem mem k))
        | (mem, Ok argv_ptr) =>
          let '(k, z) := spawn_image tramp heap path (Elf.entry loaded) argv_ptr (Elf.slot loaded) (k_set_mem mem k) in (k, Replied z)
        end
      end
    end
  end.

(** ** The table of calls *)

(** What the calls of a program share: the boot constants, and the bound of a
    directory. *)
Record Host := { link_data : Z; tramp : Z; heap : Z -> option Z; dir_fuel : nat }.

(** The calls modelled: [None] for [ioctl], the sockets and the update of the firmware,
    and [sigreturn], which also answers a frame. *)
(* @src kernel/src/syscall/handler.rs 7-49 dispatch *)
Definition dispatch (h : Host) (num : Z) (args : list Z) (c : Clock) k : option (Clock * K * Reply) :=
  let plain (r : K * Z) := Some (c, r.1, Replied r.2) in
  let call (r : K * Reply) := Some (c, r.1, r.2) in
  match from_usize num with
  | None => Some (c, k, Replied (as_errno NotSupported))
  | Some sc =>
    match sc with
    | SRead => call (sys_read args k)
    | SWrite => call (sys_write args k)
    | SOpen => call (sys_open args k)
    | SClose => call (sys_close args k)
    | SExit => plain (sys_exit args k)
    | SSpawn => call (sys_spawn (link_data h) (tramp h) (heap h) args k)
    | SWait => plain (sys_wait args k)
    | SSeek => call (sys_seek args k)
    | SMkdir => call (sys_mkdir args k)
    | SUnlink => call (sys_unlink args k)
    | SReaddir => call (sys_readdir (dir_fuel h) args k)
    | SUptimeMs => Some (c, k, Replied (sys_uptime_ms c))
    | SSbrk => Some (c, k, Replied (sys_sbrk c))
    | SYield => plain (sys_yield args k)
    | SSignal => plain (sys_sigaction args k)
    | SKill => plain (sys_kill args k)
    | SGetTimeOfDay => call (sys_gettimeofday c args k)
    | SSetTimeOfDay => let '(c, r) := sys_settimeofday c args k in Some (c, k, r)
    | SPipe => call (sys_pipe args k)
    | SDup2 => call (sys_dup2 args k)
    | SChdir => call (sys_chdir args k)
    | SGetcwd => call (sys_getcwd args k)
    | SIoctl | SSigreturn | SSocket | SBind | SListen | SAccept | SConnect | SOtaState => None
    end
  end.
End SyscallFs.
