(* ===== verification/Sh.v ===== *)
(** * Sh: the user shell (userland/apps/src/bin/sh.rs)

    Lines, tokens, redirections, pipelines, and the editor of the prompt.  A buffer is
    the list of its bytes, an index that may be out of range is checked, and a panic is
    [None].  The system calls are the class [ShOs]: a result is the [isize] the program
    gets; a call that fills a buffer also answers what is in it.  A path or a text is
    its bytes. *)

From Stdlib Require Import Ascii.
From S2P Require Import Prelude Text.

Open Scope Z_scope.

(** ** The system calls *)

Class ShOs (W : Type) := {
  os_open : list Z -> Z -> W -> W * Z;
  os_close : Z -> W -> W * Z;
  os_dup2 : Z -> Z -> W -> W * Z;
  os_pipe : W -> W * (Z * (Z * Z));
  os_spawn : list Z -> list (list Z) -> W -> W * Z;
  os_waitpid : Z -> W -> W * Z;
  os_read : Z -> Z -> W -> W * (Z * list Z);
  os_write : Z -> list Z -> W -> W * Z;
  os_readdir : list Z -> Z -> W -> W * (Z * list Z);
  os_chdir : list Z -> W -> W * Z;
  os_getcwd : Z -> W -> W * (Z * list Z);
  os_uptime : W -> W * Z;
  os_yield : W -> W;
}.

(** A program over a world: it ends, panics, or has spent the fuel of a loop whose
    length the world decides. *)
Inductive Res (A : Type) : Type := Done (a : A) | Panic | Spent.
Arguments Done {A} _.
Arguments Panic {A}.
Arguments Spent {A}.
Definition Prog (W A : Type) : Type := W -> Res (W * A).
#[export] Instance Prog_ret {W} : MRet (Prog W) := fun A a w => Done (w, a).
#[export] Instance Prog_bind {W} : MBind (Prog W) :=
  fun A B f m w => match m w with Done (w, a) => f a w | Panic => Panic | Spent => Spent end.
(** A call, an expression that may panic, a call with its result dropped, and no fuel. *)
Definition call {W A} (f : W -> W * A) : Prog W A := fun w => Done (f w).
Definition pure {W A} (o : option A) : Prog W A := fun w => match o with Some a => Done (w, a) | None => Panic end.
Definition run {W A} (f : W -> W * A) : Prog W unit := fun w => Done ((f w).1, tt).
Definition spent {W A} : Prog W A := fun _ => Spent.

(** ** Buffers *)

(** [buf\[i\]], [buf\[i\] = v], [&buf\[a..b\]] and [buf.copy_within(a..b, d)]. *)
Definition bget (buf : list Z) (i : Z) : option Z := if (0 <=? i) && (i <? len buf) then buf !! Z.to_nat i else None.
Definition bset (buf : list Z) (i v : Z) : option (list Z) := if (0 <=? i) && (i <? len buf) then Some (<[Z.to_nat i := v]> buf) else None.
Definition bslice (buf : list Z) (a b : Z) : option (list Z) := if (0 <=? a) && (a <=? b) && (b <=? len buf) then Some (slice a (b - a) buf) else None.
Definition copy_within (buf : list Z) (a b d : Z) : option (list Z) :=
  if (0 <=? a) && (a <=? b) && (b <=? len buf) && (d + (b - a) <=? len buf)
  then Some (take (Z.to_nat d) buf ++ slice a (b - a) buf ++ drop (Z.to_nat (d + (b - a))) buf) else None.

(* @src userland/apps/src/bin/sh.rs 15-17 LINE *)
Definition LINE : Z := 64.
(* @src userland/apps/src/bin/sh.rs 12-13 MAX_ARGV *)
Definition MAX_ARGV : Z := 16.
(* @src userland/apps/src/bin/sh.rs 25-26 MAX_STAGES *)
Definition MAX_STAGES : Z := 8.
(* @src userland/apps/src/bin/sh.rs 19-19 O_RDONLY *)
Definition O_RDONLY : Z := 1.
(* @src userland/apps/src/bin/sh.rs 20-20 O_WRONLY *)
Definition O_WRONLY : Z := 2.
(* @src userland/apps/src/bin/sh.rs 21-21 O_CREATE *)
Definition O_CREATE : Z := 0x100.
(* @src userland/apps/src/bin/sh.rs 22-22 O_APPEND *)
Definition O_APPEND : Z := 0x200.
(* @src userland/apps/src/bin/sh.rs 23-23 O_TRUNC *)
Definition O_TRUNC : Z := 0x400.

(** ** Splitting a line *)

Definition blank (c : Z) : bool := (c =? 32) || (c =? 9).
Definition is_quote (c : Z) : bool := (c =? 39) || (c =? 34).

Fixpoint trim_front (buf : list Z) (start end_ : Z) (fuel : nat) : option Z :=
  if start <? end_ then
    c ← bget buf start;
    if blank c then match fuel with O => None | S fuel => trim_front buf (start + 1) end_ fuel end else Some start
  else Some start.
Fixpoint trim_back (buf : list Z) (start end_ : Z) (fuel : nat) : option Z :=
  if start <? end_ then
    c ← bget buf (end_ - 1);
    if blank c then match fuel with O => None | S fuel => trim_back buf start (end_ - 1) fuel end else Some end_
  else Some end_.
(* @src userland/apps/src/bin/sh.rs 729-737 trim *)
Definition trim (buf : list Z) (start end_ : Z) : option (Z * Z) :=
  s ← trim_front buf start end_ (length buf); e ← trim_back buf s end_ (length buf); Some (s, e).

(** The quote that is open behind a byte; none is 0. *)
Definition next_quote (quote c : Z) : Z := if negb (quote =? 0) then (if c =? quote then 0 else quote) else if is_quote c then c else 0.

Fixpoint find_loop (buf : list Z) (i to quote delim : Z) (fuel : nat) : option (option Z) :=
  if i <? to then
    c ← bget buf i;
    if (quote =? 0) && negb (is_quote c) && (c =? delim) then Some (Some i)
    else match fuel with O => None | S fuel => find_loop buf (i + 1) to (next_quote quote c) delim fuel end
  else Some None.
(* @src userland/apps/src/bin/sh.rs 823-840 find_top *)
Definition find_top (buf : list Z) (from to delim : Z) : option (option Z) := find_loop buf from to 0 delim (length buf).

(** ** Tokens, in place *)

Fixpoint skip_spaces (buf : list Z) (read end_ : Z) (fuel : nat) : option Z :=
  if read <? end_ then
    c ← bget buf read;
    if c =? 32 then match fuel with O => None | S fuel => skip_spaces buf (read + 1) end_ fuel end else Some read
  else Some read.

(** The bytes of one token move down over its quotes. *)
(* @src userland/apps/src/bin/sh.rs 780-800 tokenize (token) *)
Fixpoint token_loop (buf : list Z) (read write quote end_ : Z) (fuel : nat) : option (list Z * Z * Z) :=
  if read <? end_ then
    c ← bget buf read;
    let next buf write quote := match fuel with O => None | S fuel => token_loop buf (read + 1) write quote end_ fuel end in
    if negb (quote =? 0) then
      if c =? quote then next buf write 0 else buf ← bset buf write c; next buf (write + 1) quote
    else if is_quote c then next buf write c
    else if c =? 32 then Some (buf, read, write)
    else buf ← bset buf write c; next buf (write + 1) 0
  else Some (buf, read, write).

(** Answers the buffer and the offsets of the tokens, or that they are too many. *)
(* @src userland/apps/src/bin/sh.rs 766-810 tokenize (loop) *)
Fixpoint tokens_loop (buf : list Z) (read write end_ : Z) (offs : list Z) (fuel : nat) : option (list Z * option (list Z)) :=
  if read <? end_ then
    read ← skip_spaces buf read end_ (length buf);
    if end_ <=? read then Some (buf, Some offs)
    else if MAX_ARGV <=? len offs + 1 then Some (buf, None)
    else
      let offs := offs ++ [write] in
      '(buf, read, write) ← token_loop buf read write 0 end_ (length buf);
      buf ← bset buf write 0;
      let read := if read <? end_ then read + 1 else read in
      match fuel with O => None | S fuel => tokens_loop buf read (write + 1) end_ offs fuel end
  else Some (buf, Some offs).
(* @src userland/apps/src/bin/sh.rs 751-820 tokenize *)
Definition tokenize (buf : list Z) (start end_ : Z) : option (list Z * option (list Z)) := tokens_loop buf start start end_ [] (length buf).

(** The string at an offset: [libc::arg]. *)
Fixpoint cstr (l : list Z) : list Z := match l with [] => [] | b :: l => if b =? 0 then [] else b :: cstr l end.
Definition cstr_at (buf : list Z) (off : Z) : list Z := cstr (drop (Z.to_nat off) buf).

(** [core::str::from_utf8(..)], with the empty text for an error. *)
Definition text_or_empty (l : list Z) : list Z := if utf8_valid l then l else [].
(** The word comes from [libc::arg], which does not check that its bytes are text; a word
    whose bytes are none is refused here.  ([trim] is taken on the bytes.) *)
(* @src userland/apps/src/bin/sh.rs 1140-1164 resolve_path *)
Definition resolve_path (cmd : list Z) (cap : Z) : list Z :=
  let cmd := Text.trim cmd in
  if bool_decide (cmd = []) then []
  else if bool_decide (47 ∈ cmd) then
    if len cmd <? cap then text_or_empty cmd else []
  else
    let p := as_bytes "/bin/" ++ cmd in
    if len p <? cap then text_or_empty p else [].

(** The command of a stage, and the target of its redirection with whether it appends. *)
(* @src userland/apps/src/bin/sh.rs 875-891 parse_redirect *)
Definition parse_redirect (buf : list Z) (a b : Z) : option ((Z * Z) * option (Z * Z * bool)) :=
  cut ← find_top buf a b 62;
  match cut with
  | None => Some ((a, b), None)
  | Some i =>
    append ← (if i + 1 <? b then c ← bget buf (i + 1); Some (c =? 62) else Some false);
    let after := if (append : bool) then i + 2 else i + 1 in
    '(ts, te0) ← trim buf after b;
    te ← find_top buf ts te0 32;
    Some ((a, i), Some (ts, default te0 te, append))
  end.

(** ** Numbers *)

Fixpoint digits_rev (n : Z) (fuel : nat) : list Z :=
  match fuel with O => [] | S fuel => if 0 <? n then (48 + n mod 10) :: digits_rev (n / 10) fuel else [] end.
(** A [usize] has ten digits at most. *)
(* @src userland/apps/src/bin/sh.rs 286-302 itoa *)
Definition itoa (n : Z) : list Z := if n =? 0 then [48] else reverse (digits_rev n 10).
(** The pieces an [isize] is shown with. *)
Definition num (z : Z) : list (list Z) := if z <? 0 then [[45]; itoa (- z)] else [itoa z].

(** The text of [help]. *)
Definition DQ : string := String (ascii_of_byte 34) EmptyString.
Definition help_lines : list string :=
  ["EspressoOS userland shell -- built-in commands & features:";
   "  help                 show this help message";
   "  clear                clear the screen";
   "  cd [PATH]            change working directory";
   "  pwd                  print working directory";
   "  sudo <cmd>           run command with root privilege shim";
   "  exit                 exit the shell";
   "  <cmd> ; <cmd>        run commands sequentially";
   "  <cmd> &              run command in background";
   "  <cmd> | <cmd>        pipe output across commands (up to 8 stages)";
   "  <cmd> > <file>       redirect stdout to file (truncate)";
   "  <cmd> >> <file>      redirect stdout to file (append)";
   ("  " ++ DQ ++ "text" ++ DQ ++ " / 'text'      quote-aware argument parsing")%string;
   "";
   "Line Editing Shortcuts:";
   "  Up / Down (Arrow)    navigate command history";
   "  Left / Right (Arrow) move cursor left / right";
   "  Home / End           jump to start / end of line";
   "  Tab                  auto-complete command or path";
   "  Ctrl+A / Ctrl+E      jump to start / end of line";
   "  Ctrl+U / Ctrl+K      delete line before / after cursor";
   "  Ctrl+W               delete word before cursor";
   "  Ctrl+L               clear screen and redraw line";
   "  Ctrl+C               abort current draft line";
   "  Ctrl+D               exit shell (on empty line)";
   "";
   "Programs in /bin (run by name, e.g. 'ls' or '/bin/ls'):"].

Section sh.
Context {W : Type} `{HO : !ShOs W}.

(** [print!] and [println!]: each piece of the format is a write to descriptor 1. *)
Fixpoint print (pieces : list (list Z)) : Prog W unit :=
  match pieces with [] => mret tt | p :: pieces => _ ← call (os_write 1 p); print pieces end.
Definition println (pieces : list (list Z)) : Prog W unit := print (pieces ++ [[10]]).
Definition say (s : string) : Prog W unit := println [as_bytes s].
Definition when (b : bool) (m : Prog W unit) : Prog W unit := if b then m else mret tt.
Definition close_if (fd : Z) : Prog W unit := when (0 <=? fd) (run (os_close fd)).

(* @src userland/apps/src/bin/sh.rs 895-911 redir_open *)
Definition redir_open (buf : list Z) (ts te : Z) (append : bool) : Prog W Z :=
  quoted ← pure (if ts + 1 <? te then
                   c ← bget buf ts; if is_quote c then d ← bget buf (te - 1); Some (d =? c) else Some false
                 else Some false);
  path ← pure (if quoted : bool then bslice buf (ts + 1) (te - 1) else bslice buf ts te);
  if negb (utf8_valid path) then mret (-1)
  else call (os_open path (if append then Z.lor (Z.lor O_WRONLY O_CREATE) O_APPEND else Z.lor (Z.lor O_WRONLY O_CREATE) O_TRUNC)).

(** The buffer with its tokens, the program's path and the arguments. *)
(* @src userland/apps/src/bin/sh.rs 845-871 prepare *)
Definition prepare (buf : list Z) (range : Z * Z) : Prog W (list Z * option (list Z * list (list Z))) :=
  '(buf, toks) ← pure (tokenize buf range.1 range.2);
  match toks with
  | None => _ ← println [as_bytes "Too many arguments (max "; itoa (MAX_ARGV - 1); as_bytes ")"]; mret (buf, None)
  | Some [] => _ ← say "Empty command"; mret (buf, None)
  | Some (o :: offs) =>
    let path := resolve_path (cstr_at buf o) (LINE + 8) in
    if bool_decide (path = []) then _ ← say "Invalid command path"; mret (buf, None)
    else mret (buf, Some (path, cstr_at buf <$> (o :: offs)))
  end.

(** ** One command *)

(* @src userland/apps/src/bin/sh.rs 913-973 run_single *)
Definition run_single (buf : list Z) (range : Z * Z) : Prog W (list Z) :=
  '(cs, ce) ← pure (trim buf range.1 range.2);
  is_bg ← pure (if cs <? ce then c ← bget buf (ce - 1); Some (c =? 38) else Some false);
  '(cs, ce) ← (if is_bg : bool then pure (trim buf cs (ce - 1)) else mret (cs, ce));
  '(cmd, redir) ← pure (parse_redirect buf cs ce);
  rfd ← (match redir with Some (ts, te, append) => redir_open buf ts te append | None => mret (-1) end : Prog W Z);
  if bool_decide (is_Some redir) && (rfd <? 0) then _ ← say "sh: cannot open redirection target"; mret buf
  else
    '(buf, prepared) ← prepare buf cmd;
    match prepared with
    | None => _ ← close_if rfd; mret buf
    | Some (path, argv) =>
      saved ← (if 0 <=? rfd then
                 saved ← call (os_dup2 1 12); _ ← call (os_dup2 rfd 1); _ ← call (os_close rfd); mret saved
               else mret (-1) : Prog W Z);
      pid ← call (os_spawn path argv);
      _ ← (if pid <? 0 then println [as_bytes "Error executing: "; path]
           else if is_bg : bool then println (as_bytes "[1] " :: num pid)
           else run (os_waitpid 0) : Prog W unit);
      _ ← when (0 <=? saved) (_ ← call (os_dup2 saved 1); run (os_close saved));
      mret buf
    end.

(** ** A pipeline *)

(** The stages from the one with the index [i] on: the read end of the last pipe, how
    many programs run, and the buffer. *)
(* @src userland/apps/src/bin/sh.rs 990-1061 run_pipeline_n (loop) *)
Fixpoint stages_loop (stages : list (Z * Z)) (buf : list Z) (saved_out saved_in prev_read : Z) (nspawned : nat) : Prog W (list Z * Z * nat) :=
  match stages with
  | [] => mret (buf, prev_read, nspawned)
  | (a, b) :: stages =>
    '(cmd, redir) ← pure (parse_redirect buf a b);
    rfd ← (match redir with
           | Some (ts, te, append) => fd ← redir_open buf ts te append; mret (if 0 <=? fd then fd else -1)
           | None => mret (-1)
           end : Prog W Z);
    '(buf, prepared) ← prepare buf cmd;
    match prepared with
    | None => _ ← close_if rfd; mret (buf, prev_read, nspawned)
    | Some (path, argv) =>
      pp ← (if bool_decide (stages = []) then mret (Some (-1, -1))
            else '(r, (rd, wr)) ← call os_pipe; mret (if r <? 0 then None else Some (rd, wr))) : Prog W (option (Z * Z));
      match pp with
      | None => _ ← say "sh: pipe error"; _ ← close_if rfd; mret (buf, prev_read, nspawned)
      | Some (next_read, this_write) =>
        _ ← (if 0 <=? prev_read then call (os_dup2 prev_read 0) else call (os_dup2 saved_in 0));
        _ ← (if 0 <=? rfd then call (os_dup2 rfd 1) else if 0 <=? this_write then call (os_dup2 this_write 1) else call (os_dup2 saved_out 1));
        pid ← call (os_spawn path argv);
        let nspawned := if 0 <=? pid then S nspawned else nspawned in
        _ ← close_if rfd;
        _ ← close_if prev_read;
        _ ← close_if this_write;
        stages_loop stages buf saved_out saved_in next_read nspawned
      end
    end
  end.

Fixpoint wait_all (n : nat) : Prog W unit := match n with O => mret tt | S n => _ ← call (os_waitpid 0); wait_all n end.

(* @src userland/apps/src/bin/sh.rs 982-1075 run_pipeline_n *)
Definition run_pipeline_n (buf : list Z) (stages : list (Z * Z)) : Prog W (list Z) :=
  saved_out ← call (os_dup2 1 10);
  saved_in ← call (os_dup2 0 11);
  '(buf, prev_read, nspawned) ← stages_loop stages buf saved_out saved_in (-1) 0;
  _ ← close_if prev_read;
  _ ← call (os_dup2 saved_out 1);
  _ ← call (os_dup2 saved_in 0);
  _ ← call (os_close saved_out);
  _ ← call (os_close saved_in);
  _ ← wait_all nspawned;
  mret buf.
(** ** The commands of the shell *)

(** The records that [readdir] packs: the inode's number in eight bytes, the kind, the
    length of the name in two, and the name.  [fill] is the buffer after the call. *)
Definition fill (cap : Z) (data : list Z) : list Z := take (Z.to_nat cap) (data ++ replicate (Z.to_nat cap) 0).
(* @src userland/apps/src/bin/sh.rs 481-496 handle_tab_completion (entries) *)
Fixpoint entries_loop (buf : list Z) (p limit : Z) (fuel : nat) : option (list (Z * list Z)) :=
  if p + 11 <=? limit then
    kind ← bget buf (p + 8);
    lo ← bget buf (p + 9);
    hi ← bget buf (p + 10);
    let p := p + 11 in
    let name_len := lo + hi * 256 in
    if limit <? p + name_len then Some []
    else
      name ← bslice buf p (p + name_len);
      rest ← match fuel with O => None | S fuel => entries_loop buf (p + name_len) limit fuel end;
      Some ((kind, name) :: rest)
  else Some [].
Definition DIRBUF : Z := 1024.
Definition entries (data : list Z) (n : Z) : option (list (Z * list Z)) := entries_loop (fill DIRBUF data) 0 n (Z.to_nat DIRBUF).

(* @src userland/apps/src/bin/sh.rs 1077-1127 print_help *)
Definition print_help : Prog W unit :=
  _ ← print ((fun l => as_bytes l ++ [10]) <$> help_lines);
  '(n, data) ← call (os_readdir (as_bytes "/bin") DIRBUF);
  if n <? 0 then say "  (could not read /bin)"
  else
    es ← pure (entries data n);
    foldr (fun e m => _ ← (if utf8_valid e.2 then println [as_bytes "  "; e.2] else mret tt : Prog W unit); m) (mret tt : Prog W unit) es.

Definition PATH_MAX : Z := 128.
(** [getcwd_str] of userland/libc. *)
(* @src userland/libc/src/lib.rs 173-179 getcwd_str *)
Definition getcwd_str : Prog W (Z + list Z) :=
  '(n, data) ← call (os_getcwd PATH_MAX);
  if n <? 0 then mret (inl n)
  else s ← pure (bslice (fill PATH_MAX data) 0 n); mret (if utf8_valid s then inr s else inl (-1)).

(* @src userland/apps/src/bin/sh.rs 259-265 builtin_pwd *)
Definition builtin_pwd : Prog W unit :=
  r ← getcwd_str;
  match r with inr s => println [s] | inl n => println (as_bytes "pwd: error " :: num n) end.

(* @src userland/apps/src/bin/sh.rs 267-279 builtin_cd *)
Definition builtin_cd (line : list Z) : Prog W unit :=
  let rest := drop 2 line in
  let target := if utf8_valid rest then Text.trim rest else [] in
  let target := if bool_decide (target = []) then as_bytes "/" else target in
  r ← call (os_chdir target);
  when (r <? 0)
    (println [as_bytes "cd: "; target; as_bytes ": ";
              as_bytes (if r =? -2 then "no such file or directory" else if r =? -20 then "not a directory" else "cannot change directory")]).

Definition starts_with (p l : list Z) : bool := bool_decide (is_Some (strip_prefix p l)).

(** The stages between the top-level bars, [None] when they are too many. *)
(* @src userland/apps/src/bin/sh.rs 196-212 exec_line (stages) *)
Fixpoint split_stages (buf : list Z) (a e : Z) (acc : list (Z * Z)) (fuel : nat) : option (option (list (Z * Z))) :=
  cut ← find_top buf a e 124;
  if MAX_STAGES <=? len acc then Some None
  else
    let acc := acc ++ [(a, default e cut)] in
    match cut with
    | Some k => match fuel with O => None | S fuel => split_stages buf (k + 1) e acc fuel end
    | None => Some (Some acc)
    end.

(* @src userland/apps/src/bin/sh.rs 161-218 exec_line (body) *)
Fixpoint exec_line_loop (fuel : nat) (buf : list Z) (s e : Z) : Prog W (list Z * bool) :=
  if s =? e then mret (buf, true)
  else
    line ← pure (bslice buf s e);
    if bool_decide (line = as_bytes "exit") then mret (buf, false)
    else if bool_decide (line = as_bytes "help") then _ ← print_help; mret (buf, true)
    else if bool_decide (line = as_bytes "clear") then _ ← print [27 :: as_bytes "[2J" ++ 27 :: as_bytes "[H"]; mret (buf, true)
    else if starts_with (as_bytes "sudo ") line then
      '(ss, se) ← pure (trim buf (s + 5) e);
      if ss <? se then match fuel with O => spent | S fuel => exec_line_loop fuel buf ss se end else mret (buf, true)
    else if bool_decide (line = as_bytes "pwd") || starts_with (as_bytes "pwd ") line then _ ← builtin_pwd; mret (buf, true)
    else if bool_decide (line = as_bytes "cd") || starts_with (as_bytes "cd ") line then _ ← builtin_cd line; mret (buf, true)
    else
      stages ← pure (split_stages buf s e [] (Z.to_nat MAX_STAGES));
      match stages with
      | None => _ ← println [as_bytes "sh: too many pipeline stages (max "; itoa MAX_STAGES; as_bytes ")"]; mret (buf, true)
      | Some [st] => buf ← run_single buf st; mret (buf, true)
      | Some stages => buf ← run_pipeline_n buf stages; mret (buf, true)
      end.
(* @src userland/apps/src/bin/sh.rs 160-219 exec_line *)
Definition exec_line (buf : list Z) (s e : Z) : Prog W (list Z * bool) := exec_line_loop (length buf) buf s e.

(** The commands between the top-level semicolons, in order; a false ends them. *)
(* @src userland/apps/src/bin/sh.rs 233-256 run_line (loop) *)
Fixpoint line_loop (fuel : nat) (buf : list Z) (seg_start i e quote : Z) : Prog W (list Z * bool) :=
  if i <? e then
    c ← pure (bget buf i);
    let next buf seg_start quote := match fuel with O => spent | S fuel => line_loop fuel buf seg_start (i + 1) e quote end in
    if negb (quote =? 0) then next buf seg_start (if c =? quote then 0 else quote)
    else if is_quote c then next buf seg_start c
    else if c =? 59 then
      '(ss, se) ← pure (trim buf seg_start i);
      if ss <? se then
        '(buf, more) ← exec_line buf ss se;
        if more : bool then next buf (i + 1) 0 else mret (buf, false)
      else next buf (i + 1) 0
    else next buf seg_start 0
  else
    '(ss, se) ← pure (trim buf seg_start e);
    if ss <? se then exec_line buf ss se else mret (buf, true).
(* @src userland/apps/src/bin/sh.rs 229-257 run_line *)
Definition run_line (buf : list Z) (s e : Z) : Prog W (list Z * bool) := line_loop (length buf) buf s s e 0.

(** ** Scripts *)

(* @src userland/apps/src/bin/sh.rs 71-74 SCRIPT_MAX *)
Definition SCRIPT_MAX : Z := 1024.
(** The bytes read so far; the status of the program when it gives up. *)
(* @src userland/apps/src/bin/sh.rs 93-119 run_script (read) *)
Fixpoint read_script (fuel : nat) (path : list Z) (fd : Z) (file : list Z) : Prog W (Z + list Z) :=
  if len file =? SCRIPT_MAX then
    '(n, _) ← call (os_read fd 1);
    if 0 <? n then
      _ ← call (os_close fd);
      _ ← println [as_bytes "sh: "; path; as_bytes ": larger than "; itoa SCRIPT_MAX; as_bytes " bytes; refusing to run a truncated script"];
      mret (inl 1)
    else mret (inr file)
  else
    cap ← pure (if len file <=? SCRIPT_MAX then Some (SCRIPT_MAX - len file) else None);
    '(n, data) ← call (os_read fd cap);
    if n <? 0 then
      _ ← call (os_close fd);
      _ ← println ([as_bytes "sh: read error on "; path; as_bytes ": "] ++ num n);
      mret (inl 1)
    else if n =? 0 then mret (inr file)
    else match fuel with O => spent | S fuel => read_script fuel path fd (file ++ fill n data) end.

(** The lines of a script from its position [i] on. *)
(* @src userland/apps/src/bin/sh.rs 122-151 run_script (lines) *)
Fixpoint script_loop (fuel : nat) (path file : list Z) (start i : Z) (buf : list Z) : Prog W unit :=
  if i <=? len file then
    let next start buf := match fuel with O => spent | S fuel => script_loop fuel path file start (i + 1) buf end in
    newline ← pure (if i =? len file then Some true else c ← bget file i; Some (c =? 10));
    if newline : bool then
      line ← pure (bslice file start i);
      let line := strip_cr line in
      if LINE <? len line then
        _ ← println [as_bytes "sh: "; path; as_bytes ": line longer than "; itoa LINE; as_bytes " bytes, skipped"];
        next (i + 1) buf
      else
        let buf := line ++ drop (length line) buf in
        '(s, e) ← pure (trim buf 0 (len line));
        run_it ← pure (if s <? e then c ← bget buf s; Some (negb (c =? 35)) else Some false);
        if run_it : bool then
          '(buf, more) ← run_line buf s e;
          if more : bool then next (i + 1) buf else mret tt
        else next (i + 1) buf
    else next start buf
  else mret tt.

(* @src userland/apps/src/bin/sh.rs 85-152 run_script *)
Definition run_script (path : list Z) : Prog W Z :=
  fd ← call (os_open path O_RDONLY);
  if fd <? 0 then _ ← println [as_bytes "sh: cannot open "; path]; mret 1
  else
    r ← read_script (Z.to_nat SCRIPT_MAX) path fd [];
    match r with
    | inl status => mret status
    | inr file =>
      _ ← call (os_close fd);
      _ ← script_loop (S (length file)) path file 0 0 (replicate (Z.to_nat (LINE + 1)) 0);
      mret 0
    end.
End sh.
