(* ===== verification/SyscallFsOps.v ===== *)
(** * SyscallFsOps: what the calls of a user program may change

    Every call of [dispatch] but [spawn] writes only memory its caller owns and
    descriptors of its caller, and all of them leave the processes, the slots and the
    descriptor tables well formed; the eight calls that [dispatch] leaves out are named
    in [elsewhere].  What
    [readdir] packs is what the user shell unpacks; the directory [chdir] enters is the
    one [getcwd] answers and relative paths start from; the clock that is set is the
    clock that is read. *)

From S2P Require Import Prelude Flash Wire Sched SchedOps Slots Process Syscall ProcessOps Path Inode Espfs EspfsTree EspfsSpec EspfsOps Vfs VfsOps EspfsVfs VfsSpec Elf ElfOps SyscallFs Sh.

Open Scope Z_scope.

#[export] Instance Syscall_eq_dec : EqDecision Syscall.
Proof. solve_decision. Defined.

Section SyscallFsOps.
Context {F : Type} `{HF : Frame F} {W I : Type} `{HN : !Inode W I, HE : !EqDecision I, HP : !Droppable W I, HPp : !Pipes W I}.
Abbreviation K := (Kernel F (Vfs W I)).
Implicit Types k : K.

(** ** The calls of files *)

(** [k'] differs from [k] in bytes the caller owns and in its own descriptors. *)
Record own_call k k' : Prop := mkOwnCall {
  oc_sched : k_sched k' = k_sched k;
  oc_pt : k_pt k' = k_pt k;
  oc_slots : k_slots k' = k_slots k;
  oc_base : k_data_base k' = k_data_base k;
  oc_fds : tables_ok (k_fds k) -> own_table (caller_of k) (k_fds k) (k_fds k');
  oc_mem : current_task_is_user (k_sched k) = true -> forall a, ~ owns k a -> k_mem k' a = k_mem k a;
}.

Lemma oc_refl k : own_call k k.
Proof. by split. Qed.

Lemma oc_same k k' : own_call k k' -> caller_of k' = caller_of k /\ (forall a, owns k' a <-> owns k a).
Proof.
  intros [E1 E2 E3 E4 _ _]. unfold caller_of, cwd_of_caller, get_current_pid, owns, current_slot, get_current_pid. by rewrite E1, E2, E4.
Qed.

Lemma oc_trans k k1 k' : own_call k k1 -> own_call k1 k' -> own_call k k'.
Proof.
  intros H1 H2. destruct (oc_same _ _ H1) as [Ec Eo]. destruct H1 as [A1 A2 A3 A4 A5 A6], H2 as [B1 B2 B3 B4 B5 B6].
  split; try congruence.
  - intros Hv. specialize (A5 Hv). eapply own_trans; [exact A5|]. rewrite <- Ec. apply B5, A5.
  - intros Hu a Ha. rewrite B6, A6; [done|done|done|by rewrite A1|by rewrite Eo].
Qed.

(** A change of the VFS by one of its calls. *)
Lemma oc_vfs k v : (tables_ok (k_fds k) -> own_table (caller_of k) (k_fds k) v) -> own_call k (k_set_fds v k).
Proof. by intros Hv; split. Qed.

Lemma oc_vcall k v : vcall (caller_of k) (k_fds k) v -> own_call k (k_set_fds v k).
Proof. intros Hv. apply oc_vfs. by apply vcall_own. Qed.

Lemma via_vfs_eq {A} (m : Caller -> ST (Vfs W I) A) k :
  via_vfs m k = (k_set_fds (m (caller_of k) (k_fds k)).1 k, (m (caller_of k) (k_fds k)).2).
Proof. unfold via_vfs. by destruct (m _ _). Qed.

Lemma slice_mut_owns ptr n k a :
  user_slice_mut ptr n k = Ok tt -> current_task_is_user (k_sched k) = true -> ptr <= a < ptr + n -> owns k a.
Proof. unfold user_slice_mut. destruct (Z.eqb_spec n 0); [lia|]. intros Hv Hu. by apply validate_user_spec. Qed.

(** The bytes a call puts in a buffer that was checked. *)
Lemma oc_put ptr n data k : user_slice_mut ptr n k = Ok tt -> own_call k (put_user ptr n data k).
Proof.
  intros Hv. split; try done. intros Hu a Ha. apply write_mem_out. rewrite length_take. intros Hx. apply Ha.
  eapply slice_mut_owns; [done|done|lia].
Qed.

Lemma oc_put_after ptr n data k k' : user_slice_mut ptr n k = Ok tt -> own_call k k' -> own_call k (put_user ptr n data k').
Proof.
  intros Hv Hk. eapply oc_trans; [exact Hk|]. apply oc_put. rewrite <- Hv. destruct Hk as [E1 E2 _ E4 _ _].
  unfold user_slice_mut, validate_user, user_region_end, current_slot, get_current_pid. by rewrite E1, E2, E4.
Qed.

#[local] Hint Resolve oc_refl oc_vcall oc_put_after : espresso.
#[local] Hint Constructors vcall : espresso.

Lemma own_create_pipe c v : tables_ok v -> own_table c v (create_pipe c v).1.
Proof. intros Hv. unfold create_pipe. destruct (i_create_pipe 4096 (v_world v)) as [w [r w_]]. exact (own_insert_pipe c r w_ (set_world w v) Hv). Qed.

Lemma own_reads args k : own_call k (sys_read args k).1.
Proof.
  unfold sys_read. cbn zeta. destruct (user_slice_mut _ _ k) as [[]|e] eqn:Ev; [|apply oc_refl].
  pose proof (vc_read (caller_of k) (as_i32 (arg args 0)) (arg args 2) (k_fds k)) as Hc.
  destruct (read _ _ _ _) as [v [[data|e]|]]; cbn [fst fail_with] in *; auto with espresso.
Qed.

Lemma own_writes args k : own_call k (sys_write args k).1.
Proof.
  unfold sys_write. destruct (user_slice _ _ k) as [buf|e]; [|apply oc_refl].
  pose proof (vc_write (caller_of k) (as_i32 (arg args 0)) buf (k_fds k)) as Hc.
  destruct (write _ _ _ _) as [v [r|]]; cbn [fst fail_with] in *; auto with espresso.
Qed.

Lemma own_pipes args k : own_call k (sys_pipe args k).1.
Proof.
  unfold sys_pipe. destruct (user_slice_mut _ _ k) as [[]|e] eqn:Ev; [|apply oc_refl]. rewrite via_vfs_eq.
  assert (Hc : own_call k (k_set_fds (create_pipe (caller_of k) (k_fds k)).1 k)) by (apply oc_vfs, own_create_pipe).
  destruct (create_pipe _ _) as [v [[r w]|e]]; cbn [fst snd fail_with] in *; auto with espresso.
Qed.

Lemma own_readdirs fuel args k : own_call k (sys_readdir fuel args k).1.
Proof.
  unfold sys_readdir. destruct (user_str _ _ k) as [path|e]; [|apply oc_refl]. cbn zeta.
  destruct (user_slice_mut _ _ k) as [[]|e] eqn:Ev; [|apply oc_refl]. rewrite via_vfs_eq.
  pose proof (vc_readdir (caller_of k) path fuel (k_fds k)) as Hc.
  destruct (readdir _ _ _ _) as [v [es|e]]; cbn [fst snd fail_with] in *; auto with espresso.
Qed.

Lemma own_getcwd args k : own_call k (sys_getcwd args k).1.
Proof.
  unfold sys_getcwd. destruct (user_slice_mut _ _ k) as [[]|e] eqn:Ev; [|apply oc_refl]. cbn zeta.
  destruct (_ <? _); cbn [fst fail_with]; auto with espresso.
Qed.

Lemma own_gettimeofday c args k : own_call k (sys_gettimeofday c args k).1.
Proof.
  unfold sys_gettimeofday. cbn zeta. destruct (validate_user _ _ k) as [[]|e] eqn:Ev; [|apply oc_refl]. cbn [fst].
  apply oc_put. by unfold user_slice_mut.
Qed.

(** Calls that make one call of the VFS. *)
Lemma own_via {A} (m : Caller -> ST (Vfs W I) A) (f : KResult A -> Reply) k :
  vcall (caller_of k) (k_fds k) (m (caller_of k) (k_fds k)).1 -> own_call k (let '(k, r) := via_vfs m k in (k, f r)).1.
Proof. intros Hm. rewrite via_vfs_eq. by apply oc_vcall. Qed.

(** ** Every call *)

(** What a call may change outside its caller: no memory, and the descriptors of no
    process that is still there. *)
Definition contained k k' : Prop :=
  tables_ok (k_fds k') /\
  (current_task_is_user (k_sched k) = true -> forall a, ~ owns k a -> k_mem k' a = k_mem k a) /\
  (forall p, p <> pid_or_0 (caller_of k) -> is_Some (table (k_pt k') !! p) -> v_tables (k_fds k') !! p = v_tables (k_fds k) !! p).

Lemma own_contained k k' : tables_ok (k_fds k) -> own_call k k' -> contained k k'.
Proof. intros Hv [_ _ _ _ Ho Hm]. destruct (Ho Hv) as (H1 & _ & H2). split; [done|]. split; [done|]. auto. Qed.

(** A call that changes neither the memory nor the descriptors. *)
Lemma same_contained k k' : tables_ok (k_fds k) -> k_fds k' = k_fds k -> k_mem k' = k_mem k -> contained k k'.
Proof. intros Hv E1 E2. unfold contained. by rewrite E1, E2. Qed.

Lemma wait_contained args k fl : tables_ok (k_fds k) -> kernel_inv k fl -> contained k (sys_wait args k).1.
Proof.
  intros Hv Hk. unfold sys_wait.
  destruct (if arg args 0 =? 0 then Ok tt else validate_user (arg args 0) 4 k) as [[]|e] eqn:Ep; [|by apply same_contained].
  destruct (pid_of_tid _ _) as [pid|]; [|by apply same_contained]. destruct (negb (has_children pid k)); [by apply same_contained|].
  pose proof (take_zombie_spec pid k fl Hk) as Ht. destruct (take_zombie_child pid k) as [k1 [[[cpid code] sl]|]].
  - destruct Ht as (p & proc & pt' & _ & _ & Hp & _ & _ & -> & E & ->).
    destruct (remove_process_spec _ _ _ (ki_pt _ _ Hk) Hp) as (pt0 & E0 & Hl & _). rewrite E0 in E. injection E as ->. cbn [fst].
    set (k2 := if arg args 0 =? 0 then _ else _).
    assert (E1 : k_fds (release (Process.slot proc) cpid k2) = cleanup_process_fds cpid (k_fds k) /\
      k_mem (release (Process.slot proc) cpid k2) = k_mem k2 /\ k_pt (release (Process.slot proc) cpid k2) = pt').
    { unfold k2, release. by destruct (arg args 0 =? 0), (Process.slot proc). }
    destruct E1 as (E1 & E2 & E3). unfold contained. rewrite E1, E2, E3. split; [|split].
    + intros q t. cbn. intros [_ Ht]%lookup_delete_Some. by eapply Hv.
    + intros Hu a Ha. unfold k2. destruct (Z.eqb_spec (arg args 0) 0); [done|]. cbn [k_mem k_set_mem k_set_pt]. apply write_mem_out. rewrite le4_len.
      intros Hx. apply Ha. by eapply validate_user_spec.
    + intros q _ Hq. rewrite Hl in Hq. cbn. case_decide as Hd; [by destruct Hq|]. by apply lookup_delete_ne.
  - destruct Ht as [-> _]. destruct (negb _); by apply same_contained.
Qed.

Lemma exit_same args k : k_fds (sys_exit args k).1 = k_fds k /\ k_mem (sys_exit args k).1 = k_mem k.
Proof. unfold sys_exit. by destruct (match pid_of_tid _ _ with Some pid => _ | None => _ end) as [pt par]. Qed.

Lemma kill_same args k : k_fds (sys_kill args k).1 = k_fds k /\ k_mem (sys_kill args k).1 = k_mem k.
Proof. unfold sys_kill. destruct (_ || _); [done|]. by destruct (table _ !! _). Qed.

Lemma sigaction_same args k : k_fds (sys_sigaction args k).1 = k_fds k /\ k_mem (sys_sigaction args k).1 = k_mem k.
Proof.
  unfold sys_sigaction. destruct (_ || _); [done|]. destruct (validate_user _ _ _); [|done]. destruct (_ =? 0); [done|].
  destruct (pid_of_tid _ _) as [pid|]; [|done]. by destruct (table _ !! _).
Qed.

(** [chdir] changes the VFS as resolving a path does, and the directory of the caller. *)
Lemma chdir_shape args k : exists v pt, (sys_chdir args k).1 = k_set_pt pt (k_set_fds v k) /\
  (tables_ok (k_fds k) -> own_table (caller_of k) (k_fds k) v) /\
  (pt = k_pt k \/ exists pid d, pt = on_process pid (set_cwd d) (k_pt k)).
Proof.
  assert (Hnone : exists v pt, k = k_set_pt pt (k_set_fds v k) /\ (tables_ok (k_fds k) -> own_table (caller_of k) (k_fds k) v) /\
    (pt = k_pt k \/ exists pid d, pt = on_process pid (set_cwd d) (k_pt k))).
  { exists (k_fds k), (k_pt k). split; [by destruct k|]. split; [apply own_refl|by left]. }
  unfold sys_chdir. destruct (user_str _ _ k) as [path|e]; [|exact Hnone]. rewrite via_vfs_eq.
  pose proof (own_world_only (resolve (caller_of k) path) (caller_of k) (k_fds k) (wo_resolve _ _)) as Ho.
  destruct (resolve _ _ _) as [v [i|e]]; cbn [fst snd] in *; [|by exists v, (k_pt k); auto].
  destruct (negb _); [by exists v, (k_pt k); auto|]. unfold cwd_set.
  destruct (normalize _ _) as [norm|e]; [|by exists v, (k_pt k); auto].
  destruct (get_current_pid _) as [pid|]; [|by exists v, (k_pt k); auto].
  destruct (table _ !! pid); [|by exists v, (k_pt k); auto].
  exists v, (on_process pid (set_cwd norm) (k_pt k)). eauto 6.
Qed.

(** The calls that only go through the VFS and the buffers of the caller. *)
Lemma file_calls h num args (c c' : Clock) k k' r sc : dispatch h num args c k = Some (c', k', r) -> from_usize num = Some sc ->
  match sc with
  | SRead | SWrite | SOpen | SClose | SSeek | SMkdir | SUnlink | SReaddir | SUptimeMs | SSbrk
  | SGetTimeOfDay | SSetTimeOfDay | SPipe | SDup2 | SGetcwd => own_call k k'
  | _ => True
  end.
Proof.
  intros E Es. unfold dispatch in E. rewrite Es in E. destruct (sys_settimeofday c args k) as [c1 r1]. destruct sc; try done; injection E as _ <- _; try apply oc_refl.
  - apply own_reads.
  - apply own_writes.
  - unfold sys_open. destruct (user_str _ _ k) as [path|e]; [|apply oc_refl].
    apply (own_via (fun c => open c path _) (fun r => Replied (match r with Ok fd => fd | Err e => as_errno e end))), vc_open.
  - apply (own_via (fun c => close c _) (fun r => Replied (ret_unit r))), vc_close.
  - unfold sys_seek. cbn zeta. destruct (if _ =? 0 then _ else _) as [pos|]; [|apply oc_refl].
    apply (own_via (fun c => seek c _ pos) (fun r => Replied (match r with Ok n => Z.min n (2 ^ 31 - 1) | Err e => as_errno e end))), vc_seek.
  - unfold sys_mkdir. destruct (user_str _ _ k) as [path|e]; [|apply oc_refl].
    apply (own_via (fun c => if arg args 2 =? 0x1000 then mkfifo c path else mkdir c path) (fun r => Replied (ret_unit r))).
    destruct (_ =? _); [apply vc_mkfifo|apply vc_mkdir].
  - unfold sys_unlink. destruct (user_str _ _ k) as [path|e]; [|apply oc_refl].
    apply (own_via (fun c => unlink c path) (fun r => Replied (ret_unit r))), vc_unlink.
  - apply own_readdirs.
  - apply own_gettimeofday.
  - apply own_pipes.
  - apply (own_via (fun c => dup2 c _ _) (fun r => Replied (match r with Ok fd => fd | Err e => as_errno e end))), vc_dup2.
  - apply own_getcwd.
Qed.

Lemma dispatch_contained h num args (c c' : Clock) k k' r fl :
  kernel_inv k fl -> tables_ok (k_fds k) -> from_usize num <> Some SSpawn -> dispatch h num args c k = Some (c', k', r) -> contained k k'.
Proof.
  intros Hk Hv Hn E. destruct (from_usize num) as [sc|] eqn:Es.
  - pose proof (file_calls _ _ _ _ _ _ _ _ _ E Es) as Ho. unfold dispatch in E. rewrite Es in E.
    destruct sc; try done; try by apply own_contained.
    all: injection E as _ <- _.
    + by destruct (exit_same args k); apply same_contained.
    + by eapply wait_contained.
    + by apply same_contained.
    + by destruct (sigaction_same args k); apply same_contained.
    + by destruct (kill_same args k); apply same_contained.
    + destruct (chdir_shape args k) as (v & pt & -> & Ho' & _). destruct (Ho' Hv) as (H1 & _ & H2). split; [done|]. split; [done|]. auto.
  - unfold dispatch in E. rewrite Es in E. injection E as _ <- _. by apply same_contained.
Qed.

(** ** The invariants *)

Lemma own_call_inv k k' fl : kernel_inv k fl -> tables_ok (k_fds k) -> own_call k k' -> kernel_inv k' fl.
Proof.
  intros Hk Hv [E1 E2 E3 E4 Ho _]. destruct (Ho Hv) as (_ & _ & Hp). clear Ho. pose proof Hk as [I1 I2 I3 I4 I5 I6 I7].
  split; rewrite ?E1, ?E2, ?E3; try done. intros p Hin. destruct (decide (p = pid_or_0 (caller_of k))) as [->|Hne].
  - unfold pid_or_0. cbn. destruct (get_current_pid k) as [pid|] eqn:Ep; [right|by left].
    apply (pi_tid _ I1) in Ep as (q & Hq & _). by exists q.
  - apply I7. cbn in *. apply elem_of_dom in Hin. rewrite Hp in Hin by done. by apply elem_of_dom.
Qed.

Lemma chdir_inv args k fl : kernel_inv k fl -> tables_ok (k_fds k) -> kernel_inv (sys_chdir args k).1 fl.
Proof.
  intros Hk Hv. destruct (chdir_shape args k) as (v & pt & -> & Ho & Hpt).
  assert (Hk1 : kernel_inv (k_set_fds v k) fl) by (apply (own_call_inv k); [done|done|by apply oc_vfs]).
  destruct Hpt as [->|(pid & d & ->)]; [exact Hk1|]. exact (kernel_inv_on _ _ pid (set_cwd d) (fun _ => conj eq_refl (conj eq_refl (conj eq_refl eq_refl))) (fun _ => eq_refl) Hk1).
Qed.

(** The slot of a loaded image is in flight until the process is registered. *)
Lemma loaded_inv k fl used i :
  kernel_inv k fl -> ~ in_use (k_slots k) i -> 0 <= used < 2 ^ 32 -> (forall j, in_use used j <-> in_use (k_slots k) j \/ j = i) ->
  kernel_inv (k_set_slots used k) ({[i]} ∪ fl) /\ i ∉ fl.
Proof.
  intros [I1 I2 I3 I4 I5 I6 I7] Hi Hu Hj. assert (Hfl : i ∉ fl) by (intros Hx; apply Hi, I3; by left). split; [|done].
  split; cbn; try done.
  - intros s. rewrite Hj, I3. set_solver.
  - intros s c p [->%elem_of_singleton|Hs]%elem_of_union Hp; [|by eapply I5]. intros Hx. apply Hi, I3. eauto.
Qed.

Lemma same_slots_inv k fl used :
  kernel_inv k fl -> 0 <= used < 2 ^ 32 -> (forall j, in_use used j <-> in_use (k_slots k) j) -> kernel_inv (k_set_slots used k) fl.
Proof. intros [I1 I2 I3 I4 I5 I6 I7] Hu Hj. split; cbn; try done. intros s. by rewrite Hj. Qed.

Lemma spawn_fds tr heap path entry argv i k : tables_ok (k_fds k) -> tables_ok (k_fds (spawn_image tr heap path entry argv i k).1).
Proof.
  intros Hv. unfold spawn_image. destruct (spawn_blocked _ _ _ _ _ _ _ _ _) as [g [tid|e]]; [|done].
  unfold register_process. cbn [k_sched k_set_sched k_pt k_fds fst].
  destruct (pid_of_tid _ _) as [q|]; [|exact Hv]. cbn. unfold clone_fd_table.
  destruct (v_tables (k_fds k) !! q) as [t|] eqn:Et; [|done]. intros p u. cbn.
  intros [[_ <-]|[_ Hu]]%lookup_insert_Some; by eapply Hv.
Qed.

Lemma spawn_inv link tr heap args k k' r fl :
  kernel_inv k fl -> tables_ok (k_fds k) -> next_pid (k_pt k) < 2 ^ 32 - 1 -> sys_spawn link tr heap args k = (k', r) -> r <> Waits ->
  kernel_inv k' fl /\ tables_ok (k_fds k').
Proof.
  intros Hk Hv Hn E Hr. unfold sys_spawn in E.
  destruct (user_str _ _ k) as [path|e]; [|by injection E as <- _]. destruct (user_argv _ k) as [argv|e]; [|by injection E as <- _].
  pose proof (load_elf_accounts link (k_data_base k) (caller_of k) path (mkLoader (k_fds k) (k_slots k) (k_mem k))) as Ha.
  pose proof (load_elf_owned link (k_data_base k) (caller_of k) path (mkLoader (k_fds k) (k_slots k) (k_mem k)) Hv) as Ho.
  destruct (load_elf _ _ _ _ _) as [l [[ld|e]|]]; [| |injection E as _ <-; done].
  all: destruct (Ha l _ (ki_used _ _ Hk) eq_refl) as [Hu Hs]; cbn [fst l_vfs l_slots] in *; clear Ha.
  all: set (k1 := k_set_fds (l_vfs l) (k_set_mem (l_mem l) k)).
  all: assert (Hk1 : kernel_inv k1 fl) by
    (apply (own_call_inv (k_set_mem (l_mem l) k)); [by apply (kernel_inv_ext k)|done|by apply oc_vfs]).
  - destruct Hs as (H1 & _ & H2). destruct (loaded_inv k1 fl (l_slots l) (Elf.slot ld) Hk1 H1 Hu H2) as [Hk2 Hfl].
    assert (Efl : ({[Elf.slot ld]} ∪ fl) ∖ {[Elf.slot ld]} = fl) by set_solver. assert (Hin : Elf.slot ld ∈ {[Elf.slot ld]} ∪ fl) by set_solver.
    destruct (write_argv _ _ _) as [mem [argv_ptr|e]].
    + match type of E with (let '(k, z) := spawn_image ?a ?b ?c ?d ?e ?i ?kk in _) = _ =>
        pose proof (spawn_image_inv a b c d e i kk ({[i]} ∪ fl)) as Hsp; pose proof (spawn_fds a b c d e i kk) as Hsf;
        destruct (spawn_image a b c d e i kk) as [k3 z] end.
      injection E as <- _. rewrite Efl in Hsp. split; [apply Hsp; [|done|done]|apply Hsf, Ho]. by apply (kernel_inv_ext (k_set_slots (l_slots l) k1)).
    + injection E as <- _. split; [|apply Ho]. pose proof (slot_free_kernel_inv _ _ _ Hk2 Hin) as Hf. rewrite Efl in Hf.
      by apply (kernel_inv_ext (k_set_slots (slot_free (Elf.slot ld) (l_slots l)) (k_set_slots (l_slots l) k1))).
  - injection E as <- _. split; [|apply Ho]. by apply (same_slots_inv k1).
Qed.

(** The eight calls that are not in [dispatch] here: those of devices and sockets,
    [sigreturn] (which is about the frame of the trap) and the state of the update. *)
Definition elsewhere : list Syscall := [SIoctl; SSigreturn; SSocket; SBind; SListen; SAccept; SConnect; SOtaState].

(** The number of one of the other twenty-two calls, or of no call. *)
Definition served (num : Z) : bool :=
  match from_usize num with Some sc => bool_decide (sc ∉ elsewhere) | None => true end.

Lemma dispatch_served h num args (c : Clock) k : served num = true ->
  exists c' k' r, dispatch h num args c k = Some (c', k', r).
Proof.
  unfold served, dispatch. destruct (from_usize num) as [sc|]; [|eauto]. rewrite bool_decide_eq_true. intros Hs.
  assert (Hin : forall x, x ∈ elsewhere -> sc <> x) by (intros x Hx ->; done). unfold elsewhere in Hin.
  destruct sc; try (by do 3 eexists); [..|]; try (by exfalso; eapply Hin; [|reflexivity]; set_solver).
  destruct (sys_settimeofday c args k) as [c1 r1]. by do 3 eexists.
Qed.

(** C12. A call of a user program stays inside that program.  Of the thirty calls this is
    about the twenty-one that are neither [spawn] (which also writes the slot of the new
    program) nor one of the eight of [elsewhere], and about every other number: whatever
    the arguments, the call ends or waits, and changes no byte of memory outside the
    stack and the data slot of the caller, no descriptor of another process that is
    still there, and lets no table grow past its limit. *)
Theorem syscall_contained h num args (c : Clock) k fl :
  kernel_inv k fl -> tables_ok (k_fds k) -> current_task_is_user (k_sched k) = true ->
  served num = true -> from_usize num <> Some SSpawn ->
  exists c' k' r, dispatch h num args c k = Some (c', k', r) /\
    (forall a, ~ owns k a -> k_mem k' a = k_mem k a) /\
    (forall p, p <> pid_or_0 (caller_of k) -> is_Some (table (k_pt k') !! p) -> v_tables (k_fds k') !! p = v_tables (k_fds k) !! p) /\
    tables_ok (k_fds k').
Proof.
  intros Hk Hv Hu Hs Hn. destruct (dispatch_served h num args c k Hs) as (c' & k' & r & E). exists c', k', r.
  split; [done|]. destruct (dispatch_contained _ _ _ _ _ _ _ _ _ Hk Hv Hn E) as (H1 & H2 & H3). auto.
Qed.

(** C14. The processes, the slots and the descriptors stay well formed under the calls
    that are not in [elsewhere], [spawn] among them, and under every number that is no
    call: whatever the arguments, the table and its reverse map agree, parents and
    children form a tree, every slot in use has exactly one owner, only live processes
    have descriptors, and no table is over its limit.  (Process numbers must not be used
    up, and of a [spawn] that waits for its file the state in between is not meant.) *)
Theorem calls_keep_wellformed h num args (c : Clock) k fl :
  kernel_inv k fl -> tables_ok (k_fds k) -> next_pid (k_pt k) < 2 ^ 32 - 1 -> served num = true ->
  exists c' k' r, dispatch h num args c k = Some (c', k', r) /\
    (from_usize num <> Some SSpawn \/ r <> Waits -> kernel_inv k' fl /\ tables_ok (k_fds k')).
Proof.
  intros Hk Hv Hn Hs. destruct (dispatch_served h num args c k Hs) as (c' & k' & r & E). exists c', k', r.
  split; [done|]. intros Hsp. destruct (decide (from_usize num = Some SSpawn)) as [Es|Es].
  - assert (Hr : r <> Waits) by (by destruct Hsp). unfold dispatch in E. rewrite Es in E. injection E as _ <- <-.
    destruct (sys_spawn _ _ _ args k) as [k1 r1] eqn:E1. by eapply spawn_inv.
  - split; [|by eapply (proj1 (dispatch_contained _ _ _ _ _ _ _ _ _ Hk Hv Es E))]. clear Hsp Hs. destruct (from_usize num) as [sc|] eqn:Ec.
    + pose proof (file_calls _ _ _ _ _ _ _ _ _ E Ec) as Ho. unfold dispatch in E. rewrite Ec in E.
      destruct sc; try done; try by eapply own_call_inv.
      all: injection E as _ <- _.
      * by apply sys_exit_inv.
      * by apply sys_wait_inv.
      * by apply (kernel_inv_ext k).
      * by apply sys_sigaction_inv.
      * by apply sys_kill_inv.
      * by apply chdir_inv.
    + unfold dispatch in E. rewrite Ec in E. by injection E as _ <- _.
Qed.

(** ** What a call may depend on *)

(** [f] answers the same, and does the same, with any memory that agrees with that of
    [k] on the bytes its caller owns. *)
Definition blind {R} (f : K -> K * R) k : Prop :=
  forall m, (forall a, owns k a -> m a = k_mem k a) ->
    exists m', f (k_set_mem m k) = (k_set_mem m' (f k).1, (f k).2) /\ forall a, owns k a -> m' a = k_mem (f k).1 a.

Lemma blind_same {R} (f : K -> K * R) k :
  (forall m, (forall a, owns k a -> m a = k_mem k a) -> f (k_set_mem m k) = (k_set_mem m (f k).1, (f k).2)) -> k_mem (f k).1 = k_mem k -> blind f k.
Proof. intros Hf Hk m Hm. exists m. rewrite Hk. split; [by apply Hf|done]. Qed.

Lemma blind_put {R} ptr n data k k1 (x : R) m :
  (forall a, owns k a -> m a = k_mem k a) -> k_mem k1 = k_mem k ->
  exists m', (put_user ptr n data (k_set_mem m k1), x) = (k_set_mem m' (put_user ptr n data k1), x) /\
    forall a, owns k a -> m' a = k_mem (put_user ptr n data k1) a.
Proof.
  intros Hm Hk. eexists. split; [reflexivity|]. intros a Ha. unfold put_user. cbn [k_mem k_set_mem]. unfold write_mem.
  case_bool_decide; [done|]. rewrite Hk. by apply Hm.
Qed.

Section Blind.
Context (k : K) (Hu : current_task_is_user (k_sched k) = true) (m : Z -> Z) (Hm : forall a, owns k a -> m a = k_mem k a).

Lemma read_owned ptr n : (forall a, ptr <= a < ptr + Z.of_nat n -> owns k a) -> read_mem m ptr n = read_mem (k_mem k) ptr n.
Proof. intros Ho. apply read_mem_ext. intros a Ha. by apply Hm, Ho. Qed.

Lemma user_slice_owned ptr n : user_slice ptr n (k_set_mem m k) = user_slice ptr n k.
Proof.
  unfold user_slice. destruct (Z.eqb_spec n 0); [done|]. change (validate_user ptr n (k_set_mem m k)) with (validate_user ptr n k).
  destruct (validate_user ptr n k) as [[]|e] eqn:Ev; [|done]. cbn [mbind KResult_bind k_mem k_set_mem]. f_equal. apply read_owned. intros a Ha.
  destruct (decide (0 <= n)); [|lia]. eapply validate_user_spec; [done|done|lia].
Qed.

Lemma user_str_owned ptr n : user_str ptr n (k_set_mem m k) = user_str ptr n k.
Proof. unfold user_str. by rewrite user_slice_owned. Qed.
(** The calls that only look at the scheduler, the processes and the descriptors. *)
Lemma set_mem_fields : caller_of (k_set_mem m k) = caller_of k /\ k_fds (k_set_mem m k) = k_fds k /\ k_pt (k_set_mem m k) = k_pt k /\
  k_sched (k_set_mem m k) = k_sched k /\ (forall ptr n, user_slice_mut ptr n (k_set_mem m k) = user_slice_mut ptr n k) /\
  (forall ptr n, validate_user ptr n (k_set_mem m k) = validate_user ptr n k).
Proof. done. Qed.

Lemma word_owned ptr : (forall a, ptr <= a < ptr + 4 -> owns k a) -> read_word m ptr = read_word (k_mem k) ptr.
Proof. intros Ho. unfold read_word. f_equal. by apply read_owned. Qed.
End Blind.

Ltac blind_start := intros Hu; apply blind_same; [intros m Hm|].
Ltac blind_fields k m := destruct (set_mem_fields k m) as (Ec & Ef & Ep & Eg & Es & Ev).

Lemma blind_write args k : current_task_is_user (k_sched k) = true -> blind (sys_write args) k.
Proof.
  blind_start; unfold sys_write.
  - rewrite user_slice_owned by done. destruct (user_slice _ _ k); [|done]. blind_fields k m. rewrite Ec, Ef. by destruct (write _ _ _ _) as [v [r|]].
  - destruct (user_slice _ _ k); [|done]. by destruct (write _ _ _ _) as [v [r|]].
Qed.

Lemma blind_via {A R} (f : Caller -> ST (Vfs W I) A) (g : KResult A -> R) k : blind (fun k => let '(k, r) := via_vfs f k in (k, g r)) k.
Proof. apply blind_same; [intros m Hm|]; by rewrite !via_vfs_eq. Qed.

Lemma blind_str {R} (f : string -> K -> K * R) (e : KError -> R) ptr n k :
  current_task_is_user (k_sched k) = true -> (forall path, blind (f path) k) ->
  blind (fun k => match user_str ptr n k with Err x => (k, e x) | Ok path => f path k end) k.
Proof.
  intros Hu Hf m Hm. rewrite user_str_owned by done. destruct (user_str ptr n k) as [path|x]; [by apply Hf|]. by exists m.
Qed.

Lemma blind_buffer {R} (f : K -> K * R) (e : KError -> R) ptr n k : blind f k ->
  blind (fun k => match user_slice_mut ptr n k with Err x => (k, e x) | Ok _ => f k end) k.
Proof. intros Hf m Hm. blind_fields k m. rewrite Es. destruct (user_slice_mut ptr n k); [by apply Hf|]. by exists m. Qed.

Lemma blind_read args k : blind (sys_read args) k.
Proof.
  apply (blind_buffer (fun k => match read (caller_of k) (as_i32 (arg args 0)) (arg args 2) (k_fds k) with
    | (v, Park) => (k_set_fds v k, Waits)
    | (v, Ret (Ok data)) => (put_user (arg args 1) (arg args 2) data (k_set_fds v k), Replied (ret_usize (Ok (len data))))
    | (v, Ret (Err e)) => fail_with e (k_set_fds v k)
    end) (fun e => Replied (as_errno e))).
  intros m Hm. blind_fields k m. rewrite Ec, Ef. destruct (read _ _ _ _) as [v [[data|e]|]]; [|by exists m..].
  exact (blind_put (arg args 1) (arg args 2) data k (k_set_fds v k) (Replied (ret_usize (Ok (len data)))) m Hm eq_refl).
Qed.


Lemma blind_pipe args k : blind (sys_pipe args) k.
Proof.
  apply (blind_buffer (fun k => match via_vfs create_pipe k with
    | (k, Ok (r, w)) => (put_user (arg args 0) 8 (le_bytes 4 (u32 r) ++ le_bytes 4 (u32 w)) k, Replied 0)
    | (k, Err e) => fail_with e k
    end) (fun e => Replied (as_errno e))).
  intros m Hm. rewrite !via_vfs_eq. blind_fields k m. rewrite Ec, Ef. destruct (create_pipe _ _) as [v [[r w]|e]]; cbn [fst snd]; [|by exists m].
  exact (blind_put (arg args 0) 8 (le_bytes 4 (u32 r) ++ le_bytes 4 (u32 w)) k (k_set_fds v k) (Replied 0) m Hm eq_refl).
Qed.

Lemma blind_readdir fuel args k : current_task_is_user (k_sched k) = true -> blind (sys_readdir fuel args) k.
Proof.
  intros Hu. apply (blind_str (fun path k => match user_slice_mut (arg args 2) (arg args 3) k with
    | Err e => fail_with e k
    | Ok _ => match via_vfs (fun c => readdir c path fuel) k with
      | (k, Err e) => fail_with e k
      | (k, Ok es) => (put_user (arg args 2) (arg args 3) (pack_entries (arg args 3) 0 es) k, Replied (len (pack_entries (arg args 3) 0 es)))
      end
    end) (fun e => Replied (as_errno e)) _ _ k Hu).
  intros path. apply (blind_buffer _ (fun e => Replied (as_errno e))).
  intros m Hm. rewrite !via_vfs_eq. blind_fields k m. rewrite Ec, Ef. destruct (readdir _ _ _ _) as [v [es|e]]; cbn [fst snd]; [|by exists m].
  exact (blind_put (arg args 2) (arg args 3) (pack_entries (arg args 3) 0 es) k (k_set_fds v k) (Replied (len (pack_entries (arg args 3) 0 es))) m Hm eq_refl).
Qed.

Lemma blind_getcwd args k : blind (sys_getcwd args) k.
Proof.
  apply (blind_buffer (fun k => let bytes := as_bytes (cwd_get k) in
    if arg args 1 <? len bytes then fail_with InvalidArgument k else (put_user (arg args 0) (arg args 1) bytes k, Replied (len bytes)))
    (fun e => Replied (as_errno e))).
  intros m Hm. change (cwd_get (k_set_mem m k)) with (cwd_get k). cbn zeta. destruct (_ <? _); [by exists m|].
  exact (blind_put (arg args 0) (arg args 1) (as_bytes (cwd_get k)) k k (Replied (len (as_bytes (cwd_get k)))) m Hm eq_refl).
Qed.

Lemma blind_gettimeofday c args k : blind (sys_gettimeofday c args) k.
Proof.
  intros m Hm. unfold sys_gettimeofday. cbn zeta. blind_fields k m. rewrite Ev. destruct (validate_user _ _ k); [|by exists m].
  match goal with |- context [put_user ?p ?n ?d (k_set_mem m k)] => exact (blind_put p n d k k (Replied 0) m Hm eq_refl) end.
Qed.

Lemma blind_chdir args k : current_task_is_user (k_sched k) = true -> blind (sys_chdir args) k.
Proof.
  intros Hu. apply (blind_str (fun path k => match via_vfs (fun c => resolve c path) k with
    | (k, Err e) => fail_with e k
    | (k, Ok inode) => if negb (bool_decide (i_kind inode (v_world (k_fds k)) = Dir)) then fail_with NotADirectory k
      else let '(k, r) := cwd_set path k in (k, Replied (ret_unit r))
    end) (fun e => Replied (as_errno e)) _ _ k Hu).
  intros path m Hm. rewrite !via_vfs_eq. blind_fields k m. rewrite Ec, Ef. destruct (resolve _ _ _) as [v [dir|e]]; cbn [fst snd]; [|by exists m].
  cbn [k_fds k_set_fds]. destruct (negb _); [by exists m|]. unfold cwd_set.
  change (caller_of (k_set_fds v (k_set_mem m k))) with (caller_of k). change (caller_of (k_set_fds v k)) with (caller_of k).
  change (get_current_pid (k_set_fds v (k_set_mem m k))) with (get_current_pid k). change (get_current_pid (k_set_fds v k)) with (get_current_pid k).
  exists m. destruct (normalize _ _); [|done]. destruct (get_current_pid k); [|done]. cbn [k_pt k_set_fds k_set_mem]. by destruct (table _ !! _).
Qed.

(** The calls of processes, which answer an integer. *)
Lemma blind_exit args k : blind (sys_exit args) k.
Proof.
  apply blind_same; [intros m Hm|apply exit_same]. unfold sys_exit. cbn [k_sched k_pt k_set_mem].
  by destruct (match pid_of_tid _ _ with Some pid => _ | None => _ end) as [pt par].
Qed.
Lemma blind_kill args k : blind (sys_kill args) k.
Proof.
  apply blind_same; [intros m Hm|apply kill_same]. unfold sys_kill. cbn [k_pt k_set_mem]. destruct (_ || _); [done|]. by destruct (table _ !! _).
Qed.
Lemma blind_sigaction args k : current_task_is_user (k_sched k) = true -> blind (sys_sigaction args) k.
Proof.
  intros Hu. apply blind_same; [intros m Hm|apply sigaction_same]. unfold sys_sigaction. cbn [k_pt k_sched k_set_mem k_mem]. blind_fields k m. rewrite Ev.
  destruct (_ || _); [done|]. destruct (validate_user _ _ k) as [[]|e] eqn:E; [|done]. destruct (_ =? 0); [done|]. destruct (pid_of_tid _ _); [|done].
  destruct (table _ !! _); [|done]. pose proof (validate_user_spec _ _ _ E Hu) as Ho. rewrite !(word_owned k m Hm); [done|intros b Hb; apply Ho; lia..].
Qed.
Lemma blind_wait args k : blind (sys_wait args) k.
Proof.
  intros m Hm. unfold sys_wait. cbn zeta. blind_fields k m. rewrite Ev. destruct (if _ =? 0 then _ else _); [|by exists m].
  cbn [k_sched k_pt k_set_mem]. destruct (pid_of_tid _ _) as [pid|]; [|by exists m].
  change (has_children pid (k_set_mem m k)) with (has_children pid k). destruct (negb _); [by exists m|].
  assert (Et : take_zombie_child pid (k_set_mem m k) = (k_set_mem m (take_zombie_child pid k).1, (take_zombie_child pid k).2)).
  { unfold take_zombie_child. cbn [k_pt k_set_mem]. destruct (table _ !! _); [|done]. destruct (List.find _ _); [|done]. by destruct (remove_process _ _) as [pt [p0|]]. }
  assert (Ek : k_mem (take_zombie_child pid k).1 = k_mem k).
  { unfold take_zombie_child. destruct (table _ !! _); [|done]. destruct (List.find _ _); [|done]. by destruct (remove_process _ _) as [pt [p0|]]. }
  rewrite Et. destruct (take_zombie_child pid k) as [k1 [[[cpid code] sl]|]]; cbn [fst snd] in *.
  - assert (Hr : forall k2, release sl cpid (k_set_mem m k2) = k_set_mem m (release sl cpid k2) /\ k_mem (release sl cpid k2) = k_mem k2)
      by (intros k2; unfold release; by destruct sl).
    destruct (_ =? 0).
    + exists m. rewrite (proj1 (Hr k1)). split; [done|]. rewrite (proj2 (Hr k1)), Ek. done.
    + exists (write_mem (arg args 0) (le_bytes 4 (u32 code)) m). split.
      * unfold release. by destruct sl.
      * intros b Hb. cbn [fst]. rewrite (proj2 (Hr _)). cbn [k_mem k_set_mem]. unfold write_mem. case_bool_decide; [done|]. rewrite Ek. by apply Hm.
  - destruct (negb _); exists m; (split; [done|]); cbn; rewrite Ek; done.
Qed.

Lemma blind_settimeofday c args k m : current_task_is_user (k_sched k) = true -> (forall a, owns k a -> m a = k_mem k a) ->
  sys_settimeofday c args (k_set_mem m k) = sys_settimeofday c args k.
Proof.
  intros Hu Hm. unfold sys_settimeofday. cbn zeta. blind_fields k m. rewrite Ev. destruct (validate_user _ _ k) as [[]|e] eqn:E; [|done].
  pose proof (validate_user_spec _ _ _ E Hu) as Ho. cbn [k_mem k_set_mem]. rewrite !(word_owned k m Hm); [done|intros b Hb; apply Ho; lia..].
Qed.

(** The kernel part of a call, apart from the clock. *)
Lemma blind_calls sc h c args k : current_task_is_user (k_sched k) = true ->
  match sc with
  | SRead => blind (sys_read args) k | SWrite => blind (sys_write args) k | SOpen => blind (sys_open args) k
  | SClose => blind (sys_close args) k | SExit => blind (sys_exit args) k | SWait => blind (sys_wait args) k
  | SSeek => blind (sys_seek args) k | SMkdir => blind (sys_mkdir args) k | SUnlink => blind (sys_unlink args) k
  | SReaddir => blind (sys_readdir (dir_fuel h) args) k | SSignal => blind (sys_sigaction args) k | SKill => blind (sys_kill args) k
  | SGetTimeOfDay => blind (sys_gettimeofday c args) k | SPipe => blind (sys_pipe args) k | SDup2 => blind (sys_dup2 args) k
  | SChdir => blind (sys_chdir args) k | SGetcwd => blind (sys_getcwd args) k | _ => True
  end.
Proof.
  intros Hu. destruct sc; try done.
  - apply blind_read.
  - by apply blind_write.
  - apply (blind_str (fun path k => let '(k, r) := via_vfs (fun c => open c path (arg args 2)) k in
      (k, Replied (match r with Ok fd => fd | Err e => as_errno e end))) (fun e => Replied (as_errno e)) _ _ k Hu). intros path. apply blind_via.
  - apply blind_via.
  - apply blind_exit.
  - apply blind_wait.
  - unfold sys_seek. cbn zeta. destruct (if _ =? 0 then _ else _) as [pos|]; [apply blind_via|]. intros m Hm. by exists m.
  - apply (blind_str (fun path k => let '(k, r) := via_vfs (fun c => if arg args 2 =? 0x1000 then mkfifo c path else mkdir c path) k in
      (k, Replied (ret_unit r))) (fun e => Replied (as_errno e)) _ _ k Hu). intros path. apply blind_via.
  - apply (blind_str (fun path k => let '(k, r) := via_vfs (fun c => unlink c path) k in (k, Replied (ret_unit r))) (fun e => Replied (as_errno e)) _ _ k Hu).
    intros path. apply blind_via.
  - by apply blind_readdir.
  - by apply blind_sigaction.
  - apply blind_kill.
  - apply blind_gettimeofday.
  - apply blind_pipe.
  - apply blind_via.
  - by apply blind_chdir.
  - apply blind_getcwd.
Qed.

(** C13. A call of a user program learns nothing from memory that is not its own: of the
    calls that are neither [spawn] nor one of the eight of [elsewhere], and of every
    number that is no call: with any other bytes outside the stack and the data slot of
    the caller it answers the same and leaves the same kernel, the same clock and the
    same bytes in the memory of the caller. *)
Theorem syscall_noninterference h num args (c : Clock) k m :
  current_task_is_user (k_sched k) = true -> served num = true -> from_usize num <> Some SSpawn ->
  (forall a, owns k a -> m a = k_mem k a) ->
  exists c' k' r m', dispatch h num args c k = Some (c', k', r) /\
    dispatch h num args c (k_set_mem m k) = Some (c', k_set_mem m' k', r) /\ forall a, owns k a -> m' a = k_mem k' a.
Proof.
  intros Hu Hs Hn Hm. destruct (dispatch_served h num args c k Hs) as (c' & k' & r & E). exists c', k', r.
  rewrite E. unfold dispatch in *. destruct (from_usize num) as [sc|]; [|injection E as <- <- <-; by exists m].
  pose proof (blind_calls sc h c args k Hu) as Hb. rewrite blind_settimeofday by done. destruct (sys_settimeofday c args k) as [c1 r1].
  destruct sc; try done; injection E as <- <- <-; try by exists m.
  all: destruct (Hb m Hm) as (m' & E' & Hm'); exists m'; rewrite E'; done.
Qed.

(** ** The working directory *)

Lemma as_errno_neg e : as_errno e < 0.
Proof. by destruct e. Qed.

(** What reading the caller's memory sees of a write into a checked buffer. *)
Lemma read_put ptr n data k : len data <= n -> read_mem (k_mem (put_user ptr n data k)) ptr (length data) = data.
Proof. intros Hn. unfold put_user. cbn [k_mem k_set_mem]. rewrite firstn_all2 by lia. apply read_write_mem. Qed.

(** C15. [chdir] answers 0 exactly for a path that names a directory; the caller is then in
    that directory, written without [.], [..] or doubled slashes: [getcwd] answers it
    and every relative path starts from it.  Otherwise it fails and no process changes
    directory. *)
Theorem chdir_getcwd args k k' z pid p path :
  get_current_pid k = Some pid -> table (k_pt k) !! pid = Some p -> user_str (arg args 0) (arg args 1) k = Ok path ->
  sys_chdir args k = (k', Replied z) ->
  (z < 0 /\ k_pt k' = k_pt k /\ forall v dir, resolve (caller_of k) path (k_fds k) = (v, Ok dir) -> i_kind dir (v_world v) <> Dir) \/
  (z = 0 /\ exists norm dir v, normalize (caller_of k) path = Ok norm /\ resolve (caller_of k) path (k_fds k) = (v, Ok dir) /\
     i_kind dir (v_world v) = Dir /\
     table (k_pt k') !! pid = Some (set_cwd norm p) /\ (forall q, q <> pid -> table (k_pt k') !! q = table (k_pt k) !! q) /\
     (forall rel, starts_with_slash rel = false -> normalize (caller_of k') rel = normalize_against norm rel) /\
     forall ptr n, user_slice_mut ptr n k' = Ok tt ->
       (str_len norm <= n -> exists k2, sys_getcwd [ptr; n] k' = (k2, Replied (str_len norm)) /\
          read_mem (k_mem k2) ptr (length (as_bytes norm)) = as_bytes norm) /\
       (n < str_len norm -> sys_getcwd [ptr; n] k' = (k', Replied (as_errno InvalidArgument)))).
Proof.
  intros Hpid Hp Hpath. unfold sys_chdir. rewrite Hpath, via_vfs_eq.
  destruct (resolve (caller_of k) path (k_fds k)) as [v [dir|e]] eqn:Er; cbn [fst snd];
    [|intros [= <- <-]; left; split; [apply as_errno_neg|done]].
  case_bool_decide as Hd; cbn [negb]; [|intros [= <- <-]; left; split; [done|]; split; [done|]; by intros v' dir' [= <- <-]].
  unfold cwd_set. change (caller_of (k_set_fds v k)) with (caller_of k). change (get_current_pid (k_set_fds v k)) with (get_current_pid k).
  destruct (normalize (caller_of k) path) as [norm|e] eqn:En; [|unfold resolve, mbind, ST_bind, lift in Er; by rewrite En in Er].
  cbn [k_pt k_set_fds]. rewrite Hpid, Hp. intros [= <- <-]. right. split; [done|]. exists norm, dir, v.
  set (k' := k_set_pt _ _). assert (Ht : table (k_pt k') !! pid = Some (set_cwd norm p)) by (unfold k'; cbn; by rewrite lookup_alter_eq, Hp).
  assert (Hc : cwd_of_caller k' = Some norm).
  { unfold cwd_of_caller. change (get_current_pid k') with (get_current_pid k). rewrite Hpid. cbn [mbind option_bind]. by rewrite Ht. }
  split_and!; try done.
  - intros q Hq. unfold k'. cbn. by apply lookup_alter_ne.
  - intros rel Hrel. unfold normalize. rewrite Hrel. cbn. by rewrite Hc.
  - intros ptr n Hs. unfold sys_getcwd, cwd_get. change (arg [ptr; n] 0) with ptr. change (arg [ptr; n] 1) with n.
    rewrite Hc, Hs. cbn [default id]. cbn zeta.
    fold (str_len norm). split; intros Hn.
    + destruct (Z.ltb_spec n (str_len norm)); [lia|]. eexists. split; [reflexivity|]. by apply read_put.
    + destruct (Z.ltb_spec n (str_len norm)); [done|lia].
Qed.

(** ** Directories *)

(** What the shell makes of an entry. *)
Definition shown (e : DirEntry) : Z * list Z := (kind_to_u8 (de_kind e), as_bytes (de_name e)).
Definition rec_len (e : DirEntry) : Z := str_len (de_name e) + 11.
Definition recs_len (es : list DirEntry) : Z := foldr (fun e n => rec_len e + n) 0 es.
Definition short_name (e : DirEntry) : Prop := str_len (de_name e) < 2 ^ 16.

Lemma dirent_len e : len (dirent_bytes e) = rec_len e.
Proof. unfold dirent_bytes, rec_len, str_len. rewrite !length_app, !le_bytes_length. cbn [length]. lia. Qed.

Lemma recs_len_nonneg es : 0 <= recs_len es.
Proof. induction es as [|e es IH]; cbn [recs_len foldr]; [lia|]. fold (recs_len es). unfold rec_len, str_len. lia. Qed.

Lemma packed_cons e es : mjoin (dirent_bytes <$> e :: es) = dirent_bytes e ++ mjoin (dirent_bytes <$> es).
Proof. done. Qed.
Lemma recs_cons e es : recs_len (e :: es) = rec_len e + recs_len es.
Proof. done. Qed.
Lemma packed_len es : len (mjoin (dirent_bytes <$> es)) = recs_len es.
Proof. induction es as [|e es IH]; [done|]. rewrite packed_cons, recs_cons, length_app, Nat2Z.inj_add, dirent_len. lia. Qed.

(** The records that are packed are the longest run of entries that fits. *)
Lemma pack_entries_spec cap es : forall pos, 0 <= pos -> pos + recs_len es <= U32_MAX ->
  exists n, (n <= length es)%nat /\ pack_entries cap pos es = mjoin (dirent_bytes <$> take n es) /\
    (n = O \/ pos + recs_len (take n es) <= cap) /\ forall e, es !! n = Some e -> cap < pos + recs_len (take n es) + rec_len e.
Proof.
  induction es as [|e es IH]; intros pos Hp Hlen; cbn [pack_entries]; [exists O; split; [done|]; split; [done|]; split; [by left|done]|].
  rewrite recs_cons in Hlen. pose proof (recs_len_nonneg es).
  assert (0 <= str_len (de_name e)) by (unfold str_len; lia). unfold rec_len in Hlen.
  unfold checked_add32. destruct (Z.leb_spec (str_len (de_name e) + 11) U32_MAX); [cbn [mbind option_bind]|lia].
  destruct (Z.leb_spec (pos + (str_len (de_name e) + 11)) U32_MAX); [|lia]. fold (rec_len e).
  destruct (Z.leb_spec (pos + rec_len e) cap) as [Hc|Hc].
  - destruct (IH (pos + rec_len e)) as (n & N1 & N2 & N3 & N4); [unfold rec_len; lia|unfold rec_len; lia|]. exists (S n).
    split; [cbn; lia|]. cbn [take]. rewrite packed_cons, recs_cons, N2. split; [done|].
    split; [right; destruct N3 as [->|?]; [change (recs_len (take 0 es)) with 0|]; lia|]. intros x Hx. specialize (N4 x Hx). lia.
  - exists O. split; [lia|]. split; [done|]. split; [by left|]. intros x [= <-]. change (recs_len (take 0 _)) with 0. lia.
Qed.

Lemma dirent_header e : short_name e ->
  dirent_bytes e !! 8%nat = Some (kind_to_u8 (de_kind e)) /\ dirent_bytes e !! 9%nat = Some (str_len (de_name e) mod 256) /\
  dirent_bytes e !! 10%nat = Some (str_len (de_name e) / 256 mod 256).
Proof. unfold short_name. intros He. unfold dirent_bytes. rewrite Z.min_l by lia. done. Qed.

Lemma bget_at pre l i : 0 <= i < len l -> bget (pre ++ l) (len pre + i) = l !! Z.to_nat i.
Proof.
  intros Hi. unfold bget. rewrite length_app, (proj2 (Z.leb_le _ _)), (proj2 (Z.ltb_lt _ _)) by lia. cbn [andb].
  rewrite lookup_app_r by lia. f_equal. lia.
Qed.

(** The shell unpacks them, whatever follows in its buffer. *)
Lemma entries_loop_packed es : Forall short_name es -> forall pre post fuel, (length es <= fuel)%nat ->
  entries_loop (pre ++ mjoin (dirent_bytes <$> es) ++ post) (len pre) (len pre + recs_len es) fuel = Some (shown <$> es).
Proof.
  induction 1 as [|e es He Hes IH]; intros pre post fuel Hf.
  - unfold entries_loop; destruct fuel; cbn [recs_len foldr]; destruct (Z.leb_spec (len pre + 11) (len pre + 0)); try lia; done.
  - destruct fuel as [|fuel]; [cbn in Hf; lia|]. pose proof (recs_len_nonneg es). assert (0 <= str_len (de_name e)) by (unfold str_len; lia).
    rewrite packed_cons, recs_cons, <- app_assoc. unfold short_name in He. set (tail := mjoin _ ++ post). cbn [entries_loop fmap list_fmap].
    assert (Hd : forall i, 0 <= i < rec_len e -> bget (pre ++ dirent_bytes e ++ tail) (len pre + i) = dirent_bytes e !! Z.to_nat i).
    { intros i Hi. pose proof (dirent_len e). rewrite bget_at by (rewrite length_app; lia). rewrite lookup_app_l by lia. done. }
    unfold rec_len in *. destruct (Z.leb_spec (len pre + 11) (len pre + (str_len (de_name e) + 11 + recs_len es))); [|lia].
    destruct (dirent_header e He) as (D1 & D2 & D3). rewrite !Hd by lia. change (Z.to_nat 8) with 8%nat. change (Z.to_nat 9) with 9%nat. change (Z.to_nat 10) with 10%nat.
    rewrite D1, D2, D3. cbn [mbind option_bind].
    replace (str_len (de_name e) mod 256 + str_len (de_name e) / 256 mod 256 * 256) with (str_len (de_name e)) by (Z.div_mod_to_equations; lia).
    destruct (Z.ltb_spec (len pre + (str_len (de_name e) + 11 + recs_len es)) (len pre + 11 + str_len (de_name e))); [lia|].
    assert (Hsl : bslice (pre ++ dirent_bytes e ++ tail) (len pre + 11) (len pre + 11 + str_len (de_name e)) = Some (as_bytes (de_name e))).
    { pose proof (dirent_len e) as Hl. unfold rec_len in Hl. unfold bslice. rewrite !length_app. repeat (rewrite (proj2 (Z.leb_le _ _)) by lia). cbn [andb].
      unfold slice. rewrite drop_app_ge by lia. replace (Z.to_nat (len pre + 11) - length pre)%nat with 11%nat by lia. unfold dirent_bytes.
      rewrite !app_assoc, <- !app_assoc, (app_assoc (le_bytes 8 _)), (app_assoc (_ ++ _) (le_bytes 2 _)). rewrite drop_app_length' by (rewrite !length_app, !le_bytes_length; done).
      f_equal. rewrite take_app_le by (unfold str_len in *; lia). apply firstn_all2. unfold str_len. lia. }
    rewrite Hsl. cbn [mbind option_bind].
    replace (len pre + 11 + str_len (de_name e)) with (len (pre ++ dirent_bytes e)) by (rewrite length_app, Nat2Z.inj_add, dirent_len; unfold rec_len; lia).
    replace (len pre + (str_len (de_name e) + 11 + recs_len es)) with (len (pre ++ dirent_bytes e) + recs_len es)
      by (rewrite length_app, Nat2Z.inj_add, dirent_len; unfold rec_len; lia).
    rewrite app_assoc. unfold tail. rewrite IH by (cbn in Hf; lia). done.
Qed.

Lemma read_mem_app mem ptr a b : read_mem mem ptr (a + b) = read_mem mem ptr a ++ read_mem mem (ptr + Z.of_nat a) b.
Proof.
  unfold read_mem. rewrite seq_app, fmap_app. f_equal. apply list_eq. intros i. rewrite !list_lookup_fmap.
  destruct (decide (i < b)%nat); [rewrite !lookup_seq_lt by done; cbn; do 2 f_equal; lia|rewrite !lookup_seq_ge by lia; done].
Qed.

(** C16. The format of [readdir]: the caller finds in its buffer the longest run of
    entries that fits, each with its kind and its name, as the loop of the user shell
    unpacks them, whatever the rest of the buffer holds. *)
Theorem readdir_roundtrip fuel args k path v es fuel' :
  user_str (arg args 0) (arg args 1) k = Ok path -> user_slice_mut (arg args 2) (arg args 3) k = Ok tt -> 0 <= arg args 3 ->
  readdir (caller_of k) path fuel (k_fds k) = (v, Ok es) -> Forall short_name es -> recs_len es <= U32_MAX -> (length es <= fuel')%nat ->
  exists n k', sys_readdir fuel args k = (k', Replied (recs_len (take n es))) /\
    recs_len (take n es) <= arg args 3 /\ (forall e, es !! n = Some e -> arg args 3 < recs_len (take n es) + rec_len e) /\
    entries_loop (read_mem (k_mem k') (arg args 2) (Z.to_nat (arg args 3))) 0 (recs_len (take n es)) fuel' = Some (shown <$> take n es).
Proof.
  intros Hpath Hbuf Hcap Hes Hshort Hlen Hf. unfold sys_readdir. rewrite Hpath. cbn zeta. rewrite Hbuf, via_vfs_eq, Hes. cbn [fst snd].
  destruct (pack_entries_spec (arg args 3) es 0 ltac:(lia) Hlen) as (n & H1 & H2 & H3 & H4). rewrite H2, packed_len.
  assert (Hn : recs_len (take n es) <= arg args 3) by (destruct H3 as [->|?]; [done|lia]).
  exists n. eexists. split; [reflexivity|]. split; [done|]. split; [intros e He; specialize (H4 e He); lia|].
  set (out := mjoin _). assert (Hout : len out = recs_len (take n es)) by apply packed_len.
  replace (Z.to_nat (arg args 3)) with (length out + (Z.to_nat (arg args 3) - length out))%nat by lia.
  rewrite read_mem_app, read_put by lia.
  apply (entries_loop_packed (take n es)) with (pre := []); [by apply Forall_take|rewrite length_take; lia].
Qed.

(** ** The clock *)

(** The time of day that is set is the time of day that is read back, from the same
    instant on; a time before the start of the system is read as the start. *)
Theorem timeofday_roundtrip (c : Clock) sec usec args k ptr :
  0 <= sec < 2 ^ 31 -> 0 <= usec < 1000000 -> 0 <= uptime_us c <= U64_MAX ->
  read_word (k_mem k) (arg args 0) = sec -> read_word (k_mem k) (arg args 0 + 4) = usec ->
  validate_user (arg args 0) 8 k = Ok tt -> validate_user ptr 8 k = Ok tt ->
  let t := Z.max (sec * 1000000 + usec) (uptime_us c) in
  t / 1000000 < 2 ^ 32 ->
  exists c' k', sys_settimeofday c args k = (c', Replied 0) /\ sys_gettimeofday c' [ptr] k = (k', Replied 0) /\
    read_word (k_mem k') ptr = t / 1000000 /\ read_word (k_mem k') (ptr + 4) = t mod 1000000.
Proof.
  intros Hs Hu Hup Er1 Er2 Hv Hv'. cbn zeta. intros Ht. unfold sys_settimeofday, sys_gettimeofday. rewrite Hv. change (arg [ptr] 0) with ptr. rewrite Hv'.
  rewrite Er1, Er2. unfold as_i32. rewrite !(proj2 (Z.ltb_lt _ _)) by lia. eexists _, _. split; [reflexivity|]. split; [reflexivity|].
  set (t := Z.max _ _). cbn [uptime_us offset_us]. unfold i32_as_u64. rewrite !(proj2 (Z.ltb_ge _ _)) by lia.
  assert (Hto : saturating_add64 (uptime_us c) (saturating_sub (saturating_add64 (saturating_mul64 sec 1000000) usec) (uptime_us c)) = t).
  { unfold saturating_add64, saturating_mul64, saturating_sub, t. change U64_MAX with 18446744073709551615 in *.
    rewrite (Z.min_l (sec * 1000000)), (Z.min_l (sec * 1000000 + usec)) by lia.
    destruct (Z.leb_spec (uptime_us c) (sec * 1000000 + usec)); lia. }
  rewrite Hto. assert (0 <= t) by lia. rewrite !u32_small by (split; [Z.div_mod_to_equations; lia|Z.div_mod_to_equations; lia]).
  unfold put_user. cbn [k_mem k_set_mem]. rewrite firstn_all2 by (rewrite length_app, !le_bytes_length; lia).
  assert (Hw : forall x y m, 0 <= x < 2 ^ 32 -> 0 <= y < 2 ^ 32 ->
    read_word (write_mem ptr (le_bytes 4 x ++ le_bytes 4 y) m) ptr = x /\ read_word (write_mem ptr (le_bytes 4 x ++ le_bytes 4 y) m) (ptr + 4) = y).
  { intros x y m Hx Hy. pose proof (read_write_mem ptr (le_bytes 4 x ++ le_bytes 4 y) m) as Hr.
    rewrite length_app, !le_bytes_length, read_mem_app in Hr. apply app_inj_1 in Hr as [R1 R2]; [|by rewrite le_bytes_length].
    unfold read_word. rewrite R1. change (Z.of_nat 4) with 4 in R2. rewrite R2. by rewrite !of_le_le_bytes. }
  apply Hw; Z.div_mod_to_equations; lia.
Qed.

End SyscallFsOps.

(** ** Witnesses: one program, with the tiny file system of VfsSpec.v *)

(** The ends of a pipe that is never read: both are the file of that system. *)
#[export] Instance tiny_pipes : Pipes (FsState * nor_mem) EspNode := {| i_create_pipe := fun _ w => (w, (mkEspNode 2, mkEspNode 2)) |}.

(** Its stack holds the paths [/m/.], [/f], and [/], and a time of day. *)
Definition user_mem : Z -> Z :=
  write_mem 0x3FCA0100 (as_bytes "/m/.") (write_mem 0x3FCA0110 (as_bytes "/f") (write_mem 0x3FCA0120 (word 1000 ++ word 7) (fun _ => 0))).
Definition uk0 : Kernel SmallFrame (Vfs (FsState * nor_mem) EspNode) :=
  mkKernel (w_g (do_events test_boot test_events1)) (mkTable ∅ ∅ 1) 0 (mkVfs tiny_file ∅ (v_mounts (tiny_vfs []))) user_mem 0x3C000000.
Definition uk1 := (register_process "sh" 1 false None uk0).1.
Definition uk := k_set_fds (tiny_vfs [Some f_rdwr]) uk1.
Definition uhost : Host := {| link_data := 0; tramp := 0; heap := fun _ => None; dir_fuel := 10 |}.
Definition uclock : Clock := {| uptime_us := 5000000; offset_us := 0; heap_free := 100000 |}.

Lemma uk_ok : tables_ok (k_fds uk).
Proof. apply tiny_vfs_ok. Qed.

Lemma uk_inv : kernel_inv uk ∅.
Proof.
  assert (Hb : kernel_inv uk0 ∅) by (apply boot_inv; split; [done|]; split; [done|]; split; [done|]; split; [done|]; cbn; set_solver).
  assert (H1 : kernel_inv uk1 ∅) by (apply (kstep_inv (uk0, ∅) (uk1, ∅)); [apply (ks_register uk0 ∅ "sh" 1); vm_compute; done|exact Hb]).
  apply (own_call_inv uk1); [done|by intros p t Ht|]. split; try done. intros _. split; [apply uk_ok|]. split; [done|].
  intros p Hp. assert (p <> 1) by (intros ->; apply Hp; vm_compute; reflexivity). cbn. by apply lookup_singleton_ne.
Qed.

Definition ran (num : Z) (args : list Z) : Clock * Kernel SmallFrame (Vfs (FsState * nor_mem) EspNode) * Reply :=
  default (uclock, uk, Waits) (dispatch uhost num args uclock uk).
Definition covered (sc : Syscall) : bool :=
  match sc with SIoctl | SSigreturn | SSocket | SBind | SListen | SAccept | SConnect | SOtaState => false | _ => true end.
Lemma ran_eq num args sc : from_usize num = Some sc -> covered sc = true ->
  dispatch uhost num args uclock uk = Some ((ran num args).1.1, (ran num args).1.2, (ran num args).2).
Proof.
  intros E Hc. assert (H : is_Some (dispatch uhost num args uclock uk)).
  { unfold dispatch. rewrite E. destruct (sys_settimeofday uclock args uk). by destruct sc. }
  unfold ran. destruct H as [[[a b] c] ->]. done.
Qed.

(** [pipe] writes its two descriptors to the stack. *)
Lemma syscall_contained_witness :
  (ran 26 [0x3FCA0040]).2 = Replied 0 /\ k_mem (ran 26 [0x3FCA0040]).1.2 0x3FCA0044 = 2 /\ k_mem (ran 26 [0x3FCA0040]).1.2 0x3C000000 = 0.
Proof.
  split; [vm_compute; reflexivity|]. split; [vm_compute; reflexivity|].
  destruct (syscall_contained uhost 26 [0x3FCA0040] uclock uk ∅ uk_inv uk_ok eq_refl eq_refl ltac:(vm_compute; discriminate))
    as (c' & k' & r & E & H & _).
  pose proof (eq_trans (eq_sym E) (ran_eq 26 [0x3FCA0040] SPipe eq_refl eq_refl)) as Er.
  assert (Ek : k' = (ran 26 [0x3FCA0040]).1.2) by exact (f_equal (fun o => match o with Some (_, k, _) => k | None => uk end) Er). rewrite <- Ek.
  rewrite H; [vm_compute; reflexivity|]. unfold owns.
  assert (E1 : current_stack_range (k_sched uk) = Some (0x3FCA0000, 0x3FCA1000)) by (vm_compute; reflexivity).
  assert (E2 : current_slot uk = None) by (vm_compute; reflexivity). rewrite E1, E2.
  intros [(lo & hi & [= <- <-] & Ha)|(i & [=] & _)]. lia.
Defined.

Lemma calls_keep_wellformed_witness :
  (ran 2 [0x3FCA0110; 2; 1]).2 = Replied 1 /\ kernel_inv (ran 2 [0x3FCA0110; 2; 1]).1.2 ∅.
Proof.
  split; [vm_compute; reflexivity|].
  destruct (calls_keep_wellformed uhost 2 [0x3FCA0110; 2; 1] uclock uk ∅ uk_inv uk_ok ltac:(vm_compute; reflexivity) eq_refl)
    as (c' & k' & r & E & H).
  pose proof (eq_trans (eq_sym E) (ran_eq 2 [0x3FCA0110; 2; 1] SOpen eq_refl eq_refl)) as Er.
  assert (Ek : k' = (ran 2 [0x3FCA0110; 2; 1]).1.2) by exact (f_equal (fun o => match o with Some (_, k, _) => k | None => uk end) Er). rewrite <- Ek.
  apply H. left. vm_compute. discriminate.
Defined.

(** The same [write] with another byte outside the stack. *)
Lemma syscall_noninterference_witness :
  let other := fun a => if a =? 0x3C000000 then 99 else user_mem a in
  exists m', dispatch uhost 1 [0; 0x3FCA0100; 4] uclock (k_set_mem other uk) =
    Some ((ran 1 [0; 0x3FCA0100; 4]).1.1, k_set_mem m' (ran 1 [0; 0x3FCA0100; 4]).1.2, (ran 1 [0; 0x3FCA0100; 4]).2).
Proof.
  intros other. set (x := ran 1 [0; 0x3FCA0100; 4]).
  assert (Ho : forall a, owns uk a -> other a = k_mem uk a).
  { intros a Ha. unfold other. destruct (Z.eqb_spec a 0x3C000000) as [->|]; [|reflexivity]. exfalso. unfold owns in Ha.
    assert (E1 : current_stack_range (k_sched uk) = Some (0x3FCA0000, 0x3FCA1000)) by (vm_compute; reflexivity).
    assert (E2 : current_slot uk = None) by (vm_compute; reflexivity). rewrite E1, E2 in Ha.
    destruct Ha as [(lo & hi & [= <- <-] & Ha)|(i & [=] & _)]. lia. }
  destruct (syscall_noninterference uhost 1 [0; 0x3FCA0100; 4] uclock uk other eq_refl eq_refl ltac:(vm_compute; discriminate) Ho)
    as (c' & k' & r & m' & E1 & E & _).
  pose proof (eq_trans (eq_sym E1) (ran_eq 1 [0; 0x3FCA0100; 4] SWrite eq_refl eq_refl)) as Er.
  exists m'. assert (Ec : c' = x.1.1) by exact (f_equal (fun o => match o with Some (c, _, _) => c | None => c' end) Er).
  assert (Ek : k' = x.1.2) by exact (f_equal (fun o => match o with Some (_, k, _) => k | None => k' end) Er).
  assert (Err : r = x.2) by exact (f_equal (fun o => match o with Some (_, _, r) => r | None => r end) Er).
  rewrite <- Ec, <- Ek, <- Err. exact E.
Defined.

Definition uproc : Process SmallFrame := default (mkProcess 0 None 0 "" PRunning 0 [] None "" 0 [] [] None) (table (k_pt uk) !! 1).

Lemma chdir_getcwd_witness :
  exists k' k2, sys_chdir [0x3FCA0100; 4] uk = (k', Replied 0) /\ sys_getcwd [0x3FCA0000; 128] k' = (k2, Replied 2) /\
    read_mem (k_mem k2) 0x3FCA0000 2 = as_bytes "/m".
Proof.
  set (k' := (sys_chdir [0x3FCA0100; 4] uk).1).
  assert (E : sys_chdir [0x3FCA0100; 4] uk = (k', Replied 0)) by (apply st_parts; vm_compute; reflexivity).
  destruct (chdir_getcwd [0x3FCA0100; 4] uk k' 0 1 uproc "/m/." ltac:(vm_compute; reflexivity) ltac:(vm_compute; reflexivity)
    ltac:(vm_compute; reflexivity) E) as [[H _]|(_ & norm & dir & v & H1 & _ & _ & _ & _ & _ & H)]; [lia|].
  assert (En : norm = "/m"%string) by (vm_compute in H1; congruence). subst norm.
  destruct (H 0x3FCA0000 128 ltac:(vm_compute; reflexivity)) as [H2 _].
  destruct (H2 ltac:(vm_compute; discriminate)) as (k2 & E2 & E3). exists k', k2. split; [exact E|]. split; [exact E2|exact E3].
Defined.

Lemma readdir_roundtrip_witness :
  exists k', sys_readdir 10 [0x3FCA0110; 1; 0x3FCA0000; 20] uk = (k', Replied 12) /\
    entries_loop (read_mem (k_mem k') 0x3FCA0000 20) 0 12 20 = Some [(1, as_bytes "f")].
Proof.
  assert (Er : readdir (caller_of uk) "/" 10 (k_fds uk) = (k_fds uk, Ok [mkDirEntry "f" File 2; mkDirEntry "m" Dir 1]))
    by (apply st_parts; vm_compute; reflexivity).
  destruct (readdir_roundtrip 10 [0x3FCA0110; 1; 0x3FCA0000; 20] uk "/" (k_fds uk) [mkDirEntry "f" File 2; mkDirEntry "m" Dir 1] 20
    ltac:(vm_compute; reflexivity) ltac:(vm_compute; reflexivity) ltac:(vm_compute; discriminate) Er) as (n & k' & E & H1 & H2 & H3).
  - repeat constructor; vm_compute; done.
  - vm_compute. discriminate.
  - cbn. lia.
  - assert (n = 1%nat) as ->.
    { destruct n as [|[|n]]; [specialize (H2 _ eq_refl); vm_compute in H2; discriminate|done|].
      exfalso. apply H1. destruct n; reflexivity. }
    exists k'. split; [exact E|exact H3].
Defined.

Lemma timeofday_roundtrip_witness :
  exists c' k', sys_settimeofday uclock [0x3FCA0120] uk = (c', Replied 0) /\ sys_gettimeofday c' [0x3FCA0008] uk = (k', Replied 0) /\
    read_word (k_mem k') 0x3FCA0008 = 1000 /\ read_word (k_mem k') (0x3FCA0008 + 4) = 7.
Proof.
  exact (timeofday_roundtrip uclock 1000 7 [0x3FCA0120] uk 0x3FCA0008 ltac:(lia) ltac:(lia) ltac:(vm_compute; split; discriminate)
    ltac:(vm_compute; reflexivity) ltac:(vm_compute; reflexivity) ltac:(vm_compute; reflexivity) ltac:(vm_compute; reflexivity) ltac:(vm_compute; reflexivity)).
Defined.
