(* ===== verification/ShOps.v ===== *)
(** * ShOps: how the user shell splits a line

    The tokenizer that works in place against a lexer on lists, and what the helpers of
    the shell compute on every range of a buffer. *)

From S2P Require Import Prelude Text Sh.

Open Scope Z_scope.

(** ** Buffers as lists *)

(** [buf\[r..e\]], and a buffer with a text put at an offset. *)
Definition seg (l : list Z) (r e : nat) : list Z := take (e - r) (drop r l).
Definition overlay (l : list Z) (i : nat) (t : list Z) : list Z := take i l ++ t ++ drop (i + length t) l.

Lemma bget_nat l i : bget l (Z.of_nat i) = l !! i.
Proof.
  unfold bget. rewrite Nat2Z.id. destruct (decide (i < length l)%nat) as [H|H].
  - rewrite (proj2 (andb_true_iff _ _)); [done|]. split; lia.
  - rewrite (lookup_ge_None_2 l i) by lia. by destruct (_ && _).
Qed.
Lemma bset_nat l i v : (i < length l)%nat -> bset l (Z.of_nat i) v = Some (<[i := v]> l).
Proof. intros H. unfold bset. rewrite Nat2Z.id. rewrite (proj2 (andb_true_iff _ _)); [done|]. split; lia. Qed.

Lemma seg_cons l r e : (r < e <= length l)%nat -> exists c, l !! r = Some c /\ seg l r e = c :: seg l (S r) e.
Proof.
  intros H. destruct (lookup_lt_is_Some_2 l r ltac:(lia)) as [c Hc]. exists c. split; [done|].
  unfold seg. rewrite (drop_S l c r Hc). replace (e - r)%nat with (S (e - S r)) by lia. done.
Qed.
Lemma seg_nil l r e : (e <= r)%nat -> seg l r e = [].
Proof. intros H. unfold seg. by replace (e - r)%nat with 0%nat by lia. Qed.
Lemma seg_length l r e : (r <= e <= length l)%nat -> length (seg l r e) = (e - r)%nat.
Proof. intros H. unfold seg. rewrite length_take, length_drop. lia. Qed.
Lemma seg_insert l i v r e : (i < r)%nat -> seg (<[i := v]> l) r e = seg l r e.
Proof. intros H. unfold seg. by rewrite drop_insert_lt. Qed.
Lemma seg_drop l r e k : (r <= e)%nat -> (k <= e - r)%nat -> drop k (seg l r e) = seg l (r + k) e.
Proof. intros H1 H2. unfold seg. rewrite skipn_firstn_comm, drop_drop. f_equal; lia. Qed.

Lemma overlay_nil l i : overlay l i [] = l.
Proof. unfold overlay. cbn. by rewrite Nat.add_0_r, take_drop. Qed.
Lemma overlay_length l i t : (i + length t <= length l)%nat -> length (overlay l i t) = length l.
Proof. intros H. unfold overlay. rewrite !length_app, length_take, length_drop. lia. Qed.
Lemma overlay_cons l i c t : (i < length l)%nat -> overlay (<[i := c]> l) (S i) t = overlay l i (c :: t).
Proof.
  intros H. unfold overlay. rewrite (take_S_r _ i c) by (by apply list_lookup_insert_eq).
  rewrite take_insert_ge by lia. rewrite drop_insert_lt by lia. rewrite <- !app_assoc. cbn. do 3 f_equal. f_equal. lia.
Qed.
Lemma overlay_app l i s t : (i + length s + length t <= length l)%nat -> overlay (overlay l i s) (i + length s) t = overlay l i (s ++ t).
Proof.
  intros H. unfold overlay.
  assert (Hs : length (take i l ++ s) = (i + length s)%nat) by (rewrite length_app, length_take; lia).
  rewrite (app_assoc (take i l) s), take_app_length' by lia.
  rewrite drop_app_ge by lia. rewrite Hs, drop_drop, <- !app_assoc. do 4 f_equal. rewrite length_app. lia.
Qed.
Lemma seg_overlay l i t r e : (i + length t <= r)%nat -> (i + length t <= length l)%nat -> seg (overlay l i t) r e = seg l r e.
Proof.
  intros H1 H2. unfold seg, overlay. rewrite app_assoc, drop_app_ge by (rewrite length_app, length_take; lia).
  rewrite drop_drop. do 2 f_equal. rewrite length_app, length_take. lia.
Qed.
Lemma overlay_drop l i t k : (k <= i <= length l)%nat -> drop k (overlay l i t) = overlay (drop k l) (i - k) t.
Proof.
  intros H. unfold overlay. rewrite drop_app_le by (rewrite length_take; lia). rewrite skipn_firstn_comm, drop_drop.
  do 3 f_equal. lia.
Qed.

(** ** The reference lexer *)

(** The words of a text: spaces end a word except between quotes, and quotes, single or
    double, vanish.  [cur] is the word begun, [q] the quote that is open or 0. *)
Fixpoint words (l : list Z) (cur : option (list Z)) (q : Z) : list (list Z) :=
  match l with
  | [] => match cur with Some t => [t] | None => [] end
  | c :: l =>
    match cur with
    | None => if c =? 32 then words l None 0 else if is_quote c then words l (Some []) c else words l (Some [c]) 0
    | Some t =>
      if negb (q =? 0) then (if c =? q then words l (Some t) 0 else words l (Some (t ++ [c])) q)
      else if is_quote c then words l (Some t) c
      else if c =? 32 then t :: words l None 0
      else words l (Some (t ++ [c])) 0
    end
  end.
Definition lex (l : list Z) : list (list Z) := words l None 0.

(** The rest of one word and what is behind it. *)
Fixpoint tok (q : Z) (l : list Z) : list Z * list Z :=
  match l with
  | [] => ([], [])
  | c :: l' =>
    let push r := (c :: r.1, r.2) in
    if negb (q =? 0) then (if c =? q then tok 0 l' else push (tok q l'))
    else if is_quote c then tok c l'
    else if c =? 32 then ([], l)
    else push (tok 0 l')
  end.

Lemma words_tok l : forall t q, words l (Some t) q = (t ++ (tok q l).1) :: lex (drop 1 (tok q l).2).
Proof.
  induction l as [|c l IH]; intros t q; cbn [words tok]; [by rewrite app_nil_r|].
  destruct (negb (q =? 0)) eqn:Eq; [destruct (c =? q)|destruct (is_quote c); [|destruct (c =? 32)]]; cbn [fst snd];
    rewrite ?IH, <- ?app_assoc; try done.
  by rewrite app_nil_r.
Qed.

Lemma tok_length l : forall q, (length (tok q l).1 + length (tok q l).2 <= length l)%nat.
Proof.
  induction l as [|c l IH]; intros q; cbn [tok]; [done|].
  pose proof (IH 0); pose proof (IH q); pose proof (IH c).
  destruct (negb (q =? 0)); [destruct (c =? q)|destruct (is_quote c); [|destruct (c =? 32)]]; cbn [fst snd length]; lia.
Qed.

Lemma tok_suffix l : forall q, (tok q l).2 = drop (length l - length (tok q l).2) l.
Proof.
  induction l as [|c l IH]; intros q; cbn [tok]; [done|].
  assert (forall q', (tok q' l).2 = drop (S (length l) - length (tok q' l).2) (c :: l)) as Hc.
  { intros q'. pose proof (tok_length l q'). replace (S (length l) - length (tok q' l).2)%nat with (S (length l - length (tok q' l).2)) by lia.
    cbn. apply IH. }
  destruct (negb (q =? 0)); [destruct (c =? q)|destruct (is_quote c); [|destruct (c =? 32)]]; cbn [fst snd length]; auto.
  by rewrite Nat.sub_diag.
Qed.

Lemma tok_space l : forall q c rest, (tok q l).2 = c :: rest -> c = 32.
Proof.
  induction l as [|b l IH]; intros q c rest; cbn [tok]; [done|].
  destruct (negb (q =? 0)); [destruct (b =? q)|destruct (is_quote b); [|destruct (Z.eqb_spec b 32)]]; cbn [fst snd]; eauto.
  congruence.
Qed.

(** ** The tokenizer *)

Lemma token_loop_tok (e : nat) fuel : forall l (r w : nat) q,
  (w <= r <= e)%nat -> (e <= length l)%nat -> (e - r <= fuel)%nat ->
  token_loop l (Z.of_nat r) (Z.of_nat w) q (Z.of_nat e) fuel
  = Some (overlay l w (tok q (seg l r e)).1, Z.of_nat (e - length (tok q (seg l r e)).2), Z.of_nat (w + length (tok q (seg l r e)).1)).
Proof.
  induction fuel as [|fuel IH]; intros l r w q Hw Hl Hf.
  - assert (r = e) as -> by lia. cbn. rewrite Z.ltb_irrefl, (seg_nil l e e) by lia. cbn. rewrite overlay_nil. do 2 f_equal; [f_equal|]; lia.
  - destruct (decide (r = e)) as [->|Hr].
    { cbn. rewrite Z.ltb_irrefl, (seg_nil l e e) by lia. cbn. rewrite overlay_nil. do 2 f_equal; [f_equal|]; lia. }
    cbn [token_loop]. rewrite (proj2 (Z.ltb_lt _ _)) by lia. rewrite bget_nat.
    destruct (seg_cons l r e ltac:(lia)) as (c & Hc & Hs). rewrite Hc. cbn [mbind option_bind option_map]. rewrite Hs.
    assert (Hlen : length (seg l (S r) e) = (e - S r)%nat) by (apply seg_length; lia).
    assert (Hskip : forall q', token_loop l (Z.of_nat r + 1) (Z.of_nat w) q' (Z.of_nat e) fuel
       = Some (overlay l w (tok q' (seg l (S r) e)).1, Z.of_nat (e - length (tok q' (seg l (S r) e)).2), Z.of_nat (w + length (tok q' (seg l (S r) e)).1))).
    { intros q'. replace (Z.of_nat r + 1) with (Z.of_nat (S r)) by lia. apply IH; lia. }
    assert (Hpush : forall q', (b ← bset l (Z.of_nat w) c; token_loop b (Z.of_nat r + 1) (Z.of_nat w + 1) q' (Z.of_nat e) fuel)
       = Some (overlay l w (c :: (tok q' (seg l (S r) e)).1), Z.of_nat (e - length (tok q' (seg l (S r) e)).2), Z.of_nat (w + S (length (tok q' (seg l (S r) e)).1)))).
    { intros q'. rewrite bset_nat by lia. cbn. replace (Z.of_nat r + 1) with (Z.of_nat (S r)) by lia. replace (Z.of_nat w + 1) with (Z.of_nat (S w)) by lia.
      rewrite IH by (rewrite ?length_insert; lia). rewrite seg_insert, overlay_cons by lia. do 2 f_equal. lia. }
    cbn [tok]. destruct (negb (q =? 0)); [destruct (c =? q)|destruct (is_quote c); [|destruct (c =? 32)]]; cbn [fst snd length]; auto.
    rewrite overlay_nil, Hlen. do 3 f_equal; [f_equal|]; lia.
Qed.

Lemma skip_spaces_spec (e : nat) l fuel : forall r : nat, (r <= e <= length l)%nat -> (e - r <= fuel)%nat ->
  exists r' : nat, skip_spaces l (Z.of_nat r) (Z.of_nat e) fuel = Some (Z.of_nat r') /\ (r <= r' <= e)%nat /\
    lex (seg l r e) = lex (seg l r' e) /\ ((r' < e)%nat -> exists c, l !! r' = Some c /\ c <> 32).
Proof.
  induction fuel as [|fuel IH]; intros r Hr Hf.
  - exists r. assert (r = e) as -> by lia. cbn. rewrite Z.ltb_irrefl. repeat split; lia.
  - cbn [skip_spaces]. destruct (decide (r = e)) as [->|Hne].
    { exists e. rewrite Z.ltb_irrefl. repeat split; lia. }
    rewrite (proj2 (Z.ltb_lt _ _)) by lia. rewrite bget_nat.
    destruct (seg_cons l r e ltac:(lia)) as (c & Hc & Hs). rewrite Hc, Hs. cbn [mbind option_bind].
    destruct (Z.eqb_spec c 32) as [->|Hn].
    + replace (Z.of_nat r + 1) with (Z.of_nat (S r)) by lia. destruct (IH (S r)) as (r' & E & ? & ? & ?); [lia..|].
      exists r'. rewrite E. repeat split; try lia; auto.
    + exists r. rewrite Hs. repeat split; try lia. eauto.
Qed.

(** Where the words are, one behind the other with their NUL. *)
Definition flat (ws : list (list Z)) : list Z := concat ((fun w => w ++ [0]) <$> ws).
Fixpoint offsets (off : Z) (ws : list (list Z)) : list Z :=
  match ws with [] => [] | w :: ws => off :: offsets (off + len w + 1) ws end.

Lemma lex_word c l : c <> 32 -> lex (c :: l) = (tok 0 (c :: l)).1 :: lex (drop 1 (tok 0 (c :: l)).2).
Proof.
  intros Hc. unfold lex. cbn [words tok]. rewrite (proj2 (Z.eqb_neq _ _) Hc). change (negb (0 =? 0)) with false. cbn match.
  destruct (is_quote c); rewrite words_tok; done.
Qed.

Lemma flat_words l : forall cur q, (length (flat (words l cur q)) <= length l + match cur with Some t => length t | None => 0 end + 1)%nat.
Proof.
  assert (Hf : forall t ws, length (flat (t :: ws)) = (length t + 1 + length (flat ws))%nat).
  { intros t ws. unfold flat. cbn. rewrite !length_app. cbn. lia. }
  induction l as [|c l IH]; intros [t|] q; cbn [words length]; rewrite ?Hf; cbn; try lia.
  - destruct (negb (q =? 0)); [destruct (c =? q)|destruct (is_quote c); [|destruct (c =? 32)]]; rewrite ?Hf;
      match goal with |- context [words l ?a ?b] => pose proof (IH a b) as Hi end; cbn in Hi; rewrite ?length_app in Hi; cbn in Hi; lia.
  - destruct (c =? 32); [|destruct (is_quote c)]; match goal with |- context [words l ?a ?b] => pose proof (IH a b) as Hi end; cbn in Hi; lia.
Qed.
Lemma flat_take n ws : (length (flat (take n ws)) <= length (flat ws))%nat.
Proof.
  rewrite <- (take_drop n ws) at 2. unfold flat. rewrite fmap_app, concat_app, length_app. lia.
Qed.

Lemma tokens_loop_lex (e : nat) fuel : forall l (r w : nat) offs,
  (r < e -> w <= r)%nat -> (r <= e)%nat -> (e < length l)%nat -> (e - r <= fuel)%nat -> len offs <= 15 ->
  let ws := lex (seg l r e) in
  tokens_loop l (Z.of_nat r) (Z.of_nat w) (Z.of_nat e) offs fuel
  = Some (overlay l w (flat (take (15 - length offs) ws)), if len offs + len ws <=? 15 then Some (offs ++ offsets (Z.of_nat w) ws) else None).
Proof.
  induction fuel as [|fuel IH]; intros l r w offs Hw Hr Hl Hf Ho ws; unfold ws.
  { assert (r = e) as -> by lia. cbn. rewrite Z.ltb_irrefl, (seg_nil l e e) by lia. cbn. rewrite take_nil. cbn. rewrite overlay_nil, app_nil_r.
    by rewrite (proj2 (Z.leb_le _ _)) by (cbn; lia). }
  assert (Hdone : r = e \/ lex (seg l r e) = [] -> Some (l, Some offs) = Some (overlay l w (flat (take (15 - length offs) (lex (seg l r e)))),
     if len offs + len (lex (seg l r e)) <=? 15 then Some (offs ++ offsets (Z.of_nat w) (lex (seg l r e))) else None)).
  { intros [->| ->]; [rewrite (seg_nil l e e) by lia|]; cbn; rewrite take_nil; cbn; rewrite overlay_nil, app_nil_r;
      by rewrite (proj2 (Z.leb_le _ _)) by (cbn; lia). }
  cbn [tokens_loop]. destruct (decide (r = e)) as [->|Hne]; [rewrite Z.ltb_irrefl; auto|].
  rewrite (proj2 (Z.ltb_lt _ _)) by lia.
  destruct (skip_spaces_spec e l (length l) r) as (r' & Es & Hr' & Hlex & Hc'); [lia..|]. rewrite Es. cbn [mbind option_bind].
  destruct (Z.leb_spec (Z.of_nat e) (Z.of_nat r')) as [Hend|Hin].
  { apply Hdone. right. rewrite Hlex, seg_nil by lia. done. }
  destruct (Hc' ltac:(lia)) as (c & Hlc & Hc32). rewrite Hlex.
  destruct (seg_cons l r' e ltac:(lia)) as (c0 & Hc0 & Hs). assert (c0 = c) as -> by congruence.
  pose proof (lex_word c (seg l (S r') e) Hc32) as Hwd. rewrite <- Hs in Hwd. rewrite Hwd.
  set (t := (tok 0 (seg l r' e)).1) in *. set (rest := (tok 0 (seg l r' e)).2) in *.
  pose proof (tok_length (seg l r' e) 0) as Hlen. fold t rest in Hlen. rewrite seg_length in Hlen by lia.
  assert (Hrest : rest = seg l (e - length rest) e).
  { unfold rest at 1. rewrite tok_suffix. fold rest. rewrite seg_length, seg_drop by lia. f_equal. lia. }
  unfold MAX_ARGV. destruct (Z.leb_spec 16 (len offs + 1)) as [Hfull|Hroom].
  { replace (15 - length offs)%nat with 0%nat by (lia). cbn. rewrite overlay_nil.
    rewrite (proj2 (Z.leb_gt _ _)) by (cbn; lia). done. }
  rewrite token_loop_tok by lia. fold t rest. cbn [mbind option_bind].
  assert (Htl : (w + length t < length l)%nat) by lia.
  rewrite bset_nat by (rewrite overlay_length; lia). cbn [mbind option_bind].
  assert (Hov : <[(w + length t)%nat := 0]> (overlay l w t) = overlay l w (t ++ [0])).
  { rewrite <- (overlay_nil (<[_ := _]> _) (S (w + length t))). rewrite overlay_cons by (rewrite overlay_length; lia).
    by rewrite overlay_app by (cbn; lia). }
  rewrite Hov. set (l1 := overlay l w (t ++ [0])).
  assert (Hl1 : length l1 = length l) by (apply overlay_length; rewrite length_app; cbn; lia).
  set (r1 := if Z.of_nat (e - length rest) <? Z.of_nat e then Z.of_nat (e - length rest) + 1 else Z.of_nat (e - length rest)).
  assert (Hr1 : exists n : nat, r1 = Z.of_nat n /\ (r < n <= e)%nat /\ (n < e -> w + length t < n)%nat /\ seg l1 n e = drop 1 rest).
  { unfold r1. destruct rest as [|s rest'] eqn:Er.
    - exists e. cbn. rewrite (proj2 (Z.ltb_ge _ _)) by lia. split; [lia|]. split; [lia|]. split; [lia|]. by rewrite seg_nil by lia.
    - exists (S (e - length rest)). rewrite Er. cbn [length] in *. rewrite (proj2 (Z.ltb_lt _ _)) by lia. split; [lia|].
      assert (length rest' <= e)%nat by lia. split; [lia|]. split; [lia|].
      unfold l1. rewrite seg_overlay by (rewrite length_app; cbn; lia). rewrite Hrest at 1.
      rewrite seg_drop by lia. f_equal. lia. }
  destruct Hr1 as (n & -> & Hn & Hwn & Hsn).
  replace (Z.of_nat (w + length t) + 1) with (Z.of_nat (w + length t + 1)) by lia.
  rewrite (IH l1 n (w + length t + 1)%nat (offs ++ [Z.of_nat w])) by (rewrite ?length_app; cbn; lia).
  rewrite Hsn. set (ws' := lex (drop 1 rest)).
  assert (Hl2 : (w + length t + 1 + length (flat (take (15 - length (offs ++ [Z.of_nat w])) ws')) <= length l)%nat).
  { etransitivity; [apply Nat.add_le_mono_l, flat_take|]. pose proof (flat_words (drop 1 rest) None 0) as Hfl. fold (lex (drop 1 rest)) ws' in Hfl.
    destruct (decide (n = e)) as [->|Hne']; [|rewrite <- Hsn, seg_length in Hfl by lia; lia].
    unfold ws'. rewrite <- Hsn, seg_nil by lia. cbn. lia. }
  f_equal. f_equal.
  - unfold l1. replace (w + length t + 1)%nat with (w + length (t ++ [0%Z]))%nat by (rewrite length_app; cbn; lia).
    rewrite overlay_app by (rewrite length_app; cbn; lia). f_equal.
    replace (15 - length offs)%nat with (S (15 - length (offs ++ [Z.of_nat w]))) by (rewrite length_app; cbn; lia).
    cbn [take]. unfold flat at 2. cbn. unfold flat. by rewrite <- app_assoc.
  - cbn [offsets]. rewrite <- app_assoc. cbn [app].
    replace (Z.of_nat w + len t + 1) with (Z.of_nat (w + length t + 1)) by lia.
    replace (len (offs ++ [Z.of_nat w]) + len ws') with (len offs + len (t :: ws')) by (rewrite length_app; cbn [length]; lia).
    done.
Qed.

(** ** The whole call *)

Lemma cstr_word w rest : ~ 0 ∈ w -> cstr (w ++ 0 :: rest) = w.
Proof.
  induction w as [|b w IH]; cbn; [done|]. rewrite not_elem_of_cons. intros [Hb Hn]. rewrite (proj2 (Z.eqb_neq _ _)) by done. by rewrite IH.
Qed.

Lemma words_no_nul l : ~ 0 ∈ l -> forall cur q, (forall t, cur = Some t -> ~ 0 ∈ t) -> Forall (fun w => ~ 0 ∈ w) (words l cur q).
Proof.
  induction l as [|c l IH]; intros Hl cur q Hc; cbn [words].
  - destruct cur; [constructor; eauto|]; constructor.
  - rewrite not_elem_of_cons in Hl. destruct Hl as [H0 Hl].
    assert (Hpush : forall t, ~ 0 ∈ t -> forall t', Some (t ++ [c]) = Some t' -> ~ 0 ∈ t').
    { intros t Ht t' [= <-]. rewrite elem_of_app, list_elem_of_singleton. naive_solver. }
    destruct cur as [t|]; repeat case_match; repeat constructor; try apply IH; eauto; try naive_solver.
    + intros t [= <-]. apply not_elem_of_nil.
    + apply (Hpush []), not_elem_of_nil.
Qed.

Lemma cstr_offsets ws : forall l (i : nat), Forall (fun w => ~ 0 ∈ w) ws -> (i + length (flat ws) <= length l)%nat ->
  cstr_at (overlay l i (flat ws)) <$> offsets (Z.of_nat i) ws = ws.
Proof.
  induction ws as [|w ws IH]; intros l i Hw Hi; [done|]. apply Forall_cons in Hw as [Hw Hws]. cbn [offsets fmap list_fmap].
  assert (Hfl : flat (w :: ws) = (w ++ [0]) ++ flat ws) by done. rewrite Hfl in *. rewrite length_app in Hi.
  assert (H1 : length (w ++ [0]) = S (length w)) by (rewrite length_app; cbn; lia). f_equal.
  - unfold cstr_at. rewrite Nat2Z.id, overlay_drop, Nat.sub_diag by lia. unfold overlay. cbn. rewrite <- !app_assoc. by apply cstr_word.
  - replace (Z.of_nat i + len w + 1) with (Z.of_nat (i + length (w ++ [0]))) by lia.
    rewrite <- overlay_app by lia. apply IH; [done|]. rewrite overlay_length; lia.
Qed.

Lemma slice_seg s e l : 0 <= s <= e -> slice s (e - s) l = seg l (Z.to_nat s) (Z.to_nat e).
Proof. intros H. unfold slice, seg. f_equal. lia. Qed.

Lemma tokenize_lex l s e : 0 <= s <= e -> e < len l ->
  let ws := lex (slice s (e - s) l) in
  let l' := overlay l (Z.to_nat s) (flat (take 15 ws)) in
  tokenize l s e = Some (l', if len ws <=? 15 then Some (offsets s ws) else None) /\
  s + len (flat (take 15 ws)) <= e + 1 /\
  (~ 0 ∈ slice s (e - s) l -> len ws <= 15 -> cstr_at l' <$> offsets s ws = ws).
Proof.
  intros Hs He. cbv zeta. rewrite slice_seg by done.
  pose proof (tokens_loop_lex (Z.to_nat e) (length l) l (Z.to_nat s) (Z.to_nat s) []) as Ht.
  pose proof (flat_words (seg l (Z.to_nat s) (Z.to_nat e)) None 0) as Hf. rewrite seg_length in Hf by lia.
  fold (lex (seg l (Z.to_nat s) (Z.to_nat e))) in Hf. set (w := lex (seg _ _ _)) in *.
  assert (Hfit : s + len (flat (take 15 w)) <= e + 1) by (pose proof (flat_take 15 w) as Hft; lia).
  split_and!; [|done|].
  - unfold tokenize. rewrite <- (Z2Nat.id s), <- (Z2Nat.id e), Ht by (cbn; lia). fold w. cbn [length app]. rewrite !Nat2Z.id.
    replace (len (@nil Z) + len w) with (len w) by (cbn; lia). done.
  - intros H0 H15. rewrite <- (Z2Nat.id s) at 2 by lia. rewrite take_ge in * by lia. apply cstr_offsets; [|lia].
    by apply words_no_nul.
Qed.

(** C38. [tokenize] is the reference lexer, in place: with up to 15 words it leaves each
    of them with its NUL, one behind the other from the start of the range, and answers
    where they begin; with more it gives up behind the fifteenth.  It never reaches past
    the byte behind the range, so in the line buffer of 65 bytes it cannot panic, and
    reading the strings back at the offsets gives exactly the words of the line. *)
Theorem tokenize_correct l s e : 0 <= s <= e -> e < len l ->
  let ws := lex (slice s (e - s) l) in
  let l' := overlay l (Z.to_nat s) (flat (take 15 ws)) in
  tokenize l s e = Some (l', if len ws <=? 15 then Some (offsets s ws) else None) /\
  s + len (flat (take 15 ws)) <= e + 1 /\
  (~ 0 ∈ slice s (e - s) l -> len ws <= 15 -> cstr_at l' <$> offsets s ws = ws).
Proof. apply tokenize_lex. Qed.

(** [ls "a b" 'c'd ; x] up to the semicolon, in the buffer of the shell. *)
Definition sample_line : list Z :=
  as_bytes "ls " ++ [34] ++ as_bytes "a b" ++ [34] ++ as_bytes " 'c'd ; x" ++ replicate 47 0.
Lemma tokenize_correct_witness :
  0 <= 0 <= 14 /\ 14 < len sample_line /\
  (cstr_at (overlay sample_line 0 (flat (take 15 (lex (slice 0 14 sample_line))))) <$> offsets 0 (lex (slice 0 14 sample_line)))
  = as_bytes <$> ["ls"; "a b"; "cd"]%string.
Proof.
  split_and!; [lia..|by vm_compute|].
  destruct (tokenize_correct sample_line 0 14 ltac:(lia) ltac:(by vm_compute)) as (_ & _ & H).
  etransitivity; [apply H|by vm_compute].
  - apply (bool_decide_eq_false_1 _). by vm_compute.
  - by vm_compute.
Defined.
