(* ===== verification/ShWp.v ===== *)
(** * ShWp: weakest preconditions for the user shell

    A program of the shell ends without a panic in a state: the rules, the helpers that
    cannot panic within their buffer, and the programs that change nothing of an observed
    part of the world. *)

From Stdlib Require Import Ascii.
From S2P Require Import Prelude Text Sh ShOps.

Open Scope Z_scope.

(** ** Weakest preconditions, for programs that end without a panic *)

Definition wp {W A} (m : Prog W A) (Q : W -> A -> Prop) (w : W) : Prop := exists w' a, m w = Done (w', a) /\ Q w' a.

Section wp.
Context {W : Type}.
Implicit Types w : W.
Lemma wp_ret {A} (a : A) (Q : W -> A -> Prop) w : Q w a -> wp (mret a : Prog W A) Q w.
Proof. intros H. by exists w, a. Qed.
Lemma wp_bind {A B} (m : Prog W A) (f : A -> Prog W B) Q w : wp m (fun w' a => wp (f a) Q w') w -> wp (m ≫= f) Q w.
Proof. intros (w1 & a & E & w2 & b & E' & H). exists w2, b. split; [|done]. unfold mbind, Prog_bind. by rewrite E. Qed.
Lemma wp_mono {A} (m : Prog W A) (P Q : W -> A -> Prop) w : wp m P w -> (forall w' a, P w' a -> Q w' a) -> wp m Q w.
Proof. intros (w1 & a & E & H) HPQ. exists w1, a. auto. Qed.
Lemma wp_call {A} (f : W -> W * A) (Q : W -> A -> Prop) w : Q (f w).1 (f w).2 -> wp (call f) Q w.
Proof. intros H. exists (f w).1, (f w).2. split; [|done]. unfold call. by destruct (f w). Qed.
Lemma wp_run {A} (f : W -> W * A) (Q : W -> unit -> Prop) w : Q (f w).1 tt -> wp (run f) Q w.
Proof. intros H. by exists (f w).1, tt. Qed.
Lemma wp_pure {A} (o : option A) a (Q : W -> A -> Prop) w : o = Some a -> Q w a -> wp (pure o) Q w.
Proof. intros -> H. by exists w, a. Qed.
Lemma wp_when b (m : Prog W unit) (Q : W -> unit -> Prop) w : (b = true -> wp m Q w) -> (b = false -> Q w tt) -> wp (when b m) Q w.
Proof. intros H1 H2. destruct b; [by apply H1|]. by apply wp_ret, H2. Qed.
End wp.

(** ** The helpers of the shell do not panic within the buffer *)

Lemma trim_front_total l e fuel : forall s, 0 <= s <= e -> e <= len l -> (Z.to_nat (e - s) <= fuel)%nat ->
  exists s', trim_front l s e fuel = Some s' /\ s <= s' <= e.
Proof.
  induction fuel as [|fuel IH]; intros s Hs He Hf; cbn [trim_front].
  - assert (s = e) as -> by lia. exists e. rewrite Z.ltb_irrefl. split; [done|lia].
  - destruct (Z.ltb_spec s e); [|exists s; split; [done|lia]].
    rewrite <- (Z2Nat.id s), bget_nat by lia. destruct (lookup_lt_is_Some_2 l (Z.to_nat s)) as [c ->]; [lia|]. cbn. rewrite Z2Nat.id by lia.
    destruct (blank c); [|exists s; split; [done|lia]].
    destruct (IH (s + 1)) as (s' & E & ?); [lia..|]. exists s'. split; [done|lia].
Qed.
Lemma trim_back_total l s fuel : forall e, 0 <= s <= e -> e <= len l -> (Z.to_nat (e - s) <= fuel)%nat ->
  exists e', trim_back l s e fuel = Some e' /\ s <= e' <= e.
Proof.
  induction fuel as [|fuel IH]; intros e Hs He Hf; cbn [trim_back].
  - assert (s = e) as -> by lia. exists e. rewrite Z.ltb_irrefl. split; [done|lia].
  - destruct (Z.ltb_spec s e); [|exists e; split; [done|lia]].
    replace (e - 1) with (Z.of_nat (Z.to_nat (e - 1))) by lia. rewrite bget_nat. destruct (lookup_lt_is_Some_2 l (Z.to_nat (e - 1))) as [c ->]; [lia|]. cbn. rewrite Z2Nat.id by lia.
    destruct (blank c); [|exists e; split; [done|lia]].
    destruct (IH (e - 1)) as (e' & E & ?); [lia..|]. exists e'. split; [done|lia].
Qed.
Lemma trim_total l s e : 0 <= s <= e -> e <= len l -> exists s' e', trim l s e = Some (s', e') /\ s <= s' <= e' /\ e' <= e.
Proof.
  intros Hs He. unfold trim. destruct (trim_front_total l e (length l) s) as (s' & -> & ?); [lia..|]. cbn.
  destruct (trim_back_total l s' (length l) e) as (e' & -> & ?); [lia..|]. cbn. exists s', e'. split; [done|lia].
Qed.

Lemma find_top_total l a b d : 0 <= a -> b <= len l -> exists r, find_top l a b d = Some r /\ forall i, r = Some i -> a <= i < b.
Proof.
  unfold find_top. intros Ha Hb. assert (Hf : (Z.to_nat (b - a) <= length l)%nat) by lia. revert Hf. generalize (length l) 0. intros fuel.
  revert a Ha. induction fuel as [|fuel IH]; intros a Ha q Hf; cbn [find_loop].
  - rewrite (proj2 (Z.ltb_ge _ _)) by lia. by eexists.
  - destruct (Z.ltb_spec a b); [|by eexists].
    rewrite <- (Z2Nat.id a), bget_nat by lia. destruct (lookup_lt_is_Some_2 l (Z.to_nat a)) as [c ->]; [lia|]. cbn. rewrite Z2Nat.id by lia.
    destruct (_ && _ && _); [exists (Some a); split; [done|intros i [= <-]; lia]|].
    destruct (IH (a + 1) ltac:(lia) (next_quote q c) ltac:(lia)) as (r & E & Hr). exists r. split; [done|]. intros i Hi. apply Hr in Hi. lia.
Qed.

Lemma bget_total l i : 0 <= i < len l -> exists c, bget l i = Some c.
Proof. intros H. rewrite <- (Z2Nat.id i), bget_nat by lia. apply lookup_lt_is_Some_2. lia. Qed.
Lemma bslice_total l a b : 0 <= a <= b -> b <= len l -> bslice l a b = Some (slice a (b - a) l).
Proof. intros H1 H2. unfold bslice. by rewrite (proj2 (Z.leb_le 0 a)), (proj2 (Z.leb_le a b)), (proj2 (Z.leb_le b _)) by lia. Qed.

(** A redirection lies behind the command and inside the range. *)
Definition redir_in (a b : Z) (r : option (Z * Z * bool)) : Prop := match r with Some (ts, te, _) => a <= ts <= te /\ te <= b | None => True end.
Lemma parse_redirect_total l a b : 0 <= a <= b -> b <= len l -> exists i r, parse_redirect l a b = Some ((a, i), r) /\ a <= i <= b /\ redir_in i b r.
Proof.
  intros Ha Hb. unfold parse_redirect. destruct (find_top_total l a b 62) as ([i|] & -> & Hi); [lia..| |]; cbn.
  2: { exists b, None. split_and!; (done || lia). }
  specialize (Hi i eq_refl).
  assert (exists ap, (if i + 1 <? b then c ← bget l (i + 1); Some (c =? 62) else Some false) = Some ap /\ (ap = true -> i + 1 < b)) as (ap & -> & Hap).
  { destruct (Z.ltb_spec (i + 1) b); [|by exists false]. destruct (bget_total l (i + 1)) as [c ->]; [lia|]. cbn. by eexists. }
  cbn. set (after := if ap then i + 2 else i + 1). assert (i < after <= b) by (unfold after; destruct ap; [specialize (Hap eq_refl)|]; lia).
  destruct (trim_total l after b) as (ts & te0 & -> & ? & ?); [lia..|]. cbn.
  destruct (find_top_total l ts te0 32) as (te & -> & Hte); [lia..|]. cbn. exists i, (Some (ts, default te0 te, ap)).
  split_and!; [done|lia..|]. cbn. destruct te as [te|]; cbn; [specialize (Hte te eq_refl)|]; lia.
Qed.

(** ** Programs that keep what is observed *)

(** What an observer of a world does not see: the calls that only wait, write, list or
    ask, whose answers are in range. *)
Class Observer {W X : Type} {HO : ShOs W} (f : W -> X) := {
  obs_waitpid o w : f (os_waitpid o w).1 = f w;
  obs_write fd d w : f (os_write fd d w).1 = f w;
  obs_readdir p n w : let '(w', (r, d)) := os_readdir p n w in f w' = f w /\ r <= n /\ bytes_ok d;
  obs_chdir p w : f (os_chdir p w).1 = f w;
  obs_getcwd n w : let '(w', (r, d)) := os_getcwd n w in f w' = f w /\ r <= n;
  obs_uptime w : f (os_uptime w).1 = f w;
  obs_yield w : f (os_yield w) = f w;
}.

Definition silent {W X A} (view : W -> X) (m : Prog W A) : Prop :=
  forall w (Q : W -> A -> Prop), (forall w' a, view w' = view w -> Q w' a) -> wp m Q w.

Section silent.
Context {W X : Type} {HO : ShOs W} (view : W -> X) {HV : Observer view}.
Implicit Types w : W.
Lemma silent_ret {A} (a : A) : silent view (mret a).
Proof. intros w Q H. by apply wp_ret, H. Qed.
Lemma silent_bind {A B} (m : Prog W A) (f : A -> Prog W B) : silent view m -> (forall a, silent view (f a)) -> silent view (m ≫= f).
Proof. intros Hm Hf w Q H. apply wp_bind, Hm. intros w' a Hw. apply Hf. intros w'' b Hw'. apply H. congruence. Qed.
Lemma silent_call {A} (f : W -> W * A) : (forall w, view (f w).1 = view w) -> silent view (call f).
Proof. intros Hf w Q H. by apply wp_call, H. Qed.
Lemma silent_run {A} (f : W -> W * A) : (forall w, view (f w).1 = view w) -> silent view (run f).
Proof. intros Hf w Q H. by apply wp_run, H. Qed.
Lemma silent_when b (m : Prog W unit) : silent view m -> silent view (when b m).
Proof. intros Hm. destruct b; [done|apply silent_ret]. Qed.
Lemma silent_pure {A} (o : option A) : is_Some o -> silent view (pure o).
Proof. intros [a ->] w Q H. by eapply wp_pure, H. Qed.
Lemma silent_print pieces : silent view (print pieces).
Proof. induction pieces; cbn; [apply silent_ret|]. apply silent_bind; [apply silent_call, obs_write|done]. Qed.
Lemma silent_println pieces : silent view (println pieces).
Proof. apply silent_print. Qed.
Lemma silent_say s : silent view (say s).
Proof. apply silent_print. Qed.
Lemma wp_silent {A} (m : Prog W A) (Q : W -> A -> Prop) w v : silent view m -> view w = v -> (forall w' a, view w' = v -> Q w' a) -> wp m Q w.
Proof. intros Hm <- H. apply Hm. auto. Qed.
End silent.
Create HintDb silent.
#[export] Hint Extern 0 (Observer _) => typeclasses eauto : silent.
#[export] Hint Resolve silent_ret silent_bind silent_call silent_run silent_when silent_print silent_println silent_say : silent.
#[export] Hint Resolve obs_waitpid obs_write obs_chdir obs_uptime obs_yield : silent.

(** ** The commands that start nothing *)

Section builtins.
Context {W X : Type} {HO : ShOs W} (view : W -> X) {HV : Observer view}.
Lemma fill_length cap d : 0 <= cap -> length (fill cap d) = Z.to_nat cap.
Proof. intros H. unfold fill. rewrite length_take, length_app, length_replicate. lia. Qed.
Lemma fill_bytes cap d : bytes_ok d -> bytes_ok (fill cap d).
Proof. intros H. unfold fill. apply Forall_take, Forall_app. split; [done|]. apply Forall_replicate. unfold is_byte. lia. Qed.
Lemma bget_byte l i c : bytes_ok l -> bget l i = Some c -> 0 <= c < 256.
Proof.
  intros Hl. unfold bget. destruct (_ && _); [|done]. intros E. by apply (proj1 (Forall_lookup _ _) Hl _ _ E).
Qed.

Lemma entries_loop_total l fuel : bytes_ok l -> forall p limit, 0 <= p -> limit <= len l -> (Z.to_nat (limit - p) <= fuel)%nat ->
  is_Some (entries_loop l p limit fuel).
Proof.
  intros Hl. induction fuel as [|fuel IH]; intros p limit Hp Hlim Hf; cbn [entries_loop].
  { rewrite (proj2 (Z.leb_gt _ _)) by lia. by eexists. }
  destruct (Z.leb_spec (p + 11) limit); [|by eexists].
  destruct (bget_total l (p + 8)) as [k ->]; [lia|]. cbn.
  destruct (bget_total l (p + 9)) as [lo Hlo]; [lia|]. destruct (bget_total l (p + 10)) as [hi Hhi]; [lia|].
  pose proof (bget_byte _ _ _ Hl Hlo). pose proof (bget_byte _ _ _ Hl Hhi). rewrite Hlo, Hhi. cbn.
  destruct (Z.ltb_spec limit (p + 11 + (lo + hi * 256))); [by eexists|].
  rewrite bslice_total by lia. cbn. destruct (IH (p + 11 + (lo + hi * 256)) limit) as [r ->]; [lia..|]. by eexists.
Qed.
Lemma entries_total d n : bytes_ok d -> n <= DIRBUF -> is_Some (entries d n).
Proof.
  intros Hd Hn. unfold entries. apply entries_loop_total; [by apply fill_bytes|lia|rewrite fill_length by done; unfold DIRBUF in *; lia|].
  unfold DIRBUF in *. lia.
Qed.

(** The answer of [readdir] and of [getcwd], in range. *)
Lemma silent_readdir {A} path n (f : Z * list Z -> Prog W A) : (forall r d, r <= n -> bytes_ok d -> silent view (f (r, d))) -> silent view (x ← call (os_readdir path n); f x).
Proof.
  intros Hf w Q H. apply wp_bind, wp_call. pose proof (obs_readdir path n w) as Hl. destruct (os_readdir path n w) as [w' [r d]].
  destruct Hl as (Hv & Hr & Hd). cbn. apply Hf; [done..|]. intros w'' a E. apply H. congruence.
Qed.
Lemma silent_getcwd : silent view getcwd_str.
Proof.
  unfold getcwd_str. intros w Q H. apply wp_bind, wp_call. pose proof (obs_getcwd PATH_MAX w) as Hl. destruct (os_getcwd PATH_MAX w) as [w' [n d]].
  destruct Hl as (Hv & Hn). cbn. destruct (Z.ltb_spec n 0); [by apply wp_ret, H|].
  rewrite bslice_total by (rewrite ?fill_length by done; unfold PATH_MAX in *; lia). apply wp_bind. eapply wp_pure; [done|]. by apply wp_ret, H.
Qed.
Hint Resolve silent_getcwd : silent.

Lemma silent_help : silent view print_help.
Proof.
  unfold print_help. apply silent_bind; [auto with silent|]. intros _. apply silent_readdir. intros n d Hn Hd.
  destruct (n <? 0); [auto with silent|]. apply silent_bind; [by apply silent_pure, entries_total|].
  intros es. induction es as [|[k name] es IH]; cbn [foldr]; [auto with silent|].
  apply silent_bind; [destruct (utf8_valid _); auto with silent|by intros].
Qed.
Lemma silent_pwd : silent view builtin_pwd.
Proof. apply silent_bind; [auto with silent|]. intros [n|s]; auto with silent. Qed.
Lemma silent_cd line : silent view (builtin_cd line).
Proof. apply silent_bind; [apply silent_call; intros; apply obs_chdir|]. intros r. auto with silent. Qed.
End builtins.
#[export] Hint Resolve silent_getcwd silent_help silent_pwd silent_cd : silent.
