(* ===== verification/ShRun.v ===== *)
(** * ShRun: what the commands of the user shell run, and the descriptors they leave

    The promises of the system calls ([ShOsLaws]), the weakest preconditions of the
    shell's programs over them, and the theorems on the descriptors: a line leaves those
    of the shell as they were, and a pipeline gives each program the ends it should. *)

From S2P Require Import Prelude Text Sh ShOps ShWp.

Open Scope Z_scope.

(** ** What the system calls promise *)

(** A program started: its path, its arguments and the descriptors it is given. *)
Record Call (H : Type) := { c_path : list Z; c_argv : list (list Z); c_fds : gmap Z H }.
Arguments c_path {H} _.
Arguments c_argv {H} _.
Arguments c_fds {H} _.
(** What matters of a world: the open descriptors, how many pipes were made, and the
    programs started so far. *)
Record View (H : Type) := { fds : gmap Z H; pipes : nat; calls : list (Call H) }.
Arguments fds {H} _.
Arguments pipes {H} _.
Arguments calls {H} _.
Definition with_fds {H} (m : gmap Z H) (v : View H) : View H := {| fds := m; pipes := pipes v; calls := calls v |}.

Definition lowest {H} (m : gmap Z H) (r : Z) : Prop := 0 <= r /\ m !! r = None /\ forall i, 0 <= i < r -> is_Some (m !! i).

Class ShOsLaws (W : Type) {HO : ShOs W} := {
  Handle : Type;
  rd_end : nat -> Handle;
  wr_end : nat -> Handle;
  ends_differ j k : rd_end j <> wr_end k;
  rd_inj j k : rd_end j = rd_end k -> j = k;
  wr_inj j k : wr_end j = wr_end k -> j = k;
  view : W -> View Handle;
  open_law path flags w : let '(w', r) := os_open path flags w in
    (r < 0 /\ view w' = view w) \/
    (lowest (fds (view w)) r /\ exists h, (forall k, h <> rd_end k /\ h <> wr_end k) /\ view w' = with_fds (<[r := h]> (fds (view w))) (view w));
  close_law fd w : let '(w', r) := os_close fd w in view w' = with_fds (delete fd (fds (view w))) (view w);
  dup2_law old new w h : fds (view w) !! old = Some h -> 0 <= new < 64 -> let '(w', r) := os_dup2 old new w in
    r = new /\ view w' = with_fds (<[new := h]> (fds (view w))) (view w);
  pipe_law w : let '(w', (r, (a, b))) := os_pipe w in
    (r < 0 /\ view w' = view w /\ forall i j, 0 <= i < j -> j < 64 -> is_Some (fds (view w) !! i) \/ is_Some (fds (view w) !! j)) \/
    (0 <= r /\ lowest (fds (view w)) a /\ lowest (<[a := rd_end (pipes (view w))]> (fds (view w))) b /\
     view w' = {| fds := <[b := wr_end (pipes (view w))]> (<[a := rd_end (pipes (view w))]> (fds (view w))); pipes := S (pipes (view w)); calls := calls (view w) |});
  spawn_law path argv w : let '(w', r) := os_spawn path argv w in
    view w' = {| fds := fds (view w); pipes := pipes (view w); calls := calls (view w) ++ [{| c_path := path; c_argv := argv; c_fds := fds (view w) |}] |};
  read_law fd n w : let '(w', (r, d)) := os_read fd n w in view w' = view w /\ r <= n;
  view_observed :: Observer view;
}.

(** ** Over the promises *)

Section laws.
Context {W : Type} {HO : ShOs W} {HL : ShOsLaws W}.
Implicit Types (w : W) (m : gmap Z Handle).
Abbreviation V m p c := {| fds := m; pipes := p; calls := c |}.

(** A file's handle is not an end of a pipe. *)
Definition plain (h : Handle) : Prop := forall k, h <> rd_end k /\ h <> wr_end k.

Lemma wp_open path flags m p c (Q : W -> Z -> Prop) w : view w = V m p c ->
  (forall w' r, view w' = V m p c -> r < 0 -> Q w' r) ->
  (forall w' r h, view w' = V (<[r := h]> m) p c -> lowest m r -> plain h -> Q w' r) ->
  wp (call (os_open path flags)) Q w.
Proof.
  intros Hv H1 H2. apply wp_call. pose proof (open_law path flags w) as Hl. destruct (os_open path flags w) as [w' r]. cbn.
  rewrite Hv in Hl. destruct Hl as [[Hr Hl]|(Hr & h & Hh & Hl)]; eauto.
Qed.
Lemma wp_close fd m p c (Q : W -> Z -> Prop) w : view w = V m p c ->
  (forall w' r, view w' = V (delete fd m) p c -> Q w' r) -> wp (call (os_close fd)) Q w.
Proof. intros Hv H. apply wp_call. pose proof (close_law fd w) as Hl. destruct (os_close fd w) as [w' r]. cbn. apply H. by rewrite Hl, Hv. Qed.
Lemma wp_dup2 old new h m p c (Q : W -> Z -> Prop) w : view w = V m p c -> m !! old = Some h -> 0 <= new < 64 ->
  (forall w', view w' = V (<[new := h]> m) p c -> Q w' new) -> wp (call (os_dup2 old new)) Q w.
Proof.
  intros Hv Hm Hn H. apply wp_call. pose proof (dup2_law old new w h) as Hl. rewrite Hv in Hl. specialize (Hl Hm Hn).
  destruct (os_dup2 old new w) as [w' r]. destruct Hl as [-> Hl]. cbn. apply H. by rewrite Hl.
Qed.
Lemma wp_pipe m p c (Q : W -> Z * (Z * Z) -> Prop) w : view w = V m p c ->
  m !! 20 = None -> m !! 21 = None ->
  (forall w' r a b, view w' = V (<[b := wr_end p]> (<[a := rd_end p]> m)) (S p) c -> 0 <= r -> lowest m a -> lowest (<[a := rd_end p]> m) b -> Q w' (r, (a, b))) ->
  wp (call os_pipe) Q w.
Proof.
  intros Hv H20 H21 H2. apply wp_call. pose proof (pipe_law w) as Hl. destruct (os_pipe w) as [w' [r [a b]]]. cbn.
  rewrite Hv in Hl. cbn in Hl. destruct Hl as [(_ & _ & Hfull)|(Hr & Ha & Hb & Hl)]; [|eauto].
  destruct (Hfull 20 21) as [[? ?]|[? ?]]; (lia || congruence).
Qed.
Lemma wp_spawn path argv m p c (Q : W -> Z -> Prop) w : view w = V m p c ->
  (forall w' r, view w' = V m p (c ++ [{| c_path := path; c_argv := argv; c_fds := m |}]) -> Q w' r) -> wp (call (os_spawn path argv)) Q w.
Proof. intros Hv H. apply wp_call. pose proof (spawn_law path argv w) as Hl. destruct (os_spawn path argv w) as [w' r]. cbn. apply H. by rewrite Hl, Hv. Qed.
Lemma wp_close_if fd m p c (Q : W -> unit -> Prop) w : view w = V m p c ->
  (forall w', view w' = V (if 0 <=? fd then delete fd m else m) p c -> Q w' tt) -> wp (close_if fd) Q w.
Proof.
  intros Hv H. unfold close_if. apply wp_when; intros E; rewrite E in H; [|by apply H].
  apply wp_run. pose proof (close_law fd w) as Hl. destruct (os_close fd w) as [w' r]. cbn. apply H. by rewrite Hl, Hv.
Qed.

End laws.
(** ** What is read of a buffer *)

(** Two buffers of one length that agree on a range. *)
Definition agree (l l0 : list Z) (a b : Z) : Prop := length l = length l0 /\ forall i, a <= i < b -> bget l i = bget l0 i.

Lemma agree_sub l l0 a b a' b' : agree l l0 a b -> a <= a' -> b' <= b -> agree l l0 a' b'.
Proof. intros [H1 H2] Ha Hb. split; [done|]. intros i Hi. apply H2. lia. Qed.
Lemma find_loop_agree l l0 b d fuel : forall a q, agree l l0 a b -> find_loop l a b q d fuel = find_loop l0 a b q d fuel.
Proof.
  induction fuel as [|fuel IH]; intros a q H; cbn [find_loop]; destruct (Z.ltb_spec a b); try done; rewrite (proj2 H a) by lia; [done|].
  destruct (bget l0 a) as [c|]; [|done]. cbn. destruct (_ && _ && _); [done|]. apply IH. eapply agree_sub; [done|lia..].
Qed.
Lemma find_top_agree l l0 a b d : agree l l0 a b -> find_top l a b d = find_top l0 a b d.
Proof. intros H. unfold find_top. rewrite (proj1 H). by apply find_loop_agree. Qed.
Lemma trim_front_agree l l0 b fuel : forall a, agree l l0 a b -> trim_front l a b fuel = trim_front l0 a b fuel.
Proof.
  induction fuel as [|fuel IH]; intros a H; cbn [trim_front]; destruct (Z.ltb_spec a b); try done; rewrite (proj2 H a) by lia; [done|].
  destruct (bget l0 a) as [c|]; [|done]. cbn. destruct (blank c); [|done]. apply IH. eapply agree_sub; [done|lia..].
Qed.
Lemma trim_back_agree l l0 a fuel : forall b, agree l l0 a b -> trim_back l a b fuel = trim_back l0 a b fuel.
Proof.
  induction fuel as [|fuel IH]; intros b H; cbn [trim_back]; destruct (Z.ltb_spec a b); try done; rewrite (proj2 H (b - 1)) by lia; [done|].
  destruct (bget l0 (b - 1)) as [c|]; [|done]. cbn. destruct (blank c); [|done]. apply IH. eapply agree_sub; [done|lia..].
Qed.
Lemma trim_agree l l0 a b : 0 <= a <= b -> b <= len l -> agree l l0 a b -> trim l a b = trim l0 a b.
Proof.
  intros Ha Hb H. unfold trim. rewrite (trim_front_agree l l0) by done. rewrite (proj1 H).
  destruct (trim_front_total l0 b (length l0) a) as (s & -> & Hs); [rewrite <- ?(proj1 H); lia..|]. cbn.
  rewrite (trim_back_agree l l0); [done|]. eapply agree_sub; [done|lia..].
Qed.
Lemma parse_redirect_agree l l0 a b : 0 <= a <= b -> b <= len l -> agree l l0 a b -> parse_redirect l a b = parse_redirect l0 a b.
Proof.
  intros Ha Hb H. unfold parse_redirect. rewrite (find_top_agree l l0) by done.
  destruct (find_top_total l0 a b 62) as ([i|] & -> & Hi); [lia|rewrite <- (proj1 H); lia|..]; cbn; [|done].
  specialize (Hi i eq_refl).
  assert (Hap : (if i + 1 <? b then c ← bget l (i + 1); Some (c =? 62) else Some false) = (if i + 1 <? b then c ← bget l0 (i + 1); Some (c =? 62) else Some false)).
  { destruct (Z.ltb_spec (i + 1) b); [|done]. by rewrite (proj2 H) by lia. }
  rewrite Hap. destruct (Z.ltb_spec (i + 1) b) as [Hib|Hib].
  - destruct (bget_total l0 (i + 1)) as [c ->]; [rewrite <- (proj1 H); lia|]. cbn.
    set (after := if c =? 62 then i + 2 else i + 1). assert (i < after <= b) by (unfold after; case_match; lia).
    rewrite (trim_agree l l0) by (first [lia|eapply agree_sub; [done|lia..]]).
    destruct (trim_total l0 after b) as (ts & te & -> & ? & ?); [lia|rewrite <- (proj1 H); lia|]. cbn.
    rewrite (find_top_agree l l0); [done|]. eapply agree_sub; [done|lia..].
  - cbn. rewrite (trim_agree l l0) by (first [lia|eapply agree_sub; [done|lia..]]).
    destruct (trim_total l0 (i + 1) b) as (ts & te & -> & ? & ?); [lia|rewrite <- (proj1 H); lia|]. cbn.
    rewrite (find_top_agree l l0); [done|]. eapply agree_sub; [done|lia..].
Qed.
Lemma slice_agree l l0 a b : 0 <= a <= b -> agree l l0 a b -> slice a (b - a) l = slice a (b - a) l0.
Proof.
  intros Ha [Hl H]. rewrite !slice_seg by done. unfold seg. apply list_eq. intros i.
  destruct (decide (i < Z.to_nat b - Z.to_nat a)%nat) as [Hi|Hi].
  - rewrite !lookup_take_lt, !lookup_drop by done. specialize (H (a + Z.of_nat i) ltac:(lia)).
    replace (a + Z.of_nat i) with (Z.of_nat (Z.to_nat a + i)) in H by lia. by rewrite !bget_nat in H.
  - rewrite !lookup_take_ge by lia. done.
Qed.
Lemma overlay_agree l i t : (i + length t <= length l)%nat -> agree (overlay l i t) l (Z.of_nat (i + length t)) (len l).
Proof.
  intros H. split; [by apply overlay_length|]. intros j Hj. replace j with (Z.of_nat (Z.to_nat j)) by lia. rewrite !bget_nat.
  unfold overlay. rewrite app_assoc, lookup_app_r by (rewrite length_app, length_take; lia). rewrite lookup_drop. f_equal.
  rewrite length_app, length_take. lia.
Qed.

Section prepare.
Context {W : Type} {HO : ShOs W} {HL : ShOsLaws W}.

(** Words that can be run: some, not too many, and the first names a program. *)
Definition runnable (ws : list (list Z)) : Prop := ws <> [] /\ len ws <= 15 /\ resolve_path (hd [] ws) (LINE + 8) <> [].
(** What [prepare] answers for the command in a range. *)
Definition prepared_as (l : list Z) (a b : Z) (l' : list Z) (r : option (list Z * list (list Z))) : Prop :=
  agree l' l (b + 1) (len l) /\
  match r with
  | Some (path, argv) => path = resolve_path (hd [] argv) (LINE + 8) /\ (~ 0 ∈ slice a (b - a) l -> argv = lex (slice a (b - a) l))
  | None => ~ 0 ∈ slice a (b - a) l -> ~ runnable (lex (slice a (b - a) l))
  end.

Lemma wp_prepare l a b w v (Q : W -> list Z * option (list Z * list (list Z)) -> Prop) :
  0 <= a <= b -> b < len l -> view w = v ->
  (forall w' l' r, view w' = v -> prepared_as l a b l' r -> Q w' (l', r)) -> wp (prepare l (a, b)) Q w.
Proof.
  intros Ha Hb Hv HQ. unfold prepare. cbn [fst snd].
  destruct (tokenize_lex l a b Ha Hb) as (Ht & Hfit & Hargs). set (ws := lex _) in *.
  set (l' := overlay _ _ _) in *.
  assert (Hag : agree l' l (b + 1) (len l)).
  { eapply agree_sub; [apply overlay_agree; lia|lia..]. }
  assert (Hno : forall s w', view w' = v -> (~ 0 ∈ slice a (b - a) l -> ~ runnable ws) -> wp (_ ← println s; mret (l', None) : Prog W _) Q w').
  { intros s w' Hv' Hn. apply wp_bind. eapply (wp_silent view); [auto with silent|exact Hv'|]. intros w1 _ Hv1. by apply wp_ret, HQ. }
  apply wp_bind. eapply wp_pure; [exact Ht|]. cbv beta iota.
  destruct (Z.leb_spec (len ws) 15) as [H15|H15]; [|apply Hno; [done|intros _ (_ & ? & _); lia]].
  specialize (fun H => Hargs H H15). destruct ws as [|word ws'] eqn:Ews; cbn [offsets]; [apply Hno; [done|by intros _ [? _]]|].
  cbn [offsets fmap list_fmap] in Hargs. case_bool_decide as Hp.
  - apply Hno; [done|]. intros H0 (_ & _ & Hres). specialize (Hargs H0). injection Hargs as Hw _. by rewrite Hw in Hp.
  - apply wp_ret, HQ; [done|]. split; [done|]. split; [done|]. intros H0. fold ws. rewrite Ews. by apply Hargs.
Qed.

Lemma wp_redir_open l ts te ap w m p c (Q : W -> Z -> Prop) : 0 <= ts <= te -> te <= len l ->
  view w = {| fds := m; pipes := p; calls := c |} ->
  (forall w' r, view w' = {| fds := m; pipes := p; calls := c |} -> r < 0 -> Q w' r) ->
  (forall w' r h, view w' = {| fds := <[r := h]> m; pipes := p; calls := c |} -> lowest m r -> plain h -> Q w' r) ->
  wp (redir_open l ts te ap) Q w.
Proof.
  intros Ht Hte Hv H1 H2. unfold redir_open.
  assert (exists q, (if ts + 1 <? te then c0 ← bget l ts; if is_quote c0 then d ← bget l (te - 1); Some (d =? c0) else Some false else Some false) = Some q /\ (q = true -> ts + 1 < te)) as (q & -> & Hq).
  { destruct (Z.ltb_spec (ts + 1) te); [|by exists false]. destruct (bget_total l ts) as [c0 ->]; [lia|]. destruct (bget_total l (te - 1)) as [d ->]; [lia|].
    cbn. destruct (is_quote c0); by eexists. }
  apply wp_bind. eapply wp_pure; [done|]. apply wp_bind.
  assert (exists s, (if q : bool then bslice l (ts + 1) (te - 1) else bslice l ts te) = Some s) as [s Es].
  { destruct q; [specialize (Hq eq_refl)|]; rewrite bslice_total by lia; by eexists. }
  eapply wp_pure; [exact Es|]. destruct (negb (utf8_valid s)); [apply wp_ret, H1; (done || lia)|]. eapply wp_open; eauto.
Qed.
End prepare.

(** ** A pipeline *)

Lemma lowest_range {H} (m : gmap Z H) r p f a :
  lowest m r -> is_Some (m !! 0) -> is_Some (m !! 1) -> is_Some (m !! 2) ->
  (forall i, 3 <= i <= 6 -> is_Some (m !! i) -> i = p \/ i = f \/ i = a) -> 3 <= r <= 6 /\ m !! r = None.
Proof.
  intros (Hr & Hn & Hl) H0 H1 H2 Hi. split; [|done].
  assert (r <> 0 /\ r <> 1 /\ r <> 2) as (? & ? & ?) by (split_and!; intros ->; by apply eq_None_not_Some in Hn).
  destruct (decide (r <= 6)); [lia|].
  pose proof (Hi 3 ltac:(lia) (Hl 3 ltac:(lia))). pose proof (Hi 4 ltac:(lia) (Hl 4 ltac:(lia))).
  pose proof (Hi 5 ltac:(lia) (Hl 5 ltac:(lia))). pose proof (Hi 6 ltac:(lia) (Hl 6 ltac:(lia))). lia.
Qed.

(** The stages of a line: one behind the other. *)
Fixpoint stages_in (l : list Z) (lo : Z) (stages : list (Z * Z)) : Prop :=
  match stages with
  | [] => True
  | (a, b) :: stages => 0 <= lo <= a /\ a <= b < len l /\ stages_in l (b + 1) stages
  end.

Section pipeline.
Context {W : Type} {HO : ShOs W} {HL : ShOsLaws W}.
(** The descriptors 0, 1 and 2 of the shell, and the pipes made before. *)
Context (i0 o0 e0 : Handle) (P : nat).
Implicit Types (w : W) (l : list Z) (k : nat).

Definition std : gmap Z Handle := <[0 := i0]> (<[1 := o0]> {[2 := e0]}).
(** The descriptors between two stages: the saved ones are 10 and 11, and [pr] is the
    read end of the last pipe. *)
Definition prev_map (pr : Z) k : gmap Z Handle := if 0 <=? pr then {[pr := rd_end (P + k - 1)]} else ∅.
Definition table (x y : Handle) (prev : gmap Z Handle) : gmap Z Handle :=
  <[0 := x]> (<[1 := y]> (<[2 := e0]> (<[10 := o0]> (<[11 := i0]> prev)))).

(** The program of the stage [k] of [n]: the words of its part of the line, the ends of
    its pipes or its redirection, and no write end of a pipe before it. *)
Definition stage_ok (l : list Z) (stages : list (Z * Z)) (k : nat) (c : Call Handle) : Prop :=
  exists a b cmd redir, stages !! k = Some (a, b) /\ parse_redirect l a b = Some (cmd, redir) /\
    (~ 0 ∈ slice a (b - a) l -> c_argv c = lex (slice cmd.1 (cmd.2 - cmd.1) l)) /\ c_path c = resolve_path (hd [] (c_argv c)) (LINE + 8) /\
    c_fds c !! 0 = Some (match k with O => i0 | S j => rd_end (P + j) end) /\
    (let out := if bool_decide (S k = length stages) then o0 else wr_end (P + k) in
     exists h, c_fds c !! 1 = Some h /\ (redir = None -> h = out) /\ (h = out \/ plain h)) /\
    c_fds c !! 2 = Some e0 /\
    (forall j fd, (j < k)%nat -> c_fds c !! fd <> Some (wr_end (P + j))).

Definition with_rfd (rfd : Z) (h : Handle) (m : gmap Z Handle) : gmap Z Handle := if 0 <=? rfd then <[rfd := h]> m else m.
Definition prev_ok (pr : Z) k : Prop := (k = 0%nat /\ pr = -1) \/ ((0 < k)%nat /\ 3 <= pr <= 6).

Definition stage_words l (st : Z * Z) : list (list Z) :=
  match parse_redirect l st.1 st.2 with Some ((a, b), _) => lex (slice a (b - a) l) | None => [] end.
(** All the stages were started, or the first that was not has words that cannot run. *)
Definition all_started l (stages : list (Z * Z)) k : Prop :=
  k = length stages \/ exists st, stages !! k = Some st /\ (~ 0 ∈ slice st.1 (st.2 - st.1) l -> ~ runnable (stage_words l st)).

(** What the stages leave: the saved descriptors, and the last read end. *)
Definition stages_post l stages k (cs : list (Call Handle)) (w' : W) (r : list Z * Z * nat) : Prop :=
  let '(l', pr, _) := r in
  length l' = length l /\ (pr = -1 \/ 3 <= pr <= 6) /\
  exists x y k' p new, view w' = {| fds := table x y (prev_map pr k'); pipes := p; calls := cs ++ new |} /\
    (forall j c, new !! j = Some c -> stage_ok l stages (k + j) c) /\ all_started l stages (k + length new) /\ (P <= p)%nat.

Ltac tbl := unfold with_rfd, table, prev_map, std;
  repeat match goal with |- context [0 <=? ?r] => destruct (Z.leb_spec 0 r) end;
  repeat (rewrite lookup_insert || rewrite lookup_delete || rewrite lookup_singleton || rewrite lookup_empty);
  repeat case_decide; subst; try (done || lia || eauto || (intros [? ?]; (done || lia))).

(** The descriptor of the redirection of a stage. *)
Definition rfd_ok (redir : option (Z * Z * bool)) (rfd : Z) (h : Handle) (m : gmap Z Handle) : Prop := (rfd = -1 /\ h = o0) \/ (redir <> None /\ plain h /\ 3 <= rfd <= 6 /\ m !! rfd = None).

Hypothesis Hold : forall h, h = i0 \/ h = o0 \/ h = e0 -> forall k, h <> wr_end (P + k).

Lemma wp_stage_redir l redir a b w x y pr k p c (Q : W -> Z -> Prop) : 0 <= a -> redir_in a b redir -> b <= len l -> prev_ok pr k ->
  view w = {| fds := table x y (prev_map pr k); pipes := p; calls := c |} ->
  (forall w' rfd h, rfd_ok redir rfd h (table x y (prev_map pr k)) -> view w' = {| fds := with_rfd rfd h (table x y (prev_map pr k)); pipes := p; calls := c |} -> Q w' rfd) ->
  wp (match redir with Some (ts, te, append) => fd ← redir_open l ts te append; mret (if 0 <=? fd then fd else -1) | None => mret (-1) end : Prog W Z) Q w.
Proof.
  intros Ha Hin Hb Hpr Hv HQ. destruct redir as [[[ts te] ap]|].
  2: { apply wp_ret, (HQ w (-1) o0); [by left|done]. }
  cbn in Hin. apply wp_bind. eapply wp_redir_open; [lia|lia|done|..].
  - intros w' r Hv' Hr. apply wp_ret. rewrite (proj2 (Z.leb_gt _ _)) by lia. apply (HQ w' (-1) o0); [by left|done].
  - intros w' r h Hv' Hlow Hpl. apply wp_ret.
    destruct (lowest_range _ r pr pr pr Hlow) as [Hr Hn]; [by tbl..|intros i Hi; by tbl|].
    rewrite (proj2 (Z.leb_le _ _)) by lia. apply (HQ w' r h); [by right|]. unfold with_rfd. by rewrite (proj2 (Z.leb_le _ _)) by lia.
Qed.

Lemma lookup_snoc_inv {A} (xs : list A) x j c : (x :: xs) !! j = Some c -> (j = 0%nat /\ c = x) \/ exists j', j = S j' /\ xs !! j' = Some c.
Proof. destruct j as [|j]; cbn; [intros [= <-]; by left|right; eauto]. Qed.

Lemma stages_post_nothing l stages k cs l' pr k' p ns w' x y : all_started l stages k -> (P <= p)%nat -> length l' = length l -> (pr = -1 \/ 3 <= pr <= 6) ->
  view w' = {| fds := table x y (prev_map pr k'); pipes := p; calls := cs |} -> stages_post l stages k cs w' (l', pr, ns).
Proof.
  intros Hall HP Hl Hpr Hv. split_and!; [done|done|]. exists x, y, k', p, []. rewrite app_nil_r. split; [done|].
  split; [by intros j c Hj|]. cbn. by rewrite Nat.add_0_r.
Qed.
Lemma stages_post_cons l stages k cs c w' r : stage_ok l stages k c -> stages_post l stages (S k) (cs ++ [c]) w' r -> stages_post l stages k cs w' r.
Proof.
  intros Hc. destruct r as [[l' pr] ns]. intros (Hl & Hpr & x & y & k' & p & new & Hv & Hnew & Hall). split_and!; [done..|].
  exists x, y, k', p, (c :: new). rewrite <- app_assoc in Hv. split; [exact Hv|]. cbn [length]. rewrite Nat.add_succ_r. split; [|exact Hall]. intros j c' Hj.
  apply lookup_snoc_inv in Hj as [[-> ->]|(j' & -> & Hj)]; [by rewrite Nat.add_0_r|]. replace (k + S j')%nat with (S k + j')%nat by lia. auto.
Qed.

(** The pipe behind a stage, when there is one. *)
Definition with_pipe nr tw k m : gmap Z Handle := if 0 <=? tw then <[tw := wr_end (P + k)]> (<[nr := rd_end (P + k)]> m) else m.
Definition ends_ok nr tw pr rfd : Prop := (nr = -1 /\ tw = -1) \/ (3 <= nr <= 6 /\ 3 <= tw <= 6 /\ nr <> tw /\ nr <> pr /\ tw <> pr /\ nr <> rfd /\ tw <> rfd).

Lemma rfd_closed redir rfd h x y pr k : rfd_ok redir rfd h (table x y (prev_map pr k)) ->
  (if 0 <=? rfd then delete rfd (with_rfd rfd h (table x y (prev_map pr k))) else with_rfd rfd h (table x y (prev_map pr k))) = table x y (prev_map pr k).
Proof.
  intros [[-> _]|(_ & _ & Hr & Hn)]; [done|]. unfold with_rfd. rewrite (proj2 (Z.leb_le _ _)) by lia. by rewrite delete_insert_id.
Qed.

(** The descriptors of a stage's program. *)
Lemma stage_fds_ok l stages k a b i redir cmd argv path rfd h x y pr nr tw :
  stages !! k = Some (a, b) -> parse_redirect l a b = Some ((a, i), redir) -> cmd = (a, i) ->
  (~ 0 ∈ slice a (b - a) l -> argv = lex (slice a (i - a) l)) -> path = resolve_path (hd [] argv) (LINE + 8) ->
  prev_ok pr k -> rfd_ok redir rfd h (table x y (prev_map pr k)) -> rfd <> pr \/ rfd = -1 -> ends_ok nr tw pr rfd ->
  (tw = -1 <-> S k = length stages) ->
  stage_ok l stages k {| c_path := path; c_argv := argv;
    c_fds := <[1 := if 0 <=? rfd then h else if 0 <=? tw then wr_end (P + k) else o0]> (<[0 := if 0 <=? pr then rd_end (P + k - 1) else i0]>
      (with_pipe nr tw k (with_rfd rfd h (table x y (prev_map pr k))))) |}.
Proof.
  intros Hst Hpar -> Hargv Hpath Hprev Hrfd Hne Hends Hlast. exists a, b, (a, i), redir. cbn [c_fds c_argv c_path fst snd].
  split_and!; try done.
  - rewrite lookup_insert_ne, lookup_insert_eq by done. destruct Hprev as [[-> ->]|[Hk Hpr]]; [done|].
    rewrite (proj2 (Z.leb_le _ _)) by lia. destruct k as [|k]; [lia|]. do 2 f_equal. lia.
  - rewrite lookup_insert_eq. eexists. split; [done|].
    destruct Hrfd as [[-> ->]|(Hn & Hpl & Hr & _)].
    + cbn [Z.leb Z.compare]. case_bool_decide as Hb.
      * apply Hlast in Hb as ->. auto.
      * destruct Hends as [[-> ->]|(? & ? & _)]; [by destruct Hb; apply Hlast|]. rewrite (proj2 (Z.leb_le _ _)) by lia. auto.
    + rewrite (proj2 (Z.leb_le _ _)) by lia. split; [done|by right].
  - unfold with_pipe. destruct Hends as [[-> ->]|(? & ? & _)]; destruct Hrfd as [[-> ->]|(Hn & Hpl & Hr & _)]; tbl.
  - intros j fd Hj.
    pose proof (Hold i0 ltac:(by auto) j). pose proof (Hold o0 ltac:(by auto) j). pose proof (Hold e0 ltac:(by auto) j).
    assert (Hrd : forall n, rd_end n <> wr_end (P + j)) by (intros n; apply ends_differ). pose proof (Hrd (P + k)%nat). pose proof (Hrd (P + k - 1)%nat).
    assert (wr_end (P + k) <> wr_end (P + j)) by (intros E; apply wr_inj in E; lia).
    assert (Hh : h <> wr_end (P + j)) by (destruct Hrfd as [[_ ->]|(_ & Hpl & _)]; [done|apply Hpl]).
    clear -Hh H H0 H1 H2 H3 H4. unfold with_pipe. tbl; congruence.
Qed.

(** The descriptors a stage leaves to the next one. *)
Lemma stage_closed redir rfd h x y x' y' pr nr tw k m' :
  prev_ok pr k -> rfd_ok redir rfd h (table x y (prev_map pr k)) -> rfd <> pr \/ rfd = -1 -> ends_ok nr tw pr rfd ->
  m' = <[1 := y']> (<[0 := x']> (with_pipe nr tw k (with_rfd rfd h (table x y (prev_map pr k))))) ->
  (let m1 := if 0 <=? rfd then delete rfd m' else m' in
   let m2 := if 0 <=? pr then delete pr m1 else m1 in
   if 0 <=? tw then delete tw m2 else m2) = table x' y' (prev_map nr (S k)).
Proof.
  intros Hprev Hrfd Hne Hends ->. assert (Hp : pr = -1 \/ 3 <= pr <= 6) by (destruct Hprev; lia).
  assert (Hr : rfd = -1 \/ 3 <= rfd <= 6) by (destruct Hrfd as [[-> _]|(_ & _ & ? & _)]; lia).
  cbv zeta. clear Hprev Hrfd Hold.
  apply map_eq. intros j. unfold with_pipe. destruct Hends as [[-> ->]|(? & ? & ? & ? & ? & ? & ?)]; tbl; do 2 f_equal; lia.
Qed.


(** A stage with its ends: the two moves, the start and the closing. *)
Lemma wp_stage_start {B} redir rfd h x y pr nr tw k p cs path argv (K : Z -> Prog W B) Q w m :
  prev_ok pr k -> rfd_ok redir rfd h (table x y (prev_map pr k)) -> rfd <> pr \/ rfd = -1 -> ends_ok nr tw pr rfd ->
  m = with_pipe nr tw k (with_rfd rfd h (table x y (prev_map pr k))) -> view w = {| fds := m; pipes := p; calls := cs |} ->
  let x' := if 0 <=? pr then rd_end (P + k - 1) else i0 in
  let y' := if 0 <=? rfd then h else if 0 <=? tw then wr_end (P + k) else o0 in
  (forall w' pid, view w' = {| fds := table x' y' (prev_map nr (S k)); pipes := p;
                              calls := cs ++ [{| c_path := path; c_argv := argv; c_fds := <[1 := y']> (<[0 := x']> m) |}] |} -> wp (K pid) Q w') ->
  wp (_ ← (if 0 <=? pr then call (os_dup2 pr 0) else call (os_dup2 11 0));
      _ ← (if 0 <=? rfd then call (os_dup2 rfd 1) else if 0 <=? tw then call (os_dup2 tw 1) else call (os_dup2 10 1));
      pid ← call (os_spawn path argv);
      _ ← close_if rfd; _ ← close_if pr; _ ← close_if tw; K pid) Q w.
Proof.
  intros Hprev Hrfd Hne Hends Hm Hv x' y' HK.
  assert (Hp : pr = -1 \/ 3 <= pr <= 6) by (destruct Hprev; lia).
  assert (Hr : rfd = -1 \/ 3 <= rfd <= 6) by (destruct Hrfd as [[-> _]|(_ & _ & ? & _)]; lia).
  assert (Ht : tw = -1 \/ 3 <= tw <= 6) by (destruct Hends; lia).
  apply wp_bind.
  assert (Hin : wp (if 0 <=? pr then call (os_dup2 pr 0) else call (os_dup2 11 0)) (fun w' _ => view w' = {| fds := <[0 := x']> m; pipes := p; calls := cs |}) w).
  { unfold x'. destruct (Z.leb_spec 0 pr); (eapply wp_dup2; [exact Hv| |lia|by intros]); rewrite Hm; unfold with_pipe;
      destruct Hends as [[-> ->]|(? & ? & ? & ? & ? & ? & ?)]; tbl. }
  eapply wp_mono; [exact Hin|]. cbv beta. intros w1 ? Hv1. apply wp_bind.
  assert (Hout : wp (if 0 <=? rfd then call (os_dup2 rfd 1) else if 0 <=? tw then call (os_dup2 tw 1) else call (os_dup2 10 1))
     (fun w' _ => view w' = {| fds := <[1 := y']> (<[0 := x']> m); pipes := p; calls := cs |}) w1).
  { unfold y'. destruct (Z.leb_spec 0 rfd); [|destruct (Z.leb_spec 0 tw)]; (eapply wp_dup2; [exact Hv1| |lia|by intros]); rewrite lookup_insert_ne, Hm by lia; unfold with_pipe;
      destruct Hends as [[-> ->]|(? & ? & ? & ? & ? & ? & ?)]; tbl. }
  eapply wp_mono; [exact Hout|]. cbv beta. intros w2 ? Hv2. apply wp_bind. eapply wp_spawn; [exact Hv2|]. intros w3 pid Hv3.
  apply wp_bind. eapply wp_close_if; [exact Hv3|]. intros w4 Hv4. apply wp_bind. eapply wp_close_if; [exact Hv4|]. intros w5 Hv5.
  apply wp_bind. eapply wp_close_if; [exact Hv5|]. intros w6 Hv6. apply HK. rewrite Hv6. f_equal.
  eapply (stage_closed redir rfd h x y x' y' pr nr tw k); eauto. by rewrite Hm.
Qed.


Lemma not_in_slice l a i b : a <= i <= b -> ~ 0 ∈ slice a (b - a) l -> ~ 0 ∈ slice a (i - a) l.
Proof.
  intros Hi H Hin. apply H. unfold slice in *. apply list_elem_of_lookup in Hin as [n Hn]. apply lookup_take_Some in Hn as [Hn Hlt].
  apply list_elem_of_lookup. exists n. apply lookup_take_Some. split; [done|lia].
Qed.
Lemma agree_trans l1 l2 l3 a b : agree l1 l2 a b -> agree l2 l3 a b -> agree l1 l3 a b.
Proof. intros [H1 H2] [H3 H4]. split; [congruence|]. intros i Hi. rewrite H2 by done. auto. Qed.

(** The pipe behind a stage. *)
Lemma wp_stage_pipe redir rfd h x y pr k cs (stages : list (Z * Z)) (Q : W -> option (Z * Z) -> Prop) w :
  prev_ok pr k -> rfd_ok redir rfd h (table x y (prev_map pr k)) ->
  view w = {| fds := with_rfd rfd h (table x y (prev_map pr k)); pipes := P + k; calls := cs |} ->
  (forall w' nr tw p, ends_ok nr tw pr rfd -> (tw = -1 <-> stages = []) -> (P <= p)%nat -> (stages <> [] -> p = (P + S k)%nat) ->
    view w' = {| fds := with_pipe nr tw k (with_rfd rfd h (table x y (prev_map pr k))); pipes := p; calls := cs |} -> Q w' (Some (nr, tw))) ->
  wp (if bool_decide (stages = []) then mret (Some (-1, -1))
      else '(r, (rd, wr)) ← call os_pipe; mret (if r <? 0 then None else Some (rd, wr)) : Prog W (option (Z * Z))) Q w.
Proof.
  intros Hprev Hrfd Hv Hok.
  assert (Hp : pr = -1 \/ 3 <= pr <= 6) by (destruct Hprev; lia).
  assert (Hr : rfd = -1 \/ 3 <= rfd <= 6) by (destruct Hrfd as [[-> _]|(_ & _ & ? & _)]; lia).
  case_bool_decide as Hs.
  { apply wp_ret. eapply (Hok _ _ _ (P + k)%nat); [by left|done|lia|by intros|done]. }
  apply wp_bind. eapply wp_pipe; [exact Hv|by tbl..|].
  intros w' r rd wr Hv' Hr0 Hla Hlb. apply wp_ret. rewrite (proj2 (Z.ltb_ge _ _)) by lia.
  destruct (lowest_range _ rd pr rfd rfd Hla) as [Hrd Hna]; [by tbl..|intros j Hj; by tbl|].
  destruct (lowest_range _ wr pr rfd rd Hlb) as [Hwr Hnb]; [by tbl..|intros j Hj; by tbl|].
  apply (Hok w' rd wr (S (P + k))).
  - right. revert Hna Hnb. tbl.
  - split; [lia|by intros].
  - lia.
  - intros _. lia.
  - unfold with_pipe. by rewrite (proj2 (Z.leb_le _ _)) by lia.
Qed.

Lemma wp_stages l0 stages0 stages : forall l lo k pr ns w x y p cs,
  stages = drop k stages0 -> (k <= length stages0)%nat -> stages_in l0 lo stages -> agree l l0 lo (len l0) ->
  (pr = -1 \/ 3 <= pr <= 6) -> (P <= p)%nat -> (stages <> [] -> prev_ok pr k /\ p = (P + k)%nat) ->
  view w = {| fds := table x y (prev_map pr k); pipes := p; calls := cs |} ->
  wp (stages_loop stages l 10 11 pr ns) (stages_post l0 stages0 k cs) w.
Proof.
  induction stages as [|[a b] stages IH]; intros l lo k pr ns w x y p cs Hdrop Hkl Hin Hag Hpr HP Hk Hv.
  { apply wp_ret. eapply stages_post_nothing; [|done|apply Hag|done..]. left. symmetry in Hdrop. apply (f_equal length) in Hdrop.
    rewrite length_drop in Hdrop. cbn in Hdrop. lia. }
  destruct Hk as [Hprev ->]; [done|]. destruct Hin as (Hlo & Hab & Hin). destruct Hag as [Hlen Hag].
  assert (Hst : stages0 !! k = Some (a, b)) by (rewrite <- (Nat.add_0_r k), <- lookup_drop, <- Hdrop; done).
  assert (Hdrop' : stages = drop (S k) stages0) by (rewrite (drop_S _ _ _ Hst) in Hdrop; congruence).
  assert (Hag' : agree l l0 a b) by (split; [done|intros; apply Hag; lia]).
  cbn [stages_loop]. destruct (parse_redirect_total l a b) as (i & redir & Hpar & Hi & Hred); [lia..|].
  apply wp_bind. eapply wp_pure; [done|]. cbv beta iota.
  apply wp_bind. eapply (wp_stage_redir l redir i b); [lia|done|lia|done|done|]. intros w1 rfd h Hrfd Hv1.
  assert (Hsl : slice a (i - a) l = slice a (i - a) l0) by (apply slice_agree; [lia|eapply agree_sub; [done|lia..]]).
  apply wp_bind. eapply (wp_prepare l a i); [lia|lia|done|].
  intros w2 l2 r Hv2 [Hag2 Hr]. cbv beta iota.
  assert (Hl2 : length l2 = length l0) by (rewrite (proj1 Hag2); done).
  destruct r as [[path argv]|].
  2: { apply wp_bind. eapply wp_close_if; [exact Hv2|]. intros w3 Hv3. apply wp_ret.
       erewrite rfd_closed in Hv3 by done. eapply (stages_post_nothing _ _ _ _ _ _ _ (P + k)); [|lia|done..]. right. exists (a, b). split; [done|].
       unfold stage_words. cbn [fst snd]. rewrite <- (parse_redirect_agree l l0), Hpar, <- Hsl by (done || lia).
       intros H0. apply Hr. rewrite Hsl. by eapply not_in_slice. }
  destruct Hr as [Hpath Hargv]. rewrite Hsl in Hargv.
  assert (Hne : rfd <> pr \/ rfd = -1).
  { destruct Hrfd as [[-> _]|(_ & _ & Hr3 & Hn)]; [by right|left]. intros ->. revert Hn. tbl. }
  apply wp_bind. eapply (wp_stage_pipe redir rfd h x y pr k cs stages); [done|done|exact Hv2|].
  intros w3 nr tw p Hends Hlast HPp Hpk Hv3. cbv beta iota.
  eapply (wp_stage_start redir rfd h x y pr nr tw k); [done..|]. intros w4 pid Hv4.
  eapply wp_mono; [eapply (IH l2 (b + 1) (S k) nr)|].
  - done.
  - apply lookup_lt_Some in Hst. lia.
  - done.
  - eapply (agree_trans _ l); [eapply agree_sub; [exact Hag2|lia..]|]. split; [done|]. intros j Hj. apply Hag. lia.
  - destruct Hends; lia.
  - exact HPp.
  - intros Hs. split; [|auto]. right. split; [lia|]. destruct Hends as [[-> ->]|?]; [|lia]. by destruct Hs; apply Hlast.
  - exact Hv4.
  - cbv beta. intros w5 r5. apply stages_post_cons. eapply (stage_fds_ok l0 stages0 k a b i redir _ argv path rfd h x y pr nr tw); try done.
    + rewrite <- (parse_redirect_agree l l0); [done|lia..|done].
    + intros H0. apply Hargv. by eapply not_in_slice.
    + split.
      * intros Ht. apply Hlast in Ht. rewrite Ht in Hdrop'. symmetry in Hdrop'. apply lookup_lt_Some in Hst.
        apply (f_equal length) in Hdrop'. rewrite length_drop in Hdrop'. cbn in Hdrop'. lia.
      * intros Hk. apply Hlast. rewrite Hdrop', Hk. apply drop_all.
Qed.


Lemma silent_wait_all n : silent view (wait_all (W := W) n).
Proof. induction n; cbn; [apply silent_ret|]. apply silent_bind; [apply silent_call; intros; apply obs_waitpid|done]. Qed.

Lemma pipeline_runs l stages w cs : stages_in l 0 stages -> view w = {| fds := std; pipes := P; calls := cs |} ->
  wp (run_pipeline_n l stages) (fun w' l' => length l' = length l /\
    exists p new, view w' = {| fds := std; pipes := p; calls := cs ++ new |} /\
      (forall k c, new !! k = Some c -> stage_ok l stages k c) /\ all_started l stages (length new) /\ (P <= p)%nat) w.
Proof.
  intros Hin Hv. unfold run_pipeline_n.
  apply wp_bind. eapply (wp_dup2 1 10 o0); [exact Hv|by tbl|lia|]. intros w1 Hv1.
  apply wp_bind. eapply (wp_dup2 0 11 i0); [exact Hv1|by tbl|lia|]. intros w2 Hv2.
  apply wp_bind. eapply wp_mono; [eapply (wp_stages l stages stages l 0 0 (-1) 0 w2 i0 o0 P cs)|].
  - done.
  - lia.
  - done.
  - by split.
  - by left.
  - lia.
  - intros _. split; [by left|lia].
  - by rewrite Hv2.
  - cbv beta. intros w3 [[l' pr] ns] (Hl & Hpr & x & y & k' & p & new & Hv3 & Hnew & Hall). cbv beta iota.
    apply wp_bind. eapply wp_close_if; [exact Hv3|]. intros w4 Hv4.
    assert (Hm : (if 0 <=? pr then delete pr (table x y (prev_map pr k')) else table x y (prev_map pr k')) = table x y ∅).
    { apply map_eq. intros j. destruct Hpr as [->|Hpr]; tbl. }
    rewrite Hm in Hv4.
    apply wp_bind. eapply (wp_dup2 10 1 o0); [exact Hv4|by tbl|lia|]. intros w5 Hv5.
    apply wp_bind. eapply (wp_dup2 11 0 i0); [exact Hv5|by tbl|lia|]. intros w6 Hv6.
    apply wp_bind. eapply wp_close; [exact Hv6|]. intros w7 ? Hv7. apply wp_bind. eapply wp_close; [exact Hv7|]. intros w8 ? Hv8.
    apply wp_bind. eapply (wp_silent view); [apply silent_wait_all|exact Hv8|]. intros w9 ? Hv9. apply wp_ret.
    split; [done|]. exists p, new. split; [|done]. by rewrite Hv9.
Qed.

End pipeline.

(** ** A small system that keeps the promises of [ShOsLaws]

    Sixty-four descriptors, pipes counted as they are made, programs that are noted and
    end at once, and the bytes typed.  The witnesses of the shell's theorems run on it. *)

Inductive THandle : Type := Term (n : nat) | File (path : list Z) | Rd (k : nat) | Wr (k : nat).
Record TW : Type := { t_view : View THandle; t_in : list Z; t_out : list Z }.
Definition on_view (v : View THandle) (w : TW) : TW := {| t_view := v; t_in := t_in w; t_out := t_out w |}.

(** The lowest free descriptor. *)
Fixpoint free_from (m : gmap Z THandle) (i : Z) (fuel : nat) : option Z :=
  match fuel with O => None | S fuel => match m !! i with None => Some i | Some _ => free_from m (i + 1) fuel end end.
Definition free (m : gmap Z THandle) : option Z := free_from m 0 64.

#[local] Arguments free : simpl never.

Lemma free_from_Some m fuel : forall i r, free_from m i fuel = Some r -> i <= r /\ m !! r = None /\ forall j, i <= j < r -> is_Some (m !! j).
Proof.
  induction fuel as [|fuel IH]; intros i r; cbn; [done|]. destruct (m !! i) eqn:E.
  - intros (? & ? & H)%IH. split; [lia|]. split; [done|]. intros j Hj. destruct (decide (j = i)) as [->|]; [by rewrite E|]. apply H. lia.
  - intros [= <-]. split; [lia|]. split; [done|lia].
Qed.
Lemma free_from_None m fuel : forall i, free_from m i fuel = None -> forall j, i <= j < i + Z.of_nat fuel -> is_Some (m !! j).
Proof.
  induction fuel as [|fuel IH]; intros i; cbn; [lia|]. destruct (m !! i) eqn:E; [|done].
  intros H j Hj. destruct (decide (j = i)) as [->|]; [by rewrite E|]. apply (IH (i + 1) H). lia.
Qed.
Lemma free_lowest m r : free m = Some r -> lowest m r.
Proof. intros (? & ? & ?)%free_from_Some. by split_and!. Qed.

#[export] Instance toy_os : ShOs TW := {
  os_open path flags w :=
    let v := t_view w in
    match free (fds v) with Some r => (on_view (with_fds (<[r := File path]> (fds v)) v) w, r) | None => (w, -24) end;
  os_close fd w := let v := t_view w in (on_view (with_fds (delete fd (fds v)) v) w, 0);
  os_dup2 old new w :=
    let v := t_view w in
    match fds v !! old with Some h => (on_view (with_fds (<[new := h]> (fds v)) v) w, new) | None => (w, -9) end;
  os_pipe w :=
    let v := t_view w in
    match free (fds v) with
    | None => (w, (-24, (0, 0)))
    | Some a =>
      let m := <[a := Rd (pipes v)]> (fds v) in
      match free m with
      | None => (w, (-24, (0, 0)))
      | Some b => (on_view {| fds := <[b := Wr (pipes v)]> m; pipes := S (pipes v); calls := calls v |} w, (0, (a, b)))
      end
    end;
  os_spawn path argv w :=
    let v := t_view w in
    (on_view {| fds := fds v; pipes := pipes v; calls := calls v ++ [{| c_path := path; c_argv := argv; c_fds := fds v |}] |} w, 2);
  os_waitpid _ w := (w, -10);
  os_read fd n w :=
    let d := take (Z.to_nat n) (t_in w) in
    ({| t_view := t_view w; t_in := drop (Z.to_nat n) (t_in w); t_out := t_out w |}, (Z.min n (len d), d));
  os_write fd d w := ({| t_view := t_view w; t_in := t_in w; t_out := t_out w ++ d |}, len d);
  os_readdir _ n w := (w, (Z.min n 0, []));
  os_chdir _ w := (w, 0);
  os_getcwd n w := (w, (Z.min n 1, [47]));
  os_uptime w := (w, 0);
  os_yield w := w;
}.

(** Only the calls on descriptors and programs change the view; only reading changes
    what is left to read. *)
#[export] Instance toy_view_observed : Observer t_view.
Proof.
  constructor; try done.
  - intros p n w. cbn. split_and!; [done|lia|constructor].
  - intros n w. cbn. split; [done|lia].
Qed.
#[export] Instance toy_in_observed : Observer t_in.
Proof.
  constructor; try done.
  - intros p n w. cbn. split_and!; [done|lia|constructor].
  - intros n w. cbn. split; [done|lia].
Qed.

#[export] Instance toy_os_laws : ShOsLaws TW.
Proof.
  refine {| Handle := THandle; rd_end := Rd; wr_end := Wr; view := t_view |}; try done.
  - congruence.
  - congruence.
  - intros path flags w. cbn. destruct (free (fds (t_view w))) eqn:E; cbn; [|left; split; (done || lia)].
    right. split; [by apply free_lowest|]. exists (File path). split; [|done]. intros k. split; congruence.
  - intros old new w h Hh Hn. cbn. rewrite Hh. by cbn.
  - intros w. cbn. set (m := fds (t_view w)). destruct (free m) as [a|] eqn:Ea; cbn.
    + destruct (free (<[a := _]> m)) as [b|] eqn:Eb; cbn.
      * right. split; [lia|]. split; [by apply free_lowest|]. split; [by apply free_lowest|done].
      * left. split; [lia|]. split; [done|]. intros i j Hi Hj.
        pose proof (free_from_None _ _ _ Eb i ltac:(lia)) as H1. pose proof (free_from_None _ _ _ Eb j ltac:(lia)) as H2.
        rewrite !lookup_insert in H1, H2. destruct (decide (a = i)) as [->|]; [right|by left]. by rewrite decide_False in H2 by lia.
    + left. split; [lia|]. split; [done|]. intros i j Hi Hj. left. apply (free_from_None _ _ _ Ea i). lia.
  - intros fd n w. cbn. split; [done|lia].
Defined.

(** A shell at its start, with bytes typed. *)
Definition toy_world (typed : list Z) : TW :=
  {| t_view := {| fds := std (HL := toy_os_laws) (Term 0) (Term 1) (Term 2); pipes := 0; calls := [] |}; t_in := typed; t_out := [] |}.
