(* ===== verification/ShLine.v ===== *)
(** * ShLine: whole lines and scripts of the user shell

    A line of any contents, of a shell with just the descriptors 0, 1 and 2 open, ends
    without a panic with them as they were, and what a single command and a pipeline
    start. *)

From Stdlib Require Import Ascii.
From S2P Require Import Prelude Text Sh ShOps ShWp ShRun.

Open Scope Z_scope.

#[local] Ltac tbl := unfold std; repeat (rewrite lookup_insert || rewrite lookup_delete || rewrite lookup_singleton || rewrite lookup_empty);
  repeat case_decide; subst; try (done || lia || eauto || (intros [? ?]; (done || lia))).

Section line.
Context {W : Type} {HO : ShOs W} {HL : ShOsLaws W}.
Context (i0 o0 e0 : Handle).
Implicit Types (w : W) (l : list Z).

(** The shell at rest: its three descriptors. *)
Definition at_rest w : Prop := fds (view w) = std i0 o0 e0 /\ forall h, h = i0 \/ h = o0 \/ h = e0 -> forall k, h <> wr_end (pipes (view w) + k).

Lemma silent_rest {A} (m : Prog W A) (Q : W -> A -> Prop) w : silent view m -> at_rest w -> (forall w' a, at_rest w' -> Q w' a) -> wp m Q w.
Proof. intros Hm Hr HQ. apply Hm. intros w' a E. apply HQ. unfold at_rest. by rewrite E. Qed.

(** ** A single command *)

(** The program a single command starts: the descriptors of the shell, or a file as its
    output when it is redirected. *)
Definition single_ok l a b (c : Call Handle) : Prop :=
  exists cs ce i redir, a <= cs <= ce /\ ce <= b /\ parse_redirect l cs ce = Some ((cs, i), redir) /\
    (~ 0 ∈ slice cs (i - cs) l -> c_argv c = lex (slice cs (i - cs) l)) /\ c_path c = resolve_path (hd [] (c_argv c)) (LINE + 8) /\
    c_fds c !! 0 = Some i0 /\ c_fds c !! 2 = Some e0 /\ exists h, c_fds c !! 1 = Some h /\ (redir = None -> h = o0) /\ (redir <> None -> plain h).

(** The steps of a single command: the mark of the background, the redirection, and the
    program with its output moved and put back. *)
Lemma background_cut {B} l s1 e1 (K : bool -> Z * Z -> Prog W B) Q w : 0 <= s1 <= e1 -> e1 <= len l ->
  (forall bg s2 e2, s1 <= s2 <= e2 -> e2 <= e1 -> wp (K bg (s2, e2)) Q w) ->
  wp (is_bg ← pure (if s1 <? e1 then c ← bget l (e1 - 1); Some (c =? 38) else Some false);
      r ← (if is_bg : bool then pure (trim l s1 (e1 - 1)) else mret (s1, e1)); K is_bg r) Q w.
Proof.
  intros H1 H2 HK.
  assert (exists bg, (if s1 <? e1 then c ← bget l (e1 - 1); Some (c =? 38) else Some false) = Some bg /\ (bg = true -> s1 < e1)) as (bg & Eb & Hbg).
  { destruct (Z.ltb_spec s1 e1); [|by exists false]. destruct (bget_total l (e1 - 1)) as [c ->]; [lia|]. by eexists. }
  apply wp_bind. eapply wp_pure; [exact Eb|]. apply wp_bind.
  destruct bg; [|apply wp_ret, HK; lia]. specialize (Hbg eq_refl). destruct (trim_total l s1 (e1 - 1)) as (s2 & e2 & E2 & ? & ?); [lia..|].
  eapply wp_pure; [exact E2|]. apply HK; lia.
Qed.

Definition opened (rfd : Z) (h : Handle) : gmap Z Handle := if 0 <=? rfd then <[rfd := h]> (std i0 o0 e0) else std i0 o0 e0.
Definition moved (rfd : Z) (h : Handle) : gmap Z Handle := if 0 <=? rfd then delete rfd (<[1 := h]> (<[12 := o0]> (opened rfd h))) else std i0 o0 e0.
(** The redirection of a single command that was not refused. *)
Definition single_rfd (redir : option (Z * Z * bool)) (rfd : Z) (h : Handle) : Prop :=
  (rfd < 0 /\ redir = None) \/ (3 <= rfd <= 6 /\ plain h /\ redir <> None).

Lemma wp_single_open l redir a b w p cs0 (Q : W -> Z -> Prop) : 0 <= a -> redir_in a b redir -> b <= len l ->
  view w = {| fds := std i0 o0 e0; pipes := p; calls := cs0 |} ->
  (forall w' rfd, view w' = view w -> rfd < 0 -> redir <> None -> Q w' rfd) ->
  (forall w' rfd h, view w' = {| fds := opened rfd h; pipes := p; calls := cs0 |} -> single_rfd redir rfd h -> Q w' rfd) ->
  wp (match redir with Some (ts, te, append) => redir_open l ts te append | None => mret (-1) end : Prog W Z) Q w.
Proof.
  intros Ha Hred Hb Hv Hno Hyes. destruct redir as [[[ts te] ap]|]; [|apply wp_ret, (Hyes w (-1) o0 Hv); left; split; [lia|done]]. cbn in Hred.
  eapply wp_redir_open; [lia|lia|exact Hv|..].
  - intros w' r Hv' Hr. apply Hno; [congruence|done|done].
  - intros w' r h Hv' Hlow Hpl. destruct (lowest_range _ r r r r Hlow) as [Hr Hn]; [by tbl..|intros j Hj; by tbl|].
    apply (Hyes w' r h); [|by right]. unfold opened. by rewrite (proj2 (Z.leb_le _ _)) by lia.
Qed.

Lemma wp_single_start l' rfd h redir path argv (M : Z -> Prog W unit) w p cs0 (Q : W -> list Z -> Prop) : single_rfd redir rfd h -> (forall pid, silent view (M pid)) ->
  view w = {| fds := opened rfd h; pipes := p; calls := cs0 |} ->
  (forall w', view w' = {| fds := std i0 o0 e0; pipes := p; calls := cs0 ++ [{| c_path := path; c_argv := argv; c_fds := moved rfd h |}] |} -> Q w' l') ->
  wp (saved ← (if 0 <=? rfd then saved ← call (os_dup2 1 12); _ ← call (os_dup2 rfd 1); _ ← call (os_close rfd); mret saved else mret (-1) : Prog W Z);
      pid ← call (os_spawn path argv); _ ← M pid;
      _ ← when (0 <=? saved) (_ ← call (os_dup2 saved 1); run (os_close saved)); mret l') Q w.
Proof.
  intros Hrfd HM Hv HQ. apply wp_bind.
  assert (Hsave : wp (if 0 <=? rfd then saved ← call (os_dup2 1 12); _ ← call (os_dup2 rfd 1); _ ← call (os_close rfd); mret saved else mret (-1) : Prog W Z)
    (fun w' r => view w' = {| fds := moved rfd h; pipes := p; calls := cs0 |} /\ r = if 0 <=? rfd then 12 else -1) w).
  { unfold moved, opened in *. destruct (Z.leb_spec 0 rfd); [|by apply wp_ret]. destruct Hrfd as [[? _]|(Hr & _)]; [lia|].
    apply wp_bind. eapply (wp_dup2 1 12 o0); [exact Hv|tbl|lia|]. intros w3 Hv3.
    apply wp_bind. eapply (wp_dup2 rfd 1 h); [exact Hv3|tbl|lia|]. intros w4 Hv4. apply wp_bind. eapply wp_close; [exact Hv4|]. intros w5 ? Hv5. by apply wp_ret. }
  eapply wp_mono; [exact Hsave|]. cbv beta. intros w3 saved [Hv3 ->].
  apply wp_bind. eapply wp_spawn; [exact Hv3|]. intros w4 pid Hv4.
  apply wp_bind. eapply (wp_silent view); [apply HM|exact Hv4|]. intros w5 ? Hv5. apply wp_bind, wp_when.
  - intros H12. destruct (Z.leb_spec 0 rfd) as [Hr0|]; [|done]. destruct Hrfd as [[? _]|(Hr & _)]; [lia|].
    apply wp_bind. eapply (wp_dup2 12 1 o0); [exact Hv5|unfold moved, opened; rewrite (proj2 (Z.leb_le 0 rfd)) by lia; tbl|lia|]. intros w6 Hv6.
    apply wp_run. pose proof (close_law 12 w6) as Hc. destruct (os_close 12 w6) as [w7 ?]. rewrite Hv6 in Hc. cbn [fst].
    apply wp_ret, HQ. rewrite Hc. unfold with_fds, moved, opened. cbn. f_equal. rewrite (proj2 (Z.leb_le 0 rfd)) by lia. apply map_eq. intros j. tbl.
  - destruct (Z.leb_spec 0 rfd); [done|]. intros _. apply wp_ret, HQ. rewrite Hv5. unfold moved. by rewrite (proj2 (Z.leb_gt _ _)) by lia.
Qed.

Lemma single_runs l a b w p cs0 : 0 <= a <= b -> b < len l -> view w = {| fds := std i0 o0 e0; pipes := p; calls := cs0 |} ->
  wp (run_single l (a, b)) (fun w' l' => length l' = length l /\
    exists new, view w' = {| fds := std i0 o0 e0; pipes := p; calls := cs0 ++ new |} /\ (length new <= 1)%nat /\ Forall (single_ok l a b) new) w.
Proof.
  intros Ha Hb Hv. unfold run_single. cbn [fst snd].
  assert (Hnil : forall w' l', length l' = length l -> view w' = {| fds := std i0 o0 e0; pipes := p; calls := cs0 |} ->
    length l' = length l /\ exists new, view w' = {| fds := std i0 o0 e0; pipes := p; calls := cs0 ++ new |} /\ (length new <= 1)%nat /\ Forall (single_ok l a b) new).
  { intros w' l' Hl' Hv'. split; [done|]. exists []. rewrite app_nil_r. split; [done|]. split; [cbn; lia|constructor]. }
  destruct (trim_total l a b) as (s1 & e1 & Et & H1 & H2); [lia..|]. apply wp_bind. eapply wp_pure; [exact Et|]. cbv beta iota.
  apply background_cut; [lia|lia|]. intros bg s2 e2 H3 H4. cbv beta iota.
  destruct (parse_redirect_total l s2 e2) as (i & redir & Hpar & Hi & Hred); [lia..|]. apply wp_bind. eapply wp_pure; [exact Hpar|]. cbv beta iota.
  apply wp_bind. eapply (wp_single_open l redir i e2); [lia|done|lia|exact Hv|..].
  { intros w1 rfd Hv1 Hneg Hn. rewrite bool_decide_true, (proj2 (Z.ltb_lt _ _)) by (done || (destruct redir; [by eexists|done])). cbn [andb].
    apply wp_bind. eapply (wp_silent view); [auto with silent|exact (eq_trans Hv1 Hv)|]. intros w2 ? Hv2. apply wp_ret. by apply Hnil. }
  intros w1 rfd h Hv1 Hrfd.
  assert (Hgo : bool_decide (is_Some redir) && (rfd <? 0) = false).
  { destruct Hrfd as [[_ ->]|(? & _)]; [done|]. rewrite (proj2 (Z.ltb_ge _ _)) by lia. apply andb_false_r. }
  rewrite Hgo. apply wp_bind. eapply (wp_prepare l s2 i); [lia|lia|exact Hv1|]. intros w2 l2 r Hv2 [Hag Hr]. cbv beta iota.
  destruct r as [[path argv]|].
  2: { apply wp_bind. eapply wp_close_if; [exact Hv2|]. intros w3 Hv3. apply wp_ret. apply Hnil; [apply Hag|]. rewrite Hv3. f_equal. unfold opened.
       destruct Hrfd as [[? _]|(? & _)]; destruct (Z.leb_spec 0 rfd); try (done || lia). apply map_eq. intros j. tbl. }
  destruct Hr as [Hpath Hargv]. eapply (wp_single_start l2 rfd h redir); [done| |exact Hv2|].
  { intros pid. destruct (pid <? 0); [auto with silent|]. destruct bg; [auto with silent|]. apply silent_run. intros. apply obs_waitpid. }
  intros w3 Hv3. split; [apply Hag|]. eexists. split; [exact Hv3|]. split; [done|]. apply Forall_singleton. exists s2, e2, i, redir. cbn [c_path c_argv c_fds].
  split_and!; try (done || lia); unfold moved, opened; destruct Hrfd as [[? Hn]|(? & ? & ?)]; destruct (Z.leb_spec 0 rfd); try lia; try tbl;
    eexists; (split; [tbl|by split]).
Qed.

(** ** A line *)

Lemma split_stages_total l e fuel : forall a lo acc, 0 <= lo <= a -> a <= e -> e < len l -> (8 - length acc <= fuel)%nat ->
  exists r, split_stages l a e acc fuel = Some r /\ forall st, r = Some st -> exists new, st = acc ++ new /\ new <> [] /\ stages_in l lo new.
Proof.
  induction fuel as [|fuel IH]; intros a lo acc Hlo Ha He Hf; cbn [split_stages];
    destruct (find_top_total l a e 124) as (cut & -> & Hc); [lia|lia| |lia|lia|]; cbn [mbind option_bind]; unfold MAX_STAGES in *.
  - rewrite (proj2 (Z.leb_le _ _)) by lia. eexists. split; [done|by intros].
  - destruct (Z.leb_spec 8 (len acc)); [eexists; split; [done|by intros]|]. destruct cut as [k|].
    + specialize (Hc k eq_refl). cbn [default from_option id]. destruct (IH (k + 1) (k + 1) (acc ++ [(a, k)])) as (r & -> & Hr); [lia..|rewrite length_app; cbn; lia|].
      eexists. split; [done|]. intros st Hst. destruct (Hr st Hst) as (new & -> & _ & Hin). exists ((a, k) :: new).
      rewrite <- app_assoc. split; [done|]. split; [done|]. cbn. split_and!; (lia || done).
    + eexists. split; [done|]. intros st [= <-]. exists [(a, e)]. split; [done|]. split; [done|]. cbn. lia.
Qed.

(** Ends with the buffer's length kept and the shell at rest. *)
Definition calm l : W -> list Z * bool -> Prop := fun w' r => length r.1 = length l /\ at_rest w'.

Lemma exec_stages_calm l st w : at_rest w -> stages_in l 0 st -> st <> [] ->
  wp (match st with [s0] => b ← run_single l s0; mret (b, true) | _ => b ← run_pipeline_n l st; mret (b, true) end) (calm l) w.
Proof.
  intros [Hf Hold] Hin Hne. destruct (view w) as [m p cs] eqn:Hv. cbn in Hf, Hold. subst m.
  assert (Hpipe : wp (b ← run_pipeline_n l st; mret (b, true)) (calm l) w).
  { apply wp_bind. eapply wp_mono; [by eapply (pipeline_runs i0 o0 e0 p)|]. cbv beta. intros w' l' (Hl & p' & new & Hv' & _ & _ & HP).
    apply wp_ret. split; [done|]. unfold at_rest. rewrite Hv'. split; [done|]. cbn. intros h Hh k. replace (p' + k)%nat with (p + (p' - p + k))%nat by lia. auto. }
  destruct st as [|[a b] [|]]; [done| |done].
  apply wp_bind. cbn in Hin. eapply wp_mono; [eapply (single_runs l a b); [lia|lia|done]|]. cbv beta. intros w' l' (Hl & new & Hv' & _).
  apply wp_ret. split; [done|]. unfold at_rest. by rewrite Hv'.
Qed.

Lemma starts_with_length p l : starts_with p l = true -> (length p <= length l)%nat.
Proof.
  unfold starts_with. intros H%bool_decide_eq_true. revert l H. induction p as [|a p IH]; intros [|b l]; cbn; try lia.
  - by intros [? ?].
  - destruct (a =? b); [|by intros [? ?]]. intros H%IH. lia.
Qed.
End line.
Ltac quiet := apply wp_bind; eapply silent_rest; [auto with silent|eassumption|intros ? ? ?; cbv beta].
Section line2.
Context {W : Type} {HO : ShOs W} {HL : ShOsLaws W}.
Context (i0 o0 e0 : Handle).
Implicit Types (w : W) (l : list Z).

Lemma exec_line_calm fuel : forall l s e w, 0 <= s <= e -> e < len l -> (Z.to_nat (e - s) <= fuel)%nat -> at_rest i0 o0 e0 w ->
  wp (exec_line_loop fuel l s e) (calm i0 o0 e0 l) w.
Proof.
  induction fuel as [|fuel IH]; intros l s e w Hs He Hf Hw.
  { assert (s = e) as -> by lia. cbn. rewrite Z.eqb_refl. by apply wp_ret. }
  cbn [exec_line_loop]. destruct (Z.eqb_spec s e); [by apply wp_ret|].
  apply wp_bind. eapply wp_pure; [apply bslice_total; lia|]. set (line := slice _ _ _).
  assert (Hlen : length line = Z.to_nat (e - s)) by (unfold line; rewrite slice_seg, seg_length; lia).
  case_bool_decide; [by apply wp_ret|]. case_bool_decide; [quiet; by apply wp_ret|]. case_bool_decide; [quiet; by apply wp_ret|].
  destruct (starts_with (as_bytes "sudo ") line) eqn:Esudo.
  { apply starts_with_length in Esudo. cbn in Esudo. destruct (trim_total l (s + 5) e) as (ss & se & Et & ? & ?); [lia..|].
    apply wp_bind. eapply wp_pure; [exact Et|]. cbv beta iota. destruct (Z.ltb_spec ss se); [|by apply wp_ret]. apply IH; [lia..|done]. }
  destruct (_ || _); [quiet; by apply wp_ret|]. destruct (_ || _); [quiet; by apply wp_ret|].
  destruct (split_stages_total l e 8 s s []) as (r & Er & Hr); [lia..|cbn; lia|]. apply wp_bind. eapply wp_pure; [exact Er|].
  destruct r as [st|]; [|quiet; by apply wp_ret]. destruct (Hr st eq_refl) as (new & -> & Hne & Hin). cbn [app].
  assert (Hin0 : stages_in l 0 new) by (destruct new as [|[? ?] ?]; [done|]; cbn in *; destruct Hin as (? & ? & ?); split_and!; (lia || done)).
  pose proof (exec_stages_calm i0 o0 e0 l new w Hw Hin0 Hne) as Hex. destruct new as [|? [|]]; done.
Qed.

Lemma run_line_calm fuel : forall l seg i e q w, 0 <= seg <= i -> i <= e -> e < len l -> (Z.to_nat (e - i) <= fuel)%nat -> at_rest i0 o0 e0 w ->
  wp (line_loop fuel l seg i e q) (calm i0 o0 e0 l) w.
Proof.
  assert (Hexec : forall l s e w, 0 <= s <= e -> e < len l -> at_rest i0 o0 e0 w -> wp (exec_line l s e) (calm i0 o0 e0 l) w).
  { intros. apply exec_line_calm; (lia || done). }
  induction fuel as [|fuel IH]; intros l seg i e q w Hseg Hi He Hf Hw; cbn [line_loop]; destruct (Z.ltb_spec i e); try lia.
  1, 3: destruct (trim_total l seg e) as (ss & se & Et & ? & ?); [lia..|]; apply wp_bind; eapply wp_pure; [exact Et|]; cbv beta iota;
    destruct (Z.ltb_spec ss se); [apply Hexec; (lia || done)|by apply wp_ret].
  destruct (bget_total l i) as [c Hc]; [lia|]. apply wp_bind. eapply wp_pure; [exact Hc|].
  assert (Hnext : forall l' seg' q' w', length l' = length l -> 0 <= seg' <= i + 1 -> at_rest i0 o0 e0 w' -> wp (line_loop fuel l' seg' (i + 1) e q') (calm i0 o0 e0 l) w').
  { intros l' seg' q' w' Hl' Hs' Hw'. eapply wp_mono; [apply IH; (lia || done)|]. cbv beta. intros w2 r [Hr1 Hr2]. split; [congruence|done]. }
  destruct (negb (q =? 0)); [apply Hnext; (lia || done)|]. destruct (is_quote c); [apply Hnext; (lia || done)|]. destruct (c =? 59); [|apply Hnext; (lia || done)].
  destruct (trim_total l seg i) as (ss & se & Et & ? & ?); [lia..|]. apply wp_bind. eapply wp_pure; [exact Et|]. cbv beta iota.
  destruct (Z.ltb_spec ss se); [|apply Hnext; (lia || done)].
  apply wp_bind. eapply wp_mono; [apply Hexec; (lia || done)|]. intros w1 [l1 more] [Hl1 Hw1]. cbn in Hl1. cbv beta iota.
  destruct more; [apply Hnext; (lia || done)|]. by apply wp_ret.
Qed.

(** ** A script *)

(** The script open at the descriptor 3, whatever else is at rest. *)
Definition reading (h : Handle) v w : Prop := view w = with_fds (<[3 := h]> (std i0 o0 e0)) v.

Lemma wp_read fd n h v w (Q : W -> Z * list Z -> Prop) : reading h v w -> (forall w' r d, reading h v w' -> r <= n -> Q w' (r, d)) -> wp (call (os_read fd n)) Q w.
Proof.
  intros Hv HQ. apply wp_call. pose proof (read_law fd n w) as Hl. destruct (os_read fd n w) as [w' [r d]]. destruct Hl as [Hl Hr].
  cbn. apply HQ; [|done]. unfold reading in *. by rewrite Hl.
Qed.
Lemma wp_close_script h v w (Q : W -> Z -> Prop) : fds v = std i0 o0 e0 -> reading h v w -> (forall w' r, view w' = v -> Q w' r) -> wp (call (os_close 3)) Q w.
Proof.
  intros Hf Hv HQ. destruct v as [m p c]. cbn in Hf. subst m. eapply wp_close; [exact Hv|]. intros w' r Hv'. apply HQ. by rewrite Hv'.
Qed.

Lemma read_script_total h v path fuel : forall file w, fds v = std i0 o0 e0 -> reading h v w -> len file <= SCRIPT_MAX -> (Z.to_nat (SCRIPT_MAX - len file) <= fuel)%nat ->
  wp (read_script fuel path 3 file) (fun w' r => match r with inl st => view w' = v | inr _ => reading h v w' end) w.
Proof.
  induction fuel as [|fuel IH]; intros file w Hf Hv Hl Hfuel; cbn [read_script]; destruct (Z.eqb_spec (len file) SCRIPT_MAX) as [E|E]; try lia.
  1, 2: apply wp_bind; eapply wp_read; [exact Hv|]; intros w1 n d Hv1 _; cbv beta iota; destruct (0 <? n); [|by apply wp_ret];
    apply wp_bind; eapply wp_close_script; [done|exact Hv1|]; intros w2 ? Hv2; apply wp_bind; eapply (wp_silent view); [auto with silent|exact Hv2|]; intros w3 ? Hv3; by apply wp_ret.
  rewrite (proj2 (Z.leb_le _ _)) by lia. apply wp_bind. eapply wp_pure; [done|].
  apply wp_bind. eapply wp_read; [exact Hv|]. intros w1 n d Hv1 Hn. cbv beta iota. destruct (Z.ltb_spec n 0).
  { apply wp_bind. eapply wp_close_script; [done|exact Hv1|]. intros w2 ? Hv2. apply wp_bind. eapply (wp_silent view); [auto with silent|exact Hv2|].
    intros w3 ? Hv3. by apply wp_ret. }
  destruct (Z.eqb_spec n 0); [by apply wp_ret|]. apply IH; [done|done|..]; rewrite length_app, fill_length; lia.
Qed.

Lemma script_loop_calm path file fuel : forall start i l w, 0 <= start <= i -> i <= len file + 1 -> start <= len file \/ i = len file + 1 -> length l = 65%nat ->
  (Z.to_nat (len file + 1 - i) <= fuel)%nat -> at_rest i0 o0 e0 w -> wp (script_loop fuel path file start i l) (fun w' _ => at_rest i0 o0 e0 w') w.
Proof.
  induction fuel as [|fuel IH]; intros start i l w Hs Hi Hsl Hl Hf Hw; cbn [script_loop]; destruct (Z.leb_spec i (len file)); try lia; try (by apply wp_ret).
  apply wp_bind. assert (exists nl, (if i =? len file then Some true else c ← bget file i; Some (c =? 10)) = Some nl) as [nl Enl].
  { destruct (Z.eqb_spec i (len file)); [by eexists|]. destruct (bget_total file i) as [c ->]; [lia|]. by eexists. }
  eapply wp_pure; [exact Enl|]. destruct nl; [|apply IH; (lia || done)].
  apply wp_bind. eapply wp_pure; [apply bslice_total; lia|]. set (line := strip_cr _). cbv zeta.
  destruct (Z.ltb_spec LINE (len line)) as [Hlong|Hshort]; unfold LINE in *.
  { apply wp_bind. eapply silent_rest; [auto with silent|done|]. intros w1 ? Hw1. apply IH; (lia || done). }
  set (l1 := line ++ drop (length line) l). assert (Hl1 : length l1 = 65%nat) by (unfold l1; rewrite length_app, length_drop; lia).
  destruct (trim_total l1 0 (len line)) as (s & e & Et & ? & ?); [lia|lia|]. apply wp_bind. eapply wp_pure; [exact Et|]. cbv beta iota. apply wp_bind.
  assert (exists go, (if s <? e then c ← bget l1 s; Some (negb (c =? 35)) else Some false) = Some go) as [go Ego].
  { destruct (Z.ltb_spec s e); [|by eexists]. destruct (bget_total l1 s) as [c ->]; [lia|]. by eexists. }
  eapply wp_pure; [exact Ego|]. destruct go; [|apply IH; (lia || done)].
  apply wp_bind. eapply wp_mono; [apply run_line_calm; (lia || done)|]. cbv beta. intros w1 [l2 more] [Hl2 Hw1]. cbn in Hl2. cbv beta iota.
  destruct more; [apply IH; (lia || done)|]. by apply wp_ret.
Qed.

Lemma run_script_calm path w : at_rest i0 o0 e0 w -> wp (run_script path) (fun w' _ => at_rest i0 o0 e0 w') w.
Proof.
  intros [Hf Hold]. unfold run_script. destruct (view w) as [m p cs] eqn:Hv. cbn in Hf, Hold. subst m.
  apply wp_bind. eapply wp_open; [exact Hv|..].
  { intros w1 r Hv1 Hr. rewrite (proj2 (Z.ltb_lt _ _)) by lia. apply wp_bind. eapply (wp_silent view); [auto with silent|exact Hv1|]. intros w2 ? Hv2.
    apply wp_ret. unfold at_rest. by rewrite Hv2. }
  intros w1 r h Hv1 (Hr & Hn & Hlow) Hpl.
  assert (r = 3) as ->.
  { destruct (decide (r < 3)) as [Hr3|Hr3].
    - exfalso. assert (r = 0 \/ r = 1 \/ r = 2) as [-> | [-> | ->]] by lia; revert Hn; tbl.
    - destruct (decide (r = 3)); [done|]. destruct (Hlow 3 ltac:(lia)) as [? H3]. revert H3. tbl. }
  cbn [Z.ltb Z.compare]. apply wp_bind.
  eapply wp_mono; [eapply (read_script_total h {| fds := std i0 o0 e0; pipes := p; calls := cs |}); [done|exact Hv1|cbn; unfold SCRIPT_MAX; lia|cbn; unfold SCRIPT_MAX; lia]|].
  cbv beta. intros w2 [st|file] Hv2; [apply wp_ret; unfold at_rest; by rewrite Hv2|].
  apply wp_bind. eapply wp_close_script; [|exact Hv2|]; [done|]. intros w3 ? Hv3.
  apply wp_bind. eapply wp_mono; [eapply script_loop_calm; try lia; [by rewrite length_replicate|by unfold at_rest; rewrite Hv3]|].
  cbv beta. intros w4 ? Hw4. by apply wp_ret.
Qed.
End line2.

(** C34. Whatever a line or a script holds, the shell survives it.  The shell has exactly
    the descriptors 0, 1 and 2 open, as one that a terminal or a session has started does
    (a [sh] that another shell starts with its output redirected also inherits that
    shell's saved descriptor 12, and is not meant).  Then [run_line] on any range of its
    buffer and [run_script] on any path end without a panic, over any system that keeps
    [ShOsLaws], and leave these descriptors exactly as they were and no other open, on
    every path through redirections, pipelines, and commands that cannot be run. *)
Theorem shell_keeps_descriptors {W} {HO : ShOs W} {HL : ShOsLaws W} i0 o0 e0 w : at_rest i0 o0 e0 w ->
  (forall l s e, 0 <= s <= e -> e < len l ->
     exists w' l' more, run_line l s e w = Done (w', (l', more)) /\ length l' = length l /\ fds (view w') = fds (view w)) /\
  (forall path, exists w' status, run_script path w = Done (w', status) /\ fds (view w') = fds (view w)).
Proof.
  intros Hw. split.
  - intros l s e Hs He. destruct (run_line_calm i0 o0 e0 (length l) l s s e 0 w) as (w' & [l' more] & E & Hl & Hf & _); [lia..|done|].
    exists w', l', more. split; [exact E|]. split; [done|]. by rewrite Hf, (proj1 Hw).
  - intros path. destruct (run_script_calm i0 o0 e0 path w Hw) as (w' & st & E & Hf & _). exists w', st. split; [exact E|]. by rewrite Hf, (proj1 Hw).
Qed.

(** A redirected command, a pipeline with a redirection, and a refused one. *)
Definition busy_line : list Z :=
  let t := as_bytes "ls > a; cat b | wc >> c; | x; ls 'q" in t ++ replicate (65 - length t) 0.
Lemma toy_at_rest typed : at_rest (HL := toy_os_laws) (Term 0) (Term 1) (Term 2) (toy_world typed).
Proof. split; [done|]. by intros h [-> |[-> | ->]] k. Qed.
Lemma shell_keeps_descriptors_witness :
  0 <= 0 <= 35 /\ 35 < len busy_line /\
  exists w' l' more, run_line busy_line 0 35 (toy_world []) = Done (w', (l', more)) /\ length l' = 65%nat /\ fds (t_view w') = fds (t_view (toy_world [])).
Proof.
  split_and!; [lia..|by vm_compute|].
  by apply (proj1 (shell_keeps_descriptors (HL := toy_os_laws) (Term 0) (Term 1) (Term 2) (toy_world []) (toy_at_rest []))); vm_compute.
Defined.

(** C33. The programs of a pipeline are wired as a pipeline, for a shell with exactly the
    descriptors 0, 1 and 2 open and stages that follow one another in its buffer.  Each
    stage that is started gets the words of its part of the line, reads the pipe of the
    stage before it (the first, what the shell reads), writes its redirection or else the
    pipe to the next stage (the last, what the shell writes), and holds no write end of
    any pipe before it, so that its input ends when the stage before has ended.  The
    stages are started in order, all of them unless one has words that cannot be run:
    none, too many, or a first one that is too long or no valid text.  (Of a part with a
    NUL in it, nothing is said of its words.) *)
Theorem pipeline_wiring {W} {HO : ShOs W} {HL : ShOsLaws W} i0 o0 e0 P w cs l stages :
  (forall h, h = i0 \/ h = o0 \/ h = e0 -> forall k, h <> wr_end (P + k)) ->
  stages_in l 0 stages -> view w = {| fds := std i0 o0 e0; pipes := P; calls := cs |} ->
  exists w' l' new, run_pipeline_n l stages w = Done (w', l') /\ calls (view w') = cs ++ new /\ fds (view w') = std i0 o0 e0 /\
    (forall k c, new !! k = Some c -> stage_ok i0 o0 e0 P l stages k c) /\ all_started l stages (length new).
Proof.
  intros Hold Hin Hv. destruct (pipeline_runs i0 o0 e0 P Hold l stages w cs Hin Hv) as (w' & l' & E & _ & p & new & Hv' & Hok & Hall & _).
  exists w', l', new. by rewrite Hv'.
Qed.

(** A command word that is no valid text is not run. *)
Example no_text_refused : resolve_path [255; 97] (LINE + 8) = [] /\ resolve_path (as_bytes "a") (LINE + 8) = as_bytes "/bin/a".
Proof. by vm_compute. Qed.

(** [cat b | sort | wc > c], whose second stage reads and writes pipes. *)
Definition piped : list Z := let t := as_bytes "cat b | sort | wc > c" in t ++ replicate (65 - length t) 0.
Definition piped_stages : list (Z * Z) := [(0, 6); (7, 13); (14, 21)].
Lemma pipeline_wiring_witness :
  stages_in piped 0 piped_stages /\
  exists w' l' new, run_pipeline_n piped piped_stages (toy_world []) = Done (w', l') /\ calls (t_view w') = [] ++ new /\
    fds (t_view w') = std (HL := toy_os_laws) (Term 0) (Term 1) (Term 2) /\
    (forall k c, new !! k = Some c -> stage_ok (HL := toy_os_laws) (Term 0) (Term 1) (Term 2) 0 piped piped_stages k c) /\ all_started piped piped_stages (length new).
Proof.
  assert (H : stages_in piped 0 piped_stages) by (cbn; lia). split; [done|].
  apply (pipeline_wiring (HL := toy_os_laws) (Term 0) (Term 1) (Term 2) 0 (toy_world []) [] piped piped_stages); [|done|done].
  by intros h [-> |[-> | ->]] k.
Defined.
Example piped_runs : exists w' l', run_pipeline_n piped piped_stages (toy_world []) = Done (w', l') /\
  (fun c => (c_path c, c_argv c, c_fds c !! 0, c_fds c !! 1)) <$> calls (t_view w') =
  [(as_bytes "/bin/cat", as_bytes <$> ["cat"; "b"]%string, Some (Term 0), Some (Wr 0));
   (as_bytes "/bin/sort", as_bytes <$> ["sort"]%string, Some (Rd 0), Some (Wr 1));
   (as_bytes "/bin/wc", as_bytes <$> ["wc"]%string, Some (Rd 1), Some (File (as_bytes "c")))].
Proof. eexists _, _. split; [vm_compute; reflexivity|by vm_compute]. Qed.
