(* ===== verification/ShEdit.v ===== *)
(** * ShEdit: the prompt and the line editor of the user shell (userland/apps/src/bin/sh.rs)

    The bytes typed, the line edited in its buffer of 64 bytes, what is redrawn, tab
    completion, and the loop of the program.  The program's static data is the record
    [Statics]: no function of the file writes the history after the start. *)

From Stdlib Require Import Ascii.
From S2P Require Import Prelude Text Sh.

Open Scope Z_scope.

(* @src userland/apps/src/bin/sh.rs 281-281 HISTORY_MAX *)
Definition HISTORY_MAX : Z := 16.
(* @src userland/apps/src/bin/sh.rs 281-284 HISTORY *)
Record Statics := { USER : list Z; HISTORY_BUF : list (list Z); HISTORY_LENS : list Z; HISTORY_COUNT : Z }.
Definition statics0 : Statics :=
  {| USER := []; HISTORY_BUF := replicate (Z.to_nat HISTORY_MAX) (replicate (Z.to_nat LINE) 0); HISTORY_LENS := replicate (Z.to_nat HISTORY_MAX) 0; HISTORY_COUNT := 0 |}.

(** What is being edited: the buffer, the length of the line and the position in it,
    and what the history needs. *)
(* @src userland/apps/src/bin/sh.rs 540-547 read_line (state) *)
Record Ed := { buf : list Z; elen : Z; epos : Z; history_idx : Z; draft_buf : list Z; draft_len : Z }.
Definition with_text (b : list Z) (l p : Z) (e : Ed) : Ed :=
  {| buf := b; elen := l; epos := p; history_idx := history_idx e; draft_buf := draft_buf e; draft_len := draft_len e |}.
Definition at_pos (p : Z) (e : Ed) : Ed := with_text (buf e) (elen e) p e.

(** ** Pieces *)

(** [copy_from_slice] at the end of what is in a buffer of [cap] bytes. *)
Definition put (cap : Z) (out p : list Z) : list Z := if len out + len p <=? cap then out ++ p else out.
Definition must_put (cap : Z) (out p : list Z) : option (list Z) := if len out + len p <=? cap then Some (out ++ p) else None.
Definition CSI : list Z := [27; 91].

(** [&s\[k..\]] of a text panics inside a character; [str::rfind('/')]. *)
Definition str_from (s : list Z) (k : Z) : option (list Z) :=
  if k =? len s then Some [] else if k <? len s then b ← bget s k; if is_cont b then None else Some (drop (Z.to_nat k) s) else None.
Fixpoint rfind (c : Z) (l : list Z) : option Z :=
  match l with
  | [] => None
  | b :: l => match rfind c l with Some i => Some (i + 1) | None => if b =? c then Some 0 else None end
  end.

Section edit.
Context {W : Type} `{HO : !ShOs W} (st : Statics).

(** ** The prompt *)

(* @src userland/apps/src/bin/sh.rs 304-360 prompt_bytes *)
Definition prompt_bytes (cap : Z) : Prog W (list Z) :=
  let user_str := if utf8_valid (USER st) then USER st else [] in
  let at_ := if bool_decide (user_str = []) then [] else as_bytes "@" in
  let out := put cap (put cap [] user_str) at_ in
  cwd ← getcwd_str;
  mret match cwd with
       | inr s =>
         if bool_decide (s = as_bytes "/") then put cap out (as_bytes "EspressoOS:~$ ")
         else put cap (put cap (put cap out (as_bytes "EspressoOS:")) s) (as_bytes "$ ")
       | inl _ => put cap out (as_bytes "EspressoOS:?$ ")
       end.

(* @src userland/apps/src/bin/sh.rs 362-366 print_prompt *)
Definition print_prompt : Prog W unit := p ← prompt_bytes 128; run (os_write 1 p).

Definition SCRATCH : Z := 256.
(* @src userland/apps/src/bin/sh.rs 368-397 redraw_line *)
Definition redraw_line (b : list Z) (l p : Z) : Prog W unit :=
  prompt ← prompt_bytes (SCRATCH - 1);
  let out := 13 :: prompt in
  out ← pure (if 0 <? l then
                let chunk_len := Z.min (Z.min l LINE) (saturating_sub SCRATCH (len out + 32)) in
                chunk ← bslice b 0 chunk_len; must_put SCRATCH out chunk
              else Some out);
  out ← pure (must_put SCRATCH out (CSI ++ as_bytes "K"));
  out ← pure (if p <? l then
                out ← must_put SCRATCH out CSI; out ← must_put SCRATCH out (itoa (l - p)); must_put SCRATCH out (as_bytes "D")
              else Some out);
  run (os_write 1 out).
Definition redraw (e : Ed) : Prog W unit := redraw_line (buf e) (elen e) (epos e).

(** ** Tab completion *)

(* @src userland/apps/src/bin/sh.rs 413-413 BUILTINS *)
Definition BUILTINS : list string := ["help"; "clear"; "exit"; "cd"; "pwd"; "sudo"].
Definition add_match (name suffix : list Z) (ms : list (list Z * list Z)) : list (list Z * list Z) :=
  if len ms <? 32 then ms ++ [(name, suffix)] else ms.
(** The built-in commands and the programs that begin with the prefix, each name once. *)
(* @src userland/apps/src/bin/sh.rs 436-470 handle_tab_completion (commands) *)
Definition command_matches (prefix : list Z) : Prog W (list (list Z * list Z)) :=
  let ms := foldl (fun ms b => if starts_with prefix (as_bytes b) then add_match (as_bytes b) (as_bytes " ") ms else ms) [] BUILTINS in
  '(n, data) ← call (os_readdir (as_bytes "/bin") DIRBUF);
  if 0 <? n then
    es ← pure (entries data n);
    mret (foldl (fun ms e =>
      if utf8_valid e.2 && starts_with prefix e.2 && negb (bool_decide (e.2 ∈ ms.*1)) then add_match e.2 (as_bytes " ") ms else ms) ms es)
  else mret ms.

(** The entries of the directory named before the last slash. *)
(* @src userland/apps/src/bin/sh.rs 471-498 handle_tab_completion (paths) *)
Definition path_matches (prefix : list Z) : Prog W (list (list Z * list Z)) :=
  let '(dir_path, file_prefix) :=
    match rfind 47 prefix with
    | Some k => (take (Z.to_nat (k + 1)) prefix, drop (Z.to_nat (k + 1)) prefix)
    | None => (as_bytes ".", prefix)
    end in
  '(n, data) ← call (os_readdir (if bool_decide (dir_path = []) then as_bytes "." else dir_path) DIRBUF);
  if 0 <? n then
    es ← pure (entries data n);
    mret (foldl (fun ms e =>
      if utf8_valid e.2 && negb (bool_decide (e.2 = as_bytes ".")) && negb (bool_decide (e.2 = as_bytes "..")) && starts_with file_prefix e.2
      then add_match e.2 (as_bytes (if e.1 =? 1 then "/" else " ")) ms else ms) [] es)
  else mret [].

(* @src userland/apps/src/bin/sh.rs 419-425 handle_tab_completion (word) *)
Fixpoint word_start (b : list Z) (idx : Z) (fuel : nat) : option Z :=
  if 0 <? idx then
    c ← bget b (idx - 1);
    if c =? 32 then Some idx else match fuel with O => None | S fuel => word_start b (idx - 1) fuel end
  else Some idx.

(* @src userland/apps/src/bin/sh.rs 415-537 handle_tab_completion *)
Definition handle_tab_completion (e : Ed) : Prog W Ed :=
  ws ← pure (word_start (buf e) (epos e) (length (buf e)));
  prefix ← pure (bslice (buf e) ws (epos e));
  if negb (utf8_valid prefix) then mret e
  else
    let slash := bool_decide (47 ∈ prefix) in
    ms ← (if (ws =? 0) && negb slash then command_matches prefix else path_matches prefix);
    match ms with
    | [] => mret e
    | [(name, suffix)] =>
      let file_sub_prefix := if negb (ws =? 0) && slash then match rfind 47 prefix with Some k => drop (Z.to_nat (k + 1)) prefix | None => prefix end else prefix in
      if len file_sub_prefix <=? len name then
        comp ← pure (str_from name (len file_sub_prefix));
        let add := comp ++ suffix in
        if elen e + len add <=? len (buf e) then
          b ← pure (copy_within (buf e) (epos e) (elen e) (epos e + len add));
          b ← pure (if epos e + len add <=? len b then Some (take (Z.to_nat (epos e)) b ++ add ++ drop (Z.to_nat (epos e + len add)) b) else None);
          let e := with_text b (elen e + len add) (epos e + len add) e in
          _ ← redraw e; mret e
        else mret e
      else mret e
    | ms =>
      _ ← println [];
      _ ← (fix show (ms : list (list Z * list Z)) : Prog W unit := match ms with [] => mret tt | m :: ms => _ ← print [m.1; as_bytes "  "]; show ms end) ms;
      _ ← println [];
      _ ← redraw e; mret e
    end.

(** ** The keys *)

(** A byte that comes within 20 ms. *)
(* @src userland/apps/src/bin/sh.rs 402-410 try_read_byte (loop) *)
Fixpoint try_read_loop (start : Z) (fuel : nat) : Prog W (option Z) :=
  '(n, data) ← call (os_read 0 1);
  if 0 <? n then mret (Some (at_ (fill 1 data) 0))
  else
    now ← call os_uptime;
    if 20 <? saturating_sub (u32 now) start then mret None
    else _ ← run (fun w => (os_yield w, tt)); match fuel with O => spent | S fuel => try_read_loop start fuel end.
(* @src userland/apps/src/bin/sh.rs 399-411 try_read_byte *)
Definition try_read_byte (fuel : nat) : Prog W (option Z) := start ← call os_uptime; try_read_loop (u32 start) fuel.

Fixpoint skip_back (stop : Z -> bool) (b : list Z) (i : Z) (fuel : nat) : option Z :=
  if 0 <? i then
    c ← bget b (i - 1);
    if stop c then Some i else match fuel with O => None | S fuel => skip_back stop b (i - 1) fuel end
  else Some i.

(** The end of a key that changes what is shown. *)
Definition shown (e : Ed) : Prog W (Ed + Z) := _ ← redraw e; mret (inl e).
Definition keep (e : Ed) : Prog W (Ed + Z) := mret (inl e).
(** The line becomes the entry [h_idx] of the history. *)
(* @src userland/apps/src/bin/sh.rs 643-649 read_line (recall) *)
Definition recall (h : Z) (e : Ed) : Prog W (Ed + Z) :=
  let h_idx := h mod HISTORY_MAX in
  h_len ← pure (HISTORY_LENS st !! Z.to_nat h_idx);
  line ← pure (entry ← HISTORY_BUF st !! Z.to_nat h_idx; bslice entry 0 h_len);
  b ← pure (if h_len <=? len (buf e) then Some (line ++ drop (length line) (buf e)) else None);
  shown {| buf := b; elen := h_len; epos := h_len; history_idx := h; draft_buf := draft_buf e; draft_len := draft_len e |}.

(* @src userland/apps/src/bin/sh.rs 703-705 read_line (delete) *)
Definition delete_at (e : Ed) : Prog W (Ed + Z) :=
  b ← pure (copy_within (buf e) (epos e + 1) (elen e) (epos e));
  shown (with_text b (elen e - 1) (epos e) e).

(* @src userland/apps/src/bin/sh.rs 631-712 read_line (escape) *)
Definition on_escape (fuel : nat) (e : Ed) : Prog W (Ed + Z) :=
  bracket ← try_read_byte fuel;
  if negb (bool_decide (bracket = Some 91)) then keep e
  else
    code ← try_read_byte fuel;
    match code with
    | None => keep e
    | Some code =>
      if code =? 65 then
        if (0 <? HISTORY_COUNT st) && (0 <? history_idx e) && (saturating_sub (HISTORY_COUNT st) HISTORY_MAX <? history_idx e) then
          e ← pure (if history_idx e =? HISTORY_COUNT st then
                      line ← bslice (buf e) 0 (elen e);
                      if elen e <=? len (draft_buf e)
                      then Some {| buf := buf e; elen := elen e; epos := epos e; history_idx := history_idx e;
                                   draft_buf := line ++ drop (length line) (draft_buf e); draft_len := elen e |}
                      else None
                    else Some e);
          recall (history_idx e - 1) e
        else keep e
      else if code =? 66 then
        if history_idx e <? HISTORY_COUNT st then
          if history_idx e + 1 =? HISTORY_COUNT st then
            line ← pure (bslice (draft_buf e) 0 (draft_len e));
            b ← pure (if draft_len e <=? len (buf e) then Some (line ++ drop (length line) (buf e)) else None);
            shown {| buf := b; elen := draft_len e; epos := draft_len e; history_idx := history_idx e + 1; draft_buf := draft_buf e; draft_len := draft_len e |}
          else recall (history_idx e + 1) e
        else keep e
      else if code =? 67 then if epos e <? elen e then shown (at_pos (epos e + 1) e) else keep e
      else if code =? 68 then if 0 <? epos e then shown (at_pos (epos e - 1) e) else keep e
      else if code =? 72 then shown (at_pos 0 e)
      else if code =? 70 then shown (at_pos (elen e) e)
      else if code =? 49 then _ ← try_read_byte fuel; shown (at_pos 0 e)
      else if code =? 52 then _ ← try_read_byte fuel; shown (at_pos (elen e) e)
      else if code =? 51 then _ ← try_read_byte fuel; if epos e <? elen e then delete_at e else keep e
      else keep e
    end.

(** One byte typed: the editor behind it, or the length that [read_line] returns. *)
(* @src userland/apps/src/bin/sh.rs 555-723 read_line (match) *)
Definition on_key (fuel : nat) (ch : Z) (e : Ed) : Prog W (Ed + Z) :=
  if (ch =? 10) || (ch =? 13) then _ ← println []; mret (inr (elen e))
  else if (ch =? 8) || (ch =? 0x7f) then
    if 0 <? epos e then
      b ← pure (copy_within (buf e) (epos e) (elen e) (epos e - 1));
      shown (with_text b (elen e - 1) (epos e - 1) e)
    else keep e
  else if ch =? 9 then e ← handle_tab_completion e; keep e
  else if ch =? 1 then shown (at_pos 0 e)
  else if ch =? 5 then shown (at_pos (elen e) e)
  else if ch =? 0x15 then
    if 0 <? epos e then
      b ← pure (copy_within (buf e) (epos e) (elen e) 0);
      shown (with_text b (elen e - epos e) 0 e)
    else keep e
  else if ch =? 0x0b then if epos e <? elen e then shown (with_text (buf e) (epos e) (epos e) e) else keep e
  else if ch =? 0x17 then
    if 0 <? epos e then
      w1 ← pure (skip_back (fun c => negb (c =? 32)) (buf e) (epos e) (length (buf e)));
      wstart ← pure (skip_back (fun c => c =? 32) (buf e) w1 (length (buf e)));
      b ← pure (copy_within (buf e) (epos e) (elen e) wstart);
      shown (with_text b (elen e - (epos e - wstart)) wstart e)
    else keep e
  else if ch =? 0x0c then _ ← run (os_write 1 (CSI ++ as_bytes "2J" ++ CSI ++ as_bytes "H")); shown e
  else if ch =? 4 then
    if elen e =? 0 then _ ← println [as_bytes "exit"]; mret (inr U32_MAX)
    else if epos e <? elen e then delete_at e else keep e
  else if ch =? 3 then _ ← println [as_bytes "^C"]; _ ← print_prompt; keep (with_text (buf e) 0 0 e)
  else if ch =? 0x1b then on_escape fuel e
  else if (0x20 <=? ch) && (ch <? 0x7f) then
    if elen e <? len (buf e) then
      b ← pure (copy_within (buf e) (epos e) (elen e) (epos e + 1));
      b ← pure (bset b (epos e) ch);
      shown (with_text b (elen e + 1) (epos e + 1) e)
    else keep e
  else keep e.

(** The bytes that come, until one ends the line: the buffer and the length. *)
(* @src userland/apps/src/bin/sh.rs 549-726 read_line (loop) *)
Fixpoint read_loop (fuel : nat) (e : Ed) : Prog W (list Z * Z) :=
  match fuel with
  | O => spent
  | S fuel =>
    '(n, data) ← call (os_read 0 1);
    if n <=? 0 then _ ← run (fun w => (os_yield w, tt)); read_loop fuel e
    else
      r ← on_key fuel (at_ (fill 1 data) 0) e;
      match r with inl e => read_loop fuel e | inr l => mret (buf e, l) end
  end.
(* @src userland/apps/src/bin/sh.rs 540-726 read_line *)
Definition read_line (fuel : nat) (b : list Z) : Prog W (list Z * Z) :=
  read_loop fuel {| buf := b; elen := 0; epos := 0; history_idx := HISTORY_COUNT st; draft_buf := replicate (Z.to_nat LINE) 0; draft_len := 0 |}.

(** ** The program *)

(* @src userland/apps/src/bin/sh.rs 6-10 reap_background_jobs *)
Fixpoint reap_background_jobs (fuel : nat) : Prog W unit :=
  pid ← call (os_waitpid 1);
  if 0 <? pid then match fuel with O => spent | S fuel => reap_background_jobs fuel end else mret tt.

(* @src userland/apps/src/bin/sh.rs 56-69 main (loop) *)
Fixpoint repl (fuel : nat) (b : list Z) : Prog W Z :=
  match fuel with
  | O => spent
  | S fuel =>
    _ ← reap_background_jobs fuel;
    _ ← print_prompt;
    '(line, l) ← read_line fuel (take (Z.to_nat LINE) b);
    let b := line ++ drop (Z.to_nat LINE) b in
    '(s, e) ← pure (trim b 0 l);
    '(b, more) ← run_line b s e;
    if more : bool then repl fuel b else _ ← say "Exiting the shell..."; mret 0
  end.
End edit.

(** The user named and the script. *)
(* @src userland/apps/src/bin/sh.rs 33-50 main (arguments) *)
Fixpoint shell_args (args : list (list Z)) (st : Statics) (script : option (list Z)) : Statics * option (list Z) :=
  match args with
  | [] => (st, script)
  | a :: args' =>
    match args' with
    | u :: args'' =>
      if bool_decide (a = as_bytes "--user")
      then shell_args args'' {| USER := take 32 u; HISTORY_BUF := HISTORY_BUF st; HISTORY_LENS := HISTORY_LENS st; HISTORY_COUNT := HISTORY_COUNT st |} script
      else shell_args args' st (match script with None => Some a | _ => script end)
    | [] => (st, match script with None => Some a | _ => script end)
    end
  end.
(* @src userland/apps/src/bin/sh.rs 32-69 main *)
Definition main {W} `{!ShOs W} (fuel : nat) (argv : list (list Z)) : Prog W Z :=
  let '(st, script) := shell_args (drop 1 argv) statics0 None in
  match script with
  | Some path => run_script path
  | None => _ ← say "--- EspressoOS Shell (Userland) ---"; repl st fuel (replicate (Z.to_nat (LINE + 1)) 0)
  end.
