(* ===== verification/ShKeys.v ===== *)
(** * ShKeys: the line editor of the user shell does what its keys say

    The buffer, the length and the position stand for the text before and behind the
    cursor; every key is an operation on those two texts, and [read_line] returns the
    line that the keys typed make. *)

From Stdlib Require Import Ascii.
From S2P Require Import Prelude Text Sh ShOps ShWp ShRun ShEdit.

Open Scope Z_scope.

(** ** The keys, as operations on the text before and behind the cursor *)

Inductive Key : Type :=
  | KChar (c : Z) | KBack | KDelete | KCtrlD | KLeft | KRight | KHome | KEnd | KUp | KDown
  | KKillBefore | KKillAfter | KKillWord | KRedraw | KCancel | KNothing.

Definition none_of (l : list Z) (c : Z) : bool := forallb (fun x => negb (c =? x)) l.

(** The bytes a terminal sends for a key: every byte and every sequence that [read_line]
    tells apart, but for Tab, and those it ignores.  (The line's end is no key here.) *)
Inductive sends : Key -> list Z -> Prop :=
  | s_char c : 0x20 <= c < 0x7f -> sends (KChar c) [c]
  | s_back : sends KBack [0x08]
  | s_del : sends KBack [0x7f]
  | s_delete x : sends KDelete [27; 91; 51; x]
  | s_ctrl_d : sends KCtrlD [0x04]
  | s_left : sends KLeft [27; 91; 68]
  | s_right : sends KRight [27; 91; 67]
  | s_home : sends KHome [27; 91; 72]
  | s_home' x : sends KHome [27; 91; 49; x]
  | s_ctrl_a : sends KHome [0x01]
  | s_end : sends KEnd [27; 91; 70]
  | s_end' x : sends KEnd [27; 91; 52; x]
  | s_ctrl_e : sends KEnd [0x05]
  | s_up : sends KUp [27; 91; 65]
  | s_down : sends KDown [27; 91; 66]
  | s_ctrl_u : sends KKillBefore [0x15]
  | s_ctrl_k : sends KKillAfter [0x0b]
  | s_ctrl_w : sends KKillWord [0x17]
  | s_ctrl_l : sends KRedraw [0x0c]
  | s_ctrl_c : sends KCancel [0x03]
  | s_high c : 0x80 <= c < 0x100 -> sends KNothing [c]
  | s_escape c : c <> 91 -> sends KNothing [27; c]
  | s_control c : 0 <= c < 0x20 -> none_of [1; 3; 4; 5; 8; 9; 10; 11; 12; 13; 21; 23; 27] c = true -> sends KNothing [c]
  | s_sequence c : none_of [49; 51; 52; 65; 66; 67; 68; 70; 72] c = true -> sends KNothing [27; 91; c].

Lemma none_of_neq l c x : none_of l c = true -> x ∈ l -> (c =? x) = false.
Proof. unfold none_of. rewrite forallb_forall. intros H Hx%list_elem_of_In. by apply negb_true_iff, H. Qed.

Definition Zipper : Type := list Z * list Z.
Definition text (z : Zipper) : list Z := z.1 ++ z.2.
Fixpoint drop_while (f : Z -> bool) (l : list Z) : list Z := match l with [] => [] | c :: l' => if f c then drop_while f l' else l end.
(** What is left of a text when the word at its end is erased. *)
Definition kill_word (b : list Z) : list Z :=
  reverse (drop_while (fun c => negb (c =? 32)) (drop_while (fun c => c =? 32) (reverse b))).

(** [None] when the key ends the shell. *)
Definition press (k : Key) (z : Zipper) : option Zipper :=
  let '(b, a) := z in
  match k with
  | KChar c => Some (if len (b ++ a) <? LINE then (b ++ [c], a) else (b, a))
  | KBack => Some (removelast b, a)
  | KDelete => Some (b, tail a)
  | KCtrlD => if bool_decide (b ++ a = []) then None else Some (b, tail a)
  | KLeft => Some (match last b with Some c => (removelast b, c :: a) | None => (b, a) end)
  | KRight => Some (match a with c :: a => (b ++ [c], a) | [] => (b, a) end)
  | KHome => Some ([], b ++ a)
  | KEnd => Some (b ++ a, [])
  | KKillBefore => Some ([], a)
  | KKillAfter => Some (b, [])
  | KKillWord => Some (kill_word b, a)
  | KCancel => Some ([], [])
  | KUp | KDown | KRedraw | KNothing => Some (b, a)
  end.
Fixpoint press_all (ks : list Key) (z : Zipper) : option Zipper :=
  match ks with [] => Some z | k :: ks => z ← press k z; press_all ks z end.

(** ** Moving bytes in the buffer *)

Lemma copy_within_del (b m a t : list Z) : exists t', len t' = len m + len t /\
  copy_within (b ++ m ++ a ++ t) (len b + len m) (len b + len m + len a) (len b) = Some (b ++ a ++ t').
Proof.
  unfold copy_within. rewrite !length_app.
  rewrite (proj2 (Z.leb_le 0 _)), (proj2 (Z.leb_le (len b + len m) _)), (proj2 (Z.leb_le (len b + len m + len a) _)), (proj2 (Z.leb_le (len b + _) _)) by lia. cbn [andb].
  exists (drop (length b + length a) (b ++ m ++ a ++ t)). rewrite length_drop, !length_app. split; [lia|]. f_equal.
  rewrite Nat2Z.id, take_app_length. f_equal. f_equal.
  - unfold slice. replace (Z.to_nat (len b + len m)) with (length (b ++ m)) by (rewrite length_app; lia).
    rewrite (app_assoc b), drop_app_length. replace (Z.to_nat _) with (length a) by lia. by rewrite take_app_length.
  - f_equal. lia.
Qed.

Lemma copy_within_ins (b a t : list Z) n : 0 <= n -> n <= len t -> exists g t', len g = n /\ len t' = len t - n /\
  copy_within (b ++ a ++ t) (len b) (len b + len a) (len b + n) = Some (b ++ g ++ a ++ t').
Proof.
  intros Hn Ht. unfold copy_within. rewrite !length_app.
  rewrite (proj2 (Z.leb_le 0 _)), (proj2 (Z.leb_le (len b) _)), (proj2 (Z.leb_le (len b + len a) _)), (proj2 (Z.leb_le (len b + n + _) _)) by lia. cbn [andb].
  exists (take (Z.to_nat n) (a ++ t)), (drop (Z.to_nat (len a + n)) (a ++ t)).
  rewrite length_take, length_drop, !length_app. split; [lia|]. split; [lia|]. f_equal.
  assert (H1 : take (Z.to_nat (len b + n)) (b ++ a ++ t) = b ++ take (Z.to_nat n) (a ++ t)).
  { rewrite take_app. rewrite (take_ge b) by lia. f_equal. f_equal. lia. }
  assert (H2 : slice (len b) (len b + len a - len b) (b ++ a ++ t) = a).
  { unfold slice. rewrite Nat2Z.id, drop_app_length. replace (Z.to_nat _) with (length a) by lia. apply take_app_length. }
  assert (H3 : drop (Z.to_nat (len b + n + (len b + len a - len b))) (b ++ a ++ t) = drop (Z.to_nat (len a + n)) (a ++ t)).
  { rewrite drop_app_ge by lia. f_equal. lia. }
  rewrite H1, H2, H3. by rewrite <- app_assoc.
Qed.

(** ** What is drawn fits *)

Lemma len_put cap out p : len (put cap out p) <= len out + len p.
Proof. unfold put. destruct (_ <=? _); rewrite ?length_app; lia. Qed.
Lemma must_put_total cap out p : len out + len p <= cap -> must_put cap out p = Some (out ++ p).
Proof. intros H. unfold must_put. by rewrite (proj2 (Z.leb_le _ _)). Qed.
Lemma len_itoa n : len (itoa n) <= 10.
Proof.
  unfold itoa. destruct (n =? 0); [cbn; lia|]. rewrite length_reverse.
  assert (H : forall f m, (length (digits_rev m f) <= f)%nat) by (induction f as [|f IH]; intros m; cbn; [lia|]; destruct (0 <? m); cbn; [specialize (IH (m / 10))|]; lia).
  specialize (H 10%nat n). lia.
Qed.

(** The word before the cursor, byte by byte from its end. *)
Lemma skip_back_spec stop fuel : forall rest b, (length b <= fuel)%nat ->
  skip_back stop (b ++ rest) (len b) fuel = Some (len (drop_while (fun c => negb (stop c)) (reverse b))).
Proof.
  induction fuel as [|fuel IH]; intros rest b Hf.
  - destruct b; [done|cbn in Hf; lia].
  - induction b as [|c b _] using rev_ind; [done|]. cbn [skip_back]. rewrite length_app in *. cbn [length] in *.
    rewrite (proj2 (Z.ltb_lt _ _)) by lia. replace (Z.of_nat (length b + 1) - 1) with (len b) by lia.
    rewrite bget_nat, <- app_assoc, lookup_app_r, Nat.sub_diag by lia. cbn [app lookup list_lookup mbind option_bind].
    rewrite reverse_app. cbn. destruct (stop c); cbn; [rewrite length_reverse; f_equal; lia|]. apply IH. lia.
Qed.
Lemma drop_while_ext f g l : (forall c, f c = g c) -> drop_while f l = drop_while g l.
Proof. intros H. induction l as [|c l IH]; cbn; [done|]. rewrite H. by destruct (g c). Qed.
Lemma drop_while_suffix f l : exists p, l = p ++ drop_while f l.
Proof. induction l as [|c l [p IH]]; cbn; [by exists []|]. destruct (f c); [exists (c :: p); cbn; by f_equal|by exists []]. Qed.

(** ** Over a system whose input is what is typed *)

Class Typing {W : Type} {HO : ShOs W} (typed : W -> list Z) := {
  typing_observed :: Observer typed;
  typing_read w : let '(w', (n, d)) := os_read 0 1 w in
    match typed w with c :: rest => typed w' = rest /\ n = 1 /\ at_ (fill 1 d) 0 = c | [] => typed w' = [] /\ n <= 0 end;
}.

Section keys.
Context {W : Type} {HO : ShOs W} {typed : W -> list Z} {HT : Typing typed} (st : Statics).
Hypothesis Huser : len (USER st) <= 32.
Hypothesis Hhistory : HISTORY_COUNT st = 0.
Implicit Types (w : W) (e : Ed).

Lemma wp_getcwd (Q : W -> Z + list Z -> Prop) w : (forall w' r, typed w' = typed w -> (forall s, r = inr s -> len s <= 128) -> Q w' r) -> wp getcwd_str Q w.
Proof.
  intros HQ. unfold getcwd_str. apply wp_bind, wp_call. pose proof (obs_getcwd PATH_MAX w) as Hl. destruct (os_getcwd PATH_MAX w) as [w' [n d]].
  destruct Hl as (Hv & Hn). cbn. destruct (Z.ltb_spec n 0); [by apply wp_ret, HQ|]. unfold PATH_MAX in *.
  rewrite bslice_total by (rewrite ?fill_length by done; lia). apply wp_bind. eapply wp_pure; [done|]. apply wp_ret, HQ; [done|].
  intros s. destruct (utf8_valid _); [|done]. intros [= <-]. unfold slice. rewrite length_take. lia.
Qed.
Lemma wp_prompt cap (Q : W -> list Z -> Prop) w : (forall w' p, typed w' = typed w -> len p <= 174 -> Q w' p) -> wp (prompt_bytes st cap) Q w.
Proof.
  intros HQ. unfold prompt_bytes. apply wp_bind, wp_getcwd. intros w' r Hw Hr. apply wp_ret, HQ; [done|].
  set (u := if utf8_valid _ then _ else _). assert (len u <= 32) by (unfold u; destruct (utf8_valid _); cbn; lia).
  set (o := put cap (put cap [] u) _).
  assert (Ho : len o <= 33).
  { unfold o. etransitivity; [apply len_put|]. pose proof (len_put cap [] u) as Hp. cbn in Hp. case_bool_decide; cbn; lia. }
  destruct r as [n|s].
  - etransitivity; [apply len_put|]. cbn. lia.
  - specialize (Hr s eq_refl). case_bool_decide; [etransitivity; [apply len_put|]; cbn; lia|].
    etransitivity; [apply len_put|]. pose proof (len_put cap (put cap o (as_bytes "EspressoOS:")) s). pose proof (len_put cap o (as_bytes "EspressoOS:")) as Hp. cbn in *. lia.
Qed.

(** A buffer that holds a line, with the cursor in it. *)
Definition holds e (z : Zipper) : Prop :=
  (exists t, buf e = z.1 ++ z.2 ++ t) /\ length (buf e) = 64%nat /\ elen e = len z.1 + len z.2 /\ epos e = len z.1 /\ history_idx e = 0.

Lemma wp_redraw e z (Q : W -> unit -> Prop) w : holds e z -> (forall w', typed w' = typed w -> Q w' tt) -> wp (redraw st e) Q w.
Proof.
  intros ((t & Hb) & Hlen & Hl & Hp & _) HQ. unfold redraw, redraw_line.
  assert (Hz : len z.1 + len z.2 <= 64) by (rewrite Hb, !length_app in Hlen; lia).
  apply wp_bind, wp_prompt. intros w1 p Hw1 Hpl. apply wp_bind. rewrite Hl, Hp. unfold SCRATCH, LINE.
  assert (exists chunk, len chunk <= 64 /\ (if 0 <? len z.1 + len z.2 then
     chunk ← bslice (buf e) 0 (Z.min (Z.min (len z.1 + len z.2) 64) (saturating_sub 256 (len (13 :: p) + 32))); must_put 256 (13 :: p) chunk else Some (13 :: p)) = Some ((13 :: p) ++ chunk)) as (chunk & Hc & Ec).
  { destruct (Z.ltb_spec 0 (len z.1 + len z.2)).
    - unfold saturating_sub. cbn [length]. rewrite (proj2 (Z.leb_le _ _)) by lia. rewrite bslice_total by lia. cbn [mbind option_bind].
      set (c := slice _ _ _). assert (len c <= 64 /\ len c <= 256 - (Z.of_nat (S (length p)) + 32)) as [? ?] by (unfold c, slice; rewrite length_take; lia).
      exists c. split; [done|]. apply must_put_total. cbn [length]. lia.
    - exists []. rewrite app_nil_r. split; [cbn; lia|done]. }
  assert (Hc2 : len ((13 :: p) ++ chunk) <= 239) by (rewrite length_app; cbn [length]; lia).
  eapply wp_pure; [exact Ec|]. apply wp_bind. eapply wp_pure; [apply must_put_total; rewrite length_app; cbn in *; lia|].
  set (out := _ ++ CSI ++ _). assert (Ho : len out <= 242) by (unfold out; rewrite length_app; cbn in *; lia). clearbody out. apply wp_bind.
  assert (exists o, (if len z.1 <? len z.1 + len z.2 then o ← must_put 256 out CSI; o ← must_put 256 o (itoa (len z.1 + len z.2 - len z.1)); must_put 256 o (as_bytes "D") else Some out) = Some o) as [o Eo].
  { destruct (len z.1 <? len z.1 + len z.2); [|exists out; reflexivity]. pose proof (len_itoa (len z.1 + len z.2 - len z.1)). generalize dependent (itoa (len z.1 + len z.2 - len z.1)). intros i Hi.
    rewrite must_put_total by (cbn; lia). cbn [mbind option_bind]. rewrite must_put_total by (rewrite length_app; cbn; lia). cbn [mbind option_bind].
    rewrite must_put_total by (rewrite !length_app; cbn; lia). by eexists. }
  eapply wp_pure; [exact Eo|]. apply wp_run, HQ. rewrite <- Hw1. apply obs_write.
Qed.

(** A key that ends with the line shown. *)
Definition edits rest z : W -> Ed + Z -> Prop := fun w' r => typed w' = rest /\ exists e', r = inl e' /\ holds e' z.
Lemma wp_shown e z rest w : typed w = rest -> holds e z -> wp (shown st e) (edits rest z) w.
Proof.
  intros Hw He. apply wp_bind. eapply wp_redraw; [done|]. intros w' Hw'. apply wp_ret. split; [congruence|]. by exists e.
Qed.
Lemma wp_keep e z rest w : typed w = rest -> holds e z -> wp (keep e : Prog W _) (edits rest z) w.
Proof. intros Hw He. apply wp_ret. split; [done|]. by exists e. Qed.

Lemma wp_try_read fuel c rest w (Q : W -> option Z -> Prop) : typed w = c :: rest -> (forall w', typed w' = rest -> Q w' (Some c)) -> wp (try_read_byte fuel) Q w.
Proof.
  intros Hw HQ. unfold try_read_byte. apply wp_bind, wp_call. set (w1 := (os_uptime w).1).
  assert (Hw1 : typed w1 = c :: rest) by (rewrite <- Hw; apply obs_uptime).
  destruct fuel; cbn [try_read_loop]; apply wp_bind, wp_call; pose proof (typing_read w1) as Hr; destruct (os_read 0 1 w1) as [w2 [n d]];
    rewrite Hw1 in Hr; destruct Hr as (Hw2 & -> & Hc); cbn [fst snd]; rewrite (proj2 (Z.ltb_lt _ _)) by lia; apply wp_ret; rewrite Hc; by apply HQ.
Qed.

Ltac parts := repeat split; cbn [buf elen epos history_idx with_text at_pos fst snd]; rewrite ?length_app; cbn [length]; try (done || lia).

Lemma holds_move e z z' : holds e z -> text z' = text z -> holds (with_text (buf e) (elen e) (len z'.1) e) z'.
Proof.
  intros ((t & Hb) & Hlen & Hl & Hp & Hh) Ht. unfold text in Ht.
  assert (Hl' : (length z'.1 + length z'.2 = length z.1 + length z.2)%nat) by (by rewrite <- !length_app, Ht).
  parts. exists t. by rewrite Hb, (app_assoc z.1), <- Ht, <- app_assoc.
Qed.
Lemma holds_prefix e z z' : holds e z -> (exists a, text z = text z' ++ a) -> holds (with_text (buf e) (len (text z')) (len z'.1) e) z'.
Proof.
  intros ((t & Hb) & Hlen & Hl & Hp & Hh) [a Ht]. unfold text in *. parts. exists (a ++ t). by rewrite Hb, (app_assoc z.1), Ht, <- !app_assoc.
Qed.
(** The bytes between a position and the cursor, or at the cursor, are erased. *)
Lemma holds_erase e b0 m a : holds e (b0 ++ m, a) -> exists t', copy_within (buf e) (epos e) (elen e) (len b0) = Some t' /\
  holds (with_text t' (elen e - len m) (len b0) e) (b0, a).
Proof.
  intros ((t & Hb) & Hlen & Hl & Hp & Hh). cbn [fst snd] in *. rewrite length_app in *.
  destruct (copy_within_del b0 m a t) as (t' & Ht' & E). exists (b0 ++ a ++ t'). split; [rewrite Hb, <- app_assoc, Hl, Hp, <- E; f_equal; lia|].
  rewrite Hb, !length_app in Hlen. parts. by exists t'.
Qed.
Lemma holds_delete e b c a : holds e (b, c :: a) -> exists t', copy_within (buf e) (epos e + 1) (elen e) (epos e) = Some t' /\
  holds (with_text t' (elen e - 1) (epos e) e) (b, a).
Proof.
  intros ((t & Hb) & Hlen & Hl & Hp & Hh). cbn [fst snd length] in *.
  destruct (copy_within_del b [c] a t) as (t' & Ht' & E). exists (b ++ a ++ t'). split; [rewrite Hb, Hl, Hp; cbn [app length] in E; rewrite <- E; f_equal; lia|].
  rewrite Hb, !length_app in Hlen. cbn [length] in *. rewrite Hp. parts. by exists t'.
Qed.
Lemma holds_insert e b a c : holds e (b, a) -> len (b ++ a) < 64 -> exists t1 t', copy_within (buf e) (epos e) (elen e) (epos e + 1) = Some t1 /\
  bset t1 (epos e) c = Some t' /\ holds (with_text t' (elen e + 1) (epos e + 1) e) (b ++ [c], a).
Proof.
  intros ((t & Hb) & Hlen & Hl & Hp & Hh) H64. cbn [fst snd] in *. rewrite Hb, !length_app in Hlen. rewrite length_app in H64.
  destruct (copy_within_ins b a t 1) as (g & t' & Hg & Ht' & E); [lia..|]. destruct g as [|g [|]]; cbn [length] in Hg; try lia.
  exists (b ++ [g] ++ a ++ t'), (b ++ [c] ++ a ++ t'). split; [by rewrite Hb, Hl, Hp|]. split.
  - rewrite Hp, bset_nat by (rewrite !length_app; cbn [length]; lia). f_equal. by rewrite insert_app_r_alt, Nat.sub_diag by lia.
  - parts. exists t'. by rewrite <- app_assoc.
Qed.

(** The cursor moved within the line. *)
Lemma wp_moved e z z' rest w : typed w = rest -> holds e z -> text z' = text z -> wp (shown st (at_pos (len z'.1) e)) (edits rest z') w.
Proof. intros Hw He Ht. apply wp_shown; [done|]. by apply (holds_move e z z'). Qed.

Lemma wp_delete e b c a rest w : typed w = rest -> holds e (b, c :: a) -> wp (delete_at st e) (edits rest (b, a)) w.
Proof.
  intros Hw He. destruct (holds_delete e b c a He) as (t' & Ht & Hz). apply wp_bind. eapply wp_pure; [exact Ht|]. by apply wp_shown.
Qed.
Lemma holds_back e b a : holds e (b, a) -> b <> [] -> 0 < epos e.
Proof. intros (_ & _ & _ & -> & _) Hb. cbn. destruct b; [done|cbn; lia]. Qed.
Lemma holds_ends e b a : holds e (b, a) -> (a = [] /\ epos e = elen e) \/ (exists c a', a = c :: a' /\ epos e < elen e).
Proof. intros (_ & _ & -> & -> & _). cbn. destruct a as [|c a]; [left; split; [done|cbn; lia]|right]. exists c, a. split; [done|cbn; lia]. Qed.

Lemma wp_home e b a rest w : typed w = rest -> holds e (b, a) -> wp (shown st (at_pos 0 e)) (edits rest ([], b ++ a)) w.
Proof. intros Hw He. by apply (wp_moved e (b, a) ([], b ++ a)). Qed.
Lemma wp_end e b a rest w : typed w = rest -> holds e (b, a) -> wp (shown st (at_pos (elen e) e)) (edits rest (b ++ a, [])) w.
Proof.
  intros Hw He. replace (elen e) with (len (b ++ a)) by (destruct He as (_ & _ & -> & _); rewrite length_app; cbn; lia).
  apply (wp_moved e (b, a) (b ++ a, [])); [done|done|]. unfold text. cbn. by rewrite app_nil_r.
Qed.
Lemma wp_left e b a z' rest w : typed w = rest -> holds e (b, a) -> press KLeft (b, a) = Some z' ->
  wp (if 0 <? epos e then shown st (at_pos (epos e - 1) e) else keep e) (edits rest z') w.
Proof.
  intros Hw He [= <-]. assert (Hp : epos e = len b) by apply He. destruct b as [|c b _] using rev_ind.
  - rewrite Hp. by apply wp_keep.
  - rewrite last_snoc, removelast_last, Hp, length_app. cbn [length]. rewrite (proj2 (Z.ltb_lt _ _)) by lia.
    replace (Z.of_nat (length b + 1) - 1) with (len b) by lia. apply (wp_moved e (b ++ [c], a) (b, c :: a)); [done|done|]. unfold text. cbn. by rewrite <- app_assoc.
Qed.
Lemma wp_right e b a z' rest w : typed w = rest -> holds e (b, a) -> press KRight (b, a) = Some z' ->
  wp (if epos e <? elen e then shown st (at_pos (epos e + 1) e) else keep e) (edits rest z') w.
Proof.
  intros Hw He [= <-]. assert (Hp : epos e = len b) by apply He. destruct (holds_ends e b a He) as [[-> E]|(c & a' & -> & E)].
  - rewrite E, Z.ltb_irrefl. by apply wp_keep.
  - rewrite (proj2 (Z.ltb_lt _ _)) by lia. replace (epos e + 1) with (len (b ++ [c])) by (rewrite length_app; cbn; lia).
    apply (wp_moved e (b, c :: a') (b ++ [c], a')); [done|done|]. unfold text. cbn. by rewrite <- app_assoc.
Qed.
Lemma wp_del e b a rest w : typed w = rest -> holds e (b, a) -> wp (if epos e <? elen e then delete_at st e else keep e) (edits rest (b, tail a)) w.
Proof.
  intros Hw He. destruct (holds_ends e b a He) as [[-> E]|(c & a' & -> & E)]; [rewrite E, Z.ltb_irrefl; by apply wp_keep|].
  rewrite (proj2 (Z.ltb_lt _ _)) by lia. by eapply wp_delete.
Qed.

(** What [ESC \[] and one more byte do. *)
Lemma wp_escape e z z' k more fuel rest w :
  holds e z -> press k z = Some z' -> typed w = more ++ rest -> sends k (27 :: more) -> wp (on_escape st fuel e) (edits rest z') w.
Proof.
  intros He Hpress Hw Hk. unfold on_escape. apply wp_bind. destruct z as [b a].
  inversion Hk; subst; try lia; try done; cbn [app] in Hw; eapply (wp_try_read _ _ _ _ _ Hw); intros w1 Hw1.
  all: try (rewrite bool_decide_false by congruence; injection Hpress as <-; by apply wp_keep).
  all: rewrite bool_decide_true by done; cbn [negb]; apply wp_bind; eapply (wp_try_read _ _ _ _ _ Hw1); intros w2 Hw2; cbv beta iota; cbn [Z.eqb Z.compare Pos.compare Pos.compare_cont Pos.eqb].
  - apply wp_bind. eapply (wp_try_read _ _ _ _ _ Hw2). intros w3 Hw3. injection Hpress as <-. by apply wp_del.
  - by eapply wp_left.
  - by eapply wp_right.
  - injection Hpress as <-. by apply wp_home.
  - apply wp_bind. eapply (wp_try_read _ _ _ _ _ Hw2). intros w3 Hw3. injection Hpress as <-. by apply wp_home.
  - injection Hpress as <-. by apply wp_end.
  - apply wp_bind. eapply (wp_try_read _ _ _ _ _ Hw2). intros w3 Hw3. injection Hpress as <-. by apply wp_end.
  - rewrite Hhistory. injection Hpress as <-. by apply wp_keep.
  - rewrite Hhistory. destruct He as (? & ? & ? & ? & Hh). rewrite Hh. injection Hpress as <-. by apply wp_keep.
  - repeat match goal with |- context [?c =? ?y] => rewrite (none_of_neq [49; 51; 52; 65; 66; 67; 68; 70; 72] c y) by (done || set_solver) end.
    injection Hpress as <-. by apply wp_keep.
Qed.

(** ** One key *)

Lemma kill_word_split b : exists m, b = kill_word b ++ m.
Proof.
  unfold kill_word. destruct (drop_while_suffix (fun c => c =? 32) (reverse b)) as [p Hp]. destruct (drop_while_suffix (fun c => negb (c =? 32)) (drop_while (fun c => c =? 32) (reverse b))) as [q Hq].
  exists (reverse (p ++ q)). rewrite <- reverse_app, <- app_assoc, <- Hq, <- Hp. by rewrite reverse_involutive.
Qed.

Lemma wp_kill_word e b a rest w : typed w = rest -> holds e (b, a) ->
  wp (if 0 <? epos e then
        w1 ← pure (skip_back (fun c => negb (c =? 32)) (buf e) (epos e) (length (buf e)));
        wstart ← pure (skip_back (fun c => c =? 32) (buf e) w1 (length (buf e)));
        b ← pure (copy_within (buf e) (epos e) (elen e) wstart);
        shown st (with_text b (elen e - (epos e - wstart)) wstart e)
      else keep e) (edits rest (kill_word b, a)) w.
Proof.
  intros Hw He. pose proof He as ((t & Hb) & Hlen & Hl & Hp & _). cbn [fst snd] in *.
  destruct b as [|c b _] using rev_ind; [rewrite Hp; by apply wp_keep|]. rewrite (proj2 (Z.ltb_lt _ _)) by (rewrite Hp, length_app; cbn; lia).
  set (bc := b ++ [c]) in *. clearbody bc. clear b c. assert (Hfit : (length bc <= length (buf e))%nat) by (rewrite Hb, length_app; lia).
  set (b1 := reverse (drop_while (fun c => c =? 32) (reverse bc))).
  assert (H1 : skip_back (fun c => negb (c =? 32)) (buf e) (epos e) (length (buf e)) = Some (len b1)).
  { rewrite Hp, Hb at 1. rewrite skip_back_spec by (rewrite Hb, length_app; lia). unfold b1. rewrite length_reverse. do 3 f_equal.
    apply drop_while_ext. intros c. by destruct (c =? 32). }
  destruct (drop_while_suffix (fun c => c =? 32) (reverse bc)) as [p Hp1].
  assert (Hb1 : bc = b1 ++ reverse p) by (unfold b1; rewrite <- reverse_app, <- Hp1; by rewrite reverse_involutive).
  assert (H2 : skip_back (fun c => c =? 32) (buf e) (len b1) (length (buf e)) = Some (len (kill_word bc))).
  { rewrite Hb at 1. rewrite Hb1 at 1. rewrite <- app_assoc. rewrite skip_back_spec by (rewrite Hb, Hb1, !length_app; lia).
    unfold kill_word, b1. by rewrite reverse_involutive, length_reverse. }
  apply wp_bind. eapply wp_pure; [exact H1|]. apply wp_bind. eapply wp_pure; [exact H2|].
  destruct (kill_word_split bc) as [m Hm]. set (kw := kill_word bc) in *. clearbody kw. rewrite Hm in He.
  destruct (holds_erase e kw m a He) as (t' & Ht & Hz). apply wp_bind. eapply wp_pure; [exact Ht|]. apply wp_shown; [done|].
  replace (elen e - (epos e - len kw)) with (elen e - len m); [done|]. rewrite Hp, Hm, length_app. lia.
Qed.

Lemma wp_cancel e w rest : typed w = rest -> length (buf e) = 64%nat -> history_idx e = 0 ->
  wp (_ ← println [as_bytes "^C"]; _ ← print_prompt st; keep (with_text (buf e) 0 0 e)) (edits rest ([], [])) w.
Proof.
  intros Hw Hl Hh. apply wp_bind. eapply (wp_silent typed); [auto with silent|exact Hw|]. intros w1 ? Hw1.
  apply wp_bind, wp_bind, wp_prompt. intros w2 p Hw2 _. apply wp_run. apply wp_ret. split; [rewrite obs_write; congruence|].
  eexists. split; [done|]. parts. by exists (buf e).
Qed.

Lemma wp_back e b a rest w : typed w = rest -> holds e (b, a) ->
  wp (if 0 <? epos e then b' ← pure (copy_within (buf e) (epos e) (elen e) (epos e - 1)); shown st (with_text b' (elen e - 1) (epos e - 1) e) else keep e)
     (edits rest (removelast b, a)) w.
Proof.
  intros Hw He. assert (Hp : epos e = len b) by apply He. destruct b as [|c b _] using rev_ind; [rewrite Hp; by apply wp_keep|].
  rewrite Hp, length_app, removelast_last. cbn [length]. rewrite (proj2 (Z.ltb_lt _ _)) by lia. replace (Z.of_nat (length b + 1) - 1) with (len b) by lia.
  destruct (holds_erase e b [c] a He) as (t' & Ht & Hz). rewrite Hp, length_app in Ht. apply wp_bind. eapply wp_pure; [exact Ht|]. by apply wp_shown.
Qed.
Lemma wp_kill_before e b a rest w : typed w = rest -> holds e (b, a) ->
  wp (if 0 <? epos e then b' ← pure (copy_within (buf e) (epos e) (elen e) 0); shown st (with_text b' (elen e - epos e) 0 e) else keep e)
     (edits rest ([], a)) w.
Proof.
  intros Hw He. assert (Hp : epos e = len b) by apply He. destruct (Z.ltb_spec 0 (epos e)).
  - destruct (holds_erase e [] b a He) as (t' & Ht & Hz). apply wp_bind. eapply wp_pure; [exact Ht|]. rewrite Hp. by apply wp_shown.
  - assert (b = []) as -> by (destruct b; [done|cbn in *; lia]). by apply wp_keep.
Qed.
Lemma wp_char e b a c rest w : typed w = rest -> holds e (b, a) ->
  wp (if elen e <? len (buf e) then b' ← pure (copy_within (buf e) (epos e) (elen e) (epos e + 1)); b' ← pure (bset b' (epos e) c);
        shown st (with_text b' (elen e + 1) (epos e + 1) e) else keep e)
     (edits rest (if len (b ++ a) <? LINE then (b ++ [c], a) else (b, a))) w.
Proof.
  intros Hw He. pose proof He as (_ & Hlen & Hl & _ & _). cbn [fst snd] in Hl. rewrite Hlen, Hl. unfold LINE.
  replace (len (b ++ a)) with (len b + len a) by (rewrite length_app; lia). change (Z.of_nat 64) with 64.
  destruct (Z.ltb_spec (len b + len a) 64); [|by apply wp_keep].
  destruct (holds_insert e b a c He) as (t1 & t' & H1 & H2 & Hz); [rewrite length_app; lia|].
  rewrite <- Hl in *. apply wp_bind. eapply wp_pure; [exact H1|]. apply wp_bind. eapply wp_pure; [exact H2|]. by apply wp_shown.
Qed.

Lemma wp_key e z z' k c more fuel rest w :
  holds e z -> press k z = Some z' -> sends k (c :: more) -> typed w = more ++ rest -> wp (on_key st fuel c e) (edits rest z') w.
Proof.
  intros He Hpress Hk Hw. destruct z as [b a]. unfold on_key.
  destruct (Z.eqb_spec c 27) as [->|Hne]; [cbn [Z.eqb Z.compare Pos.eqb orb]; by eapply wp_escape|].
  inversion Hk; subst; try done; cbn [app] in Hw; cbn [Z.eqb Z.compare Pos.eqb orb].
  - repeat match goal with |- context [c =? ?y] => rewrite (proj2 (Z.eqb_neq c y)) by lia end.
    rewrite (proj2 (Z.leb_le 32 c)), (proj2 (Z.ltb_lt c 127)) by lia. injection Hpress as <-. by apply wp_char.
  - injection Hpress as <-. by apply wp_back.
  - injection Hpress as <-. by apply wp_back.
  - assert (Hl : elen e = len (b ++ a)) by (destruct He as (_ & _ & -> & _); rewrite length_app; cbn; lia).
    cbn in Hpress. case_bool_decide as Hne0; [done|]. rewrite (proj2 (Z.eqb_neq _ _)) by (rewrite Hl; destruct (b ++ a); [done|cbn; lia]).
    injection Hpress as <-. by apply wp_del.
  - injection Hpress as <-. by apply wp_home.
  - injection Hpress as <-. by apply wp_end.
  - injection Hpress as <-. by apply (wp_kill_before e b).
  - injection Hpress as <-. assert (Hp : epos e = len b) by apply He. destruct (holds_ends e b a He) as [[-> E]|(c & a' & -> & E)].
    + rewrite E, Z.ltb_irrefl. by apply wp_keep.
    + rewrite (proj2 (Z.ltb_lt _ _)) by lia. rewrite Hp. apply wp_shown; [done|]. replace (len b) with (len (text (b, []))) at 1 by (unfold text; cbn; by rewrite app_nil_r).
      apply (holds_prefix e (b, c :: a') (b, [])); [done|]. exists (c :: a'). unfold text. cbn. by rewrite app_nil_r.
  - injection Hpress as <-. by apply wp_kill_word.
  - injection Hpress as <-. apply wp_bind, wp_run. apply wp_shown; [rewrite obs_write; done|done].
  - injection Hpress as <-. destruct He as (_ & Hlen & _ & _ & Hh). by apply wp_cancel.
  - repeat match goal with |- context [c =? ?y] => rewrite (proj2 (Z.eqb_neq c y)) by lia end.
    rewrite (proj2 (Z.ltb_ge c 127)), andb_false_r by lia. injection Hpress as <-. by apply wp_keep.
  - match goal with Hc : none_of ?l c = true |- _ =>
      repeat match goal with |- context [c =? ?y] => first [rewrite (none_of_neq l c y Hc) by set_solver | rewrite (proj2 (Z.eqb_neq c y)) by lia] end end.
    rewrite (proj2 (Z.leb_gt 32 c)) by lia. injection Hpress as <-. by apply wp_keep.
Qed.

(** ** The line *)

Lemma wp_read_byte c rest w (Q : W -> Z * list Z -> Prop) : typed w = c :: rest -> (forall w' d, typed w' = rest -> at_ (fill 1 d) 0 = c -> Q w' (1, d)) -> wp (call (os_read 0 1)) Q w.
Proof.
  intros Hw HQ. apply wp_call. pose proof (typing_read w) as Hr. destruct (os_read 0 1 w) as [w' [n d]]. rewrite Hw in Hr.
  destruct Hr as (H1 & -> & H2). cbn. by apply HQ.
Qed.

Lemma read_loop_edits enter rest ks : forall bss fuel e z z' w, (enter = 10 \/ enter = 13) -> Forall2 sends ks bss ->
  holds e z -> press_all ks z = Some z' -> typed w = concat bss ++ enter :: rest -> (length ks < fuel)%nat ->
  wp (read_loop st fuel e) (fun w' r => typed w' = rest /\ (exists t, r.1 = text z' ++ t) /\ length r.1 = 64%nat /\ r.2 = len (text z')) w.
Proof.
  induction ks as [|k ks IH]; intros bss fuel e z z' w Hent Hs He Hpress Hw Hf; (destruct fuel as [|fuel]; [cbn in Hf; lia|]); cbn [read_loop].
  - apply Forall2_nil_inv_l in Hs as ->. cbn in Hpress. injection Hpress as <-. cbn in Hw. apply wp_bind. eapply wp_read_byte; [exact Hw|].
    intros w1 d Hw1 Hd. cbv beta iota. rewrite Hd. cbn [Z.leb Z.compare]. apply wp_bind.
    unfold on_key. rewrite (proj2 (orb_true_iff (enter =? 10) (enter =? 13))) by (destruct Hent as [-> | ->]; [by left|by right]).
    apply wp_bind. eapply (wp_silent typed); [auto with silent|exact Hw1|]. intros w2 ? Hw2. apply wp_ret. cbv beta iota. apply wp_ret. cbn [fst snd].
    destruct He as ((t & Hb) & Hlen & Hl & _). unfold text. split_and!; [done| |done|rewrite Hl, length_app; lia].
    exists t. by rewrite Hb, app_assoc.
  - apply Forall2_cons_inv_l in Hs as (bs & bss' & Hk & Hks & ->). cbn in Hpress. destruct (press k z) as [z1|] eqn:Ez; [|done]. cbn in Hpress.
    assert (exists c more, bs = c :: more) as (c & more & ->) by (destruct Hk; eauto).
    cbn in Hw. rewrite <- app_assoc in Hw. apply wp_bind. eapply wp_read_byte; [exact Hw|].
    intros w1 d Hw1 Hd. cbv beta iota. rewrite Hd. cbn [Z.leb Z.compare]. apply wp_bind.
    eapply wp_mono; [by eapply wp_key|]. cbv beta. intros w2 r (Hw2 & e' & -> & He'). cbv beta iota. eapply IH; eauto. cbn in Hf. lia.
Qed.
End keys.

(** C37. [read_line] returns the line that the keys make.  The keys are printable bytes,
    Backspace, the arrows, Home, End and Delete with their escape sequences, the control
    keys, and the bytes and sequences that mean nothing; all but Tab (the completion can
    panic on its own) and Ctrl+D on an empty line (which ends the shell).  Whatever is
    typed of these, the text before and behind the cursor follows [press] key by key; at
    Enter the buffer begins with that line, its length is the one returned, exactly the
    bytes of those keys have been read, and nothing panics: the line never exceeds its 64
    bytes, and what is redrawn fits, for a user name of up to 32 bytes.  The arrows up
    and down do nothing, since no line ever enters the history. *)
Theorem read_line_edits {W} {HO : ShOs W} {typed : W -> list Z} {HT : Typing typed} st b ks bss z enter rest fuel w :
  len (USER st) <= 32 -> HISTORY_COUNT st = 0 -> length b = 64%nat -> Forall2 sends ks bss -> press_all ks ([], []) = Some z ->
  enter = 10 \/ enter = 13 -> typed w = concat bss ++ enter :: rest -> (length ks < fuel)%nat ->
  exists w' b', read_line st fuel b w = Done (w', (b', len (text z))) /\ typed w' = rest /\ (exists t, b' = text z ++ t) /\ length b' = 64%nat.
Proof.
  intros Hu Hh Hb Hs Hp He Hw Hf.
  set (e := {| buf := b; elen := 0; epos := 0; history_idx := HISTORY_COUNT st; draft_buf := replicate (Z.to_nat LINE) 0; draft_len := 0 |}).
  assert (H0 : holds e ([], [])) by (split_and!; [by exists b|done..]).
  destruct (read_loop_edits st Hu Hh enter rest ks bss fuel e ([], []) z w He Hs H0 Hp Hw Hf) as (w' & [b' l] & E & H1 & H2 & H3 & H4).
  cbn in *. subst l. exists w', b'. done.
Qed.

#[export] Instance toy_typing : Typing t_in.
Proof. constructor; [exact _|]. intros w. cbn. destruct (t_in w) as [|c rest]; cbn; [split; [done|done]|]. split_and!; done. Qed.

(** [ls -x], left, Backspace, [la], Home, Delete, Delete, [l], [s], Enter. *)
Definition typed_keys : list Key :=
  (KChar <$> as_bytes "ls -x") ++ [KLeft; KBack] ++ (KChar <$> as_bytes "la") ++ [KHome; KDelete; KDelete] ++ (KChar <$> as_bytes "ls").
Definition typed_bytes : list (list Z) :=
  ((fun c => [c]) <$> as_bytes "ls -x") ++ [[27; 91; 68]; [127]] ++ ((fun c => [c]) <$> as_bytes "la") ++ [[1]; [27; 91; 51; 126]; [27; 91; 51; 126]] ++ ((fun c => [c]) <$> as_bytes "ls").
Lemma read_line_edits_witness :
  exists w' b', read_line statics0 30 (replicate 64 0) (toy_world (concat typed_bytes ++ 13 :: as_bytes "rest")) = Done (w', (b', len (as_bytes "ls lax"))) /\
    t_in w' = as_bytes "rest" /\ (exists t, b' = as_bytes "ls lax" ++ t) /\ length b' = 64%nat.
Proof.
  apply (read_line_edits (typed := t_in) statics0 (replicate 64 0) typed_keys typed_bytes (as_bytes "ls", as_bytes " lax") 13 (as_bytes "rest") 30).
  - cbn. lia.
  - done.
  - done.
  - repeat first [apply Forall2_nil_2 | apply Forall2_cons_2; [by constructor|]].
  - by vm_compute.
  - by right.
  - done.
  - cbn. lia.
Defined.

(** Ctrl+D on an empty line answers [usize::MAX], and the loop of [main] then trims its
    buffer up to there: the shell ends with a panic, not with its farewell. *)
Lemma ctrl_d_panics b : length b = 65%nat -> trim b 0 U32_MAX = None.
Proof.
  intros Hb. unfold trim. destruct (trim_front b 0 U32_MAX (length b)) as [s|] eqn:E; [|done]. cbn [mbind option_bind].
  assert (Hs : forall fuel i s, 0 <= i <= 65 -> trim_front b i U32_MAX fuel = Some s -> s < U32_MAX).
  { clear -Hb. induction fuel as [|fuel IH]; intros i s Hi; cbn [trim_front]; rewrite (proj2 (Z.ltb_lt _ _)) by (unfold U32_MAX; lia).
    all: destruct (bget b i) as [c|] eqn:Ec; [|done]; cbn [mbind option_bind].
    all: assert (i < 65) by (unfold bget in Ec; destruct (Z.leb_spec 0 i), (Z.ltb_spec i (len b)); cbn in Ec; (lia || done)).
    all: destruct (blank c); [|intros [= <-]; unfold U32_MAX; lia].
    - done.
    - apply IH. lia. }
  apply Hs in E; [|lia]. destruct (length b) eqn:El; [lia|]. cbn [trim_back]. rewrite (proj2 (Z.ltb_lt _ _)) by done.
  unfold bget. rewrite (proj2 (Z.ltb_ge _ (len b))), andb_false_r by (unfold U32_MAX; lia). done.
Qed.
