(* ===== verification/ToolIo.v ===== *)
(** * ToolIo: what the command line programs share (userland/apps/src/bin/)

    The loop over the bytes of an input, read in pieces, and the promises of a system
    that the theorems of the programs rest on: reading gives the input in pieces of any
    size until its end, writing appends. *)

From S2P Require Import Prelude Text Sh ShOps ShWp.

Open Scope Z_scope.

(** ** The loop *)

Section Loop.
Context {W : Type} {HO : ShOs W} {S : Type}.

(** [for &b in &buf\[..n\]]. *)
Fixpoint for_bytes (f : S -> Z -> Prog W S) (s : S) (l : list Z) : Prog W S :=
  match l with [] => mret s | b :: l => s ← f s b; for_bytes f s l end.

(** [loop { n = read(fd, &mut buf); if n <= 0 { break } ... }] with a buffer of [cap]
    bytes; [fuel] bounds the pieces, which the world decides. *)
Fixpoint input_loop (fd cap : Z) (f : S -> Z -> Prog W S) (s : S) (fuel : nat) : Prog W S :=
  '(n, data) ← call (os_read fd cap);
  if n <=? 0 then mret s
  else
    d ← pure (bslice (fill cap data) 0 n);
    s ← for_bytes f s d;
    match fuel with O => spent | Datatypes.S fuel => input_loop fd cap f s fuel end.

(** The same loop for a program that takes each piece as a whole. *)
Fixpoint chunk_loop (fd cap : Z) (f : S -> list Z -> S) (s : S) (fuel : nat) : Prog W S :=
  '(n, data) ← call (os_read fd cap);
  if n <=? 0 then mret s
  else
    d ← pure (bslice (fill cap data) 0 n);
    match fuel with O => spent | Datatypes.S fuel => chunk_loop fd cap f (f s d) fuel end.

(** [buf\[len\] = x; len += 1] in an array of [cap] bytes. *)
Definition push (cap : Z) (buf : list Z) (x : Z) : option (list Z) := if len buf <? cap then Some (buf ++ [x]) else None.
End Loop.

(** ** Numbers *)

Definition is_digit (b : Z) : bool := (48 <=? b) && (b <=? 57).
(** The number that digits stand for. *)
Definition decimal (ds : list Z) : Z := foldl (fun n d => n * 10 + (d - 48)) 0 ds.

Lemma decimal_reverse l : decimal (reverse l) = foldr (fun d m => m * 10 + (d - 48)) 0 l.
Proof. induction l as [|d l IH]; [done|]. rewrite reverse_cons. unfold decimal in *. rewrite foldl_app. cbn. by rewrite IH. Qed.
(** A number as [core] shows it; a [u64] has twenty digits at most. *)
Definition dec (n : Z) : list Z := if n =? 0 then [48] else reverse (digits_rev n 20).

Lemma digits_rev_spec fuel : forall n, 0 <= n < 10 ^ Z.of_nat fuel -> foldr (fun d m => m * 10 + (d - 48)) 0 (digits_rev n fuel) = n /\
  Forall (fun b => is_digit b = true) (digits_rev n fuel) /\ (0 < n -> last (digits_rev n fuel) <> Some 48 /\ digits_rev n fuel <> []).
Proof.
  induction fuel as [|fuel IH]; intros m Hm; cbn [digits_rev].
  - assert (m = 0) as -> by (cbn in Hm; lia). split; [done|]. split; [done|]. lia.
  - destruct (Z.ltb_spec 0 m); [|assert (m = 0) as -> by lia; split; [done|]; split; [done|]; lia].
    pose proof (Z.div_mod m 10 ltac:(lia)) as Hdm. pose proof (Z.mod_pos_bound m 10 ltac:(lia)) as Hb. rewrite Nat2Z.inj_succ, Z.pow_succ_r in Hm by lia.
    destruct (IH (m / 10)) as (I1 & I2 & I3); [split; [apply Z.div_pos; lia|apply Z.div_lt_upper_bound; lia]|]. cbn [foldr]. split; [rewrite I1; lia|].
    split; [constructor; [unfold is_digit; apply andb_true_iff; rewrite !Z.leb_le; lia|done]|]. intros _. split; [|done].
    destruct (Z.eq_dec (m / 10) 0) as [E|E].
    + rewrite E. destruct fuel; cbn; intros [= ?]; lia.
    + destruct I3 as [L1 L2]; [pose proof (Z.div_pos m 10); lia|]. by destruct (digits_rev (m / 10) fuel).
Qed.
(** A number is shown in decimal digits, the first of which is no zero. *)
Definition shows (ds : list Z) (n : Z) : Prop := decimal ds = n /\ Forall (fun b => is_digit b = true) ds /\ (n <> 0 -> head ds <> Some 48).
Lemma digits_shows fuel n : 0 <= n < 10 ^ Z.of_nat fuel -> shows (if n =? 0 then [48] else reverse (digits_rev n fuel)) n.
Proof.
  intros Hn. destruct (Z.eqb_spec n 0) as [->|Hz]; [by repeat constructor|].
  destruct (digits_rev_spec fuel n Hn) as (H1 & H2 & H3). destruct H3 as [H3 H4]; [lia|]. split; [|split].
  - by rewrite decimal_reverse.
  - by apply Forall_reverse.
  - intros _. by rewrite head_reverse.
Qed.
Lemma itoa_decimal n : 0 <= n < 2 ^ 32 -> shows (itoa n) n.
Proof. intros Hn. apply digits_shows. change (Z.of_nat 10) with 10. lia. Qed.
Lemma dec_shows n : 0 <= n < 2 ^ 64 -> shows (dec n) n.
Proof. intros Hn. apply digits_shows. change (Z.of_nat 20) with 20. lia. Qed.

(** ** Lines *)

(** The pieces of a text that grows by a byte. *)
Lemma split_on_snoc l b init last : split_on 10 l = init ++ [last] ->
  split_on 10 (l ++ [b]) = if b =? 10 then init ++ [last; []] else init ++ [last ++ [b]].
Proof.
  revert init last. induction l as [|x l IH]; intros init last; cbn [split_on app].
  - intros E. destruct init as [|? [|]]; try done. injection E as <-. cbn. by destruct (b =? 10).
  - destruct (x =? 10) eqn:Ex.
    + destruct init as [|y init]; cbn [app]; [intros [= <- E]; by destruct (split_on_cons 10 l) as (? & ? & ?); congruence|].
      intros [= <- E]. rewrite (IH _ _ E). by destruct (b =? 10).
    + destruct (split_on_cons 10 l) as (p & ps & E). rewrite E. intros H.
      destruct init as [|y init]; cbn [app] in H.
      * injection H as <- ->. rewrite (IH [] p E). by destruct (b =? 10).
      * injection H as <- ->. rewrite (IH (p :: init) last E). by destruct (b =? 10).
Qed.

(** ** The promises *)

(** [left fd w] is what is still to be read from [fd], [said fd w] what was written to it. *)
Class Stdio {W : Type} {HO : ShOs W} (left said : Z -> W -> list Z) := {
  si_read fd n w : 0 < n -> let '(w', (r, d)) := os_read fd n w in
    r = len d /\ len d <= n /\ left fd w = d ++ left fd w' /\ (d = [] -> left fd w = []) /\
    (forall o, said o w' = said o w);
  si_write fd d w : let w' := (os_write fd d w).1 in
    said fd w' = said fd w ++ d /\ (forall o, o <> fd -> said o w' = said o w) /\ (forall i, left i w' = left i w);
  si_close fd w o : said o (os_close fd w).1 = said o w;
}.

Section Spec.
Context {W : Type} {HO : ShOs W} (left said : Z -> W -> list Z) {HS : Stdio left said}.
Implicit Types w : W.

(** [w'] comes after [w] by writing [d] to a descriptor; [told] is about the standard
    output. *)
Definition told_at (out : Z) w w' (d : list Z) : Prop := said out w' = said out w ++ d /\ forall i, left i w' = left i w.
Definition told := told_at 1.

Lemma told_at_refl out w : told_at out w w [].
Proof. split; [by rewrite app_nil_r|done]. Qed.
Lemma told_at_trans out w w1 w2 d1 d2 : told_at out w w1 d1 -> told_at out w1 w2 d2 -> told_at out w w2 (d1 ++ d2).
Proof. intros [A1 A2] [B1 B2]. split; [by rewrite B1, A1, app_assoc|]. intros i. by rewrite B2, A2. Qed.
Lemma told_refl w : told w w [].
Proof. apply told_at_refl. Qed.
Lemma told_trans w w1 w2 d1 d2 : told w w1 d1 -> told w1 w2 d2 -> told w w2 (d1 ++ d2).
Proof. apply told_at_trans. Qed.

Lemma wp_write_at out d (Q : W -> unit -> Prop) w : (forall w', told_at out w w' d -> Q w' tt) -> wp (run (os_write out d)) Q w.
Proof. intros H. apply wp_run, H. destruct (si_write out d w) as (H1 & _ & H2). by split. Qed.
Lemma wp_write d (Q : W -> unit -> Prop) w : (forall w', told w w' d -> Q w' tt) -> wp (run (os_write 1 d)) Q w.
Proof. apply wp_write_at. Qed.
Lemma wp_writes {A} d (Q : W -> A -> Prop) (f : W -> W * A) w : (forall w, (f w).1 = (os_write 1 d w).1) ->
  (forall w' a, told w w' d -> Q w' a) -> wp (call f) Q w.
Proof. intros Hf H. apply wp_call, H. rewrite Hf. destruct (si_write 1 d w) as (H1 & _ & H2). by split. Qed.
Lemma wp_prints pieces (Q : W -> unit -> Prop) : forall w, (forall w', told w w' (mjoin pieces) -> Q w' tt) -> wp (print pieces) Q w.
Proof.
  induction pieces as [|p pieces IH]; intros w H; cbn [print]; [by apply wp_ret, H, told_refl|].
  apply wp_bind, (wp_writes p); [done|]. intros w1 _ H1. apply IH. intros w2 H2. apply H. by eapply told_trans.
Qed.

(** The bytes that were read, out of the buffer. *)
Lemma read_piece cap d : len d <= cap -> 0 < len d -> bslice (fill cap d) 0 (len d) = Some d.
Proof.
  intros Hd Hz. rewrite bslice_total by (unfold fill; rewrite ?length_take, ?length_app, ?length_replicate; lia). f_equal.
  unfold slice, fill. by rewrite Z.sub_0_r, Nat2Z.id, drop_0, take_take, Nat.min_l, take_app_length by lia.
Qed.

(** The loop of a program, given what a byte does: [P s c o] relates its state to the
    bytes it has read and those it has written. *)
Section Input.
Context {S : Type} (out : Z) (P : S -> list Z -> list Z -> Prop) (f : S -> Z -> Prog W S).
Hypothesis step : forall s c o b w, is_byte b -> P s c o -> wp (f s b) (fun w' s' => exists d, told_at out w w' d /\ P s' (c ++ [b]) (o ++ d)) w.

Lemma for_bytes_spec l : bytes_ok l -> forall s c o w, P s c o ->
  wp (for_bytes f s l) (fun w' s' => exists d, told_at out w w' d /\ P s' (c ++ l) (o ++ d)) w.
Proof.
  induction 1 as [|b l Hb Hl IH]; intros s c o w HP; cbn [for_bytes].
  - apply wp_ret. exists []. rewrite !app_nil_r. split; [apply told_at_refl|done].
  - apply wp_bind. eapply wp_mono; [by apply step|]. intros w1 s1 (d1 & T1 & P1).
    eapply wp_mono; [by apply IH|]. intros w2 s2 (d2 & T2 & P2). exists (d1 ++ d2). split; [by eapply told_at_trans|].
    by rewrite <- !app_assoc in P2.
Qed.

Lemma input_loop_spec fd cap fuel : 0 < cap -> forall s c o w, bytes_ok (left fd w) -> (length (left fd w) <= fuel)%nat -> P s c o ->
  wp (input_loop fd cap f s fuel) (fun w' s' => exists d, said out w' = said out w ++ d /\ left fd w' = [] /\ P s' (c ++ left fd w) (o ++ d)) w.
Proof.
  intros Hcap. induction fuel as [|fuel IH]; intros s c o w Hok Hf HP; cbn [input_loop]; apply wp_bind, wp_call.
  all: pose proof (si_read fd cap w Hcap) as Hr; destruct (os_read fd cap w) as [w1 [r d]]; destruct Hr as (-> & Hd & Hl & Hend & Hs); cbn [fst snd].
  all: destruct (Z.leb_spec (len d) 0) as [Hz|Hz]; [destruct d; [|cbn in Hz; lia]; specialize (Hend eq_refl); apply wp_ret; exists [];
    rewrite Hend in Hl |- *; rewrite !app_nil_r, Hs; split_and!; [done|by cbn in Hl|done]|].
  all: pose proof (read_piece cap d Hd Hz) as Ed.
  1: exfalso; rewrite Hl, length_app in Hf; lia.
  apply wp_bind. eapply wp_pure; [exact Ed|]. rewrite Hl in Hok. apply Forall_app in Hok as [Hok1 Hok2].
  apply wp_bind. eapply wp_mono; [by apply for_bytes_spec|]. intros w2 s2 (d1 & [T1 T2] & P1).
  eapply wp_mono; [apply (IH s2 (c ++ d) (o ++ d1)); [by rewrite T2|rewrite T2; rewrite Hl, length_app in Hf; lia|done]|].
  intros w3 s3 (d2 & E3 & L3 & P3). exists (d1 ++ d2). rewrite T2, <- !app_assoc in P3. rewrite Hl.
  split_and!; [by rewrite E3, T1, Hs, app_assoc|done|done].
Qed.
End Input.

(** The pieces do not matter to a program that could take them together. *)
Lemma chunk_loop_spec {S} (I : S -> Prop) (f : S -> list Z -> S) fd cap fuel : 0 < cap -> (forall s a, I s -> I (f s a)) ->
  (forall s a b, I s -> f (f s a) b = f s (a ++ b)) -> (forall s, I s -> f s [] = s) ->
  forall s w, I s -> (length (left fd w) <= fuel)%nat ->
  wp (chunk_loop fd cap f s fuel) (fun w' s' => s' = f s (left fd w) /\ left fd w' = [] /\ forall o, said o w' = said o w) w.
Proof.
  intros Hcap HI Hf Hnil. induction fuel as [|fuel IH]; intros s w Hs Hl; cbn [chunk_loop]; apply wp_bind, wp_call.
  all: pose proof (si_read fd cap w Hcap) as Hr; destruct (os_read fd cap w) as [w1 [r d]]; destruct Hr as (-> & Hd & E & Hend & Ho); cbn [fst snd].
  all: destruct (Z.leb_spec (len d) 0) as [Hz|Hz]; [destruct d; [|cbn in Hz; lia]; specialize (Hend eq_refl); apply wp_ret; rewrite Hend in E |- *; by rewrite Hnil|].
  1: exfalso; rewrite E, length_app in Hl; lia.
  apply wp_bind. eapply wp_pure; [by apply read_piece|]. eapply wp_mono; [apply IH; [by apply HI|rewrite E, length_app in Hl; lia]|].
  intros w2 s2 (-> & L2 & S2). rewrite Hf, <- E by done. split; [done|]. split; [done|]. intros o. by rewrite S2, Ho.
Qed.
End Spec.

(** ** A small system

    One input, read at most seven bytes at a time, and what each descriptor was given;
    every file holds that input.  The witnesses run on it. *)

Record Desk : Type := { d_in : list Z; d_out : gmap Z (list Z) }.

#[export] Instance desk_os : ShOs Desk := {
  os_open _ _ w := (w, 3);
  os_close _ w := (w, 0);
  os_dup2 _ _ w := (w, -9);
  os_pipe w := (w, (-24, (0, 0)));
  os_spawn _ _ w := (w, -2);
  os_waitpid _ w := (w, -10);
  os_read _ n w := let d := take (Z.to_nat (Z.min n 7)) (d_in w) in
    ({| d_in := drop (Z.to_nat (Z.min n 7)) (d_in w); d_out := d_out w |}, (len d, d));
  os_write fd d w := ({| d_in := d_in w; d_out := <[fd := default [] (d_out w !! fd) ++ d]> (d_out w) |}, len d);
  os_readdir _ _ w := (w, (0, []));
  os_chdir _ w := (w, 0);
  os_getcwd _ w := (w, (0, []));
  os_uptime w := (w, 0);
  os_yield w := w;
}.
Definition desk_left (fd : Z) (w : Desk) : list Z := d_in w.
Definition desk_said (fd : Z) (w : Desk) : list Z := default [] (d_out w !! fd).

#[export] Instance desk_stdio : Stdio desk_left desk_said.
Proof.
  split.
  - intros fd n w Hn. cbn. split; [done|]. split; [rewrite length_take; lia|]. unfold desk_left. cbn. split; [by rewrite take_drop|].
    split; [|done]. intros E. destruct (d_in w) as [|x l]; [done|]. destruct (Z.to_nat (Z.min n 7)) eqn:Ez; [lia|]. by cbn in E.
  - intros fd d w. cbn. unfold desk_said, desk_left. cbn. rewrite lookup_insert_eq. split; [done|]. split; [|done].
    intros o Ho. by rewrite lookup_insert_ne.
  - done.
Qed.

(** The desk with a text on it. *)
Definition desk (l : list Z) : Desk := {| d_in := l; d_out := ∅ |}.
