(* ===== verification/ToolBase64.v ===== *)
(** * ToolBase64: the program [base64] (userland/apps/src/bin/base64.rs)

    It encodes or decodes its input, read in pieces, in lines of 64 characters.  What it
    encodes it decodes again, however input and text are cut into pieces, and it stays
    inside its buffers. *)

From Stdlib Require Import Ascii.
From S2P Require Import Prelude Text SshProto SshProtoOps Sh ShOps ShWp ToolIo.

Open Scope Z_scope.

(* @src userland/apps/src/bin/base64.rs 8-8 B64_TABLE *)
Definition B64_TABLE : list Z := as_bytes "ABCDEFGHIJKLMNOPQRSTUVWXYZabcdefghijklmnopqrstuvwxyz0123456789+/".

(* @src userland/apps/src/bin/base64.rs 10-19 b64_val *)
Definition b64_val (c : Z) : option Z :=
  if (65 <=? c) && (c <=? 90) then Some (c - 65)
  else if (97 <=? c) && (c <=? 122) then Some (c - 97 + 26)
  else if (48 <=? c) && (c <=? 57) then Some (c - 48 + 52)
  else if c =? 43 then Some 62
  else if c =? 47 then Some 63
  else None.

Definition b64_space (b : Z) : bool := (b =? 13) || (b =? 10) || (b =? 32) || (b =? 9).

(** Characters that are appended to the output, each at an index of the table or a pad. *)
Fixpoint chars (out : list Z) (ks : list (option Z)) : option (list Z) :=
  match ks with
  | [] => Some out
  | k :: ks => x ← (match k with Some k => bget B64_TABLE k | None => Some 61 end : option Z); out ← push 68 out x; chars out ks
  end.
Fixpoint pushes (cap : Z) (out l : list Z) : option (list Z) :=
  match l with [] => Some out | x :: l => out ← push cap out x; pushes cap out l end.

Section Base64.
Context {W : Type} {HO : ShOs W}.

(** One byte of [encode_fd]: [in_buf] and [out_buf] up to their lengths. *)
(* @src userland/apps/src/bin/base64.rs 31-52 encode_fd (byte) *)
Definition encode_byte (s : list Z * list Z) (b : Z) : Prog W (list Z * list Z) :=
  let '(in_buf, out_buf) := s in
  in_buf ← pure (push 3 in_buf b);
  match in_buf with
  | [b0; b1; b2] =>
    out_buf ← pure (chars out_buf [Some (Z.shiftr b0 2); Some (Z.lor (Z.shiftl (Z.land b0 3) 4) (Z.shiftr b1 4));
                                   Some (Z.lor (Z.shiftl (Z.land b1 15) 2) (Z.shiftr b2 6)); Some (Z.land b2 63)]);
    if 64 <=? len out_buf then
      out_buf ← pure (push 68 out_buf 10);
      _ ← run (os_write 1 out_buf);
      mret ([], [])
    else mret ([], out_buf)
  | _ => mret (in_buf, out_buf)
  end.

(* @src userland/apps/src/bin/base64.rs 21-77 encode_fd *)
Definition encode_fd (fd : Z) (fuel : nat) : Prog W unit :=
  '(in_buf, out_buf) ← input_loop fd 256 encode_byte ([], []) fuel;
  out_buf ← pure (match in_buf with
    | [b0] => chars out_buf [Some (Z.shiftr b0 2); Some (Z.shiftl (Z.land b0 3) 4); None; None]
    | [b0; b1] => chars out_buf [Some (Z.shiftr b0 2); Some (Z.lor (Z.shiftl (Z.land b0 3) 4) (Z.shiftr b1 4));
                                 Some (Z.shiftl (Z.land b1 15) 2); None]
    | _ => Some out_buf
    end);
  if 0 <? len out_buf then out_buf ← pure (push 68 out_buf 10); run (os_write 1 out_buf) else mret tt.

(** The bytes of a group of four characters. *)
(* @src userland/apps/src/bin/base64.rs 96-110 decode_fd (group) *)
Definition group_bytes (q0 q1 q2 q3 : Z) : list Z :=
  let v0 := default 0 (b64_val q0) in
  let v1 := default 0 (b64_val q1) in
  let v2 := default 0 (b64_val q2) in
  let v3 := default 0 (b64_val q3) in
  [Z.lor (u8 (Z.shiftl v0 2)) (Z.shiftr v1 4)]
  ++ (if negb (q2 =? 61) then [Z.lor (Z.shiftl (Z.land v1 15) 4) (Z.shiftr v2 2)] else [])
  ++ (if negb (q3 =? 61) then [Z.lor (Z.shiftl (Z.land v2 3) 6) v3] else []).

(* @src userland/apps/src/bin/base64.rs 89-118 decode_fd (byte) *)
Definition decode_byte (s : list Z * list Z) (b : Z) : Prog W (list Z * list Z) :=
  let '(quad, out_buf) := s in
  if b64_space b then mret s
  else
    quad ← pure (push 4 quad b);
    match quad with
    | [q0; q1; q2; q3] =>
      out_buf ← pure (pushes 256 out_buf (group_bytes q0 q1 q2 q3));
      if 192 <=? len out_buf then _ ← run (os_write 1 out_buf); mret ([], []) else mret ([], out_buf)
    | _ => mret (quad, out_buf)
    end.

(* @src userland/apps/src/bin/base64.rs 79-123 decode_fd *)
Definition decode_fd (fd : Z) (fuel : nat) : Prog W unit :=
  '(quad, out_buf) ← input_loop fd 256 decode_byte ([], []) fuel;
  if 0 <? len out_buf then run (os_write 1 out_buf) else mret tt.

(** The options: whether to decode, and the first argument that is no option. *)
Inductive Base64Args := B64Usage | B64Run (decode : bool) (file : option (list Z)).
(* @src userland/apps/src/bin/base64.rs 130-143 main (arguments) *)
Fixpoint base64_args (args : list (list Z)) (decode : bool) (file : option (list Z)) : Base64Args :=
  match args with
  | [] => B64Run decode file
  | a :: args =>
    if bool_decide (a = as_bytes "-d") || bool_decide (a = as_bytes "--decode") then base64_args args true file
    else if bool_decide (a = as_bytes "-h") || bool_decide (a = as_bytes "--help") then B64Usage
    else if bool_decide (file = None) && negb (starts_with [45] a) then base64_args args decode (Some a)
    else base64_args args decode file
  end.

(* @src userland/apps/src/bin/base64.rs 125-165 main *)
Definition base64_main (args : list (list Z)) (fuel : nat) : Prog W Z :=
  match base64_args args false None with
  | B64Usage =>
    _ ← say "Usage: base64 [-d] [FILE]";
    _ ← say "Base64 encode or decode FILE, or standard input, to standard output.";
    mret 0
  | B64Run decode (Some path) =>
    fd ← call (os_open path O_RDONLY);
    if fd <? 0 then _ ← println [as_bytes "base64: cannot open "; path]; mret 1
    else
      _ ← (if decode then decode_fd fd fuel else encode_fd fd fuel : Prog W unit);
      _ ← run (os_close fd);
      mret 0
  | B64Run decode None => _ ← (if decode then decode_fd 0 fuel else encode_fd 0 fuel : Prog W unit); mret 0
  end.
End Base64.

(** ** The reference: groups of three bytes *)

Definition enc3 (b0 b1 b2 : Z) : list Z :=
  [b64_byte (b0 / 4); b64_byte (b0 mod 4 * 16 + b1 / 16); b64_byte (b1 mod 16 * 4 + b2 / 64); b64_byte (b2 mod 64)].
Fixpoint b64 (l : list Z) : list Z :=
  match l with
  | b0 :: b1 :: b2 :: l => enc3 b0 b1 b2 ++ b64 l
  | [b0; b1] => [b64_byte (b0 / 4); b64_byte (b0 mod 4 * 16 + b1 / 16); b64_byte (b1 mod 16 * 4); 61]
  | [b0] => [b64_byte (b0 / 4); b64_byte (b0 mod 4 * 16); 61; 61]
  | [] => []
  end.
Fixpoint unb64 (l : list Z) : list Z :=
  match l with q0 :: q1 :: q2 :: q3 :: l => group_bytes q0 q1 q2 q3 ++ unb64 l | _ => [] end.
(** The characters that count. *)
Definition sig (l : list Z) : list Z := List.filter (fun b => negb (b64_space b)) l.

Lemma sig_app l l' : sig (l ++ l') = sig l ++ sig l'.
Proof. apply List.filter_app. Qed.

Lemma table_byte k : 0 <= k < 64 -> bget B64_TABLE k = Some (b64_byte k).
Proof.
  intros Hk. change B64_TABLE with (as_bytes ALPHABET). unfold bget, b64_byte, at_.
  change (len (as_bytes ALPHABET)) with 64. rewrite (proj2 (Z.leb_le 0 k)), (proj2 (Z.ltb_lt k 64)) by lia. cbn [andb].
  destruct (lookup_lt_is_Some_2 (as_bytes ALPHABET) (Z.to_nat k)) as [c ->]; [|done]. change (length (as_bytes ALPHABET)) with 64%nat. lia.
Qed.

Lemma val_all : forallb (fun k => let c := b64_byte (Z.of_nat k) in
  bool_decide (b64_val c = Some (Z.of_nat k)) && negb (b64_space c) && negb (c =? 61)) (seq 0 64) = true.
Proof. vm_compute. reflexivity. Qed.
Lemma val_byte k : 0 <= k < 64 -> b64_val (b64_byte k) = Some k /\ b64_space (b64_byte k) = false /\ (b64_byte k =? 61) = false.
Proof.
  intros Hk. pose proof val_all as Ha. rewrite forallb_forall in Ha. specialize (Ha (Z.to_nat k)). rewrite Z2Nat.id in Ha by lia.
  specialize (Ha ltac:(apply in_seq; lia)). cbn zeta in Ha. rewrite !andb_true_iff, !negb_true_iff in Ha.
  destruct Ha as [[H1%bool_decide_eq_true H2] H3]. done.
Qed.

(** The bits of the indexes and of the bytes. *)
Lemma index_bits b0 b1 b2 : is_byte b0 -> is_byte b1 -> is_byte b2 ->
  Z.shiftr b0 2 = b0 / 4 /\ Z.lor (Z.shiftl (Z.land b0 3) 4) (Z.shiftr b1 4) = b0 mod 4 * 16 + b1 / 16 /\
  Z.lor (Z.shiftl (Z.land b1 15) 2) (Z.shiftr b2 6) = b1 mod 16 * 4 + b2 / 64 /\ Z.land b2 63 = b2 mod 64 /\
  Z.shiftl (Z.land b0 3) 4 = b0 mod 4 * 16 /\ Z.shiftl (Z.land b1 15) 2 = b1 mod 16 * 4.
Proof.
  unfold is_byte. intros H0 H1 H2. change 3 with (Z.ones 2). change 15 with (Z.ones 4). change 63 with (Z.ones 6). rewrite !Z.land_ones by lia.
  rewrite !(Z.lor_comm (Z.shiftl _ _)), !Z.shiftr_div_pow2 by lia.
  rewrite !lor_shift_add by (try lia; change (2 ^ 4) with 16; change (2 ^ 6) with 64; change (2 ^ 2) with 4; Z.div_mod_to_equations; lia).
  rewrite !Z.shiftl_mul_pow2 by lia. change (2 ^ 4) with 16. change (2 ^ 6) with 64. change (2 ^ 2) with 4. lia.
Qed.

Lemma value_bits v0 v1 v2 v3 : 0 <= v0 < 64 -> 0 <= v1 < 64 -> 0 <= v2 < 64 -> 0 <= v3 < 64 ->
  Z.lor (u8 (Z.shiftl v0 2)) (Z.shiftr v1 4) = v0 * 4 + v1 / 16 /\
  Z.lor (Z.shiftl (Z.land v1 15) 4) (Z.shiftr v2 2) = v1 mod 16 * 16 + v2 / 4 /\ Z.lor (Z.shiftl (Z.land v2 3) 6) v3 = v2 mod 4 * 64 + v3.
Proof.
  intros H0 H1 H2 H3. change 15 with (Z.ones 4). change 3 with (Z.ones 2). rewrite !Z.land_ones by lia.
  rewrite u8_small by (rewrite Z.shiftl_mul_pow2 by lia; change (2 ^ 2) with 4; lia).
  rewrite !(Z.lor_comm (Z.shiftl _ _)), !Z.shiftr_div_pow2 by lia.
  rewrite !lor_shift_add by (try lia; change (2 ^ 4) with 16; change (2 ^ 6) with 64; change (2 ^ 2) with 4; Z.div_mod_to_equations; lia).
  change (2 ^ 4) with 16. change (2 ^ 6) with 64. change (2 ^ 2) with 4. lia.
Qed.

Lemma group_enc3 b0 b1 b2 : is_byte b0 -> is_byte b1 -> is_byte b2 ->
  group_bytes (b64_byte (b0 / 4)) (b64_byte (b0 mod 4 * 16 + b1 / 16)) (b64_byte (b1 mod 16 * 4 + b2 / 64)) (b64_byte (b2 mod 64)) = [b0; b1; b2].
Proof.
  intros H0 H1 H2. destruct (byte_digits b0 b1 b2 H0 H1 H2) as (D0 & D1 & D2 & D3).
  destruct (val_byte _ D0) as (V0 & _ & _), (val_byte _ D1) as (V1 & _ & _), (val_byte _ D2) as (V2 & _ & P2), (val_byte _ D3) as (V3 & _ & P3).
  unfold group_bytes. rewrite V0, V1, V2, V3, P2, P3. cbn [default id negb app].
  destruct (value_bits _ _ _ _ D0 D1 D2 D3) as (-> & -> & ->). unfold is_byte in *. f_equal; [|f_equal; [|f_equal]]; Z.div_mod_to_equations; lia.
Qed.

Lemma unb64_b64 l : bytes_ok l -> unb64 (b64 l) = l.
Proof.
  assert (Hz : is_byte 0) by (unfold is_byte; lia).
  induction l as [[|b0 [|b1 [|b2 l]]] IH] using (induction_ltof1 _ (@length Z)); unfold ltof in IH; intros Hl.
  - done.
  - apply Forall_cons in Hl as [H0 _]. destruct (byte_digits b0 0 0 H0 Hz Hz) as (D0 & D1 & _). rewrite Z.div_0_l, Z.add_0_r in D1 by lia.
    destruct (val_byte _ D0) as (V0 & _ & _), (val_byte _ D1) as (V1 & _ & _).
    cbn [b64 unb64]. unfold group_bytes. rewrite V0, V1. cbn [default id]. change (61 =? 61) with true. cbn [negb app].
    destruct (value_bits (b0 / 4) (b0 mod 4 * 16) 0 0 D0 D1 ltac:(lia) ltac:(lia)) as (-> & _). unfold is_byte in *. f_equal. Z.div_mod_to_equations; lia.
  - apply Forall_cons in Hl as [H0 [H1 _]%Forall_cons]. destruct (byte_digits b0 b1 0 H0 H1 Hz) as (D0 & D1 & D2 & _). rewrite Z.div_0_l, Z.add_0_r in D2 by lia.
    destruct (val_byte _ D0) as (V0 & _ & _), (val_byte _ D1) as (V1 & _ & _), (val_byte _ D2) as (V2 & _ & P2).
    cbn [b64 unb64]. unfold group_bytes. rewrite V0, V1, V2, P2. cbn [default id]. change (61 =? 61) with true. cbn [negb app].
    destruct (value_bits _ _ _ 0 D0 D1 D2 ltac:(lia)) as (-> & -> & _). unfold is_byte in *. f_equal; [|f_equal]; Z.div_mod_to_equations; lia.
  - apply Forall_cons in Hl as [H0 [H1 [H2 Hl]%Forall_cons]%Forall_cons]. cbn [b64 unb64 enc3 app]. rewrite group_enc3 by done.
    cbn [app]. do 3 f_equal. apply IH; [cbn [length]; lia|done].
Qed.

(** ** The program *)

Definition char_of (k : option Z) : Z := match k with Some k => b64_byte k | None => 61 end.
Lemma chars_spec ks : forall out, Forall (fun k => match k with Some k => 0 <= k < 64 | None => True end) ks -> len out + len ks <= 68 ->
  chars out ks = Some (out ++ (char_of <$> ks)).
Proof.
  induction ks as [|k ks IH]; intros out Hk Hl; cbn [chars]; [by rewrite app_nil_r|]. apply Forall_cons in Hk as [Hk Hks]. cbn [length] in Hl.
  assert (E : (match k with Some k => bget B64_TABLE k | None => Some 61 end) = Some (char_of k)) by (destruct k; [by apply table_byte|done]).
  rewrite E. cbn [mbind option_bind]. unfold push. rewrite (proj2 (Z.ltb_lt _ _)) by lia. cbn [mbind option_bind].
  rewrite IH; [|done|rewrite length_app; cbn; lia]. by rewrite <- app_assoc.
Qed.
Lemma chars_ok ks : Forall (fun k => match k with Some k => 0 <= k < 64 | None => True end) ks -> bytes_ok (char_of <$> ks).
Proof.
  intros Hk. apply Forall_fmap. eapply Forall_impl; [exact Hk|]. intros [k|] Hr; cbn; unfold is_byte; [|lia].
  pose proof (bf_range _ (alphabet_facts k Hr)). lia.
Qed.
Ltac in_table := repeat (apply Forall_cons_2; [done|]); apply Forall_nil_2.
Lemma pushes_spec cap l : forall out, len out + len l <= cap -> pushes cap out l = Some (out ++ l).
Proof.
  induction l as [|x l IH]; intros out Hl; cbn [pushes]; [by rewrite app_nil_r|]. cbn [length] in Hl. unfold push at 1. rewrite (proj2 (Z.ltb_lt _ _)) by lia.
  cbn [mbind option_bind]. rewrite IH by (rewrite length_app; cbn; lia). by rewrite <- app_assoc.
Qed.

Lemma sig_enc3 b0 b1 b2 : is_byte b0 -> is_byte b1 -> is_byte b2 -> sig (enc3 b0 b1 b2) = enc3 b0 b1 b2.
Proof.
  intros H0 H1 H2. destruct (byte_digits b0 b1 b2 H0 H1 H2) as (D0 & D1 & D2 & D3).
  destruct (val_byte _ D0) as (_ & S0 & _), (val_byte _ D1) as (_ & S1 & _), (val_byte _ D2) as (_ & S2 & _), (val_byte _ D3) as (_ & S3 & _).
  unfold sig, enc3. cbn [List.filter]. by rewrite S0, S1, S2, S3.
Qed.

Section Run.
Context {W : Type} {HO : ShOs W} (left said : Z -> W -> list Z) {HS : Stdio left said}.
Implicit Types w : W.

Record enc_at (s : list Z * list Z) (c o : list Z) : Prop := mkEncAt {
  ea_in : len s.1 <= 2 /\ bytes_ok s.1;
  ea_out : len s.2 mod 4 = 0 /\ len s.2 <= 60;
  ea_text : forall rest, b64 (c ++ rest) = sig (o ++ s.2) ++ b64 (s.1 ++ rest);
  ea_ok : bytes_ok (o ++ s.2);
}.

Lemma encode_byte_step s c o b w : is_byte b -> enc_at s c o ->
  wp (encode_byte s b) (fun w' s' => exists d, told left said w w' d /\ enc_at s' (c ++ [b]) (o ++ d)) w.
Proof.
  destruct s as [inb outb]. intros Hb [[Hl Hin] [Ho Hol] Ht Hok]. cbn [fst snd] in *. unfold encode_byte.
  apply wp_bind. eapply wp_pure; [unfold push; rewrite (proj2 (Z.ltb_lt _ _)) by lia; reflexivity|].
  assert (Hin' : bytes_ok (inb ++ [b])) by (apply Forall_app; split; [done|by constructor]).
  assert (Hkeep : length (inb ++ [b]) <> 3%nat -> enc_at (inb ++ [b], outb) (c ++ [b]) (o ++ [])).
  { intros H3. rewrite length_app in H3. cbn in H3. split; cbn [fst snd]; [split; [rewrite length_app; cbn; lia|done]|done| |by rewrite app_nil_r].
    intros rest. rewrite app_nil_r, <- !app_assoc. apply Ht. }
  destruct inb as [|b0 [|b1 [|x inb]]]; cbn [app] in *; [| | |cbn in Hl; lia].
  1, 2: apply wp_ret; exists []; split; [apply told_refl|by apply Hkeep].
  apply Forall_cons in Hin' as [H0 [H1 _]%Forall_cons]. destruct (index_bits b0 b1 b H0 H1 Hb) as (-> & -> & -> & -> & _).
  destruct (byte_digits b0 b1 b H0 H1 Hb) as (D0 & D1 & D2 & D3).
  apply wp_bind. eapply wp_pure; [apply chars_spec; [in_table|cbn; lia]|].
  change (char_of <$> _) with (enc3 b0 b1 b). set (out := outb ++ enc3 b0 b1 b).
  assert (Hlo : len out = len outb + 4) by (unfold out; rewrite length_app; cbn; lia).
  assert (Htext : forall rest, b64 ((c ++ [b]) ++ rest) = sig (o ++ out) ++ b64 rest).
  { intros rest. rewrite <- app_assoc. cbn [app]. rewrite Ht. cbn [app b64]. unfold out. rewrite (app_assoc o outb), (sig_app (o ++ outb)), sig_enc3, <- app_assoc by done. done. }
  assert (Hok' : bytes_ok (o ++ out)).
  { unfold out. rewrite app_assoc. apply Forall_app. split; [done|].
    change (enc3 b0 b1 b) with (char_of <$> [Some (b0 / 4); Some (b0 mod 4 * 16 + b1 / 16); Some (b1 mod 16 * 4 + b / 64); Some (b mod 64)]).
    apply chars_ok. in_table. }
  destruct (Z.leb_spec 64 (len out)).
  - apply wp_bind. eapply wp_pure; [unfold push; rewrite (proj2 (Z.ltb_lt _ _)) by lia; reflexivity|].
    apply wp_bind, (wp_write left said). intros w' Hw. apply wp_ret. exists (out ++ [10]). split; [done|].
    split; cbn [fst snd]; [split; [done|apply Forall_nil_2]|done| |rewrite app_nil_r, app_assoc; apply Forall_app; split; [done|by repeat constructor]]. intros rest. rewrite Htext, app_nil_r, !sig_app. cbn. by rewrite app_nil_r.
  - apply wp_ret. exists []. split; [apply told_refl|]. split; cbn [fst snd]; [split; [done|apply Forall_nil_2]|rewrite Hlo; split; [|Z.div_mod_to_equations; lia]| |by rewrite app_nil_r].
    + Z.div_mod_to_equations; lia.
    + intros rest. by rewrite app_nil_r, Htext.
Qed.

(** What [encode_fd] writes: the groups of its input, with newlines between. *)
Lemma encode_fd_spec fd fuel w : bytes_ok (left fd w) -> (length (left fd w) <= fuel)%nat ->
  wp (encode_fd fd fuel) (fun w' _ => exists text, said 1 w' = said 1 w ++ text /\ left fd w' = [] /\ sig text = b64 (left fd w) /\ bytes_ok text) w.
Proof.
  intros Hok Hf. unfold encode_fd. apply wp_bind.
  eapply wp_mono; [apply (input_loop_spec left said 1 enc_at encode_byte) with (c := []) (o := []); [intros; by apply encode_byte_step|lia|done|done|]|].
  { split; cbn; [split; [done|apply Forall_nil_2]|done|done|apply Forall_nil_2]. }
  cbn [app]. intros w1 [inb outb] (d & E1 & L1 & [[Hl Hin] [Ho Hol] Ht Hdk]). cbn [fst snd] in *. specialize (Ht []). apply Forall_app in Hdk as [Hdk Hok2]. rewrite !app_nil_r in Ht.
  apply wp_bind. assert (Hz : is_byte 0) by (unfold is_byte; lia).
  assert (Hlast : exists out, (match inb with
      | [b0] => chars outb [Some (Z.shiftr b0 2); Some (Z.shiftl (Z.land b0 3) 4); None; None]
      | [b0; b1] => chars outb [Some (Z.shiftr b0 2); Some (Z.lor (Z.shiftl (Z.land b0 3) 4) (Z.shiftr b1 4)); Some (Z.shiftl (Z.land b1 15) 2); None]
      | _ => Some outb end) = Some out /\ b64 (left fd w) = sig (d ++ out) /\ len out <= 64 /\ bytes_ok out).
  { destruct inb as [|b0 [|b1 [|x inb]]]; [| | |cbn in Hl; lia].
    - exists outb. rewrite Ht. cbn. rewrite app_nil_r. split; [done|]. split; [done|split; [lia|done]].
    - apply Forall_cons in Hin as [H0 _]. destruct (index_bits b0 0 0 H0 Hz Hz) as (-> & _ & _ & _ & -> & _).
      destruct (byte_digits b0 0 0 H0 Hz Hz) as (D0 & D1 & _). rewrite Z.div_0_l, Z.add_0_r in D1 by lia.
      eexists. split; [apply chars_spec; [in_table|cbn; lia]|]. cbn [fmap list_fmap char_of].
      destruct (val_byte _ D0) as (_ & S0 & _), (val_byte _ D1) as (_ & S1 & _).
      rewrite app_assoc, sig_app, Ht. split; [|split; [rewrite length_app; cbn; lia|apply Forall_app; split; [done|apply (chars_ok [Some (b0 / 4); Some (b0 mod 4 * 16); None; None]); in_table]]]. f_equal. unfold sig. cbn [List.filter b64]. by rewrite S0, S1.
    - apply Forall_cons in Hin as [H0 [H1 _]%Forall_cons]. destruct (index_bits b0 b1 0 H0 H1 Hz) as (-> & -> & _ & _ & _ & ->).
      destruct (byte_digits b0 b1 0 H0 H1 Hz) as (D0 & D1 & D2 & _). rewrite Z.div_0_l, Z.add_0_r in D2 by lia.
      eexists. split; [apply chars_spec; [in_table|cbn; lia]|]. cbn [fmap list_fmap char_of].
      destruct (val_byte _ D0) as (_ & S0 & _), (val_byte _ D1) as (_ & S1 & _), (val_byte _ D2) as (_ & S2 & _).
      rewrite app_assoc, sig_app, Ht. split; [|split; [rewrite length_app; cbn; lia|apply Forall_app; split; [done|apply (chars_ok [Some (b0 / 4); Some (b0 mod 4 * 16 + b1 / 16); Some (b1 mod 16 * 4); None]); in_table]]]. f_equal. unfold sig. cbn [List.filter b64]. by rewrite S0, S1, S2. }
  destruct Hlast as (out & E & Hb & Hlen & Hout). eapply wp_pure; [exact E|]. destruct (Z.ltb_spec 0 (len out)).
  - apply wp_bind. eapply wp_pure; [unfold push; rewrite (proj2 (Z.ltb_lt _ _)) by lia; reflexivity|].
    apply (wp_write left said). intros w2 [E2 L2]. exists (d ++ out ++ [10]). rewrite E2, E1, L2, <- app_assoc. split_and!; [done|done| |].
    + rewrite app_assoc, sig_app, Hb. cbn. by rewrite app_nil_r.
    + unfold bytes_ok in *. rewrite !Forall_app. split_and!; [done|done|by repeat constructor].
  - apply wp_ret. exists d. destruct out; [|cbn in H; lia]. rewrite app_nil_r in Hb. done.
Qed.
Record dec_at (s : list Z * list Z) (c o : list Z) : Prop := mkDecAt {
  da_quad : len s.1 <= 3;
  da_out : len s.2 < 192;
  da_bytes : forall rest, unb64 (sig (c ++ rest)) = o ++ s.2 ++ unb64 (s.1 ++ sig rest);
}.

Lemma group_len q0 q1 q2 q3 : len (group_bytes q0 q1 q2 q3) <= 3.
Proof. unfold group_bytes. destruct (negb (q2 =? 61)), (negb (q3 =? 61)); cbn; lia. Qed.

Lemma decode_byte_step s c o b w : is_byte b -> dec_at s c o ->
  wp (decode_byte s b) (fun w' s' => exists d, told left said w w' d /\ dec_at s' (c ++ [b]) (o ++ d)) w.
Proof.
  destruct s as [quad outb]. intros Hb [Hq Ho Ht]. cbn [fst snd] in *. unfold decode_byte. destruct (b64_space b) eqn:Eb.
  - apply wp_ret. exists []. split; [apply told_refl|]. rewrite app_nil_r. split; cbn [fst snd]; [done|done|].
    intros rest. rewrite <- app_assoc, Ht. unfold sig. cbn [List.filter app]. by rewrite Eb.
  - apply wp_bind. eapply wp_pure; [unfold push; rewrite (proj2 (Z.ltb_lt _ _)) by lia; reflexivity|].
    assert (Hn : forall rest, unb64 (sig ((c ++ [b]) ++ rest)) = o ++ outb ++ unb64 ((quad ++ [b]) ++ sig rest)).
    { intros rest. rewrite <- app_assoc, Ht, <- app_assoc. unfold sig. cbn [List.filter app]. by rewrite Eb. }
    destruct quad as [|q0 [|q1 [|q2 [|x quad]]]]; cbn [app] in *; [| | | |cbn in Hq; lia].
    1, 2, 3: apply wp_ret; exists []; split; [apply told_refl|]; rewrite app_nil_r; split; [cbn; lia|done|exact Hn].
    apply wp_bind. pose proof (group_len q0 q1 q2 b) as Hg. eapply wp_pure; [apply pushes_spec; lia|].
    set (out := outb ++ group_bytes q0 q1 q2 b). destruct (Z.leb_spec 192 (len out)).
    + apply wp_bind, (wp_write left said). intros w' Hw. apply wp_ret. exists out. split; [done|]. split; cbn [fst snd]; [done|done|].
      intros rest. rewrite Hn. cbn [unb64]. unfold out. cbn [app]. by rewrite !app_assoc.
    + apply wp_ret. exists []. split; [apply told_refl|]. split; cbn [fst snd]; [done|done|].
      intros rest. rewrite Hn. cbn [unb64]. unfold out. cbn [app]. by rewrite app_nil_r, <- !app_assoc.
Qed.

Lemma decode_fd_spec fd fuel w : bytes_ok (left fd w) -> (length (left fd w) <= fuel)%nat ->
  wp (decode_fd fd fuel) (fun w' _ => said 1 w' = said 1 w ++ unb64 (sig (left fd w)) /\ left fd w' = []) w.
Proof.
  intros Hok Hf. unfold decode_fd. apply wp_bind.
  eapply wp_mono; [apply (input_loop_spec left said 1 dec_at decode_byte) with (c := []) (o := []); [intros; by apply decode_byte_step|lia|done|done|]|].
  { by split. }
  cbn [app]. intros w1 [quad outb] (d & E1 & L1 & [Hq Ho Ht]). cbn [fst snd] in *. specialize (Ht []). rewrite app_nil_r in Ht.
  assert (Eq : unb64 (quad ++ sig []) = []) by (rewrite app_nil_r; destruct quad as [|? [|? [|? [|? ?]]]]; [done..|cbn in Hq; lia]).
  rewrite Eq, app_nil_r in Ht. destruct (Z.ltb_spec 0 (len outb)).
  - apply (wp_write left said). intros w2 [E2 L2]. rewrite E2, E1, Ht, L2, app_assoc. done.
  - apply wp_ret. destruct outb; [|cbn in *; lia]. rewrite app_nil_r in Ht. by rewrite E1, Ht.
Qed.

(** What the program encodes it decodes again: for any input and however the input
    and the text arrive in pieces, both runs end without leaving their buffers and the
    second writes exactly the bytes that the first read. *)
Theorem base64_tool_roundtrip fd fuel w :
  bytes_ok (left fd w) -> (length (left fd w) <= fuel)%nat ->
  exists w1 text, encode_fd fd fuel w = Done (w1, tt) /\ said 1 w1 = said 1 w ++ text /\
    forall fd2 fuel2 w2, left fd2 w2 = text -> (length text <= fuel2)%nat ->
      exists w3, decode_fd fd2 fuel2 w2 = Done (w3, tt) /\ said 1 w3 = said 1 w2 ++ left fd w.
Proof.
  intros Hok Hf. destruct (encode_fd_spec fd fuel w Hok Hf) as (w1 & [] & E & text & E1 & _ & Et & Hok2). exists w1, text. split; [done|]. split; [done|].
  intros fd2 fuel2 w2 H2 Hf2. destruct (decode_fd_spec fd2 fuel2 w2) as (w3 & [] & E3 & E4 & _); [by rewrite H2|by rewrite H2|].
  exists w3. split; [done|]. rewrite E4, H2, Et. f_equal. by apply unb64_b64.
Qed.
End Run.

Definition letters : list Z := (fun i => Z.of_nat i mod 256) <$> seq 60 70.

Lemma base64_tool_roundtrip_witness :
  exists w1 w3, encode_fd 0 70 (desk letters) = Done (w1, tt) /\
    decode_fd 0 200 (desk (desk_said 1 w1)) = Done (w3, tt) /\ desk_said 1 w3 = letters.
Proof.
  destruct (base64_tool_roundtrip desk_left desk_said 0 70 (desk letters)) as (w1 & text & E1 & S1 & H).
  - unfold bytes_ok. apply Forall_forall. intros x Hx. apply list_elem_of_fmap in Hx as (i & -> & _). unfold is_byte. apply Z.mod_pos_bound. reflexivity.
  - cbn. lia.
  - assert (Hl : (length text <= 200)%nat).
    { change (desk_said 1 (desk letters)) with (@nil Z) in S1. cbn [app] in S1. rewrite <- S1.
      assert (E : (fun r => match r with Done (w, _) => length (desk_said 1 w) | _ => O end) (encode_fd 0 70 (desk letters)) = 98%nat) by (vm_compute; reflexivity).
      rewrite E1 in E. rewrite E. lia. }
    destruct (H 0 200%nat (desk (desk_said 1 w1))) as (w3 & E3 & S3).
    + unfold desk_left. cbn [d_in desk]. rewrite S1. reflexivity.
    + exact Hl.
    + exists w1, w3. split; [exact E1|]. split; [exact E3|]. rewrite S3. reflexivity.
Defined.
