(* ===== verification/ToolSort.v ===== *)
(** * ToolSort: the program [sort] (userland/apps/src/bin/sort.rs)

    Up to 128 lines of 96 bytes, sorted by a bubble sort as texts or as numbers.  What it
    prints is the lines it kept in order, and equal lines in the order they came. *)

From Stdlib Require Import Ascii.
From S2P Require Import Prelude Text Sh ShOps ShWp ToolIo.

Open Scope Z_scope.

(* @src userland/apps/src/bin/sort.rs 7-8 MAX_LINES, LINE_BUF_SIZE *)
Definition MAX_LINES : Z := 128.
Definition LINE_BUF_SIZE : Z := 96.

(** A [LineEntry] is the bytes up to its length. *)
(* @src userland/apps/src/bin/sort.rs 23-25 LineEntry::as_str *)
Definition as_str (e : list Z) : list Z := if utf8_valid e then e else [].

(** [saturating_mul] and [saturating_add] of an [i32]. *)
Definition sat32 (z : Z) : Z := Z.max (- 2 ^ 31) (Z.min z (2 ^ 31 - 1)).

(* @src userland/apps/src/bin/sort.rs 39-42 LineEntry::parse_num (loop) *)
Fixpoint digits (b : list Z) (val : Z) : Z :=
  match b with
  | c :: b => if (48 <=? c) && (c <=? 57) then digits b (sat32 (sat32 (val * 10) + (c - 48))) else val
  | [] => val
  end.
(* @src userland/apps/src/bin/sort.rs 27-44 LineEntry::parse_num *)
Definition parse_num (e : list Z) : Z :=
  let b := Text.trim_start (as_str e) in
  let '(sign, b) := match b with c :: b' => if c =? 45 then (-1, b') else if c =? 43 then (1, b') else (1, b) | [] => (1, b) end in
  digits b 0 * sign.

(** [str::cmp]: by bytes. *)
Fixpoint bytes_cmp (a b : list Z) : comparison :=
  match a, b with
  | [], [] => Eq
  | [], _ => Lt
  | _, [] => Gt
  | x :: a, y :: b => match x ?= y with Eq => bytes_cmp a b | c => c end
  end.

(* @src userland/apps/src/bin/sort.rs 47-55 compare_lines *)
Definition compare_lines (a b : list Z) (numeric : bool) : comparison :=
  if numeric then parse_num a ?= parse_num b else bytes_cmp (as_str a) (as_str b).

(* @src userland/apps/src/bin/sort.rs 133-138 main (should_swap) *)
Definition should_swap (reverse numeric : bool) (a b : list Z) : bool :=
  match compare_lines a b numeric with Lt => reverse | Gt => negb reverse | Eq => false end.

(** The loops over [j] and [i]; [None] is an index out of range. *)
(* @src userland/apps/src/bin/sort.rs 132-142 main (inner loop) *)
Fixpoint inner (swap : list Z -> list Z -> bool) (lines : list (list Z)) (j m : nat) : option (list (list Z)) :=
  match m with
  | O => Some lines
  | S m =>
    a ← lines !! j;
    b ← lines !! S j;
    inner swap (if swap a b then <[j := b]> (<[S j := a]> lines) else lines) (S j) m
  end.
(* @src userland/apps/src/bin/sort.rs 131-143 main (outer loop) *)
Fixpoint outer (swap : list Z -> list Z -> bool) (lines : list (list Z)) (i k : nat) : option (list (list Z)) :=
  match k with
  | O => Some lines
  | S k => lines ← inner swap lines 0 (length lines - 1 - i); outer swap lines (S i) k
  end.
(* @src userland/apps/src/bin/sort.rs 130-144 main (sort) *)
Definition bubble_sort (swap : list Z -> list Z -> bool) (lines : list (list Z)) : option (list (list Z)) :=
  if (1 <? length lines)%nat then outer swap lines 0 (length lines - 1) else Some lines.

Section Sort.
Context {W : Type} {HO : ShOs W}.

(** One byte: the lines that are complete, and the one that is read. *)
(* @src userland/apps/src/bin/sort.rs 106-117 main (byte) *)
Definition line_byte (s : list (list Z) * list Z) (byte : Z) : Prog W (list (list Z) * list Z) :=
  let '(lines, cur) := s in
  if byte =? 10 then mret (if len lines <? MAX_LINES then lines ++ [cur] else lines, [])
  else if len cur <? LINE_BUF_SIZE then mret (lines, cur ++ [byte]) else mret (lines, cur).

(** The options, and the first argument that is no option: [None] for the usage. *)
(* @src userland/apps/src/bin/sort.rs 63-81 main (arguments) *)
Fixpoint sort_args (args : list (list Z)) (reverse numeric : bool) (file : option (list Z)) : option (bool * bool * option (list Z)) :=
  match args with
  | [] => Some (reverse, numeric, file)
  | a :: args =>
    if bool_decide (a = as_bytes "-r") then sort_args args true numeric file
    else if bool_decide (a = as_bytes "-n") then sort_args args reverse true file
    else if bool_decide (a = as_bytes "-rn") || bool_decide (a = as_bytes "-nr") then sort_args args true true file
    else if bool_decide (a = as_bytes "-h") || bool_decide (a = as_bytes "--help") then None
    else if negb (starts_with [45] a) && bool_decide (file = None) then sort_args args reverse numeric (Some a)
    else sort_args args reverse numeric file
  end.

(** From an open descriptor on. *)
(* @src userland/apps/src/bin/sort.rs 95-150 main (from the lines) *)
Definition sort_fd (fd : Z) (reverse numeric : bool) (fuel : nat) : Prog W Z :=
  '(lines, cur) ← input_loop fd 128 line_byte ([], []) fuel;
  let lines := if (0 <? len cur) && (len lines <? MAX_LINES) then lines ++ [cur] else lines in
  _ ← when (0 <? fd) (run (os_close fd));
  lines ← pure (bubble_sort (should_swap reverse numeric) lines);
  _ ← foldr (fun line m => _ ← println [as_str line]; m) (mret tt : Prog W unit) lines;
  mret 0.

(* @src userland/apps/src/bin/sort.rs 57-151 main *)
Definition sort_main (args : list (list Z)) (fuel : nat) : Prog W Z :=
  match sort_args args false false None with
  | None =>
    _ ← say "usage: sort [-r] [-n] [FILE]";
    _ ← say "Sort lines of text files or standard input";
    _ ← say "  -r  Reverse the result of comparisons";
    _ ← say "  -n  Compare according to string numerical value";
    mret 0
  | Some (reverse, numeric, Some path) =>
    f ← call (os_open path O_RDONLY);
    if f <? 0 then _ ← println [as_bytes "sort: cannot open '"; path; as_bytes "'"]; mret 2
    else sort_fd f reverse numeric fuel
  | Some (reverse, numeric, None) => sort_fd 0 reverse numeric fuel
  end.
End Sort.

(** ** One pass of the bubble sort *)

Section Bubble.
Context (swap : list Z -> list Z -> bool).

(** The pass over the first [m + 1] lines, on the list itself. *)
Fixpoint bub (m : nat) (l : list (list Z)) : list (list Z) :=
  match m, l with
  | S m, a :: b :: l => if swap a b then b :: bub m (a :: l) else a :: bub m (b :: l)
  | _, _ => l
  end.

Lemma inner_bub m : forall pre l, (m < length l)%nat -> inner swap (pre ++ l) (length pre) m = Some (pre ++ bub m l).
Proof.
  induction m as [|m IH]; intros pre l Hl; cbn [inner bub]; [done|]. destruct l as [|a [|b l]]; cbn in Hl; [lia|lia|].
  rewrite (lookup_app_r pre _ (length pre)), Nat.sub_diag by lia. cbn [lookup list_lookup mbind option_bind].
  rewrite lookup_app_r by lia. replace (S (length pre) - length pre)%nat with 1%nat by lia. cbn [lookup list_lookup mbind option_bind].
  assert (E : forall x y, <[length pre := y]> (<[S (length pre) := x]> (pre ++ a :: b :: l)) = pre ++ y :: x :: l).
  { intros x y. rewrite !insert_app_r_alt by lia. rewrite Nat.sub_diag. by replace (S (length pre) - length pre)%nat with 1%nat by lia. }
  rewrite E. replace (S (length pre)) with (length (pre ++ [b])) by (rewrite length_app; cbn; lia).
  destruct (swap a b).
  - replace (pre ++ b :: a :: l) with ((pre ++ [b]) ++ a :: l) by (by rewrite <- app_assoc). rewrite IH by (cbn; lia). by rewrite <- app_assoc.
  - replace (pre ++ a :: b :: l) with ((pre ++ [a]) ++ b :: l) by (by rewrite <- app_assoc).
    replace (length (pre ++ [b])) with (length (pre ++ [a])) by (rewrite !length_app; done). rewrite IH by (cbn; lia). by rewrite <- app_assoc.
Qed.

(** The order: [a] may come before [b]. *)
Definition before (a b : list Z) : Prop := swap a b = false.
Hypothesis before_total : forall a b, swap a b = true -> before b a.
Hypothesis before_trans : forall a b c, before a b -> before b c -> before a c.

Lemma before_refl a : before a a.
Proof. unfold before. destruct (swap a a) eqn:E; [|done]. pose proof (before_total _ _ E) as H. unfold before in H. congruence. Qed.

(** Lines that are equal in the order. *)
Definition same_key (k a : list Z) : bool := negb (swap k a) && negb (swap a k).

Lemma bub_spec m : forall l1 l2, length l1 = S m ->
  exists f x, bub m (l1 ++ l2) = f ++ x :: l2 /\ Permutation l1 (f ++ [x]) /\ Forall (fun y => before y x) f /\
    forall k, List.filter (same_key k) l1 = List.filter (same_key k) (f ++ [x]).
Proof.
  induction m as [|m IH]; intros l1 l2 Hl; destruct l1 as [|a l1]; try (cbn in Hl; lia).
  - destruct l1; [|cbn in Hl; lia]. exists [], a. cbn. auto.
  - destruct l1 as [|b l1]; [cbn in Hl; lia|]. cbn [app bub]. destruct (swap a b) eqn:E.
    + destruct (IH (a :: l1) l2 ltac:(cbn in *; lia)) as (f & x & Eb & Hp & Hf & Hs). cbn [app] in Eb. rewrite Eb.
      exists (b :: f), x. split; [done|]. split; [rewrite perm_swap, Hp; done|]. split.
      * apply Forall_cons. split; [|done]. assert (Ha : a ∈ f ++ [x]) by (rewrite <- Hp; left).
        apply before_trans with a; [by apply before_total|]. apply elem_of_app in Ha as [Ha| ->%list_elem_of_singleton]; [|apply before_refl].
        rewrite Forall_forall in Hf. by apply Hf.
      * intros k. specialize (Hs k). cbn [app List.filter] in Hs |- *. rewrite <- Hs.
        destruct (same_key k a) eqn:Ka, (same_key k b) eqn:Kb; try done. exfalso.
        unfold same_key in Ka, Kb. zbool. assert (before a b) by (apply before_trans with k; unfold before; done). unfold before in *. congruence.
    + destruct (IH (b :: l1) l2 ltac:(cbn in *; lia)) as (f & x & Eb & Hp & Hf & Hs). cbn [app] in Eb. rewrite Eb.
      exists (a :: f), x. split; [done|]. split; [by rewrite Hp|]. split.
      * apply Forall_cons. split; [|done]. assert (Ha : b ∈ f ++ [x]) by (rewrite <- Hp; left).
        apply before_trans with b; [done|]. apply elem_of_app in Ha as [Ha| ->%list_elem_of_singleton]; [|apply before_refl].
        rewrite Forall_forall in Hf. by apply Hf.
      * intros k. specialize (Hs k). cbn [app List.filter] in Hs |- *. by rewrite Hs.
Qed.
(** The passes: behind them the largest lines, in order. *)
Lemma outer_spec k : forall front back, length front = S k -> StronglySorted before back ->
  (forall x y, x ∈ front -> y ∈ back -> before x y) ->
  exists out, outer swap (front ++ back) (length back) k = Some out /\ Permutation (front ++ back) out /\ StronglySorted before out /\
    forall key, List.filter (same_key key) (front ++ back) = List.filter (same_key key) out.
Proof.
  induction k as [|k IH]; intros front back Hf Hs Hfb; cbn [outer].
  - destruct front as [|x [|]]; try (cbn in Hf; lia). eexists. split; [done|]. split; [done|]. split; [|done]. cbn. constructor; [done|].
    apply Forall_forall. intros y Hy. apply Hfb; [left|done].
  - replace (length (front ++ back) - 1 - length back)%nat with (S k) by (rewrite length_app; lia).
    pose proof (inner_bub (S k) [] (front ++ back)) as Hi. cbn [app length] in Hi. rewrite Hi by (rewrite length_app; lia). cbn [mbind option_bind].
    destruct (bub_spec (S k) front back Hf) as (f & x & -> & Hp & Hx & Hk).
    assert (Hl : length f = S k) by (apply Permutation_length in Hp; rewrite length_app in Hp; cbn in Hp; lia).
    assert (Hmem : forall z, z ∈ front <-> z ∈ f \/ z = x) by (intros z; rewrite Hp, elem_of_app, list_elem_of_singleton; done).
    destruct (IH f (x :: back) Hl) as (out & E & Po & So & Ko).
    + constructor; [done|]. apply Forall_forall. intros y Hy. apply Hfb; [apply Hmem; by right|done].
    + intros a b Ha [->|Hb]%elem_of_cons; [by rewrite Forall_forall in Hx; apply Hx|]. apply Hfb; [apply Hmem; by left|done].
    + exists out. split; [exact E|]. split; [|split; [done|]].
      * rewrite <- Po, Hp. by rewrite <- app_assoc.
      * intros key. rewrite <- Ko, !List.filter_app, Hk, List.filter_app. cbn [List.filter]. by destruct (same_key key x); rewrite <- ?app_assoc, ?app_nil_r.
Qed.

Lemma bubble_sort_spec l : exists out, bubble_sort swap l = Some out /\ Permutation l out /\ StronglySorted before out /\
  forall key, List.filter (same_key key) l = List.filter (same_key key) out.
Proof.
  unfold bubble_sort. destruct (Nat.ltb_spec 1 (length l)).
  - destruct (outer_spec (length l - 1) l [] ltac:(lia)) as (out & E & P & S & K); [constructor|by intros x y _ ?%not_elem_of_nil|].
    rewrite app_nil_r in E, P. exists out. split; [done|]. split; [done|]. split; [done|]. intros key. by rewrite <- K, app_nil_r.
  - exists l. split; [done|]. split; [done|]. split; [|done]. destruct l as [|x [|]]; cbn in *; [constructor|by repeat constructor|lia].
Qed.
End Bubble.

(** ** The order of the lines *)

Lemma bytes_cmp_antisym a : forall b, bytes_cmp b a = CompOpp (bytes_cmp a b).
Proof.
  induction a as [|x a IH]; intros [|y b]; cbn; try done. rewrite (Z.compare_antisym x y). destruct (x ?= y); cbn; [apply IH|done|done].
Qed.
Lemma bytes_cmp_eq a : forall b, bytes_cmp a b = Eq -> a = b.
Proof.
  induction a as [|x a IH]; intros [|y b]; cbn; try done. destruct (x ?= y) eqn:E; [|done|done]. apply Z.compare_eq in E as ->. intros H. f_equal. by apply IH.
Qed.
Lemma bytes_cmp_refl a : bytes_cmp a a = Eq.
Proof. induction a as [|x a IH]; cbn; [done|]. by rewrite Z.compare_refl. Qed.
Lemma bytes_cmp_lt_trans a : forall b c, bytes_cmp a b = Lt -> bytes_cmp b c = Lt -> bytes_cmp a c = Lt.
Proof.
  induction a as [|x a IH]; intros [|y b] [|z c]; cbn; try done.
  destruct (Z.compare_spec x y), (Z.compare_spec y z), (Z.compare_spec x z); try done; try lia; subst; try lia. apply IH.
Qed.

(** Two lines in the order of the keys; [Gt] is the only comparison that [sort] swaps. *)
Lemma compare_antisym num a b : compare_lines b a num = CompOpp (compare_lines a b num).
Proof. unfold compare_lines. destruct num; [apply Z.compare_antisym|apply bytes_cmp_antisym]. Qed.
Lemma compare_trans num a b c o : o <> Eq -> compare_lines a b num <> o -> compare_lines b c num <> o -> compare_lines a c num <> o.
Proof.
  unfold compare_lines. destruct num.
  - generalize (parse_num a) (parse_num b) (parse_num c). intros x y z. destruct (Z.compare_spec x y), (Z.compare_spec y z), (Z.compare_spec x z), o; try done; lia.
  - generalize (as_str a) (as_str b) (as_str c). intros x y z Ho H1 H2 H3.
    assert (Hlt : forall u v, bytes_cmp u v = Gt -> bytes_cmp v u = Lt) by (intros u v E; by rewrite bytes_cmp_antisym, E).
    destruct (bytes_cmp x y) eqn:E1; [apply bytes_cmp_eq in E1; congruence| |].
    all: destruct (bytes_cmp y z) eqn:E2; [apply bytes_cmp_eq in E2; congruence| |].
    all: destruct o; try done.
    + by rewrite (bytes_cmp_lt_trans _ _ _ E1 E2) in H3.
    + apply Hlt in E1, E2. pose proof (bytes_cmp_lt_trans _ _ _ E2 E1) as E. rewrite bytes_cmp_antisym, H3 in E. done.
Qed.

Lemma swap_spec rev num a b : should_swap rev num a b = true <-> compare_lines a b num = (if rev then Lt else Gt).
Proof. unfold should_swap. destruct (compare_lines a b num), rev; done. Qed.
Lemma swap_total rev num a b : should_swap rev num a b = true -> before (should_swap rev num) b a.
Proof.
  rewrite swap_spec. intros H. unfold before. destruct (should_swap rev num b a) eqn:E; [|done]. apply swap_spec in E. rewrite compare_antisym, H in E. by destruct rev.
Qed.
Lemma swap_trans rev num a b c : before (should_swap rev num) a b -> before (should_swap rev num) b c -> before (should_swap rev num) a c.
Proof.
  unfold before. intros H1 H2. destruct (should_swap rev num a c) eqn:E; [|done]. apply swap_spec in E. exfalso. revert E.
  apply (compare_trans num a b c); [by destruct rev|intros H%swap_spec; congruence..].
Qed.

(** ** The lines *)

(** The lines that are kept of a text: the first 128, each cut to 96 bytes; what is
    behind the last newline counts if there is any. *)
Definition pieces (l : list Z) : list (list Z) :=
  let ps := split_on 10 l in if bool_decide (last ps = Some []) then removelast ps else ps.
Definition kept (l : list Z) : list (list Z) := take 128 (take 96 <$> pieces l).

Section Run.
Context {W : Type} {HO : ShOs W} (left said : Z -> W -> list Z) {HS : Stdio left said}.
Implicit Types w : W.

Definition lines_at (s : list (list Z) * list Z) (c o : list Z) : Prop :=
  o = [] /\ exists init last, split_on 10 c = init ++ [last] /\ s = (take 128 (take 96 <$> init), take 96 last).

Lemma line_step s c o b w : is_byte b -> lines_at s c o ->
  wp (line_byte s b) (fun w' s' => exists d, told left said w w' d /\ lines_at s' (c ++ [b]) (o ++ d)) w.
Proof.
  intros Hb (-> & init & last & Ec & ->). pose proof (split_on_snoc c b init last Ec) as En. unfold line_byte, MAX_LINES, LINE_BUF_SIZE.
  destruct (b =? 10).
  - apply wp_ret. exists []. split; [apply told_refl|]. split; [done|]. exists (init ++ [last]), []. rewrite En, <- app_assoc. split; [done|].
    f_equal. rewrite fmap_app. cbn. destruct (Z.ltb_spec (len (take 128 (take 96 <$> init))) 128) as [H|H]; rewrite length_take in H.
    + rewrite !(firstn_all2 (A := list Z)); [done|rewrite length_app; cbn; lia|lia].
    + by rewrite take_app_le by lia.
  - assert (H96 : (if len (take 96 last) <? 96 then take 96 last ++ [b] else take 96 last) = take 96 (last ++ [b])).
    { destruct (Z.ltb_spec (len (take 96 last)) 96) as [H|H]; rewrite length_take in H.
      - rewrite !firstn_all2; [done|rewrite length_app; cbn; lia|lia].
      - by rewrite take_app_le by lia. }
    assert (Hdone : lines_at (take 128 (take 96 <$> init), take 96 (last ++ [b])) (c ++ [b]) []) by (split; [done|]; eauto).
    destruct (len (take 96 last) <? 96); rewrite <- H96 in Hdone; apply wp_ret; exists []; (split; [apply told_refl|exact Hdone]).
Qed.

Lemma kept_spec l init last : split_on 10 l = init ++ [last] ->
  kept l = (if (0 <? len (take 96 last)) && (len (take 128 (take 96 <$> init)) <? MAX_LINES)
            then take 128 (take 96 <$> init) ++ [take 96 last] else take 128 (take 96 <$> init)).
Proof.
  intros E. unfold kept, pieces, MAX_LINES. rewrite E, last_snoc. case_bool_decide as H.
  - injection H as ->. rewrite removelast_app by done. cbn. by rewrite app_nil_r.
  - assert (0 < len (take 96 last)) by (destruct last; [congruence|cbn; lia]). rewrite (proj2 (Z.ltb_lt _ _)) by done. cbn [andb]. rewrite fmap_app. cbn.
    destruct (Z.ltb_spec (len (take 128 (take 96 <$> init))) 128) as [Hl|Hl]; rewrite length_take in Hl.
    + rewrite !(firstn_all2 (A := list Z)); [done|lia|rewrite length_app; cbn; lia].
    + by rewrite take_app_le by lia.
Qed.

Lemma print_lines l : forall w, wp (foldr (fun line m => _ ← println [as_str line]; m) (mret tt : Prog W unit) l)
  (fun w' _ => said 1 w' = said 1 w ++ mjoin ((fun e => as_str e ++ [10]) <$> l)) w.
Proof.
  induction l as [|e l IH]; intros w; cbn [foldr]; [apply wp_ret; by rewrite app_nil_r|].
  apply wp_bind, (wp_prints left said). intros w1 [E1 _]. eapply wp_mono; [apply IH|]. intros w2 u E2. rewrite E2, E1. cbn. by rewrite <- !app_assoc.
Qed.

(** [sort] prints the lines it kept of its input, each as often as it was there, in
    the order asked for (as texts or as numbers, backwards or not), and lines that are
    equal in that order as they came; for any input, however it arrives, it ends without
    a panic. *)
Theorem sort_correct fd reverse numeric fuel w :
  bytes_ok (left fd w) -> (length (left fd w) <= fuel)%nat ->
  exists w' out, sort_fd fd reverse numeric fuel w = Done (w', 0) /\
    said 1 w' = said 1 w ++ mjoin ((fun e => as_str e ++ [10]) <$> out) /\
    Permutation (kept (left fd w)) out /\ StronglySorted (before (should_swap reverse numeric)) out /\
    forall key, List.filter (same_key (should_swap reverse numeric) key) (kept (left fd w)) =
                List.filter (same_key (should_swap reverse numeric) key) out.
Proof.
  intros Hok Hf. destruct (bubble_sort_spec (should_swap reverse numeric) (swap_total reverse numeric) (swap_trans reverse numeric) (kept (left fd w)))
    as (out & Eo & Po & So & Ko).
  assert (Hw : wp (sort_fd fd reverse numeric fuel) (fun w' r => r = 0 /\ said 1 w' = said 1 w ++ mjoin ((fun e => as_str e ++ [10]) <$> out)) w).
  { unfold sort_fd. apply wp_bind.
    eapply wp_mono; [apply (input_loop_spec left said 1 lines_at line_byte) with (c := []) (o := []); [intros; by apply line_step|lia|done|done|]|].
    { split; [done|]. by exists [], []. }
    cbn [app]. intros w1 [lines cur] (d & E1 & _ & -> & init & last & Es & [= -> ->]). rewrite app_nil_r in E1. rewrite <- (kept_spec _ _ _ Es).
    apply wp_bind, wp_when; intros _; [apply wp_run|].
    all: apply wp_bind; eapply wp_pure; [exact Eo|]; apply wp_bind; eapply wp_mono; [apply print_lines|].
    all: intros w2 u E2; apply wp_ret; split; [done|]; rewrite E2, ?si_close, E1; done. }
  destruct Hw as (w' & r & E & -> & S). exists w', out. done.
Qed.
End Run.

(** ** A witness *)

Definition some_lines : list Z := as_bytes "10
9
-3
009".

Lemma sort_correct_witness :
  exists w' out, sort_fd 0 false true 40 (desk some_lines) = Done (w', 0) /\ Permutation (kept some_lines) out /\
    desk_said 1 w' = as_bytes "-3
9
009
10
".
Proof.
  destruct (sort_correct desk_left desk_said 0 false true 40 (desk some_lines)) as (w' & out & E & S & P & _); [apply as_bytes_ok|vm_compute; lia|].
  exists w', out. split; [exact E|]. split; [exact P|].
  assert (Ev : (fun r => match r with Done (w, _) => desk_said 1 w | _ => [] end) (sort_fd 0 false true 40 (desk some_lines)) = as_bytes "-3
9
009
10
") by (vm_compute; reflexivity).
  rewrite E in Ev. exact Ev.
Defined.
