(* ===== verification/ToolTsort.v ===== *)
(** * ToolTsort: the program [tsort] (userland/apps/src/bin/tsort.rs)

    A graph of up to 32 names of 16 bytes is read as pairs of words and printed in an
    order that respects the pairs.  A node is its index; the arrays over nodes are
    functions. *)

From Stdlib Require Import Ascii.
From S2P Require Import Prelude Text Sh ShOps ShWp ToolIo.

Open Scope Z_scope.

(* @src userland/apps/src/bin/tsort.rs 8-9 MAX_NODES, MAX_NAME_LEN *)
Definition MAX_NODES : nat := 32.
Definition MAX_NAME_LEN : nat := 16.

(** [names] up to [node_count]. *)
(* @src userland/apps/src/bin/tsort.rs 11-17 Graph *)
Record Graph := mkGraph { names : list (list Z); adj : nat -> nat -> bool; in_degree : nat -> nat }.

(** [a\[i\] = x]. *)
Definition put {A} (i : nat) (x : A) (a : nat -> A) : nat -> A := fun j => if decide (j = i) then x else a j.

(* @src userland/apps/src/bin/tsort.rs 20-28 Graph::new *)
Definition graph_new : Graph := mkGraph [] (fun _ _ => false) (fun _ => O).

(** The index of a name. *)
(* @src userland/apps/src/bin/tsort.rs 32-36 Graph::find_or_add_node (search) *)
Fixpoint find_name (key : list Z) (l : list (list Z)) (i : nat) : option nat :=
  match l with [] => None | n :: l => if bool_decide (n = key) then Some i else find_name key l (S i) end.

(* @src userland/apps/src/bin/tsort.rs 30-45 Graph::find_or_add_node *)
Definition find_or_add_node (token : list Z) (g : Graph) : Graph * option nat :=
  let key := take MAX_NAME_LEN token in
  match find_name key (names g) 0 with
  | Some i => (g, Some i)
  | None =>
    if (MAX_NODES <=? length (names g))%nat then (g, None)
    else (mkGraph (names g ++ [key]) (adj g) (in_degree g), Some (length (names g)))
  end.

(* @src userland/apps/src/bin/tsort.rs 47-52 Graph::add_edge *)
Definition add_edge (u v : nat) (g : Graph) : Graph :=
  if negb (u =? v)%nat && negb (adj g u v) then
    mkGraph (names g) (put u (put v true (adj g u)) (adj g)) (put v (S (in_degree g v)) (in_degree g))
  else g.

(** The search for a node without predecessors that is not out yet. *)
(* @src userland/apps/src/bin/tsort.rs 61-67 Graph::tsort (search) *)
Fixpoint find_ready (emitted : list nat) (in_deg : nat -> nat) (nodes : list nat) : option nat :=
  match nodes with
  | [] => None
  | i :: nodes => if negb (bool_decide (i ∈ emitted)) && (in_deg i =? 0)%nat then Some i else find_ready emitted in_deg nodes
  end.

(* @src userland/apps/src/bin/tsort.rs 77-83 Graph::tsort (successors) *)
Definition release_node (g : Graph) (u : nat) (in_deg : nat -> nat) : nat -> nat :=
  foldl (fun d v => if adj g u v then if (0 <? d v)%nat then put v (d v - 1)%nat d else d else d) in_deg (seq 0 (length (names g))).

Section Tsort.
Context {W : Type} {HO : ShOs W}.

Definition name_of (g : Graph) (u : nat) : list Z := default [] (names g !! u).
Definition write_name (g : Graph) (u : nat) : Prog W unit := _ ← run (os_write 1 (name_of g u)); run (os_write 1 [10]).

(** [emitted] are the nodes that are out, in order; [fuel] is their number to come. *)
(* @src userland/apps/src/bin/tsort.rs 59-100 Graph::tsort (loop) *)
Fixpoint tsort_loop (g : Graph) (emitted : list nat) (in_deg : nat -> nat) (fuel : nat) : Prog W Z :=
  if (length (names g) <=? length emitted)%nat then mret 0
  else
    match find_ready emitted in_deg (seq 0 (length (names g))) with
    | Some u =>
      _ ← write_name g u;
      match fuel with O => spent | S fuel => tsort_loop g (emitted ++ [u]) (release_node g u in_deg) fuel end
    | None =>
      _ ← run (os_write 2 (as_bytes "tsort: cycle in data" ++ [10]));
      _ ← foldr (fun i m => _ ← when (negb (bool_decide (i ∈ emitted))) (write_name g i); m) (mret tt : Prog W unit) (seq 0 (length (names g)));
      mret 1
    end.
(* @src userland/apps/src/bin/tsort.rs 54-101 Graph::tsort *)
Definition tsort (g : Graph) : Prog W Z := tsort_loop g [] (in_degree g) (length (names g)).

(** A word that is complete: the first of a pair is kept, the second makes an edge; a
    word that finds no room is skipped. *)
(* @src userland/apps/src/bin/tsort.rs 142-153 main (token) *)
Definition token_done (token : list Z) (s : Graph * option nat) : Graph * option nat :=
  let '(g, prev_node) := s in
  match find_or_add_node token g with
  | (g, None) => (g, prev_node)
  | (g, Some idx) => match prev_node with None => (g, Some idx) | Some u => (add_edge u idx g, None) end
  end.

Definition word_space (b : Z) : bool := (b =? 32) || (b =? 9) || (b =? 10) || (b =? 13).

(* @src userland/apps/src/bin/tsort.rs 139-160 main (byte) *)
Definition tsort_byte (s : (Graph * option nat) * list Z) (b : Z) : Prog W ((Graph * option nat) * list Z) :=
  let '(gp, token) := s in
  if word_space b then mret (if 0 <? len token then (token_done token gp, []) else (gp, token))
  else if len token <? 32 then mret (gp, token ++ [b]) else mret (gp, token).

(** From an open descriptor on. *)
(* @src userland/apps/src/bin/tsort.rs 127-187 main (from the graph) *)
Definition tsort_fd (fd : Z) (fuel : nat) : Prog W Z :=
  '(gp, token) ← input_loop fd 512 tsort_byte ((graph_new, None), []) fuel;
  let '(g, prev_node) := if 0 <? len token then token_done token gp else gp in
  _ ← when (0 <? fd) (run (os_close fd));
  match prev_node with
  | Some _ => _ ← run (os_write 2 (as_bytes "tsort: odd number of tokens" ++ [10])); mret 1
  | None => tsort g
  end.

(* @src userland/apps/src/bin/tsort.rs 105-188 main *)
Definition tsort_main (args : list (list Z)) (fuel : nat) : Prog W Z :=
  match args with
  | [] => tsort_fd 0 fuel
  | s :: _ =>
    if bool_decide (s = as_bytes "-h") || bool_decide (s = as_bytes "--help") then
      _ ← say "Usage: tsort [FILE]";
      _ ← say "Write totally ordered list consistent with the partial ordering in FILE";
      _ ← say "Tokens are pairs of whitespace-separated strings (u v meaning u precedes v)";
      mret 0
    else if bool_decide (s = as_bytes "-") then tsort_fd 0 fuel
    else
      opened ← call (os_open s O_RDONLY);
      if opened <? 0 then _ ← print [as_bytes "tsort: cannot open "]; _ ← println [s]; mret 1
      else tsort_fd opened fuel
  end.
End Tsort.

(** ** Counting *)

Lemma filter_ext_in {A} (f g : A -> bool) l : (forall x, x ∈ l -> f x = g x) -> List.filter f l = List.filter g l.
Proof. intros H. apply List.filter_ext_in. intros x Hx. apply H. by apply list_elem_of_In. Qed.

Lemma count_less (f : nat -> bool) u l : NoDup l -> u ∈ l ->
  length (List.filter (fun x => f x && negb (x =? u)%nat) l) = (length (List.filter f l) - if f u then 1 else 0)%nat.
Proof.
  intros Hn Hu. apply list_elem_of_split in Hu as (l1 & l2 & ->). apply NoDup_app in Hn as (_ & H1 & [Hu H2]%NoDup_cons).
  assert (H : forall l', u ∉ l' -> List.filter (fun x => f x && negb (x =? u)%nat) l' = List.filter f l').
  { intros l' Hl. apply filter_ext_in. intros x Hx. destruct (Nat.eqb_spec x u) as [->|]; [done|by rewrite andb_true_r]. }
  rewrite !List.filter_app, !length_app. cbn [List.filter]. rewrite Nat.eqb_refl, andb_false_r.
  rewrite !H; [destruct (f u); cbn; lia|done|]. intros ?. eapply H1; [done|left].
Qed.

Lemma count_zero (f : nat -> bool) l x : length (List.filter f l) = O -> x ∈ l -> f x = false.
Proof.
  intros H Hx. destruct (f x) eqn:E; [|done]. apply length_zero_iff_nil in H. apply list_elem_of_In in Hx.
  assert (Hi : In x (List.filter f l)) by (apply List.filter_In; done). by rewrite H in Hi.
Qed.
Lemma count_some (f : nat -> bool) l : length (List.filter f l) <> O -> exists x, x ∈ l /\ f x = true.
Proof.
  destruct (List.filter f l) as [|x fl] eqn:E; [done|]. intros _. exists x.
  assert (Hi : In x (List.filter f l)) by (rewrite E; left; done). apply List.filter_In in Hi as [Hi Hf]. by rewrite list_elem_of_In.
Qed.
Lemma count_more (f g : nat -> bool) u l : NoDup l -> u ∈ l -> f u = false -> (forall x, g x = (x =? u)%nat || f x) ->
  length (List.filter g l) = S (length (List.filter f l)).
Proof.
  intros Hn Hu Hf Hg. pose proof (count_less g u l Hn Hu) as H. rewrite Hg, Nat.eqb_refl in H. cbn in H.
  assert (E : List.filter (fun x => g x && negb (x =? u)%nat) l = List.filter f l).
  { apply filter_ext_in. intros x _. rewrite Hg. destruct (Nat.eqb_spec x u) as [->|]; cbn; [by rewrite Hf|by rewrite andb_true_r]. }
  rewrite E in H. assert (length (List.filter g l) <> O); [|lia]. intros H0. pose proof (count_zero g l u H0 Hu) as Hz.
  by rewrite Hg, Nat.eqb_refl in Hz.
Qed.

(** ** The graph *)

Definition nodes (g : Graph) : list nat := seq 0 (length (names g)).
Definition preds (g : Graph) (emitted : list nat) (v : nat) : nat :=
  length (List.filter (fun u => adj g u v && negb (bool_decide (u ∈ emitted))) (nodes g)).

(** Names once each, edges between nodes, and the predecessors counted. *)
Record graph_ok (g : Graph) : Prop := {
  ok_names : NoDup (names g);
  ok_room : (length (names g) <= MAX_NODES)%nat;
  ok_adj u v : adj g u v = true -> (u < length (names g))%nat /\ (v < length (names g))%nat /\ u <> v;
  ok_degree v : in_degree g v = preds g [] v;
}.

Lemma nodes_in g u : u ∈ nodes g <-> (u < length (names g))%nat.
Proof. unfold nodes. rewrite elem_of_seq. lia. Qed.
Lemma nodes_nodup g : NoDup (nodes g).
Proof. apply NoDup_ListNoDup, seq_NoDup. Qed.

Lemma release_spec g u d : forall v, v ∈ nodes g -> release_node g u d v = (d v - if adj g u v then 1 else 0)%nat.
Proof.
  unfold release_node. fold (nodes g). generalize (nodes_nodup g). generalize (nodes g) as l. intros l Hn. revert d.
  enough (H : forall d v, foldl (fun d v => if adj g u v then if (0 <? d v)%nat then put v (d v - 1)%nat d else d else d) d l v
    = (d v - if adj g u v && bool_decide (v ∈ l) then 1 else 0)%nat).
  { intros d v Hv. by rewrite H, bool_decide_true, andb_true_r by done. }
  induction Hn as [|x l Hx Hn IH]; intros d v; cbn [foldl].
  - rewrite bool_decide_false, andb_false_r by (apply not_elem_of_nil). lia.
  - rewrite IH. destruct (decide (v = x)) as [->|Hv].
    + rewrite (bool_decide_false (x ∈ l)), andb_false_r by done. rewrite bool_decide_true, andb_true_r by left.
      destruct (adj g u x); [|lia]. destruct (Nat.ltb_spec 0 (d x)); [unfold put; rewrite decide_True by done|]; lia.
    + assert (Em : bool_decide (v ∈ x :: l) = bool_decide (v ∈ l)) by (apply bool_decide_ext; rewrite elem_of_cons; naive_solver).
      rewrite Em. f_equal. destruct (adj g u x); [|done]. destruct (0 <? d x)%nat; [|done]. unfold put. by rewrite decide_False.
Qed.

Lemma preds_emit g emitted u v : u ∈ nodes g -> u ∉ emitted ->
  preds g (emitted ++ [u]) v = (preds g emitted v - if adj g u v then 1 else 0)%nat.
Proof.
  intros Hu Hn. unfold preds.
  pose proof (count_less (fun x => adj g x v && negb (bool_decide (x ∈ emitted))) u (nodes g) (nodes_nodup g) Hu) as E.
  cbn beta in E. rewrite (bool_decide_false (u ∈ emitted)) in E by done. cbn [negb] in E. rewrite (andb_true_r (adj g u v)) in E. rewrite <- E.
  f_equal. apply filter_ext_in. intros x _.
  rewrite <- andb_assoc. f_equal. rewrite <- negb_orb. f_equal.
  destruct (Nat.eqb_spec x u) as [->|Hx]; [rewrite orb_true_r; apply bool_decide_true; rewrite elem_of_app; right; left|].
  rewrite orb_false_r. apply bool_decide_ext. rewrite elem_of_app, list_elem_of_singleton. naive_solver.
Qed.

(** The predecessors of a node stand before it. *)
Definition respects (g : Graph) (ord : list nat) : Prop := forall u v pre post, adj g u v = true -> ord = pre ++ v :: post -> u ∈ pre.

Lemma respects_snoc g l u : NoDup (l ++ [u]) -> respects g l -> (forall x, adj g x u = true -> x ∈ l) -> respects g (l ++ [u]).
Proof.
  intros Hn Hr Hu x v pre post Hx E. destruct (decide (post = [])) as [->|Hp].
  - apply app_inj_tail in E as [-> ->]. by apply Hu.
  - destruct (exists_last Hp) as (post' & z & ->). rewrite app_comm_cons, app_assoc in E. apply app_inj_tail in E as [-> _]. by eapply Hr.
Qed.

Lemma find_ready_some emitted d l u : find_ready emitted d l = Some u -> u ∈ l /\ (u ∉ emitted) /\ d u = O.
Proof.
  induction l as [|x l IH]; cbn [find_ready]; [done|]. destruct (negb _ && _) eqn:E.
  - intros [= <-]. apply andb_prop in E as [E1 E2]. apply negb_true_iff, bool_decide_eq_false in E1. apply Nat.eqb_eq in E2. split; [left|done].
  - intros H. destruct (IH H) as (?&?&?). split; [by right|done].
Qed.
Lemma find_ready_none emitted d l : find_ready emitted d l = None -> forall u, u ∈ l -> u ∉ emitted -> d u <> O.
Proof.
  induction l as [|x l IH]; cbn [find_ready]; [by intros _ u ?%not_elem_of_nil|]. destruct (negb _ && _) eqn:E; [done|].
  intros H u [->|Hu]%elem_of_cons Hn; [|by apply IH]. intros Hz. rewrite bool_decide_false, Hz in E by done. done.
Qed.

(** A set of nodes in which each has a predecessor in the set is in no order. *)
Lemma stuck_no_order g (emitted ord : list nat) v : v ∈ ord -> v ∉ emitted ->
  (forall x, x ∉ emitted -> x ∈ ord -> exists y, (y ∉ emitted) /\ adj g y x = true) -> ~ respects g ord.
Proof.
  intros Hv Hn Hs Hr.
  enough (H : forall n pre post, length pre = n -> ord = pre ++ post -> forall x, x ∈ pre -> x ∈ emitted).
  { apply Hn. apply (H (length ord) ord [] eq_refl); [by rewrite app_nil_r|done]. }
  induction n as [|n IH]; intros pre post Hl E x Hx; [destruct pre; [by apply not_elem_of_nil in Hx|done]|].
  destruct (exists_last (l := pre)) as (pre' & z & ->); [by intros ->|]. rewrite length_app in Hl; cbn in Hl. rewrite <- app_assoc in E.
  assert (Hp : forall y, y ∈ pre' -> y ∈ emitted) by (intros; eapply (IH pre'); [lia|exact E|done]).
  apply elem_of_app in Hx as [Hx| ->%list_elem_of_singleton]; [by apply Hp|].
  destruct (decide (z ∈ emitted)) as [|Hz]; [done|]. destruct (Hs z Hz) as (y & Hy & Ha); [rewrite E, elem_of_app; right; left|].
  exfalso. apply Hy, Hp. by apply (Hr y z pre' post).
Qed.

(** ** The loop *)

Definition lines_of (l : list (list Z)) : list Z := mjoin ((fun n => n ++ [10]) <$> l).

Record emitting (g : Graph) (emitted : list nat) (d : nat -> nat) : Prop := {
  em_nodup : NoDup emitted;
  em_nodes x : x ∈ emitted -> x ∈ nodes g;
  em_order : respects g emitted;
  em_degree v : v ∈ nodes g -> d v = preds g emitted v;
}.

Lemma emitting_step g emitted d u : graph_ok g -> emitting g emitted d -> u ∈ nodes g -> u ∉ emitted -> d u = O ->
  emitting g (emitted ++ [u]) (release_node g u d).
Proof.
  intros Hg [Hn Hi Ho Hd] Hu Hx Hz.
  assert (Hn' : NoDup (emitted ++ [u])).
  { apply NoDup_app. split; [done|]. split; [|apply NoDup_singleton]. intros y Hy ->%list_elem_of_singleton. done. }
  split; [done|..].
  - intros x [Hin| ->%list_elem_of_singleton]%elem_of_app; [by apply Hi|done].
  - apply respects_snoc; [done..|]. intros x Ha. rewrite Hd in Hz by done.
    assert (Hxn : x ∈ nodes g) by (apply nodes_in; by destruct (ok_adj g Hg _ _ Ha)).
    pose proof (count_zero _ _ x Hz Hxn) as H. cbn beta in H. rewrite Ha in H. by apply negb_false_iff, bool_decide_eq_true in H.
  - intros v Hv. by rewrite release_spec, Hd, preds_emit.
Qed.

Lemma unemitted g (emitted : list nat) : (length emitted < length (names g))%nat -> exists v, v ∈ nodes g /\ (v ∉ emitted).
Proof.
  intros Hl. destruct (List.filter (fun v => negb (bool_decide (v ∈ emitted))) (nodes g)) as [|v l] eqn:E.
  - exfalso. assert (Hi : incl (nodes g) emitted).
    { intros v Hv. destruct (decide (v ∈ emitted)) as [He|He]; [by apply list_elem_of_In|].
      assert (In v (List.filter (fun v => negb (bool_decide (v ∈ emitted))) (nodes g))) as Hf by (apply List.filter_In; split; [done|by rewrite bool_decide_false]).
      by rewrite E in Hf. }
    apply NoDup_incl_length in Hi; [unfold nodes in Hi; rewrite length_seq in Hi; lia|apply NoDup_ListNoDup, nodes_nodup].
  - exists v. assert (Hf : In v (List.filter (fun v => negb (bool_decide (v ∈ emitted))) (nodes g))) by (rewrite E; left; done).
    apply List.filter_In in Hf as [Hv Hf]. apply negb_true_iff, bool_decide_eq_false in Hf. by rewrite list_elem_of_In.
Qed.

Section Run.
Context {W : Type} {HO : ShOs W} (left said : Z -> W -> list Z) {HS : Stdio left said}.
Implicit Types w : W.

Lemma write_name_spec g u w : wp (write_name g u) (fun w' _ => said 1 w' = said 1 w ++ lines_of [name_of g u]) w.
Proof.
  unfold write_name. apply wp_bind, (wp_write left said). intros w1 [E1 _]. apply (wp_write left said). intros w2 [E2 _].
  rewrite E2, E1, <- app_assoc. cbn. by rewrite app_nil_r.
Qed.
Lemma wp_stderr d (Q : W -> unit -> Prop) w : (forall w', said 1 w' = said 1 w -> Q w' tt) -> wp (run (os_write 2 d)) Q w.
Proof. intros H. apply wp_run, H. destruct (si_write 2 d w) as (_ & Ho & _). by apply Ho. Qed.

Lemma rest_spec g (emitted : list nat) l : forall w,
  wp (foldr (fun i m => _ ← when (negb (bool_decide (i ∈ emitted))) (write_name g i); m) (mret tt : Prog W unit) l)
     (fun w' _ => said 1 w' = said 1 w ++ lines_of (name_of g <$> List.filter (fun i => negb (bool_decide (i ∈ emitted))) l)) w.
Proof.
  induction l as [|i l IH]; intros w; cbn [foldr List.filter]; [apply wp_ret; by rewrite app_nil_r|].
  apply wp_bind, wp_when; intros ->.
  - eapply wp_mono; [apply write_name_spec|]. intros w1 [] E1. eapply wp_mono; [apply IH|]. intros w2 [] E2. rewrite E2, E1. cbn.
    by rewrite app_nil_r, <- !app_assoc.
  - apply IH.
Qed.

(** What the loop prints behind the nodes that are out, and what its result says. *)
Definition sorted_out (g : Graph) (emitted rest : list nat) (r : Z) : Prop :=
  NoDup (emitted ++ rest) /\ (forall x, x ∈ emitted ++ rest <-> x ∈ nodes g) /\
  ((r = 0 /\ respects g (emitted ++ rest)) \/
   (r = 1 /\ forall ord, (forall x, x ∈ nodes g -> x ∈ ord) -> (forall x, x ∈ ord -> x ∈ nodes g) -> ~ respects g ord)).

Lemma sorted_stuck g emitted d : graph_ok g -> emitting g emitted d -> (length emitted < length (names g))%nat ->
  find_ready emitted d (seq 0 (length (names g))) = None ->
  sorted_out g emitted (List.filter (fun i => negb (bool_decide (i ∈ emitted))) (nodes g)) 1.
Proof.
  intros Hg [Hn Hi Ho Hd] Hl Hf. set (rest := List.filter _ _).
  assert (Hr : forall x, x ∈ rest <-> x ∈ nodes g /\ (x ∉ emitted)).
  { intros x. rewrite !list_elem_of_In. unfold rest. rewrite List.filter_In, negb_true_iff, bool_decide_eq_false, list_elem_of_In. done. }
  split; [|split; [|right; split; [done|]]].
  - apply NoDup_app. split; [done|]. split; [intros x Hx [_ Hx']%Hr; done|]. apply NoDup_ListNoDup, List.NoDup_filter, NoDup_ListNoDup, nodes_nodup.
  - intros x. rewrite elem_of_app, Hr. destruct (decide (x ∈ emitted)); naive_solver.
  - intros ord Ha Hb. destruct (unemitted g emitted Hl) as (v & Hv & Hne). apply (stuck_no_order g emitted ord v); [by apply Ha|done|].
    intros x Hx Hxo. apply Hb in Hxo. pose proof (find_ready_none _ _ _ Hf x Hxo Hx) as Hz. rewrite Hd in Hz by done.
    apply count_some in Hz as (y & _ & [E1 E2]%andb_prop). apply negb_true_iff, bool_decide_eq_false in E2. eauto.
Qed.

Lemma tsort_loop_spec g : graph_ok g -> forall fuel emitted d w, emitting g emitted d -> (length (names g) <= length emitted + fuel)%nat ->
  wp (tsort_loop g emitted d fuel) (fun w' r => exists rest, said 1 w' = said 1 w ++ lines_of (name_of g <$> rest) /\ sorted_out g emitted rest r) w.
Proof.
  intros Hg. induction fuel as [|fuel IH]; intros emitted d w He Hl; cbn [tsort_loop].
  all: destruct (Nat.leb_spec (length (names g)) (length emitted)) as [Hc|Hc];
    [apply wp_ret; exists []; rewrite !app_nil_r; split; [done|]|].
  1, 3: unfold sorted_out; rewrite app_nil_r; split; [apply He|]; split; [|left; split; [done|apply He]]; intros x; split; [apply He|];
    intros Hx; apply list_elem_of_In; apply (NoDup_length_incl (l := emitted) (l' := nodes g));
    [apply NoDup_ListNoDup, He|unfold nodes; rewrite length_seq; lia|intros y Hy; apply list_elem_of_In, He; by apply list_elem_of_In|by apply list_elem_of_In].
  1: lia.
  destruct (find_ready _ _ _) as [u|] eqn:Ef.
  - apply find_ready_some in Ef as (Hu & Hne & Hz). apply wp_bind. eapply wp_mono; [apply write_name_spec|]. intros w1 [] E1.
    eapply wp_mono; [apply IH; [by apply emitting_step|rewrite length_app; cbn; lia]|].
    intros w2 r (rest & E2 & Hs). exists (u :: rest). split; [rewrite E2, E1; cbn; by rewrite app_nil_r, <- !app_assoc|].
    unfold sorted_out in *. by rewrite <- app_assoc in Hs.
  - apply wp_bind, wp_stderr. intros w1 E1. apply wp_bind. eapply wp_mono; [apply rest_spec|]. intros w2 [] E2. apply wp_ret.
    eexists. split; [rewrite E2, E1; reflexivity|]. by eapply sorted_stuck.
Qed.
End Run.

(** ** The graph of a text *)

(** The words of a text: what stands between white space, cut to 16 bytes. *)
Definition blank (b : Z) : Z := if word_space b then 10 else b.
Definition filled (p : list Z) : bool := negb (bool_decide (p = [])).
Definition words (l : list Z) : list (list Z) := take MAX_NAME_LEN <$> List.filter filled (split_on 10 (blank <$> l)).
Fixpoint pairs {A} (l : list A) : list (A * A) := match l with a :: b :: l => (a, b) :: pairs l | _ => [] end.

(** The first of a pair stands before the second. *)
Definition ordered (ps : list (list Z * list Z)) (out : list (list Z)) : Prop :=
  forall a b pre post, (a, b) ∈ ps -> a <> b -> out = pre ++ b :: post -> a ∈ pre.

Definition flat {A} (ps : list (A * A)) : list A := mjoin ((fun p => [p.1; p.2]) <$> ps).
Lemma pairs_flat {A} (ps : list (A * A)) l : (length l <= 1)%nat -> pairs (flat ps ++ l) = ps.
Proof. intros Hl. induction ps as [|[a b] ps IH]; cbn; [by destruct l as [|? [|]]; cbn in *; try lia|by f_equal]. Qed.
Lemma flat_snoc {A} (ps : list (A * A)) a b : flat (ps ++ [(a, b)]) = flat ps ++ [a; b].
Proof. unfold flat. by rewrite fmap_app, join_app. Qed.
Lemma flat_length {A} (ps : list (A * A)) : length (flat ps) = (2 * length ps)%nat.
Proof. induction ps as [|p ps IH]; cbn; [done|]. change (mjoin _) with (flat ps). lia. Qed.
Lemma flat_in {A} (ps : list (A * A)) a b : (a, b) ∈ ps -> a ∈ flat ps /\ b ∈ flat ps.
Proof.
  intros (l1 & l2 & ->)%list_elem_of_split. unfold flat. rewrite fmap_app, join_app. cbn. rewrite !elem_of_app, !elem_of_cons. auto.
Qed.

Lemma find_name_some key l : forall i j, find_name key l i = Some j -> exists k, j = (i + k)%nat /\ l !! k = Some key.
Proof.
  induction l as [|n l IH]; intros i j; cbn [find_name]; [done|]. case_bool_decide as E.
  - intros [= <-]. exists O. subst. split; [lia|done].
  - intros (k & -> & H)%IH. exists (S k). split; [lia|done].
Qed.
Lemma find_name_none key l : forall i, find_name key l i = None -> key ∉ l.
Proof.
  induction l as [|n l IH]; intros i; cbn [find_name]; [intros _; apply not_elem_of_nil|]. case_bool_decide as E; [done|].
  intros H%IH. rewrite elem_of_cons. naive_solver.
Qed.

Lemma graph_new_ok : graph_ok graph_new.
Proof. split; cbn; [constructor|lia|done|done]. Qed.

Lemma find_or_add_spec token g : graph_ok g -> take MAX_NAME_LEN token ∈ names g \/ (length (names g) < MAX_NODES)%nat ->
  exists g' i, find_or_add_node token g = (g', Some i) /\ graph_ok g' /\ names g' !! i = Some (take MAX_NAME_LEN token) /\
    adj g' = adj g /\ exists more, names g' = names g ++ more /\ forall x, x ∈ names g' <-> x ∈ names g \/ x = take MAX_NAME_LEN token.
Proof.
  intros Hg Hr. unfold find_or_add_node. destruct (find_name _ _ _) as [i|] eqn:E.
  - apply find_name_some in E as (k & -> & E). exists g, k. split; [done|]. split; [done|]. split; [done|]. split; [done|].
    exists []. split; [by rewrite app_nil_r|]. intros x. split; [by left|]. intros [H| ->]; [done|]. by eapply list_elem_of_lookup_2.
  - apply find_name_none in E. destruct Hr as [Hr|Hr]; [done|]. destruct (Nat.leb_spec MAX_NODES (length (names g))); [lia|].
    eexists _, _. split; [reflexivity|]. cbn [names adj]. split; [|split; [by rewrite lookup_app_r, Nat.sub_diag by lia|]].
    + destruct Hg as [H1 H2 H3 H4]. split; cbn.
      * apply NoDup_app. split; [done|]. split; [by intros x Hx ->%list_elem_of_singleton|apply NoDup_singleton].
      * rewrite length_app. cbn. lia.
      * intros u v Ha. apply H3 in Ha. rewrite length_app. cbn. lia.
      * intros v. rewrite H4. unfold preds, nodes. cbn. rewrite length_app. cbn. rewrite seq_app, List.filter_app, length_app. cbn.
        destruct (adj g (length (names g)) v) eqn:Ea; [apply H3 in Ea; lia|]. cbn. lia.
    + split; [done|]. eexists. split; [reflexivity|]. intros x. by rewrite elem_of_app, list_elem_of_singleton.
Qed.

Lemma add_edge_spec u v g : graph_ok g -> (u < length (names g))%nat -> (v < length (names g))%nat ->
  graph_ok (add_edge u v g) /\ names (add_edge u v g) = names g /\
  forall x y, adj (add_edge u v g) x y = true <-> adj g x y = true \/ (x = u /\ y = v /\ u <> v).
Proof.
  intros Hg Hu Hv. unfold add_edge. destruct (negb _ && negb _) eqn:E.
  - apply andb_prop in E as [E1%negb_true_iff E2%negb_true_iff]. apply Nat.eqb_neq in E1. cbn [names adj].
    assert (Ha : forall x y, put u (put v true (adj g u)) (adj g) x y = ((x =? u)%nat && (y =? v)%nat) || adj g x y).
    { intros x y. unfold put. destruct (decide (x = u)) as [->|]; [|by rewrite (proj2 (Nat.eqb_neq x u))].
      rewrite Nat.eqb_refl. destruct (decide (y = v)) as [->|]; [by rewrite Nat.eqb_refl|by rewrite (proj2 (Nat.eqb_neq y v))]. }
    split; [|split; [done|]].
    + destruct Hg as [H1 H2 H3 H4]. split; cbn; [done|done|..].
      * intros x y. rewrite Ha. intros [[->%Nat.eqb_eq ->%Nat.eqb_eq]%andb_prop|H]%orb_prop; [done|by apply H3].
      * intros y. unfold put at 1. unfold preds, nodes. cbn [names adj]. destruct (decide (y = v)) as [->|Hy].
        -- rewrite H4. symmetry. apply (count_more _ _ u); [apply NoDup_ListNoDup, seq_NoDup|apply elem_of_seq; lia|by rewrite E2|].
           intros x. rewrite Ha, Nat.eqb_refl, (bool_decide_false (x ∈ [])) by apply not_elem_of_nil. cbn. rewrite !andb_true_r. done.
        -- rewrite H4. unfold preds, nodes. f_equal. apply filter_ext_in. intros x _. rewrite Ha, (proj2 (Nat.eqb_neq y v)) by done. by rewrite andb_false_r.
    + intros x y. rewrite Ha, orb_true_iff, andb_true_iff, !Nat.eqb_eq. naive_solver.
  - split; [done|]. split; [done|]. intros x y. split; [by left|]. intros [H|(-> & -> & H)]; [done|].
    apply Nat.eqb_neq in H. rewrite H in E. by destruct (adj g u v).
Qed.

(** The graph, and the first of a pair, after the words [ws]. *)
Definition edges (g : Graph) (ps : list (list Z * list Z)) : Prop :=
  forall u v, adj g u v = true <-> exists a b, (a, b) ∈ ps /\ a <> b /\ names g !! u = Some a /\ names g !! v = Some b.
Definition built (ws : list (list Z)) (s : Graph * option nat) : Prop :=
  graph_ok s.1 /\ (forall x, x ∈ names s.1 <-> x ∈ ws) /\ exists ps, edges s.1 ps /\
    match s.2 with None => ws = flat ps | Some i => exists a, names s.1 !! i = Some a /\ ws = flat ps ++ [a] end.

Lemma edges_grow g g' ps more : edges g ps -> graph_ok g' -> adj g' = adj g -> names g' = names g ++ more ->
  (forall a b, (a, b) ∈ ps -> a ∈ names g /\ b ∈ names g) -> edges g' ps.
Proof.
  intros He Hg' Ea En Hps u v. rewrite Ea. unfold edges in He. rewrite (He u v). split.
  - intros (a & b & Hp & Hn & Hu & Hv). exists a, b. rewrite En. split_and!; [done..| |]; by apply lookup_app_l_Some.
  - intros (a & b & Hp & Hn & Hu & Hv). exists a, b. destruct (Hps a b Hp) as [Ha Hb]. split_and!; [done..| |].
    + apply list_elem_of_lookup in Ha as [i Hi]. assert (i = u) as ->; [|done].
      apply (NoDup_lookup (names g') i u a); [apply Hg'|rewrite En; by apply lookup_app_l_Some|done].
    + apply list_elem_of_lookup in Hb as [i Hi]. assert (i = v) as ->; [|done].
      apply (NoDup_lookup (names g') i v b); [apply Hg'|rewrite En; by apply lookup_app_l_Some|done].
Qed.

Lemma edges_add g ps u v a b : edges g ps -> graph_ok g -> names g !! u = Some a -> names g !! v = Some b -> edges (add_edge u v g) (ps ++ [(a, b)]).
Proof.
  intros He Hg Hu Hv x y. destruct (add_edge_spec u v g Hg) as (_ & En & Ea); [by eapply lookup_lt_Some..|]. rewrite Ea, En. unfold edges in He. rewrite (He x y).
  assert (Hinj : forall i j c, names g !! i = Some c -> names g !! j = Some c -> i = j) by (intros i j c ? ?; apply (NoDup_lookup (names g) i j c); [apply Hg|done|done]).
  split.
  - intros [(c & d & Hp & H)|(-> & -> & Hn)].
    + exists c, d. rewrite elem_of_app. naive_solver.
    + exists a, b. rewrite elem_of_app. split; [right; left|]. split; [intros ->; by apply Hn, (Hinj u v b)|done].
  - intros (c & d & Hp & Hn & Hx & Hy). apply elem_of_app in Hp as [Hp|Hp]; [left; exists c, d; done|].
    apply list_elem_of_singleton in Hp as [= -> ->]. right. assert (x = u) by eauto. assert (y = v) by eauto. subst.
    split; [done|]. split; [done|]. intros ->. congruence.
Qed.

(** The words that find room: one that is known, or new while there are fewer than 32. *)
Definition keep (ws : list (list Z)) (x : list Z) : list (list Z) :=
  if bool_decide (x ∈ ws) || (length (remove_dups ws) <? MAX_NODES)%nat then ws ++ [x] else ws.
Definition kept (ws : list (list Z)) : list (list Z) := foldl keep [] ws.

Lemma dups_less (l m : list (list Z)) : (forall x, x ∈ l -> x ∈ m) -> (length (remove_dups l) <= length (remove_dups m))%nat.
Proof.
  intros H. apply NoDup_incl_length; [apply NoDup_ListNoDup, NoDup_remove_dups|]. intros x Hx. apply list_elem_of_In, elem_of_remove_dups, H.
  by apply elem_of_remove_dups, list_elem_of_In.
Qed.

Lemma dups_same (l m : list (list Z)) : (forall x, x ∈ l <-> x ∈ m) -> length (remove_dups l) = length (remove_dups m).
Proof. intros H. apply Nat.le_antisymm; apply dups_less; intros x; apply H. Qed.

Lemma dups_nodup (l : list (list Z)) : NoDup l -> length (remove_dups l) = length l.
Proof.
  induction 1 as [|x l Hx _ IH]; [done|]. cbn [remove_dups]. destruct (decide_rel _ x l) as [|_]; [done|]. cbn [length]. by rewrite IH.
Qed.

Lemma dups_new (l : list (list Z)) x : x ∉ l -> length (remove_dups (l ++ [x])) = S (length (remove_dups l)).
Proof.
  intros Hx. rewrite (dups_same (l ++ [x]) (x :: l)) by (intros y; rewrite elem_of_app, !elem_of_cons; pose proof (not_elem_of_nil y); tauto).
  cbn [remove_dups]. by destruct (decide_rel _ x l).
Qed.

Lemma kept_more ws : forall acc, (length (remove_dups (acc ++ ws)) <= MAX_NODES)%nat -> foldl keep acc ws = acc ++ ws.
Proof.
  induction ws as [|x ws IH]; intros acc Hl; cbn [foldl]; [by rewrite app_nil_r|]. rewrite cons_middle, app_assoc in Hl |- *.
  assert (Hk : keep acc x = acc ++ [x]); [|rewrite Hk; by apply IH]. unfold keep. case_bool_decide as Hx; [done|]. cbn [orb].
  pose proof (dups_less (acc ++ [x]) ((acc ++ [x]) ++ ws)) as H. rewrite (dups_new _ _ Hx) in H.
  destruct (Nat.ltb_spec (length (remove_dups acc)) MAX_NODES); [done|]. specialize (H ltac:(set_solver)). lia.
Qed.

(** Nothing is lost of up to 32 different words. *)
Lemma kept_all ws : (length (remove_dups ws) <= MAX_NODES)%nat -> kept ws = ws.
Proof. intros H. by apply (kept_more ws []). Qed.

Lemma token_built ws token s : built ws s -> built (keep ws (take MAX_NAME_LEN token)) (token_done token s).
Proof.
  destruct s as [g prev]. intros (Hg & Hws & ps & He & Hp). cbn [fst snd] in *.
  assert (Hlen : length (remove_dups ws) = length (names g)).
  { rewrite <- (dups_nodup (names g)) by apply Hg. apply dups_same. intros x. by rewrite Hws. }
  unfold keep. rewrite Hlen. destruct (bool_decide _ || _) eqn:Eroom; cycle 1.
  { apply orb_false_iff in Eroom as [E1%bool_decide_eq_false E2%Nat.ltb_ge]. unfold token_done, find_or_add_node.
    destruct (find_name _ _ _) as [i|] eqn:Ef.
    - apply find_name_some in Ef as (k & _ & Ef). by apply list_elem_of_lookup_2, Hws in Ef.
    - rewrite (proj2 (Nat.leb_le _ _) E2). split; [done|]. split; [done|]. by exists ps. }
  destruct (find_or_add_spec token g Hg) as (g' & i & Ef & Hg' & Hi & Ea & more & En & Hk).
  { apply orb_prop in Eroom as [E%bool_decide_eq_true|E%Nat.ltb_lt]; [left; by apply Hws|by right]. }
  unfold token_done. rewrite Ef.
  assert (Hx : forall x, x ∈ names g' <-> x ∈ ws ++ [take MAX_NAME_LEN token]).
  { intros x. rewrite Hk, elem_of_app, list_elem_of_singleton, Hws. done. }
  assert (Hps : forall a b, (a, b) ∈ ps -> a ∈ names g /\ b ∈ names g).
  { intros a b H%flat_in. rewrite !Hws. destruct prev as [j|]; [destruct Hp as (c & _ & ->); rewrite !elem_of_app; naive_solver|by subst]. }
  pose proof (edges_grow g g' ps more He Hg' Ea En Hps) as He'.
  destruct prev as [u|].
  - destruct Hp as (a & Hu & Ews). apply (lookup_app_l_Some _ more) in Hu. rewrite <- En in Hu.
    destruct (add_edge_spec u i g' Hg') as (Hg2 & En2 & _); [by eapply lookup_lt_Some..|].
    split; [exact Hg2|]. cbn [fst snd]. rewrite En2. split; [done|]. exists (ps ++ [(a, take MAX_NAME_LEN token)]). split; [by apply edges_add|].
    by rewrite flat_snoc, Ews, <- app_assoc.
  - split; [exact Hg'|]. split; [done|]. exists ps. split; [done|]. exists (take MAX_NAME_LEN token). split; [done|]. by rewrite Hp.
Qed.

(** ** From nodes to names *)

Lemma name_lookup g u : u ∈ nodes g -> names g !! u = Some (name_of g u).
Proof. intros Hu%nodes_in%lookup_lt_is_Some. unfold name_of. by destruct Hu as [x ->]. Qed.
Lemma name_inj g u v : graph_ok g -> u ∈ nodes g -> v ∈ nodes g -> name_of g u = name_of g v -> u = v.
Proof.
  intros Hg Hu%name_lookup Hv%name_lookup E. rewrite <- E in Hv. by eapply NoDup_lookup; [apply Hg|..].
Qed.
Lemma name_node g x : x ∈ names g <-> exists u, u ∈ nodes g /\ name_of g u = x.
Proof.
  split.
  - intros [u Hu]%list_elem_of_lookup. exists u. split; [apply nodes_in; by eapply lookup_lt_Some|]. unfold name_of. by rewrite Hu.
  - intros (u & Hu%name_lookup & <-). by eapply list_elem_of_lookup_2.
Qed.

(** The names of a list of nodes are in order exactly if the nodes are. *)
Lemma respects_ordered g ps ord : graph_ok g -> edges g ps -> (forall x, x ∈ ord -> x ∈ nodes g) ->
  (forall a b, (a, b) ∈ ps -> a ∈ names g /\ b ∈ names g) -> respects g ord <-> ordered ps (name_of g <$> ord).
Proof.
  intros Hg He Ho Hps. unfold edges in He. split.
  - intros Hr a b pre post Hp Hn E. apply fmap_app_inv in E as (pre' & l & -> & E & ->). symmetry in E. apply fmap_cons_inv in E as (v & post' & -> & -> & ->).
    destruct (Hps _ _ Hp) as [(u & Hu & Eu)%name_node _]. apply list_elem_of_fmap. exists u. split; [done|].
    apply (Hr u v pre' post'); [|done]. apply He. exists a, (name_of g v). split; [done|]. split; [done|].
    split; [rewrite name_lookup by done; by rewrite Eu|]. apply name_lookup, Ho. rewrite elem_of_app. right. left.
  - intros Hr u v pre post Ha ->. apply He in Ha as (a & b & Hp & Hn & Hu & Hv).
    assert (Hun : u ∈ nodes g) by (apply nodes_in; by eapply lookup_lt_Some). rewrite fmap_app, fmap_cons in Hr.
    assert (Hvn : v ∈ nodes g) by (apply nodes_in; by eapply lookup_lt_Some).
    pose proof (Hr a b (name_of g <$> pre) (name_of g <$> post) Hp Hn) as H. rewrite name_lookup in Hu, Hv by done. injection Hu as Hu. injection Hv as Hv.
    rewrite Hv in H. specialize (H eq_refl). apply list_elem_of_fmap in H as (u' & E & Hu'). assert (u = u') as ->; [|done].
    apply (name_inj g); [done|done|apply Ho; rewrite elem_of_app; by left|congruence].
Qed.

Lemma names_out g ps rest r : graph_ok g -> edges g ps -> (forall a b, (a, b) ∈ ps -> a ∈ names g /\ b ∈ names g) ->
  sorted_out g [] rest r -> let out := name_of g <$> rest in
  NoDup out /\ (forall x, x ∈ out <-> x ∈ names g) /\
  ((r = 0 /\ ordered ps out) \/ (r = 1 /\ forall ord, (forall x, x ∈ ord <-> x ∈ names g) -> ~ ordered ps ord)).
Proof.
  intros Hg He Hps (Hn & Hi & Hr). cbn [app] in *. split; [|split].
  - clear Hr. assert (Hi' : forall x, x ∈ rest -> x ∈ nodes g) by apply Hi. clear Hi. induction Hn as [|u l Hu Hn IH]; cbn; constructor.
    + intros (v & E & Hv)%list_elem_of_fmap. apply name_inj in E; [congruence|done|apply Hi'; left|apply Hi'; by right].
    + apply IH. intros x Hx. apply Hi'. by right.
  - intros x. rewrite name_node, list_elem_of_fmap. setoid_rewrite Hi. naive_solver.
  - destruct Hr as [[-> Hr]|[-> Hr]]; [left; split; [done|]; eapply respects_ordered; eauto; apply Hi|].
    right. split; [done|]. intros ord Ho Hord.
    assert (Hl : exists l, ord = name_of g <$> l /\ forall u, u ∈ l -> u ∈ nodes g).
    { assert (Ho' : forall x, x ∈ ord -> x ∈ names g) by apply Ho. clear Ho Hord. induction ord as [|x ord IH].
      - exists []. split; [done|]. by intros u ?%not_elem_of_nil.
      - destruct IH as (l & -> & Hl); [intros y Hy; apply Ho'; by right|]. destruct (proj1 (name_node g x)) as (u & Hu & <-); [apply Ho'; left|].
        exists (u :: l). split; [done|]. intros v [->|Hv]%elem_of_cons; [done|by apply Hl]. }
    destruct Hl as (l & -> & Hl). apply (Hr l); [|done|by apply (respects_ordered g ps)].
    intros u Hu. assert (Hx : name_of g u ∈ name_of g <$> l) by (apply Ho, name_node; eauto).
    apply list_elem_of_fmap in Hx as (v & E & Hv). apply name_inj in E as ->; auto.
Qed.

(** ** The program *)

Section Program.
Context {W : Type} {HO : ShOs W} (left said : Z -> W -> list Z) {HS : Stdio left said}.
Implicit Types w : W.

(** The state after the bytes [c]: the words that are complete, and the one that is read. *)
Definition tokens_at (s : (Graph * option nat) * list Z) (c o : list Z) : Prop :=
  o = [] /\ exists init last, split_on 10 (blank <$> c) = init ++ [last] /\
    s = (foldl (fun s t => token_done t s) (graph_new, None) (take 32 <$> List.filter filled init), take 32 last).

Lemma blank_spec b : (blank b =? 10) = word_space b.
Proof. unfold blank, word_space. destruct (Z.eqb_spec b 32), (Z.eqb_spec b 9), (Z.eqb_spec b 10), (Z.eqb_spec b 13); subst; cbn; try done. by apply Z.eqb_neq. Qed.
Lemma take_filled (p : list Z) : (0 <? len (take 32 p)) = filled p.
Proof. unfold filled. destruct p as [|x p]; [done|]. rewrite bool_decide_false by done. cbn [negb]. apply Z.ltb_lt. rewrite length_take. cbn. lia. Qed.

Lemma token_step s c o b w : is_byte b -> tokens_at s c o ->
  wp (tsort_byte s b) (fun w' s' => exists d, told left said w w' d /\ tokens_at s' (c ++ [b]) (o ++ d)) w.
Proof.
  intros Hb (-> & init & last & Ec & ->). pose proof (split_on_snoc (blank <$> c) (blank b) init last Ec) as En. rewrite blank_spec in En.
  assert (H : forall s', tokens_at s' (c ++ [b]) [] -> wp (mret s' : Prog W _) (fun w' s' => exists d, told left said w w' d /\ tokens_at s' (c ++ [b]) ([] ++ d)) w).
  { intros s' Hs. apply wp_ret. exists []. split; [apply told_refl|done]. }
  unfold tsort_byte. destruct (word_space b) eqn:Eb.
  - apply H. split; [done|]. exists (init ++ [last]), []. rewrite fmap_app. cbn [fmap list_fmap]. rewrite En, <- app_assoc. split; [done|].
    rewrite take_filled, List.filter_app. cbn [List.filter]. destruct (filled last) eqn:El.
    + by rewrite fmap_app, foldl_app.
    + rewrite app_nil_r. unfold filled in El. apply negb_false_iff, bool_decide_eq_true in El. by subst.
  - assert (Hbl : blank b = b) by (unfold blank; by rewrite Eb).
    destruct (Z.ltb_spec (len (take 32 last)) 32) as [Hl|Hl]; rewrite length_take in Hl; apply H; (split; [done|]); exists init, (last ++ [b]);
      rewrite fmap_app; cbn [fmap list_fmap]; rewrite En, Hbl; (split; [done|]); f_equal.
    + rewrite !firstn_all2; [done|rewrite length_app; cbn; lia|lia].
    + by rewrite take_app_le by lia.
Qed.

(** The words one after the other. *)
Lemma tokens_built toks : forall ws s, built ws s -> built (foldl keep ws (take MAX_NAME_LEN <$> toks)) (foldl (fun s t => token_done t s) s toks).
Proof.
  induction toks as [|t toks IH]; intros ws s Hb; cbn [fmap list_fmap foldl] in *; [done|]. by apply IH, token_built.
Qed.
Lemma words_spec l init last : split_on 10 (blank <$> l) = init ++ [last] ->
  words l = take MAX_NAME_LEN <$> (take 32 <$> List.filter filled init) ++ (if filled last then [take 32 last] else []).
Proof.
  intros E. assert (H : forall x : list Z, take MAX_NAME_LEN (take 32 x) = take MAX_NAME_LEN x) by (intros; by rewrite take_take).
  unfold words. rewrite E, List.filter_app, !fmap_app, <- list_fmap_compose. f_equal.
  - apply list_fmap_ext. intros i x _. cbn. by rewrite H.
  - cbn [List.filter]. destruct (filled last); [|done]. cbn. by rewrite take_take.
Qed.

Lemma graph_read ws s : built ws s -> bool_decide (is_Some s.2) = negb (Nat.even (length ws)).
Proof.
  intros (_ & _ & ps & _ & H). destruct s as [g [i|]]; cbn [fst snd] in *.
  - destruct H as (a & _ & ->). rewrite length_app, flat_length, Nat.even_add, Nat.even_mul. by rewrite bool_decide_true.
  - rewrite H, flat_length, Nat.even_mul. rewrite bool_decide_false; [done|by intros []].
Qed.

(** C40. [tsort] on any input, however it arrives.  The words that count are those that
    stand between white space, cut to 16 bytes, and find room: with at most 32 different
    ones that is all of them; otherwise a new word is skipped once there are 32 names.
    If their number is odd, nothing is printed and the result is 1.  Otherwise every one
    of them is printed once; when the result is 0 the first word of each pair stands
    before the second; the result is 1 when no order of the words does that.  The program
    ends without a panic. *)
Theorem tsort_correct fd fuel w :
  let ws := kept (words (left fd w)) in
  bytes_ok (left fd w) -> (length (left fd w) <= fuel)%nat ->
  ((length (remove_dups (words (left fd w))) <= MAX_NODES)%nat -> ws = words (left fd w)) /\
  exists w' r out, tsort_fd fd fuel w = Done (w', r) /\ said 1 w' = said 1 w ++ lines_of out /\
    if Nat.even (length ws) then
      NoDup out /\ (forall x, x ∈ out <-> x ∈ ws) /\
      ((r = 0 /\ ordered (pairs ws) out) \/ (r = 1 /\ forall ord, (forall x, x ∈ ord <-> x ∈ ws) -> ~ ordered (pairs ws) ord))
    else out = [] /\ r = 1.
Proof.
  intros ws Hok Hf. split; [apply kept_all|].
  enough (Hw : wp (tsort_fd fd fuel) (fun w' r => exists out, said 1 w' = said 1 w ++ lines_of out /\
    if Nat.even (length ws) then
      NoDup out /\ (forall x, x ∈ out <-> x ∈ ws) /\
      ((r = 0 /\ ordered (pairs ws) out) \/ (r = 1 /\ forall ord, (forall x, x ∈ ord <-> x ∈ ws) -> ~ ordered (pairs ws) ord))
    else out = [] /\ r = 1) w).
  { destruct Hw as (w' & r & E & out & H). by exists w', r, out. }
  unfold tsort_fd. apply wp_bind.
  eapply wp_mono; [apply (input_loop_spec left said 1 tokens_at tsort_byte) with (c := []) (o := []); [intros; by apply token_step|lia|done|done|]|].
  { split; [done|]. by exists [], []. }
  cbn [app]. intros w1 [gp token] (d & E1 & _ & -> & init & last & Es & [= -> ->]). rewrite app_nil_r in E1.
  pose proof (words_spec _ _ _ Es) as Ew.
  assert (Hb : built ws (if 0 <? len (take 32 last) then token_done (take 32 last) (foldl (fun s t => token_done t s) (graph_new, None) (take 32 <$> List.filter filled init))
    else foldl (fun s t => token_done t s) (graph_new, None) (take 32 <$> List.filter filled init))).
  { assert (H0 : built [] (graph_new, None)) by (split; [apply graph_new_ok|]; split; [done|]; exists []; split; [|done]; intros u v; cbn; split; [done|by intros (?&?&?%not_elem_of_nil&_)]).
    pose proof (tokens_built ((take 32 <$> List.filter filled init) ++ (if filled last then [take 32 last] else [])) [] _ H0) as Hb.
    rewrite <- Ew, foldl_app in Hb. rewrite take_filled. unfold ws, kept. by destruct (filled last). }
  set (s := if 0 <? len (take 32 last) then _ else _) in *. clearbody s. clearbody ws. pose proof (graph_read ws s Hb) as Hp.
  destruct s as [g [i|]].
  { rewrite bool_decide_true in Hp by done. symmetry in Hp. apply negb_true_iff in Hp. rewrite Hp.
    apply wp_bind, wp_when; intros _; [apply wp_run|]; apply wp_bind, wp_run, wp_ret; exists []; rewrite app_nil_r; (split; [|done]).
    all: rewrite (proj1 (proj2 (si_write (left := left) (said := said) 2 _ _))), ?si_close by done; done. }
  rewrite bool_decide_false in Hp by (by intros []). symmetry in Hp. apply negb_false_iff in Hp. rewrite Hp.
  destruct Hb as (Hg & Hn & ps & He & Eps). cbn [fst snd] in *.
  assert (Hps : pairs ws = ps) by (rewrite Eps, <- (app_nil_r (flat ps)); apply pairs_flat; cbn; lia). rewrite Hps.
  assert (Hin : forall a b, (a, b) ∈ ps -> a ∈ names g /\ b ∈ names g) by (intros a b H%flat_in; by rewrite !Hn, Eps).
  assert (Hstart : emitting g [] (in_degree g)).
  { split; [constructor|by intros x ?%not_elem_of_nil|intros u v [|] post _ [=]|intros v _; apply (ok_degree g Hg)]. }
  apply wp_bind, wp_when; intros _; [apply wp_run|].
  all: eapply wp_mono; [apply (tsort_loop_spec left said g Hg); [done|cbn; lia]|].
  all: intros w2 r (rest & E2 & Hs); apply (names_out g ps) in Hs; [|done..]; cbn zeta in Hs; setoid_rewrite Hn in Hs; exists (name_of g <$> rest).
  all: rewrite E2, ?si_close, E1; done.
Qed.
End Program.

(** ** Witnesses *)

Lemma tsort_correct_witness :
  (exists w' out, tsort_fd 0 60 (desk (as_bytes "shirt tie tie jacket belt jacket socks socks")) = Done (w', 0) /\
     ordered (pairs (words (as_bytes "shirt tie tie jacket belt jacket socks socks"))) out) /\
  (forall ord, (forall x, x ∈ ord <-> x ∈ words (as_bytes "a b b a")) -> ~ ordered (pairs (words (as_bytes "a b b a"))) ord).
Proof.
  split.
  - destruct (tsort_correct desk_left desk_said 0 60 (desk (as_bytes "shirt tie tie jacket belt jacket socks socks"))) as [Hk (w' & r & out & E & _ & H)];
      [apply as_bytes_ok|vm_compute; lia|]. rewrite Hk in H by (vm_compute; lia). destruct H as (_ & _ & H). exists w', out.
    assert (Er : (fun x => match x with Done (_, r) => r | _ => 7 end) (tsort_fd 0 60 (desk (as_bytes "shirt tie tie jacket belt jacket socks socks"))) = 0) by (vm_compute; reflexivity).
    rewrite E in Er. subst r. destruct H as [[_ H]|[[=] _]]. by split.
  - destruct (tsort_correct desk_left desk_said 0 60 (desk (as_bytes "a b b a"))) as [Hk (w' & r & out & E & _ & H)];
      [apply as_bytes_ok|vm_compute; lia|]. rewrite Hk in H by (vm_compute; lia). destruct H as (_ & _ & H).
    assert (Er : (fun x => match x with Done (_, r) => r | _ => 7 end) (tsort_fd 0 60 (desk (as_bytes "a b b a"))) = 1) by (vm_compute; reflexivity).
    rewrite E in Er. subst r. destruct H as [[[=] _]|[_ H]]. exact H.
Defined.
