(* ===== verification/ToolBc.v ===== *)
(** * ToolBc: the program [bc] (userland/apps/src/bin/bc.rs)

    A calculator with two stacks of 32 entries.  What it prints of an expression is the
    value that the grammar of expressions gives it, for expressions that fit the stacks;
    of a value only the low 32 bits are shown. *)

From Stdlib Require Import Ascii.
From S2P Require Import Prelude Text Sh ShOps ShWp ToolIo.

Open Scope Z_scope.

(** An [i64] after a wrapping operation. *)
Definition s64 (z : Z) : Z := (z + 2 ^ 63) mod 2 ^ 64 - 2 ^ 63.

(* @src userland/apps/src/bin/bc.rs 37-44 precedence *)
Definition precedence (op : Z) : Z :=
  if (op =? 43) || (op =? 45) then 1
  else if (op =? 42) || (op =? 47) || (op =? 37) then 2
  else if op =? 94 then 3
  else 0.

(** [fuel] bounds the bits of the exponent. *)
(* @src userland/apps/src/bin/bc.rs 51-57 ipow (loop) *)
Fixpoint ipow_loop (base exp res : Z) (fuel : nat) : Z :=
  match fuel with
  | O => res
  | S fuel =>
    if 0 <? exp then ipow_loop (s64 (base * base)) (Z.shiftr exp 1) (if Z.testbit exp 0 then s64 (res * base) else res) fuel
    else res
  end.
(* @src userland/apps/src/bin/bc.rs 46-59 ipow *)
Definition ipow (base exp : Z) : Z := if exp <? 0 then 0 else ipow_loop base exp 1 64.

Definition STACK : Z := 32.
Definition is_blank (b : Z) : bool := (b =? 32) || (b =? 9) || (b =? 13) || (b =? 10).
Definition is_op (b : Z) : bool := (b =? 43) || (b =? 45) || (b =? 42) || (b =? 47) || (b =? 37) || (b =? 94).

(* @src userland/apps/src/bin/bc.rs 110-112 eval_expr (blanks) *)
Fixpoint skip_blanks (s : list Z) : list Z :=
  match s with b :: s' => if is_blank b then skip_blanks s' else s | [] => [] end.
(** The number the text starts with, and what is behind it. *)
(* @src userland/apps/src/bin/bc.rs 124-127 eval_expr (digits) *)
Fixpoint number (s : list Z) (val : Z) : Z * list Z :=
  match s with b :: s' => if is_digit b then number s' (s64 (s64 (val * 10) + (b - 48))) else (val, s) | [] => (val, []) end.

Section Bc.
Context {W : Type} {HO : ShOs W}.

(** Each digit is a piece; a [usize] has 32 bits. *)
(* @src userland/apps/src/bin/bc.rs 6-25 print_dec *)
Definition print_dec (n : Z) : Prog W unit := print ((fun d => [d]) <$> itoa n).
(* @src userland/apps/src/bin/bc.rs 27-35 print_num *)
Definition print_num (val : Z) : Prog W unit :=
  _ ← (if val <? 0 then _ ← print [[45]]; print_dec (u32 (s64 (- val))) else print_dec (u32 val));
  println [].

(** A stack has its top first; [None] is [false].  Dividing the least number by -1
    panics, in every profile. *)
(* @src userland/apps/src/bin/bc.rs 61-94 apply_op *)
Definition apply_op (vals : list Z) (op : Z) : Prog W (option (list Z)) :=
  match vals with
  | b :: a :: vals =>
    if op =? 43 then mret (Some (s64 (a + b) :: vals))
    else if op =? 45 then mret (Some (s64 (a - b) :: vals))
    else if op =? 42 then mret (Some (s64 (a * b) :: vals))
    else if (op =? 47) || (op =? 37) then
      if b =? 0 then _ ← say "bc: divide by zero"; mret None
      else if (a =? - 2 ^ 63) && (b =? -1) then pure None
      else mret (Some ((if op =? 47 then Z.quot a b else Z.rem a b) :: vals))
    else if op =? 94 then mret (Some (ipow a b :: vals))
    else mret None
  | _ => mret None
  end.

(** The operators above the last parenthesis that bind at least as strongly as [prec]. *)
(* @src userland/apps/src/bin/bc.rs 158-164 eval_expr (operators that bind) *)
Fixpoint reduce (prec : Z) (vals ops : list Z) : Prog W (option (list Z * list Z)) :=
  match ops with
  | op :: ops' =>
    if negb (op =? 40) && (prec <=? precedence op) then
      r ← apply_op vals op;
      match r with Some vals => reduce prec vals ops' | None => mret None end
    else mret (Some (vals, ops))
  | [] => mret (Some (vals, ops))
  end.

(** A turn for what starts with [b] and goes on with [s]: [None] if the evaluation ends. *)
(* @src userland/apps/src/bin/bc.rs 117-173 eval_expr (loop body) *)
Definition eval_step (b : Z) (s vals ops : list Z) (unary : bool) : Prog W (option (list Z * list Z * list Z * bool)) :=
  let next := match s with d :: _ => is_digit d | [] => false end in
  if is_digit b || ((b =? 45) && unary && next) then
    let neg := b =? 45 in
    let '(val, s) := number (if neg then s else b :: s) 0 in
    let val := if neg then s64 (- val) else val in
    mret (Some (s, if len vals <? STACK then val :: vals else vals, ops, false))
  else if b =? 40 then mret (Some (s, vals, if len ops <? STACK then b :: ops else ops, true))
  else if b =? 41 then
    r ← reduce 0 vals ops;
    match r with
    | None => mret None
    | Some (vals, ops) => mret (Some (s, vals, match ops with 40 :: ops' => ops' | _ => ops end, false))
    end
  else if is_op b then
    r ← reduce (precedence b) vals ops;
    match r with
    | None => mret None
    | Some (vals, ops) => mret (Some (s, vals, if len ops <? STACK then b :: ops else ops, true))
    end
  else mret (Some (s, vals, ops, unary)).

(* @src userland/apps/src/bin/bc.rs 108-174 eval_expr (loop) *)
Fixpoint eval_loop (s vals ops : list Z) (unary : bool) (fuel : nat) : Prog W (option (list Z * list Z)) :=
  match fuel with
  | O => spent
  | S fuel =>
    match skip_blanks s with
    | [] => mret (Some (vals, ops))
    | b :: s =>
      r ← eval_step b s vals ops unary;
      match r with Some (s, vals, ops, unary) => eval_loop s vals ops unary fuel | None => mret None end
    end
  end.

(* @src userland/apps/src/bin/bc.rs 176-185 eval_expr (last operators) *)
Fixpoint last_ops (vals ops : list Z) : Prog W (option (list Z)) :=
  match ops with
  | [] => mret (Some vals)
  | op :: ops =>
    if (op =? 40) || (op =? 41) then last_ops vals ops
    else r ← apply_op vals op; match r with Some vals => last_ops vals ops | None => mret None end
  end.

(* @src userland/apps/src/bin/bc.rs 96-190 eval_expr *)
Definition eval_expr (expr : list Z) : Prog W unit :=
  r ← eval_loop expr [] [] true (S (length expr));
  match r with
  | None => mret tt
  | Some (vals, ops) =>
    r ← last_ops vals ops;
    match r with Some (v :: _) => print_num v | _ => mret tt end
  end.

(** ** The program *)

(* @src userland/apps/src/bin/bc.rs 228-233 main (trimmed line) *)
Definition eval_line (line : list Z) : Prog W unit :=
  if utf8_valid line then let t := Text.trim line in if bool_decide (t = []) then mret tt else eval_expr t else mret tt.
(* @src userland/apps/src/bin/bc.rs 226-239 main (byte) *)
Definition bc_byte (line : list Z) (b : Z) : Prog W (list Z) :=
  if b =? 10 then _ ← eval_line line; mret [] else mret (if len line <? 128 then line ++ [b] else line).

(** Was there an expression?  [None] if the usage was asked for. *)
(* @src userland/apps/src/bin/bc.rs 194-214 main (arguments) *)
Fixpoint bc_args (args : list (list Z)) (has_expr : bool) : Prog W (option bool) :=
  match args with
  | [] => mret (Some has_expr)
  | a :: args =>
    if bool_decide (a = as_bytes "--help") || bool_decide (a = as_bytes "-h") then
      _ ← say "Usage: bc [OPTION] [EXPRESSION...]";
      _ ← say "An arbitrary-precision and standard infix calculator language";
      _ ← say "  -e, --expression=EXPR  evaluate EXPR string";
      mret None
    else if bool_decide (a = as_bytes "-e") || bool_decide (a = as_bytes "--expression") then
      match args with expr :: args => _ ← eval_expr expr; bc_args args true | [] => mret (Some has_expr) end
    else if starts_with [45] a then bc_args args has_expr
    else _ ← eval_expr a; bc_args args true
  end.
(* @src userland/apps/src/bin/bc.rs 193-252 main *)
Definition bc_main (args : list (list Z)) (fuel : nat) : Prog W Z :=
  r ← bc_args args false;
  match r with
  | None | Some true => mret 0
  | Some false =>
    line ← input_loop 0 256 bc_byte [] fuel;
    _ ← (if 0 <? len line then eval_line line else mret tt);
    mret 0
  end.
End Bc.

(** ** Expressions

    The grammar: numbers, parentheses and operators from the left, each binding the
    stronger the higher its precedence. *)

Inductive Exp : Type := Lit (z : Z) | Par (e : Exp) | Op (op : Z) (l r : Exp).

(** The precedence of the outermost operator. *)
Definition level (e : Exp) : Z := match e with Op op _ _ => precedence op | _ => 4 end.
Fixpoint wf (e : Exp) : Prop :=
  match e with
  | Lit _ => True
  | Par e => wf e
  | Op op l r => is_op op = true /\ wf l /\ wf r /\ precedence op <= level l /\ precedence op < level r
  end.

(** What an operator makes of two numbers. *)
Definition apply (op a b : Z) : option Z :=
  if op =? 43 then Some (s64 (a + b))
  else if op =? 45 then Some (s64 (a - b))
  else if op =? 42 then Some (s64 (a * b))
  else if (op =? 47) || (op =? 37) then
    if (b =? 0) || ((a =? - 2 ^ 63) && (b =? -1)) then None else Some (if op =? 47 then Z.quot a b else Z.rem a b)
  else if b <? 0 then Some 0 else Some (s64 (a ^ b)).
Fixpoint value (e : Exp) : option Z :=
  match e with
  | Lit z => Some (s64 z)
  | Par e => value e
  | Op op l r => a ← value l; b ← value r; apply op a b
  end.

(** The stacks that an expression needs. *)
Fixpoint values_needed (e : Exp) : Z :=
  match e with Lit _ => 1 | Par e => values_needed e | Op _ l r => Z.max (values_needed l) (1 + values_needed r) end.
Fixpoint ops_needed (e : Exp) : Z :=
  match e with Lit _ => 0 | Par e => 1 + ops_needed e | Op _ l r => Z.max (ops_needed l) (1 + ops_needed r) end.

(** The ways to write an expression, with blanks before each of its parts. *)
Inductive written : Exp -> list Z -> Prop :=
  | w_lit ws ds : Forall (fun b => is_blank b = true) ws -> ds <> [] -> Forall (fun b => is_digit b = true) ds ->
      written (Lit (decimal ds)) (ws ++ ds)
  | w_neg ws ds : Forall (fun b => is_blank b = true) ws -> ds <> [] -> Forall (fun b => is_digit b = true) ds ->
      written (Lit (- decimal ds)) (ws ++ 45 :: ds)
  | w_par e ws s ws' : Forall (fun b => is_blank b = true) ws -> Forall (fun b => is_blank b = true) ws' -> written e s ->
      written (Par e) (ws ++ 40 :: s ++ ws' ++ [41])
  | w_op op l r sl ws sr : Forall (fun b => is_blank b = true) ws -> written l sl -> written r sr ->
      written (Op op l r) (sl ++ ws ++ op :: sr).

(** ** Arithmetic *)

Lemma s64_mod z : s64 z mod 2 ^ 64 = z mod 2 ^ 64.
Proof. unfold s64. rewrite Zminus_mod_idemp_l. f_equal. lia. Qed.
Lemma s64_eq a b : a mod 2 ^ 64 = b mod 2 ^ 64 -> s64 a = s64 b.
Proof. intros E. unfold s64. f_equal. rewrite (Zplus_mod a), (Zplus_mod b), E. done. Qed.
Lemma s64_mul a b : s64 (s64 a * b) = s64 (a * b).
Proof. apply s64_eq. rewrite Zmult_mod, s64_mod, <- Zmult_mod. done. Qed.
Lemma s64_mul_r a b : s64 (a * s64 b) = s64 (a * b).
Proof. by rewrite Z.mul_comm, s64_mul, Z.mul_comm. Qed.
Lemma s64_add a b : s64 (s64 a + b) = s64 (a + b).
Proof. apply s64_eq. rewrite Zplus_mod, s64_mod, <- Zplus_mod. done. Qed.
Lemma s64_opp a : s64 (- s64 a) = s64 (- a).
Proof. replace (- s64 a) with (s64 a * -1) by lia. rewrite s64_mul. f_equal. lia. Qed.

Lemma pow_mod a b n : 0 <= n -> a mod 2 ^ 64 = b mod 2 ^ 64 -> a ^ n mod 2 ^ 64 = b ^ n mod 2 ^ 64.
Proof.
  intros Hn E. revert n Hn. apply natlike_ind; [done|]. intros n Hn IH. rewrite !Z.pow_succ_r by done.
  by rewrite Zmult_mod, E, IH, <- Zmult_mod.
Qed.
Lemma ipow_loop_spec fuel : forall base exp res, 0 <= exp < 2 ^ Z.of_nat fuel -> ipow_loop base exp (s64 res) fuel = s64 (res * base ^ exp).
Proof.
  induction fuel as [|fuel IH]; intros base exp res Hexp; cbn [ipow_loop].
  - assert (exp = 0) as -> by (cbn in Hexp; lia). by rewrite Z.mul_1_r.
  - destruct (Z.ltb_spec 0 exp).
    2: { assert (exp = 0) as -> by lia. by rewrite Z.mul_1_r. }
    rewrite Nat2Z.inj_succ, Z.pow_succ_r in Hexp by lia. rewrite Z.shiftr_div_pow2, Z.pow_1_r by lia.
    pose proof (Z.div_mod exp 2 ltac:(lia)) as Hdm. pose proof (Z.mod_pos_bound exp 2 ltac:(lia)) as Hb.
    assert (E2 : s64 (res * base ^ (exp mod 2)) = if Z.testbit exp 0 then s64 (s64 res * base) else s64 res).
    { rewrite <- Z.bit0_mod. destruct (Z.testbit exp 0); cbn [Z.b2z]; [by rewrite Z.pow_1_r, s64_mul|by rewrite Z.mul_1_r]. }
    rewrite <- E2, IH by (split; [apply Z.div_pos; lia|apply Z.div_lt_upper_bound; lia]).
    apply s64_eq. rewrite <- Z.mul_assoc, Zmult_mod. rewrite (Zmult_mod res). f_equal. f_equal.
    rewrite Hdm at 3. rewrite Z.pow_add_r, Z.pow_mul_r by lia. rewrite (Zmult_mod (base ^ (exp mod 2))), (Zmult_mod ((base ^ 2) ^ _)), Z.mul_comm. f_equal. f_equal.
    apply pow_mod; [apply Z.div_pos; lia|]. rewrite s64_mod. f_equal. lia.
Qed.
Lemma ipow_spec a b : 0 <= b < 2 ^ 63 -> ipow a b = s64 (a ^ b).
Proof.
  intros Hb. unfold ipow. destruct (Z.ltb_spec b 0); [lia|]. change 1 with (s64 1). rewrite ipow_loop_spec by (change (Z.of_nat 64) with 64; lia). by rewrite Z.mul_1_l.
Qed.

Definition in64 (z : Z) : Prop := - 2 ^ 63 <= z < 2 ^ 63.
Lemma s64_in z : in64 (s64 z).
Proof. unfold in64, s64. pose proof (Z.mod_pos_bound (z + 2 ^ 63) (2 ^ 64) ltac:(lia)). lia. Qed.
Lemma quot_in a b : in64 a -> b <> 0 -> ~ (a = - 2 ^ 63 /\ b = -1) -> in64 (Z.quot a b).
Proof.
  intros Ha Hb Hn. unfold in64 in *. destruct (Z.eq_dec b 1) as [->|H1]; [by rewrite Z.quot_1_r|].
  destruct (Z.eq_dec b (-1)) as [->|H2]; [change (-1) with (- (1)); rewrite Z.quot_opp_r, Z.quot_1_r by lia; lia|].
  pose proof (Z.quot_abs a b Hb) as Hq. rewrite Z.quot_div_nonneg in Hq by lia.
  assert (Z.abs a / Z.abs b <= 2 ^ 63 / 2); [|change (2 ^ 63 / 2) with (2 ^ 62) in *; lia].
  transitivity (2 ^ 63 / Z.abs b); [apply Z.div_le_mono; lia|]. apply Z.div_le_compat_l; lia.
Qed.
Lemma rem_in a b : in64 a -> in64 b -> b <> 0 -> in64 (Z.rem a b).
Proof. intros Ha Hb Hn. pose proof (Z.rem_bound_abs a b Hn). unfold in64 in *. lia. Qed.
Lemma apply_in op a b v : in64 a -> in64 b -> apply op a b = Some v -> in64 v.
Proof.
  intros Ha Hb. unfold apply. destruct (op =? 43); [intros [= <-]; apply s64_in|]. destruct (op =? 45); [intros [= <-]; apply s64_in|].
  destruct (op =? 42); [intros [= <-]; apply s64_in|]. destruct ((op =? 47) || (op =? 37)).
  2: { destruct (b <? 0); intros [= <-]; [by split|apply s64_in]. }
  destruct (Z.eqb_spec b 0) as [|Hb0]; [done|]. cbn [orb]. destruct ((a =? - 2 ^ 63) && (b =? -1)) eqn:E; [done|].
  destruct (op =? 47); intros [= <-]; [|by apply rem_in]. apply quot_in; [done..|]. intros [-> ->]. done.
Qed.
Lemma value_in e : forall v, value e = Some v -> in64 v.
Proof.
  induction e as [z|e IH|op l IHl r IHr]; cbn; intros v Hv; [injection Hv as <-; apply s64_in|by apply IH|].
  destruct (value l) as [a|]; [|done]. destruct (value r) as [b|]; [|done]. cbn in Hv. eapply apply_in; [by apply IHl|by apply IHr|done].
Qed.

(** ** The stacks *)

Section Machine.
Context {W : Type} {HO : ShOs W}.
Implicit Types (vals ops po pv : list Z) (w : W).

Lemma apply_op_spec op a b v vals w : is_op op = true -> in64 b -> apply op a b = Some v -> apply_op (b :: a :: vals) op w = Done (w, Some (v :: vals)).
Proof.
  intros Hop Hb. unfold apply_op, apply. destruct (op =? 43) eqn:E1; [by intros [= <-]|]. destruct (op =? 45) eqn:E2; [by intros [= <-]|].
  destruct (op =? 42) eqn:E3; [by intros [= <-]|]. destruct (op =? 47) eqn:E4; destruct (op =? 37) eqn:E5; cbn [orb];
    try (destruct (b =? 0); [done|]; cbn [orb]; destruct (_ && _); [done|by intros [= <-]]).
  unfold is_op in Hop. rewrite E1, E2, E3, E4, E5 in Hop. cbn [orb] in Hop. rewrite Hop. unfold in64 in Hb. destruct (Z.ltb_spec b 0).
  - intros [= <-]. unfold ipow. by rewrite (proj2 (Z.ltb_lt b 0)).
  - intros [= <-]. by rewrite ipow_spec by lia.
Qed.

(** The operators [po] on the numbers [pv] make [v]. *)
Fixpoint resolves po pv (v : Z) : Prop :=
  match po, pv with
  | [], _ => pv = [v]
  | op :: po, b :: a :: pv => is_op op = true /\ in64 b /\ exists c, apply op a b = Some c /\ resolves po (c :: pv) v
  | _, _ => False
  end.
Lemma resolves_snoc op a v b : forall po pv, resolves po pv b -> is_op op = true -> in64 b -> apply op a b = Some v -> resolves (po ++ [op]) (pv ++ [a]) v.
Proof.
  induction po as [|o po IH]; intros pv Hr Hop Hb Ha.
  - cbn in Hr. subst pv. cbn. eauto.
  - destruct pv as [|y [|x pv]]; try done. destruct Hr as (Ho & Hy & c & Hc & Hr). cbn. split; [done|]. split; [done|]. exists c. split; [done|].
    by apply (IH (c :: pv)).
Qed.

Lemma op_not_par op : is_op op = true -> (op =? 40) = false /\ (op =? 41) = false /\ is_digit op = false /\ is_blank op = false /\ 1 <= precedence op.
Proof.
  unfold is_op, is_digit, is_blank, precedence. intros H.
  assert (op = 43 \/ op = 45 \/ op = 42 \/ op = 47 \/ op = 37 \/ op = 94) as Hc by (repeat (apply orb_true_iff in H as [H|H]); apply Z.eqb_eq in H; auto 8).
  destruct Hc as [-> | [-> | [-> | [-> | [-> | ->]]]]]; cbn; split_and!; done || lia.
Qed.

Lemma reduce_pending q v vals ops w : forall po pv, resolves po pv v -> Forall (fun op => q <= precedence op) po ->
  reduce q (pv ++ vals) (po ++ ops) w = reduce q (v :: vals) ops w.
Proof.
  induction po as [|op po IH]; intros pv Hr Hq; [cbn in Hr; by subst pv|]. apply Forall_cons in Hq as [Hq1 Hq].
  destruct pv as [|b [|a pv]]; try done. destruct Hr as (Ho & Hb & c & Hc & Hr). cbn [app reduce].
  destruct (op_not_par op Ho) as (-> & _). rewrite (proj2 (Z.leb_le _ _)) by done. cbn [negb andb]. unfold mbind at 1, Prog_bind at 1.
  rewrite (apply_op_spec op a b c) by done. by apply (IH (c :: pv)).
Qed.
Lemma last_pending v vals ops w : forall po pv, resolves po pv v -> last_ops (pv ++ vals) (po ++ ops) w = last_ops (v :: vals) ops w.
Proof.
  induction po as [|op po IH]; intros pv Hr; [cbn in Hr; by subst pv|].
  destruct pv as [|b [|a pv]]; try done. destruct Hr as (Ho & Hb & c & Hc & Hr). cbn [app last_ops].
  destruct (op_not_par op Ho) as (-> & -> & _). cbn [orb]. unfold mbind at 1, Prog_bind at 1.
  rewrite (apply_op_spec op a b c) by done. by apply (IH (c :: pv)).
Qed.

(** The operators below an expression that bind less. *)
Definition stops (q : Z) ops : Prop := match ops with op :: _ => op = 40 \/ precedence op < q | [] => True end.
Lemma reduce_stops q vals ops w : stops q ops -> reduce q vals ops w = Done (w, Some (vals, ops)).
Proof.
  destruct ops as [|op ops]; [done|]. cbn. intros [->|H]; [done|]. rewrite (proj2 (Z.leb_gt _ _)) by done. by rewrite andb_false_r.
Qed.
Lemma stops_le q q' ops : stops q ops -> q <= q' -> stops q' ops.
Proof. destruct ops as [|op ops]; [done|]. cbn. intros [?|?]; [by left|right; lia]. Qed.

(** ** Reading *)

Definition no_digit (k : list Z) : Prop := match k with d :: _ => is_digit d = false | [] => True end.
Lemma skip_app ws b s : Forall (fun b => is_blank b = true) ws -> is_blank b = false -> skip_blanks (ws ++ b :: s) = b :: s.
Proof. induction 1 as [|x ws Hx Hws IH]; cbn; intros Hb; [by rewrite Hb|]. rewrite Hx. by apply IH. Qed.
Lemma blank_no_digit b : is_blank b = true -> is_digit b = false.
Proof. unfold is_blank, is_digit. intros H. repeat (apply orb_true_iff in H as [H|H]); apply Z.eqb_eq in H; by subst. Qed.
Lemma digit_not_blank b : is_digit b = true -> is_blank b = false.
Proof. intros H. destruct (is_blank b) eqn:E; [|done]. by rewrite (blank_no_digit b E) in H. Qed.
Lemma ws_no_digit ws b k : Forall (fun b => is_blank b = true) ws -> is_digit b = false -> no_digit (ws ++ b :: k).
Proof. intros Hw Hb. destruct Hw as [|x ws Hx Hw]; cbn; [done|]. by apply blank_no_digit. Qed.

Lemma number_spec ds k : forall x, Forall (fun b => is_digit b = true) ds -> no_digit k ->
  number (ds ++ k) (s64 x) = (s64 (foldl (fun n d => n * 10 + (d - 48)) x ds), k).
Proof.
  induction ds as [|d ds IH]; intros x Hd Hk; cbn [app number foldl].
  - destruct k as [|b k]; [done|]. cbn in *. by rewrite Hk.
  - apply Forall_cons in Hd as [Hd1 Hd]. rewrite Hd1. assert (E : s64 (s64 (s64 x * 10) + (d - 48)) = s64 (x * 10 + (d - 48))) by (rewrite s64_mul; apply s64_add).
    rewrite E. by apply IH.
Qed.

Lemma number_decimal ds k : Forall (fun b => is_digit b = true) ds -> no_digit k -> number (ds ++ k) 0 = (s64 (decimal ds), k).
Proof. apply (number_spec ds k 0). Qed.

(** Reading [s] in front of [k] puts [v] on the stacks, some of its operators still to
    be applied. *)
Definition reads (e : Exp) (v : Z) (s k : list Z) vals ops : Prop :=
  exists po pv, resolves po pv v /\ Forall (fun op => level e <= precedence op) po /\
    (len pv <= values_needed e) /\ (len po <= ops_needed e) /\
    forall w fuel, (length (s ++ k) < fuel)%nat -> exists fuel', (length k < fuel')%nat /\
      eval_loop (s ++ k) vals ops true fuel w = eval_loop k (pv ++ vals) (po ++ ops) false fuel' w.

(** One turn, behind blanks. *)
Lemma turn ws b s vals ops u fuel w r : Forall (fun b => is_blank b = true) ws -> is_blank b = false ->
  eval_step b s vals ops u w = Done (w, Some r) ->
  eval_loop (ws ++ b :: s) vals ops u (S fuel) w = (let '(s, vals, ops, u) := r in eval_loop s vals ops u fuel) w.
Proof.
  intros Hw Hb E. cbn [eval_loop]. rewrite skip_app by done. unfold mbind, Prog_bind. rewrite E. by destruct r as [[[? ?] ?] ?].
Qed.

Lemma reads_number z ws s k vals ops : Forall (fun b => is_blank b = true) ws -> len vals < STACK ->
  (exists b s', s = b :: s' /\ is_blank b = false /\ forall w, eval_step b (s' ++ k) vals ops true w = Done (w, Some (k, s64 z :: vals, ops, false))) ->
  reads (Lit z) (s64 z) (ws ++ s) k vals ops.
Proof.
  intros Hw Hv (b & s' & -> & Hb & Hs). exists [], [s64 z]. split; [done|]. split; [done|]. split; [done|]. split; [done|].
  intros w [|fuel] Hf; [lia|]. exists fuel. rewrite !length_app in Hf. cbn [length] in Hf. split; [lia|]. rewrite <- app_assoc.
  cbn [app]. by rewrite (turn ws b _ _ _ _ _ _ _ Hw Hb (Hs w)).
Qed.

Lemma reads_lit ws ds k vals ops : Forall (fun b => is_blank b = true) ws -> ds <> [] -> Forall (fun b => is_digit b = true) ds -> no_digit k ->
  len vals < STACK -> reads (Lit (decimal ds)) (s64 (decimal ds)) (ws ++ ds) k vals ops.
Proof.
  intros Hw Hne Hd Hk Hv. apply reads_number; [done..|]. destruct ds as [|d ds]; [done|]. exists d, ds. split; [done|].
  pose proof Hd as [Hd1 _]%Forall_cons. split; [by apply digit_not_blank|]. intros w. unfold eval_step. rewrite Hd1. cbn [orb].
  assert (E45 : (d =? 45) = false) by (unfold is_digit in Hd1; zbool; apply Z.eqb_neq; lia). rewrite E45.
  change (d :: ds ++ k) with ((d :: ds) ++ k). rewrite number_decimal by done.
  by rewrite (proj2 (Z.ltb_lt _ _)).
Qed.
Lemma reads_neg ws ds k vals ops : Forall (fun b => is_blank b = true) ws -> ds <> [] -> Forall (fun b => is_digit b = true) ds -> no_digit k ->
  len vals < STACK -> reads (Lit (- decimal ds)) (s64 (- decimal ds)) (ws ++ 45 :: ds) k vals ops.
Proof.
  intros Hw Hne Hd Hk Hv. apply reads_number; [done..|]. exists 45, ds. split; [done|]. split; [done|]. intros w. unfold eval_step.
  assert (En : match ds ++ k with d :: _ => is_digit d | [] => false end = true) by (destruct Hd; done). rewrite En. change (45 =? 45) with true.
  cbn [andb orb]. rewrite orb_true_r. rewrite number_decimal by done. cbv zeta beta iota. rewrite s64_opp.
  by rewrite (proj2 (Z.ltb_lt _ _)).
Qed.

Lemma reads_par e v ws s ws' k vals ops : Forall (fun b => is_blank b = true) ws -> Forall (fun b => is_blank b = true) ws' ->
  len ops < STACK -> reads e v s (ws' ++ 41 :: k) vals (40 :: ops) -> 0 <= ops_needed e -> 1 <= values_needed e ->
  reads (Par e) v (ws ++ 40 :: s ++ ws' ++ [41]) k vals ops.
Proof.
  intros Hw Hw' Ho (po & pv & Hr & Hp & Hlv & Hlo & Hl) H0 H1. exists [], [v]. split; [done|]. split; [done|]. split; [cbn; lia|]. split; [cbn; lia|].
  intros w [|fuel] Hf; [lia|]. assert (Es : (ws ++ 40 :: s ++ ws' ++ [41]) ++ k = ws ++ 40 :: (s ++ ws' ++ 41 :: k)) by (by rewrite <- !app_assoc; cbn; rewrite <- !app_assoc).
  rewrite Es in *. rewrite (turn ws 40 _ vals ops true fuel w (s ++ ws' ++ 41 :: k, vals, 40 :: ops, true) Hw); [|done|unfold eval_step; cbn; by rewrite (proj2 (Z.ltb_lt _ _))].
  destruct (Hl w fuel) as (fuel' & Hf' & ->); [rewrite length_app in Hf; cbn in Hf; lia|]. destruct fuel' as [|fuel']; [lia|].
  rewrite (turn ws' 41 k _ _ _ fuel' w (k, v :: vals, ops, false) Hw'); [exists fuel'; split; [rewrite length_app in Hf'; cbn in Hf'; lia|done]|done|].
  unfold eval_step. cbn [is_digit Z.leb Z.compare Z.eqb Pos.eqb Pos.compare Pos.compare_cont andb orb]. unfold mbind, Prog_bind.
  rewrite (reduce_pending 0 v vals (40 :: ops) w po pv Hr), reduce_stops; [done|by left|].
  eapply Forall_impl; [exact Hp|]. intros op Hop. cbn in Hop. destruct e as [| |op' l r]; cbn in Hop; try lia.
  unfold precedence in *. repeat case_match; lia.
Qed.

Lemma reads_op op l r a b v sl ws sr k vals ops : Forall (fun b => is_blank b = true) ws -> is_op op = true -> in64 b -> apply op a b = Some v ->
  precedence op <= level l -> precedence op < level r -> stops (precedence op) ops -> len ops < STACK ->
  reads l a sl (ws ++ op :: sr ++ k) vals ops -> reads r b sr k (a :: vals) (op :: ops) ->
  reads (Op op l r) v (sl ++ ws ++ op :: sr) k vals ops.
Proof.
  intros Hw Hop Hb Hv Hll Hlr Hst Hlen (po & pv & Hr & Hp & Hlv & Hlo & Hl) (po' & pv' & Hr' & Hp' & Hlv' & Hlo' & Hl').
  exists (po' ++ [op]), (pv' ++ [a]). split; [by eapply resolves_snoc|]. split.
  { apply Forall_app. split; [|by apply Forall_singleton]. eapply Forall_impl; [exact Hp'|]. cbn. intros. lia. }
  split; [rewrite length_app; cbn [values_needed length]; lia|]. split; [rewrite length_app; cbn [ops_needed length]; lia|]. intros w fuel Hf.
  assert (Es : (sl ++ ws ++ op :: sr) ++ k = sl ++ ws ++ op :: sr ++ k) by (by rewrite <- !app_assoc). rewrite Es in *.
  destruct (Hl w fuel Hf) as (fuel1 & Hf1 & ->). destruct fuel1 as [|fuel1]; [lia|]. destruct (op_not_par op Hop) as (E40 & E41 & Ed & Ebl & _).
  rewrite (turn ws op (sr ++ k) _ _ _ fuel1 w (sr ++ k, a :: vals, op :: ops, true) Hw Ebl).
  - destruct (Hl' w fuel1) as (fuel2 & Hf2 & ->); [rewrite length_app in Hf1; cbn in Hf1; lia|]. exists fuel2. split; [done|]. by rewrite <- !app_assoc.
  - unfold eval_step. rewrite Ed, E40, E41, Hop, andb_false_r. cbn [andb orb]. unfold mbind, Prog_bind.
    rewrite (reduce_pending _ a vals ops w po pv Hr), reduce_stops; [by rewrite (proj2 (Z.ltb_lt _ _))|done|].
    eapply Forall_impl; [exact Hp|]. cbn. intros. lia.
Qed.

Lemma needed e : 1 <= values_needed e /\ 0 <= ops_needed e.
Proof. induction e; cbn; lia. Qed.

(** The expression is read as the grammar reads it. *)
Lemma reads_exp e s : written e s -> forall v k vals ops, wf e -> value e = Some v -> no_digit k -> stops (level e) ops ->
  len vals + values_needed e <= STACK -> len ops + ops_needed e <= STACK -> reads e v s k vals ops.
Proof.
  unfold STACK. induction 1 as [ws ds Hw Hne Hd|ws ds Hw Hne Hd|e ws s ws' Hw Hw' Hs IH|op l r sl ws sr Hw Hsl IHl Hsr IHr]; intros v k vals ops Hwf Hv Hk Hst Hlv Hlo.
  - injection Hv as <-. cbn in Hlv. apply reads_lit; unfold STACK; done || lia.
  - injection Hv as <-. cbn in Hlv. apply reads_neg; unfold STACK; done || lia.
  - cbn in Hwf, Hv, Hlv, Hlo. destruct (needed e) as [N1 N0]. apply reads_par; [done|done|unfold STACK; lia| |done|done].
    apply IH; [done|done|by apply ws_no_digit|by left|done|cbn [length]; lia].
  - cbn in Hwf, Hv, Hlv, Hlo, Hst. destruct Hwf as (Hop & Wl & Wr & Ll & Lr). destruct (value l) as [a|] eqn:Ea; [|done]. destruct (value r) as [b|] eqn:Eb; [|done]. cbn in Hv.
    destruct (op_not_par op Hop) as (_ & _ & Ed & _). destruct (needed l), (needed r).
    apply (reads_op op l r a b); [done|done|by eapply value_in|done|done|done|done|unfold STACK; lia| |].
    + apply IHl; [done|done|by apply ws_no_digit|by eapply stops_le|lia|lia].
    + apply IHr; [done|done|done|by right|cbn [length]; lia|cbn [length]; lia].
Qed.
End Machine.

(** ** What is printed *)

Section Shown.
Context {W : Type} {HO : ShOs W} (left said : Z -> W -> list Z) {HS : Stdio left said}.
Implicit Types w : W.

Lemma join_digits l : mjoin ((fun d : Z => [d]) <$> l) = l.
Proof. induction l as [|d l IH]; [done|]. cbn. by f_equal. Qed.

(** A value of 32 bits is shown as it is. *)
Lemma print_num_spec v w : - 2 ^ 32 < v < 2 ^ 32 ->
  wp (print_num v) (fun w' _ => said 1 w' = said 1 w ++ (if v <? 0 then [45] else []) ++ itoa (Z.abs v) ++ [10]) w.
Proof.
  intros Hv. unfold print_num, print_dec, println. apply wp_bind. destruct (Z.ltb_spec v 0).
  - assert (E : u32 (s64 (- v)) = Z.abs v) by (unfold s64; rewrite (Z.mod_small (- v + 2 ^ 63)) by lia; rewrite Z.add_simpl_r; rewrite u32_small by lia; lia).
    apply wp_bind, (wp_prints left said). intros w1 [E1 _]. rewrite E. apply (wp_prints left said). intros w2 [E2 _]. apply (wp_prints left said). intros w3 [E3 _].
    rewrite E3, E2, E1, join_digits. cbn. by rewrite <- !app_assoc.
  - rewrite u32_small by lia. apply (wp_prints left said). intros w2 [E2 _]. apply (wp_prints left said). intros w3 [E3 _].
    rewrite E3, E2, join_digits, Z.abs_eq by lia. cbn. by rewrite <- !app_assoc.
Qed.

(** [bc] prints the value that the grammar gives an expression, however it is spaced: the
    operators that bind stronger first, those of one precedence from the left, in 64 bits
    with wrap-around, quotients towards zero; as long as it fits the stacks of 32 entries,
    divides nothing by zero and its value fits 32 bits. *)
Theorem bc_correct e s ws v w : written e s -> wf e -> Forall (fun b => is_blank b = true) ws ->
  values_needed e <= STACK -> ops_needed e <= STACK -> value e = Some v -> - 2 ^ 32 < v < 2 ^ 32 ->
  exists w' ds, eval_expr (s ++ ws) w = Done (w', tt) /\ said 1 w' = said 1 w ++ (if v <? 0 then [45] else []) ++ ds ++ [10] /\
    shows ds (Z.abs v).
Proof.
  intros Hs Hwf Hw Hv Ho Ev Hr. pose proof (itoa_decimal (Z.abs v) ltac:(lia)) as Hd.
  destruct (reads_exp e s Hs v ws [] [] Hwf Ev) as (po & pv & Hres & _ & _ & _ & Hl); [|done|cbn [length]; lia..|].
  { destruct Hw as [|x ws' Hx Hw']; [done|]. by apply blank_no_digit. }
  destruct (print_num_spec v w Hr) as (w' & [] & E & Hsaid). exists w', (itoa (Z.abs v)). split; [|by split].
  destruct (Hl w (S (length (s ++ ws)))) as (fuel & Hf & El); [lia|]. unfold eval_expr, mbind, Prog_bind. rewrite El. destruct fuel as [|fuel]; [lia|].
  cbn [eval_loop]. assert (Esk : skip_blanks ws = []) by (clear -Hw; induction Hw as [|x l Hx Hl IH]; [done|]; cbn; by rewrite Hx). rewrite Esk.
  unfold mret, Prog_ret. rewrite (last_pending v [] [] w po pv Hres). exact E.
Qed.
End Shown.

(** ** What it does beyond that *)

Definition bc_says (s : string) : Res (list Z) :=
  match eval_expr (as_bytes s) (desk []) with Done (w, _) => Done (desk_said 1 w) | Panic => Panic | Spent => Spent end.
(** The values are 64 bits wide, but only the low 32 are shown. *)
Example bc_truncates : bc_says "65536*65536" = Done (as_bytes "0
").
Proof. vm_compute. reflexivity. Qed.
(** The one quotient that does not fit is a panic. *)
Example bc_panics : bc_says "-9223372036854775808/-1" = Panic.
Proof. vm_compute. reflexivity. Qed.
(** A minus sign before a parenthesis is an operator without its first operand: nothing is
    printed. *)
Example bc_unary_minus : bc_says "-(3)" = Done [].
Proof. vm_compute. reflexivity. Qed.

Lemma bc_correct_witness : exists w' ds, eval_expr (as_bytes "2 - 3*(4-1)^2 ") (desk []) = Done (w', tt) /\ desk_said 1 w' = [45] ++ ds ++ [10] /\ decimal ds = 25.
Proof.
  destruct (bc_correct desk_left desk_said (Op 45 (Lit 2) (Op 42 (Lit 3) (Op 94 (Par (Op 45 (Lit 4) (Lit 1))) (Lit 2)))) (as_bytes "2 - 3*(4-1)^2") (as_bytes " ") (-25) (desk []))
    as (w' & ds & E & S & Dd & _).
  - apply (w_op 45 (Lit 2) _ [50] [32] (as_bytes " 3*(4-1)^2")); [by repeat constructor|apply (w_lit [] [50]); by repeat constructor|].
    apply (w_op 42 (Lit 3) _ (as_bytes " 3") [] (as_bytes "(4-1)^2")); [done|apply (w_lit [32] [51]); by repeat constructor|].
    apply (w_op 94 (Par (Op 45 (Lit 4) (Lit 1))) (Lit 2) (as_bytes "(4-1)") [] [50]); [done| |apply (w_lit [] [50]); by repeat constructor].
    apply (w_par (Op 45 (Lit 4) (Lit 1)) [] (as_bytes "4-1") []); [done..|].
    apply (w_op 45 (Lit 4) (Lit 1) [52] [] [49]); [done|apply (w_lit [] [52]); by repeat constructor|apply (w_lit [] [49]); by repeat constructor].
  - cbn. split_and!; done || lia.
  - by repeat constructor.
  - unfold STACK. cbn. lia.
  - unfold STACK. cbn. lia.
  - reflexivity.
  - lia.
  - exists w', ds. split; [exact E|]. split; [exact S|exact Dd].
Defined.
