(* ===== verification/ToolFactor.v ===== *)
(** * ToolFactor: the program [factor] (userland/apps/src/bin/factor.rs)

    Trial division by 2, 3 and the numbers next to the multiples of 6.  What it prints of a
    number is its prime factors, the smaller first, as long as the square of the candidate
    does not run over 64 bits. *)

From S2P Require Import Prelude Text Sh ShOps ShWp ToolIo.
From Stdlib Require Import Znumtheory.

Open Scope Z_scope.

Definition u64 (z : Z) : Z := z mod 2 ^ 64.

Section Factor.
Context {W : Type} {HO : ShOs W}.

(** [while n % d == 0 { print!(...); n /= d; }], for what is printed: a division takes a
    bit at least. *)
(* @src userland/apps/src/bin/factor.rs 14-17 factorize (division) *)
Fixpoint divide_out (shown : list (list Z)) (d n : Z) (fuel : nat) : Prog W Z :=
  match fuel with
  | O => spent
  | S fuel => if n mod d =? 0 then _ ← print shown; divide_out shown d (n / d) fuel else mret n
  end.

(** [d * d] wraps; [bits] is the fuel of a division. *)
(* @src userland/apps/src/bin/factor.rs 27-38 factorize (candidates) *)
Fixpoint candidates (bits : nat) (d n : Z) (fuel : nat) : Prog W Z :=
  match fuel with
  | O => spent
  | S fuel =>
    if u64 (d * d) <=? n then
      n ← divide_out [[32]; dec d] d n bits;
      n ← divide_out [[32]; dec (d + 2)] (d + 2) n bits;
      candidates bits (d + 6) n fuel
    else mret n
  end.

(* @src userland/apps/src/bin/factor.rs 6-44 factorize *)
Definition factorize (n : Z) (fuel : nat) : Prog W unit :=
  _ ← print [dec n; [58]];
  if n <=? 1 then print [[10]]
  else
    n ← divide_out [as_bytes " 2"] 2 n 65;
    n ← divide_out [as_bytes " 3"] 3 n 65;
    n ← candidates 65 5 n fuel;
    _ ← (if 1 <? n then print [[32]; dec n] else mret tt);
    print [[10]].

(** [str::parse::<u64>]. *)
Fixpoint digits64 (l : list Z) (n : Z) : option Z :=
  match l with
  | [] => Some n
  | b :: l => if is_digit b then let n := n * 10 + (b - 48) in if n <? 2 ^ 64 then digits64 l n else None else None
  end.
Definition parse_u64 (l : list Z) : option Z :=
  match (match l with 43 :: l => l | _ => l end) with [] => None | l => digits64 l 0 end.

(** A request for the usage ends it. *)
(* @src userland/apps/src/bin/factor.rs 49-62 main (arguments) *)
Fixpoint factor_args (args : list (list Z)) (fuel : nat) : Prog W unit :=
  match args with
  | [] => mret tt
  | s :: args =>
    if bool_decide (s = as_bytes "-h") || bool_decide (s = as_bytes "--help") then
      _ ← say "usage: factor [number...]";
      say "       Print prime factors of each number"
    else
      _ ← match parse_u64 s with Some num => factorize num fuel | None => println [as_bytes "factor: '"; s; as_bytes "' is not a valid number"] end;
      factor_args args fuel
  end.
(* @src userland/apps/src/bin/factor.rs 70-74 main (words) *)
Fixpoint factor_words (words : list (list Z)) (fuel : nat) : Prog W unit :=
  match words with
  | [] => mret tt
  | word :: words =>
    _ ← match parse_u64 word with Some num => factorize num fuel | None => mret tt end;
    factor_words words fuel
  end.
(* @src userland/apps/src/bin/factor.rs 47-79 main *)
Definition factor_main (args : list (list Z)) (fuel : nat) : Prog W Z :=
  match args with
  | _ :: _ => _ ← factor_args args fuel; mret 0
  | [] =>
    '(n, data) ← call (os_read 0 128);
    if 0 <? n then
      s ← pure (bslice (fill 128 data) 0 n);
      _ ← (if utf8_valid s then factor_words (split_whitespace s) fuel else mret tt);
      mret 0
    else mret 0
  end.
End Factor.

(** ** Division *)

(** No number from 2 up to [d] divides [m]. *)
Definition rough (d m : Z) : Prop := forall q, 2 <= q < d -> ~ (q | m).

Lemma rough_divides d m m' : rough d m -> (m' | m) -> rough d m'.
Proof. intros Hr Hd q Hq Hx. apply (Hr q Hq). by apply (Z.divide_trans _ m'). Qed.
Lemma rough_next d m : rough d m -> ~ (d | m) -> rough (d + 1) m.
Proof. intros Hr Hd q Hq. destruct (Z.eq_dec q d) as [->|]; [done|]. apply Hr. lia. Qed.
(** A number with a smaller divisor need not be tried. *)
Lemma rough_skip d m q : rough d m -> 2 <= q < d -> (q | d) -> rough (d + 1) m.
Proof. intros Hr Hq Hd. apply rough_next; [done|]. intros Hx. apply (Hr q Hq). by apply (Z.divide_trans _ d). Qed.
(** The first divisor is prime, and so is what is left below its square. *)
Lemma rough_prime d m : 2 <= d -> rough d m -> (d | m) -> prime d.
Proof.
  intros Hd Hr Hm. apply prime_alt. split; [lia|]. intros q Hq Hx. apply (Hr q); [lia|]. by apply (Z.divide_trans _ d).
Qed.
Lemma rough_rest d m : 2 <= d -> rough d m -> 1 < m < d * d -> prime m.
Proof.
  intros Hd Hr Hm. apply prime_alt. split; [lia|]. intros q Hq [x Hx].
  destruct (Z_lt_ge_dec q d) as [Hl|Hl]; [apply (Hr q); [lia|by exists x]|]. assert (1 < x) by nia. assert (x < d) by (apply Z.nle_gt; intros Hge; pose proof (Z.mul_le_mono_nonneg d x d q ltac:(lia) Hge ltac:(lia) ltac:(lia)); lia).
  apply (Hr x); [lia|]. exists q. lia.
Qed.

Section Run.
Context {W : Type} {HO : ShOs W} (left said : Z -> W -> list Z) {HS : Stdio left said}.
Implicit Types w : W.

(** What is printed for factors. *)
Definition listing (ps : list Z) : list Z := mjoin ((fun p => 32 :: dec p) <$> ps).
Lemma listing_app a b : listing (a ++ b) = listing a ++ listing b.
Proof. unfold listing. by rewrite fmap_app, join_app. Qed.

Definition product (ps : list Z) : Z := foldr Z.mul 1 ps.
Lemma product_app a b : product (a ++ b) = product a * product b.
Proof. unfold product. induction a as [|x a IH]; cbn [app foldr]; [lia|]. rewrite IH. lia. Qed.

(** From [n] to [m] by printing the primes [ps], all from [lo] on and below [hi]. *)
Record divided (lo hi n m : Z) (ps : list Z) : Prop := mkDivided {
  dv_product : n = product ps * m;
  dv_pos : 1 <= m;
  dv_prime : Forall prime ps;
  dv_sorted : StronglySorted Z.le ps;
  dv_range : Forall (fun p => lo <= p < hi) ps;
}.
Lemma divided_refl lo hi n : 1 <= n -> divided lo hi n n [].
Proof. intros Hn. split; [cbn; lia|done|done|constructor|done]. Qed.
Lemma sorted_app (a b : list Z) x : StronglySorted Z.le a -> StronglySorted Z.le b -> Forall (fun p => p < x) a -> Forall (fun p => x <= p) b -> StronglySorted Z.le (a ++ b).
Proof.
  intros Ha Hb Hax Hbx. induction Ha as [|y a Ha IH Hy]; [done|]. apply Forall_cons in Hax as [Hyx Hax]. cbn. constructor; [by apply IH|].
  apply Forall_app. split; [done|]. eapply Forall_impl; [exact Hbx|]. cbn. lia.
Qed.
Lemma divided_trans lo x hi n m k ps qs : lo <= x <= hi -> divided lo x n m ps -> divided x hi m k qs -> divided lo hi n k (ps ++ qs).
Proof.
  intros Hx [A1 A2 A3 A4 A5] [B1 B2 B3 B4 B5]. split; [rewrite product_app, A1, B1; lia|done|by apply Forall_app| |].
  - apply (sorted_app ps qs x); [done|done| |]; (eapply Forall_impl; [eassumption|cbn; lia]).
  - apply Forall_app. split; (eapply Forall_impl; [eassumption|cbn; lia]).
Qed.
Lemma divided_div lo hi n m ps : divided lo hi n m ps -> (m | n).
Proof. intros [H _ _ _ _]. exists (product ps). lia. Qed.

Lemma divide_out_spec shown d fuel : mjoin shown = 32 :: dec d -> 2 <= d -> forall n w, 1 <= n < 2 ^ Z.of_nat fuel -> rough d n ->
  wp (divide_out shown d n fuel) (fun w' m => exists ps, told left said w w' (listing ps) /\ divided d (d + 1) n m ps /\ rough (d + 1) m) w.
Proof.
  intros Hsh Hd. induction fuel as [|fuel IH]; intros n w Hn Hr; cbn [divide_out]; [cbn in Hn; lia|].
  destruct (Z.eqb_spec (n mod d) 0) as [Hz|Hz].
  - apply Z.mod_divide in Hz; [|lia]. destruct Hz as [q Hq]. assert (Eq : n / d = q) by (subst n; apply Z.div_mul; lia).
    apply wp_bind, (wp_prints left said). intros w1 T1. rewrite Eq. rewrite Nat2Z.inj_succ, Z.pow_succ_r in Hn by lia.
    assert (Hq1 : 1 <= q < 2 ^ Z.of_nat fuel) by nia. assert (Hdv : (q | n)) by (exists d; lia).
    eapply wp_mono; [apply (IH q w1 Hq1 (rough_divides d n q Hr Hdv))|]. intros w2 m (ps & T2 & D & R).
    exists (d :: ps). split; [|split; [|done]].
    + pose proof (told_trans left said _ _ _ _ _ T1 T2) as T. rewrite Hsh in T. exact T.
    + assert (Hp : prime d) by (apply (rough_prime d n Hd Hr); exists q; lia).
      destruct D as [D1 D2 D3 D4 D5]. split; [unfold product in *; cbn [foldr]; lia|done|by constructor| |].
      * constructor; [done|]. eapply Forall_impl; [exact D5|]. cbn. lia.
      * constructor; [lia|done].
  - apply wp_ret. exists []. split; [apply told_refl|]. split; [apply divided_refl; lia|]. apply rough_next; [done|]. intros Hx. apply Hz. apply Z.mod_divide; [lia|done].
Qed.

(** A division of a [u64]. *)
Lemma divide_wp shown d n w (Q : W -> Z -> Prop) : mjoin shown = 32 :: dec d -> 2 <= d -> 1 <= n < 2 ^ 64 -> rough d n ->
  (forall w' m ps, told left said w w' (listing ps) -> divided d (d + 1) n m ps -> rough (d + 1) m -> 1 <= m <= n -> Q w' m) ->
  wp (divide_out shown d n 65) Q w.
Proof.
  intros Hsh Hd Hn Hr H. eapply wp_mono; [apply (divide_out_spec shown d 65 Hsh Hd n w); [change (Z.of_nat 65) with 65; lia|done]|].
  intros w' m (ps & T & D & R). apply (H w' m ps T D R). pose proof (dv_pos _ _ _ _ _ D). pose proof (divided_div _ _ _ _ _ D) as Hx.
  apply Z.divide_pos_le in Hx; lia.
Qed.
Lemma shown_dec d : mjoin [[32]; dec d] = 32 :: dec d.
Proof. cbn. by rewrite app_nil_r. Qed.

Lemma six d : d mod 6 = 5 -> (2 | d + 1) /\ (2 | d + 3) /\ (3 | d + 4) /\ (2 | d + 5).
Proof.
  intros Hd. pose proof (Z.div_mod d 6 ltac:(lia)) as E. rewrite Hd in E.
  split; [exists (3 * (d / 6) + 3); lia|]. split; [exists (3 * (d / 6) + 4); lia|]. split; [exists (2 * (d / 6) + 3); lia|exists (3 * (d / 6) + 5); lia].
Qed.

(** Where the squares start to wrap around. *)
Definition LIMIT : Z := 2 ^ 32 - 5.

Lemma candidates_spec fuel : forall d n w, d mod 6 = 5 -> 5 <= d <= LIMIT -> 1 <= n < LIMIT * LIMIT -> rough d n -> (1 <= fuel)%nat ->
  n < (d + 6 * (Z.of_nat fuel - 1)) * (d + 6 * (Z.of_nat fuel - 1)) ->
  wp (candidates 65 d n fuel) (fun w' m => exists ps hi, told left said w w' (listing ps) /\ divided d hi n m ps /\ d <= hi /\ rough hi m /\ m < hi * hi) w.
Proof.
  unfold LIMIT. induction fuel as [|fuel IH]; intros d n w H6 Hd Hn Hr Hf Hb; [lia|]. cbn [candidates].
  assert (Eu : u64 (d * d) = d * d) by (unfold u64; apply Z.mod_small; nia). rewrite Eu. destruct (Z.leb_spec (d * d) n) as [Hle|Hgt].
  2: { apply wp_ret. exists [], d. split; [apply told_refl|]. split; [apply divided_refl; lia|]. split; [lia|]. by split. }
  destruct (six d H6) as (S1 & S3 & S4 & S5).
  apply wp_bind, (divide_wp _ d n w); [apply shown_dec|lia|lia|done|]. intros w1 n1 ps1 T1 D1 R1 Hn1.
  apply wp_bind, (divide_wp _ (d + 2) n1 w1); [apply shown_dec|lia|lia| |].
  { replace (d + 2) with (d + 1 + 1) by lia. by apply (rough_skip _ _ 2); [|lia|]. }
  intros w2 n2 ps2 T2 D2 R2 Hn2.
  assert (R6 : rough (d + 6) n2).
  { replace (d + 6) with (d + 5 + 1) by lia. apply (rough_skip _ _ 2); [|lia|done]. replace (d + 5) with (d + 4 + 1) by lia. apply (rough_skip _ _ 3); [|lia|done].
    replace (d + 4) with (d + 3 + 1) by lia. apply (rough_skip _ _ 2); [|lia|done]. by replace (d + 3) with (d + 2 + 1) by lia. }
  assert (Hd6 : d + 6 <= 2 ^ 32 - 5).
  { pose proof (Z.div_mod d 6 ltac:(lia)) as E. rewrite H6 in E. assert (d < 2 ^ 32 - 5) by nia. lia. }
  assert (Hfuel : (1 <= fuel)%nat) by (destruct fuel; [exfalso; cbn in Hb; replace (d + 0) with d in Hb by lia; lia|lia]).
  eapply wp_mono; [apply (IH (d + 6) n2 w2)|].
  - rewrite Z.add_mod, H6 by lia. done.
  - lia.
  - lia.
  - done.
  - done.
  - replace (d + 6 + 6 * (Z.of_nat fuel - 1)) with (d + 6 * (Z.of_nat (S fuel) - 1)) by lia. lia.
  - intros w3 m (ps3 & hi & T3 & D3 & Hhi & R3 & Hm). exists (ps1 ++ ps2 ++ ps3), hi. rewrite !listing_app.
    split; [by eapply told_trans; [|by eapply told_trans]|]. split; [|split; [lia|done]].
    apply (divided_trans d (d + 1) hi n n1 m); [lia|done|]. apply (divided_trans (d + 1) (d + 6) hi n1 n2 m); [lia| |done].
    destruct D2 as [P1 P2 P3 P4 P5]. split; try done. eapply Forall_impl; [exact P5|]. cbn. lia.
Qed.

(** Of a number below the square of [LIMIT], [factor] prints the prime factors, from the
    smallest to the largest and each as often as it divides; [fuel] for a sixth of the
    square root is enough. *)
Theorem factor_correct n fuel w : 0 <= n < LIMIT * LIMIT -> (1 <= fuel)%nat -> n < (6 * Z.of_nat fuel - 1) * (6 * Z.of_nat fuel - 1) ->
  exists w' ps, factorize n fuel w = Done (w', tt) /\ said 1 w' = said 1 w ++ dec n ++ [58] ++ listing ps ++ [10] /\
    Forall prime ps /\ StronglySorted Z.le ps /\ (0 < n -> product ps = n).
Proof.
  intros Hn Hf Hb.
  enough (H : wp (factorize n fuel) (fun w' _ => exists ps, said 1 w' = said 1 w ++ dec n ++ [58] ++ listing ps ++ [10] /\
    Forall prime ps /\ StronglySorted Z.le ps /\ (0 < n -> product ps = n)) w).
  { destruct H as (w' & [] & E & ps & H). by exists w', ps. }
  unfold factorize. apply wp_bind, (wp_prints left said). intros w1 [E1 _]. cbn [mjoin list_join app] in E1.
  destruct (Z.leb_spec n 1).
  { apply (wp_prints left said). intros w2 [E2 _]. exists []. split; [rewrite E2, E1; cbn; by rewrite <- !app_assoc|]. split; [done|]. split; [constructor|].
    unfold product. cbn [foldr]. lia. }
  unfold LIMIT in Hn.
  apply wp_bind, (divide_wp _ 2 n w1); [reflexivity|lia|lia|intros q Hq; lia|]. intros w2 n2 ps2 T2 D2 R2 H2.
  apply wp_bind, (divide_wp _ 3 n2 w2); [reflexivity|lia|lia|done|]. intros w3 n3 ps3 T3 D3 R3 H3.
  assert (R5 : rough 5 n3) by (apply (rough_skip 4 n3 2); [exact R3|lia|by exists 2]).
  apply wp_bind. eapply wp_mono; [apply (candidates_spec fuel 5 n3 w3); [done|unfold LIMIT; lia|unfold LIMIT; lia|done|done|]|].
  { replace (5 + 6 * (Z.of_nat fuel - 1)) with (6 * Z.of_nat fuel - 1) by lia. lia. }
  intros w4 m (ps4 & hi & T4 & D4 & Hhi & R4 & Hm).
  pose proof (told_trans left said _ _ _ _ _ T2 (told_trans left said _ _ _ _ _ T3 T4)) as [ET _]. rewrite <- !listing_app in ET.
  assert (D : divided 2 hi n m (ps2 ++ ps3 ++ ps4)).
  { apply (divided_trans 2 3 hi n n2 m); [lia|done|]. apply (divided_trans 3 5 hi n2 n3 m); [lia| |done].
    destruct D3 as [P1 P2 P3 P4 P5]. split; try done. eapply Forall_impl; [exact P5|]. cbn. lia. }
  destruct D as [P1 P2 P3 P4 P5]. apply wp_bind. destruct (Z.ltb_spec 1 m).
  - apply (wp_prints left said). intros w5 [E5 _]. apply (wp_prints left said). intros w6 [E6 _]. exists ((ps2 ++ ps3 ++ ps4) ++ [m]).
    assert (Hp : prime m) by (apply (rough_rest hi); [lia|done|lia]). assert (Hmh : hi <= m) by (apply Z.nlt_ge; intros Hlt; apply (R4 m); [lia|by exists 1; lia]).
    split; [|split; [by apply Forall_app; split; [|constructor]|split]].
    + rewrite E6, E5, ET, E1, (listing_app (_ ++ _)). unfold listing at 3. cbn. by rewrite ?app_nil_r, <- !app_assoc.
    + apply (sorted_app _ _ hi); [done|by repeat constructor| |by repeat constructor]. eapply Forall_impl; [exact P5|]. cbn. lia.
    + intros _. rewrite product_app, P1. unfold product at 2. cbn [foldr]. lia.
  - apply wp_ret, (wp_prints left said). intros w6 [E6 _]. exists (ps2 ++ ps3 ++ ps4). split; [rewrite E6, ET, E1; cbn; by rewrite <- !app_assoc|].
    split; [done|]. split; [done|]. intros _. assert (m = 1) as -> by lia. lia.
Qed.
End Run.

(** From the square of [LIMIT] on the square of the next candidate has wrapped around, and
    the loop goes on behind the square root. *)
Lemma square_wraps n : LIMIT * LIMIT <= n < 2 ^ 64 -> (u64 ((LIMIT + 6) * (LIMIT + 6)) <=? n) = true /\ n < (LIMIT + 6) * (LIMIT + 6).
Proof. unfold LIMIT. intros Hn. split; [|lia]. apply Z.leb_le. change (u64 _) with (2 ^ 33 + 1). lia. Qed.

Lemma factor_correct_witness : exists w' ps, factorize 1001 7 (desk []) = Done (w', tt) /\ desk_said 1 w' = as_bytes "1001: 7 11 13
" /\ Forall prime ps /\ product ps = 1001.
Proof.
  destruct (factor_correct desk_left desk_said 1001 7 (desk [])) as (w' & ps & E & _ & P & _ & Hx); [unfold LIMIT; lia|lia|lia|].
  exists w', ps. split; [exact E|]. split; [|split; [exact P|apply Hx; lia]].
  assert (Ev : (fun r => match r with Done (w, _) => desk_said 1 w | _ => [] end) (factorize 1001 7 (desk [])) = as_bytes "1001: 7 11 13
") by (vm_compute; reflexivity).
  rewrite E in Ev. exact Ev.
Defined.
