(* ===== verification/ToolCal.v ===== *)
(** * ToolCal: the program [cal] (userland/apps/src/bin/cal.rs)

    The calendar of a month.  Every day stands in the column of its weekday, where the
    weekdays are those of the Gregorian calendar: one after the other from a Monday, the
    first of January of the year 1. *)

From S2P Require Import Prelude Text Sh ShOps ShWp ToolIo.

Open Scope Z_scope.

(* @src userland/apps/src/bin/cal.rs 6-9 MONTH_NAMES *)
Definition MONTH_NAMES : list string :=
  ["January"; "February"; "March"; "April"; "May"; "June"; "July"; "August"; "September"; "October"; "November"; "December"]%string.
(* @src userland/apps/src/bin/cal.rs 11-14 DAYS_IN_MONTH *)
Definition DAYS_IN_MONTH : list Z := [31; 28; 31; 30; 31; 30; 31; 31; 30; 31; 30; 31].

(* @src userland/apps/src/bin/cal.rs 16-18 is_leap_year *)
Definition is_leap_year (year : Z) : bool :=
  ((year mod 4 =? 0) && negb (year mod 100 =? 0)) || (year mod 400 =? 0).

(** [None] is an index out of range; the sums wrap. *)
(* @src userland/apps/src/bin/cal.rs 21-25 day_of_week *)
Definition day_of_week (year month day : Z) : option Z :=
  let t := [0; 3; 2; 5; 0; 3; 5; 1; 4; 6; 2; 4] in
  let y := if month <? 3 then u32 (year - 1) else year in
  x ← bget t (u32 (month - 1));
  Some (u32 (u32 (u32 (u32 (u32 (y + y / 4) - y / 100) + y / 400) + x) + day) mod 7).

(* @src userland/apps/src/bin/cal.rs 32-37 parse_u32 (loop) *)
Fixpoint parse_loop (s : list Z) (val : Z) : option Z :=
  match s with
  | [] => Some val
  | b :: s => if (b <? 48) || (57 <? b) then None else val ← checked_mul32 val 10; val ← checked_add32 val (b - 48); parse_loop s val
  end.
(* @src userland/apps/src/bin/cal.rs 27-39 parse_u32 *)
Definition parse_u32 (s : list Z) : option Z := match s with [] => None | _ => parse_loop s 0 end.

Section Cal.
Context {W : Type} {HO : ShOs W}.

(** The days from [day] on, [n] of them, from a column on: the last column. *)
(* @src userland/apps/src/bin/cal.rs 62-77 print_calendar (days) *)
Fixpoint print_days (day days col : Z) (n : nat) : Prog W Z :=
  match n with
  | O => mret col
  | S n =>
    _ ← print (if day <? 10 then [[32]; itoa day] else [itoa day]);
    let col := col + 1 in
    if col =? 7 then _ ← print [[10]]; print_days (day + 1) days 0 n
    else _ ← when (negb (day =? days)) (print [[32]]); print_days (day + 1) days col n
  end.

Fixpoint print_blanks (n : nat) : Prog W unit := match n with O => mret tt | S n => _ ← print [as_bytes "   "]; print_blanks n end.

(** The name of the month is padded on the left, a blank at a time. *)
(* @src userland/apps/src/bin/cal.rs 41-82 print_calendar *)
Definition print_calendar (month year : Z) : Prog W unit :=
  if (month <? 1) || (12 <? month) || (year <? 1) then say "cal: illegal month or year"
  else
    m_name ← pure (MONTH_NAMES !! Z.to_nat (month - 1));
    _ ← println ([as_bytes "    "] ++ replicate (9 - length (as_bytes m_name)) [32] ++ [as_bytes m_name; [32]; itoa year]);
    _ ← say "Su Mo Tu We Th Fr Sa";
    first_day ← pure (day_of_week year month 1);
    days ← pure (bget DAYS_IN_MONTH (month - 1));
    let days := if (month =? 2) && is_leap_year year then 29 else days in
    _ ← print_blanks (Z.to_nat first_day);
    col ← print_days 1 days first_day (Z.to_nat days);
    when (negb (col =? 0)) (print [[10]]).

Fixpoint print_year (months : list Z) (year : Z) : Prog W unit :=
  match months with [] => mret tt | m :: months => _ ← print_calendar m year; _ ← print [[10]]; print_year months year end.

(* @src userland/apps/src/bin/cal.rs 85-125 main *)
Definition cal_main (args : list (list Z)) : Prog W Z :=
  match args with
  | [first] =>
    if bool_decide (first = as_bytes "-h") || bool_decide (first = as_bytes "--help") || bool_decide (first = as_bytes "help") then
      _ ← say "Usage: cal [month] [year]";
      _ ← say "Display a calendar";
      _ ← say "  cal               Current month (October 2026)";
      _ ← say "  cal <year>        Display entire year";
      _ ← say "  cal <month> <yr>  Specific month (1-12) and year";
      mret 0
    else
      match parse_u32 first with
      | Some y =>
        if 12 <? y then _ ← print_year [1; 2; 3; 4; 5; 6; 7; 8; 9; 10; 11; 12] y; mret 0
        else _ ← print_calendar y 2026; mret 0
      | None => _ ← print_calendar 10 2026; mret 0
      end
  | m_str :: y_str :: _ =>
    match parse_u32 m_str, parse_u32 y_str with
    | Some m, Some y => _ ← print_calendar m y; mret 0
    | _, _ => _ ← say "cal: invalid argument"; mret 1
    end
  | [] => _ ← print_calendar 10 2026; mret 0
  end.
End Cal.

(** ** The calendar *)

Definition month_days (y m : Z) : Z := default 0 (DAYS_IN_MONTH !! Z.to_nat (m - 1)) + (if (m =? 2) && is_leap_year y then 1 else 0).
Record Date : Type := mkDate { d_year : Z; d_month : Z; d_day : Z }.
Definition next (d : Date) : Date :=
  let '(mkDate y m k) := d in
  if k <? month_days y m then mkDate y m (k + 1) else if m <? 12 then mkDate y (m + 1) 1 else mkDate (y + 1) 1 1.
Definition valid (d : Date) : Prop := 1 <= d_month d <= 12 /\ 1 <= d_day d <= month_days (d_year d) (d_month d).
Definition weekday (d : Date) : option Z := day_of_week (d_year d) (d_month d) (d_day d).

(** The weekday without wrap-around. *)
Definition MONTH_SHIFT : list Z := [0; 3; 2; 5; 0; 3; 5; 1; 4; 6; 2; 4].
Definition leaps (y : Z) : Z := y + y / 4 - y / 100 + y / 400.
Definition YEARS : Z := 3000000000.

Lemma day_of_week_eq y m k x : 1 <= y <= YEARS -> 1 <= m <= 12 -> 1 <= k <= 31 -> MONTH_SHIFT !! Z.to_nat (m - 1) = Some x -> 0 <= x <= 6 ->
  day_of_week y m k = Some ((leaps (if m <? 3 then y - 1 else y) + x + k) mod 7).
Proof.
  unfold YEARS. intros Hy Hm Hk Hx Hx6. unfold day_of_week. rewrite (u32_small (m - 1)), (u32_small (y - 1)) by lia.
  assert (E : bget [0; 3; 2; 5; 0; 3; 5; 1; 4; 6; 2; 4] (m - 1) = Some x).
  { unfold bget. rewrite (proj2 (Z.leb_le 0 (m - 1))), (proj2 (Z.ltb_lt (m - 1) _)) by (cbn; lia). exact Hx. }
  rewrite E. cbn [mbind option_bind]. set (Y := if m <? 3 then y - 1 else y). assert (HY : 0 <= Y <= 3000000000) by (unfold Y; destruct (m <? 3); lia).
  pose proof (Z.div_mod Y 4 ltac:(lia)). pose proof (Z.mod_pos_bound Y 4 ltac:(lia)).
  pose proof (Z.div_mod Y 100 ltac:(lia)). pose proof (Z.mod_pos_bound Y 100 ltac:(lia)).
  pose proof (Z.div_mod Y 400 ltac:(lia)). pose proof (Z.mod_pos_bound Y 400 ltac:(lia)).
  rewrite (u32_small (Y + Y / 4)), (u32_small (Y + Y / 4 - Y / 100)), (u32_small (Y + Y / 4 - Y / 100 + Y / 400)) by lia.
  rewrite (u32_small (_ + x)), u32_small by lia. done.
Qed.

Lemma div_step k y : 0 < k -> y / k = (y - 1) / k + (if y mod k =? 0 then 1 else 0).
Proof.
  intros Hk. pose proof (Z.div_mod y k ltac:(lia)) as E. pose proof (Z.mod_pos_bound y k Hk). destruct (Z.eqb_spec (y mod k) 0) as [E0|E0].
  - assert ((y - 1) / k = y / k - 1) by (symmetry; apply (Z.div_unique _ _ _ (k - 1)); lia). lia.
  - assert ((y - 1) / k = y / k) by (symmetry; apply (Z.div_unique _ _ _ (y mod k - 1)); lia). lia.
Qed.
Lemma leaps_step y : leaps y = leaps (y - 1) + 1 + (if is_leap_year y then 1 else 0).
Proof.
  unfold leaps, is_leap_year. rewrite (div_step 4 y), (div_step 100 y), (div_step 400 y) by lia.
  pose proof (Z.div_mod y 4 ltac:(lia)). pose proof (Z.div_mod y 100 ltac:(lia)). pose proof (Z.div_mod y 400 ltac:(lia)).
  pose proof (Z.mod_pos_bound y 4 ltac:(lia)). pose proof (Z.mod_pos_bound y 100 ltac:(lia)). pose proof (Z.mod_pos_bound y 400 ltac:(lia)).
  destruct (Z.eqb_spec (y mod 4) 0), (Z.eqb_spec (y mod 100) 0), (Z.eqb_spec (y mod 400) 0); cbn [andb orb negb]; lia.
Qed.
Lemma mod7 a b q : b = a + 1 + q * 7 -> b mod 7 = (a mod 7 + 1) mod 7.
Proof. intros ->. rewrite Z_mod_plus_full, Zplus_mod_idemp_l. done. Qed.

(** Evaluates the tables and the comparisons of months. *)
Ltac months := repeat match goal with
  | |- context [default 0 (DAYS_IN_MONTH !! ?i)] => let v := eval vm_compute in (default 0 (DAYS_IN_MONTH !! i)) in change (default 0 (DAYS_IN_MONTH !! i)) with v
  | |- context [MONTH_SHIFT !! ?i] => let v := eval vm_compute in (MONTH_SHIFT !! i) in change (MONTH_SHIFT !! i) with v
  | |- context [?a <? ?b] => let v := eval vm_compute in (a <? b) in change (a <? b) with v
  | |- context [?a =? ?b] => let v := eval vm_compute in (a =? b) in change (a =? b) with v
  end; cbn [andb].

Lemma twelve m : 1 <= m <= 12 -> m = 1 \/ m = 2 \/ m = 3 \/ m = 4 \/ m = 5 \/ m = 6 \/ m = 7 \/ m = 8 \/ m = 9 \/ m = 10 \/ m = 11 \/ m = 12.
Proof. lia. Qed.
Lemma month_days_range y m : 1 <= m <= 12 -> 28 <= month_days y m <= 31.
Proof.
  intros Hm%twelve. unfold month_days. generalize (is_leap_year y) as b. intros b.
  repeat destruct Hm as [-> | Hm]; try subst m; months; destruct b; lia.
Qed.
(** From the last day of a month to the first of the next. *)
Lemma month_step y m x x' : 1 <= m < 12 -> MONTH_SHIFT !! Z.to_nat (m - 1) = Some x -> MONTH_SHIFT !! Z.to_nat m = Some x' ->
  exists q, leaps (if m + 1 <? 3 then y - 1 else y) + x' + 1 = leaps (if m <? 3 then y - 1 else y) + x + month_days y m + 1 + q * 7.
Proof.
  intros Hm. pose proof (leaps_step y) as Hl. unfold month_days. revert Hl. generalize (is_leap_year y) as b. intros b Hl.
  assert (Hc : 1 <= m <= 12) by lia. apply twelve in Hc. repeat destruct Hc as [-> | Hc]; try subst m; months; intros [= <-] [= <-].
  - exists (-4). lia.
  - exists (-4). destruct b; cbn [Z.add]; lia.
  - exists (-4). lia.
  - exists (-5). lia.
  - exists (-4). lia.
  - exists (-4). lia.
  - exists (-5). lia.
  - exists (-4). lia.
  - exists (-4). lia.
  - exists (-5). lia.
  - exists (-4). lia.
Qed.

(** The weekdays of [cal] follow one another, from the first day of the calendar on. *)
Theorem weekday_next d : valid d -> 1 <= d_year d < YEARS ->
  exists x, weekday d = Some x /\ 0 <= x < 7 /\ weekday (next d) = Some ((x + 1) mod 7) /\ valid (next d).
Proof.
  destruct d as [y m k]. unfold valid, weekday. cbn [d_year d_month d_day]. intros [Hm Hk] Hy. pose proof (month_days_range y m Hm) as Hmd.
  assert (Hx : forall m, 1 <= m <= 12 -> exists x, MONTH_SHIFT !! Z.to_nat (m - 1) = Some x /\ 0 <= x <= 6).
  { intros m' Hm'%twelve. repeat destruct Hm' as [-> | Hm']; try subst m'; months; eexists; (split; [done|lia]). }
  destruct (Hx m Hm) as (x & Ex & Hx6). eexists. split; [apply (day_of_week_eq y m k x); [unfold YEARS in *; lia|lia|lia|done|done]|].
  split; [apply Z.mod_pos_bound; lia|]. unfold next. destruct (Z.ltb_spec k (month_days y m)); [|destruct (Z.ltb_spec m 12)]; cbn [d_year d_month d_day].
  - split; [|lia]. rewrite (day_of_week_eq y m (k + 1) x) by (unfold YEARS in *; lia || done). f_equal. apply (mod7 _ _ 0). lia.
  - destruct (Hx (m + 1) ltac:(lia)) as (x' & Ex' & Hx6'). pose proof (month_days_range y (m + 1) ltac:(lia)). split; [|lia].
    rewrite (day_of_week_eq y (m + 1) 1 x') by (unfold YEARS in *; lia || done). f_equal. replace (m + 1 - 1) with m in Ex' by lia.
    destruct (month_step y m x x' ltac:(lia) Ex Ex') as [q Hq]. apply (mod7 _ _ q). rewrite Hq. lia.
  - split; [|change (month_days (y + 1) 1) with 31; lia]. assert (m = 12) as -> by lia. change (month_days y 12) with 31 in *. assert (k = 31) as -> by lia.
    revert Ex. months. intros [= <-]. rewrite (day_of_week_eq (y + 1) 1 1 0) by (unfold YEARS in *; lia || done). f_equal. apply (mod7 _ _ (-5)). months. replace (y + 1 - 1) with y by lia. lia.
Qed.
Example weekday_first : weekday (mkDate 1 1 1) = Some 1.
Proof. reflexivity. Qed.

(** ** The page *)

Section Page.
Context {W : Type} {HO : ShOs W} (left said : Z -> W -> list Z) {HS : Stdio left said}.
Implicit Types w : W.

(** A day takes two places. *)
Definition cell (day : Z) : list Z := if day <? 10 then 32 :: itoa day else itoa day.
Fixpoint days_text (day days col : Z) (n : nat) : list Z * Z :=
  match n with
  | O => ([], col)
  | S n =>
    let col := col + 1 in
    let '(t, c) := days_text (day + 1) days (if col =? 7 then 0 else col) n in
    (cell day ++ (if col =? 7 then [10] else if negb (day =? days) then [32] else []) ++ t, c)
  end.
(** The days of a month, from the column [first] on. *)
Definition page (first days : Z) : list Z :=
  let '(t, col) := days_text 1 days first (Z.to_nat days) in
  mjoin (replicate (Z.to_nat first) (as_bytes "   ")) ++ t ++ (if negb (col =? 0) then [10] else []).
Definition rows (first days : Z) : list (list Z) := removelast (split_on 10 (page first days)).

Lemma print_days_spec n : forall day days col w,
  wp (print_days day days col n) (fun w' c => told left said w w' (days_text day days col n).1 /\ c = (days_text day days col n).2) w.
Proof.
  induction n as [|n IH]; intros day days col w; cbn [print_days days_text]; [apply wp_ret; split; [apply told_refl|done]|].
  apply wp_bind, (wp_prints left said). intros w1 T1. assert (Ec : mjoin (if day <? 10 then [[32]; itoa day] else [itoa day]) = cell day).
  { unfold cell. destruct (day <? 10); cbn; by rewrite ?app_nil_r. }
  rewrite Ec in T1. destruct (col + 1 =? 7).
  - apply wp_bind, (wp_prints left said). intros w2 T2. eapply wp_mono; [apply IH|]. intros w3 c [T3 ->].
    destruct (days_text (day + 1) days 0 n) as [t c]. split; [|done]. cbn [fst snd] in *. by eapply told_trans; [|eapply told_trans].
  - apply wp_bind. assert (Hrest : forall w2 d, told left said w1 w2 d -> wp (print_days (day + 1) days (col + 1) n)
      (fun w' c => told left said w w' (cell day ++ d ++ (days_text (day + 1) days (col + 1) n).1) /\ c = (days_text (day + 1) days (col + 1) n).2) w2).
    { intros w2 d T2. eapply wp_mono; [apply IH|]. intros w3 c [T3 ->]. split; [|done]. by eapply told_trans; [|eapply told_trans]. }
    apply wp_when; intros Hd.
    + apply (wp_prints left said). intros w2 T2. eapply wp_mono; [by apply Hrest|]. intros w3 c. rewrite Hd. by destruct (days_text (day + 1) days (col + 1) n).
    + eapply wp_mono; [apply Hrest, told_refl|]. intros w3 c. rewrite Hd. by destruct (days_text (day + 1) days (col + 1) n).
Qed.
Lemma print_blanks_spec n : forall w, wp (print_blanks n) (fun w' _ => told left said w w' (mjoin (replicate n (as_bytes "   ")))) w.
Proof.
  induction n as [|n IH]; intros w; cbn [print_blanks]; [apply wp_ret, told_refl|]. apply wp_bind, (wp_prints left said). intros w1 T1.
  eapply wp_mono; [apply IH|]. intros w2 u T2. exact (told_trans left said _ _ _ (as_bytes "   ") _ T1 T2).
Qed.

(** What every page has: the day of the month in its row and column. *)
Definition placed (first days d : Z) : bool :=
  match rows first days !! Z.to_nat ((first + d - 1) / 7) with
  | Some row => bool_decide (slice (3 * ((first + d - 1) mod 7)) 2 row = cell d)
  | None => false
  end.
Definition page_ok (first days : Z) : bool :=
  bool_decide (mjoin ((fun r => r ++ [10]) <$> rows first days) = page first days) &&
  forallb (fun d => placed first days (Z.of_nat d)) (seq 1 (Z.to_nat days)).
Lemma pages_ok first days : 0 <= first < 7 -> 28 <= days <= 31 -> page_ok first days = true.
Proof.
  intros Hf Hd. assert (H : forallb (fun f => forallb (fun k => page_ok (Z.of_nat f) (Z.of_nat k)) (seq 28 4)) (seq 0 7) = true) by (vm_compute; reflexivity).
  rewrite forallb_forall in H. specialize (H (Z.to_nat first)). cbn beta in H. rewrite forallb_forall in H by (apply in_seq; lia).
  specialize (H ltac:(apply in_seq; lia) (Z.to_nat days) ltac:(apply in_seq; lia)). by rewrite !Z2Nat.id in H by lia.
Qed.

(** The title and the names of the days. *)
Definition title (month year : Z) : list Z :=
  as_bytes "    " ++ replicate (9 - length (as_bytes (default EmptyString (MONTH_NAMES !! Z.to_nat (month - 1))))) 32 ++
  as_bytes (default EmptyString (MONTH_NAMES !! Z.to_nat (month - 1))) ++ [32] ++ itoa year ++ [10] ++ as_bytes "Su Mo Tu We Th Fr Sa" ++ [10].

Lemma join_blanks n : mjoin (replicate n [32]) = replicate n (32 : Z).
Proof. induction n as [|n IH]; [done|]. cbn. by f_equal. Qed.

(** The page of a month: behind the title a line for each week, and in them every day of
    the month in the column of its weekday. *)
Theorem cal_correct month year w : 1 <= month <= 12 -> 1 <= year <= YEARS ->
  exists w' weeks, print_calendar month year w = Done (w', tt) /\
    said 1 w' = said 1 w ++ title month year ++ mjoin ((fun week => week ++ [10]) <$> weeks) /\
    forall day, valid (mkDate year month day) -> exists first x week,
      weekday (mkDate year month 1) = Some first /\ weekday (mkDate year month day) = Some x /\
      weeks !! Z.to_nat ((first + day - 1) / 7) = Some week /\ slice (3 * x) 2 week = cell day.
Proof.
  intros Hm Hy. assert (Hx : exists x, MONTH_SHIFT !! Z.to_nat (month - 1) = Some x /\ 0 <= x <= 6 /\
    exists name, MONTH_NAMES !! Z.to_nat (month - 1) = Some name /\ bget DAYS_IN_MONTH (month - 1) = Some (default 0 (DAYS_IN_MONTH !! Z.to_nat (month - 1)))).
  { pose proof (twelve month Hm) as Hc. repeat destruct Hc as [-> | Hc]; try subst month; months; eexists; (split; [done|split; [lia|]]); eexists; by split. }
  destruct Hx as (x & Ex & Hx6 & name & En & Edays). pose proof (month_days_range year month Hm) as Hmd.
  pose proof (fun k Hk => day_of_week_eq year month k x Hy Hm Hk Ex Hx6) as Hday. set (L := leaps (if month <? 3 then year - 1 else year) + x) in *.
  pose proof (Hday 1 ltac:(lia)) as Efirst. set (first := (L + 1) mod 7) in *. assert (Hf : 0 <= first < 7) by (apply Z.mod_pos_bound; lia).
  assert (Ed : (if (month =? 2) && is_leap_year year then 29 else default 0 (DAYS_IN_MONTH !! Z.to_nat (month - 1))) = month_days year month).
  { unfold month_days. destruct (Z.eqb_spec month 2) as [->|]; cbn [andb]; [|lia]. destruct (is_leap_year year); months; lia. }
  pose proof (pages_ok first (month_days year month) Hf Hmd) as [Hrows Hall]%andb_true_iff. apply bool_decide_eq_true in Hrows.
  enough (Hw : wp (print_calendar month year) (fun w' _ => said 1 w' = said 1 w ++ title month year ++ page first (month_days year month)) w).
  { destruct Hw as (w' & [] & E & S). exists w', (rows first (month_days year month)). split; [done|]. split; [by rewrite S, Hrows|].
    intros day [_ Hv]. cbn [d_year d_month d_day] in Hv. rewrite forallb_forall in Hall. specialize (Hall (Z.to_nat day) ltac:(apply in_seq; lia)).
    rewrite Z2Nat.id in Hall by lia. unfold placed in Hall. destruct (rows _ _ !! _) as [week|] eqn:Ew; [|done]. apply bool_decide_eq_true in Hall.
    exists first, ((L + day) mod 7), week. split; [exact Efirst|]. split; [apply Hday; lia|]. split; [done|]. rewrite <- Hall. f_equal. f_equal.
    unfold first. replace ((L + 1) mod 7 + day - 1) with ((L + 1) mod 7 + (day - 1)) by lia. rewrite Zplus_mod_idemp_l. f_equal. lia. }
  unfold print_calendar. rewrite (proj2 (Z.ltb_ge month 1)), (proj2 (Z.ltb_ge 12 month)), (proj2 (Z.ltb_ge year 1)) by lia. cbn [orb].
  apply wp_bind. eapply wp_pure; [exact En|]. apply wp_bind, (wp_prints left said). intros w1 [E1 _].
  apply wp_bind, (wp_prints left said). intros w2 [E2 _]. apply wp_bind. eapply wp_pure; [exact Efirst|]. apply wp_bind. eapply wp_pure; [exact Edays|].
  cbn zeta. rewrite Ed. apply wp_bind. eapply wp_mono; [apply print_blanks_spec|]. intros w3 u [E3 _].
  apply wp_bind. eapply wp_mono; [apply print_days_spec|]. intros w4 c [[E4 _] ->].
  assert (Hend : forall w5 d, told left said w4 w5 d -> (d = if negb ((days_text 1 (month_days year month) first (Z.to_nat (month_days year month))).2 =? 0) then [10] else []) ->
    said 1 w5 = said 1 w ++ title month year ++ page first (month_days year month)).
  { intros w5 d [E5 _] ->. rewrite E5, E4, E3, E2, E1. unfold title, page. rewrite En. cbn [default].
    destruct (days_text 1 (month_days year month) first (Z.to_nat (month_days year month))) as [t c]. cbn [fst snd].
    rewrite <- !app_assoc. f_equal. rewrite !join_app, join_blanks. cbn [mjoin list_join app]. rewrite <- !app_assoc. cbn [app]. rewrite <- ?app_assoc. done. }
  apply wp_when; intros Hc.
  - apply (wp_prints left said). intros w5 T5. eapply Hend; [exact T5|]. by rewrite Hc.
  - eapply Hend; [apply told_refl|]. by rewrite Hc.
Qed.
End Page.

Lemma weekday_next_witness : exists x, weekday (mkDate 2024 2 29) = Some x /\ weekday (mkDate 2024 3 1) = Some ((x + 1) mod 7).
Proof.
  destruct (weekday_next (mkDate 2024 2 29)) as (x & E & _ & En & _); [split; vm_compute; intuition discriminate|unfold YEARS; cbn; lia|]. exists x. by split.
Defined.

Lemma cal_correct_witness : exists w', print_calendar 10 2026 (desk []) = Done (w', tt) /\ desk_said 1 w' = as_bytes "      October 2026
Su Mo Tu We Th Fr Sa
             1  2  3
 4  5  6  7  8  9 10
11 12 13 14 15 16 17
18 19 20 21 22 23 24
25 26 27 28 29 30 31
".
Proof.
  destruct (cal_correct desk_left desk_said 10 2026 (desk [])) as (w' & weeks & E & _); [lia|unfold YEARS; lia|]. exists w'. split; [exact E|].
  assert (Ev : (fun r => match r with Done (w, _) => desk_said 1 w | _ => [] end) (print_calendar 10 2026 (desk [])) = as_bytes "      October 2026
Su Mo Tu We Th Fr Sa
             1  2  3
 4  5  6  7  8  9 10
11 12 13 14 15 16 17
18 19 20 21 22 23 24
25 26 27 28 29 30 31
") by (vm_compute; reflexivity).
  rewrite E in Ev. exact Ev.
Defined.
