(* ===== verification/ToolCksum.v ===== *)
(** * ToolCksum: the program [cksum] (userland/apps/src/bin/cksum.rs)

    A checksum of 32 bits and the number of bytes.  It does not depend on how the input
    arrives, and a byte that differs changes it; it is not the checksum of POSIX. *)

From Stdlib Require Import Ascii.
From S2P Require Import Prelude Text Sh ShOps ShWp ToolIo.

Open Scope Z_scope.

Definition POLY : Z := 0x04C11DB7.

(** [for _ in 0..8]: the bit that is tested is bit 7. *)
(* @src userland/apps/src/bin/cksum.rs 23-29 PosixCksum::update (bits) *)
Fixpoint crc_bits (n : nat) (c : Z) : Z :=
  match n with
  | O => c
  | S n => crc_bits n (if negb (Z.land c 0x80 =? 0) then Z.lxor (u32 (Z.shiftl c 1)) POLY else u32 (Z.shiftl c 1))
  end.
(* @src userland/apps/src/bin/cksum.rs 22-30 PosixCksum::update (byte) *)
Definition crc_byte (crc b : Z) : Z := Z.lxor (u32 (Z.shiftl crc 8)) (crc_bits 8 (Z.land (Z.lxor (Z.shiftr crc 24) b) 0xFF)).

(** [crc] and [total_bytes]. *)
(* @src userland/apps/src/bin/cksum.rs 6-17 PosixCksum *)
Definition Cksum : Type := Z * Z.
Definition cksum_new : Cksum := (0, 0).
(* @src userland/apps/src/bin/cksum.rs 19-32 PosixCksum::update *)
Definition update (s : Cksum) (data : list Z) : Cksum := (foldl crc_byte s.1 data, u32 (s.2 + len data)).

(** The bytes of the length, the lowest first; a [usize] has four at most. *)
(* @src userland/apps/src/bin/cksum.rs 36-48 PosixCksum::finish (loop) *)
Fixpoint finish_loop (crc n : Z) (fuel : nat) : Z :=
  match fuel with
  | O => crc
  | S fuel => if 0 <? n then finish_loop (crc_byte crc (Z.land n 0xFF)) (Z.shiftr n 8) fuel else crc
  end.
(* @src userland/apps/src/bin/cksum.rs 34-50 PosixCksum::finish *)
Definition finish (s : Cksum) : Z * Z := (Z.lxor (finish_loop s.1 s.2 4) U32_MAX, s.2).

Section Cksum.
Context {W : Type} {HO : ShOs W}.

(* @src userland/apps/src/bin/cksum.rs 53-64 process_fd *)
Definition process_fd (fd : Z) (fuel : nat) : Prog W (Z * Z) := s ← chunk_loop fd 512 update cksum_new fuel; mret (finish s).

(** The first sixteen arguments; [None] if the usage was asked for. *)
(* @src userland/apps/src/bin/cksum.rs 68-85 main (arguments) *)
Fixpoint cksum_args (args files : list (list Z)) : option (list (list Z)) :=
  match args with
  | [] => Some files
  | a :: args =>
    if bool_decide (a = as_bytes "--help") || bool_decide (a = as_bytes "-h") then None
    else cksum_args args (if len files <? 16 then files ++ [a] else files)
  end.

(* @src userland/apps/src/bin/cksum.rs 94-110 main (files) *)
Fixpoint cksum_files (files : list (list Z)) (exit_code : Z) (fuel : nat) : Prog W Z :=
  match files with
  | [] => mret exit_code
  | file :: files =>
    if bool_decide (file = as_bytes "-") then
      '(crc, n) ← process_fd 0 fuel;
      _ ← println [dec crc; [32]; dec n];
      cksum_files files exit_code fuel
    else
      fd ← call (os_open file O_RDONLY);
      if fd <? 0 then _ ← println [as_bytes "cksum: cannot open '"; file; as_bytes "'"]; cksum_files files 1 fuel
      else
        '(crc, n) ← process_fd fd fuel;
        _ ← run (os_close fd);
        _ ← println [dec crc; [32]; dec n; [32]; file];
        cksum_files files exit_code fuel
  end.
(* @src userland/apps/src/bin/cksum.rs 67-111 main *)
Definition cksum_main (args : list (list Z)) (fuel : nat) : Prog W Z :=
  match cksum_args args [] with
  | None => _ ← say "Usage: cksum [FILE]..."; _ ← say "Print CRC checksum and byte counts of each FILE."; mret 0
  | Some [] => '(crc, n) ← process_fd 0 fuel; _ ← println [dec crc; [32]; dec n]; mret 0
  | Some files => cksum_files files 0 fuel
  end.
End Cksum.

(** ** Injectivity *)

(** The checksum of a whole input. *)
Definition cksum (l : list Z) : Z * Z := finish (update cksum_new l).

Definition low (z : Z) : Z := Z.land z 0xFF.
(** All the bytes. *)
Lemma byte_cases (P : Z -> bool) : forallb (fun n => P (Z.of_nat n)) (seq 0 256) = true -> forall b, 0 <= b < 256 -> P b = true.
Proof. intros H b Hb. rewrite forallb_forall in H. specialize (H (Z.to_nat b) ltac:(apply in_seq; lia)). by rewrite Z2Nat.id in H by lia. Qed.

(** The low byte of what eight bits make of a byte tells the byte. *)
Lemma crc_bits_low a b : 0 <= a < 256 -> 0 <= b < 256 -> low (crc_bits 8 a) = low (crc_bits 8 b) -> a = b.
Proof.
  intros Ha Hb E. set (inv := fun v => find (fun n => low (crc_bits 8 (Z.of_nat n)) =? v) (seq 0 256)).
  assert (H : forall x, 0 <= x < 256 -> inv (low (crc_bits 8 x)) = Some (Z.to_nat x)).
  { intros x Hx. apply (bool_decide_unpack _). revert x Hx. assert (Hc := byte_cases (fun x => bool_decide (inv (low (crc_bits 8 x)) = Some (Z.to_nat x)))).
    intros x Hx. specialize (Hc ltac:(vm_compute; reflexivity) x Hx). by rewrite Hc. }
  pose proof (H a Ha) as H1. rewrite E, (H b Hb) in H1. injection H1. lia.
Qed.

(** Two numbers have the same lowest [k] bits. *)
Definition agree (k x y : Z) : Prop := forall i, 0 <= i < k -> Z.testbit x i = Z.testbit y i.
(** What [crc_byte] looks its bits up with. *)
Definition index (x a : Z) : Z := Z.land (Z.lxor (Z.shiftr x 24) a) 0xFF.

Lemma crc_index_bits x a i : 0 <= i -> Z.testbit (index x a) i = if i <? 8 then xorb (Z.testbit x (i + 24)) (Z.testbit a i) else false.
Proof.
  intros Hi. unfold index. change 0xFF with (Z.ones 8). rewrite Z.land_spec, Z.lxor_spec, Z.shiftr_spec, Z.testbit_ones_nonneg by lia.
  destruct (Z.ltb_spec i 8); [by rewrite andb_true_r|apply andb_false_r].
Qed.
Lemma index_range x a : 0 <= index x a < 256.
Proof. unfold index. change 0xFF with (Z.ones 8). rewrite Z.land_ones by lia. apply Z.mod_pos_bound. lia. Qed.
Lemma low_bits z i : 0 <= i < 8 -> Z.testbit (low z) i = Z.testbit z i.
Proof. intros Hi. unfold low. change 0xFF with (Z.ones 8). rewrite Z.land_spec, Z.testbit_ones_nonneg by lia. destruct (Z.ltb_spec i 8); [apply andb_true_r|lia]. Qed.
Lemma low_agree x y : agree 8 x y -> low x = low y.
Proof.
  intros H. apply Z.bits_inj'. intros i Hi. destruct (Z.ltb_spec i 8); [by rewrite !low_bits, H by lia|].
  unfold low. change 0xFF with (Z.ones 8). rewrite !Z.land_spec, Z.testbit_ones_nonneg by lia. by destruct (Z.ltb_spec i 8); [lia|rewrite !andb_false_r].
Qed.

Lemma crc_byte_bits x a i : 0 <= i < 32 -> Z.testbit (crc_byte x a) i = xorb (if i <? 8 then false else Z.testbit x (i - 8)) (Z.testbit (crc_bits 8 (index x a)) i).
Proof.
  intros Hi. unfold crc_byte. fold (index x a). rewrite Z.lxor_spec. f_equal. unfold u32. rewrite Z.mod_pow2_bits_low, Z.shiftl_spec by lia.
  destruct (Z.ltb_spec i 8); [by apply Z.testbit_neg_r; lia|done].
Qed.
(** A step back: what agrees after a byte agreed before it, and was looked up alike. *)
Lemma crc_byte_agree k x y a b : 8 <= k <= 32 -> agree k (crc_byte x a) (crc_byte y b) -> index x a = index y b /\ agree (k - 8) x y.
Proof.
  intros Hk H. assert (E : index x a = index y b).
  { apply crc_bits_low; [apply index_range..|]. apply low_agree. intros i Hi. specialize (H i ltac:(lia)). rewrite !crc_byte_bits in H by lia.
    destruct (Z.ltb_spec i 8); [by rewrite !xorb_false_l in H|lia]. }
  split; [done|]. intros i Hi. specialize (H (i + 8) ltac:(lia)). rewrite !crc_byte_bits, E in H by lia. destruct (Z.ltb_spec (i + 8) 8); [lia|].
  replace (i + 8 - 8) with i in H by lia. by destruct (Z.testbit x i), (Z.testbit y i), (Z.testbit (crc_bits 8 (index y b)) (i + 8)).
Qed.
Lemma index_inj x y a b : is_byte a -> is_byte b -> index x a = index y b -> Z.shiftr x 24 = Z.shiftr y 24 -> a = b.
Proof.
  intros Ha Hb E Es. apply Z.bits_inj'. intros i Hi. destruct (Z.ltb_spec i 8).
  - pose proof (crc_index_bits x a i Hi) as H1. pose proof (crc_index_bits y b i Hi) as H2. rewrite E in H1. rewrite H1 in H2. clear H1.
    destruct (Z.ltb_spec i 8); [|lia]. rewrite <- (Z.shiftr_spec x 24 i), <- (Z.shiftr_spec y 24 i), Es in H2 by lia.
    by destruct (Z.testbit a i), (Z.testbit b i), (Z.testbit (Z.shiftr y 24) i).
  - unfold is_byte in *. rewrite <- (Z.mod_small a (2 ^ 8)), <- (Z.mod_small b (2 ^ 8)) by lia. by rewrite !Z.mod_pow2_bits_high by lia.
Qed.
Lemma agree_eq x y : 0 <= x < 2 ^ 32 -> 0 <= y < 2 ^ 32 -> agree 32 x y -> x = y.
Proof.
  intros Hx Hy H. apply Z.bits_inj'. intros i Hi. destruct (Z.ltb_spec i 32); [by apply H|].
  rewrite <- (Z.mod_small x (2 ^ 32)), <- (Z.mod_small y (2 ^ 32)) by lia. by rewrite !Z.mod_pow2_bits_high by lia.
Qed.

Lemma lxor_range a b : 0 <= a < 2 ^ 32 -> 0 <= b < 2 ^ 32 -> 0 <= Z.lxor a b < 2 ^ 32.
Proof.
  intros Ha Hb. assert (E : u32 (Z.lxor a b) = Z.lxor a b); [|rewrite <- E; apply u32_range]. unfold u32. apply Z.bits_inj'. intros i Hi.
  destruct (Z.ltb_spec i 32); [by rewrite Z.mod_pow2_bits_low by lia|]. rewrite Z.mod_pow2_bits_high, Z.lxor_spec by lia.
  rewrite <- (Z.mod_small a (2 ^ 32)), <- (Z.mod_small b (2 ^ 32)) by lia. by rewrite !Z.mod_pow2_bits_high by lia.
Qed.
Lemma crc_bits_range n : forall c, 0 <= c < 2 ^ 32 -> 0 <= crc_bits n c < 2 ^ 32.
Proof. induction n as [|n IH]; intros c Hc; cbn [crc_bits]; [done|]. apply IH. destruct (negb _); [apply lxor_range; [apply u32_range|by vm_compute]|apply u32_range]. Qed.
Lemma crc_byte_range x a : 0 <= crc_byte x a < 2 ^ 32.
Proof. apply lxor_range; [apply u32_range|]. apply crc_bits_range. pose proof (index_range x a). unfold index in *. lia. Qed.
Lemma crc_range l : forall x, 0 <= x < 2 ^ 32 -> 0 <= foldl crc_byte x l < 2 ^ 32.
Proof. induction l as [|a l IH]; intros x Hx; cbn [foldl]; [done|]. apply IH, crc_byte_range. Qed.

Lemma fold_agree l1 : forall k l2 x y, length l1 = length l2 -> 0 <= k -> 8 * len l1 + k <= 32 ->
  agree (8 * len l1 + k) (foldl crc_byte x l1) (foldl crc_byte y l2) -> agree k x y.
Proof.
  induction l1 as [|a l1 IH]; intros k [|b l2] x y Hl Hk Hb H; try done; cbn [foldl length] in *.
  destruct (crc_byte_agree (8 + k) x y a b) as [_ H']; [lia| |by replace (8 + k - 8) with k in H' by lia].
  apply (IH (8 + k) l2); [lia..|]. intros i Hi. apply H. lia.
Qed.
(** Four bytes at most are told apart. *)
Lemma fold_burst l1 : forall l2 x, bytes_ok l1 -> bytes_ok l2 -> length l1 = length l2 -> len l1 <= 4 -> foldl crc_byte x l1 = foldl crc_byte x l2 -> l1 = l2.
Proof.
  induction l1 as [|a l1 IH]; intros [|b l2] x H1 H2 Hl Hn H; try done. cbn [foldl length] in *. apply Forall_cons in H1 as [Ha H1]. apply Forall_cons in H2 as [Hb H2].
  assert (a = b) as ->.
  { destruct (crc_byte_agree 8 x x a b) as [E _]; [lia| |by apply (index_inj x x)]. apply (fold_agree l1 8 l2); [lia..|]. intros i _. by rewrite H. }
  f_equal. eapply (IH l2 (crc_byte x b)); done || lia.
Qed.
(** What follows is no way back. *)
Lemma fold_inj l : forall x y, 0 <= x < 2 ^ 32 -> 0 <= y < 2 ^ 32 -> foldl crc_byte x l = foldl crc_byte y l -> x = y.
Proof.
  induction l as [|a l IH]; intros x y Hx Hy E; cbn [foldl] in E; [done|]. apply IH in E; [|apply crc_byte_range..].
  destruct (crc_byte_agree 32 x y a a) as [Ei Ha]; [lia|by intros i _; rewrite E|]. apply agree_eq; [done..|]. intros i Hi.
  destruct (Z.ltb_spec i 24); [apply Ha; lia|]. pose proof (crc_index_bits x a (i - 24) ltac:(lia)) as H1. pose proof (crc_index_bits y a (i - 24) ltac:(lia)) as H2.
  rewrite Ei in H1. rewrite H1 in H2. destruct (Z.ltb_spec (i - 24) 8); [|lia]. replace (i - 24 + 24) with i in H2 by lia.
  by destruct (Z.testbit x i), (Z.testbit y i), (Z.testbit a (i - 24)).
Qed.
(** The bytes of the length. *)
Fixpoint length_bytes (n : Z) (fuel : nat) : list Z :=
  match fuel with O => [] | S fuel => if 0 <? n then Z.land n 0xFF :: length_bytes (Z.shiftr n 8) fuel else [] end.
Lemma finish_fold fuel : forall crc n, finish_loop crc n fuel = foldl crc_byte crc (length_bytes n fuel).
Proof. induction fuel as [|fuel IH]; intros crc n; cbn [finish_loop length_bytes]; [done|]. destruct (0 <? n); [apply IH|done]. Qed.
(** Four rounds use up a length of 32 bits. *)
Lemma length_bytes_end fuel : forall n, 0 <= n < 2 ^ (8 * Z.of_nat fuel) -> forall more, length_bytes n (fuel + more) = length_bytes n fuel.
Proof.
  induction fuel as [|fuel IH]; intros n Hn more; cbn [length_bytes Nat.add].
  - assert (n = 0) as -> by (change (2 ^ (8 * Z.of_nat 0)) with 1 in Hn; lia). by destruct more.
  - destruct (0 <? n); [|done]. f_equal. apply IH. rewrite Z.shiftr_div_pow2 by lia. rewrite Nat2Z.inj_succ in Hn.
    replace (8 * Z.succ (Z.of_nat fuel)) with (8 * Z.of_nat fuel + 8) in Hn by lia. rewrite Z.pow_add_r in Hn by lia.
    split; [apply Z.div_pos; lia|]. apply Z.div_lt_upper_bound; lia.
Qed.
Lemma finish_total crc n more : 0 <= n < 2 ^ 32 -> finish_loop crc n (4 + more) = finish_loop crc n 4.
Proof. intros Hn. rewrite !finish_fold. f_equal. by apply length_bytes_end. Qed.
Lemma finish_range s : 0 <= s.1 < 2 ^ 32 -> 0 <= (finish s).1 < 2 ^ 32.
Proof. intros H. cbn [finish fst]. rewrite finish_fold. apply lxor_range; [by apply crc_range|unfold U32_MAX; lia]. Qed.

(** ** What is shown *)

(** A change within four bytes in a row does not go unnoticed, wherever it is and whatever
    the length. *)
Theorem cksum_detects l p q r : bytes_ok p -> bytes_ok q -> length p = length q -> len p <= 4 -> p <> q ->
  (cksum (l ++ p ++ r)).1 <> (cksum (l ++ q ++ r)).1.
Proof.
  intros Hp Hq Hl Hn Hne E. apply Hne, (fold_burst p q (foldl crc_byte 0 l) Hp Hq Hl Hn). unfold cksum, finish, update in E. cbn [fst snd cksum_new] in E.
  apply (f_equal (fun z => Z.lxor z U32_MAX)) in E. rewrite !Z.lxor_assoc, Z.lxor_nilpotent, !Z.lxor_0_r, !finish_fold in E.
  rewrite !length_app, Hl, <- !foldl_app, !(foldl_app _ _ (l ++ _)) in E || rewrite !length_app, Hl, !foldl_app in E.
  apply fold_inj in E; [|by repeat apply crc_range..]. apply fold_inj in E; [done|by repeat apply crc_range..].
Qed.

Section Shown.
Context {W : Type} {HO : ShOs W} (left said : Z -> W -> list Z) {HS : Stdio left said}.

Lemma process_spec fd fuel w : (length (left fd w) <= fuel)%nat ->
  wp (process_fd fd fuel) (fun w' r => r = cksum (left fd w) /\ left fd w' = [] /\ forall o, said o w' = said o w) w.
Proof.
  intros Hf. unfold process_fd. apply wp_bind. eapply wp_mono.
  - apply (chunk_loop_spec left said (fun s : Cksum => 0 <= s.2 < 2 ^ 32)); [lia|intros s a _; apply u32_range| | |by cbn|done].
    + intros s a b _. unfold update. cbn [fst snd]. rewrite foldl_app, length_app. f_equal. unfold u32. rewrite Z.add_mod_idemp_l by lia. f_equal. lia.
    + intros [c n] Hn. unfold update. cbn in *. by rewrite Z.add_0_r, u32_small.
  - intros w' s (-> & H). by apply wp_ret.
Qed.

(** Without arguments the checksum of the standard input is printed, and its length; how
    the input arrives makes no difference. *)
Theorem cksum_correct fuel w : (length (left 0 w) <= fuel)%nat -> len (left 0 w) < 2 ^ 32 ->
  exists w' c n, cksum_main [] fuel w = Done (w', 0) /\ said 1 w' = said 1 w ++ c ++ [32] ++ n ++ [10] /\
    shows c (cksum (left 0 w)).1 /\ shows n (len (left 0 w)) /\ left 0 w' = [].
Proof.
  intros Hf Hb. enough (H : wp (cksum_main [] fuel) (fun w' r => r = 0 /\ exists c n, said 1 w' = said 1 w ++ c ++ [32] ++ n ++ [10] /\
    shows c (cksum (left 0 w)).1 /\ shows n (len (left 0 w)) /\ left 0 w' = []) w).
  { destruct H as (w' & r & E & -> & c & n & H). by exists w', c, n. }
  unfold cksum_main. cbn [cksum_args]. apply wp_bind. eapply wp_mono; [by apply process_spec|]. intros w1 [c n] (E & L1 & S1). cbv beta iota.
  apply wp_bind, (wp_prints left said). intros w2 [E2 L2]. apply wp_ret. split; [done|]. exists (dec c), (dec n).
  assert (Ec : c = (cksum (left 0 w)).1) by (by rewrite <- E). assert (En : n = len (left 0 w)).
  { apply (f_equal snd) in E. cbn [snd cksum finish update cksum_new] in E. rewrite E. apply u32_small. lia. }
  split; [rewrite E2, S1; cbn; by rewrite ?app_nil_r, <- ?app_assoc|]. rewrite L2. split; [rewrite <- Ec|split; [rewrite <- En; apply dec_shows; lia|done]].
  apply dec_shows. rewrite Ec. pose proof (finish_range (update cksum_new (left 0 w))) as H. unfold cksum. cbn [update cksum_new fst] in H.
  specialize (H ltac:(apply crc_range; lia)). unfold cksum. lia.
Qed.
End Shown.

(** The checksum of POSIX: the bits are taken from the top. *)
Fixpoint posix_bits (n : nat) (c : Z) : Z :=
  match n with O => c | S n => posix_bits n (if Z.testbit c 31 then Z.lxor (u32 (Z.shiftl c 1)) POLY else u32 (Z.shiftl c 1)) end.
Definition posix_byte (crc b : Z) : Z := posix_bits 8 (Z.lxor crc (Z.shiftl b 24)).
Definition posix_cksum (l : list Z) : Z := Z.lxor (foldl posix_byte 0 (l ++ length_bytes (len l) 4)) U32_MAX.
(** That of the nine digits is known: 930766865.  The program computes another. *)
Example cksum_not_posix : posix_cksum (as_bytes "123456789") = 930766865 /\ (cksum (as_bytes "123456789")).1 = 2526317489.
Proof. split; vm_compute; reflexivity. Qed.

Lemma cksum_detects_witness : (cksum (as_bytes "espresso")).1 <> (cksum (as_bytes "expresso")).1.
Proof. apply (cksum_detects (as_bytes "e") (as_bytes "s") (as_bytes "x") (as_bytes "presso")); [by repeat constructor..|done|done|done]. Defined.
Lemma cksum_correct_witness : exists w' c n, cksum_main [] 9 (desk (as_bytes "123456789")) = Done (w', 0) /\ desk_said 1 w' = c ++ [32] ++ n ++ [10] /\
  decimal c = 2526317489 /\ decimal n = 9.
Proof.
  destruct (cksum_correct desk_left desk_said 9 (desk (as_bytes "123456789"))) as (w' & c & n & E & S & [C _] & [N _] & _); [cbn; lia|cbn; lia|].
  exists w', c, n. split; [exact E|]. split; [exact S|]. split; [rewrite C; vm_compute; reflexivity|exact N].
Defined.
