(* ===== verification/ToolDos.v ===== *)
(** * ToolDos: the programs [unix2dos] and [dos2unix]
    (userland/apps/src/bin/unix2dos.rs and dos2unix.rs)

    Line breaks are converted in a stream, cut into any pieces, or in a file by way of a
    temporary one.  The streams compute the conversions of whole texts; a file that is
    converted holds the converted text and no other file changes, where every write is
    taken in full.  The programs look at no result of a write. *)

From Stdlib Require Import Ascii.
From S2P Require Import Prelude Text Sh ShOps ShWp ToolIo.

Open Scope Z_scope.

(** [if out_len < out_buf.len() { out_buf\[out_len\] = b; out_len += 1 }]. *)
Definition put (out : list Z) (b : Z) : list Z := if len out <? 512 then out ++ [b] else out.

Section Convert.
Context {W : Type} {HO : ShOs W}.

(** [if out_len == out_buf.len() { write(out_fd, &out_buf); out_len = 0 }]; a length is
    never above 512, so [>=] is the same. *)
Definition flush (out_fd : Z) (out : list Z) : Prog W (list Z) := if 512 <=? len out then _ ← run (os_write out_fd out); mret [] else mret out.

(** One byte of [unix2dos]: the buffer and [prev_cr]. *)
(* @src userland/apps/src/bin/unix2dos.rs 22-53 convert_stream (byte) *)
Definition u2d_byte (out_fd : Z) (s : list Z * bool) (b : Z) : Prog W (list Z * bool) :=
  let '(out, prev_cr) := s in
  '(out, prev_cr) ← (if b =? 10 then
      out ← (if negb prev_cr then flush out_fd (put out 13) else mret out : Prog W (list Z));
      mret (put out 10, false)
    else mret (put out b, b =? 13) : Prog W (list Z * bool));
  out ← flush out_fd out;
  mret (out, prev_cr).

(* @src userland/apps/src/bin/unix2dos.rs 10-62 convert_stream *)
Definition u2d_stream (in_fd out_fd : Z) (fuel : nat) : Prog W unit :=
  '(out, _) ← input_loop in_fd 512 (u2d_byte out_fd) ([], false) fuel;
  when (0 <? len out) (run (os_write out_fd out)).

(** One byte of [dos2unix]: the buffer and [pending_cr]. *)
(* @src userland/apps/src/bin/dos2unix.rs 22-62 convert_stream (byte) *)
Definition d2u_byte (out_fd : Z) (s : list Z * bool) (b : Z) : Prog W (list Z * bool) :=
  let '(out, pending_cr) := s in
  '(out, pending_cr) ← (if pending_cr then
      (if b =? 10 then mret (put out 10, false)
      else
        out ← flush out_fd (put out 13);
        mret (if b =? 13 then (out, true) else (put out b, false)) : Prog W (list Z * bool))
    else mret (if b =? 13 then (out, true) else (put out b, pending_cr)) : Prog W (list Z * bool));
  out ← flush out_fd out;
  mret (out, pending_cr).

(* @src userland/apps/src/bin/dos2unix.rs 10-76 convert_stream *)
Definition d2u_stream (in_fd out_fd : Z) (fuel : nat) : Prog W unit :=
  '(out, pending_cr) ← input_loop in_fd 512 (d2u_byte out_fd) ([], false) fuel;
  let out : list Z := if pending_cr : bool then put out 13 else out in
  when (0 <? len out) (run (os_write out_fd out)).

(** ** Files

    What the two programs do alike: [name], [tmp_path] and the stream differ. *)

(** [unlink] of the system. *)
Variable os_unlink : list Z -> W -> W * Z.

(* @src userland/apps/src/bin/unix2dos.rs 99-106 convert_file (copy) *)
Fixpoint copy_back (copy_in copy_out : Z) (fuel : nat) : Prog W unit :=
  '(n, data) ← call (os_read copy_in 512);
  if n <=? 0 then mret tt
  else
    d ← pure (bslice (fill 512 data) 0 n);
    _ ← run (os_write copy_out d);
    match fuel with O => spent | S fuel => copy_back copy_in copy_out fuel end.

Definition convert_file (name : string) (tmp_path : list Z) (convert_stream : Z -> Z -> nat -> Prog W unit) (path : list Z) (quiet : bool) (fuel : nat) : Prog W bool :=
  in_fd ← call (os_open path O_RDONLY);
  if in_fd <? 0 then
    _ ← when (negb quiet) (_ ← print [as_bytes (name +:+ ": cannot open ")]; println [path]);
    mret false
  else
  tmp_fd ← call (os_open tmp_path (Z.lor (Z.lor O_WRONLY O_CREATE) O_TRUNC));
  if tmp_fd <? 0 then
    _ ← run (os_close in_fd);
    _ ← when (negb quiet) (say (name +:+ ": cannot create temporary file"));
    mret false
  else
  _ ← convert_stream in_fd tmp_fd fuel;
  _ ← run (os_close in_fd);
  _ ← run (os_close tmp_fd);
  copy_in ← call (os_open tmp_path O_RDONLY);
  if copy_in <? 0 then mret false
  else
  copy_out ← call (os_open path (Z.lor O_WRONLY O_TRUNC));
  if copy_out <? 0 then _ ← run (os_close copy_in); mret false
  else
  _ ← copy_back copy_in copy_out fuel;
  _ ← run (os_close copy_in);
  _ ← run (os_close copy_out);
  _ ← run (os_unlink tmp_path);
  _ ← when (negb quiet) (_ ← print [as_bytes (name +:+ ": converted ")]; println [path]);
  mret true.
(* @src userland/apps/src/bin/unix2dos.rs 64-117 convert_file *)
Definition u2d_file : list Z -> bool -> nat -> Prog W bool := convert_file "unix2dos" (as_bytes "/tmp/u2d.tmp") u2d_stream.
(* @src userland/apps/src/bin/dos2unix.rs 78-131 convert_file *)
Definition d2u_file : list Z -> bool -> nat -> Prog W bool := convert_file "dos2unix" (as_bytes "/tmp/d2u.tmp") d2u_stream.

(** The options in front; [None] if the usage was asked for. *)
(* @src userland/apps/src/bin/unix2dos.rs 121-138 main (arguments) *)
Fixpoint dos_args (args : list (list Z)) (quiet : bool) : option (bool * list (list Z)) :=
  match args with
  | [] => Some (quiet, [])
  | s :: rest =>
    if bool_decide (s = as_bytes "-h") || bool_decide (s = as_bytes "--help") then None
    else if bool_decide (s = as_bytes "-q") || bool_decide (s = as_bytes "--quiet") then dos_args rest true
    else Some (quiet, args)
  end.

(* @src userland/apps/src/bin/unix2dos.rs 145-153 main (files) *)
Fixpoint convert_files (convert_stream : Z -> Z -> nat -> Prog W unit) (file : list Z -> bool -> nat -> Prog W bool) (paths : list (list Z)) (quiet all_ok : bool) (fuel : nat) : Prog W bool :=
  match paths with
  | [] => mret all_ok
  | path :: paths =>
    all_ok ← (if bool_decide (path = as_bytes "-") then _ ← convert_stream 0 1 fuel; mret all_ok
              else ok ← file path quiet fuel; mret (if negb ok then false else all_ok) : Prog W bool);
    convert_files convert_stream file paths quiet all_ok fuel
  end.
Definition convert_main (usage : list string) (convert_stream : Z -> Z -> nat -> Prog W unit) (file : list Z -> bool -> nat -> Prog W bool) (args : list (list Z)) (fuel : nat) : Prog W Z :=
  match dos_args args false with
  | None => _ ← print (concat ((fun s => [as_bytes s; [10]]) <$> usage)); mret 0
  | Some (quiet, paths) =>
    if bool_decide (paths = []) || bool_decide (paths = [as_bytes "-"]) then _ ← convert_stream 0 1 fuel; mret 0
    else all_ok ← convert_files convert_stream file paths quiet true fuel; mret (if all_ok : bool then 0 else 1)
  end.
(* @src userland/apps/src/bin/unix2dos.rs 119-160 main *)
Definition unix2dos_main : list (list Z) -> nat -> Prog W Z :=
  convert_main ["Usage: unix2dos [-q] [FILE...]"; "Convert Unix line breaks (LF) to DOS/Windows line breaks (CRLF)";
    "  -q, --quiet  Quiet mode, suppress all warnings and messages"] u2d_stream u2d_file.
(* @src userland/apps/src/bin/dos2unix.rs 133-174 main *)
Definition dos2unix_main : list (list Z) -> nat -> Prog W Z :=
  convert_main ["Usage: dos2unix [-q] [FILE...]"; "Convert DOS/Windows line breaks (CRLF) to Unix line breaks (LF)";
    "  -q, --quiet  Quiet mode, suppress all warnings and messages"] d2u_stream d2u_file.
End Convert.

(** ** What a conversion is *)

(** A newline that no carriage return precedes gets one. *)
Fixpoint to_dos (prev : bool) (l : list Z) : list Z :=
  match l with
  | [] => []
  | b :: l => if b =? 10 then (if prev then [10] else [13; 10]) ++ to_dos false l else b :: to_dos (b =? 13) l
  end.
(** A carriage return with its newline becomes the newline. *)
Fixpoint to_unix (l : list Z) : list Z :=
  match l with
  | [] => []
  | b :: l => match l with c :: l' => if (b =? 13) && (c =? 10) then 10 :: to_unix l' else b :: to_unix l | [] => [b] end
  end.
(** No newline, or every one, is behind a carriage return. *)
Fixpoint breaks (dos prev : bool) (l : list Z) : Prop :=
  match l with [] => True | b :: l => (b = 10 -> prev = dos) /\ breaks dos (b =? 13) l end.

Lemma to_unix_cons b l : b <> 13 -> to_unix (b :: l) = b :: to_unix l.
Proof. intros Hb. cbn. destruct l as [|c l]; [done|]. by rewrite (proj2 (Z.eqb_neq b 13)). Qed.
Lemma to_unix_keep c l : c <> 10 -> to_unix (13 :: c :: l) = 13 :: to_unix (c :: l).
Proof. intros Hc. cbn. by rewrite (proj2 (Z.eqb_neq c 10)). Qed.

Lemma to_dos_breaks l : forall prev, breaks true prev (to_dos prev l).
Proof.
  induction l as [|b l IH]; intros prev; cbn; [done|]. destruct (Z.eqb_spec b 10); [by destruct prev; cbn; split_and!|]. by cbn.
Qed.
(** Text that already has the line breaks of DOS stays. *)
Lemma to_dos_fixed l : forall prev, breaks true prev l -> to_dos prev l = l.
Proof.
  induction l as [|b l IH]; intros prev; cbn; [done|]. intros [Hb H]. destruct (Z.eqb_spec b 10) as [->|]; [rewrite (Hb eq_refl); cbn|]; f_equal; by apply IH.
Qed.
(** What was added is what the way back removes. *)
Lemma unix_dos l : forall prev, breaks false prev l -> to_unix (to_dos prev l) = l /\ (prev = true -> to_unix (13 :: to_dos prev l) = 13 :: l).
Proof.
  induction l as [|b l IH]; intros prev; cbn [breaks to_dos]; [intros _; by split|]. intros [Hb H]. destruct (Z.eqb_spec b 10) as [->|Hne].
  - rewrite (Hb eq_refl) in *. split; [|done]. destruct (IH false H) as [E _]. cbn [app to_unix]. cbn. by rewrite E.
  - destruct (IH _ H) as [E1 E2]. destruct (Z.eqb_spec b 13) as [->|H13].
    + specialize (E2 eq_refl). split; [done|]. intros _. by rewrite to_unix_keep, E2.
    + rewrite to_unix_cons, E1 by done. split; [done|]. intros _. by rewrite to_unix_keep, to_unix_cons, E1.
Qed.

Section Stream.
Context {W : Type} {HO : ShOs W} (left said : Z -> W -> list Z) {HS : Stdio left said} (out_fd : Z).
Implicit Types w : W.

Lemma put_snoc out b : len out < 512 -> put out b = out ++ [b].
Proof. intros H. unfold put. by rewrite (proj2 (Z.ltb_lt _ _) H). Qed.
Lemma wp_flush out (Q : W -> list Z -> Prop) w : len out <= 512 ->
  (forall w' d out', told_at left said out_fd w w' d -> out = d ++ out' -> len out' < 512 -> Q w' out') -> wp (flush out_fd out) Q w.
Proof.
  intros Hl H. unfold flush. destruct (Z.leb_spec 512 (len out)).
  - apply wp_bind, (wp_write_at left said). intros w' Hw. apply wp_ret, (H w' out []); [done|by rewrite app_nil_r|done].
  - apply wp_ret, (H w [] out); [apply told_at_refl|done|done].
Qed.
(** The last piece. *)
Lemma wp_rest out (Q : W -> unit -> Prop) w : (forall w', told_at left said out_fd w w' out -> Q w' tt) -> wp (when (0 <? len out) (run (os_write out_fd out))) Q w.
Proof.
  intros H. apply wp_when; [intros _; by apply (wp_write_at left said)|]. intros Hz. apply Z.ltb_ge in Hz.
  destruct out; [|cbn in Hz; lia]. apply H, told_at_refl.
Qed.

(** [out] holds what is not written yet, and [more] gives the rest of the text. *)
Definition dos_at (whole : list Z -> list Z) (more : bool -> list Z -> list Z) (s : list Z * bool) (c o : list Z) : Prop :=
  len s.1 < 512 /\ forall rest, whole (c ++ rest) = o ++ s.1 ++ more s.2 rest.

(** The end of a step: the byte is in the buffer, which may be full. *)
Lemma dos_step_end whole more out flag c o b w : len out <= 512 -> (forall rest, whole (c ++ b :: rest) = o ++ out ++ more flag rest) ->
  wp (out ← flush out_fd out; mret (out, flag)) (fun w' s' => exists d, told_at left said out_fd w w' d /\ dos_at whole more s' (c ++ [b]) (o ++ d)) w.
Proof.
  intros Hl H. apply wp_bind, wp_flush; [done|]. intros w' d out' Hw -> Hl'. apply wp_ret. exists d. split; [done|]. split; [done|].
  intros rest. cbn [fst snd]. rewrite <- !app_assoc. cbn [app]. by rewrite H, <- app_assoc.
Qed.
Lemma told_first {A} (m : Prog W A) w w1 d1 (R : W -> A -> list Z -> Prop) : told_at left said out_fd w w1 d1 ->
  wp m (fun w' a => exists d, told_at left said out_fd w1 w' d /\ R w' a (d1 ++ d)) w1 -> 
  wp m (fun w' a => exists d, told_at left said out_fd w w' d /\ R w' a d) w1.
Proof. intros T H. eapply wp_mono; [exact H|]. intros w' a (d & T' & HR). exists (d1 ++ d). split; [by eapply told_at_trans|done]. Qed.

Lemma u2d_step s c o b w : is_byte b -> dos_at (to_dos false) to_dos s c o ->
  wp (u2d_byte out_fd s b) (fun w' s' => exists d, told_at left said out_fd w w' d /\ dos_at (to_dos false) to_dos s' (c ++ [b]) (o ++ d)) w.
Proof.
  destruct s as [out prev]. intros _ [Hl H]. cbn [fst snd] in *. unfold u2d_byte. apply wp_bind.
  assert (Hb : forall rest, to_dos false (c ++ b :: rest) = o ++ out ++ to_dos prev (b :: rest)) by (intros; apply H). cbn [to_dos] in Hb.
  destruct (Z.eqb_spec b 10) as [->|Hne].
  - apply wp_bind. destruct prev; cbn [negb].
    + do 2 apply wp_ret. apply dos_step_end; rewrite put_snoc by done; [rewrite length_app; cbn; lia|]. intros rest. by rewrite Hb, <- !app_assoc.
    + rewrite put_snoc by done. apply wp_flush; [rewrite length_app; cbn; lia|]. intros w1 d1 out1 T1 E1 L1. apply wp_ret.
      apply (told_first _ w w1 d1 (fun w' s' d => dos_at _ _ s' _ (o ++ d)) T1). eapply wp_mono; [apply (dos_step_end (to_dos false) to_dos _ _ c (o ++ d1))|].
      * rewrite put_snoc, length_app by done. cbn. lia.
      * intros rest. rewrite put_snoc, Hb by done. rewrite <- !app_assoc. f_equal. rewrite (app_assoc d1), <- E1, <- !app_assoc. done.
      * intros w2 s2 (d & T2 & D2). exists d. by rewrite app_assoc.
  - apply wp_ret, dos_step_end; rewrite put_snoc by done; [rewrite length_app; cbn; lia|]. intros rest. by rewrite Hb, <- !app_assoc.
Qed.

Lemma u2d_stream_spec fd fuel w : bytes_ok (left fd w) -> (length (left fd w) <= fuel)%nat ->
  wp (u2d_stream fd out_fd fuel) (fun w' _ => said out_fd w' = said out_fd w ++ to_dos false (left fd w) /\ left fd w' = []) w.
Proof.
  intros Hok Hf. unfold u2d_stream. apply wp_bind.
  eapply wp_mono; [apply (input_loop_spec left said out_fd (dos_at (to_dos false) to_dos) (u2d_byte out_fd)) with (c := []) (o := []); [intros; by apply u2d_step|lia|done|done|by split]|].
  intros w1 [out flag] (d & E1 & L1 & _ & H). cbn [fst snd] in *. specialize (H []). rewrite !app_nil_r in H. apply wp_rest. intros w2 [E2 L2].
  rewrite E2, E1, L2, <- app_assoc. by cbn [app] in H; rewrite H.
Qed.

Definition unix_more (pending : bool) (rest : list Z) : list Z := to_unix (if pending then 13 :: rest else rest).
Lemma d2u_step s c o b w : is_byte b -> dos_at to_unix unix_more s c o ->
  wp (d2u_byte out_fd s b) (fun w' s' => exists d, told_at left said out_fd w w' d /\ dos_at to_unix unix_more s' (c ++ [b]) (o ++ d)) w.
Proof.
  destruct s as [out pending]. intros _ [Hl H]. cbn [fst snd] in *. unfold d2u_byte. apply wp_bind.
  assert (Hb : forall rest, to_unix (c ++ b :: rest) = o ++ out ++ unix_more pending (b :: rest)) by (intros; apply H). unfold unix_more in Hb.
  assert (Hput : forall rest, b <> 13 -> to_unix (b :: rest) = [b] ++ to_unix rest) by (intros; by apply to_unix_cons).
  destruct pending; [destruct (Z.eqb_spec b 10) as [->|Hne]|].
  - apply wp_ret, dos_step_end; rewrite put_snoc by done; [rewrite length_app; cbn; lia|]. intros rest. by rewrite Hb, <- !app_assoc.
  - apply wp_bind. rewrite put_snoc by done. apply wp_flush; [rewrite length_app; cbn; lia|]. intros w1 d1 out1 T1 E1 L1. apply wp_ret.
    assert (Hb' : forall rest, to_unix (c ++ b :: rest) = (o ++ d1) ++ out1 ++ to_unix (b :: rest)).
    { intros rest. rewrite Hb, to_unix_keep by done. rewrite <- !app_assoc. f_equal. rewrite (app_assoc d1), <- E1, <- !app_assoc. done. }
    apply (told_first _ w w1 d1 (fun w' s' d => dos_at _ _ s' _ (o ++ d)) T1).
    assert (Hend : forall s, len s.1 <= 512 -> (forall rest, to_unix (c ++ b :: rest) = (o ++ d1) ++ s.1 ++ unix_more s.2 rest) ->
      wp (let '(out, flag) := s in out ← flush out_fd out; mret (out, flag)) (fun w' s' => exists d, told_at left said out_fd w1 w' d /\ dos_at to_unix unix_more s' (c ++ [b]) (o ++ d1 ++ d)) w1).
    { intros [out2 flag] Hl2 H2. eapply wp_mono; [by apply (dos_step_end to_unix unix_more out2 flag c (o ++ d1) b)|]. intros w2 s2 (d & T2 & D2). exists d. by rewrite app_assoc. }
    apply Hend; destruct (Z.eqb_spec b 13) as [->|H13]; cbn [fst snd]; [lia|rewrite put_snoc, length_app by done; cbn; lia| |].
    + intros rest. by rewrite Hb'.
    + intros rest. rewrite put_snoc, Hb', Hput, <- !app_assoc by done. done.
  - apply wp_ret. destruct (Z.eqb_spec b 13) as [->|H13]; apply dos_step_end; [lia| |rewrite put_snoc, length_app by done; cbn; lia|].
    + intros rest. by rewrite Hb.
    + intros rest. rewrite put_snoc, Hb, Hput, <- !app_assoc by done. done.
Qed.

Lemma d2u_stream_spec fd fuel w : bytes_ok (left fd w) -> (length (left fd w) <= fuel)%nat ->
  wp (d2u_stream fd out_fd fuel) (fun w' _ => said out_fd w' = said out_fd w ++ to_unix (left fd w) /\ left fd w' = []) w.
Proof.
  intros Hok Hf. unfold d2u_stream. apply wp_bind.
  eapply wp_mono; [apply (input_loop_spec left said out_fd (dos_at to_unix unix_more) (d2u_byte out_fd)) with (c := []) (o := []); [intros; by apply d2u_step|lia|done|done|by split]|].
  intros w1 [out flag] (d & E1 & L1 & Hl & H). cbn [fst snd app] in *. specialize (H []). rewrite !app_nil_r in H. cbn zeta. apply wp_rest. intros w2 [E2 L2].
  rewrite E2, E1, L2, <- app_assoc. split; [|done]. do 2 f_equal. rewrite H. f_equal. destruct flag; [by rewrite put_snoc|by rewrite app_nil_r].
Qed.
End Stream.

Section Shown.
Context {W : Type} {HO : ShOs W} (left said : Z -> W -> list Z) {HS : Stdio left said} (os_unlink : list Z -> W -> W * Z).

(** [unix2dos] writes text in which every newline is behind a carriage return; text that
    was like that already stays as it is, and what had no carriage return before a newline
    is what [dos2unix] makes of the output again. *)
Theorem dos_roundtrip fuel w : bytes_ok (left 0 w) -> (length (left 0 w) <= fuel)%nat ->
  exists w' d, unix2dos_main os_unlink [] fuel w = Done (w', 0) /\ said 1 w' = said 1 w ++ d /\ breaks true false d /\
    (breaks true false (left 0 w) -> d = left 0 w) /\
    (breaks false false (left 0 w) -> forall fuel2 w2, left 0 w2 = d -> (length d <= fuel2)%nat ->
      exists w2', dos2unix_main os_unlink [] fuel2 w2 = Done (w2', 0) /\ said 1 w2' = said 1 w2 ++ left 0 w).
Proof.
  intros Hok Hf. destruct (u2d_stream_spec left said 1 0 fuel w Hok Hf) as (w' & [] & E & [Ed _]). exists w', (to_dos false (left 0 w)).
  split; [unfold unix2dos_main, convert_main, mbind, Prog_bind; cbn; by rewrite E|]. split; [done|]. split; [apply to_dos_breaks|]. split; [apply to_dos_fixed|].
  intros Hb fuel2 w2 El Hf2. destruct (d2u_stream_spec left said 1 0 fuel2 w2) as (w2' & [] & E2 & [Ed2 _]); [|by rewrite El|].
  - rewrite El. clear -Hok. revert Hok. generalize (left 0 w), false. intros l. induction l as [|b l IH]; intros p Hl; cbn [to_dos]; [done|].
    apply Forall_cons in Hl as [Hx Hl]. destruct (b =? 10); [apply Forall_app; split; [destruct p; by repeat constructor|]|apply Forall_cons; split; [done|]]; by apply IH.
  - exists w2'. split; [unfold dos2unix_main, convert_main, mbind, Prog_bind; cbn; by rewrite E2|]. rewrite Ed2, El. by rewrite (proj1 (unix_dos _ _ Hb)).
Qed.
End Shown.

(** ** Files

    What the conversion of a file asks of the system: [files] are the contents by name,
    [dest] is the file that writes to a descriptor go to. *)
Class Files {W : Type} {HO : ShOs W} (left said : Z -> W -> list Z) (os_unlink : list Z -> W -> W * Z)
  (files : W -> gmap (list Z) (list Z)) (dest : Z -> W -> option (list Z)) (opened : Z -> W -> Prop) := {
  fi_stdio :: Stdio left said;
  fi_open p m w : let '(w', fd) := os_open p m w in
    (forall i, opened i w -> left i w' = left i w /\ dest i w' = dest i w /\ opened i w') /\
    (fd < 0 -> files w' = files w) /\ (0 <= fd -> ~ opened fd w /\ opened fd w');
  fi_open_read p w : let '(w', fd) := os_open p O_RDONLY w in 0 <= fd -> files w' = files w /\ files w !! p = Some (left fd w') /\ dest fd w' = None;
  fi_open_write p m w : m = Z.lor O_WRONLY O_TRUNC \/ m = Z.lor (Z.lor O_WRONLY O_CREATE) O_TRUNC ->
    let '(w', fd) := os_open p m w in 0 <= fd -> files w' = <[p := []]> (files w) /\ dest fd w' = Some p;
  fi_read fd n w : let w' := (os_read fd n w).1 in files w' = files w /\ (forall i, dest i w' = dest i w /\ (opened i w -> opened i w') /\ (i <> fd -> left i w' = left i w));
  fi_write fd d w : let w' := (os_write fd d w).1 in
    files w' = match dest fd w with Some p => alter (.++ d) p (files w) | None => files w end /\ (forall i, dest i w' = dest i w /\ (opened i w -> opened i w'));
  fi_close fd w : let w' := (os_close fd w).1 in files w' = files w /\ (forall i, i <> fd -> left i w' = left i w /\ dest i w' = dest i w /\ (opened i w -> opened i w'));
  fi_unlink p w : let '(w', r) := os_unlink p w in files w' = (if r =? 0 then delete p (files w) else files w) /\ (forall i, dest i w' = dest i w /\ (opened i w -> opened i w'));
}.

(** Every step of a program keeps to a preorder. *)
Definition within {W A} (R : W -> W -> Prop) (m : Prog W A) : Prop := forall w w' a, m w = Done (w', a) -> R w w'.
Section within.
Context {W : Type} {HO : ShOs W} (R : W -> W -> Prop) {HR : PreOrder R}.
Lemma within_ret {A} (a : A) : within R (mret a).
Proof. intros w w' b [= <- _]. reflexivity. Qed.
Lemma within_bind {A B} (m : Prog W A) (f : A -> Prog W B) : within R m -> (forall a, within R (f a)) -> within R (m ≫= f).
Proof. intros Hm Hf w w' b E. unfold mbind, Prog_bind in E. destruct (m w) as [[w1 a]| |] eqn:Em; try done. transitivity w1; [by eapply Hm|by eapply Hf]. Qed.
Lemma within_run {A} (f : W -> W * A) : (forall w, R w (f w).1) -> within R (run f).
Proof. intros H w w' a [= <- _]. apply H. Qed.
Lemma within_call {A} (f : W -> W * A) : (forall w, R w (f w).1) -> within R (call f).
Proof. intros H w w' a [= E]. specialize (H w). by rewrite E in H. Qed.
Lemma within_pure {A} (o : option A) : within R (pure o).
Proof. intros w w' a. unfold pure. destruct o; [|done]. intros [= <- _]. reflexivity. Qed.
Lemma within_when b (m : Prog W unit) : within R m -> within R (when b m).
Proof. intros H. destruct b; [done|apply within_ret]. Qed.
Lemma within_loop {S} fd cap (f : S -> Z -> Prog W S) fuel : (forall w, R w (os_read fd cap w).1) -> (forall s b, within R (f s b)) ->
  forall s, within R (input_loop fd cap f s fuel).
Proof.
  intros Hr Hf. assert (Hl : forall l s, within R (for_bytes f s l)).
  { induction l as [|b l IH]; intros s; cbn [for_bytes]; [apply within_ret|]. apply within_bind; [apply Hf|done]. }
  induction fuel as [|fuel IH]; intros s; cbn [input_loop]; (apply within_bind; [by apply within_call|]); intros [n data];
    (destruct (n <=? 0); [apply within_ret|]); (apply within_bind; [apply within_pure|]); intros d; (apply within_bind; [apply Hl|]); intros s'; [by intros ? ? ?|apply IH].
Qed.
Lemma within_flush out_fd out : (forall d w, R w (os_write out_fd d w).1) -> within R (flush out_fd out).
Proof. intros H. unfold flush. destruct (512 <=? len out); [|apply within_ret]. apply within_bind; [by apply within_run|]. intros _. apply within_ret. Qed.
Lemma within_u2d in_fd out_fd fuel : (forall w, R w (os_read in_fd 512 w).1) -> (forall d w, R w (os_write out_fd d w).1) -> within R (u2d_stream in_fd out_fd fuel).
Proof.
  intros Hr Hw. unfold u2d_stream. apply within_bind; [|intros [out p]; apply within_when; by apply within_run]. apply within_loop; [done|]. intros [out p] b. unfold u2d_byte.
  apply within_bind; [|intros [out' p']; apply within_bind; [by apply within_flush|]; intros ?; apply within_ret]. destruct (b =? 10); [|apply within_ret].
  apply within_bind; [destruct (negb p); [by apply within_flush|apply within_ret]|]. intros ?. apply within_ret.
Qed.
Lemma within_d2u in_fd out_fd fuel : (forall w, R w (os_read in_fd 512 w).1) -> (forall d w, R w (os_write out_fd d w).1) -> within R (d2u_stream in_fd out_fd fuel).
Proof.
  intros Hr Hw. unfold d2u_stream. apply within_bind; [|intros [out p]; apply within_when; by apply within_run]. apply within_loop; [done|]. intros [out p] b. unfold d2u_byte.
  apply within_bind; [|intros [out' p']; apply within_bind; [by apply within_flush|]; intros ?; apply within_ret]. destruct p; [|apply within_ret].
  destruct (b =? 10); [apply within_ret|]. apply within_bind; [by apply within_flush|]. intros ?. apply within_ret.
Qed.
End within.

Section Files.
Context {W : Type} {HO : ShOs W} (left said : Z -> W -> list Z) (os_unlink : list Z -> W -> W * Z)
  (files : W -> gmap (list Z) (list Z)) (dest : Z -> W -> option (list Z)) (opened : Z -> W -> Prop) {HF : Files left said os_unlink files dest opened}.
Implicit Types w : W.

(** What is written to a descriptor goes to its file. *)
Definition written (fd : Z) w (d : list Z) : gmap (list Z) (list Z) := match dest fd w with Some p => alter (.++ d) p (files w) | None => files w end.
Lemma alter_app (p d1 d2 : list Z) (m : gmap (list Z) (list Z)) : alter (.++ d2) p (alter (.++ d1) p m) = alter (.++ (d1 ++ d2)) p m.
Proof.
  apply map_eq. intros q. destruct (decide (q = p)) as [->|]; [|by rewrite !lookup_alter_ne]. rewrite !lookup_alter_eq.
  destruct (m !! p); cbn; [by rewrite app_assoc|done].
Qed.
Lemma written_nil fd w : written fd w [] = files w.
Proof.
  unfold written. destruct (dest fd w) as [p|]; [|done]. apply map_eq. intros q. destruct (decide (q = p)) as [->|]; [|by rewrite lookup_alter_ne].
  rewrite lookup_alter_eq. destruct (files w !! p); cbn; [by rewrite app_nil_r|done].
Qed.
(** Reading [i] and writing to [o], what was written being in the file. *)
Definition moved (i o : Z) w w' : Prop :=
  (forall k, dest k w' = dest k w /\ (opened k w -> opened k w') /\ (k <> i -> left k w' = left k w)) /\
  exists d, said o w' = said o w ++ d /\ files w' = written o w d.

#[export] Instance moved_preorder i o : PreOrder (moved i o).
Proof.
  split.
  - intros w. split; [done|]. exists []. rewrite app_nil_r. split; [done|]. by rewrite written_nil.
  - intros w1 w2 w3 [K1 (d1 & S1 & F1)] [K2 (d2 & S2 & F2)]. split.
    + intros k. destruct (K1 k) as (A1 & B1 & C1), (K2 k) as (A2 & B2 & C2). split; [by rewrite A2|]. split; [auto|]. intros Hk. by rewrite C2, C1.
    + exists (d1 ++ d2). split; [by rewrite S2, S1, app_assoc|]. rewrite F2. unfold written in *. rewrite (proj1 (K1 o)), F1. destruct (dest o w1) as [p|]; [|done].
      apply alter_app.
Qed.
Lemma moved_read i o n w : 0 < n -> moved i o w (os_read i n w).1.
Proof.
  intros Hn. destruct (fi_read i n w) as [F K]. pose proof (si_read i n w Hn) as H. destruct (os_read i n w) as [w1 [r d]]. destruct H as (_ & _ & _ & _ & S). cbn in *.
  split; [done|]. exists []. rewrite app_nil_r. split; [done|]. by rewrite F, written_nil.
Qed.
Lemma moved_write i o d w : moved i o w (os_write o d w).1.
Proof.
  destruct (fi_write o d w) as [F K]. destruct (si_write o d w) as (S & _ & L). split; [|by exists d]. intros k. destruct (K k) as [A B]. split_and!; [done|done|]. intros _. apply L.
Qed.

Lemma copy_back_spec i o p fuel : forall w, i <> o -> dest o w = Some p -> (length (left i w) <= fuel)%nat ->
  wp (copy_back i o fuel) (fun w' _ => files w' = alter (.++ left i w) p (files w) /\ (forall k, dest k w' = dest k w /\ (opened k w -> opened k w'))) w.
Proof.
  induction fuel as [|fuel IH]; intros w Hio Hp Hf; cbn [copy_back]; apply wp_bind, wp_call.
  all: pose proof (si_read i 512 w ltac:(lia)) as Hr; destruct (moved_read i o 512 w ltac:(lia)) as [K (d0 & _ & F)].
  all: destruct (fi_read i 512 w) as [F1 _]; clear d0 F; destruct (os_read i 512 w) as [w1 [r d]]; destruct Hr as (-> & Hd & E & Hend & _); cbn [fst snd] in *.
  all: destruct (Z.leb_spec (len d) 0) as [Hz|Hz]; [destruct d; [|cbn in Hz; lia]; apply wp_ret; rewrite (Hend eq_refl);
    pose proof (written_nil o w) as Hn; unfold written in Hn; rewrite Hp in Hn; rewrite Hn; split; [done|intros k; destruct (K k) as (? & ? & _); by split]|].
  1: exfalso; rewrite E, length_app in Hf; lia.
  apply wp_bind. eapply wp_pure; [by apply read_piece|]. apply wp_bind, wp_run. destruct (fi_write o d w1) as [F2 K2]. destruct (si_write o d w1) as (_ & _ & L2).
  destruct (K o) as (Do & _ & _). rewrite Do, Hp, F1 in F2. eapply wp_mono; [apply (IH (os_write o d w1).1 Hio)|].
  - by rewrite (proj1 (K2 o)), Do.
  - rewrite L2. rewrite E, length_app in Hf. lia.
  - intros w3 _ [F3 K3]. rewrite F3, F2, L2, alter_app, <- E. split; [done|]. intros k. destruct (K k) as (A1 & B1 & _), (K2 k) as (A2 & B2), (K3 k) as (A3 & B3).
    split; [by rewrite A3, A2|auto].
Qed.

(** A stream that converts, and keeps to its two descriptors. *)
Definition converts (conv : list Z -> list Z) (stream : Z -> Z -> nat -> Prog W unit) : Prop := forall i o fuel,
  (forall w, bytes_ok (left i w) -> (length (left i w) <= fuel)%nat -> wp (stream i o fuel) (fun w' _ => said o w' = said o w ++ conv (left i w)) w) /\
  within (moved i o) (stream i o fuel).
Lemma u2d_converts : converts (to_dos false) u2d_stream.
Proof.
  intros i o fuel. split.
  - intros w Hok Hf. eapply wp_mono; [by apply (u2d_stream_spec left said)|]. by intros w' _ [H _].
  - apply within_u2d; [apply _|intros w; by apply moved_read|apply moved_write].
Qed.
Lemma d2u_converts : converts to_unix d2u_stream.
Proof.
  intros i o fuel. split.
  - intros w Hok Hf. eapply wp_mono; [by apply (d2u_stream_spec left said)|]. by intros w' _ [H _].
  - apply within_d2u; [apply _|intros w; by apply moved_read|apply moved_write].
Qed.
Lemma stream_file conv stream i o p fuel w : converts conv stream -> dest o w = Some p -> bytes_ok (left i w) -> (length (left i w) <= fuel)%nat ->
  wp (stream i o fuel) (fun w' _ => files w' = alter (.++ conv (left i w)) p (files w) /\ (forall k, dest k w' = dest k w /\ (opened k w -> opened k w'))) w.
Proof.
  intros Hc Hp Hok Hf. destruct (Hc i o fuel) as [H1 H2]. destruct (H1 w Hok Hf) as (w' & [] & E & Es). exists w', tt. split; [done|].
  destruct (H2 _ _ _ E) as [K (d & Ed & F)]. rewrite Es in Ed. apply app_inv_head in Ed as <-. unfold written in F. rewrite Hp in F. split; [done|].
  intros k. destruct (K k) as (? & ? & _). by split.
Qed.

(** The standard output is open, and is no file. *)
Definition terminal w : Prop := dest 1 w = None /\ opened 1 w.
Lemma terminal_print pieces w : terminal w -> wp (print pieces) (fun w' _ => files w' = files w) w.
Proof.
  revert w. induction pieces as [|d pieces IH]; intros w Ht; cbn [print]; [by apply wp_ret|]. apply wp_bind, wp_call. destruct Ht as [D O].
  destruct (fi_write 1 d w) as [F K]. rewrite D in F. destruct (K 1) as [A B]. eapply wp_mono; [apply IH; split; [by rewrite A|by apply B]|]. intros w2 [] E2. by rewrite E2, F.
Qed.
Lemma terminal_close fd w : terminal w -> fd <> 1 -> terminal (os_close fd w).1 /\ files (os_close fd w).1 = files w.
Proof. intros [D O] Hn. destruct (fi_close fd w) as [F K]. destruct (K 1 ltac:(done)) as (_ & A & B). split; [split; [by rewrite A|by apply B]|done]. Qed.
Lemma terminal_keep w w' : (forall k, dest k w' = dest k w /\ (opened k w -> opened k w')) -> terminal w -> terminal w'.
Proof. intros K [D O]. destruct (K 1) as [A B]. split; [by rewrite A|by apply B]. Qed.
Lemma terminal_open p m w : terminal w -> terminal (os_open p m w).1 /\ (os_open p m w).2 <> 1.
Proof.
  intros [D O]. pose proof (fi_open p m w) as H. destruct (os_open p m w) as [w1 fd]. destruct H as (K & _ & N). destruct (K 1 O) as (_ & A & B). cbn. split.
  - split; [by rewrite A|done].
  - intros ->. by destruct (N ltac:(lia)) as [N' _].
Qed.
Lemma terminal_say w b m (Q : W -> unit -> Prop) : (terminal w -> wp m (fun w' _ => files w' = files w) w) -> terminal w ->
  (forall w', files w' = files w -> Q w' tt) -> wp (when b m) Q w.
Proof. intros Hm Ht HQ. apply wp_when; [|intros _; by apply HQ]. intros _. eapply wp_mono; [by apply Hm|]. intros w' [] E. by apply HQ. Qed.
Lemma terminal_prints p1 p2 w : terminal w -> wp (_ ← print p1; println p2) (fun w' _ => files w' = files w) w.
Proof.
  intros Ht. assert (E : (_ ← print p1; println p2) w = print (p1 ++ p2 ++ [[10]]) w).
  { clear Ht. revert w. induction p1 as [|d p1 IH]; intros w; [done|]. cbn [print app]. unfold mbind, Prog_bind, call in *. destruct (os_write 1 d w) as [w1 r]. apply IH. }
  destruct (terminal_print (p1 ++ p2 ++ [[10]]) w Ht) as (w' & a & E' & H). exists w', a. split; [|done]. by rewrite E.
Qed.

(** What a conversion that ends with [ok] leaves of the files of [w]. *)
Definition converted (conv : list Z -> list Z) (tmp path : list Z) w w' (ok : bool) : Prop :=
  (forall q, q <> tmp -> q <> path -> files w' !! q = files w !! q) /\
  if ok then exists t, files w !! path = Some t /\ files w' !! path = Some (conv t) else files w' !! path = files w !! path.

(** The second half: the temporary file holds the conversion of [t]. *)
Lemma convert_back conv tmp path quiet p1 t fuel w w4 : path <> tmp -> terminal w4 -> files w !! path = Some t -> (length (conv t) <= fuel)%nat ->
  files w4 = <[tmp := conv t]> (files w) ->
  wp (copy_in ← call (os_open tmp O_RDONLY);
    if copy_in <? 0 then mret false
    else
    copy_out ← call (os_open path (Z.lor O_WRONLY O_TRUNC));
    if copy_out <? 0 then _ ← run (os_close copy_in); mret false
    else
    _ ← copy_back copy_in copy_out fuel;
    _ ← run (os_close copy_in);
    _ ← run (os_close copy_out);
    _ ← run (os_unlink tmp);
    _ ← when (negb quiet) (_ ← print p1; println [path]);
    mret true) (converted conv tmp path w) w4.
Proof.
  intros Hne Ht Hp Hf F4. assert (Hsame : forall w', files w' = files w4 -> converted conv tmp path w w' false).
  { intros w' E. unfold converted. rewrite E, F4. split; [intros q Hq _|]; by rewrite lookup_insert_ne by done. }
  apply wp_bind, wp_call. pose proof (fi_open tmp O_RDONLY w4) as H1. pose proof (fi_open_read tmp w4) as H2. destruct (terminal_open tmp O_RDONLY w4 Ht) as [T5 N5].
  destruct (os_open tmp O_RDONLY w4) as [w5 i]. destruct H1 as (_ & B5 & C5). cbn [fst snd] in *.
  destruct (Z.ltb_spec i 0) as [Hi|Hi]; [apply wp_ret; by apply Hsame, B5|]. destruct (H2 Hi) as (F5 & L5 & _). destruct (C5 Hi) as [_ O5]. rewrite F4, lookup_insert_eq in L5. injection L5 as L5.
  apply wp_bind, wp_call. set (mode := Z.lor O_WRONLY O_TRUNC). pose proof (fi_open path mode w5) as H1. pose proof (fi_open_write path mode w5 (or_introl eq_refl)) as H3.
  destruct (terminal_open path mode w5 T5) as [T6 N6]. destruct (os_open path mode w5) as [w6 o]. destruct H1 as (K6 & B6 & C6). cbn [fst snd] in *. destruct (K6 i O5) as (L6 & _ & _).
  destruct (Z.ltb_spec o 0) as [Ho|Ho]; [apply wp_bind, wp_run, wp_ret, Hsame; rewrite (proj2 (terminal_close i w6 T6 N5)), B6, F5; done|].
  destruct (H3 Ho) as (F6 & D6). destruct (C6 Ho) as [Nio _]. apply wp_bind. eapply wp_mono; [apply (copy_back_spec i o path); [by intros ->|done|rewrite L6, <- L5; done]|].
  intros w7 [] [F7 K7]. pose proof (terminal_keep _ _ K7 T6) as T7. rewrite L6, <- L5, F6, F5, F4 in F7.
  apply wp_bind, wp_run. destruct (terminal_close i w7 T7 N5) as [T8 F8]. apply wp_bind, wp_run. destruct (terminal_close o _ T8 N6) as [T9 F9].
  set (w9 := (os_close o (os_close i w7).1).1) in *. apply wp_bind, wp_run. pose proof (fi_unlink tmp w9) as H4. destruct (os_unlink tmp w9) as [w10 r]. destruct H4 as [F10 K10].
  cbn [fst]. apply wp_bind, (terminal_say w10); [apply terminal_prints|by eapply terminal_keep|]. intros w11 F11. apply wp_ret.
  assert (Hrest : forall q, q <> tmp -> files w11 !! q = files w7 !! q).
  { intros q Hq. rewrite F11, F10, F9, F8. destruct (r =? 0); [by rewrite lookup_delete_ne|done]. }
  split.
  - intros q Hq Hqp. rewrite Hrest, F7, lookup_alter_ne, lookup_insert_ne, lookup_insert_ne by done. done.
  - exists t. split; [done|]. rewrite Hrest, F7, lookup_alter_eq, lookup_insert_eq by done. done.
Qed.

Lemma convert_file_spec name tmp conv stream path quiet fuel w : converts conv stream -> path <> tmp -> terminal w ->
  (forall t, files w !! path = Some t -> bytes_ok t /\ (length t <= fuel)%nat /\ (length (conv t) <= fuel)%nat) ->
  wp (convert_file os_unlink name tmp stream path quiet fuel) (converted conv tmp path w) w.
Proof.
  intros Hc Hne Ht Htext. assert (Hsame : forall w', (forall q, q <> tmp -> files w' !! q = files w !! q) -> converted conv tmp path w w' false) by (intros w' H; split; auto).
  unfold convert_file. apply wp_bind, wp_call. pose proof (fi_open path O_RDONLY w) as H1. pose proof (fi_open_read path w) as H2. destruct (terminal_open path O_RDONLY w Ht) as [T1 N1].
  destruct (os_open path O_RDONLY w) as [w1 i]. destruct H1 as (_ & B1 & C1). cbn [fst snd] in *.
  destruct (Z.ltb_spec i 0) as [Hi|Hi].
  { apply wp_bind, (terminal_say w1); [apply terminal_prints|done|]. intros w2 E. apply wp_ret, Hsame. intros q _. by rewrite E, B1. }
  destruct (H2 Hi) as (F1 & L1 & _). destruct (C1 Hi) as [_ O1]. destruct (Htext _ L1) as (Hok & Hf1 & Hf2).
  apply wp_bind, wp_call. set (mode := Z.lor (Z.lor O_WRONLY O_CREATE) O_TRUNC). pose proof (fi_open tmp mode w1) as H1. pose proof (fi_open_write tmp mode w1 (or_intror eq_refl)) as H3.
  destruct (terminal_open tmp mode w1 T1) as [T2 N2]. destruct (os_open tmp mode w1) as [w2 o]. destruct H1 as (K2 & B2 & C2). cbn [fst snd] in *. destruct (K2 i O1) as (L2 & _ & _).
  destruct (Z.ltb_spec o 0) as [Ho|Ho].
  { apply wp_bind, wp_run. destruct (terminal_close i w2 T2 N1) as [T3 F3]. apply wp_bind, (terminal_say (os_close i w2).1); [apply (terminal_prints [])|done|].
    intros w4 E. apply wp_ret, Hsame. intros q _. by rewrite E, F3, B2, F1. }
  destruct (H3 Ho) as (F2 & D2). apply wp_bind. eapply wp_mono; [apply (stream_file conv stream i o tmp fuel w2 Hc D2); by rewrite L2|].
  intros w3 [] [F3 K3]. pose proof (terminal_keep _ _ K3 T2) as T3. apply wp_bind, wp_run. destruct (terminal_close i w3 T3 N1) as [T4 F4].
  apply wp_bind, wp_run. destruct (terminal_close o _ T4 N2) as [T5 F5]. apply (convert_back conv tmp path quiet _ (left i w1) fuel w); [done..|].
  rewrite F5, F4, F3, F2, L2, F1. apply map_eq. intros q. destruct (decide (q = tmp)) as [->|]; [by rewrite lookup_alter_eq, !lookup_insert_eq|by rewrite lookup_alter_ne, !lookup_insert_ne].
Qed.

(** A file that is converted holds the converted text; one that is not is as it was; and
    no other file but the temporary one changes. *)
Theorem dos_files_correct path quiet fuel w : terminal w -> path <> as_bytes "/tmp/u2d.tmp" -> path <> as_bytes "/tmp/d2u.tmp" ->
  (forall t, files w !! path = Some t -> bytes_ok t /\ (2 * length t <= fuel)%nat) ->
  (exists w' ok, u2d_file os_unlink path quiet fuel w = Done (w', ok) /\ converted (to_dos false) (as_bytes "/tmp/u2d.tmp") path w w' ok) /\
  (exists w' ok, d2u_file os_unlink path quiet fuel w = Done (w', ok) /\ converted to_unix (as_bytes "/tmp/d2u.tmp") path w w' ok).
Proof.
  intros Ht H1 H2 Hf. split; apply convert_file_spec; try done; [apply u2d_converts| |apply d2u_converts|]; intros t Et; destruct (Hf t Et) as [Hok Hl]; (split; [done|]); split; [lia| |lia|].
  - enough (forall p, (length (to_dos p t) <= 2 * length t)%nat) by (specialize (H false); lia). clear. induction t as [|b t IH]; intros p; cbn [to_dos length]; [lia|].
    destruct (b =? 10); [rewrite length_app; specialize (IH false); destruct p; cbn [length]; lia|cbn [length]; specialize (IH (b =? 13)); lia].
  - enough (length (to_unix t) <= length t)%nat by lia. clear. induction t as [[|b [|c t]] IH] using (induction_ltof1 _ (@length Z)); unfold ltof in IH; [done|done|].
    cbn [to_unix]. destruct ((b =? 13) && (c =? 10)); cbn [length]; [pose proof (IH t ltac:(cbn; lia)); lia|pose proof (IH (c :: t) ltac:(cbn; lia)) as H; cbn [length] in H; exact (le_n_S _ _ H)].
Qed.
End Files.

(** ** A small system with files

    Descriptors are not given out twice.  With [full] the files take no byte. *)

Record Store : Type := { st_files : gmap (list Z) (list Z); st_left : gmap Z (list Z); st_dest : gmap Z (list Z); st_said : gmap Z (list Z); st_next : Z }.
Definition store_left (fd : Z) (w : Store) : list Z := default [] (st_left w !! fd).
Definition store_said (fd : Z) (w : Store) : list Z := default [] (st_said w !! fd).
Definition store_dest (fd : Z) (w : Store) : option (list Z) := st_dest w !! fd.
Definition store_opened (fd : Z) (w : Store) : Prop := fd < st_next w.

Definition store_open (p : list Z) (m : Z) (w : Store) : Store * Z :=
  let fd := Z.max 0 (st_next w) in
  if m =? O_RDONLY then
    match st_files w !! p with
    | Some t => ({| st_files := st_files w; st_left := <[fd := t]> (st_left w); st_dest := delete fd (st_dest w); st_said := st_said w; st_next := fd + 1 |}, fd)
    | None => (w, -2)
    end
  else if bool_decide (st_files w !! p = None) && (Z.land m O_CREATE =? 0) then (w, -2)
  else ({| st_files := <[p := []]> (st_files w); st_left := delete fd (st_left w); st_dest := <[fd := p]> (st_dest w); st_said := st_said w; st_next := fd + 1 |}, fd).
Definition store_unlink (p : list Z) (w : Store) : Store * Z :=
  ({| st_files := delete p (st_files w); st_left := st_left w; st_dest := st_dest w; st_said := st_said w; st_next := st_next w |}, 0).
Definition store_os (full : bool) : ShOs Store := {|
  os_open := store_open;
  os_close _ w := (w, 0);
  os_dup2 _ _ w := (w, -9);
  os_pipe w := (w, (-24, (0, 0)));
  os_spawn _ _ w := (w, -2);
  os_waitpid _ w := (w, -10);
  os_read fd n w := let d := take (Z.to_nat n) (store_left fd w) in
    ({| st_files := st_files w; st_left := <[fd := drop (Z.to_nat n) (store_left fd w)]> (st_left w); st_dest := st_dest w; st_said := st_said w; st_next := st_next w |}, (len d, d));
  os_write fd d w :=
    ({| st_files := match st_dest w !! fd with Some p => if full then st_files w else alter (.++ d) p (st_files w) | None => st_files w end;
        st_left := st_left w; st_dest := st_dest w; st_said := <[fd := store_said fd w ++ d]> (st_said w); st_next := st_next w |},
     match st_dest w !! fd with Some _ => if full then -28 else len d | None => len d end);
  os_readdir _ _ w := (w, (0, []));
  os_chdir _ w := (w, 0);
  os_getcwd _ w := (w, (0, []));
  os_uptime w := (w, 0);
  os_yield w := w;
|}.

#[export] Instance store_stdio : @Stdio Store (store_os false) store_left store_said.
Proof.
  split.
  - intros fd n w Hn. cbn. split; [done|]. split; [rewrite length_take; lia|]. unfold store_left. cbn. rewrite lookup_insert_eq. cbn. split; [by rewrite take_drop|].
    split; [|done]. destruct (default [] (st_left w !! fd)) as [|x l]; [done|]. destruct (Z.to_nat n) eqn:E; [lia|done].
  - intros fd d w. cbn. unfold store_said. cbn. rewrite lookup_insert_eq. split; [done|]. split; [|done]. intros o Ho. by rewrite lookup_insert_ne.
  - done.
Qed.
#[export] Instance store_fs : @Files Store (store_os false) store_left store_said store_unlink st_files store_dest store_opened.
Proof.
  split; [apply _|..].
  - intros p m w. cbn. unfold store_open, store_opened, store_left, store_dest.
    destruct (m =? O_RDONLY); [destruct (st_files w !! p)|destruct (bool_decide _ && _)]; cbn; (split; [|split; [done || lia|lia]]); intros i Hi; (split; [|split; [|lia]]);
      rewrite ?lookup_insert_ne, ?lookup_delete_ne by lia; done.
  - intros p w. cbn. unfold store_open, store_left, store_dest. cbn. destruct (st_files w !! p); cbn; [|lia]. intros _. by rewrite lookup_insert_eq, lookup_delete_eq.
  - intros p m w Hm. cbn. unfold store_open, store_dest. assert ((m =? O_RDONLY) = false) as -> by (destruct Hm as [-> | ->]; reflexivity).
    destruct (bool_decide _ && _); cbn; [lia|]. by rewrite lookup_insert_eq.
  - intros fd n w. cbn. split; [done|]. intros i. split; [done|]. split; [done|]. intros Hi. unfold store_left. cbn. by rewrite lookup_insert_ne.
  - intros fd d w. cbn. done.
  - intros fd w. cbn. done.
  - intros p w. cbn. done.
Qed.

Definition store (fs : gmap (list Z) (list Z)) : Store := {| st_files := fs; st_left := ∅; st_dest := ∅; st_said := ∅; st_next := 3 |}.
Definition note : list Z := as_bytes "/home/note".
(** A full file system: the original is cut to nothing, and the program says it has
    converted it. *)
Example convert_loses : match @u2d_file Store (store_os true) store_unlink note true 10 (store {[ note := [97; 10; 98] ]}) with
  | Done (w, ok) => ok = true /\ st_files w !! note = Some [] | _ => False end.
Proof. vm_compute. by split. Qed.

Lemma dos_files_correct_witness : exists w' ok, @u2d_file Store (store_os false) store_unlink note true 10 (store {[ note := [97; 10; 98] ]}) = Done (w', ok) /\
  converted st_files (to_dos false) (as_bytes "/tmp/u2d.tmp") note (store {[ note := [97; 10; 98] ]}) w' ok.
Proof.
  destruct (@dos_files_correct Store (store_os false) store_left store_said store_unlink st_files store_dest store_opened store_fs note true 10 (store {[ note := [97; 10; 98] ]})) as [H _].
  - split; [reflexivity|]. unfold store_opened. cbn. lia.
  - discriminate.
  - discriminate.
  - intros t. change (st_files _) with ({[ note := [97; 10; 98] ]} : gmap (list Z) (list Z)). rewrite lookup_singleton_eq. intros [= <-]. split; [by repeat constructor|cbn; lia].
  - exact H.
Defined.
Lemma dos_roundtrip_witness : exists w' d, unix2dos_main (fun _ w => (w, 0)) [] 9 (desk (as_bytes "one
two
")) = Done (w', 0) /\ desk_said 1 w' = d /\ breaks true false d.
Proof.
  destruct (dos_roundtrip desk_left desk_said (fun _ w => (w, 0)) 9 (desk (as_bytes "one
two
"))) as (w' & d & E & S & B & _); [by apply (bool_decide_unpack _); vm_compute|cbn; lia|].
  exists w', d. split; [exact E|]. split; [exact S|exact B].
Defined.
