(* ===== verification/VfsDesc.v ===== *)
(** * VfsDesc: what the descriptors of a process name

    The open file of a descriptor without its offset, which every read and write moves.
    What each operation of the VFS and the loader of programs does to the descriptors of
    its caller, and that they leave those of the other processes alone. *)

From S2P Require Import Prelude Flash Wire Sched Slots Process Path Inode Vfs VfsOps Elf ElfOps SyscallFs.

Open Scope Z_scope.

Section Desc.
Context {W I : Type} `{!Inode W I, !EqDecision I, !Droppable W I, !Pipes W I}.
Implicit Types (v : Vfs W I) (c : Caller) (f : OpenFile I).

Definition strip f : OpenFile I := set_offset 0 f.
Definition desc (p : Z) v (fd : Z) : option (OpenFile I) := t ← v_tables v !! p; strip <$> fd_file t fd.

(** The descriptors [D] with [fd] changed. *)
Definition upd (D : Z -> option (OpenFile I)) (fd : Z) (o : option (OpenFile I)) : Z -> option (OpenFile I) :=
  fun k => if decide (k = fd) then o else D k.

(** Nobody's descriptors change. *)
Definition steady v v' : Prop := forall p fd, desc p v' fd = desc p v fd.
(** Those of [p] become [D], the others stay. *)
Definition becomes (p : Z) v v' (D : Z -> option (OpenFile I)) : Prop :=
  (forall fd, desc p v' fd = D fd) /\ forall q fd, q <> p -> desc q v' fd = desc q v fd.

Lemma steady_refl v : steady v v.
Proof. done. Qed.
Lemma steady_trans v v1 v' : steady v v1 -> steady v1 v' -> steady v v'.
Proof. intros H1 H2 p fd. by rewrite H2, H1. Qed.
Lemma steady_becomes p v v' : steady v v' -> becomes p v v' (desc p v).
Proof. intros H. split; intros; apply H. Qed.

Lemma steady_tables v v' : v_tables v' = v_tables v -> steady v v'.
Proof. intros E p fd. unfold desc. by rewrite E. Qed.
Lemma steady_world_only {A} (m : ST (Vfs W I) A) v : world_only m -> steady v (m v).1.
Proof. intros Hm. apply steady_tables, Hm. Qed.

(** An operation on one table. *)
Lemma on_table_desc {A} (f : FdTable I -> FdTable I * KResult A) p v :
  match v_tables v !! p with
  | None => on_table p f v = (v, Err BadFd)
  | Some t => (on_table p f v).2 = (f t).2 /\ becomes p v (on_table p f v).1 (fun fd => strip <$> fd_file (f t).1 fd)
  end.
Proof.
  unfold on_table. destruct (v_tables v !! p) as [t|] eqn:E; [|done]. destruct (f t) as [t' r]. cbn. split; [done|].
  split; [intros fd|intros q fd Hq]; unfold desc; cbn; [by rewrite lookup_insert_eq|by rewrite lookup_insert_ne].
Qed.

Lemma desc_table p v t fd : v_tables v !! p = Some t -> desc p v fd = strip <$> fd_file t fd.
Proof. unfold desc. by intros ->. Qed.

Lemma becomes_ext p v v' D D' : becomes p v v' D -> (forall fd, D fd = D' fd) -> becomes p v v' D'.
Proof. intros [H1 H2] E. split; [|done]. intros fd. by rewrite H1. Qed.
Lemma becomes_after p v v1 v' D : steady v v1 -> becomes p v1 v' D -> becomes p v v' D.
Proof. intros Hs [H1 H2]. split; [done|]. intros q fd Hq. by rewrite H2, Hs. Qed.
Lemma becomes_steady p v v1 v' D : becomes p v v1 D -> steady v1 v' -> becomes p v v' D.
Proof. intros [H1 H2] Hs. split; [intros fd|intros q fd Hq]; rewrite Hs; auto. Qed.

(** [fd] is the lowest descriptor that is not open. *)
Definition lowest (D : Z -> option (OpenFile I)) (fd : Z) : Prop := 0 <= fd /\ D fd = None /\ forall k, 0 <= k < fd -> is_Some (D k).

Lemma lowest_desc p v t fd : v_tables v !! p = Some t -> lowest_free t fd -> lowest (desc p v) fd.
Proof.
  intros Ht (H1 & H2 & H3). split; [done|]. split; [by rewrite (desc_table _ _ _ _ Ht), H2|].
  intros k Hk. rewrite (desc_table _ _ _ _ Ht). destruct (H3 k Hk) as [f ->]. by eexists.
Qed.

(** ** The operations *)

Lemma insert_desc f p v : tables_ok v ->
  match on_table p (fd_insert f) v with
  | (v', Ok fd) => lowest (desc p v) fd /\ becomes p v v' (upd (desc p v) fd (Some (strip f)))
  | (v', Err _) => steady v v'
  end.
Proof.
  intros Hv. pose proof (on_table_desc (fd_insert f) p v) as Ho. destruct (v_tables v !! p) as [t|] eqn:Et; [|by rewrite Ho].
  pose proof (fd_insert_spec f t (Hv _ _ Et)) as Hs. destruct Ho as [E Hb]. destruct (on_table _ _ v) as [v' r]. cbn [fst snd] in *. subst r.
  destruct (fd_insert f t) as [t' [fd|e]]; cbn [fst snd] in *.
  - destruct Hs as (Hl & _ & _ & Hf). split; [by eapply lowest_desc|]. eapply becomes_ext; [exact Hb|]. intros k. cbn. rewrite Hf. unfold upd. case_decide; [done|].
    by rewrite (desc_table _ _ _ _ Et).
  - destruct Hs as (-> & _ & _). intros q fd. destruct (decide (q = p)) as [->|Hq]; [|by apply Hb]. rewrite (proj1 Hb). by rewrite (desc_table _ _ _ _ Et).
Qed.

Lemma remove_desc fd p v : let v' := (on_table p (fd_remove fd) v).1 in becomes p v v' (upd (desc p v) fd None).
Proof.
  pose proof (on_table_desc (fd_remove fd) p v) as Ho. destruct (v_tables v !! p) as [t|] eqn:Et.
  - destruct Ho as [_ Hb]. pose proof (fd_remove_spec fd t) as Hs. eapply becomes_ext; [exact Hb|]. intros k. cbn. unfold upd. rewrite (desc_table _ _ _ _ Et).
    destruct (fd_remove fd t) as [t' [u|e]]; cbn [fst] in *.
    + destruct Hs as (_ & _ & ->). by case_decide.
    + destruct Hs as (-> & _ & Hn). case_decide; [by subst; rewrite Hn|done].
  - rewrite Ho. cbn. split; [|done]. intros k. unfold upd, desc. rewrite Et. by case_decide.
Qed.
Lemma close_desc c fd v : becomes (pid_or_0 c) v (close c fd v).1 (upd (desc (pid_or_0 c) v) fd None).
Proof. apply remove_desc. Qed.
Lemma close_in_desc p fd v : becomes p v (close_in p fd v) (upd (desc p v) fd None).
Proof.
  unfold close_in. destruct (Z.ltb_spec fd 0) as [Hn|]; [|apply remove_desc]. split; [|done]. intros k. unfold upd. case_decide; [subst k|done].
  unfold desc. destruct (v_tables v !! p) as [t|]; [|done]. cbn. unfold fd_file, fd_get. by destruct (Z.ltb_spec fd 0); [|lia].
Qed.

Lemma dup2_desc oldfd newfd p v : tables_ok v -> 0 <= oldfd -> 0 <= newfd < MAX_OPEN_FILES ->
  match on_table p (fd_dup2 oldfd newfd) v with
  | (v', Ok _) => is_Some (desc p v oldfd) /\ becomes p v v' (upd (desc p v) newfd (desc p v oldfd))
  | (v', Err _) => desc p v oldfd = None /\ steady v v'
  end.
Proof.
  intros Hv H1 H2. pose proof (on_table_desc (fd_dup2 oldfd newfd) p v) as Ho. destruct (v_tables v !! p) as [t|] eqn:Et; [|by rewrite Ho; unfold desc; rewrite Et].
  pose proof (fd_dup2_spec oldfd newfd t H1 H2 (Hv _ _ Et)) as Hs. destruct Ho as [E Hb]. destruct (on_table _ _ v) as [v' r]. cbn [fst snd] in *. subst r.
  rewrite (desc_table _ _ _ oldfd Et). destruct (fd_dup2 oldfd newfd t) as [t' [x|e]]; cbn [fst snd] in *.
  - destruct Hs as (_ & _ & f & Hf & Hk). rewrite Hf. split; [by eexists|]. eapply becomes_ext; [exact Hb|]. intros k. cbn. rewrite Hk. unfold upd.
    case_decide; [done|]. by rewrite (desc_table _ _ _ _ Et).
  - destruct Hs as (-> & _ & Hf). rewrite Hf. split; [done|]. intros q fd. destruct (decide (q = p)) as [->|Hq]; [|by apply Hb].
    rewrite (proj1 Hb). by rewrite (desc_table _ _ _ _ Et).
Qed.

Lemma dup_desc c fd v : tables_ok v ->
  match dup c fd v with
  | (v', Ok k) => lowest (desc (pid_or_0 c) v) k /\ is_Some (desc (pid_or_0 c) v fd) /\
      becomes (pid_or_0 c) v v' (upd (desc (pid_or_0 c) v) k (desc (pid_or_0 c) v fd))
  | (v', Err _) => steady v v'
  end.
Proof.
  intros Hv. unfold dup. destruct (Z.ltb_spec fd 0) as [|Hf]; [done|]. set (p := pid_or_0 c).
  destruct (v_tables v !! p) as [t|] eqn:Et; [|unfold on_table; by rewrite Et].
  assert (E : on_table p (fun t => match t !! Z.to_nat fd with Some (Some f) => fd_insert f t | _ => (t, Err BadFd) end) v =
    match t !! Z.to_nat fd with Some (Some f) => on_table p (fd_insert f) v | _ => (set_tables (<[p := t]> (v_tables v)) v, Err BadFd) end)
    by (unfold on_table; rewrite Et; by destruct (t !! Z.to_nat fd) as [[f|]|]).
  rewrite E. assert (Hsame : steady v (set_tables (<[p := t]> (v_tables v)) v)) by (apply steady_tables; cbn; by rewrite insert_id).
  destruct (t !! Z.to_nat fd) as [[f|]|] eqn:Ef; [|exact Hsame..].
  assert (Ed : desc p v fd = Some (strip f)) by (rewrite (desc_table _ _ _ _ Et); by rewrite (proj2 (fd_file_Some t fd f))).
  pose proof (insert_desc f p v Hv) as Hi. destruct (on_table p (fd_insert f) v) as [v' [k|e]]; [|done].
  destruct Hi as [H1 H2]. rewrite Ed. split; [done|]. by split.
Qed.

Lemma open_new_tables i flags v : v_tables (open_new i flags v).1 = v_tables v.
Proof. apply wo_open_new. Qed.

Lemma open_desc c path flags v : tables_ok v ->
  match open c path flags v with
  | (v', Ok fd) => lowest (desc (pid_or_0 c) v) fd /\ exists f, becomes (pid_or_0 c) v v' (upd (desc (pid_or_0 c) v) fd (Some f))
  | (v', Err _) => steady v v'
  end.
Proof.
  intros Hv. unfold open. destruct (resolve c path v) as [v1 found] eqn:E1.
  assert (S1 : v_tables v1 = v_tables v) by (pose proof (wo_resolve c path v) as [H _]; by rewrite E1 in H).
  destruct (match found with Err NotFound => _ | _ => _ end) as [v2 found2] eqn:E2.
  assert (S2 : v_tables v2 = v_tables v).
  { rewrite <- S1. destruct found as [i|[]]; try (injection E2 as <- <-; done). destruct (contains flags O_CREATE); [|by injection E2 as <- <-].
    pose proof (wo_create_path c path File v1) as [H _]. by rewrite E2 in H. }
  destruct found2 as [i|e]; [|by apply steady_tables]. destruct (_ && _); [by apply steady_tables|].
  unfold mbind, ST_bind. pose proof (open_new_tables i flags v2) as S3. destruct (open_new i flags v2) as [v3 [f|e]]; cbn [fst] in S3; [|apply steady_tables; congruence].
  assert (S : v_tables v3 = v_tables v) by congruence. assert (Hv3 : tables_ok v3) by (intros p t; rewrite S; apply Hv).
  pose proof (insert_desc f (pid_or_0 c) v3 Hv3) as Hi. pose proof (steady_tables _ _ S) as Hs.
  destruct (on_table _ _ v3) as [v4 [fd|e]]; [|by eapply steady_trans].
  destruct Hi as [(L1 & L2 & L3) Hb]. split.
  - split; [done|]. rewrite <- Hs. split; [done|]. intros k Hk. rewrite <- Hs. by apply L3.
  - exists (strip f). eapply becomes_after; [exact Hs|]. eapply becomes_ext; [exact Hb|]. intros k. unfold upd. by rewrite Hs.
Qed.

Definition read_end (i : I) : OpenFile I := mkOpenFile i 0 true false false.
Definition write_end (i : I) : OpenFile I := mkOpenFile i 0 false true false.

Lemma pipe_desc c i j v : tables_ok v ->
  match insert_pipe c i j v with
  | (v', Ok (r, w)) => let D := desc (pid_or_0 c) v in
      lowest D r /\ lowest (upd D r (Some (read_end i))) w /\
      becomes (pid_or_0 c) v v' (upd (upd D r (Some (read_end i))) w (Some (write_end j)))
  | (v', Err _) => steady v v'
  end.
Proof.
  intros Hv. unfold insert_pipe, mbind, ST_bind. change (open_new i RDONLY v) with (v, Ok (read_end i)). cbv beta iota.
  change (open_new j WRONLY v) with (v, Ok (write_end j)). cbv beta iota. unfold st. set (p := pid_or_0 c).
  unfold on_table. destruct (v_tables v !! p) as [t|] eqn:Et; [|by apply steady_tables].
  pose proof (fd_insert_spec (read_end i) t (Hv _ _ Et)) as Hs. destruct (fd_insert (read_end i) t) as [t1 [r|e]].
  2: { destruct Hs as (-> & _ & _). apply steady_tables. cbn. by rewrite insert_id. }
  destruct Hs as (Hl & Hr & Hl1 & Hf). pose proof (fd_insert_spec (write_end j) t1 Hl1) as Hs2.
  assert (Hd : forall q t' k, desc q (set_tables (<[p := t']> (v_tables v)) v) k = if decide (q = p) then strip <$> fd_file t' k else desc q v k).
  { intros q t' k. unfold desc. cbn. case_decide; [subst; by rewrite lookup_insert_eq|by rewrite lookup_insert_ne]. }
  assert (Hd1 : forall k, strip <$> fd_file t1 k = upd (desc p v) r (Some (read_end i)) k).
  { intros k. rewrite Hf. unfold upd. case_decide; [done|]. by rewrite (desc_table _ _ _ _ Et). }
  destruct (fd_insert (write_end j) t1) as [t2 [w|e]].
  - destruct Hs2 as ((H1 & H2 & H3) & _ & _ & Hf2). split; [by eapply lowest_desc|]. split.
    + split; [done|]. rewrite <- !Hd1, H2. split; [done|]. intros k Hk. rewrite <- Hd1. destruct (H3 k Hk) as [x ->]. by eexists.
    + split; [intros k|intros q k Hq]; rewrite Hd; [rewrite decide_True by done|by rewrite decide_False]. rewrite Hf2. unfold upd at 1. case_decide; [done|apply Hd1].
  - destruct Hs2 as (-> & _ & _). pose proof (fd_remove_spec r t1) as Hs3. intros q k.
    assert (Hsame : desc q (set_tables (<[p := (fd_remove r t1).1]> (v_tables v)) v) k = desc q v k).
    { rewrite Hd. case_decide; [subst q|done]. destruct (fd_remove r t1) as [t3 [u|e']]; cbn [fst].
      - destruct Hs3 as (_ & _ & ->). case_decide; [subst k; by rewrite (proj1 (proj2 (lowest_desc _ _ _ _ Et Hl)))|]. rewrite Hd1. unfold upd. by rewrite decide_False.
      - destruct Hs3 as (_ & _ & Hn). rewrite Hf, decide_True in Hn by done. done. }
    exact Hsame.
Qed.

Lemma create_pipe_desc c v : tables_ok v ->
  match create_pipe c v with
  | (v', Ok (r, w)) => exists i j, (i_create_pipe 4096 (v_world v)).2 = (i, j) /\ let D := desc (pid_or_0 c) v in
      lowest D r /\ lowest (upd D r (Some (read_end i))) w /\
      becomes (pid_or_0 c) v v' (upd (upd D r (Some (read_end i))) w (Some (write_end j)))
  | (v', Err _) => steady v v'
  end.
Proof.
  intros Hv. unfold create_pipe. destruct (i_create_pipe 4096 (v_world v)) as [w [i j]].
  pose proof (pipe_desc c i j (set_world w v) Hv) as Hp. destruct (insert_pipe c i j (set_world w v)) as [v' [[r x]|e]]; [|exact Hp].
  exists i, j. split; [done|exact Hp].
Qed.

(** Reading and writing move an offset. *)
Lemma offset_desc p t fd f n v : v_tables v !! p = Some t -> fd_file t fd = Some f ->
  steady v (set_tables (<[p := <[Z.to_nat fd := Some (set_offset n f)]> t]> (v_tables v)) v).
Proof.
  intros Et Hf q k. unfold desc. cbn. destruct (decide (q = p)) as [->|Hq]; [|by rewrite lookup_insert_ne]. rewrite lookup_insert_eq, Et. cbn.
  pose proof Hf as [H0 Hl]%fd_file_Some. rewrite fd_file_insert by (by eapply lookup_lt_Some). rewrite Z2Nat.id by lia. case_decide; [subst k|done]. by rewrite Hf.
Qed.
Lemma commit_desc p fd i n v : steady v (commit_offset p fd i n v).
Proof.
  unfold commit_offset. destruct (v_tables v !! p) as [t|] eqn:Et; [|done]. destruct (fd_get fd t) as [f|e] eqn:Ef; [|done]. case_decide; [|done].
  apply (offset_desc p t fd f n v Et). unfold fd_file. by rewrite Ef.
Qed.
Lemma read_inode_desc p fd i off n v : steady v (read_inode p fd i off n v).1.
Proof.
  unfold read_inode. destruct (i_read_at _ _ _ _) as [w [[d|e]|]]; [|done..]. destruct (checked_add64 _ _); [|done]. cbn.
  intros q k. by rewrite commit_desc.
Qed.
Lemma write_inode_desc p fd i off buf v : steady v (write_inode p fd i off buf v).1.
Proof.
  unfold write_inode. destruct (i_write_at _ _ _ _) as [w [[d|e]|]]; [|done..]. destruct (checked_add64 _ _); [|done]. cbn.
  intros q k. by rewrite commit_desc.
Qed.
Lemma read_desc c fd n v : steady v (Vfs.read c fd n v).1.
Proof. unfold Vfs.read. destruct (file_of _ _ _); [|done]. destruct (negb _); [done|]. apply read_inode_desc. Qed.

Lemma seek_desc c fd pos v : steady v (seek c fd pos v).1.
Proof.
  unfold seek, on_table. destruct (v_tables v !! pid_or_0 c) as [t|] eqn:Et; [|done].
  assert (Hsame : steady v (set_tables (<[pid_or_0 c := t]> (v_tables v)) v)) by (apply steady_tables; cbn; by rewrite insert_id).
  destruct (fd_get fd t) as [f|e] eqn:Ef; [|exact Hsame]. destruct (seek_file _ _ _) as [n|e]; [|exact Hsame].
  apply (offset_desc _ t fd f n v Et). unfold fd_file. by rewrite Ef.
Qed.

(** Editing the table of another process: a copy, and what is not to be kept. *)
Definition dup_view (oldfd newfd : Z) (D : Z -> option (OpenFile I)) : Z -> option (OpenFile I) :=
  match D oldfd with Some f => upd D newfd (Some f) | None => D end.
Definition close_view (fds : list Z) (D : Z -> option (OpenFile I)) : Z -> option (OpenFile I) :=
  foldl (fun D fd => upd D fd None) D fds.

Lemma desc_neg p v fd : fd < 0 -> desc p v fd = None.
Proof. intros Hn. unfold desc. destruct (v_tables v !! p) as [t|]; [|done]. cbn. unfold fd_file, fd_get. by destruct (Z.ltb_spec fd 0); [|lia]. Qed.

Lemma dup2_in_desc pid oldfd newfd v : tables_ok v -> 0 <= newfd < MAX_OPEN_FILES ->
  becomes pid v (dup2_in pid oldfd newfd v).1 (dup_view oldfd newfd (desc pid v)).
Proof.
  intros Hv Hn. unfold dup2_in, dup_view. destruct (Z.ltb_spec oldfd 0) as [Ho|Ho]; cbn [orb].
  - rewrite desc_neg by done. by apply steady_becomes.
  - destruct (Z.ltb_spec newfd 0); [lia|]. destruct (Z.leb_spec MAX_OPEN_FILES newfd); [lia|]. cbn [orb].
    pose proof (dup2_desc oldfd newfd pid v Hv Ho Hn) as Hd. destruct (on_table _ _ v) as [v' [x|e]].
    + destruct Hd as [[f Hf] Hb]. by rewrite Hf in Hb |- *.
    + destruct Hd as [-> Hs]. by apply steady_becomes.
Qed.
Lemma dup2_in_own pid oldfd newfd v : tables_ok v -> tables_ok (dup2_in pid oldfd newfd v).1 /\ dom (v_tables (dup2_in pid oldfd newfd v).1) = dom (v_tables v).
Proof.
  intros Hv. unfold dup2_in. destruct (Z.ltb_spec oldfd 0); [done|]. destruct (Z.ltb_spec newfd 0); [done|]. destruct (Z.leb_spec MAX_OPEN_FILES newfd); [done|]. cbn [orb].
  unfold on_table. destruct (v_tables v !! pid) as [t|] eqn:Et; [|done].
  pose proof (fd_dup2_spec oldfd newfd t ltac:(lia) ltac:(lia) (Hv _ _ Et)) as Hd. destruct (fd_dup2 oldfd newfd t) as [t' r]. cbn. split.
  - intros q u. cbn. intros [[<- <-]|[_ Hu]]%lookup_insert_Some; [destruct r as [x|e]; [apply Hd|destruct Hd as (-> & _); by eapply Hv]|by eapply Hv].
  - apply set_eq. intros q. rewrite dom_insert, elem_of_union, elem_of_singleton. split; [intros [->|?]; [by apply elem_of_dom_2 in Et|done]|by right].
Qed.

Lemma close_ins_desc pid fds : forall v D, (forall fd, desc pid v fd = D fd) -> becomes pid v (foldl (fun v fd => close_in pid fd v) v fds) (close_view fds D).
Proof.
  induction fds as [|fd fds IH]; intros v D HD; cbn [foldl].
  - split; [exact HD|done].
  - destruct (close_in_desc pid fd v) as [H1 H2]. destruct (IH (close_in pid fd v) (upd D fd None)) as [H3 H4].
    + intros k. rewrite H1. unfold upd. case_decide; [done|apply HD].
    + split; [exact H3|]. intros q k Hq. by rewrite H4, H2.
Qed.
Lemma close_ins_own pid fds : forall v, tables_ok v ->
  tables_ok (foldl (fun v fd => close_in pid fd v) v fds) /\ dom (v_tables (foldl (fun v fd => close_in pid fd v) v fds)) = dom (v_tables v).
Proof.
  induction fds as [|fd fds IH]; intros v Hv; [done|]. cbn [foldl].
  assert (Hc : tables_ok (close_in pid fd v) /\ dom (v_tables (close_in pid fd v)) = dom (v_tables v)).
  { unfold close_in. destruct (fd <? 0); [done|]. unfold on_table. destruct (v_tables v !! pid) as [t|] eqn:Et; [|done].
    pose proof (fd_remove_len fd t) as Hl. destruct (fd_remove fd t) as [t' r]. cbn in *. split.
    - intros q u. cbn. intros [[<- <-]|[_ Hu]]%lookup_insert_Some; [rewrite Hl|]; by eapply Hv.
    - apply set_eq. intros q. rewrite dom_insert, elem_of_union, elem_of_singleton. split; [intros [->|?]; [by apply elem_of_dom_2 in Et|done]|by right]. }
  destruct Hc as [H1 H2]. destruct (IH _ H1) as [H3 H4]. by rewrite H4, H2.
Qed.

Lemma clone_desc parent child v : v_tables v !! child = None ->
  becomes child v (clone_fd_table parent child v) (desc parent v).
Proof.
  intros Hn. unfold clone_fd_table. destruct (v_tables v !! parent) as [t|] eqn:Et.
  - split; [intros fd|intros q fd Hq]; unfold desc; cbn; [by rewrite lookup_insert_eq, Et|by rewrite lookup_insert_ne].
  - split; [|done]. intros fd. unfold desc. by rewrite Hn, Et.
Qed.

(** ** The loader *)

Definition quiet {A} (m : IO (Loader W I) A) : Prop := forall l, steady (l_vfs l) (l_vfs (m l).1).

Lemma quiet_bind {A B} (m : IO (Loader W I) A) (k : A -> IO (Loader W I) B) : quiet m -> (forall x, quiet (k x)) -> quiet (x ← m; k x).
Proof.
  intros Hm Hk l. unfold mbind, IO_bind. specialize (Hm l). destruct (m l) as [l' [[x|e]|]]; cbn in *; [|done..].
  eapply steady_trans; [exact Hm|]. apply Hk.
Qed.
Lemma quiet_read c fd n : quiet (Elf.via_vfs (Vfs.read c fd n)).
Proof. intros l. unfold Elf.via_vfs. pose proof (read_desc c fd n (l_vfs l)) as Hr. by destruct (Vfs.read c fd n (l_vfs l)). Qed.
Lemma quiet_seek c fd pos : quiet (Elf.via_vfs (io (seek c fd pos))).
Proof. intros l. unfold Elf.via_vfs, io. pose proof (seek_desc c fd pos (l_vfs l)) as Hr. by destruct (seek c fd pos (l_vfs l)). Qed.
Lemma quiet_mem {A} (m : ST (Z -> Z) A) : quiet (via_mem m).
Proof. intros l. unfold via_mem. by destruct (m (l_mem l)). Qed.
Lemma quiet_lift {A} (r : KResult A) : quiet (io_lift r).
Proof. by intros l. Qed.
Lemma quiet_ret {A} (x : A) : quiet (mret x).
Proof. by intros l. Qed.
#[local] Hint Resolve quiet_read quiet_seek quiet_mem quiet_lift quiet_ret : espresso.
Ltac quiet := repeat first [progress (auto with espresso) | apply quiet_bind; [|intros ?] | case_match].

Lemma quiet_read_full c fd n : quiet (read_full c fd n).
Proof. unfold read_full. quiet. Qed.
#[local] Hint Resolve quiet_read_full : espresso.
Lemma quiet_read_phdrs c fd eh : quiet (read_phdrs c fd eh).
Proof. unfold read_phdrs. quiet. Qed.
Lemma quiet_read_fixups c fd : quiet (read_fixups c fd).
Proof. unfold read_fixups. quiet. Qed.
Lemma quiet_place_segments c fd text data tw dw phs : quiet (place_segments c fd text data tw dw phs).
Proof. induction phs as [|ph phs IH]; cbn [place_segments]; unfold place_segment; quiet. Qed.
#[local] Hint Resolve quiet_read_phdrs quiet_read_fixups quiet_place_segments : espresso.
Lemma quiet_place db c fd eh phs text data i fixups : quiet (place db c fd eh phs text data i fixups).
Proof. unfold place. quiet. Qed.
Lemma quiet_load_inner ld db c fd : quiet (load_inner ld db c fd).
Proof.
  unfold load_inner. quiet. intros l0. unfold prog. destruct (slot_alloc (l_slots l0)) as [used [i|]]; [|done].
  match goal with |- context [place ?a ?b ?d ?e ?f ?g ?h ?i ?j ?l1] => pose proof (quiet_place a b d e f g h i j l1) as Ho;
    destruct (place a b d e f g h i j l1) as [l2 [[ld2|e2]|]] end; exact Ho.
Qed.

(** A load that comes to its end has closed the file again. *)
Lemma load_elf_desc ld db c path l l' r : tables_ok (l_vfs l) -> load_elf ld db c path l = (l', Ret r) -> steady (l_vfs l) (l_vfs l').
Proof.
  intros Hv. unfold load_elf, mbind, IO_bind, Elf.via_vfs, io. pose proof (open_desc c path RDONLY (l_vfs l) Hv) as Ho.
  destruct (open c path RDONLY (l_vfs l)) as [v1 [fd|e]]; [|by intros [= <- _]]. destruct Ho as ((_ & Hn & _) & f & Hb1 & Hb2). unfold prog.
  pose proof (quiet_load_inner ld db c fd (mkLoader v1 (l_slots l) (l_mem l))) as Hq. cbn [l_vfs] in Hq.
  destruct (load_inner _ _ _ _ _) as [l1 [x|]]; [|done]. intros [= <- _]. cbn [l_vfs fst] in *. destruct (close_desc c fd (l_vfs l1)) as [Hc1 Hc2].
  intros q k. destruct (decide (q = pid_or_0 c)) as [->|Hq']; [|by rewrite Hc2, Hq, Hb2]. rewrite Hc1. unfold upd. case_decide as Hk; [by subst; rewrite Hn|].
  rewrite Hq, Hb1. unfold upd. by rewrite decide_False.
Qed.
End Desc.
