(* ===== verification/KShell.v ===== *)
(** * KShell: the shell inside the kernel (kernel/src/shell/, kernel/src/main.rs)

    The built-in commands, redirections, programs and pipelines of the shell that runs
    as a task of the kernel, and the supervisor that keeps [init] running, over the
    state of the whole kernel: the VFS with its descriptor tables, the processes, the
    slots and the memory.  [rest] is what the other tasks do each time this one gives
    the processor away, and nothing if it is never given back; a computation may spend
    its fuel in waiting for them. *)

From Stdlib Require Import Ascii.
From stdpp Require Import pretty.
From S2P Require Import Prelude Text Sh Sched Slots Process Syscall Path Inode Vfs Elf SyscallFs Parser.

Open Scope Z_scope.

(* @src kernel/src/shell/commands/mod.rs 13-15 STDIN, STDOUT, STDERR *)
Definition STDIN : Z := 0.
Definition STDOUT : Z := 1.
Definition STDERR : Z := 2.

(* @src kernel/src/shell/commands/mod.rs 136-136 EXEC_PRIO *)
Definition EXEC_PRIO : Z := 10.

(* @src kernel/src/shell/mod.rs 13-13 MAX_LINE *)
Definition MAX_LINE : Z := 256.

(* @src kernel/src/shell/commands/mod.rs 1335-1356 err_str *)
Definition err_str (e : KError) : string :=
  match e with
  | NoMem => "out of memory" | NotFound => "not found" | AlreadyExists => "already exists"
  | NotADirectory => "not a directory" | IsADirectory => "is a directory" | InvalidArgument => "invalid argument"
  | PermissionDenied => "permission denied" | NotSupported => "not supported" | WouldBlock => "would block"
  | Busy => "busy" | IoError => "I/O error" | BadFd => "invalid descriptor" | NameTooLong => "name too long"
  | NoSpace => "out of space" | Corrupt => "corrupt data" | Timeout => "timed out" | Fault => "invalid address"
  | TableFull => "table full"
  end.
(** The derived [Debug] of an error. *)
Definition debug_str (e : KError) : string :=
  match e with
  | NoMem => "NoMem" | NotFound => "NotFound" | AlreadyExists => "AlreadyExists" | NotADirectory => "NotADirectory"
  | IsADirectory => "IsADirectory" | InvalidArgument => "InvalidArgument" | PermissionDenied => "PermissionDenied"
  | NotSupported => "NotSupported" | WouldBlock => "WouldBlock" | Busy => "Busy" | IoError => "IoError" | BadFd => "BadFd"
  | NameTooLong => "NameTooLong" | NoSpace => "NoSpace" | Corrupt => "Corrupt" | Timeout => "Timeout" | Fault => "Fault"
  | TableFull => "TableFull"
  end.

(** [format!] of pieces that are texts. *)
Definition text (l : list string) : list Z := mjoin (as_bytes <$> l).

(** [name.contains('/')], and the path of a program. *)
Fixpoint has_slash (s : string) : bool :=
  match s with EmptyString => false | String c s => at_char c (ascii_of_byte 47) || has_slash s end.
(* @src kernel/src/shell/commands/mod.rs 173-177 spawn_child (path) *)
Definition program_path (name : string) : string := if has_slash name then name else ("/bin/" +:+ name)%string.

(* @src kernel/src/shell/commands/mod.rs 803-812 format_entry *)
Definition format_entry (e : DirEntry) : list string :=
  [de_name e; match de_kind e with Dir => "/" | Device => "@" | Symlink => "~" | File => "" | Fifo => "|" end%string].

(** What a spawn answers: the child, or the code of the failure. *)
Inductive Spawned : Type := Child (pid : Z) | Failed (code : Z).

Section KShell.
Context {F : Type} `{HF : Frame F} {W I : Type} `{HN : !Inode W I, HE : !EqDecision I, HP : !Droppable W I, HPp : !Pipes W I}.
Abbreviation K := (Kernel F (Vfs W I)).
Context (h : Host) (rest : K -> option K).
(** The address of the status that [wait] fills in, on the stack of the shell; and the
    commands that print tables or drive devices, the network and updates. *)
Context (status_at : Z) (other_command : string -> list string -> Prog K Z).
Implicit Types k : K.

Definition vcall_ {A} (m : Caller -> ST (Vfs W I) A) : Prog K (KResult A) := call (via_vfs m).
Definition yield_now : Prog K unit := fun k => match rest k with Some k => Done (k, tt) | None => Spent end.

(** A call of an inode that sleeps is tried again when the task runs again. *)
Fixpoint retry {A} (m : IO (Vfs W I) A) (fuel : nat) : Prog K (KResult A) := fun k =>
  match m (k_fds k) with
  | (v, Ret r) => Done (k_set_fds v k, r)
  | (v, Park) =>
    match fuel, rest (k_set_fds v k) with S fuel, Some k => retry m fuel k | _, _ => Spent end
  end.
(** [vfs::read] and [vfs::write] of a task of the kernel. *)
Definition vfs_read (fd n : Z) (fuel : nat) : Prog K (KResult (list Z)) := fun k =>
  match file_of (caller_of k) fd (k_fds k) with
  | Err e => Done (k, Err e)
  | Ok file =>
    if negb (of_readable file) then Done (k, Err PermissionDenied)
    else retry (read_inode (pid_or_0 (caller_of k)) fd (of_inode file) (of_offset file) n) fuel k
  end.
Definition vfs_write (fd : Z) (buf : list Z) (fuel : nat) : Prog K (KResult Z) := fun k =>
  match file_of (caller_of k) fd (k_fds k) with
  | Err e => Done (k, Err e)
  | Ok file =>
    if negb (of_writable file) then Done (k, Err PermissionDenied)
    else
      let offset := if of_append file then i_size (of_inode file) (v_world (k_fds k)) else of_offset file in
      retry (write_inode (pid_or_0 (caller_of k)) fd (of_inode file) offset buf) fuel k
  end.

(** ** Output *)

(** Every byte or nothing more; [failed] is the message of an error, but not to the
    error output itself. *)
(* @src kernel/src/shell/commands/mod.rs 51-73 write_all *)
Fixpoint write_loop (fd : Z) (bytes : list Z) (failed : KError -> Prog K unit) (n fuel : nat) : Prog K unit :=
  if bool_decide (bytes = []) then mret tt
  else
    r ← vfs_write fd bytes n;
    let again bytes := match fuel with O => spent | S fuel => write_loop fd bytes failed n fuel end in
    match r with
    | Ok w => if w =? 0 then _ ← yield_now; again bytes else if w <=? len bytes then again (drop (Z.to_nat w) bytes) else fun _ => Panic
    | Err WouldBlock => _ ← yield_now; again bytes
    | Err IoError => mret tt
    | Err e => failed e
    end.
(* @src kernel/src/shell/commands/mod.rs 51-73 write_all *)
Definition write_all (fd : Z) (bytes : list Z) (fuel : nat) : Prog K unit :=
  write_loop fd bytes (fun e =>
    when (negb (fd =? STDERR)) (write_loop STDERR (text ["shell: write failed ("; debug_str e; ")"]%string ++ [10]) (fun _ => mret tt) fuel fuel)) fuel fuel.

(* @src kernel/src/shell/commands/mod.rs 75-77 emit *)
Definition emit (bytes : list Z) (fuel : nat) : Prog K unit := write_all STDOUT bytes fuel.
(* @src kernel/src/shell/commands/mod.rs 86-89 emit_line *)
Definition emit_line (l : list string) (fuel : nat) : Prog K unit := _ ← emit (text l) fuel; emit [10] fuel.
(* @src kernel/src/shell/commands/mod.rs 92-95 eprint_line *)
Definition eprint_line (l : list string) (fuel : nat) : Prog K unit := _ ← write_all STDERR (text l) fuel; write_all STDERR [10] fuel.

(** ** Redirections *)

Definition close_ (fd : Z) : Prog K unit := Sh.run (via_vfs (fun c => close c fd)).
Definition redirect_flags (extra : Z) : Z := Z.lor (Z.lor WRONLY O_CREATE) extra.

Definition opened (r : KResult Z) : KResult (option Z) := match r with Ok fd => Ok (Some fd) | Err e => Err e end.

(* @src kernel/src/shell/commands/mod.rs 427-435 open_redirect *)
Definition open_redirect (r : Redirect) : Prog K (KResult (option Z)) :=
  match r with
  | NoRedirect => mret (Ok None)
  | Truncate p => r ← vcall_ (fun c => open c p (redirect_flags O_TRUNC)); mret (opened r)
  | Append p => r ← vcall_ (fun c => open c p (redirect_flags O_APPEND)); mret (opened r)
  end.

(** The descriptor the output is saved in. *)
(* @src kernel/src/shell/commands/mod.rs 100-124 begin_redirect *)
Definition begin_redirect (redirect : Redirect) : Prog K (KResult (option Z)) :=
  o ← open_redirect redirect;
  match o with
  | Err e => mret (Err e)
  | Ok None => mret (Ok None)
  | Ok (Some fd) =>
    d ← vcall_ (fun c => dup c STDOUT);
    match d with
    | Err e => _ ← close_ fd; mret (Err e)
    | Ok saved =>
      d2 ← vcall_ (fun c => dup2 c fd STDOUT);
      match d2 with
      | Err e => _ ← close_ fd; _ ← close_ saved; mret (Err e)
      | Ok _ => _ ← close_ fd; mret (Ok (Some saved))
      end
    end
  end.
(* @src kernel/src/shell/commands/mod.rs 126-131 end_redirect *)
Definition end_redirect (saved : option Z) : Prog K unit :=
  match saved with
  | Some s => _ ← Sh.run (via_vfs (fun c => dup2 c s STDOUT)); close_ s
  | None => mret tt
  end.

(** ** Programs *)

(** [spawn_child] from the loaded image on: the task is created blocked, and the table
    of descriptors it inherits is edited before it may run. *)
(* @src kernel/src/shell/commands/mod.rs 191-244 spawn_child (from the image) *)
Definition start_child (name : string) (args : list string) (stdin stdout : Z) (close_in_child : list Z) (loaded : LoadedElf) (fuel : nat) : Prog K Spawned := fun k =>
  match write_argv loaded (name :: args) (k_mem k) with
  | (mem, Err e) =>
    (_ ← eprint_line ["shell: "; name; ": "; err_str e]%string fuel; mret (Failed 126))
      (k_set_slots (slot_free (Elf.slot loaded) (k_slots k)) (k_set_mem mem k))
  | (mem, Ok argv_ptr) =>
    let k := k_set_mem mem k in
    match spawn_blocked (tramp h) (heap h) name (Elf.entry loaded) argv_ptr DEFAULT_STACK_SIZE EXEC_PRIO true (k_sched k) with
    | (g, Err e) =>
      (_ ← eprint_line ["shell: "; name; ": cannot spawn ("; err_str e; ")"]%string fuel; mret (Failed 126))
        (k_set_slots (slot_free (Elf.slot loaded) (k_slots k)) (k_set_sched g k))
    | (g, Ok tid) =>
      let '(k, pid) := register_process name tid true (Some (Elf.slot loaded)) (k_set_sched g k) in
      let v := if negb (stdin =? STDIN) then (dup2_in pid stdin STDIN (k_fds k)).1 else k_fds k in
      let v := if negb (stdout =? STDOUT) then (dup2_in pid stdout STDOUT v).1 else v in
      let v := foldl (fun v fd => close_in pid fd v) v close_in_child in
      let k := k_set_fds v k in
      Done (k_set_sched (unblock_task tid (k_sched k)) k, Child pid)
    end
  end.

(** A load that would have to sleep (a program that is a pipe) does not go on. *)
(* @src kernel/src/shell/commands/mod.rs 162-245 spawn_child *)
Definition spawn_child (name : string) (args : list string) (stdin stdout : Z) (close_in_child : list Z) (fuel : nat) : Prog K Spawned := fun k =>
  let '(l, r) := load_elf (link_data h) (k_data_base k) (caller_of k) (program_path name) (mkLoader (k_fds k) (k_slots k) (k_mem k)) in
  let k := k_set_fds (l_vfs l) (k_set_slots (l_slots l) (k_set_mem (l_mem l) k)) in
  match r with
  | Park => Spent
  | Ret (Err NotFound) => (_ ← eprint_line ["shell: command not found: "; name]%string fuel; mret (Failed 127)) k
  | Ret (Err e) => (_ ← eprint_line ["shell: "; name; ": "; err_str e]%string fuel; mret (Failed 126)) k
  | Ret (Ok loaded) => start_child name args stdin stdout close_in_child loaded fuel k
  end.

(** The call [wait], through the trap: it is made again as long as it asks for that. *)
Fixpoint wait_loop (fuel : nat) : Prog K Z := fun k =>
  let '(k, r) := sys_wait [status_at; 0] k in
  let '(g, restart) := take_restart_syscall (k_sched k) in
  let k := k_set_sched g k in
  if restart then match fuel, rest k with S fuel, Some k => wait_loop fuel k | _, _ => Spent end else Done (k, r).
(** The child, and its status. *)
Definition invoke_wait (fuel : nat) : Prog K (Z * Z) :=
  _ ← Sh.run (fun k => (k_set_mem (write_mem status_at (le_bytes 4 0) (k_mem k)) k, tt));
  r ← wait_loop fuel;
  status ← call (fun k => (k, as_i32 (read_word (k_mem k) status_at)));
  mret (r, status).

(* @src kernel/src/shell/commands/mod.rs 261-276 wait_all (loop) *)
Fixpoint wait_each (n : nat) (last last_status : Z) (fuel : nat) : Prog K Z :=
  match n with
  | O => mret last_status
  | S n =>
    '(reaped, status) ← invoke_wait fuel;
    if reaped <? 0 then _ ← eprint_line ["shell: wait failed ("; pretty reaped; ")"]%string fuel; mret last_status
    else wait_each n last (if reaped =? last then status else last_status) fuel
  end.
(* @src kernel/src/shell/commands/mod.rs 256-277 wait_all *)
Definition wait_all (pids : list Z) (fuel : nat) : Prog K Z :=
  match last pids with None => mret 0 | Some last => wait_each (length pids) last 0 fuel end.

(* @src kernel/src/shell/commands/mod.rs 139-151 try_exec, run_program *)
Definition try_exec (name : string) (args : list string) (fuel : nat) : Prog K Z :=
  c ← spawn_child name args STDIN STDOUT [] fuel;
  match c with Child pid => wait_all [pid] fuel | Failed code => mret code end.

(* @src kernel/src/shell/mod.rs 19-24 run_userland *)
Definition run_userland (program : string) (user : option string) (fuel : nat) : Prog K Z :=
  try_exec program (match user with Some u => ["--user"; u]%string | None => [] end) fuel.

(** ** Pipelines *)

(* @src kernel/src/shell/commands/mod.rs 419-424 close_all *)
Fixpoint close_all (pipes : list (Z * Z)) : Prog K unit :=
  match pipes with [] => mret tt | (r, w) :: pipes => _ ← close_ r; _ ← close_ w; close_all pipes end.
Fixpoint close_each (fds : list Z) : Prog K unit := match fds with [] => mret tt | fd :: fds => _ ← close_ fd; close_each fds end.

(** The first stage that is no program. *)
(* @src kernel/src/shell/commands/mod.rs 324-337 run_pipeline (check) *)
Fixpoint check_stages (stages : list Command) (fuel : nat) : Prog K bool :=
  match stages with
  | [] => mret true
  | s :: stages =>
    r ← vcall_ (fun c => resolve c (program_path (Parser.name s)));
    match r with
    | Ok _ => check_stages stages fuel
    | Err _ => _ ← eprint_line ["shell: "; Parser.name s; ": not found in /bin (a pipeline stage cannot be a built-in)"]%string fuel; mret false
    end
  end.

(* @src kernel/src/shell/commands/mod.rs 342-352 run_pipeline (pipes) *)
Fixpoint make_pipes (n : nat) (pipes : list (Z * Z)) (fuel : nat) : Prog K (option (list (Z * Z))) :=
  match n with
  | O => mret (Some pipes)
  | S n =>
    r ← vcall_ create_pipe;
    match r with
    | Ok p => make_pipes n (pipes ++ [p]) fuel
    | Err e => _ ← eprint_line ["shell: pipe failed ("; err_str e; ")"]%string fuel; _ ← close_all pipes; mret None
    end
  end.

(** A stage that did not start: what has started is drained. *)
(* @src kernel/src/shell/commands/mod.rs 396-402 run_pipeline (a stage that fails) *)
Definition abandon (pipes : list (Z * Z)) (redirects pids : list Z) (fuel : nat) : Prog K unit :=
  _ ← close_all pipes; _ ← close_each redirects; _ ← wait_all pids fuel; mret tt.

(** The stages from [i] on; [left] are those behind it.  The answer is the children and
    the redirections, or the code of a failure. *)
(* @src kernel/src/shell/commands/mod.rs 354-406 run_pipeline (stages) *)
Fixpoint start_stages (pipes : list (Z * Z)) (stages : list Command) (i : nat) (pids redirects : list Z) (fuel : nat) : Prog K ((list Z * list Z) + Z) :=
  match stages with
  | [] => mret (inl (pids, redirects))
  | s :: stages =>
    stdin ← pure (if bool_decide (i = O) then Some STDIN else fst <$> pipes !! (i - 1)%nat);
    o ← open_redirect (redirect s);
    match o with
    | Err e =>
      _ ← eprint_line ["shell: "; Parser.name s; ": "; err_str e]%string fuel;
      _ ← abandon pipes redirects pids fuel;
      mret (inr 1)
    | Ok o =>
      let redirects := match o with Some fd => redirects ++ [fd] | None => redirects end in
      stdout ← pure (match o with Some fd => Some fd | None => if bool_decide (stages = []) then Some STDOUT else snd <$> pipes !! i end);
      c ← spawn_child (Parser.name s) (Parser.args s) stdin stdout (mjoin ((fun p => [p.1; p.2]) <$> pipes)) fuel;
      match c with
      | Child pid => start_stages pipes stages (S i) (pids ++ [pid]) redirects fuel
      | Failed code => _ ← abandon pipes redirects pids fuel; mret (inr code)
      end
    end
  end.

(* @src kernel/src/shell/commands/mod.rs 321-417 run_pipeline *)
Definition run_pipeline (stages : list Command) (fuel : nat) : Prog K Z :=
  found ← check_stages stages fuel;
  if negb found then mret 127
  else
    o ← make_pipes (length stages - 1) [] fuel;
    match o with
    | None => mret 1
    | Some pipes =>
      started ← start_stages pipes stages 0 [] [] fuel;
      match started with
      | inr code => mret code
      | inl (pids, redirects) => _ ← close_all pipes; _ ← close_each redirects; wait_all pids fuel
      end
    end.

(** ** Built-in commands *)

(** [for path in args]: each that fails is reported, and the status is then 1. *)
Fixpoint for_args (what : string) (f : string -> Prog K (KResult unit)) (args : list string) (status : Z) (fuel : nat) : Prog K Z :=
  match args with
  | [] => mret status
  | path :: args =>
    r ← f path;
    match r with
    | Ok _ => for_args what f args status fuel
    | Err e => _ ← eprint_line [what; ": "; path; ": "; err_str e]%string fuel; for_args what f args 1 fuel
    end
  end.
Definition each_arg (what usage : string) (f : string -> Prog K (KResult unit)) (args : list string) (fuel : nat) : Prog K Z :=
  match args with [] => _ ← eprint_line [usage] fuel; mret 2 | _ => for_args what f args 0 fuel end.

Definition joined (l : list string) : string := String.concat " " l.

(* @src kernel/src/shell/commands/mod.rs 476-499 cmd_echo *)
Definition cmd_echo (args : list string) (fuel : nat) : Prog K Z :=
  _ ← match args with
      | first :: args' => if bool_decide (first = "-n"%string) then emit (text [joined args']) fuel else emit_line [joined args] fuel
      | [] => emit_line [joined args] fuel
      end;
  mret 0.

(* @src kernel/src/shell/commands/mod.rs 754-771 cmd_ls *)
Definition cmd_ls (args : list string) (fuel : nat) : Prog K Z :=
  let path := match args with p :: _ => p | [] => "."%string end in
  r ← vcall_ (fun c => readdir c path (dir_fuel h));
  match r with
  | Ok entries => _ ← foldr (fun e m => _ ← emit_line (format_entry e) fuel; m) (mret tt : Prog K unit) entries; mret 0
  | Err e => _ ← eprint_line ["ls: "; path; ": "; err_str e]%string fuel; mret 1
  end.

(* @src kernel/src/shell/commands/mod.rs 773-796 cmd_cd *)
Definition cmd_cd (args : list string) (fuel : nat) : Prog K Z :=
  let target := match args with p :: _ => p | [] => "/"%string end in
  r ← vcall_ (fun c => readdir c target (dir_fuel h));
  match r with
  | Err e => _ ← eprint_line ["cd: "; target; ": "; err_str e]%string fuel; mret 1
  | Ok _ =>
    r ← call (cwd_set target);
    match r with
    | Err e => _ ← eprint_line ["cd: "; target; ": "; err_str e]%string fuel; mret 1
    | Ok _ => mret 0
    end
  end.

(* @src kernel/src/shell/commands/mod.rs 798-801 cmd_pwd *)
Definition cmd_pwd (fuel : nat) : Prog K Z := d ← call (fun k => (k, cwd_get k)); _ ← emit_line [d] fuel; mret 0.

(* @src kernel/src/shell/commands/mod.rs 831-845 cat_one (loop) *)
Fixpoint cat_loop (fd : Z) (n fuel : nat) : Prog K (KResult unit) :=
  r ← vfs_read fd 128 n;
  match r with
  | Err e => _ ← close_ fd; mret (Err e)
  | Ok [] => _ ← close_ fd; mret (Ok tt)
  | Ok chunk => _ ← emit chunk n; match fuel with O => spent | S fuel => cat_loop fd n fuel end
  end.
(* @src kernel/src/shell/commands/mod.rs 829-847 cat_one *)
Definition cat_one (path : string) (fuel : nat) : Prog K (KResult unit) :=
  r ← vcall_ (fun c => open c path RDONLY);
  match r with Err e => mret (Err e) | Ok fd => cat_loop fd fuel fuel end.
(* @src kernel/src/shell/commands/mod.rs 814-827 cmd_cat *)
Definition cmd_cat (args : list string) (fuel : nat) : Prog K Z := each_arg "cat" "usage: cat FILE..." (fun p => cat_one p fuel) args fuel.
(* @src kernel/src/shell/commands/mod.rs 849-862 cmd_mkdir *)
Definition cmd_mkdir (args : list string) (fuel : nat) : Prog K Z :=
  each_arg "mkdir" "usage: mkdir DIRECTORY..." (fun p => vcall_ (fun c => mkdir c p)) args fuel.
(* @src kernel/src/shell/commands/mod.rs 864-883 cmd_touch *)
Definition cmd_touch (args : list string) (fuel : nat) : Prog K Z :=
  each_arg "touch" "usage: touch FILE..." (fun p =>
    r ← vcall_ (fun c => open c p (Z.lor WRONLY Vfs.O_CREATE));
    match r with Ok fd => _ ← close_ fd; mret (Ok tt) | Err e => mret (Err e) end) args fuel.
(* @src kernel/src/shell/commands/mod.rs 885-898 cmd_rm *)
Definition cmd_rm (args : list string) (fuel : nat) : Prog K Z :=
  each_arg "rm" "usage: rm FILE..." (fun p => vcall_ (fun c => unlink c p)) args fuel.

(** One write, whatever it takes of the text. *)
(* @src kernel/src/shell/commands/mod.rs 900-934 cmd_write *)
Definition cmd_write (args : list string) (fuel : nat) : Prog K Z :=
  match args with
  | [] => _ ← eprint_line ["usage: write FILE TEXT..."%string] fuel; mret 2
  | path :: words =>
    r ← vcall_ (fun c => open c path (redirect_flags Vfs.O_TRUNC));
    match r with
    | Err e => _ ← eprint_line ["write: "; path; ": "; err_str e]%string fuel; mret 1
    | Ok fd =>
      res ← vfs_write fd (as_bytes (joined words) ++ [10]) fuel;
      _ ← close_ fd;
      match res with
      | Ok _ => mret 0
      | Err e => _ ← eprint_line ["write: "; path; ": "; err_str e]%string fuel; mret 1
      end
    end
  end.

(* @src kernel/src/shell/commands/mod.rs 736-741 cmd_ps *)
Definition cmd_ps (fuel : nat) : Prog K Z :=
  tid ← call (fun k => (k, current (k_sched k)));
  _ ← emit_line ["  TID  STATE     NAME"%string] fuel;
  let t := pretty tid in
  _ ← emit_line [String.concat "" (replicate (5 - String.length t) " "%string); t; "  Running   (current)"]%string fuel;
  mret 0.

(* @src kernel/src/shell/commands/mod.rs 696-699 cmd_clear *)
Definition cmd_clear (fuel : nat) : Prog K Z := _ ← emit (27 :: as_bytes "[2J" ++ 27 :: as_bytes "[H") fuel; mret 0.

Definition OTHER : list string :=
  ["help"; "uptime"; "free"; "reboot"; "i2c"; "spi"; "ota"; "syscalltest"; "smp"; "pms"; "power"; "sha256"; "ble"; "wifi"; "ip"; "nmcli"]%string.

(** A name that is no command is a program. *)
(* @src kernel/src/shell/commands/mod.rs 441-474 dispatch *)
Fixpoint dispatch (name : string) (args : list string) (fuel : nat) {struct args} : Prog K Z :=
  if bool_decide (name = "echo"%string) then cmd_echo args fuel
  else if bool_decide (name = "clear"%string) then cmd_clear fuel
  else if bool_decide (name = "ps"%string) then cmd_ps fuel
  else if bool_decide (name = "ls"%string) then cmd_ls args fuel
  else if bool_decide (name = "cd"%string) then cmd_cd args fuel
  else if bool_decide (name = "pwd"%string) then cmd_pwd fuel
  else if bool_decide (name = "cat"%string) then cmd_cat args fuel
  else if bool_decide (name = "mkdir"%string) then cmd_mkdir args fuel
  else if bool_decide (name = "touch"%string) then cmd_touch args fuel
  else if bool_decide (name = "rm"%string) then cmd_rm args fuel
  else if bool_decide (name = "write"%string) then cmd_write args fuel
  else if bool_decide (name = "sudo"%string) then
    match args with
    | [] => _ ← eprint_line ["sudo: usage: sudo COMMAND [ARGS...]"%string] fuel; mret 1
    | command :: args => dispatch command args fuel
    end
  else if bool_decide (name ∈ OTHER) then other_command name args
  else if bool_decide (name = ""%string) then mret 0
  else try_exec name args fuel.

(** ** Lines *)

(* @src kernel/src/shell/mod.rs 156-172 run_command *)
Definition run_command (cmd : Command) (fuel : nat) : Prog K unit :=
  saved ← begin_redirect (redirect cmd);
  match saved with
  | Err e => eprint_line ["shell: could not open redirection target ("; debug_str e; ")"]%string fuel
  | Ok saved => _ ← dispatch (Parser.name cmd) (Parser.args cmd) fuel; end_redirect saved
  end.

(* @src kernel/src/shell/mod.rs 140-148 execute (pipelines) *)
Fixpoint run_pipelines (pipelines : list (list Command)) (fuel : nat) : Prog K unit :=
  match pipelines with
  | [] => mret tt
  | pipeline :: pipelines =>
    _ ← match pipeline with
        | [] => mret tt : Prog K unit
        | [cmd] => run_command cmd fuel
        | _ => _ ← run_pipeline pipeline fuel; mret tt
        end;
    run_pipelines pipelines fuel
  end.
(* @src kernel/src/shell/mod.rs 130-154 execute *)
Definition execute (line : string) (fuel : nat) : Prog K unit :=
  match parse_line line with
  | Ok pipelines => run_pipelines pipelines fuel
  | Err e => eprint_line ["shell: syntax error ("; debug_str e; ")"]%string fuel
  end.

(** ** The session *)

(** The line under the cursor is in the reverse order of its bytes, which are printable
    ASCII. *)
(* @src kernel/src/shell/mod.rs 90-124 read_line *)
Fixpoint read_line (buf : list Z) (n fuel : nat) : Prog K (bool * list Z) :=
  r ← vfs_read STDIN 1 n;
  let again buf := match fuel with O => spent | S fuel => read_line buf n fuel end in
  match r with
  | Ok [] => mret (false, buf)
  | Ok (c :: _) =>
    if (c =? 13) || (c =? 10) then _ ← emit [10] n; mret (true, buf)
    else if (c =? 8) || (c =? 127) then
      match buf with [] => again buf | _ :: buf => _ ← emit [8; 32; 8] n; again buf end
    else if c =? 3 then _ ← emit [94; 67; 10] n; mret (true, [])
    else if (32 <=? c) && (c <? 127) then
      if len buf <? MAX_LINE then _ ← emit [c] n; again (c :: buf) else again buf
    else again buf
  | Err WouldBlock => _ ← yield_now; again buf
  | Err _ => mret (false, buf)
  end.

(* @src kernel/src/shell/mod.rs 55-79 run_session (loop) *)
Fixpoint session_loop (user : option string) (n fuel : nat) : Prog K unit :=
  cwd ← call (fun k => (k, cwd_get k));
  let display_cwd := if bool_decide (cwd = "/"%string) then "~"%string else cwd in
  _ ← emit (text (match user with
                  | Some u => [u; "@EspressoOS:"; display_cwd; "$ "]%string
                  | None => ["EspressoOS:"; display_cwd; "$ "]%string end)) n;
  '(more, buf) ← read_line [] n n;
  if negb more then mret tt
  else
    let trimmed := of_bytes (Text.trim (reverse buf)) in
    let again := match fuel with O => spent | S fuel => session_loop user n fuel end in
    if bool_decide (trimmed = ""%string) then again
    else if bool_decide (trimmed = "exit"%string) || bool_decide (trimmed = "quit"%string) || bool_decide (trimmed = "logout"%string) then
      emit_line ["logout"%string] n
    else _ ← execute trimmed n; again.
(* @src kernel/src/shell/mod.rs 27-79 run_session *)
Definition run_session (user : option string) (fuel : nat) : Prog K unit :=
  r ← call (cwd_set "/");
  _ ← match r with
      | Ok _ => mret tt : Prog K unit
      | Err e => emit (text ["shell: cannot reset the working directory: "; debug_str e]%string ++ [10]) fuel
      end;
  _ ← emit (10 :: as_bytes "EspressoOS shell. Type 'help' to see the commands." ++ [10]) fuel;
  session_loop user fuel fuel.

(* @src kernel/src/drivers/ssh/channel.rs 224-230 ssh_shell_entry *)
Definition ssh_shell_entry (user : option string) (fuel : nat) : Prog K unit :=
  exit_code ← run_userland "sh" user fuel;
  when (exit_code <? 0) (run_session user fuel).

(** ** The supervisor of [init] *)

(** Dead children that were adopted give back what they held. *)
Fixpoint drain (k : K) (fuel : nat) : K :=
  match take_zombie_child 1 k with
  | (k, Some (child_pid, _, slot)) => match fuel with O => k | S fuel => drain (release slot child_pid k) fuel end
  | (k, None) => k
  end.
(* @src kernel/src/main.rs 302-313 init_supervisor_task (round) *)
Definition supervise (fuel : nat) : Prog K Z :=
  _ ← Sh.run (fun k => (reap_orphans (drain k (base.size (table (k_pt k)))), tt));
  code ← try_exec "init" [] fuel;
  _ ← yield_now;
  mret code.
End KShell.
