(* ===== verification/KShellOps.v ===== *)
(** * KShellOps: what the shell of the kernel leaves behind

    A line of the shell never panics, whatever it says and however its commands fail,
    and when it ends the shell has the descriptors it had, the processes and the slots
    are well formed and no table is over its limit, provided the commands that are not
    modelled keep these too ([other_ok]).  The stages of a pipeline start with
    the ends of their pipes and nothing else of them. *)

From S2P Require Import Prelude Text Sh Flash Wire Sched SchedOps Slots Process Syscall ProcessOps Path Inode Espfs EspfsOps Vfs VfsOps VfsSpec Elf ElfOps SyscallFs SyscallFsOps VfsDesc Parser KShell.

Open Scope Z_scope.

(** ** Computations that do not panic *)

(** [m] does not panic, and [Q] holds where it comes to its end. *)
Definition safe {W A} (m : Prog W A) (Q : W -> A -> Prop) (w : W) : Prop :=
  match m w with Done (w', a) => Q w' a | Panic => False | Spent => True end.

Section safe.
Context {W : Type}.
Implicit Types w : W.
Lemma safe_ret {A} (a : A) (Q : W -> A -> Prop) w : Q w a -> safe (mret a : Prog W A) Q w.
Proof. done. Qed.
Lemma safe_bind {A B} (m : Prog W A) (f : A -> Prog W B) Q w : safe m (fun w' a => safe (f a) Q w') w -> safe (m ≫= f) Q w.
Proof. unfold safe, mbind, Prog_bind. by destruct (m w) as [[w' a]| |]. Qed.
Lemma safe_mono {A} (m : Prog W A) (P Q : W -> A -> Prop) w : safe m P w -> (forall w' a, P w' a -> Q w' a) -> safe m Q w.
Proof. unfold safe. destruct (m w) as [[w' a]| |]; auto. Qed.
Lemma safe_call {A} (f : W -> W * A) (Q : W -> A -> Prop) w : Q (f w).1 (f w).2 -> safe (call f) Q w.
Proof. unfold safe, call. by destruct (f w). Qed.
Lemma safe_run {A} (f : W -> W * A) (Q : W -> unit -> Prop) w : Q (f w).1 tt -> safe (Sh.run f) Q w.
Proof. done. Qed.
Lemma safe_pure {A} (o : option A) a (Q : W -> A -> Prop) w : o = Some a -> Q w a -> safe (pure o) Q w.
Proof. by intros ->. Qed.
Lemma safe_spent {A} (Q : W -> A -> Prop) w : safe spent Q w.
Proof. done. Qed.
End safe.

#[export] Instance redirect_eq_dec : EqDecision Redirect := ltac:(solve_decision).

Section KShellOps.
Context {F : Type} `{HF : Frame F} {W I : Type} `{HN : !Inode W I, HE : !EqDecision I, HP : !Droppable W I, HPp : !Pipes W I}.
Abbreviation K := (Kernel F (Vfs W I)).
Context (h : Host) (rest : K -> option K) (status_at : Z).
Implicit Types k : K.
(** The process of the shell, the slots that others are loading, and the pids that are
    left whenever the shell runs again. *)
Context (p : Z) (fl : gset Z) (B : Z).

(** The shell runs, with [b] pids to give out. *)
Record shell_ok (b : Z) k : Prop := mkShellOk {
  so_inv : kernel_inv k fl;
  so_tables : tables_ok (k_fds k);
  so_pid : get_current_pid k = Some p;
  so_pids : next_pid (k_pt k) + b < 2 ^ 32 - 1;
}.
(** And its descriptors are [D]. *)
Definition at_ (b : Z) (D : Z -> option (OpenFile I)) k : Prop := shell_ok b k /\ forall fd, desc p (k_fds k) fd = D fd.

(** The other tasks leave the shell its descriptors, and keep what is well formed. *)
Definition resting : Prop := forall D k k', at_ 0 D k -> rest k = Some k' -> at_ B D k'.
(** [m] keeps the descriptors of the shell. *)
Definition keeps {A} (b b' : Z) (m : Prog K A) : Prop := forall D k, at_ b D k -> safe m (fun k' _ => at_ b' D k') k.

(** No inode takes more bytes than it was given. *)
Definition writes_within : Prop := forall (i : I) off buf (w w' : W) n, i_write_at i off buf w = (w', Ret (Ok n)) -> n <= len buf.

Hypothesis B_pos : 0 <= B.
Hypothesis within : writes_within.
Hypothesis rest_ok : resting.

Lemma at_less b b' D k : b' <= b -> at_ b D k -> at_ b' D k.
Proof. intros Hb [[H1 H2 H3 H4] HD]. split; [|done]. split; [done..|lia]. Qed.

Lemma at_caller b D k : at_ b D k -> pid_or_0 (caller_of k) = p.
Proof. intros [Hk _]. unfold pid_or_0. cbn. by rewrite (so_pid _ _ Hk). Qed.

(** A change of the VFS as a call of the shell makes it. *)
Lemma at_own b D D' k v : at_ b D k -> own_table (caller_of k) (k_fds k) v -> (forall fd, desc p v fd = D' fd) -> at_ b D' (k_set_fds v k).
Proof.
  intros [[H1 H2 H3 H4] _] Ho HD. split; [|done]. split; [|apply Ho|done|done].
  apply (own_call_inv k); [done|done|]. by apply oc_vfs.
Qed.
Lemma at_steady b D k v : at_ b D k -> own_table (caller_of k) (k_fds k) v -> steady (k_fds k) v -> at_ b D (k_set_fds v k).
Proof. intros Hk Ho Hs. eapply at_own; [exact Hk|done|]. intros fd. rewrite Hs. apply Hk. Qed.

Lemma keeps_then {A C} b b1 b' (m : Prog K A) (f : A -> Prog K C) : keeps b b1 m -> (forall a, keeps b1 b' (f a)) -> keeps b b' (m ≫= f).
Proof. intros Hm Hf D k Hk. apply safe_bind. eapply safe_mono; [by apply Hm|]. intros k' a Hk'. by apply Hf. Qed.
Lemma keeps_ret {A} b (a : A) : keeps b b (mret a : Prog K A).
Proof. by intros D k Hk. Qed.
Lemma keeps_spent {A} b b' : keeps b b' (spent : Prog K A).
Proof. by intros D k Hk. Qed.
Lemma keeps_less {A} b b1 b' b2 (m : Prog K A) : keeps b1 b2 m -> b1 <= b -> b' <= b2 -> keeps b b' m.
Proof. intros Hm H1 H2 D k Hk. eapply safe_mono; [by eapply Hm, at_less|]. intros k' a. by apply at_less. Qed.
Lemma keeps_if {A} b b' (c : bool) (m n : Prog K A) : keeps b b' m -> keeps b b' n -> keeps b b' (if c then m else n).
Proof. by destruct c. Qed.

Lemma keeps_yield b : 0 <= b <= B -> keeps b b (yield_now rest).
Proof.
  intros Hb D k Hk. unfold safe, yield_now. destruct (rest k) as [k'|] eqn:E; [|done].
  apply (at_less B); [lia|]. eapply rest_ok; [|exact E]. eapply at_less; [|exact Hk]. lia.
Qed.

(** A call that changes nothing but the world of the files. *)
Lemma keeps_vcall {A} b (m : Caller -> ST (Vfs W I) A) :
  (forall c v, tables_ok v -> own_table c v (m c v).1 /\ steady v (m c v).1) -> keeps b b (vcall_ m).
Proof.
  intros Hm D k Hk. apply safe_call. rewrite via_vfs_eq. cbn [fst]. destruct (Hm (caller_of k) (k_fds k)) as [Ho Hs]; [apply Hk|].
  by eapply at_steady.
Qed.
Lemma keeps_world_only {A} b (m : Caller -> ST (Vfs W I) A) : (forall c, world_only (m c)) -> keeps b b (vcall_ m).
Proof. intros Hm. apply keeps_vcall. intros c v Hv. split; [by apply own_world_only|by apply steady_world_only]. Qed.

(** A call of an inode that may have to be made again. *)
Lemma retry_spec {A} b D (m : IO (Vfs W I) A) (R : KResult A -> Prop) fuel : 0 <= b <= B ->
  (forall c v, pid_or_0 c = p -> tables_ok v -> own_table c v (m v).1 /\ steady v (m v).1) ->
  (forall v v' r, m v = (v', Ret r) -> R r) ->
  forall k, at_ b D k -> safe (retry rest m fuel) (fun k' r => at_ b D k' /\ R r) k.
Proof.
  intros Hb Hm HR. induction fuel as [|fuel IH]; intros k Hk.
  all: pose proof (at_caller _ _ _ Hk) as Hc; destruct (Hm _ (k_fds k) Hc) as [Ho Hs]; [apply Hk|].
  all: pose proof (at_steady _ _ _ _ Hk Ho Hs) as Hk'; unfold safe; cbn [retry].
  all: destruct (m (k_fds k)) as [v [r|]] eqn:E; cbn [fst] in *; [split; [done|]; by eapply HR|].
  - done.
  - destruct (rest (k_set_fds v k)) as [k2|] eqn:E2; [|done]. apply IH. apply (at_less B); [lia|]. eapply rest_ok; [|exact E2]. eapply at_less; [|exact Hk']. lia.
Qed.

Lemma keeps_read b fd n fuel : 0 <= b <= B -> keeps b b (vfs_read rest fd n fuel).
Proof.
  intros Hb D k Hk. unfold safe, vfs_read. destruct (file_of _ _ _) as [f|e]; [|done]. destruct (negb _); [done|].
  rewrite (at_caller _ _ _ Hk). eapply safe_mono; [eapply (retry_spec b D _ (fun _ => True)); [done| |done|done]|by intros k' a []].
  intros c v Hc Hv. split; [|apply read_inode_desc]. rewrite <- Hc. by apply own_read_inode.
Qed.
Lemma vfs_write_spec b D fd buf fuel k : 0 <= b <= B -> at_ b D k ->
  safe (vfs_write rest fd buf fuel) (fun k' r => at_ b D k' /\ forall n, r = Ok n -> n <= len buf) k.
Proof.
  intros Hb Hk. unfold safe, vfs_write. destruct (file_of _ _ _) as [f|e]; [|done]. destruct (negb _); [done|]. cbn zeta.
  rewrite (at_caller _ _ _ Hk). apply (retry_spec b D _ (fun r => forall n, r = Ok n -> n <= len buf)); [done| | |done].
  - intros c v Hc Hv. split; [|apply write_inode_desc]. rewrite <- Hc. by apply own_write_inode.
  - intros v v' r. unfold write_inode. destruct (i_write_at _ _ _ _) as [w [[x|e]|]] eqn:E; [|by intros [= _ <-]|done].
    destruct (checked_add64 _ _); intros [= _ <-]; [|done]. intros n [= ->]. by eapply within.
Qed.
Lemma keeps_vfs_write b fd buf fuel : 0 <= b <= B -> keeps b b (vfs_write rest fd buf fuel).
Proof. intros Hb D k Hk. eapply safe_mono; [by apply vfs_write_spec|]. by intros k' a []. Qed.

(** ** Output *)

Lemma keeps_write_loop b fd failed n fuel : 0 <= b <= B -> (forall e, keeps b b (failed e)) ->
  forall bytes, keeps b b (write_loop rest fd bytes failed n fuel).
Proof.
  intros Hb Hf. induction fuel as [|fuel IH]; intros bytes; cbn [write_loop]; case_bool_decide; try apply keeps_ret.
  all: intros D k Hk; apply safe_bind; eapply safe_mono; [by apply (vfs_write_spec b)|]; intros k1 [w|e] [Hk1 Hw]; cbn zeta.
  - destruct (w =? 0); [apply safe_bind; eapply safe_mono; [by apply keeps_yield|done]|]. rewrite (proj2 (Z.leb_le _ _)) by auto. done.
  - destruct e; try (by apply Hf); try done. apply safe_bind; eapply safe_mono; [by apply keeps_yield|done].
  - destruct (w =? 0); [apply safe_bind; eapply safe_mono; [by apply keeps_yield|]; intros k2 [] Hk2; by apply IH|]. rewrite (proj2 (Z.leb_le _ _)) by auto. by apply IH.
  - destruct e; try (by apply Hf); try done. apply safe_bind; eapply safe_mono; [by apply keeps_yield|]. intros k2 [] Hk2. by apply IH.
Qed.
Lemma keeps_write_all b fd bytes fuel : 0 <= b <= B -> keeps b b (write_all rest fd bytes fuel).
Proof.
  intros Hb. apply keeps_write_loop; [done|]. intros e. unfold Sh.when. destruct (negb _); [|apply keeps_ret].
  apply keeps_write_loop; [done|]. intros e'. apply keeps_ret.
Qed.
Lemma keeps_emit b bytes fuel : 0 <= b <= B -> keeps b b (emit rest bytes fuel).
Proof. apply keeps_write_all. Qed.
Lemma keeps_emit_line b l fuel : 0 <= b <= B -> keeps b b (emit_line rest l fuel).
Proof. intros Hb. eapply keeps_then; [by apply keeps_emit|]. intros _. by apply keeps_emit. Qed.
Lemma keeps_eprint b l fuel : 0 <= b <= B -> keeps b b (eprint_line rest l fuel).
Proof. intros Hb. eapply keeps_then; [by apply keeps_write_all|]. intros _. by apply keeps_write_all. Qed.

(** ** Starting a program *)

(** The operations of the scheduler that keep the running task. *)
Lemma current_with_sched {R} (f : Scheduler (F := F) -> Scheduler * R) g : (forall s, current_ (f s).1 = current_ s) -> current (with_sched f g).1 = current g.
Proof. intros Hf. unfold current, with_sched. destruct (sched g) as [s|] eqn:E; cbn; [|by rewrite E]. specialize (Hf s). by destruct (f s). Qed.
Lemma current_user t u (g : SchedState (F := F)) : current (set_task_user t u g) = current g.
Proof. by apply current_with_sched. Qed.
Lemma current_unblock t (g : SchedState (F := F)) : current (unblock_task t g) = current g.
Proof. apply current_with_sched. intros s. destruct (tasks s !! t); [|done]. by case_decide. Qed.
Lemma current_block (g : SchedState (F := F)) : current (block_current_noswitch g) = current g.
Proof. unfold block_current_noswitch. cbn. change (current (set_need_resched ?x)) with (current x). by apply current_with_sched. Qed.
Lemma current_spawn tr hp name entry arg size prio u b (g : SchedState (F := F)) : current (spawn_inner tr hp name entry arg size prio u b g).1 = current g.
Proof.
  unfold spawn_inner, mbind, ST_bind, spawn_reserve, lift.
  match goal with |- context [with_sched ?f g] => pose proof (current_with_sched f g) as H1; destruct (with_sched f g) as [g1 [r|]] end; cbn [fst] in H1.
  - assert (E1 : current g1 = current g) by (apply H1; intros s; by destruct (checked_add32 _ _)). destruct r as [tid|e]; [|done].
    destruct (spawn_task _ _ _ _ _ _ _ _ _) as [t|e]; [|done]. unfold spawn_insert.
    match goal with |- context [with_sched ?f g1] => pose proof (current_with_sched f g1) as H2; destruct (with_sched f g1) as [g2 [x|]] end; cbn [fst] in *.
    all: rewrite H2; [done|intros s; by destruct b].
  - cbn. apply H1. intros s. by destruct (checked_add32 _ _).
Qed.

Lemma at_ext b D D' k : at_ b D k -> (forall fd, D fd = D' fd) -> at_ b D' k.
Proof. intros [Hk HD] E. split; [done|]. intros fd. by rewrite HD. Qed.

(** A change of anything but the processes, the slots and the descriptors. *)
Lemma at_quiet b D k k' : at_ b D k -> k_pt k' = k_pt k -> k_slots k' = k_slots k -> k_fds k' = k_fds k ->
  current (k_sched k') = current (k_sched k) -> next_tid_of (k_sched k) <= next_tid_of (k_sched k') -> at_ b D k'.
Proof.
  intros [[H1 H2 H3 H4] HD] E1 E2 E3 E4 E5. split; [|by rewrite E3]. split; rewrite ?E1, ?E3; try done.
  - by apply (kernel_inv_ext k).
  - unfold get_current_pid. by rewrite E1, E4.
Qed.

Lemma kernel_inv_tables k v fl' : kernel_inv k fl' -> dom (v_tables v) = dom (v_tables (k_fds k)) -> kernel_inv (k_set_fds v k) fl'.
Proof. intros [I1 I2 I3 I4 I5 I6 I7] E. split; try done. intros c Hc. apply I7. cbn in *. by rewrite <- E. Qed.

(** The descriptors of a child before it runs. *)
Definition child_view (stdin stdout : Z) (close_in_child : list Z) (D : Z -> option (OpenFile I)) : Z -> option (OpenFile I) :=
  let D := if negb (stdin =? STDIN) then dup_view stdin STDIN D else D in
  let D := if negb (stdout =? STDOUT) then dup_view stdout STDOUT D else D in
  close_view close_in_child D.

(** A child that was started: it is new, has the descriptors [V], and nobody else's
    change. *)
Record started (V : Z -> option (OpenFile I)) k k' (pid : Z) : Prop := mkStarted {
  sd_pid : pid = next_pid (k_pt k);
  sd_new : table (k_pt k) !! pid = None;
  sd_child : exists q, table (k_pt k') !! pid = Some q /\ parent_pid q = Some p /\ p_state q = PRunning;
  sd_view : forall fd, desc pid (k_fds k') fd = V fd;
  sd_others : forall q fd, q <> pid -> desc q (k_fds k') fd = desc q (k_fds k) fd;
  sd_procs : forall q r, table (k_pt k) !! q = Some r -> q <> p -> table (k_pt k') !! q = Some r;
}.

Lemma pid_fresh k fl' : kernel_inv k fl' -> table (k_pt k) !! next_pid (k_pt k) = None /\ v_tables (k_fds k) !! next_pid (k_pt k) = None /\ 1 <= next_pid (k_pt k).
Proof.
  intros Hk. pose proof (pi_next _ (ki_pt _ _ Hk)) as Hn.
  assert (Ht : table (k_pt k) !! next_pid (k_pt k) = None) by (destruct (table _ !! _) as [q|] eqn:E; [apply (pi_key _ (ki_pt _ _ Hk)) in E; lia|done]).
  split; [done|]. split; [|done]. destruct (v_tables _ !! _) as [t|] eqn:E; [|done]. exfalso. apply elem_of_dom_2 in E.
  destruct (ki_fds _ _ Hk _ E) as [H0|[q Hq]]; [lia|congruence].
Qed.

Lemma register_fields name tid u sl k : get_current_pid k = Some p ->
  let k' := (register_process name tid u sl k).1 in
  (register_process name tid u sl k).2 = next_pid (k_pt k) /\
  k_fds k' = clone_fd_table p (next_pid (k_pt k)) (k_fds k) /\ current (k_sched k') = current (k_sched k) /\
  next_pid (k_pt k') = u32 (next_pid (k_pt k) + 1) /\ k_slots k' = k_slots k /\
  by_tid (k_pt k') = <[tid := next_pid (k_pt k)]> (by_tid (k_pt k)) /\
  (forall q r, q <> p -> table (k_pt k) !! q = Some r -> q <> next_pid (k_pt k) -> table (k_pt k') !! q = Some r) /\
  (p <> next_pid (k_pt k) -> exists q, table (k_pt k') !! next_pid (k_pt k) = Some q /\ parent_pid q = Some p /\ p_state q = PRunning).
Proof.
  intros Hp k'. unfold k', register_process, get_current_pid in *. cbn zeta.
  set (pt1 := mkTable (table (k_pt k)) (by_tid (k_pt k)) (u32 (next_pid (k_pt k) + 1))).
  assert (E : pid_of_tid (current (k_sched k)) pt1 = Some p) by exact Hp. rewrite E.
  set (proc := mkProcess _ _ _ _ _ _ _ _ _ _ _ _ _).
  destruct u; cbn [fst snd k_fds k_pt k_sched k_slots k_set_sched k_set_fds k_set_pt]; (split; [done|]); (split; [done|]);
    (split; [by cbn; rewrite ?current_user|]); (split; [done|]); (split; [done|]); (split; [done|]); split.
  all: try (intros q r Hq Hr Hne; cbn; rewrite lookup_alter_ne by done; by rewrite lookup_insert_ne).
  all: intros Hne; exists proc; split; [|done]; cbn; rewrite lookup_alter_ne by done; by rewrite lookup_insert_eq.
Qed.
(** The edits of [spawn_child] on the table of the child. *)
Lemma dup_in_view n (c : bool) o m v D : tables_ok v -> 0 <= m < MAX_OPEN_FILES -> (forall fd, desc n v fd = D fd) ->
  let v' := if c then (dup2_in n o m v).1 else v in
  tables_ok v' /\ dom (v_tables v') = dom (v_tables v) /\ becomes n v v' (if c then dup_view o m D else D).
Proof.
  intros Hv Hm HD. destruct c; cbn zeta; [|by split_and!].
  destruct (dup2_in_own n o m v Hv) as [H1 H2]. split; [done|]. split; [done|]. destruct (dup2_in_desc n o m v Hv Hm) as [H3 H4]. split; [|done].
  intros fd. rewrite H3. unfold dup_view. rewrite HD. destruct (D o); [|done]. unfold upd. case_decide; [done|apply HD].
Qed.
Lemma edit_view n stdin stdout close v D : tables_ok v -> (forall fd, desc n v fd = D fd) ->
  let v1 := if negb (stdin =? STDIN) then (dup2_in n stdin STDIN v).1 else v in
  let v2 := if negb (stdout =? STDOUT) then (dup2_in n stdout STDOUT v1).1 else v1 in
  let v3 := foldl (fun v fd => close_in n fd v) v2 close in
  tables_ok v3 /\ dom (v_tables v3) = dom (v_tables v) /\ becomes n v v3 (child_view stdin stdout close D).
Proof.
  intros Hv HD v1 v2 v3. unfold child_view. cbn zeta.
  destruct (dup_in_view n (negb (stdin =? STDIN)) stdin STDIN v D Hv ltac:(done) HD) as (A1 & A2 & A3 & A4).
  destruct (dup_in_view n (negb (stdout =? STDOUT)) stdout STDOUT v1 _ A1 ltac:(done) A3) as (B1 & B2 & B3 & B4).
  destruct (close_ins_own n close v2 B1) as [C1 C2]. destruct (close_ins_desc n close v2 _ B3) as [C3 C4].
  split; [exact C1|]. split; [etransitivity; [exact C2|]; etransitivity; [exact B2|exact A2]|]. split; [exact C3|].
  intros q fd Hq. etransitivity; [by apply C4|]. etransitivity; [by apply B4|by apply A4].
Qed.

(** From the loaded image on: [k0] is the state before the load. *)
Lemma start_child_spec name args stdin stdout close ld b D fuel k0 k :
  0 <= b <= B -> shell_ok (b + 1) k0 -> k_sched k = k_sched k0 -> k_pt k = k_pt k0 ->
  kernel_inv k ({[Elf.slot ld]} ∪ fl) -> Elf.slot ld ∉ fl -> tables_ok (k_fds k) -> (forall fd, desc p (k_fds k) fd = D fd) ->
  safe (start_child h rest name args stdin stdout close ld fuel)
    (fun k' c => at_ b D k' /\ match c with Child pid => started (child_view stdin stdout close D) k k' pid | Failed _ => True end) k.
Proof.
  intros Hb Hk0 Es Ep Hk Hfl Hv HD. pose proof (so_pid _ _ Hk0) as Hp. pose proof (so_pids _ _ Hk0) as Hn.
  assert (Hpk : get_current_pid k = Some p) by (unfold get_current_pid in *; by rewrite Es, Ep). rewrite <- Ep in Hn.
  assert (Efl : ({[Elf.slot ld]} ∪ fl) ∖ {[Elf.slot ld]} = fl) by set_solver.
  assert (Hin : Elf.slot ld ∈ {[Elf.slot ld]} ∪ fl) by set_solver.
  (* the failures give the slot back *)
  assert (Hfail : forall k1 msg, k_pt k1 = k_pt k -> k_slots k1 = slot_free (Elf.slot ld) (k_slots k) -> k_fds k1 = k_fds k ->
    current (k_sched k1) = current (k_sched k) -> next_tid_of (k_sched k) <= next_tid_of (k_sched k1) ->
    safe (_ ← eprint_line rest msg fuel; mret (Failed 126))
      (fun k' c => at_ b D k' /\ match c with Child pid => started (child_view stdin stdout close D) k k' pid | Failed _ => True end) k1).
  { intros k1 msg E1 E2 E3 E4 E5. assert (Hk1 : at_ b D k1).
    { split; [|by rewrite E3]. split; rewrite ?E1, ?E3; try done; [|unfold get_current_pid; by rewrite E1, E4|lia].
      pose proof (slot_free_kernel_inv _ _ _ Hk Hin) as Hf. rewrite Efl in Hf. by eapply kernel_inv_ext. }
    apply safe_bind. eapply safe_mono; [by apply (keeps_eprint b)|]. by intros k' a Hk'. }
  unfold safe, start_child. destruct (write_argv _ _ _) as [mem [argv_ptr|e]]; [|by apply (Hfail (k_set_slots (slot_free (Elf.slot ld) (k_slots k)) (k_set_mem mem k)))].
  cbn zeta. pose proof (spawn_next_tid (tramp h) (heap h) name (Elf.entry ld) argv_ptr DEFAULT_STACK_SIZE EXEC_PRIO true true (k_sched k)) as Hs.
  pose proof (current_spawn (tramp h) (heap h) name (Elf.entry ld) argv_ptr DEFAULT_STACK_SIZE EXEC_PRIO true true (k_sched k)) as Hc.
  change (k_sched (k_set_mem mem k)) with (k_sched k). unfold spawn_blocked. destruct (spawn_inner _ _ _ _ _ _ _ _ _ _) as [g [tid|e]]; cbn [fst] in Hc.
  2: { by apply (Hfail (k_set_slots (slot_free (Elf.slot ld) (k_slots k)) (k_set_sched g (k_set_mem mem k)))). }
  destruct Hs as [-> Hg]. set (k1 := k_set_sched g (k_set_mem mem k)).
  assert (Hk1 : kernel_inv k1 ({[Elf.slot ld]} ∪ fl)) by (eapply kernel_inv_ext; [exact Hk|done..|cbn; lia]).
  assert (Hp1 : get_current_pid k1 = Some p) by (unfold get_current_pid in *; cbn; by rewrite Hc).
  assert (Htid : by_tid (k_pt k) !! next_tid_of (k_sched k) = None).
  { destruct (by_tid (k_pt k) !! _) eqn:E; [|done]. apply (ki_tids _ _ Hk) in E. lia. }
  destruct (register_kernel_inv name (next_tid_of (k_sched k)) true (Some (Elf.slot ld)) k1 _ Hk1) as [Hr Ht]; [cbn; lia|cbn; lia|done|by intros ? [= <-]|].
  destruct (register_fields name (next_tid_of (k_sched k)) true (Some (Elf.slot ld)) k1 Hp1) as (R1 & R2 & R3 & R4 & _ & R6 & R7 & R8).
  destruct (pid_fresh k _ Hk) as (F1 & F2 & F3).
  assert (Hpp : p <> next_pid (k_pt k)) by (intros ->; apply (pi_tid _ (ki_pt _ _ Hk)) in Hpk as (q & Hq & _); congruence).
  change (k_pt k1) with (k_pt k) in *. change (k_fds k1) with (k_fds k) in *. cbn zeta in *.
  destruct (register_process name (next_tid_of (k_sched k)) true (Some (Elf.slot ld)) k1) as [k2 pid]. cbn [fst snd] in *. subst pid. rewrite Efl in Hr.
  set (n := next_pid (k_pt k)) in *.
  assert (Hv2 : tables_ok (k_fds k2)).
  { rewrite R2. unfold clone_fd_table. destruct (v_tables (k_fds k) !! p) as [t|] eqn:Et; [|done]. intros q u. cbn.
    intros [[<- <-]|[_ Hu]]%lookup_insert_Some; by eapply Hv. }
  destruct (clone_desc p n (k_fds k) F2) as [C1 C2]. rewrite <- R2 in C1, C2.
  destruct (edit_view n stdin stdout close (k_fds k2) D Hv2) as (E1 & E2 & E3 & E4); [intros fd; by rewrite C1|]. cbn zeta in *.
  match type of E1 with tables_ok ?v => set (v3 := v) in * end.
  set (k3 := k_set_fds v3 k2). split.
  - split; [|intros fd; cbn; by rewrite E4, C2]. split; cbn; [|exact E1| |].
    + eapply kernel_inv_ext; [apply (kernel_inv_tables k2 v3 fl Hr E2)|done..|]. cbn. rewrite next_tid_unblock. done.
    + unfold get_current_pid, pid_of_tid in *. cbn. rewrite current_unblock, R3, R6. rewrite lookup_insert_ne; [exact Hp1|].
      intros E. change (by_tid (k_pt k1)) with (by_tid (k_pt k)) in Hp1. by rewrite <- E, Htid in Hp1.
    + rewrite R4, u32_small; lia.
  - split; cbn; try done.
    + by apply R8.
    + intros q fd Hq. by rewrite E4, C2.
    + intros q r Hq Hne. apply R7; [done|done|congruence].
Qed.
Lemma started_from V k k1 k' pid : k_pt k1 = k_pt k -> steady (k_fds k) (k_fds k1) -> started V k1 k' pid -> started V k k' pid.
Proof. intros E Hs [H1 H2 H3 H4 H5 H6]. rewrite E in *. split; try done. intros q fd Hq. by rewrite H5, Hs. Qed.

Lemma spawn_child_spec name args stdin stdout close b D fuel k : 0 <= b <= B -> at_ (b + 1) D k ->
  safe (spawn_child h rest name args stdin stdout close fuel)
    (fun k' c => at_ b D k' /\ match c with Child pid => started (child_view stdin stdout close D) k k' pid | Failed _ => True end) k.
Proof.
  intros Hb Hk. pose proof Hk as [[Hi Hv Hp Hn] HD]. unfold safe, spawn_child.
  pose proof (load_elf_accounts (link_data h) (k_data_base k) (caller_of k) (program_path name) (mkLoader (k_fds k) (k_slots k) (k_mem k))) as Ha.
  pose proof (load_elf_owned (link_data h) (k_data_base k) (caller_of k) (program_path name) (mkLoader (k_fds k) (k_slots k) (k_mem k)) Hv) as Ho.
  pose proof (load_elf_desc (link_data h) (k_data_base k) (caller_of k) (program_path name) (mkLoader (k_fds k) (k_slots k) (k_mem k))) as Hd.
  destruct (load_elf _ _ _ _ _) as [l [r|]]; [|done].
  destruct (Ha l _ (ki_used _ _ Hi) eq_refl) as [Hu Hs]. specialize (Hd l r Hv eq_refl). cbn [fst l_vfs l_slots] in *. clear Ha.
  set (k1 := k_set_fds (l_vfs l) (k_set_mem (l_mem l) k)).
  assert (Hk1 : at_ (b + 1) D k1) by (apply (at_steady (b + 1) D (k_set_mem (l_mem l) k)); [by apply (at_quiet _ _ k)|done|done]).
  assert (Herr : forall e msg code, r = Err e ->
    safe (_ ← eprint_line rest msg fuel; mret (Failed code))
      (fun k' c => at_ b D k' /\ match c with Child pid => started (child_view stdin stdout close D) k k' pid | Failed _ => True end)
      (k_set_fds (l_vfs l) (k_set_slots (l_slots l) (k_set_mem (l_mem l) k)))).
  { intros e msg code ->. apply safe_bind. eapply safe_mono; [apply (keeps_eprint b msg fuel Hb D)|by intros k' a Hk'].
    apply (at_less (b + 1)); [lia|]. destruct Hk1 as [[J1 J2 J3 J4] JD]. split; [|done]. split; try done. by apply (same_slots_inv k1). }
  destruct r as [ld|e]; [|destruct e; by eapply Herr].
  destruct Hs as (H1 & _ & H2). destruct (loaded_inv k1 fl (l_slots l) (Elf.slot ld) (so_inv _ _ (proj1 Hk1)) H1 Hu H2) as [Hk2 Hfl].
  eapply safe_mono; [apply (start_child_spec name args stdin stdout close ld b D fuel k); [done|apply Hk|done|done|exact Hk2|done|apply Ho|apply Hk1]|].
  intros k' c [Hk' Hc]. split; [done|]. destruct c; [|done]. by eapply started_from; [| |exact Hc].
Qed.
Lemma keeps_spawn name args stdin stdout close b fuel : 0 <= b <= B -> keeps (b + 1) b (spawn_child h rest name args stdin stdout close fuel).
Proof. intros Hb D k Hk. eapply safe_mono; [by apply spawn_child_spec|]. by intros k' a []. Qed.

(** ** Waiting *)

Lemma wait_step b D args k : at_ b D k -> at_ b D (sys_wait args k).1.
Proof.
  intros [[Hi Hv Hp Hn] HD]. pose proof (wait_contained args k fl Hv Hi) as (Hv' & _ & _). pose proof (sys_wait_inv args k fl Hi) as Hi'. revert Hv' Hi'.
  unfold sys_wait. destruct (if arg args 0 =? 0 then _ else _); [|done].
  unfold get_current_pid in Hp. rewrite Hp. destruct (negb (has_children p k)); [done|].
  pose proof (take_zombie_spec p k fl Hi) as Ht. destruct (take_zombie_child p k) as [k1 [[[cpid code] sl]|]].
  - destruct Ht as (pp & proc & pt' & Hpp & Hcp & Hproc & _ & _ & -> & E & ->). cbn [fst]. intros Hv' Hi'.
    destruct (remove_process_spec _ _ _ (ki_pt _ _ Hi) Hproc) as (pt0 & E0 & _ & Hb0 & Hn0). rewrite E0 in E. injection E as ->.
    destruct (pi_children _ (ki_pt _ _ Hi) _ _ Hpp) as [_ Hch]. destruct (Hch _ Hcp) as (proc' & Hproc' & Hpar).
    assert (Hlt : p < cpid) by (by apply (pi_parent _ (ki_pt _ _ Hi) _ _ _ Hproc' Hpar)).
    set (k2 := if arg args 0 =? 0 then _ else _) in *.
    assert (E1 : k_fds (release (Process.slot proc) cpid k2) = cleanup_process_fds cpid (k_fds k) /\ k_pt (release (Process.slot proc) cpid k2) = pt' /\
      k_sched (release (Process.slot proc) cpid k2) = k_sched k) by (unfold k2, release; by destruct (arg args 0 =? 0), (Process.slot proc)).
    destruct E1 as (E1 & E2 & E3). split; [split; [done|done| |]|].
    + unfold get_current_pid, pid_of_tid in *. rewrite E2, E3, Hb0. rewrite lookup_delete_ne; [done|]. intros Em.
      apply (pi_tid _ (ki_pt _ _ Hi)) in Hp as (q & Hq & Hm). assert (by_tid (k_pt k) !! main_task proc = Some cpid) by (apply (pi_tid _ (ki_pt _ _ Hi)); eauto).
      assert (by_tid (k_pt k) !! main_task q = Some p) by (apply (pi_tid _ (ki_pt _ _ Hi)); eauto). rewrite Em in *. assert (cpid = p) by congruence. lia.
    + by rewrite E2, Hn0.
    + intros fd. rewrite E1, <- HD. unfold desc, cleanup_process_fds. cbn. by rewrite lookup_delete_ne by lia.
  - destruct Ht as [-> _]. intros _ _. destruct (negb _); [done|]. cbn. apply (at_quiet b D k); [done|done|done|done| |].
    + cbn. change (current (set_restart_syscall ?x)) with (current x). apply current_block.
    + cbn. change (next_tid_of (set_restart_syscall ?x)) with (next_tid_of x). rewrite next_tid_block. lia.
Qed.
Lemma keeps_wait_loop b fuel : 0 <= b <= B -> keeps b b (wait_loop rest status_at fuel).
Proof.
  intros Hb. induction fuel as [|fuel IH]; intros D k Hk; unfold safe; cbn [wait_loop].
  all: pose proof (wait_step b D [status_at; 0] k Hk) as Hw; destruct (sys_wait _ k) as [k1 r]; cbn [fst] in Hw.
  all: assert (Hw' : at_ b D (k_set_sched (take_restart_syscall (k_sched k1)).1 k1)) by (by apply (at_quiet b D k1)).
  all: destruct (take_restart_syscall (k_sched k1)) as [g restart]; cbn [fst] in Hw'; destruct restart; [|done].
  1: done.
  destruct (rest _) as [k2|] eqn:E; [|done]. apply IH. apply (at_less B); [lia|]. eapply rest_ok; [|exact E]. eapply at_less; [|exact Hw']. lia.
Qed.
Lemma keeps_invoke b fuel : 0 <= b <= B -> keeps b b (invoke_wait rest status_at fuel).
Proof.
  intros Hb D k Hk. apply safe_bind, safe_run. cbn [fst]. apply safe_bind. eapply safe_mono; [apply (keeps_wait_loop b fuel Hb D); by apply (at_quiet b D k)|].
  intros k1 r Hk1. by apply safe_bind, safe_call.
Qed.
Lemma keeps_wait_each b n last fuel : 0 <= b <= B -> forall st, keeps b b (wait_each rest status_at n last st fuel).
Proof.
  intros Hb. induction n as [|n IH]; intros st; cbn [wait_each]; [apply keeps_ret|].
  eapply keeps_then; [by apply keeps_invoke|]. intros [reaped status]. apply keeps_if; [|apply IH].
  eapply keeps_then; [by apply keeps_eprint|]. intros _. apply keeps_ret.
Qed.
Lemma keeps_wait_all b pids fuel : 0 <= b <= B -> keeps b b (wait_all rest status_at pids fuel).
Proof. intros Hb. unfold wait_all. destruct (last pids); [by apply keeps_wait_each|apply keeps_ret]. Qed.
Lemma keeps_exec b name args fuel : 0 <= b <= B -> keeps (b + 1) b (try_exec h rest status_at name args fuel).
Proof.
  intros Hb. eapply keeps_then; [by apply keeps_spawn|]. intros [pid|code]; [by apply keeps_wait_all|apply keeps_ret].
Qed.

(** ** Descriptors that change *)

Lemma lowest_ext (D D' : Z -> option (OpenFile I)) fd : (forall x, D x = D' x) -> lowest D fd -> lowest D' fd.
Proof. intros E (H1 & H2 & H3). split; [done|]. rewrite <- E. split; [done|]. intros x Hx. rewrite <- E. by apply H3. Qed.
Lemma upd_ext (D D' : Z -> option (OpenFile I)) fd o x : (forall x, D x = D' x) -> upd D fd o x = upd D' fd o x.
Proof. intros E. unfold upd. by case_decide. Qed.

(** Nothing of the other processes changes. *)
Definition others k k' : Prop := k_pt k' = k_pt k /\ forall q fd, q <> p -> desc q (k_fds k') fd = desc q (k_fds k) fd.

Lemma open_spec b D path flags k : at_ b D k ->
  safe (vcall_ (fun c => open c path flags)) (fun k' r => others k k' /\
    match r with Ok fd => lowest D fd /\ exists f, at_ b (upd D fd (Some f)) k' | Err _ => at_ b D k' end) k.
Proof.
  intros Hk. apply safe_call. rewrite via_vfs_eq. cbn [fst snd]. pose proof (at_caller _ _ _ Hk) as Hc.
  assert (Hv : tables_ok (k_fds k)) by apply Hk.
  pose proof (own_open (caller_of k) path flags (k_fds k) Hv) as Ho. pose proof (open_desc (caller_of k) path flags (k_fds k) Hv) as Hd. rewrite Hc in Hd.
  destruct (open _ _ _ _) as [v [fd|e]]; cbn [fst] in *; [|split; [by split; [|intros; apply Hd]|by apply at_steady]].
  destruct Hd as [Hl (f & H1 & H2)]. split; [by split|]. split; [eapply lowest_ext; [|exact Hl]; apply Hk|]. exists f. eapply at_own; [exact Hk|done|].
  intros fd'. rewrite H1. apply upd_ext, Hk.
Qed.
Lemma close_spec b D fd k : at_ b D k -> safe (close_ fd) (fun k' _ => at_ b (upd D fd None) k') k.
Proof.
  intros Hk. apply safe_run. rewrite via_vfs_eq. cbn [fst]. pose proof (at_caller _ _ _ Hk) as Hc.
  destruct (close_desc (caller_of k) fd (k_fds k)) as [H1 _]. rewrite Hc in H1. eapply at_own; [exact Hk|apply vcall_own; [apply vc_close|apply Hk]|].
  intros fd'. rewrite H1. apply upd_ext, Hk.
Qed.
Lemma dup_spec b D fd k : at_ b D k ->
  safe (vcall_ (fun c => dup c fd)) (fun k' r =>
    match r with Ok x => lowest D x /\ is_Some (D fd) /\ at_ b (upd D x (D fd)) k' | Err _ => at_ b D k' end) k.
Proof.
  intros Hk. apply safe_call. rewrite via_vfs_eq. cbn [fst snd]. pose proof (at_caller _ _ _ Hk) as Hc. assert (Hv : tables_ok (k_fds k)) by apply Hk.
  pose proof (vcall_own _ _ _ (vc_dup (caller_of k) fd (k_fds k)) Hv) as Ho. pose proof (dup_desc (caller_of k) fd (k_fds k) Hv) as Hd. rewrite Hc in Hd.
  destruct (dup _ _ _) as [v [x|e]]; cbn [fst] in *; [|by apply at_steady]. destruct Hd as (Hl & Hs & H1 & _).
  rewrite (proj2 Hk fd) in Hs, H1. split; [eapply lowest_ext; [|exact Hl]; apply Hk|]. split; [done|]. eapply at_own; [exact Hk|done|].
  intros fd'. rewrite H1. apply upd_ext, Hk.
Qed.
Lemma dup2_spec b D o n k : 0 <= o -> 0 <= n < MAX_OPEN_FILES -> at_ b D k ->
  safe (vcall_ (fun c => dup2 c o n)) (fun k' r =>
    match r with Ok _ => is_Some (D o) /\ at_ b (upd D n (D o)) k' | Err _ => D o = None /\ at_ b D k' end) k.
Proof.
  intros Ho Hn Hk. apply safe_call. rewrite via_vfs_eq. cbn [fst snd]. pose proof (at_caller _ _ _ Hk) as Hc. assert (Hv : tables_ok (k_fds k)) by apply Hk.
  pose proof (vcall_own _ _ _ (vc_dup2 (caller_of k) o n (k_fds k)) Hv) as Hw. pose proof (dup2_desc o n p (k_fds k) Hv Ho Hn) as Hd.
  unfold dup2 in *. destruct (Z.ltb_spec o 0); [lia|]. destruct (Z.ltb_spec n 0); [lia|]. destruct (Z.leb_spec MAX_OPEN_FILES n); [lia|]. cbn [orb] in *.
  rewrite Hc in *. destruct (on_table _ _ _) as [v [x|e]]; cbn [fst] in *.
  - destruct Hd as (Hs & Hu & _). rewrite (proj2 Hk o) in Hs, Hu. split; [done|]. eapply at_own; [exact Hk|done|]. intros fd'. rewrite Hu. apply upd_ext, Hk.
  - destruct Hd as (Hs & Hu). rewrite (proj2 Hk o) in Hs. split; [done|]. by apply at_steady.
Qed.
(** The two ends of one pipe. *)
Definition pipe_ends (i j : I) : Prop := exists w : W, (i_create_pipe 4096 w).2 = (i, j).

Lemma pipe_spec b D k : at_ b D k ->
  safe (vcall_ create_pipe) (fun k' r =>
    match r with
    | Ok (r, w) => exists i j, pipe_ends i j /\ lowest D r /\ lowest (upd D r (Some (read_end i))) w /\ at_ b (upd (upd D r (Some (read_end i))) w (Some (write_end j))) k'
    | Err _ => at_ b D k'
    end) k.
Proof.
  intros Hk. apply safe_call. rewrite via_vfs_eq. cbn [fst snd]. pose proof (at_caller _ _ _ Hk) as Hc. assert (Hv : tables_ok (k_fds k)) by apply Hk.
  pose proof (own_create_pipe (caller_of k) (k_fds k) Hv) as Ho. pose proof (create_pipe_desc (caller_of k) (k_fds k) Hv) as Hd. cbn zeta in Hd. rewrite Hc in Hd.
  destruct (create_pipe _ _) as [v [[r w]|e]]; cbn [fst] in *; [|by apply at_steady]. destruct Hd as (i & j & E0 & L1 & L2 & L3 & _). exists i, j. split; [by eexists|].
  pose proof (proj2 Hk) as E. split; [by eapply lowest_ext|]. split; [eapply lowest_ext; [|exact L2]; intros; by apply upd_ext|].
  eapply at_own; [exact Hk|done|]. intros fd'. rewrite L3. apply upd_ext. intros. by apply upd_ext.
Qed.
(** ** Commands *)

(** The three descriptors of a session. *)
Definition std (D : Z -> option (OpenFile I)) : Prop := is_Some (D STDIN) /\ is_Some (D STDOUT) /\ is_Some (D STDERR).

Lemma std_lowest D fd : std D -> lowest D fd -> 3 <= fd.
Proof.
  intros (H0 & H1 & H2) (Hn & Hf & _). unfold STDIN, STDOUT, STDERR in *.
  destruct (decide (fd = 0)) as [->|]; [rewrite Hf in H0; by destruct H0|]. destruct (decide (fd = 1)) as [->|]; [rewrite Hf in H1; by destruct H1|].
  destruct (decide (fd = 2)) as [->|]; [rewrite Hf in H2; by destruct H2|]. lia.
Qed.

(** A file that is opened and, in the end, closed. *)
Lemma closing {A} b b' D fd f (x : A) k : D fd = None -> at_ b (upd D fd (Some f)) k -> b' <= b ->
  safe (_ ← close_ fd; mret x) (fun k' _ => at_ b' D k') k.
Proof.
  intros Hn Hk Hb. apply safe_bind. eapply safe_mono; [by apply close_spec|]. intros k1 [] Hk1. apply (at_less b); [done|].
  eapply at_ext; [exact Hk1|]. intros y. unfold upd. by repeat case_decide; subst.
Qed.

Lemma keeps_for_args b what g fuel : 0 <= b <= B -> (forall path, keeps b b (g path)) -> forall args st, keeps b b (for_args rest what g args st fuel).
Proof.
  intros Hb Hg. induction args as [|path args IH]; intros st; cbn [for_args]; [apply keeps_ret|].
  eapply keeps_then; [apply Hg|]. intros [u|e]; [apply IH|]. eapply keeps_then; [by apply keeps_eprint|]. intros _. apply IH.
Qed.
Lemma keeps_each b what usage g args fuel : 0 <= b <= B -> (forall path, keeps b b (g path)) -> keeps b b (each_arg rest what usage g args fuel).
Proof.
  intros Hb Hg. unfold each_arg. destruct args; [|by apply keeps_for_args]. eapply keeps_then; [by apply keeps_eprint|]. intros _. apply keeps_ret.
Qed.

Lemma keeps_echo b args fuel : 0 <= b <= B -> keeps b b (cmd_echo rest args fuel).
Proof.
  intros Hb. eapply keeps_then; [|intros _; apply keeps_ret]. destruct args; [by apply keeps_emit_line|].
  apply keeps_if; [by apply keeps_emit|by apply keeps_emit_line].
Qed.
Lemma keeps_entries b es fuel : 0 <= b <= B -> keeps b b (foldr (fun e m => _ ← emit_line rest (format_entry e) fuel; m) (mret tt : Prog K unit) es).
Proof. intros Hb. induction es as [|e es IH]; cbn [foldr]; [apply keeps_ret|]. eapply keeps_then; [by apply keeps_emit_line|]. by intros _. Qed.
Lemma keeps_ls b args fuel : 0 <= b <= B -> keeps b b (cmd_ls h rest args fuel).
Proof.
  intros Hb. eapply keeps_then; [apply keeps_world_only; intros c; apply wo_readdir|]. intros [es|e].
  - eapply keeps_then; [by apply keeps_entries|]. intros _. apply keeps_ret.
  - eapply keeps_then; [by apply keeps_eprint|]. intros _. apply keeps_ret.
Qed.
Lemma cwd_set_spec b D path k : at_ b D k -> at_ b D (cwd_set path k).1.
Proof.
  intros Hk. unfold cwd_set. destruct (normalize _ _) as [norm|e]; [|done]. destruct (get_current_pid k) as [q|]; [|done].
  destruct (table (k_pt k) !! q); [|done]. destruct Hk as [[H1 H2 H3 H4] HD]. split; [|done]. split; try done. by apply kernel_inv_on.
Qed.
Lemma keeps_cd b args fuel : 0 <= b <= B -> keeps b b (cmd_cd h rest args fuel).
Proof.
  intros Hb. eapply keeps_then; [apply keeps_world_only; intros c; apply wo_readdir|]. intros [es|e].
  - eapply keeps_then; [intros D k Hk; by apply safe_call, cwd_set_spec|]. intros [u|e]; [apply keeps_ret|].
    eapply keeps_then; [by apply keeps_eprint|]. intros _. apply keeps_ret.
  - eapply keeps_then; [by apply keeps_eprint|]. intros _. apply keeps_ret.
Qed.
Lemma keeps_look {A} b (f : K -> A) : keeps b b (call (fun k => (k, f k))).
Proof. intros D k Hk. by apply safe_call. Qed.
Lemma keeps_pwd b fuel : 0 <= b <= B -> keeps b b (cmd_pwd rest fuel).
Proof. intros Hb. eapply keeps_then; [apply keeps_look|]. intros d. eapply keeps_then; [by apply keeps_emit_line|]. intros _. apply keeps_ret. Qed.
Lemma keeps_ps b fuel : 0 <= b <= B -> keeps b b (cmd_ps rest fuel).
Proof.
  intros Hb. eapply keeps_then; [apply keeps_look|]. intros d. eapply keeps_then; [by apply keeps_emit_line|]. intros _.
  eapply keeps_then; [by apply keeps_emit_line|]. intros _. apply keeps_ret.
Qed.
Lemma keeps_clear b fuel : 0 <= b <= B -> keeps b b (cmd_clear rest fuel).
Proof. intros Hb. eapply keeps_then; [by apply keeps_emit|]. intros _. apply keeps_ret. Qed.

Lemma keeps_cat_loop b D fd f n fuel : 0 <= b <= B -> D fd = None -> forall k, at_ b (upd D fd (Some f)) k -> safe (cat_loop rest fd n fuel) (fun k' _ => at_ b D k') k.
Proof.
  intros Hb Hn. induction fuel as [|fuel IH]; intros k Hk; cbn [cat_loop]; apply safe_bind.
  all: eapply safe_mono; [by apply (keeps_read b)|]; intros k1 [[|c l]|e] Hk1; try (by eapply closing; [exact Hn|eassumption|lia]).
  all: apply safe_bind; (eapply safe_mono; [by apply (keeps_emit b)|]); intros k2 u Hk2; try done. by apply IH.
Qed.
Lemma keeps_cat b args fuel : 0 <= b <= B -> keeps b b (cmd_cat rest args fuel).
Proof.
  intros Hb. apply keeps_each; [done|]. intros path D k Hk. apply safe_bind. eapply safe_mono; [by apply open_spec|].
  intros k1 [fd|e]; intros [_ Ho]; [|done]. destruct Ho as [(_ & Hn & _) [f Hk1]]. by eapply keeps_cat_loop.
Qed.
Lemma keeps_touch b args fuel : 0 <= b <= B -> keeps b b (cmd_touch rest args fuel).
Proof.
  intros Hb. apply keeps_each; [done|]. intros path D k Hk. apply safe_bind. eapply safe_mono; [by apply open_spec|].
  intros k1 [fd|e]; intros [_ Ho]; [|done]. destruct Ho as [(_ & Hn & _) [f Hk1]]. by eapply closing; [exact Hn|exact Hk1|lia].
Qed.
Lemma wo_mkdir c path : world_only (mkdir c path : ST (Vfs W I) unit).
Proof.
  intros v. unfold mkdir. pose proof (wo_resolve c path v) as [H1 H2]. destruct (resolve c path v) as [v1 r]. cbn [fst] in *. destruct (is_ok r); [done|].
  destruct (wo_bind (create_path c path Dir) (fun _ => mret tt) (wo_create_path c path Dir) (fun _ => wo_ret (Ok tt)) v1) as [H3 H4]. by rewrite H3, H4.
Qed.
Lemma keeps_mkdir b args fuel : 0 <= b <= B -> keeps b b (cmd_mkdir rest args fuel).
Proof. intros Hb. apply keeps_each; [done|]. intros path. apply keeps_world_only. intros c. apply wo_mkdir. Qed.
Lemma keeps_rm b args fuel : 0 <= b <= B -> keeps b b (cmd_rm rest args fuel).
Proof. intros Hb. apply keeps_each; [done|]. intros path. apply keeps_world_only. intros c. apply wo_unlink. Qed.
Lemma keeps_cmd_write b args fuel : 0 <= b <= B -> keeps b b (cmd_write rest args fuel).
Proof.
  intros Hb. destruct args as [|path words]; cbn [cmd_write]; [eapply keeps_then; [by apply keeps_eprint|]; intros _; apply keeps_ret|].
  intros D k Hk. apply safe_bind. eapply safe_mono; [by apply open_spec|]. intros k1 [fd|e].
  - intros [_ [(_ & Hn & _) [f Hk1]]]. apply safe_bind. eapply safe_mono; [by apply (keeps_vfs_write b)|]. intros k2 res Hk2.
    apply safe_bind. eapply safe_mono; [eapply close_spec; exact Hk2|]. intros k3 [] Hk3.
    assert (Hk4 : at_ b D k3) by (eapply at_ext; [exact Hk3|]; intros y; unfold upd; by repeat case_decide; subst).
    destruct res; [done|]. apply safe_bind. eapply safe_mono; [by apply (keeps_eprint b)|]. done.
  - intros [_ Hk1]. apply safe_bind. eapply safe_mono; [by apply (keeps_eprint b)|]. done.
Qed.


(** ** Redirections *)

Lemma std_free D x : std D -> 0 <= x -> D x = None -> 3 <= x.
Proof.
  intros ([? H0] & [? H1] & [? H2]) Hx Hn. unfold STDIN, STDOUT, STDERR in *.
  destruct (decide (x = 0)) as [->|]; [congruence|]. destruct (decide (x = 1)) as [->|]; [congruence|]. destruct (decide (x = 2)) as [->|]; [congruence|lia].
Qed.
Lemma safe_ignore {A} (m : Caller -> ST (Vfs W I) A) (Q : K -> unit -> Prop) k : safe (vcall_ m) (fun k' _ => Q k' tt) k -> safe (Sh.run (via_vfs m)) Q k.
Proof. unfold safe, vcall_, call, Sh.run. by destruct (via_vfs m k). Qed.

Lemma redirect_spec b D r k : at_ b D k ->
  safe (open_redirect r) (fun k' o => others k k' /\
    match o with
    | Ok (Some fd) => r <> NoRedirect /\ lowest D fd /\ exists f, at_ b (upd D fd (Some f)) k'
    | Ok None => r = NoRedirect /\ at_ b D k'
    | Err _ => at_ b D k'
    end) k.
Proof.
  intros Hk. destruct r; cbn [open_redirect]; [by split| |].
  all: apply safe_bind; eapply safe_mono; [by apply open_spec|]; intros k1 [fd|e]; [|done]; intros [Ho [Hl Hf]]; by split.
Qed.

(** The output is the file [f], and the former output waits in [s]. *)
Lemma begin_redirect_spec b D r k : std D -> at_ b D k ->
  safe (begin_redirect r) (fun k' o =>
    match o with
    | Ok (Some s) => exists f, D s = None /\ 3 <= s /\ at_ b (upd (upd D STDOUT (Some f)) s (D STDOUT)) k'
    | _ => at_ b D k'
    end) k.
Proof.
  intros HD Hk. apply safe_bind. eapply safe_mono; [by apply redirect_spec|]. intros k1 [[fd|]|e] [_ Ho]; [|by apply Ho|done].
  destruct Ho as (_ & (H0 & Hn & _) & f & Hk1). pose proof (std_free _ _ HD H0 Hn) as Hfd. unfold STDOUT in *.
  apply safe_bind. eapply safe_mono; [by apply dup_spec|]. intros k2 [s|e].
  2: { intros Hk2. apply safe_bind. eapply safe_mono; [by apply close_spec|]. intros k3 [] Hk3. apply safe_ret.
    eapply at_ext; [exact Hk3|]. intros y. unfold upd. by repeat case_decide; subst. }
  intros ((S0 & Sn & _) & _ & Hk2). assert (Hs : s <> fd /\ D s = None) by (unfold upd in Sn; by case_decide). destruct Hs as [Hs Hds].
  pose proof (std_free _ _ HD S0 Hds) as Hs3. apply safe_bind. eapply safe_mono; [eapply (dup2_spec b); [|unfold MAX_OPEN_FILES, STDOUT; lia|exact Hk2]; lia|]. intros k3 [x|e].
  - intros [_ Hk3]. apply safe_bind. eapply safe_mono; [by apply close_spec|]. intros k4 [] Hk4. apply safe_ret. exists f. split; [done|]. split; [done|].
    eapply at_ext; [exact Hk4|]. intros y. unfold upd. repeat case_decide; subst; try done; lia.
  - intros [Hbad _]. exfalso. unfold upd in Hbad. repeat case_decide; congruence.
Qed.
Lemma end_redirect_spec b D s f k : std D -> D s = None -> 3 <= s -> at_ b (upd (upd D STDOUT (Some f)) s (D STDOUT)) k -> safe (end_redirect (Some s)) (fun k' _ => at_ b D k') k.
Proof.
  intros HD Hn Hs Hk. unfold STDOUT in *. apply safe_bind, safe_ignore. eapply safe_mono; [eapply (dup2_spec b); [|unfold MAX_OPEN_FILES, STDOUT; lia|exact Hk]; lia|].
  intros k1 [x|e].
  - intros [_ Hk1]. eapply safe_mono; [by apply close_spec|]. intros k2 [] Hk2. eapply at_ext; [exact Hk2|].
    intros y. unfold upd. repeat case_decide; subst; try done; lia.
  - intros [Hbad _]. exfalso. destruct HD as (_ & [y Hy] & _). unfold upd, STDOUT in *. repeat case_decide; congruence.
Qed.

(** ** Pipelines *)

(** The descriptors of the pipes. *)
Definition ends (pipes : list (Z * Z)) : list Z := mjoin ((fun p => [p.1; p.2]) <$> pipes).

(** [D'] is [D] with the descriptors [fds] opened. *)
Record grown (D : Z -> option (OpenFile I)) (fds : list Z) (D' : Z -> option (OpenFile I)) : Prop := mkGrown {
  gr_free : forall x, x ∈ fds -> 3 <= x /\ D x = None;
  gr_keep : forall x, x ∉ fds -> D' x = D x;
}.
(** The pipes of [es] are open at [pipes]. *)
Definition wired (pipes : list (Z * Z)) (es : list (I * I)) (D : Z -> option (OpenFile I)) : Prop :=
  Forall2 (fun fd e => pipe_ends e.1 e.2 /\ D fd.1 = Some (read_end e.1) /\ D fd.2 = Some (write_end e.2)) pipes es.

Lemma grown_upd D fds D' fd f : std D -> grown D fds D' -> lowest D' fd -> grown D (fds ++ [fd]) (upd D' fd (Some f)).
Proof.
  intros HD [G1 G2] (H0 & Hn & _). assert (Hin : (fd ∉ fds) -> D fd = None) by (intros Hin; by rewrite <- G2).
  split; intros x; rewrite elem_of_app, list_elem_of_singleton.
  - intros [Hx| ->]; [by apply G1|]. destruct (decide (fd ∈ fds)) as [Hx|Hx]; [by apply G1|]. pose proof (Hin Hx). split; [by eapply std_free|done].
  - intros Hx. unfold upd. rewrite decide_False by tauto. apply G2. tauto.
Qed.
Lemma grown_lowest D fds D' fd : std D -> grown D fds D' -> lowest D' fd -> 3 <= fd.
Proof.
  intros HD [G1 G2] (H0 & Hn & _). destruct (decide (fd ∈ fds)) as [Hx|Hx]; [by apply G1|]. eapply std_free; [done|done|]. by rewrite <- G2.
Qed.
Lemma grown_std D fds D' : std D -> grown D fds D' -> forall x, 0 <= x < 3 -> D' x = D x.
Proof. intros HD [G1 G2] x Hx. apply G2. intros Hin. apply G1 in Hin. lia. Qed.
Lemma wired_upd pipes es D fd o : wired pipes es D -> D fd = None -> wired pipes es (upd D fd o).
Proof.
  intros Hw Hn. eapply Forall2_impl; [exact Hw|]. intros x y (H1 & H2 & H3). unfold upd. by rewrite !decide_False by congruence.
Qed.
Lemma close_view_lookup fds : forall (D : Z -> option (OpenFile I)) x, close_view fds D x = if decide (x ∈ fds) then None else D x.
Proof.
  induction fds as [|fd fds IH]; intros D x; [done|]. change (close_view (fd :: fds) D) with (close_view fds (upd D fd None)). rewrite IH. unfold upd.
  destruct (decide (x ∈ fds)), (decide (x = fd)), (decide (x ∈ fd :: fds)) as [H|H]; try done; set_solver.
Qed.
Lemma grown_close D fds fds' D' x : grown D (fds ++ fds') D' -> close_view fds' (close_view fds D') x = D x.
Proof.
  intros [G1 G2]. rewrite !close_view_lookup. destruct (decide (x ∈ fds')); [symmetry; apply G1; set_solver|].
  destruct (decide (x ∈ fds)); [symmetry; apply G1; set_solver|]. apply G2. set_solver.
Qed.
Lemma ends_app ps r w : ends (ps ++ [(r, w)]) = (ends ps ++ [r]) ++ [w].
Proof. unfold ends. by rewrite fmap_app, join_app, <- app_assoc. Qed.
Lemma ends_elem ps (i : nat) r w : ps !! i = Some (r, w) -> r ∈ ends ps /\ w ∈ ends ps.
Proof. intros H. unfold ends. split; apply list_elem_of_join; exists [r; w]; (split; [set_solver|]); apply list_elem_of_fmap; exists (r, w); (split; [done|]); by eapply list_elem_of_lookup_2. Qed.

Lemma close_all_spec b pipes : forall D k, at_ b D k -> safe (close_all pipes) (fun k' _ => at_ b (close_view (ends pipes) D) k') k.
Proof.
  induction pipes as [|[r w] pipes IH]; intros D k Hk; cbn [close_all]; [done|].
  apply safe_bind. eapply safe_mono; [by apply close_spec|]. intros k1 [] Hk1. apply safe_bind. eapply safe_mono; [by apply close_spec|]. intros k2 [] Hk2. by apply IH.
Qed.
Lemma close_each_spec b fds : forall D k, at_ b D k -> safe (close_each fds) (fun k' _ => at_ b (close_view fds D) k') k.
Proof.
  induction fds as [|fd fds IH]; intros D k Hk; cbn [close_each]; [done|].
  apply safe_bind. eapply safe_mono; [by apply close_spec|]. intros k1 [] Hk1. by apply IH.
Qed.
(** The pipes and the redirections are closed: the shell has what it had. *)
Lemma ends_closed {A} b D D' pipes reds (m : Prog K A) (Q : K -> A -> Prop) k : grown D (ends pipes ++ reds) D' -> at_ b D' k ->
  (forall k', at_ b D k' -> safe m Q k') -> safe (_ ← close_all pipes; _ ← close_each reds; m) Q k.
Proof.
  intros Hg Hk Hm. apply safe_bind. eapply safe_mono; [by apply close_all_spec|]. intros k1 [] Hk1. apply safe_bind. eapply safe_mono; [by apply close_each_spec|].
  intros k2 [] Hk2. apply Hm. eapply at_ext; [exact Hk2|]. intros x. by apply grown_close.
Qed.
Lemma abandon_spec b D D' pipes reds pids fuel k : 0 <= b <= B -> grown D (ends pipes ++ reds) D' -> at_ b D' k ->
  safe (abandon rest status_at pipes reds pids fuel) (fun k' _ => at_ b D k') k.
Proof.
  intros Hb Hg Hk. eapply ends_closed; [exact Hg|exact Hk|]. intros k1 Hk1. apply safe_bind. eapply safe_mono; [by apply (keeps_wait_all b)|]. done.
Qed.

(** The descriptors of a stage. *)
Lemma child_view_spec stdin stdout fds (D : Z -> option (OpenFile I)) : (stdin = 0 \/ 3 <= stdin) -> (stdout = 1 \/ 3 <= stdout) ->
  is_Some (D stdin) -> is_Some (D stdout) -> (forall x, x ∈ fds -> 3 <= x) ->
  let V := child_view stdin stdout fds D in
  V STDIN = D stdin /\ V STDOUT = D stdout /\ (forall x, 2 <= x -> V x = if decide (x ∈ fds) then None else D x).
Proof.
  intros Hi Ho [fi Hfi] [fo Hfo] Hf V. unfold V, child_view. cbn zeta. unfold STDIN, STDOUT.
  set (D1 := if negb (stdin =? 0) then dup_view stdin 0 D else D).
  assert (E1 : forall x, D1 x = if decide (x = 0) then D stdin else D x).
  { intros x. unfold D1, dup_view. rewrite Hfi. destruct (Z.eqb_spec stdin 0) as [->|]; cbn [negb]; [|done]. case_decide; [by subst|done]. }
  set (D2 := if negb (stdout =? 1) then dup_view stdout 1 D1 else D1).
  assert (E2 : forall x, D2 x = if decide (x = 1) then D stdout else D1 x).
  { intros x. unfold D2, dup_view. rewrite E1. rewrite decide_False by lia. rewrite Hfo. destruct (Z.eqb_spec stdout 1) as [->|]; cbn [negb]; [|done].
    case_decide; [|done]. subst. by rewrite E1, Hfo. }
  split_and!.
  - rewrite close_view_lookup, decide_False by (intros Hx%Hf; lia). by rewrite E2, E1.
  - rewrite close_view_lookup, decide_False by (intros Hx%Hf; lia). by rewrite E2.
  - intros x Hx. rewrite close_view_lookup. rewrite E2, E1. by rewrite !(decide_False (P := x = _)) by lia.
Qed.

(** The [i]th of [n] stages, as it starts: a child of the shell that reads from the pipe
    before it and writes to the pipe after it, or to the file of its redirection, and
    holds no other end. *)
Record stage_ok (D : Z -> option (OpenFile I)) (pipes : list (Z * Z)) (es : list (I * I)) (n i : nat) (s : Command) (pid : Z) k : Prop := mkStageOk {
  sg_child : exists q, table (k_pt k) !! pid = Some q /\ parent_pid q = Some p /\ p_state q = PRunning;
  sg_in : desc pid (k_fds k) STDIN = (if decide (i = O) then D STDIN else (fun e => read_end e.1) <$> es !! (i - 1)%nat);
  sg_out : redirect s = NoRedirect -> desc pid (k_fds k) STDOUT = (if decide (S i = n) then D STDOUT else (fun e => write_end e.2) <$> es !! i);
  sg_file : redirect s <> NoRedirect -> exists fd f, 3 <= fd /\ (fd ∉ ends pipes) /\ desc p (k_fds k) fd = Some f /\ desc pid (k_fds k) STDOUT = Some f;
  sg_err : desc pid (k_fds k) STDERR = D STDERR;
  sg_ends : forall x, x ∈ ends pipes -> desc pid (k_fds k) x = None;
}.
Definition stages_ok (D : Z -> option (OpenFile I)) (pipes : list (Z * Z)) (es : list (I * I)) (n : nat) (stages : list Command) (pids : list Z) k : Prop :=
  length pids = length stages /\ NoDup (p :: pids) /\ forall i s pid, stages !! i = Some s -> pids !! i = Some pid -> stage_ok D pipes es n i s pid k.

(** A stage that has started is as it was when only [k'] changes the files of the shell,
    or starts another. *)
Lemma stage_keeps D pipes es n i s pid k k' : pid <> p -> stage_ok D pipes es n i s pid k ->
  (forall q r, table (k_pt k) !! q = Some r -> q <> p -> table (k_pt k') !! q = Some r) ->
  (forall fd, desc pid (k_fds k') fd = desc pid (k_fds k) fd) ->
  (forall fd f, desc p (k_fds k) fd = Some f -> desc p (k_fds k') fd = Some f) -> stage_ok D pipes es n i s pid k'.
Proof.
  intros Hp [(q & H1 & H2) H3 H4 H5 H6 H7] Ht Hd Hs. split; rewrite ?Hd; try done.
  - exists q. split; [by apply Ht|done].
  - intros Hr. destruct (H5 Hr) as (fd & f & A & A' & B' & C). exists fd, f. split; [done|]. split; [done|]. split; [by apply Hs|done].
  - intros x Hx. rewrite Hd. by apply H7.
Qed.

Lemma stages_keep D pipes es n stages pids k k' : stages_ok D pipes es n stages pids k ->
  (forall q r, table (k_pt k) !! q = Some r -> q <> p -> table (k_pt k') !! q = Some r) ->
  (forall q fd, q ∈ pids -> desc q (k_fds k') fd = desc q (k_fds k) fd) ->
  (forall fd f, desc p (k_fds k) fd = Some f -> desc p (k_fds k') fd = Some f) -> stages_ok D pipes es n stages pids k'.
Proof.
  intros (H1 & H2 & H3) Ht Hd Hs. split; [done|]. split; [done|]. intros i s pid Hi Hpid. pose proof (list_elem_of_lookup_2 _ _ _ Hpid) as Hin.
  eapply stage_keeps; [|by apply H3|done|intros fd; by apply Hd|done]. intros ->. by apply NoDup_cons in H2 as [? _].
Qed.
Lemma stages_snoc D pipes es n stages pids s pid k : stages_ok D pipes es n stages pids k -> pid ∉ p :: pids ->
  stage_ok D pipes es n (length stages) s pid k -> stages_ok D pipes es n (stages ++ [s]) (pids ++ [pid]) k.
Proof.
  intros (H1 & H2 & H3) Hn Hs. split; [by rewrite !length_app, H1|]. split.
  - rewrite app_comm_cons. apply NoDup_app. split; [done|]. split; [|by apply NoDup_singleton]. intros x Hx ->%list_elem_of_singleton. done.
  - intros i s' pid'. rewrite !lookup_snoc_Some. intros [[? ?]|[-> <-]] [[? ?]|[? <-]]; try (by apply H3); try lia. done.
Qed.
Lemma stages_table D pipes es n stages pids k pid : stages_ok D pipes es n stages pids k -> pid ∈ pids -> is_Some (table (k_pt k) !! pid).
Proof.
  intros (H1 & H2 & H3) (i & Hi)%list_elem_of_lookup. destruct (lookup_lt_is_Some_2 stages i) as [s Hs]; [rewrite <- H1; by eapply lookup_lt_Some|].
  destruct (H3 _ _ _ Hs Hi) as [(q & Hq & _) _ _ _ _ _]. by eexists.
Qed.
Lemma shell_in_table b k : shell_ok b k -> is_Some (table (k_pt k) !! p).
Proof. intros [Hi _ Hp _]. apply (pi_tid _ (ki_pt _ _ Hi)) in Hp as (q & Hq & _). by eexists. Qed.

Lemma make_pipes_spec b D n fuel : std D -> 0 <= b <= B -> forall pipes es D' k, grown D (ends pipes) D' -> wired pipes es D' -> at_ b D' k ->
  safe (make_pipes rest n pipes fuel) (fun k' o =>
    match o with
    | Some ps => length ps = (length pipes + n)%nat /\ exists es' D2, grown D (ends ps) D2 /\ wired ps es' D2 /\ at_ b D2 k'
    | None => at_ b D k'
    end) k.
Proof.
  intros HD Hb. induction n as [|n IH]; intros pipes es D' k Hg Hw Hk; cbn [make_pipes].
  { apply safe_ret. split; [lia|]. by exists es, D'. }
  apply safe_bind. eapply safe_mono; [by apply pipe_spec|]. intros k1 [[r w]|e].
  - intros (i & j & He & Lr & Lw & Hk1). pose proof (grown_upd _ _ _ _ (read_end i) HD Hg Lr) as Hg1. pose proof (grown_upd _ _ _ _ (write_end j) HD Hg1 Lw) as Hg2.
    eapply safe_mono; [apply (IH (pipes ++ [(r, w)]) (es ++ [(i, j)]) (upd (upd D' r (Some (read_end i))) w (Some (write_end j)))); [by rewrite ends_app| |exact Hk1]|].
    + apply Forall2_app; [by apply wired_upd; [apply wired_upd; [done|apply Lr]|apply Lw]|]. constructor; [|constructor]. split; [done|].
      assert (r <> w) by (intros ->; destruct Lw as (_ & Hn & _); unfold upd in Hn; by rewrite decide_True in Hn). unfold upd. cbn. by repeat case_decide.
    + intros k2 [ps|]; [|done]. rewrite length_app. cbn. intros [-> H]. split; [lia|done].
  - intros Hk1. apply safe_bind. eapply safe_mono; [by apply (keeps_eprint b)|]. intros k2 [] Hk2.
    apply safe_bind. eapply safe_mono; [by apply close_all_spec|]. intros k3 [] Hk3. apply safe_ret. eapply at_ext; [exact Hk3|]. intros x.
    rewrite <- (app_nil_r (ends pipes)) in Hg. apply (grown_close _ _ _ _ x Hg).
Qed.

(** The stage that starts next: [D'] are the descriptors of the shell before it, [D1]
    those with its redirection. *)
Lemma next_stage D pipes es reds D' D1 n ds pids s stdin stdout k k1 k2 pid b b' :
  std D -> grown D (ends pipes ++ reds) D1 -> wired pipes es D1 -> stages_ok D pipes es n ds pids k ->
  at_ b D' k -> others k k1 -> (forall fd f, D' fd = Some f -> D1 fd = Some f) -> at_ b D1 k1 ->
  started (child_view stdin stdout (ends pipes) D1) k1 k2 pid -> at_ b' D1 k2 ->
  (if decide (length ds = O) then stdin = STDIN else exists w, pipes !! (length ds - 1)%nat = Some (stdin, w)) ->
  (if decide (redirect s = NoRedirect) then (if decide (S (length ds) = n) then stdout = STDOUT else exists r, pipes !! length ds = Some (r, stdout))
   else 3 <= stdout /\ (stdout ∉ ends pipes) /\ is_Some (D1 stdout)) ->
  stages_ok D pipes es n (ds ++ [s]) (pids ++ [pid]) k2.
Proof.
  intros HD Hg Hw Hst Hk [Ept Hoth] Hsub Hk1 [S1 S2 S3 S4 S5 S6] Hk2 Hin Hout.
  assert (Hpp : pid <> p) by (intros ->; destruct (shell_in_table _ _ (proj1 Hk1)) as [q Hq]; congruence).
  assert (Hnew : pid ∉ pids) by (intros Hp; destruct (stages_table _ _ _ _ _ _ _ _ Hst Hp) as [q Hq]; rewrite Ept in S2; congruence).
  assert (Hends : forall x, x ∈ ends pipes -> 3 <= x) by (intros x Hx; apply (gr_free _ _ _ Hg); set_solver).
  assert (Hpipe : forall i r w, pipes !! i = Some (r, w) -> 3 <= r /\ 3 <= w /\ exists e, es !! i = Some e /\ D1 r = Some (read_end e.1) /\ D1 w = Some (write_end e.2)).
  { intros i r w Hi. destruct (ends_elem _ _ _ _ Hi) as [Hr Hw']. split; [by apply Hends|]. split; [by apply Hends|].
    destruct (Forall2_lookup_l _ _ _ _ _ Hw Hi) as (e & He & _ & E1 & E2). by exists e. }
  pose proof HD as ([f0 E0] & [f1 E1] & [f2 E2]). pose proof (grown_std _ _ _ HD Hg) as Hstd. unfold STDIN, STDOUT, STDERR in *.
  assert (Hi : (stdin = 0 \/ 3 <= stdin) /\ is_Some (D1 stdin) /\ D1 stdin = (if decide (length ds = O) then D 0 else (fun e => read_end e.1) <$> es !! (length ds - 1)%nat)).
  { revert Hin. destruct (decide (length ds = O)) as [El|El]; intros Hin; [subst stdin; rewrite Hstd by lia; rewrite E0; split; [by left|]; by split; [eexists|]|].
    destruct Hin as [w Hin]. destruct (Hpipe _ _ _ Hin) as (H3 & _ & e & -> & -> & _). split; [by right|]. by split; [eexists|]. }
  assert (Ho : (stdout = 1 \/ 3 <= stdout) /\ is_Some (D1 stdout) /\
    (redirect s = NoRedirect -> D1 stdout = (if decide (S (length ds) = n) then D 1 else (fun e => write_end e.2) <$> es !! length ds))).
  { revert Hout. destruct (decide (redirect s = NoRedirect)) as [Er|Er]; [|by intros (? & ? & ?); split; [right|]].
    destruct (decide (S (length ds) = n)) as [En|En]; intros Hout; [subst stdout; rewrite Hstd by lia; rewrite E1; split; [by left|]; by split; [eexists|]|].
    destruct Hout as [r Hout]. destruct (Hpipe _ _ _ Hout) as (_ & H3 & e & -> & _ & ->). split; [by right|]. by split; [eexists|]. }
  destruct Hi as (I1 & I2 & I3), Ho as (O1 & O2 & O3). destruct (child_view_spec stdin stdout (ends pipes) D1 I1 O1 I2 O2 Hends) as (V1 & V2 & V3).
  unfold STDIN, STDOUT in *. apply stages_snoc.
  - apply (stages_keep _ _ _ _ _ _ k); [done| | |].
    + intros q r Hq Hp. apply S6; [by rewrite Ept|done].
    + intros q fd Hq. rewrite S5 by (intros ->; done). apply Hoth. intros ->. destruct Hst as (_ & [Hbad _]%NoDup_cons & _). done.
    + intros fd f. rewrite (proj2 Hk), (proj2 Hk2). apply Hsub.
  - intros [?|?]%elem_of_cons; done.
  - split; [done|..].
    + rewrite S4. unfold STDIN. by rewrite V1, I3.
    + intros Hr. rewrite S4. unfold STDOUT. by rewrite V2, O3.
    + intros Hr. rewrite decide_False in Hout by done. destruct Hout as (H3 & Hx & [f Hf]). exists stdout, f. split; [done|]. split; [done|].
      rewrite (proj2 Hk2), S4. unfold STDOUT. by rewrite V2.
    + rewrite S4. unfold STDERR. rewrite V3 by lia. rewrite decide_False by (intros Hx%Hends; lia). apply Hstd. lia.
    + intros x Hx. rewrite S4, V3 by (apply Hends in Hx; lia). by rewrite decide_True.
Qed.

Lemma start_stages_spec b D pipes es n fuel : std D -> 0 <= b -> length pipes = (n - 1)%nat -> forall stages ds pids reds D' k,
  b + Z.of_nat (length stages) <= B -> length (ds ++ stages) = n ->
  grown D (ends pipes ++ reds) D' -> wired pipes es D' -> stages_ok D pipes es n ds pids k -> at_ (b + Z.of_nat (length stages)) D' k ->
  safe (start_stages h rest status_at pipes stages (length ds) pids reds fuel) (fun k' r =>
    match r with
    | inl (pids', reds') => exists D2, grown D (ends pipes ++ reds') D2 /\ at_ b D2 k' /\ stages_ok D pipes es n (ds ++ stages) pids' k'
    | inr _ => at_ b D k'
    end) k.
Proof.
  intros HD H0 Hlen. induction stages as [|s stages IH]; intros ds pids reds D' k HB Hn Hg Hw Hst Hk; cbn [start_stages].
  { apply safe_ret. exists D'. rewrite app_nil_r. split; [done|]. split; [|done]. eapply at_less; [|exact Hk]. lia. }
  rewrite length_app in Hn. cbn [length] in Hn, HB, Hk. rewrite Nat2Z.inj_succ in HB, Hk.
  assert (Hin : exists stdin, (if bool_decide (length ds = O) then Some STDIN else fst <$> pipes !! (length ds - 1)%nat) = Some stdin /\
    if decide (length ds = O) then stdin = STDIN else exists w, pipes !! (length ds - 1)%nat = Some (stdin, w)).
  { destruct (decide (length ds = O)) as [E|E]; [rewrite bool_decide_true by done; by exists STDIN|]. rewrite bool_decide_false by done.
    destruct (lookup_lt_is_Some_2 pipes (length ds - 1)) as [[r w] Hr]; [lia|]. exists r. rewrite Hr. split; [done|]. by exists w. }
  destruct Hin as (stdin & Ein & Hin). apply safe_bind. apply (safe_pure _ stdin); [done|].
  apply safe_bind. eapply safe_mono; [by apply redirect_spec|]. intros k1 o [Hoth Ho]. destruct o as [o|e].
  2: { apply safe_bind. eapply safe_mono; [eapply (keeps_eprint b); [lia|]; eapply at_less; [|exact Ho]; lia|]. intros k2 [] Hk2.
    apply safe_bind. eapply safe_mono; [eapply abandon_spec; [|exact Hg|exact Hk2]; lia|]. done. }
  cbv zeta. set (reds1 := match o with Some fd => reds ++ [fd] | None => reds end).
  assert (Hout : exists D1 stdout, grown D (ends pipes ++ reds1) D1 /\ wired pipes es D1 /\ (forall fd f, D' fd = Some f -> D1 fd = Some f) /\
    at_ (b + Z.succ (Z.of_nat (length stages))) D1 k1 /\
    (match o with Some fd => Some fd | None => if bool_decide (stages = []) then Some STDOUT else snd <$> pipes !! length ds end) = Some stdout /\
    if decide (redirect s = NoRedirect) then (if decide (S (length ds) = n) then stdout = STDOUT else exists r, pipes !! length ds = Some (r, stdout))
    else 3 <= stdout /\ (stdout ∉ ends pipes) /\ is_Some (D1 stdout)).
  { destruct o as [fd|].
    - destruct Ho as (Hr & Hl & f & Hk1). exists (upd D' fd (Some f)), fd. pose proof (grown_lowest _ _ _ _ HD Hg Hl) as H3.
      pose proof (grown_upd _ _ _ _ f HD Hg Hl) as Hg1. rewrite <- app_assoc in Hg1. destruct Hl as (_ & Hf & _).
      split; [done|]. split; [by apply wired_upd|]. split; [intros x y Hx; unfold upd; destruct (decide (x = fd)); [congruence|done]|].
      split; [done|]. split; [done|]. rewrite decide_False by done. split; [done|]. split.
      + unfold ends. intros (l & Hx & ([r w] & -> & (i & Hi)%list_elem_of_lookup)%list_elem_of_fmap)%list_elem_of_join.
        destruct (Forall2_lookup_l _ _ _ _ _ Hw Hi) as (e & _ & _ & E1 & E2). cbn in *. rewrite !elem_of_cons in Hx. destruct Hx as [-> |[-> |Hx]]; [congruence..|]. by apply not_elem_of_nil in Hx.
      + unfold upd. rewrite decide_True by done. by eexists.
    - destruct Ho as [Hr Hk1]. exists D'. destruct (decide (stages = [])) as [->|Hne].
      + exists STDOUT. split_and!; try done. rewrite Hr, decide_True by done. cbn in Hn. rewrite decide_True by lia. done.
      + assert (length stages <> O) by (by destruct stages). destruct (lookup_lt_is_Some_2 pipes (length ds)) as [[r w] Hw']; [lia|]. exists w.
        rewrite bool_decide_false by done. split_and!; try done; [by rewrite Hw'|]. rewrite Hr, decide_True by done. rewrite decide_False by lia. by exists r. }
  destruct Hout as (D1 & stdout & Hg1 & Hw1 & Hsub & Hk1 & Eout & Hout). apply safe_bind. apply (safe_pure _ stdout); [done|].
  apply safe_bind. eapply safe_mono; [apply (spawn_child_spec _ _ _ _ _ (b + Z.of_nat (length stages)) D1); [lia|]; eapply at_less; [|exact Hk1]; lia|].
  intros k2 [pid|code]; intros [Hk2 Hs].
  - specialize (IH (ds ++ [s]) (pids ++ [pid]) reds1 D1 k2).
    assert (El : length (ds ++ [s]) = S (length ds)) by (rewrite length_app; cbn; lia). rewrite El, <- app_assoc in IH. apply IH.
    + lia.
    + rewrite length_app. cbn. lia.
    + done.
    + done.
    + eapply (next_stage D pipes es reds1 D' D1 n ds pids s stdin stdout k k1 k2); done.
    + done.
  - apply safe_bind. eapply safe_mono; [eapply (abandon_spec b); [lia|exact Hg1|]; eapply at_less; [|exact Hk2]; lia|]. done.
Qed.

(** The pipes of a pipeline, and its stages. *)
Lemma stages_started b D stages fuel k : std D -> 0 <= b -> stages <> [] -> b + Z.of_nat (length stages) <= B -> at_ (b + Z.of_nat (length stages)) D k ->
  safe (make_pipes rest (length stages - 1) [] fuel) (fun k1 o =>
    match o with
    | None => at_ b D k1
    | Some pipes => exists es, Forall2 (fun _ e => pipe_ends e.1 e.2) pipes es /\ length pipes = (length stages - 1)%nat /\
        safe (start_stages h rest status_at pipes stages 0 [] [] fuel) (fun k' r =>
          match r with
          | inl (pids, reds) => exists D2, grown D (ends pipes ++ reds) D2 /\ at_ b D2 k' /\ stages_ok D pipes es (length stages) stages pids k'
          | inr _ => at_ b D k'
          end) k1
    end) k.
Proof.
  intros HD Hb Hne HB Hk. eapply safe_mono; [apply (make_pipes_spec (b + Z.of_nat (length stages)) D _ fuel HD ltac:(lia) [] [] D k); [by split; [intros x Hx; by apply not_elem_of_nil in Hx|]|constructor|done]|].
  intros k1 [pipes|]; [|apply at_less; lia]. intros (Hlen & es & D2 & Hg & Hw & Hk1). exists es. split; [eapply Forall2_impl; [exact Hw|]; by intros x y []|].
  split; [done|]. apply (start_stages_spec b D pipes es (length stages) fuel HD Hb Hlen stages [] [] [] D2 k1); [done|done|by rewrite app_nil_r|done| |done].
  split; [done|]. split; [apply NoDup_singleton|]. intros i s pid Hi. by rewrite lookup_nil in Hi.
Qed.

Lemma keeps_check b stages fuel : 0 <= b <= B -> keeps b b (check_stages rest stages fuel).
Proof.
  intros Hb. induction stages as [|s stages IH]; cbn [check_stages]; [apply keeps_ret|].
  eapply keeps_then; [apply keeps_world_only; intros c; apply wo_resolve|]. intros [i|e]; [apply IH|]. eapply keeps_then; [by apply keeps_eprint|]. intros _. apply keeps_ret.
Qed.
Lemma run_pipeline_spec b D stages fuel k : std D -> 0 <= b -> stages <> [] -> b + Z.of_nat (length stages) <= B -> at_ (b + Z.of_nat (length stages)) D k ->
  safe (run_pipeline h rest status_at stages fuel) (fun k' _ => at_ b D k') k.
Proof.
  intros HD Hb Hne HB Hk. apply safe_bind. eapply safe_mono; [eapply (keeps_check (b + Z.of_nat (length stages))); [lia|exact Hk]|].
  intros k1 [] Hk1; cbn [negb]; [|apply safe_ret; eapply at_less; [|exact Hk1]; lia].
  apply safe_bind. eapply safe_mono; [by apply stages_started|]. intros k2 [pipes|] Hk2; [|done]. destruct Hk2 as (es & _ & _ & Hk2).
  apply safe_bind. eapply safe_mono; [exact Hk2|]. intros k3 [[pids reds]|code] Hk3; [|done]. destruct Hk3 as (D2 & Hg & Hk3 & _).
  eapply ends_closed; [exact Hg|exact Hk3|]. intros k4 Hk4. apply keeps_wait_all; [lia|done].
Qed.
(** C36. When the stages of a pipeline have started, each is a running child of the shell
    with its own pid; its input is the pipe behind the stage before it, the first one's
    that of the shell; its output is the pipe before the stage behind it or the file of
    its redirection, the last one's that of the shell; its error output is that of the
    shell; and it holds no other end of any pipe, so that the end of the data is seen.
    If a stage cannot start, the shell has what it had. *)
Theorem pipeline_wired b D stages fuel k : std D -> 0 <= b -> stages <> [] -> b + Z.of_nat (length stages) <= B -> at_ (b + Z.of_nat (length stages)) D k ->
  safe (o ← make_pipes rest (length stages - 1) [] fuel;
        match o with
        | None => mret None
        | Some pipes => r ← start_stages h rest status_at pipes stages 0 [] [] fuel; mret (Some (pipes, r))
        end)
    (fun k' o =>
      match o with
      | Some (pipes, inl (pids, reds)) => exists es D2,
          length pipes = (length stages - 1)%nat /\ Forall2 (fun _ e => pipe_ends e.1 e.2) pipes es /\
          at_ b D2 k' /\ grown D (ends pipes ++ reds) D2 /\ stages_ok D pipes es (length stages) stages pids k'
      | _ => at_ b D k'
      end) k.
Proof.
  intros HD Hb Hne HB Hk. apply safe_bind. eapply safe_mono; [by apply stages_started|]. intros k1 [pipes|] Hk1; [|done]. destruct Hk1 as (es & He & Hl & Hk1).
  apply safe_bind. eapply safe_mono; [exact Hk1|]. intros k2 [[pids reds]|code] Hk2; [|done]. destruct Hk2 as (D2 & Hg & Hk2 & Hs). by exists es, D2.
Qed.

(** ** Lines *)

(** The commands that are not modelled, and what is assumed of them. *)
Context (other_command : string -> list string -> Prog K Z).
Hypothesis other_ok : forall name args b, 0 <= b <= B -> keeps b b (other_command name args).

Lemma keeps_dispatch b fuel : 0 <= b -> b + 1 <= B -> forall args name, keeps (b + 1) b (dispatch h rest status_at other_command name args fuel).
Proof.
  intros Hb HB. assert (H0 : 0 <= b + 1 <= B) by lia.
  assert (Hl : forall (m : Prog K Z), keeps (b + 1) (b + 1) m -> keeps (b + 1) b m) by (intros m Hm; eapply keeps_less; [exact Hm|lia|lia]).
  induction args as [|a args IH]; intros name; cbn [dispatch].
  all: repeat (apply keeps_if; [apply Hl; solve [eauto using keeps_echo, keeps_clear, keeps_ps, keeps_ls, keeps_cd, keeps_pwd, keeps_cat, keeps_mkdir, keeps_touch, keeps_rm, keeps_cmd_write]|]).
  - apply keeps_if; [apply Hl; eapply keeps_then; [by apply keeps_eprint|]; intros _; apply keeps_ret|].
    apply keeps_if; [apply Hl; by apply other_ok|]. apply keeps_if; [apply Hl, keeps_ret|]. apply keeps_exec. lia.
  - apply keeps_if; [apply IH|]. apply keeps_if; [apply Hl; by apply other_ok|]. apply keeps_if; [apply Hl, keeps_ret|]. apply keeps_exec. lia.
Qed.
Lemma run_command_spec b D cmd fuel k : 0 <= b -> b + 1 <= B -> std D -> at_ (b + 1) D k -> safe (run_command h rest status_at other_command cmd fuel) (fun k' _ => at_ b D k') k.
Proof.
  intros H0 HB HD Hk. apply safe_bind. eapply safe_mono; [by apply begin_redirect_spec|]. intros k1 [[s|]|e].
  - intros (f & Hn & Hs & Hk1). apply safe_bind. eapply safe_mono; [eapply (keeps_dispatch b); [lia|lia|exact Hk1]|]. intros k2 code Hk2. by apply (end_redirect_spec b D s f).
  - intros Hk1. apply safe_bind. eapply safe_mono; [eapply (keeps_dispatch b); [lia|lia|exact Hk1]|]. by intros k2 code Hk2.
  - intros Hk1. apply keeps_eprint; [lia|]. eapply at_less; [|exact Hk1]. lia.
Qed.

Lemma run_pipelines_spec D fuel : std D -> forall pipelines k, Z.of_nat (length (mjoin pipelines)) <= B -> at_ (Z.of_nat (length (mjoin pipelines))) D k ->
  safe (run_pipelines h rest status_at other_command pipelines fuel) (fun k' _ => at_ 0 D k') k.
Proof.
  intros HD. induction pipelines as [|pl pipelines IH]; intros k HB Hk; cbn [run_pipelines]; [done|].
  change (mjoin (pl :: pipelines)) with (pl ++ mjoin pipelines) in *. rewrite length_app, Nat2Z.inj_add in HB, Hk.
  set (b := Z.of_nat (length (mjoin pipelines))) in *. apply safe_bind. eapply (safe_mono _ (fun k' _ => at_ b D k')); [|intros k1 [] Hk1; apply IH; [lia|done]].
  destruct pl as [|cmd [|cmd' pl]]; [done|apply run_command_spec; [lia|cbn in HB; lia|done|eapply at_less; [|exact Hk]; cbn; lia]|].
  set (stages := cmd :: cmd' :: pl) in *. apply safe_bind. eapply safe_mono; [apply (run_pipeline_spec b D stages); [done|lia|done|lia|eapply at_less; [|exact Hk]; lia]|]. done.
Qed.

(** The commands of a line: none if it does not parse. *)
Definition commands (line : string) : Z := match parse_line line with Ok pipelines => Z.of_nat (length (mjoin pipelines)) | Err _ => 0 end.

(** C35. Whatever a line says (commands, redirections, programs, pipelines, in any number
    up to the pids that are left) and wherever it fails, the shell does not panic, and at
    its end it has the descriptors it had before, all the invariants of the kernel hold,
    and only the slots of live processes are taken.  Of the built-in commands this covers
    those that are modelled, of files, directories and processes; of the others, which
    print tables or drive devices, the network and updates ([other_command]), the same is
    assumed: that by themselves they do not panic and keep descriptors and invariants. *)
Theorem line_restores D line fuel k : std D -> commands line <= B -> at_ (commands line) D k ->
  safe (execute h rest status_at other_command line fuel) (fun k' _ => at_ 0 D k') k.
Proof.
  unfold commands, execute. intros HD HB Hk. destruct (parse_line line) as [pipelines|e]; [by apply run_pipelines_spec|]. apply keeps_eprint; [lia|done].
Qed.

End KShellOps.

(** ** Witnesses: the root is one program, which nobody may write *)

(** The ends of its pipes are told apart by nothing but their modes. *)
#[export] Instance image_pipes : Pipes (list Z) unit := {| i_create_pipe := fun _ w => (w, (tt, tt)) |}.

Definition image_root : list (string * FileSystem (list Z) unit) := [("/"%string, mkFileSystem "img" tt (fun _ => mkFsStat 0 0 0))].
Definition tty_file : OpenFile unit := mkOpenFile tt 0 true true false.
Definition ik0 : Kernel SmallFrame (Vfs (list Z) unit) :=
  mkKernel (w_g (do_events test_boot test_events1)) (mkTable ∅ ∅ 1) 0 (mkVfs small_image ∅ image_root) (fun _ => 0) window.
Definition ik1 := (register_process "shell" 1 false None ik0).1.
Definition ik := k_set_fds (mkVfs small_image {[1 := [Some tty_file; Some tty_file; Some tty_file]]} image_root) ik1.
Definition ihost : Host := {| link_data := link_base; tramp := 0x42000000; heap := test_heap; dir_fuel := 4 |}.
(** The other tasks do nothing; the pids do not run out. *)
Definition idle (k : Kernel SmallFrame (Vfs (list Z) unit)) : option (Kernel SmallFrame (Vfs (list Z) unit)) :=
  if next_pid (k_pt k) + 4 <? 2 ^ 32 - 1 then Some k else None.
Definition no_other (name : string) (args : list string) : Prog (Kernel SmallFrame (Vfs (list Z) unit)) Z := mret 0.
Definition itty (fd : Z) : option (OpenFile unit) := if (0 <=? fd) && (fd <? 3) then Some tty_file else None.

Lemma ik_ok : tables_ok (k_fds ik).
Proof. intros p u Hp. cbn in Hp. by apply lookup_singleton_Some in Hp as [<- <-]. Qed.
Lemma ik_inv : kernel_inv ik ∅.
Proof.
  assert (Hb : kernel_inv ik0 ∅) by (apply boot_inv; split; [done|]; split; [done|]; split; [done|]; split; [done|]; cbn; set_solver).
  assert (H1 : kernel_inv ik1 ∅) by (apply (kstep_inv (ik0, ∅) (ik1, ∅)); [apply (ks_register ik0 ∅ "shell" 1); vm_compute; done|exact Hb]).
  apply (own_call_inv ik1); [done|by intros p t Ht|]. split; try done. intros _. split; [apply ik_ok|]. split; [done|].
  intros p Hp. assert (p <> 1) by (intros ->; apply Hp; vm_compute; reflexivity). cbn. by apply lookup_singleton_ne.
Qed.
Definition ends_at {A} (m : Prog (Kernel SmallFrame (Vfs (list Z) unit)) A) : option A := match m ik with Done (_, a) => Some a | _ => None end.
Definition two : list Command := [mkCommand "/" ["a"%string] NoRedirect; mkCommand "/" [] (Append "/")].
Definition staged := (o ← make_pipes idle (length two - 1) [] 5;
        match o with
        | None => mret None
        | Some pipes => r ← start_stages ihost idle 0 pipes two 0 [] [] 5; mret (Some (pipes, r))
        end).
Lemma image_within : writes_within (W := list Z) (I := unit).
Proof. done. Qed.
Lemma idle_ok : resting idle 1 ∅ 4.
Proof.
  intros D k k' [[H1 H2 H3 H4] HD]. unfold idle. destruct (Z.ltb_spec (next_pid (k_pt k) + 4) (2 ^ 32 - 1)); [|done]. intros [= <-]. done.
Qed.
Lemma no_other_ok name args b : 0 <= b <= 4 -> keeps 1 ∅ b b (no_other name args).
Proof. intros _. apply keeps_ret. Qed.
Lemma ik_desc fd : desc 1 (k_fds ik) fd = itty fd.
Proof.
  change (desc 1 (k_fds ik) fd) with (strip <$> fd_file [Some tty_file; Some tty_file; Some tty_file] fd). unfold itty, fd_file, fd_get.
  destruct (Z.leb_spec 0 fd), (Z.ltb_spec fd 0), (Z.ltb_spec fd 3); try lia; cbn [andb]; try done.
  - assert (fd = 0 \/ fd = 1 \/ fd = 2) as [->|[->| ->]] by lia; done.
  - by rewrite lookup_ge_None_2 by (cbn; lia).
Qed.
Lemma ik_at b : b <= 4 -> at_ 1 ∅ b itty ik.
Proof. intros Hb. split; [|apply ik_desc]. split; [apply ik_inv|apply ik_ok|vm_compute; reflexivity|]. change (next_pid (k_pt ik)) with 2. lia. Qed.
Lemma itty_std : std itty.
Proof. by split_and!; eexists. Qed.

Definition stuck_line : string := "echo hi >> / ; cat /; pwd > /".
Lemma line_restores_witness : exists k', execute ihost idle 0 no_other stuck_line 20 ik = Done (k', tt) /\ forall fd, desc 1 (k_fds k') fd = itty fd.
Proof.
  assert (E : ends_at (execute ihost idle 0 no_other stuck_line 20) = Some tt) by (vm_compute; reflexivity).
  assert (Hc : commands stuck_line <= 4) by (vm_compute; discriminate).
  pose proof (line_restores ihost idle 0 1 ∅ 4 ltac:(lia) image_within idle_ok no_other no_other_ok itty stuck_line 20 ik itty_std Hc (ik_at _ Hc)) as H.
  unfold ends_at in E. unfold safe in H. destruct (execute ihost idle 0 no_other stuck_line 20 ik) as [[k' []]| |]; [|done..]. exists k'. split; [done|apply H].
Defined.

Lemma pipeline_wired_witness : exists k', staged ik = Done (k', Some ([(3, 4)], inl ([2; 3], [5]))) /\
  desc 2 (k_fds k') 1 = Some (write_end tt) /\ desc 3 (k_fds k') 0 = Some (read_end tt) /\ desc 3 (k_fds k') 4 = None.
Proof.
  assert (E : ends_at staged = Some (Some ([(3, 4)], inl ([2; 3], [5])))) by (vm_compute; reflexivity).
  assert (Hk : at_ 1 ∅ (0 + Z.of_nat (length two)) itty ik) by (apply ik_at; cbn; lia).
  pose proof (pipeline_wired ihost idle 0 1 ∅ 4 ltac:(lia) image_within idle_ok 0 itty two 5 ik itty_std ltac:(lia) ltac:(done) ltac:(cbn; lia) Hk) as H.
   unfold ends_at in E. unfold safe in H. fold staged in H.
  destruct (staged ik) as [[k' a]| |]; [|done..]. injection E as ->. exists k'. split; [done|].
  destruct H as (es & D2 & _ & He & _ & _ & _ & _ & Hs).
  destruct (Hs 0%nat _ 2 eq_refl eq_refl) as [_ _ H1 _ _ _], (Hs 1%nat _ 3 eq_refl eq_refl) as [_ H2 _ _ _ H3].
  specialize (H1 eq_refl). destruct es as [|[[] []] es]; [by apply Forall2_nil_inv_r in He|].
  split; [exact H1|]. split; [exact H2|]. apply H3. vm_compute. set_solver.
Defined.

(** ** The supervisor takes the death of an adopted process for that of [init] *)

(** Process 2 was adopted by the supervisor and ends while it waits for [init]. *)
Definition sup_root : list (string * FileSystem (list Z) unit) := ("/bin/init"%string, mkFileSystem "img" tt (fun _ => mkFsStat 0 0 0)) :: image_root.
Definition sk : Kernel SmallFrame (Vfs (list Z) unit) :=
  let k := (register_process "orphan" 7 false None ik).1 in k_set_fds (mkVfs small_image (v_tables (k_fds k)) sup_root) k.
Definition orphan_ends (k : Kernel SmallFrame (Vfs (list Z) unit)) : option (Kernel SmallFrame (Vfs (list Z) unit)) :=
  Some (k_set_sched (unblock_task 1 (k_sched k)) (k_set_pt (on_process 2 (set_exited 9) (k_pt k)) k)).

Definition states (k : Kernel SmallFrame (Vfs (list Z) unit)) : list (Z * string * ProcessState) :=
  (fun e => (e.1, p_name e.2, p_state e.2)) <$> map_to_list (table (k_pt k)).

Definition after {A} (m : Prog (Kernel SmallFrame (Vfs (list Z) unit)) A) k : option (A * list (Z * string * ProcessState)) :=
  match m k with Done (k', a) => Some (a, states k') | _ => None end.
(** The round of the supervisor is over although [init] runs, and the next one starts a
    second [init] beside it. *)
Lemma supervisor_restarts_running_init :
  after (supervise ihost orphan_ends 0 9) sk = Some (0, [(3, "init"%string, PRunning); (1, "shell"%string, PRunning)]) /\
  after (_ ← supervise ihost orphan_ends 0 9; spawn_child ihost orphan_ends "init" [] STDIN STDOUT [] 9) sk =
    Some (Child 4, [(3, "init"%string, PRunning); (4, "init"%string, PRunning); (1, "shell"%string, PRunning)]).
Proof. split; vm_compute; reflexivity. Qed.

(** A shell program that cannot be loaded is no negative code, so that the built-in
    shell does not take its place. *)
Lemma missing_shell_is_positive : after (run_userland ihost idle 0 "sh" None 9) ik = Some (126, [(1, "shell"%string, PRunning)]).
Proof. vm_compute. reflexivity. Qed.
