(* ===== verification/Format.v ===== *)
(** * Format: the [format!] of the kernel

    Format strings as the source writes them, with their escapes and placeholders; the
    decimal text of a number, which [u32::from_str] reads back; and the conversion of
    bytes that need not be a text. *)

From Stdlib Require Import Ascii.
From stdpp Require Import pretty.
From S2P Require Import Prelude Text.

Open Scope Z_scope.

(** What a placeholder shows; [Str] also stands for a derived [Debug] text. *)
Inductive Arg : Type := Num (z : Z) | Str (s : string).

Definition newline : ascii := ascii_of_byte 10.
Definition tab : ascii := ascii_of_byte 9.
Definition pad_left (c : ascii) (n : nat) (s : string) : string := of_bytes (replicate (n - String.length s) (byte_of_ascii c)) +:+ s.

(** Numbers are shown on the right of their width, texts on the left. *)
Definition show_arg (zeros : bool) (width : nat) (a : Arg) : string :=
  match a with
  | Num z => pad_left (if zeros then "0"%char else " "%char) width (pretty z)
  | Str s => s +:+ of_bytes (replicate (width - String.length s) 32)
  end.

(** Where the reader of a format string is: in plain text, behind a backslash, or in a
    placeholder with what it has read of its width. *)
Inductive FmtState : Type := Plain | Escape | Spec (zeros : bool) (width : nat).

Definition escape (c : ascii) : ascii := if Ascii.eqb c "n"%char then newline else if Ascii.eqb c "t"%char then tab else c.

Fixpoint fmt_loop (s : string) (args : list Arg) (st : FmtState) : string :=
  match s with
  | EmptyString => ""
  | String c s =>
    match st with
    | Plain =>
      if Ascii.eqb c "\"%char then fmt_loop s args Escape
      else if Ascii.eqb c "{"%char then fmt_loop s args (Spec false 0)
      else String c (fmt_loop s args Plain)
    | Escape => String (escape c) (fmt_loop s args Plain)
    | Spec zeros width =>
      if Ascii.eqb c "}"%char then
        match args with a :: args => show_arg zeros width a +:+ fmt_loop s args Plain | [] => fmt_loop s args Plain end
      else
        let b := byte_of_ascii c in
        if (48 <=? b) && (b <=? 57) then
          fmt_loop s args (if (b =? 48) && (width =? 0)%nat then Spec true 0 else Spec zeros (width * 10 + Z.to_nat (b - 48)))
        else fmt_loop s args st
    end
  end.
Definition fmt (s : string) (args : list Arg) : string := fmt_loop s args Plain.

Example fmt_dmesg : fmt "[{:5}.{:03}000] {}\t{:?}\n" [Num 12; Num 7; Str "up"; Str "Running"] =
  ("[   12.007000] up" ++ String tab ("Running" ++ String newline ""))%string.
Proof. reflexivity. Qed.

(** ** Decimal numbers *)

Lemma digits_app l k n : forall m, digits_loop l n = Some m -> digits_loop (l ++ k) n = digits_loop k m.
Proof.
  revert n. induction l as [|b l IH]; intros n m; cbn [digits_loop app]; [by intros [= ->]|].
  destruct ((48 <=? b) && (b <=? 57)); [|done]. destruct (U32_MAX <? _); [done|]. apply IH.
Qed.
Lemma digit_char y : (y < 10)%N -> byte_of_ascii (pretty_N_char y) = 48 + Z.of_N y.
Proof. intros Hy. assert (y = 0 \/ y = 1 \/ y = 2 \/ y = 3 \/ y = 4 \/ y = 5 \/ y = 6 \/ y = 7 \/ y = 8 \/ y = 9)%N as Hc by lia. naive_solver. Qed.

(** The digits of [x] in front of [s]. *)
Lemma digits_pretty x : forall s, Z.of_N x <= U32_MAX -> exists ds, as_bytes (pretty_N_go x s) = ds ++ as_bytes s /\ digits_loop ds 0 = Some (Z.of_N x) /\
  (x <> 0%N -> exists d l, ds = d :: l /\ 48 <= d <= 57).
Proof.
  induction (N.lt_wf_0 x) as [x _ IH]. intros s Hx. destruct (decide (x = 0)%N) as [->|Hne]; [by exists []|].
  rewrite pretty_N_go_step by lia. pose proof (N.mod_lt x 10 ltac:(lia)) as Hm. pose proof (N.div_lt x 10 ltac:(lia) ltac:(lia)) as Hd.
  pose proof (N.div_mod x 10 ltac:(lia)) as Hdm.
  assert (Hy : 48 <= 48 + Z.of_N (x mod 10)%N <= 57) by (revert Hm; clear; generalize (x mod 10)%N; lia).
  destruct (IH (x / 10)%N Hd (String (pretty_N_char (x mod 10)) s) ltac:(lia)) as (ds & E & Hds & Hhd). exists (ds ++ [48 + Z.of_N (x mod 10)]).
  split; [rewrite E; cbn [as_bytes]; rewrite digit_char by done; by rewrite <- app_assoc|]. split.
  - rewrite (digits_app _ _ _ _ Hds). cbn [digits_loop]. clear -Hm Hd Hdm Hx. set (y := (x mod 10)%N) in *. set (q := (x / 10)%N) in *. clearbody y q.
    destruct (Z.leb_spec 48 (48 + Z.of_N y)); [|lia]. destruct (Z.leb_spec (48 + Z.of_N y) 57); [|lia]. cbn [andb].
    destruct (Z.ltb_spec U32_MAX (Z.of_N q * 10 + (48 + Z.of_N y - 48))); [lia|]. f_equal. lia.
  - intros _. destruct ds as [|d l]; [by eexists _, _; split; [|exact Hy]|]. exists d, (l ++ [48 + Z.of_N (x mod 10)]). split; [done|].
    destruct (decide (x / 10 = 0)%N) as [E0|E0]; [|destruct (Hhd E0) as (d' & l' & [= <- <-] & H); done].
    rewrite E0 in E. rewrite pretty_N_go_0 in E. cbn [as_bytes] in E. apply (f_equal length) in E. rewrite length_app in E. cbn in E. lia.
Qed.

(** A number is read back from its decimal text. *)
Lemma parse_pretty z : 0 <= z <= U32_MAX -> parse_u32 (as_bytes (pretty z)) = Some z.
Proof.
  intros Hz. destruct z as [|x|x]; [done| |lia]. change (pretty (Z.pos x)) with (pretty (N.pos x)). unfold pretty, pretty_N. rewrite decide_False by done.
  destruct (digits_pretty (N.pos x) "" ltac:(lia)) as (ds & E & Hds & Hhd). rewrite app_nil_r in E. rewrite E.
  destruct (Hhd ltac:(done)) as (d & l & -> & Hd). unfold parse_u32. destruct (decide (d = 43)); [lia|].
  replace (match d :: l with 43 :: l' => l' | _ => d :: l end) with (d :: l); [exact Hds|].
  destruct d as [|d'|]; try done. by do 6 (destruct d' as [d'|d'|]; try done).
Qed.

(** ** [String::from_utf8_lossy] *)

Definition replacement : list Z := [0xEF; 0xBF; 0xBD].

(** Every maximal piece that starts a character but does not end it is replaced. *)
Fixpoint utf8_lossy (l : list Z) : list Z :=
  match l with
  | [] => []
  | b0 :: l1 =>
    if b0 <? 0x80 then b0 :: utf8_lossy l1
    else if (0xC2 <=? b0) && (b0 <=? 0xDF) then
      match l1 with
      | b1 :: l2 => if is_cont b1 then b0 :: b1 :: utf8_lossy l2 else replacement ++ utf8_lossy l1
      | [] => replacement
      end
    else if (0xE0 <=? b0) && (b0 <=? 0xEF) then
      match l1 with
      | b1 :: l2 =>
        if ((if b0 =? 0xE0 then 0xA0 else 0x80) <=? b1) && (b1 <=? (if b0 =? 0xED then 0x9F else 0xBF)) then
          match l2 with
          | b2 :: l3 => if is_cont b2 then b0 :: b1 :: b2 :: utf8_lossy l3 else replacement ++ utf8_lossy l2
          | [] => replacement
          end
        else replacement ++ utf8_lossy l1
      | [] => replacement
      end
    else if (0xF0 <=? b0) && (b0 <=? 0xF4) then
      match l1 with
      | b1 :: l2 =>
        if ((if b0 =? 0xF0 then 0x90 else 0x80) <=? b1) && (b1 <=? (if b0 =? 0xF4 then 0x8F else 0xBF)) then
          match l2 with
          | b2 :: l3 =>
            if is_cont b2 then
              match l3 with
              | b3 :: l4 => if is_cont b3 then b0 :: b1 :: b2 :: b3 :: utf8_lossy l4 else replacement ++ utf8_lossy l3
              | [] => replacement
              end
            else replacement ++ utf8_lossy l2
          | [] => replacement
          end
        else replacement ++ utf8_lossy l1
      | [] => replacement
      end
    else replacement ++ utf8_lossy l1
  end.

(** A text is left as it is. *)
Lemma utf8_lossy_valid l : utf8_valid l = true -> utf8_lossy l = l.
Proof.
  remember (length l) as n eqn:Hn. revert l Hn. induction (lt_wf n) as [n _ IH]. intros l -> Hv.
  assert (IH' : forall k, (length k < length l)%nat -> utf8_valid k = true -> utf8_lossy k = k) by (intros k Hk; by apply (IH (length k))). clear IH.
  destruct l as [|b0 l1]; [done|]. cbn [utf8_valid utf8_lossy] in *.
  destruct (b0 <? 0x80); [by rewrite IH' by (cbn; lia || done)|]. destruct l1 as [|b1 l2]; [done|].
  destruct ((0xC2 <=? b0) && (b0 <=? 0xDF)).
  { apply andb_true_iff in Hv as [-> Hv]. by rewrite IH' by (cbn; lia || done). }
  destruct l2 as [|b2 l3]; [done|]. destruct ((0xE0 <=? b0) && (b0 <=? 0xEF)).
  { repeat (apply andb_true_iff in Hv as [Hv ?]). rewrite Hv. repeat match goal with H : _ = true |- _ => rewrite H end. cbn [andb].
    by rewrite IH' by (cbn; lia || done). }
  destruct l3 as [|b3 l4]; [done|]. repeat (apply andb_true_iff in Hv as [Hv ?]). rewrite Hv. repeat match goal with H : _ = true |- _ => rewrite H end. cbn [andb].
  by rewrite IH' by (cbn; lia || done).
Qed.
