(* ===== verification/Procfs.v ===== *)
(** * Procfs: /proc and /sys (kernel/src/fs/procfs.rs, kernel/src/fs/sysfs.rs)

    Directories with fixed entries and one per process, and files whose text is made
    anew for every read.  The name of the host is the text of /etc/hostname, read and
    written through the VFS in the name of the caller. *)

From Stdlib Require Import Ascii.
From stdpp Require Import pretty.
From S2P Require Import Prelude Text Format Sched Slots Process Inode Vfs SyscallFs.

Open Scope Z_scope.

(** What the drivers answer: the clock, the heap, the watchdog, the sockets and the
    sessions, and how much of its stack a task has used. *)
Record Env := mkEnv {
  uptime_ms : Z;
  heap_total : Z; heap_used : Z; heap_free : Z;
  wd_enabled : bool; wd_timeout : Z; wd_feeds : Z; reset_reason : string;
  sockets : list (string * string * string * string * string);
  sessions : list (Z * string * string * bool);
  high_water : Z -> Z;
  core : Z;
}.

(* @src kernel/src/fs/procfs.rs 628-663 ProcFsFile *)
Inductive ProcFile : Type :=
  | Uptime | MemInfo | Stacks | PidStatus (pid : Z) | NetSockets | NetArp | NetDev | NetRoute | Dmesg | Version | CpuInfo | Mounts
  | Watchdog | Devices | Interrupts | Partitions | Crypto | LoadAvg | Filesystems | Ipc | Cmdline | Stat
  | SysKernelHostname | SysKernelOsRelease | SysKernelOsType | SysKernelVersion | SysVmFreeRam | SysVmTotalRam
  | Sessions | ZoneInfo | DiskStats | Modules | Swaps | Misc.

(** The inodes of the file system. *)
Inductive ProcNode : Type := ProcFsRoot | ProcFsPidDir (pid : Z) | ProcFsNetDir | ProcFsSysDir | ProcFsSysKernelDir | ProcFsSysVmDir | ProcFsFile (f : ProcFile).

Definition proc_kind (n : ProcNode) : InodeKind := match n with ProcFsFile _ => File | _ => Dir end.
(* @src kernel/src/fs/procfs.rs 50-52 ProcFsRoot::size *)
Definition proc_size (n : ProcNode) : Z := 0.

(** ** Directories *)

(** The names that the root knows, in the order it tries them. *)
(* @src kernel/src/fs/procfs.rs 63-142 ProcFsRoot::lookup (names) *)
Definition root_names : list (string * ProcNode) :=
  [("uptime", ProcFsFile Uptime); ("meminfo", ProcFsFile MemInfo); ("stacks", ProcFsFile Stacks); ("tasks", ProcFsFile Stacks);
   ("net", ProcFsNetDir); ("dmesg", ProcFsFile Dmesg); ("version", ProcFsFile Version); ("cpuinfo", ProcFsFile CpuInfo);
   ("mounts", ProcFsFile Mounts); ("watchdog", ProcFsFile Watchdog); ("devices", ProcFsFile Devices);
   ("interrupts", ProcFsFile Interrupts); ("partitions", ProcFsFile Partitions); ("crypto", ProcFsFile Crypto);
   ("loadavg", ProcFsFile LoadAvg); ("filesystems", ProcFsFile Filesystems); ("ipc", ProcFsFile Ipc); ("cmdline", ProcFsFile Cmdline);
   ("stat", ProcFsFile Stat); ("sys", ProcFsSysDir); ("sessions", ProcFsFile Sessions); ("zoneinfo", ProcFsFile ZoneInfo);
   ("diskstats", ProcFsFile DiskStats); ("modules", ProcFsFile Modules); ("swaps", ProcFsFile Swaps); ("misc", ProcFsFile Misc)]%string.
(* @src kernel/src/fs/procfs.rs 445-459 ProcFsNetDir::lookup *)
Definition net_names : list (string * ProcNode) :=
  [("sockets", ProcFsFile NetSockets); ("arp", ProcFsFile NetArp); ("dev", ProcFsFile NetDev); ("route", ProcFsFile NetRoute)]%string.
(* @src kernel/src/fs/procfs.rs 527-535 ProcFsSysDir::lookup *)
Definition sys_names : list (string * ProcNode) := [("kernel", ProcFsSysKernelDir); ("vm", ProcFsSysVmDir)]%string.
(* @src kernel/src/fs/procfs.rs 567-575 ProcFsSysKernelDir::lookup *)
Definition sys_kernel_names : list (string * ProcNode) :=
  [("hostname", ProcFsFile SysKernelHostname); ("osrelease", ProcFsFile SysKernelOsRelease); ("ostype", ProcFsFile SysKernelOsType);
   ("version", ProcFsFile SysKernelVersion)]%string.
(* @src kernel/src/fs/procfs.rs 609-615 ProcFsSysVmDir::lookup *)
Definition sys_vm_names : list (string * ProcNode) := [("free_ram", ProcFsFile SysVmFreeRam); ("total_ram", ProcFsFile SysVmTotalRam)]%string.

(** The first of [names] that is [name]. *)
Fixpoint named (names : list (string * ProcNode)) (name : string) : option ProcNode :=
  match names with
  | [] => None
  | (n, node) :: names => if bool_decide (name = n) then Some node else named names name
  end.

Definition dir (name : string) (ino : Z) : DirEntry := mkDirEntry name Dir ino.
Definition file (name : string) (ino : Z) : DirEntry := mkDirEntry name File ino.

(* @src kernel/src/fs/procfs.rs 153-348 ProcFsRoot::readdir (fixed entries) *)
Definition root_entries : list DirEntry :=
  [dir "." 1; dir ".." 1; file "uptime" 2; file "meminfo" 3; dir "net" 4; file "stacks" 5; file "tasks" 6; file "dmesg" 7; file "version" 8;
   file "cpuinfo" 9; file "mounts" 10; file "watchdog" 11; file "devices" 12; file "interrupts" 13; file "partitions" 14; file "crypto" 15;
   file "loadavg" 16; file "filesystems" 17; file "ipc" 18; file "cmdline" 19; file "stat" 20; dir "sys" 21; file "sessions" 22;
   file "zoneinfo" 23; file "diskstats" 24; file "modules" 25; file "swaps" 26; file "misc" 27].
(* @src kernel/src/fs/procfs.rs 400-423 ProcFsPidDir::readdir *)
Definition pid_entries (pid : Z) : list DirEntry := [dir "." (u32 (1000 + pid)); dir ".." 1; file "status" (u32 (2000 + pid))].
(* @src kernel/src/fs/procfs.rs 461-505 ProcFsNetDir::readdir *)
Definition net_entries : list DirEntry := [dir "." 100; dir ".." 1; file "sockets" 101; file "arp" 102; file "dev" 103; file "route" 104].
(* @src kernel/src/fs/procfs.rs 537-545 ProcFsSysDir::readdir *)
Definition sys_entries : list DirEntry := [dir "." 200; dir ".." 1; dir "kernel" 201; dir "vm" 202].
(* @src kernel/src/fs/procfs.rs 577-587 ProcFsSysKernelDir::readdir *)
Definition sys_kernel_entries : list DirEntry :=
  [dir "." 210; dir ".." 200; file "hostname" 211; file "osrelease" 212; file "ostype" 213; file "version" 214].
(* @src kernel/src/fs/procfs.rs 617-625 ProcFsSysVmDir::readdir *)
Definition sys_vm_entries : list DirEntry := [dir "." 220; dir ".." 200; file "free_ram" 221; file "total_ram" 222].

(** ** Texts *)

Definition debug_state (s : ProcessState) : string := match s with PRunning => "Running" | PZombie => "Zombie" end.
Definition task_state (s : TaskState) : string := match s with Ready => "ready" | Running => "run" | Blocked => "blocked" | Zombie => "zombie" end.

(* @src kernel/src/fs/procfs.rs 767-779 Mounts (device of a file system) *)
Definition mount_device (fs_name : string) : string :=
  if bool_decide (fs_name = "espfs"%string) then "/dev/flash0"
  else if bool_decide (fs_name ∈ ["devfs"; "procfs"; "sysfs"; "ramfs"]%string) then fs_name else "none".

Section Procfs.
Context {F : Type} `{HF : Frame F} {W I : Type} `{HN : !Inode W I, HE : !EqDecision I, HP : !Droppable W I, HPp : !Pipes W I}.
Abbreviation K := (Kernel F (Vfs W I)).
Implicit Types (k : K) (e : Env).

(** The keys of the table of processes, as a [BTreeMap] keeps them. *)
Definition pids k : list Z := sort_by_key (fun p => p) (elements (dom (table (k_pt k)))).

(* @src kernel/src/fs/procfs.rs 143-150 ProcFsRoot::lookup (processes) *)
Definition proc_lookup (n : ProcNode) (name : string) k : KResult ProcNode :=
  match n with
  | ProcFsRoot =>
    match named root_names name with
    | Some node => Ok node
    | None =>
      match parse_u32 (as_bytes name) with
      | Some pid => if bool_decide (is_Some (table (k_pt k) !! pid)) then Ok (ProcFsPidDir pid) else Err NotFound
      | None => Err NotFound
      end
    end
  | ProcFsPidDir pid => if bool_decide (name = "status"%string) then Ok (ProcFsFile (PidStatus pid)) else Err NotFound
  | ProcFsNetDir => ok_or (named net_names name) NotFound
  | ProcFsSysDir => ok_or (named sys_names name) NotFound
  | ProcFsSysKernelDir => ok_or (named sys_kernel_names name) NotFound
  | ProcFsSysVmDir => ok_or (named sys_vm_names name) NotFound
  | ProcFsFile _ => Err NotADirectory
  end.

Definition indexed (l : list DirEntry) (index : Z) : KResult (option DirEntry) := Ok (l !! Z.to_nat index).
(* @src kernel/src/fs/procfs.rs 350-369 ProcFsRoot::readdir (processes) *)
Definition proc_readdir (n : ProcNode) (index : Z) k : KResult (option DirEntry) :=
  match n with
  | ProcFsRoot =>
    match root_entries !! Z.to_nat index with
    | Some e => Ok (Some e)
    | None => Ok ((fun pid => dir (pretty pid) (u32 (1000 + pid))) <$> pids k !! Z.to_nat (index - 28))
    end
  | ProcFsPidDir pid => indexed (pid_entries pid) index
  | ProcFsNetDir => indexed net_entries index
  | ProcFsSysDir => indexed sys_entries index
  | ProcFsSysKernelDir => indexed sys_kernel_entries index
  | ProcFsSysVmDir => indexed sys_vm_entries index
  | ProcFsFile _ => Err NotADirectory
  end.

(** The tasks, in the order of their numbers. *)
(* @src kernel/src/scheduler/mod.rs 122-161 stacks_report *)
Definition stacks_report e k : string :=
  let rows := match sched (k_sched k) with Some s => sort_by_key t_tid ((map_to_list (tasks s)).*2) | None => [] end in
  foldl (fun out t => out +:+ fmt "{}\t{}\t{}\t{}\t{}\t{}\t{}\n"
    [match pid_of_tid (t_tid t) (k_pt k) with Some p => Num p | None => Str "-" end; Num (t_tid t); Str (t_name t); Str (task_state (t_state t));
     Num (high_water e (t_tid t)); Num (t_stack_size t); Num (saturating_sub (t_stack_size t) (high_water e (t_tid t)))])%string
    (fmt "pid\ttid\tname\tstate\tused\tsize\tfree\n" []) rows.

(* @src kernel/src/fs/procfs.rs 676-688 Devices *)
Definition devices_text : string :=
  fmt "Character devices:\n1 mem (null, zero, random, urandom)\n4 tty (console, uart0)\n10 misc (watchdog, gpio, pwm0, adc0, fb0, power, sha0, passwd)\n80 net (wlan0)\n90 bluetooth (ble0)\n110 bus (i2c0, spi0)\n\nBlock devices:\n31 mtd (flash0, espfs, littlefs)\n"
    [].

(* @src kernel/src/fs/procfs.rs 689-708 Interrupts *)
Definition interrupts_text e : string :=
  let ticks := uptime_ms e / 10 in
  fmt "           CPU0       CPU1\n1: {:10}          0  SYSTIMER (100 Hz preemptive scheduler)\n2: {:10}          0  UART0 (console RX/TX)\n3: {:10}          0  WIFI (802.11 b/g/n MAC / smoltcp)\n4: {:10}          0  RTC_WDT (hardware watchdog)\n5: {:10}          0  LEDC_PWM (pulse width modulation)\nLOC: {:10}          0  Local timer interrupts\nRES:          0          0  Rescheduling interrupts\n"
    [Num ticks; Num (u64 (ticks / 5 + 42)); Num (u64 (ticks / 2 + 100)); Num (wd_feeds e); Num (ticks / 10); Num ticks].

(* @src kernel/src/fs/procfs.rs 709-719 Partitions *)
Definition partitions_text : string :=
  fmt "major minor  #blocks  name\n31     0       24  nvs\n31     1        8  otadata\n31     2     4096  factory\n31     3     4096  ota_0\n31     4     8000  storage\n31     5       64  coredump\n"
    [].

(* @src kernel/src/fs/procfs.rs 720-747 Crypto *)
Definition crypto_text : string :=
  fmt "name         : sha256\ndriver       : esp32s3-sha-hw (hardware accelerator)\nmodule       : kernel\npriority     : 300\nrefcnt       : 1\nselftest     : passed\ntype         : shash\nblocksize    : 64\ndigestsize   : 32\n\nname         : ed25519\ndriver       : dalek-software\nmodule       : ssh\npriority     : 100\ntype         : kpp\n\nname         : chacha20-poly1305\ndriver       : chacha20poly1305-software\nmodule       : ssh\npriority     : 100\ntype         : aead\n\nname         : trng\ndriver       : esp32s3-hw-rng (entropy source)\nmodule       : kernel\npriority     : 400\ntype         : rng\n"
    [].

(* @src kernel/src/fs/procfs.rs 748-757 Watchdog *)
Definition watchdog_text e : string :=
  fmt "watchdog\t: {}\ntimeout\t\t: {}s\nfeeds\t\t: {}\nreset_reason\t: {}\n"
    [Str (if wd_enabled e then "enabled" else "disabled"); Num (wd_timeout e); Num (wd_feeds e); Str (reset_reason e)].

(* @src kernel/src/fs/procfs.rs 758-763 CpuInfo *)
Definition cpuinfo_text : string :=
  fmt "processor\t: 0\nmodel name\t: Xtensa LX7 dual-core\ncpu MHz\t\t: 240.00\nfeatures\t: fpu, mac, esp32s3, windowed_abi\ncache size\t: 32 KB I-Cache, 32 KB D-Cache\n\nprocessor\t: 1\nmodel name\t: Xtensa LX7 dual-core\ncpu MHz\t\t: 240.00\nfeatures\t: fpu, mac, esp32s3, windowed_abi\ncache size\t: 32 KB I-Cache, 32 KB D-Cache\n"
    [].

(* @src kernel/src/fs/procfs.rs 764-783 Mounts *)
Definition mounts_text k : string :=
  foldl (fun out m => out +:+ fmt "{} {} {} rw 0 0\n" [Str (mount_device (fs_name m.2)); Str m.1; Str (fs_name m.2)])%string ""%string (v_mounts (k_fds k)).

(* @src kernel/src/fs/procfs.rs 784-786 Version *)
Definition version_text : string :=
  fmt "EspressoOS 0.2.0-dev (xtensa-esp32s3-none-elf) Rust no_std [Xtensa LX7 dual-core @ 240MHz]\n"
    [].

(* @src kernel/src/fs/procfs.rs 787-809 Dmesg *)
Definition dmesg_text e : string :=
  let ms := uptime_ms e in
  fmt "[{:5}.{:03}000] Linux-compatible EspressoOS 0.2.0-dev (xtensa-esp32s3-none-elf)\n[{:5}.{:03}000] CPU: Xtensa LX7 dual-core running at 240 MHz\n[{:5}.{:03}000] Memory: 128KB SRAM heap + 8MB Octal PSRAM (~7MB extended heap, 1MB PSRAM-exec pool)\n[{:5}.{:03}000] PSRAM-Exec: 32 slots (16KB text/data) mapped to I-Bus @ 0x42800000\n[{:5}.{:03}000] VFS: mounted devfs on /dev, espfs on /, ramfs on /tmp, procfs on /proc, sysfs on /sys\n[{:5}.{:03}000] Drivers: UART0 live, SHA-256 accelerator ready, Power LPWR ready\n[{:5}.{:03}000] Network: esp-wifi STA + smoltcp TCP/IP stack active\n[{:5}.{:03}000] Security: SSH-2.0 daemon listening on :22\n[{:5}.{:03}000] Process: Multitasking preemptive 100Hz scheduler active with orphan reparenting to PID 1\n"
    [Num 0; Num 0; Num 0; Num 10; Num 0; Num 25; Num 0; Num 35; Num 0; Num 45; Num 0; Num 60; Num 0; Num 80; Num 0; Num 95;
     Num (ms / 1000); Num (ms mod 1000)].

(* @src kernel/src/fs/procfs.rs 810-813 Uptime *)
Definition uptime_text e : string :=
  fmt "uptime: {} ms\n"
    [Num (uptime_ms e)].

(* @src kernel/src/fs/procfs.rs 814-824 MemInfo *)
Definition meminfo_text e k : string :=
  fmt "MemTotal: {} bytes\nMemUsed: {} bytes\nMemFree: {} bytes\nSlotsTotal: {}\nSlotsUsed: {}\n"
    [Num (heap_total e); Num (heap_used e); Num (heap_free e); Num SLOT_COUNT; Num (slots_in_use (k_slots k))].

(* @src kernel/src/fs/procfs.rs 826-839 PidStatus *)
Definition pid_status_text (pid : Z) k : KResult string :=
  match table (k_pt k) !! pid with
  | Some proc => Ok (fmt "Name:\t{}\nPid:\t{}\nState:\t{:?}\nExitCode:\t{}\n" [Str (p_name proc); Num pid; Str (debug_state (p_state proc)); Num (p_exit_code proc)])
  | None => Err NotFound
  end.

(* @src kernel/src/fs/procfs.rs 840-890 NetSockets (rows of the stack) *)
Definition sockets_text e : string :=
  foldl (fun out r => let '(handle, proto, local, remote, state) := r in
    out +:+ fmt "{}\t{}\t{}\t{}\t{}\n" [Str handle; Str proto; Str local; Str remote; Str state])%string
    (fmt "Fd\tType\tLocal\tRemote\tState\n" []) (sockets e).

(* @src kernel/src/fs/procfs.rs 891-897 NetArp *)
Definition arp_text : string :=
  fmt "IP address       HW type     Flags       HW address            Mask     Device\n192.168.1.1      0x1         0x2         00:50:56:c0:00:08     *        wlan0\n192.168.1.100    0x1         0x2         c0:49:ef:12:34:56     *        wlan0\n"
    [].

(* @src kernel/src/fs/procfs.rs 898-905 NetDev *)
Definition net_dev_text : string :=
  fmt "Inter-|   Receive                                                |  Transmit\nface |bytes    packets errs drop fifo frame compressed multicast|bytes    packets errs drop fifo colls carrier compressed\nlo:       0       0    0    0    0     0          0         0        0       0    0    0    0     0       0          0\nwlan0: 1048576    4096    0    0    0     0          0         0  1048576    4096    0    0    0     0       0          0\n"
    [].

(* @src kernel/src/fs/procfs.rs 906-912 NetRoute *)
Definition route_text : string :=
  fmt "Iface\tDestination\tGateway\tFlags\tRefCnt\tUse\tMetric\tMask\tMTU\tWindow\tIRTT\nwlan0\t0001A8C0\t00000000\t0001\t0\t0\t0\t00FFFFFF\t0\t0\t0\nwlan0\t00000000\t0101A8C0\t0003\t0\t0\t0\t00000000\t0\t0\t0\n"
    [].

(* @src kernel/src/fs/procfs.rs 913-918 LoadAvg *)
Definition loadavg_text k : string :=
  fmt "0.04 0.02 0.01 1/{} {}\n"
    [Num (u32 (Z.of_nat (base.size (table (k_pt k))) + 4)); Num (saturating_sub (next_pid (k_pt k)) 1)].

(* @src kernel/src/fs/procfs.rs 919-928 Filesystems *)
Definition filesystems_text : string :=
  fmt "nodev\tprocfs\nnodev\tdevfs\nnodev\tsysfs\nnodev\tramfs\n\tespfs\n\tlittlefs\n"
    [].

(* @src kernel/src/fs/procfs.rs 929-938 Ipc *)
Definition ipc_text : string :=
  fmt "=== IPC Facility Status ===\nPipes: 8 pipeline stages max, 512 B ring buffers\nFIFOs: Named pipes active (RamFs mounts)\nMessage Queues: Internal ring queues\nShared Memory: Dual-port PSRAM pool (0x3C000000 - 0x3C800000)\nSemaphores: Spinlocks, Mutexes, and atomic flag sync primitives\n"
    [].

(* @src kernel/src/fs/procfs.rs 939-941 Cmdline *)
Definition cmdline_text : string :=
  fmt "console=ttyS0,115200 root=/dev/flash0 rw init=/bin/init quiet\n"
    [].

(* @src kernel/src/fs/procfs.rs 942-968 Stat *)
Definition stat_text e k : string :=
  let user := uptime_ms e / 10 in
  let idle := u64 (uptime_ms e * 3) / 10 in
  fmt "cpu  {} 0 {} {} 0 0 0 0 0 0\ncpu0 {} 0 {} {} 0 0 0 0 0 0\nintr 0\nctxt {}\nbtime 1700000000\nprocesses {}\nprocs_running {}\nprocs_blocked 0\n"
    [Num user; Num (user / 2); Num idle; Num user; Num (user / 2); Num idle; Num (u64 (user * 2));
     Num (saturating_sub (next_pid (k_pt k)) 1); Num (Z.of_nat (base.size (table (k_pt k))))].

(* @src kernel/src/fs/procfs.rs 1005-1013 Sessions *)
Definition sessions_text e : string :=
  foldl (fun out r => let '(id, user, tty, is_open) := r in
    out +:+ fmt "{}\t{}\t{}\t{}\n" [Num id; Str user; Str tty; Str (if (is_open : bool) then "active" else "closed")])%string
    (fmt "ID\tUSER\tTTY\tSTATUS\n" []) (sessions e).

(* @src kernel/src/fs/procfs.rs 1014-1051 ZoneInfo *)
Definition zoneinfo_text e k : string :=
  let sram_total := 128 * 1024 in
  let sram_free := 64 * 1024 in
  let total := heap_total e / 4096 in
  let free := heap_free e / 4096 in
  fmt "Node 0, zone   SRAM\npages total  {}\npages free   {}\nnr_free_pages {}\nspanned      {}\npresent      {}\nmanaged      {}\nNode 0, zone   PSRAM\npages total  {}\npages free   {}\nnr_free_pages {}\nspanned      {}\npresent      {}\nmanaged      {}\npsram_exec_slots_free {}\npsram_exec_slots_total 32\n"
    [Num (sram_total / 4096); Num (sram_free / 4096); Num (sram_free / 4096); Num (sram_total / 4096); Num (sram_total / 4096); Num (sram_total / 4096);
     Num total; Num free; Num free; Num total; Num total; Num total; Num (saturating_sub SLOT_COUNT (slots_in_use (k_slots k)))].

(* @src kernel/src/fs/procfs.rs 1052-1064 DiskStats *)
Definition diskstats_text e : string :=
  let ticks := uptime_ms e / 1000 in
  let reads := u64 (1200 + ticks * 2) in
  let writes := u64 (65 + ticks / 10) in
  fmt "  31       0 flash0 {} 0 {} 0 {} 0 {} 0 0 0 0\n31       1 espfs {} 0 {} 0 {} 0 {} 0 0 0 0\n1       0 ramfs0 45 0 90 0 32 0 64 0 0 0 0\n1       1 ramfs1 12 0 24 0 8 0 16 0 0 0 0\n"
    [Num reads; Num (u64 (reads * 8)); Num writes; Num (u64 (writes * 8)); Num (reads / 2); Num (u64 (reads * 4)); Num (writes / 2); Num (u64 (writes * 4))].

(* @src kernel/src/fs/procfs.rs 1065-1084 Modules *)
Definition modules_text : string :=
  fmt "espfs 32768 1 - Live 0x40378000\nprocfs 16384 1 - Live 0x4037c000\nsysfs 8192 1 - Live 0x4037e000\ndevfs 8192 1 - Live 0x40380000\nramfs 8192 1 - Live 0x40382000\nlittlefs 16384 0 - Live 0x40384000\nesp_wifi 65536 1 - Live 0x40388000\nssh_server 32768 1 - Live 0x40398000\npsram_exec 16384 1 - Live 0x403a0000\nsystimer 4096 1 - Live 0x403a4000\nwdt 4096 1 - Live 0x403a5000\nuart0 4096 1 - Live 0x403a6000\ngpio 4096 1 - Live 0x403a7000\ni2c0 4096 1 - Live 0x403a8000\nspi2 4096 1 - Live 0x403a9000\nble0 16384 1 - Live 0x403aa000\n"
    [].

(* @src kernel/src/fs/procfs.rs 1085-1087 Swaps *)
Definition swaps_text : string :=
  fmt "Filename\t\t\t\tType\t\tSize\t\tUsed\t\tPriority\n"
    [].

(* @src kernel/src/fs/procfs.rs 1088-1098 Misc *)
Definition misc_text : string :=
  fmt " 10 psram_exec\n20 power\n30 watchdog\n40 sha0\n50 passwd\n60 random\n61 urandom\n"
    [].

(** The text of every file but the name of the host. *)
(* @src kernel/src/fs/procfs.rs 674-675 ProcFsFile::read_at (content) *)
Definition proc_text e (f : ProcFile) k : KResult string :=
  match f with
  | Devices => Ok devices_text | Interrupts => Ok (interrupts_text e) | Partitions => Ok partitions_text | Crypto => Ok crypto_text
  | Watchdog => Ok (watchdog_text e) | CpuInfo => Ok cpuinfo_text | Mounts => Ok (mounts_text k) | Version => Ok version_text
  | Dmesg => Ok (dmesg_text e) | Uptime => Ok (uptime_text e) | MemInfo => Ok (meminfo_text e k) | Stacks => Ok (stacks_report e k)
  | PidStatus pid => pid_status_text pid k | NetSockets => Ok (sockets_text e) | NetArp => Ok arp_text | NetDev => Ok net_dev_text
  | NetRoute => Ok route_text | LoadAvg => Ok (loadavg_text k) | Filesystems => Ok filesystems_text | Ipc => Ok ipc_text
  | Cmdline => Ok cmdline_text | Stat => Ok (stat_text e k) | SysKernelHostname => Err NotSupported
  | SysKernelOsRelease => Ok (fmt "0.2.0-dev\n" []) | SysKernelOsType => Ok (fmt "EspressoOS\n" [])
  | SysKernelVersion => Ok (fmt "0.2.0-dev (xtensa-esp32s3-none-elf)\n" [])
  | SysVmFreeRam => Ok (fmt "{}\n" [Num (heap_free e)]) | SysVmTotalRam => Ok (fmt "{}\n" [Num (heap_total e)])
  | Sessions => Ok (sessions_text e) | ZoneInfo => Ok (zoneinfo_text e k) | DiskStats => Ok (diskstats_text e)
  | Modules => Ok modules_text | Swaps => Ok swaps_text | Misc => Ok misc_text
  end.

(** ** The name of the host *)

Definition HOSTNAME : string := "/etc/hostname".

(** The end of the name without its newlines and spaces. *)
(* @src kernel/src/fs/procfs.rs 975-978 SysKernelHostname (end of the name) *)
Fixpoint name_end (rev : list Z) : list Z :=
  match rev with
  | b :: rest => if (b =? 10) || (b =? 13) || (b =? 32) then name_end rest else rev
  | [] => []
  end.
(* @src kernel/src/fs/procfs.rs 969-987 SysKernelHostname *)
Definition hostname_text : IO K (list Z) := fun k =>
  let c := caller_of k in
  match open c HOSTNAME RDONLY (k_fds k) with
  | (v, Err _) => (k_set_fds v k, Ret (Ok (as_bytes "esp32s3" ++ [10])))
  | (v, Ok fd) =>
    match Vfs.read c fd 64 v with
    | (v, Park) => (k_set_fds v k, Park)
    | (v, Ret r) =>
      let got := match r with Ok got => got | Err _ => [] end in
      let v := (close c fd v).1 in
      (k_set_fds v k, Ret (Ok ((match got with [] => as_bytes "esp32s3" | _ => utf8_lossy (reverse (name_end (reverse got))) end) ++ [10])))
    end
  end.
Definition HOSTNAME_FLAGS : Z := Z.lor (Z.lor Vfs.O_CREATE WRONLY) Vfs.O_TRUNC.
(* @src kernel/src/fs/procfs.rs 1111-1136 ProcFsFile::write_at *)
Definition proc_write (f : ProcFile) (buf : list Z) : IO K Z := fun k =>
  match f with
  | SysKernelHostname =>
    if negb (utf8_valid buf) then (k, Ret (Err InvalidArgument))
    else
      let trimmed := trim buf in
      if bool_decide (trimmed = []) then (k, Ret (Err InvalidArgument))
      else
        let c := caller_of k in
        match open c HOSTNAME HOSTNAME_FLAGS (k_fds k) with
        | (v, Err _) => (k_set_fds v k, Ret (Err IoError))
        | (v, Ok fd) =>
          match Vfs.write c fd (trimmed ++ [10]) v with
          | (v, Park) => (k_set_fds v k, Park)
          | (v, Ret _) => (k_set_fds (close c fd v).1 k, Ret (Ok (len buf)))
          end
        end
  | _ => (k, Ret (Err NotSupported))
  end.

(** The piece of the text at [off], which is taken as a [usize]. *)
(* @src kernel/src/fs/procfs.rs 1101-1108 ProcFsFile::read_at (piece) *)
Definition text_piece (off n : Z) (bytes : list Z) : list Z :=
  let start := u32 off in
  if len bytes <=? start then [] else slice start (Z.min (len bytes - start) n) bytes.
(* @src kernel/src/fs/procfs.rs 1099-1109 ProcFsFile::read_at (end) *)
Definition proc_read e (n : ProcNode) (off count : Z) : IO K (list Z) := fun k =>
  match n with
  | ProcFsFile SysKernelHostname =>
    match hostname_text k with (k, Ret (Ok l)) => (k, Ret (Ok (text_piece off count l))) | r => r end
  | ProcFsFile f => (k, Ret (text ← proc_text e f k; Ok (text_piece off count (as_bytes text))))
  | _ => (k, Ret (Err IsADirectory))
  end.
(* @src kernel/src/fs/procfs.rs 58-60 ProcFsRoot::write_at *)
Definition proc_write_at (n : ProcNode) (buf : list Z) : IO K Z := fun k =>
  match n with ProcFsFile f => proc_write f buf k | _ => (k, Ret (Err NotSupported)) end.
End Procfs.

(** ** /sys *)

(* @src kernel/src/fs/sysfs.rs 124-129 SysFsFile *)
Inductive SysFile : Type := KernelInfo | Smp | Pms | Power.
Inductive SysNode : Type := SysFsRoot | SysFsFile (f : SysFile).

(* @src kernel/src/fs/sysfs.rs 61-75 SysFsRoot::lookup *)
Definition sysfs_lookup (n : SysNode) (name : string) : KResult SysNode :=
  match n with
  | SysFsRoot =>
    if bool_decide (name = "kernel"%string) then Ok (SysFsFile KernelInfo)
    else if bool_decide (name = "smp"%string) then Ok (SysFsFile Smp)
    else if bool_decide (name = "pms"%string) then Ok (SysFsFile Pms)
    else if bool_decide (name = "power"%string) then Ok (SysFsFile Power)
    else Err NotFound
  | SysFsFile _ => Err NotADirectory
  end.
(* @src kernel/src/fs/sysfs.rs 77-121 SysFsRoot::readdir *)
Definition sysfs_entries : list DirEntry := [dir "." 1; dir ".." 1; file "kernel" 2; file "smp" 3; file "pms" 4; file "power" 5].
Definition sysfs_readdir (n : SysNode) (index : Z) : KResult (option DirEntry) :=
  match n with SysFsRoot => Ok (sysfs_entries !! Z.to_nat index) | SysFsFile _ => Err NotADirectory end.
Definition sysfs_kind (n : SysNode) : InodeKind := match n with SysFsFile _ => File | SysFsRoot => Dir end.

(** Without the features [smp] and [pms]. *)
(* @src kernel/src/fs/sysfs.rs 143-177 SysFsFile::read_at (content) *)
Definition sysfs_text (e : Env) (f : SysFile) : string :=
  match f with
  | KernelInfo => fmt "EspressoOS Kernel v0.1.0\n" []
  | Smp => fmt "smp: disabled (build --features smp)\ncore: {}\n" [Num (core e)]
  | Pms => fmt "pms: disabled (build --features pms)\n" []
  | Power => fmt "cpu_freq_mhz: 240\napb_freq_mhz: 80\nxtal_freq_mhz: 40\nsleep_modes: deep_sleep, reboot\ndvfs: disabled\n" []
  end.
(* @src kernel/src/fs/sysfs.rs 178-187 SysFsFile::read_at (end) *)
Definition sysfs_read (e : Env) (n : SysNode) (off count : Z) : KResult (list Z) :=
  match n with SysFsRoot => Err IsADirectory | SysFsFile f => Ok (text_piece off count (as_bytes (sysfs_text e f))) end.
