(* ===== verification/ProcfsOps.v ===== *)
(** * ProcfsOps: the entries and the texts of /proc and /sys

    What a directory lists is what it finds, and nothing else but other spellings of the
    number of a process; a text is read in pieces of any size. *)

From stdpp Require Import pretty.
From S2P Require Import Prelude Text Format Sched Slots Process Inode Vfs SyscallFs SyscallFsOps Procfs.

Open Scope Z_scope.

(** ** Pieces *)

Lemma text_piece_slice off n l : 0 <= off < 2 ^ 32 -> 0 <= n -> text_piece off n l = slice off n l.
Proof.
  intros Ho Hn. unfold text_piece. rewrite u32_small by done. destruct (Z.leb_spec (len l) off) as [H|H].
  - unfold slice. rewrite drop_ge by lia. by rewrite take_nil.
  - unfold slice. destruct (Z.min_spec (len l - off) n) as [[H1 ->]|[H1 ->]]; [|done]. rewrite !take_ge; [done|rewrite length_drop; lia..].
Qed.

(** A reader with a buffer of [n] bytes that goes on from where it was until it gets
    nothing. *)
Fixpoint read_pieces (l : list Z) (off n : Z) (fuel : nat) : list Z :=
  match text_piece off n l with
  | [] => []
  | piece => match fuel with O => piece | S fuel => piece ++ read_pieces l (off + len piece) n fuel end
  end.
Lemma read_pieces_all l n fuel : 0 < n -> len l < 2 ^ 32 -> forall off, 0 <= off <= len l -> (Z.to_nat (len l - off) <= fuel)%nat ->
  read_pieces l off n fuel = drop (Z.to_nat off) l.
Proof.
  intros Hn Hl. induction fuel as [|fuel IH]; intros off Ho Hf; cbn [read_pieces]; rewrite text_piece_slice by lia.
  - assert (off = len l) as -> by lia. unfold slice. rewrite Nat2Z.id, drop_all. by rewrite take_nil.
  - unfold slice. destruct (take (Z.to_nat n) (drop (Z.to_nat off) l)) as [|b piece] eqn:E.
    + apply (f_equal length) in E. rewrite length_take, length_drop in E. cbn in E. rewrite drop_ge by lia. done.
    + pose proof (f_equal length E) as El. rewrite length_take, length_drop in El. rewrite <- E. rewrite length_take, length_drop in *.
      cbn [length] in El. rewrite IH by lia. rewrite <- (take_drop (Z.to_nat n) (drop (Z.to_nat off) l)) at 2. f_equal. rewrite drop_drop.
      destruct (decide (Z.to_nat n <= length l - Z.to_nat off)%nat); [f_equal; lia|]. rewrite !drop_ge; [done|lia..].
Qed.

Section ProcfsOps.
Context {F : Type} `{HF : Frame F} {W I : Type} `{HN : !Inode W I, HE : !EqDecision I, HP : !Droppable W I, HPp : !Pipes W I}.
Abbreviation K := (Kernel F (Vfs W I)).
Implicit Types k : K.

(** ** Directories *)

(** All that [readdir] gives for the indices from 0 on. *)
Definition proc_entries (n : ProcNode) k : list DirEntry :=
  match n with
  | ProcFsRoot => root_entries ++ ((fun pid => dir (pretty pid) (u32 (1000 + pid))) <$> pids k)
  | ProcFsPidDir pid => pid_entries pid
  | ProcFsNetDir => net_entries
  | ProcFsSysDir => sys_entries
  | ProcFsSysKernelDir => sys_kernel_entries
  | ProcFsSysVmDir => sys_vm_entries
  | ProcFsFile _ => []
  end.
Definition dots : list string := ["."; ".."]%string.

Lemma readdir_entries n k index : proc_kind n = Dir -> 0 <= index -> proc_readdir n index k = Ok (proc_entries n k !! Z.to_nat index).
Proof.
  intros Hd Hi. destruct n; try done. cbn [proc_readdir proc_entries]. destruct (root_entries !! Z.to_nat index) as [x|] eqn:E.
  - by rewrite (lookup_app_l_Some _ _ _ _ E).
  - pose proof (proj1 (lookup_ge_None _ _) E) as Hl. rewrite lookup_app_r by done. rewrite list_lookup_fmap.
    change (length root_entries) with 28%nat in *. do 3 f_equal. lia.
Qed.

Lemma elem_of_pids k pid : pid ∈ pids k <-> is_Some (table (k_pt k) !! pid).
Proof. unfold pids. rewrite sort_by_key_perm, elem_of_elements. apply elem_of_dom. Qed.
Lemma NoDup_pids k : NoDup (pids k).
Proof. unfold pids. rewrite sort_by_key_perm. apply NoDup_elements. Qed.

(** The directories with fixed entries, checked one entry after the other. *)
Definition entry_found (names : list (string * ProcNode)) (e : DirEntry) : bool :=
  bool_decide (de_name e ∈ dots) ||
  match named names (de_name e) with Some node => bool_decide (proc_kind node = de_kind e) | None => false end.
Lemma named_spec names name node : named names name = Some node -> (name, node) ∈ names.
Proof. induction names as [|[n x] names IH]; cbn [named]; [done|]. case_bool_decide as Hb; [intros [= ->]; subst; by left|]. intros H. right. by apply IH. Qed.
Lemma found_spec names es : forallb (entry_found names) es = true -> forall e, e ∈ es -> (de_name e ∉ dots) -> exists node, named names (de_name e) = Some node /\ proc_kind node = de_kind e.
Proof.
  intros Hf e He Hd. rewrite forallb_forall in Hf. specialize (Hf e (proj1 (list_elem_of_In _ _) He)). unfold entry_found in Hf.
  rewrite bool_decide_false in Hf by done. cbn [orb] in Hf. destruct (named names (de_name e)) as [node|]; [|done]. exists node. split; [done|]. by apply bool_decide_eq_true in Hf.
Qed.
Definition listed (names : list (string * ProcNode)) (es : list DirEntry) : bool := forallb (fun x => bool_decide (x.1 ∈ de_name <$> es)) names.
Lemma listed_spec names es name node : listed names es = true -> named names name = Some node -> name ∈ de_name <$> es.
Proof.
  intros Hl Hn. apply named_spec in Hn. unfold listed in Hl. rewrite forallb_forall in Hl. specialize (Hl _ (proj1 (list_elem_of_In _ _) Hn)). by apply bool_decide_eq_true in Hl.
Qed.
(** The names of a directory with fixed entries are its entries. *)
Definition exact (names : list (string * ProcNode)) (es : list DirEntry) : Prop :=
  NoDup (de_name <$> es) /\ forallb (entry_found names) es = true /\ listed names es = true.
Lemma exact_all : exact root_names root_entries /\ exact net_names net_entries /\ exact sys_names sys_entries /\
  exact sys_kernel_names sys_kernel_entries /\ exact sys_vm_names sys_vm_entries.
Proof. split_and!; (split; [by apply (bool_decide_unpack _); vm_compute|]; by vm_compute). Qed.

(** No fixed name is a number. *)
Lemma names_no_numbers e : e ∈ root_entries -> parse_u32 (as_bytes (de_name e)) = None.
Proof.
  intros He. assert (H : forallb (fun e => bool_decide (parse_u32 (as_bytes (de_name e)) = None)) root_entries = true) by (by vm_compute).
  rewrite forallb_forall in H. specialize (H e (proj1 (list_elem_of_In _ _) He)). by apply bool_decide_eq_true in H.
Qed.

(** What a lookup finds is what the directory lists. *)
Definition listing_exact (n : ProcNode) k : Prop :=
  NoDup (de_name <$> proc_entries n k) /\
  (forall x, x ∈ proc_entries n k -> (de_name x ∉ dots) -> exists node, proc_lookup n (de_name x) k = Ok node /\ proc_kind node = de_kind x) /\
  (forall name node, proc_lookup n name k = Ok node -> name ∈ de_name <$> proc_entries n k \/
    exists pid, n = ProcFsRoot /\ node = ProcFsPidDir pid /\ parse_u32 (as_bytes name) = Some pid /\ pretty pid ∈ de_name <$> proc_entries n k).

Lemma fixed_listing n names es k : exact names es -> proc_entries n k = es -> (forall name, proc_lookup n name k = ok_or (named names name) NotFound) -> listing_exact n k.
Proof.
  intros (H1 & H2 & H3) E Hl. unfold listing_exact. rewrite E. split; [done|]. split.
  - intros x Hx Hd. destruct (found_spec _ _ H2 x Hx Hd) as (node & Hn & Hk). exists node. by rewrite Hl, Hn.
  - intros name node. rewrite Hl. intros Hn%ok_or_Ok. left. by eapply listed_spec.
Qed.

(** A directory of /proc lists every name once, finds every name that it lists, as
    the kind it says, and finds no other, but for the numbers of processes, which may
    be written with a plus or with zeros in front. *)
Theorem proc_listing n k : proc_kind n = Dir -> (forall pid, is_Some (table (k_pt k) !! pid) -> 0 <= pid <= U32_MAX) ->
  (forall index, 0 <= index -> proc_readdir n index k = Ok (proc_entries n k !! Z.to_nat index)) /\ listing_exact n k.
Proof.
  intros Hd Hp. split; [intros index; by apply readdir_entries|]. destruct exact_all as (E1 & E2 & E3 & E4 & E5).
  destruct n as [|pid| | | | |f]; [| |by eapply (fixed_listing _ net_names)|by eapply (fixed_listing _ sys_names)|by eapply (fixed_listing _ sys_kernel_names)|
    by eapply (fixed_listing _ sys_vm_names)|done].
  - destruct E1 as (H1 & H2 & H3). unfold listing_exact. cbn [proc_entries proc_lookup]. rewrite fmap_app, <- list_fmap_compose.
    assert (Hnum : forall pid, pid ∈ pids k -> parse_u32 (as_bytes (pretty pid)) = Some pid) by (intros pid Hpid; apply parse_pretty, Hp; by apply elem_of_pids).
    split; [apply NoDup_app; split; [done|]; split|split].
    + intros name (x & -> & Hx)%list_elem_of_fmap (pid & E & Hpid)%list_elem_of_fmap. cbn in E. apply names_no_numbers in Hx. by rewrite E, Hnum in Hx.
    + apply (NoDup_fmap_2_strong); [|apply NoDup_pids]. intros x y Hx Hy Hxy. cbn in Hxy. pose proof (Hnum x Hx) as A. rewrite Hxy, (Hnum y Hy) in A. congruence.
    + intros x [Hx|(pid & -> & Hpid)%list_elem_of_fmap]%elem_of_app Hdot.
      * destruct (found_spec _ _ H2 x Hx Hdot) as (node & -> & Hk). by exists node.
      * cbn [dir de_name de_kind]. destruct (named root_names (pretty pid)) as [node|] eqn:En.
        { apply (listed_spec _ _ _ _ H3) in En. apply list_elem_of_fmap in En as (x & E & Hx). apply names_no_numbers in Hx. rewrite <- E in Hx. by rewrite Hnum in Hx. }
        rewrite Hnum by done. rewrite bool_decide_true by (by apply elem_of_pids). by exists (ProcFsPidDir pid).
    + intros name node. destruct (named root_names name) as [node'|] eqn:En.
      * intros [= <-]. left. apply elem_of_app. left. by eapply listed_spec.
      * destruct (parse_u32 (as_bytes name)) as [pid|] eqn:Epid; [|done]. case_bool_decide as Ht; [|done]. intros [= <-]. right. exists pid. split; [done|]. split; [done|].
        split; [done|]. apply elem_of_app. right. apply list_elem_of_fmap. exists pid. split; [done|]. by apply elem_of_pids.
  - unfold listing_exact. cbn [proc_entries proc_lookup pid_entries]. split; [by apply (bool_decide_unpack _); vm_compute|]. split.
    + intros x Hx Hdot. repeat (apply elem_of_cons in Hx as [->|Hx]); [exfalso; apply Hdot; vm_compute; set_solver..| |by apply not_elem_of_nil in Hx].
      cbn. by eexists.
    + intros name node. case_bool_decide; [|done]. subst. intros _. left. cbn. set_solver.
Qed.

(** ** Files *)

(** A file whose text is [t] is read like a file with those bytes. *)
Lemma proc_read_text e f t off n k : f <> SysKernelHostname -> proc_text e f k = Ok t -> 0 <= off < 2 ^ 32 -> 0 <= n ->
  proc_read e (ProcFsFile f) off n k = (k, Ret (Ok (slice off n (as_bytes t)))).
Proof. intros Hf Ht Ho Hn. rewrite <- text_piece_slice by done. cbn [proc_read]. destruct f; try done; by rewrite Ht. Qed.
Lemma proc_text_total e f k : f <> SysKernelHostname -> (forall pid, f = PidStatus pid -> is_Some (table (k_pt k) !! pid)) -> exists t, proc_text e f k = Ok t.
Proof.
  intros Hf Hp. destruct f; try done; cbn [proc_text]; try by eexists. unfold pid_status_text. destruct (Hp _ eq_refl) as [q ->]. by eexists.
Qed.
End ProcfsOps.

(** ** Witnesses *)

Lemma proc_listing_witness : "1"%string ∈ de_name <$> proc_entries ProcFsRoot uk /\ proc_lookup ProcFsRoot "1" uk = Ok (ProcFsPidDir 1) /\ listing_exact ProcFsRoot uk.
Proof.
  split; [vm_compute; set_solver|]. split; [vm_compute; reflexivity|].
  apply (proc_listing ProcFsRoot uk eq_refl). intros pid [q Hq]. assert (E : pid ∈ dom (table (k_pt uk))) by (by apply elem_of_dom_2 in Hq).
  assert (Ed : dom (table (k_pt uk)) = {[1]}) by (vm_compute; reflexivity). rewrite Ed in E. apply elem_of_singleton in E as ->. done.
Defined.

(** The number of a process may be written in other ways. *)
Lemma other_spellings : proc_lookup ProcFsRoot "+1" uk = Ok (ProcFsPidDir 1) /\ proc_lookup ProcFsRoot "001" uk = Ok (ProcFsPidDir 1).
Proof. split; vm_compute; reflexivity. Qed.

(** The two versions of the kernel. *)
Lemma versions_differ e : sysfs_text e KernelInfo = fmt "EspressoOS Kernel v0.1.0\n" [] /\ proc_text e SysKernelOsRelease uk = Ok (fmt "0.2.0-dev\n" []).
Proof. done. Qed.
