(* ===== verification/Devfs.v ===== *)
(** * Devfs: /dev (kernel/src/vfs/devfs.rs)

    The table of the devices by name, its directory, and the devices that are no
    hardware.  The drivers are parameters: [Device] is their interface, over a world [W]. *)

From S2P Require Import Prelude Path Inode.

Open Scope Z_scope.

(* @src kernel/src/vfs/devfs.rs 8-17 Device *)
Class Device (W Dev : Type) := {
  dev_read : Dev -> Z -> Z -> ST W (list Z);
  dev_write : Dev -> Z -> list Z -> ST W Z;
  dev_ioctl : Dev -> Z -> Z -> ST W Z;
}.

(** The devices of the kernel itself; the console is the UART, the random device the
    hardware generator. *)
Inductive SoftDevice : Type := NullDevice | ZeroDevice.
(* @src kernel/src/vfs/devfs.rs 188-209 NullDevice, ZeroDevice *)
#[export] Instance soft_device {W} : Device W SoftDevice := {
  dev_read d _ n := match d with NullDevice => mret [] | ZeroDevice => mret (replicate (Z.to_nat n) 0) end;
  dev_write _ _ buf := mret (len buf);
  dev_ioctl _ _ _ := fail NotSupported;
}.

Section Devfs.
Context {W Dev : Type} `{!Device W Dev}.
Definition DevTable : Type := list (string * Dev).

(** [DevRoot], and [DevNode] with its device. *)
Inductive DevInode : Type := DevRoot | DevNode (d : Dev).

(* @src kernel/src/vfs/devfs.rs 60-62 DevRoot::kind *)
Definition dev_kind (i : DevInode) : InodeKind := match i with DevRoot => Dir | DevNode _ => Inode.Device end.

(* @src kernel/src/vfs/devfs.rs 76-86 DevRoot::readdir *)
Definition dev_readdir (table : DevTable) (index : Z) : KResult (option DirEntry) :=
  Ok ((fun e => mkDirEntry e.1 Inode.Device (Z.min (index + 1) U64_MAX)) <$> table !! Z.to_nat index).
(* @src kernel/src/vfs/devfs.rs 88-96 DevRoot::lookup *)
Fixpoint dev_lookup (table : DevTable) (name : string) : KResult DevInode :=
  match table with
  | [] => Err NotFound
  | (n, d) :: table => if bool_decide (n = name) then Ok (DevNode d) else dev_lookup table name
  end.
(* @src kernel/src/vfs/devfs.rs 98-104 DevRoot::create, DevRoot::unlink *)
Definition dev_create (name : string) (kind : InodeKind) : ST W DevInode := fail PermissionDenied.
Definition dev_unlink (name : string) : ST W unit := fail PermissionDenied.
(* @src kernel/src/vfs/devfs.rs 120-122 DevNode::read_at *)
Definition node_read (i : DevInode) (off n : Z) : ST W (list Z) := match i with DevRoot => fail IsADirectory | DevNode d => dev_read d off n end.
(* @src kernel/src/vfs/devfs.rs 124-126 DevNode::write_at *)
Definition node_write (i : DevInode) (off : Z) (buf : list Z) : ST W Z := match i with DevRoot => fail IsADirectory | DevNode d => dev_write d off buf end.

(* @src kernel/src/vfs/devfs.rs 137-147 register *)
Definition register (name : string) (d : Dev) (table : DevTable) : DevTable * KResult unit :=
  if MAX_NAME_LEN <? str_len name then (table, Err NameTooLong)
  else if bool_decide (name ∈ table.*1) then (table, Err AlreadyExists)
  else (table ++ [(name, d)], Ok tt).

(** [?] behind each call. *)
(* @src kernel/src/vfs/devfs.rs 149-172 init *)
Fixpoint register_all (devices : list (string * Dev)) (table : DevTable) : DevTable * KResult unit :=
  match devices with
  | [] => (table, Ok tt)
  | (name, d) :: devices => match register name d table with (table, Ok _) => register_all devices table | r => r end
  end.

(** ** What /dev holds *)

Definition dev_ok (table : DevTable) : Prop := NoDup table.*1 /\ Forall (fun name => str_len name <= MAX_NAME_LEN) table.*1.

Lemma dev_lookup_spec table name : NoDup table.*1 ->
  match dev_lookup table name with
  | Ok i => exists d, i = DevNode d /\ (name, d) ∈ table
  | Err e => e = NotFound /\ name ∉ table.*1
  end.
Proof.
  induction table as [|[n d] table IH]; cbn [dev_lookup]; intros Hn; [split; [done|]; by apply not_elem_of_nil|]. cbn in Hn. apply NoDup_cons in Hn as [Hn1 Hn2].
  case_bool_decide as E; [subst; exists d; split; [done|by left]|]. specialize (IH Hn2). destruct (dev_lookup table name).
  - destruct IH as (d' & -> & Hin). exists d'. split; [done|by right].
  - destruct IH as [-> Hin]. split; [done|]. cbn. rewrite not_elem_of_cons. by split; [intros ->|].
Qed.

(** A registration keeps names unique and takes effect exactly when it succeeds. *)
Lemma register_spec name d table : dev_ok table ->
  match register name d table with
  | (table', Ok _) => table' = table ++ [(name, d)] /\ dev_ok table' /\ dev_lookup table' name = Ok (DevNode d)
  | (table', Err e) => table' = table /\ (e = NameTooLong /\ MAX_NAME_LEN < str_len name \/ e = AlreadyExists /\ name ∈ table.*1)
  end.
Proof.
  intros [H1 H2]. unfold register. destruct (Z.ltb_spec MAX_NAME_LEN (str_len name)); [split; [done|]; by left|].
  case_bool_decide as Hin; [split; [done|]; by right|].
  assert (Hok : dev_ok (table ++ [(name, d)])).
  { unfold dev_ok. rewrite fmap_app. split; [apply NoDup_app; split; [done|]; split; [|by apply NoDup_singleton]|apply Forall_app; split; [done|by repeat constructor]].
    intros x Hx ->%list_elem_of_singleton. done. }
  split; [done|]. split; [done|]. pose proof (dev_lookup_spec _ name (proj1 Hok)) as Hl. destruct (dev_lookup _ name) as [i|e].
  - destruct Hl as (d' & -> & [Hd|Hd%list_elem_of_singleton]%elem_of_app); [|by injection Hd as ->].
    destruct Hin. apply list_elem_of_fmap. by exists (name, d').
  - destruct Hl as [_ Hl]. destruct Hl. rewrite fmap_app. apply elem_of_app. right. by left.
Qed.
Lemma register_all_spec devices : forall table, dev_ok table ->
  let '(table', r) := register_all devices table in
  dev_ok table' /\ (r = Ok tt -> table' = table ++ devices) /\ (dev_ok (table ++ devices) -> r = Ok tt).
Proof.
  induction devices as [|[name d] devices IH]; intros table Ht; cbn [register_all]; [by rewrite app_nil_r|].
  pose proof (register_spec name d table Ht) as Hr. destruct (register name d table) as [table1 [u|e]].
  - destruct Hr as (-> & Hok & _). specialize (IH _ Hok). destruct (register_all devices _) as [table' r]. rewrite <- app_assoc in IH. exact IH.
  - destruct Hr as (-> & Hr). split; [done|]. split; [done|]. intros [H1 H2]. exfalso. rewrite fmap_app in H1, H2. destruct Hr as [[_ Hr]|[_ Hr]].
    + apply Forall_app in H2 as [_ H2]. cbn in H2. apply Forall_cons in H2 as [H2 _]. lia.
    + apply NoDup_app in H1 as (_ & H1 & _). apply (H1 name Hr). by left.
Qed.

(** What [readdir] lists is what [lookup] finds. *)
Lemma dev_listing table : dev_ok table ->
  (forall index e, 0 <= index -> dev_readdir table index = Ok (Some e) -> exists d, dev_lookup table (de_name e) = Ok (DevNode d) /\ dev_kind (DevNode d) = de_kind e) /\
  (forall name i, dev_lookup table name = Ok i -> exists index e, 0 <= index /\ dev_readdir table index = Ok (Some e) /\ de_name e = name).
Proof.
  intros [H1 H2]. split.
  - intros index e Hi. unfold dev_readdir. destruct (table !! Z.to_nat index) as [[n d]|] eqn:E; [|done]. cbn. intros [= <-]. cbn [de_name de_kind].
    pose proof (dev_lookup_spec table n H1) as Hl. destruct (dev_lookup table n) as [i|x]; [destruct Hl as (d' & -> & _); by exists d'|].
    destruct Hl as [_ Hl]. destruct Hl. apply list_elem_of_fmap. exists (n, d). split; [done|]. by eapply list_elem_of_lookup_2.
  - intros name i Hl. pose proof (dev_lookup_spec table name H1) as Hs. rewrite Hl in Hs. destruct Hs as (d & _ & (j & Hj)%list_elem_of_lookup).
    exists (Z.of_nat j), (mkDirEntry name Inode.Device (Z.min (Z.of_nat j + 1) U64_MAX)). split; [lia|]. split; [|done]. unfold dev_readdir, DevTable in *. by rewrite Nat2Z.id, Hj.
Qed.
End Devfs.

(* @src kernel/src/vfs/devfs.rs 151-170 init (names) *)
Definition dev_names : list string :=
  ["null"; "zero"; "console"; "i2c0"; "spi0"; "wlan0"; "sha0"; "passwd"; "power"; "ble0"; "gpio"; "watchdog"; "pwm0"; "adc0"; "fb0"; "random"; "urandom"]%string.

(** The start of the kernel registers all its devices. *)
Lemma init_registers {W Dev : Type} `{!Device W Dev} (devs : list Dev) : length devs = length dev_names ->
  register_all (zip dev_names devs) [] = (zip dev_names devs, Ok tt).
Proof.
  intros Hl. pose proof (register_all_spec (zip dev_names devs) [] ltac:(split; constructor)) as Hr. destruct (register_all _ _) as [table r]. destruct Hr as (_ & H1 & H2).
  assert (Hok : dev_ok ([] ++ zip dev_names devs)).
  { unfold dev_ok. change ([] ++ zip dev_names devs) with (zip dev_names devs). rewrite fst_zip by (by rewrite Hl). split; [by apply (bool_decide_unpack _); vm_compute|].
    assert (Hb : forallb (fun name => str_len name <=? MAX_NAME_LEN) dev_names = true) by (by vm_compute).
    rewrite Forall_forall. intros x Hx. rewrite forallb_forall in Hb. apply Z.leb_le, Hb. by apply list_elem_of_In. }
  rewrite (H2 Hok). f_equal. by apply H1, H2.
Qed.
