(* ===== verification/Boot.v ===== *)
(** * Boot: what the kernel puts into the file system when it starts (kernel/src/main.rs)

    The programs that were built into the image are installed in /bin, each unless it is
    there already, and read back; the files of /etc and /var/log are written, most of
    them only when they are missing.  The list of the programs is made by the build, and
    is a parameter. *)

From Stdlib Require Import Ascii.
From S2P Require Import Prelude Format Inode Vfs.

Open Scope Z_scope.

(** How the installation of one program ends. *)
Inductive Deploy : Type := UpToDate | Deployed | ShortWrite (n : Z) | WriteFailed (e : KError) | Unverified | OpenFailed (e : KError).

Section Boot.
Context {W I : Type} `{HN : !Inode W I, HE : !EqDecision I, HP : !Droppable W I}.
Implicit Types v : Vfs W I.
Context (c : Caller).

(** [want] is what is left to compare; every turn compares at least one byte, so that
    [fuel] of its length is enough. *)
(* @src kernel/src/main.rs 342-359 content_matches *)
Fixpoint content_matches (fd : Z) (want : list Z) (fuel : nat) : IO (Vfs W I) bool := fun v =>
  match want with
  | [] => (v, Ret (Ok true))
  | _ =>
    match Vfs.read c fd 512 v with
    | (v, Park) => (v, Park)
    | (v, Ret (Err _)) | (v, Ret (Ok [])) => (v, Ret (Ok false))
    | (v, Ret (Ok got)) =>
      if (len want <? len got) || negb (bool_decide (take (length got) want = got)) then (v, Ret (Ok false))
      else match fuel with O => (v, Ret (Ok false)) | S fuel => content_matches fd (drop (length got) want) fuel v end
    end
  end.

(** Is the file at [path] exactly [bytes]? *)
(* @src kernel/src/main.rs 373-390 install_userland (comparison) *)
Definition file_is (path : string) (bytes : list Z) : IO (Vfs W I) bool := fun v =>
  match open c path RDONLY v with
  | (v, Err _) => (v, Ret (Ok false))
  | (v, Ok fd) =>
    let size_ok := match get_inode c fd v with Ok i => i_size i (v_world v) =? len bytes | Err _ => false end in
    match (if size_ok then content_matches fd bytes (length bytes) v else (v, Ret (Ok false))) with
    | (v, Park) => (v, Park)
    | (v, Ret r) => let v := (close c fd v).1 in (v, Ret (Ok (match r with Ok b => b | Err _ => false end)))
    end
  end.

Definition INSTALL_FLAGS : Z := Z.lor (Z.lor WRONLY O_CREATE) O_TRUNC.

(* @src kernel/src/main.rs 370-466 install_userland (loop body) *)
Definition deploy (name : string) (bytes : list Z) : IO (Vfs W I) Deploy := fun v =>
  let path := fmt "/bin/{}" [Str name] in
  match file_is path bytes v with
  | (v, Park) => (v, Park)
  | (v, Ret (Err e)) => (v, Ret (Err e))
  | (v, Ret (Ok true)) => (v, Ret (Ok UpToDate))
  | (v, Ret (Ok false)) =>
    let v := (unlink c path v).1 in
    match open c path INSTALL_FLAGS v with
    | (v, Err e) => (v, Ret (Ok (OpenFailed e)))
    | (v, Ok fd) =>
      match Vfs.write c fd bytes v with
      | (v, Park) => (v, Park)
      | (v, Ret wrote) =>
        let v := (close c fd v).1 in
        match wrote with
        | Err e => ((unlink c path v).1, Ret (Ok (WriteFailed e)))
        | Ok w =>
          if negb (w =? len bytes) then ((unlink c path v).1, Ret (Ok (ShortWrite w)))
          else
            match file_is path bytes v with
            | (v, Park) => (v, Park)
            | (v, Ret (Ok true)) => (v, Ret (Ok Deployed))
            | (v, Ret _) => ((unlink c path v).1, Ret (Ok Unverified))
            end
        end
      end
    end
  end.

Fixpoint deploy_all (bins : list (string * list Z)) : IO (Vfs W I) (list Deploy) :=
  match bins with
  | [] => mret []
  | (name, bytes) :: bins => d ← deploy name bytes; ds ← deploy_all bins; mret (d :: ds)
  end.
(* @src kernel/src/main.rs 361-477 install_userland *)
Definition install_userland (bins : list (string * list Z)) : IO (Vfs W I) (list Deploy) :=
  match bins with
  | [] => mret []
  | _ => fun v => deploy_all bins (mkdir c "/bin" v).1
  end.

(** ** /etc *)

(** [b"..."] of the source: the text of [fmt] without placeholders, as bytes. *)
Definition bytes (s : string) : list Z := as_bytes (fmt s []).
Definition quoted (s : string) : string := String (ascii_of_byte 34) (s +:+ String (ascii_of_byte 34) EmptyString).

Definition SEED_FLAGS : Z := Z.lor (Z.lor O_CREATE WRONLY) O_TRUNC.

(** A file that is written anew, and one that is only written when it does not exist. *)
(* @src kernel/src/main.rs 490-500 init_etc_files (/etc/rc) *)
Definition put_file (path : string) (data : list Z) : IO (Vfs W I) unit := fun v =>
  match open c path SEED_FLAGS v with
  | (v, Err _) => (v, Ret (Ok tt))
  | (v, Ok fd) =>
    match Vfs.write c fd data v with
    | (v, Park) => (v, Park)
    | (v, Ret _) => ((close c fd v).1, Ret (Ok tt))
    end
  end.
(* @src kernel/src/main.rs 501-514 init_etc_files (/etc/rc.local) *)
Definition seed_file (path : string) (data : list Z) : IO (Vfs W I) unit := fun v =>
  match resolve c path v with
  | (v, Ok _) => (v, Ret (Ok tt))
  | (v, Err _) => put_file path data v
  end.

Definition rc_content : list Z := bytes "# EspressoOS Startup Script (system-owned, rewritten every boot)\n/bin/echo [rc] System started!\nsh /etc/profile\nsh /etc/rc.local\n".

(** The files that are only written when they are missing. *)
(* @src kernel/src/main.rs 501-661 init_etc_files (seeded files) *)
Definition SEEDS : list (string * list Z) := [
  ("/etc/rc.local", bytes "# EspressoOS User Startup Hook (/etc/rc.local)\n");
  ("/etc/hostname", bytes "esp32s3\n");
  ("/etc/profile", bytes "# EspressoOS Default System Profile (/etc/profile)\nexport PATH=/bin:/sbin\nexport OS=EspressoOS\n");
  ("/etc/crontab", bytes "# EspressoOS Scheduled Tasks Table (/etc/crontab)\n# interval_sec command\n60 /bin/wdt ping\n300 /bin/sntp\n");
  ("/etc/hosts", bytes "# EspressoOS Static Host Table (/etc/hosts)\n127.0.0.1 localhost\n192.168.4.1 espressoos\n");
  ("/etc/resolv.conf", bytes "# EspressoOS DNS Configuration (/etc/resolv.conf)\nnameserver 8.8.8.8\nnameserver 1.1.1.1\n");
  ("/etc/os-release", bytes ("NAME=" +:+ quoted "EspressoOS" +:+ "\nID=espressoos\nPRETTY_NAME=" +:+ quoted "EspressoOS 0.2.0-dev (ESP32-S3 Xtensa LX7)" +:+
    "\nVERSION=" +:+ quoted "0.2.0-dev" +:+ "\nVERSION_ID=" +:+ quoted "0.2.0" +:+ "\nARCH=" +:+ quoted "xtensa" +:+ "\n"));
  ("/etc/issue", bytes "EspressoOS 0.2.0-dev (\\n) (\\l)\n\n");
  ("/etc/group", bytes "root:x:0:\ndaemon:x:1:\nbin:x:2:\nsys:x:3:\nadm:x:4:\nwheel:x:10:root,youareme\nusers:x:100:youareme\n");
  ("/var/log/messages", bytes "[system] EspressoOS syslog service initialized\n");
  ("/var/log/dmesg", bytes "[boot] EspressoOS kernel initialized\n[boot] VFS mounted: /dev, /, /tmp, /proc, /sys, /mnt\n[boot] Userland applications ready\n")
]%string.

Fixpoint seed_all (seeds : list (string * list Z)) : IO (Vfs W I) unit :=
  match seeds with
  | [] => mret tt
  | (path, data) :: seeds => seed_file path data;; seed_all seeds
  end.

(** What it then prints does not touch the file system. *)
(* @src kernel/src/main.rs 479-661 init_etc_files *)
Definition init_etc_files : IO (Vfs W I) unit := fun v => (put_file "/etc/rc" rc_content;; seed_all SEEDS) (mkdir c "/etc" v).1.
End Boot.
