(* ===== verification/BootOps.v ===== *)
(** * BootOps: installing the programs

    The comparison of a file with the bytes it should have, and the installation of the
    programs of the image in EspFs: every program that is reported as there is there,
    byte for byte, nothing else in the file system changes, and no program is ever left
    half written. *)

From S2P Require Import Prelude Format Path Flash Wire Inode Process Vfs VfsOps VfsSpec Espfs EspfsFile EspfsTree EspfsSpec EspfsOps EspfsVfs EspfsPaths EspfsMount Boot.

Open Scope Z_scope.

Section Matches.
Context {W I : Type} `{!Inode W I, !EqDecision I, !Droppable W I, !FileLaws W I}.
Implicit Types (v : Vfs W I) (c : Caller) (f : OpenFile I).

Lemma one_fd_refl v c fd f : file_of c fd v = Ok f -> one_fd v v c fd (Ok f).
Proof. intros Hf c' k. case_decide as Hk; [|done]. destruct Hk as [Hp ->]. by rewrite (one_fd_pid v c). Qed.

(** What comparing leaves: the file open where it got to. *)
Definition moved v v' c fd i : Prop :=
  v_world v' = v_world v /\ tables_ok v' /\ v_mounts v' = v_mounts v /\ exists off, one_fd v v' c fd (Ok (mkOpenFile i off true false false)).

Lemma moved_refl v c fd i off : tables_ok v -> file_of c fd v = Ok (mkOpenFile i off true false false) -> moved v v c fd i.
Proof. intros Hv Hf. split; [done|]. split; [done|]. split; [done|]. exists off. by apply one_fd_refl. Qed.

Lemma bool_decide_take (l k : list Z) (n : nat) : take n l = take n k -> bool_decide (drop n l = drop n k) = bool_decide (l = k).
Proof.
  intros E. apply bool_decide_ext. split; [|by intros ->]. intros Hd. by rewrite <- (take_drop n l), <- (take_drop n k), E, Hd.
Qed.

(** The loop compares what is left of the file with [want], when they are of one length. *)
Lemma content_matches_spec c fd i content : forall fuel want v off,
  fl_inv (v_world v) -> fl_content (v_world v) i = Some content -> tables_ok v ->
  file_of c fd v = Ok (mkOpenFile i off true false false) -> 0 <= off -> len content = off + len want -> len content <= U32_MAX ->
  (length want <= fuel)%nat ->
  exists v', content_matches c fd want fuel v = (v', Ret (Ok (bool_decide (want = drop (Z.to_nat off) content)))) /\ moved v v' c fd i.
Proof.
  intros fuel want. assert (Hm : exists m, (length want <= m)%nat) by eauto. destruct Hm as [m Hm]. revert fuel want Hm.
  induction m as [|m IH]; intros fuel want Hm v off Hi Hc Hv Hf Ho Hlen Hmax Hfuel; (destruct want as [|b want]; [|cbn in Hm]).
  1,3: exists v; (split; [|by eapply moved_refl]); assert (E : drop (Z.to_nat off) content = []) by (apply drop_ge; cbn [length] in Hlen; lia); rewrite E; by destruct fuel.
  { lia. }
  destruct fuel as [|fuel]; [cbn [length] in *; lia|]. cbn [content_matches].
  destruct (VfsSpec.read_spec c fd _ content 512 v Hi Hf Hc) as (v1 & E1 & W1 & M1 & O1); try (cbn; unfold U64_MAX, U32_MAX in *; lia).
  pose proof (own_read_inode c fd i off 512 v Hv) as (Hv1 & _). unfold Vfs.read in E1. rewrite Hf in E1. cbn [of_readable negb of_inode of_offset] in E1.
  rewrite E1 in Hv1. cbn [fst] in Hv1. unfold Vfs.read. rewrite Hf. cbn [of_readable negb of_inode of_offset]. rewrite E1. clear E1.
  cbn [of_offset] in *. unfold slice in *. set (rest := drop (Z.to_nat off) content) in *. change (Z.to_nat 512) with 512%nat in *.
  assert (Hrest : length rest = S (length want)) by (unfold rest; rewrite length_drop; cbn [length] in Hlen; lia).
  assert (Hgot : length (take 512 rest) = Nat.min 512 (S (length want))) by (rewrite length_take; lia).
  assert (Hmv : moved v v1 c fd i) by (split; [done|]; split; [done|]; split; [done|]; eexists; exact O1).
  destruct (take 512 rest) as [|g got] eqn:Eg; [cbn in Hgot; lia|]. rewrite <- Eg in *. clear Eg g got.
  destruct (Z.ltb_spec (len (b :: want)) (len (take 512 rest))) as [Hlt|_]; [cbn [length] in Hlt; lia|]. cbn [orb].
  set (k := length (take 512 rest)) in *. assert (Ek : take 512 rest = take k rest).
  { unfold k. rewrite length_take. destruct (decide (512 <= length rest)%nat); [by rewrite Nat.min_l by lia|]. rewrite Nat.min_r by lia. by rewrite !take_ge by lia. }
  case_bool_decide as Hd; cbn [negb].
  2: { exists v1. split; [|done]. do 3 f_equal. symmetry. apply bool_decide_false. intros E. apply Hd. by rewrite E, Ek. }
  destruct (IH fuel (drop k (b :: want))) with (v := v1) (off := off + Z.of_nat k) as (v' & E & Hmv').
  - rewrite length_drop. cbn [length] in *. lia.
  - by rewrite W1.
  - by rewrite W1.
  - done.
  - by apply one_fd_same in O1.
  - lia.
  - rewrite length_drop. cbn [length] in *. lia.
  - done.
  - rewrite length_drop. cbn [length] in *. lia.
  - exists v'. rewrite E. split.
    + do 3 f_equal. assert (Er : drop (Z.to_nat (off + Z.of_nat k)) content = drop k rest) by (unfold rest; rewrite drop_drop; f_equal; lia).
      rewrite Er. apply bool_decide_take. by rewrite Hd, Ek.
    + destruct Hmv' as (W2 & V2 & M2 & off' & O2). split; [congruence|]. split; [done|]. split; [congruence|]. exists off'. by eapply one_fd_trans.
Qed.
End Matches.

(** ** On EspFs *)

Section Install.
Context {D : Type} `{NorFlashLaws D} `{HR : !ReadsOk D}.
Implicit Types (v : Vfs (FsState * D) EspNode) (c : Caller) (l : list string).

Lemma moved_opens c fd i off v v1 v' : opens c fd (mkOpenFile i off true false false) v v1 -> moved v1 v' c fd i ->
  v_world v' = v_world v1 /\ exists f, opens c fd f v v'.
Proof.
  intros [O1 O2 O3 O4] (W1 & V1 & M1 & off' & O). split; [done|]. eexists. split; [done|congruence|done|]. by eapply one_fd_trans.
Qed.

Lemma file_is_spec c l data v : rooted v -> tables_ok v -> fs_inv (v_world v) -> Forall good l -> data <> [] -> len data <= U32_MAX ->
  exists v' b, file_is c (render l) data v = (v', Ret (Ok b)) /\ v_world v' = v_world v /\ calm v v' /\
    (b = true -> file_at (vview v) l = Some data) /\ (room c v -> file_at (vview v) l = Some data -> b = true).
Proof.
  intros Hm Hv Hi Hl Hne Hmax. unfold file_is. destruct (open c (render l) RDONLY v) as [v1 [fd|e]] eqn:Eo; apply open_read in Eo as [W1 Hr]; try done.
  2: { exists v1, false. destruct Hr as [Hc Hn]. split; [done|]. split; [done|]. split; [done|]. split; [done|]. intros Hroom Hf. destruct Hn. split; [done|].
       unfold file_at in Hf. by destruct (ino_at (vview v) l). }
  destruct Hr as (j & Hj & Hop). unfold get_inode. rewrite (one_fd_same _ _ _ _ _ (op_files _ _ _ _ _ Hop)). cbn [mbind KResult_bind mret KResult_ret of_inode].
  assert (Hfile : forall content, file_at (vview v) l = Some content <-> esp_content (v_world v1) (mkEspNode j) = Some content).
  { intros content. rewrite esp_content_Some, W1. unfold file_at. rewrite Hj. cbn. unfold vview. by destruct (view (v_world v) !! j) as [[m|x]|]; split; intros E; simplify_eq. }
  destruct (file_at (vview v) l) as [content|] eqn:Ef.
  - assert (Hc : fl_content (v_world v1) (mkEspNode j) = Some content) by by apply Hfile.
    assert (Hi1 : fl_inv (v_world v1)) by (by rewrite W1). rewrite (fl_size _ _ content Hi1 Hc).
    destruct (Z.eqb_spec (len content) (len data)) as [El|El].
    + destruct (content_matches_spec c fd (mkEspNode j) content (length data) data v1 0 Hi1 Hc (op_tables _ _ _ _ _ Hop)) as (v2 & E2 & Hmv); try lia.
      { apply one_fd_same with (v := v), Hop. }
      rewrite E2. destruct (moved_opens _ _ _ _ _ _ _ Hop Hmv) as [W2 [f Hop2]]. destruct (close_calm c fd f v v2 Hop2 esp_no_drop) as (C & W3 & _).
      eexists _, _. split; [done|]. split; [congruence|]. split; [done|]. rewrite bool_decide_eq_true. split; [by intros ->|by intros _ [= ->]].
    + destruct (close_calm c fd _ v v1 Hop esp_no_drop) as (C & W3 & _).
      eexists _, false. split; [done|]. split; [congruence|]. split; [done|]. split; [done|]. intros _ [= ->]. done.
  - destruct (close_calm c fd _ v v1 Hop esp_no_drop) as (C & W3 & _).
    assert (Hs : i_size (mkEspNode j) (v_world v1) = 0).
    { cbn. unfold esp_size. cbn. destruct (nodes (v_world v1).1 !! j) as [[k [m|f]]|] eqn:En; [done| |done]. exfalso. enough (Hx : None = Some (contents (v_world v1).2 f)) by done.
      apply Hfile, esp_content_Some. cbn. by rewrite view_lookup, En. }
    rewrite Hs. destruct (Z.eqb_spec 0 (len data)) as [E0|_]; [by destruct data|].
    eexists _, false. split; [done|]. split; [congruence|]. by split.
Qed.

Definition bin_path (name : string) : list string := ["bin"; name]%string.
Lemma fmt_bin name : fmt "/bin/{}" [Str name] = render (bin_path name).
Proof. unfold fmt, render. cbn. by rewrite append_nil_r. Qed.

Lemma bin_good name : good name -> Forall good (["bin"%string] ++ [name]).
Proof. intros Hn. apply Forall_cons. split; [by split|]. by apply Forall_singleton. Qed.
Lemma calm_rooted v v' : calm v v' -> rooted v -> rooted v'.
Proof. intros Hc Hm. unfold rooted. by rewrite (ca_mounts _ _ Hc). Qed.

(** A program the build can have put into the image. *)
Record program (name : string) (data : list Z) : Prop := mkProgram {
  pr_good : good name;
  pr_str : is_str name;
  pr_bytes : bytes_ok data;
  pr_some : data <> [];
  pr_len : len data < 2 ^ 31 - 8;
}.

(** What a deployment that ends in [o] says of the file, which was [old] before. *)
Definition deployed (o : Deploy) (data : list Z) (old new : option (list Z)) : Prop :=
  match o with
  | UpToDate | Deployed => new = Some data
  | WriteFailed _ | OpenFailed _ => new = None \/ new = Some [] \/ new = old
  | ShortWrite _ | Unverified => False
  end.

Section Deploy.
Context (Hw : nor_works D) (c : Caller) (b : Z).

Lemma unlink_calm path v : tables_ok v -> calm v (Vfs.unlink c path v).1.
Proof. intros Hv. destruct (Vfs.unlink c path v) as [v' r] eqn:E. by eapply calm_world; [apply wo_unlink| |exact E]. Qed.

(** Removing the file of a program, whether it works or not. *)
Lemma unlink_bin k name v : 0 <= k -> good name -> is_str name -> rooted v -> tables_ok v -> ready (k + 1) (v_world v) -> leads (v_world v) ["bin"%string] b ->
  let v' := (Vfs.unlink c (render (bin_path name)) v).1 in
  calm v v' /\ step ["bin"%string] b name k (v_world v) (v_world v') /\
  (file_at (vview v') (bin_path name) = None \/ file_at (vview v') (bin_path name) = file_at (vview v) (bin_path name)).
Proof.
  intros Hk Hg Hn Hm Hv Hr Hl. split; [by apply unlink_calm|]. unfold bin_path. change ["bin"%string; name] with (["bin"%string] ++ [name]).
  rewrite (unlink_root c ["bin"%string] b name v Hm) by (done || by apply bin_good). unfold on_world. cbn [fst].
  destruct (unlink b name (v_world v)) as [w' r] eqn:E. destruct (unlink_step Hw ["bin"%string] b name Hn k _ _ _ Hk Hr Hl E) as [Hs Ht].
  cbn [fst]. split; [done|]. unfold vview. cbn [v_world set_world]. destruct r; [|right; by rewrite Ht]. left. unfold file_at. by rewrite Ht.
Qed.

Lemma install_flags : write_flags INSTALL_FLAGS.
Proof. by split. Qed.

Lemma deploy_spec k name data v : 0 <= k -> program name data -> rooted v -> tables_ok v -> ready (k + 5) (v_world v) -> leads (v_world v) ["bin"%string] b ->
  exists v' o, deploy c name data v = (v', Ret (Ok o)) /\ calm v v' /\ step ["bin"%string] b name k (v_world v) (v_world v') /\
    deployed o data (file_at (vview v) (bin_path name)) (file_at (vview v') (bin_path name)).
Proof.
  intros Hk [Hg Hn Hb Hne Hlen] Hm Hv Hr Hl. pose proof (bin_good name Hg) as HP. unfold deploy. rewrite fmt_bin.
  destruct (file_is_spec c (bin_path name) data v Hm Hv (proj1 Hr) HP Hne) as (v1 & same & E1 & W1 & C1 & Hs1 & _); [unfold U32_MAX; lia|]. rewrite E1.
  destruct same.
  { exists v1, UpToDate. split; [done|]. split; [done|]. rewrite W1. unfold vview. rewrite W1. split; [apply step_refl; [eapply ready_le; [exact Hr|lia]|done]|]. by apply Hs1. }
  pose proof (calm_rooted _ _ C1 Hm) as M1. rewrite <- W1 in Hr, Hl. assert (Hr1 : ready (k + 4 + 1) (v_world v1)) by (eapply ready_le; [exact Hr|lia]).
  destruct (unlink_bin (k + 4) name v1 ltac:(lia) Hg Hn M1 (ca_tables _ _ C1) Hr1 Hl) as (C2 & S2 & F2). set (v2 := (Vfs.unlink c (render (bin_path name)) v1).1) in *.
  pose proof (calm_rooted _ _ C2 M1) as M2. pose proof (calm_trans _ _ _ C1 C2) as C12. unfold vview in F2. rewrite W1 in S2, F2. fold (vview v) (vview v2) in F2.
  assert (Hr2 : ready (k + 2 + 2) (v_world v2)) by (eapply ready_le; [exact (st_ready _ _ _ _ _ _ S2)|lia]).
  destruct (open c (render (bin_path name)) INSTALL_FLAGS v2) as [v3 r3] eqn:E3.
  destruct (open_write Hw c ["bin"%string] b name HP Hn (k + 2) INSTALL_FLAGS v2 v3 r3 ltac:(lia) install_flags M2 (ca_tables _ _ C2) Hr2 (st_leads _ _ _ _ _ _ S2) E3) as [S3 H3].
  pose proof (step_trans _ _ _ _ _ _ _ _ S2 S3) as S13. destruct r3 as [fd|e].
  2: { destruct H3 as [C3 F3]. exists v3, (OpenFailed e). split; [done|]. split; [by eapply calm_trans|]. split.
       - destruct S13 as [R1 R2 R3]. split; [eapply ready_le; [exact R1|lia]|done..].
       - cbn [deployed]. change (["bin"%string] ++ [name]) with (bin_path name) in F3. destruct F3 as [-> | ->]; [destruct F2 as [-> | ->]|]; auto. }
  destruct H3 as (i & Hi & Hc & O3). assert (Hr3 : ready (k + 1 + 1) (v_world v3)) by (eapply ready_le; [exact (st_ready _ _ _ _ _ _ S3)|lia]).
  destruct (Vfs.write c fd data v3) as [v4 r4] eqn:E4.
  destruct (write_root Hw c ["bin"%string] b name (k + 1) fd i data v3 v2 v4 r4 ltac:(lia) O3 Hr3 (st_leads _ _ _ _ _ _ S3) Hi Hc Hb Hlen Hne E4) as (S4 & [f O4] & F4).
  pose proof (step_trans _ _ _ _ _ _ _ _ S13 S4) as S14. destruct r4 as [wrote|]; [|done].
  destruct (close_calm c fd f v2 v4 O4 esp_no_drop) as (C5 & W5 & Hroom). set (v5 := (close c fd v4).1) in *. rewrite <- W5 in S14. unfold vview in F4. rewrite <- W5 in F4. fold (vview v5) in F4.
  pose proof (calm_trans _ _ _ C12 C5) as C15. pose proof (calm_rooted _ _ C5 M2) as M5. change (["bin"%string] ++ [name]) with (bin_path name) in F4.
  destruct wrote as [x|e].
  - destruct F4 as [-> F4]. rewrite Z.eqb_refl. cbn [negb].
    destruct (file_is_spec c (bin_path name) data v5 M5 (ca_tables _ _ C5) (proj1 (st_ready _ _ _ _ _ _ S14)) HP Hne) as (v6 & ok & E6 & W6 & C6 & _ & Ht); [unfold U32_MAX; lia|].
    rewrite E6, (Ht Hroom F4). exists v6, Deployed. split; [done|]. split; [by eapply calm_trans|]. unfold vview. rewrite W6. split; [|done].
    destruct S14 as [R1 R2 R3]. split; [eapply ready_le; [exact R1|lia]|done..].
  - destruct (unlink_bin k name v5 Hk Hg Hn M5 (ca_tables _ _ C5) (st_ready _ _ _ _ _ _ S14) (st_leads _ _ _ _ _ _ S14)) as (C6 & S6 & F6).
    eexists _, (WriteFailed e). split; [done|]. split; [by eapply calm_trans|]. split; [by eapply step_trans|]. cbn [deployed]. destruct F6 as [-> | ->]; auto.
Qed.

(** Each program of [bins] as its outcome says, from the files [old] to the files [new]. *)
Definition all_deployed (bins : list (string * list Z)) (os : list Deploy) (old new : list string -> option (list Z)) : Prop :=
  Forall2 (fun pr o => deployed o pr.2 (old (bin_path pr.1)) (new (bin_path pr.1))) bins os.
(** The paths that no program of [bins] has. *)
Definition not_in (bins : list (string * list Z)) (l : list string) : Prop := Forall (fun name => l <> bin_path name) bins.*1.

Lemma all_deployed_ext bins os old old' new : (forall n, n ∈ bins.*1 -> old (bin_path n) = old' (bin_path n)) ->
  all_deployed bins os old new -> all_deployed bins os old' new.
Proof.
  intros Ho Hd. induction Hd as [|[n data] o bins os H1 H2 IH]; constructor.
  - rewrite <- Ho; [done|]. by left.
  - apply IH. intros m Hm. apply Ho. by right.
Qed.

Lemma deploy_all_spec bins : forall k v, 0 <= k -> Forall (fun pr => program pr.1 pr.2) bins -> NoDup bins.*1 -> rooted v -> tables_ok v ->
  ready (k + 5 * len bins) (v_world v) -> leads (v_world v) ["bin"%string] b ->
  exists v' os, deploy_all c bins v = (v', Ret (Ok os)) /\ calm v v' /\ ready k (v_world v') /\
    all_deployed bins os (file_at (vview v)) (file_at (vview v')) /\ forall l, not_in bins l -> file_at (vview v') l = file_at (vview v) l.
Proof.
  induction bins as [|[name data] bins IH]; intros k v Hk Hp Hd Hm Hv Hr Hl.
  { exists v, []. split; [done|]. split; [by apply calm_refl|]. split; [eapply ready_le; [exact Hr|cbn; lia]|]. by split; [constructor|]. }
  apply Forall_cons in Hp as [Hp1 Hp]. cbn [fst snd] in Hp1. apply NoDup_cons in Hd as [Hnin Hd]. cbn [fmap list_fmap fst] in Hnin.
  assert (Hr' : ready ((k + 5 * len bins) + 5) (v_world v)) by (eapply ready_le; [exact Hr|cbn [length]; lia]).
  destruct (deploy_spec (k + 5 * len bins) name data v ltac:(lia) Hp1 Hm Hv Hr' Hl) as (v1 & o & E1 & C1 & S1 & F1).
  destruct (IH k v1 Hk Hp Hd (calm_rooted _ _ C1 Hm) (ca_tables _ _ C1) (st_ready _ _ _ _ _ _ S1) (st_leads _ _ _ _ _ _ S1)) as (v2 & os & E2 & C2 & R2 & F2 & O2).
  assert (Hstep : forall l, l <> bin_path name -> file_at (vview v1) l = file_at (vview v) l) by apply S1.
  exists v2, (o :: os). split; [cbn [deploy_all]; unfold mbind, IO_bind; by rewrite E1, E2|]. split; [by eapply calm_trans|]. split; [done|]. split.
  - constructor.
    + cbn [fst snd]. rewrite (O2 (bin_path name)); [done|]. apply Forall_forall. intros n' Hn' [= <-]. done.
    + eapply all_deployed_ext; [|exact F2]. intros n' Hn'. apply Hstep. by intros [= ->].
  - intros l [Hl1 Hl2]%Forall_cons. by rewrite O2, Hstep.
Qed.
End Deploy.

(** C26. Installing the programs of the image in the file system, on a chip that does
    not fail and with counters that have not run out: it comes to an end; every program
    that counts as up to date or deployed is there, byte for byte, when all is done; a
    write never stops half way and no deployed file ever fails the comparison, so a
    program that could not be installed has no file, an empty one, or the one it had;
    every other file is as it was, every descriptor too, and the file system is in order. *)
Theorem install_correct (Hw : nor_works D) c b bins v : let v0 := (mkdir c "/bin" v).1 in
  rooted v0 -> tables_ok v0 -> leads (v_world v0) ["bin"%string] b -> ready (5 * len bins) (v_world v0) ->
  bins <> [] -> NoDup bins.*1 -> Forall (fun pr => program pr.1 pr.2) bins ->
  exists v' os, install_userland c bins v = (v', Ret (Ok os)) /\
    all_deployed bins os (file_at (vview v0)) (file_at (vview v')) /\
    (forall l, not_in bins l -> file_at (vview v') l = file_at (vview v0) l) /\
    (forall c' fd, file_of c' fd v' = file_of c' fd v0) /\ fs_inv (v_world v').
Proof.
  intros v0 Hm Hv Hl Hr Hne Hd Hp. destruct (deploy_all_spec Hw c b bins 0 v0) as (v' & os & E & C & R & F & O); try done.
  exists v', os. unfold install_userland. destruct bins; [done|]. split; [exact E|]. split; [done|]. split; [done|]. split; [apply C|apply R].
Qed.
End Install.

(** ** Witness: the first start, on the tiny file system *)

Definition fresh_vfs : Vfs (FsState * nor_mem) EspNode := mkVfs (empty_state tiny 0 1 0, tiny_disk) {[1 := []]} [("/"%string, esp_fs)].
Definition bin_made : FsState * nor_mem := (create ROOT_INO "bin" Dir (empty_state tiny 0 1 0, tiny_disk)).1.
Definition two_programs : list (string * list Z) := [("ls", [127; 69]); ("cat", [127; 70; 0])]%string.

Lemma bin_made_inv : fs_inv bin_made.
Proof.
  destruct (create ROOT_INO "bin" Dir (empty_state tiny 0 1 0, tiny_disk)) as [st res] eqn:E.
  assert (Hst : st = bin_made) by (unfold bin_made; by rewrite E). rewrite <- Hst.
  pose proof (create_spec (empty_state tiny 0 1 0) tiny_disk ROOT_INO "bin" Dir st res tiny_inv ltac:(done) ltac:(done) ltac:(done) E) as Hc.
  assert (Hres : res = Ok 2) by (change res with (st, res).2; rewrite <- E; vm_compute; reflexivity).
  subst res. destruct (view _ !! ROOT_INO) as [[m|c]|] eqn:Hv; [|by destruct Hc..].
  apply view_dir in Hv. injection Hv as <-. rewrite decide_False in Hc by (by intros [? ?]).
  rewrite decide_False, decide_True in Hc by (auto; vm_compute; by intros [|]).
  destruct Hc as [_ [(_ & Hi & _)|(e & He & _)]]; [exact Hi|done].
Qed.
Lemma fresh_mkdir : (mkdir shell "/bin" fresh_vfs).1 = set_world bin_made fresh_vfs.
Proof.
  apply (mkdir_root shell [] ROOT_INO "bin"); try done; [|split; [done|exists ∅; vm_compute; reflexivity]|exact tiny_inv].
  constructor; [by split|constructor].
Qed.

Lemma install_correct_witness :
  exists v' os, install_userland shell two_programs fresh_vfs = (v', Ret (Ok os)) /\ os = [Deployed; Deployed] /\
    file_at (vview v') ["bin"; "cat"]%string = Some [127; 70; 0].
Proof.
  pose proof fresh_mkdir as Em.
  destruct (install_correct nor_mem_works shell 2 two_programs fresh_vfs) as (v' & os & E & Hd & _).
  - by rewrite Em.
  - rewrite Em. intros q t Hq. cbn in Hq. by apply lookup_singleton_Some in Hq as [<- <-].
  - rewrite Em. split; [vm_compute; reflexivity|]. exists ∅. vm_compute. reflexivity.
  - rewrite Em. split; [exact bin_made_inv|]. split; vm_compute; reflexivity.
  - done.
  - apply (bool_decide_unpack _). vm_compute. exact Logic.I.
  - repeat constructor; try done; cbn; lia.
  - exists v', os. split; [exact E|]. assert (Eo : os = [Deployed; Deployed]).
    { assert (E2 : (install_userland shell two_programs fresh_vfs).2 = Ret (Ok [Deployed; Deployed])) by (vm_compute; reflexivity). rewrite E in E2. by injection E2. }
    split; [exact Eo|]. subst os. unfold all_deployed in Hd. apply Forall2_cons in Hd as [_ Hd]. apply Forall2_cons in Hd as [Hc _]. exact Hc.
Defined.
