(* ===== verification/Socket.v ===== *)
(** * Socket: sockets as files (kernel/src/vfs/socket.rs, and of drivers/wifi.rs the
    sockets and the commands of the network task)

    The network stack (smoltcp) is a parameter: the class [Smoltcp] has the calls that
    are made of its sockets and of their set, [SmoltcpLaws] what is documented of the
    set.  A call of smoltcp that panics, because a handle names no socket of its set or
    one of another kind, stops the kernel: [n_halted] is set, and what a model does
    behind it means nothing.  A method of an inode is one step. *)

From S2P Require Import Prelude Inode Vfs.

Open Scope Z_scope.

(** ** The stack *)

(** [tcp::State]. *)
Inductive TcpState : Type :=
  TcpClosed | TcpListen | TcpSynSent | TcpSynReceived | TcpEstablished | TcpFinWait1 | TcpFinWait2 | TcpCloseWait | TcpClosing | TcpLastAck | TcpTimeWait.
#[export] Instance TcpState_eq_dec : EqDecision TcpState.
Proof. solve_decision. Defined.

(** [IpEndpoint]: the four bytes of an address, and a port. *)
Definition Endpoint : Type := list Z * Z.

(** A socket of a set: those of the kernel's own services that are no TCP (DHCP) are
    [SOther]. *)
Inductive AnySocket (T U C X : Type) : Type := STcp (t : T) | SUdp (u : U) | SIcmp (c : C) | SOther (x : X).
Arguments STcp {T U C X} _.
Arguments SUdp {T U C X} _.
Arguments SIcmp {T U C X} _.
Arguments SOther {T U C X} _.

(** [None] is an error of the call, which leaves the socket alone, or for [ss_remove] a
    panic. *)
Class Smoltcp (S T U C X : Type) := {
  tcp_new : Z -> Z -> T;
  tcp_listen : Z -> T -> option T;
  tcp_connect : Endpoint -> Z -> T -> option T;
  tcp_state : T -> TcpState;
  tcp_is_open : T -> bool;
  tcp_is_active : T -> bool;
  tcp_has_remote : T -> bool;
  tcp_can_recv : T -> bool;
  tcp_can_send : T -> bool;
  tcp_may_recv : T -> bool;
  tcp_may_send : T -> bool;
  tcp_recv : Z -> T -> option (T * list Z);
  tcp_send : list Z -> T -> option (T * Z);
  tcp_close : T -> T;
  udp_new : U;
  udp_bind : Z -> U -> option U;
  udp_can_recv : U -> bool;
  udp_can_send : U -> bool;
  udp_recv : Z -> U -> option (U * list Z);
  udp_send : list Z -> Endpoint -> U -> option U;
  icmp_new : C;
  icmp_bind : Z -> C -> option C;
  icmp_can_recv : C -> bool;
  icmp_can_send : C -> bool;
  icmp_recv : Z -> C -> option (C * list Z);
  icmp_send : list Z -> list Z -> C -> option C;
  ss_add : AnySocket T U C X -> S -> S * Z;
  ss_get : Z -> S -> option (AnySocket T U C X);
  ss_set : Z -> AnySocket T U C X -> S -> S;
  ss_remove : Z -> S -> option S;
}.

Class SmoltcpLaws (S T U C X : Type) `{!Smoltcp S T U C X} := {
  ss_add_spec x s : let '(s', h) := ss_add x s in ss_get h s = None /\ ss_get h s' = Some x /\ forall k, k <> h -> ss_get k s' = ss_get k s;
  ss_set_spec h x y s : ss_get h s = Some x -> ss_get h (ss_set h y s) = Some y /\ forall k, k <> h -> ss_get k (ss_set h y s) = ss_get k s;
  ss_remove_spec h x s : ss_get h s = Some x -> exists s', ss_remove h s = Some s' /\ ss_get h s' = None /\ forall k, k <> h -> ss_get k s' = ss_get k s;
  ss_remove_none h s : ss_get h s = None -> ss_remove h s = None;
}.

(* @src kernel/src/vfs/socket.rs 6-7 SO_RCVTIMEO, FIONBIO *)
Definition SO_RCVTIMEO : Z := 0x1006.
Definition FIONBIO : Z := 0x5421.

(* @src kernel/src/vfs/socket.rs 9-17 SocketInode *)
Record SocketInode := mkSocket {
  s_handle : Z;
  s_udp : bool;
  s_icmp : bool;
  s_remote : option Endpoint;
  s_local_port : option Z;
  s_recv_timeout_ms : Z;
  s_non_blocking : bool;
}.
Definition set_handle (h : Z) (i : SocketInode) : SocketInode := mkSocket h (s_udp i) (s_icmp i) (s_remote i) (s_local_port i) (s_recv_timeout_ms i) (s_non_blocking i).
Definition set_remote (ep : option Endpoint) (i : SocketInode) : SocketInode := mkSocket (s_handle i) (s_udp i) (s_icmp i) ep (s_local_port i) (s_recv_timeout_ms i) (s_non_blocking i).
Definition set_local_port (p : option Z) (i : SocketInode) : SocketInode := mkSocket (s_handle i) (s_udp i) (s_icmp i) (s_remote i) p (s_recv_timeout_ms i) (s_non_blocking i).
Definition set_timeout (ms : Z) (i : SocketInode) : SocketInode := mkSocket (s_handle i) (s_udp i) (s_icmp i) (s_remote i) (s_local_port i) ms (s_non_blocking i).
Definition set_non_blocking (b : bool) (i : SocketInode) : SocketInode := mkSocket (s_handle i) (s_udp i) (s_icmp i) (s_remote i) (s_local_port i) (s_recv_timeout_ms i) b.

(** The command to connect a socket. *)
(* @src kernel/src/drivers/wifi.rs 49-55 NetCmd *)
Record NetCmd := mkConnect { c_handle : Z; c_ip : list Z; c_port : Z }.

Section Socket.
Context {S T U C X : Type} `{HN : !Smoltcp S T U C X}.
Abbreviation Any := (AnySocket T U C X).

(** [NET_SOCKETS], [NET_CMD_QUEUE], the inodes that are alive by their address, and the
    clock. *)
(* @src kernel/src/drivers/wifi.rs 57-58 NET_SOCKETS, NET_CMD_QUEUE *)
Record Net := mkNet {
  n_sockets : option S;
  n_queue : list NetCmd;
  n_inodes : gmap Z SocketInode;
  n_next : Z;
  n_uptime_ms : Z;
  n_halted : bool;
}.
Definition set_sockets (s : S) (n : Net) : Net := mkNet (Some s) (n_queue n) (n_inodes n) (n_next n) (n_uptime_ms n) (n_halted n).
Definition set_queue (q : list NetCmd) (n : Net) : Net := mkNet (n_sockets n) q (n_inodes n) (n_next n) (n_uptime_ms n) (n_halted n).
Definition set_inodes (m : gmap Z SocketInode) (n : Net) : Net := mkNet (n_sockets n) (n_queue n) m (n_next n) (n_uptime_ms n) (n_halted n).
Definition halt (n : Net) : Net := mkNet (n_sockets n) (n_queue n) (n_inodes n) (n_next n) (n_uptime_ms n) true.
(** A panic: what is answered does not matter. *)
Definition panic {A} : ST Net A := fun n => (halt n, Err IoError).

(** [Arc::new(SocketInode { .. })]. *)
Definition new_inode (i : SocketInode) (n : Net) : Net * Z :=
  (mkNet (n_sockets n) (n_queue n) (<[n_next n := i]> (n_inodes n)) (n_next n + 1) (n_uptime_ms n) (n_halted n), n_next n).

(** [&self]: the inode is alive while it is called. *)
Definition self (a : Z) : ST Net SocketInode := fun n => match n_inodes n !! a with Some i => (n, Ok i) | None => panic n end.
Definition put_self (a : Z) (i : SocketInode) : ST Net unit := fun n => (set_inodes (<[a := i]> (n_inodes n)) n, Ok tt).

(** [sockets.get_mut::<..>(handle)]: the socket changes and answers. *)
Definition with_tcp {A} (h : Z) (f : T -> T * A) (s : S) : option (S * A) :=
  match ss_get h s with Some (STcp t) => let '(t, a) := f t in Some (ss_set h (STcp t) s, a) | _ => None end.
Definition with_udp {A} (h : Z) (f : U -> U * A) (s : S) : option (S * A) :=
  match ss_get h s with Some (SUdp u) => let '(u, a) := f u in Some (ss_set h (SUdp u) s, a) | _ => None end.
Definition with_icmp {A} (h : Z) (f : C -> C * A) (s : S) : option (S * A) :=
  match ss_get h s with Some (SIcmp c) => let '(c, a) := f c in Some (ss_set h (SIcmp c) s, a) | _ => None end.
(** [if let Some(sockets) = guard.as_mut() { .. }], with what comes of no set. *)
Definition guarded {A} (absent : KResult A) (f : S -> option (S * KResult A)) : ST Net A := fun n =>
  match n_sockets n with
  | None => (n, absent)
  | Some s => match f s with Some (s, r) => (set_sockets s n, r) | None => panic n end
  end.

(** A change that may be refused. *)
Definition attempt {A} (e : KError) (f : A -> option A) (x : A) : A * KResult unit := match f x with Some y => (y, Ok tt) | None => (x, Err e) end.

(** ** The methods *)

(* @src kernel/src/vfs/socket.rs 20-26 SocketInode::kind, size *)
Definition socket_kind (a : Z) (n : Net) : InodeKind := File.
Definition socket_size (a : Z) (n : Net) : Z := 0.
(* @src kernel/src/vfs/socket.rs 28-38 SocketInode::as_socket, is_udp_socket, is_icmp_socket *)
Definition as_socket (a : Z) (n : Net) : option Z := s_handle <$> n_inodes n !! a.
Definition is_udp_socket (a : Z) (n : Net) : bool := default false (s_udp <$> n_inodes n !! a).
Definition is_icmp_socket (a : Z) (n : Net) : bool := default false (s_icmp <$> n_inodes n !! a).
(* @src kernel/src/vfs/socket.rs 40-43 SocketInode::set_socket_remote_endpoint *)
Definition set_socket_remote_endpoint (a : Z) (ep : Endpoint) : ST Net unit := i ← self a; put_self a (set_remote (Some ep) i).

(* @src kernel/src/vfs/socket.rs 45-57 SocketInode::ioctl *)
Definition ioctl (a cmd arg : Z) : ST Net Z :=
  i ← self a;
  if cmd =? SO_RCVTIMEO then _ ← put_self a (set_timeout (u32 arg) i); mret 0
  else if cmd =? FIONBIO then _ ← put_self a (set_non_blocking (negb (arg =? 0)) i); mret 0
  else fail NotSupported.

(* @src kernel/src/vfs/socket.rs 59-76 SocketInode::bind *)
Definition bind (a port : Z) : ST Net unit :=
  i ← self a;
  _ ← put_self a (set_local_port (Some port) i);
  if s_udp i then guarded (Ok tt) (with_udp (s_handle i) (attempt InvalidArgument (udp_bind port)))
  else if s_icmp i then guarded (Ok tt) (with_icmp (s_handle i) (attempt InvalidArgument (icmp_bind port)))
  else mret tt.

(* @src kernel/src/vfs/socket.rs 78-90 SocketInode::listen *)
Definition listen (a backlog : Z) : ST Net unit :=
  i ← self a;
  if s_udp i || s_icmp i then fail NotSupported
  else
    port ← lift (ok_or (s_local_port i) InvalidArgument);
    guarded (Ok tt) (with_tcp (s_handle i) (attempt InvalidArgument (tcp_listen port))).

(** Is there a connection on the socket? *)
(* @src kernel/src/vfs/socket.rs 99-112 SocketInode::accept (check) *)
Definition accept_check (h : Z) : ST Net unit :=
  guarded (Err IoError) (with_tcp h (fun t => (t,
    if bool_decide (tcp_state t = TcpClosed) then Err IoError
    else if negb (tcp_is_active t && bool_decide (tcp_state t = TcpEstablished)) then Err WouldBlock
    else Ok tt))).
(** A new socket listens in place of the connected one, which becomes a new inode. *)
(* @src kernel/src/vfs/socket.rs 114-138 SocketInode::accept (hand over) *)
Definition accept_take (a : Z) : ST Net Z :=
  i ← self a;
  local_port ← lift (ok_or (s_local_port i) InvalidArgument);
  new_handle ← guarded (Err IoError) (fun s =>
    match tcp_listen local_port (tcp_new 4096 4096) with
    | Some t => let '(s, h) := ss_add (STcp t) s in Some (s, Ok h)
    | None => Some (s, Err IoError)
    end);
  _ ← put_self a (set_handle new_handle i);
  st (fun n => let '(n, b) := new_inode (mkSocket (s_handle i) false false None (Some local_port) 0 false) n in (n, Ok b)).
(* @src kernel/src/vfs/socket.rs 92-139 SocketInode::accept *)
Definition accept (a : Z) : ST Net Z :=
  i ← self a;
  if s_udp i || s_icmp i then fail NotSupported
  else _ ← accept_check (s_handle i); accept_take a.

(** [if sock.can_recv() { if let Ok(n) = sock.recv_slice(buf) { return Ok(n) } }]. *)
Definition receive {A} (can : A -> bool) (recv : A -> option (A * list Z)) (x : A) : A * option (list Z) :=
  if can x then match recv x with Some (y, d) => (y, Some d) | None => (x, None) end else (x, None).
Definition transmit {A} (can : A -> bool) (send : A -> option (A * Z)) (x : A) : A * option Z :=
  if can x then match send x with Some (y, n) => (y, Some n) | None => (x, None) end else (x, None).

(** [start_ms] and [now_ms] are the two readings of the clock. *)
(* @src kernel/src/vfs/socket.rs 141-184 SocketInode::read_at *)
Definition read_at (start_ms now_ms : Z) (a n : Z) : ST Net (list Z) :=
  i ← self a;
  got ← guarded (Ok None)
    (if s_icmp i then with_icmp (s_handle i) (fun c => let '(c, d) := receive icmp_can_recv (icmp_recv n) c in (c, Ok d))
     else if s_udp i then with_udp (s_handle i) (fun u => let '(u, d) := receive udp_can_recv (udp_recv n) u in (u, Ok d))
     else with_tcp (s_handle i) (fun t =>
       let '(t, d) := receive tcp_can_recv (tcp_recv n) t in
       (t, Ok (match d with Some d => Some d | None => if negb (tcp_is_open t) || bool_decide (tcp_state t = TcpCloseWait) then Some [] else None end))));
  match got with
  | Some d => mret d
  | None => if (0 <? s_recv_timeout_ms i) && (s_recv_timeout_ms i <=? Z.max 0 (now_ms - start_ms)) then fail Timeout else fail WouldBlock
  end.

(** A datagram is sent whole, or not. *)
Definition whole {A} (buf : list Z) (send : A -> option A) (x : A) : option (A * Z) := (fun y => (y, len buf)) <$> send x.
(* @src kernel/src/vfs/socket.rs 186-229 SocketInode::write_at *)
Definition write_at (a : Z) (buf : list Z) : ST Net Z :=
  i ← self a;
  sent ← guarded (Ok None)
    (if s_icmp i then with_icmp (s_handle i) (fun c =>
       match s_remote i with
       | Some ep => let '(c, r) := transmit icmp_can_send (whole buf (icmp_send buf ep.1)) c in (c, Ok r)
       | None => (c, Err InvalidArgument)
       end)
     else if s_udp i then with_udp (s_handle i) (fun u =>
       match s_remote i with
       | Some ep => let '(u, r) := transmit udp_can_send (whole buf (udp_send buf ep)) u in (u, Ok r)
       | None => (u, Err InvalidArgument)
       end)
     else with_tcp (s_handle i) (fun t =>
       let '(t, r) := transmit tcp_can_send (tcp_send buf) t in
       (t, match r with Some n => Ok (Some n) | None => if negb (tcp_is_open t) then Err IoError else Ok None end)));
  match sent with Some n => mret n | None => fail WouldBlock end.

(** The last reference to the inode goes away. *)
(* @src kernel/src/vfs/socket.rs 249-259 SocketInode::drop *)
Definition drop_socket (a : Z) (n : Net) : Net :=
  match n_inodes n !! a with
  | None => halt n
  | Some i =>
    let n := set_inodes (delete a (n_inodes n)) n in
    match n_sockets n with
    | None => n
    | Some s =>
      match (if negb (s_udp i) && negb (s_icmp i) then fst <$> with_tcp (s_handle i) (fun t => (tcp_close t, tt)) s else Some s) ≫= ss_remove (s_handle i) with
      | Some s => set_sockets s n
      | None => halt n
      end
    end
  end.

(** ** The network task *)

(** The local port of a connection is made of the clock. *)
(* @src kernel/src/drivers/wifi.rs 655-663 net_task (Connect) *)
Definition run_connect (cmd : NetCmd) (n : Net) : Net :=
  (guarded (Ok tt) (with_tcp (c_handle cmd) (fun t =>
    let local_port := 49152 + u16 (n_uptime_ms n mod 16384) in
    (default t (tcp_connect (c_ip cmd, c_port cmd) local_port t), Ok tt))) n).1.
(** The queue is emptied before the sockets are locked. *)
(* @src kernel/src/drivers/wifi.rs 637-665 net_task (commands) *)
Definition run_commands (n : Net) : Net := foldl (fun n cmd => if n_halted n then n else run_connect cmd n) (set_queue [] n) (n_queue n).

(** The service that sends back what it receives. *)
(* @src kernel/src/drivers/wifi.rs 33-38 ECHO_PORT, ECHO_CHUNK *)
Definition ECHO_PORT : Z := 2323.
Definition ECHO_CHUNK : Z := 512.
(* @src kernel/src/drivers/wifi.rs 707-725 net_task (echo) *)
Definition echo_service (t : T) : T :=
  let t := if negb (tcp_is_open t) then default t (tcp_listen ECHO_PORT t) else t in
  let t :=
    match receive tcp_can_recv (tcp_recv ECHO_CHUNK) t with
    | (t, Some d) => if (0 <? len d) && tcp_can_send t then match tcp_send d t with Some (t, _) => t | None => t end else t
    | (t, None) => t
    end in
  if tcp_may_send t && negb (tcp_may_recv t) then tcp_close t else t.

(** ** As a file *)

(* @src kernel/src/vfs/socket.rs 231-245 SocketInode::readdir .. unlink *)
#[export] Instance socket_inode : Inode Net Z := {
  i_kind := socket_kind;
  i_size := socket_size;
  i_read_at a _ n w := let '(w', r) := read_at (n_uptime_ms w) (n_uptime_ms w) a n w in (w', Ret r);
  i_write_at a _ buf w := let '(w, r) := write_at a buf w in (w, Ret r);
  i_truncate _ _ := fail NotSupported;
  i_readdir _ _ := fail NotADirectory;
  i_lookup _ _ := fail NotADirectory;
  i_create _ _ _ := fail PermissionDenied;
  i_unlink _ _ := fail PermissionDenied;
}.
#[export] Instance socket_droppable : Droppable Net Z := { i_drop := drop_socket }.
End Socket.
Arguments Net : clear implicits.
