(* ===== verification/SyscallNet.v ===== *)
(** * SyscallNet: the calls of sockets, of devices and of updates
    (kernel/src/syscall/handler.rs)

    Over the VFS whose inodes may be sockets: [NetInode] has the methods of the trait
    that sockets and devices implement, [NetWorld] says where the sockets are. *)

From S2P Require Import Prelude Flash Sched Slots Process Syscall Path Inode Vfs Elf SyscallFs Ota Socket.

Open Scope Z_scope.

(** The rest of the trait [Inode]: what a file is that is neither answers [None],
    [false] and [NotSupported]. *)
Class NetInode (W I : Type) := {
  i_as_socket : I -> W -> option Z;
  i_is_udp_socket : I -> W -> bool;
  i_is_icmp_socket : I -> W -> bool;
  i_set_socket_remote_endpoint : I -> Endpoint -> ST W unit;
  i_ioctl : I -> Z -> Z -> ST W Z;
  i_bind : I -> Z -> ST W unit;
  i_listen : I -> Z -> ST W unit;
  i_accept : I -> ST W I;
}.
(** The default bodies of the trait's methods. *)
(* @src kernel/src/vfs/inode.rs 33-72 Inode (defaults) *)
Definition plain_inode {W I} : NetInode W I := {|
  i_as_socket _ _ := None;
  i_is_udp_socket _ _ := false;
  i_is_icmp_socket _ _ := false;
  i_set_socket_remote_endpoint _ _ := fail NotSupported;
  i_ioctl _ _ _ := fail NotSupported;
  i_bind _ _ := fail NotSupported;
  i_listen _ _ := fail NotSupported;
  i_accept _ := fail NotSupported;
|}.

Section SyscallNet.
Context {S T U C X : Type} `{HN : !Smoltcp S T U C X}.
Abbreviation N := (Net S).
(** Where the sockets are, and a socket as an inode. *)
Class NetWorld (W I : Type) := { net_of : W -> N; set_net : N -> W -> W; sock : Z -> I }.

#[export] Instance socket_methods : NetInode N Z := {
  i_as_socket := as_socket;
  i_is_udp_socket := is_udp_socket;
  i_is_icmp_socket := is_icmp_socket;
  i_set_socket_remote_endpoint := set_socket_remote_endpoint;
  i_ioctl := ioctl;
  i_bind := bind;
  i_listen := listen;
  i_accept := accept;
}.
#[export] Instance socket_world : NetWorld N Z := { net_of w := w; set_net n _ := n; sock a := a }.

Context {F : Type} `{HF : Frame F} {W I : Type} `{HI : !Inode W I, HE : !EqDecision I, HP : !Droppable W I, HM : !NetInode W I, HW : !NetWorld W I}.
Abbreviation K := (Kernel F (Vfs W I)).
Implicit Types k : K.

(** Runs a method of an inode. *)
Definition via_inode {A} (m : ST W A) k : K * KResult A := let '(v, r) := on_world m (k_fds k) in (k_set_fds v k, r).
Definition on_net {A} (f : N -> N * A) k : K * A :=
  let v := k_fds k in let '(n, a) := f (net_of (v_world v)) in (k_set_fds (set_world (set_net n (v_world v)) v) k, a).

(** [drop] of the last reference to an inode. *)
Definition drop_inode (i : I) k : K := k_set_fds (set_world (i_drop i (v_world (k_fds k))) (k_fds k)) k.

(* @src kernel/src/syscall/handler.rs 243-254 sys_ioctl *)
Definition sys_ioctl (args : list Z) k : K * Reply :=
  let fd := as_i32 (arg args 0) in
  match get_inode (caller_of k) fd (k_fds k) with
  | Err e => fail_with e k
  | Ok inode =>
    let '(k, r) := via_inode (i_ioctl inode (arg args 1) (arg args 2)) k in
    (k, Replied (match r with Ok ret => as_i32 ret | Err e => as_errno e end))
  end.

(** [sockets.remove(handle)] of a guard of its own. *)
Definition remove_socket (h : Z) (n : N) : N :=
  match n_sockets n with None => n | Some s => match ss_remove h s with Some s => set_sockets s n | None => halt n end end.

(** The open file owns the inode: when it cannot be made or finds no descriptor, it is
    dropped on the way out of the call that was given it. *)
(* @src kernel/src/syscall/handler.rs 735-765 sys_socket (descriptor) *)
Definition sys_socket_fd (handle : Z) (is_udp is_icmp : bool) k : K * Reply :=
  let '(k, a) := on_net (new_inode (mkSocket handle is_udp is_icmp None None 0 false)) k in
  let give_back e (k : K) := fail_with e (on_net (fun n => (remove_socket handle n, tt)) (drop_inode (sock a) k)).1 in
  match via_vfs (fun _ => open_new (sock a) RDWR) k with
  | (k, Err e) => give_back e k
  | (k, Ok open_file) =>
    match via_vfs (fun c => insert_open_file c open_file) k with
    | (k, Ok fd) => (k, Replied fd)
    | (k, Err e) => give_back e k
    end
  end.

(** The new socket: that of ICMP is bound to an identifier. *)
(* @src kernel/src/syscall/handler.rs 708-732 sys_socket (socket) *)
Definition fresh_socket (is_udp is_icmp : bool) : AnySocket T U C X :=
  if is_icmp then SIcmp (default icmp_new (icmp_bind 0x1234 icmp_new)) else if is_udp then SUdp udp_new else STcp (tcp_new 4096 4096).
(* @src kernel/src/syscall/handler.rs 690-766 sys_socket *)
Definition sys_socket (args : list Z) k : K * Reply :=
  let domain := as_i32 (arg args 0) in
  let ty := as_i32 (arg args 1) in
  let proto := as_i32 (arg args 2) in
  let is_icmp := (ty =? 3) || (proto =? 1) in
  let is_udp := (ty =? 2) && negb is_icmp in
  if negb (domain =? 2) || (negb (ty =? 1) && negb (ty =? 2) && negb (ty =? 3) && negb (proto =? 1)) then fail_with NotSupported k
  else
    match on_net (guarded (Err IoError) (fun s =>
let '(s, h) := ss_add (fresh_socket is_udp is_icmp) s in Some (s, Ok h))) k with
    | (k, Err e) => fail_with e k
    | (k, Ok handle) => sys_socket_fd handle is_udp is_icmp k
    end.

(** [sockaddr_in]: the port in network order behind the family, then the address. *)
(* @src kernel/src/syscall/handler.rs 682-688 sockaddr_in *)
Definition SOCKADDR_SIZE : Z := 16.
Definition sin_port (ptr : Z) k : Z := k_mem k (ptr + 2) * 256 + k_mem k (ptr + 3).
Definition sin_addr (ptr : Z) k : list Z := read_mem (k_mem k) (ptr + 4) 4.
Definition user_sockaddr (ptr n : Z) k : KResult unit :=
  if (ptr =? 0) || (n <? SOCKADDR_SIZE) then Err InvalidArgument else validate_user ptr SOCKADDR_SIZE k.

(** The command is queued; what the socket is at that moment is the answer. *)
(* @src kernel/src/syscall/handler.rs 803-827 sys_connect (TCP) *)
Definition connect_tcp (handle : Z) (ip : list Z) (port : Z) : ST N unit :=
  _ ← st (fun n : N => (set_queue (n_queue n ++ [mkConnect handle ip port]) n, Ok tt));
  guarded (Err IoError) (with_tcp handle (fun t => (t,
    match tcp_state t with
    | TcpEstablished => Ok tt
    | TcpClosed => if tcp_has_remote t then Err IoError else Err WouldBlock
    | TcpSynSent => Err WouldBlock
    | _ => Err IoError
    end))).
(* @src kernel/src/syscall/handler.rs 768-828 sys_connect *)
Definition sys_connect (args : list Z) k : K * Reply :=
  let fd := as_i32 (arg args 0) in
  let addr_ptr := arg args 1 in
  match user_sockaddr addr_ptr (arg args 2) k with
  | Err e => fail_with e k
  | Ok _ =>
    match get_inode (caller_of k) fd (k_fds k) with
    | Err e => fail_with e k
    | Ok inode =>
      let w := v_world (k_fds k) in
      match i_as_socket inode w with
      | None => fail_with InvalidArgument k
      | Some handle =>
        let port := sin_port addr_ptr k in
        let ip := sin_addr addr_ptr k in
        if i_is_udp_socket inode w || i_is_icmp_socket inode w then
          ((via_inode (i_set_socket_remote_endpoint inode (ip, port)) k).1, Replied 0)
        else
          let '(k, r) := on_net (connect_tcp handle ip port) k in (k, Replied (ret_unit r))
      end
    end
  end.

(* @src kernel/src/syscall/handler.rs 830-851 sys_bind *)
Definition sys_bind (args : list Z) k : K * Reply :=
  let addr_ptr := arg args 1 in
  match user_sockaddr addr_ptr (arg args 2) k with
  | Err e => fail_with e k
  | Ok _ =>
    match get_inode (caller_of k) (as_i32 (arg args 0)) (k_fds k) with
    | Err e => fail_with e k
    | Ok inode => let '(k, r) := via_inode (i_bind inode (sin_port addr_ptr k)) k in (k, Replied (ret_unit r))
    end
  end.

(* @src kernel/src/syscall/handler.rs 853-864 sys_listen *)
Definition sys_listen (args : list Z) k : K * Reply :=
  match get_inode (caller_of k) (as_i32 (arg args 0)) (k_fds k) with
  | Err e => fail_with e k
  | Ok inode => let '(k, r) := via_inode (i_listen inode (as_i32 (arg args 1))) k in (k, Replied (ret_unit r))
  end.

(** The accepted inode is dropped when it finds no descriptor. *)
(* @src kernel/src/syscall/handler.rs 866-888 sys_accept *)
Definition sys_accept (args : list Z) k : K * Reply :=
  match get_inode (caller_of k) (as_i32 (arg args 0)) (k_fds k) with
  | Err e => fail_with e k
  | Ok listen_inode =>
    match via_inode (i_accept listen_inode) k with
    | (k, Err e) => fail_with e k
    | (k, Ok accepted) =>
      match via_vfs (fun _ => open_new accepted RDWR) k with
      | (k, Err e) => fail_with e (drop_inode accepted k)
      | (k, Ok open_file) =>
        match via_vfs (fun c => insert_open_file c open_file) k with
        | (k, Ok fd) => (k, Replied fd)
        | (k, Err e) => fail_with e (drop_inode accepted k)
        end
      end
    end
  end.

(** The calls that [SyscallFs.dispatch] leaves out, but for the update state, whose
    flash is no part of [K]. *)
(* @src kernel/src/syscall/handler.rs 7-49 dispatch (sockets) *)
Definition dispatch_net (num : Z) (args : list Z) k : option (K * Reply) :=
  match from_usize num with
  | Some SIoctl => Some (sys_ioctl args k)
  | Some SSocket => Some (sys_socket args k)
  | Some SBind => Some (sys_bind args k)
  | Some SListen => Some (sys_listen args k)
  | Some SAccept => Some (sys_accept args k)
  | Some SConnect => Some (sys_connect args k)
  | _ => None
  end.
End SyscallNet.

(** ** The state of the update *)

(** The call answers, or the machine starts again. *)
Inductive OtaReply : Type := OtaAnswers (z : Z) | OtaResets.
Section OtaCall.
Context {D : Type} `{HD : NorFlash D}.
(* @src kernel/src/syscall/handler.rs 934-959 sys_ota_state *)
Definition sys_ota_state (args : list Z) (d : D) : D * OtaReply :=
  let op := arg args 0 in
  if op =? 0 then (d, OtaAnswers (match get_state d with Ok state => as_i32 (as_raw state) | Err e => as_errno e end))
  else if op =? 1 then
    let state_raw := arg args 1 in
    match set_state (from_raw state_raw) d with
    | (d, Ok _) => if (state_raw =? as_raw Invalid) || (state_raw =? as_raw Aborted) then (d, OtaResets) else (d, OtaAnswers 0)
    | (d, Err e) => (d, OtaAnswers (as_errno e))
    end
  else (d, OtaAnswers (as_errno InvalidArgument)).
End OtaCall.
