(* ===== verification/SocketOps.v ===== *)
(** * SocketOps: what holds of sockets (kernel/src/vfs/socket.rs, syscall/handler.rs,
    drivers/wifi.rs)

    Over every history each socket inode owns one socket of the set, of its kind, no
    two the same one, and the set holds no socket that nobody owns.  So a call touches no
    socket but its own, and only two things stop the kernel, both of which a program can
    bring about: a socket that finds no descriptor is removed twice, and a connection may
    be asked for a socket that is gone when the network task gets to it. *)

From S2P Require Import Prelude Sched Slots Process Syscall Path Inode Vfs VfsOps Elf SyscallFs Ota Socket SyscallNet SchedOps.

Open Scope Z_scope.

Section SocketOps.
Context {S T U C X : Type} `{HN : !Smoltcp S T U C X, HL : !SmoltcpLaws S T U C X}.
Abbreviation N := (Net S).
Implicit Types n : N.

Inductive Kind : Type := KTcp | KUdp | KIcmp | KOther.
Definition kind_of_socket (x : AnySocket T U C X) : Kind := match x with STcp _ => KTcp | SUdp _ => KUdp | SIcmp _ => KIcmp | SOther _ => KOther end.
Definition kind_of (i : SocketInode) : Kind := if s_icmp i then KIcmp else if s_udp i then KUdp else KTcp.
Definition kind_at (h : Z) (s : S) : option Kind := kind_of_socket <$> ss_get h s.
Definition socket_at (h : Z) n : option (AnySocket T U C X) := n_sockets n ≫= ss_get h.
Definition live (a : Z) (i : SocketInode) n : Prop := n_inodes n !! a = Some i.

(** [fixed] are the sockets of the kernel's own services. *)
Record owned (fixed : gset Z) n : Prop := mkOwned {
  ow_kind a i : live a i n -> exists s, n_sockets n = Some s /\ kind_at (s_handle i) s = Some (kind_of i) /\ s_udp i && s_icmp i = false;
  ow_next a i : live a i n -> a < n_next n;
  ow_inj a b i j : live a i n -> live b j n -> s_handle i = s_handle j -> a = b;
  ow_fixed a i : live a i n -> s_handle i ∉ fixed;
  ow_all s h : n_sockets n = Some s -> is_Some (ss_get h s) <-> h ∈ fixed \/ exists a i, live a i n /\ s_handle i = h;
}.

(** Two inodes of the same socket. *)
Definition same (i j : SocketInode) : Prop := s_handle i = s_handle j /\ s_udp i = s_udp j /\ s_icmp i = s_icmp j.
Lemma same_kind i j : same i j -> kind_of i = kind_of j.
Proof. intros (_ & E1 & E2). unfold kind_of. by rewrite E1, E2. Qed.

(** A call of inode [a] that keeps to its socket [h]. *)
Record near (a h : Z) n n' : Prop := mkNear {
  ne_halted : n_halted n' = n_halted n;
  ne_next : n_next n' = n_next n;
  ne_others b : b <> a -> n_inodes n' !! b = n_inodes n !! b;
  ne_self i : live a i n -> exists i', live a i' n' /\ same i i';
  ne_self' i' : live a i' n' -> exists i, live a i n;
  ne_set : n_sockets n = None <-> n_sockets n' = None;
  ne_kinds k : kind_of_socket <$> socket_at k n' = kind_of_socket <$> socket_at k n;
  ne_sockets k : k <> h -> socket_at k n' = socket_at k n;
}.

Lemma near_refl a h n : near a h n n.
Proof. split; try done; [intros i H; by exists i|intros i H; by exists i]. Qed.
Lemma near_trans a h n1 n2 n3 : near a h n1 n2 -> near a h n2 n3 -> near a h n1 n3.
Proof.
  intros [A1 A2 A3 A4 A5 A6 A7 A8] [B1 B2 B3 B4 B5 B6 B7 B8]. split.
  - by rewrite B1.
  - by rewrite B2.
  - intros b Hb. by rewrite B3, A3.
  - intros i Hi. destruct (A4 i Hi) as (j & Hj & E & E1 & E2). destruct (B4 j Hj) as (l & Hl & F & F1 & F2). exists l. split; [done|]. unfold same. by rewrite E, E1, E2.
  - intros i Hi. destruct (B5 i Hi) as [j Hj]. by apply (A5 j).
  - by rewrite A6.
  - intros k. by rewrite B7.
  - intros k Hk. by rewrite B8, A8.
Qed.
Lemma kind_socket_at h n s : n_sockets n = Some s -> kind_of_socket <$> socket_at h n = kind_at h s.
Proof. intros E. unfold socket_at. by rewrite E. Qed.
Lemma near_owned fixed a h n n' : near a h n n' -> owned fixed n -> owned fixed n'.
Proof.
  intros [A1 A2 A3 A4 A5 A6 A7 A8] [O1 O2 O3 O4 O5].
  assert (Hback : forall b j, live b j n' -> exists i, live b i n /\ same i j).
  { intros b j Hj. destruct (decide (b = a)) as [->|Hb]; [|unfold live in *; rewrite A3 in Hj by done; by exists j].
    destruct (A5 j Hj) as [i Hi]. destruct (A4 i Hi) as (j' & Hj' & Hs). unfold live in *. rewrite Hj in Hj'. injection Hj' as <-. by exists i. }
  assert (Hforth : forall b i, live b i n -> exists j, live b j n' /\ same i j).
  { intros b i Hi. destruct (decide (b = a)) as [->|Hb]; [by apply A4|]. exists i. unfold live in *. by rewrite A3. }
  split.
  - intros b j Hj. destruct (Hback b j Hj) as (i & Hi & Hs). destruct (O1 b i Hi) as (s & Es & Ek & Eb). destruct (n_sockets n') as [s'|] eqn:E'; [|by rewrite (proj2 A6 eq_refl) in Es].
    exists s'. split; [done|]. pose proof (A7 (s_handle i)) as H. rewrite (kind_socket_at _ _ _ E'), (kind_socket_at _ _ _ Es), Ek in H. pose proof Hs as (Eh & E1 & E2).
    by rewrite <- Eh, H, (same_kind _ _ Hs), <- E1, <- E2.
  - intros b j Hj. destruct (Hback b j Hj) as (i & Hi & _). rewrite A2. by eapply O2.
  - intros b c j l Hj Hl E. destruct (Hback b j Hj) as (i & Hi & (E1 & _)). destruct (Hback c l Hl) as (m & Hm & (E2 & _)). apply (O3 b c i m); [done..|]. by rewrite E1, E2.
  - intros b j Hj. destruct (Hback b j Hj) as (i & Hi & (<- & _)). by eapply O4.
  - intros s' k E'. destruct (n_sockets n) as [s|] eqn:E; [|by rewrite (proj1 A6 eq_refl) in E']. pose proof (A7 k) as H.
    rewrite (kind_socket_at _ _ _ E'), (kind_socket_at _ _ _ E) in H. unfold kind_at in H.
    assert (Hsome : is_Some (ss_get k s') <-> is_Some (ss_get k s)) by (destruct (ss_get k s'), (ss_get k s); try discriminate H; split; intros [? ?]; done || by eexists).
    rewrite Hsome, (O5 s k eq_refl). split; (intros [Hf|(b & i & Hi & Eh)]; [by left|right]).
    + destruct (Hforth b i Hi) as (j & Hj & (Es & _)). exists b, j. split; [done|]. by rewrite <- Es.
    + destruct (Hback b i Hi) as (j & Hj & (Es & _)). exists b, j. split; [done|]. by rewrite Es.
Qed.

(** ** The calls of one inode *)

(** A program of inode [a], which is the socket [i]. *)
Definition at_ (a : Z) (i : SocketInode) n : Prop := exists i', live a i' n /\ same i i'.
Definition calm {A} (fixed : gset Z) (a : Z) (i : SocketInode) (m : ST N A) : Prop := forall n, owned fixed n -> at_ a i n -> near a (s_handle i) n (m n).1.
Section calm.
Context (fixed : gset Z) (a : Z) (i : SocketInode).
Lemma calm_ret {A} (x : A) : calm fixed a i (mret x).
Proof. intros n _ _. apply near_refl. Qed.
Lemma calm_fail {A} e : calm fixed a i (fail e : ST N A).
Proof. intros n _ _. apply near_refl. Qed.
Lemma calm_lift {A} (r : KResult A) : calm fixed a i (lift r).
Proof. intros n _ _. apply near_refl. Qed.
Lemma calm_bind {A B} (m : ST N A) (f : A -> ST N B) : calm fixed a i m -> (forall x, calm fixed a i (f x)) -> calm fixed a i (m ≫= f).
Proof.
  intros Hm Hf n Ho Ha. pose proof (Hm n Ho Ha) as H1. unfold mbind, ST_bind. destruct (m n) as [n1 [x|e]]; cbn [fst] in *; [|done].
  eapply near_trans; [exact H1|]. apply Hf; [by eapply near_owned|]. destruct Ha as (j & Hj & Hs). destruct (ne_self _ _ _ _ H1 j Hj) as (l & Hl & Hs').
  exists l. split; [done|]. destruct Hs as (E1 & E2 & E3), Hs' as (F1 & F2 & F3). unfold same. by rewrite E1, E2, E3.
Qed.
Lemma calm_put j : same i j -> calm fixed a i (put_self a j).
Proof.
  intros Hs n Ho (i' & Hi & Hs'). cbn. split; try done; cbn.
  - intros b Hb. by rewrite lookup_insert_ne.
  - intros l Hl. unfold live in *. rewrite Hi in Hl. injection Hl as <-. exists j. cbn. rewrite lookup_insert_eq. split; [done|].
    destruct Hs as (E1 & E2 & E3), Hs' as (F1 & F2 & F3). unfold same. by rewrite <- F1, <- F2, <- F3.
  - intros _ _. by exists i'.
Qed.
(** The socket of the inode becomes another of its kind. *)
Lemma calm_set {A} absent (f : S -> option (S * KResult A)) :
  (forall s, kind_at (s_handle i) s = Some (kind_of i) -> exists y r, f s = Some (ss_set (s_handle i) y s, r) /\ kind_of_socket y = kind_of i) -> calm fixed a i (guarded absent f).
Proof.
  intros Hf n Ho (i' & Hi & Hs). destruct (ow_kind _ _ Ho a i' Hi) as (s & Es & Ek & _). pose proof Hs as (Eh & _ & _). rewrite <- Eh, <- (same_kind _ _ Hs) in Ek.
  destruct (Hf s Ek) as (y & r & E & Ey). unfold guarded. rewrite Es, E. cbn [fst]. unfold kind_at in Ek. destruct (ss_get (s_handle i) s) as [x|] eqn:Ex; [|done]. injection Ek as Ek.
  destruct (ss_set_spec (s_handle i) x y s Ex) as [G1 G2]. split; try done.
  - intros j Hj. by exists j.
  - intros j Hj. by exists j.
  - by rewrite Es.
  - intros k. unfold socket_at. cbn. rewrite Es. cbn. destruct (decide (k = s_handle i)) as [->|Hk]; [rewrite G1, Ex; cbn; by rewrite Ey, Ek|by rewrite G2].
  - intros k Hk. unfold socket_at. cbn. rewrite Es. cbn. by apply G2.
Qed.
Lemma calm_tcp {A} absent (f : T -> T * KResult A) : kind_of i = KTcp -> calm fixed a i (guarded absent (with_tcp (s_handle i) f)).
Proof.
  intros Hk. apply calm_set. intros s E. unfold kind_at in E. unfold with_tcp. rewrite Hk in *. destruct (ss_get (s_handle i) s) as [[t|u|c|x]|]; try done.
  destruct (f t) as [t' r]. by exists (STcp t'), r.
Qed.
Lemma calm_udp {A} absent (f : U -> U * KResult A) : kind_of i = KUdp -> calm fixed a i (guarded absent (with_udp (s_handle i) f)).
Proof.
  intros Hk. apply calm_set. intros s E. unfold kind_at in E. unfold with_udp. rewrite Hk in *. destruct (ss_get (s_handle i) s) as [[t|u|c|x]|]; try done.
  destruct (f u) as [u' r]. by exists (SUdp u'), r.
Qed.
Lemma calm_icmp {A} absent (f : C -> C * KResult A) : kind_of i = KIcmp -> calm fixed a i (guarded absent (with_icmp (s_handle i) f)).
Proof.
  intros Hk. apply calm_set. intros s E. unfold kind_at in E. unfold with_icmp. rewrite Hk in *. destruct (ss_get (s_handle i) s) as [[t|u|c|x]|]; try done.
  destruct (f c) as [c' r]. by exists (SIcmp c'), r.
Qed.
End calm.

(** What a method does with the inode it finds. *)
Lemma calm_self {A} fixed a (k : SocketInode -> ST N A) n i : owned fixed n -> live a i n -> (s_udp i && s_icmp i = false -> calm fixed a i (k i)) ->
  near a (s_handle i) n ((self a ≫= k) n).1.
Proof.
  intros Ho Hi Hk. unfold mbind, ST_bind, self. rewrite Hi. destruct (ow_kind _ _ Ho a i Hi) as (_ & _ & _ & Hb). apply (Hk Hb); [done|]. by exists i.
Qed.

(** The methods that keep to their socket. *)
Inductive method (a : Z) : (N -> N) -> Prop :=
  | m_ioctl cmd arg : method a (fun n => (ioctl a cmd arg n).1)
  | m_remote ep : method a (fun n => (set_socket_remote_endpoint a ep n).1)
  | m_bind port : method a (fun n => (bind a port n).1)
  | m_listen backlog : method a (fun n => (listen a backlog n).1)
  | m_read t0 t1 len : method a (fun n => (read_at t0 t1 a len n).1)
  | m_write buf : method a (fun n => (write_at a buf n).1)
  | m_connect ip port : method a (fun n => match n_inodes n !! a with Some i => if s_udp i || s_icmp i then n else (connect_tcp (s_handle i) ip port n).1 | None => n end)
  | m_check : method a (fun n => match n_inodes n !! a with Some i => if s_udp i || s_icmp i then n else (accept_check (s_handle i) n).1 | None => n end).

Lemma tcp_kind i : s_udp i || s_icmp i = false -> kind_of i = KTcp.
Proof. unfold kind_of. by destruct (s_udp i), (s_icmp i). Qed.

Lemma method_near fixed a f n i : method a f -> owned fixed n -> live a i n -> near a (s_handle i) n (f n).
Proof.
  intros Hm Ho Hi. destruct Hm.
  - apply (calm_self fixed); [done..|]. intros _. destruct (cmd =? SO_RCVTIMEO); [|destruct (cmd =? FIONBIO)].
    + apply calm_bind; [by apply calm_put|]. intros _. apply calm_ret.
    + apply calm_bind; [by apply calm_put|]. intros _. apply calm_ret.
    + apply calm_fail.
  - apply (calm_self fixed); [done..|]. intros _. by apply calm_put.
  - apply (calm_self fixed); [done..|]. intros Hb. apply calm_bind; [by apply calm_put|]. intros _.
    destruct (s_udp i) eqn:Eu; [|destruct (s_icmp i) eqn:Ei; [|apply calm_ret]].
    + apply calm_udp. unfold kind_of. rewrite Eu. by destruct (s_icmp i).
    + apply calm_icmp. unfold kind_of. by rewrite Ei.
  - apply (calm_self fixed); [done..|]. intros _. destruct (s_udp i || s_icmp i) eqn:E; [apply calm_fail|]. apply calm_bind; [apply calm_lift|]. intros p. by apply calm_tcp, tcp_kind.
  - apply (calm_self fixed); [done..|]. intros _. apply calm_bind.
    + destruct (s_icmp i) eqn:Ei; [|destruct (s_udp i) eqn:Eu]; [apply calm_icmp|apply calm_udp|apply calm_tcp]; unfold kind_of; by rewrite ?Ei, ?Eu.
    + intros [d|]; [apply calm_ret|]. destruct (_ && _); apply calm_fail.
  - apply (calm_self fixed); [done..|]. intros _. apply calm_bind.
    + destruct (s_icmp i) eqn:Ei; [|destruct (s_udp i) eqn:Eu]; [apply calm_icmp|apply calm_udp|apply calm_tcp]; unfold kind_of; by rewrite ?Ei, ?Eu.
    + intros [d|]; [apply calm_ret|apply calm_fail].
  - rewrite Hi. destruct (s_udp i || s_icmp i) eqn:E; [apply near_refl|]. apply (calm_bind fixed a i); [| |done|by exists i].
    + intros n' _ _. cbn. split; try done; intros j Hj; by exists j.
    + intros _. by apply calm_tcp, tcp_kind.
  - rewrite Hi. destruct (s_udp i || s_icmp i) eqn:E; [apply near_refl|]. apply (calm_tcp fixed a i); [by apply tcp_kind|done|by exists i].
Qed.

(** ** New sockets, and sockets that go *)

(** What [sys_socket] does to the sockets before it looks for a descriptor. *)
Definition created (is_udp is_icmp : bool) n : N :=
  match n_sockets n with
  | None => n
  | Some s => let '(s, h) := ss_add (fresh_socket is_udp is_icmp) s in (new_inode (mkSocket h is_udp is_icmp None None 0 false) (set_sockets s n)).1
  end.

Lemma owned_lookup fixed n s h : owned fixed n -> n_sockets n = Some s -> ss_get h s = None -> (h ∉ fixed) /\ forall a i, live a i n -> s_handle i <> h.
Proof.
  intros Ho Es E. pose proof (ow_all _ _ Ho s h Es) as H. rewrite E in H. split.
  - intros Hf. destruct (proj2 H (or_introl Hf)) as [x Hx]. done.
  - intros a i Hi Eh. destruct (proj2 H) as [x Hx]; [right; by exists a, i|done].
Qed.
Lemma fresh_owned fixed n a i : owned fixed n -> live a i n -> a <> n_next n.
Proof. intros Ho Hi. pose proof (ow_next _ _ Ho a i Hi). lia. Qed.

Lemma created_owned fixed is_udp is_icmp n : owned fixed n -> (is_udp && is_icmp) = false -> owned fixed (created is_udp is_icmp n) /\ n_halted (created is_udp is_icmp n) = n_halted n.
Proof.
  intros Ho Hb. unfold created. destruct (n_sockets n) as [s|] eqn:Es; [|by split]. pose proof (ss_add_spec (fresh_socket is_udp is_icmp) s) as Ha.
  destruct (ss_add _ s) as [s' h]. destruct Ha as (G0 & G1 & G2). split; [|done]. destruct (owned_lookup _ _ _ _ Ho Es G0) as [Hf Hl].
  set (j := mkSocket h is_udp is_icmp None None 0 false).
  assert (Hk : kind_of_socket (fresh_socket is_udp is_icmp) = kind_of j) by (unfold kind_of, fresh_socket, j; cbn; by destruct is_icmp, is_udp).
  assert (Hlive : forall b i, live b i (new_inode j (set_sockets s' n)).1 <-> (b = n_next n /\ i = j) \/ (b <> n_next n /\ live b i n)).
  { intros b i. unfold live. cbn. destruct (decide (b = n_next n)) as [->|Hne].
    - rewrite lookup_insert_eq. split; [intros [= <-]; by left|intros [[_ ->]|[? _]]; done].
    - rewrite lookup_insert_ne by done. split; [intros H; by right|intros [[? _]|[_ ?]]; done]. }
  split.
  - intros b i [[-> ->]|[Hne Hi]]%Hlive; exists s'; (split; [done|]).
    + unfold kind_at. cbn. rewrite G1. split; [by rewrite <- Hk|done].
    + destruct (ow_kind _ _ Ho b i Hi) as (s0 & E0 & Ek & Eb). rewrite Es in E0. injection E0 as <-. split; [|done]. unfold kind_at. rewrite G2; [done|]. by eapply Hl.
  - intros b i [[-> ->]|[Hne Hi]]%Hlive; cbn; [lia|]. pose proof (ow_next _ _ Ho b i Hi). lia.
  - intros b c i l [[-> ->]|[Hb1 Hi]]%Hlive [[-> ->]|[Hc1 Hm]]%Hlive E; [done| | |by apply (ow_inj _ _ Ho b c i l)].
    + destruct (Hl c l Hm). by rewrite <- E.
    + by destruct (Hl b i Hi).
  - intros b i [[-> ->]|[Hne Hi]]%Hlive; [done|]. by eapply (ow_fixed _ _ Ho).
  - intros s0 k [= <-]. destruct (decide (k = h)) as [->|Hk'].
    + rewrite G1. split; [|done]. intros _. right. exists (n_next n), j. split; [apply Hlive; by left|done].
    + rewrite G2, (ow_all _ _ Ho s k Es) by done. split; (intros [H|(b & i & Hi & Eh)]; [by left|right]).
      * exists b, i. split; [|done]. apply Hlive. right. split; [by eapply fresh_owned|done].
      * apply Hlive in Hi as [[_ ->]|[_ Hi]]; [by destruct Hk'|by exists b, i].
Qed.

(** The inode that is accepted owns the socket of the connection; the one that listens
    has a new socket. *)
Lemma accept_take_spec fixed a i n : owned fixed n -> live a i n -> kind_of i = KTcp ->
  match accept_take a n with
  | (n', Err _) => near a (s_handle i) n n'
  | (n', Ok b) => exists s s' h t p, n_sockets n = Some s /\ n_sockets n' = Some s' /\ s_local_port i = Some p /\ tcp_listen p (tcp_new 4096 4096) = Some t /\
      ss_get h s = None /\ ss_get h s' = Some (STcp t) /\ (forall k, k <> h -> ss_get k s' = ss_get k s) /\ b = n_next n /\
      n_inodes n' = <[b := mkSocket (s_handle i) false false None (Some p) 0 false]> (<[a := set_handle h i]> (n_inodes n)) /\
      n_next n' = n_next n + 1 /\ n_halted n' = n_halted n
  end.
Proof.
  intros Ho Hi Hk. destruct (ow_kind _ _ Ho a i Hi) as (s & Es & _ & _). unfold accept_take, mbind, ST_bind, self. rewrite Hi. unfold lift.
  destruct (s_local_port i) as [p|] eqn:Ep; cbn [ok_or]; [|apply near_refl]. unfold guarded. rewrite Es.
  destruct (tcp_listen p (tcp_new 4096 4096)) as [t|] eqn:El.
  - pose proof (ss_add_spec (STcp t) s) as Ha. destruct (ss_add (STcp t) s) as [s' h] eqn:Ea. destruct Ha as (G0 & G1 & G2).
    cbn. exists s, s', h, t, p. split_and!; done.
  - assert (E : set_sockets s n = n) by (destruct n; cbn in *; by subst). rewrite E. apply near_refl.
Qed.
Lemma accept_take_owned fixed a i n : owned fixed n -> live a i n -> kind_of i = KTcp ->
  owned fixed (accept_take a n).1 /\ n_halted (accept_take a n).1 = n_halted n.
Proof.
  intros Ho Hi Hk. pose proof (accept_take_spec fixed a i n Ho Hi Hk) as H. destruct (accept_take a n) as [n' [b|e]]; cbn [fst]; [|split; [by eapply near_owned|by eapply ne_halted]].
  destruct H as (s & s' & h & t & p & Es & Es' & Ep & El & G0 & G1 & G2 & -> & Em & En & Eh). split; [|done].
  destruct (owned_lookup _ _ _ _ Ho Es G0) as [Hf Hl]. set (j := mkSocket (s_handle i) false false None (Some p) 0 false) in *.
  assert (Hna : a <> n_next n) by (by eapply fresh_owned).
  assert (Hlive : forall c l, live c l n' <-> (c = n_next n /\ l = j) \/ (c = a /\ l = set_handle h i) \/ (c <> n_next n /\ c <> a /\ live c l n)).
  { intros c l. unfold live. rewrite Em. destruct (decide (c = n_next n)) as [->|Hne]; [|destruct (decide (c = a)) as [->|Hca]].
    - rewrite lookup_insert_eq. split; [intros [= <-]; by left|intros [[_ ->]|[[Ea _]|(? & _)]]; [done|by destruct Hna|done]].
    - rewrite lookup_insert_ne, lookup_insert_eq by done. split; [intros [= <-]; right; by left|intros [[? _]|[[_ ->]|(_ & ? & _)]]; done].
    - rewrite !lookup_insert_ne by done. split; [intros ?; right; by right|intros [[? _]|[[? _]|(_ & _ & ?)]]; done]. }
  destruct (ow_kind _ _ Ho a i Hi) as (s0 & E0 & Ek & Eb). rewrite Es in E0. injection E0 as <-. rewrite Hk in Ek. assert (Hhi : s_handle i <> h) by (by eapply Hl).
  split.
  - intros c l [[-> ->]|[[-> ->]|(Hc & Hca & Hm)]]%Hlive; exists s'; (split; [done|]).
    + unfold kind_at. cbn. by rewrite G2.
    + unfold kind_at. cbn. rewrite G1. split; [|done]. cbn. change (kind_of (set_handle h i)) with (kind_of i). by rewrite Hk.
    + destruct (ow_kind _ _ Ho c l Hm) as (s0 & E0 & Ek' & Eb'). rewrite Es in E0. injection E0 as <-. split; [|done]. unfold kind_at. rewrite G2; [done|]. by eapply Hl.
  - intros c l [[-> ->]|[[-> ->]|(Hc & Hca & Hm)]]%Hlive; rewrite En; [lia|pose proof (ow_next _ _ Ho a i Hi); lia|pose proof (ow_next _ _ Ho c l Hm); lia].
  - assert (Hold : forall c l, c <> a -> live c l n -> s_handle l <> s_handle i) by (intros c l Hc Hm E; by apply Hc, (ow_inj _ _ Ho c a l i)).
    intros c d l m [[-> ->]|[[-> ->]|(Hc & Hca & Hm)]]%Hlive [[-> ->]|[[-> ->]|(Hd & Hda & Hm')]]%Hlive E; cbn in E; try done.
    + by destruct (Hold d m Hda Hm').
    + by destruct (Hl d m Hm').
    + by destruct (Hold c l Hca Hm).
    + by destruct (Hl c l Hm).
    + by apply (ow_inj _ _ Ho c d l m).
  - intros c l [[-> ->]|[[-> ->]|(Hc & Hca & Hm)]]%Hlive; [by apply (ow_fixed _ _ Ho a i)|done|by apply (ow_fixed _ _ Ho c l)].
  - intros s0 k E0. rewrite Es' in E0. injection E0 as <-. destruct (decide (k = h)) as [->|Hk'].
    + rewrite G1. split; [|done]. intros _. right. exists a, (set_handle h i). split; [apply Hlive; right; by left|done].
    + rewrite G2, (ow_all _ _ Ho s k Es) by done. split; (intros [H|(c & l & Hm & Eq)]; [by left|right]).
      * destruct (decide (c = a)) as [->|Hca].
        -- unfold live in *. rewrite Hi in Hm. injection Hm as <-. exists (n_next n), j. split; [apply Hlive; by left|done].
        -- exists c, l. split; [|done]. apply Hlive. right. right. split; [by eapply fresh_owned|done].
      * apply Hlive in Hm as [[-> ->]|[[-> ->]|(_ & _ & Hm)]]; [by exists a, i|by destruct Hk'|by exists c, l].
Qed.

(** The last reference goes: the socket leaves the set, and only it. *)
Lemma drop_spec fixed a i n : owned fixed n -> live a i n -> exists s s', n_sockets n = Some s /\
  drop_socket a n = set_sockets s' (set_inodes (delete a (n_inodes n)) n) /\ ss_get (s_handle i) s' = None /\ forall k, k <> s_handle i -> ss_get k s' = ss_get k s.
Proof.
  intros Ho Hi. destruct (ow_kind _ _ Ho a i Hi) as (s & Es & Ek & Eb). unfold drop_socket. rewrite Hi. cbn [n_sockets set_inodes]. rewrite Es.
  unfold kind_at in Ek. destruct (ss_get (s_handle i) s) as [x|] eqn:Ex; [|done]. injection Ek as Ek. exists s.
  assert (Hclose : exists s1 y, (if negb (s_udp i) && negb (s_icmp i) then fst <$> with_tcp (s_handle i) (fun t => (tcp_close t, tt)) s else Some s) = Some s1 /\
    ss_get (s_handle i) s1 = Some y /\ forall k, k <> s_handle i -> ss_get k s1 = ss_get k s).
  { destruct (negb (s_udp i) && negb (s_icmp i)) eqn:E; [|by exists s, x].
    assert (Hk : kind_of i = KTcp) by (apply tcp_kind; by destruct (s_udp i), (s_icmp i)). rewrite Hk in Ek. destruct x as [t|u|c|x]; try done.
    unfold with_tcp. rewrite Ex. destruct (ss_set_spec _ _ (STcp (tcp_close t)) _ Ex) as [G1 G2]. by eexists _, _. }
  destruct Hclose as (s1 & y & -> & Ey & G). cbn [mbind option_bind]. destruct (ss_remove_spec _ _ _ Ey) as (s2 & E2 & G1 & G2). rewrite E2.
  exists s2. split_and!; [done|done|done|]. intros k Hk. by rewrite G2, G.
Qed.
Lemma drop_owned fixed a i n : owned fixed n -> live a i n -> owned fixed (drop_socket a n) /\ n_halted (drop_socket a n) = n_halted n.
Proof.
  intros Ho Hi. destruct (drop_spec fixed a i n Ho Hi) as (s & s' & Es & -> & G1 & G2). split; [|done].
  assert (Hlive : forall b j, live b j (set_sockets s' (set_inodes (delete a (n_inodes n)) n)) <-> b <> a /\ live b j n).
  { intros b j. unfold live. cbn. rewrite lookup_delete_Some. split; intros [? ?]; (split; [congruence|done]). }
  split.
  - intros b j [Hb Hj]%Hlive. destruct (ow_kind _ _ Ho b j Hj) as (s0 & E0 & Ek & Eb). rewrite Es in E0. injection E0 as <-. exists s'. split; [done|]. split; [|done].
    unfold kind_at. rewrite G2; [done|]. intros E. by apply Hb, (ow_inj _ _ Ho b a j i).
  - intros b j [Hb Hj]%Hlive. by apply (ow_next _ _ Ho b j).
  - intros b c j l [Hb Hj]%Hlive [Hc Hm]%Hlive. by apply (ow_inj _ _ Ho b c j l).
  - intros b j [Hb Hj]%Hlive. by apply (ow_fixed _ _ Ho b j).
  - intros s0 k [= <-]. destruct (decide (k = s_handle i)) as [->|Hk].
    + rewrite G1. split; [by intros [? ?]|]. intros [Hf|(b & j & [Hb Hj]%Hlive & E)]; exfalso; [by apply (ow_fixed _ _ Ho a i)|by apply Hb, (ow_inj _ _ Ho b a j i)].
    + rewrite G2, (ow_all _ _ Ho s k Es) by done. split; (intros [H|(b & j & Hj & E)]; [by left|right]).
      * exists b, j. split; [|done]. apply Hlive. split; [|done]. intros ->. unfold live in *. rewrite Hi in Hj. injection Hj as <-. by destruct Hk.
      * apply Hlive in Hj as [_ Hj]. by exists b, j.
Qed.

(** ** The network task *)

(** A socket of the set changes, but keeps its kind: what the stack does when it is
    polled, and what the services do to their sockets. *)
Definition polled s' n : Prop := exists s, n_sockets n = Some s /\ forall k, kind_at k s' = kind_at k s.
Lemma kinds_owned fixed s' n : polled s' n -> owned fixed n -> owned fixed (set_sockets s' n).
Proof.
  intros (s & Es & H) Ho. split.
  - intros a i Hi. destruct (ow_kind _ _ Ho a i Hi) as (s0 & E0 & Ek & Eb). rewrite Es in E0. injection E0 as <-. exists s'. by rewrite H.
  - apply (ow_next _ _ Ho).
  - apply (ow_inj _ _ Ho).
  - apply (ow_fixed _ _ Ho).
  - intros s0 k [= <-]. pose proof (ow_all _ _ Ho s k Es) as Ha. specialize (H k). unfold kind_at in H.
    assert (Hsome : is_Some (ss_get k s') <-> is_Some (ss_get k s)) by (destruct (ss_get k s'), (ss_get k s); try discriminate H; split; intros [? ?]; done || by eexists).
    by rewrite Hsome.
Qed.

(** A command that finds no TCP socket under its handle. *)
Definition stale (cmd : NetCmd) n : Prop := kind_of_socket <$> socket_at (c_handle cmd) n <> Some KTcp.
Lemma run_connect_spec fixed cmd n : owned fixed n -> n_halted n = false -> is_Some (n_sockets n) ->
  (stale cmd n /\ n_halted (run_connect cmd n) = true) \/
  (~ stale cmd n /\ n_halted (run_connect cmd n) = false /\ owned fixed (run_connect cmd n) /\
    exists s', run_connect cmd n = set_sockets s' n /\ polled s' n /\ forall k, k <> c_handle cmd -> socket_at k (run_connect cmd n) = socket_at k n).
Proof.
  intros Ho Hh [s Es]. unfold run_connect, guarded, stale, socket_at, with_tcp. rewrite Es. cbn [mbind option_bind].
  destruct (ss_get (c_handle cmd) s) as [[t|u|c|x]|] eqn:Ex; [right|left; by split..]. set (y := default t _).
  destruct (ss_set_spec _ _ (STcp y) _ Ex) as [G1 G2]. cbn [fst].
  assert (Hp : polled (ss_set (c_handle cmd) (STcp y) s) n).
  { exists s. split; [done|]. intros k. unfold kind_at. destruct (decide (k = c_handle cmd)) as [->|Hk]; [by rewrite G1, Ex|by rewrite G2]. }
  split; [cbn; congruence|]. split; [done|]. split; [by apply kinds_owned|]. exists (ss_set (c_handle cmd) (STcp y) s). split; [done|]. split; [done|]. intros k Hk. cbn. by apply G2.
Qed.
Lemma run_commands_spec fixed n : owned fixed n -> n_halted n = false -> is_Some (n_sockets n) ->
  (n_halted (run_commands n) = true /\ exists cmd, cmd ∈ n_queue n /\ stale cmd n) \/
  (n_halted (run_commands n) = false /\ owned fixed (run_commands n) /\ Forall (fun cmd => ~ stale cmd n) (n_queue n)).
Proof.
  intros Ho Hh Hs. unfold run_commands.
  assert (H : forall q m, owned fixed m -> n_halted m = false -> is_Some (n_sockets m) -> (forall cmd, stale cmd m <-> stale cmd n) ->
    let m' := foldl (fun n cmd => if n_halted n then n else run_connect cmd n) m q in
    (n_halted m' = true /\ exists cmd, cmd ∈ q /\ stale cmd n) \/ (n_halted m' = false /\ owned fixed m' /\ Forall (fun cmd => ~ stale cmd n) q)).
  { induction q as [|cmd q IH]; intros m Hom Hhm Hsm Hst; cbn [foldl]; [right; by split_and!|]. rewrite Hhm.
    destruct (run_connect_spec fixed cmd m Hom Hhm Hsm) as [[Hc H1]|(Hc & H1 & Ho1 & s' & E & Hp & _)].
    - left. assert (Estop : forall q m, n_halted m = true -> foldl (fun n cmd => if n_halted n then n else run_connect cmd n) m q = m).
      { intros q'. induction q' as [|c' q' IH']; intros m' Hm'; cbn [foldl]; [done|]. by rewrite Hm', IH'. }
      cbn zeta. rewrite Estop by done. split; [done|]. exists cmd. split; [by left|]. by apply Hst.
    - assert (Hst' : forall c, stale c (run_connect cmd m) <-> stale c n).
      { intros c. rewrite <- Hst. unfold stale. rewrite E. destruct Hp as (s & Es & Hk). unfold socket_at. cbn. rewrite Es. cbn. specialize (Hk (c_handle c)). unfold kind_at in Hk. by rewrite Hk. }
      assert (Hs1 : is_Some (n_sockets (run_connect cmd m))) by (rewrite E; by eexists).
      destruct (IH _ Ho1 H1 Hs1 Hst') as [[Hh2 (c & Hin & Hc2)]|(Hh2 & Ho2 & Hall)].
      + left. split; [done|]. exists c. split; [by right|done].
      + right. split_and!; [done|done|]. constructor; [|done]. by rewrite <- Hst. }
  apply H; [|done|done|done]. destruct Ho as [O1 O2 O3 O4 O5]. by split.
Qed.

(** ** Histories *)

(** [sys_socket] without a descriptor: the inode is dropped, then its socket removed. *)
Definition unplaced (is_udp is_icmp : bool) n : N :=
  match n_sockets n with
  | None => n
  | Some s => remove_socket (ss_add (fresh_socket is_udp is_icmp) s).2 (drop_socket (n_next n) (created is_udp is_icmp n))
  end.

(** A step of inode [who], of a call that makes one ([None] too), or of the network task. *)
Inductive step (fixed : gset Z) : option Z -> N -> N -> Prop :=
  | s_start s n : n_sockets n = None -> (forall h, is_Some (ss_get h s) <-> h ∈ fixed) -> step fixed None n (set_sockets s n)
  | s_socket is_udp is_icmp n : (is_udp && is_icmp) = false -> step fixed (Some (n_next n)) n (created is_udp is_icmp n)
  | s_unplaced is_udp is_icmp n : (is_udp && is_icmp) = false -> is_Some (n_sockets n) -> step fixed None n (unplaced is_udp is_icmp n)
  | s_method a i f n : live a i n -> method a f -> step fixed (Some a) n (f n)
  | s_accept a i n : live a i n -> kind_of i = KTcp -> step fixed (Some a) n (accept_take a n).1
  | s_drop a i n : live a i n -> step fixed (Some a) n (drop_socket a n)
  | s_polled s n : polled s n -> step fixed None n (set_sockets s n)
  | s_commands n : is_Some (n_sockets n) -> step fixed None n (run_commands n)
  | s_clock t n : step fixed None n (mkNet (n_sockets n) (n_queue n) (n_inodes n) (n_next n) t (n_halted n)).
(** What runs until the kernel stops. *)
Inductive history (fixed : gset Z) (n0 : N) : N -> Prop :=
  | h_start : history fixed n0 n0
  | h_step who n n' : history fixed n0 n -> n_halted n = false -> step fixed who n n' -> history fixed n0 n'.

Lemma unplaced_halts fixed is_udp is_icmp n : owned fixed n -> (is_udp && is_icmp) = false -> is_Some (n_sockets n) -> n_halted (unplaced is_udp is_icmp n) = true.
Proof.
  intros Ho Hb [s Es]. destruct (created_owned fixed is_udp is_icmp n Ho Hb) as [Hc _]. unfold unplaced. rewrite Es. unfold created in *. rewrite Es in *.
  destruct (ss_add (fresh_socket is_udp is_icmp) s) as [s1 h]. cbn [snd]. set (j := mkSocket h is_udp is_icmp None None 0 false) in *. set (m := (new_inode j (set_sockets s1 n)).1) in *.
  assert (Hj : live (n_next n) j m) by (unfold live; cbn; by rewrite lookup_insert_eq).
  destruct (drop_spec fixed (n_next n) j m Hc Hj) as (s2 & s3 & _ & -> & G & _). cbn [s_handle j] in G. unfold remove_socket. cbn. by rewrite ss_remove_none.
Qed.

(** C30. The first thing that stops the kernel is a socket without a descriptor, or a command
    for a socket that is gone; until then each inode owns one socket and each socket of
    the set is owned. *)
Theorem socket_history fixed n0 n : owned fixed n0 -> n_halted n0 = false -> history fixed n0 n ->
  (n_halted n = false /\ owned fixed n) \/
  (n_halted n = true /\ exists m, history fixed n0 m /\ n_halted m = false /\ owned fixed m /\
    ((exists is_udp is_icmp, n = unplaced is_udp is_icmp m) \/ (n = run_commands m /\ exists cmd, cmd ∈ n_queue m /\ stale cmd m))).
Proof.
  intros H0 Hh0. induction 1 as [|who n n' Hn IH Hh Hs]; [by left|]. destruct IH as [[_ Ho]|[Hc _]]; [|congruence].
  assert (Hnear : forall a h m, near a h n m -> (n_halted m = false /\ owned fixed m)) by (intros a h m Hm; split; [by rewrite (ne_halted _ _ _ _ Hm)|by eapply near_owned]).
  destruct Hs as [s n Es Hf|u c n Hb|u c n Hb Es|a i f n Hi Hm|a i n Hi Hk|a i n Hi|s n Hp|n Es|t n].
  - left. split; [done|]. destruct Ho as [O1 O2 O3 O4 O5]. split; try done.
    + intros a i Hi. destruct (O1 a i Hi) as (s0 & E0 & _). congruence.
    + intros s0 h [= <-]. rewrite Hf. split; [by left|]. intros [Hh'|(a & i & Hi & _)]; [done|]. destruct (O1 a i Hi) as (s0 & E0 & _). congruence.
  - left. destruct (created_owned fixed u c n Ho Hb) as [H1 H2]. by rewrite H2.
  - right. split; [by eapply unplaced_halts|]. exists n. split_and!; [done|done|done|]. left. by exists u, c.
  - left. eapply Hnear. by eapply method_near.
  - left. destruct (accept_take_owned fixed a i n Ho Hi Hk) as [H1 H2]. by rewrite H2.
  - left. destruct (drop_owned fixed a i n Ho Hi) as [H1 H2]. by rewrite H2.
  - left. split; [done|]. by apply kinds_owned.
  - destruct (run_commands_spec fixed n Ho Hh Es) as [[H1 H2]|(H1 & H2 & _)]; [right|by left]. split; [done|]. exists n. split_and!; [done|done|done|]. by right.
  - left. split; [done|]. destruct Ho as [O1 O2 O3 O4 O5]. by split.
Qed.

(** A call touches no socket but its own: the inodes of others and their sockets are as
    they were, and so are the sockets of the kernel's services. *)
Theorem socket_isolated fixed a n n' : owned fixed n -> step fixed (Some a) n n' ->
  (forall b j, b <> a -> live b j n -> live b j n' /\ socket_at (s_handle j) n' = socket_at (s_handle j) n) /\
  (forall h, h ∈ fixed -> socket_at h n' = socket_at h n).
Proof.
  intros Ho Hs. inversion Hs as [|u c n1 Hb| |a1 i f n1 Hi Hm|a1 i n1 Hi Hk|a1 i n1 Hi| | |]; subst.
  - unfold created. destruct (n_sockets n) as [s|] eqn:Es; [|by split]. pose proof (ss_add_spec (fresh_socket u c) s) as Ha. destruct (ss_add _ s) as [s' h]. destruct Ha as (G0 & _ & G2).
    destruct (owned_lookup _ _ _ _ Ho Es G0) as [Hf Hl]. split.
    + intros b j Hb' Hj. unfold live, socket_at in *. cbn. rewrite lookup_insert_ne, Es by done. split; [done|]. cbn. apply G2. by eapply Hl.
    + intros k Hk. unfold socket_at. cbn. rewrite Es. cbn. apply G2. by intros ->.
  - pose proof (method_near fixed a f n i Hm Ho Hi) as H. split.
    + intros b j Hb Hj. split; [unfold live in *; by rewrite (ne_others _ _ _ _ H)|]. apply (ne_sockets _ _ _ _ H). intros E. by apply Hb, (ow_inj _ _ Ho b a j i).
    + intros h Hh. apply (ne_sockets _ _ _ _ H). intros ->. by apply (ow_fixed _ _ Ho a i).
  - pose proof (accept_take_spec fixed a i n Ho Hi Hk) as H. destruct (accept_take a n) as [n' [b|e]]; cbn [fst].
    + destruct H as (s & s' & h & t & p & Es & Es' & Ep & El & G0 & G1 & G2 & -> & Em & En & Eh). destruct (owned_lookup _ _ _ _ Ho Es G0) as [Hf Hl]. split.
      * intros c j Hc Hj. unfold live, socket_at in *. rewrite Em, Es, Es'. cbn. rewrite !lookup_insert_ne; [|done|by intros E; eapply (fresh_owned _ _ c); [| |]]. split; [done|]. apply G2. by eapply Hl.
      * intros k Hk'. unfold socket_at. rewrite Es, Es'. cbn. apply G2. by intros ->.
    + split.
      * intros b j Hb Hj. split; [unfold live in *; by rewrite (ne_others _ _ _ _ H)|]. apply (ne_sockets _ _ _ _ H). intros E. by apply Hb, (ow_inj _ _ Ho b a j i).
      * intros h Hh. apply (ne_sockets _ _ _ _ H). intros ->. by apply (ow_fixed _ _ Ho a i).
  - destruct (drop_spec fixed a i n Ho Hi) as (s & s' & Es & -> & _ & G2). split.
    + intros b j Hb Hj. unfold live, socket_at in *. cbn. rewrite Es, lookup_delete_ne by done. split; [done|]. cbn. apply G2. intros E. by apply Hb, (ow_inj _ _ Ho b a j i).
    + intros h Hh. unfold socket_at. cbn. rewrite Es. cbn. apply G2. intros ->. by apply (ow_fixed _ _ Ho a i).
Qed.

(** ** Accepting *)

Lemma accept_check_spec fixed a i n : owned fixed n -> live a i n -> kind_of i = KTcp -> exists t, socket_at (s_handle i) n = Some (STcp t) /\
  (accept_check (s_handle i) n).2 = (if bool_decide (tcp_state t = TcpClosed) then Err IoError
    else if negb (tcp_is_active t && bool_decide (tcp_state t = TcpEstablished)) then Err WouldBlock else Ok tt) /\
  n_inodes (accept_check (s_handle i) n).1 = n_inodes n /\ forall k, socket_at k (accept_check (s_handle i) n).1 = socket_at k n.
Proof.
  intros Ho Hi Hk. destruct (ow_kind _ _ Ho a i Hi) as (s & Es & Ek & _). rewrite Hk in Ek. unfold kind_at in Ek. destruct (ss_get (s_handle i) s) as [[t|u|c|x]|] eqn:Ex; try done.
  exists t. unfold socket_at at 1. rewrite Es. cbn [mbind option_bind]. split; [done|]. unfold accept_check, guarded, with_tcp. rewrite Es, Ex. cbn [fst snd]. split; [done|]. split; [done|].
  intros k. unfold socket_at. cbn. rewrite Es. cbn. destruct (ss_set_spec _ _ (STcp t) _ Ex) as [G1 G2]. destruct (decide (k = s_handle i)) as [->|Hne]; [by rewrite G1, Ex|by apply G2].
Qed.

(** [accept] hands over the socket of the connection, untouched, under a new inode; the
    inode that listens goes on with a new socket on the same port.  Whatever else it
    answers, no inode and no socket has changed. *)
Theorem accept_correct fixed a i n : owned fixed n -> live a i n ->
  match accept a n with
  | (n', Ok b) => exists t l h p, s_udp i || s_icmp i = false /\ s_local_port i = Some p /\
      socket_at (s_handle i) n = Some (STcp t) /\ tcp_state t = TcpEstablished /\ tcp_is_active t = true /\
      n_inodes n !! b = None /\ live b (mkSocket (s_handle i) false false None (Some p) 0 false) n' /\ socket_at (s_handle i) n' = Some (STcp t) /\
      socket_at h n = None /\ live a (set_handle h i) n' /\ tcp_listen p (tcp_new 4096 4096) = Some l /\ socket_at h n' = Some (STcp l)
  | (n', Err e) => n_inodes n' = n_inodes n /\ (forall k, socket_at k n' = socket_at k n) /\
      (e = NotSupported <-> s_udp i || s_icmp i = true) /\
      (e = WouldBlock -> exists t, socket_at (s_handle i) n = Some (STcp t) /\ ~ (tcp_state t = TcpEstablished /\ tcp_is_active t = true))
  end.
Proof.
  intros Ho Hi. unfold accept, mbind, ST_bind, self. rewrite Hi. destruct (s_udp i || s_icmp i) eqn:Eb; [cbn; by split_and!|].
  pose proof (tcp_kind i Eb) as Hk. destruct (accept_check_spec fixed a i n Ho Hi Hk) as (t & Et & E2 & Em & Es).
  pose proof (method_near fixed a _ n i (m_check a) Ho Hi) as Hn. cbn beta in Hn. unfold live in Hi. rewrite Hi, Eb in Hn. pose proof (near_owned _ _ _ _ _ Hn Ho) as Ho1.
  destruct (accept_check (s_handle i) n) as [n1 r]. cbn [fst snd] in *. subst r.
  destruct (bool_decide_reflect (tcp_state t = TcpClosed)); [split_and!; try done; by split|].
  destruct (tcp_is_active t && bool_decide (tcp_state t = TcpEstablished)) eqn:Ea; cbn [negb].
  - apply andb_true_iff in Ea as [Ea Est]. apply bool_decide_eq_true in Est. assert (Hi1 : live a i n1) by (unfold live; by rewrite Em).
    pose proof (accept_take_spec fixed a i n1 Ho1 Hi1 Hk) as H. pose proof (fresh_owned _ _ _ _ Ho1 Hi1) as Hna. destruct (accept_take a n1) as [n' [b|e]] eqn:E.
    + destruct H as (s & s' & h & l & p & Es1 & Es' & Ep & El & G0 & G1 & G2 & -> & Em' & _ & _). exists t, l, h, p.
      assert (Hne : s_handle i <> h). { destruct (owned_lookup _ _ _ _ Ho1 Es1 G0) as [_ Hl]. by eapply Hl. }
      split_and!; try done.
      * rewrite <- Em. destruct (n_inodes n1 !! n_next n1) as [j|] eqn:Ej; [|done]. by destruct (fresh_owned _ _ _ _ Ho1 Ej).
      * unfold live. rewrite Em'. apply lookup_insert_eq.
      * rewrite <- Et, <- Es. unfold socket_at. rewrite Es', Es1. cbn. by apply G2.
      * rewrite <- Es. unfold socket_at. by rewrite Es1.
      * unfold live. rewrite Em', lookup_insert_ne, lookup_insert_eq by done. done.
      * unfold socket_at. rewrite Es'. done.
    + revert E. unfold accept_take, mbind, ST_bind, self. rewrite Hi1. unfold lift. destruct (s_local_port i) as [p|]; cbn [ok_or]; [|intros [= <- <-]; split_and!; try done; by rewrite <- ?Em].
      unfold guarded. destruct (ow_kind _ _ Ho1 a i Hi1) as (s & Es1 & _). rewrite Es1. destruct (tcp_listen p (tcp_new 4096 4096)); [by destruct (ss_add _ s)|].
      intros [= <- <-]. split_and!; try done. intros k. rewrite <- Es. unfold socket_at. cbn. by rewrite Es1.
  - split_and!; try done. intros _. exists t. split; [done|]. intros [E1 E2]. by rewrite E2, bool_decide_true in Ea.
Qed.

(** A timeout is measured within one call, which does not wait: unless the clock moves by
    that much between its two readings, the answer is [WouldBlock]. *)
Lemma timeout_not_reached t0 t1 a n i len : live a i n -> t1 - t0 < s_recv_timeout_ms i -> (read_at t0 t1 a len n).2 <> Err Timeout.
Proof.
  intros Hi Ht. unfold read_at, mbind, ST_bind, self. rewrite Hi. unfold guarded. destruct (n_sockets n) as [s|].
  - set (r := (if s_icmp i then _ else _) s). assert (Hr : forall s' x, r = Some (s', x) -> x <> Err Timeout).
    { intros s' x. unfold r, with_icmp, with_udp, with_tcp. destruct (s_icmp i); [|destruct (s_udp i)]; (destruct (ss_get (s_handle i) s) as [[t|u|c|y]|]; try done).
      - by destruct (receive _ _ c) as [c' d]; intros Er; injection Er as Er1 Er2; rewrite <- Er2.
      - by destruct (receive _ _ u) as [u' d]; intros Er; injection Er as Er1 Er2; rewrite <- Er2.
      - by destruct (receive _ _ t) as [t' [d|]]; intros Er; injection Er as Er1 Er2; rewrite <- Er2; [|destruct (_ || _)]. }
    destruct r as [[s' x]|]; [|done]. specialize (Hr _ _ eq_refl). destruct x as [[d|]|e]; [done| |cbn; congruence]. destruct (_ && _) eqn:E; [|done]. apply andb_true_iff in E as [E1%Z.ltb_lt E2%Z.leb_le]. lia.
  - destruct (_ && _) eqn:E; [|done]. apply andb_true_iff in E as [E1%Z.ltb_lt E2%Z.leb_le]. lia.
Qed.

(** ** What stops the kernel *)

(** A program asks for a connection and closes the socket before the network task gets to
    the command: the task looks up a handle that is gone. *)
Theorem connect_then_close_halts fixed a i ip port n : owned fixed n -> n_halted n = false -> n_queue n = [] -> live a i n -> kind_of i = KTcp ->
  n_halted (run_commands (drop_socket a (connect_tcp (s_handle i) ip port n).1)) = true.
Proof.
  intros Ho Hh Hq Hi Hk. assert (Eb : s_udp i || s_icmp i = false) by (unfold kind_of in Hk; by destruct (s_udp i), (s_icmp i)).
  pose proof (method_near fixed a _ n i (m_connect a ip port) Ho Hi) as Hn. cbn beta in Hn. unfold live in Hi. rewrite Hi, Eb in Hn.
  assert (Eq : n_queue (connect_tcp (s_handle i) ip port n).1 = [mkConnect (s_handle i) ip port]).
  { unfold connect_tcp, mbind, ST_bind, st, guarded. cbn. rewrite Hq. destruct (n_sockets n) as [s|]; [|done]. destruct (with_tcp _ _ s) as [[s' r]|]; done. }
  set (m := (connect_tcp (s_handle i) ip port n).1) in *. pose proof (near_owned _ _ _ _ _ Hn Ho) as Hm. destruct (ne_self _ _ _ _ Hn i Hi) as (j & Hj & Hs).
  destruct (drop_spec fixed a j m Hm Hj) as (s & s' & Es & E & G & _). destruct (drop_owned fixed a j m Hm Hj) as [Ho' Hh']. rewrite (ne_halted _ _ _ _ Hn), Hh in Hh'.
  assert (Hs' : is_Some (n_sockets (drop_socket a m))) by (rewrite E; by eexists).
  destruct (run_commands_spec fixed _ Ho' Hh' Hs') as [[H _]|(_ & _ & H)]; [done|]. exfalso. rewrite E in H. cbn [n_queue set_sockets set_inodes] in H. rewrite Eq in H.
  apply Forall_cons in H as [H _]. apply H. unfold stale, socket_at. cbn. destruct Hs as (-> & _). by rewrite G.
Qed.

(** ** The call *)

Section Call.
Context {F : Type} `{HF : Frame F}.
Implicit Types k : Kernel F (Vfs N Z).

Lemma insert_world (f : OpenFile Z) p t (v : Vfs N Z) : v_tables v !! p = Some t -> len t <= MAX_OPEN_FILES ->
  match fd_insert f t with
  | (t', Ok fd) => exists v', on_table p (fd_insert f) v = (v', Ok fd) /\ v_world v' = v_world v /\ v_tables v' = <[p := t']> (v_tables v)
  | (_, Err e) => exists v', on_table p (fd_insert f) v = (v', Err e) /\ v_world v' = v_world v
  end.
Proof.
  intros Et Hl. pose proof (fd_insert_spec f t Hl) as Hs. unfold on_table. rewrite Et. destruct (fd_insert f t) as [t' [fd|e]].
  - eexists. split; [done|]. split; [|done]. apply set_tables_keep. intros i (q & u & c & g & Hq & Hg & <-)%handles_elem. apply handles_elem.
    destruct Hs as (Hs' & _ & _ & Hget). destruct (decide (q = p)) as [->|Hqp].
    + rewrite Et in Hq. injection Hq as <-. destruct (decide (c = fd)) as [->|Hc].
      * exfalso. destruct Hs' as (_ & Hn & _). by rewrite Hn in Hg.
      * exists p, t', c, g. rewrite lookup_insert_eq, Hget, decide_False by done. done.
    + exists q, u, c, g. by rewrite lookup_insert_ne by done.
  - destruct Hs as (-> & -> & _). eexists. split; [done|]. apply set_tables_keep. rewrite insert_id by done. done.
Qed.

(** C31. [socket] with a free descriptor: the new socket is behind it, nothing else has
    changed and every socket is owned.  Without one, the kernel stops: the inode has
    already removed its socket when the call removes it again. *)
Theorem socket_call_correct fixed args k s t : let v := k_fds k in let n := v_world v in let p := pid_or_0 (caller_of k) in
  let ty := as_i32 (arg args 1) in let is_icmp := (ty =? 3) || (as_i32 (arg args 2) =? 1) in let is_udp := (ty =? 2) && negb is_icmp in
  owned fixed n -> n_halted n = false -> n_sockets n = Some s -> v_tables v !! p = Some t -> len t <= MAX_OPEN_FILES ->
  as_i32 (arg args 0) = 2 -> 1 <= ty <= 3 ->
  match sys_socket args k, fd_insert (mkOpenFile (n_next n) 0 true true false) t with
  | (k', r), (t', Ok fd) => r = Replied fd /\ v_world (k_fds k') = created is_udp is_icmp n /\ owned fixed (v_world (k_fds k')) /\
      n_halted (v_world (k_fds k')) = false /\ v_tables (k_fds k') = <[p := t']> (v_tables v)
  | (k', r), (_, Err _) => v_world (k_fds k') = unplaced is_udp is_icmp n /\ n_halted (v_world (k_fds k')) = true
  end.
Proof.
  intros v n p ty is_icmp is_udp Ho Hh Es Et Hl Hd Hty. assert (Hb : (is_udp && is_icmp) = false) by (unfold is_udp; by destruct is_icmp, (ty =? 2)).
  unfold sys_socket. rewrite Hd. fold ty. change ((ty =? 3) || (as_i32 (arg args 2) =? 1)) with is_icmp. change ((ty =? 2) && negb is_icmp) with is_udp.
  assert (Ev : (negb (2 =? 2) || (negb (ty =? 1) && negb (ty =? 2) && negb (ty =? 3) && negb (as_i32 (arg args 2) =? 1))) = false).
  { destruct (Z.eqb_spec ty 1), (Z.eqb_spec ty 2), (Z.eqb_spec ty 3); try done. lia. }
  rewrite Ev. unfold on_net at 1. cbn [net_of socket_world]. unfold guarded. fold v n. rewrite Es. destruct (created_owned fixed is_udp is_icmp n Ho Hb) as [Hc1 Hc2].
  pose proof (unplaced_halts fixed is_udp is_icmp n Ho Hb ltac:(by eexists)) as Hu. unfold created in Hc1, Hc2. rewrite Es in Hc1, Hc2. unfold created at 1, unplaced. unfold unplaced in Hu. rewrite Es in Hu |- *. unfold created in *. rewrite Es in *.
  destruct (ss_add (fresh_socket is_udp is_icmp) s) as [s1 h]. cbn [snd] in *. set (j := mkSocket h is_udp is_icmp None None 0 false) in *.
  unfold sys_socket_fd, on_net. cbn [net_of set_net sock socket_world k_fds k_set_fds set_world v_world new_inode]. fold j.
  set (m := (new_inode j (set_sockets s1 n)).1) in *. cbn [n_next set_sockets].
  set (k1 := k_set_fds _ _). assert (E1 : via_vfs (fun _ => open_new (n_next n) RDWR) k1 = (k1, Ok (mkOpenFile (n_next n) 0 true true false))) by (unfold via_vfs, open_new; cbn; done).
  rewrite E1. unfold via_vfs, insert_open_file. change (caller_of k1) with (caller_of k). fold p.
  pose proof (insert_world (mkOpenFile (n_next n) 0 true true false) p t (k_fds k1) Et Hl) as Hi. destruct (fd_insert _ t) as [t' [fd|e]].
  - destruct Hi as (v' & -> & Ew & Etb). cbn [k_fds k_set_fds]. rewrite Ew, Etb. split_and!; done.
  - destruct Hi as (v' & -> & Ew). unfold fail_with, drop_inode. cbn [fst k_fds k_set_fds set_world v_world]. rewrite Ew. split; [done|]. exact Hu.
Qed.
End Call.
End SocketOps.

(** ** A small stack

    A set is a list with gaps, which new sockets fill; a TCP socket is its state with the
    peer it was connected to, and a connection is made at once. *)

Record Tcp : Type := mkTcp { t_state : TcpState; t_peer : option Endpoint; t_in : list Z; t_out : list Z }.
Definition Any : Type := AnySocket Tcp (list Z) (list Z) unit.
Fixpoint slots_add (x : Any) (l : list (option Any)) : list (option Any) * nat :=
  match l with
  | [] => ([Some x], O)
  | None :: l => (Some x :: l, O)
  | Some y :: l => let '(l, i) := slots_add x l in (Some y :: l, S i)
  end.
Definition slots_get (h : Z) (l : list (option Any)) : option Any := if h <? 0 then None else mjoin (l !! Z.to_nat h).

#[export] Instance small_stack : Smoltcp (list (option Any)) Tcp (list Z) (list Z) unit := {
  tcp_new _ _ := mkTcp TcpClosed None [] [];
  tcp_listen p t := if p =? 0 then None else Some (mkTcp TcpListen None [] []);
  tcp_connect ep _ t := if bool_decide (t_state t = TcpClosed) then Some (mkTcp TcpEstablished (Some ep) (t_in t) (t_out t)) else None;
  tcp_state := t_state;
  tcp_is_open t := negb (bool_decide (t_state t = TcpClosed));
  tcp_is_active t := bool_decide (t_state t = TcpEstablished);
  tcp_has_remote t := bool_decide (is_Some (t_peer t));
  tcp_can_recv t := negb (bool_decide (t_in t = []));
  tcp_can_send t := bool_decide (t_state t = TcpEstablished);
  tcp_may_recv t := bool_decide (t_state t = TcpEstablished);
  tcp_may_send t := bool_decide (t_state t = TcpEstablished);
  tcp_recv n t := Some (mkTcp (t_state t) (t_peer t) (drop (Z.to_nat n) (t_in t)) (t_out t), take (Z.to_nat n) (t_in t));
  tcp_send d t := Some (mkTcp (t_state t) (t_peer t) (t_in t) (t_out t ++ d), len d);
  tcp_close t := mkTcp TcpClosed (t_peer t) (t_in t) (t_out t);
  udp_new := [];
  udp_bind p u := if p =? 0 then None else Some u;
  udp_can_recv u := negb (bool_decide (u = []));
  udp_can_send _ := true;
  udp_recv n u := Some ([], take (Z.to_nat n) u);
  udp_send d _ u := Some d;
  icmp_new := [];
  icmp_bind _ c := Some c;
  icmp_can_recv c := negb (bool_decide (c = []));
  icmp_can_send _ := true;
  icmp_recv n c := Some ([], take (Z.to_nat n) c);
  icmp_send d _ c := Some d;
  ss_add x l := let '(l, i) := slots_add x l in (l, Z.of_nat i);
  ss_get := slots_get;
  ss_set h x l := <[Z.to_nat h := Some x]> l;
  ss_remove h l := match slots_get h l with Some _ => Some (<[Z.to_nat h := None]> l) | None => None end;
}.

Lemma slots_add_spec x l : let '(l', i) := slots_add x l in mjoin (l !! i) = None /\ l' !! i = Some (Some x) /\ forall k, k <> i -> mjoin (l' !! k) = mjoin (l !! k).
Proof.
  induction l as [|[y|] l IH]; cbn [slots_add].
  - split; [done|]. split; [done|]. intros [|k] Hk; [done|]. by destruct k.
  - destruct (slots_add x l) as [l' i]. destruct IH as (I1 & I2 & I3). split; [done|]. split; [done|]. intros [|k] Hk; [done|]. cbn. apply I3. congruence.
  - split; [done|]. split; [done|]. by intros [|k] Hk.
Qed.
Lemma slots_put h x y l : slots_get h l = Some x -> slots_get h (<[Z.to_nat h := y]> l) = y /\ forall k, k <> h -> slots_get k (<[Z.to_nat h := y]> l) = slots_get k l.
Proof.
  unfold slots_get. destruct (Z.ltb_spec h 0); [done|]. intros E. assert (Hl : (Z.to_nat h < length l)%nat).
  { apply lookup_lt_is_Some. destruct (l !! Z.to_nat h); [by eexists|done]. }
  rewrite list_lookup_insert_eq by done. split; [by destruct y|]. intros k Hk. destruct (Z.ltb_spec k 0); [done|]. by rewrite list_lookup_insert_ne by lia.
Qed.
#[export] Instance small_laws : SmoltcpLaws (list (option Any)) Tcp (list Z) (list Z) unit.
Proof.
  split; cbn.
  - intros x l. pose proof (slots_add_spec x l) as H. destruct (slots_add x l) as [l' i]. destruct H as (H1 & H2 & H3). unfold slots_get.
    destruct (Z.ltb_spec (Z.of_nat i) 0); [lia|]. rewrite Nat2Z.id, H1, H2. split; [done|]. split; [done|]. intros k Hk. destruct (Z.ltb_spec k 0); [done|]. apply H3. lia.
  - intros h x y s E. by apply (slots_put h x (Some y)).
  - intros h x s E. rewrite E. eexists. split; [done|]. by apply (slots_put h x None).
  - intros h s E. by rewrite E.
Qed.

(** The services of the kernel: DHCP and a socket that listens. *)
Definition services : gset Z := {[0; 1]}.
Definition net0 : Net (list (option Any)) := mkNet (Some [Some (SOther tt); Some (STcp (mkTcp TcpListen None [] []))]) [] ∅ 0 0 false.
Lemma net0_owned : owned services net0.
Proof.
  split; try done. intros s h [= <-]. unfold services. cbn. unfold slots_get. rewrite elem_of_union, !elem_of_singleton. split.
  - intros [x Hx]. left. destruct (Z.ltb_spec h 0); [done|]. destruct (Z.to_nat h) as [|[|[|n]]] eqn:E; cbn in Hx; [lia|lia|done|done].
  - intros [[-> | ->]|(a & i & Hi & _)]; [by eexists|by eexists|done].
Qed.
(** A TCP socket, which is inode 0 with the socket 2; and one of UDP behind it. *)
Definition net1 : Net (list (option Any)) := created false false net0.
Definition net2 : Net (list (option Any)) := created true false net1.
Lemma net1_owned : owned services net1.
Proof. apply (created_owned services false false net0 net0_owned). reflexivity. Qed.
Lemma net2_owned : owned services net2.
Proof. apply (created_owned services true false net1 net1_owned). reflexivity. Qed.

Definition socket0 : SocketInode := mkSocket 2 false false None None 0 false.

(** A command outlives its socket: what connects is the next socket with its handle. *)
Example connect_hijacks : let n := run_commands (created false false (drop_socket 0 (connect_tcp 2 [10; 0; 0; 7] 80 net1).1)) in
  n_halted n = false /\ n_inodes n !! 0 = None /\ s_handle <$> n_inodes n !! 1 = Some 2 /\ (t_peer <$> match socket_at 2 n with Some (STcp t) => Some t | _ => None end) = Some (Some ([10; 0; 0; 7], 80)).
Proof. vm_compute. by split_and!. Qed.

Lemma socket_history_witness : let n := run_commands (drop_socket 0 (connect_tcp 2 [10; 0; 0; 7] 80 net1).1) in
  (n_halted n = false /\ owned services n) \/ n_halted n = true.
Proof.
  destruct (socket_history services net0 (run_commands (drop_socket 0 (connect_tcp 2 [10; 0; 0; 7] 80 net1).1))) as [H|[H _]].
  - apply net0_owned.
  - reflexivity.
  - eapply (h_step services net0 None (drop_socket 0 (connect_tcp 2 [10; 0; 0; 7] 80 net1).1)); [|reflexivity|apply s_commands; by eexists].
    eapply (h_step services net0 (Some 0) (connect_tcp 2 [10; 0; 0; 7] 80 net1).1); [|reflexivity|apply (s_drop services 0 socket0); reflexivity].
    eapply (h_step services net0 (Some 0) net1); [|reflexivity|exact (s_method services 0 socket0 (fun n => match n_inodes n !! 0 with Some i => if s_udp i || s_icmp i then n else (connect_tcp (s_handle i) [10; 0; 0; 7] 80 n).1 | None => n end) net1 eq_refl (m_connect 0 [10; 0; 0; 7] 80))].
    eapply (h_step services net0 (Some 0) net0); [apply h_start|reflexivity|apply (s_socket services false false net0); reflexivity].
  - by left.
  - by right.
Defined.
Lemma socket_isolated_witness : socket_at 3 (write_at 0 [1; 2; 3] net2).1 = socket_at 3 net2.
Proof.
  destruct (socket_isolated services 0 net2 (write_at 0 [1; 2; 3] net2).1) as [H _].
  - apply net2_owned.
  - exact (s_method services 0 socket0 (fun n => (write_at 0 [1; 2; 3] n).1) net2 eq_refl (m_write 0 [1; 2; 3])).
  - apply (H 1 (mkSocket 3 true false None None 0 false)); [lia|reflexivity].
Defined.

(** Inode 0 bound to a port, with a connection on its socket. *)
Definition socket0_bound : SocketInode := mkSocket 2 false false None (Some 8080) 0 false.
Definition net_bound : Net (list (option Any)) := (bind 0 8080 net1).1.
Definition net_connected : Net (list (option Any)) :=
  set_sockets [Some (SOther tt); Some (STcp (mkTcp TcpListen None [] [])); Some (STcp (mkTcp TcpEstablished None [104; 105] []))] net_bound.
Lemma net_connected_owned : owned services net_connected.
Proof.
  apply kinds_owned.
  - eexists. split; [reflexivity|]. intros k. unfold kind_at. cbn. unfold slots_get. destruct (k <? 0); [done|]. by destruct (Z.to_nat k) as [|[|[|[|n]]]].
  - apply (near_owned services 0 2 net1); [|apply net1_owned]. apply (method_near services 0 (fun n => (bind 0 8080 n).1) net1 socket0); [apply (m_bind 0 8080)|apply net1_owned|reflexivity].
Qed.

Lemma accept_correct_witness : exists n' b t, accept 0 net_connected = (n', Ok b) /\ socket_at 2 net_connected = Some (STcp t) /\ socket_at 2 n' = Some (STcp t).
Proof.
  pose proof (accept_correct services 0 socket0_bound net_connected net_connected_owned eq_refl) as H. destruct (accept 0 net_connected) as [n' [b|e]] eqn:E.
  - destruct H as (t & l & h & p & _ & _ & Et & _ & _ & _ & _ & Et' & _). by exists n', b, t.
  - exfalso. vm_compute in E. discriminate E.
Defined.
Lemma connect_then_close_halts_witness : n_halted (run_commands (drop_socket 0 (connect_tcp 2 [10; 0; 0; 7] 80 net1).1)) = true.
Proof. apply (connect_then_close_halts services 0 socket0 [10; 0; 0; 7] 80 net1 net1_owned); reflexivity. Defined.

(** A process with a table of [files]. *)
Definition socket_kernel (files : nat) : Kernel SmallFrame (Vfs (Net (list (option Any))) Z) :=
  mkKernel (w_g (do_events test_boot test_events)) (mkTable ∅ ∅ 1) 0 (mkVfs net0 {[ 0 := replicate files (Some (mkOpenFile 7 0 true true false)) ]} []) (fun _ => 0) 0x3C000000.
Lemma socket_call_correct_witness : (exists k, sys_socket [2; 1; 0] (socket_kernel 3) = (k, Replied 3) /\ owned services (v_world (k_fds k))) /\
  n_halted (v_world (k_fds (sys_socket [2; 1; 0] (socket_kernel 64)).1)) = true.
Proof.
  split.
  - pose proof (socket_call_correct services [2; 1; 0] (socket_kernel 3) [Some (SOther tt); Some (STcp (mkTcp TcpListen None [] []))] (replicate 3 (Some (mkOpenFile 7 0 true true false)))
      net0_owned eq_refl eq_refl eq_refl ltac:(vm_compute; discriminate) eq_refl ltac:(vm_compute; split; discriminate)) as H.
    destruct (sys_socket [2; 1; 0] (socket_kernel 3)) as [k r]. change (fd_insert _ _) with (replicate 3 (Some (mkOpenFile 7 0 true true false)) ++ [Some (mkOpenFile 0 0 true true false)], Ok 3) in H.
    cbv beta iota in H. destruct H as (-> & _ & H & _). by exists k.
  - pose proof (socket_call_correct services [2; 1; 0] (socket_kernel 64) [Some (SOther tt); Some (STcp (mkTcp TcpListen None [] []))] (replicate 64 (Some (mkOpenFile 7 0 true true false)))
      net0_owned eq_refl eq_refl eq_refl ltac:(vm_compute; discriminate) eq_refl ltac:(vm_compute; split; discriminate)) as H.
    destruct (sys_socket [2; 1; 0] (socket_kernel 64)) as [k r]. change (fd_insert _ _) with (replicate 64 (Some (mkOpenFile 7 0 true true false)), Err TableFull : KResult Z) in H.
    cbv beta iota in H. by destruct H as [_ H].
Defined.
