(* ===== verification/Wlan.v ===== *)
(** * Wlan: the wireless network (kernel/src/drivers/wifi.rs)

    The device /dev/wlan0, the commands it queues, and what the network task makes of
    them, of the events of DHCP and of the state of the link.  The radio (esp-wifi) is
    the class [Radio]; the flash holds the credentials (WifiStore.v).  The sockets of the
    task are in Socket.v. *)

From S2P Require Import Prelude Flash Sched Process Syscall HostKeyStore WifiStore NvsOps Text Format.

Open Scope Z_scope.

(* @src kernel/src/drivers/wifi.rs 60-64 WifiCmd *)
Inductive WifiCmd : Type := Scan | Connect (ssid password : string) | Disconnect.
(* @src kernel/src/drivers/wifi.rs 67-73 ApInfo *)
Record ApInfo := mkAp { ap_ssid : string; ap_rssi : Z; ap_channel : Z; ap_secured : bool }.
(* @src kernel/src/drivers/wifi.rs 266-275 WifiStatus *)
Inductive WifiStatus : Type := Down | Connecting | Connected | Failed.
#[export] Instance WifiStatus_eq_dec : EqDecision WifiStatus.
Proof. solve_decision. Defined.

(* @src kernel/src/drivers/wifi.rs 76-79 SCAN_IDLE .. SCAN_ERROR *)
Definition SCAN_IDLE : Z := 0.
Definition SCAN_RUNNING : Z := 1.
Definition SCAN_DONE : Z := 2.
Definition SCAN_ERROR : Z := 3.
(* @src kernel/src/drivers/wifi.rs 125-132 WLAN_NOP .. WLAN_PASS_MAX *)
Definition WLAN_NOP : Z := 0.
Definition WLAN_CONNECT : Z := 1.
Definition WLAN_DISCONNECT : Z := 2.
Definition WLAN_SCAN : Z := 3.
Definition WLAN_SSID_MAX : Z := 32.
Definition WLAN_PASS_MAX : Z := 64.
(* @src kernel/src/drivers/wifi.rs 40-40 LINK_CHECK_MS *)
Definition LINK_CHECK_MS : Z := 5000.

(** The statics: the queue, the results and the state of the last scan and its
    diagnosis, the address, the name of the network and the status. *)
(* @src kernel/src/drivers/wifi.rs 65-90 WIFI_CMD_QUEUE .. CURRENT_SSID *)
Record Wlan := mkWlan {
  wl_cmds : list WifiCmd;
  wl_results : list ApInfo;
  wl_scan : Z;
  wl_diag : string;
  wl_ip : option (list Z);
  wl_ssid : option string;
  wl_status : Z;
}.
Definition set_cmds q w := mkWlan q (wl_results w) (wl_scan w) (wl_diag w) (wl_ip w) (wl_ssid w) (wl_status w).
Definition set_scan st diag w := mkWlan (wl_cmds w) (wl_results w) st diag (wl_ip w) (wl_ssid w) (wl_status w).
Definition set_results aps w := mkWlan (wl_cmds w) aps (wl_scan w) (wl_diag w) (wl_ip w) (wl_ssid w) (wl_status w).
Definition set_ip ip w := mkWlan (wl_cmds w) (wl_results w) (wl_scan w) (wl_diag w) ip (wl_ssid w) (wl_status w).
Definition set_ssid s w := mkWlan (wl_cmds w) (wl_results w) (wl_scan w) (wl_diag w) (wl_ip w) s (wl_status w).

(* @src kernel/src/drivers/wifi.rs 284-292 set_status *)
Definition set_status (s : WifiStatus) w : Wlan :=
  mkWlan (wl_cmds w) (wl_results w) (wl_scan w) (wl_diag w) (wl_ip w) (wl_ssid w) (match s with Down => 0 | Connecting => 1 | Connected => 2 | Failed => 3 end).
(* @src kernel/src/drivers/wifi.rs 294-301 status *)
Definition status w : WifiStatus := if wl_status w =? 1 then Connecting else if wl_status w =? 2 then Connected else if wl_status w =? 3 then Failed else Down.

(* @src kernel/src/drivers/wifi.rs 92-96 request_scan *)
Definition request_scan w : Wlan := set_cmds (wl_cmds w ++ [Scan]) (set_scan SCAN_RUNNING "queued" w).
(* @src kernel/src/drivers/wifi.rs 104-108 request_connect *)
Definition request_connect ssid password w : Wlan := set_cmds (wl_cmds w ++ [Connect ssid password]) w.
(* @src kernel/src/drivers/wifi.rs 109-111 request_disconnect *)
Definition request_disconnect w : Wlan := set_cmds (wl_cmds w ++ [Disconnect]) w.

(** ** The device *)

Definition num_at (l : list Z) (i : Z) : Arg := Num (at_ l i).
(* @src kernel/src/drivers/wifi.rs 228-235 wlan_snapshot (network) *)
Definition ap_line (ap : ApInfo) : string := fmt "ap: {}\t{}\t{}\t{}\n" [Str (ap_ssid ap); Num (ap_rssi ap); Num (ap_channel ap); Str (if ap_secured ap then "secure" else "open")].
(* @src kernel/src/drivers/wifi.rs 207-239 wlan_snapshot *)
Definition wlan_snapshot w : string :=
  let st := match status w with Down => "Down" | Connecting => "Connecting" | Connected => "Connected" | Failed => "Failed" end%string in
  let ssid := default "-"%string (wl_ssid w) in
  let ip := match wl_ip w with Some a => fmt "{}.{}.{}.{}" [num_at a 0; num_at a 1; num_at a 2; num_at a 3] | None => "0.0.0.0"%string end in
  let scan := if wl_scan w =? SCAN_IDLE then "idle" else if wl_scan w =? SCAN_RUNNING then "running" else if wl_scan w =? SCAN_DONE then "done" else "error" in
  fmt "state: {}\nssid: {}\nip: {}\nscan: {}\n" [Str st; Str ssid; Str ip; Str scan%string] +:+
  (if wl_scan w =? SCAN_DONE then String.concat "" (ap_line <$> wl_results w) else "").

(* @src kernel/src/drivers/wifi.rs 148-158 WlanDevice::read *)
Definition wlan_read (off n : Z) w : list Z :=
  let bytes := as_bytes (wlan_snapshot w) in
  let start := u32 off in
  if len bytes <=? start then [] else slice start (Z.min (len bytes - start) n) bytes.
(* @src kernel/src/drivers/wifi.rs 160-162 WlanDevice::write *)
Definition wlan_write (off : Z) (buf : list Z) : ST Wlan Z := fail NotSupported.

Section Ioctl.
Context {F : Type} `{Frame F} {D : Type} `{FdTables D}.
(** A request that is queued, with the answer 0. *)
Definition queued (f : Wlan -> Wlan) : ST Wlan Z := fun w => (f w, Ok 0).
(** The texts of a request, copied out of the memory of the caller. *)
(* @src kernel/src/drivers/wifi.rs 167-188 WlanDevice::ioctl (WLAN_CONNECT) *)
Definition wlan_request (arg : Z) (k : Kernel F D) : KResult (string * string) :=
  _ ← validate_user arg 16 k;
  let ssid_ptr := read_word (k_mem k) arg in
  let ssid_len := read_word (k_mem k) (arg + 4) in
  let pass_ptr := read_word (k_mem k) (arg + 8) in
  let pass_len := read_word (k_mem k) (arg + 12) in
  if (ssid_len =? 0) || (WLAN_SSID_MAX <? ssid_len) || (WLAN_PASS_MAX <? pass_len) then Err InvalidArgument
  else
    _ ← validate_user ssid_ptr ssid_len k;
    _ ← validate_user pass_ptr pass_len k;
    ssid ← ok_or (from_utf8 (read_mem (k_mem k) ssid_ptr (Z.to_nat ssid_len))) InvalidArgument;
    pass ← ok_or (from_utf8 (read_mem (k_mem k) pass_ptr (Z.to_nat pass_len))) InvalidArgument;
    Ok (ssid, pass).
(* @src kernel/src/drivers/wifi.rs 164-202 WlanDevice::ioctl *)
Definition wlan_ioctl (cmd arg : Z) (k : Kernel F D) : ST Wlan Z :=
  if cmd =? WLAN_NOP then mret 0
  else if cmd =? WLAN_CONNECT then req ← lift (wlan_request arg k); queued (request_connect req.1 req.2)
  else if cmd =? WLAN_DISCONNECT then queued request_disconnect
  else if cmd =? WLAN_SCAN then queued request_scan
  else fail InvalidArgument.
End Ioctl.

(** ** The network task

    [r_scan] answers the networks or the text of an error; [r_ssid_max] and
    [r_pass_max] are the capacities of the texts of a configuration. *)
Class Radio (C : Type) := {
  r_disconnect : C -> C;
  r_connect : C -> C;
  r_scan : C -> C * (string + list ApInfo);
  r_configure : string -> string -> bool -> C -> C * bool;
  r_connected : C -> C * bool;
  r_ssid_max : Z;
  r_pass_max : Z;
  r_uptime_ms : C -> Z;
}.

Section Task.
Context {C : Type} `{HR : !Radio C} {D : Type} `{HD : NorFlash D}.
Record Node := mkNode { nd_wlan : Wlan; nd_radio : C; nd_flash : D }.
Definition on_wlan (f : Wlan -> Wlan) (s : Node) : Node := mkNode (f (nd_wlan s)) (nd_radio s) (nd_flash s).
Definition on_radio (f : C -> C) (s : Node) : Node := mkNode (nd_wlan s) (f (nd_radio s)) (nd_flash s).

(** At most three attempts; between them the task waits. *)
(* @src kernel/src/drivers/wifi.rs 355-371 process_wifi_cmd (scan) *)
Fixpoint scan_loop (attempts : nat) (c : C) : C * (string + list ApInfo) :=
  match r_scan c with
  | (c, inr aps) => (c, inr aps)
  | (c, inl e) => match attempts with S (S n as m) => scan_loop m c | _ => (c, inl e) end
  end.

(** Does the DHCP client have to start again? *)
(* @src kernel/src/drivers/wifi.rs 343-440 process_wifi_cmd *)
Definition process_wifi_cmd (wc : WifiCmd) (s : Node) : Node * bool :=
  match wc with
  | Scan =>
    let s := on_wlan (set_ip None) (on_radio r_disconnect (on_wlan (fun w => set_scan (wl_scan w) "started" w) s)) in
    let t0 := r_uptime_ms (nd_radio s) in
    let '(c, scan) := scan_loop 3 (nd_radio s) in
    let ms := Z.max 0 (r_uptime_ms c - t0) in
    let w := match scan with
      | inr aps => set_scan SCAN_DONE (fmt "{} APs in {} ms" [Num (len aps); Num ms]) (set_results aps (nd_wlan s))
      | inl e => set_scan SCAN_ERROR (fmt "error {:?} after {} ms" [Str e; Num ms]) (nd_wlan s)
      end in
    (mkNode w (r_connect c) (nd_flash s), true)
  | Connect ssid password =>
    if (r_ssid_max <? str_len ssid) || (r_pass_max <? str_len password) then (s, false)
    else
      let c := r_disconnect (nd_radio s) in
      match r_configure ssid password (bool_decide (password = ""%string)) c with
      | (c, false) => (mkNode (nd_wlan s) c (nd_flash s), false)
      | (c, true) =>
        let '(d, _) := save ssid password (nd_flash s) in
        (mkNode (set_status Connecting (set_ip None (set_ssid (Some ssid) (nd_wlan s)))) (r_connect c) d, true)
      end
  | Disconnect => (on_wlan (set_status Down) (on_wlan (set_ip None) (on_radio r_disconnect s)), true)
  end.

(** The credentials of the flash, or those the kernel was built with. *)
(* @src kernel/src/drivers/wifi.rs 482-485 net_task (credentials) *)
Definition boot_credentials (built : string * string) (d : D) : string * string := default built (load d).

(** What the task remembers between its rounds. *)
(* @src kernel/src/drivers/wifi.rs 599-605 net_task (state) *)
Record Link := mkLink { have_ip : bool; associated : bool; dhcp_reset : bool; next_check : Z }.
Definition set_have_ip b l := mkLink b (associated l) (dhcp_reset l) (next_check l).

(** The commands of a round: the queue is taken whole, then each is done; the answer is
    whether the DHCP client starts again. *)
(* @src kernel/src/drivers/wifi.rs 614-629 net_task (wifi commands) *)
Definition do_wifi_cmds (l : Link) (s : Node) : Link * Node * bool :=
  foldl (fun '(l, s, again) wc => let '(s, b) := process_wifi_cmd wc s in if b then (set_have_ip false l, s, true) else (l, s, again))
    (l, on_wlan (set_cmds []) s, false) (wl_cmds (nd_wlan s)).

(** An event of DHCP; [Configured] with the address the interface has then. *)
Inductive DhcpEvent : Type := Configured (addr : option (list Z)) | Deconfigured.
(* @src kernel/src/drivers/wifi.rs 673-705 net_task (DHCP) *)
Definition on_dhcp (ev : DhcpEvent) (l : Link) (w : Wlan) : Link * Wlan :=
  match ev with
  | Configured addr =>
    if have_ip l then (l, w)
    else (set_have_ip true l, match addr with Some ip => set_status Connected (set_ip (Some ip) w) | None => w end)
  | Deconfigured => (set_have_ip false l, let w := set_ip None w in if bool_decide (status w = Connected) then set_status Connecting w else w)
  end.

(* @src kernel/src/drivers/wifi.rs 826-847 net_task (link check) *)
Definition link_check (l : Link) (s : Node) : Link * Node :=
  if r_uptime_ms (nd_radio s) <? next_check l then (l, s)
  else
    let '(c, connected) := r_connected (nd_radio s) in
    let s := mkNode (nd_wlan s) c (nd_flash s) in
    let next := Z.min (r_uptime_ms c + (if connected then LINK_CHECK_MS else 1000)) U64_MAX in
    if connected then (if associated l then mkLink (have_ip l) true (dhcp_reset l) next else mkLink (have_ip l) true true next, s)
    else
      let '(l, s) := if associated l then (mkLink false false (dhcp_reset l) next, on_wlan (set_ip None) s) else (mkLink (have_ip l) false (dhcp_reset l) next, s) in
      (l, on_radio r_connect (on_wlan (set_status Connecting) s)).
End Task.
Arguments Node : clear implicits.

(** ** What is shown *)

Section Shown.
Context {F : Type} `{Frame F} {DT : Type} `{FdTables DT}.

(** A request to connect queues exactly the texts that the caller named, which are in its
    memory and within their limits; a request that is refused changes nothing. *)
Theorem wlan_request_exact (arg : Z) (k : Kernel F DT) w : (forall a, is_byte (k_mem k a)) ->
  let word i := read_word (k_mem k) (arg + i) in
  match wlan_ioctl WLAN_CONNECT arg k w with
  | (w', Ok n) => n = 0 /\ exists ssid pass, w' = set_cmds (wl_cmds w ++ [Connect ssid pass]) w /\
      as_bytes ssid = read_mem (k_mem k) (word 0) (Z.to_nat (word 4)) /\ as_bytes pass = read_mem (k_mem k) (word 8) (Z.to_nat (word 12)) /\
      0 <> word 4 /\ word 4 <= 32 /\ word 12 <= 64 /\ is_str ssid /\ is_str pass /\
      validate_user arg 16 k = Ok tt /\ validate_user (word 0) (word 4) k = Ok tt /\ validate_user (word 8) (word 12) k = Ok tt
  | (w', Err e) => w' = w /\ (e = Fault \/ e = InvalidArgument)
  end.
Proof.
  intros Hmem. cbn zeta. unfold wlan_ioctl. change (WLAN_CONNECT =? WLAN_NOP) with false. change (WLAN_CONNECT =? WLAN_CONNECT) with true. cbv iota. unfold mbind, ST_bind, lift, queued.
  assert (Hv : forall p n e, validate_user p n k = Err e -> e = Fault).
  { intros p n e. unfold validate_user. destruct (n =? 0); [done|]. destruct (checked_add32 p n) as [end_|]; cbn; [|congruence].
    unfold user_region_end. destruct (p =? 0); [cbn; congruence|]. destruct (negb (current_task_is_user (k_sched k))); [done|].
    destruct (current_stack_range (k_sched k)) as [[lo hi]|]; [destruct ((lo <=? p) && (p <? hi)); [cbn; destruct (end_ <=? hi); congruence|]|];
      (destruct (current_slot k); [|cbn; congruence]); (destruct (_ && _); [|cbn; congruence]); cbn; destruct (end_ <=? _); congruence. }
  unfold wlan_request. destruct (validate_user arg 16 k) as [[]|e] eqn:E1; cbn [mbind KResult_bind]; [|split; [done|left; by eapply Hv]]. rewrite Z.add_0_r.
  destruct ((_ || _) || _) eqn:El; [split; [done|by right]|]. rewrite !orb_false_iff, Z.eqb_neq, !Z.ltb_ge in El. destruct El as [[L1 L2] L3].
  destruct (validate_user (read_word _ arg) _ k) as [[]|e] eqn:E2; cbn [mbind KResult_bind]; [|split; [done|left; by eapply Hv]].
  destruct (validate_user (read_word _ (arg + 8)) _ k) as [[]|e] eqn:E3; cbn [mbind KResult_bind]; [|split; [done|left; by eapply Hv]].
  destruct (from_utf8 (read_mem _ (read_word _ arg) _)) as [ssid|] eqn:E4; cbn [mbind KResult_bind ok_or]; [|split; [done|by right]].
  destruct (from_utf8 (read_mem _ (read_word _ (arg + 8)) _)) as [pass|] eqn:E5; cbn [mbind KResult_bind ok_or]; [|split; [done|by right]].
  assert (Hstr : forall p n t, from_utf8 (read_mem (k_mem k) p n) = Some t -> as_bytes t = read_mem (k_mem k) p n /\ is_str t).
  { intros p n t. unfold from_utf8, is_str. destruct (utf8_valid _) eqn:Eu; [|done]. intros [= <-]. rewrite as_bytes_of_bytes; [done|].
    unfold read_mem. apply Forall_fmap, Forall_forall. intros x _. apply Hmem. }
  destruct (Hstr _ _ _ E4), (Hstr _ _ _ E5). split; [done|]. exists ssid, pass. split_and!; done || lia.
Qed.
End Shown.

Section Kept.
Context {C : Type} `{HR : !Radio C} {D : Type} `{HD : NorFlash D, HL : !NorFlashLaws D}.
Implicit Types (s : Node C D) (l : Link).

(** The credentials of a network that was configured are those of the next start, unless
    the chip failed; they fit, for the device refuses longer ones. *)
Theorem credentials_persist built ssid pass s : is_str ssid -> is_str pass -> reads_ok (nd_flash s) ->
  let '(s', again) := process_wifi_cmd (Connect ssid pass) s in
  reads_ok (nd_flash s') -> again = true -> (save ssid pass (nd_flash s)).2 = Ok tt ->
  boot_credentials built (nd_flash s') = (ssid, pass) /\ wl_ssid (nd_wlan s') = Some ssid /\ status (nd_wlan s') = Connecting /\
  HostKeyStore.load_seed (nd_flash s') = HostKeyStore.load_seed (nd_flash s).
Proof.
  intros Hs Hp Hr. unfold process_wifi_cmd. destruct (_ || _); [by intros|]. destruct (r_configure _ _ _ _) as [c [|]]; [|by intros].
  destruct (save ssid pass (nd_flash s)) as [d r] eqn:E. cbn. intros Hr' _ ->. destruct (wifi_roundtrip ssid pass _ _ _ Hr Hr' Hs Hp E) as (H1 & _ & H3).
  unfold boot_credentials. rewrite (H1 eq_refl). by split_and!.
Qed.

(** The rounds of the task, and requests of programs in between. *)
Inductive round : Link * Node C D -> Link * Node C D -> Prop :=
  | r_request f l s : (f = request_scan \/ f = request_disconnect \/ exists ssid pass, f = request_connect ssid pass) -> round (l, s) (l, on_wlan f s)
  | r_cmds l s : round (l, s) (do_wifi_cmds l s).1
  | r_dhcp ev l s : round (l, s) ((on_dhcp ev l (nd_wlan s)).1, on_wlan (fun w => (on_dhcp ev l w).2) s)
  | r_link l s : round (l, s) (link_check l s).

(** An address is shown only while the client has one. *)
Definition leased (st : Link * Node C D) : Prop := wl_ip (nd_wlan st.2) <> None -> have_ip st.1 = true.
Lemma cmd_ip wc s : let '(s', again) := process_wifi_cmd wc s in wl_ip (nd_wlan s') = (if again then None else wl_ip (nd_wlan s)).
Proof.
  destruct wc as [|ssid pass|]; cbn [process_wifi_cmd].
  - cbn zeta. destruct (scan_loop 3 _) as [c [e|aps]]; done.
  - destruct (_ || _); [done|]. destruct (r_configure _ _ _ _) as [c [|]]; [|done]. by destruct (save _ _ _).
  - done.
Qed.
Theorem address_is_leased st st' : leased st -> rtc round st st' -> leased st'.
Proof.
  intros H0 Hr. induction Hr as [|st1 st2 st3 Hstep _ IH]; [done|]. apply IH. clear IH. destruct Hstep as [f l s Hf|l s|ev l s|l s]; unfold leased in *; cbn [fst snd] in *.
  - by destruct Hf as [-> |[-> |(ssid & pass & ->)]].
  - unfold do_wifi_cmds. assert (H : forall q l s b, (wl_ip (nd_wlan s) <> None -> have_ip l = true) ->
      let '(l', s', _) := foldl (fun '(l, s, again) wc => let '(s, b) := process_wifi_cmd wc s in if b then (set_have_ip false l, s, true) else (l, s, again)) (l, s, b) q in
      wl_ip (nd_wlan s') <> None -> have_ip l' = true).
    { induction q as [|wc q IH]; intros l1 s1 b Hq; cbn [foldl]; [done|]. pose proof (cmd_ip wc s1) as Hc. destruct (process_wifi_cmd wc s1) as [s2 [|]]; apply IH; [by rewrite Hc|by rewrite Hc]. }
    specialize (H (wl_cmds (nd_wlan s)) l (on_wlan (set_cmds []) s) false H0). destruct (foldl _ _ _) as [[l' s'] b]. exact H.
  - destruct ev as [addr|]; cbn; [by destruct (have_ip l) eqn:E; cbn|]. intros Hip. exfalso. apply Hip. by case_bool_decide.
  - unfold link_check. destruct (_ <? _); [done|]. destruct (r_connected _) as [c [|]]; [by destruct (associated l)|]. destruct (associated l); cbn; [done|exact H0].
Qed.

(** A lease that is renewed with another address is not shown: the address stays the one
    that came first. *)
Theorem renewed_address_hidden l w a b : have_ip l = true -> wl_ip w = Some a -> wl_ip (on_dhcp (Configured (Some b)) l w).2 = Some a.
Proof. intros E Ha. cbn. by rewrite E. Qed.
(** A network that was left on request is joined again by the next check of the link. *)
Theorem disconnect_undone l s : let s1 := (process_wifi_cmd Disconnect s).1 in
  next_check l <= r_uptime_ms (nd_radio s1) -> (r_connected (nd_radio s1)).2 = false ->
  status (nd_wlan s1) = Down /\ status (nd_wlan (link_check l s1).2) = Connecting /\ nd_radio (link_check l s1).2 = r_connect (r_connected (nd_radio s1)).1.
Proof.
  cbn zeta. intros Ht Hc. split; [done|]. unfold link_check. rewrite (proj2 (Z.ltb_ge _ _) Ht). destruct (r_connected _) as [c b]. cbn in Hc. subst b. by destruct (associated l).
Qed.
End Kept.
